(* ===== verification/_CoqProject ===== *)
-Q . S2P
Prelude.v
Errors.v
JobStatus.v
Tracker.v
TaskDao.v
TaskManager.v
Period.v
Scheduler.v
SchedulerSpec.v
Blob.v
GC.v
Quota.v
Retention.v
Rbac.v
Query.v
Pages.v
Token.v
Robot.v
RobotRights.v
RobotFlow.v
Orm.v
ArtifactDb.v
Manifest.v
Artifact.v
ArtifactDelete.v
ArtifactFuel.v
ArtifactOps.v
Vuln.v
Scan.v
Cached.v
CachedManager.v
CachedResources.v
RegClient.v
OciRegistry.v
Transfer.v
TransferSafe.v
TransferChunk.v
RegFilter.v
RepPolicy.v
Replication.v
ReplicationSpec.v
ReplicationFlow.v
QuotaPush.v
QuotaPushSpec.v
RetentionRun.v
RetentionRunSpec.v
RetentionPolicy.v
RetentionPolicySpec.v
ScanLaunch.v
ScanLaunchSpec.v
