(* ===== verification/Prelude.v ===== *)
(** * Harbor: a verification development

    Harbor is a registry for container images.  Its core service keeps
    projects, artifacts, blobs, quotas and policies in a database; a job
    service runs long tasks (garbage collection, retention, scanning,
    replication) and reports their progress through hooks; clients push and
    pull through the registry API, whose middlewares call the core
    controllers.  This development models, in Rocq, the parts where data is
    lost or limits are broken when a step goes wrong, as executable
    definitions translated from the Go sources, and proves the properties
    that make them correct.  Paths below are those of the repository.

    ** The parts and their files

    - [Prelude] (this file): notations, 64-bit integers with their
      wrap-around ([Int64]), decimal conversion ([Strconv]) and the string
      functions of Go that the sources use ([GoStrings]), with their lemmas.
    - [Errors]: [src/lib/errors], [src/lib/orm/error.go] and
      [src/lib/retry].  Coded errors with their chains, the state and error
      monad [M], and the class [Faulty] of stores whose calls can fail: a
      store holds the list of the faults to come, and every call to the
      database, to redis or to a remote service takes the next one.
    - [JobStatus]: [src/jobservice/job/status.go] and the Lua scripts of
      [src/jobservice/common/rds/scripts.go] over the redis hashes.
    - [Tracker]: [src/jobservice/job/tracker.go] and [models.go], and
      [src/jobservice/lcm/controller.go]: every operation of the tracker,
      with failing redis calls, and the loop that retries status updates.
    - [TaskDao]: [src/pkg/task/dao]: the tables of executions and tasks, the
      derived status of an execution under optimistic locking, the guarded
      status update of a task, and the redis set of outdated executions.
    - [TaskManager]: [src/pkg/task]: the managers of executions and tasks
      and the handler of the job service's events, on top of [TaskDao].
    - [Period]: [src/jobservice/period], with [StopJob] and
      [PeriodicallyEnqueue] of [src/jobservice/worker/cworker]: the policies
      of periodic jobs and the enqueuer that schedules their executions.
    - [Scheduler]: [src/pkg/scheduler]: the schedules of the core service,
      over [TaskManager], and the callbacks of their check-ins.
      [SchedulerSpec] relates the schedules to the plans of a component that
      uses it, and has the transactions of requests; replication and retention
      policies are its clients.
    - [Blob]: [src/pkg/blob], [src/controller/blob],
      [src/pkg/artifactrash/dao] and the middlewares of
      [src/server/middleware/blob].
    - [GC]: [src/jobservice/job/impl/gc], which marks and sweeps the blobs
      of [Blob] while clients touch them.
    - [Quota]: [src/pkg/quota], [src/controller/quota] with its database and
      redis providers, and the project driver.  The class [Driver] is what
      the controller asks of a driver; the project driver, which adds up the
      blobs of [Blob], is its instance.
    - [QuotaPush], [QuotaPushSpec]: [src/server/middleware/quota]: what pushes,
      mounts and copies ask of [Quota] around the middlewares of [Blob], and
      that the usage of a project stays the size of its blobs.
    - [Retention]: [src/lib/selector], [src/pkg/retention/policy] and
      [src/pkg/immutable/match/rule]: selectors, rules, the OR processor as
      a step relation over its goroutines and channels, the retain action.
    - [RetentionRun], [RetentionRunSpec]: [src/pkg/retention] and
      [src/controller/retention]: a run of a policy becomes jobs over
      [TaskManager], and what these jobs delete.
    - [RetentionPolicy], [RetentionPolicySpec]: the policies of
      [src/pkg/retention] and [src/controller/retention] with the handlers of
      [src/server/v2.0/handler/retention.go]: their table, their schedules and
      the projects that name them stay in step.
    - [Rbac]: [src/common/rbac], [src/pkg/permission] and the contexts of
      local users and robots of [src/common/security].  The class [Casbin]
      is what the third-party enforcer promises for Harbor's model.
    - [Query]: [src/lib/q], [src/lib/orm/query.go] and [metadata.go]: the
      query strings of the API, and the filters, sorts and pages they become.
      [Pages]: the links between pages of [src/server/v2.0/handler/base.go], with
      what [net/url] makes of their queries.
    - [Token]: [src/core/service/token], [src/server/middleware/v2auth],
      [src/common/security/v2token] and its generator: how a registry client
      is challenged, gets a token and is let through.  The class [Consistent]
      is what it asks of a user's security context; the local users of [Rbac]
      are an instance.
    - [Robot]: [src/controller/robot], [src/pkg/robot], [src/pkg/rbac], the
      handlers of [src/server/v2.0/handler/robot.go] and the authentication of
      robots: accounts, secrets and stored permissions.  [RobotRights] puts
      them before the evaluators of [Rbac]; [RobotFlow] has the well-formedness
      of the tables and the way from a request to a context.
    - [Orm]: [src/lib/orm/orm.go] and [tx.go]: a database connection with its
      transactions and savepoints, whose statements can fail and whose failed
      statements abort the transaction, as PostgreSQL's do.
    - [ArtifactDb]: the tables of artifacts, references, tags, accessories,
      labels, repositories, projects and the trash with the constraints of
      the schema, and the DAOs and managers of [src/pkg/artifact],
      [src/pkg/tag], [src/pkg/accessory], [src/pkg/label] and others.
    - [Manifest]: [src/controller/artifact/abstractor.go] and [manifest]: what
      an artifact takes from its manifest, and in-toto attestations.
    - [Artifact]: [src/controller/tag] and [src/controller/artifact]: ensuring,
      deleting, copying, labelling and walking artifacts and tags.
      [ArtifactDelete] has the theorems on deletion, [ArtifactFuel] its
      termination, [ArtifactOps] the other operations and the classes [Abstractor] (implemented by [Manifest]) and
      [RegistryClient].
    - [Vuln]: [src/pkg/scan/vuln], [src/pkg/scan/report] and
      [src/pkg/allowlist]: vulnerability reports and how they are merged, and
      the allowlists of CVEs.
    - [Scan]: [src/controller/scan] without the launching of scans, and
      [src/server/middleware/vulnerable]: the reports of an artifact, what
      counts as vulnerable in them, and which pulls the policy refuses.
      [ScanLaunch], [ScanLaunchSpec]: how scans are launched, stopped and ended,
      over [TaskManager] and [Robot], and that at most one scan of a report is
      unfinished.
    - [Cached]: [src/lib/cache] and the keys of [src/pkg/cached].  The classes
      [CacheOps], [Cache] and [Reliable] are what the managers ask of a cache;
      the caches in memory and in redis are instances.  [CachedManager] has the
      manager of a cached resource, with the hooks that run after a commit, and
      its simulation by the plain manager; [CachedResources] the artifacts,
      repositories, projects, project metadata and manifests, and the theorems.
    - [RegClient]: [src/pkg/registry/client.go] with [src/lib/link.go] and the
      read-only interceptor: the client of a registry, over HTTP requests.
      [OciRegistry] is what the distribution specification says of the
      registry at the other end, with the ways an exchange fails, and the
      effect of every operation of the client under it; a registry in memory
      is an instance.
    - [Transfer]: [src/controller/replication/transfer/image/transfer.go] over
      the interface of [src/pkg/reg/adapter]: the copying and deleting of
      images that a replication task does.  [TransferSafe] has the laws of the
      two registries, which the client discharges for the native adapter, and
      what a transfer leaves; [TransferChunk] the copying of blobs by chunks.
    - [RegFilter]: [src/pkg/reg/filter], [src/pkg/reg/util/pattern.go] and the
      pure part of [src/controller/replication/flow/stage.go]: what a policy
      selects, and the names at the destination.  [RepPolicy] has the policies of
      [src/controller/replication/model] and their rows with JSON columns, over
      the class [Json] of JSON texts, of which [CodedJson] is an instance.
    - [Replication]: [src/controller/replication] with [flow], the table of
      policies, the API's handlers and the handler of artifact events, over
      [TaskManager] and [Scheduler].  [ReplicationSpec] shows that schedules and
      policies stay in step, [ReplicationFlow] what flows and starts do.

    Operations are functions in the monad [M] over the component's store, a
    record of its tables; they are composed as the code composes them, and a
    failing call leaves the effects of the calls before it.  Concurrency is a
    step relation whose steps are the single statements or scripts the
    database and redis execute atomically, so that any interleaving of the
    operations is a path.

    ** What the theorems show

    - Concurrency: reservations and roll backs of quotas lose no usage and
      keep the limits ([Quota.no_lost_usage]); a blob that a client touched
      survives the collector, unless the client took a slow deletion for failed or
      the collector's last step failed ([GC.touched_blob_survives]); concurrent
      refreshes leave an execution with the status its tasks give
      ([TaskDao.refresh_converges]); redis never replaces a job's final
      status ([JobStatus.final_status_sticky]); hook events commute
      ([TaskDao.hooks_commute]); the OR processor is the same as a sequential
      reference whatever the order of its goroutines
      ([Retention.or_processor_refines]) and always ends.
    - Refinement and functional behaviour: status events reach the execution
      ([TaskManager.event_reaches_execution]); quota requests, refreshes,
      task creation, stopping and deletion are specified on every branch; the
      rights of local users are exactly the tables' ones and the roles are
      ordered ([Rbac.local_can_spec]); job stats are saved and loaded back; a
      client that follows the links gets every row once ([Pages.pages_complete]).
    - Access: a local user's rights are exactly those of the tables, a token
      has the rights of its user and no more, it is as good as the user's own
      credentials for the request it was asked for, and it does not outlive
      its project ([Token]); a query filters only by what a model declares
      ([Query.filters_only_declared]).
    - Robot accounts: a created robot logs in with its secret and has exactly
      the accesses asked for ([RobotFlow.created_robot_authenticates]), and a
      robot hands on only what it has ([RobotRights.delegation_bounded]).
    - Scheduling: no time of a stored periodic policy whose times recur is missed
      while a node takes its turns ([Period.no_fire_missed]), the callback of a
      check-in that was committed runs no more, and one that was rolled back runs
      again ([Scheduler.no_duplicate_trigger]), and scheduling is all or nothing.
    - Caching: outside transactions a cached manager cannot be told from the
      manager without a cache, but for artifacts one of whose references was
      deleted and for deleted project metadata
      ([CachedResources.cached_manager_refines]), and a
      marked transaction that is rolled back leaves nothing in the cache
      ([CachedResources.marked_rollback_coherent]).
    - Replication: whatever fails, a transfer leaves complete images only and
      touches no tag it was not asked for ([TransferSafe.copy_keeps_complete]),
      and when it succeeds every reference stands for what the source's stands
      for ([TransferSafe.copy_replicates]); a chunked copy goes on where the
      registry stands ([TransferChunk.chunk_copy_resumes]).  A policy's filters
      select exactly what they say, for accessories by the tags of their subjects
      ([RegFilter.filters_exact]); a
      policy is read back as it was stored ([RepPolicy.policy_round_trip]); a
      scheduled policy has its one schedule, whatever requests fail
      ([ReplicationSpec.policies_stay_scheduled]); a flow creates one task for each
      resource to copy ([ReplicationFlow.copy_flow_creates_tasks]), and one that
      fails leaves an execution with its error
      ([ReplicationFlow.failed_start_is_recorded]).
    - Scanning: what the vulnerability policy lets through is clean or exempt
      ([Scan.pull_policy]), merging reports loses no item ([Vuln.merged_items]),
      and at most one scan of a report is unfinished
      ([ScanLaunchSpec.one_unfinished_scan]).
    - Artifacts: deletion removes only what it may and protects tagged,
      referenced and immutable artifacts ([ArtifactDelete]); pushing an artifact
      gives it and its tags as asked ([ArtifactOps.ensure_artifact_and_tags]); an
      immutable tag is not moved; no child of a pushed index is lost ([Manifest]).
    - Round trips: job stats ([Tracker]), query strings ([Query]) and the
      identifiers of merged reports ([Vuln]).
    - Termination: the page walk of the collector, the asynchronous refresh,
      the retention processor, the deletion of artifacts and the walk over
      pages end.
    - Retention runs: a run submits one job for each repository that an enabled
      rule selects ([RetentionRunSpec.launch_exact]), and no job deletes what a
      rule of its repository retains or an immutable rule protects
      ([RetentionRunSpec.run_deletes_unretained]); policies, schedules and
      projects stay in step, but for projects whose deletion failed half-way
      ([RetentionPolicySpec.retention_in_step]).
    - Failures: what a failing call leaves behind, that a dry run changes
      nothing, and that the sweep touches its candidates only.
    - Defects: theorems that show code doing other than it means to, each on
      a path of the model: errors of retention rules that are lost, a robot
      that loses its rights, limits that are reset by the redis flush, an
      asynchronous refresh that spins, day counts and sizes that overflow,
      mounted blobs that are collected, a matcher of immutable rules that is
      shared by all requests, images that can neither be scanned nor pulled,
      a cron whose times never come, robots whose permission on projects
      reaches everything in them, deleted metadata that the cache still
      shows, a chunked copy that no retry can save, uploads and mounts that are charged
      for other bytes than they store, events that replicate what their
      policy filters out, stopped retention runs that are launched all the
      same, retention policies that outlive their name, and others.

    ** Bounds and fuel

    Integers that the code computes with at 64 bits wrap around where the
    result can leave the range (quota sums, durations of days); identifiers,
    versions and times are integers.  [GC.untagged_pages] gets one unit of
    fuel per blob of the store and two more ([GC.page_fuel]), which is enough
    since every full page ends at a higher identifier; the theorem on it
    includes that.  [TaskDao.scan] is shown to end with one unit per batch
    of the set and one more when the refreshes succeed, and to exhaust any
    fuel when they all fail; [TaskDao.update_batches] gets the length of its
    list.  [Artifact.deleteDeeply] ends with twice the rows of references and
    accessories and two more, which [ArtifactFuel.delete_terminates] shows;
    [Artifact.copyDeeply] and [Artifact.Walk] get fuel from their callers and
    the theorems on them hold for any.  [Pages.walk] gets one unit per row and one
    more.
    [Transfer.copyArtifact] and [RegClient.Copy] get a bound on the depth of
    indexes; more than the depth changes nothing
    ([TransferSafe.copy_artifact_ends]).  [Transfer.chunk_loop] gets the number
    of chunks that are left and two more, and [RegClient.pages] any number of
    pages.  [Period.schedule_loop] gets one unit per second of the horizon, 240, enough
    since the times of a cron are whole seconds apart.  The
    retry loop [Errors.Retry] gets the number of attempts that start before
    its time-out, which the theorems quantify over.  Decimal conversion
    writes at most twenty digits, enough for 64 bits.

    ** What is left out

    Third-party code is a parameter or a class: the glob matcher and JSON
    decoder of the selectors, [sort.Slice], the clock, casbin's enforcer, the
    signing of tokens, the ORM's query setter (a list of the calls made on it).
    The key derivation and the random strings are parameters of [Robot].
    The cron parser and the queue library's client are parameters of [Period]
    and [Scheduler].  The job service's client, the registry's client, the JSON codecs and the
    registered post functions are parameters too; the registry's storage is
    part of the collector's store and is reached by calls that can fail.
    Strings are sequences of bytes; letter case and white space are those of
    ASCII.  Logging, metrics, tracing and JSON rendering have no effect on
    the modelled state and are left out.  Sleeps and back-off durations are
    left out: a time-out is the number of attempts before it.

    Not modelled yet, in the order in which the development is to grow:
    the checks of immutability and signatures on push and pull,
    configuration metadata ([src/lib/config]), the proxy cache, scans
    for SBOMs, the reaper of the job service, webhooks.  The portal, most HTTP
    handlers, generated API code, registry adapters and start-up code are input and output and stay out. *)

From Stdlib Require Export ZArith Lia Ascii.
From stdpp Require Export base tactics option gmap strings list fin_maps.
From stdpp Require Export sorting.

#[export] Set Default Goal Selector "!".

Declare Scope go_scope.
Delimit Scope go_scope with go.
#[global] Open Scope string_scope.
#[global] Open Scope list_scope.
#[global] Open Scope go_scope.
#[global] Open Scope Z_scope.

(** Boolean equality on strings, as the source's [==]. *)
Notation "s =s= t" := (String.eqb s%string t%string) (at level 70) : go_scope.

(** ** Machine integers *)

Module Int64.

(** The range of Go's [int64] and its two's complement wrap-around. *)
Definition min : Z := - 2 ^ 63.
Definition max : Z := 2 ^ 63 - 1.
Definition wrap (z : Z) : Z := (z + 2 ^ 63) mod 2 ^ 64 - 2 ^ 63.
Definition in_range (z : Z) : Prop := min <= z <= max.

Lemma wrap_in_range z : in_range (wrap z).
Proof.
  unfold in_range, wrap, min, max.
  pose proof (Z.mod_pos_bound (z + 2 ^ 63) (2 ^ 64) ltac:(lia)). lia.
Qed.

Lemma wrap_id z : in_range z -> wrap z = z.
Proof.
  unfold in_range, wrap, min, max. intros H. rewrite Z.mod_small; lia.
Qed.

Lemma wrap_idemp z : wrap (wrap z) = wrap z.
Proof. apply wrap_id, wrap_in_range. Qed.

Lemma wrap_sub_add a b : wrap (wrap (a + b) - b) = wrap a.
Proof.
  unfold wrap. f_equal.
  replace ((a + b + 2 ^ 63) mod 2 ^ 64 - 2 ^ 63 - b + 2 ^ 63)
    with ((a + b + 2 ^ 63) mod 2 ^ 64 + - b) by lia.
  rewrite Z.add_mod_idemp_l by lia. f_equal. lia.
Qed.

End Int64.
Create HintDb go.
#[export] Hint Resolve Int64.wrap_in_range : go.

(** ** strconv *)

Module Strconv.

Definition digit (d : Z) : ascii := Ascii.ascii_of_N (48 + Z.to_N d).

Definition digit_value (c : ascii) : option Z :=
  let n := Z.of_N (Ascii.N_of_ascii c) in
  if (48 <=? n) && (n <=? 57) then Some (n - 48) else None.

(** Decimal digits read from left to right. *)
Fixpoint read_digits (s : string) (acc : Z) : option Z :=
  match s with
  | EmptyString => Some acc
  | String c s' =>
      match digit_value c with
      | Some d => read_digits s' (acc * 10 + d)
      | None => None
      end
  end.

Fixpoint write_digits (fuel : nat) (n : Z) (acc : string) : string :=
  match fuel with
  | O => acc
  | S fuel' =>
      if n <? 10 then String (digit n) acc
      else write_digits fuel' (n / 10) (String (digit (n mod 10)) acc)
  end.

(** [strconv.FormatInt(z, 10)]: twenty digits are enough for 64 bits. *)
Definition format_int (z : Z) : string :=
  if z <? 0 then String "-" (write_digits 20 (- z) "")
  else write_digits 20 z "".

(** [strconv.ParseInt(s, 10, 64)]: an optional sign, at least one digit,
    and a value in range; [None] stands for the error. *)
Definition parse_body (neg : bool) (s : string) : option Z :=
  match s with
  | EmptyString => None
  | _ =>
      match read_digits s 0 with
      | Some n =>
          let z := if neg then - n else n in
          if (Int64.min <=? z) && (z <=? Int64.max) then Some z else None
      | None => None
      end
  end.

Definition parse_int (s : string) : option Z :=
  match s with
  | EmptyString => None
  | String c s' =>
      if Ascii.eqb c "-" then parse_body true s'
      else if Ascii.eqb c "+" then parse_body false s'
      else parse_body false s
  end.

Lemma digit_value_digit d : 0 <= d < 10 -> digit_value (digit d) = Some d.
Proof.
  intros Hd. unfold digit_value, digit.
  rewrite Ascii.N_ascii_embedding by lia.
  destruct (Z.leb_spec 48 (Z.of_N (48 + Z.to_N d)));
    destruct (Z.leb_spec (Z.of_N (48 + Z.to_N d)) 57); simpl; try lia;
    f_equal; lia.
Qed.

Lemma read_write_digits fuel n acc :
  0 <= n < 10 ^ Z.of_nat fuel ->
  (0 < fuel)%nat ->
  read_digits (write_digits fuel n acc) 0 = read_digits acc n.
Proof.
  revert n acc. induction fuel as [|fuel IH]; intros n acc Hn Hf; [lia|].
  cbn [write_digits]. destruct (Z.ltb_spec n 10) as [Hlt|Hge].
  - cbn [read_digits]. rewrite digit_value_digit by lia. f_equal; lia.
  - rewrite Nat2Z.inj_succ, Z.pow_succ_r in Hn by lia.
    assert (Hpos : (0 < fuel)%nat) by (destruct fuel; [simpl in Hn; lia|lia]).
    pose proof (Z.mod_pos_bound n 10 ltac:(lia)).
    rewrite IH; [|split; [apply Z.div_pos; lia|apply Z.div_lt_upper_bound; lia]|done].
    cbn [read_digits]. rewrite digit_value_digit by lia. f_equal.
    pose proof (Z.div_mod n 10 ltac:(lia)). lia.
Qed.

Lemma write_digits_head fuel n acc :
  0 <= n -> (0 < fuel)%nat ->
  exists d s, write_digits fuel n acc = String (digit d) s /\ 0 <= d < 10.
Proof.
  revert n acc. induction fuel as [|fuel IH]; intros n acc Hn Hf; [lia|].
  cbn [write_digits]. destruct (Z.ltb_spec n 10) as [Hlt|Hge].
  - exists n, acc. split; [done|lia].
  - destruct fuel as [|fuel].
    + cbn [write_digits]. pose proof (Z.mod_pos_bound n 10 ltac:(lia)). eauto.
    + apply IH; [apply Z.div_pos; lia|lia].
Qed.

Lemma digit_not_sign d : 0 <= d < 10 -> digit d <> "-"%char /\ digit d <> "+"%char.
Proof.
  intros Hd. split; intros E; apply (f_equal digit_value) in E;
    rewrite digit_value_digit in E by done; discriminate.
Qed.

Lemma parse_body_write neg n :
  0 <= n < 10 ^ 20 -> Int64.in_range (if neg : bool then - n else n) ->
  parse_body neg (write_digits 20 n "") = Some (if neg then - n else n).
Proof.
  intros Hn Hz.
  destruct (write_digits_head 20 n "") as (d & s & E & _); [lia|lia|].
  assert (R : read_digits (write_digits 20 n "") 0 = Some n)
    by (rewrite read_write_digits by lia; done).
  unfold parse_body. rewrite E in R |- *. rewrite R.
  unfold Int64.in_range in Hz.
  destruct (Z.leb_spec Int64.min (if neg then - n else n));
    destruct (Z.leb_spec (if neg then - n else n) Int64.max); simpl; try lia; done.
Qed.

(** Formatting a 64-bit integer and parsing it back gives the integer. *)
Lemma parse_format_int z : Int64.in_range z -> parse_int (format_int z) = Some z.
Proof.
  intros Hz. pose proof Hz as Hr. unfold Int64.in_range, Int64.min, Int64.max in Hr.
  unfold format_int. destruct (Z.ltb_spec z 0) as [Hneg|Hpos].
  - cbn [parse_int]. replace (Ascii.eqb "-" "-") with true by done.
    rewrite parse_body_write; rewrite ?Z.opp_involutive; [done|lia|done].
  - pose proof (parse_body_write false z ltac:(lia) Hz) as B.
    destruct (write_digits_head 20 z "") as (d & s & E & Hd); [lia|lia|].
    rewrite E in B |- *. destruct (digit_not_sign d Hd) as [N1 N2].
    cbn [parse_int]. apply Ascii.eqb_neq in N1, N2. rewrite N1, N2. done.
Qed.

End Strconv.

(** ** The [strings] package *)

Module GoStrings.

Definition HasPrefix (s prefix : string) : bool := String.prefix prefix s.

Fixpoint drop (n : nat) (s : string) : string :=
  match n, s with
  | S n', String _ s' => drop n' s'
  | _, _ => s
  end.

Definition TrimPrefix (s prefix : string) : string :=
  if HasPrefix s prefix then drop (String.length prefix) s else s.

Definition is_space (c : ascii) : bool :=
  let n := Ascii.N_of_ascii c in
  ((9 <=? n)%N && (n <=? 13)%N) || (n =? 32)%N.

Fixpoint trim_left (s : string) : string :=
  match s with
  | String c s' => if is_space c then trim_left s' else s
  | EmptyString => EmptyString
  end.

(** True when the string holds nothing but white space, which is what
    [len(strings.TrimSpace(s)) == 0] tests. *)
Definition is_blank (s : string) : bool := (trim_left s =s= "").

Fixpoint trim_right (s : string) : string :=
  match s with
  | String c s' =>
      match trim_right s' with
      | EmptyString => if is_space c then EmptyString else String c EmptyString
      | t => String c t
      end
  | EmptyString => EmptyString
  end.

Definition TrimSpace (s : string) : string := trim_right (trim_left s).

(** [strings.ToLower] and [strings.EqualFold] on ASCII letters. *)
Definition ToLower_char (c : ascii) : ascii :=
  let n := Ascii.nat_of_ascii c in
  if ((65 <=? n) && (n <=? 90))%nat then Ascii.ascii_of_nat (n + 32) else c.

Fixpoint ToLower (s : string) : string :=
  match s with
  | EmptyString => EmptyString
  | String c s' => String (ToLower_char c) (ToLower s')
  end.

Definition EqualFold (s t : string) : bool := ToLower s =s= ToLower t.

(** [strings.Split(s, sep)] for a one-character separator. *)
Fixpoint Split (s : string) (sep : ascii) : list string :=
  match s with
  | EmptyString => [EmptyString]
  | String c s' =>
      if Ascii.eqb c sep then EmptyString :: Split s' sep
      else match Split s' sep with
           | w :: ws => String c w :: ws
           | [] => [String c EmptyString]
           end
  end.

(** [strings.SplitN(s, sep, 2)]. *)
Fixpoint SplitN2 (s : string) (sep : ascii) : list string :=
  match s with
  | EmptyString => [EmptyString]
  | String c s' =>
      if Ascii.eqb c sep then [EmptyString; s']
      else match SplitN2 s' sep with
           | w :: ws => String c w :: ws
           | [] => [String c EmptyString]
           end
  end.

Fixpoint Join (ws : list string) (sep : string) : string :=
  match ws with
  | [] => EmptyString
  | [w] => w
  | w :: ws' => (w ++ sep ++ Join ws' sep)%string
  end.

(** Occurrences of a character. *)
Fixpoint count (c : ascii) (s : string) : nat :=
  match s with
  | EmptyString => 0
  | String d s' => (if Ascii.eqb d c then 1 else 0) + count c s'
  end.

Lemma count_app c s t : count c (s ++ t)%string = (count c s + count c t)%nat.
Proof. induction s as [|d s IH]; simpl; [done|]. rewrite IH. lia. Qed.

Lemma SplitN2_app s t sep :
  count sep s = 0%nat -> SplitN2 (s ++ String sep t)%string sep = [s; t].
Proof.
  induction s as [|c s IH]; simpl; intros H.
  - by rewrite Ascii.eqb_refl.
  - destruct (Ascii.eqb c sep); simpl in H; [lia|]. by rewrite IH.
Qed.

Lemma Split_length s sep : length (Split s sep) = S (count sep s).
Proof.
  induction s as [|c s IH]; simpl; [done|].
  destruct (Ascii.eqb c sep); simpl; [by rewrite IH|].
  destruct (Split s sep); simpl in *; [done|]. lia.
Qed.

Lemma Split_none s sep : count sep s = 0%nat -> Split s sep = [s].
Proof.
  induction s as [|c s IH]; simpl; [done|].
  destruct (Ascii.eqb c sep); simpl; [lia|]. intros H. by rewrite IH.
Qed.

Lemma Split_sep s t sep :
  count sep s = 0%nat -> Split (s ++ String sep t)%string sep = s :: Split t sep.
Proof.
  induction s as [|c s IH]; simpl; intros H; [by rewrite Ascii.eqb_refl|].
  destruct (Ascii.eqb c sep); simpl in H; [lia|]. by rewrite IH.
Qed.

(** Joining words that lack the separator and splitting gives the words. *)
Lemma Split_Join ws sep :
  ws <> [] -> Forall (fun w => count sep w = 0%nat) ws -> Split (Join ws (String sep "")) sep = ws.
Proof.
  induction ws as [|w ws IH]; [done|]. intros _ HF. inversion HF as [|? ? Hw Hws]; subst.
  destruct ws as [|w' ws]; [by apply Split_none|].
  cbn [Join]. change (String sep "" ++ ?x)%string with (String sep x).
  rewrite Split_sep by done. f_equal. by apply IH.
Qed.

Lemma app_nil s : (s ++ "")%string = s.
Proof. induction s as [|c s IH]; [done|]. exact (f_equal (String c) IH). Qed.

Lemma app_assoc s t u : ((s ++ t) ++ u)%string = (s ++ t ++ u)%string.
Proof. induction s as [|c s IH]; [done|]. exact (f_equal (String c) IH). Qed.

Lemma string_length_app s t : String.length (s ++ t)%string = (String.length s + String.length t)%nat.
Proof. induction s as [|c s IH]; [done|]. simpl. by rewrite IH. Qed.

Lemma HasPrefix_app p s : HasPrefix (p ++ s)%string p = true.
Proof.
  unfold HasPrefix. induction p as [|c p IH]; [by destruct s|].
  change (String c p ++ s)%string with (String c (p ++ s)). simpl. by destruct (ascii_dec c c).
Qed.

Lemma drop_app p s : drop (String.length p) (p ++ s)%string = s.
Proof. induction p as [|c p IH]; [done|]. exact IH. Qed.

Lemma TrimPrefix_app p s : TrimPrefix (p ++ s)%string p = s.
Proof. unfold TrimPrefix. by rewrite HasPrefix_app, drop_app. Qed.

(** A property of every character. *)
Fixpoint all_chars (p : ascii -> bool) (s : string) : bool :=
  match s with
  | EmptyString => true
  | String c s' => p c && all_chars p s'
  end.

Lemma all_chars_app p s t : all_chars p (s ++ t)%string = all_chars p s && all_chars p t.
Proof. induction s as [|c s IH]; simpl; [done|]. by rewrite IH, andb_assoc. Qed.

Lemma all_chars_impl (p q : ascii -> bool) s :
  (forall c, p c = true -> q c = true) -> all_chars p s = true -> all_chars q s = true.
Proof. intros Hpq. induction s as [|c s IH]; simpl; [done|]. intros [? ?]%andb_true_iff. rewrite Hpq, IH; done. Qed.

Lemma all_chars_count p c s : p c = false -> all_chars p s = true -> count c s = 0%nat.
Proof.
  intros Hc. induction s as [|d s IH]; simpl; [done|]. intros [Hd Hs]%andb_true_iff.
  destruct (Ascii.eqb_spec d c) as [->|]; [congruence|]. by apply IH.
Qed.

Lemma all_chars_write_digits p fuel n acc :
  (forall d, 0 <= d < 10 -> p (Strconv.digit d) = true) -> 0 <= n ->
  all_chars p (Strconv.write_digits fuel n acc) = all_chars p acc.
Proof.
  intros Hp. revert n acc. induction fuel as [|fuel IH]; intros n acc Hn; [done|].
  cbn [Strconv.write_digits]. destruct (Z.ltb_spec n 10).
  - cbn [all_chars]. by rewrite Hp by lia.
  - rewrite IH by (apply Z.div_pos; lia). cbn [all_chars].
    by rewrite Hp by (apply Z.mod_pos_bound; lia).
Qed.

Lemma all_chars_format_int p z :
  (forall d, 0 <= d < 10 -> p (Strconv.digit d) = true) -> p "-"%char = true ->
  all_chars p (Strconv.format_int z) = true.
Proof.
  intros Hp Hm. unfold Strconv.format_int. destruct (Z.ltb_spec z 0).
  - cbn [all_chars]. by rewrite Hm, all_chars_write_digits by (done || lia).
  - by rewrite all_chars_write_digits by (done || lia).
Qed.

Lemma count_write_digits c fuel n acc :
  0 <= n -> (forall d, 0 <= d < 10 -> Strconv.digit d <> c) ->
  count c (Strconv.write_digits fuel n acc) = count c acc.
Proof.
  intros Hn Hc. revert n acc Hn. induction fuel as [|fuel IH]; intros n acc Hn; [done|].
  cbn [Strconv.write_digits]. destruct (Z.ltb_spec n 10).
  - simpl. rewrite (proj2 (Ascii.eqb_neq _ _)); [done|]. apply Hc. lia.
  - rewrite IH by (apply Z.div_pos; lia). simpl.
    rewrite (proj2 (Ascii.eqb_neq _ _)); [done|].
    apply Hc, Z.mod_pos_bound. lia.
Qed.

Lemma count_colon_format_int z : count ":" (Strconv.format_int z) = 0%nat.
Proof.
  assert (Hc : forall d, 0 <= d < 10 -> Strconv.digit d <> ":"%char).
  { intros d Hd E. apply (f_equal Strconv.digit_value) in E.
    rewrite Strconv.digit_value_digit in E by done. discriminate. }
  unfold Strconv.format_int. destruct (Z.ltb_spec z 0);
    cbn [count]; rewrite count_write_digits by (done || lia); done.
Qed.

(** [strings.Contains]. *)
Fixpoint contains (s sub : string) : bool :=
  HasPrefix s sub || match s with String _ s' => contains s' sub | EmptyString => false end.

Lemma contains_app_r p s sub : contains s sub = true -> contains (p ++ s)%string sub = true.
Proof. intros H. induction p as [|c p IH]; [done|].
  change (HasPrefix (String c (p ++ s)) sub || contains (p ++ s) sub = true). rewrite IH. apply orb_true_r.
Qed.

#[global] Instance append_inj p : Inj (=) (=) (String.append p).
Proof. intros s t. induction p as [|c p IH]; cbn; [done|]. intros [= H]. by apply IH. Qed.

(** A string without a character, and a separator that is found again. *)
Fixpoint lacks (d : ascii) (s : string) : bool :=
  match s with
  | EmptyString => true
  | String c s => negb (Ascii.eqb c d) && lacks d s
  end.

Lemma split_sep d a b p q : lacks d a = true -> lacks d b = true ->
  (a ++ String d p = b ++ String d q)%string -> a = b /\ p = q.
Proof.
  revert b. induction a as [|c a IH]; intros [|e b] Ha Hb E.
  - by injection E as E.
  - exfalso. injection E as E _. subst e. cbn in Hb. by rewrite Ascii.eqb_refl in Hb.
  - exfalso. injection E as E _. subst c. cbn in Ha. by rewrite Ascii.eqb_refl in Ha.
  - cbn in Ha, Hb. apply andb_true_iff in Ha as [_ Ha], Hb as [_ Hb].
    change (String c (a ++ String d p) = String e (b ++ String d q))%string in E.
    injection E as -> E. destruct (IH b Ha Hb E) as [-> ->]. done.
Qed.

Lemma lacks_sep d a b : lacks d (a ++ String d b) = false.
Proof.
  induction a as [|c a IH].
  { change (negb (Ascii.eqb d d) && lacks d b = false). by rewrite Ascii.eqb_refl. }
  change (negb (Ascii.eqb c d) && lacks d (a ++ String d b) = false). by rewrite IH, andb_false_r.
Qed.

End GoStrings.

(** ** Lists *)


(** The sum of a list of integers. *)
Definition sum_Z (l : list Z) : Z := foldr Z.add 0 l.

Lemma sum_Z_app l k : sum_Z (l ++ k) = sum_Z l + sum_Z k.
Proof. induction l as [|x l IH]; simpl; [done|]. rewrite IH. lia. Qed.

(** The values of a map, as a table's rows are read. *)
Lemma elem_of_map_values `{Countable K} {A} (m : gmap K A) x :
  x ∈ (map_to_list m).*2 <-> exists i, m !! i = Some x.
Proof.
  rewrite list_elem_of_fmap. setoid_rewrite elem_of_map_to_list'.
  split; [intros ([i y] & -> & Hm); by exists i|]. intros [i Hm]. by exists (i, x).
Qed.
