(* ===== verification/Errors.v ===== *)
(** * Errors, results and retrying

    [src/lib/errors] (the coded error type and its queries),
    [src/lib/orm/error.go] (database errors turned into coded errors) and
    [src/lib/retry] (the retry loop and its abort marker), with the state and
    error monad in which the components' operations are written. *)

From S2P Require Import Prelude.

(** ** Error values *)

(** The dynamic types of the [error] values the modelled code creates and
    tests.  [Sentinel] is a package-level error variable, compared by
    identity; [Panic] stands for a run-time panic, which no code here
    recovers from. *)
#[warnings="-register-all"]
Inductive error : Type :=
| Coded (code message : string) (cause : option error)
| Plain (message : string)
| Sentinel (name : string)
| StatusMismatch (current target : string)
| ObjectNotFound (object : string)
| Aborted (cause : option error)
| PgError (sqlstate : string)
| HttpError (status : Z) (message : string)
| Panic (message : string).

Definition NotFoundCode : string := "NOT_FOUND".
Definition ConflictCode : string := "CONFLICT".
Definition BadRequestCode : string := "BAD_REQUEST".
Definition PreconditionCode : string := "PRECONDITION".
Definition GeneralCode : string := "UNKNOWN".
Definition DENIED : string := "DENIED".
Definition UnAuthorizedCode : string := "UNAUTHORIZED".
Definition ForbiddenCode : string := "FORBIDDEN".
Definition RateLimitCode : string := "TOO_MANY_REQUEST".
Definition ViolateForeignKeyConstraintCode : string := "VIOLATE_FOREIGN_KEY_CONSTRAINT".

(** The text of an error.  The job-service errors print themselves as JSON;
    only the fact that some text is there is used. *)
Fixpoint Error_string (e : error) : string :=
  match e with
  | Coded _ m None => m
  | Coded _ m (Some c) => (m ++ ": " ++ Error_string c)%string
  | Plain m => m
  | Sentinel n => n
  | StatusMismatch c t => ("mismatch job status: current " ++ c ++ ", setting to " ++ t)%string
  | ObjectNotFound o => ("object is not found: " ++ o)%string
  | Aborted (Some c) => ("retry abort, error: " ++ Error_string c)%string
  | Aborted None => "retry abort"
  | PgError c => ("SQLSTATE " ++ c)%string
  | HttpError c m => ("http error: code " ++ Strconv.format_int c ++ ", message " ++ m)%string
  | Panic m => m
  end.

(** [errors.New] of a message, and of an error (whose text it copies). *)
Definition New (message : string) : error := Coded "" message None.
Definition NewFrom (e : error) : error := Coded "" (Error_string e) None.

Definition WithCode (e : error) (code : string) : error :=
  match e with Coded _ m c => Coded code m c | _ => e end.
Definition WithMessage (e : error) (message : string) : error :=
  match e with Coded k _ c => Coded k message c | _ => e end.
Definition WithCause (e : error) (cause : option error) : error :=
  match e with Coded k m _ => Coded k m cause | _ => e end.

(** [errors.Wrap] of a non-nil error. *)
Definition Wrap (e : error) (message : string) : error := Coded "" message (Some e).

Definition NotFoundError (cause : option error) : error :=
  WithCause (WithCode (New "resource not found") NotFoundCode) cause.
Definition DeniedError (cause : option error) : error :=
  WithCause (WithCode (New "denied") DENIED) cause.
Definition BadRequestError (cause : option error) : error :=
  WithCause (WithCode (New "bad request") BadRequestCode) cause.

(** [errors.As(err, &e)] for [e] of type [*Error]: the first such error of
    the chain, which is the error itself since only [*Error] unwraps. *)
Definition As_Error (e : error) : option (string * string * option error) :=
  match e with Coded k m c => Some (k, m, c) | _ => None end.

Definition IsErr (e : error) (code : string) : bool :=
  match As_Error e with
  | Some (k, _, _) => k =s= code
  | None => false
  end.

Definition IsNotFoundErr (e : error) : bool := IsErr e NotFoundCode.

(** [errors.Cause]: the end of the chain of [*Error] causes. *)
Fixpoint Cause (e : error) : error :=
  match e with
  | Coded _ _ (Some c) => Cause c
  | _ => e
  end.

Fixpoint ErrCode (e : error) : string :=
  match e with
  | Coded k _ c =>
      if negb (k =s= "") then k
      else match c with Some c' => ErrCode c' | None => GeneralCode end
  | _ => GeneralCode
  end.

(** [errors.Is(err, sentinel)]. *)
Fixpoint Is (e : error) (name : string) : bool :=
  match e with
  | Sentinel n => n =s= name
  | Coded _ _ (Some c) => Is c name
  | _ => false
  end.

(** Database errors: [orm.ErrNoRows] is a sentinel of the ORM. *)
Definition ErrNoRows : error := Sentinel "orm.ErrNoRows".
Definition ErrOptimisticLock : error := Sentinel "orm.ErrOptimisticLock".

Definition AsNotFoundError (e : error) (message : string) : option error :=
  if Is e "orm.ErrNoRows" then
    let e' := NotFoundError None in
    Some (if negb (message =s= "") then WithMessage e' message else e')
  else None.

Definition WrapNotFoundError (e : error) (message : string) : error :=
  match AsNotFoundError e message with
  | Some e' => e'
  | None => e
  end.

(** The PostgreSQL error of a chain, [errors.As(err, &pgErr)]. *)
Fixpoint as_pg (e : error) : option string :=
  match e with
  | PgError c => Some c
  | Coded _ _ (Some c) => as_pg c
  | _ => None
  end.

Definition IsDuplicateKeyError (e : error) : bool :=
  match as_pg e with Some c => c =s= "23505" | None => false end.

Definition isViolatingForeignKeyConstraintError (e : error) : bool :=
  match as_pg e with Some c => c =s= "23503" | None => false end.

Definition AsConflictError (e : error) (message : string) : option error :=
  if IsDuplicateKeyError e
  then Some (WithMessage (WithCode (NewFrom e) ConflictCode) message) else None.

Definition WrapConflictError (e : error) (message : string) : error :=
  match AsConflictError e message with Some e' => e' | None => e end.

Definition AsForeignKeyError (e : error) (message : string) : option error :=
  if isViolatingForeignKeyConstraintError e
  then Some (WithMessage (WithCode (NewFrom e) ViolateForeignKeyConstraintCode) message)
  else None.

(** ** Results and the effect monad *)

(** What a Go function with an [error] result returns. *)
Inductive result (A : Type) : Type :=
| Ok (a : A)
| Err (e : error).
Arguments Ok {A} _.
Arguments Err {A} _.

Definition is_ok {A} (r : result A) : bool :=
  match r with Ok _ => true | Err _ => false end.

(** A computation over a store: a failing call keeps the effects of the calls
    made before it. *)
Definition M (St A : Type) : Type := St -> result A * St.

Definition ret {St A} (a : A) : M St A := fun s => (Ok a, s).
Definition fail {St A} (e : error) : M St A := fun s => (Err e, s).
Definition bind {St A B} (m : M St A) (k : A -> M St B) : M St B :=
  fun s => match m s with
           | (Ok a, s') => k a s'
           | (Err e, s') => (Err e, s')
           end.
(** [x, err := m] with the error kept as a value. *)
Definition try {St A} (m : M St A) : M St (result A) :=
  fun s => match m s with (r, s') => (Ok r, s') end.
Definition get {St} : M St St := fun s => (Ok s, s).
Definition modify {St} (f : St -> St) : M St unit := fun s => (Ok tt, f s).
Definition of_result {St A} (r : result A) : M St A := fun s => (r, s).

Notation "x <- m ;; k" := (bind m (fun x => k))
  (at level 100, m at next level, right associativity) : go_scope.
Notation "m ;;; k" := (bind m (fun _ => k))
  (at level 100, right associativity) : go_scope.

(** A store that can make a call to the database, to redis or to another
    service fail: [next_fault] says whether the next such call fails, and
    with which error. *)
Class Faulty (St : Type) := next_fault : St -> option error * St.

(** A call that may fail before it has any effect. *)
Definition io {St A} `{Faulty St} (f : M St A) : M St A :=
  fun s => match next_fault s with
           | (Some e, s') => (Err e, s')
           | (None, s') => f s'
           end.

Fixpoint iterM {St A} (f : A -> M St unit) (l : list A) : M St unit :=
  match l with
  | [] => ret tt
  | x :: l' => f x ;;; iterM f l'
  end.

(** ** Retrying *)

Definition Abort (cause : error) : error := Aborted (Some cause).

(** [errors.As(err, &ab)] for [ab] of type [*abort]. *)
Fixpoint as_abort (e : error) : option (option error) :=
  match e with
  | Aborted c => Some c
  | Coded _ _ (Some c) => as_abort c
  | _ => None
  end.

Definition is_context_error (e : error) : bool :=
  Is e "context.Canceled" || Is e "context.DeadlineExceeded".

(** [retry.Retry]: the time-out is given as the number of calls of [f] that
    are started before it fires.  A context error of [f] ends the loop, an
    abort ends it with its cause (none: success), any other error is kept as
    the cause of the time-out. *)
Fixpoint Retry {St} (attempts : nat) (last : option error) (f : M St unit) : M St unit :=
  match attempts with
  | O => fail (Coded "" "retry timeout" last)
  | S n => fun s =>
      match f s with
      | (Ok _, s') => (Ok tt, s')
      | (Err e, s') =>
          if is_context_error e then (Err e, s')
          else match as_abort e with
               | Some (Some c) => (Err c, s')
               | Some None => (Ok tt, s')
               | None => Retry n (Some e) f s'
               end
      end
  end.

(** ** Facts about errors *)

(** Wrapping keeps the code that [ErrCode] reports but hides it from [IsErr]. *)
Lemma ErrCode_Wrap e m : ErrCode (Wrap e m) = ErrCode e.
Proof. done. Qed.

Lemma IsErr_Wrap e m code : code <> "" -> IsErr (Wrap e m) code = false.
Proof. intros H. unfold IsErr. simpl. destruct code; [done|reflexivity]. Qed.

Lemma IsNotFoundErr_NotFoundError c : IsNotFoundErr (NotFoundError c) = true.
Proof. done. Qed.

Lemma IsNotFoundErr_WithMessage e m : IsNotFoundErr (WithMessage e m) = IsNotFoundErr e.
Proof. by destruct e. Qed.

(** ** Facts about the monad *)

Lemma bind_ok {St A B} (m : M St A) (k : A -> M St B) s a s' :
  m s = (Ok a, s') -> bind m k s = k a s'.
Proof. intros E. unfold bind. by rewrite E. Qed.

Lemma bind_err {St A B} (m : M St A) (k : A -> M St B) s e s' :
  m s = (Err e, s') -> bind m k s = (Err e, s').
Proof. intros E. unfold bind. by rewrite E. Qed.

(** A success of a sequence is a success of both parts. *)
Lemma bind_inv {St A B} (m : M St A) (k : A -> M St B) s b s' :
  bind m k s = (Ok b, s') -> exists a s1, m s = (Ok a, s1) /\ k a s1 = (Ok b, s').
Proof. unfold bind. destruct (m s) as [[a|e] s1]; [|done]. eauto. Qed.

(** An invariant of the store kept by a computation. *)
Definition preserves {St A} (P : St -> Prop) (m : M St A) : Prop :=
  forall s, P s -> P (m s).2.

Section Preserves.
Context {St : Type} (P : St -> Prop).

Lemma preserves_ret {A} (a : A) : preserves P (ret a).
Proof. by intros s. Qed.

Lemma preserves_fail {A} e : preserves P (@fail St A e).
Proof. by intros s. Qed.

Lemma preserves_of_result {A} (r : result A) : preserves P (of_result r).
Proof. by intros s. Qed.

Lemma preserves_get : preserves P get.
Proof. by intros s. Qed.

Lemma preserves_modify f : (forall s, P s -> P (f s)) -> preserves P (modify f).
Proof. intros H s. apply H. Qed.

Lemma preserves_bind {A B} (m : M St A) (k : A -> M St B) :
    preserves P m -> (forall a, preserves P (k a)) -> preserves P (bind m k).
Proof.
    intros Hm Hk s Hs. unfold bind. specialize (Hm s Hs).
    destruct (m s) as [[a|e] s']; simpl in *; [by apply Hk|done].
Qed.

Lemma preserves_try {A} (m : M St A) : preserves P m -> preserves P (try m).
Proof. intros Hm s Hs. specialize (Hm s Hs). unfold try. by destruct (m s). Qed.

Lemma preserves_io {A} `{Faulty St} (f : M St A) :
    (forall s, P s -> P (next_fault s).2) -> preserves P f -> preserves P (io f).
Proof.
    intros Hn Hf s Hs. unfold io. specialize (Hn s Hs).
    destruct (next_fault s) as [[e|] s']; simpl in *; [done|by apply Hf].
Qed.

Lemma preserves_iterM {A} (f : A -> M St unit) l :
    (forall x, preserves P (f x)) -> preserves P (iterM f l).
Proof.
    intros Hf. induction l as [|x l IH]; simpl; [apply preserves_ret|].
    by apply preserves_bind.
Qed.

Lemma preserves_Retry n last f : preserves P f -> preserves P (Retry n last f).
Proof.
    intros Hf. revert last. induction n as [|n IH]; intros last s Hs; simpl; [done|].
    specialize (Hf s Hs). destruct (f s) as [[a|e] s']; simpl in *; [done|].
    destruct (is_context_error e); [done|].
    destruct (as_abort e) as [[c|]|]; try done. by apply IH.
Qed.
End Preserves.

#[export] Hint Resolve preserves_ret preserves_fail preserves_of_result preserves_get
  preserves_modify preserves_bind preserves_try preserves_io preserves_iterM
  preserves_Retry : go.

(** An invariant of the store kept by a computation whose result, when there
    is one, satisfies [Q]. *)
Definition ensures {St A} (P : St -> Prop) (m : M St A) (Q : A -> Prop) : Prop :=
  forall s, P s -> P (m s).2 /\ match (m s).1 with Ok a => Q a | Err _ => True end.

Section Ensures.
Context {St : Type} (P : St -> Prop).

Lemma ensures_of_preserves {A} (m : M St A) : preserves P m -> ensures P m (fun _ => True).
Proof. intros H s Hs. split; [by apply H|]. by destruct (m s).1. Qed.

Lemma ensures_preserves {A} (m : M St A) Q : ensures P m Q -> preserves P m.
Proof. intros H s Hs. by apply H. Qed.

Lemma ensures_weaken {A} (m : M St A) (Q R : A -> Prop) :
  ensures P m Q -> (forall a, Q a -> R a) -> ensures P m R.
Proof.
  intros H W s Hs. destruct (H s Hs) as [H1 H2]. split; [done|].
  destruct (m s).1; [by apply W|done].
Qed.

Lemma ensures_ret {A} (a : A) (Q : A -> Prop) : Q a -> ensures P (ret a) Q.
Proof. intros H s Hs. done. Qed.

Lemma ensures_fail {A} e (Q : A -> Prop) : ensures P (fail e) Q.
Proof. intros s Hs. done. Qed.

Lemma ensures_bind {A B} (m : M St A) (k : A -> M St B) Q R :
  ensures P m Q -> (forall a, Q a -> ensures P (k a) R) -> ensures P (bind m k) R.
Proof.
  intros Hm Hk s Hs. unfold bind. destruct (Hm s Hs) as [H1 H2].
  destruct (m s) as [[a|e] s']; cbn in *; [by apply Hk|done].
Qed.

Lemma ensures_try {A} (m : M St A) (Q : A -> Prop) :
  ensures P m Q -> ensures P (try m) (fun r => match r with Ok a => Q a | Err _ => True end).
Proof. intros Hm s Hs. unfold try. specialize (Hm s Hs). by destruct (m s). Qed.
End Ensures.

(** Retrying ends in success exactly when some attempt before the time-out
    succeeds (or aborts without a cause) and none before it is terminal. *)
Lemma Retry_ok_first {St} n last (f : M St unit) s u s' :
  f s = (Ok u, s') -> Retry (S n) last f s = (Ok tt, s').
Proof. intros E. simpl. by rewrite E. Qed.

Lemma Retry_again {St} n last (f : M St unit) s e s' :
  f s = (Err e, s') -> is_context_error e = false -> as_abort e = None ->
  Retry (S n) last f s = Retry n (Some e) f s'.
Proof. intros E E1 E2. simpl. by rewrite E, E1, E2. Qed.

Lemma Retry_abort {St} n last (f : M St unit) s e s' :
  f s = (Err (Abort e), s') -> Retry (S n) last f s = (Err e, s').
Proof. intros E. simpl. by rewrite E. Qed.
