(* ===== verification/JobStatus.v ===== *)
(** * Job status and its redis scripts

    [src/jobservice/job/status.go]: the status codes and their order, and
    [src/jobservice/common/rds/scripts.go]: the three Lua scripts that change
    the status, the hook acknowledgement and the in-progress track of a job
    atomically. *)

From S2P Require Import Prelude Errors.

(** ** The status type *)

Module Status.

Definition PendingStatus : string := "Pending".
Definition RunningStatus : string := "Running".
Definition StoppedStatus : string := "Stopped".
Definition ErrorStatus : string := "Error".
Definition SuccessStatus : string := "Success".
Definition ScheduledStatus : string := "Scheduled".

Definition Code (s : string) : Z :=
  if s =s= "Pending" then 0
  else if s =s= "Scheduled" then 1
  else if s =s= "Running" then 2
  else if s =s= "Stopped" then 3
  else if s =s= "Error" then 3
  else if s =s= "Success" then 3
  else -1.

Definition Validate (s : string) : result unit :=
  if Code s =? -1 then Err (Plain (s ++ " is not valid job status")) else Ok tt.

Definition Compare (s another : string) : Z := Code s - Code another.
Definition Before (s another : string) : bool := Code s - Code another <? 0.
Definition After (s another : string) : bool := Code s - Code another >? 0.
Definition Equal (s another : string) : bool := Code s - Code another =? 0.
Definition Final (s : string) : bool := Code s =? 3.

Lemma Code_bounds s : -1 <= Code s <= 3.
Proof. unfold Code. repeat case_match; lia. Qed.

Lemma Code_cases s :
  (Code s = -1 /\ s <> "Pending") \/ s = "Pending" \/ s = "Scheduled" \/ s = "Running"
  \/ s = "Stopped" \/ s = "Error" \/ s = "Success".
Proof.
  unfold Code.
  repeat match goal with
  | |- context [String.eqb s ?x] => destruct (String.eqb_spec s x); [tauto|]
  end.
  left. auto.
Qed.

Lemma Final_cases s :
  Final s = true <-> s = "Stopped" \/ s = "Error" \/ s = "Success".
Proof.
  split.
  - intros H. destruct (Code_cases s) as [[E _]|C];
      [unfold Final in H; rewrite E in H; done|].
    destruct C as [->|[->|[->|C]]]; try done; tauto.
  - intros [->|[->| ->]]; done.
Qed.

End Status.

(** ** Redis *)

(** The acknowledgement of a hook event ([ACK]), kept as JSON in the [ack]
    field of the job's hash; the encoding is elided. *)
Record ACK := mkACK {
  ack_status : string;
  ack_revision : Z;
  ack_check_in_at : Z;
}.

(** The hash of one job: its string fields and its acknowledgement. *)
Record jobHash := mkHash {
  fields : gmap string string;
  hash_ack : option ACK;
}.

Definition empty_hash : jobHash := mkHash ∅ None.

(** The redis data of one namespace.  [jobs] holds the hashes stored under
    [KeyJobStats(ns, id)], [track] the hash [KeyJobTrackInProgress(ns)],
    [ttl] the expiration set on a job's hash and [execs] the sorted sets
    [KeyUpstreamJobAndExecutions(ns, id)]; for a fixed namespace the keys are
    in bijection with the job identifiers. *)
Record redis := mkRedis {
  jobs : gmap string jobHash;
  track : gmap string Z;
  ttl : gmap string Z;
  execs : gmap string (gmap string Z);
}.

Definition with_jobs (r : redis) j := mkRedis j (track r) (ttl r) (execs r).
Definition with_track (r : redis) t := mkRedis (jobs r) t (ttl r) (execs r).
Definition with_ttl (r : redis) t := mkRedis (jobs r) (track r) t (execs r).
Definition with_execs (r : redis) x := mkRedis (jobs r) (track r) (ttl r) x.

Definition hash_of (r : redis) (id : string) : jobHash := default empty_hash (jobs r !! id).
Definition hget (r : redis) (id f : string) : option string := fields (hash_of r id) !! f.

(** HMSET with field and value pairs, in order. *)
Definition hmset (r : redis) (id : string) (kvs : list (string * string)) : redis :=
  let h := hash_of r id in
  with_jobs r (<[id := mkHash (foldl (fun m kv => <[kv.1 := kv.2]> m) (fields h) kvs)
                              (hash_ack h)]> (jobs r)).

(** HINCRBY of -1 on the track of a job, and its removal at zero. *)
Definition release_track (r : redis) (id : string) : redis :=
  let c := default 0 (track r !! id) - 1 in
  let r := with_track r (<[id := c]> (track r)) in
  if c <=? 0 then with_track r (delete id (track r)) else r.

(** Lua's [tonumber(x) or 0] on the decimal integers that are stored. *)
Definition tonumber (s : option string) : Z :=
  match s with
  | Some s' => default 0 (Strconv.parse_int s')
  | None => 0
  end.

(** ** The scripts *)

Definition stCode (status : option string) : Z :=
  match status with
  | Some s =>
      if s =s= "Pending" then 0
      else if s =s= "Scheduled" then 1
      else if s =s= "Running" then 2
      else if s =s= "Success" then 3
      else if s =s= "Stopped" then 3
      else if s =s= "Error" then 3
      else 0
  | None => 0
  end.

(** [setStatusScriptText].  The reply is ['ok'] or the status that is kept;
    [None] is the nil reply for a job without one. *)
Definition set_status_script (r : redis) (id status : string) (aRev now : Z)
    : option string * redis :=
  let st := hget r id "status" in
  let code := stCode st in
  let aCode := stCode (Some status) in
  let rev := tonumber (hget r id "revision") in
  if (rev <? aRev) || ((rev =? aRev) && ((code <? aCode) || bool_decide (st = Some status)))
  then
    let r := hmset r id [("status", status); ("update_time", Strconv.format_int now)] in
    let r :=
      if aCode =? 3 then
        let r := release_track r id in
        if (status =s= "Success") || (status =s= "Stopped")
        then with_ttl r (<[id := 86400]> (ttl r))
        else if status =s= "Error" then with_ttl r (<[id := 604800]> (ttl r))
        else with_ttl r (delete id (ttl r))
      else r in
    (Some "ok"%string, r)
  else (st, r).

(** [compare] of [luaFuncCompareText]: may an acknowledgement with the given
    status and revision be replaced by the arguments? *)
Definition compare_ack (status : string) (revision : Z) (aStatus : string) (aRev aCheckInT : Z) : bool :=
  let sCode := stCode (Some status) in
  let aCode := stCode (Some aStatus) in
  (revision <? aRev) || ((revision =? aRev) && (sCode <=? aCode))
  || ((revision =? aRev) && negb (aCheckInT =? 0)).

Definition canSetAck (r : redis) (id aStatus : string) (aRev aCheckInT : Z) : bool :=
  let rev := tonumber (hget r id "revision") in
  match hash_ack (hash_of r id) with
  | Some a => compare_ack (ack_status a) (ack_revision a) aStatus aRev aCheckInT
  | None => rev <=? aRev
  end.

(** [hookAckScriptText]. *)
Definition hook_ack_script (r : redis) (id status : string) (aRev aCheckInT : Z)
    : string * redis :=
  if negb (canSetAck r id status aRev aCheckInT) then ("none"%string, r)
  else
    let r := with_jobs r (<[id := mkHash (fields (hash_of r id))
                                         (Some (mkACK status aRev aCheckInT))]> (jobs r)) in
    let r := if stCode (Some status) =? 3 then release_track r id else r in
    ("ok"%string, r).

(** [statusResetScriptText]. *)
Definition status_reset_script (r : redis) (id status : string) (now : Z) : redis :=
  let r := hmset r id [("status", status); ("revision", Strconv.format_int now);
                       ("update_time", Strconv.format_int now)] in
  let h := hash_of r id in
  let r := with_jobs r (<[id := mkHash (delete "check_in" (delete "check_in_at" (fields h)))
                                       None]> (jobs r)) in
  with_track r (<[id := 2]> (track r)).

(** ** Lemmas on the redis operations *)

Lemma hash_of_insert r id h id' :
  hash_of (with_jobs r (<[id := h]> (jobs r))) id' = if decide (id = id') then h else hash_of r id'.
Proof. unfold hash_of. simpl. rewrite lookup_insert. by case_decide. Qed.

Lemma foldl_insert_other (kvs : list (string * string)) (m : gmap string string) f :
  Forall (fun kv => kv.1 <> f) kvs ->
  foldl (fun m kv => <[kv.1 := kv.2]> m) m kvs !! f = m !! f.
Proof.
  revert m. induction kvs as [|[k v] kvs IH]; intros m H; [done|].
  inversion H; subst. simpl in *. rewrite IH by done. by rewrite lookup_insert_ne.
Qed.

Lemma hget_hmset_other r id kvs id' f :
  id <> id' \/ Forall (fun kv => kv.1 <> f) kvs ->
  hget (hmset r id kvs) id' f = hget r id' f.
Proof.
  intros H. unfold hget, hmset. rewrite hash_of_insert. case_decide as E; [|done].
  subst. destruct H as [H|H]; [done|]. simpl. by apply foldl_insert_other.
Qed.

Lemma release_track_jobs r id : jobs (release_track r id) = jobs r.
Proof. unfold release_track. by case_match. Qed.

Lemma release_track_other r id id' :
  id <> id' -> track (release_track r id) !! id' = track r !! id'.
Proof.
  intros H. unfold release_track.
  case_match; simpl; by rewrite ?lookup_delete_ne, ?lookup_insert_ne by done.
Qed.

Lemma stCode_Code s : Status.Code s <> -1 -> stCode (Some s) = Status.Code s.
Proof.
  intros H. destruct (Status.Code_cases s) as [[E _]|C]; [done|].
  destruct C as [->|[->|[->|[->|[->| ->]]]]]; reflexivity.
Qed.

Lemma stCode_final s : stCode (Some s) = 3 <-> Status.Final s = true.
Proof.
  split.
  - intros H. destruct (Status.Code_cases s) as [[E _]|C].
    + exfalso. unfold stCode in H. unfold Status.Code in E.
      repeat case_match; done.
    + destruct C as [->|[->|[->|[->|[->| ->]]]]]; done.
  - intros H. rewrite Status.Final_cases in H. by destruct H as [->|[->| ->]].
Qed.

Lemma stCode_bounds s : 0 <= stCode s <= 3.
Proof. unfold stCode. repeat case_match; lia. Qed.

(** The status and the revision after the set-status script. *)
Definition accepts (r : redis) (id status : string) (aRev : Z) : bool :=
  let rev := tonumber (hget r id "revision") in
  (rev <? aRev) || ((rev =? aRev) &&
    ((stCode (hget r id "status") <? stCode (Some status))
     || bool_decide (hget r id "status" = Some status))).

Lemma set_status_script_jobs r id status aRev now :
  jobs (set_status_script r id status aRev now).2 =
  jobs (if accepts r id status aRev
        then hmset r id [("status", status); ("update_time", Strconv.format_int now)]
        else r)%string.
Proof.
  unfold set_status_script. fold (accepts r id status aRev).
  destruct (accepts r id status aRev); [|done]. simpl.
  repeat case_match; simpl; by rewrite ?release_track_jobs.
Qed.

Lemma set_status_script_hget r id status aRev now id' f :
  f <> "update_time" ->
  hget (set_status_script r id status aRev now).2 id' f =
  if decide (id = id' /\ f = "status" /\ accepts r id status aRev = true)
  then Some status else hget r id' f.
Proof.
  intros Hf. unfold hget at 1, hash_of. rewrite set_status_script_jobs.
  fold (hash_of (if accepts r id status aRev
        then hmset r id [("status", status); ("update_time", Strconv.format_int now)]
        else r)%string id').
  destruct (accepts r id status aRev); [|case_decide; naive_solver].
  fold (hget (hmset r id [("status", status); ("update_time", Strconv.format_int now)]%string) id' f).
  case_decide as D.
  - destruct D as (-> & -> & _). unfold hget, hmset.
    rewrite hash_of_insert. rewrite decide_True by done. simpl.
    rewrite lookup_insert_ne by done. by rewrite lookup_insert_eq.
  - apply hget_hmset_other. destruct (decide (id = id')); [right|by left].
    repeat constructor; simpl; [intros <-; naive_solver|congruence].
Qed.

Lemma hook_ack_script_hget r id status aRev t id' f :
  hget (hook_ack_script r id status aRev t).2 id' f = hget r id' f.
Proof.
  unfold hook_ack_script. case_match; [done|].
  assert (H1 : forall q, hget (if stCode (Some status) =? 3 then release_track q id else q) id' f
                       = hget q id' f).
  { intros q. case_match; [|done]. unfold hget, hash_of. by rewrite release_track_jobs. }
  simpl. rewrite H1. unfold hget. rewrite hash_of_insert. by case_decide; subst.
Qed.

Lemma status_reset_script_hget r id status now id' :
  id <> id' ->
  forall f, hget (status_reset_script r id status now) id' f = hget r id' f.
Proof.
  intros Hid f. unfold status_reset_script, hget, hmset, hash_of. simpl.
  by rewrite !lookup_insert_ne by done.
Qed.

Lemma status_reset_script_status r id status now :
  hget (status_reset_script r id status now) id "status" = Some status /\
  hget (status_reset_script r id status now) id "revision" = Some (Strconv.format_int now) /\
  track (status_reset_script r id status now) !! id = Some 2 /\
  hash_ack (hash_of (status_reset_script r id status now) id) = None.
Proof.
  unfold status_reset_script, hget, hmset, hash_of. simpl.
  rewrite !lookup_insert_eq. simpl.
  repeat split; rewrite ?lookup_delete_ne, ?lookup_insert_ne by done;
    rewrite ?lookup_insert_eq; done.
Qed.

Lemma release_track_lookup r id c :
  track r !! id = Some c ->
  track (release_track r id) !! id = if c <=? 1 then None else Some (c - 1).
Proof.
  intros E. unfold release_track. rewrite E. simpl.
  destruct (Z.leb_spec c 1); destruct (Z.leb_spec (c - 1) 0); simpl; try lia.
  - by rewrite lookup_delete_eq.
  - by rewrite lookup_insert_eq.
Qed.

(** An accepted final status releases the track once, whatever its kind. *)
Lemma set_status_script_track r id status aRev now :
  accepts r id status aRev = true -> Status.Final status = true ->
  track (set_status_script r id status aRev now).2 = track (release_track r id).
Proof.
  intros Ha Hf. unfold set_status_script. fold (accepts r id status aRev). rewrite Ha.
  apply stCode_final in Hf. rewrite Hf. simpl.
  assert (E : track (release_track (hmset r id
     [("status", status); ("update_time", Strconv.format_int now)]%string) id)
     = track (release_track r id)) by (unfold release_track; simpl; by case_match).
  repeat case_match; exact E.
Qed.

(** ** The life of a job as a sequence of script calls *)

Module Life.

Inductive op :=
| SetStatus (id status : string) (aRev now : Z)
| HookAck (id status : string) (aRev aCheckInT : Z)
| Reset (id status : string) (now : Z).

Definition apply_op (r : redis) (o : op) : redis :=
  match o with
  | SetStatus id st aRev now => (set_status_script r id st aRev now).2
  | HookAck id st aRev t => (hook_ack_script r id st aRev t).2
  | Reset id st now => status_reset_script r id st now
  end.

(** A call that does not belong to a newer run of job [id]: it carries no
    newer revision and does not reset the job. *)
Definition same_run (id : string) (rev : Z) (o : op) : Prop :=
  match o with
  | SetStatus id' _ aRev _ => id' = id -> aRev <= rev
  | HookAck _ _ _ _ => True
  | Reset id' _ _ => id' <> id
  end.

Inductive step (id : string) : redis -> redis -> Prop :=
| step_op r o :
    same_run id (tonumber (hget r id "revision")) o -> step id r (apply_op r o).

Lemma apply_op_revision id r o :
  same_run id (tonumber (hget r id "revision")) o ->
  hget (apply_op r o) id "revision" = hget r id "revision".
Proof.
  destruct o as [id' st aRev now|id' st aRev t|id' st now]; simpl; intros H.
  - rewrite set_status_script_hget by done. case_decide as D; [naive_solver|done].
  - apply hook_ack_script_hget.
  - by apply status_reset_script_hget.
Qed.

Lemma apply_op_status id r o :
  same_run id (tonumber (hget r id "revision")) o ->
  stCode (hget r id "status") <= stCode (hget (apply_op r o) id "status") /\
  (forall st, hget r id "status" = Some st -> Status.Final st = true ->
    hget (apply_op r o) id "status" = Some st).
Proof.
  destruct o as [id' st aRev now|id' st aRev t|id' st now]; simpl; intros H.
  - rewrite set_status_script_hget by done. case_decide as D; [|split; [lia|done]].
    destruct D as (-> & _ & Hacc). specialize (H eq_refl).
    unfold accepts in Hacc.
    apply orb_prop in Hacc as [Hlt|Hacc]; [apply Z.ltb_lt in Hlt; lia|].
    apply andb_prop in Hacc as [_ Hacc]. apply orb_prop in Hacc as [Hlt|Heq].
    + apply Z.ltb_lt in Hlt. split; [lia|]. intros st' E F.
      rewrite E in Hlt. apply stCode_final in F. pose proof (stCode_bounds (Some st)). lia.
    + apply bool_decide_eq_true in Heq. rewrite Heq. split; [lia|]. naive_solver.
  - rewrite hook_ack_script_hget. split; [lia|done].
  - rewrite status_reset_script_hget by done. split; [lia|done].
Qed.

Lemma steps_status id r r' :
  rtc (step id) r r' ->
  hget r' id "revision" = hget r id "revision" /\
  stCode (hget r id "status") <= stCode (hget r' id "status") /\
  (forall st, hget r id "status" = Some st -> Status.Final st = true ->
    hget r' id "status" = Some st).
Proof.
  intros H. induction H as [r|r r1 r2 Hstep _ IH]; [repeat split; [lia|done]|].
  destruct Hstep as [r o Ho].
  pose proof (apply_op_revision id r o Ho) as E.
  destruct (apply_op_status id r o Ho) as [L F].
  destruct IH as (E' & L' & F'). repeat split; [congruence|lia|auto].
Qed.

(** The track of jobs in progress only holds positive counts. *)
Definition track_ok (r : redis) : Prop := map_Forall (fun _ c => 0 < c) (track r).

Lemma release_track_ok r id : track_ok r -> track_ok (release_track r id).
Proof.
  intros H. unfold release_track. case_match eqn:E; unfold track_ok in *; simpl.
  - rewrite delete_insert_eq. by apply map_Forall_delete.
  - apply Z.leb_gt in E. apply map_Forall_insert_2; [lia|done].
Qed.

Lemma apply_op_track_ok r o : track_ok r -> track_ok (apply_op r o).
Proof.
  intros H. destruct o as [id st aRev now|id st aRev t|id st now]; simpl.
  - unfold set_status_script. case_match; [|done]. simpl.
    assert (Hh : track_ok (hmset r id [("status", st); ("update_time", Strconv.format_int now)]%string))
      by done.
    pose proof (release_track_ok _ id Hh) as Hr.
    repeat case_match; done.
  - unfold hook_ack_script. case_match; [done|]. simpl. case_match; [|done].
    by apply release_track_ok.
  - unfold track_ok in *. simpl. apply map_Forall_insert_2; [lia|done].
Qed.

End Life.

(** ** Claims *)

(** C14: within one run of a job (no reset of the job, no status change that
    carries a newer revision) any interleaving of set-status, hook-ack and
    other jobs' calls keeps the revision, never moves the status to a lower
    code, and leaves a final status as it is. *)
Theorem final_status_sticky id r r' :
  rtc (Life.step id) r r' ->
  hget r' id "revision" = hget r id "revision" /\
  stCode (hget r id "status") <= stCode (hget r' id "status") /\
  (forall st, hget r id "status" = Some st -> Status.Final st = true ->
    hget r' id "status" = Some st).
Proof. apply Life.steps_status. Qed.

Definition example_redis : redis :=
  status_reset_script (mkRedis ∅ ∅ ∅ ∅) "j1" "Pending" 100.

Lemma final_status_sticky_witness :
  let r := Life.apply_op (Life.apply_op example_redis (Life.SetStatus "j1" "Running" 100 101))
                         (Life.SetStatus "j1" "Success" 100 102) in
  let r' := Life.apply_op r (Life.SetStatus "j1" "Error" 100 103) in
  hget r "j1" "status" = Some "Success"%string /\
  hget r' "j1" "status" = Some "Success"%string.
Proof.
  intros r r'. split; [vm_compute; reflexivity|].
  assert (H : rtc (Life.step "j1") r r').
  { apply rtc_once. apply Life.step_op. vm_compute. intros _. discriminate. }
  pose proof (final_status_sticky "j1" r r' H) as (_ & _ & F).
  apply F; vm_compute; reflexivity.
Defined.

(** After a reset (track count 2) the job leaves the in-progress track
    when its final status has been set and its final hook event has been
    acknowledged, and not after only one of the two; the counts of the track
    stay positive under every script call. *)
Theorem track_released_after_final_and_ack r id start st st' now :
  Int64.in_range now -> Status.Final st = true -> Status.Final st' = true ->
  stCode (Some start) < 3 -> Life.track_ok r ->
  let r0 := status_reset_script r id start now in
  let r1 := (set_status_script r0 id st now now).2 in
  let r2 := (hook_ack_script r1 id st' now 0).2 in
  track r0 !! id = Some 2 /\ track r1 !! id = Some 1 /\ track r2 !! id = None /\
  (forall o, Life.track_ok (Life.apply_op r2 o)).
Proof.
  intros Hnow Hst Hst' Hstart Hok r0 r1 r2.
  destruct (status_reset_script_status r id start now) as (E1 & E2 & E3 & E4).
  fold r0 in E1, E2, E3, E4.
  pose proof (proj2 (stCode_final st) Hst) as C. pose proof (proj2 (stCode_final st') Hst') as C'.
  assert (Hrev : tonumber (hget r0 id "revision") = now).
  { rewrite E2. simpl. by rewrite Strconv.parse_format_int. }
  assert (T1 : track r1 !! id = Some 1).
  { subst r1. rewrite set_status_script_track; [|clear E3|done].
    - by rewrite (release_track_lookup _ _ 2).
    - unfold accepts. rewrite Hrev, E1, C, Z.ltb_irrefl, Z.eqb_refl.
      by rewrite (proj2 (Z.ltb_lt (stCode (Some start)) 3)). }
  assert (H1 : hget r1 id "revision" = hget r0 id "revision").
  { subst r1. rewrite set_status_script_hget by done. case_decide; [naive_solver|done]. }
  assert (A1 : hash_ack (hash_of r1 id) = None).
  { subst r1. unfold hash_of. rewrite set_status_script_jobs. case_match; [|exact E4].
    unfold hmset, with_jobs. simpl. rewrite lookup_insert_eq. exact E4. }
  repeat split; [done|done| |].
  - subst r2. unfold hook_ack_script, canSetAck. rewrite A1, H1, Hrev, Z.leb_refl, C'. simpl.
    by rewrite (release_track_lookup _ _ 1).
  - intros o. apply Life.apply_op_track_ok.
    change r2 with (Life.apply_op r1 (Life.HookAck id st' now 0)).
    apply Life.apply_op_track_ok.
    change r1 with (Life.apply_op r0 (Life.SetStatus id st now now)).
    apply Life.apply_op_track_ok.
    change r0 with (Life.apply_op r (Life.Reset id start now)).
    by apply Life.apply_op_track_ok.
Qed.

Lemma track_released_after_final_and_ack_witness :
  let r0 := status_reset_script (mkRedis ∅ ∅ ∅ ∅) "j1" "Pending" 100 in
  let r1 := (set_status_script r0 "j1" "Success" 100 100).2 in
  track r1 !! "j1"%string = Some 1.
Proof.
  refine (proj1 (proj2 (track_released_after_final_and_ack
            (mkRedis ∅ ∅ ∅ ∅) "j1" "Pending" "Success" "Success" 100 _ _ _ _ _))).
  - vm_compute. split; discriminate.
  - reflexivity.
  - reflexivity.
  - reflexivity.
  - apply map_Forall_empty.
Defined.
