(* ===== verification/Tracker.v ===== *)
(** * The job tracker and the life-cycle controller

    [src/jobservice/job/models.go] (the job stats),
    [src/jobservice/job/tracker.go] (the tracker over redis) and
    [src/jobservice/lcm/controller.go] (tracker creation and the loop that
    retries failed status updates). *)

From S2P Require Import Prelude Errors JobStatus.

(** ** Data *)

(** [StatsInfo].  The parameters are a JSON object; [None] is the empty map. *)
Record StatsInfo {P : Type} := mkStats {
  JobID : string;
  Status_ : string;
  JobName : string;
  JobKind : string;
  IsUnique : bool;
  RefLink : string;
  CronSpec : string;
  EnqueueTime : Z;
  UpdateTime : Z;
  RunAt : Z;
  CheckIn_ : string;
  CheckInAt : Z;
  DieAt : Z;
  WebHookURL : string;
  UpstreamJobID : string;
  NumericPID : Z;
  Parameters : option P;
  Revision : Z;
  HookAck : option ACK;
}.
Arguments StatsInfo : clear implicits.
Arguments mkStats {P}.

(** [Stats.Validate] on a non-nil body. *)
Definition Validate {P} (i : StatsInfo P) : result unit :=
  if GoStrings.is_blank (JobID i) then Err (New "missing job ID in job stats")
  else if GoStrings.is_blank (JobName i) then Err (New "missing job name in job stats")
  else if GoStrings.is_blank (JobKind i) then Err (New "missing job name in job stats")
  else if negb (JobKind i =s= "Generic") && negb (JobKind i =s= "Periodic")
          && negb (JobKind i =s= "Scheduled")
  then Err (New ("job kind is not supported: " ++ JobKind i))
  else match Status.Validate (Status_ i) with
       | Err e => Err e
       | Ok _ =>
           if (JobKind i =s= "Periodic") && GoStrings.is_blank (CronSpec i)
           then Err (New "missing cron spec for periodic job")
           else if (JobKind i =s= "Scheduled") && (RunAt i =? 0)
           then Err (New "enqueue timestamp missing for scheduled job")
           else Ok tt
       end.

Record StatusChange {P : Type} := mkChange {
  sc_JobID : string;
  sc_Status : string;
  sc_CheckIn : string;
  sc_Metadata : StatsInfo P;
}.
Arguments StatusChange : clear implicits.
Arguments mkChange {P}.

Record SimpleStatusChange := mkSimple {
  sm_JobID : string;
  sm_TargetStatus : string;
  sm_Revision : Z;
}.

Section Tracker.
(** The JSON codec of the parameters (encoding/json on [map[string]any]) and
    the hook callback the tracker was built with. *)
Context {P : Type} (marshal : P -> option string) (unmarshal : string -> option P).
Context (callback : option (string -> StatusChange P -> option error)).

(** A tracker and the world it works on: redis, the list of status changes
    to retry, the hook events handed to the callback, and the faults of the
    coming redis calls. *)
Record env := mkEnv {
  rd : redis;
  retryList : list SimpleStatusChange;
  hooks : list (string * StatusChange P);
  faults : list (option error);
  jobID : string;
  jobStats : option (StatsInfo P);
}.

Definition with_rd (e : env) r := mkEnv r (retryList e) (hooks e) (faults e) (jobID e) (jobStats e).
Definition with_retry (e : env) l := mkEnv (rd e) l (hooks e) (faults e) (jobID e) (jobStats e).
Definition with_hooks (e : env) h := mkEnv (rd e) (retryList e) h (faults e) (jobID e) (jobStats e).
Definition with_faults (e : env) f := mkEnv (rd e) (retryList e) (hooks e) f (jobID e) (jobStats e).
Definition with_stats (e : env) s := mkEnv (rd e) (retryList e) (hooks e) (faults e) (jobID e) s.

#[global] Instance env_faulty : Faulty env := fun e =>
  match faults e with
  | [] => (None, e)
  | f :: fs => (f, with_faults e fs)
  end.

(** [bt.jobStats.Info], a nil dereference when no stats are attached. *)
Definition info : M env (StatsInfo P) := fun e =>
  match jobStats e with
  | Some i => (Ok i, e)
  | None => (Err (Panic "nil pointer dereference"), e)
  end.

Definition set_info (i : StatsInfo P) : M env unit := modify (fun e => with_stats e (Some i)).

(** ** Redis commands with a flat argument list *)

(** HMSET refuses an odd number of field and value arguments. *)
Fixpoint pairs (args : list string) : option (list (string * string)) :=
  match args with
  | [] => Some []
  | k :: v :: args' => match pairs args' with Some l => Some ((k, v) :: l) | None => None end
  | [_] => None
  end.

Definition HMSET (r : redis) (id : string) (args : list string) : result redis :=
  match pairs args with
  | Some kvs => Ok (hmset r id kvs)
  | None => Err (Plain "ERR wrong number of arguments for 'hmset' command")
  end.

(** ZADD with NX (only new members) and XX (only existing members). *)
Definition zadd_nx (r : redis) (key member : string) (score : Z) : redis :=
  let z := default ∅ (execs r !! key) in
  match z !! member with
  | Some _ => r
  | None => with_execs r (<[key := <[member := score]> z]> (execs r))
  end.
Definition zadd_xx (r : redis) (key member : string) (score : Z) : redis :=
  let z := default ∅ (execs r !! key) in
  match z !! member with
  | Some _ => with_execs r (<[key := <[member := score]> z]> (execs r))
  | None => r
  end.

(** redigo writes a boolean argument as 1 or 0. *)
Definition format_bool (b : bool) : string := if b then "1" else "0".
(** [strconv.ParseBool], false on an error. *)
Definition parse_bool (s : string) : bool :=
  existsb (String.eqb s) ["1"; "t"; "T"; "true"; "TRUE"; "True"]%string.
Definition parseInt64 (s : string) : Z := default 0 (Strconv.parse_int s).

(** ** Tracker operations *)

(** [Update]: sets the given fields and stamps [update_time]. *)
Definition Update (fieldAndValues : list string) (now now' : Z) : M env unit :=
  match fieldAndValues with
  | [] => fail (New "no properties specified to update")
  | _ =>
      let args := ["update_time"; Strconv.format_int now] ++ fieldAndValues
                  ++ ["update_time"; Strconv.format_int now'] in
      io (e <- get ;;
          match HMSET (rd e) (jobID e) args with
          | Ok r => modify (fun e => with_rd e r)
          | Err x => fail x
          end)
  end.

(** [errors.Wrap] of the error a call returns. *)
Definition wrapM {St A} (message : string) (m : M St A) : M St A := fun s =>
  match m s with
  | (Ok a, s') => (Ok a, s')
  | (Err (Panic p), s') => (Err (Panic p), s')
  | (Err x, s') => (Err (Wrap x message), s')
  end.

(** [getStatus]: one HMGET; a missing field is a nil value, and asserting it
    to be a byte slice panics. *)
Definition getStatus (id : string) : M env string :=
  v <- wrapM "get status error" (io (e <- get ;; ret (hget (rd e) id "status"))) ;;
  match v with
  | Some st => if is_ok (Status.Validate st) then ret st
               else fail (New "malformed status data returned")
  | None => fail (Panic "interface conversion: interface {} is nil, not []uint8")
  end.

Definition StatusOf : M env string := e <- get ;; getStatus (jobID e).

Definition NumericID : M env Z :=
  i <- info ;;
  if NumericPID i >? 0 then ret (NumericPID i)
  else e <- get ;; fail (New ("numeric ID not found for job: " ++ jobID e)).

Definition PeriodicExecutionDone : M env unit :=
  i <- info ;;
  e <- get ;;
  if GoStrings.is_blank (UpstreamJobID i)
  then fail (New (jobID e ++ " is not periodic job execution"))
  else io (modify (fun e => with_rd e (zadd_xx (rd e) (UpstreamJobID i) (jobID e) (-1)))).

(** [refresh] of the stats in memory, with an optional check-in. *)
Definition refresh (targetStatus : string) (checkIn : option string) (now : Z) : M env unit :=
  i <- info ;;
  set_info {|
    JobID := JobID i; Status_ := targetStatus; JobName := JobName i; JobKind := JobKind i;
    IsUnique := IsUnique i; RefLink := RefLink i; CronSpec := CronSpec i;
    EnqueueTime := EnqueueTime i; UpdateTime := now; RunAt := RunAt i;
    CheckIn_ := match checkIn with Some c => c | None => CheckIn_ i end;
    CheckInAt := match checkIn with Some _ => now | None => CheckInAt i end;
    DieAt := DieAt i; WebHookURL := WebHookURL i; UpstreamJobID := UpstreamJobID i;
    NumericPID := NumericPID i; Parameters := Parameters i; Revision := Revision i;
    HookAck := HookAck i |}.

Definition fireHookEvent (status : string) (checkIn : option string) : M env unit :=
  i <- info ;;
  if GoStrings.is_blank (WebHookURL i) then ret tt
  else
    e <- get ;;
    let change := mkChange (jobID e) status (default ""%string checkIn) i in
    match callback with
    | None => ret tt
    | Some cb =>
        modify (fun e => with_hooks e (hooks e ++ [(WebHookURL i, change)])) ;;;
        match cb (WebHookURL i) change with
        | None => ret tt
        | Some x => fail x
        end
    end.

(** [CheckIn]: when the update fails, its error is wrapped with the text of
    the hook's error, which is a nil dereference when the hook went well. *)
Definition CheckIn (message : string) (now now1 now2 : Z) : M env unit :=
  if GoStrings.is_blank message then fail (New "check in error: empty message")
  else
    i <- info ;;
    let current := Status_ i in
    refresh current (Some message) now1 ;;;
    errFireHE <- try (fireHookEvent current (Some message)) ;;
    err <- try (Update ["check_in_at"; Strconv.format_int now;
                        "update_time"; Strconv.format_int now]%string now2 now2) ;;
    match err with
    | Ok _ => ret tt
    | Err x => match errFireHE with
               | Err h => fail (Wrap x (Error_string h))
               | Ok _ => fail (Panic "nil pointer dereference")
               end
    end.

Definition IsStatusMismatchError (r : result unit) : bool :=
  match r with Err (StatusMismatch _ _) => true | _ => false end.

(** [compareAndSet] by the set-status script. *)
Definition compareAndSet (targetStatus : string) (now : Z) : M env unit :=
  i <- info ;;
  reply <- wrapM "compare and set status error"
    (io (fun e => let p := set_status_script (rd e) (jobID e) targetStatus (Revision i) now in
                  match p.1 with
                  | Some reply => (Ok reply, with_rd e p.2)
                  | None => (Err (Sentinel "redis.ErrNil"), with_rd e p.2)
                  end)) ;;
  if reply =s= "ok" then ret tt else fail (StatusMismatch reply targetStatus).

Definition UpdateStatusWithRetry (targetStatus : string) (now : Z) : M env unit :=
  err <- try (compareAndSet targetStatus now) ;;
  match err with
  | Ok _ => ret tt
  | Err (Panic p) => fail (Panic p)
  | Err x =>
      (if IsStatusMismatchError (Err x) then ret tt
       else i <- info ;; e <- get ;;
            modify (fun e' => with_retry e' (retryList e' ++
              [mkSimple (jobID e) targetStatus (Revision i)]))) ;;;
      fail x
  end.

(** [setStatus] and its four callers. *)
Definition setStatus (status : string) (now now1 : Z) : M env unit :=
  err <- try (UpdateStatusWithRetry status now) ;;
  match err with
  | Err (Panic p) => fail (Panic p)
  | _ =>
    if negb (IsStatusMismatchError err) then
      refresh status None now1 ;;;
      er <- try (fireHookEvent status None) ;;
      match er, err with
      | Err x, Err y => fail (Wrap x (Error_string y))
      | Err x, Ok _ => fail x
      | Ok _, _ => of_result err
      end
    else of_result err
  end.

Definition Run (now now1 : Z) : M env unit := wrapM "run" (setStatus Status.RunningStatus now now1).
Definition Stop (now now1 : Z) : M env unit := wrapM "stop" (setStatus Status.StoppedStatus now now1).
Definition Fail (now now1 : Z) : M env unit := wrapM "fail" (setStatus Status.ErrorStatus now now1).
Definition Succeed (now now1 : Z) : M env unit := wrapM "succeed" (setStatus Status.SuccessStatus now now1).

(** The arguments of the HMSET of [Save].  For a non-nil acknowledgement the
    code appends the field name without its value. *)
Definition save_args (i : StatsInfo P) (now now' : Z) : list string :=
  ["id"; JobID i; "name"; JobName i; "kind"; JobKind i; "unique"; format_bool (IsUnique i);
   "status"; Status_ i; "ref_link"; RefLink i; "enqueue_time"; Strconv.format_int (EnqueueTime i);
   "run_at"; Strconv.format_int (RunAt i); "cron_spec"; CronSpec i;
   "web_hook_url"; WebHookURL i; "numeric_policy_id"; Strconv.format_int (NumericPID i)]
  ++ (if (CheckInAt i >? 0) && negb (GoStrings.is_blank (CheckIn_ i))
      then ["check_in"; "[REDUNDANT]"; "check_in_at"; Strconv.format_int (CheckInAt i)] else [])
  ++ (if DieAt i >? 0 then ["die_at"; Strconv.format_int (DieAt i)] else [])
  ++ (if negb (GoStrings.is_blank (UpstreamJobID i))
      then ["upstream_job_id"; UpstreamJobID i] else [])
  ++ (match Parameters i with
      | Some p => match marshal p with Some js => ["parameters"; js] | None => [] end
      | None => []
      end)
  ++ ["update_time"; Strconv.format_int now]
  ++ ["revision"; Strconv.format_int (if Revision i >? 0 then Revision i else now')]
  ++ (match HookAck i with Some _ => ["ack"] | None => [] end).

(** [Save]: one MULTI/EXEC transaction, aborted when the HMSET is refused. *)
Definition Save (now now' : Z) : M env unit :=
  e <- get ;;
  match jobStats e with
  | None => fail (New "nil job stats to save")
  | Some i =>
      io (fun e =>
        match HMSET (rd e) (JobID i) (save_args i now now') with
        | Err _ => (Err (Plain "EXECABORT Transaction discarded because of previous errors."), e)
        | Ok r =>
            let r := with_track r (<[JobID i := 2]> (track r)) in
            let r := if negb (GoStrings.is_blank (UpstreamJobID i))
                     then zadd_nx r (UpstreamJobID i) (JobID i) (RunAt i) else r in
            (Ok tt, with_rd e r)
        end)
  end.

(** The stats read back from the fields of a hash: [HGETALL] lists every
    field once, so the loop with its switch is a lookup per field; the
    check-in placeholder is never read. *)
Definition stats_of_hash (h : jobHash) : StatsInfo P :=
  let str f := default ""%string (fields h !! f) in
  let int f := match fields h !! f with Some v => parseInt64 v | None => 0 end in
  {| JobID := str "id"; Status_ := str "status"; JobName := str "name"; JobKind := str "kind";
     IsUnique := match fields h !! "unique" with Some v => parse_bool v | None => false end;
     RefLink := str "ref_link"; CronSpec := str "cron_spec"; EnqueueTime := int "enqueue_time";
     UpdateTime := int "update_time"; RunAt := int "run_at"; CheckIn_ := "";
     CheckInAt := int "check_in_at"; DieAt := int "die_at"; WebHookURL := str "web_hook_url";
     UpstreamJobID := str "upstream_job_id"; NumericPID := int "numeric_policy_id";
     Parameters := match fields h !! "parameters" with Some v => unmarshal v | None => None end;
     Revision := int "revision"; HookAck := hash_ack h |}.

(** [retrieve]: a hash without any field is reported as not found. *)
Definition retrieve : M env unit :=
  io (fun e =>
    let h := hash_of (rd e) (jobID e) in
    if bool_decide (fields h = ∅) && bool_decide (hash_ack h = None :> option ACK)
    then (Err (ObjectNotFound (jobID e)), e)
    else (Ok tt, with_stats e (Some (stats_of_hash h)))).

Definition Load : M env unit := retrieve.

(** [Reset] by the reset script, then the stats in memory. *)
Definition Reset (now : Z) : M env unit :=
  i <- info ;;
  wrapM "reset" (io (modify (fun e =>
    with_rd e (status_reset_script (rd e) (JobID i) Status.PendingStatus now)))) ;;;
  set_info {|
    JobID := JobID i; Status_ := Status.PendingStatus; JobName := JobName i; JobKind := JobKind i;
    IsUnique := IsUnique i; RefLink := RefLink i; CronSpec := CronSpec i;
    EnqueueTime := EnqueueTime i; UpdateTime := now; RunAt := RunAt i;
    CheckIn_ := ""; CheckInAt := 0; DieAt := DieAt i; WebHookURL := WebHookURL i;
    UpstreamJobID := UpstreamJobID i; NumericPID := NumericPID i; Parameters := Parameters i;
    Revision := now; HookAck := HookAck i |}.

Definition FireHook : M env unit :=
  i <- info ;; fireHookEvent (Status_ i) (Some (CheckIn_ i)).

(** ** The life-cycle controller *)

(** [New] and [Track] build a tracker: the environment's stats and job are
    replaced by the new tracker's. *)
Definition NewTracker (stats : option (StatsInfo P)) (now now' : Z) : M env unit :=
  match stats with
  | None => fail (New "nil stats when creating job tracker")
  | Some i =>
      match Validate i with
      | Err x => fail (New ("error occurred when creating job tracker: " ++ Error_string x))
      | Ok _ =>
          modify (fun e => mkEnv (rd e) (retryList e) (hooks e) (faults e) (JobID i) (Some i)) ;;;
          Save now now'
      end
  end.

Definition Track (id : string) : M env unit :=
  modify (fun e => mkEnv (rd e) (retryList e) (hooks e) (faults e) id None) ;;; Load.

(** [retry] of one status change. *)
Definition retry (change : SimpleStatusChange) (now : Z) : M env unit :=
  reply <- wrapM "retry"
    (io (fun e => let p := set_status_script (rd e) (sm_JobID change) (sm_TargetStatus change)
                             (sm_Revision change) now in
                  match p.1 with
                  | Some reply => (Ok reply, with_rd e p.2)
                  | None => (Err (Sentinel "redis.ErrNil"), with_rd e p.2)
                  end)) ;;
  if reply =s= "ok" then ret tt else fail (StatusMismatch reply (sm_TargetStatus change)).

(** [retryLoop]: an entry is removed once it is applied or found outdated. *)
Fixpoint retry_entries (l : list SimpleStatusChange) (now : Z) : M env (list SimpleStatusChange) :=
  match l with
  | [] => ret []
  | c :: l' =>
      err <- try (retry c now) ;;
      rest <- retry_entries l' now ;;
      ret (if is_ok err || IsStatusMismatchError err then rest else c :: rest)
  end.

Definition retryLoop (now : Z) : M env unit :=
  e <- get ;;
  l <- retry_entries (retryList e) now ;;
  modify (fun e' => with_retry e' l).

End Tracker.
Arguments env : clear implicits.
Arguments mkEnv {P}.

(** ** Lemmas *)

(** The last value a list of pairs gives to a field. *)
Fixpoint assoc_last (f : string) (kvs : list (string * string)) : option string :=
  match kvs with
  | [] => None
  | (k, v) :: l =>
      match assoc_last f l with
      | Some w => Some w
      | None => if k =s= f then Some v else None
      end
  end.

Lemma foldl_insert_lookup kvs (m : gmap string string) f :
  foldl (fun m kv => <[kv.1 := kv.2]> m) m kvs !! f =
  match assoc_last f kvs with Some v => Some v | None => m !! f end.
Proof.
  revert m. induction kvs as [|[k v] kvs IH]; intros m; simpl; [done|].
  rewrite IH. destruct (assoc_last f kvs); [done|].
  destruct (String.eqb_spec k f) as [->|H]; [by rewrite lookup_insert_eq|].
  by rewrite lookup_insert_ne.
Qed.

Lemma hash_of_hmset r id kvs :
  hash_of (hmset r id kvs) id =
  mkHash (foldl (fun m kv => <[kv.1 := kv.2]> m) (fields (hash_of r id)) kvs)
         (hash_ack (hash_of r id)).
Proof. unfold hmset. rewrite hash_of_insert. by rewrite decide_True. Qed.

Lemma pairs_length args kvs : pairs args = Some kvs -> length args = (2 * length kvs)%nat.
Proof.
  revert kvs. induction args as [args IH] using (induction_ltof1 _ (@length string)).
  unfold ltof in IH. intros kvs H.
  destruct args as [|k [|v args]]; simpl in H; simplify_eq/=; [done|].
  destruct (pairs args) as [l|] eqn:E; simplify_eq/=.
  rewrite (IH args ltac:(simpl; lia) l E). lia.
Qed.

Lemma save_args_odd {P} (marshal : P -> option string) i now now' a :
  HookAck i = Some a -> pairs (save_args marshal i now now') = None.
Proof.
  intros E. destruct (pairs _) as [kvs|] eqn:H; [|done]. exfalso.
  apply pairs_length in H. revert H. unfold save_args. rewrite E.
  repeat case_match; simpl; lia.
Qed.

Section Lemmas.
Context {P : Type} (marshal : P -> option string) (unmarshal : string -> option P).
Context (callback : option (string -> StatusChange P -> option error)).

Lemma io_nofault {A} (f : M (env P) A) (e : env P) :
  faults e = [] -> io f e = f e.
Proof. intros E. unfold io, next_fault, env_faulty. by rewrite E. Qed.

Lemma io_fault {A} (f : M (env P) A) (e : env P) x fs :
  faults e = Some x :: fs -> io f e = (Err x, with_faults e fs).
Proof. intros E. unfold io, next_fault, env_faulty. by rewrite E. Qed.

(** What [Load] gives back after [Save]: the placeholder text of a check-in
    is not read back, absent optional fields come back as zero values. *)
Definition reloaded (i : StatsInfo P) (now now' : Z) : StatsInfo P :=
  {| JobID := JobID i; Status_ := Status_ i; JobName := JobName i; JobKind := JobKind i;
     IsUnique := IsUnique i; RefLink := RefLink i; CronSpec := CronSpec i;
     EnqueueTime := EnqueueTime i; UpdateTime := now; RunAt := RunAt i; CheckIn_ := "";
     CheckInAt := if (CheckInAt i >? 0) && negb (GoStrings.is_blank (CheckIn_ i))
                  then CheckInAt i else 0;
     DieAt := if DieAt i >? 0 then DieAt i else 0;
     WebHookURL := WebHookURL i;
     UpstreamJobID := if GoStrings.is_blank (UpstreamJobID i) then "" else UpstreamJobID i;
     NumericPID := NumericPID i;
     Parameters := match Parameters i with
                   | Some p => match marshal p with Some _ => Some p | None => None end
                   | None => None
                   end;
     Revision := if Revision i >? 0 then Revision i else now';
     HookAck := None |}.

Lemma stats_of_saved i now now' kvs :
  (forall p js, marshal p = Some js -> unmarshal js = Some p) ->
  Forall Int64.in_range [EnqueueTime i; RunAt i; CheckInAt i; DieAt i; NumericPID i;
                         Revision i; now; now'] ->
  HookAck i = None ->
  pairs (save_args marshal i now now') = Some kvs ->
  stats_of_hash unmarshal (mkHash (foldl (fun m kv => <[kv.1 := kv.2]> m) ∅ kvs) None)
  = reloaded i now now'.
Proof.
  intros Hc Hr Ha Hp.
  repeat match goal with
  | H : Forall _ (_ :: _) |- _ => apply Forall_cons in H as [? H]
  end.
  assert (Hparse : forall z, Int64.in_range z -> parseInt64 (Strconv.format_int z) = z).
  { intros z Hz. unfold parseInt64. by rewrite Strconv.parse_format_int. }
  unfold stats_of_hash, reloaded. cbn [fields hash_ack].
  rewrite !foldl_insert_lookup, !lookup_empty.
  unfold save_args in Hp. rewrite Ha in Hp.
  assert (Hb : parse_bool (format_bool (IsUnique i)) = IsUnique i) by (by destruct (IsUnique i)).
  destruct (Parameters i) as [p|]; [destruct (marshal p) as [js|] eqn:Ejs|];
    destruct ((CheckInAt i >? 0) && negb (GoStrings.is_blank (CheckIn_ i)));
    destruct (DieAt i >? 0); destruct (GoStrings.is_blank (UpstreamJobID i));
    destruct (Revision i >? 0);
    cbn in Hp; injection Hp as <-; cbn -[parseInt64 Strconv.format_int parse_bool format_bool];
    rewrite Hb, !Hparse by done; try rewrite (Hc _ _ Ejs); reflexivity.
Qed.
End Lemmas.

(** ** Claims *)

(** Saving the stats of a job that redis does not know and loading them
    through a new tracker gives the stats back: every persisted field
    survives the encoding, the update time is the time of saving, a revision
    that was not set becomes the time of saving, and the check-in text is
    dropped.  The job enters the in-progress track with count 2. *)
Theorem save_load_roundtrip {P} (marshal : P -> option string) (unmarshal : string -> option P)
    (e : env P) i now now' :
  (forall p js, marshal p = Some js -> unmarshal js = Some p) ->
  Forall Int64.in_range [EnqueueTime i; RunAt i; CheckInAt i; DieAt i; NumericPID i;
                         Revision i; now; now'] ->
  HookAck i = None -> faults e = [] -> jobStats e = Some i -> jobs (rd e) !! JobID i = None ->
  exists e1 e2,
    Save marshal now now' e = (Ok tt, e1) /\
    track (rd e1) !! JobID i = Some 2 /\
    Track unmarshal (JobID i) e1 = (Ok tt, e2) /\
    jobStats e2 = Some (reloaded marshal i now now').
Proof.
  intros Hc Hr Ha Hf Hs Hj.
  destruct (pairs (save_args marshal i now now')) as [kvs|] eqn:Hp.
  2:{ exfalso. revert Hp. unfold save_args. rewrite Ha. repeat case_match; simpl; discriminate. }
  set (r := hmset (rd e) (JobID i) kvs).
  set (r1 := with_track r (<[JobID i := 2]> (track r))).
  set (r2 := if negb (GoStrings.is_blank (UpstreamJobID i))
             then zadd_nx r1 (UpstreamJobID i) (JobID i) (RunAt i) else r1).
  assert (Hsave : Save marshal now now' e = (Ok tt, with_rd e r2)).
  { unfold Save, bind, get. rewrite Hs. rewrite io_nofault by done. unfold HMSET. by rewrite Hp. }
  assert (Hjobs : jobs r2 = jobs r /\ track r2 = track r1).
  { unfold r2, zadd_nx. repeat case_match; done. }
  destruct Hjobs as [Hjobs Htr].
  assert (Hh : hash_of r2 (JobID i) =
    mkHash (foldl (fun m kv => <[kv.1 := kv.2]> m) ∅ kvs) None).
  { unfold hash_of. rewrite Hjobs. fold (hash_of r (JobID i)). unfold r. rewrite hash_of_hmset.
    unfold hash_of. by rewrite Hj. }
  eexists _, _. split; [exact Hsave|]. split; [simpl; rewrite Htr; simpl; by rewrite lookup_insert_eq|].
  pose proof (stats_of_saved marshal unmarshal i now now' kvs Hc Hr Ha Hp) as Hst.
  unfold Track, Load, retrieve, bind, modify. rewrite io_nofault by done. simpl. rewrite Hh.
  rewrite bool_decide_eq_false_2.
  2:{ simpl. intros E0. apply (f_equal (fun m => m !! "id"%string)) in E0.
      rewrite foldl_insert_lookup, lookup_empty in E0.
      revert Hp E0. unfold save_args. rewrite Ha.
      destruct (Parameters i) as [p|]; [destruct (marshal p)|];
      repeat case_match; simpl; intros; simplify_eq/=. }
  simpl. split; [reflexivity|]. simpl. by rewrite Hst.
Qed.

Definition example_stats : StatsInfo string :=
  mkStats "j1" "Pending" "GC" "Periodic" true "" "0 0 * * *" 10 0 0 "" 0 0 "http://core" "" 7
          (Some "p"%string) 0 None.

Lemma save_load_roundtrip_witness :
  exists e1 e2 : env string,
    Save (fun s => Some s) 20 21 (mkEnv (mkRedis ∅ ∅ ∅ ∅) [] [] [] "j1" (Some example_stats)) = (Ok tt, e1) /\
    track (rd e1) !! "j1"%string = Some 2 /\
    Track (fun s => Some s) "j1" e1 = (Ok tt, e2) /\
    jobStats e2 = Some (reloaded (fun s => Some s) example_stats 20 21).
Proof.
  apply (save_load_roundtrip (fun s => Some s) (fun s => Some s)
           (mkEnv (mkRedis ∅ ∅ ∅ ∅) [] [] [] "j1" (Some example_stats)) example_stats 20 21).
  - intros p js H. symmetry. exact H.
  - repeat constructor; vm_compute; discriminate.
  - reflexivity.
  - reflexivity.
  - reflexivity.
  - reflexivity.
Defined.

(** Stats that carry a hook acknowledgement cannot be saved: the HMSET
    gets the field name [ack] without a value, so the transaction is refused
    and redis is left as it was. *)
Theorem save_with_ack_fails {P} (marshal : P -> option string) (e : env P) i a now now' :
  jobStats e = Some i -> HookAck i = Some a ->
  exists x e', Save marshal now now' e = (Err x, e') /\ rd e' = rd e.
Proof.
  intros Hs Ha. unfold Save, bind, get. rewrite Hs. unfold io, next_fault, env_faulty.
  destruct (faults e) as [|[x|] fs]; [|eauto|]; unfold HMSET;
    rewrite (save_args_odd marshal i now now' a Ha); eauto.
Qed.

Definition example_acked : StatsInfo string :=
  mkStats "j1" "Success" "GC" "Generic" false "" "" 10 0 0 "" 0 0 "" "" 0 None 5
          (Some (mkACK "Success" 5 0)).

Lemma save_with_ack_fails_witness :
  exists x e', Save (fun s : string => Some s) 20 21
    (mkEnv (mkRedis ∅ ∅ ∅ ∅) [] [] [] "j1" (Some example_acked)) = (Err x, e')
    /\ rd e' = mkRedis ∅ ∅ ∅ ∅.
Proof.
  apply (save_with_ack_fails (fun s : string => Some s)
           (mkEnv (mkRedis ∅ ∅ ∅ ∅) [] [] [] "j1" (Some example_acked))
           example_acked (mkACK "Success" 5 0) 20 21); reflexivity.
Defined.

(** An outdated status change has no effect: when the set-status script
    answers with another status, [setStatus] reports the mismatch and leaves
    redis, the retry list, the stats in memory and the fired hooks alone. *)
Theorem mismatch_has_no_effect {P} callback (e : env P) i status now now1 st :
  jobStats e = Some i -> faults e = [] -> st <> "ok" ->
  hget (rd e) (jobID e) "status" = Some st ->
  accepts (rd e) (jobID e) status (Revision i) = false ->
  setStatus callback status now now1 e = (Err (StatusMismatch st status), e).
Proof.
  intros Hs Hf Hst Hget Hacc.
  assert (Hscript : set_status_script (rd e) (jobID e) status (Revision i) now = (Some st, rd e)).
  { unfold set_status_script. unfold accepts in Hacc. rewrite Hacc. by rewrite Hget. }
  assert (Hcas : compareAndSet status now e = (Err (StatusMismatch st status), e)).
  { unfold compareAndSet, bind, info. rewrite Hs. unfold wrapM. rewrite io_nofault by done.
    rewrite Hscript. simpl. destruct (String.eqb_spec st "ok"); [done|].
    unfold fail. destruct e; reflexivity. }
  unfold setStatus, UpdateStatusWithRetry, bind, try. rewrite Hcas. reflexivity.
Qed.

Definition example_done : env string :=
  mkEnv (Life.apply_op example_redis (Life.SetStatus "j1" "Success" 100 101)) [] [] [] "j1"
        (Some (mkStats "j1" "Running" "GC" "Generic" false "" "" 10 0 0 "" 0 0 "http://core" "" 0
                       None 100 None)).

Lemma mismatch_has_no_effect_witness :
  setStatus None "Stopped" 200 201 example_done =
  (Err (StatusMismatch "Success" "Stopped"), example_done).
Proof.
  eapply (mismatch_has_no_effect None example_done); [reflexivity|reflexivity|discriminate|..];
    vm_compute; reflexivity.
Defined.

(** A status change that redis failed to take is not lost: it is queued
    once with the tracker's revision, redis is unchanged, and the next run of
    the retry loop applies it when it is still acceptable and drops it from
    the queue. *)
Theorem failed_update_is_retried {P} (e : env P) i status now now' x :
  jobStats e = Some i -> faults e = [Some x] -> (forall p, x <> Panic p) -> retryList e = [] ->
  accepts (rd e) (jobID e) status (Revision i) = true ->
  exists e1 e2,
    UpdateStatusWithRetry status now e =
      (Err (Wrap x "compare and set status error"), e1) /\
    rd e1 = rd e /\ retryList e1 = [mkSimple (jobID e) status (Revision i)] /\
    retryLoop now' e1 = (Ok tt, e2) /\
    retryList e2 = [] /\ hget (rd e2) (jobID e) "status" = Some status.
Proof.
  intros Hs Hf Hx Hl Hacc.
  set (e1 := with_retry (with_faults e []) [mkSimple (jobID e) status (Revision i)]).
  assert (Hup : UpdateStatusWithRetry status now e =
                (Err (Wrap x "compare and set status error"), e1)).
  { assert (Hcas : compareAndSet status now e =
        (Err (Wrap x "compare and set status error"), with_faults e [])).
    { unfold compareAndSet, bind, info. rewrite Hs. unfold wrapM. rewrite (io_fault _ _ x []) by done.
      destruct x; try done. by destruct (Hx message). }
    unfold UpdateStatusWithRetry, bind, try. rewrite Hcas. simpl. unfold info. simpl. rewrite Hs.
    unfold e1, modify, with_retry. simpl. by rewrite Hl. }
  set (r2 := (set_status_script (rd e) (jobID e) status (Revision i) now').2).
  assert (Hscript : set_status_script (rd e) (jobID e) status (Revision i) now' = (Some "ok"%string, r2)).
  { unfold r2, set_status_script. unfold accepts in Hacc. by rewrite Hacc. }
  assert (Hloop : retryLoop now' e1 = (Ok tt, with_retry (with_rd e1 r2) [])).
  { unfold retryLoop, bind, get. simpl. unfold try, retry, bind, wrapM.
    rewrite io_nofault by done. simpl. rewrite Hscript. reflexivity. }
  eexists _, _. split; [exact Hup|]. do 2 (split; [done|]). split; [exact Hloop|].
  split; [done|]. simpl. unfold r2. rewrite set_status_script_hget by done.
  by rewrite decide_True.
Qed.

Lemma failed_update_is_retried_witness :
  let e := mkEnv example_redis [] [] [Some (Plain "EOF")] "j1" (jobStats example_done) in
  exists e1 e2,
    UpdateStatusWithRetry "Success" 110 e =
      (Err (Wrap (Plain "EOF") "compare and set status error"), e1) /\
    rd e1 = rd e /\ retryList e1 = [mkSimple "j1" "Success" 100] /\
    retryLoop 120 e1 = (Ok tt, e2) /\
    retryList e2 = [] /\ hget (rd e2) "j1" "status" = Some "Success"%string.
Proof.
  intros e.
  refine (failed_update_is_retried e _ "Success" 110 120 (Plain "EOF") eq_refl eq_refl _ eq_refl _).
  - discriminate.
  - vm_compute. reflexivity.
Defined.

(** A check-in whose redis update fails after the hook was delivered
    (or when there is no hook) does not return an error but dereferences the
    nil hook error and panics. *)
Theorem checkin_update_failure_panics {P} (e : env P) i message now now1 now2 x :
  jobStats e = Some i -> GoStrings.is_blank message = false -> faults e = [Some x] ->
  exists e', CheckIn None message now now1 now2 e = (Err (Panic "nil pointer dereference"), e').
Proof.
  intros Hs Hm Hf. unfold CheckIn. rewrite Hm. unfold bind, info. rewrite Hs.
  unfold refresh, set_info, modify, bind, info. rewrite Hs. unfold try, fireHookEvent, bind, info.
  simpl. destruct (GoStrings.is_blank (WebHookURL i)); simpl;
    rewrite (io_fault _ _ x []) by done; eauto.
Qed.

Lemma checkin_update_failure_panics_witness :
  exists e', CheckIn None "50%" 200 200 200
    (mkEnv example_redis [] [] [Some (Plain "EOF")] "j1" (jobStats example_done))
    = (Err (Panic "nil pointer dereference"), e').
Proof.
  refine (checkin_update_failure_panics
    (mkEnv example_redis [] [] [Some (Plain "EOF")] "j1" (jobStats example_done))
    _ "50%" 200 200 200 (Plain "EOF") eq_refl _ eq_refl).
  vm_compute. reflexivity.
Defined.
