(* ===== verification/TaskDao.v ===== *)
(** * Executions and tasks: the data access layer

    [src/pkg/task/dao]: the execution and task tables, the status of an
    execution derived from its tasks under optimistic locking
    ([executionDAO.RefreshStatus]), the guarded task status update
    ([taskDAO.UpdateStatus]), and the redis set of executions whose status
    is to be refreshed asynchronously. *)

From S2P Require Import Prelude Errors JobStatus.

(** ** Tables *)

(** A time is a number of seconds; the zero value of Go's [time.Time] has its
    own name.  A NULL column is [None]. *)
Definition zero_time : Z := -62135596800.

Record Execution := mkExecution {
  e_VendorType : string;
  e_VendorID : Z;
  e_Status : string;
  e_StatusMessage : string;
  e_Trigger : string;
  e_ExtraAttrs : string;
  e_StartTime : Z;
  e_UpdateTime : Z;
  e_EndTime : option Z;
  e_Revision : Z;
}.

Record Task := mkTask {
  t_ID : Z;
  t_VendorType : string;
  t_ExecutionID : Z;
  t_JobID : string;
  t_Status : string;
  t_StatusCode : Z;
  t_StatusRevision : Z;
  t_StatusMessage : string;
  t_RunCount : Z;
  t_ExtraAttrs : string;
  t_CreationTime : Z;
  t_StartTime : Z;
  t_UpdateTime : Z;
  t_EndTime : Z;
}.

(** The task metrics of an execution. *)
Record Metrics := mkMetrics {
  TaskCount : Z;
  SuccessTaskCount : Z;
  ErrorTaskCount : Z;
  PendingTaskCount : Z;
  RunningTaskCount : Z;
  ScheduledTaskCount : Z;
  StoppedTaskCount : Z;
}.

(** The store: the two tables with their identity sequences, the redis set
    of outdated executions (a list without duplicates, its order standing
    for the order in which SPOP picks members), the faults of the coming
    database and redis calls, and an outage of the database during which
    every database call fails. *)
Record db := mkDb {
  execs : gmap Z Execution;
  tasks : gmap Z Task;
  next_exec : Z;
  next_task : Z;
  outdate : list string;
  faults : list (option error);
  db_down : option error;
}.

Definition with_execs (d : db) x :=
  mkDb x (tasks d) (next_exec d) (next_task d) (outdate d) (faults d) (db_down d).
Definition with_tasks (d : db) x :=
  mkDb (execs d) x (next_exec d) (next_task d) (outdate d) (faults d) (db_down d).
Definition with_outdate (d : db) x :=
  mkDb (execs d) (tasks d) (next_exec d) (next_task d) x (faults d) (db_down d).
Definition with_faults (d : db) x :=
  mkDb (execs d) (tasks d) (next_exec d) (next_task d) (outdate d) x (db_down d).

#[global] Instance db_faulty : Faulty db := fun d =>
  match faults d with
  | [] => (None, d)
  | f :: fs => (f, with_faults d fs)
  end.

(** A call to the database; calls to redis are plain [io]. *)
Definition dbio {A} (f : M db A) : M db A := fun d =>
  match db_down d with
  | Some e => (Err e, d)
  | None => io f d
  end.

Definition id_message (what : string) (id : Z) : string :=
  (what ++ " " ++ Strconv.format_int id ++ " not found")%string.

(** ** Executions *)

Definition exec_Get (id : Z) : M db Execution :=
  dbio (fun d => match execs d !! id with
               | Some x => (Ok x, d)
               | None => (Err (WrapNotFoundError ErrNoRows (id_message "execution" id)), d)
               end).

Definition exec_Create (x : Execution) : M db Z :=
  dbio (fun d => (Ok (next_exec d),
    mkDb (<[next_exec d := x]> (execs d)) (tasks d) (next_exec d + 1) (next_task d)
         (outdate d) (faults d) (db_down d))).

(** [Update] with the properties it names: [f] sets those columns. *)
Definition exec_Update (id : Z) (f : Execution -> Execution) : M db unit :=
  dbio (fun d => match execs d !! id with
               | Some x => (Ok tt, with_execs d (<[id := f x]> (execs d)))
               | None => (Err (WithMessage (NotFoundError None) (id_message "execution" id)), d)
               end).

(** The tasks that reference an execution, in the order of their keys. *)
Definition tasks_of (d : db) (id : Z) : list Task :=
  List.filter (fun t => t_ExecutionID t =? id) (map_to_list (tasks d)).*2.

(** [Delete]: the foreign key of the task table refuses to delete an
    execution that tasks still reference. *)
Definition exec_Delete (id : Z) : M db unit :=
  dbio (fun d =>
    match execs d !! id with
    | None => (Err (WithMessage (NotFoundError None) (id_message "execution" id)), d)
    | Some _ =>
        match tasks_of d id with
        | [] => (Ok tt, with_execs d (delete id (execs d)))
        | _ =>
            let err := PgError "23503" in
            (Err (default err (AsForeignKeyError err
               ("the execution " ++ Strconv.format_int id ++ " is referenced by other resources"))), d)
        end
    end).

(** ** Tasks *)

Definition task_Get (id : Z) : M db Task :=
  dbio (fun d => match tasks d !! id with
               | Some t => (Ok t, d)
               | None => (Err (WrapNotFoundError ErrNoRows (id_message "task" id)), d)
               end).

(** [Create]: the referenced execution must exist. *)
Definition task_Create (t : Task) : M db Z :=
  dbio (fun d =>
    match execs d !! t_ExecutionID t with
    | None =>
        let err := PgError "23503" in
        (Err (default err (AsForeignKeyError err
           ("the task tries to reference a non existing execution "
            ++ Strconv.format_int (t_ExecutionID t)))), d)
    | Some _ =>
        let id := next_task d in
        let t' := mkTask id (t_VendorType t) (t_ExecutionID t) (t_JobID t) (t_Status t)
          (t_StatusCode t) (t_StatusRevision t) (t_StatusMessage t) (t_RunCount t)
          (t_ExtraAttrs t) (t_CreationTime t) (t_StartTime t) (t_UpdateTime t) (t_EndTime t) in
        (Ok id, mkDb (execs d) (<[id := t']> (tasks d)) (next_exec d) (id + 1) (outdate d)
                (faults d) (db_down d))
    end).

Definition task_Update (id : Z) (f : Task -> Task) : M db unit :=
  dbio (fun d => match tasks d !! id with
               | Some t => (Ok tt, with_tasks d (<[id := f t]> (tasks d)))
               | None => (Err (WithMessage (NotFoundError None) (id_message "task" id)), d)
               end).

Definition task_Delete (id : Z) : M db unit :=
  dbio (fun d => match tasks d !! id with
               | Some _ => (Ok tt, with_tasks d (delete id (tasks d)))
               | None => (Err (WithMessage (NotFoundError None) (id_message "task" id)), d)
               end).

(** A statement [update task set ... where id = ? and cond]. *)
Definition update_where (id : Z) (cond : Task -> bool) (f : Task -> Task) : M db unit :=
  modify (fun d => match tasks d !! id with
                   | Some t => if cond t then with_tasks d (<[id := f t]> (tasks d)) else d
                   | None => d
                   end).

Definition bump_run (startTime : Z) (t : Task) : Task :=
  mkTask (t_ID t) (t_VendorType t) (t_ExecutionID t) (t_JobID t) (t_Status t) (t_StatusCode t)
    (t_StatusRevision t) (t_StatusMessage t) (t_RunCount t + 1) (t_ExtraAttrs t)
    (t_CreationTime t) startTime (t_UpdateTime t) (t_EndTime t).

Definition set_task_status (status : string) (code rev now endTime : Z) (t : Task) : Task :=
  mkTask (t_ID t) (t_VendorType t) (t_ExecutionID t) (t_JobID t) status code
    rev (t_StatusMessage t) (t_RunCount t) (t_ExtraAttrs t)
    (t_CreationTime t) (t_StartTime t) now endTime.

(** [UpdateStatus]: the run count and the start time follow the revision; the
    status only moves to a newer revision, or to a higher code within one. *)
Definition UpdateStatus (id : Z) (status : string) (statusRevision now : Z) : M db unit :=
  dbio (update_where id (fun t => t_StatusRevision t <? statusRevision) (bump_run statusRevision)) ;;;
  let statusCode := Status.Code status in
  let endTime := if Status.Final status then now else zero_time in
  dbio (update_where id
        (fun t => ((t_StatusRevision t =? statusRevision) && (t_StatusCode t <? statusCode))
                  || (t_StatusRevision t <? statusRevision))
        (set_task_status status statusCode statusRevision now endTime)).

(** [select status, count from task where execution_id=? group by status]. *)
Definition count_status (s : string) (l : list Task) : Z :=
  Z.of_nat (length (List.filter (fun t => t_Status t =s= s) l)).

Definition group_by_status (l : list Task) : list (string * Z) :=
  (fun s => (s, count_status s l)) <$> remove_dups (t_Status <$> l).

Definition ListStatusCount (executionID : Z) : M db (list (string * Z)) :=
  dbio (fun d => (Ok (group_by_status (tasks_of d executionID)), d)).

(** [UpdateStatusInBatch]: one statement per batch of job identifiers, which
    sets the status but not the status code.  A batch size of zero makes the
    statement [... where job_id in ()], a syntax error, and a negative one
    makes a slice of negative length.  A positive batch shortens the list, so
    its length bounds the recursion. *)
Definition set_status_only (status : string) (now : Z) (t : Task) : Task :=
  mkTask (t_ID t) (t_VendorType t) (t_ExecutionID t) (t_JobID t) status (t_StatusCode t)
    (t_StatusRevision t) (t_StatusMessage t) (t_RunCount t) (t_ExtraAttrs t)
    (t_CreationTime t) (t_StartTime t) now (t_EndTime t).

Definition update_jobs (jobIDs : list string) (f : Task -> Task) : M db unit :=
  modify (fun d => with_tasks d
    ((fun t => if existsb (String.eqb (t_JobID t)) jobIDs then f t else t) <$> tasks d)).

Fixpoint update_batches (fuel : nat) (jobIDs : list string) (status : string) (batchSize now : Z) : M db unit :=
  match jobIDs with
  | [] => ret tt
  | _ =>
      if Z.of_nat (length jobIDs) <=? batchSize
      then dbio (update_jobs jobIDs (set_status_only status now))
      else if batchSize <? 0 then fail (Panic "makeslice: len out of range")
      else if batchSize =? 0 then dbio (fail (PgError "42601"))
      else match fuel with
           | O => ret tt
           | S fuel' =>
               dbio (update_jobs (firstn (Z.to_nat batchSize) jobIDs) (set_status_only status now)) ;;;
               update_batches fuel' (skipn (Z.to_nat batchSize) jobIDs) status batchSize now
           end
  end.

Definition UpdateStatusInBatch (jobIDs : list string) (status : string) (batchSize now : Z) : M db unit :=
  update_batches (length jobIDs) jobIDs status batchSize now.

(** ** The status of an execution *)

Definition no_metrics : Metrics := mkMetrics 0 0 0 0 0 0 0.

(** The switch of [GetMetrics] on one row. *)
Definition add_count (m : Metrics) (sc : string * Z) : Metrics :=
  let (s, c) := sc in
  let 'mkMetrics n su er pe ru sch st := m in
  if s =s= Status.SuccessStatus then mkMetrics n c er pe ru sch st
  else if s =s= Status.ErrorStatus then mkMetrics n su c pe ru sch st
  else if s =s= Status.PendingStatus then mkMetrics n su er c ru sch st
  else if s =s= Status.RunningStatus then mkMetrics n su er pe c sch st
  else if s =s= Status.ScheduledStatus then mkMetrics n su er pe ru c st
  else if s =s= Status.StoppedStatus then mkMetrics n su er pe ru sch c
  else m.

Definition GetMetrics (id : Z) : M db Metrics :=
  scs <- ListStatusCount id ;;
  match scs with
  | [] => ret no_metrics
  | _ =>
      let m := foldl add_count no_metrics scs in
      ret (mkMetrics
        (SuccessTaskCount m + ErrorTaskCount m + PendingTaskCount m + RunningTaskCount m
         + ScheduledTaskCount m + StoppedTaskCount m)
        (SuccessTaskCount m) (ErrorTaskCount m) (PendingTaskCount m) (RunningTaskCount m)
        (ScheduledTaskCount m) (StoppedTaskCount m))
  end.

Definition status_of_metrics (m : Metrics) : string :=
  if (PendingTaskCount m >? 0) || (RunningTaskCount m >? 0) || (ScheduledTaskCount m >? 0)
  then Status.RunningStatus
  else if ErrorTaskCount m >? 0 then Status.ErrorStatus
  else if StoppedTaskCount m >? 0 then Status.StoppedStatus
  else if SuccessTaskCount m >? 0 then Status.SuccessStatus
  else "".

(** What [refreshStatus] has read when it issues its update: the execution's
    old status and revision, and the status computed from the tasks; [None]
    when the execution has no task. *)
Record refresh_view := mkView {
  v_old : string;
  v_revision : Z;
  v_status : string;
}.

Definition refresh_read (id : Z) : M db (option refresh_view) :=
  execution <- exec_Get id ;;
  metrics <- GetMetrics id ;;
  if TaskCount metrics =? 0 then ret None
  else ret (Some (mkView (e_Status execution) (e_Revision execution) (status_of_metrics metrics))).

Definition set_exec_status (status : string) (now : Z) (x : Execution) : Execution :=
  mkExecution (e_VendorType x) (e_VendorID x) status (e_StatusMessage x) (e_Trigger x)
    (e_ExtraAttrs x) (e_StartTime x) now (e_EndTime x) (e_Revision x + 1).

Definition set_exec_end (endTime : option Z) (x : Execution) : Execution :=
  mkExecution (e_VendorType x) (e_VendorID x) (e_Status x) (e_StatusMessage x) (e_Trigger x)
    (e_ExtraAttrs x) (e_StartTime x) (e_UpdateTime x) endTime (e_Revision x).

(** [update execution ... where id = ? and revision = ?]; the result is the
    number of affected rows. *)
Definition update_if_revision (id revision : Z) (status : string) (now : Z) : M db Z :=
  dbio (fun d => match execs d !! id with
               | Some x => if e_Revision x =? revision
                           then (Ok 1, with_execs d (<[id := set_exec_status status now x]> (execs d)))
                           else (Ok 0, d)
               | None => (Ok 0, d)
               end).

(** [select max(end_time) from task where execution_id=?]. *)
Definition max_end_time (l : list Task) : option Z :=
  match t_EndTime <$> l with
  | [] => None
  | t :: ts => Some (foldr Z.max t ts)
  end.

Definition update_end_time (id : Z) : M db unit :=
  dbio (modify (fun d => match execs d !! id with
    | Some x => with_execs d (<[id := set_exec_end
        (if (e_Status x =s= Status.ErrorStatus) || (e_Status x =s= Status.StoppedStatus)
            || (e_Status x =s= Status.SuccessStatus)
         then max_end_time (tasks_of d id) else None) x]> (execs d))
    | None => d
    end)).

(** The results are: is the status changed, the current status, and whether
    a retry is needed. *)
Definition refresh_write (id : Z) (v : option refresh_view) (now : Z) : M db (bool * string * bool) :=
  match v with
  | None => ret (false, ""%string, false)
  | Some v =>
      n <- update_if_revision id (v_revision v) (v_status v) now ;;
      if n =? 0 then ret (false, ""%string, true)
      else
        update_end_time id ;;;
        ret (negb (v_status v =s= v_old v), v_status v, false)
  end.

Definition refreshStatus (id now : Z) : M db (bool * string * bool) :=
  v <- refresh_read id ;; refresh_write id v now.

(** [RefreshStatus]: at most five attempts. *)
Fixpoint refresh_attempts (n : nat) (id now : Z) : M db (bool * string) :=
  match n with
  | O => fail (Plain ("failed to refresh the status of the execution " ++ Strconv.format_int id
                      ++ " after 5 retries"))
  | S n' =>
      r <- refreshStatus id now ;;
      let '(statusChanged, currentStatus, retry) := r in
      if negb retry then ret (statusChanged, currentStatus) else refresh_attempts n' id now
  end.

Definition RefreshStatus (id now : Z) : M db (bool * string) := refresh_attempts 5 id now.

(** ** Queries on the extra attributes *)

(** [jsonbStru]: a keyword of a query with its prefix and value. *)
Record jsonbStru := mkJsonb {
  keyPrefix : string;
  jkey : string;
  jvalue : string;
}.

(** The condition of one keyword: [extra_attrs->>?=?] for a single key,
    [extra_attrs->?->...->>?=?] for a path. *)
Definition jsonb_keys (j : jsonbStru) : list string :=
  GoStrings.Split (GoStrings.TrimPrefix (jkey j) (keyPrefix j)) ".".

Definition jsonb_cond (first : bool) (keys : list string) : string :=
  let lead := if first then ""%string else " and "%string in
  if (length keys =? 1)%nat then (lead ++ "extra_attrs->>?=?")%string
  else (lead ++ "extra_attrs->"
        ++ GoStrings.Join (repeat "?"%string (length keys - 1)) "->" ++ "->>?=?")%string.

Fixpoint build_conds (first : bool) (l : list jsonbStru) : option (string * list string) :=
  match l with
  | [] => Some (""%string, [])
  | j :: l' =>
      if (jkey j =s= "") || (jvalue j =s= "") then None
      else
        let keys := jsonb_keys j in
        match build_conds false l' with
        | Some (cond, args) => Some ((jsonb_cond first keys ++ cond)%string, keys ++ [jvalue j] ++ args)
        | None => None
        end
  end.

Definition buildInClauseSQLForExtraAttrs (l : list jsonbStru) : string * list string :=
  match l with
  | [] => (""%string, [])
  | _ => match build_conds true l with
         | Some (cond, args) => (("select id from execution where " ++ cond)%string, args)
         | None => (""%string, [])
         end
  end.

(** ** Asynchronous refresh *)

Definition buildExecStatusOutdateMember (id : Z) (vendor : string) : string :=
  (Strconv.format_int id ++ String ":" vendor)%string.

Definition parseExecStatusOutdateMember (member : string) : result (Z * string) :=
  match GoStrings.SplitN2 member ":" with
  | [p0; p1] =>
      if p1 =s= "" then Err (New ("invalid execution status outdate member: " ++ member))
      else match Strconv.parse_int p0 with
           | Some id => Ok (id, p1)
           | None => Err (New ("invalid execution id in member " ++ member))
           end
  | _ => Err (New ("invalid execution status outdate member: " ++ member))
  end.

(** SADD keeps the members distinct. *)
Definition sadd (members set : list string) : list string :=
  foldl (fun s m => if existsb (String.eqb m) s then s else s ++ [m]) set members.

(** [requeueOutdateMembers]: a failing SADD is only logged. *)
Definition requeueOutdateMembers (members : list string) : M db unit :=
  match members with
  | [] => ret tt
  | _ => try (io (modify (fun d => with_outdate d (sadd members (outdate d))))) ;;; ret tt
  end.

Definition wrap_err {A} (message : string) (m : M db A) : M db A := fun d =>
  match m d with
  | (Ok a, d') => (Ok a, d')
  | (Err x, d') => (Err (Wrap x message), d')
  end.

Definition AsyncRefreshStatus (id : Z) (vendor : string) : M db unit :=
  wrap_err "failed to add outdate execution to redis set"
    (io (modify (fun d => with_outdate d (sadd [buildExecStatusOutdateMember id vendor] (outdate d))))).

Definition execStatusOutdateBatchSize : nat := 100.

Section Scan.
(** The registered post functions, by vendor type. *)
Context (postFunc : string -> option (Z -> string -> M db unit)).

(** One member of a batch; the result says whether to put it back. *)
Definition refresh_member (member : string) (now : Z) : M db bool :=
  match parseExecStatusOutdateMember member with
  | Err _ => ret false
  | Ok (execID, vendor) =>
      r <- try (RefreshStatus execID now) ;;
      match r with
      | Err x => if IsNotFoundErr x then ret false else ret true
      | Ok (statusChanged, currentStatus) =>
          (match postFunc vendor with
           | Some fc => if statusChanged then try (fc execID currentStatus) ;;; ret tt else ret tt
           | None => ret tt
           end) ;;;
          ret false
      end
  end.

Fixpoint refresh_members (members : list string) (now : Z) : M db (list string) :=
  match members with
  | [] => ret []
  | m :: ms =>
      again <- refresh_member m now ;;
      rest <- refresh_members ms now ;;
      ret (if again : bool then m :: rest else rest)
  end.

(** SPOP of at most a batch of members. *)
Definition spop : M db (list string) :=
  io (fun d => (Ok (firstn execStatusOutdateBatchSize (outdate d)),
                with_outdate d (skipn execStatusOutdateBatchSize (outdate d)))).

(** [scanAndRefreshOutdateStatus], at most [fuel] batches: [false] when the
    loop is still running. *)
Fixpoint scan (fuel : nat) (now : Z) : M db bool :=
  match fuel with
  | O => ret false
  | S fuel' =>
      r <- try spop ;;
      match r with
      | Err _ => ret true
      | Ok [] => ret true
      | Ok members =>
          toRequeue <- refresh_members members now ;;
          requeueOutdateMembers toRequeue ;;;
          if (length members <? execStatusOutdateBatchSize)%nat then ret true
          else scan fuel' now
      end
  end.
End Scan.

(** ** A quiet store: the database is up and no call fails *)

Definition quiet (d : db) : Prop := faults d = [] /\ db_down d = None.

Lemma quiet_io {A} (f : M db A) d : quiet d -> io f d = f d.
Proof. intros [H _]. unfold io, next_fault, db_faulty. by rewrite H. Qed.

Lemma quiet_dbio {A} (f : M db A) d : quiet d -> dbio f d = f d.
Proof. intros Q. unfold dbio. destruct Q as [H1 H2] eqn:E. rewrite H2. by apply quiet_io. Qed.

Lemma quiet_with_tasks d x : quiet (with_tasks d x) <-> quiet d.
Proof. done. Qed.
Lemma quiet_with_execs d x : quiet (with_execs d x) <-> quiet d.
Proof. done. Qed.
Lemma quiet_with_outdate d x : quiet (with_outdate d x) <-> quiet d.
Proof. done. Qed.

(** ** Metrics are counts *)

Definition is_active (s : string) : bool :=
  (s =s= Status.PendingStatus) || (s =s= Status.RunningStatus) || (s =s= Status.ScheduledStatus).

Definition is_known (s : string) : bool :=
  is_active s || (s =s= Status.ErrorStatus) || (s =s= Status.StoppedStatus)
  || (s =s= Status.SuccessStatus).

Definition metric_of (s : string) (m : Metrics) : Z :=
  if s =s= Status.SuccessStatus then SuccessTaskCount m
  else if s =s= Status.ErrorStatus then ErrorTaskCount m
  else if s =s= Status.PendingStatus then PendingTaskCount m
  else if s =s= Status.RunningStatus then RunningTaskCount m
  else if s =s= Status.ScheduledStatus then ScheduledTaskCount m
  else if s =s= Status.StoppedStatus then StoppedTaskCount m
  else 0.

Lemma is_known_cases s : is_known s = true ->
  s = Status.PendingStatus \/ s = Status.RunningStatus \/ s = Status.ScheduledStatus
  \/ s = Status.ErrorStatus \/ s = Status.StoppedStatus \/ s = Status.SuccessStatus.
Proof.
  unfold is_known, is_active. rewrite !orb_true_iff, !String.eqb_eq. tauto.
Qed.

Lemma metric_of_add_count s s' c m :
  is_known s = true ->
  metric_of s (add_count m (s', c)) = if s =s= s' then c else metric_of s m.
Proof.
  intros K%is_known_cases. destruct m. unfold add_count.
  repeat match goal with
    | |- context [s' =s= ?k] => destruct (String.eqb_spec s' k); [subst s'|]
    end;
  destruct K as [->|[->|[->|[->|[->| ->]]]]]; try done;
  rewrite (proj2 (String.eqb_neq _ _)) by congruence; done.
Qed.

Lemma metric_of_foldl s (f : string -> Z) ks m :
  is_known s = true ->
  metric_of s (foldl add_count m ((fun k => (k, f k)) <$> ks))
  = if bool_decide (s ∈ ks) then f s else metric_of s m.
Proof.
  intros K. revert m. induction ks as [|k ks IH]; intros m; [done|].
  rewrite fmap_cons. cbn [foldl]. rewrite IH, metric_of_add_count by done.
  destruct (String.eqb_spec s k) as [<-|N]; repeat case_bool_decide; set_solver.
Qed.

Lemma count_status_zero s l : s ∉ t_Status <$> l -> count_status s l = 0.
Proof.
  unfold count_status. induction l as [|t l IH]; simpl; [done|].
  rewrite not_elem_of_cons. intros [N H].
  rewrite (proj2 (String.eqb_neq _ _)) by congruence. by apply IH.
Qed.

Lemma count_status_pos s l :
  (count_status s l >? 0) = existsb (fun t => t_Status t =s= s) l.
Proof.
  unfold count_status. induction l as [|t l IH]; simpl; [done|].
  destruct (t_Status t =s= s); simpl; [|done]. apply Z.gtb_lt. lia.
Qed.

Lemma count_status_nonneg s l : 0 <= count_status s l.
Proof. unfold count_status. lia. Qed.

(** The metrics computed from the grouped counts, before their sum is stored. *)
Lemma metric_of_group s l :
  is_known s = true ->
  metric_of s (foldl add_count no_metrics (group_by_status l)) = count_status s l.
Proof.
  intros K. unfold group_by_status. rewrite metric_of_foldl by done.
  case_bool_decide as E; [done|].
  rewrite elem_of_remove_dups in E. rewrite count_status_zero by done.
  destruct (is_known_cases s K) as [->|[->|[->|[->|[->| ->]]]]]; done.
Qed.

(** The metrics of a list of tasks, as their definition reads. *)
Definition metrics_of (l : list Task) : Metrics :=
  let c s := count_status s l in
  mkMetrics (c Status.SuccessStatus + c Status.ErrorStatus + c Status.PendingStatus
             + c Status.RunningStatus + c Status.ScheduledStatus + c Status.StoppedStatus)
    (c Status.SuccessStatus) (c Status.ErrorStatus) (c Status.PendingStatus)
    (c Status.RunningStatus) (c Status.ScheduledStatus) (c Status.StoppedStatus).

Lemma GetMetrics_quiet id d :
  quiet d -> GetMetrics id d = (Ok (metrics_of (tasks_of d id)), d).
Proof.
  intros Q. unfold GetMetrics, bind, ListStatusCount. rewrite quiet_dbio by done.
  set (l := tasks_of d id).
  assert (E : forall s, is_known s = true ->
    metric_of s (foldl add_count no_metrics (group_by_status l)) = count_status s l)
    by (intros; by apply metric_of_group).
  destruct (group_by_status l) eqn:G.
  - destruct l as [|t l']; [done|].
    unfold group_by_status in G. apply fmap_nil_inv in G.
    assert (H : t_Status t ∈ remove_dups (t_Status <$> t :: l'))
      by (rewrite elem_of_remove_dups; set_solver).
    rewrite G in H. set_solver.
  - rewrite <- G in *. unfold metrics_of, ret.
    rewrite <- !E by done. done.
Qed.


(** ** The status an execution should have *)

(** Running as long as some task may still run; otherwise the worst outcome
    of the tasks: error, then stopped, then success. *)
Definition some_task (p : string -> bool) (l : list Task) : bool :=
  existsb (fun t => p (t_Status t)) l.

Definition derived_status (l : list Task) : string :=
  if some_task is_active l then Status.RunningStatus
  else if some_task (String.eqb Status.ErrorStatus) l then Status.ErrorStatus
  else if some_task (String.eqb Status.StoppedStatus) l then Status.StoppedStatus
  else if some_task (String.eqb Status.SuccessStatus) l then Status.SuccessStatus
  else "".

Definition derived_end (l : list Task) : option Z :=
  if some_task is_active l then None else max_end_time l.

(** The record an execution becomes when its status is refreshed. *)
Definition refreshed (l : list Task) (now : Z) (x : Execution) : Execution :=
  mkExecution (e_VendorType x) (e_VendorID x) (derived_status l) (e_StatusMessage x)
    (e_Trigger x) (e_ExtraAttrs x) (e_StartTime x) now (derived_end l) (e_Revision x + 1).

Lemma existsb_orb {A} (p q : A -> bool) l :
  existsb (fun x => p x || q x) l = existsb p l || existsb q l.
Proof.
  induction l as [|x l IH]; simpl; [done|]. rewrite IH.
  destruct (p x), (q x), (existsb p l), (existsb q l); done.
Qed.

Lemma existsb_count s l : some_task (String.eqb s) l = (count_status s l >? 0).
Proof.
  rewrite count_status_pos. unfold some_task.
  induction l as [|t l IH]; simpl; [done|]. by rewrite IH, String.eqb_sym.
Qed.

Lemma some_active_count l :
  some_task is_active l
  = (count_status Status.PendingStatus l >? 0) || (count_status Status.RunningStatus l >? 0)
    || (count_status Status.ScheduledStatus l >? 0).
Proof.
  unfold some_task, is_active.
  rewrite !count_status_pos. rewrite !(existsb_orb _ _ l). done.
Qed.

Lemma status_of_metrics_of l : status_of_metrics (metrics_of l) = derived_status l.
Proof.
  unfold derived_status, status_of_metrics.
  by rewrite some_active_count, !existsb_count.
Qed.

Lemma some_known_count l : (TaskCount (metrics_of l) =? 0) = negb (some_task is_known l).
Proof.
  unfold some_task, is_known. rewrite !(existsb_orb _ _ l).
  pose proof (some_active_count l) as A. unfold some_task in A. rewrite A.
  rewrite <- !count_status_pos. unfold metrics_of. cbn [TaskCount].
  pose proof (fun s => count_status_nonneg s l) as P.
  pose proof (P Status.PendingStatus). pose proof (P Status.RunningStatus).
  pose proof (P Status.ScheduledStatus). pose proof (P Status.ErrorStatus).
  pose proof (P Status.StoppedStatus). pose proof (P Status.SuccessStatus).
  destruct (Z.eqb_spec (count_status Status.SuccessStatus l + count_status Status.ErrorStatus l
    + count_status Status.PendingStatus l + count_status Status.RunningStatus l
    + count_status Status.ScheduledStatus l + count_status Status.StoppedStatus l) 0);
  repeat match goal with |- context [?a >? 0] => destruct (Z.gtb_spec a 0); simpl; try done; try lia end.
Qed.

(** With a task of a known status, the derived status says whether it is
    final. *)
Lemma derived_final l :
  some_task is_known l = true ->
  ((derived_status l =s= Status.ErrorStatus) || (derived_status l =s= Status.StoppedStatus)
   || (derived_status l =s= Status.SuccessStatus)) = negb (some_task is_active l).
Proof.
  unfold derived_status, is_known. intros K.
  destruct (some_task is_active l) eqn:A; [done|].
  assert (B : some_task (String.eqb Status.ErrorStatus) l
              || some_task (String.eqb Status.StoppedStatus) l
              || some_task (String.eqb Status.SuccessStatus) l = true).
  { rewrite !existsb_count, !count_status_pos. unfold some_task in *.
    rewrite !(existsb_orb _ _ l), A in K. done. }
  destruct (some_task (String.eqb Status.ErrorStatus) l); [done|].
  destruct (some_task (String.eqb Status.StoppedStatus) l); [done|].
  destruct (some_task (String.eqb Status.SuccessStatus) l); done.
Qed.

(** ** Refreshing without interference *)

Lemma refresh_read_quiet id d x :
  quiet d -> execs d !! id = Some x ->
  refresh_read id d
  = (Ok (if some_task is_known (tasks_of d id)
         then Some (mkView (e_Status x) (e_Revision x) (derived_status (tasks_of d id)))
         else None), d).
Proof.
  intros Q E. unfold refresh_read, bind, exec_Get.
  rewrite quiet_dbio, E, GetMetrics_quiet by done.
  rewrite some_known_count, status_of_metrics_of.
  by destruct (some_task is_known (tasks_of d id)).
Qed.

Lemma RefreshStatus_quiet id now d x :
  quiet d -> execs d !! id = Some x ->
  RefreshStatus id now d
  = let l := tasks_of d id in
    if some_task is_known l
    then (Ok (negb (derived_status l =s= e_Status x), derived_status l),
          with_execs d (<[id := refreshed l now x]> (execs d)))
    else (Ok (false, ""%string), d).
Proof.
  intros Q E. unfold RefreshStatus. cbn [refresh_attempts].
  unfold refreshStatus. unfold bind at 1 2. rewrite (refresh_read_quiet _ _ x) by done.
  cbv zeta. destruct (some_task is_known (tasks_of d id)) eqn:K; [|done].
  cbn [refresh_write v_revision v_status v_old].
  unfold bind, update_if_revision. rewrite quiet_dbio, E, Z.eqb_refl by done.
  cbn [Z.eqb]. unfold update_end_time, modify. rewrite quiet_dbio by done.
  cbn [execs with_execs]. rewrite lookup_insert_eq.
  cbn [ret negb set_exec_status e_Status]. rewrite derived_final by done.
  unfold with_execs; cbn. rewrite insert_insert_eq.
  repeat f_equal. unfold set_exec_end, refreshed, derived_end; cbn.
  by destruct (some_task is_active (tasks_of d id)).
Qed.

(** With the database up and no concurrent refresh, [RefreshStatus] on an
    execution with a task of a known status stores the status derived from
    its tasks (running while a task may run, else error, stopped or success
    in that order), the latest end time of its tasks when that status is
    final and no end time otherwise, and the next revision, reports whether
    the status changed, and touches nothing else; an execution without such
    a task is left as it is and an unknown one is a not-found error. *)
Theorem refresh_status_spec id now d :
  quiet d ->
  match execs d !! id with
  | None => exists e, RefreshStatus id now d = (Err e, d) /\ IsNotFoundErr e = true
  | Some x =>
      let l := tasks_of d id in
      RefreshStatus id now d
      = if some_task is_known l
        then (Ok (negb (derived_status l =s= e_Status x), derived_status l),
              with_execs d (<[id := refreshed l now x]> (execs d)))
        else (Ok (false, ""%string), d)
  end.
Proof.
  intros Q. destruct (execs d !! id) as [x|] eqn:E; [by apply RefreshStatus_quiet|].
  exists (WrapNotFoundError ErrNoRows (id_message "execution" id)).
  unfold RefreshStatus. cbn [refresh_attempts].
  unfold refreshStatus, refresh_read, exec_Get, bind. by rewrite quiet_dbio, E by done.
Qed.

Definition sample_task (id exec : Z) (status : string) (endTime : Z) : Task :=
  mkTask id "GC" exec "job" status (Status.Code status) 1 "" 1 "" 0 0 0 endTime.

Definition sample_exec (status : string) : Execution :=
  mkExecution "GC" 1 status "" "manual" "" 0 0 None 4.

Definition sample_db (l : list Task) : db :=
  mkDb {[7 := sample_exec Status.RunningStatus]} (list_to_map ((fun t => (t_ID t, t)) <$> l))
    8 10 [] [] None.

Lemma refresh_status_spec_witness :
  let d := sample_db [sample_task 1 7 Status.SuccessStatus 50;
                      sample_task 2 7 Status.ErrorStatus 60] in
  (RefreshStatus 7 99 d).1 = Ok (true, Status.ErrorStatus)
  /\ e_EndTime <$> execs (RefreshStatus 7 99 d).2 !! 7 = Some (Some 60).
Proof.
  intros d. pose proof (refresh_status_spec 7 99 d) as H.
  assert (Q : quiet d) by done. specialize (H Q).
  assert (E : execs d !! 7 = Some (sample_exec Status.RunningStatus)) by done.
  rewrite E in H. cbv zeta in H. rewrite H. split; vm_compute; done.
Defined.

(** ** Status updates from hook events *)

Definition rank : Type := Z * Z.
Definition task_rank (t : Task) : rank := (t_StatusRevision t, t_StatusCode t).

(** The later revision wins, then the higher code. *)
Definition newer (a b : rank) : bool := ((fst b =? fst a) && (snd b <? snd a)) || (fst b <? fst a).
Definition rank_max (a b : rank) : rank := if newer b a then b else a.

Ltac rank_cases :=
  unfold rank_max, newer; intros; repeat match goal with a : rank |- _ => destruct a end; cbn;
  repeat (cbn; match goal with
    | |- context [?a =? ?b] => is_var a; is_var b; destruct (Z.eqb_spec a b)
    | |- context [?a <? ?b] => is_var a; is_var b; destruct (Z.ltb_spec a b)
    end); cbn; try (exfalso; lia); f_equal; lia.

Lemma rank_max_comm a b : rank_max a b = rank_max b a.
Proof. rank_cases. Qed.
Lemma rank_max_assoc a b c : rank_max a (rank_max b c) = rank_max (rank_max a b) c.
Proof. rank_cases. Qed.

(** A hook event: status, revision and the time it is handled at. *)
Definition hook : Type := string * Z * Z.
Definition hook_rank (h : hook) : rank := let '(s, r, _) := h in (r, Status.Code s).

Definition deliver (id : Z) (h : hook) : M db unit :=
  let '(s, r, now) := h in UpdateStatus id s r now.

(** What one delivery does to the task. *)
Definition after_hook (h : hook) (t : Task) : Task :=
  let '(s, r, now) := h in
  let t1 := if t_StatusRevision t <? r then bump_run r t else t in
  if newer (hook_rank h) (task_rank t)
  then set_task_status s (Status.Code s) r now (if Status.Final s then now else zero_time) t1
  else t1.

Lemma deliver_quiet id h d t :
  quiet d -> tasks d !! id = Some t ->
  deliver id h d = (Ok tt, with_tasks d (<[id := after_hook h t]> (tasks d))).
Proof.
  destruct h as [[s r] now]. intros Q E. unfold deliver, UpdateStatus, update_where, modify, bind.
  rewrite quiet_dbio, E by done.
  unfold after_hook, newer, hook_rank, task_rank; cbn [fst snd].
  destruct (t_StatusRevision t <? r) eqn:L; cbn.
  - rewrite quiet_dbio by done. cbn. rewrite lookup_insert_eq. cbn.
    rewrite L, orb_true_r. unfold with_tasks; cbn. by rewrite insert_insert_eq.
  - rewrite quiet_dbio by done. cbn. rewrite E, L, orb_false_r.
    destruct ((t_StatusRevision t =? r) && (t_StatusCode t <? Status.Code s)); [done|].
    rewrite insert_id by done. by destruct d.
Qed.

Lemma after_hook_rank h t : task_rank (after_hook h t) = rank_max (task_rank t) (hook_rank h).
Proof.
  destruct h as [[s r] now]. unfold after_hook, rank_max.
  destruct (newer _ _); destruct (t_StatusRevision t <? r); done.
Qed.

Definition deliver_all (id : Z) (hs : list hook) : M db unit := iterM (deliver id) hs.

Lemma deliver_all_quiet id hs d t :
  quiet d -> tasks d !! id = Some t ->
  deliver_all id hs d
  = (Ok tt, with_tasks d (<[id := foldl (fun t h => after_hook h t) t hs]> (tasks d))).
Proof.
  revert d t. induction hs as [|h hs IH]; intros d t Q E.
  - cbn. rewrite insert_id by done. by destruct d.
  - unfold deliver_all. cbn [iterM foldl]. unfold bind.
    rewrite (deliver_quiet _ _ _ t) by done.
    change (iterM (deliver id) hs) with (deliver_all id hs).
    rewrite (IH _ (after_hook h t)); [|done|cbn; by rewrite lookup_insert_eq].
    unfold with_tasks; cbn. by rewrite insert_insert_eq.
Qed.

Lemma foldl_hooks_rank hs t :
  task_rank (foldl (fun t h => after_hook h t) t hs)
  = foldr rank_max (task_rank t) (hook_rank <$> hs).
Proof.
  revert t. induction hs as [|h hs IH]; intros t; [done|].
  cbn [foldl]. rewrite IH, after_hook_rank. cbn. clear IH.
  generalize (task_rank t) (hook_rank h). intros a b.
  induction (hook_rank <$> hs) as [|c l IH]; cbn; [apply rank_max_comm|].
  rewrite IH, !rank_max_assoc. f_equal. apply rank_max_comm.
Qed.

Lemma foldr_rank_perm a l k : l ≡ₚ k -> foldr rank_max a l = foldr rank_max a k.
Proof.
  induction 1 as [|x l k _ IH|x y l|l k m _ IH1 _ IH2]; cbn; [done|by rewrite IH| |congruence].
  rewrite !rank_max_assoc. f_equal. apply rank_max_comm.
Qed.

Definition coded (t : Task) : Prop := t_StatusCode t = Status.Code (t_Status t).

Lemma foldl_hooks_coded hs t : coded t -> coded (foldl (fun t h => after_hook h t) t hs).
Proof.
  revert t. induction hs as [|[[s r] now] hs IH]; intros t C; [done|]. cbn [foldl]. apply IH.
  unfold coded, after_hook in *. destruct (newer _ _), (t_StatusRevision t <? r); done.
Qed.

(** C21: whatever the order in which the hook events of a task arrive, with
    duplicates and with events of earlier runs among them, the task ends at
    the same status revision and status code: those of the newest event,
    where a later revision is newer and within a revision a higher status
    code; the stored code stays the code of the stored status. *)
Theorem hooks_commute id hs hs' d t :
  quiet d -> tasks d !! id = Some t -> coded t -> hs ≡ₚ hs' ->
  exists t1 t2,
    tasks (deliver_all id hs d).2 !! id = Some t1
    /\ tasks (deliver_all id hs' d).2 !! id = Some t2
    /\ task_rank t1 = task_rank t2
    /\ task_rank t1 = foldr rank_max (task_rank t) (hook_rank <$> hs)
    /\ coded t1 /\ coded t2.
Proof.
  intros Q E C P.
  exists (foldl (fun t h => after_hook h t) t hs), (foldl (fun t h => after_hook h t) t hs').
  rewrite !(deliver_all_quiet id _ d t) by done. cbn. rewrite !lookup_insert_eq.
  rewrite !foldl_hooks_rank.
  repeat split; try (by apply foldl_hooks_coded). apply foldr_rank_perm. by f_equiv.
Qed.

Lemma hooks_commute_witness :
  let d := sample_db [sample_task 1 7 Status.PendingStatus 0] in
  let a := (Status.RunningStatus, 5, 10) in
  let b := (Status.SuccessStatus, 5, 11) in
  let c := (Status.ErrorStatus, 3, 12) in
  exists t1 t2,
    tasks (deliver_all 1 [c; a; b] d).2 !! 1 = Some t1
    /\ tasks (deliver_all 1 [b; c; a] d).2 !! 1 = Some t2
    /\ task_rank t1 = task_rank t2 /\ task_rank t1 = (5, 3).
Proof.
  intros d a b c.
  destruct (hooks_commute 1 [c; a; b] [b; c; a] d (sample_task 1 7 Status.PendingStatus 0))
    as (t1 & t2 & H1 & H2 & H3 & H4 & _); [done|done|done| |].
  - symmetry. apply (Permutation_cons_append [c; a] b).
  - exists t1, t2. split; [done|]. split; [done|]. split; [done|]. rewrite H4. reflexivity.
Defined.

(** ** Updates in batches *)

Lemma update_jobs_nil f d : update_jobs [] f d = (Ok tt, d).
Proof.
  unfold update_jobs, modify. cbn.
  assert (E : (fun t : Task => t) <$> tasks d = tasks d) by (apply map_fmap_id).
  rewrite E. by destruct d.
Qed.

Lemma update_jobs_app l k f d :
  (forall t, t_JobID (f t) = t_JobID t) -> (forall t, f (f t) = f t) ->
  update_jobs (l ++ k) f d = (Ok tt, (update_jobs k f (update_jobs l f d).2).2).
Proof.
  intros J I. unfold update_jobs, modify. cbn. unfold with_tasks; cbn. do 2 f_equal.
  rewrite <- map_fmap_compose. apply map_fmap_ext. intros i t _. cbn.
  rewrite existsb_app.
  destruct (existsb (String.eqb (t_JobID t)) l) eqn:E; cbn; rewrite ?J;
    destruct (existsb (String.eqb (t_JobID t)) k); cbn; rewrite ?I; done.
Qed.

Lemma update_batches_quiet fuel jobIDs status batchSize now d :
  0 < batchSize -> quiet d -> (length jobIDs <= fuel)%nat ->
  update_batches fuel jobIDs status batchSize now d
  = update_jobs jobIDs (set_status_only status now) d.
Proof.
  intros B. revert jobIDs d. induction fuel as [|fuel IH]; intros jobIDs d Q L.
  - destruct jobIDs; [|simpl in L; lia]. by rewrite update_jobs_nil.
  - cbn [update_batches]. destruct jobIDs as [|j js] eqn:J.
    { by rewrite update_jobs_nil. }
    rewrite <- J in *. clear j js J.
    destruct (Z.leb_spec (Z.of_nat (length jobIDs)) batchSize); [by apply quiet_dbio|].
    destruct (Z.ltb_spec batchSize 0); [lia|]. destruct (Z.eqb_spec batchSize 0); [lia|].
    unfold bind. rewrite quiet_dbio by done.
    set (f := set_status_only status now).
    pose proof (update_jobs_app (take (Z.to_nat batchSize) jobIDs)
      (drop (Z.to_nat batchSize) jobIDs) f d) as A.
    rewrite take_drop in A. rewrite A by (by intros []).
    unfold update_jobs at 1, modify at 1. rewrite IH; [done|done|].
    rewrite length_drop. lia.
Qed.

(** Updating the status of a list of jobs in batches of any positive size
    has the effect of the single statement over the whole list: the tasks of
    the listed jobs get the status and the update time, no other task and no
    other column (the status code among them) changes; a batch size of zero
    or less fails before any row changes when it is exceeded. *)
Theorem batches_update_all jobIDs status batchSize now d :
  quiet d ->
  (0 < batchSize ->
   UpdateStatusInBatch jobIDs status batchSize now d
   = (Ok tt, with_tasks d ((fun t => if existsb (String.eqb (t_JobID t)) jobIDs
                                     then set_status_only status now t else t) <$> tasks d)))
  /\ (batchSize <= 0 -> jobIDs <> [] ->
      exists e, UpdateStatusInBatch jobIDs status batchSize now d = (Err e, d)).
Proof.
  intros Q. split.
  - intros B. unfold UpdateStatusInBatch. by rewrite update_batches_quiet.
  - intros B N. unfold UpdateStatusInBatch. destruct jobIDs as [|j js]; [done|].
    cbn [length update_batches]. destruct (Z.leb_spec (Z.of_nat (S (length js))) batchSize); [lia|].
    destruct (Z.ltb_spec batchSize 0); [by eexists|].
    destruct (Z.eqb_spec batchSize 0); [|lia]. rewrite quiet_dbio by done. by eexists.
Qed.

Lemma batches_update_all_witness :
  let d := sample_db [sample_task 1 7 Status.PendingStatus 0] in
  (UpdateStatusInBatch ["a"; "b"; "job"]%string Status.StoppedStatus 2 9 d).1 = Ok tt
  /\ (t_Status <$> tasks (UpdateStatusInBatch ["a"; "b"; "job"]%string Status.StoppedStatus 2 9 d).2 !! 1)
     = Some Status.StoppedStatus.
Proof.
  intros d. destruct (batches_update_all ["a"; "b"; "job"]%string Status.StoppedStatus 2 9 d) as [H _];
    [done|]. rewrite H by lia. done.
Defined.


(** The batched update leaves the status code behind: when it has set the
    tasks of a job to a final status, an ordinary status event of the same
    run, of any higher code than the task had before, still replaces that
    final status. *)
Theorem batch_status_not_final id status h now batchSize d t :
  quiet d -> 0 < batchSize -> tasks d !! id = Some t ->
  newer (hook_rank h) (task_rank t) = true ->
  let d' := (UpdateStatusInBatch [t_JobID t] status batchSize now d).2 in
  t_Status <$> tasks d' !! id = Some status
  /\ t_Status <$> tasks (deliver id h d').2 !! id = Some h.1.1.
Proof.
  intros Q B E N d'.
  assert (D : tasks d' !! id = Some (set_status_only status now t)).
  { unfold d', UpdateStatusInBatch. rewrite update_batches_quiet by done. cbn.
    by rewrite lookup_fmap, E; cbn; rewrite String.eqb_refl. }
  assert (Q' : quiet d').
  { unfold d', UpdateStatusInBatch. by rewrite update_batches_quiet. }
  split; [by rewrite D|].
  rewrite (deliver_quiet id h d' _ Q' D). cbn. rewrite lookup_insert_eq. cbn.
  destruct h as [[s r] nw]. unfold after_hook.
  replace (task_rank (set_status_only status now t)) with (task_rank t) by done.
  by rewrite N.
Qed.

Lemma batch_status_not_final_witness :
  let t := sample_task 1 7 Status.PendingStatus 0 in
  let d := sample_db [t] in
  let d' := (UpdateStatusInBatch ["job"]%string Status.StoppedStatus 100 9 d).2 in
  t_Status <$> tasks d' !! 1 = Some Status.StoppedStatus
  /\ t_Status <$> tasks (deliver 1 (Status.RunningStatus, 1, 10) d').2 !! 1
     = Some Status.RunningStatus.
Proof.
  intros t d.
  exact (batch_status_not_final 1 Status.StoppedStatus (Status.RunningStatus, 1, 10) 9 100 d t
    (conj eq_refl eq_refl) eq_refl eq_refl eq_refl).
Defined.

(** ** Concurrent refreshes of one execution *)

Section Concurrent.
Context (id : Z).

(** Where a call of [refreshStatus] is: it has not read, it has read the
    execution's status and revision, it knows the status to write, it has
    written it and still has to set the end time. *)
Inductive pc :=
| Start
| GotExec (old : string) (revision : Z)
| GotView (v : refresh_view)
| Written.

Record sys := mkSys { store : db; procs : gmap nat pc }.

(** One database call of one refresher, a refresher giving up (its call
    failed, its process died, or it has finished), or a change of the tasks.
    A refresher without a program counter is a new one. *)
Inductive step : sys -> sys -> Prop :=
| step_get p x s d' :
    default Start (procs s !! p) = Start ->
    exec_Get id (store s) = (Ok x, d') ->
    step s (mkSys d' (<[p := GotExec (e_Status x) (e_Revision x)]> (procs s)))
| step_metrics p old rev m s d' :
    procs s !! p = Some (GotExec old rev) ->
    GetMetrics id (store s) = (Ok m, d') ->
    step s (mkSys d' (<[p := if TaskCount m =? 0 then Start
                             else GotView (mkView old rev (status_of_metrics m))]> (procs s)))
| step_write p v n now s d' :
    procs s !! p = Some (GotView v) ->
    update_if_revision id (v_revision v) (v_status v) now (store s) = (Ok n, d') ->
    step s (mkSys d' (<[p := if n =? 0 then Start else Written]> (procs s)))
| step_end p s d' :
    procs s !! p = Some Written ->
    update_end_time id (store s) = (Ok tt, d') ->
    step s (mkSys d' (<[p := Start]> (procs s)))
| step_fail p s :
    step s (mkSys (store s) (<[p := Start]> (procs s)))
| step_tasks ts s :
    step s (mkSys (with_tasks (store s) ts) (procs s)).

(** Steps that leave the tasks alone. *)
Definition calm (s s' : sys) : Prop := step s s' /\ tasks (store s') = tasks (store s).

Definition current (s : sys) : option Execution := execs (store s) !! id.
Definition target (s : sys) : string := derived_status (tasks_of (store s) id).

(** The revisions the refreshers hold are not newer than the stored one. *)
Definition pc_revision (c : pc) : option Z :=
  match c with GotExec _ r => Some r | GotView v => Some (v_revision v) | _ => None end.

Definition sane (s : sys) : Prop :=
  quiet (store s)
  /\ exists x, current s = Some x
     /\ forall p c r, procs s !! p = Some c -> pc_revision c = Some r -> r <= e_Revision x.

(** A refresher whose reads all see the tasks as they are now. *)
Definition clean_pc (s : sys) (c : pc) : Prop :=
  match c with GotView v => v_status v = target s | _ => True end.

(** The status is right, and so is whatever a refresher that can still win
    the race would write. *)
Definition settled (s : sys) : Prop :=
  exists x, current s = Some x
  /\ e_Status x = target s
  /\ forall p c, procs s !! p = Some c -> pc_revision c = Some (e_Revision x) -> clean_pc s c.

(** What each call does to a quiet store. *)
Lemma exec_Get_quiet d r d' :
  quiet d -> exec_Get id d = (r, d') ->
  d' = d /\ match r with Ok x => execs d !! id = Some x | Err _ => execs d !! id = None end.
Proof.
  intros Q. unfold exec_Get. rewrite quiet_dbio by done.
  destruct (execs d !! id) eqn:E; intros [= <- <-]; done.
Qed.

Lemma update_if_revision_quiet d rev st now r d' x :
  quiet d -> execs d !! id = Some x ->
  update_if_revision id rev st now d = (r, d') ->
  if e_Revision x =? rev
  then r = Ok 1 /\ d' = with_execs d (<[id := set_exec_status st now x]> (execs d))
  else r = Ok 0 /\ d' = d.
Proof.
  intros Q E. unfold update_if_revision. rewrite quiet_dbio, E by done.
  destruct (e_Revision x =? rev); intros [= <- <-]; done.
Qed.

Lemma update_end_time_quiet d r d' x :
  quiet d -> execs d !! id = Some x -> update_end_time id d = (r, d') ->
  exists en, d' = with_execs d (<[id := set_exec_end en x]> (execs d)).
Proof.
  intros Q E. unfold update_end_time, modify. rewrite quiet_dbio, E by done.
  intros [= <- <-]. by eexists.
Qed.

(** The pc a refresher may newly be at after a step from [s], where the
    execution was [x], to a state where it is [x']. *)
Definition wins (s : sys) (x x' : Execution) (p : nat) (v : refresh_view) : Prop :=
  procs s !! p = Some (GotView v) /\ v_revision v = e_Revision x
  /\ e_Status x' = v_status v /\ e_Revision x' = e_Revision x + 1.

Definition new_pc (s : sys) (x x' : Execution) (p : nat) (c : pc) : Prop :=
  match c with
  | Start => True
  | GotExec _ r => r = e_Revision x
  | GotView v => v_status v = target s /\ exists old, procs s !! p = Some (GotExec old (v_revision v))
  | Written => exists v, wins s x x' p v
  end.

Definition effect (s s' : sys) (x x' : Execution) : Prop :=
  current s' = Some x' /\ quiet (store s')
  /\ ((e_Status x' = e_Status x /\ e_Revision x' = e_Revision x) \/ exists p v, wins s x x' p v)
  /\ forall p c, procs s' !! p = Some c -> procs s !! p = Some c \/ new_pc s x x' p c.

Lemma insert_pc (m : gmap nat pc) p c (P : nat -> pc -> Prop) :
  P p c -> forall q k, <[p := c]> m !! q = Some k -> m !! q = Some k \/ P q k.
Proof. intros H q k [[<- <-]|[_ ?]]%lookup_insert_Some; auto. Qed.

Lemma step_effect s s' x :
  quiet (store s) -> current s = Some x -> step s s' -> exists x', effect s s' x x'.
Proof.
  intros Q E H. unfold current in E.
  destruct H as [p y s d' _ G|p old rev m s d' P G|p v n now s d' P G|p s d' P G|p s|ts s].
  - destruct (exec_Get_quiet _ _ _ Q G) as [-> E']. simplify_eq.
    exists x. split_and!; [done|done|by left|by apply insert_pc].
  - rewrite GetMetrics_quiet in G by done. injection G as <- <-.
    exists x. split_and!; [done|done|by left|]. apply insert_pc.
    destruct (TaskCount _ =? 0); [done|]. cbn. split; [apply status_of_metrics_of|by eexists].
  - pose proof (update_if_revision_quiet _ _ _ _ _ _ _ Q E G) as U.
    destruct (Z.eqb_spec (e_Revision x) (v_revision v)) as [R|R]; destruct U as [[= ->] ->].
    + exists (set_exec_status (v_status v) now x).
      assert (W : wins s x (set_exec_status (v_status v) now x) p v) by done.
      split_and!; [by unfold current; cbn; rewrite lookup_insert_eq|done|by right; eauto|].
      apply insert_pc. cbn. by exists v.
    + exists x. split_and!; [done|done|by left|by apply insert_pc].
  - destruct (update_end_time_quiet _ _ _ _ Q E G) as [en ->].
    exists (set_exec_end en x).
    split_and!; [by unfold current; cbn; rewrite lookup_insert_eq|done|by left|by apply insert_pc].
  - exists x. split_and!; [done|done|by left|by apply insert_pc].
  - exists x. split_and!; [done|done|by left|by left].
Qed.

Lemma effect_sane s s' x x' :
  (forall p c r, procs s !! p = Some c -> pc_revision c = Some r -> r <= e_Revision x) ->
  effect s s' x x' -> sane s'.
Proof.
  intros B (E & Q & D & N). split; [done|]. exists x'. split; [done|].
  assert (L : e_Revision x <= e_Revision x')
    by (destruct D as [[_ ->]|(p & v & _ & _ & _ & ->)]; lia).
  intros p c r P R. destruct (N p c P) as [O|O]; [specialize (B _ _ _ O R); lia|].
  destruct c as [|old r'|v|]; cbn in *; simplify_eq; [lia|].
  destruct O as [_ [old O]]. specialize (B _ _ _ O eq_refl). lia.
Qed.

Lemma sane_steps s s' : rtc step s s' -> sane s -> sane s'.
Proof.
  induction 1 as [|s s1 s' H _ IH]; [done|]. intros (Q & x & E & B). apply IH.
  destruct (step_effect _ _ _ Q E H) as [x' F]. by eapply effect_sane.
Qed.

Lemma calm_target s s' : calm s s' -> target s' = target s.
Proof. intros [_ T]. unfold target, tasks_of. by rewrite T. Qed.

Lemma calm_steps s s' : rtc calm s s' -> rtc step s s'.
Proof. induction 1 as [|a b c [H _] _ IH]; [done|]. by eapply rtc_l. Qed.

(** A refresher that is clean stays clean while the tasks do not change. *)
Lemma clean_calm p s s' :
  sane s -> calm s s' ->
  (forall c, procs s !! p = Some c -> clean_pc s c) ->
  forall c, procs s' !! p = Some c -> clean_pc s' c.
Proof.
  intros (Q & x & E & B) C H c P. pose proof (calm_target _ _ C) as T. destruct C as [S _].
  destruct (step_effect _ _ _ Q E S) as [x' (_ & _ & _ & N)].
  unfold clean_pc in *. rewrite T.
  destruct (N p c P) as [O|O]; [by specialize (H c O)|].
  destruct c; [done|done| |done]. by destruct O.
Qed.

Lemma clean_calms p s s' :
  rtc calm s s' -> sane s ->
  (forall c, procs s !! p = Some c -> clean_pc s c) ->
  forall c, procs s' !! p = Some c -> clean_pc s' c.
Proof.
  induction 1 as [|s s1 s' C _ IH]; [done|]. intros S H. apply IH.
  - eapply sane_steps; [|done]. apply rtc_once, C.
  - by eapply clean_calm.
Qed.

Lemma settled_calm s s' : sane s -> settled s -> calm s s' -> settled s'.
Proof.
  intros (Q & x & E & B) (y & E' & St & Cl) C. rewrite E in E'. injection E' as <-.
  pose proof (calm_target _ _ C) as T. destruct C as [S _].
  destruct (step_effect _ _ _ Q E S) as [x' (E1 & _ & D & N)].
  exists x'. split; [done|]. rewrite T.
  destruct D as [[D1 D2]|(q & w & Pq & Rw & Sw & Rx)].
  - split; [congruence|]. intros p c P R. unfold clean_pc in *. rewrite T. rewrite D2 in R.
    destruct (N p c P) as [O|O]; [by apply (Cl p)|].
    destruct c; [done|done| |done]. by destruct O.
  - split. { rewrite Sw. apply (Cl q (GotView w)); [done|]. cbn. by rewrite Rw. }
    intros p c P R. exfalso. rewrite Rx in R.
    destruct (N p c P) as [O|O]; [specialize (B _ _ _ O R); lia|].
    destruct c as [|old r|v|]; cbn in *; simplify_eq; [lia|].
    destruct O as [_ [old O]]. specialize (B _ _ _ O eq_refl). lia.
Qed.

Lemma settled_calms s s' : rtc calm s s' -> sane s -> settled s -> settled s'.
Proof.
  induction 1 as [|s s1 s' C _ IH]; [done|]. intros S H. apply IH; [|by eapply settled_calm].
  eapply sane_steps; [|done]. apply rtc_once, C.
Qed.

(** A clean refresher that wins settles the status. *)
Lemma clean_win_settles p v s s' :
  sane s -> calm s s' -> procs s !! p = Some (GotView v) -> v_status v = target s ->
  procs s' !! p = Some Written -> settled s'.
Proof.
  intros (Q & x & E & B) C P V P'. pose proof (calm_target _ _ C) as T. destruct C as [S _].
  destruct (step_effect _ _ _ Q E S) as [x' (E1 & _ & _ & N)].
  destruct (N p Written P') as [O|(w & Pw & _ & Sw & Rx)]; [congruence|].
  exists x'. split; [done|]. rewrite T. split; [congruence|].
  intros q c Pq R. exfalso. rewrite Rx in R.
  destruct (N q c Pq) as [O|O]; [specialize (B _ _ _ O R); lia|].
  destruct c as [|old r|u|]; cbn in *; simplify_eq; [lia|].
  destruct O as [_ [old O]]. specialize (B _ _ _ O eq_refl). lia.
Qed.
End Concurrent.

(** C9: no stale status survives concurrent refreshes.  From a state reached
    by any interleaving of refreshers, failures and task changes, once a
    refresher that had not yet read the tasks when they last changed has
    written its status, the execution has the status derived from its tasks
    and keeps it, whatever the other refreshers, some still holding views of
    older tasks, go on to do: the revision they read no longer matches. *)
Theorem refresh_converges id p x old rev w s s1 s2 s3 s4 :
  quiet (store s) -> execs (store s) !! id = Some x -> procs s = ∅ ->
  rtc (step id) s s1 ->
  procs s1 !! p = Some (GotExec old rev) ->
  rtc (calm id) s1 s2 ->
  procs s2 !! p = Some (GotView w) -> calm id s2 s3 -> procs s3 !! p = Some Written ->
  rtc (calm id) s3 s4 ->
  exists y, execs (store s4) !! id = Some y
            /\ e_Status y = derived_status (tasks_of (store s4) id).
Proof.
  intros Q E P0 R0 P1 R1 P2 C2 P3 R3.
  assert (S : sane id s).
  { split; [done|]. exists x. split; [done|]. intros q c r H. rewrite P0 in H. done. }
  assert (S1 : sane id s1) by (by eapply sane_steps).
  assert (S2 : sane id s2) by (eapply sane_steps; [by apply calm_steps|done]).
  assert (S3 : sane id s3) by (eapply sane_steps; [apply rtc_once, C2|done]).
  assert (W : clean_pc id s2 (GotView w)).
  { eapply (clean_calms id p s1 s2); [done|done| |done]. intros c Hc. rewrite P1 in Hc.
    by injection Hc as <-. }
  pose proof (clean_win_settles id p w s2 s3 S2 C2 P2 W P3) as T.
  destruct (settled_calms id _ _ R3 S3 T) as (y & Ey & Sy & _). by exists y.
Qed.

Lemma step_to id s s1 s2 : step id s s1 -> s1 = s2 -> step id s s2.
Proof. by intros H <-. Qed.

(** Refresher 1 reads a running task, the task succeeds, refresher 2 reads and
    writes, and refresher 1 writes last: the execution is a success. *)
Lemma refresh_converges_witness :
  let x := sample_exec Status.RunningStatus in
  let run := {[1 := sample_task 1 7 Status.RunningStatus 0]} in
  let d0 := mkDb {[7 := x]} run 8 10 [] [] None in
  let d1 := with_tasks d0 {[1 := sample_task 1 7 Status.SuccessStatus 50]} in
  let d2 := with_execs d1 (<[7 := set_exec_status Status.SuccessStatus 60 x]> (execs d1)) in
  let stale := GotView (mkView Status.RunningStatus 4 Status.RunningStatus) in
  let s4 := mkSys d2 (<[1%nat := Start]> (<[2%nat := Written]> {[1%nat := stale]})) in
  exists y, execs (store s4) !! 7 = Some y
            /\ e_Status y = derived_status (tasks_of (store s4) 7).
Proof.
  intros x run d0 d1 d2 stale s4.
  set (ge := GotExec Status.RunningStatus 4).
  set (w := mkView Status.RunningStatus 4 Status.SuccessStatus).
  set (q := {[1%nat := stale]} : gmap nat pc).
  refine (refresh_converges 7 2 x Status.RunningStatus 4 w (mkSys d0 ∅)
    (mkSys d1 (<[2%nat := ge]> q)) (mkSys d1 (<[2%nat := GotView w]> q))
    (mkSys d2 (<[2%nat := Written]> q)) s4 _ _ _ _ _ _ _ _ _ _); try done.
  - eapply rtc_l; [apply (step_get 7 1 x _ d0); done|].
    eapply rtc_l; [apply (step_metrics 7 1 Status.RunningStatus 4 (mkMetrics 1 0 0 0 1 0 0) _ d0); done|].
    eapply rtc_l; [apply (step_tasks 7 (tasks d1))|].
    apply rtc_once. eapply step_to; [apply (step_get 7 2 x _ d1); done|done].
  - apply rtc_once. split; [|done]. eapply step_to;
      [apply (step_metrics 7 2 Status.RunningStatus 4 (mkMetrics 1 1 0 0 0 0 0) _ d1); done|done].
  - split; [|done]. eapply step_to; [apply (step_write 7 2 w 1 60 _ d2); done|done].
  - apply rtc_once. split; [|done].
    eapply step_to; [apply (step_write 7 1 (mkView Status.RunningStatus 4 Status.RunningStatus) 0 70 _ d2); done|done].
Defined.


(** ** The asynchronous refresh *)

Lemma parse_build_member id vendor :
  Int64.in_range id -> vendor <> "" ->
  parseExecStatusOutdateMember (buildExecStatusOutdateMember id vendor) = Ok (id, vendor).
Proof.
  intros I V. unfold parseExecStatusOutdateMember, buildExecStatusOutdateMember.
  rewrite GoStrings.SplitN2_app by apply GoStrings.count_colon_format_int.
  rewrite (proj2 (String.eqb_neq _ _)) by done. by rewrite Strconv.parse_format_int.
Qed.

(** The stored status of an execution is the one derived from its tasks. *)
Definition status_right (d : db) (id : Z) : Prop :=
  forall x, execs d !! id = Some x -> some_task is_known (tasks_of d id) = true ->
  e_Status x = derived_status (tasks_of d id).

(** What the refresh of executions leaves alone, and what it keeps right. *)
Record refines (d d' : db) : Prop := mkRefines {
  rf_quiet : quiet d -> quiet d';
  rf_tasks : tasks d' = tasks d;
  rf_outdate : outdate d' = outdate d;
  rf_right : forall id, status_right d id -> status_right d' id;
}.

#[global] Instance refines_preorder : PreOrder refines.
Proof.
  split; [by constructor|]. intros a b c [] []. constructor; [tauto|congruence|congruence|auto].
Qed.

Section ScanProofs.
Context (postFunc : string -> option (Z -> string -> M db unit)).
(** The post functions act on other tables. *)
Context (post_elsewhere : forall v fc id st d, postFunc v = Some fc -> refines d (fc id st d).2).

Lemma RefreshStatus_refines id now d :
  quiet d -> exists r d', RefreshStatus id now d = (r, d') /\ refines d d' /\ status_right d' id
  /\ match r with Ok _ => True | Err e => IsNotFoundErr e = true end.
Proof.
  intros Q. destruct (execs d !! id) as [x|] eqn:E.
  - rewrite (RefreshStatus_quiet _ _ _ x) by done. cbv zeta.
    destruct (some_task is_known (tasks_of d id)) eqn:K.
    + do 2 eexists. split; [done|].
      assert (R : status_right (with_execs d (<[id := refreshed (tasks_of d id) now x]> (execs d))) id).
      { intros y Ey _. cbn in Ey. rewrite lookup_insert_eq in Ey. injection Ey as <-. done. }
      split; [|done]. constructor; [done|done|done|].
      intros i H. destruct (decide (i = id)) as [->|N]; [done|].
      intros y Ey. cbn in Ey. rewrite lookup_insert_ne in Ey by done. by apply H.
    + do 2 eexists. split; [done|]. split; [done|]. split; [|done]. intros y _ K'.
      by rewrite K in K'.
  - do 2 eexists. split; [|split; [done|]].
    + unfold RefreshStatus. cbn [refresh_attempts].
      unfold refreshStatus, refresh_read, exec_Get, bind. by rewrite quiet_dbio, E by done.
    + split; [|done]. intros y Ey. by rewrite E in Ey.
Qed.

Lemma refresh_member_refines m now d :
  quiet d -> exists d', refresh_member postFunc m now d = (Ok false, d') /\ refines d d'
  /\ forall id v, parseExecStatusOutdateMember m = Ok (id, v) -> status_right d' id.
Proof.
  intros Q. unfold refresh_member.
  destruct (parseExecStatusOutdateMember m) as [[i v]|e]; [|by exists d].
  destruct (RefreshStatus_refines i now d Q) as (r & d1 & H & R & S & K).
  unfold bind, try at 1. rewrite H. destruct r as [[ch cur]|e].
  - destruct (postFunc v) as [fc|] eqn:F; [destruct ch|]; unfold ret, try.
    + pose proof (post_elsewhere v fc i cur d1 F) as P.
      destruct (fc i cur d1) as [r2 d2]. cbn in P. exists d2. split; [done|].
      split; [by transitivity d1|]. intros ? ? [= <- <-]. by apply P.
    + exists d1. split; [done|]. split; [done|]. by intros ? ? [= <- <-].
    + exists d1. split; [done|]. split; [done|]. by intros ? ? [= <- <-].
  - rewrite K. exists d1. split; [done|]. split; [done|]. by intros ? ? [= <- <-].
Qed.

Lemma refresh_members_refines ms now d :
  quiet d -> exists d', refresh_members postFunc ms now d = (Ok [], d') /\ refines d d'
  /\ forall m id v, m ∈ ms -> parseExecStatusOutdateMember m = Ok (id, v) -> status_right d' id.
Proof.
  revert d. induction ms as [|m ms IH]; intros d Q.
  - exists d. split; [done|]. split; [done|]. set_solver.
  - destruct (refresh_member_refines m now d Q) as (d1 & E1 & R1 & S1).
    destruct (IH d1) as (d2 & E2 & R2 & S2); [by apply R1|].
    exists d2. cbn [refresh_members]. unfold bind. rewrite E1, E2. split; [done|].
    split; [by transitivity d1|]. intros k i v [->|K]%elem_of_cons P; [|by eapply S2].
    eapply R2, S1, P.
Qed.

Lemma scan_refines fuel now d :
  quiet d -> (length (outdate d) < fuel * execStatusOutdateBatchSize)%nat ->
  exists d', scan postFunc fuel now d = (Ok true, d') /\ quiet d' /\ outdate d' = []
  /\ tasks d' = tasks d /\ (forall id, status_right d id -> status_right d' id)
  /\ forall m id v, m ∈ outdate d -> parseExecStatusOutdateMember m = Ok (id, v) -> status_right d' id.
Proof.
  revert d. induction fuel as [|fuel IH]; intros d Q L; [lia|].
  rewrite Nat.mul_succ_l in L. cbn [scan]. unfold bind at 1, try, spop. rewrite quiet_io by done.
  set (n := execStatusOutdateBatchSize) in *.
  set (d0 := with_outdate d (drop n (outdate d))).
  destruct (take n (outdate d)) as [|m ms] eqn:T.
  - assert (outdate d = []) as Z by (destruct (outdate d); [done|by cbn in T]).
    exists d0. split; [done|]. unfold d0; cbn. rewrite Z. split_and!; [done|done|done|done|set_solver].
  - rewrite <- T in *. set (ms' := take n (outdate d)) in *.
    assert (Q0 : quiet d0) by done.
    destruct (refresh_members_refines ms' now d0 Q0) as (d1 & E1 & R1 & S1).
    unfold bind. rewrite T, <- T. fold ms'. rewrite E1. cbn [requeueOutdateMembers ret].
    destruct (Nat.ltb_spec (length ms') n) as [Lt|Ge].
    + assert (D : drop n (outdate d) = []).
      { apply nil_length_inv. rewrite length_drop. unfold ms' in Lt. rewrite length_take in Lt. lia. }
      assert (Tk : ms' = outdate d).
      { unfold ms'. rewrite <- (take_drop n (outdate d)) at 2. by rewrite D, app_nil_r. }
      exists d1. split; [done|]. split; [by apply R1|].
      split; [rewrite (rf_outdate _ _ R1); done|]. split; [apply R1|].
      split; [intros i Hi; by apply R1|]. rewrite <- Tk. exact S1.
    + destruct (IH d1) as (d2 & E2 & Q2 & O2 & T2 & K2 & S2); [by apply R1| |].
      { rewrite (rf_outdate _ _ R1). cbn [d0 with_outdate outdate]. rewrite length_drop.
        unfold ms' in Ge. rewrite length_take in Ge. lia. }
      exists d2. split; [done|]. split; [done|]. split; [done|].
      split; [by rewrite T2, (rf_tasks _ _ R1)|]. split; [intros i Hi; apply K2; by apply R1|].
      intros k i v Hk P. rewrite <- (take_drop n (outdate d)) in Hk.
      apply elem_of_app in Hk as [Hk|Hk].
      * eapply K2, S1; [exact Hk|exact P].
      * eapply S2; [|exact P]. rewrite (rf_outdate _ _ R1). done.
Qed.
End ScanProofs.

(** With redis and the database up, one run of the periodic scan ends, as
    soon as it has made one batch more than fill the set, empties the set of
    outdated executions, and leaves every execution whose identifier was in
    the set (and every one that was right before) with the status derived
    from its tasks. *)
Theorem scan_drains postFunc now d :
  (forall v fc id st d, postFunc v = Some fc -> refines d (fc id st d).2) ->
  quiet d ->
  exists d', scan postFunc (S (length (outdate d) / execStatusOutdateBatchSize)) now d = (Ok true, d')
  /\ outdate d' = [] /\ tasks d' = tasks d
  /\ (forall id, status_right d id -> status_right d' id)
  /\ forall id vendor, Int64.in_range id -> vendor <> "" ->
     buildExecStatusOutdateMember id vendor ∈ outdate d -> status_right d' id.
Proof.
  intros P Q.
  destruct (scan_refines postFunc P (S (length (outdate d) / execStatusOutdateBatchSize)) now d Q)
    as (d' & E & _ & O & T & K & S).
  { rewrite Nat.mul_comm. apply Nat.mul_succ_div_gt. by unfold execStatusOutdateBatchSize. }
  exists d'. split_and!; [done..|]. intros id v I V M. by eapply S, parse_build_member.
Qed.

Lemma scan_drains_witness :
  let d := with_outdate (sample_db [sample_task 1 7 Status.ErrorStatus 60])
             [buildExecStatusOutdateMember 7 "GC"] in
  exists d', scan (fun _ => None) 1 99 d = (Ok true, d')
  /\ e_Status <$> execs d' !! 7 = Some Status.ErrorStatus.
Proof.
  intros d.
  destruct (scan_drains (fun _ => None) 99 d) as (d' & E & _ & T & _ & S); [done|done|].
  exists d'. split; [exact E|].
  specialize (S 7 "GC"%string). unfold status_right, tasks_of in S. rewrite T in S.
  assert (K : exists x, execs d' !! 7 = Some x).
  { vm_compute in E. injection E as <-. eexists. vm_compute. reflexivity. }
  destruct K as [x K]. rewrite K. cbn. f_equal. apply (S ltac:(by vm_compute)); [done| |done|done].
  vm_compute. left.
Defined.

Lemma sadd_fresh ms set :
  NoDup (set ++ ms) -> sadd ms set = set ++ ms.
Proof.
  revert set. induction ms as [|m ms IH]; intros set N; [by rewrite app_nil_r|].
  change (sadd (m :: ms) set)
    with (sadd ms (if existsb (String.eqb m) set then set else set ++ [m])).
  replace (existsb (String.eqb m) set) with false.
  - rewrite IH; rewrite <- app_assoc; done.
  - symmetry. apply not_true_is_false. rewrite existsb_exists. intros (k & K & E%String.eqb_eq).
    subst k. apply NoDup_app in N as (_ & N & _). apply (N m); [by apply list_elem_of_In|left].
Qed.

Definition well_formed_member (m : string) : Prop :=
  is_ok (parseExecStatusOutdateMember m) = true.

Lemma refresh_members_down postFunc ms now d e :
  db_down d = Some e -> IsNotFoundErr e = false -> Forall well_formed_member ms ->
  refresh_members postFunc ms now d = (Ok ms, d).
Proof.
  intros D N. induction 1 as [|m ms W _ IH]; [done|].
  cbn [refresh_members]. unfold bind at 1.
  assert (R : refresh_member postFunc m now d = (Ok true, d)).
  { unfold refresh_member. unfold well_formed_member in W.
    destruct (parseExecStatusOutdateMember m) as [[i v]|]; [|done].
    unfold bind, try, RefreshStatus. cbn [refresh_attempts].
    unfold refreshStatus, refresh_read, exec_Get, bind, dbio. by rewrite D, N. }
  rewrite R. unfold bind. by rewrite IH.
Qed.

(** When the database is down while redis is up and a full batch of
    members or more waits in the set, the scan never ends: the members it
    fails to refresh go back to the set it is popping from, so after any
    number of batches it is still running with the same members to do. *)
Theorem scan_spins postFunc fuel now d e :
  faults d = [] -> db_down d = Some e -> IsNotFoundErr e = false ->
  NoDup (outdate d) -> Forall well_formed_member (outdate d) ->
  (execStatusOutdateBatchSize <= length (outdate d))%nat ->
  exists d', scan postFunc fuel now d = (Ok false, d')
  /\ execs d' = execs d /\ outdate d' ≡ₚ outdate d.
Proof.
  intros F D N. revert d F D. induction fuel as [|fuel IH]; intros d F D U W L; [by exists d|].
  cbn [scan]. unfold bind at 1, try, spop, io, next_fault, db_faulty. rewrite F.
  set (n := execStatusOutdateBatchSize) in *.
  assert (Ln : length (take n (outdate d)) = n) by (rewrite length_take; lia).
  destruct (take n (outdate d)) as [|m ms] eqn:T; [done|]. rewrite <- T in *.
  rewrite <- (take_drop n (outdate d)) in W, U. apply Forall_app in W as [W1 W2].
  unfold bind at 1. rewrite T, <- T.
  rewrite (refresh_members_down _ _ _ _ e) by done.
  rewrite T, <- T. unfold requeueOutdateMembers. rewrite T, <- T.
  unfold bind, try, io, next_fault, db_faulty. cbn [faults with_outdate]. rewrite F. cbn [modify].
  rewrite Ln, Nat.ltb_irrefl. cbn [with_outdate outdate].
  assert (P : drop n (outdate d) ++ take n (outdate d) ≡ₚ outdate d).
  { rewrite <- (take_drop n (outdate d)) at 3. apply Permutation_app_comm. }
  rewrite sadd_fresh by (rewrite P; by rewrite take_drop in U).
  edestruct IH as (d' & E & X & O); [..|exists d'; split; [exact E|]; split; [exact X|]].
  - done.
  - done.
  - cbn [outdate with_outdate]. rewrite P. by rewrite take_drop in U.
  - cbn [outdate with_outdate]. by apply Forall_app.
  - cbn [outdate with_outdate]. by rewrite P.
  - rewrite O. exact P.
Qed.

Definition sample_members : list string :=
  (fun i => buildExecStatusOutdateMember (Z.of_nat i) "GC") <$> seq 1 100.

Lemma scan_spins_witness :
  let d := mkDb ∅ ∅ 1 1 sample_members [] (Some (Plain "connection refused")) in
  exists d', scan (fun _ => None) 1000 99 d = (Ok false, d')
  /\ execs d' = execs d /\ outdate d' ≡ₚ outdate d.
Proof.
  intros d. apply (scan_spins (fun _ => None) 1000 99 d (Plain "connection refused")); try done.
  - apply (bool_decide_unpack _). vm_compute. exact I.
  - change (Forall (fun m => is_ok (parseExecStatusOutdateMember m) = true) sample_members).
    apply (bool_decide_unpack _). vm_compute. exact I.
Defined.

(** ** The extra-attributes query *)

Lemma count_Join_repeat n sep :
  GoStrings.count "?" sep = 0%nat ->
  GoStrings.count "?" (GoStrings.Join (repeat "?"%string n) sep) = n.
Proof.
  intros Hs. induction n as [|[|n] IH]; [done|done|].
  change (GoStrings.Join (repeat "?"%string (S (S n))) sep)
    with ("?" ++ sep ++ GoStrings.Join (repeat "?"%string (S n)) sep)%string.
  rewrite !GoStrings.count_app, Hs, IH. done.
Qed.

Lemma count_jsonb_cond first keys :
  keys <> [] -> GoStrings.count "?" (jsonb_cond first keys) = S (length keys).
Proof.
  intros N. unfold jsonb_cond.
  destruct (Nat.eqb_spec (length keys) 1) as [E|E].
  - rewrite E. by destruct first.
  - rewrite !GoStrings.count_app, count_Join_repeat by done.
    destruct keys; [done|]. destruct first; cbn; cbn in E; lia.
Qed.

Lemma jsonb_keys_nonempty j : jsonb_keys j <> [].
Proof.
  unfold jsonb_keys. intros E. apply (f_equal length) in E.
  rewrite GoStrings.Split_length in E. done.
Qed.

Lemma build_conds_count first l cond args :
  build_conds first l = Some (cond, args) ->
  GoStrings.count "?" cond = length args
  /\ args = concat ((fun j => jsonb_keys j ++ [jvalue j]) <$> l).
Proof.
  revert first cond args. induction l as [|j l IH]; intros first cond args; cbn [build_conds].
  - by intros [= <- <-].
  - destruct ((jkey j =s= "") || (jvalue j =s= "")); [done|].
    destruct (build_conds false l) as [[c a]|] eqn:B; [|done]. intros [= <- <-].
    destruct (IH false c a B) as [C A].
    rewrite GoStrings.count_app, C, count_jsonb_cond by apply jsonb_keys_nonempty.
    rewrite length_app. cbn [length app]. split; [lia|]. cbn. rewrite A, <- app_assoc. done.
Qed.

(** The query on the extra attributes has as many placeholders as it is
    given arguments, whatever the keywords hold.  The arguments are the path segments and the
    value of each keyword, in order, and the query is dropped as a whole as
    soon as one keyword has an empty key or value. *)
Theorem extra_attrs_placeholders l :
  let (sql, args) := buildInClauseSQLForExtraAttrs l in
  GoStrings.count "?" sql = length args
  /\ (sql = ""%string -> args = [])
  /\ (sql <> "" -> args = concat ((fun j => jsonb_keys j ++ [jvalue j]) <$> l))
  /\ (sql <> "" <-> l <> [] /\ Forall (fun j => jkey j <> "" /\ jvalue j <> "") l).
Proof.
  assert (D : forall first k, is_Some (build_conds first k)
              <-> Forall (fun j => jkey j <> "" /\ jvalue j <> "") k).
  { intros first k. revert first. induction k as [|j k IH]; intros first; cbn [build_conds].
    - split; [done|by eexists].
    - rewrite Forall_cons, <- (IH false).
      destruct (String.eqb_spec (jkey j) ""); [split; [by intros []|tauto]|].
      destruct (String.eqb_spec (jvalue j) ""); [split; [by intros []|tauto]|]. cbn [orb].
      destruct (build_conds false k) as [[c a]|]; split; [by split; [|eexists]|by eexists|by intros []|].
      by intros [_ []]. }
  unfold buildInClauseSQLForExtraAttrs. destruct l as [|j l']; [by split_and!; [..|split; [|intros []]]|].
  specialize (D true (j :: l')).
  destruct (build_conds true (j :: l')) as [[c a]|] eqn:B.
  - destruct (build_conds_count _ _ _ _ B) as [C A].
    split_and!; [exact C|done|done|]. split; [|done]. intros _. split; [done|].
    apply D. by eexists.
  - split_and!; [done|done|done|]. split; [done|]. intros [_ F]. apply D in F as []. done.
Qed.
