(* ===== verification/TaskManager.v ===== *)
(** * Execution and task managers, and the status hook

    [src/pkg/task]: the managers that create, stop and delete executions and
    tasks ([execution.go], [task.go]) on top of the tables of [TaskDao], with
    the job service behind its client, and the handler of the job service's
    status events ([hook.go]). *)

From S2P Require Import Prelude Errors JobStatus TaskDao.

(** ** The store *)

(** A job to submit: the parameters are opaque key-value data. *)
Record JobMetadata := mkJobMetadata {
  JobKind : string;
  ScheduleDelay : Z;
  Cron : string;
  IsUnique : bool;
}.

Record Job := mkJob {
  Name : string;
  Parameters : option (list (string * string));
  Metadata : option JobMetadata;
}.

(** What the client posts to the job service. *)
Record JobData := mkJobData {
  jd_Name : string;
  jd_Parameters : option (list (string * string));
  jd_Metadata : option JobMetadata;
  jd_StatusHook : string;
}.

(** The tables, and the requests sent to the job service so far. *)
Record mgr := mkMgr {
  mdb : db;
  submitted : list JobData;
  actions : list (string * string);
}.

Definition with_mdb (g : mgr) d := mkMgr d (submitted g) (actions g).

Lemma with_mdb_id g : with_mdb g (mdb g) = g.
Proof. by destruct g. Qed.

(** A database operation of a manager. *)
Definition lift {A} (m : M db A) : M mgr A := fun g =>
  match m (mdb g) with (r, d) => (r, with_mdb g d) end.

(** [taskDAO.List] with one keyword: the default sorts of a task are the
    start time and the identifier, both descending. *)
Definition task_before (a b : Task) : Prop :=
  t_StartTime b < t_StartTime a \/ (t_StartTime a = t_StartTime b /\ t_ID b <= t_ID a).

#[global] Instance task_before_dec : RelDecision task_before.
Proof. intros a b. unfold task_before. apply _. Defined.

Definition task_rows (p : Task -> bool) (d : db) : list Task :=
  merge_sort task_before (List.filter p (map_to_list (tasks d)).*2).

Definition task_List (p : Task -> bool) : M db (list Task) :=
  dbio (fun d => (Ok (task_rows p d), d)).

(** [executionDAO.List] by vendor, with the identifiers; the start time
    descending. *)
Definition exec_before (a b : Z * Execution) : Prop := e_StartTime b.2 <= e_StartTime a.2.

#[global] Instance exec_before_dec : RelDecision exec_before.
Proof. intros a b. unfold exec_before. apply _. Defined.

Definition exec_rows (p : Execution -> bool) (d : db) : list (Z * Execution) :=
  merge_sort exec_before (List.filter (fun r => p r.2) (map_to_list (execs d))).

Definition exec_List (p : Execution -> bool) : M db (list (Z * Execution)) :=
  dbio (fun d => (Ok (exec_rows p d), d)).

Definition ErrTimeOut : error := Sentinel "task.ErrTimeOut".
Definition ErrJobNotFound : error := Sentinel "job.ErrJobNotFound".

Section Managers.

(** The job service: the identifier it gives to a submitted job, and its
    answer to an action on a job. *)
Context (SubmitJob : JobData -> result string).
Context (PostAction : string -> string -> result unit).
(** [json.Marshal] of the extra attributes. *)
Context {Attrs : Type} (Marshal : Attrs -> result string) (no_attrs : Attrs).
Context (coreURL : string).

(** ** The task manager *)

(** [manager.Update]: of the fields it passes on only the status can be named
    by a caller to any effect. *)
Definition mgr_Update (id : Z) (status : string) : M mgr unit :=
  lift (task_Update id (fun t => mkTask (t_ID t) (t_VendorType t) (t_ExecutionID t) (t_JobID t)
    status (t_StatusCode t) (t_StatusRevision t) (t_StatusMessage t) (t_RunCount t)
    (t_ExtraAttrs t) (t_CreationTime t) (t_StartTime t) (t_UpdateTime t) (t_EndTime t))).

Definition extras (extraAttrs : option Attrs) : Attrs := default no_attrs extraAttrs.

Definition createTaskRecord (executionID : Z) (extraAttrs : option Attrs) (now : Z) : M db Z :=
  exec <- exec_Get executionID ;;
  data <- of_result (Marshal (extras extraAttrs)) ;;
  task_Create (mkTask 0 (e_VendorType exec) executionID "" Status.PendingStatus
    (Status.Code Status.PendingStatus) 0 "" 0 data now zero_time now zero_time).

Definition job_data (id : Z) (jb : Job) : JobData :=
  mkJobData (Name jb) (Parameters jb) (Metadata jb)
    (coreURL ++ "/service/notifications/tasks/" ++ Strconv.format_int id).

Definition submitJob (id : Z) (jb : Job) : M mgr string := fun g =>
  let jd := job_data id jb in
  (SubmitJob jd, mkMgr (mdb g) (submitted g ++ [jd]) (actions g)).

Definition set_job_id (jobID : string) (t : Task) : Task :=
  mkTask (t_ID t) (t_VendorType t) (t_ExecutionID t) jobID
    (t_Status t) (t_StatusCode t) (t_StatusRevision t) (t_StatusMessage t) (t_RunCount t)
    (t_ExtraAttrs t) (t_CreationTime t) (t_StartTime t) (t_UpdateTime t) (t_EndTime t).

(** [manager.Create]: when the submission fails the record is deleted, a
    failure of which is only logged, and so is a failure to store the job
    identifier. *)
Definition Create (executionID : Z) (jb : Job) (extraAttrs : option Attrs) (now : Z) : M mgr Z :=
  id <- lift (createTaskRecord executionID extraAttrs now) ;;
  r <- try (submitJob id jb) ;;
  match r with
  | Err e => try (lift (task_Delete id)) ;;; fail e
  | Ok jobID => try (lift (task_Update id (set_job_id jobID))) ;;; ret id
  end.

Definition stop_task (now : Z) (t : Task) : Task :=
  mkTask (t_ID t) (t_VendorType t) (t_ExecutionID t) (t_JobID t)
    Status.StoppedStatus (Status.Code Status.StoppedStatus) (t_StatusRevision t)
    (t_StatusMessage t) (t_RunCount t) (t_ExtraAttrs t) (t_CreationTime t) (t_StartTime t) now now.

Definition postAction (jobID action : string) : M mgr unit := fun g =>
  (PostAction jobID action, mkMgr (mdb g) (submitted g) (actions g ++ [(jobID, action)])).

Definition is_job_not_found (e : error) : bool :=
  match e with Sentinel n => n =s= "job.ErrJobNotFound" | _ => false end.

(** [manager.Stop]. *)
Definition StopTask (id now : Z) : M mgr unit :=
  task <- lift (task_Get id) ;;
  r <- try (postAction (t_JobID task) "stop") ;;
  match r with
  | Ok _ => ret tt
  | Err e =>
      if is_job_not_found e
      then lift (task_Update (t_ID task) (stop_task now)) ;;;
           lift (RefreshStatus (t_ExecutionID task) now) ;;; ret tt
      else fail e
  end.

(** ** The execution manager *)

Definition CreateExecution (vendorType : string) (vendorID : Z) (trigger : string)
    (extraAttrs : option Attrs) (now : Z) : M mgr Z :=
  data <- of_result (Marshal (extras extraAttrs)) ;;
  lift (exec_Create (mkExecution vendorType vendorID Status.RunningStatus "" trigger data
    now now (Some zero_time) 0)).

Definition UpdateExtraAttrs (id : Z) (extraAttrs : Attrs) (now : Z) : M mgr unit :=
  data <- of_result (Marshal extraAttrs) ;;
  lift (exec_Update id (fun x => mkExecution (e_VendorType x) (e_VendorID x) (e_Status x)
    (e_StatusMessage x) (e_Trigger x) data (e_StartTime x) now (e_EndTime x) (e_Revision x))).

Definition mark (status message : string) (now : Z) (x : Execution) : Execution :=
  mkExecution (e_VendorType x) (e_VendorID x) status message (e_Trigger x) (e_ExtraAttrs x)
    (e_StartTime x) now (Some now) (e_Revision x).

Definition MarkDone (id : Z) (message : string) (now : Z) : M mgr unit :=
  lift (exec_Update id (mark Status.SuccessStatus message now)).

Definition MarkError (id : Z) (message : string) (now : Z) : M mgr unit :=
  lift (exec_Update id (mark Status.ErrorStatus message now)).

(** The loop of [Stop]: [err] is the variable the loop assigns, the error of
    the task stopped last. *)
Fixpoint stop_tasks (ts : list Task) (now : Z) (err : result unit) : M mgr unit :=
  match ts with
  | [] => of_result err
  | t :: ts' =>
      r <- try (StopTask (t_ID t) now) ;;
      stop_tasks ts' now r
  end.

Definition stop_exec (revision now : Z) (x : Execution) : Execution :=
  mkExecution (e_VendorType x) (e_VendorID x) Status.StoppedStatus (e_StatusMessage x)
    (e_Trigger x) (e_ExtraAttrs x) (e_StartTime x) now (Some now) revision.

Definition Stop (id now : Z) : M mgr unit :=
  execution <- lift (exec_Get id) ;;
  ts <- lift (task_List (fun t => t_ExecutionID t =? id)) ;;
  match ts with
  | [] =>
      if Status.Final (e_Status execution) then ret tt
      else lift (exec_Update id (stop_exec (e_Revision execution + 1) now))
  | _ => stop_tasks ts now (Ok tt)
  end.

(** [StopAndWait]: the checks made before the time-out, each followed by what
    the rest of the system does until the next one. *)
Fixpoint wait_final (id : Z) (world : list (mgr -> mgr)) : M mgr unit :=
  match world with
  | [] => fail ErrTimeOut
  | w :: ws =>
      execution <- lift (exec_Get id) ;;
      if Status.Final (e_Status execution) then ret tt
      else modify w ;;; wait_final id ws
  end.

Definition StopAndWait (id now : Z) (world : list (mgr -> mgr)) : M mgr unit :=
  Stop id now ;;; wait_final id world.

Definition StopAndWaitWithError (id now : Z) (world : list (mgr -> mgr)) (origError : option error)
    : M mgr unit :=
  StopAndWait id now world ;;;
  match origError with
  | Some e => MarkError id (Error_string e) now
  | None => ret tt
  end.

(** [Delete]: the tasks first, one by one. *)
Fixpoint delete_tasks (id : Z) (ts : list Task) : M mgr unit :=
  match ts with
  | [] => ret tt
  | t :: ts' =>
      if negb (Status.Final (t_Status t))
      then fail (WithMessage (WithCode (New "") PreconditionCode)
             ("the execution " ++ Strconv.format_int id
              ++ " has tasks that aren't in final status, stop the tasks first"))
      else
        r <- try (lift (task_Delete (t_ID t))) ;;
        match r with
        | Err e => if IsNotFoundErr e then delete_tasks id ts' else fail e
        | Ok _ => delete_tasks id ts'
        end
  end.

Definition Delete (id : Z) : M mgr unit :=
  ts <- lift (task_List (fun t => t_ExecutionID t =? id)) ;;
  delete_tasks id ts ;;;
  lift (exec_Delete id).

Fixpoint delete_executions (ids : list Z) : M mgr unit :=
  match ids with
  | [] => ret tt
  | id :: ids' =>
      r <- try (Delete id) ;;
      match r with
      | Err e => if IsNotFoundErr e then delete_executions ids' else fail e
      | Ok _ => delete_executions ids'
      end
  end.

Definition DeleteByVendor (vendorType : string) (vendorID : Z) : M mgr unit :=
  executions <- lift (exec_List (fun x => (e_VendorType x =s= vendorType) && (e_VendorID x =? vendorID))) ;;
  if forallb (fun r => Status.Final (e_Status r.2)) executions
  then delete_executions (fst <$> executions)
  else fail (WithMessage (WithCode (New "") PreconditionCode)
    "contains executions that aren't in final status, stop the execution first").

(** ** The status hook *)

(** What a status event carries; of its metadata, a pointer, the handler uses
    the upstream job and the revision. *)
Record event := mkEvent {
  ev_JobID : string;
  ev_Status : string;
  ev_CheckIn : string;
  ev_Metadata : option (string * Z);
}.

Section Hook.
(** The registered functions, by vendor type, and the configured interval. *)
Context (checkInProcessor : string -> option (Task -> event -> M db unit)).
Context (statusChangePostFunc : string -> option (Z -> string -> M db unit)).
Context (executionStatusChangePostFunc : string -> option (Z -> string -> M db unit)).
Context (refreshInterval : Z).

(** A post function whose error is only logged. *)
Definition run_post (reg : string -> option (Z -> string -> M db unit))
    (vendor : string) (id : Z) (status : string) : M db unit :=
  match reg vendor with
  | Some fc => try (fc id status) ;;; ret tt
  | None => ret tt
  end.

Definition event_job (sc : event) (upstream : string) : string :=
  if negb (upstream =s= "") then upstream else ev_JobID sc.

Definition Handle (sc : event) (now : Z) : M db unit :=
  match ev_Metadata sc with
  | None => fail (Panic "nil pointer dereference")
  | Some (upstream, revision) =>
  ts <- task_List (fun t => t_JobID t =s= event_job sc upstream) ;;
  match ts with
  | [] => fail (WithMessage (WithCode (New "") NotFoundCode)
            ("task with job ID " ++ ev_JobID sc ++ " not found"))
  | task :: _ =>
      execution <- exec_Get (t_ExecutionID task) ;;
      if negb (ev_CheckIn sc =s= "") then
        match checkInProcessor (e_VendorType execution) with
        | None => fail (Plain ("the check in processor for task "
                    ++ Strconv.format_int (t_ID task) ++ " not found"))
        | Some processor => processor task sc
        end
      else
        UpdateStatus (t_ID task) (ev_Status sc) revision now ;;;
        run_post statusChangePostFunc (e_VendorType execution) (t_ID task) (ev_Status sc) ;;;
        if (refreshInterval <=? 0) || (ev_Status sc =s= Status.StoppedStatus)
        then
          r <- RefreshStatus (t_ExecutionID task) now ;;
          let '(statusChanged, currentStatus) := r in
          (if statusChanged : bool
           then run_post executionStatusChangePostFunc (e_VendorType execution)
                  (t_ExecutionID task) currentStatus
           else ret tt)
        else AsyncRefreshStatus (t_ExecutionID task) (t_VendorType task)
  end
  end.
End Hook.
End Managers.

(** ** Lists of rows *)

Lemma task_rows_elem p d t :
  t ∈ task_rows p d <-> (exists i, tasks d !! i = Some t) /\ p t = true.
Proof.
  unfold task_rows. rewrite merge_sort_Permutation, list_elem_of_In, filter_In, <- list_elem_of_In.
  rewrite list_elem_of_fmap. setoid_rewrite (elem_of_map_to_list' (tasks d)).
  split; intros [H1 H2]; (split; [|done]).
  - destruct H1 as [[i u] [-> H]]. by exists i.
  - destruct H1 as [i H]. by exists (i, t).
Qed.

(** Every row is stored under its own identifier. *)
Definition keyed (d : db) : Prop := forall i t, tasks d !! i = Some t -> t_ID t = i.

Lemma task_rows_NoDup p d : keyed d -> NoDup (t_ID <$> task_rows p d).
Proof.
  intros K. unfold task_rows. rewrite merge_sort_Permutation.
  eapply (sublist_NoDup _ (t_ID <$> (map_to_list (tasks d)).*2)).
  - assert (E : t_ID <$> (map_to_list (tasks d)).*2 = (map_to_list (tasks d)).*1).
    { rewrite <- list_fmap_compose. apply list_fmap_ext. intros n [i t] H. cbn.
      apply K. apply elem_of_map_to_list. by eapply list_elem_of_lookup_2. }
    rewrite E. apply NoDup_fst_map_to_list.
  - induction (map_to_list (tasks d)).*2 as [|t l IH]; [done|]. cbn.
    destruct (p t); cbn; by constructor.
Qed.

(** ** Deleting an execution *)

Definition final_task (t : Task) : bool := Status.Final (t_Status t).

(** The tasks the loop of [Delete] gets through. *)
Fixpoint final_prefix (ts : list Task) : list Task :=
  match ts with
  | [] => []
  | t :: ts' => if final_task t then t :: final_prefix ts' else []
  end.

Definition not_final_error (id : Z) : error :=
  WithMessage (WithCode (New "") PreconditionCode)
    ("the execution " ++ Strconv.format_int id
     ++ " has tasks that aren't in final status, stop the tasks first").

Definition remove_tasks (ts : list Task) (m : gmap Z Task) : gmap Z Task :=
  foldl (fun m t => delete (t_ID t) m) m ts.

Lemma lookup_remove_tasks ts m i :
  remove_tasks ts m !! i = if bool_decide (i ∈ t_ID <$> ts) then None else m !! i.
Proof.
  unfold remove_tasks. revert m. induction ts as [|t ts IH]; intros m; cbn; [done|]. rewrite IH.
  destruct (decide (i = t_ID t)) as [->|N];
    repeat case_bool_decide; try set_solver; rewrite ?lookup_delete_eq, ?lookup_delete_ne by done; done.
Qed.

Lemma delete_tasks_quiet id ts g :
  quiet (mdb g) ->
  delete_tasks id ts g
  = (if forallb final_task ts then Ok tt else Err (not_final_error id),
     with_mdb g (with_tasks (mdb g) (remove_tasks (final_prefix ts) (tasks (mdb g))))).
Proof.
  revert g. induction ts as [|t ts IH]; intros g Q.
  - cbn. by destruct g as [[]].
  - cbn [delete_tasks forallb final_prefix]. unfold final_task at 1 3.
    destruct (Status.Final (t_Status t)); cbn [negb andb]; [|by destruct g as [[]]].
    unfold bind, try, lift, task_Delete. rewrite quiet_dbio by done.
    destruct (tasks (mdb g) !! t_ID t) eqn:E.
    + rewrite IH by done. done.
    + rewrite IsNotFoundErr_WithMessage, IsNotFoundErr_NotFoundError.
      rewrite IH by done. cbn. rewrite delete_id by done. by destruct g as [[]].
Qed.

Lemma final_prefix_all ts : forallb final_task ts = true -> final_prefix ts = ts.
Proof.
  induction ts as [|t ts IH]; cbn; [done|]. destruct (final_task t); [|done].
  cbn. intros H. by rewrite IH.
Qed.

Lemma final_prefix_incl ts t : t ∈ final_prefix ts -> t ∈ ts.
Proof.
  induction ts as [|u ts IH]; cbn; [done|]. destruct (final_task u); [|set_solver]. set_solver.
Qed.

Lemma tasks_of_nil d id :
  (forall i t, tasks d !! i = Some t -> t_ExecutionID t <> id) -> tasks_of d id = [].
Proof.
  intros H. unfold tasks_of. destruct (List.filter _ _) as [|t l] eqn:E; [done|].
  assert (I : In t (List.filter (fun t => t_ExecutionID t =? id) (map_to_list (tasks d)).*2))
    by (rewrite E; by left).
  apply filter_In in I as [I T%Z.eqb_eq]. apply list_elem_of_In, list_elem_of_fmap in I.
  destruct I as [[i u] [-> I%elem_of_map_to_list]]. by apply H in I.
Qed.

(** The tasks left once those of a list of rows are gone. *)
Lemma remove_rows d p ts i t :
  keyed d -> (forall t, t ∈ ts -> t ∈ task_rows p d) ->
  remove_tasks ts (tasks d) !! i = Some t <-> tasks d !! i = Some t /\ t ∉ ts.
Proof.
  intros K I. rewrite lookup_remove_tasks. case_bool_decide as E.
  - split; [done|]. intros [L N]. apply list_elem_of_fmap in E as (u & -> & U).
    pose proof (I u U) as R. apply task_rows_elem in R as [[j Hj] _].
    rewrite (K _ _ Hj) in L. congruence.
  - split; [|tauto]. intros L. split; [done|]. intros U. apply E.
    apply list_elem_of_fmap. exists t. split; [by rewrite (K _ _ L)|done].
Qed.

(** Deleting an execution whose tasks are all final removes the execution
    and exactly its tasks.  With a task that is not final it fails with a
    precondition error and keeps the execution, but the tasks listed before
    that one are already deleted. *)
Theorem delete_execution_spec id x g :
  let d := mdb g in
  let ts := task_rows (fun t => t_ExecutionID t =? id) d in
  quiet d -> keyed d -> execs d !! id = Some x ->
  exists r d', Delete id g = (r, with_mdb g d')
  /\ if forallb final_task ts
     then r = Ok tt /\ execs d' = delete id (execs d)
          /\ forall i t, tasks d' !! i = Some t <-> tasks d !! i = Some t /\ t_ExecutionID t <> id
     else (exists e, r = Err e /\ IsErr e PreconditionCode = true) /\ execs d' = execs d
          /\ forall i t, tasks d' !! i = Some t <-> tasks d !! i = Some t /\ t ∉ final_prefix ts.
Proof.
  intros d ts Q K E. unfold Delete. unfold bind at 1, lift at 1, task_List.
  rewrite quiet_dbio by done. cbv beta iota. fold d ts.
  replace (with_mdb g d) with g by (unfold d; by rewrite with_mdb_id).
  unfold bind. rewrite delete_tasks_quiet by done. fold d.
  assert (R : forall i t, remove_tasks (final_prefix ts) (tasks d) !! i = Some t
                          <-> tasks d !! i = Some t /\ t ∉ final_prefix ts).
  { intros i t. apply (remove_rows d (fun t => t_ExecutionID t =? id)); [done|].
    intros u. apply final_prefix_incl. }
  destruct (forallb final_task ts) eqn:F.
  - rewrite final_prefix_all in R |- * by done.
    assert (R' : forall i t, remove_tasks ts (tasks d) !! i = Some t
                 <-> tasks d !! i = Some t /\ t_ExecutionID t <> id).
    { intros i t. rewrite R. split; intros [L N]; (split; [done|]); contradict N.
      - apply task_rows_elem. split; [by eexists|]. by apply Z.eqb_eq.
      - apply task_rows_elem in N as [_ N]. by apply Z.eqb_eq in N. }
    unfold lift, exec_Delete. rewrite quiet_dbio by done. cbn. fold d. rewrite E.
    rewrite tasks_of_nil by (intros i t L; by apply R' in L as [_ ?]).
    do 2 eexists. split; [done|]. split; [done|]. split; [done|]. exact R'.
  - do 2 eexists. split; [done|]. split; [by eexists|]. split; [done|]. exact R.
Qed.

Definition sample_mgr (l : list Task) : mgr := mkMgr (sample_db l) [] [].

Lemma keyed_sample l : keyed (sample_db l).
Proof.
  intros i t H. cbn in H. apply elem_of_list_to_map_2 in H.
  apply list_elem_of_fmap in H as (u & [= -> ->] & _). done.
Qed.

Lemma delete_execution_spec_witness :
  let ts := [sample_task 1 7 Status.SuccessStatus 50; sample_task 2 7 Status.ErrorStatus 60;
             sample_task 3 8 Status.RunningStatus 0] in
  exists d', Delete 7 (sample_mgr ts) = (Ok tt, with_mdb (sample_mgr ts) d') /\ execs d' = ∅.
Proof.
  intros ts.
  destruct (delete_execution_spec 7 (sample_exec Status.RunningStatus) (sample_mgr ts)
    (conj eq_refl eq_refl) (keyed_sample ts) eq_refl) as (r & d' & E & H).
  replace (forallb _ _) with true in H by (by vm_compute).
  destruct H as (-> & X & _). exists d'. split; [exact E|]. rewrite X. by vm_compute.
Defined.

(** ** Creating a task *)

(** The record of a task created now. *)
Definition new_task (id executionID : Z) (x : Execution) (jobID data : string) (now : Z) : Task :=
  mkTask id (e_VendorType x) executionID jobID Status.PendingStatus
    (Status.Code Status.PendingStatus) 0 "" 0 data now zero_time now zero_time.

(** The state after creating a task for an execution that exists. *)
Lemma create_quiet SubmitJob {Attrs} (Marshal : Attrs -> result string) no_attrs coreURL executionID jb attrs data now g x :
  let d := mdb g in
  let id := next_task d in
  let jd := job_data coreURL id jb in
  let created t := mkDb (execs d) t (next_exec d) (id + 1) (outdate d) (faults d) (db_down d) in
  quiet d -> tasks d !! id = None -> Marshal (default no_attrs attrs) = Ok data -> execs d !! executionID = Some x ->
  Create SubmitJob Marshal no_attrs coreURL executionID jb attrs now g
  = match SubmitJob jd with
    | Ok jobID => (Ok id, mkMgr (created (<[id := new_task id executionID x jobID data now]> (tasks d)))
                            (submitted g ++ [jd]) (actions g))
    | Err e => (Err e, mkMgr (created (tasks d)) (submitted g ++ [jd]) (actions g))
    end.
Proof.
  intros d id jd created Q F J E. unfold Create, createTaskRecord, exec_Get, bind, lift. rewrite quiet_dbio by done.
  fold d. rewrite E. unfold of_result, extras. rewrite J. unfold task_Create.
  rewrite quiet_dbio by done. cbn. rewrite E. unfold try, submitJob. fold d id jd.
  destruct (SubmitJob jd) as [jobID|e]; cbn.
  - unfold task_Update. rewrite quiet_dbio by done. cbn. rewrite lookup_insert_eq. cbn.
    unfold with_tasks; cbn. by rewrite insert_insert_eq.
  - unfold task_Delete. rewrite quiet_dbio by done. cbn. rewrite lookup_insert_eq. cbn.
    unfold with_tasks; cbn. by rewrite delete_insert_id.
Qed.

(** Creating a task stores a pending record and submits its job, whose
    status hook names the new record; when the job service accepts the job
    the record holds the job's identifier, and when it refuses, its error is
    returned and the task table is as before.  Without the execution nothing
    is stored and nothing is submitted. *)
Theorem create_task_spec SubmitJob {Attrs} (Marshal : Attrs -> result string) no_attrs coreURL
    executionID jb attrs data now g :
  let d := mdb g in
  let id := next_task d in
  let jd := job_data coreURL id jb in
  let create := Create SubmitJob Marshal no_attrs coreURL executionID jb attrs now g in
  quiet d -> tasks d !! id = None -> Marshal (default no_attrs attrs) = Ok data ->
  match execs d !! executionID with
  | None => exists e, create = (Err e, g) /\ IsNotFoundErr e = true
  | Some x =>
      tasks (mdb create.2) = match SubmitJob jd with
                             | Ok jobID => <[id := new_task id executionID x jobID data now]> (tasks d)
                             | Err _ => tasks d
                             end
      /\ create.1 = match SubmitJob jd with Ok _ => Ok id | Err e => Err e end
      /\ execs (mdb create.2) = execs d
      /\ submitted create.2 = submitted g ++ [jd]
  end.
Proof.
  intros d id jd create Q F J.
  destruct (execs d !! executionID) as [x|] eqn:E.
  - unfold create. rewrite (create_quiet SubmitJob Marshal no_attrs coreURL executionID jb attrs data now g x) by done.
    fold d id jd. by destruct (SubmitJob jd).
  - exists (WrapNotFoundError ErrNoRows (id_message "execution" executionID)). split; [|done].
    unfold create, Create, createTaskRecord, exec_Get, bind, lift. rewrite quiet_dbio by done.
    fold d. rewrite E. unfold d. by rewrite with_mdb_id.
Qed.

Lemma create_task_spec_witness :
  let jb := mkJob "GC" None None in
  let create := Create (fun _ => Err (Plain "refused")) (fun _ : unit => Ok "{}"%string) tt "http://core" 7 jb
                  None 99 (sample_mgr []) in
  create.1 = Err (Plain "refused") /\ tasks (mdb create.2) = ∅
  /\ jd_StatusHook <$> submitted create.2 = ["http://core/service/notifications/tasks/10"%string].
Proof.
  intros jb create.
  destruct (create_task_spec (fun _ => Err (Plain "refused")) (fun _ : unit => Ok "{}"%string) tt
    "http://core" 7 jb None "{}" 99 (sample_mgr []) (conj eq_refl eq_refl) eq_refl eq_refl)
    as (H1 & H2 & _ & H3).
  split; [exact H2|]. split; [exact H1|].
  change (submitted create.2 = [job_data "http://core" 10 jb]) in H3. rewrite H3. reflexivity.
Defined.

(** ** Stopping an execution *)

Lemma RefreshStatus_ok id now d x :
  quiet d -> execs d !! id = Some x ->
  exists r d', RefreshStatus id now d = (Ok r, d') /\ refines d d' /\ status_right d' id
               /\ is_Some (execs d' !! id).
Proof.
  intros Q E. destruct (RefreshStatus_refines id now d Q) as (r & d' & H & R & S & _).
  rewrite (RefreshStatus_quiet id now d x) in H by done. cbv zeta in H.
  rewrite (RefreshStatus_quiet id now d x) by done. cbv zeta.
  destruct (some_task is_known (tasks_of d id)); injection H as <- <-;
    do 2 eexists; (split; [done|]); (split; [done|]); (split; [done|]).
  - cbn. rewrite lookup_insert_eq. by eexists.
  - by eexists.
Qed.

Section StopProofs.
Context (PostAction : string -> string -> result unit).

(** The job service does not know the job of the task. *)
Definition job_gone (t : Task) : bool :=
  match PostAction (t_JobID t) "stop" with Err e => is_job_not_found e | Ok _ => false end.

(** What stopping the task reports. *)
Definition stop_outcome (t : Task) : result unit :=
  if job_gone t then Ok tt else PostAction (t_JobID t) "stop".

Definition stop_requests (ts : list Task) : list (string * string) :=
  (fun t => (t_JobID t, "stop"%string)) <$> ts.

Lemma StopTask_quiet id now g t :
  quiet (mdb g) -> keyed (mdb g) -> tasks (mdb g) !! t_ID t = Some t -> t_ExecutionID t = id ->
  is_Some (execs (mdb g) !! id) ->
  exists d', StopTask PostAction (t_ID t) now g
             = (stop_outcome t, mkMgr d' (submitted g) (actions g ++ [(t_JobID t, "stop"%string)]))
  /\ quiet d' /\ is_Some (execs d' !! id)
  /\ (if job_gone t
      then tasks d' = <[t_ID t := stop_task now t]> (tasks (mdb g)) /\ status_right d' id
      else d' = mdb g).
Proof.
  intros Q K E X [x Ex]. unfold StopTask. unfold bind at 1, lift at 1, task_Get.
  rewrite quiet_dbio, E by done. unfold bind at 1, try, postAction. rewrite with_mdb_id.
  unfold stop_outcome, job_gone.
  destruct (PostAction (t_JobID t) "stop") as [[]|e].
  { eexists. split; [done|]. split; [done|]. split; [by eexists|done]. }
  destruct (is_job_not_found e).
  2:{ eexists. split; [done|]. split; [done|]. split; [by eexists|done]. }
  unfold bind, lift, task_Update. cbn [mdb with_mdb]. rewrite quiet_dbio, E by done.
  cbn [mdb with_mdb]. rewrite X.
  set (d1 := with_tasks (mdb g) (<[t_ID t := stop_task now t]> (tasks (mdb g)))).
  assert (Q1 : quiet d1) by done.
  destruct (RefreshStatus_ok id now d1 x Q1 Ex) as (r & d' & H & R & S & I).
  rewrite H. exists d'. split; [done|]. split; [by apply R|]. split; [done|].
  split; [|done]. by rewrite (rf_tasks _ _ R).
Qed.

(** The task table after the stop of some tasks. *)
Definition stopped_rows (ts : list Task) (now : Z) (m : gmap Z Task) : gmap Z Task :=
  foldl (fun m t => if job_gone t then <[t_ID t := stop_task now t]> m else m) m ts.

Lemma lookup_stopped_rows ts now m i :
  i ∉ t_ID <$> ts -> stopped_rows ts now m !! i = m !! i.
Proof.
  unfold stopped_rows. revert m. induction ts as [|t ts IH]; intros m N; [done|].
  cbn in *. apply not_elem_of_cons in N as [N1 N2]. rewrite IH by done.
  destruct (job_gone t); [|done]. by rewrite lookup_insert_ne.
Qed.

Lemma stopped_rows_lookup ts now m t :
  NoDup (t_ID <$> ts) -> t ∈ ts -> m !! t_ID t = Some t ->
  stopped_rows ts now m !! t_ID t = Some (if job_gone t then stop_task now t else t).
Proof.
  revert m. induction ts as [|u ts IH]; intros m N I L; [set_solver|].
  cbn in N. apply NoDup_cons in N as [N1 N2].
  change (stopped_rows (u :: ts) now m)
    with (stopped_rows ts now (if job_gone u then <[t_ID u := stop_task now u]> m else m)).
  apply elem_of_cons in I as [->|I].
  - rewrite lookup_stopped_rows by done. destruct (job_gone u); [by rewrite lookup_insert_eq|done].
  - apply IH; [done|done|]. assert (t_ID u <> t_ID t).
    { intros E. apply N1. rewrite E. by apply list_elem_of_fmap_2. }
    destruct (job_gone u); [|done]. by rewrite lookup_insert_ne.
Qed.

Lemma keyed_stop d t now d' :
  keyed d -> tasks d' = <[t_ID t := stop_task now t]> (tasks d) -> keyed d'.
Proof.
  intros K E i u. rewrite E. intros [[<- <-]|[_ H]]%lookup_insert_Some; [done|by apply K].
Qed.

Lemma stop_tasks_quiet id ts now err g :
  quiet (mdb g) -> keyed (mdb g) -> NoDup (t_ID <$> ts) ->
  Forall (fun t => tasks (mdb g) !! t_ID t = Some t /\ t_ExecutionID t = id) ts ->
  is_Some (execs (mdb g) !! id) ->
  exists d', stop_tasks PostAction ts now err g
             = (match last ts with Some t => stop_outcome t | None => err end,
                mkMgr d' (submitted g) (actions g ++ stop_requests ts))
  /\ tasks d' = stopped_rows ts now (tasks (mdb g))
  /\ (existsb job_gone ts = true \/ status_right (mdb g) id -> status_right d' id).
Proof.
  revert err g. induction ts as [|t ts IH]; intros err g Q K N F X.
  - exists (mdb g). cbn. rewrite app_nil_r. destruct g as [dd sub act]; cbn in *.
    split; [done|]. split; [done|]. by intros [|].
  - apply Forall_cons in F as [[L E] F]. cbn in N. apply NoDup_cons in N as [N1 N2].
    destruct (StopTask_quiet id now g t Q K L E X) as (d1 & H1 & Q1 & X1 & C).
    cbn [stop_tasks]. unfold bind, try. rewrite H1.
    assert (T1 : tasks d1 = if job_gone t then <[t_ID t := stop_task now t]> (tasks (mdb g))
                            else tasks (mdb g)).
    { destruct (job_gone t); [by destruct C|by rewrite C]. }
    edestruct (IH (stop_outcome t) (mkMgr d1 (submitted g) (actions g ++ [(t_JobID t, "stop"%string)])))
      as (d' & H2 & T2 & R2); [done| |done| |done|].
    + destruct (job_gone t); [by eapply keyed_stop|by rewrite C].
    + cbn. rewrite T1. apply Forall_forall. intros u U. rewrite Forall_forall in F.
      destruct (F u U) as [Lu Eu]. split; [|done]. destruct (job_gone t); [|done].
      rewrite lookup_insert_ne; [done|]. intros Et. apply N1. rewrite Et.
      by apply list_elem_of_fmap_2.
    + exists d'. rewrite H2. cbn [submitted actions]. split; [|split].
      * rewrite <- app_assoc. destruct ts as [|u ts']; [done|].
        change (last (t :: u :: ts')) with (last (u :: ts')).
        destruct (last (u :: ts')) eqn:La; [done|]. by apply last_None in La.
      * rewrite T2. cbn [mdb]. rewrite T1. done.
      * cbn [existsb]. rewrite orb_true_iff. intros H. apply R2. cbn [mdb].
        destruct (job_gone t); [right; by destruct C|].
        destruct H as [[|]|]; [done|by left|right; by rewrite C].
Qed.
End StopProofs.

(** Stopping an execution that has tasks sends a stop request for every
    one of them, in list order and whatever the answers; the tasks whose job
    the job service does not know become stopped, no other task changes, and
    when there is such a task the execution's status is the derived one.
    What is reported is the outcome of the last task alone. *)
Theorem stop_execution_spec PostAction id now x g :
  let d := mdb g in
  let ts := task_rows (fun t => t_ExecutionID t =? id) d in
  quiet d -> keyed d -> execs d !! id = Some x -> ts <> [] ->
  exists d', Stop PostAction id now g
             = (match last ts with Some t => stop_outcome PostAction t | None => Ok tt end,
                mkMgr d' (submitted g) (actions g ++ stop_requests ts))
  /\ (forall i t, tasks d !! i = Some t ->
      tasks d' !! i = Some (if (t_ExecutionID t =? id) && job_gone PostAction t
                            then stop_task now t else t))
  /\ (existsb (job_gone PostAction) ts = true -> status_right d' id).
Proof.
  intros d ts Q K E N. unfold Stop, bind at 1, lift at 1, exec_Get.
  rewrite quiet_dbio by done. fold d. rewrite E.
  assert (G : with_mdb g d = g) by (unfold d; by rewrite with_mdb_id). rewrite G.
  unfold bind, lift, task_List. rewrite quiet_dbio by done. fold d ts. rewrite G.
  destruct ts as [|t0 ts'] eqn:T; [done|]. rewrite <- T in *.
  assert (U : NoDup (t_ID <$> ts)) by (by apply task_rows_NoDup).
  assert (F : Forall (fun t => tasks d !! t_ID t = Some t /\ t_ExecutionID t = id) ts).
  { apply Forall_forall. intros t I. apply task_rows_elem in I as [[i Hi] P%Z.eqb_eq].
    by rewrite (K _ _ Hi). }
  destruct (stop_tasks_quiet PostAction id ts now (Ok tt) g Q K U F) as (d' & H & T' & R);
    [by eexists|].
  rewrite T in H |- *. exists d'. split; [exact H|]. rewrite <- T. split; [|by intros; apply R; left].
  intros i t L. rewrite T'. pose proof (K _ _ L) as <-.
  destruct (Z.eqb_spec (t_ExecutionID t) id) as [X|X]; cbn.
  - apply stopped_rows_lookup; [done| |done]. apply task_rows_elem.
    split; [by eexists|]. by apply Z.eqb_eq.
  - rewrite lookup_stopped_rows; [done|]. intros I.
    apply list_elem_of_fmap in I as (u & Eu & I%task_rows_elem).
    destruct I as [[j Hj] P%Z.eqb_eq]. rewrite Eu, (K _ _ Hj) in L. congruence.
Qed.

(** The first task cannot be stopped and the second can: success. *)
Lemma stop_execution_spec_witness :
  let bad := mkTask 2 "GC" 7 "bad" Status.RunningStatus 2 1 "" 1 "" 0 5 0 0 in
  let good := mkTask 1 "GC" 7 "good" Status.RunningStatus 2 1 "" 1 "" 0 3 0 0 in
  let post j (_ : string) := if j =s= "bad" then Err (Plain "refused") else Ok tt in
  exists d', Stop post 7 99 (sample_mgr [good; bad])
             = (Ok tt, mkMgr d' [] [("bad", "stop"); ("good", "stop")]%string).
Proof.
  intros bad good post.
  destruct (stop_execution_spec post 7 99 (sample_exec Status.RunningStatus) (sample_mgr [good; bad]))
    as (d' & H & _ & _); [done|apply keyed_sample|done|by vm_compute|].
  exists d'. rewrite H. vm_compute. reflexivity.
Defined.

(** ** The status hook and the asynchronous refresh together *)

(** A function that does not touch executions, tasks or the outdated set. *)
Record elsewhere (d d' : db) : Prop := mkElsewhere {
  el_quiet : quiet d -> quiet d';
  el_execs : execs d' = execs d;
  el_tasks : tasks d' = tasks d;
  el_outdate : outdate d' = outdate d;
}.

Lemma elsewhere_refines d d' : elsewhere d d' -> refines d d'.
Proof.
  intros [Q E T O]. constructor; [done|done|done|].
  intros id H x. unfold tasks_of in *. rewrite E, T. apply H.
Qed.

Definition harmless (reg : string -> option (Z -> string -> M db unit)) : Prop :=
  forall v fc id st d, reg v = Some fc -> elsewhere d (fc id st d).2.

Lemma run_post_harmless reg v id st d :
  harmless reg -> exists d', run_post reg v id st d = (Ok tt, d') /\ elsewhere d d'.
Proof.
  intros H. unfold run_post. destruct (reg v) as [fc|] eqn:E; [|by exists d].
  unfold bind, try. specialize (H v fc id st d E). destruct (fc id st d) as [r d'].
  by exists d'.
Qed.

Lemma elem_of_sadd m set : m ∈ sadd [m] set.
Proof.
  cbn. destruct (existsb (String.eqb m) set) eqn:E; [|set_solver].
  apply existsb_exists in E as (k & K & ->%String.eqb_eq). by apply list_elem_of_In.
Qed.

Section HookProofs.
Context (checkIn : string -> option (Task -> event -> M db unit)).
Context (taskPost execPost : string -> option (Z -> string -> M db unit)).
Context (interval : Z).
Context (taskPost_ok : harmless taskPost) (execPost_ok : harmless execPost).

(** What a handled status event leaves: the task is updated, and the status
    of its execution is right or due to be refreshed. *)
Lemma Handle_status sc now upstream revision t rest x d :
  quiet d -> keyed d -> ev_Metadata sc = Some (upstream, revision) -> ev_CheckIn sc = ""%string ->
  task_rows (fun t => t_JobID t =s= event_job sc upstream) d = t :: rest ->
  execs d !! t_ExecutionID t = Some x ->
  exists d', Handle checkIn taskPost execPost interval sc now d = (Ok tt, d') /\ quiet d'
  /\ tasks d' = <[t_ID t := after_hook (ev_Status sc, revision, now) t]> (tasks d)
  /\ (status_right d' (t_ExecutionID t)
      \/ buildExecStatusOutdateMember (t_ExecutionID t) (t_VendorType t) ∈ outdate d').
Proof.
  intros Q K Em Ec Er Ex. unfold Handle. rewrite Em.
  unfold bind at 1, task_List. rewrite quiet_dbio, Er by done.
  unfold bind at 1, exec_Get. rewrite quiet_dbio, Ex, Ec by done. cbn [negb String.eqb].
  assert (L : tasks d !! t_ID t = Some t).
  { assert (I : t ∈ task_rows (fun t => t_JobID t =s= event_job sc upstream) d)
      by (rewrite Er; left).
    apply task_rows_elem in I as [[i Hi] _]. by rewrite (K _ _ Hi). }
  unfold bind at 1.
  change (UpdateStatus (t_ID t) (ev_Status sc) revision now d)
    with (deliver (t_ID t) (ev_Status sc, revision, now) d).
  rewrite (deliver_quiet _ _ _ t) by done.
  set (d1 := with_tasks d _). assert (Q1 : quiet d1) by done.
  destruct (run_post_harmless taskPost (e_VendorType x) (t_ID t) (ev_Status sc) d1 taskPost_ok)
    as (d2 & R2 & [S2 E2 T2 O2]).
  unfold bind at 1. rewrite R2.
  destruct ((interval <=? 0) || (ev_Status sc =s= Status.StoppedStatus)).
  - assert (Ex2 : execs d2 !! t_ExecutionID t = Some x) by (by rewrite E2).
    destruct (RefreshStatus_ok (t_ExecutionID t) now d2 x (S2 Q1) Ex2) as ([ch cur] & d3 & H & R & S & _).
    unfold bind. rewrite H.
    assert (exists d4, (if ch then run_post execPost (e_VendorType x) (t_ExecutionID t) cur else ret tt) d3
                       = (Ok tt, d4) /\ elsewhere d3 d4) as (d4 & H4 & X4).
    { destruct ch; [by apply run_post_harmless|by exists d3]. }
    exists d4. split; [exact H4|]. pose proof (elsewhere_refines _ _ X4) as R4.
    split; [by apply R4, R, S2|]. split.
    + by rewrite (rf_tasks _ _ R4), (rf_tasks _ _ R), T2.
    + left. by apply R4.
  - unfold AsyncRefreshStatus, wrap_err. rewrite quiet_io by auto.
    unfold modify. eexists. split; [reflexivity|]. split; [by apply S2|]. split; [exact T2|].
    right. cbn [outdate with_outdate]. apply elem_of_sadd.
Qed.
End HookProofs.

(** C15: a status event and the asynchronous refresh end to end.  When the job
    of a task reports a status, the hook handler succeeds, and after the next
    run of the periodic scan the task is at the newer of its state and the
    event, and its execution has the status derived from its tasks, both with
    immediate and with asynchronous refresh. *)
Theorem event_reaches_execution checkIn taskPost execPost interval sc now upstream revision t rest x d :
  harmless taskPost -> harmless execPost ->
  quiet d -> keyed d -> ev_Metadata sc = Some (upstream, revision) -> ev_CheckIn sc = ""%string ->
  task_rows (fun t => t_JobID t =s= event_job sc upstream) d = t :: rest ->
  execs d !! t_ExecutionID t = Some x ->
  Int64.in_range (t_ExecutionID t) -> t_VendorType t <> "" ->
  exists d1 d2, Handle checkIn taskPost execPost interval sc now d = (Ok tt, d1)
  /\ scan execPost (S (length (outdate d1) / execStatusOutdateBatchSize)) now d1 = (Ok true, d2)
  /\ (exists t', tasks d2 !! t_ID t = Some t'
      /\ task_rank t' = rank_max (task_rank t) (revision, Status.Code (ev_Status sc)))
  /\ status_right d2 (t_ExecutionID t).
Proof.
  intros P1 P2 Q K Em Ec Er Ex I V.
  destruct (Handle_status checkIn taskPost execPost interval P1 P2 sc now upstream revision t rest x d)
    as (d1 & H1 & Q1 & T1 & S1); [done..|].
  destruct (scan_refines execPost) with (fuel := S (length (outdate d1) / execStatusOutdateBatchSize))
    (now := now) (d := d1) as (d2 & H2 & _ & _ & T2 & R2 & M2).
  - intros v fc id st d0 F. by eapply elsewhere_refines, P2.
  - done.
  - rewrite Nat.mul_comm. apply Nat.mul_succ_div_gt. by unfold execStatusOutdateBatchSize.
  - exists d1, d2. split; [done|]. split; [done|]. split.
    + eexists. rewrite T2, T1, lookup_insert_eq. split; [done|]. apply after_hook_rank.
    + destruct S1 as [S1|S1]; [by apply R2|]. eapply M2; [exact S1|]. by apply parse_build_member.
Qed.

Lemma event_reaches_execution_witness :
  let t := sample_task 1 7 Status.RunningStatus 0 in
  let sc := mkEvent "job" Status.SuccessStatus "" (Some (""%string, 1)) in
  exists d1 d2, Handle (fun _ => None) (fun _ => None) (fun _ => None) 10 sc 99 (sample_db [t]) = (Ok tt, d1)
  /\ scan (fun _ => None) (S (length (outdate d1) / execStatusOutdateBatchSize)) 99 d1 = (Ok true, d2)
  /\ (exists t', tasks d2 !! 1 = Some t' /\ task_rank t' = (1, 3))
  /\ status_right d2 7.
Proof.
  intros t sc.
  apply (event_reaches_execution (fun _ => None) (fun _ => None) (fun _ => None) 10 sc 99 "" 1 t []
    (sample_exec Status.RunningStatus) (sample_db [t])); try done.
  apply keyed_sample.
Defined.
