(* ===== verification/Period.v ===== *)
(** * Periodic jobs of the job service

    [src/jobservice/period]: the policies of periodic jobs in redis
    ([policy_store.go]), the enqueuer that puts their executions of the next
    minutes into the scheduled queue ([enqueuer.go]), the scheduler that adds
    and removes policies ([basic_scheduler.go]); and the worker's entry points
    that use it ([PeriodicallyEnqueue] and [StopJob] of
    [src/jobservice/worker/cworker/c_worker.go]).

    On top of [Tracker].  Times are seconds; the clock is read once per
    operation.  The cron parser, the JSON codecs, the check of URLs and the
    client of the queue library are parameters. *)

From S2P Require Import Prelude Errors JobStatus Tracker.
From S2P Require TaskDao.

(** ** Data *)

Record Policy {P : Type} := mkPolicy {
  p_ID : string;
  p_JobName : string;
  p_CronSpec : string;
  p_JobParameters : option P;
  p_WebHookURL : string;
  p_NumericID : Z;
}.
Arguments Policy : clear implicits.
Arguments mkPolicy {P}.

(** The job of the queue library; its arguments are those of the policy with
    the time of the execution. *)
Record WorkJob {P : Type} := mkWorkJob {
  w_Name : string;
  w_ID : string;
  w_EnqueuedAt : Z;
  w_Args : option P * string;
}.
Arguments WorkJob : clear implicits.
Arguments mkWorkJob {P}.

(** A schedule gives the next time after a time ([cron.Schedule.Next]). *)
Definition Schedule_ : Type := Z -> Z.

(** The members of a sorted set in the order of ZRANGE. *)
Definition zle (a b : string * Z) : Prop :=
  a.2 < b.2 \/ (a.2 = b.2 /\ String.leb a.1 b.1 = true).

#[global] Instance zle_dec : RelDecision zle.
Proof. intros a b. unfold zle. apply _. Defined.

Definition zrange (z : gmap string Z) : list (string * Z) := merge_sort zle (map_to_list z).

Definition enqueuerSleep : Z := 120.
Definition enqueuerHorizon : Z := 240.

Section Period.
Context {P : Type} (marshal : P -> option string) (unmarshal : string -> option P).
Context (callback : option (string -> StatusChange P -> option error)).
Context (Parse : string -> result Schedule_).
Context (SerializeJob : WorkJob P -> result string) (DeSerializeJob : string -> result (WorkJob P)).
Context (Serialize : Policy P -> result string) (DeSerialize : string -> result (Policy P)).
Context (IsValidURL : string -> bool).
(** The client of the queue library: deletes the job with this score and
    identifier from the scheduled queue. *)
Context (client_DeleteScheduledJob : Z -> string -> gmap string Z -> result (gmap string Z)).

(** The redis data: that of the trackers, whose faults are those of all calls;
    the policies and the scheduled queue, sorted sets; the time of the last
    enqueuing; the lock with its owner and expiration.  And the error of the
    last enqueuing of this node. *)
Record world := mkWorld {
  tr : env P;
  policies : gmap string Z;
  scheduled : gmap string Z;
  last_enqueue : option Z;
  lock : option (string * Z);
  lastEnqueueErr : option error;
}.

Definition with_tr (s : world) x := mkWorld x (policies s) (scheduled s) (last_enqueue s) (lock s) (lastEnqueueErr s).
Definition with_policies (s : world) x := mkWorld (tr s) x (scheduled s) (last_enqueue s) (lock s) (lastEnqueueErr s).
Definition with_scheduled (s : world) x := mkWorld (tr s) (policies s) x (last_enqueue s) (lock s) (lastEnqueueErr s).
Definition with_last (s : world) x := mkWorld (tr s) (policies s) (scheduled s) x (lock s) (lastEnqueueErr s).
Definition with_lock (s : world) x := mkWorld (tr s) (policies s) (scheduled s) (last_enqueue s) x (lastEnqueueErr s).
Definition with_err (s : world) x := mkWorld (tr s) (policies s) (scheduled s) (last_enqueue s) (lock s) x.

#[global] Instance world_faulty : Faulty world := fun s =>
  let p := next_fault (tr s) in (p.1, with_tr s p.2).

(** An operation of a tracker. *)
Definition on_tracker {A} (m : M (env P) A) : M world A := fun s =>
  let p := m (tr s) in (p.1, with_tr s p.2).

(** ** The policy store *)

Definition pol_Validate (p : Policy P) : result unit :=
  if GoStrings.is_blank (p_ID p) then Err (New "missing ID in the periodic job policy object")
  else if GoStrings.is_blank (p_JobName p) then Err (New "missing job name in the periodic job policy object")
  else if negb (GoStrings.is_blank (p_WebHookURL p)) && negb (IsValidURL (p_WebHookURL p))
  then Err (New ("bad web hook URL: " ++ p_WebHookURL p)%string)
  else match Parse (p_CronSpec p) with Ok _ => Ok tt | Err e => Err e end.

Definition with_numeric (p : Policy P) (n : Z) : Policy P :=
  mkPolicy (p_ID p) (p_JobName p) (p_CronSpec p) (p_JobParameters p) (p_WebHookURL p) n.

(** A policy that cannot be decoded or is not valid is left out. *)
Definition load_one (m : string * Z) : option (Policy P) :=
  match DeSerialize m.1 with
  | Err _ => None
  | Ok p => match pol_Validate p with Ok _ => Some (with_numeric p m.2) | Err _ => None end
  end.

Definition Load : M world (list (Policy P)) :=
  io (s <- get ;; ret (omap load_one (zrange (policies s)))).

(** ** The enqueuer *)

Definition createExecution (p : Policy P) (runAt now : Z) : StatsInfo P :=
  let eID := (p_ID p ++ "@" ++ Strconv.format_int runAt)%string in
  {| JobID := eID; Status_ := Status.ScheduledStatus; JobName := p_JobName p; JobKind := "Scheduled";
     IsUnique := false; RefLink := ("/api/v1/jobs/" ++ eID)%string; CronSpec := p_CronSpec p;
     EnqueueTime := now; UpdateTime := 0; RunAt := runAt; CheckIn_ := ""; CheckInAt := 0; DieAt := 0;
     WebHookURL := p_WebHookURL p; UpstreamJobID := p_ID p; NumericPID := 0;
     Parameters := p_JobParameters p; Revision := 0; HookAck := None |}.

Definition periodic_job (p : Policy P) (epoch : Z) : WorkJob P :=
  mkWorkJob (p_JobName p) (p_ID p) epoch (p_JobParameters p, Strconv.format_int epoch).

Definition set_err (e : error) : M world unit := modify (fun s => with_err s (Some e)).

(** The loop over the times before the horizon has no end of its own: with its
    fuel used up it is still running. *)
Definition Running : error := Panic "still running".

Fixpoint schedule_loop (fuel : nat) (p : Policy P) (next : Schedule_) (t horizon now : Z) : M world unit :=
  if t <? horizon then
    match fuel with
    | O => fail Running
    | S fuel =>
        match SerializeJob (periodic_job p t) with
        | Err e => set_err e
        | Ok raw =>
            r <- try (on_tracker (NewTracker marshal (Some (createExecution p t now)) now now)) ;;
            match r with
            | Err e => set_err e
            | Ok _ =>
                r <- try (io (modify (fun s => with_scheduled s (<[raw := t]> (scheduled s))))) ;;
                match r with
                | Err e =>
                    set_err e ;;;
                    r <- try (on_tracker (Fail callback now now)) ;;
                    match r with Err e => set_err e | Ok _ => ret tt end
                | Ok _ => schedule_loop fuel p next (next t) horizon now
                end
            end
        end
    end
  else ret tt.

Definition scheduleNextJobs (fuel : nat) (p : Policy P) (now : Z) : M world unit :=
  match Parse (p_CronSpec p) with
  | Err e => set_err e
  | Ok next => schedule_loop fuel p next (next now) (now + enqueuerHorizon) now
  end.

Definition enqueue (fuel : nat) (now : Z) : M world unit :=
  modify (fun s => with_err s None) ;;;
  r <- try Load ;;
  match r with
  | Err _ => ret tt
  | Ok pls => iterM (fun p => scheduleNextJobs fuel p now) pls
  end.

(** SET with NX and EX, and the release by the owner. *)
Definition AcquireLock (nodeID : string) (now : Z) : M world unit :=
  io (s <- get ;;
      match lock s with
      | Some (_, expires) => if now <? expires then fail (New "key is already set")
                             else modify (fun s => with_lock s (Some (nodeID, now + 30)))
      | None => modify (fun s => with_lock s (Some (nodeID, now + 30)))
      end).

Definition ReleaseLock (nodeID : string) (now : Z) : M world unit :=
  owner <- io (s <- get ;; ret (lock s)) ;;
  match owner with
  | Some (id, expires) =>
      if negb (now <? expires) then fail (Sentinel "redis.ErrNil")
      else if id =s= nodeID then io (modify (fun s => with_lock s None)) else fail (New "locker ID mismatch")
  | None => fail (Sentinel "redis.ErrNil")
  end.

Definition shouldEnqueue (nodeID : string) (now : Z) : M world bool :=
  r <- try (AcquireLock nodeID now) ;;
  match r with
  | Err _ => ret false
  | Ok _ =>
      lastEnqueue <- try (io (s <- get ;; ret (last_enqueue s))) ;;
      let shouldEnq := match lastEnqueue with
                       | Ok (Some l) => l <? now - enqueuerSleep
                       | _ => true
                       end in
      (if shouldEnq then try (io (modify (fun s => with_last s (Some now)))) ;;; ret tt else ret tt) ;;;
      try (ReleaseLock nodeID now) ;;;
      ret shouldEnq
  end.

Definition checkAndEnqueue (fuel : nat) (nodeID : string) (now : Z) : M world bool :=
  isHit <- shouldEnqueue nodeID now ;;
  (if isHit : bool then enqueue fuel now else ret tt) ;;;
  ret isHit.

(** The wait before the next turn; [rand] is the random number. *)
Definition nextTurn (isHit enqErr : bool) (rand : Z) : Z :=
  let base := enqueuerSleep in
  let base := if isHit then let base := base + 3 in if enqErr then base + 5 else base else base - 3 in
  base + rand.

(** ** The scheduler *)

(** [pid] is the time and a random number below ten. *)
Definition Schedule (fuel : nat) (p : Policy P) (now rand : Z) : M world Z :=
  match pol_Validate p with
  | Err e => fail e
  | Ok _ =>
      scheduleNextJobs fuel p now ;;;
      match Serialize p with
      | Err e => fail e
      | Ok raw =>
          let pid := now + rand in
          io (modify (fun s => with_policies s (<[raw := pid]> (policies s)))) ;;;
          ret pid
      end
  end.

Definition job_info : M world (StatsInfo P) := on_tracker (Tracker.info).

Definition is_object_not_found (e : error) : bool := match e with ObjectNotFound _ => true | _ => false end.

Definition locatePolicy (policyID : string) (now : Z) : M world Z :=
  r <- try (on_tracker (Track unmarshal policyID)) ;;
  match r with
  | Err e =>
      if is_object_not_found e then
        pl <- Load ;;
        match List.find (fun p => (p_ID p =s= policyID) && (p_NumericID p >? 0)) pl with
        | Some p => ret (p_NumericID p)
        | None => fail e
        end
      else fail e
  | Ok _ =>
      try (on_tracker (Stop callback now now)) ;;;
      on_tracker NumericID
  end.

(** The executions of a periodic job that are not done: those with a score of
    at least zero. *)
Definition getPeriodicExecutions (policyID : string) : M world (list string) :=
  io (s <- get ;;
      ret (List.filter (fun m => 0 <=? m.2) (zrange (default ∅ (execs (rd (tr s)) !! policyID)))).*1).

Definition DeleteScheduledJob (runAt : Z) (id : string) : M world unit :=
  io (s <- get ;;
      match client_DeleteScheduledJob runAt id (scheduled s) with
      | Ok z => modify (fun s => with_scheduled s z)
      | Err e => fail e
      end).

(** One execution: it is taken off the queue while it is scheduled, and stopped
    unless it is in a final state. *)
Definition clear_execution (policyID : string) (now : Z) (eID : string) : M world unit :=
  r <- try (on_tracker (Track unmarshal eID)) ;;
  match r with
  | Err _ => ret tt
  | Ok _ =>
      e <- job_info ;;
      (if Status_ e =s= Status.ScheduledStatus
       then try (DeleteScheduledJob (RunAt e) policyID) ;;; ret tt else ret tt) ;;;
      if Status.After Status.RunningStatus (Status_ e) || Status.Equal Status.RunningStatus (Status_ e)
      then try (on_tracker (Stop callback now now)) ;;; ret tt else ret tt
  end.

(** ZREMRANGEBYSCORE of one score. *)
Definition remove_score (n : Z) (z : gmap string Z) : gmap string Z := filter (fun m => m.2 <> n) z.

Definition UnSchedule (policyID : string) (now : Z) : M world unit :=
  if GoStrings.is_blank policyID then fail (New "bad periodic job ID: nil")
  else
    numericID <- locatePolicy policyID now ;;
    r <- try (getPeriodicExecutions policyID) ;;
    (match r with
     | Err _ => ret tt
     | Ok eIDs => iterM (clear_execution policyID now) eIDs
     end) ;;;
    wrapM "unschedule periodic job error"
      (io (modify (fun s => with_policies s (remove_score numericID (policies s))))).

(** Jobs of the scheduled queue that are overdue by more than the horizon. *)
Definition clearDirtyJobs (now : Z) : M world unit :=
  r <- try (io (s <- get ;; ret (List.filter (fun m => (0 <=? m.2) && (m.2 <=? now - enqueuerHorizon)) (zrange (scheduled s))))) ;;
  match r with
  | Err _ => ret tt
  | Ok l => iterM (fun m => match DeSerializeJob m.1 with
                            | Err _ => ret tt
                            | Ok j => try (DeleteScheduledJob m.2 (w_ID j)) ;;; ret tt
                            end) l
  end.

(** ** The worker *)

(** [id] is the identifier made for the policy. *)
Definition PeriodicallyEnqueue (fuel : nat) (id jobName : string) (params : option P) (cronSetting webHook : string) (now rand : Z)
    : M world (StatsInfo P) :=
  pid <- Schedule fuel (mkPolicy id jobName cronSetting params webHook 0) now rand ;;
  ret {| JobID := id; Status_ := Status.ScheduledStatus; JobName := jobName; JobKind := "Periodic";
         IsUnique := false; RefLink := ("/api/v1/jobs/" ++ id)%string; CronSpec := cronSetting;
         EnqueueTime := now; UpdateTime := now; RunAt := 0; CheckIn_ := ""; CheckInAt := 0; DieAt := 0;
         WebHookURL := webHook; UpstreamJobID := ""; NumericPID := pid;
         Parameters := params; Revision := 0; HookAck := None |}.

Definition StopJob (jobID : string) (now : Z) : M world unit :=
  if GoStrings.is_blank jobID then fail (New "empty job ID to stop")
  else
    r <- try (on_tracker (Track unmarshal jobID)) ;;
    match r with
    | Err e => if is_object_not_found e then UnSchedule jobID now else fail e
    | Ok _ =>
        i <- job_info ;;
        if JobKind i =s= "Periodic" then UnSchedule jobID now
        else if Status.Before Status.RunningStatus (Status_ i) then ret tt
        else
          on_tracker (Stop callback now now) ;;;
          i <- job_info ;;
          if JobKind i =s= "Scheduled" then try (DeleteScheduledJob (RunAt i) jobID) ;;; ret tt else ret tt
    end.
End Period.
Arguments world : clear implicits.

(** ** What the parameters promise *)

(** A schedule whose times are [fires]: it gives the first one after a time. *)
Class Cron (next : Schedule_) (fires : Z -> Prop) : Prop := {
  next_after : forall t, t < next t;
  next_fires : forall t, fires (next t);
  next_least : forall t u, fires u -> t < u -> next t <= u;
}.

(** Jobs are written to the queue without loss. *)
Class QueueCodec {P} (SerializeJob : WorkJob P -> result string) : Prop := {
  serialize_total : forall j, exists raw, SerializeJob j = Ok raw;
  serialize_injective : forall j k raw, SerializeJob j = Ok raw -> SerializeJob k = Ok raw -> j = k;
}.

(** ** Trackers of executions *)

Lemma is_blank_app s t : GoStrings.is_blank (s ++ t)%string = true -> GoStrings.is_blank s = true.
Proof.
  unfold GoStrings.is_blank. induction s as [|c s IH]; simpl; [done|].
  destruct (GoStrings.is_space c); [done|]. done.
Qed.

Section Executions.
Context {P : Type} (marshal : P -> option string).

Definition exec_id (p : Policy P) (t : Z) : string := (p_ID p ++ "@" ++ Strconv.format_int t)%string.

(** A job whose stats say that it waits in the scheduled queue. *)
Definition waits (e : env P) (id : string) : Prop := hget (rd e) id "status" = Some Status.ScheduledStatus.

Definition named (p : Policy P) : Prop :=
  GoStrings.is_blank (p_ID p) = false /\ GoStrings.is_blank (p_JobName p) = false.

Lemma new_execution p t now e :
  faults e = [] -> named p -> t <> 0 ->
  exists e', NewTracker marshal (Some (createExecution p t now)) now now e = (Ok tt, e')
    /\ faults e' = [] /\ waits e' (exec_id p t) /\ (forall id, waits e id -> waits e' id).
Proof.
  intros Hf [Hid Hname] Ht. unfold NewTracker.
  assert (Hv : Validate (createExecution p t now) = Ok tt).
  { unfold Validate. cbn [JobID JobName JobKind Status_ RunAt createExecution].
    destruct (GoStrings.is_blank (exec_id p t)) eqn:Eb; [apply is_blank_app in Eb; congruence|].
    unfold exec_id in Eb. rewrite Eb, Hname. simpl. by apply Z.eqb_neq in Ht as ->. }
  rewrite Hv. unfold bind, modify, Save, get, bind. simpl. rewrite io_nofault by done. unfold HMSET.
  destruct (pairs (save_args marshal (createExecution p t now) now now)) as [kvs|] eqn:Ep.
  2:{ exfalso. revert Ep. unfold save_args. simpl. rewrite Hid.
      destruct (p_JobParameters p) as [q|]; [destruct (marshal q)|]; discriminate. }
  assert (Hst : assoc_last "status" kvs = Some Status.ScheduledStatus).
  { revert Ep. unfold save_args. simpl. rewrite Hid.
    destruct (p_JobParameters p) as [q|]; [destruct (marshal q)|]; simpl; intros [= <-]; reflexivity. }
  eexists. split; [reflexivity|].
  assert (Hw : forall r id, hget (with_track (hmset r (exec_id p t) kvs) (<[exec_id p t := 2]> (track (hmset r (exec_id p t) kvs)))) id "status"
               = if decide (exec_id p t = id) then Some Status.ScheduledStatus else hget r id "status").
  { intros r id. change (hget (hmset r (exec_id p t) kvs) id "status" =
      if decide (exec_id p t = id) then Some Status.ScheduledStatus else hget r id "status").
    unfold hget, hmset. rewrite hash_of_insert. case_decide as E; [|done]. simpl. by rewrite foldl_insert_lookup, Hst. }
  assert (Hz : forall r k m x id, hget (zadd_nx r k m x) id "status" = hget r id "status").
  { intros. unfold zadd_nx. by case_match. }
  split; [done|]. split.
  - unfold waits. simpl. rewrite Hid. simpl. rewrite Hz. fold (exec_id p t). rewrite Hw. by rewrite decide_True.
  - intros id Hw'. unfold waits. simpl. rewrite Hid. simpl. rewrite Hz. fold (exec_id p t). rewrite Hw. by case_decide.
Qed.
End Executions.

(** ** The enqueuer covers its horizon *)

Section Enqueuer.
Context {P : Type} (marshal : P -> option string).
Context (callback : option (string -> StatusChange P -> option error)).
Context (Parse : string -> result Schedule_).
Context (SerializeJob : WorkJob P -> result string).
Context (DeSerialize : string -> result (Policy P)).
Context (IsValidURL : string -> bool).
Context `{!QueueCodec SerializeJob}.
Context (fires : string -> Z -> Prop).

Abbreviation schedule_loop := (schedule_loop marshal callback SerializeJob).
Abbreviation scheduleNextJobs := (scheduleNextJobs marshal callback Parse SerializeJob).
Abbreviation enqueue := (enqueue marshal callback Parse SerializeJob DeSerialize IsValidURL).
Abbreviation checkAndEnqueue := (checkAndEnqueue marshal callback Parse SerializeJob DeSerialize IsValidURL).
Abbreviation load_one := (load_one Parse DeSerialize IsValidURL).

Definition calm (s : world P) : Prop := faults (tr s) = [].

(** The execution of a policy at a time is in the queue, and its stats say so. *)
Definition queued (p : Policy P) (t : Z) (s : world P) : Prop :=
  (exists raw, SerializeJob (periodic_job p t) = Ok raw /\ scheduled s !! raw = Some t)
  /\ waits (tr s) (exec_id p t).

(** What enqueuing does not change, and that it loses nothing. *)
Record grows (s s' : world P) : Prop := mkGrows {
  g_policies : policies s' = policies s;
  g_last : last_enqueue s' = last_enqueue s;
  g_lock : lock s' = lock s;
  g_err : lastEnqueueErr s' = lastEnqueueErr s;
  g_queued : forall p t, queued p t s -> queued p t s';
}.

#[local] Instance grows_preorder : PreOrder grows.
Proof.
  split; [by constructor|]. intros s1 s2 s3 [A1 A2 A3 A4 A5] [B1 B2 B3 B4 B5].
  constructor; [by rewrite B1|by rewrite B2|by rewrite B3|by rewrite B4|]. intros p t H. by apply B5, A5.
Qed.

Lemma world_io {A} (f : M (world P) A) s : calm s -> io f s = f s.
Proof.
  intros H. unfold io, next_fault, world_faulty, next_fault, env_faulty. rewrite H. by destruct s.
Qed.

Lemma job_injective p t q u raw :
  SerializeJob (periodic_job p t) = Ok raw -> SerializeJob (periodic_job q u) = Ok raw -> t = u.
Proof.
  intros H1 H2. pose proof (serialize_injective _ _ _ H1 H2) as E. by injection E.
Qed.

(** One turn of the loop. *)
Lemma loop_step fuel p next t horizon now s :
  calm s -> named p -> t <> 0 -> t < horizon ->
  exists s', schedule_loop (S fuel) p next t horizon now s = schedule_loop fuel p next (next t) horizon now s'
    /\ calm s' /\ grows s s' /\ queued p t s'.
Proof.
  intros Hc Hp Ht Hlt. cbn [Period.schedule_loop]. rewrite (proj2 (Z.ltb_lt _ _) Hlt).
  destruct (serialize_total (periodic_job p t)) as [raw Hraw]. rewrite Hraw.
  destruct (new_execution marshal p t now (tr s) Hc Hp Ht) as (e' & He & Hf & Hw & Hmono).
  unfold bind, try, on_tracker. rewrite He. cbn [fst snd]. rewrite world_io by done. unfold modify.
  eexists. split; [reflexivity|]. split; [done|]. split.
  - constructor; [done..|]. intros q u [(raw' & Hr & Hl) Hwu]. split; [|by apply Hmono].
    exists raw'. split; [done|]. simpl. destruct (decide (raw = raw')) as [->|Hne].
    + rewrite lookup_insert_eq. f_equal. by eapply job_injective.
    + by rewrite lookup_insert_ne.
  - split; [|done]. exists raw. split; [done|]. simpl. by rewrite lookup_insert_eq.
Qed.

Lemma loop_covers p next horizon now `{!Cron next (fires (p_CronSpec p))} fuel t s :
  calm s -> named p -> 0 < t -> horizon - t <= Z.of_nat fuel -> fires (p_CronSpec p) t ->
  exists s', schedule_loop fuel p next t horizon now s = (Ok tt, s')
    /\ calm s' /\ grows s s' /\ forall u, fires (p_CronSpec p) u -> t <= u < horizon -> queued p u s'.
Proof.
  intros Hc Hp. revert t s Hc. induction fuel as [|fuel IH]; intros t s Hc Ht Hfuel Hfires.
  - exists s. simpl. destruct (Z.ltb_spec t horizon); [lia|]. do 2 (split; [done|]). split; [reflexivity|]. intros u _ Hu. lia.
  - destruct (Z.ltb_spec t horizon) as [Hlt|Hge].
    + destruct (loop_step fuel p next t horizon now s Hc Hp ltac:(lia) Hlt) as (s1 & E1 & Hc1 & Hg1 & Hq1).
      pose proof (next_after t) as Hn. pose proof (next_fires t) as Hnf.
      destruct (IH (next t) s1 Hc1 ltac:(lia) ltac:(lia) Hnf) as (s2 & E2 & Hc2 & Hg2 & Hq2).
      exists s2. rewrite E1, E2. split; [done|]. split; [done|]. split; [by etrans|].
      intros u Hu Hr. destruct (decide (u = t)) as [->|Hne]; [by apply Hg2|].
      apply Hq2; [done|]. pose proof (next_least t u Hu ltac:(lia)). lia.
    + exists s. simpl. rewrite (proj2 (Z.ltb_ge _ _) Hge). do 2 (split; [done|]). split; [reflexivity|]. intros u _ Hu. lia.
Qed.

(** A policy that can be scheduled. *)
Definition good (p : Policy P) : Prop :=
  named p /\ exists next, Parse (p_CronSpec p) = Ok next /\ Cron next (fires (p_CronSpec p)).

(** Enough for the horizon. *)
Definition loop_fuel : nat := 240.

Lemma next_jobs_covered p now s :
  calm s -> good p -> 0 <= now ->
  exists s', scheduleNextJobs loop_fuel p now s = (Ok tt, s') /\ calm s' /\ grows s s'
    /\ forall u, fires (p_CronSpec p) u -> now < u < now + enqueuerHorizon -> queued p u s'.
Proof.
  intros Hc (Hp & next & Hn & Hcron) Hnow. unfold Period.scheduleNextJobs. rewrite Hn.
  pose proof (next_after now) as Ha. pose proof (next_fires now) as Hf.
  destruct (loop_covers p next (now + enqueuerHorizon) now loop_fuel (next now) s Hc Hp) as (s' & E & Hc' & Hg & Hq);
    [lia|unfold enqueuerHorizon, loop_fuel; lia|done|].
  exists s'. do 3 (split; [done|]). intros u Hu Hr. apply Hq; [done|]. pose proof (next_least now u Hu ltac:(lia)). lia.
Qed.

Lemma all_jobs_covered pls now s :
  calm s -> Forall good pls -> 0 <= now ->
  exists s', iterM (fun p => scheduleNextJobs loop_fuel p now) pls s = (Ok tt, s') /\ calm s' /\ grows s s'
    /\ forall p u, p ∈ pls -> fires (p_CronSpec p) u -> now < u < now + enqueuerHorizon -> queued p u s'.
Proof.
  intros Hc Hg Hnow. revert s Hc. induction Hg as [|p pls Hp _ IH]; intros s Hc; simpl.
  - exists s. do 2 (split; [done|]). split; [reflexivity|]. intros p u Hin. by apply elem_of_nil in Hin.
  - destruct (next_jobs_covered p now s Hc Hp Hnow) as (s1 & E1 & Hc1 & Hg1 & Hq1).
    destruct (IH s1 Hc1) as (s2 & E2 & Hc2 & Hg2 & Hq2). exists s2. unfold bind. rewrite E1.
    split; [exact E2|]. split; [done|]. split; [by etrans|]. intros q u Hin Hu Hr.
    apply elem_of_cons in Hin as [->|Hin]; [by apply Hg2, Hq1|by apply Hq2].
Qed.

Definition loaded (s : world P) : list (Policy P) := omap load_one (zrange (policies s)).

(** A turn that is due enqueues the executions of the next four minutes. *)
Lemma due_turn nodeID now s :
  calm s -> lock s = None -> 0 <= now -> Forall good (loaded s) ->
  (forall l, last_enqueue s = Some l -> l < now - enqueuerSleep) ->
  exists s', checkAndEnqueue loop_fuel nodeID now s = (Ok true, s')
    /\ calm s' /\ lock s' = None /\ policies s' = policies s /\ last_enqueue s' = Some now
    /\ (forall p u, queued p u s -> queued p u s')
    /\ forall p u, p ∈ loaded s -> fires (p_CronSpec p) u -> now < u < now + enqueuerHorizon -> queued p u s'.
Proof.
  intros Hc Hl Hnow Hgood Hlast.
  assert (Hs : shouldEnqueue nodeID now s = (Ok true, with_last s (Some now))).
  { unfold shouldEnqueue, AcquireLock, ReleaseLock, bind, try.
    rewrite world_io by done. unfold get, modify. simpl. rewrite Hl.
    rewrite !world_io by done. unfold ret. simpl.
    assert (Hd : match last_enqueue s with Some l => l <? now - enqueuerSleep | None => true end = true).
    { destruct (last_enqueue s) as [l|]; [|done]. apply Z.ltb_lt. by apply Hlast. }
    rewrite Hd. rewrite world_io by done. simpl. rewrite !world_io by done. simpl.
    rewrite (proj2 (Z.ltb_lt now (now + 30)) ltac:(lia)), String.eqb_refl. simpl. rewrite world_io by done.
    destruct s; simpl in *. by rewrite Hl. }
  unfold Period.checkAndEnqueue, bind. rewrite Hs.
  unfold Period.enqueue, bind, modify, try, Load. rewrite world_io by done. simpl.
  destruct (all_jobs_covered (loaded s) now (with_err (with_last s (Some now)) None) Hc Hgood Hnow) as (s' & E & Hc' & Hg & Hq).
  unfold loaded in E. rewrite E. exists s'. destruct Hg as [G1 G2 G3 G4 G5]. simpl in *.
  do 2 (split; [done|]). split; [by rewrite G3|]. do 2 (split; [done|]). split; [|exact Hq].
  intros p u H. by apply G5.
Qed.

Lemma last_cons_default (l : list Z) x d : List.last (x :: l) d = List.last l x.
Proof.
  revert x d. induction l as [|y l IH]; intros x d; [done|].
  change (List.last (y :: l) d = List.last (y :: l) x). by rewrite !IH.
Qed.

(** The times of the turns of a node whose turns all hit: the wait, with the
    random number of the turn, and the delay of the timer. *)
Fixpoint turns (t : Z) (l : list (bool * Z * Z)) : list Z :=
  match l with
  | [] => []
  | (enqErr, rand, late) :: l => let t := t + nextTurn true enqErr rand + late in t :: turns t l
  end.

Definition turn (nodeID : string) (now : Z) : M (world P) unit :=
  checkAndEnqueue loop_fuel nodeID now ;;; ret tt.

Lemma turns_cover nodeID l : forall t0 s,
  calm s -> lock s = None -> 0 <= t0 -> Forall good (loaded s) ->
  (forall x, last_enqueue s = Some x -> x < t0 - enqueuerSleep) ->
  Forall (fun x => 0 <= x.1.2 < 5 /\ 0 <= x.2 < 108) l ->
  exists s', iterM (turn nodeID) (t0 :: turns t0 l) s = (Ok tt, s')
    /\ (forall p u, queued p u s -> queued p u s')
    /\ forall p u, p ∈ loaded s -> fires (p_CronSpec p) u ->
       t0 < u < List.last (turns t0 l) t0 + enqueuerHorizon -> queued p u s'.
Proof.
  induction l as [|[[enqErr rand] late] l IH]; intros t0 s Hc Hl Ht Hg Hlast Hr.
  - destruct (due_turn nodeID t0 s Hc Hl Ht Hg Hlast) as (s1 & E1 & Hc1 & Hl1 & Hp1 & Hx1 & Hm1 & Hq1).
    exists s1. cbn [iterM turns]. unfold turn, bind. rewrite E1. split; [done|]. split; [done|]. exact Hq1.
  - apply Forall_cons in Hr as [[Hr1 Hr2] Hr]. simpl in Hr1, Hr2.
    destruct (due_turn nodeID t0 s Hc Hl Ht Hg Hlast) as (s1 & E1 & Hc1 & Hl1 & Hp1 & Hx1 & Hm1 & Hq1).
    set (t1 := t0 + nextTurn true enqErr rand + late).
    assert (Ht1 : t0 + enqueuerSleep < t1 < t0 + enqueuerHorizon).
    { unfold t1, nextTurn, enqueuerSleep, enqueuerHorizon. destruct enqErr; lia. }
    assert (Hld : loaded s1 = loaded s) by (unfold loaded; by rewrite Hp1).
    destruct (IH t1 s1) as (s2 & E2 & Hm2 & Hq2); [done|done|unfold enqueuerSleep in Ht1; lia|by rewrite Hld| |done|].
    { intros x Hx. rewrite Hx1 in Hx. injection Hx as <-. lia. }
    exists s2. split; [cbn [iterM turns] in *; unfold turn at 1, bind at 1 2; rewrite E1; exact E2|].
    split; [auto|]. intros p u Hin Hu Hrange.
    destruct (decide (u < t0 + enqueuerHorizon)) as [Hlt|Hge]; [apply Hm2, Hq1; [done|done|lia]|].
    apply Hq2; [by rewrite Hld|done|]. split; [lia|]. cbn [turns] in Hrange. fold t1 in Hrange.
    rewrite last_cons_default in Hrange. lia.
Qed.
(** The times of a policy's specification go on for ever: for the parser's
    specifications all that is asked is that there is such a time at all. *)
Definition recurs (p : Policy P) : Prop :=
  forall next, Parse (p_CronSpec p) = Ok next -> Cron next (fires (p_CronSpec p)).

(** A policy that is loaded was found valid. *)
Lemma loaded_good s : Forall recurs (loaded s) -> Forall good (loaded s).
Proof.
  intros H. apply Forall_forall. intros p Hp. rewrite Forall_forall in H. specialize (H p Hp).
  unfold loaded in Hp. apply list_elem_of_omap in Hp as (m & _ & Hm). unfold Period.load_one in Hm.
  destruct (DeSerialize m.1) as [q|e]; [|done]. destruct (pol_Validate Parse IsValidURL q) as [[]|e] eqn:V; [|done].
  injection Hm as <-. unfold pol_Validate in V.
  destruct (GoStrings.is_blank (p_ID q)) eqn:E1; [done|]. destruct (GoStrings.is_blank (p_JobName q)) eqn:E2; [done|].
  destruct (_ && _); [done|]. destruct (Parse (p_CronSpec q)) as [next|e] eqn:E3; [|done].
  split; [by split|]. exists next. split; [done|]. by apply H.
Qed.

(** C23: no execution of a periodic job is missed, as long as every valid policy
    in store has a specification with further times: while a node takes its
    turns alone, with redis answering every call, the lock free at its first
    turn and no round in the two minutes before it, each turn after its wait and
    a timer that is late by less than 108 seconds, every round ends, and every
    time of a stored valid policy's schedule until four minutes after the last
    turn is in the scheduled queue, and so, by the turns before it, ahead of its
    time.  Without the first condition nothing of this holds: one policy whose
    specification has no time, which is found valid, keeps the round from ever
    ending ([impossible_cron_never_ends]). *)
Theorem no_fire_missed nodeID t0 l s :
  calm s -> lock s = None -> 0 <= t0 -> Forall recurs (loaded s) ->
  (forall x, last_enqueue s = Some x -> x < t0 - enqueuerSleep) ->
  Forall (fun x => 0 <= x.1.2 < 5 /\ 0 <= x.2 < 108) l ->
  exists s', iterM (turn nodeID) (t0 :: turns t0 l) s = (Ok tt, s')
    /\ forall p u, p ∈ loaded s -> fires (p_CronSpec p) u ->
       t0 < u < List.last (turns t0 l) t0 + enqueuerHorizon -> queued p u s'.
Proof.
  intros Hc Hl Ht Hg%loaded_good Hx Hr.
  destruct (turns_cover nodeID l t0 s Hc Hl Ht Hg Hx Hr) as (s' & E & _ & Hq). by exists s'.
Qed.

(** A round of enqueuing restores what was done to the executions it covers:
    an execution that was stopped by its identifier before its time waits in the
    queue again afterwards, with the status of a scheduled job. *)
Theorem stopped_execution_restored p now u s :
  calm s -> good p -> 0 <= now -> fires (p_CronSpec p) u -> now < u < now + enqueuerHorizon ->
  exists s', scheduleNextJobs loop_fuel p now s = (Ok tt, s')
    /\ hget (rd (tr s')) (JobID (createExecution p u now)) "status" = Some Status.ScheduledStatus
    /\ exists raw, SerializeJob (periodic_job p u) = Ok raw /\ scheduled s' !! raw = Some u.
Proof.
  intros Hc Hp Hnow Hu Hr. destruct (next_jobs_covered p now s Hc Hp Hnow) as (s' & E & _ & _ & Hq).
  destruct (Hq u Hu Hr) as [Hraw Hw]. by exists s'.
Qed.

(** A cron specification whose times never come keeps the enqueuer busy for
    ever: the schedule then gives the zero time, which is before every horizon,
    so that the loop is still running whatever the number of its turns. *)
Theorem impossible_cron_never_ends fuel p now s :
  calm s -> named p -> 0 <= now -> Parse (p_CronSpec p) = Ok (fun _ => TaskDao.zero_time) ->
  (scheduleNextJobs fuel p now s).1 = Err Running.
Proof.
  intros Hc Hp Hnow Hparse. unfold Period.scheduleNextJobs. rewrite Hparse.
  revert s Hc. induction fuel as [|fuel IH]; intros s Hc.
  - simpl. destruct (Z.ltb_spec TaskDao.zero_time (now + enqueuerHorizon)); [done|].
    unfold TaskDao.zero_time, enqueuerHorizon in *. lia.
  - destruct (loop_step fuel p (fun _ => TaskDao.zero_time) TaskDao.zero_time (now + enqueuerHorizon) now s Hc Hp)
      as (s1 & -> & Hc1 & _); [done|unfold TaskDao.zero_time, enqueuerHorizon; lia|]. by apply IH.
Qed.
End Enqueuer.

(** ** Removing a policy *)

Section Removal.
Context {P : Type} (unmarshal : string -> option P).
Context (callback : option (string -> StatusChange P -> option error)).
Context (Parse : string -> result Schedule_) (DeSerialize : string -> result (Policy P)) (IsValidURL : string -> bool).
Context (client_DeleteScheduledJob : Z -> string -> gmap string Z -> result (gmap string Z)).

Definition policies_are (z : gmap string Z) (s : world P) : Prop := policies s = z.

Lemma tracker_keeps_policies {A} z (m : M (env P) A) : preserves (policies_are z) (on_tracker m).
Proof. by intros s. Qed.

Lemma call_keeps_policies {A} z (f : M (world P) A) : preserves (policies_are z) f -> preserves (policies_are z) (io f).
Proof. intros H. apply preserves_io; [by intros s|done]. Qed.

Lemma delete_keeps_policies z t id : preserves (policies_are z) (DeleteScheduledJob client_DeleteScheduledJob t id).
Proof.
  apply call_keeps_policies. intros s Hs. unfold bind, get. by destruct (client_DeleteScheduledJob _ _ _).
Qed.

Lemma clear_keeps_policies z id now eID :
  preserves (policies_are z) (clear_execution unmarshal callback client_DeleteScheduledJob id now eID).
Proof.
  unfold clear_execution. apply preserves_bind; [apply preserves_try, tracker_keeps_policies|].
  intros [[]|e]; [|apply preserves_ret].
  apply preserves_bind; [apply tracker_keeps_policies|]. intros e.
  apply preserves_bind; [case_match; [apply preserves_bind; [apply preserves_try, delete_keeps_policies|]|]; intros; apply preserves_ret|].
  intros _. case_match; [|apply preserves_ret].
  apply preserves_bind; [apply preserves_try, tracker_keeps_policies|]. intros _. apply preserves_ret.
Qed.

Lemma load_keeps_policies z : preserves (policies_are z) (Load Parse DeSerialize IsValidURL).
Proof. apply call_keeps_policies. intros s Hs. exact Hs. Qed.

Lemma executions_keep_policies z id : preserves (policies_are z) (getPeriodicExecutions id).
Proof. apply call_keeps_policies. intros s Hs. exact Hs. Qed.

Lemma locate_keeps_policies z id now :
  preserves (policies_are z) (locatePolicy unmarshal callback Parse DeSerialize IsValidURL id now).
Proof.
  unfold locatePolicy. apply preserves_bind; [apply preserves_try, tracker_keeps_policies|]. intros [[]|e].
  - apply preserves_bind; [apply preserves_try, tracker_keeps_policies|]. intros _. apply tracker_keeps_policies.
  - case_match; [|apply preserves_fail]. apply preserves_bind; [apply load_keeps_policies|]. intros pl.
    case_match; [apply preserves_ret|apply preserves_fail].
Qed.

(** Removing a periodic job removes exactly the policies whose numeric
    identifier is its own.  The identifier is the second the job was created in
    plus a random number below ten, so the policies of other jobs can have the
    same one and are removed with it. *)
Theorem unschedule_removes_by_score id now s s' :
  UnSchedule unmarshal callback Parse DeSerialize IsValidURL client_DeleteScheduledJob id now s = (Ok tt, s') ->
  exists n s1, locatePolicy unmarshal callback Parse DeSerialize IsValidURL id now s = (Ok n, s1)
    /\ forall raw, policies s' !! raw = match policies s !! raw with
                                     | Some m => if m =? n then None else Some m
                                     | None => None
                                     end.
Proof.
  unfold UnSchedule. destruct (GoStrings.is_blank id); [done|]. intros H.
  apply bind_inv in H as (n & s1 & E1 & H). apply bind_inv in H as (r & s2 & E2 & H).
  apply bind_inv in H as ([] & s3 & E3 & H). exists n, s1. split; [done|].
  assert (H1 : policies s1 = policies s).
  { pose proof (locate_keeps_policies (policies s) id now s eq_refl) as Hp. by rewrite E1 in Hp. }
  assert (H2 : policies s2 = policies s).
  { pose proof (preserves_try _ _ (executions_keep_policies (policies s) id) s1 H1) as Hp. by rewrite E2 in Hp. }
  assert (H3 : policies s3 = policies s).
  { destruct r as [eIDs|e]; [|injection E3 as <-; exact H2].
    pose proof (preserves_iterM (policies_are (policies s)) _ eIDs (clear_keeps_policies (policies s) id now) s2 H2) as Hp.
    by rewrite E3 in Hp. }
  assert (H4 : policies s' = remove_score n (policies s3)).
  { revert H. unfold wrapM, io, next_fault, world_faulty. simpl.
    destruct (next_fault (tr s3)) as [[e|] e']; simpl; [by destruct e|]. by intros [= <-]. }
  intros raw. rewrite H4, H3. unfold remove_score. destruct (policies s !! raw) as [m|] eqn:E.
  - destruct (Z.eqb_spec m n) as [->|Hne].
    + apply map_lookup_filter_None. right. intros x Hx Hn. apply Hn. simpl. congruence.
    + by apply map_lookup_filter_Some.
  - apply map_lookup_filter_None. by left.
Qed.
End Removal.

(** ** Witnesses *)

(** A job is written as the digits of its code. *)
Fixpoint bits (n : positive) : string :=
  match n with
  | xH => ""
  | xO n => String "0" (bits n)
  | xI n => String "1" (bits n)
  end.

Definition sample_ser (j : WorkJob unit) : result string :=
  Ok (bits (encode (w_Name j, w_ID j, w_EnqueuedAt j, w_Args j))).

#[global] Instance sample_codec : QueueCodec sample_ser.
Proof.
  assert (Hb : forall m n, bits m = bits n -> m = n).
  { induction m as [m IH|m IH|]; intros [n|n|]; simpl; intros H; try done; injection H as H; f_equal; by apply IH. }
  split; [by eexists|]. intros [] [] raw [= <-] [= E]. apply Hb, (inj encode) in E. simpl in E. by simplify_eq.
Qed.

(** Every minute: the next multiple of sixty. *)
Definition minutes : Schedule_ := fun t => 60 * (t / 60 + 1).
Definition on_minutes (_ : string) (t : Z) : Prop := t mod 60 = 0.

Lemma minutes_cron spec : Cron minutes (on_minutes spec).
Proof.
  split; unfold minutes, on_minutes.
  - intros t. pose proof (Z.mod_pos_bound t 60). pose proof (Z.div_mod t 60). lia.
  - intros t. rewrite Z.mul_comm. apply Z.mod_mul. lia.
  - intros t u Hu Ht. pose proof (Z.div_mod t 60). pose proof (Z.div_mod u 60). pose proof (Z.mod_pos_bound t 60). lia.
Qed.

Definition sample_Parse (spec : string) : result Schedule_ :=
  if spec =s= "0 * * * * *" then Ok minutes
  else if spec =s= "0 0 0 31 2 *" then Ok (fun _ => TaskDao.zero_time)
  else Err (New "invalid cron").

Definition sample_policy (id spec : string) : Policy unit := mkPolicy id "GC" spec None "" 0.

(** A policy is stored under its identifier. *)
Definition sample_DeSerialize (raw : string) : result (Policy unit) := Ok (sample_policy raw "0 * * * * *").

Definition sample_redis : redis :=
  mkRedis {["j1" := mkHash {["id" := "j1"; "status" := "Scheduled"; "numeric_policy_id" := "7"; "revision" := "1"]} None]}
    ∅ ∅ ∅.

Definition sample_world : world unit :=
  mkWorld (mkEnv sample_redis [] [] [] "" None) {["j1" := 7; "j2" := 7; "j3" := 8]} ∅ None None None.

Lemma sample_good id : GoStrings.is_blank id = false -> good sample_Parse on_minutes (sample_policy id "0 * * * * *").
Proof. intros H. split; [by split|]. exists minutes. split; [done|apply minutes_cron]. Qed.

(** Two turns of a node, 126 seconds apart. *)
Lemma no_fire_missed_witness :
  exists s', iterM (turn (fun _ => None) None sample_Parse sample_ser sample_DeSerialize (fun _ => true) "node")
      [1000; 1126] sample_world = (Ok tt, s')
    /\ queued sample_ser (mkPolicy "j2" "GC" "0 * * * * *" None "" 7) 1320 s'.
Proof.
  assert (Hl : loaded sample_Parse sample_DeSerialize (fun _ => true) sample_world
               = (fun x => mkPolicy x.1 "GC" "0 * * * * *" None "" x.2) <$> [("j1", 7); ("j2", 7); ("j3", 8)])
    by (vm_compute; reflexivity).
  destruct (no_fire_missed (fun _ => None) None sample_Parse sample_ser sample_DeSerialize (fun _ => true) on_minutes
              "node" 1000 [(false, 1, 2)] sample_world) as (s' & E & Hq);
    [done|done|lia| |done| |].
  - rewrite Hl. apply Forall_fmap, Forall_forall. intros x _ next [= <-]. apply minutes_cron.
  - repeat constructor; simpl; lia.
  - exists s'. split; [exact E|]. clear E. apply Hq.
    + rewrite Hl. apply list_elem_of_fmap. exists ("j2", 7). split; [reflexivity|]. set_solver.
    + reflexivity.
    + vm_compute. done.
Defined.

(** The execution at the next full minute was stopped. *)
Definition stopped_world : world unit :=
  mkWorld (mkEnv (mkRedis {["j1@1020" := mkHash {["id" := "j1@1020"; "status" := "Stopped"]} None]} ∅ ∅ ∅) [] [] [] "" None)
    {["j1" := 7]} ∅ None None None.

Lemma stopped_execution_restored_witness :
  hget (rd (tr stopped_world)) "j1@1020" "status" = Some Status.StoppedStatus
  /\ exists s', scheduleNextJobs (fun _ => None) None sample_Parse sample_ser loop_fuel (sample_policy "j1" "0 * * * * *") 1000
                  stopped_world = (Ok tt, s')
     /\ hget (rd (tr s')) "j1@1020" "status" = Some Status.ScheduledStatus.
Proof.
  split; [vm_compute; reflexivity|].
  destruct (stopped_execution_restored (fun _ => None) None sample_Parse sample_ser on_minutes
              (sample_policy "j1" "0 * * * * *") 1000 1020 stopped_world) as (s' & E & Hst & _);
    [done|by apply sample_good|lia|done|vm_compute; done|]. by exists s'.
Defined.

Lemma impossible_cron_never_ends_witness :
  (scheduleNextJobs (fun _ => None) None sample_Parse sample_ser 1000 (sample_policy "j1" "0 0 0 31 2 *") 1000
     sample_world).1 = Err Running.
Proof.
  apply (impossible_cron_never_ends (fun _ => None) None sample_Parse sample_ser 1000 (sample_policy "j1" "0 0 0 31 2 *") 1000);
    done.
Defined.

(** The policy of [j2] goes with that of [j1]. *)
Lemma unschedule_removes_by_score_witness :
  exists s', UnSchedule (fun _ => None) None sample_Parse sample_DeSerialize (fun _ => true) (fun _ _ z => Ok z) "j1" 50
               sample_world = (Ok tt, s')
    /\ policies s' !! "j2" = None /\ policies s' !! "j3" = Some 8.
Proof.
  destruct (UnSchedule (fun _ => None) None sample_Parse sample_DeSerialize (fun _ => true) (fun _ _ z => Ok z) "j1" 50
              sample_world) as [r s'] eqn:E.
  assert (Hr : r = Ok tt) by (change r with ((r, s').1); rewrite <- E; vm_compute; reflexivity). subst r.
  destruct (unschedule_removes_by_score (fun _ => None) None sample_Parse sample_DeSerialize (fun _ => true)
              (fun _ _ z => Ok z) "j1" 50 sample_world s' E) as (n & s1 & Hn & Hp).
  assert (n = 7) as ->.
  { apply (f_equal fst) in Hn. vm_compute in Hn. by injection Hn. }
  exists s'. split; [done|]. rewrite !Hp. done.
Defined.
