(* ===== verification/Scheduler.v ===== *)
(** * The scheduler

    [src/pkg/scheduler]: the table of schedules ([dao.go]), scheduling and
    unscheduling ([scheduler.go]) on top of the managers of [TaskManager], and
    the callbacks that the check-ins of the periodic job run ([callback.go]).

    The cron parser, the JSON codec of parameters and attributes and the
    registered callbacks are parameters; a run of a callback is recorded. *)

From S2P Require Import Prelude Errors JobStatus TaskDao TaskManager.

(** ** Data *)

Record schedule := mkSchedule {
  sd_VendorType : string;
  sd_VendorID : Z;
  sd_CRONType : string;
  sd_CRON : string;
  sd_Revision : Z;
  sd_ExtraAttrs : string;
  sd_CallbackFuncName : string;
  sd_CallbackFuncParam : string;
  sd_CreationTime : Z;
  sd_UpdateTime : Z;
}.

#[global] Instance schedule_eq_dec : EqDecision schedule.
Proof. solve_decision. Defined.

(** The managers, the table with its sequence, and the callbacks that have been
    run, with their parameters. *)
Record sst := mkSst {
  sm : mgr;
  schedules : gmap Z schedule;
  next_schedule : Z;
  runs : list (string * string);
}.

Definition with_sm (s : sst) g := mkSst g (schedules s) (next_schedule s) (runs s).
Definition with_schedules (s : sst) x := mkSst (sm s) x (next_schedule s) (runs s).

Definition on_mgr {A} (m : M mgr A) : M sst A := fun s => let p := m (sm s) in (p.1, with_sm s p.2).

(** A statement on the table of schedules, of the same database. *)
Definition sdb {A} (f : gmap Z schedule -> result A * gmap Z schedule) : M sst A := fun s =>
  match dbio get (mdb (sm s)) with
  | (Err e, d) => (Err e, with_sm s (with_mdb (sm s) d))
  | (Ok _, d) => let p := f (schedules s) in (p.1, with_schedules (with_sm s (with_mdb (sm s) d)) p.2)
  end.

Definition JobNameScheduler : string := "SCHEDULER".

(** ** The table *)

Definition same_vendor (a b : schedule) : bool :=
  (sd_VendorType a =s= sd_VendorType b) && (sd_VendorID a =? sd_VendorID b).

(** The sequence advances also when the row violates the unique constraint. *)
Definition sd_Create (x : schedule) : M sst Z := fun s =>
  match sdb (fun t => if existsb (same_vendor x) (map_to_list t).*2
                      then (Err (WrapConflictError (PgError "23505") "schedule already exists"), t)
                      else (Ok tt, <[next_schedule s := x]> t)) s with
  | (Ok _, s') => (Ok (next_schedule s), mkSst (sm s') (schedules s') (next_schedule s + 1) (runs s'))
  | (Err e, s') => (Err e, mkSst (sm s') (schedules s') (next_schedule s + 1) (runs s'))
  end.

Definition sd_List (p : schedule -> bool) : M sst (list (Z * schedule)) :=
  sdb (fun t => (Ok (List.filter (fun r => p r.2) (map_to_list t)), t)).

Definition sd_Get (id : Z) : M sst schedule :=
  sdb (fun t => (match t !! id with
                 | Some x => Ok x
                 | None => Err (WrapNotFoundError ErrNoRows (id_message "schedule" id))
                 end, t)).

Definition sd_Delete (id : Z) : M sst unit :=
  sdb (fun t => match t !! id with
                | Some _ => (Ok tt, delete id t)
                | None => (Err (WithMessage (NotFoundError None) (id_message "schedule" id)), t)
                end).

(** [Update] with the columns it names: [f] sets them. *)
Definition sd_Update (id : Z) (f : schedule -> schedule) : M sst unit :=
  sdb (fun t => match t !! id with
                | Some x => (Ok tt, <[id := f x]> t)
                | None => (Err (WithMessage (NotFoundError None) (id_message "schedule" id)), t)
                end).

Definition set_revision (revision : Z) (x : schedule) : schedule :=
  mkSchedule (sd_VendorType x) (sd_VendorID x) (sd_CRONType x) (sd_CRON x) revision (sd_ExtraAttrs x)
    (sd_CallbackFuncName x) (sd_CallbackFuncParam x) (sd_CreationTime x) (sd_UpdateTime x).

(** One conditional update; gives the number of rows. *)
Definition sd_UpdateRevision (id revision : Z) : M sst Z :=
  sdb (fun t => match t !! id with
                | Some x => if sd_Revision x <? revision then (Ok 1, <[id := set_revision revision x]> t) else (Ok 0, t)
                | None => (Ok 0, t)
                end).

Definition sd_Count (p : schedule -> bool) : M sst Z :=
  sdb (fun t => (Ok (Z.of_nat (length (List.filter (fun r => p r.2) (map_to_list t)))), t)).

(** ** Transactions *)

(** A statement failed between two states: its fault is used up. *)
Definition failed_between (d d' : db) : bool :=
  existsb (fun f => match f with Some _ => true | None => false end)
    (take (length (faults d) - length (faults d')) (faults d)).

(** The tables of a state with the rest of another. *)
Definition roll_back (s s' : sst) : sst :=
  let d := mdb (sm s) in
  let d' := mdb (sm s') in
  mkSst (with_mdb (sm s') (mkDb (execs d) (tasks d) (next_exec d') (next_task d') (outdate d') (faults d') (db_down d')))
    (schedules s) (next_schedule s') (runs s').

(** [orm.WithTransaction] outside a transaction.  After a failed statement the
    transaction is aborted, and its commit a roll back, even when the error was
    dropped. *)
Definition WithTransaction {A} (f : M sst A) : M sst A := fun s =>
  match sdb (fun t => (Ok tt, t)) s with
  | (Err e, s1) => (Err e, s1)
  | (Ok _, s1) =>
      match f s1 with
      | (Err e, s2) => (Err e, roll_back s s2)
      | (Ok a, s2) =>
          if failed_between (mdb (sm s1)) (mdb (sm s2))
          then (Err (Sentinel "commit unexpectedly resulted in rollback"), roll_back s s2)
          else match sdb (fun t => (Ok tt, t)) s2 with
               | (Err e, s3) => (Err e, roll_back s s3)
               | (Ok _, s3) => (Ok a, s3)
               end
      end
  end.

Section Scheduler.
(** The job service, the codecs and the cron parser. *)
Context (SubmitJob : JobData -> result string) (PostAction : string -> string -> result unit).
Context {Attrs : Type} (Marshal : Attrs -> result string) (no_attrs : Attrs) (coreURL : string).
Context (cron_ok : string -> bool).
(** [json.Unmarshal] of parameters; a text that is no object gives the empty
    map. *)
Context (json_params : string -> Attrs).
Context (Unmarshal : string -> result Attrs).

(** ** Callbacks *)

(** The registered callbacks, by name: what a run answers to a parameter. *)
Definition registry : Type := gmap string (string -> result unit).

Definition RegisterCallbackFunc (r : registry) (name : string) (f : option (string -> result unit)) : result registry :=
  if name =s= "" then Err (New "empty name")
  else match f with
       | None => Err (New "callback function is nil")
       | Some f =>
           match r !! name with
           | Some _ => Err (New ("callback function " ++ name ++ " already exists")%string)
           | None => Ok (<[name := f]> r)
           end
       end.

Context (callbacks : registry).

Definition getCallbackFunc (name : string) : result (string -> result unit) :=
  match callbacks !! name with
  | Some f => Ok f
  | None => Err (New ("callback function " ++ name ++ " not found")%string)
  end.

Definition callbackFuncExist (name : string) : bool :=
  match callbacks !! name with Some _ => true | None => false end.

Definition run_callback (name : string) (f : string -> result unit) (param : string) : M sst unit := fun s =>
  (f param, mkSst (sm s) (schedules s) (next_schedule s) (runs s ++ [(name, param)])).

(** [triggerCallback] for a task and the time of the check-in. *)
Definition triggerCallback (executionID checkInAt : Z) : M sst unit :=
  execution <- on_mgr (lift (exec_Get executionID)) ;;
  if negb (e_VendorType execution =s= JobNameScheduler)
  then fail (New "the vendor type of execution isn't SCHEDULER")
  else
    sched <- sd_Get (e_VendorID execution) ;;
    n <- sd_UpdateRevision (e_VendorID execution) checkInAt ;;
    if n =? 0 then ret tt
    else
      f <- of_result (getCallbackFunc (sd_CallbackFuncName sched)) ;;
      run_callback (sd_CallbackFuncName sched) f (sd_CallbackFuncParam sched).

(** ** Scheduling *)

(** The seconds of the cron are replaced by a random number. *)
Definition randomize (rand : Z) (cron : string) : string :=
  (Strconv.format_int rand ++ " " ++ GoStrings.Join (tail (GoStrings.Split cron " ")) " ")%string.

Definition ensureTask (x : schedule) (params : Attrs) (now : Z) : M sst (Z * Z) :=
  scheduleID <- sd_Create x ;;
  execID <- on_mgr (CreateExecution Marshal no_attrs JobNameScheduler scheduleID "MANUAL" (Some params) now) ;;
  taskID <- on_mgr (Create SubmitJob Marshal no_attrs coreURL execID
    (mkJob JobNameScheduler None (Some (mkJobMetadata "Periodic" 0 (sd_CRON x) false))) None now) ;;
  ret (scheduleID, taskID).

(** [callbackFuncParams] and [extraAttrs] are given as their JSON. *)
Definition Schedule (vendorType : string) (vendorID : Z) (cronType cron callbackFuncName : string)
    (callbackFuncParams extraAttrs : result string) (rand now : Z) : M sst Z :=
  if vendorType =s= "" then fail (New "empty vendor type")
  else
    let cron := randomize rand cron in
    if negb (cron_ok cron)
    then fail (WithMessage (WithCode (New "") BadRequestCode) ("invalid cron " ++ cron)%string)
    else if negb (callbackFuncExist callbackFuncName)
    then fail (New ("callback function " ++ callbackFuncName ++ " not found")%string)
    else
      paramsData <- of_result callbackFuncParams ;;
      extrasData <- of_result extraAttrs ;;
      let x := mkSchedule vendorType vendorID cronType cron 0 extrasData callbackFuncName paramsData now now in
      ids <- WithTransaction (ensureTask x (if paramsData =s= "" then no_attrs else json_params paramsData) now) ;;
      let '(scheduleID, taskID) := ids in
      r <- try (on_mgr (lift (task_Get taskID))) ;;
      match r with
      | Err e => try (on_mgr (StopTask PostAction taskID now)) ;;; fail e
      | Ok task =>
          if t_Status task =s= Status.ErrorStatus
          then try (on_mgr (StopTask PostAction taskID now)) ;;;
               fail (New "failed to create the schedule: the task status is Error")
          else ret scheduleID
      end.

(** The time-out of the stop is not an error. *)
Definition is_timeout (e : error) : bool := match e with Sentinel n => n =s= "task.ErrTimeOut" | _ => false end.

Definition of_schedule (id : Z) (x : Execution) : bool :=
  (e_VendorType x =s= JobNameScheduler) && (e_VendorID x =? id).

Definition UnScheduleByID (id now : Z) (rest : list (mgr -> mgr)) : M sst unit :=
  executions <- on_mgr (lift (exec_List (of_schedule id))) ;;
  match executions with
  | (executionID, _) :: _ =>
      r <- try (on_mgr (StopAndWait PostAction executionID now rest)) ;;
      match r with
      | Err e => if is_timeout e then on_mgr (Delete executionID) else fail e
      | Ok _ => on_mgr (Delete executionID)
      end
  | [] => ret tt
  end ;;;
  sd_Delete id.

(** The wait is the same for each schedule. *)
Definition UnScheduleByVendor (vendorType : string) (vendorID now : Z) (rest : list (mgr -> mgr)) : M sst unit :=
  l <- sd_List (fun x => (sd_VendorType x =s= vendorType) && (negb (vendorID >? 0) || (sd_VendorID x =? vendorID))) ;;
  iterM (fun r => UnScheduleByID r.1 now rest) l.

(** ** Reading *)

Record Schedule_ := mkSchedule_ {
  s_ID : Z;
  s_VendorType : string;
  s_VendorID : Z;
  s_CRONType : string;
  s_CRON : string;
  s_ExtraAttrs : option Attrs;
  s_Status : string;
}.

Definition convertSchedule (id : Z) (x : schedule) : M sst Schedule_ :=
  extras <- (if sd_ExtraAttrs x =s= "" then ret None
             else a <- of_result (Unmarshal (sd_ExtraAttrs x)) ;; ret (Some a)) ;;
  executions <- on_mgr (lift (exec_List (of_schedule id))) ;;
  ret (mkSchedule_ id (sd_VendorType x) (sd_VendorID x) (sd_CRONType x) (sd_CRON x) extras
         (match executions with
          | [] => Status.ErrorStatus
          | (_, e) :: _ => e_Status e
          end)).

Definition GetSchedule (id : Z) : M sst Schedule_ := x <- sd_Get id ;; convertSchedule id x.

Fixpoint convert_all (l : list (Z * schedule)) : M sst (list Schedule_) :=
  match l with
  | [] => ret []
  | (id, x) :: l => y <- convertSchedule id x ;; ys <- convert_all l ;; ret (y :: ys)
  end.

Definition ListSchedules (p : schedule -> bool) : M sst (list Schedule_) := l <- sd_List p ;; convert_all l.
End Scheduler.

(** ** Facts *)

Lemma quiet_sdb {A} (f : gmap Z schedule -> result A * gmap Z schedule) s :
  quiet (mdb (sm s)) -> sdb f s = ((f (schedules s)).1, with_schedules s (f (schedules s)).2).
Proof.
  intros Q. unfold sdb. rewrite quiet_dbio by done. cbn. destruct s as [g t n r]. cbn. by rewrite with_mdb_id.
Qed.

(** *** Check-ins, each in the transaction of its request *)

Section Triggers.
Context (callbacks : registry).

(** A handler of a check-in, statement by statement: [Won] holds the row of the
    schedule, whose new revision nobody else sees; [Ran] has the answer of the
    callback and still has to end its transaction. *)
Inductive phase :=
| Called
| GotExecution (x : Execution)
| GotSchedule (id : Z) (x : schedule)
| Won (id : Z) (x : schedule)
| Ran (id : Z) (r : result unit)
| Finished (r : result unit).

Definition check {A} (m : M sst A) (k : A -> phase) : M sst phase :=
  r <- try m ;; ret (match r with Ok a => k a | Err e => Finished (Err e) end).

Definition advance (executionID checkInAt : Z) (ph : phase) : M sst phase :=
  match ph with
  | Called => check (on_mgr (lift (exec_Get executionID))) (fun x =>
      if negb (e_VendorType x =s= JobNameScheduler)
      then Finished (Err (New "the vendor type of execution isn't SCHEDULER")) else GotExecution x)
  | GotExecution x => check (sd_Get (e_VendorID x)) (GotSchedule (e_VendorID x))
  | GotSchedule id x => check (sd_UpdateRevision id checkInAt) (fun n => if n =? 0 then Finished (Ok tt) else Won id x)
  | Won id x =>
      match getCallbackFunc callbacks (sd_CallbackFuncName x) with
      | Err e => ret (Ran id (Err e))
      | Ok f => r <- try (run_callback (sd_CallbackFuncName x) f (sd_CallbackFuncParam x)) ;; ret (Ran id r)
      end
  | Ran id r => ret (Ran id r)
  | Finished r => ret (Finished r)
  end.

(** The handler is its four statements. *)
Lemma trigger_is_steps executionID checkInAt s :
  let adv := advance executionID checkInAt in
  match (p1 <- adv Called ;; p2 <- adv p1 ;; p3 <- adv p2 ;; adv p3) s with
  | (Ok (Finished r), s') | (Ok (Ran _ r), s') => triggerCallback callbacks executionID checkInAt s = (r, s')
  | _ => False
  end.
Proof.
  unfold triggerCallback, advance, check, bind, try, ret.
  destruct (on_mgr (lift (exec_Get executionID)) s) as [[x|e] s1]; [|done].
  destruct (negb (e_VendorType x =s= JobNameScheduler)); [done|].
  destruct (sd_Get (e_VendorID x) s1) as [[y|e] s2]; [|done].
  destruct (sd_UpdateRevision (e_VendorID x) checkInAt s2) as [[n|e] s3]; [|done].
  destruct (n =? 0); [done|]. unfold of_result.
  destruct (getCallbackFunc callbacks (sd_CallbackFuncName y)) as [f|e]; done.
Qed.

(** What happens to a schedule, with the number of the handler and the time of
    the check-in: a run of its callback, and the end of the transaction. *)
Inductive event :=
| RunOf (k : nat) (id at_ : Z)
| Committed (k : nat) (id at_ : Z)
| RolledBack (k : nat) (id at_ : Z).

(** The committed tables; the handlers at work, with their execution, check-in
    time and phase; and what has happened. *)
Record sys := mkSys { st : sst; handlers : gmap nat (Z * Z * phase); events : list event }.

(** The handler holds the row of the schedule, from its update on. *)
Definition holds (id : Z) (ph : phase) : Prop :=
  match ph with Won i _ | Ran i _ => i = id | _ => False end.

Definition locked (hs : gmap nat (Z * Z * phase)) (id : Z) : Prop :=
  exists k h, hs !! k = Some h /\ holds id h.2.

Definition run_event (k : nat) (at_ : Z) (ph : phase) : list event :=
  match ph with
  | Won id x => match getCallbackFunc callbacks (sd_CallbackFuncName x) with Ok _ => [RunOf k id at_] | Err _ => [] end
  | _ => []
  end.

(** What the rest of the system may do meanwhile: add schedules with new
    identifiers, delete schedules, and change anything but revisions; what
    others hold it waits for. *)
Record others (s s' : sst) : Prop := mkOthers {
  ot_next : next_schedule s <= next_schedule s';
  ot_old : forall id x', id < next_schedule s -> schedules s' !! id = Some x' ->
           exists x, schedules s !! id = Some x /\ sd_Revision x = sd_Revision x';
  ot_new : forall id x', schedules s' !! id = Some x' -> id < next_schedule s';
  ot_runs : runs s' = runs s;
}.

(** A check-in is delivered, as often as it may be.  The update of a revision
    waits for a handler that holds the row, and stays with its transaction,
    which ends in a commit after the callback has answered without error, and
    is rolled back otherwise, and may be at any time (the connection is lost,
    the commit fails). *)
Inductive step : sys -> sys -> Prop :=
| step_deliver s hs es k ex at_ :
    hs !! k = None -> step (mkSys s hs es) (mkSys s (<[k := (ex, at_, Called)]> hs) es)
| step_handler s hs es k ex at_ ph ph' s' :
    hs !! k = Some (ex, at_, ph) -> advance ex at_ ph s = (Ok ph', s') ->
    (forall id x, ph' = Won id x -> ~ locked hs id) ->
    step (mkSys s hs es)
      (mkSys (match ph' with Won _ _ => with_schedules s' (schedules s) | _ => s' end)
         (<[k := (ex, at_, ph')]> hs) (es ++ run_event k at_ ph))
| step_commit s hs es k ex at_ id y :
    hs !! k = Some (ex, at_, Ran id (Ok tt)) -> schedules s !! id = Some y ->
    step (mkSys s hs es)
      (mkSys (with_schedules s (<[id := set_revision at_ y]> (schedules s)))
         (<[k := (ex, at_, Finished (Ok tt))]> hs) (es ++ [Committed k id at_]))
| step_rollback s hs es k ex at_ ph id e :
    hs !! k = Some (ex, at_, ph) -> holds id ph ->
    step (mkSys s hs es) (mkSys s (<[k := (ex, at_, Finished (Err e))]> hs) (es ++ [RolledBack k id at_]))
| step_others s s' hs es :
    others s s' -> (forall id, locked hs id -> schedules s' !! id = schedules s !! id) ->
    step (mkSys s hs es) (mkSys s' hs es).

(** The runs among the events. *)
Definition is_run (e : event) : bool := match e with RunOf _ _ _ => true | _ => false end.
Definition run_count (es : list event) : nat := length (List.filter is_run es).

Lemma sdb_next {A} (f : gmap Z schedule -> result A * gmap Z schedule) s :
  next_schedule (sdb f s).2 = next_schedule s /\ runs (sdb f s).2 = runs s
  /\ (schedules (sdb f s).2 = schedules s \/ schedules (sdb f s).2 = (f (schedules s)).2)
  /\ forall a, (sdb f s).1 = Ok a -> (f (schedules s)).1 = Ok a /\ schedules (sdb f s).2 = (f (schedules s)).2.
Proof.
  unfold sdb. destruct (dbio get (mdb (sm s))) as [[d|e] d']; cbn;
    (split; [done|]); (split; [done|]).
  - split; [by right|done].
  - split; [by left|done].
Qed.

(** An update of a revision that takes effect, and one that does not. *)
Lemma update_revision_cases id at_ s :
  match sd_UpdateRevision id at_ s with
  | (Ok n, s') =>
      next_schedule s' = next_schedule s /\ runs s' = runs s
      /\ if n =? 0 then schedules s' = schedules s
         else exists x, schedules s !! id = Some x /\ sd_Revision x < at_
              /\ schedules s' = <[id := set_revision at_ x]> (schedules s)
  | (Err _, s') => next_schedule s' = next_schedule s /\ runs s' = runs s /\ schedules s' = schedules s
  end.
Proof.
  unfold sd_UpdateRevision.
  set (f := fun t : gmap Z schedule => match t !! id with
                | Some x => if sd_Revision x <? at_ then (Ok 1, <[id := set_revision at_ x]> t) else (Ok 0, t)
                | None => (Ok 0, t) end).
  destruct (sdb_next f s) as (H1 & H2 & H3 & H4).
  destruct (sdb f s) as [[n|e] s'] eqn:E; cbn in *.
  - split; [done|]. split; [done|]. destruct (H4 n eq_refl) as [H5 H6]. unfold f in H5, H6.
    destruct (schedules s !! id) as [x|]; cbn in *; [|by injection H5 as <-].
    destruct (Z.ltb_spec (sd_Revision x) at_); cbn in *; injection H5 as <-; cbn; [|done]. by exists x.
  - split; [done|]. split; [done|]. unfold sdb in E. destruct (dbio get (mdb (sm s))) as [[d|e'] d'].
    + exfalso. apply (f_equal fst) in E. cbn in E. unfold f in E. repeat case_match; done.
    + by injection E as _ <-.
Qed.

(** What one statement of a handler does to the schedules and the runs, as its
    transaction sees them. *)
Lemma advance_cases k ex at_ ph s ph' s' :
  advance ex at_ ph s = (Ok ph', s') ->
  next_schedule s' = next_schedule s
  /\ length (runs s') = (length (runs s) + run_count (run_event k at_ ph))%nat
  /\ match ph' with
     | Won id _ => run_event k at_ ph = [] /\ exists x, schedules s !! id = Some x /\ sd_Revision x < at_
     | _ => schedules s' = schedules s
     end
  /\ match ph with
     | Won id x => (exists r, ph' = Ran id r) /\ (run_event k at_ ph = [] \/ run_event k at_ ph = [RunOf k id at_])
     | Ran _ _ => ph' = ph /\ run_event k at_ ph = []
     | _ => run_event k at_ ph = [] /\ forall i r, ph' <> Ran i r
     end.
Proof.
  destruct ph as [|x|id x|id x|id r|r]; unfold advance, check, bind, try, run_event.
  - unfold on_mgr. destruct (lift (exec_Get ex) (sm s)) as [[x|e] g]; cbn; intros [= <- <-]; cbn; rewrite Nat.add_0_r; [|done].
    destruct (negb _); done.
  - unfold sd_Get. destruct (sdb_next (fun t => (match t !! e_VendorID x with
                 | Some x => Ok x
                 | None => Err (WrapNotFoundError ErrNoRows (id_message "schedule" (e_VendorID x)))
                 end, t)) s) as (H1 & H2 & H3 & H4). destruct (sdb _ s) as [[y|e] s1]; cbn in *; intros [= <- <-].
    + rewrite H2, Nat.add_0_r. by destruct H3.
    + rewrite H2, Nat.add_0_r. by destruct H3.
  - pose proof (update_revision_cases id at_ s) as H.
    destruct (sd_UpdateRevision id at_ s) as [[n|e] s1]; cbn; intros [= <- <-].
    + destruct H as (H1 & -> & H3). cbn. rewrite Nat.add_0_r. split; [done|]. split; [done|].
      destruct (n =? 0); [done|]. destruct H3 as (z & H3 & H4 & _). split_and!; [done|by exists z|done|done].
    + destruct H as (H1 & -> & H3). cbn. by rewrite Nat.add_0_r.
  - destruct (getCallbackFunc callbacks (sd_CallbackFuncName x)) as [f|e]; cbn; intros [= <- <-]; cbn.
    + split; [done|]. split; [by rewrite length_app|]. split; [done|]. split; [by eexists|by right].
    + split; [done|]. split; [lia|]. split; [done|]. split; [by eexists|by left].
  - intros [= <- <-]. cbn. by rewrite Nat.add_0_r.
  - intros [= <- <-]. cbn. by rewrite Nat.add_0_r.
Qed.

(** A place in a list with one more element. *)
Lemma snoc_split {A} (l : list A) x t1 y t2 :
  l ++ [x] = t1 ++ y :: t2 -> (x = y /\ t1 = l /\ t2 = []) \/ exists t3, t2 = t3 ++ [x] /\ l = t1 ++ y :: t3.
Proof.
  destruct t2 as [|z t2 _] using rev_ind; intros E.
  - apply app_inj_2 in E as [-> [= ->]]; [|done]. by left.
  - right. change (y :: t2 ++ [z]) with ((y :: t2) ++ [z]) in E. rewrite (assoc_L (++)) in E.
    apply app_inj_2 in E as [-> [= ->]]; [|done]. by exists t2.
Qed.

(** Whoever holds the row of a schedule is alone with it, and comes later than
    its revision. *)
Record locks (s : sst) (hs : gmap nat (Z * Z * phase)) : Prop := mkLocks {
  lk_row : forall k ex at_ ph id, hs !! k = Some (ex, at_, ph) -> holds id ph ->
           exists x, schedules s !! id = Some x /\ sd_Revision x < at_;
  lk_one : forall k1 h1 k2 h2 id, hs !! k1 = Some h1 -> holds id h1.2 ->
           hs !! k2 = Some h2 -> holds id h2.2 -> k1 = k2;
}.

(** What has happened: a commit is in the table for good; a run is over or its
    handler still holds the row; and how runs and commits follow each other. *)
Record traced (s : sst) (hs : gmap nat (Z * Z * phase)) (es : list event) : Prop := mkTraced {
  tr_done : forall k id at_, Committed k id at_ ∈ es ->
            id < next_schedule s /\ forall x, schedules s !! id = Some x -> at_ <= sd_Revision x;
  tr_open : forall t1 k id at_ t2, es = t1 ++ RunOf k id at_ :: t2 ->
            Committed k id at_ ∈ t2 \/ RolledBack k id at_ ∈ t2 \/ exists ex r, hs !! k = Some (ex, at_, Ran id r);
  tr_once : forall t1 k id at_ t2 k' at' t3, es = t1 ++ RunOf k id at_ :: t2 ++ RunOf k' id at' :: t3 ->
            RolledBack k id at_ ∈ t2 \/ (Committed k id at_ ∈ t2 /\ at_ < at');
  tr_after : forall t1 k id at_ t2 k' at', es = t1 ++ Committed k id at_ :: t2 -> RunOf k' id at' ∈ t2 -> at_ < at';
}.

Record sane (b : sys) : Prop := mkSane {
  sn_next : forall id x, schedules (st b) !! id = Some x -> id < next_schedule (st b);
  sn_locks : locks (st b) (handlers b);
  sn_traced : traced (st b) (handlers b) (events b);
}.

Lemma locks_insert s hs k ex at_ ph' :
  locks s hs ->
  (forall id, holds id ph' ->
     (exists ex0 ph, hs !! k = Some (ex0, at_, ph) /\ holds id ph)
     \/ (~ locked hs id /\ exists x, schedules s !! id = Some x /\ sd_Revision x < at_)) ->
  locks s (<[k := (ex, at_, ph')]> hs).
Proof.
  intros [R O] H. constructor.
  - intros k1 ex1 at1 ph1 id [[<- [= <- <- <-]]|[_ E]]%lookup_insert_Some L; [|by eapply R].
    destruct (H id L) as [(ex0 & ph & E & L0)|[_ ?]]; [by eapply R|done].
  - assert (Hk : forall k2 h2 id, k <> k2 -> holds id ph' -> hs !! k2 = Some h2 -> holds id h2.2 -> False).
    { intros k2 h2 id Ne L E L2. destruct (H id L) as [(ex0 & ph & E0 & L0)|[Hno _]].
      - apply Ne. by eapply (O k _ k2 h2).
      - apply Hno. by exists k2, h2. }
    intros k1 h1 k2 h2 id [[<- <-]|[N1 E1]]%lookup_insert_Some L1 [[<- <-]|[N2 E2]]%lookup_insert_Some L2; try done.
    + by destruct (Hk k2 h2 id).
    + by destruct (Hk k1 h1 id).
    + by eapply (O k1 h1 k2 h2).
Qed.

Lemma locks_schedules s s' hs :
  locks s hs -> (forall id, locked hs id -> schedules s' !! id = schedules s !! id) -> locks s' hs.
Proof.
  intros [R O] H. constructor; [|done]. intros k ex at_ ph id E L. rewrite H; [by eapply R|]. by exists k, (ex, at_, ph).
Qed.

Lemma traced_state s s' hs es :
  traced s hs es -> next_schedule s <= next_schedule s' ->
  (forall id x', id < next_schedule s -> schedules s' !! id = Some x' ->
     exists x, schedules s !! id = Some x /\ sd_Revision x <= sd_Revision x') ->
  traced s' hs es.
Proof.
  intros [D P O A] N H. constructor; try done. intros k id at_ Hin. destruct (D k id at_ Hin) as [D1 D2].
  split; [lia|]. intros x' E. destruct (H id x' D1 E) as (x & Ex & Le). specialize (D2 x Ex). lia.
Qed.

Lemma traced_move s hs es k h :
  traced s hs es -> (forall ex at_ id r, hs !! k = Some (ex, at_, Ran id r) -> h = (ex, at_, Ran id r)) ->
  traced s (<[k := h]> hs) es.
Proof.
  intros [D P O A] H. constructor; try done. intros t1 k1 id at_ t2 E.
  destruct (P t1 k1 id at_ t2 E) as [?|[?|(ex & r & E1)]]; [by left|by right; left|right; right].
  exists ex, r. destruct (decide (k = k1)) as [<-|Ne]; [|by rewrite lookup_insert_ne].
  rewrite lookup_insert_eq. f_equal. by apply H.
Qed.

(** A callback runs. *)
Lemma traced_run s hs es k ex at_ id x r :
  traced s hs es -> locks s hs -> hs !! k = Some (ex, at_, Won id x) ->
  traced s (<[k := (ex, at_, Ran id r)]> hs) (es ++ [RunOf k id at_]).
Proof.
  intros T L Hk. destruct (lk_row _ _ L _ _ _ _ _ Hk eq_refl) as (y & Hy & Lt).
  assert (T1 : traced s (<[k := (ex, at_, Ran id r)]> hs) es) by (apply traced_move; [done|congruence]).
  destruct T1 as [D P O A]. constructor.
  - intros k1 i t [Hin|Hin%list_elem_of_singleton]%elem_of_app; [by eapply D|done].
  - intros t1 k1 i t t2 [([= -> -> ->] & -> & ->)|(t3 & -> & E)]%snoc_split.
    + right. right. exists ex, r. apply lookup_insert_eq.
    + destruct (P _ _ _ _ _ E) as [?|[?|?]]; [left; set_solver|right; left; set_solver|by right; right].
  - intros t1 k1 i t t2 k' t' t3. change (t1 ++ RunOf k1 i t :: t2 ++ RunOf k' i t' :: t3)
      with (t1 ++ (RunOf k1 i t :: t2) ++ RunOf k' i t' :: t3). rewrite (assoc_L (++)).
    intros [([= <- <- <-] & E & ->)|(t4 & -> & E)]%snoc_split.
    + destruct (tr_open _ _ _ T _ _ _ _ _ (eq_sym E)) as [C|[C|(ex1 & r1 & E1)]]; [|by left|].
      * right. split; [done|]. assert (Hc : Committed k1 id t ∈ es) by (rewrite <- E; set_solver).
        destruct (D _ _ _ Hc) as [_ Hr]. specialize (Hr y Hy). lia.
      * exfalso. assert (k = k1) as <- by (by eapply (lk_one _ _ L k _ k1 _ id)). congruence.
    + rewrite <- (assoc_L (++)) in E. by eapply O.
  - intros t1 k1 i t t2 k' t' [(? & _ & _)|(t3 & -> & E)]%snoc_split; [done|].
    intros [Hin|[= -> -> ->]%list_elem_of_singleton]%elem_of_app; [by eapply A|].
    assert (Hc : Committed k1 id t ∈ es) by (rewrite E; set_solver).
    destruct (D _ _ _ Hc) as [_ Hr]. specialize (Hr y Hy). lia.
Qed.

(** A transaction ends. *)
Lemma traced_end s hs es k ex at_ ph id r e :
  traced s hs es -> hs !! k = Some (ex, at_, ph) -> holds id ph ->
  e = RolledBack k id at_
  \/ (e = Committed k id at_ /\ id < next_schedule s
      /\ forall x, schedules s !! id = Some x -> at_ <= sd_Revision x) ->
  traced s (<[k := (ex, at_, Finished r)]> hs) (es ++ [e]).
Proof.
  intros [D P O A] Hk Hh He. assert (Hnr : forall k1 i t, e <> RunOf k1 i t) by (intros; by destruct He as [->|[-> _]]).
  constructor.
  - intros k1 i t [Hin|Hin%list_elem_of_singleton]%elem_of_app; [by eapply D|]. subst e.
    destruct He as [|[[= -> -> ->] ?]]; done.
  - intros t1 k1 i t t2 [(-> & _)|(t3 & -> & E)]%snoc_split; [by destruct (Hnr k1 i t)|].
    destruct (P _ _ _ _ _ E) as [?|[?|(ex1 & r1 & E1)]]; [left; set_solver|right; left; set_solver|].
    destruct (decide (k = k1)) as [<-|Ne]; [|right; right; exists ex1, r1; by rewrite lookup_insert_ne].
    rewrite Hk in E1. injection E1 as <- <- ->. cbn in Hh. subst i.
    destruct He as [->|[-> _]]; [right; left|left]; set_solver.
  - intros t1 k1 i t t2 k' t' t3. change (t1 ++ RunOf k1 i t :: t2 ++ RunOf k' i t' :: t3)
      with (t1 ++ (RunOf k1 i t :: t2) ++ RunOf k' i t' :: t3). rewrite (assoc_L (++)).
    intros [(-> & _)|(t4 & -> & E)]%snoc_split; [by edestruct Hnr|]. rewrite <- (assoc_L (++)) in E. by eapply O.
  - intros t1 k1 i t t2 k' t' [(_ & _ & ->)|(t3 & -> & E)]%snoc_split; [by intros ?%elem_of_nil|].
    intros [Hin|Hin%list_elem_of_singleton]%elem_of_app; [by eapply A|]. by destruct (Hnr k' i t').
Qed.

Lemma sane_handler s hs es k ex at_ ph ph' s' :
  hs !! k = Some (ex, at_, ph) -> advance ex at_ ph s = (Ok ph', s') ->
  (forall id x, ph' = Won id x -> ~ locked hs id) -> sane (mkSys s hs es) ->
  sane (mkSys (match ph' with Won _ _ => with_schedules s' (schedules s) | _ => s' end)
         (<[k := (ex, at_, ph')]> hs) (es ++ run_event k at_ ph)).
Proof.
  intros Hk Ha Hl [N L T]. cbn in N, L, T. apply (advance_cases k) in Ha as (Hn & _ & Hs & Hp).
  set (s1 := match ph' with Won _ _ => with_schedules s' (schedules s) | _ => s' end).
  assert (E : schedules s1 = schedules s /\ next_schedule s1 = next_schedule s).
  { unfold s1. destruct ph'; cbn; (split; [|done]); done. }
  destruct E as [E1 E2].
  assert (T1 : forall hs es, traced s hs es -> traced s1 hs es).
  { intros hs0 es0 H0. apply (traced_state s); [done|lia|]. intros id x' _. rewrite E1. intros E. exists x'. split; [done|lia]. }
  assert (L1 : forall hs, locks s hs -> locks s1 hs) by (intros; apply (locks_schedules s); [done|by rewrite E1]).
  constructor; cbn.
  - intros id x. rewrite E1, E2. apply N.
  - apply L1, locks_insert; [done|]. intros id Hid. destruct ph' as [| | |i x|i r|r]; cbn in Hid; try done; subst i.
    + right. split; [by eapply Hl|]. apply Hs.
    + left. exists ex, ph. split; [done|]. destruct ph as [|x|i x|i x|i r1|r1]; try (by destruct Hp as [_ Hp]; destruct (Hp id r)).
      * destruct Hp as [[r2 [= ->]] _]. done.
      * destruct Hp as [[= -> _] _]. done.
  - apply T1. destruct ph as [|x|i x|i x|i r1|r1].
    1-3,6: destruct Hp as [-> Hp]; rewrite app_nil_r; apply traced_move; [done|]; congruence.
    + destruct Hp as [[r ->] [->| ->]]; [|by eapply traced_run]. rewrite app_nil_r. apply traced_move; [done|]. congruence.
    + destruct Hp as [-> ->]. rewrite app_nil_r. apply traced_move; [done|]. congruence.
Qed.

Lemma sane_commit s hs es k ex at_ id y :
  hs !! k = Some (ex, at_, Ran id (Ok tt)) -> schedules s !! id = Some y -> sane (mkSys s hs es) ->
  sane (mkSys (with_schedules s (<[id := set_revision at_ y]> (schedules s)))
         (<[k := (ex, at_, Finished (Ok tt))]> hs) (es ++ [Committed k id at_])).
Proof.
  intros Hk Hy [N L T]. cbn in N, L, T. set (s1 := with_schedules s _).
  destruct (lk_row _ _ L _ _ _ _ _ Hk eq_refl) as (y' & Hy' & Lt). rewrite Hy in Hy'. injection Hy' as <-.
  constructor; cbn.
  - intros i x [[<- _]|[_ E]]%lookup_insert_Some; [by eapply N|by eapply N].
  - assert (L0 : locks s (<[k := (ex, at_, Finished (Ok tt))]> hs)) by (by apply locks_insert).
    apply (locks_schedules s); [done|]. intros i (k1 & h1 & E1 & H1). cbn. rewrite lookup_insert_ne; [done|]. intros <-.
    apply lookup_insert_Some in E1 as [[<- <-]|[Ne E1]]; [done|]. apply Ne.
    by eapply (lk_one _ _ L k _ k1 h1 id).
  - eapply traced_end; [|exact Hk|done|right; split_and!; [done|by eapply N|]].
    + apply (traced_state s); [done|done|]. cbn. intros i x' _ [[<- <-]|[_ E]]%lookup_insert_Some; [|exists x'; split; [done|lia]].
      exists y. cbn. split; [done|lia].
    + cbn. rewrite lookup_insert_eq. intros x [= <-]. cbn. lia.
Qed.

Lemma sane_step b b' : step b b' -> sane b -> sane b'.
Proof.
  destruct 1 as [s hs es k ex at_ Hk|s hs es k ex at_ ph ph' s' Hk Ha Hl|s hs es k ex at_ id y Hk Hy
    |s hs es k ex at_ ph id e Hk Hh|s s' hs es [O1 O2 O3 _] Hl].
  - intros [N L T]. constructor; [done|by apply locks_insert|]. apply traced_move; [done|]. cbn. congruence.
  - by apply sane_handler.
  - by apply sane_commit.
  - intros [N L T]. constructor; [done|by apply locks_insert|]. eapply traced_end; [done..|by left].
  - intros [N L T]. constructor; [done|by apply (locks_schedules s)|]. apply (traced_state s); [done..|].
    intros id x' Hid E. destruct (O2 id x' Hid E) as (x & Ex & Er). exists x. split; [done|]. lia.
Qed.

Lemma run_count_app l k : run_count (l ++ k) = (run_count l + run_count k)%nat.
Proof. unfold run_count. by rewrite List.filter_app, length_app. Qed.

(** The runs that were recorded are those of the events. *)
Lemma runs_counted n b b' :
  step b b' -> length (runs (st b)) = (n + run_count (events b))%nat ->
  length (runs (st b')) = (n + run_count (events b'))%nat.
Proof.
  destruct 1 as [s hs es k ex at_ Hk|s hs es k ex at_ ph ph' s' Hk Ha Hl|s hs es k ex at_ id y Hk Hy
    |s hs es k ex at_ ph id e Hk Hh|s s' hs es [_ _ _ O4] Hl]; cbn [st events]; rewrite ?run_count_app; intros H.
  - done.
  - apply (advance_cases k) in Ha as (_ & Hr & _). destruct ph'; cbn [runs with_schedules]; lia.
  - change (run_count [Committed k id at_]) with 0%nat. cbn [runs with_schedules]. lia.
  - change (run_count [RolledBack k id at_]) with 0%nat. lia.
  - by rewrite O4.
Qed.

(** C22: check-ins and the callbacks they run, when check-ins are delivered any
    number of times, each handled in the transaction of its request, in any
    interleaving of the handlers with each other, with the ends of their
    transactions and with the rest of the system.  Two runs of the callback of
    one schedule never overlap: before the second, the transaction of the first
    has ended.  If it was committed, the second run is for a later check-in;
    so a check-in whose callback ran again was rolled back before.  Once a
    check-in is committed, no run for it or an earlier one follows.  And these
    are all the runs there are. *)
Theorem no_duplicate_trigger s b :
  (forall id x, schedules s !! id = Some x -> id < next_schedule s) ->
  rtc step (mkSys s ∅ []) b ->
  (forall t1 k id at_ t2 k' at' t3, events b = t1 ++ RunOf k id at_ :: t2 ++ RunOf k' id at' :: t3 ->
     RolledBack k id at_ ∈ t2 \/ (Committed k id at_ ∈ t2 /\ at_ < at'))
  /\ (forall t1 k id at_ t2 k' at', events b = t1 ++ Committed k id at_ :: t2 ->
        RunOf k' id at' ∈ t2 -> at_ < at')
  /\ length (runs (st b)) = (length (runs s) + run_count (events b))%nat.
Proof.
  intros N R. assert (Hn : forall l t1 (e : event) t2, l = [] -> l <> t1 ++ e :: t2) by (by intros ? [] ? ? ->).
  assert (H0 : sane (mkSys s ∅ []) /\ length (runs s) = (length (runs s) + run_count [])%nat).
  { split; [|cbn; lia]. constructor; [done|by constructor|]. constructor.
    - by intros k id at_ ?%elem_of_nil.
    - intros t1 k id at_ t2 E. by apply Hn in E.
    - intros t1 k id at_ t2 k' at' t3 E. by apply Hn in E.
    - intros t1 k id at_ t2 k' at' E. by apply Hn in E. }
  assert (Hi : forall c d n, rtc step c d -> sane c /\ length (runs (st c)) = (n + run_count (events c))%nat ->
               sane d /\ length (runs (st d)) = (n + run_count (events d))%nat).
  { intros c d n Hr. induction Hr as [c|c c' d Hs _ IH]; [done|]. intros [H1 H2]. apply IH.
    split; [by eapply sane_step|by eapply runs_counted]. }
  destruct (Hi _ _ _ R H0) as [H1 H2]. destruct (sn_traced _ H1) as [_ _ Ho Ha]. done.
Qed.
End Triggers.

(** A check-in as its endpoint handles it: the whole handler is one transaction
    of the request, whose error response rolls it back. *)
Definition check_in (callbacks : registry) (executionID checkInAt : Z) : M sst unit :=
  WithTransaction (triggerCallback callbacks executionID checkInAt).

(** A callback that fails is not lost: with the error the revision goes back to
    what it was, so that the check-in, delivered again, runs the callback again,
    as often as it fails. *)
Theorem failed_callback_is_run_again callbacks s ex at_ x sched f e :
  quiet (mdb (sm s)) -> execs (mdb (sm s)) !! ex = Some x -> e_VendorType x = JobNameScheduler ->
  schedules s !! e_VendorID x = Some sched -> sd_Revision sched < at_ ->
  callbacks !! sd_CallbackFuncName sched = Some f -> f (sd_CallbackFuncParam sched) = Err e ->
  let run := (sd_CallbackFuncName sched, sd_CallbackFuncParam sched) in
  check_in callbacks ex at_ s = (Err e, mkSst (sm s) (schedules s) (next_schedule s) (runs s ++ [run])).
Proof.
  intros Q Hx Hv Hs Hrev Hf He run.
  assert (Hget : on_mgr (lift (exec_Get ex)) s = (Ok x, s)).
  { unfold on_mgr, lift, exec_Get. rewrite quiet_dbio by done. rewrite Hx. cbn. rewrite with_mdb_id. by destruct s. }
  assert (Ht : triggerCallback callbacks ex at_ s
    = (Err e, mkSst (sm s) (<[e_VendorID x := set_revision at_ sched]> (schedules s)) (next_schedule s) (runs s ++ [run]))).
  { unfold triggerCallback, bind. rewrite Hget. rewrite Hv. cbn. unfold sd_Get, sd_UpdateRevision.
    rewrite quiet_sdb by done. cbn. rewrite Hs. cbn. rewrite quiet_sdb by done. cbn. rewrite Hs.
    rewrite (proj2 (Z.ltb_lt _ _) Hrev). cbn. unfold of_result, getCallbackFunc. rewrite Hf. cbn.
    unfold run_callback. by rewrite He. }
  unfold check_in, WithTransaction. rewrite quiet_sdb by done. cbn [fst snd].
  replace (with_schedules s (schedules s)) with s by (by destruct s). rewrite Ht. f_equal.
  unfold roll_back. cbn. f_equal. destruct s as [[d su ac] t n r]. by destruct d.
Qed.

(** ** Scheduling *)

(** The schedules that others add and delete. *)
Lemma create_others x s : (forall id y, schedules s !! id = Some y -> id < next_schedule s) -> others s (sd_Create x s).2.
Proof.
  intros N. unfold sd_Create.
  set (f := fun t : gmap Z schedule => if existsb (same_vendor x) (map_to_list t).*2
              then (Err (WrapConflictError (PgError "23505") "schedule already exists"), t)
              else (Ok tt, <[next_schedule s := x]> t)).
  assert (Hf : (f (schedules s)).2 = schedules s \/ (f (schedules s)).2 = <[next_schedule s := x]> (schedules s)).
  { unfold f. case_match; auto. }
  destruct (sdb_next f s) as (_ & H2 & H3 & _).
  assert (E : forall i y, schedules (sdb f s).2 !! i = Some y -> schedules s !! i = Some y \/ i = next_schedule s).
  { intros i y. destruct H3 as [-> | ->]; [by left|]. destruct Hf as [-> | ->]; [by left|].
    destruct (decide (i = next_schedule s)) as [->|Hne]; [by right|]. rewrite lookup_insert_ne by done. by left. }
  destruct (sdb f s) as [[[]|e] s'] eqn:Es; cbn in *; (constructor; cbn; [lia| | |done]).
  all: first [ intros id y Hid Hy; destruct (E id y Hy) as [Hold| ->]; [by exists y|lia]
             | intros id y Hy; destruct (E id y Hy) as [Hold| ->]; [specialize (N id y Hold); lia|lia] ].
Qed.

Lemma delete_others id s : (forall i y, schedules s !! i = Some y -> i < next_schedule s) -> others s (sd_Delete id s).2.
Proof.
  intros N. unfold sd_Delete. set (f := fun t : gmap Z schedule => match t !! id with
                | Some _ => (Ok tt, delete id t)
                | None => (Err (WithMessage (NotFoundError None) (id_message "schedule" id)), t) end).
  destruct (sdb_next f s) as (H1 & H2 & H3 & _).
  assert (E : forall i y, schedules (sdb f s).2 !! i = Some y -> schedules s !! i = Some y).
  { intros i y. destruct H3 as [-> | ->]; [done|]. unfold f. case_match; cbn; [|done].
    intros Hy. by apply lookup_delete_Some in Hy as [_ ?]. }
  constructor; [lia| |intros i y Hy; rewrite H1; eauto|done]. intros i y _ Hy. eauto.
Qed.

Section Spec.
Context (SubmitJob : JobData -> result string) (PostAction : string -> string -> result unit).
Context {Attrs : Type} (Marshal : Attrs -> result string) (no_attrs : Attrs) (coreURL : string).
Context (cron_ok : string -> bool) (json_params : string -> Attrs) (callbacks : registry).

(** Scheduling is all or nothing.  With a valid cron and a registered
    callback, a vendor that has no schedule yet and a job service that takes the
    job, the schedule, its execution and its task with the job's identifier are
    stored, and the job runs with the seconds of the cron chosen at random and
    the other fields as given.  When the job service refuses, its error is
    returned and the three tables are as before. *)
Theorem schedule_all_or_nothing vendorType vendorID cronType cron name paramsData extrasData data pdata rand now s :
  let d := mdb (sm s) in
  let id := next_schedule s in
  let eid := next_exec d in
  let cron' := randomize rand cron in
  let x := mkSchedule vendorType vendorID cronType cron' 0 extrasData name paramsData now now in
  let exec := mkExecution JobNameScheduler id Status.RunningStatus "" "MANUAL" pdata now now (Some zero_time) 0 in
  let jb := mkJob JobNameScheduler None (Some (mkJobMetadata "Periodic" 0 cron' false)) in
  let jd := job_data coreURL (next_task d) jb in
  quiet d -> tasks d !! next_task d = None ->
  vendorType <> "" -> cron_ok cron' = true -> callbackFuncExist callbacks name = true ->
  existsb (same_vendor x) (map_to_list (schedules s)).*2 = false ->
  Marshal (if paramsData =s= "" then no_attrs else json_params paramsData) = Ok pdata -> Marshal no_attrs = Ok data ->
  let res := Schedule SubmitJob PostAction Marshal no_attrs coreURL cron_ok json_params callbacks
               vendorType vendorID cronType cron name (Ok paramsData) (Ok extrasData) rand now s in
  let s' := res.2 in
  submitted (sm s') = submitted (sm s) ++ [jd]
  /\ match SubmitJob jd with
     | Ok jobID =>
         res.1 = Ok id /\ schedules s' = <[id := x]> (schedules s)
         /\ execs (mdb (sm s')) = <[eid := exec]> (execs d)
         /\ tasks (mdb (sm s')) = <[next_task d := new_task (next_task d) eid exec jobID data now]> (tasks d)
     | Err e =>
         res.1 = Err e /\ schedules s' = schedules s /\ execs (mdb (sm s')) = execs d /\ tasks (mdb (sm s')) = tasks d
     end.
Proof.
  intros d id eid cron' x exec jb jd Q F Hv Hc Hcb Hs Hp Hd res s'.
  set (params := if paramsData =s= "" then no_attrs else json_params paramsData) in *.
  set (d1 := mkDb (<[eid := exec]> (execs d)) (tasks d) (eid + 1) (next_task d) (outdate d) (faults d) (db_down d)).
  set (g1 := mkMgr d1 (submitted (sm s)) (actions (sm s))).
  assert (Hins : sdb (fun t => (Ok tt, t)) s = (Ok tt, s)).
  { rewrite quiet_sdb by done. by destruct s. }
  assert (Hcr : sd_Create x s = (Ok id, mkSst (sm s) (<[id := x]> (schedules s)) (id + 1) (runs s))).
  { unfold sd_Create. rewrite quiet_sdb by done. by rewrite Hs. }
  assert (Hex : CreateExecution Marshal no_attrs JobNameScheduler id "MANUAL" (Some params) now (sm s) = (Ok eid, g1)).
  { unfold CreateExecution, bind, of_result, extras. cbn. rewrite Hp. unfold lift, exec_Create. rewrite quiet_dbio by done. done. }
  pose proof (create_quiet SubmitJob Marshal no_attrs coreURL eid jb None data now g1 exec) as Hcreate.
  cbv zeta in Hcreate. cbn [mdb g1 tasks next_task d1 execs] in Hcreate.
  specialize (Hcreate Q F Hd (lookup_insert_eq _ _ _)). fold jd in Hcreate.
  assert (Hens : ensureTask SubmitJob Marshal no_attrs coreURL x params now s
    = match SubmitJob jd with
      | Ok jobID => (Ok (id, next_task d), mkSst (Create SubmitJob Marshal no_attrs coreURL eid jb None now g1).2
                        (<[id := x]> (schedules s)) (id + 1) (runs s))
      | Err e => (Err e, mkSst (Create SubmitJob Marshal no_attrs coreURL eid jb None now g1).2
                        (<[id := x]> (schedules s)) (id + 1) (runs s))
      end).
  { unfold ensureTask, bind. rewrite Hcr. unfold on_mgr at 1. cbn [sm]. rewrite Hex. cbn [fst snd].
    unfold on_mgr. cbn [sm with_sm]. change (sd_CRON x) with cron'. fold jb. rewrite Hcreate. by destruct (SubmitJob jd). }
  set (left_by e t := mkMgr (mkDb e t (eid + 1) (next_task d + 1) (outdate d) (faults d) (db_down d)) (submitted (sm s) ++ [jd]) (actions (sm s))).
  assert (Hres : res = match SubmitJob jd with
    | Ok jobID => (Ok id, mkSst (left_by (<[eid := exec]> (execs d))
                                   (<[next_task d := new_task (next_task d) eid exec jobID data now]> (tasks d)))
                            (<[id := x]> (schedules s)) (id + 1) (runs s))
    | Err e => (Err e, mkSst (left_by (execs d) (tasks d)) (schedules s) (id + 1) (runs s))
    end).
  { unfold res, Schedule. rewrite (proj2 (String.eqb_neq _ _) Hv). fold cron'. rewrite Hc, Hcb. cbn [negb].
    unfold bind, of_result. fold x. fold params. unfold WithTransaction. rewrite Hins, Hens, Hcreate.
    destruct (SubmitJob jd) as [jobID|e]; [|done].
    assert (Hnf : forall d', faults d' = faults d -> failed_between d d' = false).
    { intros d' E. unfold failed_between. by rewrite E, Nat.sub_diag. }
    rewrite Hnf by done. rewrite quiet_sdb by done. cbn.
    unfold try, ret, on_mgr, lift, task_Get. rewrite quiet_dbio by done. cbn. rewrite lookup_insert_eq. done. }
  unfold s'. rewrite Hres. by destruct (SubmitJob jd).
Qed.
End Spec.

(** ** Witnesses *)

Definition sample_callbacks : registry := {["GC" := fun p => if p =s= "bad" then Err (Plain "refused") else Ok tt]}.

Definition sample_sched (param : string) : schedule := mkSchedule "GC" 0 "Daily" "7 0 0 * * *" 0 "" "GC" param 1 1.

(** One schedule with its execution. *)
Definition sample_sst (param : string) : sst :=
  mkSst (mkMgr (mkDb {[3 := mkExecution JobNameScheduler 5 Status.RunningStatus "" "MANUAL" "{}" 1 1 None 0]} ∅ 4 1 [] [] None) [] [])
    {[5 := sample_sched param]} 6 [].

(** Steps of one handler, as functions. *)
Inductive action := Deliver (ex at_ : Z) | Go | Commit | Rollback.

Definition holds_b (id : Z) (ph : phase) : bool :=
  match ph with Won i _ | Ran i _ => i =? id | _ => false end.

Definition take_step (b : sys) (a : nat * action) : sys :=
  let k := a.1 in
  match a.2, handlers b !! k with
  | Deliver ex at_, None => mkSys (st b) (<[k := (ex, at_, Called)]> (handlers b)) (events b)
  | Go, Some (ex, at_, ph) =>
      match advance sample_callbacks ex at_ ph (st b) with
      | (Ok ph', s') =>
          match ph' with
          | Won id _ =>
              if bool_decide (map_Forall (fun _ h => holds_b id h.2 = false) (handlers b))
              then mkSys (with_schedules s' (schedules (st b))) (<[k := (ex, at_, ph')]> (handlers b))
                     (events b ++ run_event sample_callbacks k at_ ph)
              else b
          | _ => mkSys s' (<[k := (ex, at_, ph')]> (handlers b)) (events b ++ run_event sample_callbacks k at_ ph)
          end
      | (Err _, _) => b
      end
  | Commit, Some (ex, at_, Ran id (Ok tt)) =>
      match schedules (st b) !! id with
      | Some y => mkSys (with_schedules (st b) (<[id := set_revision at_ y]> (schedules (st b))))
                    (<[k := (ex, at_, Finished (Ok tt))]> (handlers b)) (events b ++ [Committed k id at_])
      | None => b
      end
  | Rollback, Some (ex, at_, Ran id _) =>
      mkSys (st b) (<[k := (ex, at_, Finished (Err (Sentinel "non success status code")))]> (handlers b)) (events b ++ [RolledBack k id at_])
  | _, _ => b
  end.

Lemma take_one b a : rtc (step sample_callbacks) b (take_step b a).
Proof.
  destruct b as [s hs es], a as [k a]. unfold take_step. cbn [fst snd st handlers events].
  destruct (hs !! k) as [[[ex at_] ph]|] eqn:Ek, a as [ex1 at1| | |]; try reflexivity.
  - destruct (advance sample_callbacks ex at_ ph s) as [[ph'|e] s'] eqn:Ea; [|reflexivity].
    pose proof (step_handler sample_callbacks s hs es k ex at_ ph ph' s' Ek Ea) as H.
    destruct ph' as [| | |id x| |]; try (by apply rtc_once, H).
    case_bool_decide as Hl; [|reflexivity]. apply rtc_once, H. intros i y [= <- <-] (k1 & h1 & E1 & L1).
    specialize (Hl k1 h1 E1). cbn in Hl. destruct h1 as [h1 ph1]. cbn in *.
    destruct ph1; try done; cbn in *; apply Z.eqb_neq in Hl; congruence.
  - destruct ph as [| | | |id [[]|]|]; try reflexivity. destruct (schedules s !! id) as [y|] eqn:Ey; [|reflexivity].
    by apply rtc_once, step_commit.
  - destruct ph as [| | | |id r|]; try reflexivity. apply rtc_once. by eapply step_rollback.
  - apply rtc_once. by apply step_deliver.
Qed.

Lemma take_steps l b : rtc (step sample_callbacks) b (foldl take_step b l).
Proof. revert b. induction l as [|a l IH]; intros b; cbn; [reflexivity|]. etrans; [apply take_one|apply IH]. Qed.

(** A check-in is delivered three times.  The first handler's transaction is
    rolled back after the callback; the second waits for it, runs the callback
    and commits; and the third comes after and does nothing. *)
Definition sample_run : sys :=
  foldl take_step (mkSys (sample_sst "p") ∅ [])
    [(0, Deliver 3 100); (0, Go); (0, Go); (0, Go); (1, Deliver 3 100); (1, Go); (1, Go); (1, Go); (0, Go);
     (0, Rollback); (1, Go); (1, Go); (1, Commit); (2, Deliver 3 100); (2, Go); (2, Go); (2, Go)]%nat.

Lemma no_duplicate_trigger_witness :
  events sample_run = [RunOf 0 5 100; RolledBack 0 5 100; RunOf 1 5 100; Committed 1 5 100]
  /\ (RolledBack 0 5 100 ∈ [RolledBack 0 5 100] \/ (Committed 0 5 100 ∈ [RolledBack 0 5 100] /\ 100 < 100))
  /\ length (runs (st sample_run)) = 2%nat.
Proof.
  assert (E : events sample_run = [RunOf 0 5 100; RolledBack 0 5 100; RunOf 1 5 100; Committed 1 5 100])
    by (vm_compute; reflexivity).
  split; [exact E|].
  destruct (no_duplicate_trigger sample_callbacks (sample_sst "p") sample_run) as (H1 & _ & H3).
  - intros id x Hx. cbn in Hx. apply lookup_singleton_Some in Hx as [<- _]. done.
  - apply take_steps.
  - split; [by apply (H1 [] 0%nat 5 100 _ 1%nat 100 [Committed 1 5 100])|]. by rewrite H3, E.
Defined.

Lemma failed_callback_is_run_again_witness :
  check_in sample_callbacks 3 100 (sample_sst "bad")
  = (Err (Plain "refused"), mkSst (sm (sample_sst "bad")) (schedules (sample_sst "bad")) 6 [("GC", "bad")]%string).
Proof.
  apply (failed_callback_is_run_again sample_callbacks (sample_sst "bad") 3 100
    (mkExecution JobNameScheduler 5 Status.RunningStatus "" "MANUAL" "{}" 1 1 None 0) (sample_sched "bad")
    (fun p => if p =s= "bad" then Err (Plain "refused") else Ok tt) (Plain "refused")); done.
Defined.

(** A job service that refuses. *)
Lemma schedule_all_or_nothing_witness :
  let res := Schedule (fun _ => Err (Plain "refused")) (fun _ _ => Ok tt) (fun _ : unit => Ok "{}"%string) tt "http://core"
    (fun _ => true) (fun _ => tt) sample_callbacks "GC" 7 "Daily" "0 0 0 * * *" "GC" (Ok "p"%string) (Ok ""%string) 7 50 (sample_sst "p") in
  res.1 = Err (Plain "refused") /\ schedules res.2 = {[5 := sample_sched "p"]}.
Proof.
  intros res.
  destruct (schedule_all_or_nothing (fun _ => Err (Plain "refused")) (fun _ _ => Ok tt) (fun _ : unit => Ok "{}"%string) tt "http://core"
    (fun _ => true) (fun _ => tt) sample_callbacks "GC" 7 "Daily" "0 0 0 * * *" "GC" "p" "" "{}" "{}" 7 50 (sample_sst "p"))
    as (_ & H1 & H2 & _); [done..|]. by split.
Defined.
