(* ===== verification/SchedulerSpec.v ===== *)
(** * Scheduler: schedules that stay in step with their owners

    What a successful scheduling or unscheduling leaves in the table, whatever the
    job service does, and the relation between the table and the plans of a
    component: each planned time has its one schedule, nothing else has any. *)

From S2P Require Import Prelude Errors JobStatus TaskDao TaskManager Scheduler.

Definition of_vendor (v : string) (id : Z) (x : schedule) : bool := (sd_VendorType x =s= v) && (sd_VendorID x =? id).

(** ** What every run of an operation does *)

(** The state after an operation, whatever its outcome, is related to the one before. *)
Definition along {St A} (R : relation St) (m : M St A) : Prop := forall s, R s (m s).2.

Section Along.

Context {St : Type} (R : relation St) `{!PreOrder R}.

Lemma along_of_result {A} (r : result A) : along R (of_result r).
Proof. by intros s. Qed.

Lemma along_bind {A B} (m : M St A) (k : A -> M St B) : along R m -> (forall a, along R (k a)) -> along R (bind m k).
Proof.
  intros Hm Hk s. unfold bind. pose proof (Hm s) as H. destruct (m s) as [[a|e] s1]; [|exact H].
  etrans; [exact H|apply Hk].
Qed.

Lemma along_try {A} (m : M St A) : along R m -> along R (try m).
Proof. intros H s. unfold try. pose proof (H s). by destruct (m s). Qed.

Lemma along_iterM {A} (f : A -> M St unit) l : (forall a, along R (f a)) -> along R (iterM f l).
Proof. intros H. induction l as [|x l IH]; [by intros s|]. by apply along_bind. Qed.

End Along.

(** *** Requests

    The API runs each request in a transaction, which is rolled back when the
    request fails or a statement of it did. *)

Section Requests.

Context {St : Type} (sched_of : St -> sst) (rolled_back : St -> St -> St).

Definition in_request {A} (m : M St A) : M St A := fun s =>
  match m s with
  | (Err e, s') => (Err e, rolled_back s s')
  | (Ok a, s') =>
      if failed_between (mdb (sm (sched_of s))) (mdb (sm (sched_of s')))
      then (Err (Sentinel "commit unexpectedly resulted in rollback"), rolled_back s s')
      else (Ok a, s')
  end.

Lemma in_request_inv {A} (m : M St A) (I : St -> Prop) s :
  I (rolled_back s (m s).2) -> (forall a s', m s = (Ok a, s') -> I s') -> I (in_request m s).2.
Proof.
  intros H K. unfold in_request. destruct (m s) as [[a|e] s']; cbn in *; [|done].
  destruct (failed_between _ _); [done|by eapply K].
Qed.

End Requests.

Section Removing.

Context (PostAction : string -> string -> result unit).

(** ** Removing schedules *)

Lemma sdb_ok {A} (f : gmap Z schedule -> result A * gmap Z schedule) s a s' :
  sdb f s = (Ok a, s') -> f (schedules s) = (Ok a, schedules s') /\ next_schedule s' = next_schedule s.
Proof.
  unfold sdb. destruct (dbio get _) as [[d|e] d']; [|done]. destruct (f (schedules s)) as [r t] eqn:E. cbn.
  intros [= -> <-]. done.
Qed.

Lemma UnScheduleByID_ok id now world s s' :
  UnScheduleByID PostAction id now world s = (Ok tt, s') ->
  schedules s' = delete id (schedules s) /\ next_schedule s' = next_schedule s.
Proof.
  unfold UnScheduleByID. intros E. apply bind_inv in E as (l & s1 & E1 & E).
  apply bind_inv in E as (u & s2 & E2 & E).
  assert (S1 : schedules s1 = schedules s /\ next_schedule s1 = next_schedule s).
  { unfold on_mgr in E1. by injection E1 as _ <-. }
  assert (S2 : schedules s2 = schedules s1 /\ next_schedule s2 = next_schedule s1).
  { destruct l as [|[eid x] l]; [by injection E2 as _ <-|].
    apply bind_inv in E2 as (r & s3 & E3 & E2).
    assert (S3 : schedules s3 = schedules s1 /\ next_schedule s3 = next_schedule s1).
    { unfold try, on_mgr in E3. by injection E3 as _ <-. }
    destruct r as [?|e]; [|destruct (is_timeout e); [|done]]; unfold on_mgr in E2; injection E2 as _ <-; exact S3. }
  apply sdb_ok in E as [E N].
  destruct (schedules s2 !! id) as [x|] eqn:L; [|done]. injection E as <-.
  destruct S1 as [A1 B1], S2 as [A2 B2]. split; [by rewrite A2, A1|lia].
Qed.

Lemma iter_unschedule now world l s s' :
  iterM (fun r : Z * schedule => UnScheduleByID PostAction r.1 now world) l s = (Ok tt, s') ->
  next_schedule s' = next_schedule s
  /\ forall k, schedules s' !! k = if bool_decide (k ∈ l.*1) then None else schedules s !! k.
Proof.
  revert s. induction l as [|[i x] l IH]; intros s; cbn [iterM].
  - intros [= <-]. split; [done|]. intros k. by rewrite bool_decide_eq_false_2 by set_solver.
  - intros E. apply bind_inv in E as ([] & s1 & E1 & E). apply UnScheduleByID_ok in E1 as [S1 N1].
    apply IH in E as [N S]. split; [lia|]. intros k. rewrite S, S1. cbn [fmap list_fmap fst].
    destruct (decide (k = i)) as [->|Nk].
    + rewrite lookup_delete_eq. rewrite (bool_decide_eq_true_2 (i ∈ i :: l.*1)) by set_solver.
      by destruct (bool_decide _).
    + rewrite lookup_delete_ne by done.
      destruct (decide (k ∈ l.*1)) as [H|H].
      * rewrite !bool_decide_eq_true_2 by set_solver. done.
      * rewrite !bool_decide_eq_false_2 by set_solver. done.
Qed.



Lemma UnScheduleByVendor_ok v id now world s s' :
  0 < id -> UnScheduleByVendor PostAction v id now world s = (Ok tt, s') ->
  next_schedule s' = next_schedule s
  /\ forall k, schedules s' !! k = match schedules s !! k with
                                  | Some x => if of_vendor v id x then None else Some x
                                  | None => None
                                  end.
Proof.
  intros P E. apply bind_inv in E as (l & s1 & E1 & E). apply sdb_ok in E1 as [E1 N1].
  injection E1 as <- S1. apply iter_unschedule in E as [N S]. split; [lia|]. intros k. rewrite S, <- S1.
  assert (G : (id >? 0) = true) by (apply Z.gtb_lt; lia).
  destruct (schedules s !! k) as [x|] eqn:L; [|by destruct (bool_decide _)].
  destruct (of_vendor v id x) eqn:O.
  - rewrite bool_decide_eq_true_2; [done|]. apply list_elem_of_fmap. exists (k, x). split; [done|].
    apply list_elem_of_In, List.filter_In. split; [by apply list_elem_of_In, elem_of_map_to_list|].
    cbn. apply andb_true_iff in O as [O1 O2]. by rewrite O1, O2, orb_true_r.
  - rewrite bool_decide_eq_false_2; [done|]. intros ([k' x'] & -> & H)%list_elem_of_fmap.
    apply list_elem_of_In, List.filter_In in H as [H V]. apply list_elem_of_In, elem_of_map_to_list in H.
    cbn in L. assert (x' = x) as -> by congruence. cbn in V. rewrite G in V. cbn in V.
    unfold of_vendor in O. by rewrite V in O.
Qed.

(** Whatever the outcome, only schedules with these keys are removed. *)
Definition only_removes (K : list Z) (s s' : sst) : Prop :=
  forall k, schedules s' !! k = schedules s !! k \/ (k ∈ K /\ schedules s' !! k = None).

#[local] Instance only_removes_preorder K : PreOrder (only_removes K).
Proof.
  split; [by intros s k; left|]. intros s1 s2 s3 H1 H2 k.
  destruct (H2 k) as [E|?]; [|by right]. rewrite E. apply H1.
Qed.

Lemma removes_on_mgr {A} K (m : M mgr A) : along (only_removes K) (on_mgr m).
Proof. intros s k. by left. Qed.

Lemma UnScheduleByID_removes K id now world : id ∈ K -> along (only_removes K) (UnScheduleByID PostAction id now world).
Proof.
  intros H. unfold UnScheduleByID. apply along_bind; [apply _|apply removes_on_mgr|]. intros l.
  apply along_bind; [apply _| |].
  - destruct l as [|[eid x] l]; [by intros s k; left|]. apply along_bind; [apply _|apply along_try, removes_on_mgr|].
    intros [?|e]; [apply removes_on_mgr|]. destruct (is_timeout e); [apply removes_on_mgr|by intros s k; left].
  - intros _ s k. unfold sd_Delete, sdb. destruct (dbio get _) as [[d|e] d']; cbn; [|by left].
    destruct (schedules s !! id) eqn:E; cbn; [|by left]. destruct (decide (id = k)) as [<-|N].
    + right. split; [done|]. apply lookup_delete_eq.
    + left. by rewrite lookup_delete_ne.
Qed.

(** Unscheduling that fails half-way has only removed schedules of its vendor. *)
Lemma UnScheduleByVendor_any v id now world s :
  0 < id -> forall k, schedules (UnScheduleByVendor PostAction v id now world s).2 !! k = schedules s !! k
    \/ (schedules (UnScheduleByVendor PostAction v id now world s).2 !! k = None
        /\ exists x, schedules s !! k = Some x /\ of_vendor v id x = true).
Proof.
  intros P. unfold UnScheduleByVendor, bind, sd_List, sdb. destruct (dbio get _) as [[d|e] d']; cbn [fst snd]; [|by left].
  set (l := List.filter _ _). set (s1 := with_schedules _ _).
  assert (H : along (only_removes l.*1) (iterM (fun r : Z * schedule => UnScheduleByID PostAction r.1 now world) l)).
  { assert (Hl : forall r, r ∈ l -> r.1 ∈ l.*1) by (intros; by apply list_elem_of_fmap_2).
    revert Hl. generalize (l.*1) as K. intros K. induction l as [|r l IH]; intros Hl; [by intros ? k; left|].
    cbn [iterM]. apply along_bind; [apply _|apply UnScheduleByID_removes, Hl; by left|]. intros _. apply IH.
    intros r' Hr. apply Hl. by right. }
  intros k. destruct (H s1 k) as [E|[Hk E]]; [by left|right]. split; [done|].
  apply list_elem_of_fmap in Hk as ([k' x] & -> & Hx). apply list_elem_of_In, List.filter_In in Hx as [Hx V].
  apply list_elem_of_In, elem_of_map_to_list in Hx. exists x. split; [done|]. cbn in V.
  assert (G : (id >? 0) = true) by (apply Z.gtb_lt; lia). rewrite G in V. exact V.
Qed.

End Removing.

Section Adding.

Context (SubmitJob : JobData -> result string) (PostAction : string -> string -> result unit).
Context {Attrs : Type} (Marshal : Attrs -> result string) (no_attrs : Attrs) (coreURL : string).
Context (cron_ok : string -> bool) (json_params : string -> Attrs) (callbacks : registry).

(** ** Adding a schedule *)

Lemma schedule_transaction_ok {A} (f : M sst A) s a s' :
  WithTransaction f s = (Ok a, s') ->
  exists s1 s2, f s1 = (Ok a, s2) /\ schedules s1 = schedules s /\ next_schedule s1 = next_schedule s
    /\ schedules s' = schedules s2 /\ next_schedule s' = next_schedule s2.
Proof.
  unfold WithTransaction. destruct (sdb _ s) as [[[]|e] s1] eqn:E1; [|done].
  apply sdb_ok in E1 as [E1 N1]. injection E1 as S1.
  destruct (f s1) as [[b|e] s2] eqn:E2; [|done]. destruct (failed_between _ _); [done|].
  destruct (sdb _ s2) as [[[]|e] s3] eqn:E3; [|done]. apply sdb_ok in E3 as [E3 N3]. injection E3 as S3.
  intros [= -> <-]. exists s1, s2. split; [done|]. split; [done|]. split; [done|]. split; [done|lia].
Qed.

Lemma ensureTask_ok x params now s ids s' :
  ensureTask SubmitJob Marshal no_attrs coreURL x params now s = (Ok ids, s') ->
  existsb (same_vendor x) (map_to_list (schedules s)).*2 = false
  /\ schedules s' = <[next_schedule s := x]> (schedules s) /\ next_schedule s' = next_schedule s + 1.
Proof.
  intros E. apply bind_inv in E as (sid & s1 & E1 & E). apply bind_inv in E as (eid & s2 & E2 & E).
  apply bind_inv in E as (tid & s3 & E3 & E). injection E as _ <-.
  unfold on_mgr in E2, E3. injection E2 as _ <-. injection E3 as _ <-. cbn [schedules next_schedule with_sm].
  unfold sd_Create in E1. destruct (sdb _ s) as [[u|e] s4] eqn:E4; [|done]. injection E1 as _ <-.
  cbn [schedules next_schedule with_sm]. apply sdb_ok in E4 as [E4 _].
  destruct (existsb _ _); [done|]. by injection E4 as <-.
Qed.

Lemma Schedule_ok v id ty cron name params extras rand now s k s' :
  Schedule SubmitJob PostAction Marshal no_attrs coreURL cron_ok json_params callbacks
    v id ty cron name params extras rand now s = (Ok k, s') ->
  cron_ok (randomize rand cron) = true /\
  exists ps es, params = Ok ps /\ extras = Ok es /\
  let x := mkSchedule v id ty (randomize rand cron) 0 es name ps now now in
  existsb (same_vendor x) (map_to_list (schedules s)).*2 = false
  /\ schedules s' = <[next_schedule s := x]> (schedules s) /\ next_schedule s' = next_schedule s + 1.
Proof.
  unfold Schedule. destruct (_ =s= _); [done|]. cbv zeta.
  destruct (cron_ok _) eqn:C; cbn [negb]; [|done]. destruct (negb _); [done|]. intros E.
  apply bind_inv in E as (pd & s1 & E1 & E). apply bind_inv in E as (ed & s2 & E2 & E).
  unfold of_result in E1, E2. injection E1 as -> <-. injection E2 as -> <-. split; [done|]. exists pd, ed. do 2 (split; [done|]).
  apply bind_inv in E as ([sid tid] & s3 & E3 & E). apply schedule_transaction_ok in E3 as (s4 & s5 & E3 & A & B & C' & D).
  apply ensureTask_ok in E3 as (X & Y & Z).
  assert (T : schedules s' = schedules s3 /\ next_schedule s' = next_schedule s3).
  { apply bind_inv in E as (r & s6 & E6 & E). unfold try, on_mgr in E6. injection E6 as _ <-.
    destruct r as [t|e]; [|by apply bind_inv in E as (? & ? & _ & ?)].
    destruct (t_Status t =s= _); [by apply bind_inv in E as (? & ? & _ & ?)|]. by injection E as _ <-. }
  destruct T as [T1 T2]. rewrite <- A. split; [exact X|]. split; [rewrite T1, C', Y; by rewrite B|]. rewrite T2, D, Z, B. done.
Qed.

(** ** Sequences only grow *)

Definition advances {St A} (n : St -> Z) (m : M St A) : Prop := along (fun s s' => n s <= n s') m.

#[local] Instance at_most_preorder {St} (n : St -> Z) : PreOrder (fun s s' => n s <= n s').
Proof. split; [by intros s|]. intros s1 s2 s3 ? ?. lia. Qed.

Lemma advances_bind {St A B} (n : St -> Z) (m : M St A) (k : A -> M St B) :
  advances n m -> (forall a, advances n (k a)) -> advances n (bind m k).
Proof. apply along_bind, _. Qed.

Lemma advances_try {St A} (n : St -> Z) (m : M St A) : advances n m -> advances n (try m).
Proof. apply along_try. Qed.

Lemma advances_pure {St A} (n : St -> Z) (r : result A) : advances n (of_result r).
Proof. apply along_of_result, _. Qed.

Lemma advances_iterM {St A} (n : St -> Z) (f : A -> M St unit) l : (forall a, advances n (f a)) -> advances n (iterM f l).
Proof. apply along_iterM, _. Qed.

Lemma advances_on_mgr {A} (m : M mgr A) : advances next_schedule (on_mgr m).
Proof. by intros s. Qed.

Lemma advances_sdb {A} (f : gmap Z schedule -> result A * gmap Z schedule) : advances next_schedule (sdb f).
Proof. intros s. unfold sdb. destruct (dbio get _) as [[]]; cbn; lia. Qed.

Lemma advances_sd_Create x : advances next_schedule (sd_Create x).
Proof. intros s. unfold sd_Create. destruct (sdb _ s) as [[]]; cbn; lia. Qed.

Lemma advances_WithTransaction {A} (f : M sst A) : advances next_schedule f -> advances next_schedule (WithTransaction f).
Proof.
  intros H s. unfold WithTransaction. pose proof (advances_sdb (fun t => (Ok tt, t)) s) as A1.
  destruct (sdb _ s) as [[[]|e] s1]; cbn in *; [|lia]. pose proof (H s1) as A2.
  destruct (f s1) as [[a|e] s2]; cbn in *; [|lia]. destruct (failed_between _ _); cbn; [lia|].
  pose proof (advances_sdb (fun t => (Ok tt, t)) s2) as A3. destruct (sdb _ s2) as [[[]|e] s3]; cbn in *; lia.
Qed.

#[local] Hint Resolve advances_bind advances_try advances_pure advances_iterM advances_on_mgr advances_sdb
  advances_sd_Create advances_WithTransaction : core.

Lemma advances_UnScheduleByVendor v id now world : advances next_schedule (UnScheduleByVendor PostAction v id now world).
Proof.
  unfold UnScheduleByVendor, sd_List. apply advances_bind; [auto|]. intros l. apply advances_iterM. intros r.
  unfold UnScheduleByID. apply advances_bind; [auto|]. intros ex. apply advances_bind; [|intros _; unfold sd_Delete; auto].
  destruct ex as [|[eid x] ?]; [by intros s|]. apply advances_bind; [auto|].
  intros [?|e]; [auto|]. destruct (is_timeout e); [auto|by intros s].
Qed.

Lemma advances_Schedule v id ct cron name p e rand now :
  advances next_schedule (Schedule SubmitJob PostAction Marshal no_attrs coreURL cron_ok json_params callbacks v id ct cron name p e rand now).
Proof.
  unfold Schedule. destruct (_ =s= _); [by intros s|]. cbv zeta. destruct (negb _); [by intros s|].
  destruct (negb _); [by intros s|]. apply advances_bind; [auto|]. intros pd. apply advances_bind; [auto|]. intros ed.
  apply advances_bind.
  - apply advances_WithTransaction. unfold ensureTask. apply advances_bind; [auto|]. intros sid.
    apply advances_bind; [auto|]. intros eid. apply advances_bind; [auto|]. by intros tid s.
  - intros [sid tid]. apply advances_bind; [auto|]. intros [t|er].
    + destruct (_ =s= _); [|by intros s]. apply advances_bind; [auto|by intros ? s].
    + apply advances_bind; [auto|by intros ? s].
Qed.

End Adding.

Lemma same_vendor_of v id x y : of_vendor v id x = true -> same_vendor x y = of_vendor v id y.
Proof.
  unfold of_vendor, same_vendor. rewrite andb_true_iff, String.eqb_eq, Z.eqb_eq. intros [-> ->].
  by rewrite String.eqb_sym, Z.eqb_sym.
Qed.

Lemma same_vendor_sym x y : same_vendor x y = same_vendor y x.
Proof. unfold same_vendor. by rewrite String.eqb_sym, Z.eqb_sym. Qed.

Lemma of_vendor_spec v id x : of_vendor v id x = true <-> sd_VendorType x = v /\ sd_VendorID x = id.
Proof. unfold of_vendor. by rewrite andb_true_iff, String.eqb_eq, Z.eqb_eq. Qed.

Lemma of_vendor_other v id id' x : of_vendor v id x = true -> id <> id' -> of_vendor v id' x = false.
Proof. rewrite of_vendor_spec. intros [<- <-] N. unfold of_vendor. rewrite (proj2 (Z.eqb_neq _ _) N). apply andb_false_r. Qed.

(** ** Plans *)

Section InStep.

(** The vendor type, the callback and its parameter of a component's schedules. *)
Context (v cb : string) (param : Z -> string).

(** What the component wants: for each of its objects its times, if any. *)
Abbreviation plans := (gmap Z (option string)).

Definition carries_out (id : Z) (cron : string) (x : schedule) : Prop :=
  of_vendor v id x = true /\ sd_CallbackFuncName x = cb /\ sd_CallbackFuncParam x = param id
  /\ exists rand, sd_CRON x = randomize rand cron.

Record in_step (ps : plans) (s : sst) : Prop := mkInStep {
  st_ids : forall id, is_Some (ps !! id) -> 0 < id;
  st_served : forall id cron, ps !! id = Some (Some cron) -> exists k x, schedules s !! k = Some x /\ carries_out id cron x;
  st_idle : forall id, ps !! id = Some None -> forall k x, schedules s !! k = Some x -> of_vendor v id x = false;
  st_owned : forall k x, schedules s !! k = Some x -> sd_VendorType x = v -> is_Some (ps !! sd_VendorID x);
  st_one : forall k k' x x', schedules s !! k = Some x -> schedules s !! k' = Some x' -> same_vendor x x' = true -> k = k';
  st_fresh : forall k x, schedules s !! k = Some x -> k < next_schedule s }.

Lemma in_step_ext ps s s' : schedules s' = schedules s -> next_schedule s <= next_schedule s' -> in_step ps s -> in_step ps s'.
Proof.
  intros E N [H1 H2 H3 H4 H5 H6]. split; rewrite ?E; try done. intros k x L. apply H6 in L. lia.
Qed.

(** The one schedule of a plan. *)
Lemma in_step_unique ps s id cron : in_step ps s -> ps !! id = Some (Some cron) ->
  exists k x, schedules s !! k = Some x /\ carries_out id cron x
  /\ forall k' x', schedules s !! k' = Some x' -> of_vendor v id x' = true -> k' = k.
Proof.
  intros H L. destruct (st_served _ _ H id cron L) as (k & x & Lx & X). exists k, x. split; [done|]. split; [done|].
  intros k' x' Lx' O. apply (st_one _ _ H k' k x' x Lx' Lx). rewrite (same_vendor_of v id) by done. apply X.
Qed.

(** A new object without times. *)
Lemma in_step_new ps s id : in_step ps s -> ps !! id = None -> 0 < id -> in_step (<[id := None]> ps) s.
Proof.
  intros [H1 H2 H3 H4 H5 H6] L P.
  assert (O : forall k x, schedules s !! k = Some x -> of_vendor v id x = false).
  { intros k x Lx. destruct (of_vendor v id x) eqn:O; [|done]. apply of_vendor_spec in O as [O1 O2].
    destruct (H4 k x Lx O1) as [? E]. congruence. }
  split; try done.
  - intros i [c [[-> _]|[_ E]]%lookup_insert_Some]; [done|]. apply H1. by exists c.
  - intros i c [[_ [=]]|[_ E]]%lookup_insert_Some. by apply H2.
  - intros i [[-> _]|[_ E]]%lookup_insert_Some; [done|]. by apply H3.
  - intros k x Lx V. destruct (H4 k x Lx V) as [c E]. rewrite lookup_insert_ne; [by exists c|]. intros ->. congruence.
Qed.

Lemma in_step_removed ps s id : in_step ps s -> ps !! id = Some None -> in_step (delete id ps) s.
Proof.
  intros [H1 H2 H3 H4 H5 H6] L. split; try done.
  - intros i [c [_ E]%lookup_delete_Some]. apply H1. by exists c.
  - intros i c [_ E]%lookup_delete_Some. by apply H2.
  - intros i [_ E]%lookup_delete_Some. by apply H3.
  - intros k x Lx V. rewrite lookup_delete_ne; [by apply (H4 k)|]. intros ->.
    specialize (H3 _ L k x Lx). unfold of_vendor in H3. by rewrite V, String.eqb_refl, Z.eqb_refl in H3.
Qed.

Lemma in_step_unscheduled PostAction ps s id now world s' : in_step ps s -> is_Some (ps !! id) ->
  UnScheduleByVendor PostAction v id now world s = (Ok tt, s') -> in_step (<[id := None]> ps) s'.
Proof.
  intros [H1 H2 H3 H4 H5 H6] L E. apply UnScheduleByVendor_ok in E as [Nx S]; [|by apply H1].
  assert (C : forall k x, schedules s' !! k = Some x <-> schedules s !! k = Some x /\ of_vendor v id x = false).
  { intros k x. rewrite S. destruct (schedules s !! k) as [y|]; [|by split; [|intros [? _]]].
    destruct (of_vendor v id y) eqn:O; split; try done; intros H; [|by injection H as <-|by destruct H as [H _]].
    destruct H as [[= <-] H]. congruence. }
  split.
  - intros i [c [[-> _]|[_ E]]%lookup_insert_Some]; [by apply H1|]. apply H1. by exists c.
  - intros i c [[_ [=]]|[N E]]%lookup_insert_Some. destruct (H2 i c E) as (k & x & Lx & X). exists k, x. split; [|done].
    apply C. split; [done|]. eapply of_vendor_other; [apply X|done].
  - intros i [[<- _]|[_ E]]%lookup_insert_Some k x [Lx O]%C; [done|by eapply H3].
  - intros k x [Lx O]%C V. destruct (H4 k x Lx V) as [c E]. rewrite lookup_insert_ne; [by exists c|].
    intros ->. unfold of_vendor in O. by rewrite V, String.eqb_refl, Z.eqb_refl in O.
  - intros k k' x x' [Lx _]%C [Lx' _]%C. by eapply H5.
  - intros k x [Lx _]%C. rewrite Nx. by eapply H6.
Qed.

(** When some schedules of an object are gone, either it still has its one, or it
    has none. *)
Lemma in_step_some_removed ps s s' id : in_step ps s -> next_schedule s <= next_schedule s' ->
  (forall k, schedules s' !! k = schedules s !! k
     \/ (schedules s' !! k = None /\ exists x, schedules s !! k = Some x /\ of_vendor v id x = true)) ->
  in_step ps s' \/ (is_Some (ps !! id) /\ in_step (<[id := None]> ps) s').
Proof.
  intros I N R. pose proof I as [H1 H2 H3 H4 H5 H6].
  assert (Eq : (forall k x, schedules s !! k = Some x -> of_vendor v id x = true -> schedules s' !! k = Some x) -> in_step ps s').
  { intros Hk. apply (in_step_ext ps s); [|done|done]. apply map_eq. intros k.
    destruct (R k) as [|(E & x & Lx & V)]; [done|]. specialize (Hk k x Lx V). congruence. }
  destruct (ps !! id) as [[cron|]|] eqn:L.
  - destruct (in_step_unique ps s id cron I L) as (k & x & Lx & X & U).
    destruct (schedules s' !! k) as [y|] eqn:Ly.
    + left. apply Eq. intros k' x' Lx' V. assert (k' = k) as -> by (by eapply U).
      destruct (R k) as [E|[E _]]; congruence.
    + right. split; [done|]. 
      assert (C : forall j y, schedules s' !! j = Some y -> schedules s !! j = Some y /\ of_vendor v id y = false).
      { intros j y Lj. destruct (R j) as [E|[E _]]; [|congruence]. rewrite Lj in E. split; [done|].
        destruct (of_vendor v id y) eqn:O; [|done]. assert (j = k) as -> by (by eapply U). congruence. }
      split.
      * intros i [c [[-> _]|[_ E]]%lookup_insert_Some]; apply H1; [by rewrite L|by exists c].
      * intros i c [[_ [=]]|[Ni E]]%lookup_insert_Some. destruct (H2 i c E) as (j & y & Lj & Y). exists j, y. split; [|done].
        destruct (R j) as [E'|(_ & z & Lz & V)]; [by rewrite E'|]. exfalso. assert (z = y) as -> by congruence.
        destruct Y as [Y _]. by rewrite (of_vendor_other v id i y V Ni) in Y.
      * intros i [[<- _]|[_ E]]%lookup_insert_Some j y Lj; apply C in Lj as [Lj O]; [done|by eapply H3].
      * intros j y [Lj O]%C V. destruct (H4 j y Lj V) as [c E]. rewrite lookup_insert_ne; [by exists c|].
        intros ->. unfold of_vendor in O. by rewrite V, String.eqb_refl, Z.eqb_refl in O.
      * intros j j' y y' [Lj _]%C [Lj' _]%C. by eapply H5.
      * intros j y [Lj _]%C. apply H6 in Lj. lia.
  - left. apply Eq. intros k x Lx V. by rewrite (H3 id L k x Lx) in V.
  - left. apply Eq. intros k x Lx V. apply of_vendor_spec in V as [V1 <-]. destruct (H4 k x Lx V1) as [c E]. congruence.
Qed.

Lemma in_step_scheduled {SubmitJob PostAction} {Attrs : Type} {Marshal : Attrs -> result string} {no_attrs coreURL cron_ok json_params callbacks
    ps s id ty cron extras rand now k s'} :
  in_step ps s -> ps !! id = Some None ->
  Schedule SubmitJob PostAction Marshal no_attrs coreURL cron_ok json_params callbacks v id ty cron cb (Ok (param id)) extras rand now s
    = (Ok k, s') -> in_step (<[id := Some cron]> ps) s'.
Proof.
  intros I L E. apply Schedule_ok in E as (_ & pr & ex & [= <-] & _ & _ & S & N). pose proof I as [H1 H2 H3 H4 H5 H6].
  set (x := mkSchedule v id ty (randomize rand cron) 0 ex cb (param id) now now) in *. set (n := next_schedule s) in *.
  assert (F : schedules s !! n = None) by (destruct (schedules s !! n) eqn:F; [apply H6 in F; lia|done]).
  assert (X : of_vendor v id x = true) by (by apply of_vendor_spec).
  assert (C : forall k y, schedules s' !! k = Some y -> (k = n /\ y = x) \/ (k <> n /\ schedules s !! k = Some y)).
  { intros j y. rewrite S. rewrite lookup_insert_Some. intros [[<- <-]|[? ?]]; auto. }
  split.
  - intros i [c [[-> _]|[_ E]]%lookup_insert_Some]; [apply H1; by rewrite L|]. apply H1. by exists c.
  - intros i c [[<- [= <-]]|[_ E]]%lookup_insert_Some.
    + exists n, x. split; [by rewrite S, lookup_insert_eq|]. split_and!; [done..|by exists rand].
    + destruct (H2 i c E) as (j & y & Ly & Y). exists j, y. split; [|done]. rewrite S, lookup_insert_ne; [done|congruence].
  - intros i [[_ [=]]|[Ni E]]%lookup_insert_Some j y Ly. destruct (C j y Ly) as [[-> ->]|[_ Ly']]; [|by eapply H3].
    by eapply of_vendor_other.
  - intros j y Ly V. destruct (decide (sd_VendorID y = id)) as [->|Ni]; [by rewrite lookup_insert_eq|].
    rewrite lookup_insert_ne by done. destruct (C j y Ly) as [[-> ->]|[_ Ly']]; [done|by eapply H4].
  - intros j j' y y' Ly Ly' V. destruct (C j y Ly) as [[-> ->]|[Nk Lk]], (C j' y' Ly') as [[-> ->]|[Nk' Lk']].
    + done.
    + by rewrite (same_vendor_of v id) in V by done; rewrite (H3 id L j' y' Lk') in V.
    + rewrite same_vendor_sym, (same_vendor_of v id), (H3 id L j y Lk) in V by done. done.
    + by eapply H5.
  - intros j y Ly. destruct (C j y Ly) as [[-> ->]|[_ Ly']]; [lia|]. apply H6 in Ly'. lia.
Qed.

End InStep.
