(* ===== verification/Blob.v ===== *)
(** * Blobs: tables, manager, controller and the push middlewares

    [src/pkg/blob] (models, dao, manager), [src/controller/blob],
    [src/pkg/artifactrash/dao] and the middlewares of
    [src/server/middleware/blob] that probe and touch blobs while a client
    checks, uploads or mounts them. *)

From S2P Require Import Prelude Errors.

(** ** Data *)

Definition StatusNone : string := "none".
Definition StatusDelete : string := "delete".
Definition StatusDeleting : string := "deleting".
Definition StatusDeleteFailed : string := "deletefailed".

(** [StatusMap]: the source statuses accepted for a target status; [None] for
    a key the map does not have. *)
Definition StatusMap (target : string) : option (list string) :=
  if target =s= StatusNone then Some [StatusNone; StatusDelete; StatusDeleteFailed]
  else if target =s= StatusDelete then Some [StatusNone; StatusDelete; StatusDeleteFailed]
  else if target =s= StatusDeleting then Some [StatusDelete]
  else if target =s= StatusDeleteFailed then Some [StatusDeleting]
  else None.

Record Blob := mkBlob {
  ID : Z;
  Digest : string;
  ContentType : string;
  Size : Z;
  Status : string;
  UpdateTime : Z;
  Version : Z;
  CreationTime : Z;
}.

#[global] Instance Blob_eq_dec : EqDecision Blob.
Proof. solve_decision. Defined.

Definition MediaTypeForeignLayer : string := "application/vnd.docker.image.rootfs.foreign.diff.tar.gzip".

Definition IsForeignLayer (b : Blob) : bool := ContentType b =s= MediaTypeForeignLayer.

Definition manifest_types : list string :=
  ["application/vnd.docker.distribution.manifest.v2+json";
   "application/vnd.docker.distribution.manifest.v1+json";
   "application/vnd.docker.distribution.manifest.v1+prettyjws";
   "application/vnd.oci.image.manifest.v1+json";
   "application/vnd.oci.image.index.v1+json";
   "application/vnd.docker.distribution.manifest.list.v2+json"]%string.

Definition IsManifest (b : Blob) : bool := existsb (String.eqb (ContentType b)) manifest_types.

(** A record of the artifact trash. *)
Record ArtifactTrash := mkTrash {
  tr_ID : Z;
  tr_RepositoryName : string;
  tr_Digest : string;
  tr_CreationTime : Z;
}.

(** An artifact, as far as the blob queries look at it. *)
Record Artifact := mkArtifact {
  af_ProjectID : Z;
  af_RepositoryName : string;
  af_Digest : string;
}.

(** The tables [blob], [artifact_blob] (artifact and blob digests, unique),
    [project_blob] (project and blob identifiers, unique), [artifact] and
    [artifact_trash]; the blobs and the manifest revisions in the registry's
    storage; and the faults of the coming calls. *)
Record store := mkStore {
  blobs : gmap Z Blob;
  next_blob : Z;
  artifact_blob : gset (string * string);
  project_blob : gset (Z * Z);
  artifacts : list Artifact;
  trash : gmap Z ArtifactTrash;
  storage : gset string;
  revisions : gset (string * string);
  faults : list (option error);
}.

Definition with_blobs (s : store) x := mkStore x (next_blob s) (artifact_blob s) (project_blob s)
  (artifacts s) (trash s) (storage s) (revisions s) (faults s).
Definition with_artifact_blob (s : store) x := mkStore (blobs s) (next_blob s) x (project_blob s)
  (artifacts s) (trash s) (storage s) (revisions s) (faults s).
Definition with_project_blob (s : store) x := mkStore (blobs s) (next_blob s) (artifact_blob s) x
  (artifacts s) (trash s) (storage s) (revisions s) (faults s).
Definition with_trash (s : store) x := mkStore (blobs s) (next_blob s) (artifact_blob s)
  (project_blob s) (artifacts s) x (storage s) (revisions s) (faults s).
Definition with_storage (s : store) x := mkStore (blobs s) (next_blob s) (artifact_blob s)
  (project_blob s) (artifacts s) (trash s) x (revisions s) (faults s).
Definition with_revisions (s : store) x := mkStore (blobs s) (next_blob s) (artifact_blob s)
  (project_blob s) (artifacts s) (trash s) (storage s) x (faults s).
Definition with_faults (s : store) x := mkStore (blobs s) (next_blob s) (artifact_blob s)
  (project_blob s) (artifacts s) (trash s) (storage s) (revisions s) x.

#[global] Instance store_faulty : Faulty store := fun s =>
  match faults s with
  | [] => (None, s)
  | f :: fs => (f, with_faults s fs)
  end.

(** A query that reads the tables. *)
Definition query {A} (f : store -> A) : M store A := io (fun s => (Ok (f s), s)).

(** ** Data access *)

Definition CreateArtifactAndBlob (artifactDigest blobDigest : string) : M store unit :=
  io (modify (fun s => with_artifact_blob s ({[(artifactDigest, blobDigest)]} ∪ artifact_blob s))).

Definition DeleteArtifactAndBlobByArtifact (artifactDigest : string) : M store unit :=
  io (modify (fun s => with_artifact_blob s (filter (fun p => p.1 <> artifactDigest) (artifact_blob s)))).

Definition GetAssociatedBlobDigestsForArtifact (artifact : string) : M store (list string) :=
  query (fun s => (elements (filter (fun p => p.1 = artifact) (artifact_blob s))).*2).

Definition rows (s : store) : list Blob := (map_to_list (blobs s)).*2.

Definition find_digest (s : store) (digest : string) : option Blob :=
  List.find (fun b => Digest b =s= digest) (rows s).

(** [CreateBlob]: an insert that, on a digest already present, overwrites the
    columns of that row, the version among them, and gives its identifier. *)
Definition CreateBlob (digest contentType : string) (size now : Z) : M store Z :=
  io (fun s =>
    let row id := mkBlob id digest contentType size StatusNone now 0 now in
    match find_digest s digest with
    | Some b => (Ok (ID b), with_blobs s (<[ID b := row (ID b)]> (blobs s)))
    | None =>
        let id := next_blob s in
        (Ok id, mkStore (<[id := row id]> (blobs s)) (id + 1) (artifact_blob s) (project_blob s)
                  (artifacts s) (trash s) (storage s) (revisions s) (faults s))
    end).

Definition GetBlobByDigest (digest : string) : M store Blob :=
  io (fun s => match find_digest s digest with
               | Some b => (Ok b, s)
               | None => (Err (WrapNotFoundError ErrNoRows ("blob " ++ digest ++ " not found")), s)
               end).

Definition set_status (status : string) (now : Z) (b : Blob) : Blob :=
  mkBlob (ID b) (Digest b) (ContentType b) (Size b) status now (Version b + 1) (CreationTime b).

(** The condition of the status update: the version matches (for a blob put
    back to normal, is not older) and the current status is accepted. *)
Definition may_update (blob row : Blob) : bool :=
  (if Status blob =s= StatusNone then Version blob <=? Version row else Version row =? Version blob)
  && existsb (String.eqb (Status row)) (default [] (StatusMap (Status blob))).

(** [dao.UpdateBlobStatus]: the number of updated rows and the blob with its
    new version.  A status without an entry makes an empty IN list. *)
Definition dao_UpdateBlobStatus (blob : Blob) (now : Z) : M store (Z * Blob) :=
  io (fun s =>
    match StatusMap (Status blob) with
    | None => (Err (PgError "42601"), s)
    | Some _ =>
        match blobs s !! ID blob with
        | Some row =>
            if may_update blob row
            then (Ok (1, mkBlob (ID blob) (Digest blob) (ContentType blob) (Size blob) (Status blob)
                          (UpdateTime blob) (Version row + 1) (CreationTime blob)),
                  with_blobs s (<[ID blob := set_status (Status blob) now row]> (blobs s)))
            else (Ok (0, blob), s)
        | None => (Ok (0, blob), s)
        end
    end).

Definition set_content (blob : Blob) (now : Z) (b : Blob) : Blob :=
  mkBlob (ID b) (Digest b) (ContentType blob) (Size blob) (Status b) now (Version b) (CreationTime b).

Definition UpdateBlob (blob : Blob) (now : Z) : M store unit :=
  io (modify (fun s => match blobs s !! ID blob with
    | Some b => with_blobs s (<[ID blob := set_content blob now b]> (blobs s))
    | None => s
    end)).

(** Is the blob referenced by an artifact of the project? *)
Definition referenced (s : store) (projectID : Z) (digest : string) : bool :=
  existsb (fun a => (af_ProjectID a =? projectID)
                    && bool_decide ((af_Digest a, digest) ∈ artifact_blob s)) (artifacts s).

Definition FindBlobsShouldUnassociatedWithProject (projectID : Z) (bs : list Blob) : M store (list Blob) :=
  match bs with
  | [] => ret []
  | _ =>
      digests <- query (fun s => List.filter (referenced s projectID) (Digest <$> bs)) ;;
      ret (List.filter (fun b => negb (existsb (String.eqb (Digest b)) digests)) bs)
  end.

(** SUM over no row is NULL, which the query row leaves as zero. *)
Definition SumBlobsSizeByProject (projectID : Z) (excludeForeignLayer : bool) : M store Z :=
  query (fun s => sum_Z (Size <$> List.filter (fun b =>
    bool_decide ((projectID, ID b) ∈ project_blob s)
    && (negb excludeForeignLayer || negb (IsForeignLayer b))) (rows s))).

Definition SumBlobsSize (excludeForeignLayer : bool) : M store Z :=
  query (fun s => sum_Z (Size <$> List.filter (fun b =>
    negb excludeForeignLayer || negb (IsForeignLayer b)) (rows s))).

Definition CreateProjectBlob (projectID blobID : Z) : M store unit :=
  io (modify (fun s => with_project_blob s ({[(projectID, blobID)]} ∪ project_blob s))).

Definition ExistProjectBlob (projectID : Z) (digest : string) : M store bool :=
  query (fun s => existsb (fun b => (Digest b =s= digest)
    && bool_decide ((projectID, ID b) ∈ project_blob s)) (rows s)).

Definition DeleteProjectBlob (projectID : Z) (blobIDs : list Z) : M store unit :=
  match blobIDs with
  | [] => ret tt
  | _ => io (modify (fun s => with_project_blob s
           (filter (fun p => ~ (p.1 = projectID /\ p.2 ∈ blobIDs)) (project_blob s))))
  end.

Definition DeleteBlob (id : Z) : M store unit :=
  io (fun s => match blobs s !! id with
    | Some _ => (Ok tt, with_blobs s (delete id (blobs s)))
    | None => (Err (WithMessage (NotFoundError None)
                ("blob " ++ Strconv.format_int id ++ " not found")), s)
    end).

(** The columns the raw queries select. *)
Definition selected (b : Blob) : Blob :=
  mkBlob (ID b) (Digest b) (ContentType b) (Size b) (Status b) 0 (Version b) 0.

Definition hour : Z := 3600.

Definition unreferenced_since (s : store) (limit : Z) (b : Blob) : bool :=
  negb (bool_decide (ID b ∈ (elements (project_blob s)).*2)) && (UpdateTime b <=? limit).

Definition GetBlobsNotRefedByProjectBlob (timeWindowHours now : Z) : M store (list Blob) :=
  query (fun s => selected <$>
    List.filter (unreferenced_since s (now - timeWindowHours * hour)) (rows s)).

(** A LEFT JOIN: an association whose blob is gone gives a row of NULLs,
    which is scanned into a zero blob. *)
Definition zero_blob : Blob := mkBlob 0 "" "" 0 "" 0 0 0.

Definition GetBlobsByArtDigest (digest : string) : M store (list Blob) :=
  query (fun s => (fun d => match find_digest s d with Some b => selected b | None => zero_blob end)
    <$> (elements (filter (fun p => p.1 = digest) (artifact_blob s))).*2).

(** [ListBlobs] with the filters its callers use. *)
Definition ListBlobs (p : store -> Blob -> bool) : M store (list Blob) :=
  query (fun s => List.filter (p s) (rows s)).

(** ** The artifact trash *)

Definition trash_Delete (id : Z) : M store unit :=
  io (fun s => match trash s !! id with
    | Some _ => (Ok tt, with_trash s (delete id (trash s)))
    | None => (Err (WithMessage (NotFoundError None)
                ("artifact trash " ++ Strconv.format_int id ++ " not found")), s)
    end).

(** [Filter]: the records whose artifact was not pushed again. *)
Definition trash_Filter (timeWindowHours now : Z) : M store (list ArtifactTrash) :=
  query (fun s => List.filter (fun t =>
    negb (existsb (fun a => (af_RepositoryName a =s= tr_RepositoryName t)
                            && (af_Digest a =s= tr_Digest t)) (artifacts s))
    && (tr_CreationTime t <=? now - timeWindowHours * hour)) (map_to_list (trash s)).*2).

Definition trash_Flush (timeWindowHours now : Z) : M store unit :=
  io (modify (fun s => with_trash s
    (filter (fun it => now - timeWindowHours * hour < tr_CreationTime it.2) (trash s)))).

(** ** The manager *)

Definition CleanupAssociationsForProject (projectID : Z) (bs : list Blob) : M store unit :=
  match bs with
  | [] => ret tt
  | _ =>
      should <- FindBlobsShouldUnassociatedWithProject projectID bs ;;
      DeleteProjectBlob projectID (ID <$> should)
  end.

Definition UpdateBlobStatus (blob : Blob) (now : Z) : M store (Z * Blob) :=
  match StatusMap (Status blob) with
  | None => fail (WithMessage (New "") ("cannot update blob status, as the status is unknown. digest: "
              ++ Digest blob ++ ", status: " ++ Status blob))
  | Some _ => dao_UpdateBlobStatus blob now
  end.

(** ** The controller *)

Definition with_status (b : Blob) (status : string) : Blob :=
  mkBlob (ID b) (Digest b) (ContentType b) (Size b) status (UpdateTime b) (Version b) (CreationTime b).

(** [Get] with the options a caller may give: a project, an artifact. *)
Definition ctl_Get (digest : string) (projectID : Z) (artifactDigest : string) : M store Blob :=
  if digest =s= "" then fail (WithMessage (WithCode (New "") BadRequestCode) "require digest")
  else
    bs <- ListBlobs (fun s b =>
      (Digest b =s= digest)
      && ((projectID =? 0) || bool_decide ((projectID, ID b) ∈ project_blob s))
      && ((artifactDigest =s= "") || bool_decide ((artifactDigest, Digest b) ∈ artifact_blob s))) ;;
    match bs with
    | [] => fail (WithMessage (NotFoundError None) ("blob " ++ digest ++ " not found"))
    | b :: _ => ret b
    end.

Definition Exist (digest : string) (projectID : Z) (artifactDigest : string) : M store bool :=
  if digest =s= "" then fail (WithMessage (BadRequestError None) "exist blob require digest")
  else
    r <- try (ctl_Get digest projectID artifactDigest) ;;
    match r with
    | Ok _ => ret true
    | Err e => if IsNotFoundErr e then ret false else fail e
    end.

Definition AssociateWithArtifact (blobDigests : list string) (artifactDigest : string) : M store unit :=
  exist <- Exist artifactDigest 0 artifactDigest ;;
  if exist : bool then ret tt
  else iterM (fun d => CreateArtifactAndBlob artifactDigest d) (blobDigests ++ [artifactDigest]).

Definition AssociateWithProjectByID (blobID projectID : Z) : M store unit :=
  CreateProjectBlob projectID blobID.

Definition AssociateWithProjectByDigest (blobDigest : string) (projectID : Z) : M store unit :=
  blob <- GetBlobByDigest blobDigest ;;
  CreateProjectBlob projectID (ID blob).

Definition Ensure (digest contentType : string) (size now : Z) : M store Z :=
  r <- try (GetBlobByDigest digest) ;;
  match r with
  | Ok blob => ret (ID blob)
  | Err e => if negb (IsNotFoundErr e) then fail e else CreateBlob digest contentType size now
  end.

Definition FindMissingAssociationsForProject (projectID : Z) (bs : list Blob) : M store (list Blob) :=
  match bs with
  | [] => ret []
  | _ =>
      associated <- ListBlobs (fun s b => existsb (String.eqb (Digest b)) (Digest <$> bs)
                                          && bool_decide ((projectID, ID b) ∈ project_blob s)) ;;
      if (length associated =? 0)%nat then ret bs
      else if (length associated =? length bs)%nat then ret []
      else ret (List.filter (fun b => negb (existsb (String.eqb (Digest b)) (Digest <$> associated))) bs)
  end.

(** [Sync]: the references of a manifest, as digest, media type and size.
    The updates run in one transaction, which a failure rolls back. *)
Definition transaction {A} (m : M store A) : M store A := fun s =>
  match m s with
  | (Ok a, s') => (Ok a, s')
  | (Err e, s') => (Err e, with_faults s (faults s'))
  end.

Definition descriptor : Type := string * string * Z.

(** The walk of [Sync] over the references: [mp] is the map of the blobs
    found, whose content type the walk itself updates. *)
Fixpoint sync_split (mp : list Blob) (refs : list descriptor) : list Blob * list descriptor :=
  match refs with
  | [] => ([], [])
  | ((d, mt, sz) as r) :: refs' =>
      match List.find (fun b => Digest b =s= d) mp with
      | Some b =>
          if ContentType b =s= mt then sync_split mp refs'
          else
            let b' := mkBlob (ID b) (Digest b) mt (Size b) (Status b) (UpdateTime b) (Version b)
                        (CreationTime b) in
            let mp' := (fun x => if Digest x =s= d then b' else x) <$> mp in
            let (up, mi) := sync_split mp' refs' in (b' :: up, mi)
      | None => let (up, mi) := sync_split mp refs' in (up, r :: mi)
      end
  end.

Definition Sync (references : list descriptor) (now : Z) : M store unit :=
  match references with
  | [] => ret tt
  | _ =>
      found <- ListBlobs (fun _ b => existsb (fun r => Digest b =s= r.1.1) references) ;;
      let (updating, missing) := sync_split found references in
      transaction (iterM (fun b => UpdateBlob b now) updating) ;;;
      iterM (fun r => let '(d, mt, sz) := r in CreateBlob d mt sz now ;;; ret tt) missing
  end.

Definition Touch (blob : Blob) (now : Z) : M store unit :=
  r <- UpdateBlobStatus (with_status blob StatusNone) now ;;
  if r.1 =? 0
  then fail (WithCode (WithMessage (New "") "no blob item is updated to StatusNone") NotFoundCode)
  else ret tt.

Definition Fail (blob : Blob) (now : Z) : M store unit :=
  r <- UpdateBlobStatus (with_status blob StatusDeleteFailed) now ;;
  if r.1 =? 0
  then fail (WithCode (WithMessage (New "") "no blob item is updated to StatusDeleteFailed") NotFoundCode)
  else ret tt.

(** ** The middlewares *)

Definition wrap_request {A} (m : M store A) : M store A := fun s =>
  match m s with
  | (Ok a, s') => (Ok a, s')
  | (Err e, s') => (Err (Wrap e "the request id"), s')
  end.

Definition in_gc (message : string) : error := WithCode (WithMessage (New "") message) NotFoundCode.

Section Middlewares.
(** The configured time window of the garbage collection, in hours. *)
Context (gc_window : Z).

(** [handleHead], for a request with blob information. *)
Definition handleHead (digest : string) (now : Z) : M store unit :=
  bb <- ctl_Get digest 0 "" ;;
  if (Status bb =s= StatusNone) || (Status bb =s= StatusDelete)
  then wrap_request (Touch bb now)
  else if Status bb =s= StatusDeleting then
    (if now - UpdateTime bb >? gc_window * hour then wrap_request (Fail bb now) else ret tt) ;;;
    fail (in_gc "the asking blob is in GC, mark it as non existing")
  else if Status bb =s= StatusDeleteFailed
  then fail (in_gc "the asking blob is delete failed, mark it as non existing")
  else fail (WithMessage (New "") ("wrong blob status, " ++ Status bb)).

(** [probeBlob] calls itself after it has failed a blob stuck in deleting;
    two levels are enough when no one else acts in between, the outermost of
    [fuel] calls being the request's. *)
Fixpoint probeBlob (fuel : nat) (digest : string) (now : Z) : M store unit :=
  match fuel with
  | O => fail (Panic "stack overflow")
  | S fuel' =>
      r <- try (ctl_Get digest 0 "") ;;
      match r with
      | Err e => if IsNotFoundErr e then ret tt else fail e
      | Ok bb =>
          if (Status bb =s= StatusNone) || (Status bb =s= StatusDelete)
             || (Status bb =s= StatusDeleteFailed)
          then wrap_request (Touch bb now)
          else if Status bb =s= StatusDeleting then
            if now - UpdateTime bb >? gc_window * hour
            then wrap_request (Fail bb now) ;;; probeBlob fuel' digest now
            else fail (in_gc "the asking blob is in GC, mark it as non existing")
          else ret tt
      end
  end.

(** [PutBlobUploadMiddleware] around an upload that the registry accepts: the
    registry stores the data under the digest. *)
Definition put_blob_upload (fuel : nat) (digest : string) (size projectID now : Z) : M store unit :=
  probeBlob fuel digest now ;;;
  io (modify (fun s => with_storage s ({[digest]} ∪ storage s))) ;;;
  transaction (
    blobID <- Ensure digest "application/octet-stream" size now ;;
    AssociateWithProjectByID blobID projectID).

(** [PostInitiateBlobUploadMiddleware] after the registry has mounted a blob. *)
Definition mount_blob (mount : string) (projectID : Z) : M store unit :=
  if mount =s= "" then ret tt else AssociateWithProjectByDigest mount projectID.

(** [PutManifestMiddleware] around a manifest that the registry accepts. *)
Definition put_manifest (fuel : nat) (repository digest contentType : string) (size : Z)
    (references : list descriptor) (projectID now : Z) : M store unit :=
  probeBlob fuel digest now ;;;
  io (modify (fun s => with_revisions (with_storage s ({[digest]} ∪ storage s))
                         ({[(repository, digest)]} ∪ revisions s))) ;;;
  Sync references now ;;;
  iterM (fun r => AssociateWithProjectByDigest r.1.1 projectID) references ;;;
  blobID <- Ensure digest contentType size now ;;
  AssociateWithProjectByID blobID projectID ;;;
  AssociateWithArtifact ((fun r => r.1.1) <$> references) digest.
End Middlewares.
