(* ===== verification/GC.v ===== *)
(** * Garbage collection

    [src/jobservice/job/impl/gc]: the job that marks the blobs no project
    references and sweeps them from the registry's storage and from the
    database, while clients push and probe blobs through the middlewares of
    [Blob]. *)

From S2P Require Import Prelude Errors Blob.

(** ** The job *)

(** The parameters of the job.  A number is the integer a [float64] is
    converted to. *)
Inductive param := PBool (b : bool) | PNum (z : Z) | PString (s : string).

Record GarbageCollector := mkGC {
  redisURL : string;
  deleteUntagged : bool;
  deleteTag : bool;
  dryRun : bool;
  timeWindowHours : Z;
  workers : Z;
}.

(** [parseParams]: the assertion on the redis URL panics when it is missing
    or not a string; the other parameters fall back to their defaults. *)
Definition parseParams (params : string -> option param) : result GarbageCollector :=
  match params "redis_url_reg"%string with
  | Some (PString url) =>
      Ok (mkGC url
        (match params "delete_untagged"%string with Some (PBool b) => b | _ => true end)
        (match params "delete_tag"%string with Some (PBool b) => b | _ => true end)
        (match params "dry_run"%string with Some (PBool b) => b | _ => false end)
        (match params "time_window"%string with Some (PNum z) => z | _ => 2 end)
        (match params "workers"%string with Some (PNum z) => if z >? 0 then z else 1 | _ => 1 end))
  | _ => Err (Panic "interface conversion")
  end.

(** The state of a run: the store, the answers of the coming checks of the
    stop command, and the results reported with [Checkin]. *)
Record run := mkRun {
  st : store;
  stops : list bool;
  checkins : list (Z * Z * Z);
}.

Definition with_st (r : run) s := mkRun s (stops r) (checkins r).

Definition lift {A} (m : M store A) : M run A := fun r =>
  match m (st r) with (a, s) => (a, with_st r s) end.

Definition errGcStop : error := Sentinel "gc.errGcStop".
Definition is_gc_stop (e : error) : bool :=
  match e with Sentinel n => n =s= "gc.errGcStop" | _ => false end.
Definition is_readonly (e : error) : bool :=
  match e with Sentinel n => n =s= "readonly.Err" | _ => false end.

Definition shouldStop : M run bool := fun r =>
  match stops r with
  | [] => (Ok false, r)
  | b :: bs => (Ok b, mkRun (st r) bs (checkins r))
  end.

Definition saveGCRes (size blobs manifests : Z) : M run unit :=
  modify (fun r => mkRun (st r) (stops r) (checkins r ++ [(size, blobs, manifests)])).

Definition ignoreNotFound (m : M run unit) : M run unit := fun r =>
  match m r with
  | (Err e, r') => if IsNotFoundErr e then (Ok tt, r') else (Err e, r')
  | (Ok _, r') => (Ok tt, r')
  end.

(** ** The registry *)

(** [registry.Cli] and the registry controller: they can fail like any other
    call, with the read-only error among the failures. *)
Definition v2DeleteManifest (repository digest : string) : M store unit :=
  exist <- query (fun s => bool_decide ((repository, digest) ∈ revisions s)) ;;
  if exist : bool
  then io (modify (fun s => with_revisions s (revisions s ∖ {[(repository, digest)]})))
  else ret tt.

Definition ctl_DeleteManifest (repository digest : string) : M store unit :=
  io (modify (fun s => with_revisions s (revisions s ∖ {[(repository, digest)]}))).

Definition ctl_DeleteBlob (digest : string) : M store unit :=
  io (fun s => if bool_decide (digest ∈ storage s)
               then (Ok tt, with_storage s (storage s ∖ {[digest]}))
               else (Err (NotFoundError None), s)).

Section GC.
Context (gc : GarbageCollector).
Context (now : Z).
(** The number of attempts of [retry.Retry] before its time-out. *)
Context (attempts : nat).
(** [artCtl]: the untagged artifacts with the artifacts below each, and the
    deletion of an artifact, which moves it to the trash. *)
Context (list_untagged : M store (list (Z * result (list ArtifactTrash)))).
Context (delete_artifact : Z -> M store unit).
(** [project.ListAll]: the projects, or the error of a page. *)
Context (projects : list (result Z)).
(** [cleanCache]: the registry's cache in redis. *)
Context (cleanCache : M run unit).

(** ** Mark *)

Definition group_trash (arts : list ArtifactTrash) : gmap string (list ArtifactTrash) :=
  foldl (fun m a => <[tr_Digest a := default [] (m !! tr_Digest a) ++ [a]]> m) ∅ arts.

(** The loop of [deletedArt] over the untagged artifacts; its result is what
    a dry run would have trashed. *)
Fixpoint delete_untagged (l : list (Z * result (list ArtifactTrash))) : M run (list ArtifactTrash) :=
  match l with
  | [] => ret []
  | (id, walk) :: l' =>
      if dryRun gc then
        rest <- delete_untagged l' ;;
        ret (match walk with Ok arts => arts ++ rest | Err _ => rest end)
      else
        stop <- shouldStop ;;
        if stop : bool then fail errGcStop
        else try (lift (delete_artifact id)) ;;; delete_untagged l'
  end.

Definition deletedArt : M run (gmap string (list ArtifactTrash)) :=
  simulated <- (if deleteUntagged gc
                then l <- lift list_untagged ;; delete_untagged l
                else ret []) ;;
  actual <- (if negb (dryRun gc) then lift (trash_Filter 0 now) else ret []) ;;
  ret (group_trash (simulated ++ actual)).

(** One page of a project's old blobs, from an identifier on, in the order of
    the identifiers. *)
Definition id_le (a b : Blob) : Prop := ID a <= ID b.
#[global] Instance id_le_dec : RelDecision id_le.
Proof. intros a b. unfold id_le. apply _. Defined.

Definition old_blobs (s : store) (projectID lastBlobID : Z) : list Blob :=
  merge_sort id_le (List.filter (fun b =>
    (UpdateTime b <=? now - timeWindowHours gc * hour)
    && bool_decide ((projectID, ID b) ∈ project_blob s)
    && (lastBlobID <=? ID b)) (rows s)).

Definition project_page (ps : nat) (projectID lastBlobID : Z) : M store (list Blob) :=
  query (fun s => firstn ps (old_blobs s projectID lastBlobID)).

(** The inner loop of [markOrSweepUntaggedBlobs]: the orphan blobs of a dry
    run are collected.  A failing call ends the loop of the project. *)
Fixpoint untagged_pages (fuel ps : nat) (projectID lastBlobID : Z) (orphans : list Blob)
    : M run (list Blob) :=
  match fuel with
  | O => fail (Panic "endless loop")
  | S fuel' =>
      stop <- shouldStop ;;
      if stop : bool then fail errGcStop
      else
        r <- try (lift (project_page ps projectID lastBlobID)) ;;
        match r with
        | Err _ => ret orphans
        | Ok bs =>
            r <- try (if dryRun gc
                      then lift (FindBlobsShouldUnassociatedWithProject projectID bs)
                      else lift (CleanupAssociationsForProject projectID bs) ;;; ret []) ;;
            match r with
            | Err _ => ret orphans
            | Ok unassociated =>
                let orphans' := orphans ++ unassociated in
                if (length bs <? ps)%nat then ret orphans'
                else match last bs with
                     | Some b => untagged_pages fuel' ps projectID (ID b) orphans'
                     | None => ret orphans'
                     end
            end
        end
  end.

Definition page_size : nat := 1000.

(** A page that is full ends at a higher identifier than the one before, so
    the number of blobs bounds the pages. *)
Definition page_fuel (s : store) : nat := S (S (size (blobs s))).

Fixpoint untagged_projects (ps : list (result Z)) (orphans : list Blob) : M run (list Blob) :=
  match ps with
  | [] => ret orphans
  | p :: ps' =>
      stop <- shouldStop ;;
      if stop : bool then fail errGcStop
      else match p with
           | Err _ => untagged_projects ps' orphans
           | Ok projectID =>
               r <- get ;;
               orphans' <- untagged_pages (page_fuel (st r)) page_size projectID 0 orphans ;;
               untagged_projects ps' orphans'
           end
  end.

Definition markOrSweepUntaggedBlobs : M run (list Blob) := untagged_projects projects [].

Fixpoint blobs_of_arts (digests : list string) : M store (list Blob) :=
  match digests with
  | [] => ret []
  | d :: ds => bs <- GetBlobsByArtDigest d ;; rest <- blobs_of_arts ds ;; ret (bs ++ rest)
  end.

Definition uselessBlobs (trashedArts : gmap string (list ArtifactTrash)) : M run (list Blob) :=
  bs <- lift (GetBlobsNotRefedByProjectBlob (timeWindowHours gc) now) ;;
  if dryRun gc
  then more <- lift (blobs_of_arts (map_to_list trashedArts).*1) ;; ret (bs ++ more)
  else ret bs.

(** The loop that marks the candidates: the delete set, and the counts of
    blobs and manifests with their size. *)
Definition add_candidate (b : Blob) (counts : Z * Z * Z) : Z * Z * Z :=
  let '(size, bc, mc) := counts in
  (if IsForeignLayer b then size else Int64.wrap (size + Size b),
   if IsManifest b then bc else bc + 1,
   if IsManifest b then mc + 1 else mc).

Fixpoint mark_blobs (bs deleteSet : list Blob) (counts : Z * Z * Z) : M run (list Blob * (Z * Z * Z)) :=
  match bs with
  | [] => ret (deleteSet, counts)
  | b :: bs' =>
      if dryRun gc then mark_blobs bs' (deleteSet ++ [b]) (add_candidate b counts)
      else
        stop <- shouldStop ;;
        if stop : bool then fail errGcStop
        else
          r <- try (lift (UpdateBlobStatus (with_status b StatusDelete) now)) ;;
          match r with
          | Err _ => mark_blobs bs' deleteSet counts
          | Ok (count, b') =>
              if count =? 0 then mark_blobs bs' deleteSet counts
              else mark_blobs bs' (deleteSet ++ [b']) (add_candidate b' counts)
          end
  end.

Definition mark : M run (list Blob * gmap string (list ArtifactTrash)) :=
  arts <- deletedArt ;;
  orphanBlobs <- markOrSweepUntaggedBlobs ;;
  bs <- uselessBlobs arts ;;
  match bs ++ orphanBlobs with
  | [] => saveGCRes 0 0 0 ;;; ret ([], arts)
  | all =>
      r <- mark_blobs all [] (0, 0, 0) ;;
      let '(deleteSet, (size, bc, mc)) := r in
      (if dryRun gc then saveGCRes size bc mc else ret tt) ;;;
      ret (deleteSet, arts)
  end.

(** ** Sweep *)

Definition divide (a b : Z) : result Z :=
  if b =? 0 then Err (New "the divided cannot be zero")
  else
    let quotient := Z.quot a b in
    let remainder := Z.rem a b in
    Ok (if quotient =? 0 then remainder else quotient).

(** The chunks [deleteSet[start:end]]. *)
Definition slice {A} (l : list A) (first last : nat) : list A := firstn (last - first) (skipn first l).

Definition chunks (deleteSet : list Blob) (chunkSize : Z) : list (list Blob) :=
  let total := length deleteSet in
  let k := Z.to_nat chunkSize in
  let count := Z.to_nat (Z.quot (Z.of_nat total + chunkSize - 1) chunkSize) in
  (fun i => slice deleteSet (i * k) (Nat.min (i * k + k) total)) <$> seq 0 count.

(** A call of the registry under [retry.Retry]; the read-only error aborts. *)
Definition readonly_aborts (m : M run unit) : M run unit := fun r =>
  match m r with
  | (Err e, r') => (Err (if is_readonly e then Abort e else e), r')
  | x => x
  end.

Definition retried (m : M store unit) : M run unit :=
  Retry attempts None (ignoreNotFound (readonly_aborts (lift m))).

(** [markDeleteFailed], with the blob whose version it advances. *)
Definition markDeleteFailed (b : Blob) : M run Blob :=
  r <- try (lift (UpdateBlobStatus (with_status b StatusDeleteFailed) now)) ;;
  match r with
  | Err e => fail (Wrap e "failed to mark gc candidate delete failed")
  | Ok (count, b') =>
      if count =? 0
      then fail (WithCode (WithMessage (New "") "no blob found to mark delete failed") NotFoundCode)
      else ret b'
  end.

(** What follows a failed deletion: the blob is marked, a missing one being
    fine; the read-only error ends the worker. *)
Definition abandon (b : Blob) (e : error) : M run Blob :=
  r <- try (markDeleteFailed b) ;;
  match r with
  | Err e' => if IsNotFoundErr e' then (if is_readonly e then fail e else ret (with_status b StatusDeleteFailed))
              else fail e'
  | Ok b' => if is_readonly e then fail e else ret b'
  end.

(** The deletion of a manifest's tags and revisions, trash record by trash
    record; [true] when one of them had to be skipped. *)
Fixpoint sweep_arts (b : Blob) (arts : list ArtifactTrash) (skipped : bool) : M run (Blob * bool) :=
  match arts with
  | [] => ret (b, skipped)
  | art :: arts' =>
      r <- try (if deleteTag gc then retried (v2DeleteManifest (tr_RepositoryName art) (Digest b))
                else ret tt) ;;
      match r with
      | Err e => b' <- abandon b e ;; sweep_arts b' arts' true
      | Ok _ =>
          r <- try (retried (ctl_DeleteManifest (tr_RepositoryName art) (Digest b))) ;;
          match r with
          | Err e => b' <- abandon b e ;; sweep_arts b' arts' true
          | Ok _ =>
              ignoreNotFound (lift (DeleteArtifactAndBlobByArtifact (tr_Digest art))) ;;;
              ignoreNotFound (lift (trash_Delete (tr_ID art))) ;;;
              sweep_arts b arts' skipped
          end
      end
  end.

(** One blob of a chunk: the freed size and the deleted blobs and manifests. *)
Definition sweep_blob (trashedArts : gmap string (list ArtifactTrash)) (blob : Blob) : M run (Z * Z * Z) :=
  r <- try (lift (UpdateBlobStatus (with_status blob StatusDeleting) now)) ;;
  match r with
  | Err _ => ret (0, 0, 0)
  | Ok (count, b) =>
      if count =? 0 then ret (0, 0, 0)
      else
        bs <- (match trashedArts !! Digest b with
               | Some arts => if IsManifest b then sweep_arts b arts false else ret (b, false)
               | None => ret (b, false)
               end) ;;
        let '(b, skippedBlob) := bs in
        if skippedBlob : bool then ret (0, 0, 0)
        else
          r <- (if negb (IsForeignLayer b) then try (retried (ctl_DeleteBlob (Digest b)))
                else ret (Ok tt)) ;;
          match r with
          | Err e => abandon b e ;;; ret (0, 0, 0)
          | Ok _ =>
              r <- try (ignoreNotFound (lift (DeleteBlob (ID b)))) ;;
              match r with
              | Err e => abandon b e ;;; fail e
              | Ok _ => ret (if IsForeignLayer b then 0 else Size b,
                             if IsManifest b then 0 else 1, if IsManifest b then 1 else 0)
              end
          end
  end.

Definition add_counts (a b : Z * Z * Z) : Z * Z * Z :=
  let '(a1, a2, a3) := a in let '(b1, b2, b3) := b in (Int64.wrap (a1 + b1), a2 + b2, a3 + b3).

(** A worker's chunk: the counts, and the error it stops with. *)
Fixpoint sweep_chunk (trashedArts : gmap string (list ArtifactTrash)) (bs : list Blob)
    (counts : Z * Z * Z) : M run ((Z * Z * Z) * option error) :=
  match bs with
  | [] => ret (counts, None)
  | b :: bs' =>
      stop <- shouldStop ;;
      if stop : bool then ret (counts, Some errGcStop)
      else
        r <- try (sweep_blob trashedArts b) ;;
        match r with
        | Err e => ret (counts, Some e)
        | Ok c => sweep_chunk trashedArts bs' (add_counts counts c)
        end
  end.

(** The errgroup: every chunk is run, the first error is reported. *)
Fixpoint sweep_chunks (trashedArts : gmap string (list ArtifactTrash)) (cs : list (list Blob))
    (counts : Z * Z * Z) (err : option error) : M run ((Z * Z * Z) * option error) :=
  match cs with
  | [] => ret (counts, err)
  | c :: cs' =>
      r <- sweep_chunk trashedArts c counts ;;
      sweep_chunks trashedArts cs' r.1 (match err with Some e => Some e | None => r.2 end)
  end.

Definition sweep (deleteSet : list Blob) (trashedArts : gmap string (list ArtifactTrash)) : M run unit :=
  let total := Z.of_nat (length deleteSet) in
  if (total <=? 0) || (workers gc <=? 0) then ret tt
  else
    chunkSize <- of_result (divide total (workers gc)) ;;
    r <- sweep_chunks trashedArts (chunks deleteSet chunkSize) (0, 0, 0) None ;;
    match r with
    | (_, Some e) => fail e
    | ((size, bc, mc), None) => saveGCRes size bc mc
    end.

(** ** Run *)

Definition Run : M run unit :=
  r <- try mark ;;
  match r with
  | Err e => if is_gc_stop e then ret tt else fail e
  | Ok (deleteSet, arts) =>
      if negb (dryRun gc) then
        r <- try (sweep deleteSet arts) ;;
        match r with
        | Err e => if is_gc_stop e then cleanCache else fail e
        | Ok _ => cleanCache
        end
      else ret tt
  end.
End GC.

(** ** A dry run changes nothing *)

(** The data of a store: everything but the pending faults. *)
Definition data (s : store) : store := with_faults s [].

Definition same_data (D : store) (s : store) : Prop := data s = D.
Definition run_data (D : store) (r : run) : Prop := same_data D (st r).

Lemma data_next_fault s : data (next_fault s).2 = data s.
Proof. unfold next_fault, store_faulty. by destruct (faults s). Qed.

Lemma preserves_query {A} D (f : store -> A) : preserves (same_data D) (query f).
Proof.
  apply preserves_io; [|by intros s].
  intros s H. unfold same_data in *. by rewrite data_next_fault.
Qed.

Lemma preserves_lift {A} (P : store -> Prop) (m : M store A) :
  preserves P m -> preserves (fun r => P (st r)) (lift m).
Proof. intros H r Hr. unfold lift. specialize (H _ Hr). by destruct (m (st r)). Qed.

Lemma preserves_shouldStop (P : store -> Prop) : preserves (fun r => P (st r)) shouldStop.
Proof. intros r Hr. unfold shouldStop. by destruct (stops r). Qed.

Lemma preserves_saveGCRes (P : store -> Prop) a b c :
  preserves (fun r => P (st r)) (saveGCRes a b c).
Proof. by intros r Hr. Qed.

#[export] Hint Resolve preserves_query preserves_lift preserves_shouldStop preserves_saveGCRes : go.

Section DryRun.
Context (gc : GarbageCollector) (now : Z) (dry : dryRun gc = true).
Context (list_untagged : M store (list (Z * result (list ArtifactTrash)))).
Context (list_reads : forall D, preserves (same_data D) list_untagged).
Context (delete_artifact : Z -> M store unit).

Lemma dry_delete_untagged D l : preserves (run_data D) (delete_untagged gc delete_artifact l).
Proof.
  unfold run_data. induction l as [|[i w] l IH]; cbn [delete_untagged]; [auto with go|].
  rewrite dry. eauto with go.
Qed.

Lemma dry_deletedArt D : preserves (run_data D) (deletedArt gc now list_untagged delete_artifact).
Proof.
  unfold deletedArt. rewrite dry. pose proof (dry_delete_untagged D) as H. unfold run_data in *.
  apply preserves_bind; [|eauto with go]. destruct (deleteUntagged gc); eauto with go.
Qed.

Lemma dry_find D p bs : preserves (same_data D) (FindBlobsShouldUnassociatedWithProject p bs).
Proof. destruct bs; cbn; eauto with go. Qed.

Lemma dry_untagged_pages D fuel ps p last orphans :
  preserves (run_data D) (untagged_pages gc now fuel ps p last orphans).
Proof.
  pose proof (dry_find D) as F. unfold run_data in *.
  revert last orphans. induction fuel as [|fuel IH]; intros last0 orphans; cbn [untagged_pages];
    [auto with go|].
  apply preserves_bind; [auto with go|]. intros [|]; [auto with go|].
  apply preserves_bind; [unfold project_page; auto with go|]. intros [bs|e]; [|auto with go].
  rewrite dry. apply preserves_bind; [auto with go|]. intros [u|e]; [|auto with go].
  destruct (length bs <? ps)%nat; [auto with go|]. destruct (last bs); auto with go.
Qed.

Lemma dry_untagged D ps orphans : preserves (run_data D) (untagged_projects gc now ps orphans).
Proof.
  pose proof (dry_untagged_pages D) as F. unfold run_data in *.
  revert orphans. induction ps as [|p ps IH]; intros orphans; cbn [untagged_projects]; [auto with go|].
  apply preserves_bind; [auto with go|]. intros [|]; [auto with go|].
  destruct p as [p|e]; [|auto]. apply preserves_bind; [auto with go|]. intros r.
  apply preserves_bind; auto with go.
Qed.

Lemma dry_blobs_of_arts D ds : preserves (same_data D) (blobs_of_arts ds).
Proof. induction ds; cbn [blobs_of_arts]; unfold GetBlobsByArtDigest; eauto 6 with go. Qed.

Lemma dry_uselessBlobs D arts : preserves (run_data D) (uselessBlobs gc now arts).
Proof.
  pose proof (dry_blobs_of_arts D) as B. unfold run_data in *. unfold uselessBlobs. rewrite dry.
  unfold GetBlobsNotRefedByProjectBlob. eauto 6 with go.
Qed.

Lemma dry_mark_blobs D bs set counts : preserves (run_data D) (mark_blobs gc now bs set counts).
Proof.
  unfold run_data. revert set counts. induction bs as [|b bs IH]; intros set counts; cbn [mark_blobs];
    [auto with go|]. rewrite dry. auto.
Qed.

Lemma dry_mark D projects :
  preserves (run_data D) (mark gc now list_untagged delete_artifact projects).
Proof.
  pose proof (dry_deletedArt D) as H1. pose proof (dry_untagged D) as H2.
  pose proof (dry_uselessBlobs D) as H3. pose proof (dry_mark_blobs D) as H4.
  unfold run_data in *. unfold mark, markOrSweepUntaggedBlobs. rewrite dry.
  apply preserves_bind; [done|]. intros arts. apply preserves_bind; [done|]. intros orphans.
  apply preserves_bind; [done|]. intros bs. destruct (bs ++ orphans); [eauto with go|].
  apply preserves_bind; [done|]. intros [set [[sz bc] mc]]. eauto with go.
Qed.
End DryRun.

(** A dry run of the garbage collection changes nothing: no table, no
    stored blob and no manifest revision, whatever calls fail and whenever
    it is stopped. *)
Theorem dry_run_changes_nothing gc now attempts list_untagged delete_artifact projects cleanCache r :
  dryRun gc = true ->
  (forall D, preserves (same_data D) list_untagged) ->
  data (st (Run gc now attempts list_untagged delete_artifact projects cleanCache r).2) = data (st r).
Proof.
  intros dry L.
  assert (P : preserves (run_data (data (st r)))
    (Run gc now attempts list_untagged delete_artifact projects cleanCache)).
  { pose proof (dry_mark gc now dry list_untagged L delete_artifact (data (st r)) projects) as H.
    unfold run_data in *. unfold Run. rewrite dry.
    apply preserves_bind; [auto with go|]. intros [[set arts]|e]; [cbn; auto with go|].
    destruct (is_gc_stop e); auto with go. }
  by apply (P r).
Qed.

Definition sample_blob (id : Z) (digest status : string) (version : Z) : Blob :=
  mkBlob id digest "application/octet-stream" 10 status 0 version 0.

Definition sample_store (bs : list Blob) : store :=
  mkStore (list_to_map ((fun b => (ID b, b)) <$> bs)) 100 ∅ ∅ [] ∅
    (list_to_set (Digest <$> bs)) ∅ [].

Lemma dry_run_changes_nothing_witness :
  let gc := mkGC "redis://" true true true 0 1 in
  let r := mkRun (sample_store [sample_blob 1 "a" StatusNone 0]) [] [] in
  let out := Run gc 99 3 (ret []) (fun _ => ret tt) [Ok 1] (ret tt) r in
  out.1 = Ok tt /\ data (st out.2) = data (st r) /\ checkins out.2 = [(10, 1, 0)].
Proof.
  intros gc r out. split; [by vm_compute|]. split; [|by vm_compute].
  apply (dry_run_changes_nothing gc 99 3 (ret []) (fun _ => ret tt) [Ok 1] (ret tt) r); [done|].
  auto with go.
Defined.

(** ** Chunks *)

Lemma concat_slices {A} (l : list A) k n :
  (0 < k)%nat -> (length l <= n * k)%nat ->
  concat ((fun i => slice l (i * k) (Nat.min (i * k + k) (length l))) <$> seq 0 n) = l.
Proof.
  intros K. revert l. induction n as [|n IH]; intros l L.
  - cbn in *. symmetry. apply nil_length_inv. lia.
  - cbn [seq fmap list_fmap concat].
    rewrite <- (take_drop k l) at 3. f_equal.
    + unfold slice. rewrite skipn_O, Nat.sub_0_r.
      destruct (Nat.min_spec (0 * k + k) (length l)) as [[_ E]|[G E]]; rewrite E; [by f_equal|].
      rewrite !firstn_all2 by lia. done.
    + rewrite <- (IH (drop k l)) at 1 by (rewrite length_drop; nia).
      rewrite <- seq_shift, <- list_fmap_compose. f_equal. apply list_fmap_ext.
      intros j i _. cbn [compose]. unfold compose, slice. rewrite length_drop, skipn_skipn.
      replace (S i * k)%nat with (i * k + k)%nat by lia. f_equal. lia.
Qed.

Lemma divide_chunks deleteSet n :
  deleteSet <> [] -> 0 < n ->
  exists k, divide (Z.of_nat (length deleteSet)) n = Ok k /\ 0 < k
  /\ concat (chunks deleteSet k) = deleteSet
  /\ (Z.of_nat (length deleteSet) < n -> length (chunks deleteSet k) = 1%nat).
Proof.
  intros N W. set (t := Z.of_nat (length deleteSet)).
  assert (T : 0 < t) by (destruct deleteSet; [done|unfold t; cbn; lia]).
  pose proof (Z.quot_rem t n ltac:(lia)) as E. pose proof (Z.rem_bound_pos t n ltac:(lia) ltac:(lia)) as B.
  pose proof (Z.quot_pos t n ltac:(lia) ltac:(lia)) as Qp.
  unfold divide. destruct (Z.eqb_spec n 0); [lia|].
  set (k := if Z.quot t n =? 0 then Z.rem t n else Z.quot t n).
  assert (K : 0 < k) by (unfold k; destruct (Z.eqb_spec (Z.quot t n) 0); nia).
  exists k. split; [done|]. split; [done|].
  assert (C : t <= Z.quot (t + k - 1) k * k < t + k).
  { rewrite Z.quot_div_nonneg by lia. pose proof (Z.div_mod (t + k - 1) k ltac:(lia)).
    pose proof (Z.mod_pos_bound (t + k - 1) k K). nia. }
  split.
  - unfold chunks. apply concat_slices; [lia|]. unfold t in *. nia.
  - intros F. assert (k = t) as ->.
    { unfold k. rewrite (Z.quot_small t n), (Z.rem_small t n) by lia. done. }
    unfold chunks. rewrite length_fmap, length_seq.
    fold t. replace (Z.quot (t + t - 1) t) with 1; [done|].
    rewrite Z.quot_div_nonneg by lia. apply (Z.div_unique _ _ _ (t - 1)); lia.
Qed.

(** The sweep divides its candidates among the chunks without losing or
    repeating any: for any number of workers the chunk size is positive and
    the chunks put together are the delete set.  With fewer candidates than
    workers there is one chunk only, hence one worker. *)
Theorem chunks_partition deleteSet n :
  deleteSet <> [] -> 0 < n ->
  exists k, divide (Z.of_nat (length deleteSet)) n = Ok k /\ 0 < k
  /\ concat (chunks deleteSet k) = deleteSet
  /\ (Z.of_nat (length deleteSet) < n -> length (chunks deleteSet k) = 1%nat).
Proof. apply divide_chunks. Qed.

Lemma chunks_partition_witness :
  let l := [sample_blob 1 "a" StatusDelete 1; sample_blob 2 "b" StatusDelete 1;
            sample_blob 3 "c" StatusDelete 1] in
  exists k, divide 3 2 = Ok k /\ 0 < k /\ concat (chunks l k) = l.
Proof.
  intros l. destruct (chunks_partition l 2) as (k & H1 & H2 & H3 & _); [done|lia|].
  by exists k.
Defined.

(** ** Status transitions *)

(** Decides a membership in a list of closed terms. *)
Ltac decide_in H := apply (bool_decide_pack _) in H; vm_compute in H.

(** A status update changes at most the named row, and only along the
    status map: the new status accepts the old one, and the version grows by
    one and is reported; any other row, and everything else, is as before.
    A blob being deleted can only become failed, and a candidate cannot
    become failed without being deleted first. *)
Theorem status_transitions blob now s count b' s' :
  UpdateBlobStatus blob now s = (Ok (count, b'), s') ->
  (count = 0 /\ data s' = data s)
  \/ (exists row, blobs s !! ID blob = Some row
      /\ count = 1 /\ Version b' = Version row + 1 /\ ID b' = ID blob /\ Digest b' = Digest blob
      /\ (exists l, StatusMap (Status blob) = Some l /\ Status row ∈ l)
      /\ data s' = data (with_blobs s (<[ID blob := set_status (Status blob) now row]> (blobs s)))
      /\ (Status row = StatusDeleting -> Status blob = StatusDeleteFailed)
      /\ (Status row = StatusDelete -> Status blob <> StatusDeleteFailed)).
Proof.
  unfold UpdateBlobStatus, dao_UpdateBlobStatus. destruct (StatusMap (Status blob)) as [l|] eqn:E; [|done].
  unfold io. pose proof (data_next_fault s) as D.
  assert (Bl : blobs (next_fault s).2 = blobs s)
    by (unfold next_fault, store_faulty; by destruct (faults s)).
  destruct (next_fault s) as [[e|] s1]; [done|]. cbn in D, Bl. rewrite Bl.
  destruct (blobs s !! ID blob) as [row|] eqn:R; [|intros [= <- <- <-]; by left].
  destruct (may_update blob row) eqn:U; intros [= <- <- <-]; [|by left]. right. exists row.
  assert (I : Status row ∈ l).
  { unfold may_update in U. rewrite E in U. apply andb_true_iff in U as [_ U].
    apply existsb_exists in U as (x & X & ->%String.eqb_eq). by apply list_elem_of_In. }
  split_and!; try done; [by exists l| | |].
  - unfold data, with_blobs, with_faults in *. injection D as ? ? ? ? ? ? ? ?. cbn. congruence.
  - intros F. rewrite F in I. unfold StatusMap in E.
    destruct (String.eqb_spec (Status blob) StatusNone); [injection E as <-; by decide_in I|].
    destruct (String.eqb_spec (Status blob) StatusDelete); [injection E as <-; by decide_in I|].
    destruct (String.eqb_spec (Status blob) StatusDeleting); [injection E as <-; by decide_in I|].
    by destruct (String.eqb_spec (Status blob) StatusDeleteFailed).
  - intros F H. rewrite F in I. rewrite H in E. injection E as <-.
    by decide_in I.
Qed.

Lemma status_transitions_witness :
  let s := sample_store [sample_blob 1 "a" StatusDeleting 4] in
  let blob := sample_blob 1 "a" StatusDeleteFailed 4 in
  exists b' s', UpdateBlobStatus blob 99 s = (Ok (1, b'), s') /\ Version b' = 5.
Proof.
  intros s blob.
  destruct (UpdateBlobStatus blob 99 s) as [[[c b']|e] s'] eqn:E; [|by vm_compute in E].
  destruct (status_transitions blob 99 s c b' s' E) as [[H _]|(row & R & -> & V & _)].
  - subst c. by vm_compute in E.
  - exists b', s'. split; [done|]. rewrite V. vm_compute in R. by injection R as <-.
Defined.

(** ** The sweep touches its candidates only *)

Section Frame.
Context (s0 : store) (ids : list Z) (digests : list string).

(** Everything outside the candidates is as in [s0]. *)
Definition framed (s : store) : Prop :=
  (forall id, id ∉ ids -> blobs s !! id = blobs s0 !! id)
  /\ (forall d, d ∉ digests -> d ∈ storage s <-> d ∈ storage s0)
  /\ project_blob s = project_blob s0 /\ artifacts s = artifacts s0.

Definition rframed (r : run) : Prop := framed (st r).

(** A blob whose row and data the sweep may touch. *)
Definition owned (b : Blob) : Prop := ID b ∈ ids /\ Digest b ∈ digests.

Lemma framed_next s : framed s -> framed (next_fault s).2.
Proof. unfold next_fault, store_faulty. by destruct (faults s). Qed.

Lemma framed_io {A} (f : M store A) : preserves framed f -> preserves framed (io f).
Proof. apply preserves_io. apply framed_next. Qed.

Lemma framed_modify f : (forall s, framed s -> framed (f s)) -> preserves framed (io (modify f)).
Proof. intros H. apply framed_io, preserves_modify, H. Qed.

Lemma framed_set_blob id b s : id ∈ ids -> framed s -> framed (with_blobs s (<[id := b]> (blobs s))).
Proof.
  intros I (B & S & P & A). split_and!; [|done|done|done].
  intros i Hi. cbn. rewrite lookup_insert_ne by (intros ->; done). by apply B.
Qed.

Lemma framed_delete_blob id s : id ∈ ids -> framed s -> framed (with_blobs s (delete id (blobs s))).
Proof.
  intros I (B & S & P & A). split_and!; [|done|done|done].
  intros i Hi. cbn. rewrite lookup_delete_ne by (intros ->; done). by apply B.
Qed.

Lemma framed_delete_data d s : d ∈ digests -> framed s -> framed (with_storage s (storage s ∖ {[d]})).
Proof.
  intros I (B & S & P & A). split_and!; [done| |done|done].
  intros e He. cbn. rewrite <- (S e He). set_solver.
Qed.

Lemma framed_UpdateBlobStatus b status now :
  owned b -> ensures framed (UpdateBlobStatus (with_status b status) now) (fun r => owned r.2).
Proof.
  intros [O1 O2] s Hs. unfold UpdateBlobStatus, dao_UpdateBlobStatus.
  destruct (StatusMap (Status (with_status b status))) as [l|]; [|done].
  unfold io. pose proof (framed_next s Hs) as F. destruct (next_fault s) as [[e|] s1]; [done|].
  cbn in F. cbn [ID with_status]. destruct (blobs s1 !! ID b) as [row|]; [|done].
  destruct (may_update _ row); [|done]. cbn. split; [by apply framed_set_blob|done].
Qed.

Lemma framed_lift {A} (m : M store A) : preserves framed m -> preserves rframed (lift m).
Proof. apply preserves_lift. Qed.

Lemma framed_lift_ensures {A} (m : M store A) Q : ensures framed m Q -> ensures rframed (lift m) Q.
Proof. intros H r Hr. unfold lift. specialize (H _ Hr). by destruct (m (st r)). Qed.

Lemma framed_retried attempts m : preserves framed m -> preserves rframed (retried attempts m).
Proof.
  intros H. apply preserves_Retry. intros r Hr. unfold ignoreNotFound, readonly_aborts.
  pose proof (framed_lift m H r Hr) as L. destruct (lift m r) as [[a|e] r']; [done|].
  by destruct (IsNotFoundErr _).
Qed.

Lemma framed_ignore m : preserves rframed m -> preserves rframed (ignoreNotFound m).
Proof.
  intros H r Hr. unfold ignoreNotFound. specialize (H r Hr).
  destruct (m r) as [[a|e] r']; [done|]. by destruct (IsNotFoundErr e).
Qed.

Lemma framed_abandon b e now : owned b -> ensures rframed (abandon now b e) owned.
Proof.
  intros O. unfold abandon, markDeleteFailed.
  eapply ensures_bind.
  - apply (ensures_try _ _ owned). eapply ensures_bind.
    + apply ensures_try, framed_lift_ensures, framed_UpdateBlobStatus, O.
    + intros [[c b']|e'] H; [|apply ensures_fail].
      destruct (c =? 0); [apply ensures_fail|apply ensures_ret, H].
  - intros [b'|e'] H.
    + destruct (is_readonly e); [apply ensures_fail|by apply ensures_ret].
    + destruct (IsNotFoundErr e'); [|apply ensures_fail].
      destruct (is_readonly e); [apply ensures_fail|by apply ensures_ret].
Qed.

Lemma framed_v2DeleteManifest repo d : preserves framed (v2DeleteManifest repo d).
Proof.
  apply preserves_bind; [apply framed_io; by intros s|].
  intros [|]; [by apply framed_modify|apply preserves_ret].
Qed.

Lemma framed_trash_Delete id : preserves framed (trash_Delete id).
Proof. apply framed_io. intros s Hs. by destruct (trash s !! id). Qed.

Lemma framed_DeleteBlob id : id ∈ ids -> preserves framed (DeleteBlob id).
Proof.
  intros I. apply framed_io. intros s Hs. destruct (blobs s !! id); [|done].
  by apply framed_delete_blob.
Qed.

Lemma framed_ctl_DeleteBlob d : d ∈ digests -> preserves framed (ctl_DeleteBlob d).
Proof.
  intros I. apply framed_io. intros s Hs. destruct (bool_decide (d ∈ storage s)); [|done].
  by apply framed_delete_data.
Qed.

Context (gc : GarbageCollector) (now : Z) (attempts : nat).

Lemma framed_sweep_arts b arts skipped :
  owned b -> ensures rframed (sweep_arts gc now attempts b arts skipped) (fun r => owned r.1).
Proof.
  revert b skipped. induction arts as [|art arts IH]; intros b skipped O; cbn [sweep_arts].
  { by apply ensures_ret. }
  eapply ensures_bind.
  { apply ensures_of_preserves, preserves_try. destruct (deleteTag gc); [|apply preserves_ret].
    apply framed_retried, framed_v2DeleteManifest. }
  intros [u|e] _.
  2:{ eapply ensures_bind; [by apply framed_abandon|]. intros b' O'. by apply IH. }
  eapply ensures_bind.
  { apply ensures_of_preserves, preserves_try, framed_retried. by apply framed_modify. }
  intros [u'|e] _.
  2:{ eapply ensures_bind; [by apply framed_abandon|]. intros b' O'. by apply IH. }
  eapply ensures_bind.
  { apply ensures_of_preserves, framed_ignore, framed_lift. by apply framed_modify. }
  intros _ _. eapply ensures_bind.
  { apply ensures_of_preserves, framed_ignore, framed_lift, framed_trash_Delete. }
  intros _ _. by apply IH.
Qed.

Lemma framed_sweep_blob trashed b :
  owned b -> preserves rframed (sweep_blob gc now attempts trashed b).
Proof.
  intros O. eapply ensures_preserves with (Q := fun _ => True). unfold sweep_blob.
  eapply ensures_bind; [apply ensures_try, framed_lift_ensures, framed_UpdateBlobStatus, O|].
  intros [[c b1]|e] O1; [|by apply ensures_ret]. cbn in O1.
  destruct (c =? 0); [by apply ensures_ret|].
  eapply (ensures_bind _ _ _ (fun r => owned r.1)).
  { destruct (trashed !! Digest b1); [|by apply ensures_ret].
    destruct (IsManifest b1); [by apply framed_sweep_arts|by apply ensures_ret]. }
  intros [b2 skipped] O2. cbn in O2. destruct skipped; [by apply ensures_ret|].
  eapply ensures_bind.
  { apply ensures_of_preserves. destruct (negb (IsForeignLayer b2)); [|apply preserves_ret].
    apply preserves_try, framed_retried, framed_ctl_DeleteBlob, O2. }
  intros [u|e] _.
  2:{ eapply ensures_bind; [by apply framed_abandon|]. intros; by apply ensures_ret. }
  eapply ensures_bind.
  { apply ensures_of_preserves, preserves_try, framed_ignore, framed_lift, framed_DeleteBlob, O2. }
  intros [u'|e] _; [by apply ensures_ret|].
  eapply ensures_bind; [by apply framed_abandon|]. intros; apply ensures_fail.
Qed.

Lemma framed_sweep_chunk trashed bs counts :
  Forall owned bs -> preserves rframed (sweep_chunk gc now attempts trashed bs counts).
Proof.
  intros O. revert counts. induction O as [|b bs Ob _ IH]; intros counts; cbn [sweep_chunk];
    [apply preserves_ret|].
  apply preserves_bind; [apply preserves_shouldStop|]. intros [|]; [apply preserves_ret|].
  apply preserves_bind; [by apply preserves_try, framed_sweep_blob|].
  intros [c|e]; [apply IH|apply preserves_ret].
Qed.

Lemma framed_sweep_chunks trashed cs counts err :
  Forall owned (concat cs) -> preserves rframed (sweep_chunks gc now attempts trashed cs counts err).
Proof.
  revert counts err. induction cs as [|c cs IH]; intros counts err O; cbn [sweep_chunks];
    [apply preserves_ret|].
  cbn in O. apply Forall_app in O as [O1 O2].
  apply preserves_bind; [by apply framed_sweep_chunk|]. intros r. by apply IH.
Qed.
End Frame.

(** The sweep removes nothing but its candidates: whatever calls fail and
    whenever it is stopped, the rows of other blobs, the stored data under
    other digests, the associations of blobs with projects and the artifacts
    are as before. *)
Theorem sweep_only_candidates gc now attempts deleteSet trashed r :
  framed (st r) (ID <$> deleteSet) (Digest <$> deleteSet)
    (st (sweep gc now attempts deleteSet trashed r).2).
Proof.
  assert (H : preserves (rframed (st r) (ID <$> deleteSet) (Digest <$> deleteSet))
                (sweep gc now attempts deleteSet trashed)).
  { unfold sweep. destruct (Z.leb_spec (Z.of_nat (length deleteSet)) 0) as [L|L]; [apply preserves_ret|].
    destruct (Z.leb_spec (workers gc) 0) as [W|W]; [apply preserves_ret|]. cbn [orb].
    assert (C : exists k, divide (Z.of_nat (length deleteSet)) (workers gc) = Ok k
                /\ concat (chunks deleteSet k) = deleteSet).
    { destruct deleteSet as [|b l]; [done|].
      destruct (divide_chunks (b :: l) (workers gc)) as (k & H1 & _ & H2 & _); [done|done|].
      by exists k. }
    destruct C as (k & E & C). intros r0 Hr0. unfold bind at 1, of_result. rewrite E.
    eapply preserves_bind; [apply framed_sweep_chunks| |exact Hr0].
    - rewrite C. apply Forall_forall. intros b B. split; by apply list_elem_of_fmap_2.
    - intros [[[sz bc] mc] [e|]]; [apply preserves_fail|apply preserves_saveGCRes]. }
  by apply H.
Qed.

(** ** Clients that ask for a blob while it is collected *)

Lemma UpdateBlobStatus_cases blob now s r s' :
  UpdateBlobStatus blob now s = (r, s') ->
  storage s' = storage s
  /\ ((blobs s' = blobs s /\ forall c b', r = Ok (c, b') -> c = 0)
      \/ exists row b', r = Ok (1, b') /\ blobs s !! ID blob = Some row /\ may_update blob row = true
         /\ blobs s' = <[ID blob := set_status (Status blob) now row]> (blobs s)
         /\ ID b' = ID blob /\ Version b' = Version row + 1).
Proof.
  unfold UpdateBlobStatus, dao_UpdateBlobStatus.
  destruct (StatusMap (Status blob)) as [l|] eqn:E; [|intros [= <- <-]; split; [done|by left]].
  unfold io.
  assert (N : blobs (next_fault s).2 = blobs s /\ storage (next_fault s).2 = storage s)
    by (unfold next_fault, store_faulty; by destruct (faults s)).
  destruct (next_fault s) as [[e|] s1]; cbn in N; destruct N as [N1 N2].
  { intros [= <- <-]. split; [done|by left]. }
  rewrite N1. destruct (blobs s !! ID blob) as [row|].
  - destruct (may_update blob row) eqn:U; intros [= <- <-].
    + split; [done|right]. exists row. eexists. split_and!; try done.
    + split; [done|left]. split; [done|]. by intros ? ? [= <- _].
  - intros [= <- <-]. split; [done|left]. split; [done|]. by intros ? ? [= <- _].
Qed.

(** Whom a status update may act on. *)
Lemma may_update_none blob row :
  Status blob = StatusNone -> may_update blob row = true ->
  Version blob <= Version row /\ Status row <> StatusDeleting.
Proof.
  intros E. unfold may_update. rewrite E, String.eqb_refl, andb_true_iff, Z.leb_le. intros [V S]. split; [done|]. intros F. by rewrite F in S.
Qed.

Lemma may_update_other blob row :
  Status blob <> StatusNone -> may_update blob row = true -> Version row = Version blob.
Proof.
  intros E. unfold may_update. rewrite (proj2 (String.eqb_neq _ _)) by done.
  rewrite andb_true_iff, Z.eqb_eq. by intros [].
Qed.

Section Touching.
Context (id : Z) (digest : string).

(** Where the collector is with the blob: it has listed it as useless, marked
    it, set it to deleting, removed its data; it is done with it; or the data
    is gone and the row could not be removed. *)
Inductive gc_pc :=
| Listed (b : Blob)
| Marked (b : Blob)
| Deleting (b : Blob)
| Gone (b : Blob)
| Done
| Lost.

(** [touched]: some request has put the blob back to normal since it was
    listed, and so was told that the blob is there.  [late]: some request has
    taken a deletion for failed while the collector was still at it, because
    the time window was over. *)
Record world := mkWorld { w_st : store; w_pc : gc_pc; touched : bool; late : bool }.

(** The collector has set the blob to deleting and is not done with it. *)
Definition at_it (c : gc_pc) : bool :=
  match c with Deleting _ | Gone _ => true | _ => false end.

Definition after_update (r : result (Z * Blob)) (next : Blob -> gc_pc) : gc_pc :=
  match r with
  | Ok (c, b) => if c =? 0 then Done else next b
  | Err _ => Done
  end.

(** One call of the collector or of a client.  The clients' steps are over
    approximated: they act on whatever version of the row they have read, and
    take a deletion for failed whatever the time. *)
Inductive gc_step : world -> world -> Prop :=
| s_mark b now s t l r s' :
    UpdateBlobStatus (with_status b StatusDelete) now s = (r, s') ->
    gc_step (mkWorld s (Listed b) t l) (mkWorld s' (after_update r Marked) t l)
| s_deleting b now s t l r s' :
    UpdateBlobStatus (with_status b StatusDeleting) now s = (r, s') ->
    gc_step (mkWorld s (Marked b) t l) (mkWorld s' (after_update r Deleting) t l)
| s_data b s t l r s' :
    ctl_DeleteBlob digest s = (r, s') ->
    gc_step (mkWorld s (Deleting b) t l) (mkWorld s' (if is_ok r then Gone b else Deleting b) t l)
| s_failed b now s t l r s' :
    UpdateBlobStatus (with_status b StatusDeleteFailed) now s = (r, s') ->
    gc_step (mkWorld s (Deleting b) t l) (mkWorld s' Done t l)
| s_row b s t l s' :
    DeleteBlob id s = (Ok tt, s') ->
    gc_step (mkWorld s (Gone b) t l) (mkWorld s' Done t l)
| s_row_failed b now s t l r s' :
    UpdateBlobStatus (with_status b StatusDeleteFailed) now s = (r, s') ->
    gc_step (mkWorld s (Gone b) t l) (mkWorld s' Lost t l)
| s_crash s c t l :
    gc_step (mkWorld s c t l)
      (mkWorld s (match c with Gone _ | Lost => Lost | _ => Done end) t l)
| s_touch bb now s c t l r s' :
    ID bb = id -> Touch bb now s = (r, s') ->
    gc_step (mkWorld s c t l) (mkWorld s' c (t || is_ok r) l)
| s_client_failed bb now s c t l r s' :
    ID bb = id -> Fail bb now s = (r, s') ->
    gc_step (mkWorld s c t l) (mkWorld s' c t (l || (at_it c && is_ok r)))
| s_other s c t l s' :
    blobs s' !! id = blobs s !! id -> (digest ∈ storage s -> digest ∈ storage s') ->
    gc_step (mkWorld s c t l) (mkWorld s' c t l).

Definition present (s : store) : Prop := is_Some (blobs s !! id) /\ digest ∈ storage s.

Definition version_of (s : store) (v : Z) (t : bool) : Prop :=
  forall row, blobs s !! id = Some row -> v <= Version row /\ (t = true -> v < Version row).

Definition safe (w : world) : Prop :=
  let s := w_st w in
  let t := touched w in
  late w = false ->
  match w_pc w with
  | Listed b | Marked b => present s /\ ID b = id /\ version_of s (Version b) t
  | Deleting b => present s /\ t = false /\ ID b = id
                  /\ exists row, blobs s !! id = Some row /\ Status row = StatusDeleting
  | Gone b => t = false /\ ID b = id
              /\ exists row, blobs s !! id = Some row /\ Status row = StatusDeleting
  | Done => present s \/ (t = false /\ blobs s !! id = None)
  | Lost => True
  end.

Lemma update_collector b status now s t l r s' next :
  status <> StatusNone -> ID b = id -> present s -> version_of s (Version b) t ->
  UpdateBlobStatus (with_status b status) now s = (r, s') ->
  (forall b', t = false -> present s' -> ID b' = id -> version_of s' (Version b') false ->
     (exists row, blobs s' !! id = Some row /\ Status row = status) ->
     safe (mkWorld s' (next b') t l)) ->
  safe (mkWorld s' (after_update r next) t l).
Proof.
  intros N I [Row D] V U K. destruct (UpdateBlobStatus_cases _ _ _ _ _ U) as (S & [[B Z]|C]).
  - assert (after_update r next = Done) as ->.
    { destruct r as [[c b']|e]; [|done]. by rewrite (Z c b' eq_refl). }
    intros _. left. unfold present. cbn. by rewrite S, B.
  - destruct C as (row & b' & -> & R & M & B & I' & V'). cbn [with_status ID] in *. rewrite I in *.
    apply may_update_other in M; [|done]. cbn in M. destruct (V row R) as [_ T].
    assert (t = false) as -> by (destruct t; [specialize (T eq_refl); lia|done]).
    cbn. apply K; try done.
    + unfold present. rewrite S, B, lookup_insert_eq. split; [by eexists|done].
    + unfold version_of. rewrite B, lookup_insert_eq. intros ? [= <-]. cbn. split; [lia|done].
    + rewrite B, lookup_insert_eq. by eexists.
Qed.

(** A touch: it keeps the data and the row, does nothing to a blob being
    deleted or already gone, and raises the version when it succeeds. *)
Lemma touch_cases bb now s r s' :
  ID bb = id -> Touch bb now s = (r, s') ->
  storage s' = storage s
  /\ ((is_ok r = false /\ blobs s' = blobs s)
      \/ exists row row', is_ok r = true /\ blobs s !! id = Some row /\ Status row <> StatusDeleting
         /\ blobs s' !! id = Some row' /\ Version row' = Version row + 1).
Proof.
  intros I. unfold Touch, bind.
  destruct (UpdateBlobStatus (with_status bb StatusNone) now s) as [u s1] eqn:U.
  destruct (UpdateBlobStatus_cases _ _ _ _ _ U) as (S & [[B Z]|C]).
  - destruct u as [[c b']|e]; [rewrite (Z c b' eq_refl)|]; intros [= <- <-]; (split; [done|by left]).
  - destruct C as (row & b' & -> & R & M & B & _ & _). intros [= <- <-]. split; [done|right].
    cbn [with_status ID] in *. rewrite I in *. apply may_update_none in M as [_ M]; [|done].
    exists row. eexists. rewrite B, lookup_insert_eq. done.
Qed.

Lemma fail_cases bb now s r s' :
  ID bb = id -> Fail bb now s = (r, s') ->
  storage s' = storage s
  /\ forall row', blobs s' !! id = Some row' ->
     exists row, blobs s !! id = Some row /\ Version row <= Version row'.
Proof.
  intros I. unfold Fail, bind.
  destruct (UpdateBlobStatus (with_status bb StatusDeleteFailed) now s) as [u s1] eqn:U.
  destruct (UpdateBlobStatus_cases _ _ _ _ _ U) as (S & [[B Z]|C]).
  - intros H. assert (s' = s1) as ->.
    { destruct u as [[c b']|e]; [rewrite (Z c b' eq_refl) in H|]; by injection H as <- <-. }
    split; [done|]. intros row' R. rewrite B in R. exists row'. split; [done|lia].
  - destruct C as (row & b' & -> & R & M & B & _ & _). intros [= <- <-]. split; [done|].
    cbn [with_status ID] in *. rewrite I in *. intros row'. rewrite B, lookup_insert_eq.
    intros [= <-]. exists row. split; [done|]. cbn. lia.
Qed.

Lemma failed_fail bb now s e s' : Fail bb now s = (Err e, s') -> blobs s' = blobs s.
Proof.
  unfold Fail, bind.
  destruct (UpdateBlobStatus (with_status bb StatusDeleteFailed) now s) as [u s1] eqn:U.
  destruct (UpdateBlobStatus_cases _ _ _ _ _ U) as (S & [[B Z]|C]).
  - destruct u as [[c b']|e']; [rewrite (Z c b' eq_refl)|]; by intros [= _ <-].
  - destruct C as (row & b' & -> & _). by intros [=].
Qed.

Lemma fail_keeps_row bb now s r s' :
  ID bb = id -> Fail bb now s = (r, s') -> is_Some (blobs s' !! id) <-> is_Some (blobs s !! id).
Proof.
  intros I. unfold Fail, bind.
  destruct (UpdateBlobStatus (with_status bb StatusDeleteFailed) now s) as [u s1] eqn:U.
  destruct (UpdateBlobStatus_cases _ _ _ _ _ U) as (S & [[B Z]|C]).
  - intros H. assert (s' = s1) as ->.
    { destruct u as [[c b']|e]; [rewrite (Z c b' eq_refl) in H|]; by injection H as <- <-. }
    by rewrite B.
  - destruct C as (row & b' & -> & R & M & B & _ & _). intros [= <- <-].
    cbn [with_status ID] in *. rewrite I in *. rewrite B, lookup_insert_eq, R.
    split; intros _; by eexists.
Qed.

Lemma safe_touch bb now s c t l r s' :
  ID bb = id -> Touch bb now s = (r, s') ->
  safe (mkWorld s c t l) -> safe (mkWorld s' c (t || is_ok r) l).
Proof.
  intros I T H Hl. cbn in Hl. specialize (H Hl). cbn in H.
  destruct (touch_cases _ _ _ _ _ I T) as (S & [[-> B]|C]).
  - rewrite orb_false_r. unfold present, version_of in *. cbn in *.
    destruct c; rewrite ?S, ?B; done.
  - destruct C as (row & row' & -> & R & N & R' & V).
    assert (P : present s -> present s').
    { intros [_ D]. unfold present. rewrite R', S. split; [by eexists|done]. }
    cbn in *.
    destruct c as [b|b|b|b| |]; try done.
    + destruct H as (Hp & Hi & Hv). split_and!; [by apply P|done|].
      intros k K. rewrite R' in K. injection K as <-. destruct (Hv row R). lia.
    + destruct H as (Hp & Hi & Hv). split_and!; [by apply P|done|].
      intros k K. rewrite R' in K. injection K as <-. destruct (Hv row R). lia.
    + destruct H as (_ & _ & _ & k & K & Sk). congruence.
    + destruct H as (_ & _ & k & K & Sk). congruence.
    + left. apply P. destruct H as [H|[_ H]]; [done|congruence].
Qed.

Lemma safe_client_failed bb now s c t l r s' :
  ID bb = id -> Fail bb now s = (r, s') -> safe (mkWorld s c t l) ->
  safe (mkWorld s' c t (l || (at_it c && is_ok r))).
Proof.
  intros I F H Hl. cbn in Hl. apply orb_false_iff in Hl as [Hl N]. specialize (H Hl). cbn in H.
  destruct (fail_cases _ _ _ _ _ I F) as [S Ve].
  assert (B : at_it c = true -> blobs s' = blobs s).
  { intros A. rewrite A in N. destruct r as [x|e]; [done|]. by eapply failed_fail. }
  pose proof (fail_keeps_row _ _ _ _ _ I F) as K.
  assert (P : present s -> present s').
  { intros [R D]. split; [by apply K|by rewrite S]. }
  assert (W : forall v, version_of s v t -> version_of s' v t).
  { intros v Hv row' R'. destruct (Ve row' R') as (row & R & L). destruct (Hv row R) as [H1 H2].
    split; [lia|]. intros T. specialize (H2 T). lia. }
  cbn in *. destruct c as [b|b|b|b| |]; try done.
  - destruct H as (Hp & Hi & Hv). auto.
  - destruct H as (Hp & Hi & Hv). auto.
  - rewrite (B eq_refl). destruct H as (Hp & ?). auto.
  - by rewrite (B eq_refl).
  - destruct H as [H|[T H]]; [left; auto|right]. split; [done|].
    destruct (blobs s' !! id) eqn:E; [|done]. destruct K as [K _].
    destruct K as [k K]; [by eexists|congruence].
Qed.

Lemma safe_data b s t l r s' :
  ctl_DeleteBlob digest s = (r, s') -> safe (mkWorld s (Deleting b) t l) ->
  safe (mkWorld s' (if is_ok r then Gone b else Deleting b) t l).
Proof.
  intros U H Hl. cbn in Hl. destruct (H Hl) as (P & Ht & I & R). cbn in P, Ht, I, R. subst t.
  unfold ctl_DeleteBlob, io in U.
  assert (Nx : blobs (next_fault s).2 = blobs s /\ storage (next_fault s).2 = storage s)
    by (unfold next_fault, store_faulty; by destruct (faults s)).
  destruct (next_fault s) as [[e|] s1]; cbn in Nx; destruct Nx as [N1 N2].
  - injection U as <- <-. cbn. unfold present in *. by rewrite N1, N2.
  - destruct (bool_decide (digest ∈ storage s1)); injection U as <- <-; cbn; unfold present in *;
      rewrite N1; [done|by rewrite N2].
Qed.

Lemma safe_step w w' : gc_step w w' -> safe w -> safe w'.
Proof.
  destruct 1 as [b now s t l r s' U|b now s t l r s' U|b s t l r s' U|b now s t l r s' U|b s t l s' U
    |b now s t l r s' U|s c t l|bb now s c t l r s' I U|bb now s c t l r s' I U|s c t l s' B D];
    intros H.
  3: by eapply safe_data.
  8: by eapply safe_client_failed.
  7: by eapply safe_touch.
  all: destruct l; [done|]; specialize (H eq_refl); cbn in H.
  - destruct H as (P & I & V). eapply (update_collector b StatusDelete); try done.
    intros b' -> P' I' V' _. done.
  - destruct H as (P & I & V). eapply (update_collector b StatusDeleting); try done.
  - intros _. destruct H as (P & -> & I & R). left. cbn.
    destruct (UpdateBlobStatus_cases _ _ _ _ _ U) as (S & [[B _]|(row & b' & _ & _ & _ & B & _ & _)]);
      unfold present in *; rewrite S, B; [done|]. cbn. rewrite I, lookup_insert_eq.
    split; [by eexists|tauto].
  - intros _. destruct H as (-> & I & row & R & S). right. cbn. split; [done|].
    unfold DeleteBlob, io in U.
    assert (Nx : blobs (next_fault s).2 = blobs s)
      by (unfold next_fault, store_faulty; by destruct (faults s)).
    destruct (next_fault s) as [[e|] s1]; cbn in Nx; [done|]. rewrite Nx, R in U.
    injection U as <-. cbn. by rewrite lookup_delete_eq.
  - done.
  - intros _. destruct c; cbn in *; try done; left; tauto.
  - intros _. unfold present, version_of in *. cbn in *. rewrite B. destruct c; try done; tauto.
Qed.

Lemma safe_steps w w' : rtc gc_step w w' -> safe w -> safe w'.
Proof. induction 1; [done|]. intros H1. by apply IHrtc, (safe_step x y). Qed.
End Touching.

(** C2: the collector does not remove a blob a client was told is there.  From
    the moment the collector has listed a blob as useless, under any
    interleaving of its calls, their failures and its crash with clients that
    touch the blob, take its deletion for failed, or do anything else: a blob
    that some request has put back to normal since still has its row and its
    data, with two exceptions.  The first is a deletion that a client took for
    failed (its time window was over) while the collector was still at it:
    [late].  The second is a blob whose data the collector had removed and
    whose row it then failed to remove: [Lost].  [late_client_loses_blob] and
    [row_left_behind] show that both exceptions are real. *)
Theorem touched_blob_survives id digest b row s w :
  blobs s !! id = Some row -> ID b = id -> Version b = Version row -> digest ∈ storage s ->
  rtc (gc_step id digest) (mkWorld s (Listed b) false false) w ->
  touched w = true -> late w = false -> w_pc w <> Lost ->
  is_Some (blobs (w_st w) !! id) /\ digest ∈ storage (w_st w).
Proof.
  intros R I V D H T Hl L.
  assert (S : safe id digest w).
  { eapply safe_steps; [exact H|]. intros _. cbn. split; [|split; [done|]].
    - split; [by eexists|done].
    - intros r R'. cbn in R'. rewrite R in R'. injection R' as <-. split; [lia|done]. }
  specialize (S Hl). destruct w as [s' c t l]. cbn in T, L. subst t. unfold present in S.
  cbn in S |- *. destruct c; [tauto|tauto| | | |done].
  - by destruct S as (_ & ? & _).
  - by destruct S as (? & _).
  - destruct S as [S|[? _]]; done.
Qed.

Lemma touched_blob_survives_witness :
  let b := sample_blob 1 "a" StatusNone 0 in
  let s := sample_store [b] in
  exists w, rtc (gc_step 1 "a") (mkWorld s (Listed b) false false) w
  /\ touched w = true /\ w_pc w = Done
  /\ is_Some (blobs (w_st w) !! 1) /\ "a"%string ∈ storage (w_st w).
Proof.
  intros b s.
  set (m := UpdateBlobStatus (with_status b StatusDelete) 5 s).
  set (t := Touch b 6 m.2).
  set (b1 := sample_blob 1 "a" StatusDelete 1).
  set (d := UpdateBlobStatus (with_status b1 StatusDeleting) 7 t.2).
  set (w := mkWorld d.2 Done true false).
  assert (R : rtc (gc_step 1 "a") (mkWorld s (Listed b) false false) w).
  { eapply rtc_l; [apply (s_mark 1 "a" b 5 s false false m.1 m.2); by vm_compute|].
    replace (after_update m.1 Marked) with (Marked b1) by (by vm_compute).
    eapply rtc_l; [apply (s_touch 1 "a" b 6 m.2 (Marked b1) false false t.1 t.2); by vm_compute|].
    replace (false || is_ok t.1) with true by (by vm_compute).
    eapply rtc_l; [apply (s_deleting 1 "a" b1 7 t.2 true false d.1 d.2); by vm_compute|].
    replace (after_update d.1 Deleting) with Done by (by vm_compute). apply rtc_refl. }
  exists w. split; [exact R|]. split; [done|]. split; [done|].
  apply (touched_blob_survives 1 "a" b b s w); try done.
Defined.

Section Exceptions.
Let b := sample_blob 1 "a" StatusNone 0.
Let s := sample_store [b].
Let b1 := sample_blob 1 "a" StatusDelete 1.
Let b2 := sample_blob 1 "a" StatusDeleting 2.
Let m := UpdateBlobStatus (with_status b StatusDelete) 5 s.
Let d := UpdateBlobStatus (with_status b1 StatusDeleting) 7 m.2.

Lemma collector_at_it :
  rtc (gc_step 1 "a") (mkWorld s (Listed b) false false) (mkWorld d.2 (Deleting b2) false false).
Proof.
  eapply rtc_l; [apply (s_mark 1 "a" b 5 s false false m.1 m.2); by vm_compute|].
  replace (after_update m.1 Marked) with (Marked b1) by (by vm_compute).
  eapply rtc_l; [apply (s_deleting 1 "a" b1 7 m.2 false false d.1 d.2); by vm_compute|].
  replace (after_update d.1 Deleting) with (Deleting b2) by (by vm_compute). apply rtc_refl.
Qed.

(** The first exception: neither the removal of the data nor that of the row
    looks at the version of the row, so a client that takes the deletion for
    failed, touches the blob and is told that it is there loses it all the
    same when the collector was only slow. *)
Lemma late_client_loses_blob :
  exists w, rtc (gc_step 1 "a") (mkWorld s (Listed b) false false) w
  /\ touched w = true /\ late w = true /\ w_pc w = Done
  /\ blobs (w_st w) !! 1 = None /\ "a"%string ∉ storage (w_st w).
Proof.
  set (f := Fail b2 900 d.2). set (t := Touch (sample_blob 1 "a" StatusDeleteFailed 3) 901 f.2).
  set (g := ctl_DeleteBlob "a" t.2). set (x := DeleteBlob 1 g.2).
  exists (mkWorld x.2 Done true true). split; [|split_and!; try (by vm_compute); by apply bool_decide_eq_false_1].
  etrans; [exact collector_at_it|].
  eapply rtc_l; [apply (s_client_failed 1 "a" b2 900 d.2 (Deleting b2) false false f.1 f.2);
    by vm_compute|].
  replace (false || (at_it (Deleting b2) && is_ok f.1)) with true by (by vm_compute).
  eapply rtc_l; [apply (s_touch 1 "a" (sample_blob 1 "a" StatusDeleteFailed 3) 901 f.2
    (Deleting b2) false true t.1 t.2); by vm_compute|].
  replace (false || is_ok t.1) with true by (by vm_compute).
  eapply rtc_l; [apply (s_data 1 "a" b2 t.2 true true g.1 g.2); by vm_compute|].
  replace (is_ok g.1) with true by (by vm_compute).
  eapply rtc_l; [apply (s_row 1 "a" b2 g.2 true true x.2); by vm_compute|]. apply rtc_refl.
Qed.

(** The second exception: when the row cannot be removed after the data, the
    blob is left as failed, and a later request touches it with success. *)
Lemma row_left_behind :
  exists w, rtc (gc_step 1 "a") (mkWorld s (Listed b) false false) w
  /\ touched w = true /\ late w = false /\ w_pc w = Lost
  /\ is_Some (blobs (w_st w) !! 1) /\ "a"%string ∉ storage (w_st w).
Proof.
  set (g := ctl_DeleteBlob "a" d.2).
  set (f := UpdateBlobStatus (with_status b2 StatusDeleteFailed) 8 g.2).
  set (t := Touch (sample_blob 1 "a" StatusDeleteFailed 3) 901 f.2).
  exists (mkWorld t.2 Lost true false). split; [|split_and!; try (by vm_compute); try (by vm_compute; eexists); by apply bool_decide_eq_false_1].
  etrans; [exact collector_at_it|].
  eapply rtc_l; [apply (s_data 1 "a" b2 d.2 false false g.1 g.2); by vm_compute|].
  replace (is_ok g.1) with true by (by vm_compute).
  eapply rtc_l; [apply (s_row_failed 1 "a" b2 8 g.2 false false f.1 f.2); by vm_compute|].
  eapply rtc_l; [apply (s_touch 1 "a" (sample_blob 1 "a" StatusDeleteFailed 3) 901 f.2
    Lost false false t.1 t.2); by vm_compute|].
  replace (false || is_ok t.1) with true by (by vm_compute). apply rtc_refl.
Qed.
End Exceptions.

(** ** A mount does not protect the blob *)

Lemma nofault_io {A} (f : M store A) s : faults s = [] -> io f s = f s.
Proof. intros H. unfold io, next_fault, store_faulty. by rewrite H. Qed.

(** Sweeping a marked layer without trouble. *)
Lemma sweep_blob_layer gc now attempts trashed b row s sp chk :
  faults s = [] -> blobs s !! ID b = Some row -> Status row = StatusDelete ->
  Version row = Version b -> IsManifest b = false -> IsForeignLayer b = false ->
  Digest b ∈ storage s ->
  sweep_blob gc now (S attempts) trashed b (mkRun s sp chk)
  = (Ok (Size b, 1, 0),
     mkRun (with_storage (with_blobs s (delete (ID b) (blobs s))) (storage s ∖ {[Digest b]})) sp chk).
Proof.
  intros F R Sr V Mf N D. unfold sweep_blob. unfold bind at 1, try, lift at 1; cbn [st].
  unfold UpdateBlobStatus, dao_UpdateBlobStatus. cbn [with_status Status ID].
  change (StatusMap StatusDeleting) with (Some [StatusDelete]). cbv iota.
  rewrite nofault_io, R by done.
  assert (U : may_update (with_status b StatusDeleting) row = true).
  { unfold may_update. cbn [with_status Status Version]. rewrite Sr, V, Z.eqb_refl. by vm_compute. }
  rewrite U. cbn [Z.eqb].
  set (s1 := with_blobs s _). set (b1 := mkBlob _ _ _ _ _ _ _ _).
  assert (M1 : IsManifest b1 = false) by exact Mf.
  replace (match trashed !! Digest b1 with
           | Some arts => if IsManifest b1 then sweep_arts gc now (S attempts) b1 arts false
                          else ret (b1, false)
           | None => ret (b1, false) end) with (ret (b1, false) : M run (Blob * bool)).
  2:{ destruct (trashed !! Digest b1); [|done]. by rewrite M1. }
  rewrite (bind_ok _ _ _ (b1, false) (mkRun s1 sp chk)) by done. cbv beta iota.
  assert (N1 : IsForeignLayer b1 = false) by exact N. rewrite N1. cbn [negb].
  set (s2 := with_storage s1 (storage s ∖ {[Digest b]})).
  rewrite (bind_ok _ _ _ (Ok tt) (mkRun s2 sp chk)).
  2:{ unfold try, retried. cbn [Retry]. unfold ignoreNotFound, readonly_aborts, lift. cbn [st].
      unfold ctl_DeleteBlob. rewrite nofault_io by done.
      by rewrite bool_decide_true by exact D. }
  unfold bind, try, ignoreNotFound, lift. cbn [with_st st stops checkins].
  unfold DeleteBlob. rewrite nofault_io by done. rewrite M1.
  cbn [b1 ID s1 s2 blobs with_storage with_blobs]. rewrite lookup_insert_eq. unfold ret.
  unfold with_st, with_storage, with_blobs, s2, with_storage, s1, with_blobs; cbn.
  by rewrite delete_insert_eq.
Qed.

(** Mounting a blob into a project while the collector has it marked does
    not take it off the candidates: the mount succeeds and is recorded, and
    the sweep then still removes the row and the data of the blob, so that
    the project holds a blob that no longer exists. *)
Theorem mount_does_not_protect gc now attempts trashed b row projectID r :
  faults (st r) = [] -> find_digest (st r) (Digest b) = Some row ->
  blobs (st r) !! ID b = Some row -> ID row = ID b -> Digest b <> "" ->
  Status row = StatusDelete -> Version row = Version b ->
  IsManifest b = false -> IsForeignLayer b = false -> Digest b ∈ storage (st r) ->
  exists s', mount_blob (Digest b) projectID (st r) = (Ok tt, s')
  /\ (projectID, ID b) ∈ project_blob s'
  /\ exists r', sweep_blob gc now (S attempts) trashed b (with_st r s') = (Ok (Size b, 1, 0), r')
     /\ (projectID, ID b) ∈ project_blob (st r')
     /\ blobs (st r') !! ID b = None /\ Digest b ∉ storage (st r').
Proof.
  intros F G R I E Sr V Mf N D. destruct r as [s sp chk]. cbn [st] in *.
  exists (with_project_blob s ({[(projectID, ID b)]} ∪ project_blob s)).
  split.
  { unfold mount_blob. rewrite (proj2 (String.eqb_neq _ _)) by done.
    unfold AssociateWithProjectByDigest, GetBlobByDigest, bind. rewrite nofault_io, G by done.
    unfold CreateProjectBlob. rewrite nofault_io by done. by rewrite I. }
  split; [cbn; set_solver|].
  eexists. split; [by apply (sweep_blob_layer _ _ _ _ _ row)|]. cbn.
  split_and!; [set_solver|by rewrite lookup_delete_eq|set_solver].
Qed.

Lemma mount_does_not_protect_witness :
  let b := sample_blob 1 "a" StatusDelete 1 in
  let gc := mkGC "redis://" true true false 2 1 in
  let r := mkRun (sample_store [b]) [] [] in
  exists s', mount_blob "a" 7 (st r) = (Ok tt, s')
  /\ exists r', sweep_blob gc 99 3 ∅ b (with_st r s') = (Ok (10, 1, 0), r')
     /\ (7, 1) ∈ project_blob (st r') /\ blobs (st r') !! 1 = None.
Proof.
  intros b gc r.
  destruct (mount_does_not_protect gc 99 2 ∅ b b 7 r) as (s' & H1 & _ & r' & H2 & H3 & H4 & _);
    try done.
  exists s'. split; [exact H1|]. exists r'. split_and!; done.
Defined.

(** ** The associations of untagged blobs *)

#[global] Instance id_le_trans : Transitive id_le.
Proof. intros a b c. unfold id_le. lia. Qed.
#[global] Instance id_le_total : Total id_le.
Proof. intros a b. unfold id_le. lia. Qed.

(** Every row is stored under its own identifier, which is not negative. *)
Definition keyed (s : store) : Prop := forall i b, blobs s !! i = Some b -> ID b = i /\ 0 <= i.

Lemma elem_of_blob_rows s b : b ∈ rows s <-> exists i, blobs s !! i = Some b.
Proof. apply elem_of_map_values. Qed.

Lemma rows_NoDup s : keyed s -> NoDup (rows s).
Proof.
  intros K. unfold rows. apply NoDup_fmap_2_strong; [|apply NoDup_map_to_list].
  intros [i x] [j y] H1%elem_of_map_to_list H2%elem_of_map_to_list E. cbn in *. subst y.
  f_equal. destruct (K _ _ H1), (K _ _ H2). congruence.
Qed.

Section Untagged.
Context (gc : GarbageCollector) (now : Z) (wet : dryRun gc = false).

Definition old (b : Blob) : bool := UpdateTime b <=? now - timeWindowHours gc * hour.

(** An association that should go: the blob is old and no artifact of the
    project references it. *)
Definition untagged (s : store) (p i : Z) : Prop :=
  exists b, blobs s !! i = Some b /\ old b = true /\ referenced s p (Digest b) = false.

Lemma elem_of_old_blobs s p L b :
  keyed s ->
  b ∈ old_blobs gc now s p L
  <-> blobs s !! ID b = Some b /\ old b = true /\ (p, ID b) ∈ project_blob s /\ L <= ID b.
Proof.
  intros K. unfold old_blobs. rewrite merge_sort_Permutation.
  rewrite list_elem_of_In, filter_In, <- list_elem_of_In, elem_of_blob_rows.
  unfold old. rewrite !andb_true_iff, bool_decide_eq_true, !Z.leb_le.
  split.
  - intros ([i H] & [O P] & I). destruct (K _ _ H) as [<- _]. done.
  - intros (H & O & P & I). split_and!; try done. by exists (ID b).
Qed.

Lemma old_blobs_NoDup s p L : keyed s -> NoDup (old_blobs gc now s p L).
Proof.
  intros K. unfold old_blobs. rewrite merge_sort_Permutation.
  eapply sublist_NoDup; [by apply rows_NoDup|].
  induction (rows s) as [|b l IH]; cbn; [done|].
  match goal with |- context [if ?c then _ else _] => destruct c end; by constructor.
Qed.

Lemma old_blobs_sorted s p L : StronglySorted id_le (old_blobs gc now s p L).
Proof. unfold old_blobs. apply (StronglySorted_merge_sort _). Qed.

Lemma old_blobs_length s p L : (length (old_blobs gc now s p L) <= size (blobs s))%nat.
Proof.
  unfold old_blobs. rewrite merge_sort_Permutation.
  etransitivity; [apply filter_length_le|]. unfold rows. rewrite length_fmap.
  by rewrite length_map_to_list.
Qed.

(** A page with its last blob: what comes before that blob is in the page. *)
Lemma page_complete s p L n lb b :
  last (take n (old_blobs gc now s p L)) = Some lb ->
  b ∈ old_blobs gc now s p L -> ID b < ID lb -> b ∈ take n (old_blobs gc now s p L).
Proof.
  intros La B I. pose proof (old_blobs_sorted s p L) as S.
  rewrite <- (take_drop n (old_blobs gc now s p L)) in B, S.
  apply elem_of_app in B as [B|B]; [done|].
  assert (Lb : lb ∈ take n (old_blobs gc now s p L)) by (by apply last_Some_elem_of).
  pose proof (StronglySorted_app_1_elem_of _ _ _ _ _ S Lb B) as H. unfold id_le in H. lia.
Qed.

Lemma Cleanup_quiet s p bs :
  faults s = [] ->
  exists pb', CleanupAssociationsForProject p bs s = (Ok tt, with_project_blob s pb')
  /\ forall q i, (q, i) ∈ pb' <-> (q, i) ∈ project_blob s
       /\ ~ (q = p /\ exists b, b ∈ bs /\ ID b = i /\ referenced s p (Digest b) = false).
Proof.
  intros F. destruct bs as [|b0 bs'].
  { exists (project_blob s). split; [by destruct s|]. set_solver. }
  unfold CleanupAssociationsForProject, FindBlobsShouldUnassociatedWithProject. cbv iota.
  set (bs := b0 :: bs') in *. unfold bind, query. rewrite nofault_io by done.
  set (should := List.filter _ bs).
  assert (Sh : forall b, b ∈ should <-> b ∈ bs /\ referenced s p (Digest b) = false).
  { intros b. unfold should. rewrite !list_elem_of_In, filter_In, negb_true_iff.
    split; intros [H1 H2]; (split; [done|]).
    - apply not_true_is_false. intros R. apply not_true_iff_false in H2. apply H2.
      apply existsb_exists. exists (Digest b). rewrite String.eqb_refl. split; [|done].
      apply filter_In. split; [by apply in_map|done].
    - apply not_true_is_false. rewrite existsb_exists. intros (d & [_ R]%filter_In & Ed%String.eqb_eq).
      congruence. }
  unfold ret, DeleteProjectBlob. destruct (ID <$> should) as [|j js] eqn:J.
  - apply fmap_nil_inv in J. exists (project_blob s). split; [by destruct s|].
    intros q i. split; [|by intros []]. intros H. split; [done|]. intros [_ (b & B & _ & R)].
    assert (b ∈ should) by (by apply Sh). rewrite J in *. set_solver.
  - rewrite <- J. rewrite nofault_io by done. unfold modify. eexists. split; [done|].
    intros q i. rewrite elem_of_filter. cbn [fst snd]. rewrite (and_comm (¬ _)).
    assert (X : i ∈ ID <$> should <-> exists b, b ∈ bs /\ ID b = i /\ referenced s p (Digest b) = false).
    { rewrite list_elem_of_fmap. setoid_rewrite Sh. naive_solver. }
    by rewrite X.
Qed.

(** A full page makes progress. *)
Lemma next_page_shorter s pb pb1 p L n lb :
  keyed s -> (2 <= n)%nat ->
  let l := old_blobs gc now (with_project_blob s pb) p L in
  (forall q i, (q, i) ∈ pb1 -> (q, i) ∈ pb) ->
  length (take n l) = n -> last (take n l) = Some lb ->
  (length (old_blobs gc now (with_project_blob s pb1) p (ID lb)) < length l)%nat.
Proof.
  intros K N l Sub Len La.
  pose proof (old_blobs_sorted (with_project_blob s pb) p L) as So. fold l in So.
  pose proof (old_blobs_NoDup (with_project_blob s pb) p L K) as U. fold l in U.
  destruct l as [|x l'] eqn:El; [cbn in *; rewrite take_nil in Len; cbn in Len; lia|].
  assert (Ilb : lb ∈ l').
  { destruct n as [|[|n]]; [lia|lia|]. cbn [take] in La.
    destruct l' as [|y l'']; [cbn in Len; lia|]. cbn [take] in La. rewrite last_cons_cons in La.
    apply last_Some_elem_of in La. change (y :: take n l'') with (take (S n) (y :: l'')) in La.
    rewrite <- (take_drop (S n) (y :: l'')). apply elem_of_app. by left. }
  assert (Lb : lb ∈ old_blobs gc now (with_project_blob s pb) p L) by (fold l; rewrite El; by right).
  assert (Lx : x ∈ old_blobs gc now (with_project_blob s pb) p L) by (fold l; rewrite El; left).
  assert (Lt : ID x < ID lb).
  { apply StronglySorted_inv in So as [_ So]. rewrite Forall_forall in So. pose proof (So lb Ilb) as H.
    unfold id_le in H. assert (ID x <> ID lb); [|lia]. intros E.
    apply elem_of_old_blobs in Lx as [Hx _], Lb as [Hlb _]; [|done|done].
    rewrite E in Hx. apply NoDup_cons in U as [U _]. apply U. congruence. }
  assert (Sm : x :: old_blobs gc now (with_project_blob s pb1) p (ID lb) ⊆+ x :: l').
  { rewrite <- El. apply NoDup_submseteq.
    - apply NoDup_cons. split; [|by apply old_blobs_NoDup]. intros H.
      apply elem_of_old_blobs in H as (_ & _ & _ & H); [lia|done].
    - intros y [->|H]%elem_of_cons; [done|].
      apply elem_of_old_blobs in H as (H1 & H2 & H3 & H4); [|done].
      apply elem_of_old_blobs; [done|]. apply elem_of_old_blobs in Lb as (_ & _ & _ & ?); [|done].
      split_and!; [done|done|by apply Sub|lia]. }
  apply submseteq_length in Sm. cbn in *. lia.
Qed.

(** One project: the loop ends and removes exactly the associations that
    should go, the ones below [L] being gone already. *)
Lemma untagged_pages_spec fuel ps p L orphans s pb chk :
  keyed s -> faults s = [] -> (2 <= ps)%nat ->
  (length (old_blobs gc now (with_project_blob s pb) p L) < fuel)%nat ->
  (forall i, (p, i) ∈ pb -> i < L -> ~ untagged s p i) ->
  exists pb', untagged_pages gc now fuel ps p L orphans (mkRun (with_project_blob s pb) [] chk)
              = (Ok orphans, mkRun (with_project_blob s pb') [] chk)
  /\ forall q i, (q, i) ∈ pb' <-> (q, i) ∈ pb /\ ~ (q = p /\ untagged s p i).
Proof.
  intros K F Ps. revert L pb. induction fuel as [|fuel IH]; intros L pb Len H; [lia|].
  set (l := old_blobs gc now (with_project_blob s pb) p L) in *.
  assert (Ml : forall b, b ∈ l <-> blobs s !! ID b = Some b /\ old b = true /\ (p, ID b) ∈ pb /\ L <= ID b)
    by (intros b; by apply elem_of_old_blobs).
  destruct (Cleanup_quiet (with_project_blob s pb) p (take ps l) F) as (pb1 & C & M1).
  change (referenced (with_project_blob s pb) p) with (referenced s p) in M1. cbn [project_blob with_project_blob] in M1.
  cbn [untagged_pages]. unfold bind at 1, shouldStop. cbn [stops].
  unfold bind at 1, try at 1, lift at 1, project_page. unfold query. rewrite nofault_io by done.
  cbn [st with_st stops checkins]. fold l.
  rewrite wet. change (with_st _ _) with (mkRun (with_project_blob s pb) [] chk).
  rewrite (bind_ok _ _ _ (Ok []) (mkRun (with_project_blob s pb1) [] chk))
    by (unfold try, bind, lift; cbn [st]; by rewrite C).
  cbv iota beta. rewrite app_nil_r.
  assert (Sub : forall q i, (q, i) ∈ pb1 -> (q, i) ∈ pb) by (intros q i Hq; by apply M1 in Hq as [? _]).
  assert (G : forall i b, b ∈ take ps l -> ID b = i -> referenced s p (Digest b) = false -> untagged s p i).
  { intros i b B <- R. exists b. assert (b ∈ l) as Bl%Ml
      by (rewrite <- (take_drop ps l); apply elem_of_app; by left). tauto. }
  assert (T : forall i, (p, i) ∈ pb -> untagged s p i -> exists b, b ∈ l /\ ID b = i
                /\ referenced s p (Digest b) = false).
  { intros i P U. pose proof U as (b & B & O & R). destruct (K _ _ B) as [E _]. exists b.
    split; [|done]. apply Ml. rewrite E. split_and!; try done.
    destruct (Z.le_gt_cases L i); [done|]. exfalso. by apply (H i P). }
  destruct (Nat.ltb_spec (length (take ps l)) ps) as [Lt|Ge].
  - exists pb1. split; [done|]. rewrite take_ge in M1, G by (rewrite length_take in Lt; lia).
    intros q i. rewrite M1. split; intros [P N]; (split; [done|]); intros [-> U]; apply N; split; try done.
    + by apply T.
    + destruct U as (b & B & E & R). by eapply G.
  - assert (Lp : length (take ps l) = ps) by (rewrite length_take in *; lia).
    destruct (last (take ps l)) as [lb|] eqn:La; [|apply last_None in La; rewrite La in Lp; cbn in Lp; lia].
    pose proof (next_page_shorter s pb pb1 p L ps lb K Ps Sub Lp La) as Sh. fold l in Sh.
    destruct (IH (ID lb) pb1) as (pb' & E & M2); [lia| |].
    + intros i P Lt U. destruct (T i (Sub _ _ P) U) as (b & B & Ei & R).
      apply M1 in P as [_ P]. apply P. split; [done|]. exists b. split; [|done].
      apply (page_complete _ _ _ _ lb); [done|done|lia].
    + exists pb'. split; [exact E|]. intros q i. rewrite M2, M1. split; [tauto|].
      intros [P N]. split; [split; [done|]|done]. intros [-> (b & B & Ei & R)]. apply N.
      split; [done|]. by eapply G.
Qed.

Lemma untagged_projects_spec ps orphans s pb chk :
  keyed s -> faults s = [] ->
  exists pb', untagged_projects gc now (Ok <$> ps) orphans (mkRun (with_project_blob s pb) [] chk)
              = (Ok orphans, mkRun (with_project_blob s pb') [] chk)
  /\ forall q i, (q, i) ∈ pb' <-> (q, i) ∈ pb /\ ~ (q ∈ ps /\ untagged s q i).
Proof.
  intros K F. revert pb. induction ps as [|p ps IH]; intros pb.
  - exists pb. split; [done|]. set_solver.
  - rewrite fmap_cons. cbn [untagged_projects]. unfold bind at 1, shouldStop. cbn [stops].
    unfold bind at 1, get.
    destruct (untagged_pages_spec (page_fuel (with_project_blob s pb)) page_size p 0 orphans s pb chk)
      as (pb1 & E1 & M1); [done|done|unfold page_size; lia| | |].
    + unfold page_fuel. pose proof (old_blobs_length (with_project_blob s pb) p 0). lia.
    + intros i _ Lt (b & B & _). destruct (K _ _ B). lia.
    + unfold bind. cbn [st]. rewrite E1. destruct (IH pb1) as (pb2 & E2 & M2).
      exists pb2. split; [exact E2|]. intros q i. rewrite M2, M1, elem_of_cons.
      destruct (decide (q = p)) as [->|N]; tauto.
Qed.
End Untagged.

(** C18: the walk over the projects' blobs, page by page, ends, and removes
    the association of a blob with a listed project exactly when the blob is
    older than the time window and no artifact of the project references it;
    nothing else changes.  The pages overlap in one blob, so a full page
    makes progress because it holds at least two. *)
Theorem untagged_sweep_complete gc now projects r :
  dryRun gc = false -> keyed (st r) -> faults (st r) = [] -> stops r = [] ->
  exists pb', markOrSweepUntaggedBlobs gc now (Ok <$> projects) r
              = (Ok [], with_st r (with_project_blob (st r) pb'))
  /\ forall p i, (p, i) ∈ pb' <-> (p, i) ∈ project_blob (st r)
       /\ ~ (p ∈ projects /\ untagged gc now (st r) p i).
Proof.
  intros D K F S. destruct r as [s sp chk]. cbn in K, F, S. subst sp.
  destruct (untagged_projects_spec gc now D projects [] s (project_blob s) chk K F) as (pb' & E & M).
  exists pb'. split; [|done]. unfold markOrSweepUntaggedBlobs.
  replace s with (with_project_blob s (project_blob s)) at 1 by (by destruct s). exact E.
Qed.

Lemma untagged_sweep_complete_witness :
  let gc := mkGC "redis://" true true false 2 1 in
  let s := sample_store [sample_blob 1 "a" StatusNone 0; sample_blob 2 "b" StatusNone 0] in
  let s := with_artifact_blob s {[("m", "b")]}%string in
  let s := mkStore (blobs s) 3 (artifact_blob s) {[(7, 1); (7, 2)]} [mkArtifact 7 "library/x" "m"]
             ∅ (storage s) ∅ [] in
  let r := mkRun s [] [] in
  exists pb', markOrSweepUntaggedBlobs gc 99999 (Ok <$> [7]) r = (Ok [], with_st r (with_project_blob s pb'))
  /\ (7, 2) ∈ pb' /\ (7, 1) ∉ pb'.
Proof.
  intros gc s1 s2 s r.
  destruct (untagged_sweep_complete gc 99999 [7] r) as (pb' & E & M); [done| |done|done|].
  - intros i b H. apply (elem_of_list_to_map_2 ((fun b => (ID b, b)) <$> _)) in H.
    apply list_elem_of_fmap in H as (c & [= -> ->] & H). apply elem_of_cons in H as [->|H]; [done|]. apply elem_of_cons in H as [->|H]; [done|].
    by apply elem_of_nil in H.
  - exists pb'. split; [exact E|]. split.
    + apply M. split; [cbn; set_solver|]. intros [_ (b & B & _ & R)].
      vm_compute in B. injection B as <-. by vm_compute in R.
    + intros H%M. destruct H as [_ H]. apply H. split; [left|].
      eexists. split; [by vm_compute|]. by vm_compute.
Defined.


