(* ===== verification/Quota.v ===== *)
(** * Quotas

    [src/pkg/quota] (resource lists, the safety check, the quota and usage
    tables), [src/controller/quota] (reserving, rolling back and refreshing
    usage under optimistic locking, by the database or by redis, and the
    flush of the redis copies), and the project driver
    [src/controller/quota/driver/project], whose usage is the size of the
    project's blobs in [Blob]. *)

From S2P Require Import Prelude Errors.
From S2P Require Blob.

(** ** Resource lists *)

Definition UNLIMITED : Z := -1.
Definition MaxLimitedValue : Z := 1125899906842624.
Definition ResourceStorage : string := "storage".

(** A resource list holds 64-bit values.  The JSON text of a list, in the
    tables and in redis, is represented by the list. *)
Abbreviation ResourceList := (gmap string Z).

Definition Equals (a b : ResourceList) : bool :=
  (size a =? size b)%nat
  && forallb (fun kv => match b !! kv.1 with Some v => kv.2 =? v | None => false end) (map_to_list a).

Definition Add (a b : ResourceList) : ResourceList :=
  union_with (fun x y => Some (Int64.wrap (x + y))) a b.

(** What is only in [b] is negated. *)
Definition Subtract (a b : ResourceList) : ResourceList :=
  merge (fun x y => match x, y with
                    | Some v, Some w => Some (Int64.wrap (v - w))
                    | Some v, None => Some v
                    | None, Some w => Some (Int64.wrap (- w))
                    | None, None => None
                    end) a b.

Definition Zero (a : ResourceList) : ResourceList := (fun _ => 0) <$> a.

Definition IsNegative (a : ResourceList) : list string :=
  (List.filter (fun kv => kv.2 <? 0) (map_to_list a)).*1.

Definition IsValidResource (resource : string) : bool := resource =s= ResourceStorage.

(** ** The safety check *)

Inductive quota_error :=
| ResourceOverflow (resource : string) (hardLimit currentUsed newUsed : Z)
| ResourceNotFound (resource : string).

Definition check_resource (hardLimits currentUsed : ResourceList) (ignoreLimitation : bool)
    (kv : string * Z) : list quota_error :=
  let (resource, value) := kv in
  match hardLimits !! resource with
  | None => [ResourceNotFound resource]
  | Some hardLimit =>
      if hardLimit =? UNLIMITED then []
      else if (value >? hardLimit) && negb ignoreLimitation
      then [ResourceOverflow resource hardLimit (default 0 (currentUsed !! resource)) value]
      else []
  end.

(** [IsSafe]: the errors found; none is success. *)
Definition IsSafe (hardLimits currentUsed newUsed : ResourceList) (ignoreLimitation : bool)
    : list quota_error :=
  concat (check_resource hardLimits currentUsed ignoreLimitation <$> map_to_list newUsed).

(** [Errors.Exceeded]. *)
Definition Exceeded (errs : list quota_error) : list quota_error :=
  List.filter (fun e => match e with ResourceOverflow _ _ _ _ => true | _ => false end) errs.

Definition quota_error_string (e : quota_error) : string :=
  match e with
  | ResourceNotFound r => ("resource " ++ r ++ " not found")%string
  | ResourceOverflow r hard used new =>
      ((if new >? used then "adding " ++ Strconv.format_int (Int64.wrap (new - used))
        else "subtracting " ++ Strconv.format_int (Int64.wrap (used - new)))
       ++ " of " ++ r ++ " resource, which when updated to current usage of "
       ++ Strconv.format_int used ++ " will exceed the configured upper limit of "
       ++ Strconv.format_int hard ++ ".")%string
  end.

Definition quota_errors (errs : list quota_error) : error :=
  Plain (GoStrings.Join (quota_error_string <$> errs) "; ").

(** ** Quotas and their tables *)

Record Quota := mkQuota {
  ID : Z;
  Reference : string;
  ReferenceID : string;
  Hard : ResourceList;
  Used : ResourceList;
  HardVersion : Z;
  UsedVersion : Z;
  HardChanged : bool;
  UsedChanged : bool;
}.

Definition SetHard (q : Quota) (l : ResourceList) : Quota :=
  mkQuota (ID q) (Reference q) (ReferenceID q) l (Used q) (HardVersion q) (UsedVersion q)
    true (UsedChanged q).

Definition SetUsed (q : Quota) (l : ResourceList) : Quota :=
  mkQuota (ID q) (Reference q) (ReferenceID q) (Hard q) l (HardVersion q) (UsedVersion q)
    (HardChanged q) true.

(** [GetWarningResources] with its 64-bit products. *)
Definition warns (hardLimits : ResourceList) (warningPercent : Z) (kv : string * Z) : result bool :=
  match hardLimits !! kv.1 with
  | None => Err (Plain ("resource " ++ kv.1 ++ " not found in hard limits"))
  | Some limited =>
      Ok (if limited =? UNLIMITED then false
          else Int64.wrap (limited * warningPercent) <=? Int64.wrap (kv.2 * 100))
  end.

Fixpoint warning_loop (hardLimits : ResourceList) (warningPercent : Z) (l : list (string * Z))
    : result (list string) :=
  match l with
  | [] => Ok []
  | kv :: l' =>
      match warns hardLimits warningPercent kv with
      | Err e => Err e
      | Ok w =>
          match warning_loop hardLimits warningPercent l' with
          | Err e => Err e
          | Ok rs => Ok (if w : bool then kv.1 :: rs else rs)
          end
      end
  end.

Definition GetWarningResources (q : Quota) (warningPercent : Z) : result (list string) :=
  if (warningPercent <? 0) || (warningPercent >? 100) then Err (Plain "bad warningPercent")
  else warning_loop (Hard q) warningPercent (map_to_list (Used q)).

(** A row of [quota] or of [quota_usage]: identifier, limits or usage, and
    version.  Both tables have a unique key on the reference. *)
Record row := mkRow {
  r_id : Z;
  r_list : ResourceList;
  r_version : Z;
}.

Definition ref : Type := string * string.

(** The two tables, the identity sequence, the copies in redis, the blob
    tables, and the faults of the coming calls. *)
Record store := mkStore {
  quotas : gmap ref row;
  usages : gmap ref row;
  next_id : Z;
  cached : gmap ref Quota;
  blob_store : Blob.store;
  faults : list (option error);
}.

Definition with_quotas (s : store) x := mkStore x (usages s) (next_id s) (cached s) (blob_store s) (faults s).
Definition with_usages (s : store) x := mkStore (quotas s) x (next_id s) (cached s) (blob_store s) (faults s).
Definition with_cached (s : store) x := mkStore (quotas s) (usages s) (next_id s) x (blob_store s) (faults s).
Definition with_blob_store (s : store) x := mkStore (quotas s) (usages s) (next_id s) (cached s) x (faults s).
Definition with_faults (s : store) x := mkStore (quotas s) (usages s) (next_id s) (cached s) (blob_store s) x.

#[global] Instance store_faulty : Faulty store := fun s =>
  match faults s with
  | [] => (None, s)
  | f :: fs => (f, with_faults s fs)
  end.

(** ** Data access *)

Definition dao_Create (r : ref) (hardLimits used : ResourceList) : M store Z :=
  id <- io (fun s =>
    match quotas s !! r with
    | Some _ => (Err (PgError "23505"), s)
    | None => (Ok (next_id s), mkStore (<[r := mkRow (next_id s) hardLimits 0]> (quotas s)) (usages s)
                 (next_id s + 1) (cached s) (blob_store s) (faults s))
    end) ;;
  io (fun s =>
    match usages s !! r with
    | Some _ => (Err (PgError "23505"), s)
    | None => (Ok tt, with_usages s (<[r := mkRow id used 0]> (usages s)))
    end) ;;;
  ret id.

Definition remove_id (id : Z) (m : gmap ref row) : gmap ref row := filter (fun kv => r_id kv.2 <> id) m.

Definition dao_Delete (id : Z) : M store unit :=
  io (modify (fun s => with_quotas s (remove_id id (quotas s)))) ;;;
  io (modify (fun s => with_usages s (remove_id id (usages s)))).

Definition toQuota (r : ref) (quota usage : row) : Quota :=
  mkQuota (r_id quota) r.1 r.2 (r_list quota) (r_list usage) (r_version quota) (r_version usage)
    false false.

Definition read_row (table : store -> gmap ref row) (r : ref) (what : string) : M store row :=
  io (fun s => match table s !! r with
    | Some x => (Ok x, s)
    | None => (Err (WrapNotFoundError ErrNoRows
                (what ++ " not found for (" ++ r.1 ++ ", " ++ r.2 ++ ")")), s)
    end).

Definition GetByRef (r : ref) : M store Quota :=
  quota <- read_row quotas r "quota" ;;
  usage <- read_row usages r "quota usage" ;;
  ret (toQuota r quota usage).

(** [Get] by identifier. *)
Definition row_of_id (id : Z) (m : gmap ref row) : option (ref * row) :=
  List.find (fun kv => r_id kv.2 =? id) (map_to_list m).

Definition Get (id : Z) : M store Quota :=
  quota <- io (fun s => match row_of_id id (quotas s) with
    | Some x => (Ok x, s)
    | None => (Err (WrapNotFoundError ErrNoRows ("quota " ++ Strconv.format_int id ++ " not found")), s)
    end) ;;
  usage <- io (fun s => match row_of_id id (usages s) with
    | Some x => (Ok x, s)
    | None => (Err (WrapNotFoundError ErrNoRows
                ("quota usage " ++ Strconv.format_int id ++ " not found")), s)
    end) ;;
  ret (toQuota quota.1 quota.2 usage.2).

Definition getVersion (current : Z) : Z := if current =? Int64.max then 0 else current + 1.

(** [update ... set list, version where id = ? and version = ?]: the new table
    and whether a row was affected. *)
Definition hits (id version : Z) (x : row) : bool := (r_id x =? id) && (r_version x =? version).

Definition update_rows (id version : Z) (l : ResourceList) (m : gmap ref row) : gmap ref row :=
  (fun x => if hits id version x then mkRow (r_id x) l (getVersion version) else x) <$> m.

Definition any_hit (id version : Z) (m : gmap ref row) : bool :=
  existsb (hits id version) (map_to_list m).*2.

Definition dao_Update (q : Quota) : M store unit :=
  if UsedChanged q && HardChanged q
  then fail (New "not support change both hard and used of the quota")
  else if negb (UsedChanged q) && negb (HardChanged q) then ret tt
  else if UsedChanged q
  then io (fun s =>
    if any_hit (ID q) (UsedVersion q) (usages s)
    then (Ok tt, with_usages s (update_rows (ID q) (UsedVersion q) (Used q) (usages s)))
    else (Err ErrOptimisticLock, s))
  else io (fun s =>
    if any_hit (ID q) (HardVersion q) (quotas s)
    then (Ok tt, with_quotas s (update_rows (ID q) (HardVersion q) (Hard q) (quotas s)))
    else (Err ErrOptimisticLock, s)).

(** [manager.Create] and [Delete] run in a transaction. *)
Definition transaction {A} (m : M store A) : M store A := fun s =>
  match m s with
  | (Ok a, s') => (Ok a, s')
  | (Err e, s') => (Err e, with_faults s (faults s'))
  end.

Definition mgr_Create (r : ref) (hardLimits : ResourceList) (usage : option ResourceList) : M store Z :=
  transaction (dao_Create r hardLimits (default (Zero hardLimits) usage)).

Definition mgr_Delete (id : Z) : M store unit := transaction (dao_Delete id).

(** ** Drivers *)

(** What the controller needs of the kind of object a quota is for. *)
Class Driver := {
  Validate : ResourceList -> result unit;
  CalculateUsage : string -> M store ResourceList;
}.

(** [lib.ValidateQuotaLimit]. *)
Definition ValidateQuotaLimit (storageLimit : Z) : result unit :=
  if storageLimit <=? 0 then
    if negb (storageLimit =? UNLIMITED)
    then Err (Plain ("invalid non-positive value for quota limit, value=" ++ Strconv.format_int storageLimit))
    else Ok tt
  else if storageLimit >? MaxLimitedValue
  then Err (Plain ("exceeded 1024TB, which is 1125899906842624 Bytes, value=" ++ Strconv.format_int storageLimit))
  else Ok tt.

Fixpoint validate_limits (l : list (string * Z)) : result unit :=
  match l with
  | [] => Ok tt
  | (resource, value) :: l' =>
      if negb (resource =s= ResourceStorage) then Err (Plain ("resource " ++ resource ++ " not support"))
      else match ValidateQuotaLimit value with
           | Err e => Err e
           | Ok _ => validate_limits l'
           end
  end.

Definition project_Validate (hardLimits : ResourceList) : result unit :=
  match validate_limits (map_to_list hardLimits) with
  | Err e => Err e
  | Ok _ => match hardLimits !! ResourceStorage with
            | None => Err (Plain ("resource " ++ ResourceStorage ++ " not found"))
            | Some _ => Ok tt
            end
  end.

Definition lift_blob {A} (m : M Blob.store A) : M store A := fun s =>
  match m (blob_store s) with (r, b) => (r, with_blob_store s b) end.

Definition project_CalculateUsage (key : string) : M store ResourceList :=
  match Strconv.parse_int key with
  | None => fail (Plain "strconv.ParseInt: parsing")
  | Some projectID =>
      size <- lift_blob (Blob.SumBlobsSizeByProject projectID true) ;;
      ret {[ResourceStorage := size]}
  end.

Definition project_driver : Driver :=
  {| Validate := project_Validate; CalculateUsage := project_CalculateUsage |}.

(** ** The controller *)

(** An update of the usage: from the limits and the usage, the new usage.
    The calculation of a refresh reads the store. *)
Definition usage_op : Type := ResourceList -> ResourceList -> M store ResourceList.

Definition reserveResources (resources : ResourceList) : usage_op := fun hardLimits used =>
  let newUsed := Add used resources in
  match IsSafe hardLimits used newUsed false with
  | [] => ret newUsed
  | errs => fail (WithMessage (DeniedError (Some (quota_errors errs)))
              ("Quota exceeded when processing the request of " ++ Error_string (quota_errors errs)))
  end.

Definition rollbackResources (resources : ResourceList) : usage_op := fun _ used =>
  let newUsed := Subtract used resources in
  match IsNegative newUsed with
  | [] => ret newUsed
  | names => fail (Plain ("resources is negative for resource(s): " ++ GoStrings.Join names ","))
  end.

Definition refreshResources (calculateUsage : M store ResourceList) (ignoreLimitation : bool) : usage_op :=
  fun hardLimits used =>
  newUsed <- calculateUsage ;;
  match IsNegative newUsed with
  | [] =>
      match IsSafe hardLimits used newUsed ignoreLimitation with
      | [] => ret newUsed
      | errs => fail (quota_errors errs)
      end
  | names => fail (Plain ("quota usage is negative for resource(s): " ++ GoStrings.Join names ","))
  end.

(** An error that ends the retries. *)
Definition aborting {A} (m : M store A) : M store A := fun s =>
  match m s with
  | (Err e, s') => (Err (Abort e), s')
  | x => x
  end.

Definition is_lock (e : error) : bool := Is e "orm.ErrOptimisticLock".

Definition updateUsageByDB (r : ref) (op : usage_op) : M store unit :=
  q <- aborting (GetByRef r) ;;
  newUsed <- aborting (op (Hard q) (Used q)) ;;
  if Equals (Used q) newUsed then ret tt
  else fun s =>
    match dao_Update (SetUsed q newUsed) s with
    | (Err e, s') => (Err (if is_lock e then e else Abort e), s')
    | x => x
    end.

Section Controller.
Context `{drv : Driver}.

Definition calcQuota (r : ref) : M store Quota :=
  q <- GetByRef r ;;
  newUsed <- CalculateUsage r.2 ;;
  ret (SetUsed q newUsed).

(** [updateUsageByRedis]: the watched transaction; a change of the key by
    someone else makes the final call fail, and is retried. *)
Definition is_tx_failed (e : error) : bool := Is e "redis.TxFailedErr".

Definition updateUsageByRedis (r : ref) (op : usage_op) : M store unit :=
  c <- aborting (io (fun s => (Ok (cached s !! r), s))) ;;
  q <- (match c with
        | Some q => ret q
        | None => aborting (calcQuota r)
        end) ;;
  newUsed <- aborting (op (Hard q) (Used q)) ;;
  fun s =>
    match io (modify (fun s => with_cached s (<[r := SetUsed q newUsed]> (cached s)))) s with
    | (Err e, s') => (Err (if is_tx_failed e then e else Abort e), s')
    | x => x
    end.

Inductive provider := ByDB | ByRedis.

(** The time-out of the retries is a number of attempts. *)
Context (attempts : nat) (prov : provider).

Definition updateUsageWithRetry (r : ref) (op : usage_op) : M store unit :=
  Retry attempts None (match prov with
                       | ByDB => updateUsageByDB r op
                       | ByRedis => updateUsageByRedis r op
                       end).

Definition Refresh (r : ref) (ignoreLimitation : bool) : M store unit :=
  updateUsageWithRetry r (refreshResources (CalculateUsage r.2) ignoreLimitation).

Definition Request (r : ref) (resources : ResourceList) (f : M store unit) : M store unit :=
  if (size resources =? 0)%nat then f
  else
    updateUsageWithRetry r (reserveResources resources) ;;;
    res <- try f ;;
    match res with
    | Ok _ => ret tt
    | Err e => try (updateUsageWithRetry r (rollbackResources resources)) ;;; fail e
    end.

Definition apply_update (u q : Quota) : Quota :=
  let q1 := if Equals (Hard q) (Hard u) then q else SetHard q (Hard u) in
  if Equals (Used q1) (Used u) then q1 else SetUsed q1 (Used u).

Definition Update (u : Quota) : M store unit :=
  Retry attempts None (q <- GetByRef (Reference u, ReferenceID u) ;; dao_Update (apply_update u q)).

(** [flushQuota]: the copies of redis, one by one; failures are logged. *)
Fixpoint flush_keys (keys : list ref) : M store unit :=
  match keys with
  | [] => ret tt
  | k :: ks =>
      c <- try (io (fun s => (Ok (cached s !! k), s))) ;;
      (match c with
       | Ok (Some q) => try (Update q) ;;; ret tt
       | _ => ret tt
       end) ;;;
      flush_keys ks
  end.

Definition flushQuota : M store unit :=
  keys <- try (io (fun s => (Ok (map_to_list (cached s)).*1, s))) ;;
  match keys with
  | Ok ks => flush_keys ks
  | Err _ => ret tt
  end.
End Controller.

(** ** Facts about resource lists *)

Lemma Equals_spec a b : Equals a b = true <-> a = b.
Proof.
  unfold Equals. rewrite andb_true_iff, Nat.eqb_eq, forallb_forall. split.
  - intros [Sz F]. apply map_subseteq_size_eq; [|apply Nat.eq_le_incl; symmetry; exact Sz].
    apply map_subseteq_spec. intros k v H.
    assert (I : In (k, v) (map_to_list a)) by (by apply list_elem_of_In, elem_of_map_to_list).
    specialize (F _ I). cbn in F. destruct (b !! k) as [w|] eqn:Bk; [|done].
    apply Z.eqb_eq in F. by subst w.
  - intros ->. split; [done|]. intros [k v] I. cbn.
    apply list_elem_of_In, elem_of_map_to_list in I. rewrite I. apply Z.eqb_refl.
Qed.

Lemma lookup_Add a b k :
  Add a b !! k = match a !! k, b !! k with
                 | Some x, Some y => Some (Int64.wrap (x + y))
                 | Some x, None => Some x
                 | None, y => y
                 end.
Proof. unfold Add. rewrite lookup_union_with. by destruct (a !! k), (b !! k). Qed.

Lemma lookup_Subtract a b k :
  Subtract a b !! k = match a !! k, b !! k with
                      | Some v, Some w => Some (Int64.wrap (v - w))
                      | Some v, None => Some v
                      | None, Some w => Some (Int64.wrap (- w))
                      | None, None => None
                      end.
Proof. unfold Subtract. rewrite lookup_merge. unfold diag_None. by destruct (a !! k), (b !! k). Qed.

(** The values of a list fit in 64 bits. *)
Definition in_range (a : ResourceList) : Prop := map_Forall (fun _ v => Int64.in_range v) a.

(** Taking back what was added restores the list, overflow or not. *)
Lemma Subtract_Add a b :
  in_range a -> dom b ⊆ dom a -> Subtract (Add a b) b = a.
Proof.
  intros R D. apply map_eq. intros k. rewrite lookup_Subtract, lookup_Add.
  destruct (a !! k) as [x|] eqn:A, (b !! k) as [y|] eqn:B; try done.
  - rewrite Int64.wrap_sub_add. f_equal. apply Int64.wrap_id. by eapply R.
  - exfalso. apply elem_of_dom_2 in B. apply D in B. apply elem_of_dom in B as [? B]. congruence.
Qed.

Lemma IsNegative_nil a : IsNegative a = [] <-> map_Forall (fun _ v => 0 <= v) a.
Proof.
  unfold IsNegative. split.
  - intros H k v L. destruct (Z.le_gt_cases 0 v) as [|G]; [done|]. exfalso.
    apply fmap_nil_inv in H.
    assert (I : In (k, v) (List.filter (fun kv => kv.2 <? 0) (map_to_list a))).
    { apply filter_In. split; [by apply list_elem_of_In, elem_of_map_to_list|]. cbn. lia. }
    by rewrite H in I.
  - intros H. destruct (List.filter _ _) as [|[k v] l] eqn:E; [done|]. exfalso.
    assert (I : In (k, v) (List.filter (fun kv => kv.2 <? 0) (map_to_list a))) by (rewrite E; by left).
    apply filter_In in I as [I L]. apply list_elem_of_In, elem_of_map_to_list in I.
    specialize (H _ _ I). cbn in *. lia.
Qed.

(** The new usage fits the limits. *)
Definition fits (hardLimits newUsed : ResourceList) : Prop :=
  map_Forall (fun k v => exists h, hardLimits !! k = Some h /\ (h = UNLIMITED \/ v <= h)) newUsed.

Lemma check_resource_nil hard used k v :
  check_resource hard used false (k, v) = []
  <-> exists h, hard !! k = Some h /\ (h = UNLIMITED \/ v <= h).
Proof.
  unfold check_resource. destruct (hard !! k) as [h|]; [|split; [done|by intros (? & ? & _)]].
  rewrite andb_true_r.
  destruct (Z.eqb_spec h UNLIMITED) as [E|E].
  - split; [|done]. intros _. exists h. tauto.
  - rewrite Z.gtb_ltb. destruct (Z.ltb_spec h v).
    + split; [done|]. intros (x & [= <-] & [|]); [done|lia].
    + split; [|done]. intros _. exists h. split; [done|]. by right.
Qed.

Lemma IsSafe_nil hard used new : IsSafe hard used new false = [] <-> fits hard new.
Proof.
  unfold IsSafe, fits. rewrite concat_nil_Forall, Forall_fmap, Forall_forall. split.
  - intros H k v L. apply elem_of_map_to_list in L. specialize (H _ L). cbn [compose] in H.
    by apply check_resource_nil in H.
  - intros H [k v] L%elem_of_map_to_list. unfold compose. apply check_resource_nil. by eapply H.
Qed.

(** ** Updates of the usage *)

(** The two rows of a quota, the only ones with its identifier. *)
Record has_quota (s : store) (r : ref) (i : Z) (hard used : ResourceList) (hv uv : Z) : Prop := mkHas {
  hq_quota : quotas s !! r = Some (mkRow i hard hv);
  hq_usage : usages s !! r = Some (mkRow i used uv);
  hq_unique : forall k x, usages s !! k = Some x -> r_id x = i -> k = r;
  hq_unique_quota : forall k x, quotas s !! k = Some x -> r_id x = i -> k = r;
}.

Lemma calm_io {A} (f : M store A) s : faults s = [] -> io f s = f s.
Proof. intros H. unfold io, next_fault, store_faulty. by rewrite H. Qed.

Lemma GetByRef_quiet s r i hard used hv uv :
  faults s = [] -> has_quota s r i hard used hv uv ->
  GetByRef r s = (Ok (toQuota r (mkRow i hard hv) (mkRow i used uv)), s).
Proof.
  intros F [Q U _ _]. unfold GetByRef, read_row, bind. rewrite calm_io, Q by done.
  by rewrite calm_io, U.
Qed.

Lemma update_rows_insert (m : gmap ref row) r i l v new :
  m !! r = Some (mkRow i l v) -> (forall k x, m !! k = Some x -> r_id x = i -> k = r) ->
  update_rows i v new m = <[r := mkRow i new (getVersion v)]> m.
Proof.
  intros L U. unfold update_rows. apply map_eq. intros k. rewrite lookup_fmap.
  destruct (decide (k = r)) as [->|N].
  - rewrite lookup_insert_eq, L. cbn. unfold hits. cbn. by rewrite !Z.eqb_refl.
  - rewrite lookup_insert_ne by done. destruct (m !! k) as [x|] eqn:E; [|done]. cbn. f_equal.
    unfold hits. destruct (Z.eqb_spec (r_id x) i) as [H|]; [|done]. by destruct N, (U k x).
Qed.

Lemma any_hit_spec (m : gmap ref row) r i l v w :
  m !! r = Some (mkRow i l v) -> (forall k x, m !! k = Some x -> r_id x = i -> k = r) ->
  any_hit i w m = (v =? w).
Proof.
  intros L U. unfold any_hit. destruct (Z.eqb_spec v w) as [<-|N].
  - apply existsb_exists. exists (mkRow i l v). split; [|unfold hits; cbn; by rewrite !Z.eqb_refl].
    apply list_elem_of_In, list_elem_of_fmap. exists (r, mkRow i l v). split; [done|].
    by apply elem_of_map_to_list.
  - apply not_true_is_false. rewrite existsb_exists. intros (x & I & H).
    apply list_elem_of_In, list_elem_of_fmap in I as ([k y] & -> & I%elem_of_map_to_list).
    unfold hits in H. apply andb_true_iff in H as [H1%Z.eqb_eq H2%Z.eqb_eq]. cbn in *.
    assert (k = r) as -> by (by eapply U). rewrite L in I. injection I as <-. done.
Qed.

(** The usage after an update: the version stays when nothing changes. *)
Definition set_usage (s : store) (r : ref) (i : Z) (used new : ResourceList) (uv : Z) : store :=
  if Equals used new then s else with_usages s (<[r := mkRow i new (getVersion uv)]> (usages s)).

Lemma updateUsageByDB_ok s r i hard used hv uv op new s1 :
  faults s = [] -> has_quota s r i hard used hv uv -> op hard used s = (Ok new, s1) ->
  faults s1 = [] -> has_quota s1 r i hard used hv uv ->
  updateUsageByDB r op s = (Ok tt, set_usage s1 r i used new uv).
Proof.
  intros F H O F1 H1. unfold updateUsageByDB. unfold bind at 1, aborting.
  rewrite (GetByRef_quiet s r i hard used hv uv) by done. cbn [toQuota r_list Hard Used].
  unfold bind at 1. rewrite O. unfold set_usage. destruct (Equals used new); [done|].
  unfold dao_Update. cbn [SetUsed UsedChanged HardChanged andb negb ID UsedVersion Used toQuota r_id r_version].
  rewrite calm_io by done. destruct H1 as [Q U U1 U2].
  rewrite (any_hit_spec _ r i used uv) by done. rewrite Z.eqb_refl.
  by rewrite (update_rows_insert _ r i used uv).
Qed.

Lemma updateUsageByDB_refused s r i hard used hv uv op e s1 :
  faults s = [] -> has_quota s r i hard used hv uv -> op hard used s = (Err e, s1) ->
  updateUsageByDB r op s = (Err (Abort e), s1).
Proof.
  intros F H O. unfold updateUsageByDB. unfold bind at 1, aborting.
  rewrite (GetByRef_quiet s r i hard used hv uv) by done. cbn [toQuota r_list Hard Used].
  unfold bind. by rewrite O.
Qed.

Lemma set_usage_has s r i hard used hv uv new :
  has_quota s r i hard used hv uv ->
  exists uv', has_quota (set_usage s r i used new uv) r i hard new hv uv'.
Proof.
  intros [Q U U1 U2]. unfold set_usage. destruct (Equals used new) eqn:E.
  - apply Equals_spec in E as <-. by exists uv.
  - exists (getVersion uv). constructor; cbn; [done|by rewrite lookup_insert_eq| |done].
    intros k x [[<- <-]|[_ L]]%lookup_insert_Some I; [done|by eapply U1].
Qed.

Lemma set_usage_faults s r i used new uv : faults (set_usage s r i used new uv) = faults s.
Proof. unfold set_usage. by destruct (Equals used new). Qed.

(** ** Requests *)

(** A function that leaves the quota tables alone. *)
Record frame (s s' : store) : Prop := mkFrame {
  fr_quotas : quotas s' = quotas s;
  fr_usages : usages s' = usages s;
  fr_faults : faults s = [] -> faults s' = [];
}.

Lemma frame_has s s' r i hard used hv uv :
  frame s s' -> has_quota s r i hard used hv uv -> has_quota s' r i hard used hv uv.
Proof. intros [Q U _] [H1 H2 H3 H4]. constructor; rewrite ?Q, ?U; done. Qed.

Lemma reserve_fits res hard used s :
  fits hard (Add used res) -> reserveResources res hard used s = (Ok (Add used res), s).
Proof. intros H%(IsSafe_nil hard used). unfold reserveResources. by rewrite H. Qed.

Lemma reserve_refused res hard used s :
  ~ fits hard (Add used res) ->
  exists e, reserveResources res hard used s = (Err e, s) /\ ErrCode e = DENIED.
Proof.
  intros H. unfold reserveResources.
  destruct (IsSafe hard used (Add used res) false) as [|x l] eqn:E.
  - by apply IsSafe_nil in E.
  - by eexists.
Qed.

Lemma rollback_restores res hard used s :
  in_range used -> map_Forall (fun _ v => 0 <= v) used -> dom res ⊆ dom used ->
  rollbackResources res hard (Add used res) s = (Ok used, s).
Proof.
  intros R P D. unfold rollbackResources. rewrite Subtract_Add by done.
  by rewrite (proj2 (IsNegative_nil used) P).
Qed.

Lemma Retry_ok n (f : M store unit) s s' : f s = (Ok tt, s') -> Retry (S n) None f s = (Ok tt, s').
Proof. apply Retry_ok_first. Qed.

Lemma request_refused `{Driver} attempts r i hard used hv uv resources f s :
  faults s = [] -> has_quota s r i hard used hv uv -> resources <> ∅ ->
  ~ fits hard (Add used resources) ->
  exists e, Request (S attempts) ByDB r resources f s = (Err e, s) /\ ErrCode e = DENIED.
Proof.
  intros F Q N Fit.
  assert (Sz : (size resources =? 0)%nat = false) by (apply Nat.eqb_neq; by rewrite map_size_empty_iff).
  destruct (reserve_refused resources hard used s Fit) as (e & E & C). exists e. split; [|done].
  unfold Request. rewrite Sz. unfold bind, updateUsageWithRetry. cbn [Retry].
  by rewrite (updateUsageByDB_refused s r i hard used hv uv _ e s).
Qed.

Lemma request_granted `{Driver} attempts r i hard used hv uv resources f s :
  faults s = [] -> has_quota s r i hard used hv uv -> resources <> ∅ ->
  let s1 := set_usage s r i used (Add used resources) uv in
  frame s1 (f s1).2 ->
  in_range used -> map_Forall (fun _ v => 0 <= v) used -> dom resources ⊆ dom used ->
  fits hard (Add used resources) ->
  (exists uv', has_quota s1 r i hard (Add used resources) hv uv')
  /\ let request := Request (S attempts) ByDB r resources f s in
     match (f s1).1 with
     | Ok _ => request = (Ok tt, (f s1).2)
               /\ exists uv', has_quota request.2 r i hard (Add used resources) hv uv'
     | Err e => request.1 = Err e
                /\ (exists uv', request.2 = set_usage (f s1).2 r i (Add used resources) used uv')
                /\ exists uv', has_quota request.2 r i hard used hv uv'
     end.
Proof.
  intros F Q N s1 Fr1 R P D Fit.
  assert (Sz : (size resources =? 0)%nat = false) by (apply Nat.eqb_neq; by rewrite map_size_empty_iff).
  destruct (set_usage_has s r i hard used hv uv (Add used resources) Q) as [uv1 Q1]. fold s1 in Q1.
  split; [by exists uv1|]. intros request.
  assert (U1 : updateUsageWithRetry (S attempts) ByDB r (reserveResources resources) s = (Ok tt, s1)).
  { apply Retry_ok, (updateUsageByDB_ok s r i hard used hv uv _ _ s); try done.
    by apply reserve_fits. }
  assert (F1 : faults s1 = []) by (unfold s1; by rewrite set_usage_faults).
  pose proof (frame_has _ _ _ _ _ _ _ _ Fr1 Q1) as Q2. destruct Fr1 as [_ _ F2]. specialize (F2 F1).
  unfold request, Request. rewrite Sz. rewrite (bind_ok _ _ _ tt s1) by done.
  unfold bind, try. destruct (f s1) as [[[]|e] s2]; cbn [fst snd] in Q2, F2 |- *.
  - split; [done|]. by exists uv1.
  - assert (U2 : updateUsageWithRetry (S attempts) ByDB r (rollbackResources resources) s2
                 = (Ok tt, set_usage s2 r i (Add used resources) used uv1)).
    { apply Retry_ok, (updateUsageByDB_ok s2 r i hard (Add used resources) hv uv1 _ _ s2); try done.
      by apply rollback_restores. }
    rewrite U2. cbn. split; [done|]. split; [by exists uv1|]. by eapply set_usage_has.
Qed.

(** C16: a request for resources by the database.  When the usage with the
    resources would not fit the limits the request is denied, the function is
    not run and nothing changes.  Otherwise the function runs with the
    resources reserved: its success keeps them reserved, and its failure is
    reported with the usage put back to what it was. *)
Theorem request_accounts_usage `{Driver} attempts r i hard used hv uv resources f s :
  faults s = [] -> has_quota s r i hard used hv uv -> resources <> ∅ ->
  (forall s, frame s (f s).2) ->
  in_range used -> map_Forall (fun _ v => 0 <= v) used -> dom resources ⊆ dom used ->
  let s1 := set_usage s r i used (Add used resources) uv in
  let request := Request (S attempts) ByDB r resources f s in
  (~ fits hard (Add used resources) ->
   exists e, request = (Err e, s) /\ ErrCode e = DENIED)
  /\ (fits hard (Add used resources) ->
      (exists uv', has_quota s1 r i hard (Add used resources) hv uv')
      /\ match (f s1).1 with
         | Ok _ => request = (Ok tt, (f s1).2)
                   /\ exists uv', has_quota request.2 r i hard (Add used resources) hv uv'
         | Err e => request.1 = Err e /\ exists uv', has_quota request.2 r i hard used hv uv'
         end).
Proof.
  intros F Q N Fr R P D s1 request. split; intros Fit.
  - by apply (request_refused attempts r i hard used hv uv).
  - destruct (request_granted attempts r i hard used hv uv resources f s) as [G1 G2]; try done.
    split; [exact G1|]. fold s1 request in G2. destruct (f s1).1; [exact G2|].
    by destruct G2 as (? & _ & ?).
Qed.

Definition sample_quota (hard used : Z) : store :=
  let r : ref := ("project", "1")%string in
  mkStore {[r := mkRow 1 {[ResourceStorage := hard]} 0]} {[r := mkRow 1 {[ResourceStorage := used]} 0]}
    2 ∅ (Blob.mkStore ∅ 1 ∅ ∅ [] ∅ ∅ ∅ []) [].

Lemma sample_quota_has hard used :
  has_quota (sample_quota hard used) ("project", "1")%string 1 {[ResourceStorage := hard]}
    {[ResourceStorage := used]} 0 0.
Proof.
  constructor; cbn; [by rewrite lookup_singleton_eq|by rewrite lookup_singleton_eq| |];
    intros k x [-> _]%lookup_singleton_Some _; done.
Qed.

Lemma request_accounts_usage_witness :
  let r : ref := ("project", "1")%string in
  let request := Request (drv := project_driver) 1 ByDB r {[ResourceStorage := 30]}
                   (fail (Plain "push failed")) (sample_quota 100 50) in
  request.1 = Err (Plain "push failed")
  /\ exists uv', has_quota request.2 r 1 {[ResourceStorage := 100]} {[ResourceStorage := 50]} 0 uv'.
Proof.
  intros r request.
  destruct (request_accounts_usage (H := project_driver) 0 r 1 {[ResourceStorage := 100]}
    {[ResourceStorage := 50]} 0 0 {[ResourceStorage := 30]} (fail (Plain "push failed"))
    (sample_quota 100 50)) as [_ H].
  - done.
  - apply sample_quota_has.
  - done.
  - intros s. done.
  - apply map_Forall_singleton. done.
  - apply map_Forall_singleton. done.
  - rewrite !dom_singleton_L. done.
  - destruct H as [_ H].
    + intros k v. rewrite lookup_Add. destruct (decide (k = ResourceStorage)) as [->|N].
      * intros E. vm_compute in E. injection E as <-. exists 100. split; [done|]. right. done.
      * rewrite !lookup_singleton_ne by done. done.
    + exact H.
Defined.

(** ** Overflow *)

(** The sum of usage and request is taken in 64 bits and the check looks
    at the result, so a request that overflows is granted under any limit
    and leaves a negative usage. *)
Theorem overflow_bypasses_limit hard used size s :
  0 <= used <= hard -> 0 < size <= Int64.max -> Int64.max < used + size -> hard <= Int64.max ->
  reserveResources {[ResourceStorage := size]} {[ResourceStorage := hard]} {[ResourceStorage := used]} s
  = (Ok {[ResourceStorage := used + size - 2 ^ 64]}, s)
  /\ used + size - 2 ^ 64 < 0.
Proof.
  intros U Sz O Hm. unfold Int64.max in *.
  assert (W : Int64.wrap (used + size) = used + size - 2 ^ 64).
  { unfold Int64.wrap. replace (used + size + 2 ^ 63) with ((used + size - 2 ^ 63) + 1 * 2 ^ 64) by lia.
    rewrite Z.mod_add by lia. rewrite Z.mod_small; lia. }
  assert (A : Add {[ResourceStorage := used]} {[ResourceStorage := size]}
              = {[ResourceStorage := used + size - 2 ^ 64]}).
  { apply map_eq. intros k. rewrite lookup_Add. destruct (decide (k = ResourceStorage)) as [->|N].
    - rewrite !lookup_singleton_eq. by rewrite W.
    - by rewrite !lookup_singleton_ne. }
  split; [|lia]. rewrite <- A. apply reserve_fits. rewrite A. apply map_Forall_singleton.
  exists hard. rewrite lookup_singleton_eq. split; [done|]. right. lia.
Qed.

Lemma overflow_bypasses_limit_witness :
  reserveResources {[ResourceStorage := Int64.max]} {[ResourceStorage := 100]} {[ResourceStorage := 10]}
    (sample_quota 100 10)
  = (Ok {[ResourceStorage := 10 + Int64.max - 2 ^ 64]}, sample_quota 100 10)
  /\ 10 + Int64.max - 2 ^ 64 < 0.
Proof. apply (overflow_bypasses_limit 100 10 Int64.max (sample_quota 100 10)); unfold Int64.max; lia. Defined.

(** ** Concurrent requests *)

Section Concurrent.
Context (r : ref) (i : Z) (hard : ResourceList) (hv : Z).

(** What a process does with the usage it has read. *)
Inductive op := Reserve (resources : ResourceList) | Rollback (resources : ResourceList).

Definition run_op (o : op) : usage_op :=
  match o with Reserve res => reserveResources res | Rollback res => rollbackResources res end.

(** The same on the sum of what was granted. *)
Definition account (o : op) (sum : ResourceList) : ResourceList :=
  match o with Reserve res => Add sum res | Rollback res => Subtract sum res end.

(** The resources of an operation are not negative and cannot overflow a
    limited resource. *)
Definition sane_op (o : op) : Prop :=
  let res := match o with Reserve res => res | Rollback res => res end in
  map_Forall (fun k w => 0 <= w <= Int64.max
    /\ forall h, hard !! k = Some h -> h <> UNLIMITED -> 0 <= h /\ h + w <= Int64.max) res.

(** The store, the quotas the processes hold, and the account of all granted
    operations. *)
Record sys := mkSys { q_store : store; held : gmap nat Quota; granted : ResourceList }.

(** The calls of [updateUsageByDB] in several processes: reading the quota,
    and writing the usage computed from it, which may come too late.  The
    version is taken to stay below the wrap of [getVersion]. *)
Inductive step : sys -> sys -> Prop :=
| step_read p q s h g :
    GetByRef r s = (Ok q, s) ->
    step (mkSys s h g) (mkSys s (<[p := q]> h) g)
| step_write p q o new s s' h g :
    h !! p = Some q -> sane_op o -> UsedVersion q < Int64.max ->
    run_op o (Hard q) (Used q) s = (Ok new, s) ->
    dao_Update (SetUsed q new) s = (Ok tt, s') ->
    step (mkSys s h g) (mkSys s' (delete p h) (account o g))
| step_late p q o new e s h g :
    h !! p = Some q ->
    run_op o (Hard q) (Used q) s = (Ok new, s) ->
    dao_Update (SetUsed q new) s = (Err e, s) ->
    step (mkSys s h g) (mkSys s (delete p h) g).

Definition limited_ok (used : ResourceList) : Prop :=
  forall k h u, hard !! k = Some h -> h <> UNLIMITED -> used !! k = Some u -> 0 <= u <= h.

Definition inv (w : sys) : Prop :=
  exists uv, has_quota (q_store w) r i hard (granted w) hv uv
  /\ faults (q_store w) = [] /\ limited_ok (granted w)
  /\ forall p q, held w !! p = Some q -> ID q = i /\ Hard q = hard /\ UsedChanged q = false
       /\ HardChanged q = false /\ UsedVersion q <= uv /\ (UsedVersion q = uv -> Used q = granted w).

Lemma reserve_inv res used new s :
  sane_op (Reserve res) -> limited_ok used -> reserveResources res hard used s = (Ok new, s) ->
  new = Add used res /\ limited_ok new.
Proof.
  intros S L E. unfold reserveResources in E.
  destruct (IsSafe hard used (Add used res) false) eqn:I; [|done]. injection E as <-.
  split; [done|]. apply IsSafe_nil in I. intros k h u Hh Hu Hk.
  destruct (I k u Hk) as (h' & Hh' & B). rewrite Hh in Hh'. injection Hh' as <-.
  destruct B as [->|B]; [done|]. split; [|done].
  rewrite lookup_Add in Hk. destruct (used !! k) as [x|] eqn:X, (res !! k) as [w|] eqn:W; simplify_eq.
  - destruct (S k w W) as [[W0 W1] Sk]. destruct (Sk h Hh Hu) as [H0 H1].
    destruct (L k h x Hh Hu X) as [X0 X1].
    rewrite Int64.wrap_id; [lia|]. unfold Int64.in_range, Int64.min. lia.
  - by destruct (L k h u Hh Hu X).
  - by destruct (S k u W) as [[? _] _].
Qed.

Lemma rollback_inv res used new s :
  sane_op (Rollback res) -> limited_ok used -> rollbackResources res hard used s = (Ok new, s) ->
  new = Subtract used res /\ limited_ok new.
Proof.
  intros S L E. unfold rollbackResources in E.
  destruct (IsNegative (Subtract used res)) eqn:I; [|done]. injection E as <-.
  split; [done|]. apply IsNegative_nil in I. intros k h u Hh Hu Hk. pose proof (I k u Hk) as P.
  split; [done|]. rewrite lookup_Subtract in Hk.
  destruct (used !! k) as [x|] eqn:X, (res !! k) as [w|] eqn:W; simplify_eq.
  - destruct (S k w W) as [[W0 W1] Sk]. destruct (Sk h Hh Hu) as [H0 H1].
    destruct (L k h x Hh Hu X) as [X0 X1].
    rewrite Int64.wrap_id; [lia|]. unfold Int64.in_range, Int64.min, Int64.max in *. lia.
  - by destruct (L k h u Hh Hu X).
  - destruct (S k w W) as [[W0 W1] Sk]. destruct (Sk h Hh Hu) as [H0 H1].
    rewrite Int64.wrap_id in P |- * by (unfold Int64.in_range, Int64.min, Int64.max in *; lia). lia.
Qed.

Lemma run_op_inv o used new s :
  sane_op o -> limited_ok used -> run_op o hard used s = (Ok new, s) ->
  new = account o used /\ limited_ok new.
Proof. destruct o; [apply reserve_inv|apply rollback_inv]. Qed.

Lemma step_inv w w' : step w w' -> inv w -> inv w'.
Proof.
  destruct 1 as [p q s h g G|p q o new s s' h g P So V O U|p q o new e s h g P O U];
    intros (uv & Q & F & L & H); cbn in *.
  - exists uv. split_and!; try done. cbn. intros p' q' [[<- <-]|[_ P']]%lookup_insert_Some; [|by eapply H].
    rewrite (GetByRef_quiet s r i hard g hv uv) in G by done. injection G as <-. cbn. done.
  - destruct (H p q P) as (Iq & Hq & Uc & Hc & Ve & Eq).
    unfold dao_Update in U. cbn [SetUsed UsedChanged HardChanged ID UsedVersion Used] in U.
    rewrite Hc in U. cbn [andb negb] in U. rewrite calm_io, Iq in U by done.
    destruct Q as [Q1 Q2 Q3 Q4].
    rewrite (any_hit_spec _ r i g uv) in U by done.
    destruct (Z.eqb_spec uv (UsedVersion q)) as [Ev|]; [|done]. injection U as <-.
    rewrite <- Ev in *. rewrite Hq, (Eq eq_refl) in O.
    destruct (run_op_inv o g new s So L O) as [-> L'].
    assert (Gv : getVersion uv = uv + 1).
    { unfold getVersion. destruct (Z.eqb_spec uv Int64.max); [lia|done]. }
    exists (uv + 1). rewrite (update_rows_insert _ r i g uv) by done. rewrite Gv. split_and!.
    + constructor; cbn; [done|by rewrite lookup_insert_eq| |done].
      intros k x [[<- <-]|[_ Lk]]%lookup_insert_Some E; [done|by eapply Q3].
    + done.
    + done.
    + cbn. intros p' q' [_ P']%lookup_delete_Some. destruct (H p' q' P') as (A1 & A2 & A3 & A4 & A5 & A6).
      split_and!; try done; [lia|]. intros E. lia.
  - exists uv. split_and!; try done. cbn. intros p' q' [_ P']%lookup_delete_Some. by eapply H.
Qed.

Lemma steps_inv w w' : rtc step w w' -> inv w -> inv w'.
Proof. induction 1; [done|]. intros I. by eapply IHrtc, step_inv. Qed.
End Concurrent.

(** C1: concurrent requests neither lose nor repeat an update.  Under any
    interleaving of processes that read the quota and later write a
    reservation or a roll back computed from what they read, the stored usage
    is the initial one with all granted operations applied, in the order in
    which they were granted, and no limited resource exceeds its limit. *)
Theorem no_lost_usage r i hard hv used uv s w :
  has_quota s r i hard used hv uv -> faults s = [] -> limited_ok hard used ->
  rtc (step r hard) (mkSys s ∅ used) w ->
  exists uv', has_quota (q_store w) r i hard (granted w) hv uv' /\ limited_ok hard (granted w).
Proof.
  intros Q F L H.
  assert (I : inv r i hard hv w).
  { eapply steps_inv; [exact H|]. by exists uv. }
  destruct I as (uv' & Q' & _ & L' & _). by exists uv'.
Qed.

(** Two pushes of 30 by processes that read the same usage of 50: the second
    write comes too late. *)
Lemma no_lost_usage_witness :
  let r : ref := ("project", "1")%string in
  let hard : ResourceList := {[ResourceStorage := 100]} in
  let s := sample_quota 100 50 in
  let q := toQuota r (mkRow 1 hard 0) (mkRow 1 {[ResourceStorage := 50]} 0) in
  let new := Add {[ResourceStorage := 50]} {[ResourceStorage := 30]} in
  let s' := (dao_Update (SetUsed q new) s).2 in
  exists uv', has_quota s' r 1 hard new 0 uv' /\ limited_ok hard new.
Proof.
  intros r hard s q new s'.
  assert (So : sane_op hard (Reserve {[ResourceStorage := 30]})).
  { apply map_Forall_singleton. split; [unfold Int64.max; lia|]. intros h E _.
    apply lookup_singleton_Some in E as [_ <-]. unfold Int64.max. lia. }
  assert (G : GetByRef r s = (Ok q, s)) by (apply GetByRef_quiet; [done|apply sample_quota_has]).
  apply (no_lost_usage r 1 hard 0 {[ResourceStorage := 50]} 0 s
    (mkSys s' (delete 2%nat (delete 1%nat (<[2%nat := q]> (<[1%nat := q]> ∅)))) new));
    [apply sample_quota_has|done| |].
  - intros k h u E _ U. apply lookup_singleton_Some in E as [<- <-].
    rewrite lookup_singleton_eq in U. injection U as <-. lia.
  - eapply rtc_l; [by apply (step_read r hard 1)|]. eapply rtc_l; [by apply (step_read r hard 2)|].
    eapply rtc_l; [by apply (step_write r hard 1 q (Reserve {[ResourceStorage := 30]}) new s s')|].
    apply rtc_once.
    eapply (step_late r hard 2 q (Reserve {[ResourceStorage := 30]}) new ErrOptimisticLock); by vm_compute.
Defined.

(** ** Updates of a whole quota, and the flush of the redis copies *)

Lemma update_rows_quotas s r i hard used hv uv :
  has_quota s r i hard used hv uv ->
  any_hit i hv (quotas s) = true
  /\ forall l, update_rows i hv l (quotas s) = <[r := mkRow i l (getVersion hv)]> (quotas s).
Proof.
  intros [Q U U1 U2]. split.
  - rewrite (any_hit_spec _ r i hard hv) by done. apply Z.eqb_refl.
  - intros l. by apply (update_rows_insert _ r i hard hv).
Qed.

(** An update whose limits and usage both differ from the stored ones is
    refused by every attempt, so the caller waits for the retries to time out
    and the quota is as before. *)
Theorem update_both_never_succeeds attempts u r i hard used hv uv s :
  faults s = [] -> has_quota s r i hard used hv uv -> (Reference u, ReferenceID u) = r ->
  Hard u <> hard -> Used u <> used ->
  exists e, Update attempts u s = (Err (Coded "" "retry timeout" e), s).
Proof.
  intros F Q R Nh Nu. unfold Update. rewrite R.
  assert (E : forall last, exists e,
    Retry attempts last (q <- GetByRef r ;; dao_Update (apply_update u q)) s
    = (Err (Coded "" "retry timeout" e), s)); [|apply E].
  induction attempts as [|n IH]; intros last; [by eexists|]. cbn [Retry].
  rewrite (bind_ok _ _ _ _ _ (GetByRef_quiet s r i hard used hv uv F Q)).
  assert (A : apply_update u (toQuota r (mkRow i hard hv) (mkRow i used uv))
              = SetUsed (SetHard (toQuota r (mkRow i hard hv) (mkRow i used uv)) (Hard u)) (Used u)).
  { unfold apply_update. cbn [toQuota r_list Hard Used].
    destruct (Equals hard (Hard u)) eqn:E1; [by apply Equals_spec in E1|].
    change (Used (SetHard _ _)) with used.
    destruct (Equals used (Used u)) eqn:E2; [by apply Equals_spec in E2|done]. }
  rewrite A. cbn. apply IH.
Qed.

Lemma update_both_never_succeeds_witness :
  let u := mkQuota 1 "project" "1" {[ResourceStorage := 200]} {[ResourceStorage := 60]} 0 0 true true in
  exists e, Update 5 u (sample_quota 100 50) = (Err (Coded "" "retry timeout" e), sample_quota 100 50).
Proof.
  intros u.
  apply (update_both_never_succeeds 5 u ("project", "1")%string 1 {[ResourceStorage := 100]}
    {[ResourceStorage := 50]} 0 0); [done|apply sample_quota_has|done| |];
    intros E; apply (f_equal (fun m : ResourceList => m !! ResourceStorage)) in E; by vm_compute in E.
Defined.

(** The flush of the redis copies undoes a change of the limits: when a
    copy made before the change is flushed and the usage is the same, the
    limits of the copy are written back over the ones set since. *)
Theorem flush_reverts_hard attempts r i hard used hv uv copy s :
  faults s = [] -> has_quota s r i hard used hv uv ->
  cached s = {[r := copy]} -> (Reference copy, ReferenceID copy) = r ->
  Hard copy <> hard -> Used copy = used ->
  exists s', flushQuota (S attempts) s = (Ok tt, s')
  /\ quotas s' !! r = Some (mkRow i (Hard copy) (getVersion hv)).
Proof.
  intros F Q C R Nh Eu. unfold flushQuota.
  assert (K : (map_to_list (cached s)).*1 = [r]) by (rewrite C, map_to_list_singleton; done).
  rewrite (bind_ok _ _ _ (Ok [r]) s) by (unfold try; rewrite calm_io by done; by rewrite K).
  cbn [flush_keys].
  rewrite (bind_ok _ _ _ (Ok (Some copy)) s)
    by (unfold try; rewrite calm_io by done; by rewrite C, lookup_singleton_eq).
  destruct (update_rows_quotas s r i hard used hv uv Q) as [H1 H2].
  set (s' := with_quotas s (<[r := mkRow i (Hard copy) (getVersion hv)]> (quotas s))).
  assert (U : Update (S attempts) copy s = (Ok tt, s')).
  { unfold Update. rewrite R. apply Retry_ok.
    rewrite (bind_ok _ _ _ _ _ (GetByRef_quiet s r i hard used hv uv F Q)).
    unfold apply_update. cbn [toQuota r_list Hard Used].
    destruct (Equals hard (Hard copy)) eqn:E1; [by apply Equals_spec in E1|].
    change (Used (SetHard _ _)) with used.
    rewrite Eu. rewrite (proj2 (Equals_spec used used)) by done.
    unfold dao_Update. cbn [SetHard toQuota UsedChanged HardChanged andb negb ID HardVersion Hard r_id r_version].
    rewrite calm_io by done. by rewrite H1, H2. }
  unfold bind, try. rewrite U. exists s'. split; [done|]. cbn. by rewrite lookup_insert_eq.
Qed.

Lemma flush_reverts_hard_witness :
  let r : ref := ("project", "1")%string in
  let copy := mkQuota 1 "project" "1" {[ResourceStorage := 100]} {[ResourceStorage := 50]} 0 0 false true in
  let s := with_cached (sample_quota 20 50) {[r := copy]} in
  exists s', flushQuota 1 s = (Ok tt, s') /\ quotas s' !! r = Some (mkRow 1 {[ResourceStorage := 100]} 1).
Proof.
  intros r copy s.
  apply (flush_reverts_hard 0 r 1 {[ResourceStorage := 20]} {[ResourceStorage := 50]} 0 0 copy s); try done.
  - destruct (sample_quota_has 20 50) as [H1 H2 H3 H4]. by constructor.
Defined.

(** ** Refreshing a project's usage *)

(** The size of the blobs of a project, foreign layers apart. *)
Definition project_size (b : Blob.store) (projectID : Z) : Z :=
  sum_Z (Blob.Size <$> List.filter (fun x =>
    bool_decide ((projectID, Blob.ID x) ∈ Blob.project_blob b) && negb (Blob.IsForeignLayer x))
    (Blob.rows b)).

(** Refreshing the quota of a project stores the size of the blobs of the
    project, foreign layers left out, as its usage, when that size is within
    the limit, the storage is unlimited or the limit is to be ignored. *)
Theorem refresh_stores_blob_size attempts ignore r p i h used hv uv s :
  faults s = [] -> Blob.faults (blob_store s) = [] ->
  r.2 = Strconv.format_int p -> Int64.in_range p ->
  has_quota s r i {[ResourceStorage := h]} used hv uv ->
  let size := project_size (blob_store s) p in
  0 <= size -> ignore = true \/ h = UNLIMITED \/ size <= h ->
  exists s' uv', Refresh (drv := project_driver) (S attempts) ByDB r ignore s = (Ok tt, s')
  /\ has_quota s' r i {[ResourceStorage := h]} {[ResourceStorage := size]} hv uv'.
Proof.
  intros F Fb Rp Ip Q size P L.
  assert (C : project_CalculateUsage r.2 s = (Ok {[ResourceStorage := size]}, s)).
  { unfold project_CalculateUsage. rewrite Rp, Strconv.parse_format_int by done.
    unfold bind, lift_blob, Blob.SumBlobsSizeByProject, Blob.query, io, next_fault, Blob.store_faulty.
    rewrite Fb. cbn. by destruct s. }
  assert (O : refreshResources (project_CalculateUsage r.2) ignore {[ResourceStorage := h]} used s
              = (Ok {[ResourceStorage := size]}, s)).
  { unfold refreshResources. rewrite (bind_ok _ _ _ _ _ C).
    rewrite (proj2 (IsNegative_nil _)) by (by apply map_Forall_singleton).
    unfold IsSafe. rewrite map_to_list_singleton. cbn [fmap list_fmap concat].
    unfold check_resource. rewrite lookup_singleton_eq.
    destruct (Z.eqb_spec h UNLIMITED); [done|].
    replace ((size >? h) && negb ignore) with false; [done|].
    destruct L as [->|[|]]; [by rewrite andb_false_r|done|].
    symmetry. apply andb_false_iff. left. lia. }
  destruct (set_usage_has s r i {[ResourceStorage := h]} used hv uv {[ResourceStorage := size]} Q)
    as [uv' Q'].
  exists (set_usage s r i used {[ResourceStorage := size]} uv), uv'. split; [|done].
  unfold Refresh, updateUsageWithRetry. apply Retry_ok.
  by apply (updateUsageByDB_ok s r i {[ResourceStorage := h]} used hv uv _ _ s).
Qed.

Lemma refresh_stores_blob_size_witness :
  let r : ref := ("project", "1")%string in
  exists s' uv', Refresh (drv := project_driver) 1 ByDB r false (sample_quota 100 50) = (Ok tt, s')
  /\ has_quota s' r 1 {[ResourceStorage := 100]} {[ResourceStorage := 0]} 0 uv'.
Proof.
  intros r.
  apply (refresh_stores_blob_size 0 false r 1 1 100 {[ResourceStorage := 50]} 0 0 (sample_quota 100 50));
    try done; [apply sample_quota_has|]. right. right. by vm_compute.
Defined.
