(* ===== verification/Retention.v ===== *)
(** * Tag retention and immutability

    [src/lib/selector] (candidates and selectors), [src/pkg/retention/policy]
    (the rule evaluators, the rule index, the builder, the OR processor with
    its goroutines and channels, the retain action) and
    [src/pkg/immutable/match/rule] (the immutable tag matcher the retain
    action asks before it deletes). *)

From S2P Require Import Prelude Errors.

(** ** Candidates *)

Record Candidate := mkCandidate {
  NamespaceID : Z;
  Namespace : string;
  Repository : string;
  Kind : string;
  Tags : list string;
  Digest : string;
  PushedTime : Z;
  PulledTime : Z;
  CreationTime : Z;
  Labels : list string;
}.

#[global] Instance Candidate_eq_dec : EqDecision Candidate.
Proof. solve_decision. Defined.

(** [Hash] before its base64 encoding, which is one-to-one. *)
Definition Hash (c : Candidate) : string :=
  (Kind c ++ ":" ++ Namespace c ++ "/" ++ Repository c ++ ":" ++ Digest c)%string.

(** ** Selectors *)

Definition Matches : string := "matches".
Definition Excludes : string := "excludes".
Definition RepoMatches : string := "repoMatches".
Definition RepoExcludes : string := "repoExcludes".
Definition NSMatches : string := "nsMatches".
Definition NSExcludes : string := "nsExcludes".

(** The doublestar selector. *)
Record selector := mkSelector {
  decoration : string;
  pattern : string;
  untagged : bool;
}.

(** A selector of a rule, as stored. *)
Record SelectorMeta := mkSelectorMeta {
  s_Kind : string;
  s_Decoration : string;
  s_Pattern : string;
  s_Extras : string;
}.

Section Selectors.
(** [doublestar.Match], and what [json.Unmarshal] gives for the field
    [untagged] of the extras: nothing for a malformed text. *)
Context (doublestar_Match : string -> string -> result bool).
Context (parse_untagged : string -> option bool).

Definition match_ (pattern str : string) : result bool :=
  if pattern =s= "" then Ok true else doublestar_Match pattern str.

(** The loops over the tags: the first one that matches, or does not. *)
Fixpoint some_tag (pattern : string) (want : bool) (tags : list string) : result bool :=
  match tags with
  | [] => Ok false
  | t :: ts =>
      match match_ pattern t with
      | Err e => Err e
      | Ok matched => if Bool.eqb matched want then Ok true else some_tag pattern want ts
      end
  end.

Definition tagSelectMatch (s : selector) (art : Candidate) : result bool :=
  match Tags art with
  | [] => Ok (untagged s)
  | ts => some_tag (pattern s) true ts
  end.

Definition tagSelectExclude (s : selector) (art : Candidate) : result bool :=
  match Tags art with
  | [] => Ok (negb (untagged s))
  | ts => some_tag (pattern s) false ts
  end.

(** Repository and namespace decorations: an empty value selects nothing. *)
Definition value_select (s : selector) (value : string) (excludes : bool) : result bool :=
  if value =s= "" then Ok false
  else match match_ (pattern s) value with
       | Err e => Err e
       | Ok matched => Ok (if excludes then negb matched else matched)
       end.

Definition select_one (s : selector) (art : Candidate) : result bool :=
  if decoration s =s= Matches then tagSelectMatch s art
  else if decoration s =s= Excludes then tagSelectExclude s art
  else if decoration s =s= RepoMatches then value_select s (Repository art) false
  else if decoration s =s= RepoExcludes then value_select s (Repository art) true
  else if decoration s =s= NSMatches then value_select s (Namespace art) false
  else if decoration s =s= NSExcludes then value_select s (Namespace art) true
  else Ok false.

Fixpoint Select (s : selector) (artifacts : list Candidate) : result (list Candidate) :=
  match artifacts with
  | [] => Ok []
  | art :: arts =>
      match select_one s art with
      | Err e => Err e
      | Ok b =>
          match Select s arts with
          | Err e => Err e
          | Ok l => Ok (if b : bool then art :: l else l)
          end
      end
  end.

Definition New_selector (decoration pattern extras : string) : selector :=
  let untagged := negb (decoration =s= Excludes) in
  mkSelector decoration pattern
    (if negb (extras =s= "") then default untagged (parse_untagged extras) else untagged).

(** The selector index: only the doublestar selector is registered. *)
Definition Get_selector (kind decoration pattern extras : string) : result selector :=
  if (kind =s= "") || (decoration =s= "") then Err (New "empty selector kind or decoration")
  else if negb (kind =s= "doublestar") then Err (New ("selector " ++ kind ++ " is not registered"))
  else if existsb (String.eqb decoration) [Matches; Excludes; RepoMatches; RepoExcludes; NSMatches; NSExcludes]
  then Ok (New_selector decoration pattern extras)
  else Err (New ("decoration " ++ decoration ++ " of selector " ++ kind ++ " is not supported")).
End Selectors.

(** The label selector. *)
Definition isMatched (patternLbls resLbls : list string) (decoration : string) : bool :=
  forallb (fun lbl =>
    let exists_ := existsb (String.eqb lbl) resLbls in
    negb ((decoration =s= "withoutLabels") && exists_)
    && negb ((decoration =s= "withLabels") && negb exists_)) patternLbls.

Definition label_Select (decoration : string) (labels : list string) (artifacts : list Candidate)
    : list Candidate :=
  List.filter (fun art => isMatched labels (Labels art) decoration) artifacts.

Definition label_New (labelText : string) : list string :=
  if labelText =s= "" then [] else GoStrings.Split labelText ",".

(** ** Rule evaluators *)

(** A parameter of a rule: a JSON number, as the integer it is converted to,
    or something else. *)
Inductive parameter := PInt (z : Z) | POther.

Definition ParseJSONInt (p : parameter) : option Z :=
  match p with PInt z => Some z | POther => None end.

Definition parameters : Type := string -> option parameter.

(** The registered evaluators. *)
Inductive evaluator :=
| LatestActiveK (k : Z)
| LatestPushedK (k : Z)
| LatestPulledN (n : Z)
| LastXDays (x : Z)
| NDaysSinceLastPull (n : Z)
| NDaysSinceLastPush (n : Z)
| Always.

(** [New] of the evaluators with a count: the parameter when it is a number
    that is not negative, the default otherwise. *)
Definition count_param (params : parameters) (name : string) (default_ : Z) : Z :=
  match params name with
  | Some p => match ParseJSONInt p with
              | Some v => if 0 <=? v then v else default_
              | None => default_
              end
  | None => default_
  end.

(** The validators: a bound, and whether the bound itself is refused. *)
Definition valid_count (params : parameters) (name : string) (too_large : Z -> bool) : result unit :=
  match params name with
  | None => Ok tt
  | Some p =>
      match ParseJSONInt p with
      | None => Err (Plain (name ++ " type error"))
      | Some v =>
          if v <? 0 then Err (Plain (name ++ " is less than zero"))
          else if too_large v then Err (Plain (name ++ " is too large"))
          else Ok tt
      end
  end.

(** The rule index: a template with its required parameter, its validators
    and its factory. *)
Record indexedItem := mkItem {
  required : option string;
  factory : parameters -> evaluator;
  validate : parameters -> result unit;
}.

Definition no_validator (_ : parameters) : result unit := Ok tt.

Definition rule_index (templateID : string) : option indexedItem :=
  if templateID =s= "latestPushedK" then
    Some (mkItem (Some "latestPushedK"%string) (fun p => LatestPushedK (count_param p "latestPushedK" 10))
            (fun p => valid_count p "latestPushedK" (fun v => 32767 <=? v)))
  else if templateID =s= "latestPulledN" then
    Some (mkItem (Some "latestPulledN"%string) (fun p => LatestPulledN (count_param p "latestPulledN" 10))
            (fun p => valid_count p "latestPulledN" (fun v => 32767 <=? v)))
  else if templateID =s= "latestActiveK" then
    Some (mkItem (Some "latestActiveK"%string) (fun p => LatestActiveK (count_param p "latestActiveK" 10))
            no_validator)
  else if templateID =s= "lastXDays" then
    Some (mkItem (Some "lastXDays"%string) (fun p => LastXDays (count_param p "lastXDays" 10)) no_validator)
  else if templateID =s= "always" then Some (mkItem None (fun _ => Always) no_validator)
  else if templateID =s= "nDaysSinceLastPull" then
    Some (mkItem (Some "nDaysSinceLastPull"%string)
            (fun p => NDaysSinceLastPull (count_param p "nDaysSinceLastPull" 30))
            (fun p => valid_count p "nDaysSinceLastPull" (fun v => v >? 20190904)))
  else if templateID =s= "nDaysSinceLastPush" then
    Some (mkItem (Some "nDaysSinceLastPush"%string)
            (fun p => NDaysSinceLastPush (count_param p "nDaysSinceLastPush" 30))
            (fun p => valid_count p "nDaysSinceLastPush" (fun v => v >? 20190904)))
  else None.

Definition lookup_rule (templateID : string) (params : parameters) : result indexedItem :=
  if templateID =s= "" then Err (New "empty rule template ID")
  else
    let templateID := if templateID =s= "immutable_template" then "always"%string else templateID in
    match rule_index templateID with
    | None => Err (New ("rule evaluator " ++ templateID ++ " is not registered"))
    | Some item =>
        match required item with
        | Some name =>
            match params name with
            | None => Err (New ("missing required parameter " ++ name ++ " for rule " ++ templateID))
            | Some _ => Ok item
            end
        | None => Ok item
        end
    end.

Definition Valid_rule (templateID : string) (params : parameters) : result unit :=
  match lookup_rule templateID params with
  | Err e => Err e
  | Ok item => validate item params
  end.

Definition Get_rule (templateID : string) (params : parameters) : result evaluator :=
  match lookup_rule templateID params with
  | Err e => Err e
  | Ok item => Ok (factory item params)
  end.

Definition activeTime (c : Candidate) : Z :=
  if PulledTime c >? PushedTime c then PulledTime c else PushedTime c.

Definition Hour : Z := 3600 * 10 ^ 9.

(** [time.Duration(-24*n) * time.Hour], in nanoseconds and in 64 bits. *)
Definition days_ago (n : Z) : Z := Int64.wrap (Int64.wrap (-24 * n) * Hour).

Section Evaluators.
(** [sort.Slice] by a time, newest first; it is not stable, so the order of
    equal times is left open. *)
Context (sort_by : (Candidate -> Z) -> list Candidate -> list Candidate).
(** The current time in nanoseconds. *)
Context (now : Z).

Definition first_k (k : Z) (l : list Candidate) : list Candidate :=
  firstn (Z.to_nat (Z.min k (Z.of_nat (length l)))) l.

Definition Process_rule (e : evaluator) (artifacts : list Candidate) : list Candidate :=
  match e with
  | LatestActiveK k => first_k k (sort_by activeTime artifacts)
  | LatestPushedK k => first_k k (sort_by PushedTime artifacts)
  | LatestPulledN n => first_k n (sort_by PulledTime artifacts)
  | LastXDays x => List.filter (fun a => PushedTime a * 10 ^ 9 >? now + days_ago x) artifacts
  | NDaysSinceLastPull n => List.filter (fun a => PulledTime a >=? (now + days_ago n) / 10 ^ 9) artifacts
  | NDaysSinceLastPush n => List.filter (fun a => PushedTime a >=? (now + days_ago n) / 10 ^ 9) artifacts
  | Always => artifacts
  end.

(** ** Immutable tags *)

(** The part of a stored immutable rule that the matcher uses. *)
Record ImmutableRule := mkImmutableRule {
  i_Disabled : bool;
  i_Template : string;
  i_Parameters : parameters;
  i_TagSelectors : list SelectorMeta;
  i_RepositorySelectors : list SelectorMeta;
}.

Context (doublestar_Match : string -> string -> result bool).
Context (parse_untagged : string -> option bool).

Definition quote_ : string := String (ascii_of_nat 34) EmptyString.

(** The extras [Match] passes with every tag selector. *)
Definition untagged_false : string := ("{" ++ quote_ ++ "untagged" ++ quote_ ++ ": false}")%string.

Definition run_selector (m : SelectorMeta) (extras : string) (cands : list Candidate)
    : result (list Candidate) :=
  match Get_selector parse_untagged (s_Kind m) (s_Decoration m) (s_Pattern m) extras with
  | Err e => Err e
  | Ok s => Select doublestar_Match s cands
  end.

(** [Match]: the first enabled rule whose selectors and evaluator all keep
    the candidate; an error of a rule is returned. *)
Fixpoint Match (rules : list ImmutableRule) (c : Candidate) : result bool :=
  match rules with
  | [] => Ok false
  | r :: rs =>
      if i_Disabled r then Match rs c
      else match i_RepositorySelectors r with
      | [] => Match rs c
      | rsel :: _ =>
          match run_selector rsel "" [c] with
          | Err e => Err e
          | Ok [] => Match rs c
          | Ok _ =>
              match i_TagSelectors r with
              | [] => Match rs c
              | tsel :: _ =>
                  match run_selector tsel untagged_false [c] with
                  | Err e => Err e
                  | Ok [] => Match rs c
                  | Ok _ =>
                      match Get_rule (i_Template r) (i_Parameters r) with
                      | Err e => Err e
                      | Ok ev => match Process_rule ev [c] with
                                 | [] => Match rs c
                                 | _ => Ok true
                                 end
                      end
                  end
              end
          end
      end
  end.

(** ** The retain action *)

(** The immutable rules of a project, or the error of reading them. *)
Context (immutable_rules : Z -> result (list ImmutableRule)).

Definition isImmutable (c : Candidate) : bool :=
  match immutable_rules (NamespaceID c) with
  | Err _ => true
  | Ok rules =>
      match Match rules (mkCandidate (NamespaceID c) "" (Repository c) "" (Tags c) "" (PushedTime c)
                           (PulledTime c) 0 []) with
      | Err _ => true
      | Ok matched => matched
      end
  end.

(** What happens to one candidate. *)
Inductive outcome := Deleted | DeleteError (e : error) | Immutable | DryRun.

(** The client that deletes a candidate: its error, if any. *)
Context (Delete : Candidate -> option error).

Definition mem_hash (h : string) (l : list string) : bool := existsb (String.eqb h) l.

(** [Perform]: the results, and with them the deletions. *)
Definition Perform (all : list Candidate) (isDryRun : bool) (candidates : list Candidate)
    : list (Candidate * outcome) :=
  let retainedShare := Hash <$> candidates in
  let immutableShare := Hash <$> List.filter (fun c =>
    negb (mem_hash (Hash c) retainedShare) && isImmutable c) all in
  (fun c => (c, if mem_hash (Hash c) immutableShare then Immutable
                else if isDryRun then DryRun
                else match Delete c with Some e => DeleteError e | None => Deleted end))
  <$> List.filter (fun c => negb (mem_hash (Hash c) retainedShare)) all.

(** ** The OR processor *)

(** A rule of the processor: its evaluator with its selectors. *)
Record Parameter_ := mkParam { p_evaluator : evaluator; p_selectors : list selector }.

(** [New]: a rule without selectors is left out. *)
Definition New_processor (params : list Parameter_) : list Parameter_ :=
  List.filter (fun p => negb (length (p_selectors p) =? 0)%nat) params.

Fixpoint run_selectors (ss : list selector) (l : list Candidate) : result (list Candidate) :=
  match ss with
  | [] => Ok l
  | s :: ss' =>
      match Select doublestar_Match s l with
      | Err e => Err e
      | Ok l' => run_selectors ss' l'
      end
  end.

(** What the goroutine of a rule sends. *)
Definition run_rule (artifacts : list Candidate) (p : Parameter_) : result (list Candidate) :=
  match run_selectors (p_selectors p) artifacts with
  | Err e => Err e
  | Ok l => Ok (Process_rule (p_evaluator p) l)
  end.
End Evaluators.

(** The state of [Process] between the start of its goroutines and the end
    of the receiving loop: what the rules still have to send, the two
    channels with room for one item each, whether the result channel is
    closed, and the receiver's candidates and error.  All actions are
    [retain]; [acc] is empty until a result has come. *)
Record pstate := mkP {
  todo : list (result (list Candidate));
  resBuf : option (list Candidate);
  errBuf : option error;
  closed : bool;
  acc : option (gmap string Candidate);
  perr : option error;
  exited : bool;
}.

Definition add_results (m : option (gmap string Candidate)) (l : list Candidate)
    : option (gmap string Candidate) :=
  Some (foldl (fun m c => <[Hash c := c]> m) (default ∅ m) l).

Definition add_error (err : option error) (e : error) : option error :=
  Some (match err with
        | None => Wrap e "artifact processing error"
        | Some e0 => Wrap e (Error_string e0)
        end).

(** One step of a goroutine, of the main function closing the channel once
    all rules are done, or of the receiver's [select], which picks any case
    that is ready. *)
Inductive pstep : pstate -> pstate -> Prop :=
| p_send_res l1 l2 p eb a er :
    pstep (mkP (l1 ++ Ok p :: l2) None eb false a er false) (mkP (l1 ++ l2) (Some p) eb false a er false)
| p_send_err l1 l2 e rb a er :
    pstep (mkP (l1 ++ Err e :: l2) rb None false a er false) (mkP (l1 ++ l2) rb (Some e) false a er false)
| p_close rb eb a er :
    pstep (mkP [] rb eb false a er false) (mkP [] rb eb true a er false)
| p_recv_res td p eb cl a er :
    pstep (mkP td (Some p) eb cl a er false) (mkP td None eb cl (add_results a p) er false)
| p_recv_err td rb e cl a er :
    pstep (mkP td rb (Some e) cl a er false) (mkP td rb None cl a (add_error er e) false)
| p_exit eb a er :
    pstep (mkP [] None eb true a er false) (mkP [] None eb true a er true).

Definition start (outcomes : list (result (list Candidate))) : pstate :=
  mkP outcomes None None false None None false.

(** The end of [Process]: the error, or the results of the retain action on
    what was received. *)
Definition finish (perform : list Candidate -> list (Candidate * outcome)) (s : pstate)
    : result (list (Candidate * outcome)) :=
  match perr s with
  | Some e => Err e
  | None => Ok (match acc s with
                | None => []
                | Some m => perform (map_to_list m).*2
                end)
  end.

(** ** The builder *)

Record RuleMeta := mkRuleMeta {
  ru_Template : string;
  ru_Parameters : parameters;
  ru_Action : string;
  ru_TagSelectors : list SelectorMeta;
}.

Fixpoint build_selectors (parse_untagged : string -> option bool) (l : list SelectorMeta)
    : result (list selector) :=
  match l with
  | [] => Ok []
  | m :: ms =>
      match Get_selector parse_untagged (s_Kind m) (s_Decoration m) (s_Pattern m) (s_Extras m) with
      | Err e => Err (Wrap e "get selector by metadata")
      | Ok s => match build_selectors parse_untagged ms with
                | Err e => Err e
                | Ok ss => Ok (s :: ss)
                end
      end
  end.

Fixpoint build_params (parse_untagged : string -> option bool) (l : list RuleMeta)
    : result (list Parameter_) :=
  match l with
  | [] => Ok []
  | r :: rs =>
      match Get_rule (ru_Template r) (ru_Parameters r) with
      | Err e => Err e
      | Ok ev =>
          if negb (ru_Action r =s= "retain")
          then Err (Wrap (if ru_Action r =s= "" then New "empty action"
                          else New ("action " ++ ru_Action r ++ " is not registered"))
                      "get action performer by metadata")
          else match build_selectors parse_untagged (ru_TagSelectors r) with
               | Err e => Err e
               | Ok ss => match build_params parse_untagged rs with
                          | Err e => Err e
                          | Ok ps => Ok (mkParam ev ss :: ps)
                          end
               end
      end
  end.

Definition Build (parse_untagged : string -> option bool) (algorithm : string) (rules : list RuleMeta)
    : result (list Parameter_) :=
  match build_params parse_untagged rules with
  | Err e => Err e
  | Ok ps => if algorithm =s= "or" then Ok (New_processor ps)
             else Err (Wrap (New ("no processor registered with algorithm: " ++ algorithm))
                        ("get processor for algorithm: " ++ algorithm))
  end.

(** ** The processor and its reference *)

(** [Process]: what a complete run of its goroutines can return. *)
Definition Process_run (run : Parameter_ -> result (list Candidate))
    (perform : list Candidate -> list (Candidate * outcome))
    (artifacts : list Candidate) (rules : list Parameter_) (r : result (list (Candidate * outcome))) : Prop :=
  (artifacts = [] /\ r = Ok []) \/
  (artifacts <> [] /\ exists s, rtc pstep (start (run <$> rules)) s /\ exited s = true /\ finish perform s = r).

(** Some rule retains the candidate, up to its hash. *)
Definition retained_by (run : Parameter_ -> result (list Candidate)) (rules : list Parameter_) (c : Candidate)
    : bool :=
  existsb (fun p => match run p with
                    | Ok l => mem_hash (Hash c) (Hash <$> l)
                    | Err _ => false
                    end) rules.

(** What the retain action is for: of all candidates, those that no rule
    retains are deleted unless an immutable rule protects them. *)
Definition retain_spec (immutable : Candidate -> bool) (Delete : Candidate -> option error)
    (retained : Candidate -> bool) (all : list Candidate) (isDryRun : bool) : list (Candidate * outcome) :=
  (fun c => (c, if existsb (fun d => (Hash d =s= Hash c) && immutable d) all then Immutable
                else if isDryRun then DryRun
                else match Delete c with Some e => DeleteError e | None => Deleted end))
  <$> List.filter (fun c => negb (retained c)) all.

(** *** The receiver's map *)

(** The map holds the hashes of the lists received, and nothing before the
    first one. *)
Definition collected (done : list (list Candidate)) (m : option (gmap string Candidate)) : Prop :=
  match m with
  | None => done = []
  | Some m => done <> [] /\ (forall h c, m !! h = Some c -> Hash c = h)
              /\ forall h, is_Some (m !! h) <-> exists l, l ∈ done /\ h ∈ Hash <$> l
  end.

Lemma insert_all_lookup (l : list Candidate) : forall (m : gmap string Candidate),
  (forall h c, m !! h = Some c -> Hash c = h) ->
  let m' := foldl (fun m c => <[Hash c := c]> m) m l in
  (forall h c, m' !! h = Some c -> Hash c = h)
  /\ forall h, is_Some (m' !! h) <-> is_Some (m !! h) \/ h ∈ Hash <$> l.
Proof.
  induction l as [|c l IH]; intros m Hm; simpl.
  - split; [done|]. intros h. set_solver.
  - destruct (IH (<[Hash c := c]> m)) as [H1 H2].
    { intros h d. rewrite lookup_insert_Some. naive_solver. }
    split; [done|]. intros h. rewrite H2, lookup_insert_is_Some', elem_of_cons. naive_solver.
Qed.

Lemma collected_add done m l :
  collected done m -> collected (l :: done) (add_results m l).
Proof.
  intros H.
  assert (Hd : (forall h c, default ∅ m !! h = Some c -> Hash c = h)
    /\ forall h, is_Some (default ∅ m !! h) <-> exists l, l ∈ done /\ h ∈ Hash <$> l).
  { destruct m as [m|]; simpl in *; [naive_solver|]. subst. split.
    - intros h c. by rewrite lookup_empty.
    - intros h. rewrite lookup_empty. split; [intros []%is_Some_None|set_solver]. }
  destruct Hd as [H1 H2]. destruct (insert_all_lookup l (default ∅ m) H1) as [H3 H4].
  split; [done|]. split; [done|]. intros h. rewrite H4, H2. setoid_rewrite elem_of_cons. naive_solver.
Qed.

(** *** Runs of the processor *)

Definition oks (l : list (list Candidate)) : list (result (list Candidate)) := Ok <$> l.
Definition errs_of (l : list error) : list (result (list Candidate)) := Err <$> l.

(** Every outcome is accounted for: received, in a channel, or not yet sent;
    an error received is remembered. *)
Definition pinv (outs : list (result (list Candidate))) (s : pstate) : Prop :=
  exists done errs,
    oks done ++ oks (option_list (resBuf s)) ++ errs_of errs ++ errs_of (option_list (errBuf s)) ++ todo s ≡ₚ outs
    /\ collected done (acc s)
    /\ (perr s = None <-> errs = [])
    /\ (closed s = true -> todo s = [])
    /\ (exited s = true -> closed s = true /\ resBuf s = None).

Lemma pinv_start outs : pinv outs (start outs).
Proof. exists [], []. simpl. naive_solver. Qed.

Lemma pinv_step outs s s' : pinv outs s -> pstep s s' -> pinv outs s'.
Proof.
  intros (d & es & Hp & Hc & He & Hcl & Hex) Hstep.
  destruct Hstep; unfold oks, errs_of in *; simpl in *.
  - exists d, es. simpl. split; [|naive_solver]. rewrite <- Hp. solve_Permutation.
  - exists d, es. simpl. split; [|naive_solver]. rewrite <- Hp. solve_Permutation.
  - exists d, es. naive_solver.
  - exists (p :: d), es. simpl. split; [rewrite <- Hp; solve_Permutation|].
    split; [by apply collected_add|]. naive_solver.
  - exists d, (es ++ [e]). unfold oks, errs_of. simpl. rewrite fmap_app. simpl.
    split; [rewrite <- Hp; solve_Permutation|]. split; [done|]. split; [|naive_solver].
    split; [done|]. by destruct es.
  - exists d, es. naive_solver.
Qed.

Lemma pinv_run outs s : rtc pstep (start outs) s -> pinv outs s.
Proof. intros H. refine (rtc_ind_r (pinv outs) _ (pinv_start outs) _ s H). eauto using pinv_step. Qed.

(** At the end only one error can be missing: the one in the channel. *)
Lemma run_end outs s :
  rtc pstep (start outs) s -> exited s = true -> perr s = None ->
  exists done, collected done (acc s) /\ oks done ++ errs_of (option_list (errBuf s)) ≡ₚ outs.
Proof.
  intros Hr Hex He. destruct (pinv_run _ _ Hr) as (d & es & Hp & Hc & Hes & Hcl & Hx).
  destruct (Hx Hex) as [H1 H2]. rewrite H2, (Hcl H1) in Hp. apply Hes in He as ->.
  exists d. split; [done|]. by rewrite app_nil_r in Hp.
Qed.

(** *** The retain action against its reference *)

Lemma mem_hash_spec h l : mem_hash h l = true <-> h ∈ l.
Proof.
  unfold mem_hash. rewrite existsb_exists. setoid_rewrite String.eqb_eq.
  rewrite list_elem_of_In. naive_solver.
Qed.

Lemma retain_spec_ext imm Delete f g all dry :
  (forall c, f c = g c) -> retain_spec imm Delete f all dry = retain_spec imm Delete g all dry.
Proof.
  intros H. unfold retain_spec. f_equal. apply List.filter_ext. intros c. by rewrite H.
Qed.

Section Actions.
Context (sort_by : (Candidate -> Z) -> list Candidate -> list Candidate) (now : Z).
Context (doublestar_Match : string -> string -> result bool) (parse_untagged : string -> option bool).
Context (immutable_rules : Z -> result (list ImmutableRule)) (Delete : Candidate -> option error).

#[local] Notation isImm := (isImmutable sort_by now doublestar_Match parse_untagged immutable_rules).
#[local] Notation perform := (Perform sort_by now doublestar_Match parse_untagged immutable_rules Delete).

Lemma immutable_share all retained c :
  mem_hash (Hash c) retained = false ->
  mem_hash (Hash c) (Hash <$> List.filter (fun d => negb (mem_hash (Hash d) retained) && isImm d) all)
  = existsb (fun d => (Hash d =s= Hash c) && isImm d) all.
Proof.
  intros Hc. apply eq_true_iff_eq. rewrite mem_hash_spec, existsb_exists, list_elem_of_fmap.
  setoid_rewrite list_elem_of_In. setoid_rewrite filter_In.
  setoid_rewrite andb_true_iff. setoid_rewrite String.eqb_eq. split.
  - intros (d & Heq & Hd & Hr & Hi). eauto.
  - intros (d & Hd & Heq & Hi). exists d. rewrite Heq, Hc. auto.
Qed.

Lemma Perform_spec all dry cands :
  perform all dry cands
  = retain_spec isImm Delete (fun c => mem_hash (Hash c) (Hash <$> cands)) all dry.
Proof.
  unfold Perform, retain_spec. apply map_ext_in. intros c [_ Hc]%filter_In.
  rewrite immutable_share; [done|]. by destruct (mem_hash _ _).
Qed.

Lemma collected_retained run rules done m c buf :
  collected done (Some m) -> oks done ++ errs_of (option_list buf) ≡ₚ run <$> rules ->
  mem_hash (Hash c) (Hash <$> (map_to_list m).*2) = retained_by run rules c.
Proof.
  intros (_ & Hk & Hm) Hp. apply eq_true_iff_eq. unfold retained_by.
  rewrite mem_hash_spec, existsb_exists, list_elem_of_fmap. transitivity (is_Some (m !! Hash c)).
  - split.
    + intros (d & Hd & ([h d'] & Hdd & Hin)%list_elem_of_fmap). simpl in *. subst d'.
      apply elem_of_map_to_list in Hin. rewrite Hd, (Hk _ _ Hin). eauto.
    + intros [d Hd]. exists d. split; [by rewrite (Hk _ _ Hd)|]. apply list_elem_of_fmap.
      exists (Hash c, d). by rewrite elem_of_map_to_list.
  - rewrite Hm. split.
    + intros (l & Hl & Hh).
      assert (Hin : Ok l ∈ run <$> rules).
      { rewrite <- Hp. apply elem_of_app. left. by apply list_elem_of_fmap_2. }
      apply list_elem_of_fmap in Hin as (p & Heq & Hp'). exists p.
      rewrite <- list_elem_of_In, <- Heq, mem_hash_spec. done.
    + intros (p & Hp' & Hr). rewrite <- list_elem_of_In in Hp'.
      destruct (run p) as [l|e] eqn:E; [|done]. exists l. rewrite mem_hash_spec in Hr. split; [|done].
      assert (Hin : Ok l ∈ oks done ++ errs_of (option_list buf)).
      { rewrite Hp, <- E. by apply list_elem_of_fmap_2. }
      apply elem_of_app in Hin as [Hin|Hin]; apply list_elem_of_fmap in Hin; naive_solver.
Qed.

(** The number of rules that failed, and whether one succeeded. *)
Definition failed (run : Parameter_ -> result (list Candidate)) (rules : list Parameter_) : nat :=
  length (List.filter (fun p => negb (is_ok (run p))) rules).

Lemma failed_outcomes run rules :
  failed run rules = length (List.filter (fun r => negb (is_ok r)) (run <$> rules)).
Proof.
  unfold failed. induction rules as [|p rules IH]; [done|]. simpl. destruct (is_ok (run p)); simpl; auto.
Qed.

Lemma failed_perm (l l' : list (result (list Candidate))) :
  l ≡ₚ l' ->
  length (List.filter (fun r => negb (is_ok r)) l) = length (List.filter (fun r => negb (is_ok r)) l').
Proof.
  induction 1 as [|x l l' _ IH|x y l|l1 l2 l3 _ IH1 _ IH2]; simpl; [done| | |congruence].
  - destruct (is_ok x); simpl; auto.
  - by destruct (is_ok x), (is_ok y).
Qed.

Lemma filter_oks l : List.filter (fun r => negb (is_ok r)) (oks l) = [].
Proof. induction l as [|a l IH]; [done|]. simpl. exact IH. Qed.

Lemma failed_le (run : Parameter_ -> result (list Candidate)) rules done buf :
  oks done ++ errs_of (option_list buf) ≡ₚ run <$> rules -> (failed run rules <= 1)%nat.
Proof.
  intros Hp. rewrite failed_outcomes, <- (failed_perm _ _ Hp), List.filter_app, filter_oks.
  destruct buf; simpl; lia.
Qed.

Lemma some_ok (run : Parameter_ -> result (list Candidate)) rules done buf :
  oks done ++ errs_of (option_list buf) ≡ₚ run <$> rules ->
  existsb (fun p => is_ok (run p)) rules = negb (bool_decide (done = [])).
Proof.
  intros Hp. apply eq_true_iff_eq. rewrite existsb_exists, negb_true_iff, bool_decide_eq_false. split.
  - intros (p & Hin & Hok) ->.
    assert (Hi : run p ∈ run <$> rules) by (by apply list_elem_of_fmap_2, list_elem_of_In).
    rewrite <- Hp in Hi. destruct buf; simpl in Hi; [|by apply not_elem_of_nil in Hi].
    apply list_elem_of_singleton in Hi. by rewrite Hi in Hok.
  - intros Hd. destruct done as [|l d]; [done|].
    assert (Hi : Ok l ∈ run <$> rules) by (rewrite <- Hp; left).
    apply list_elem_of_fmap in Hi as (p & Heq & Hi). exists p.
    rewrite <- list_elem_of_In, <- Heq. done.
Qed.

(** What a successful run returns, in terms of the rules that succeeded. *)
Lemma process_ok run artifacts rules all dry results :
  artifacts <> [] -> Process_run run (perform all dry) artifacts rules (Ok results) ->
  (failed run rules <= 1)%nat
  /\ results = (if existsb (fun p => is_ok (run p)) rules
                then retain_spec isImm Delete (retained_by run rules) all dry else []).
Proof.
  intros Ha [[-> _]|(_ & s & Hr & Hex & Hf)]; [done|].
  unfold finish in Hf. destruct (perr s) eqn:He; simplify_eq.
  destruct (run_end _ _ Hr Hex He) as (d & Hc & Hp).
  split; [by eapply failed_le|]. rewrite (some_ok _ _ _ _ Hp). destruct (acc s) as [m|].
  - pose proof Hc as [Hne _]. rewrite bool_decide_eq_false_2 by done. simpl.
    rewrite Perform_spec. apply retain_spec_ext. intros c. by eapply collected_retained.
  - simpl in Hc. by subst.
Qed.

(** With no failing rule no run returns an error. *)
Lemma process_no_error run artifacts rules performer e :
  failed run rules = 0%nat -> ~ Process_run run performer artifacts rules (Err e).
Proof.
  intros Hf [[_ ?]|(_ & s & Hr & Hex & Hfin)]; [done|].
  destruct (pinv_run _ _ Hr) as (d & es & Hp & _ & He & _).
  unfold finish in Hfin. destruct (perr s) eqn:E; simplify_eq.
  destruct es as [|e' es]; [naive_solver|].
  rewrite failed_outcomes, <- (failed_perm _ _ Hp) in Hf.
  rewrite !List.filter_app, !length_app in Hf. simpl in Hf. lia.
Qed.
End Actions.

(** *** Progress *)

Definition room {A} (b : option A) : nat := match b with Some _ => 1 | None => 0 end.

(** What is left of a run: each outcome is sent and received, then the
    channel is closed and the loop left. *)
Definition pmeasure (s : pstate) : nat :=
  2 * length (todo s) + room (resBuf s) + room (errBuf s) + Nat.b2n (negb (closed s))
  + Nat.b2n (negb (exited s)).

Lemma pstep_measure s s' : pstep s s' -> pmeasure s = S (pmeasure s').
Proof. destruct 1; unfold pmeasure; simpl; rewrite ?length_app; simpl; lia. Qed.

Lemma run_length n s s' : nsteps pstep n s s' -> (pmeasure s = n + pmeasure s')%nat.
Proof. induction 1 as [|n x y z Hs _ IH]; [done|]. rewrite (pstep_measure _ _ Hs). lia. Qed.

Lemma pstep_progress outs s : pinv outs s -> exited s = false -> exists s', pstep s s'.
Proof.
  intros (d & es & _ & _ & _ & Hcl & _) Hex. destruct s as [td rb eb cl a er ex]; simpl in *; subst ex.
  destruct rb as [p|]; [eexists; apply p_recv_res|]. destruct eb as [e|]; [eexists; apply p_recv_err|].
  destruct cl; [rewrite Hcl by done; eexists; apply p_exit|].
  destruct td as [|[p|e] td]; [eexists; apply p_close| |].
  - eexists. apply (p_send_res []).
  - eexists. apply (p_send_err []).
Qed.

(** From every state some run reaches the end. *)
Lemma run_completes outs s : pinv outs s -> exists s', rtc pstep s s' /\ exited s' = true.
Proof.
  remember (pmeasure s) as n eqn:E. revert s E. induction n as [|n IH]; intros s E Hs.
  all: destruct (exited s) eqn:Hex; [by exists s|].
  all: destruct (pstep_progress _ _ Hs Hex) as [s1 H1].
  all: pose proof (pstep_measure _ _ H1) as Hm.
  - congruence.
  - destruct (IH s1 ltac:(lia) (pinv_step _ _ _ Hs H1)) as (s' & Hr & He).
    exists s'. split; [|done]. by apply rtc_l with s1.
Qed.

(** *** A run that loses an error *)

(** All outcomes that are results can be sent and received, one by one. *)
Lemma drain_results (ls : list (list Candidate)) : forall rest eb a er,
  rtc pstep (mkP (oks ls ++ rest) None eb false a er false)
            (mkP rest None eb false (foldl add_results a ls) er false).
Proof.
  induction ls as [|l ls IH]; intros rest eb a er; simpl; [done|].
  eapply rtc_l; [apply (p_send_res [])|]. simpl. eapply rtc_l; [apply p_recv_res|]. apply IH.
Qed.

(** The last error is sent, and the closed result channel is picked first. *)
Lemma lossy_run (ls : list (list Candidate)) e :
  rtc pstep (start (oks ls ++ [Err e]))
            (mkP [] None (Some e) true (foldl add_results None ls) None true).
Proof.
  etrans; [apply drain_results|].
  eapply rtc_l; [apply (p_send_err [] [])|]. eapply rtc_l; [apply p_close|]. apply rtc_once, p_exit.
Qed.

(** The same outcomes with the error received. *)
Lemma reported_run (ls : list (list Candidate)) e :
  rtc pstep (start (oks ls ++ [Err e]))
            (mkP [] None None true (foldl add_results None ls) (add_error None e) true).
Proof.
  etrans; [apply drain_results|].
  eapply rtc_l; [apply (p_send_err [] [])|]. eapply rtc_l; [apply p_recv_err|].
  eapply rtc_l; [apply p_close|]. apply rtc_once, p_exit.
Qed.

(** ** Theorems *)

Section Processor.
Context (sort_by : (Candidate -> Z) -> list Candidate -> list Candidate) (now : Z).
Context (doublestar_Match : string -> string -> result bool) (parse_untagged : string -> option bool).
Context (immutable_rules : Z -> result (list ImmutableRule)) (Delete : Candidate -> option error).

#[local] Notation isImm := (isImmutable sort_by now doublestar_Match parse_untagged immutable_rules).
#[local] Notation perform := (Perform sort_by now doublestar_Match parse_untagged immutable_rules Delete).
#[local] Notation run := (run_rule sort_by now doublestar_Match).

Lemma all_ok_oks (f : Parameter_ -> result (list Candidate)) rules :
  failed f rules = 0%nat -> exists ls, f <$> rules = oks ls.
Proof.
  unfold failed. induction rules as [|p rules IH]; intros H; [by exists []|]. simpl in *.
  destruct (f p) as [l|e]; simpl in *; [|lia]. destruct (IH H) as [ls Hls]. exists (l :: ls).
  exact (f_equal (cons (Ok l)) Hls).
Qed.

Lemma some_rule_ok f rules :
  rules <> [] -> failed f rules = 0%nat -> existsb (fun p => is_ok (f p)) rules = true.
Proof.
  unfold failed. destruct rules as [|p rules]; [done|]. simpl. by destruct (is_ok (f p)).
Qed.

Lemma process_exists f artifacts rules performer :
  artifacts <> [] -> exists r, Process_run f performer artifacts rules r.
Proof.
  intros Ha. destruct (run_completes _ _ (pinv_start (f <$> rules))) as (s & Hr & He).
  exists (finish performer s). right. eauto.
Qed.

Lemma retained_by_failed f rules p e c :
  f p = Err e -> retained_by f (rules ++ [p]) c = retained_by f rules c.
Proof.
  intros He. unfold retained_by. rewrite existsb_app. simpl. rewrite He. by rewrite !orb_false_r.
Qed.

(** C6: Whatever the order in which the rules' goroutines and the receiver
    run, the OR processor returns, when no rule fails, the results of the
    reference: exactly the candidates that no rule retains, each deleted, or
    left alone in a dry run or when it is immutable; and some run returns. *)
Theorem or_processor_refines artifacts rules all dry :
  artifacts <> [] -> rules <> [] -> failed (run artifacts) rules = 0%nat ->
  (exists r, Process_run (run artifacts) (perform all dry) artifacts rules r)
  /\ forall r, Process_run (run artifacts) (perform all dry) artifacts rules r ->
       r = Ok (retain_spec isImm Delete (retained_by (run artifacts) rules) all dry).
Proof.
  intros Ha Hr Hf. split; [by apply process_exists|]. intros [res|e] Hp.
  - destruct (process_ok _ _ _ _ _ _ _ _ _ _ _ _ Ha Hp) as [_ ->]. by rewrite some_rule_ok.
  - by apply process_no_error in Hp.
Qed.

(** C39: When one rule fails, one run of [Process] reports its error, but in
    another run the receiver leaves at the closed result channel while the
    error is still in the error channel: [Process] succeeds, and what only
    the failing rule would have retained is deleted.  No run loses more than
    one error. *)
Theorem rule_error_can_be_lost artifacts rules p e all dry :
  artifacts <> [] -> rules <> [] -> failed (run artifacts) rules = 0%nat -> run artifacts p = Err e ->
  Process_run (run artifacts) (perform all dry) artifacts (rules ++ [p])
    (Err (Wrap e "artifact processing error"))
  /\ Process_run (run artifacts) (perform all dry) artifacts (rules ++ [p])
       (Ok (retain_spec isImm Delete (retained_by (run artifacts) rules) all dry))
  /\ forall rules' results,
       Process_run (run artifacts) (perform all dry) artifacts rules' (Ok results) ->
       (failed (run artifacts) rules' <= 1)%nat.
Proof.
  intros Ha Hr Hf He. destruct (all_ok_oks _ _ Hf) as [ls Hls].
  assert (Heq : run artifacts <$> (rules ++ [p]) = oks ls ++ [Err e]).
  { rewrite fmap_app, Hls. simpl. by rewrite He. }
  split; [|split].
  - right. split; [done|]. rewrite Heq. eexists. split; [apply reported_run|]. done.
  - assert (Hrun : Process_run (run artifacts) (perform all dry) artifacts (rules ++ [p])
              (finish (perform all dry) (mkP [] None (Some e) true (foldl add_results None ls) None true))).
    { right. split; [done|]. rewrite Heq. eexists. split; [apply lossy_run|]. done. }
    unfold finish in Hrun. simpl in Hrun. pose proof Hrun as Hok.
    apply process_ok in Hok as [_ Hres]; [|done].
    rewrite existsb_app, some_rule_ok in Hres by done. rewrite Hres in Hrun. simpl in Hrun.
    erewrite <- retain_spec_ext; [exact Hrun|]. intros c. by eapply retained_by_failed.
  - intros rules' results H. by apply process_ok in H as [? _].
Qed.

(** Every run of the processor ends: from its start no run is longer
    than twice the number of rules and two steps more, and a run can always
    go on until the receiving loop has been left (no deadlock on the channels,
    which have room for one item). *)
Theorem or_processor_terminates outcomes n s :
  nsteps pstep n (start outcomes) s ->
  (n <= 2 * length outcomes + 2)%nat /\ (exited s = false -> exists s', pstep s s').
Proof.
  intros H. split.
  - apply run_length in H. unfold pmeasure in H at 1. simpl in H. lia.
  - apply pstep_progress with outcomes. apply pinv_run, rtc_nsteps. by exists n.
Qed.

(** *** The latest artifacts *)

(** The count of a rule and the time it sorts by. *)
Definition latest_rule (e : evaluator) : option (Z * (Candidate -> Z)) :=
  match e with
  | LatestActiveK k => Some (k, activeTime)
  | LatestPushedK k => Some (k, PushedTime)
  | LatestPulledN n => Some (n, PulledTime)
  | _ => None
  end.

Lemma sorted_app_le (f : Candidate -> Z) (l1 l2 : list Candidate) :
  StronglySorted (fun a b => f b <= f a) (l1 ++ l2) ->
  forall a b, a ∈ l1 -> b ∈ l2 -> f b <= f a.
Proof.
  induction l1 as [|x l1 IH]; simpl; intros H a b Ha Hb; [by apply not_elem_of_nil in Ha|].
  apply StronglySorted_inv in H as [H1 H2]. apply elem_of_cons in Ha as [->|Ha]; [|by apply IH].
  rewrite Forall_forall in H2. apply H2, elem_of_app. by right.
Qed.

(** A "latest k" rule keeps min(k, n) of the n candidates, and none it
    leaves out is newer than one it keeps. *)
Theorem latest_rule_keeps_newest e k f l :
  latest_rule e = Some (k, f) -> 0 <= k ->
  sort_by f l ≡ₚ l -> StronglySorted (fun a b => f b <= f a) (sort_by f l) ->
  length (Process_rule sort_by now e l) = Nat.min (Z.to_nat k) (length l)
  /\ exists rest, Process_rule sort_by now e l ++ rest ≡ₚ l
       /\ forall a b, a ∈ Process_rule sort_by now e l -> b ∈ rest -> f b <= f a.
Proof.
  intros He Hk Hp Hs.
  assert (Heq : Process_rule sort_by now e l = first_k k (sort_by f l)) by (destruct e; by simplify_eq/=).
  rewrite Heq. unfold first_k. set (j := Z.to_nat _).
  assert (Hj : j = Nat.min (Z.to_nat k) (length l)) by (unfold j; rewrite Hp; lia).
  split; [rewrite length_firstn, Hp; lia|].
  exists (skipn j (sort_by f l)). rewrite firstn_skipn. split; [done|].
  apply sorted_app_le. by rewrite firstn_skipn.
Qed.
End Processor.

(** *** The rules that count days *)

Definition one_param (name : string) (v : Z) : parameters :=
  fun k => if k =s= name then Some (PInt v) else None.

Lemma days_ago_exact n : 0 <= n <= 106751 -> days_ago n = - (n * 24 * Hour).
Proof.
  intros H. unfold days_ago, Hour.
  rewrite (Int64.wrap_id (-24 * n)) by (unfold Int64.in_range, Int64.min, Int64.max; lia).
  rewrite Int64.wrap_id by (unfold Int64.in_range, Int64.min, Int64.max; lia). lia.
Qed.

Lemma days_ago_overflow n : 106752 <= n <= 213503 -> days_ago n = 2 ^ 64 - n * 24 * Hour.
Proof.
  intros H. unfold days_ago, Hour.
  rewrite (Int64.wrap_id (-24 * n)) by (unfold Int64.in_range, Int64.min, Int64.max; lia).
  unfold Int64.wrap.
  replace (-24 * n * (3600 * 10 ^ 9) + 2 ^ 63)
    with ((2 ^ 64 - n * 24 * (3600 * 10 ^ 9) + 2 ^ 63) + (-1) * 2 ^ 64) by lia.
  rewrite Z.mod_add, Z.mod_small by lia. lia.
Qed.

(** A cutoff later than the newest artifact keeps nothing. *)
Lemma future_cutoff (t : Candidate -> Z) d l now :
  10 ^ 9 <= d -> (forall a, a ∈ l -> t a * 10 ^ 9 <= now) ->
  List.filter (fun a => t a >=? (now + d) / 10 ^ 9) l = [].
Proof.
  intros Hd Hl. induction l as [|a l IH]; [done|]. simpl.
  assert (Ha : t a * 10 ^ 9 <= now) by (apply Hl; left).
  rewrite IH by (intros b Hb; apply Hl; by right).
  destruct (Z.geb_spec (t a) ((now + d) / 10 ^ 9)) as [Hc|]; [|done].
  assert (t a + 1 <= (now + d) / 10 ^ 9) by (apply Z.div_le_lower_bound; lia). lia.
Qed.

Lemma day_rule_found t n :
  t ∈ ["nDaysSinceLastPull"; "nDaysSinceLastPush"]%string -> 0 <= n <= 20190904 ->
  Valid_rule t (one_param t n) = Ok tt
  /\ Get_rule t (one_param t n)
     = Ok (if t =s= "nDaysSinceLastPull" then NDaysSinceLastPull n else NDaysSinceLastPush n).
Proof.
  intros Ht Hn. unfold Valid_rule, Get_rule.
  apply elem_of_cons in Ht as [->|Ht]; [|apply list_elem_of_singleton in Ht as ->].
  all: cbn; unfold count_param, valid_count, one_param; cbn.
  all: rewrite (proj2 (Z.leb_le 0 n)) by lia; rewrite (proj2 (Z.ltb_ge n 0)) by lia.
  all: replace (n >? 20190904) with false by (symmetry; rewrite Z.gtb_ltb; apply Z.ltb_ge; lia); done.
Qed.

Definition day_time (t : string) : Candidate -> Z :=
  if t =s= "nDaysSinceLastPull" then PulledTime else PushedTime.

(** The rules that count days since the last pull or push keep exactly
    the artifacts of the last n days when n is at most 106751; a policy with
    106752 to 213503 days is accepted too, but its duration wraps around, the
    cutoff is then in the future, and no artifact is kept. *)
Theorem day_rule_overflows t n sort_by now l :
  t ∈ ["nDaysSinceLastPull"; "nDaysSinceLastPush"]%string -> 0 <= n <= 213503 ->
  (forall a, a ∈ l -> day_time t a * 10 ^ 9 <= now) ->
  Valid_rule t (one_param t n) = Ok tt
  /\ exists ev, Get_rule t (one_param t n) = Ok ev
     /\ Process_rule sort_by now ev l
        = (if n <=? 106751
           then List.filter (fun a => day_time t a >=? (now - n * 24 * Hour) / 10 ^ 9) l
           else []).
Proof.
  intros Ht Hn Hl. destruct (day_rule_found t n Ht ltac:(lia)) as [Hv Hg].
  split; [done|]. eexists. split; [exact Hg|].
  assert (Heq : forall ev, ev = (if t =s= "nDaysSinceLastPull" then NDaysSinceLastPull n else NDaysSinceLastPush n) ->
    Process_rule sort_by now ev l = List.filter (fun a => day_time t a >=? (now + days_ago n) / 10 ^ 9) l).
  { intros ev ->. unfold day_time. by destruct (t =s= _). }
  rewrite (Heq _ eq_refl). destruct (Z.leb_spec n 106751) as [H|H].
  - by rewrite days_ago_exact, Z.add_opp_r by lia.
  - apply future_cutoff; [|done]. rewrite days_ago_overflow by lia. unfold Hour. lia.
Qed.

(** *** Immutable rules and untagged artifacts *)

Section Untagged.
Context (sort_by : (Candidate -> Z) -> list Candidate -> list Candidate) (now : Z).
Context (doublestar_Match : string -> string -> result bool) (parse_untagged : string -> option bool).
(** [json.Unmarshal] reads the extras the matcher passes. *)
Context (parse_false : parse_untagged untagged_false = Some false).

#[local] Notation run_selector := (run_selector doublestar_Match parse_untagged).
#[local] Notation Match := (Match sort_by now doublestar_Match parse_untagged).

Lemma untagged_select m c :
  s_Kind m = "doublestar"%string -> Tags c = [] -> s_Decoration m ∈ [Matches; Excludes] ->
  run_selector m untagged_false [c] = Ok (if s_Decoration m =s= Excludes then [c] else []).
Proof.
  intros Hk Ht Hd. unfold Retention.run_selector, Get_selector. rewrite Hk.
  apply elem_of_cons in Hd as [->|Hd]; [|apply list_elem_of_singleton in Hd as ->].
  all: unfold New_selector; rewrite parse_false.
  all: cbn; unfold select_one; cbn; unfold tagSelectMatch, tagSelectExclude; by rewrite Ht.
Qed.

(** A rule whose tags are to match. *)
Definition matches_rule (r : ImmutableRule) : bool :=
  match i_TagSelectors r with
  | [] => true
  | m :: _ => (s_Kind m =s= "doublestar") && (s_Decoration m =s= Matches)
  end.

Lemma untagged_not_matched rules c :
  Tags c = [] -> forallb matches_rule rules = true -> Match rules c <> Ok true.
Proof.
  intros Ht. induction rules as [|r rules IH]; simpl; [done|].
  rewrite andb_true_iff. intros [Hr Hrs]. specialize (IH Hrs).
  destruct (i_Disabled r); [done|]. destruct (i_RepositorySelectors r); [done|].
  destruct (Retention.run_selector _ _ _ "" _) as [[|? ?]|]; [done| |done].
  unfold matches_rule in Hr. destruct (i_TagSelectors r) as [|m ?]; [done|].
  apply andb_true_iff in Hr as [Hk Hd]. apply String.eqb_eq in Hk, Hd.
  rewrite untagged_select; [|done|done|rewrite Hd; left]. by rewrite Hd.
Qed.

(** Immutable rules and untagged artifacts: rules whose tag selector is
    "matching" never make an untagged artifact immutable, but an enabled
    rule whose tag selector is "excluding" does, whatever its pattern, as
    soon as its repository selector takes the repository; the matcher means
    not to keep untagged artifacts. *)
Theorem untagged_immutable_by_excludes c r m ms rsel rsels rules :
  Tags c = [] -> i_Disabled r = false -> i_RepositorySelectors r = rsel :: rsels ->
  run_selector rsel "" [c] = Ok [c] -> i_TagSelectors r = m :: ms ->
  s_Kind m = "doublestar"%string -> s_Decoration m = Excludes -> i_Template r = "immutable_template"%string ->
  Match (r :: rules) c = Ok true
  /\ forall rules', forallb matches_rule rules' = true -> Match rules' c <> Ok true.
Proof.
  intros Ht Hd Hrs Hrun Hts Hk Hdec Htpl. split; [|intros; by apply untagged_not_matched].
  simpl. rewrite Hd, Hrs, Hrun, Hts.
  rewrite untagged_select; [|done|done|rewrite Hdec; by right; left]. by rewrite Hdec, Htpl.
Qed.
End Untagged.

(** ** Witnesses *)

Definition sample_candidate (repo digest : string) (tags : list string) (pushed pulled : Z) : Candidate :=
  mkCandidate 1 "library" repo "image" tags digest pushed pulled pushed [].

Definition sample_artifacts : list Candidate :=
  [sample_candidate "app" "sha256:a" ["v1"%string] 100 300;
   sample_candidate "app" "sha256:b" ["v2"%string] 200 0;
   sample_candidate "app" "sha256:c" ["dev"%string] 300 0;
   sample_candidate "app" "sha256:d" ["rc"%string] 400 500].

(** A matcher with the wildcard, literal patterns and a malformed one. *)
Definition sample_Match (pattern str : string) : result bool :=
  if pattern =s= "[" then Err (Plain "syntax error in pattern")
  else Ok ((pattern =s= "**") || (pattern =s= str)).

Definition sample_parse (s : string) : option bool := Some (negb (s =s= untagged_false)).

Fixpoint insert_by (f : Candidate -> Z) (c : Candidate) (l : list Candidate) : list Candidate :=
  match l with
  | [] => [c]
  | d :: l' => if f d <=? f c then c :: l else d :: insert_by f c l'
  end.

(** Insertion sort, newest first. *)
Definition sample_sort (f : Candidate -> Z) (l : list Candidate) : list Candidate :=
  foldr (insert_by f) [] l.

Lemma sample_sort_perm f l : sample_sort f l ≡ₚ l.
Proof.
  assert (H : forall c l, insert_by f c l ≡ₚ c :: l).
  { intros c l'. induction l' as [|d l' IH]; [done|]. simpl. destruct (f d <=? f c); [done|].
    rewrite IH. solve_Permutation. }
  induction l as [|c l IH]; [done|]. simpl. by rewrite H, IH.
Qed.

(** The immutable rule of the sample project protects the tag dev. *)
Definition sample_immutable : ImmutableRule :=
  mkImmutableRule false "immutable_template" (fun _ => None)
    [mkSelectorMeta "doublestar" Matches "dev" ""] [mkSelectorMeta "doublestar" RepoMatches "**" ""].

Definition sample_rules (_ : Z) : result (list ImmutableRule) := Ok [sample_immutable].

Definition sample_params : list Parameter_ :=
  [mkParam (LatestPushedK 1) [mkSelector Matches "**" true];
   mkParam Always [mkSelector Matches "v1" true]].

Definition sample_run := run_rule sample_sort 0 sample_Match sample_artifacts.

Lemma or_processor_refines_witness :
  let performer :=
    Perform sample_sort 0 sample_Match sample_parse sample_rules (fun _ => None) sample_artifacts false in
  (exists r, Process_run sample_run performer sample_artifacts sample_params r)
  /\ forall r, Process_run sample_run performer sample_artifacts sample_params r ->
       r = Ok [(sample_candidate "app" "sha256:b" ["v2"%string] 200 0, Deleted);
               (sample_candidate "app" "sha256:c" ["dev"%string] 300 0, Immutable)].
Proof.
  exact (or_processor_refines sample_sort 0 sample_Match sample_parse sample_rules (fun _ => None)
    sample_artifacts sample_params sample_artifacts false ltac:(done) ltac:(done) ltac:(reflexivity)).
Defined.

(** The rule that should keep v2 has a malformed second selector. *)
Definition sample_failing : Parameter_ :=
  mkParam Always [mkSelector Matches "v2" true; mkSelector NSMatches "[" true].

Lemma rule_error_can_be_lost_witness :
  Process_run sample_run
    (Perform sample_sort 0 sample_Match sample_parse sample_rules (fun _ => None) sample_artifacts false)
    sample_artifacts (sample_params ++ [sample_failing])
    (Ok [(sample_candidate "app" "sha256:b" ["v2"%string] 200 0, Deleted);
         (sample_candidate "app" "sha256:c" ["dev"%string] 300 0, Immutable)]).
Proof.
  exact (proj1 (proj2 (rule_error_can_be_lost sample_sort 0 sample_Match sample_parse sample_rules
    (fun _ => None) sample_artifacts sample_params sample_failing (Plain "syntax error in pattern")
    sample_artifacts false ltac:(done) ltac:(done) ltac:(reflexivity) ltac:(reflexivity)))).
Defined.

Lemma or_processor_terminates_witness :
  nsteps pstep 0 (start (sample_run <$> sample_params)) (start (sample_run <$> sample_params))
  /\ exists s', pstep (start (sample_run <$> sample_params)) s'.
Proof.
  split; [constructor|].
  exact (proj2 (or_processor_terminates _ 0 _ (nsteps_O _ _)) eq_refl).
Defined.

Lemma latest_rule_keeps_newest_witness :
  Process_rule sample_sort 0 (LatestActiveK 2) sample_artifacts
  = [sample_candidate "app" "sha256:d" ["rc"%string] 400 500;
     sample_candidate "app" "sha256:a" ["v1"%string] 100 300]
  /\ length (Process_rule sample_sort 0 (LatestActiveK 2) sample_artifacts) = 2%nat.
Proof.
  split; [vm_compute; reflexivity|].
  refine (proj1 (latest_rule_keeps_newest sample_sort 0 (LatestActiveK 2) 2 activeTime sample_artifacts
    eq_refl _ _ _)).
  - lia.
  - apply sample_sort_perm.
  - repeat constructor; cbn; lia.
Defined.

Lemma day_rule_overflows_witness :
  exists ev, Get_rule "nDaysSinceLastPush" (one_param "nDaysSinceLastPush" 110000) = Ok ev
    /\ Process_rule sample_sort (1000 * 10 ^ 9) ev sample_artifacts = [].
Proof.
  refine (proj2 (day_rule_overflows "nDaysSinceLastPush" 110000 sample_sort (1000 * 10 ^ 9)
    sample_artifacts _ _ _)).
  - by right; left.
  - lia.
  - intros a Ha. unfold sample_artifacts in Ha. rewrite !elem_of_cons in Ha.
    destruct Ha as [->|[->|[->|[->|Ha%not_elem_of_nil]]]]; [cbn; lia..|done].
Defined.

Lemma untagged_immutable_by_excludes_witness :
  Match sample_sort 0 sample_Match sample_parse
    [mkImmutableRule false "immutable_template" (fun _ => None)
       [mkSelectorMeta "doublestar" Excludes "dev" ""] [mkSelectorMeta "doublestar" RepoMatches "**" ""]]
    (sample_candidate "app" "sha256:a" [] 1 1) = Ok true.
Proof.
  refine (proj1 (untagged_immutable_by_excludes sample_sort 0 sample_Match sample_parse _
    (sample_candidate "app" "sha256:a" [] 1 1) _ (mkSelectorMeta "doublestar" Excludes "dev" "") []
    (mkSelectorMeta "doublestar" RepoMatches "**" "") [] [] _ _ _ _ _ _ _ _)); reflexivity.
Defined.
