(* ===== verification/Rbac.v ===== *)
(** * Access control

    [src/common/rbac] (actions, resources, the policies of the project roles,
    the project and system namespaces), [src/pkg/permission] (policies,
    evaluators, the casbin adapter and key matcher) and the security contexts
    of local users and robot accounts in [src/common/security].  Casbin's
    enforcer is behind the class [Casbin]. *)

From S2P Require Import Prelude Errors.

(** ** Policies *)

Record Policy := mkPolicy {
  Resource : string;
  Action : string;
  Effect : string;
}.

#[global] Instance Policy_eq_dec : EqDecision Policy.
Proof. solve_decision. Defined.

Definition EffectAllow : string := "allow".
Definition EffectDeny : string := "deny".

Definition GetEffect (p : Policy) : string :=
  if Effect p =s= "" then EffectAllow else Effect p.

Definition Policy_String (p : Policy) : string :=
  (Resource p ++ ":" ++ Action p ++ ":" ++ GetEffect p)%string.

(** Policies given by resource and action, with the default effect. *)
Definition policies_of (l : list (string * string)) : list Policy :=
  (fun ra => mkPolicy ra.1 ra.2 "") <$> l.

(** ** Actions and resources *)

Definition ActionAll : string := "*".
Definition ActionPull : string := "pull".
Definition ActionPush : string := "push".
Definition ActionCreate : string := "create".
Definition ActionRead : string := "read".
Definition ActionUpdate : string := "update".
Definition ActionDelete : string := "delete".
Definition ActionList : string := "list".
Definition ActionOperate : string := "operate".
Definition ActionScannerPull : string := "scanner-pull".
Definition ActionStop : string := "stop".

Definition ResourceAll : string := "*".
Definition ResourceConfiguration : string := "configuration".
Definition ResourceLabel : string := "label".
Definition ResourceLog : string := "log".
Definition ResourceLdapUser : string := "ldap-user".
Definition ResourceMember : string := "member".
Definition ResourceMetadata : string := "metadata".
Definition ResourceQuota : string := "quota".
Definition ResourceRepository : string := "repository".
Definition ResourceTagRetention : string := "tag-retention".
Definition ResourceImmutableTag : string := "immutable-tag".
Definition ResourceRobot : string := "robot".
Definition ResourceNotificationPolicy : string := "notification-policy".
Definition ResourceScan : string := "scan".
Definition ResourceSBOM : string := "sbom".
Definition ResourceScanner : string := "scanner".
Definition ResourceArtifact : string := "artifact".
Definition ResourceTag : string := "tag".
Definition ResourceAccessory : string := "accessory".
Definition ResourceArtifactAddition : string := "artifact-addition".
Definition ResourceArtifactLabel : string := "artifact-label".
Definition ResourcePreatPolicy : string := "preheat-policy".
Definition ResourcePreatInstance : string := "preheat-instance".
Definition ResourceSelf : string := "".
Definition ResourceAuditLog : string := "audit-log".
Definition ResourceCatalog : string := "catalog".
Definition ResourceProject : string := "project".
Definition ResourceUser : string := "user".
Definition ResourceUserGroup : string := "user-group".
Definition ResourceRegistry : string := "registry".
Definition ResourceReplication : string := "replication".
Definition ResourceDistribution : string := "distribution".
Definition ResourceGarbageCollection : string := "garbage-collection".
Definition ResourceReplicationAdapter : string := "replication-adapter".
Definition ResourceReplicationPolicy : string := "replication-policy".
Definition ResourceScanAll : string := "scan-all".
Definition ResourceSystemVolumes : string := "system-volumes".
Definition ResourcePurgeAuditLog : string := "purge-audit".
Definition ResourceExportCVE : string := "export-cve".
Definition ResourceJobServiceMonitor : string := "jobservice-monitor".
Definition ResourceSecurityHub : string := "security-hub".

(** ** The policies of the project roles *)

Definition projectAdmin_policies : list Policy := policies_of
  [(ResourceSelf, ActionRead); (ResourceSelf, ActionUpdate); (ResourceSelf, ActionDelete);
   (ResourceMember, ActionCreate); (ResourceMember, ActionRead);
   (ResourceMember, ActionUpdate); (ResourceMember, ActionDelete);
   (ResourceMember, ActionList); (ResourceMetadata, ActionCreate);
   (ResourceMetadata, ActionRead); (ResourceMetadata, ActionUpdate);
   (ResourceMetadata, ActionDelete); (ResourceLog, ActionList); (ResourceLabel, ActionCreate);
   (ResourceLabel, ActionRead); (ResourceLabel, ActionUpdate); (ResourceLabel, ActionDelete);
   (ResourceLabel, ActionList); (ResourceQuota, ActionRead);
   (ResourceRepository, ActionCreate); (ResourceRepository, ActionRead);
   (ResourceRepository, ActionUpdate); (ResourceRepository, ActionDelete);
   (ResourceRepository, ActionList); (ResourceRepository, ActionPull);
   (ResourceRepository, ActionPush); (ResourceTagRetention, ActionCreate);
   (ResourceTagRetention, ActionRead); (ResourceTagRetention, ActionUpdate);
   (ResourceTagRetention, ActionDelete); (ResourceTagRetention, ActionList);
   (ResourceTagRetention, ActionOperate); (ResourceImmutableTag, ActionCreate);
   (ResourceImmutableTag, ActionUpdate); (ResourceImmutableTag, ActionDelete);
   (ResourceImmutableTag, ActionList); (ResourceConfiguration, ActionRead);
   (ResourceConfiguration, ActionUpdate); (ResourceRobot, ActionCreate);
   (ResourceRobot, ActionRead); (ResourceRobot, ActionUpdate); (ResourceRobot, ActionDelete);
   (ResourceRobot, ActionList); (ResourceNotificationPolicy, ActionCreate);
   (ResourceNotificationPolicy, ActionUpdate); (ResourceNotificationPolicy, ActionDelete);
   (ResourceNotificationPolicy, ActionList); (ResourceNotificationPolicy, ActionRead);
   (ResourceScan, ActionCreate); (ResourceScan, ActionRead); (ResourceScan, ActionStop);
   (ResourceSBOM, ActionCreate); (ResourceSBOM, ActionStop); (ResourceSBOM, ActionRead);
   (ResourceScanner, ActionRead); (ResourceScanner, ActionCreate);
   (ResourceArtifact, ActionCreate); (ResourceArtifact, ActionRead);
   (ResourceArtifact, ActionDelete); (ResourceArtifact, ActionList);
   (ResourceArtifactAddition, ActionRead); (ResourceTag, ActionList);
   (ResourceTag, ActionCreate); (ResourceTag, ActionDelete); (ResourceAccessory, ActionList);
   (ResourceArtifactLabel, ActionCreate); (ResourceArtifactLabel, ActionDelete);
   (ResourcePreatPolicy, ActionCreate); (ResourcePreatPolicy, ActionRead);
   (ResourcePreatPolicy, ActionUpdate); (ResourcePreatPolicy, ActionDelete);
   (ResourcePreatPolicy, ActionList); (ResourceExportCVE, ActionCreate);
   (ResourceExportCVE, ActionRead); (ResourceExportCVE, ActionList)].

Definition maintainer_policies : list Policy := policies_of
  [(ResourceSelf, ActionRead); (ResourceMember, ActionRead); (ResourceMember, ActionList);
   (ResourceMetadata, ActionRead); (ResourceQuota, ActionRead); (ResourceLabel, ActionCreate);
   (ResourceLabel, ActionRead); (ResourceLabel, ActionUpdate); (ResourceLabel, ActionDelete);
   (ResourceLabel, ActionList); (ResourceRepository, ActionCreate);
   (ResourceRepository, ActionRead); (ResourceRepository, ActionUpdate);
   (ResourceRepository, ActionDelete); (ResourceRepository, ActionList);
   (ResourceRepository, ActionPush); (ResourceRepository, ActionPull);
   (ResourceTagRetention, ActionCreate); (ResourceTagRetention, ActionRead);
   (ResourceTagRetention, ActionUpdate); (ResourceTagRetention, ActionDelete);
   (ResourceTagRetention, ActionList); (ResourceTagRetention, ActionOperate);
   (ResourceAccessory, ActionList); (ResourceImmutableTag, ActionCreate);
   (ResourceImmutableTag, ActionUpdate); (ResourceImmutableTag, ActionDelete);
   (ResourceImmutableTag, ActionList); (ResourceConfiguration, ActionRead);
   (ResourceRobot, ActionRead); (ResourceRobot, ActionList);
   (ResourceNotificationPolicy, ActionRead); (ResourceNotificationPolicy, ActionList);
   (ResourceScan, ActionCreate); (ResourceScan, ActionRead); (ResourceScan, ActionStop);
   (ResourceSBOM, ActionCreate); (ResourceSBOM, ActionStop); (ResourceSBOM, ActionRead);
   (ResourceScanner, ActionRead); (ResourceArtifact, ActionCreate);
   (ResourceArtifact, ActionRead); (ResourceArtifact, ActionDelete);
   (ResourceArtifact, ActionList); (ResourceArtifactAddition, ActionRead);
   (ResourceTag, ActionList); (ResourceTag, ActionCreate); (ResourceTag, ActionDelete);
   (ResourceArtifactLabel, ActionCreate); (ResourceArtifactLabel, ActionDelete);
   (ResourceExportCVE, ActionCreate); (ResourceExportCVE, ActionRead);
   (ResourceExportCVE, ActionList)].

Definition developer_policies : list Policy := policies_of
  [(ResourceSelf, ActionRead); (ResourceMember, ActionRead); (ResourceMember, ActionList);
   (ResourceLabel, ActionRead); (ResourceLabel, ActionList); (ResourceQuota, ActionRead);
   (ResourceRepository, ActionCreate); (ResourceRepository, ActionRead);
   (ResourceRepository, ActionUpdate); (ResourceRepository, ActionList);
   (ResourceRepository, ActionPush); (ResourceRepository, ActionPull);
   (ResourceTagRetention, ActionCreate); (ResourceTagRetention, ActionRead);
   (ResourceTagRetention, ActionUpdate); (ResourceTagRetention, ActionDelete);
   (ResourceTagRetention, ActionList); (ResourceTagRetention, ActionOperate);
   (ResourceConfiguration, ActionRead); (ResourceRobot, ActionRead);
   (ResourceRobot, ActionList); (ResourceScan, ActionRead); (ResourceSBOM, ActionRead);
   (ResourceScanner, ActionRead); (ResourceArtifact, ActionCreate);
   (ResourceArtifact, ActionRead); (ResourceArtifact, ActionList);
   (ResourceArtifactAddition, ActionRead); (ResourceTag, ActionList);
   (ResourceTag, ActionCreate); (ResourceAccessory, ActionList);
   (ResourceArtifactLabel, ActionCreate); (ResourceArtifactLabel, ActionDelete);
   (ResourceExportCVE, ActionCreate); (ResourceExportCVE, ActionRead);
   (ResourceExportCVE, ActionList)].

Definition guest_policies : list Policy := policies_of
  [(ResourceSelf, ActionRead); (ResourceMember, ActionRead); (ResourceMember, ActionList);
   (ResourceLabel, ActionRead); (ResourceLabel, ActionList); (ResourceQuota, ActionRead);
   (ResourceRepository, ActionRead); (ResourceRepository, ActionList);
   (ResourceRepository, ActionPull); (ResourceConfiguration, ActionRead);
   (ResourceRobot, ActionRead); (ResourceRobot, ActionList); (ResourceScan, ActionRead);
   (ResourceSBOM, ActionRead); (ResourceScanner, ActionRead); (ResourceTag, ActionList);
   (ResourceAccessory, ActionList); (ResourceArtifact, ActionRead);
   (ResourceArtifact, ActionList); (ResourceArtifactAddition, ActionRead)].

Definition limitedGuest_policies : list Policy := policies_of
  [(ResourceSelf, ActionRead); (ResourceQuota, ActionRead); (ResourceRepository, ActionList);
   (ResourceRepository, ActionRead); (ResourceRepository, ActionPull);
   (ResourceConfiguration, ActionRead); (ResourceScan, ActionRead); (ResourceSBOM, ActionRead);
   (ResourceScanner, ActionRead); (ResourceTag, ActionList); (ResourceAccessory, ActionList);
   (ResourceArtifact, ActionRead); (ResourceArtifact, ActionList);
   (ResourceArtifactAddition, ActionRead)].

Definition rolePoliciesMap : list (string * list Policy) :=
  [("projectAdmin"%string, projectAdmin_policies); ("maintainer"%string, maintainer_policies);
   ("developer"%string, developer_policies); ("guest"%string, guest_policies);
   ("limitedGuest"%string, limitedGuest_policies)].

Definition role_policies (name : string) : list Policy :=
  default [] (snd <$> List.find (fun e => e.1 =s= name) rolePoliciesMap).

Definition RoleProjectAdmin : Z := 1.
Definition RoleDeveloper : Z := 2.
Definition RoleGuest : Z := 3.
Definition RoleMaintainer : Z := 4.
Definition RoleLimitedGuest : Z := 5.

Definition GetRoleName (roleID : Z) : string :=
  if roleID =? RoleProjectAdmin then "projectAdmin"
  else if roleID =? RoleMaintainer then "maintainer"
  else if roleID =? RoleDeveloper then "developer"
  else if roleID =? RoleGuest then "guest"
  else if roleID =? RoleLimitedGuest then "limitedGuest"
  else "".

Definition publicProjectPolicies : list Policy := policies_of
  [(ResourceSelf, ActionRead); (ResourceLabel, ActionRead); (ResourceLabel, ActionList);
   (ResourceRepository, ActionList); (ResourceRepository, ActionPull);
   (ResourceScan, ActionRead); (ResourceScanner, ActionRead); (ResourceTag, ActionList);
   (ResourceArtifact, ActionRead); (ResourceArtifact, ActionList);
   (ResourceArtifactAddition, ActionRead); (ResourceAccessory, ActionList)].

(** The policies of all roles without repetitions. *)
Definition computeSubPoliciesForProject : list Policy :=
  foldl (fun results p =>
    if existsb (fun q => Policy_String q =s= Policy_String p) results then results else results ++ [p])
    [] (concat (snd <$> rolePoliciesMap)).

(** ** Resources and namespaces *)

(** One segment of [path.Clean], with the segments before it in reverse. *)
Definition clean_seg (rooted : bool) (stack : list string) (seg : string) : list string :=
  if (seg =s= "") || (seg =s= ".") then stack
  else if seg =s= ".." then
    match stack with
    | [] => if rooted then [] else [seg]
    | top :: rest => if top =s= ".." then seg :: stack else rest
    end
  else seg :: stack.

Definition path_Clean (p : string) : string :=
  let rooted := GoStrings.HasPrefix p "/" in
  let body := GoStrings.Join (rev (foldl (clean_seg rooted) [] (GoStrings.Split p "/"))) "/" in
  if rooted then ("/" ++ body)%string else if body =s= "" then "." else body.

Definition path_Join (elems : list string) : string :=
  match List.filter (fun e => negb (e =s= "")) elems with
  | [] => ""
  | l => path_Clean (GoStrings.Join l "/")
  end.

Definition Subresource (res : string) (resources : list string) : string :=
  path_Join (res :: resources).

Definition project_Resource (projectID : Z) (subresources : list string) : string :=
  Subresource ("/project/" ++ Strconv.format_int projectID) subresources.

Definition system_Resource (subresources : list string) : string :=
  Subresource "/system/" subresources.

Inductive namespace := NSProject (projectID : Z) | NSSystem.

#[global] Instance namespace_eq_dec : EqDecision namespace.
Proof. solve_decision. Defined.

(** The characters before the first slash. *)
Fixpoint until_slash (s : string) : string :=
  match s with
  | EmptyString => EmptyString
  | String c s' => if Ascii.eqb c "/" then EmptyString else String c (until_slash s')
  end.

(** The project of a resource: what stands between [/project/] and the next
    slash, read as a number. *)
Definition project_NamespaceParse (resource : string) : option namespace :=
  if GoStrings.HasPrefix resource "/project/"
  then NSProject <$> Strconv.parse_int (until_slash (GoStrings.TrimPrefix resource "/project/"))
  else None.

Definition system_NamespaceParse (resource : string) : option namespace :=
  if GoStrings.HasPrefix resource "/system" then Some NSSystem else None.

(** The registered parsers; no resource is taken by both. *)
Definition NamespaceFromResource (resource : string) : option namespace :=
  match project_NamespaceParse resource with
  | Some ns => Some ns
  | None => system_NamespaceParse resource
  end.

Definition ResourceAllowedInNamespace (resource : string) (ns : namespace) : bool :=
  match NamespaceFromResource resource with
  | Some n => bool_decide (n = ns)
  | None => false
  end.

(** The policies of a project, with the resources of its namespace. *)
Definition in_project (projectID : Z) (policies : list Policy) : list Policy :=
  (fun p => mkPolicy (project_Resource projectID [Resource p]) (Action p) (Effect p)) <$> policies.

Definition role_GetPolicies (projectID roleID : Z) : list Policy :=
  let roleName := GetRoleName roleID in
  if roleName =s= "" then [] else in_project projectID (role_policies roleName).

Definition getPoliciesForPublicProject (projectID : Z) : list Policy :=
  in_project projectID publicProjectPolicies.

Definition GetPoliciesOfProject (projectID : Z) : list Policy :=
  in_project projectID computeSubPoliciesForProject.

(** ** Users *)

Record Project := mkProject { ProjectID : Z; Metadata : gmap string string }.

Definition isTrue (value : string) : bool := (GoStrings.ToLower value =s= "true") || (GoStrings.ToLower value =s= "1").

Definition IsPublic (p : Project) : bool :=
  match Metadata p !! "public"%string with Some v => isTrue v | None => false end.

(** A user of the enforcer: of a project, or of the system. *)
Record rbacUser := mkRbacUser {
  project : option Project;
  username : string;
  projectRoles : list Z;
  policies : list Policy;
}.

Definition user_GetPolicies (u : rbacUser) : list Policy :=
  match project u with
  | Some p => policies u ++ (if IsPublic p then getPoliciesForPublicProject (ProjectID p) else [])
  | None => policies u
  end.

(** The roles of a user: project and role ids. *)
Definition GetRoles (u : rbacUser) : list (Z * Z) :=
  match project u with
  | Some p => (fun r => (ProjectID p, r)) <$> projectRoles u
  | None => []
  end.

(** ** The casbin adapter *)

(** The lines the adapter writes, by their fields. *)
Inductive line := PLine (sub obj act eft : string) | GLine (user role : string).

Definition policyLinesOfRole (role : Z * Z) : list line :=
  let roleName := GetRoleName role.2 in
  if roleName =s= "" then []
  else (fun p => PLine roleName (Resource p) (Action p) (GetEffect p)) <$> role_GetPolicies role.1 role.2.

Definition policyLinesOfRBACUser (u : rbacUser) : list line :=
  (fun p => PLine (username u) (Resource p) (Action p) (GetEffect p)) <$> user_GetPolicies u.

Definition getPolicyLines (u : rbacUser) : list line :=
  if username u =s= "" then []
  else policyLinesOfRBACUser u
       ++ concat ((fun role => policyLinesOfRole role ++ [GLine (username u) (GetRoleName role.2)]) <$> GetRoles u).

(** ** The key matcher *)

(** The regular expressions the matcher builds from keys of plain characters
    and [/*]: characters and the wildcard for any text without a line feed. *)
Inductive atom := Char (c : ascii) | AnyText.

Definition newline : ascii := ascii_of_nat 10.

(** Characters that stand for themselves in a regular expression; the colon,
    which the matcher also rewrites, is left out. *)
Definition plain (c : ascii) : bool :=
  let n := Ascii.N_of_ascii c in
  ((97 <=? n)%N && (n <=? 122)%N) || ((65 <=? n)%N && (n <=? 90)%N) || ((48 <=? n)%N && (n <=? 57)%N)
  || Ascii.eqb c "/" || Ascii.eqb c "-" || Ascii.eqb c "_".

(** [keyMatch2Build] on such keys. *)
Fixpoint keyMatch2Build (key2 : string) : option (list atom) :=
  match key2 with
  | EmptyString => Some []
  | String "/" (String "*" key2') =>
      re ← keyMatch2Build key2'; Some (Char "/" :: AnyText :: re)
  | String c key2' =>
      if plain c then re ← keyMatch2Build key2'; Some (Char c :: re) else None
  end.

Fixpoint any_text (f : string -> bool) (s : string) : bool :=
  f s || match s with
         | EmptyString => false
         | String c s' => negb (Ascii.eqb c newline) && any_text f s'
         end.

Fixpoint MatchString (re : list atom) (s : string) : bool :=
  match re with
  | [] => s =s= ""
  | Char c :: re' => match s with
                     | EmptyString => false
                     | String d s' => Ascii.eqb c d && MatchString re' s'
                     end
  | AnyText :: re' => any_text (MatchString re') s
  end.

Section Keys.
(** The answer of the regular expression of any other key. *)
Context (other_keys : string -> string -> bool).

Definition keyMatch2 (key1 key2 : string) : bool :=
  match keyMatch2Build key2 with
  | Some re => MatchString re key1
  | None => other_keys key1 key2
  end.

(** The matcher of the model text. *)
Definition line_matches (lines : list line) (sub obj act : string) (l : line) : bool :=
  match l with
  | PLine psub pobj pact _ =>
      ((sub =s= psub) || existsb (fun g => match g with
                                           | GLine u r => (u =s= sub) && (r =s= psub)
                                           | PLine _ _ _ _ => false
                                           end) lines)
      && keyMatch2 obj pobj && ((act =s= pact) || (pact =s= "*"))
  | GLine _ _ => false
  end.

Definition has_effect (eft : string) (l : line) : bool :=
  match l with PLine _ _ _ e => e =s= eft | GLine _ _ => false end.

(** What the enforcer promises for the model text when all role lines are of
    the user that asks: some matching policy allows and none denies. *)
Class Casbin := {
  Enforce : list line -> string -> string -> string -> bool;
  Enforce_spec lines sub obj act :
    (forall u r, GLine u r ∈ lines -> u = sub) ->
    Enforce lines sub obj act
    = existsb (fun l => line_matches lines sub obj act l && has_effect EffectAllow l) lines
      && negb (existsb (fun l => line_matches lines sub obj act l && has_effect EffectDeny l) lines);
}.
End Keys.

(** ** Evaluators *)

(** A member of a project: a user or a group. *)
Record Member := mkMember { m_type : string; m_project : Z; m_entity : Z; m_role : Z }.

Record User := mkUser {
  UserID : Z;
  Username : string;
  GroupIDs : list Z;
  SysAdminFlag : bool;
  AdminRoleInAuth : bool;
}.

(** What the project controller reads: the project with its metadata, and
    the table of members with the error of querying it, if any. *)
Record authdb := mkAuthdb {
  get_project : Z -> result Project;
  members : list Member;
  members_error : option error;
}.

Definition ListRoles (db : authdb) (projectID : Z) (u : User) : result (list Z) :=
  match members_error db with
  | Some e => Err e
  | None => Ok (m_role <$> List.filter (fun m =>
      ((m_type m =s= "u") && (m_project m =? projectID) && (m_entity m =? UserID u))
      || (negb (length (GroupIDs u) =? 0)%nat && (m_type m =s= "g") && (m_project m =? projectID)
          && existsb (Z.eqb (m_entity m)) (GroupIDs u))) (members db))
  end.

(** The builders of a project evaluator.  The policies that
    [NewBuilderForPolicies] closes over are its state, since each call
    assigns the filtered policies to the same variable. *)
Inductive builder := ForUser (user : option User) | ForPolicies (name : string) (filtered : bool).

(** [filterRobotPolicies]. *)
Definition filterRobotPolicies (p : Project) (policies : list Policy) : list Policy :=
  concat ((fun policy =>
    if ResourceAllowedInNamespace (Resource policy) (NSProject (ProjectID p))
    then policy :: (if Action policy =s= ActionPush then [mkPolicy (Resource policy) ActionPull ""] else [])
    else []) <$> policies).

Definition run_builder (db : authdb) (b : builder) (captured : list Policy) (p : Project)
    : option rbacUser * list Policy :=
  match b with
  | ForUser None => (Some (mkRbacUser (Some p) "anonymous" [] []), captured)
  | ForUser (Some u) =>
      (match ListRoles db (ProjectID p) u with
       | Err _ => None
       | Ok roles => Some (mkRbacUser (Some p) (Username u) roles [])
       end, captured)
  | ForPolicies name filtered =>
      let captured' := if filtered then filterRobotPolicies p captured else captured in
      (Some (mkRbacUser (Some p) name [] captured'), captured')
  end.

(** A project evaluator: its cache by request context and project, with
    nothing for a nil evaluator, and the builder's policies. *)
Record projEval := mkProjEval {
  cache : gmap (Z * Z) (option rbacUser);
  captured : list Policy;
}.

Section Contexts.
Context {other_keys : string -> string -> bool} {casbin : Casbin other_keys}.

(** The evaluator of one user. *)
Definition rbac_HasPermission (u : rbacUser) (resource action : string) : bool :=
  Enforce other_keys (getPolicyLines u) (username u) resource action.

(** The factory of [NewEvaluator], with one builder. *)
Definition project_factory (db : authdb) (b : builder) (captured : list Policy) (projectID : Z)
    : option rbacUser * list Policy :=
  match get_project db projectID with
  | Err _ => (None, captured)
  | Ok p => run_builder db b captured p
  end.

Definition eva_HasPermission (eva : option rbacUser) (resource action : string) : bool :=
  match eva with Some u => rbac_HasPermission u resource action | None => false end.

(** [HasPermission] of the project namespace's evaluator. *)
Definition project_HasPermission (db : authdb) (b : builder) (ctx : Z) (resource action : string)
    (st : projEval) : bool * projEval :=
  match NamespaceFromResource resource with
  | Some (NSProject projectID) =>
      match cache st !! (ctx, projectID) with
      | Some eva => (eva_HasPermission eva resource action, st)
      | None =>
          let (eva, cap) := project_factory db b (captured st) projectID in
          (eva_HasPermission eva resource action, mkProjEval (<[(ctx, projectID) := eva]> (cache st)) cap)
      end
  | _ => (false, st)
  end.

Definition system_HasPermission (name : string) (policies : list Policy) (resource action : string) : bool :=
  match NamespaceFromResource resource with
  | Some NSSystem => rbac_HasPermission (mkRbacUser None name [] policies) resource action
  | _ => false
  end.

(** The administrator's evaluator. *)
Definition admin_HasPermission (action : string) : bool := negb (action =s= ActionScannerPull).

(** *** Local users *)

Definition IsSysAdmin (user : option User) : bool :=
  match user with Some u => SysAdminFlag u || AdminRoleInAuth u | None => false end.

Definition local_Can (db : authdb) (user : option User) (ctx : Z) (action resource : string) (st : projEval)
    : bool * projEval :=
  if IsSysAdmin user && admin_HasPermission action then (true, st)
  else project_HasPermission db (ForUser user) ctx resource action st.

(** *** Robot accounts *)

Record Permission := mkPermission { Scope : string; Access : list Policy }.

Record Robot := mkRobot { r_Name : string; r_Level : string; Permissions : list Permission }.

Definition getPolicyResource (perm : Permission) (pol : Policy) : string :=
  if GoStrings.HasPrefix (Scope perm) "/project" && (Resource pol =s= ResourceProject)
  then Scope perm else (Scope perm ++ "/" ++ Resource pol)%string.

Definition robot_accesses (r : Robot) : list Policy :=
  concat ((fun p => (fun a => mkPolicy (getPolicyResource p a) (Action a) (Effect a)) <$> Access p)
          <$> Permissions r).

Definition sysPolicies (r : Robot) : list Policy :=
  List.filter (fun p => GoStrings.HasPrefix (Resource p) "/system") (robot_accesses r).

Definition proPolicies (r : Robot) : list Policy :=
  List.filter (fun p => negb (GoStrings.HasPrefix (Resource p) "/system")
                        && GoStrings.HasPrefix (Resource p) "/project") (robot_accesses r).

(** The state the first [Can] sets up. *)
Definition robot_start (r : Robot) : projEval :=
  mkProjEval ∅ (if r_Level r =s= "system" then proPolicies r else robot_accesses r).

Definition robot_Can (db : authdb) (robot : option Robot) (ctx : Z) (action resource : string) (st : projEval)
    : bool * projEval :=
  match robot with
  | None => (false, st)
  | Some r =>
      if r_Level r =s= "system" then
        if negb (length (sysPolicies r) =? 0)%nat
           && system_HasPermission (r_Name r) (sysPolicies r) resource action
        then (true, st)
        else if (length (proPolicies r) =? 0)%nat then (false, st)
        else project_HasPermission db (ForPolicies (r_Name r) false) ctx resource action st
      else project_HasPermission db (ForPolicies (r_Name r) true) ctx resource action st
  end.
End Contexts.

(** ** Lemmas *)

(** *** Keys *)

Abbreviation all_plain := (GoStrings.all_chars plain).

Fixpoint chars (s : string) : list atom :=
  match s with
  | EmptyString => []
  | String c s' => Char c :: chars s'
  end.

Lemma build_step c s :
  all_plain s = true -> plain c = true ->
  keyMatch2Build (String c s) = (re ← keyMatch2Build s; Some (Char c :: re)).
Proof.
  intros Hs Hc. destruct (decide (c = "/"%char)) as [->|Hn].
  - destruct s as [|d s]; [done|]. simpl in Hs. apply andb_true_iff in Hs as [Hd _].
    destruct d as [[] [] [] [] [] [] [] []]; try done.
  - assert (Hm : keyMatch2Build (String c s)
      = if plain c then re ← keyMatch2Build s; Some (Char c :: re) else None).
    { destruct c as [[] [] [] [] [] [] [] []]; try done. }
    by rewrite Hm, Hc.
Qed.

Lemma build_plain s : all_plain s = true -> keyMatch2Build s = Some (chars s).
Proof.
  induction s as [|c s IH]; [done|]. intros H. pose proof H as H'.
  simpl in H'. apply andb_true_iff in H' as [Hc Hs].
  rewrite build_step by done. by rewrite IH.
Qed.

Lemma match_chars s : forall t, MatchString (chars s) t = (t =s= s).
Proof.
  induction s as [|c s IH]; intros [|d t]; simpl; try done.
  rewrite IH, Ascii.eqb_sym. by destruct (Ascii.eqb d c).
Qed.

Lemma keyMatch2_plain other key1 key2 :
  all_plain key2 = true -> keyMatch2 other key1 key2 = (key1 =s= key2).
Proof. intros H. unfold keyMatch2. by rewrite build_plain, match_chars. Qed.

Lemma plain_digit d : 0 <= d < 10 -> plain (Strconv.digit d) = true.
Proof.
  intros Hd. unfold plain, Strconv.digit. rewrite Ascii.N_ascii_embedding by lia.
  replace ((48 <=? 48 + Z.to_N d)%N && (48 + Z.to_N d <=? 57)%N) with true
    by (symmetry; apply andb_true_iff; split; apply N.leb_le; lia).
  by rewrite orb_true_r.
Qed.

Lemma plain_format_int z : all_plain (Strconv.format_int z) = true.
Proof. by apply GoStrings.all_chars_format_int; [exact plain_digit|]. Qed.

Lemma count_slash_format_int z : GoStrings.count "/" (Strconv.format_int z) = 0%nat.
Proof.
  assert (Hc : forall d, 0 <= d < 10 -> Strconv.digit d <> "/"%char).
  { intros d Hd E. apply (f_equal Strconv.digit_value) in E.
    rewrite Strconv.digit_value_digit in E by done. discriminate. }
  unfold Strconv.format_int. destruct (Z.ltb_spec z 0);
    cbn [GoStrings.count]; rewrite GoStrings.count_write_digits by (done || lia); done.
Qed.

(** *** Paths *)

(** A segment that [path.Clean] keeps. *)
Definition kept_seg (s : string) : bool :=
  negb ((s =s= "") || (s =s= ".") || (s =s= "..")) && (GoStrings.count "/" s =? 0)%nat.

Lemma clean_kept rooted stack s : kept_seg s = true -> clean_seg rooted stack s = s :: stack.
Proof.
  unfold kept_seg, clean_seg. rewrite andb_true_iff, negb_true_iff. intros [H _].
  apply orb_false_iff in H as [H1 H2]. by rewrite H1, H2.
Qed.

Lemma kept_count s : kept_seg s = true -> GoStrings.count "/" s = 0%nat.
Proof. unfold kept_seg. by intros [_ ?%Nat.eqb_eq]%andb_true_iff. Qed.

Lemma kept_format_int z : kept_seg (Strconv.format_int z) = true.
Proof.
  unfold kept_seg. rewrite count_slash_format_int. simpl. rewrite andb_true_r, negb_true_iff.
  unfold Strconv.format_int. destruct (Z.ltb_spec z 0); [done|].
  destruct (Strconv.write_digits_head 20 z "") as (d & s & -> & Hd); [lia|lia|].
  assert (Hne : Ascii.eqb (Strconv.digit d) "." = false).
  { apply Ascii.eqb_neq. intros E. apply (f_equal Strconv.digit_value) in E.
    rewrite Strconv.digit_value_digit in E by done. discriminate. }
  cbn. by rewrite Hne.
Qed.

Lemma Split_Join_kept segs :
  segs <> [] -> forallb kept_seg segs = true -> GoStrings.Split (GoStrings.Join segs "/") "/" = segs.
Proof.
  intros Hne Hk. apply GoStrings.Split_Join; [done|]. apply Forall_forall. intros w Hw.
  apply kept_count. rewrite forallb_forall in Hk. by apply Hk, list_elem_of_In.
Qed.

Lemma clean_fold rooted segs : forall stack,
  forallb kept_seg segs = true -> foldl (clean_seg rooted) stack segs = rev segs ++ stack.
Proof.
  induction segs as [|w segs IH]; intros stack; [done|]. intros [Hw Hs]%andb_true_iff.
  cbn [foldl]. rewrite clean_kept by done. rewrite IH by done. simpl. by rewrite <- app_assoc.
Qed.

(** A rooted path of such segments is clean. *)
Lemma path_Clean_rooted segs :
  segs <> [] -> forallb kept_seg segs = true ->
  path_Clean ("/" ++ GoStrings.Join segs "/") = ("/" ++ GoStrings.Join segs "/")%string.
Proof.
  intros Hne Hk. pose proof (Split_Join_kept segs Hne Hk) as Hsplit.
  pose proof (clean_fold true segs [] Hk) as Hfold. rewrite app_nil_r in Hfold.
  assert (Hcl : path_Clean ("/" ++ GoStrings.Join segs "/")
    = ("/" ++ GoStrings.Join (rev (foldl (clean_seg true) []
          (GoStrings.Split (GoStrings.Join segs "/") "/"))) "/")%string).
  { unfold path_Clean. by destruct (GoStrings.Join segs "/"). }
  by rewrite Hcl, Hsplit, Hfold, rev_involutive.
Qed.

Definition suffix_of (sub : string) : string := if sub =s= "" then "" else ("/" ++ sub)%string.

(** The resource of a role's policy in a project. *)
Lemma project_Resource_simple pid sub :
  sub = ""%string \/ kept_seg sub = true ->
  project_Resource pid [sub] = ("/project/" ++ Strconv.format_int pid ++ suffix_of sub)%string.
Proof.
  pose proof (kept_format_int pid) as Hf. unfold project_Resource. set (f := Strconv.format_int pid) in *.
  unfold Subresource, path_Join, suffix_of. intros [->|Hs].
  - pose proof (path_Clean_rooted ["project"%string; f] ltac:(done) ltac:(simpl; by rewrite Hf)) as H.
    change (if "" =s= "" then "" else _) with ""%string. rewrite GoStrings.app_nil. exact H.
  - pose proof (path_Clean_rooted ["project"%string; f; sub] ltac:(done) ltac:(simpl; by rewrite Hf, Hs)) as H.
    assert (Hne : (sub =s= "") = false) by (by destruct sub).
    cbn [List.filter]. rewrite Hne. cbn [negb].
    replace (("/project/" ++ f)%string =s= "") with false by done. cbn [negb GoStrings.Join].
    cbn [GoStrings.Join] in H.
    rewrite GoStrings.app_assoc. exact H.
Qed.

(** The subresources of the roles' and the public policies are simple. *)
Definition simple_sub (sub : string) : bool := ((sub =s= "") || kept_seg sub) && all_plain sub.

Lemma project_Resource_plain pid sub :
  simple_sub sub = true -> all_plain (project_Resource pid [sub]) = true.
Proof.
  intros [H Hp]%andb_true_iff.
  rewrite project_Resource_simple.
  - rewrite !GoStrings.all_chars_app, plain_format_int. unfold suffix_of. destruct (sub =s= ""); [done|].
    rewrite GoStrings.all_chars_app, Hp. done.
  - apply orb_true_iff in H as [->%String.eqb_eq|H]; auto.
Qed.

(** *** Enforcement *)

Lemma elem_of_concat_fmap {A B} (f : A -> list B) (l : list A) x :
  x ∈ concat (f <$> l) <-> exists a, a ∈ l /\ x ∈ f a.
Proof.
  induction l as [|a l IH]; simpl.
  - rewrite elem_of_nil. split; [done|]. by intros (a & ?%not_elem_of_nil & _).
  - rewrite elem_of_app, IH. setoid_rewrite elem_of_cons. naive_solver.
Qed.

(** All policies of a user: its own and those of its roles. *)
Definition all_policies (u : rbacUser) : list Policy :=
  user_GetPolicies u ++ concat ((fun role => role_GetPolicies role.1 role.2) <$> GetRoles u).

(** The subjects under which a policy of the user is written. *)
Definition subject_of (u : rbacUser) (s : string) : Prop :=
  s = username u \/ exists role, role ∈ GetRoles u /\ s = GetRoleName role.2.

Lemma getPolicyLines_P u s o a e :
  PLine s o a e ∈ getPolicyLines u ->
  subject_of u s /\ exists p, p ∈ all_policies u /\ o = Resource p /\ a = Action p /\ e = GetEffect p.
Proof.
  unfold getPolicyLines. destruct (username u =s= ""); [by intros ?%not_elem_of_nil|].
  rewrite elem_of_app. intros [H|H].
  - apply list_elem_of_fmap in H as (p & [= -> -> -> ->] & Hp).
    split; [by left|]. exists p. unfold all_policies. rewrite elem_of_app. auto.
  - apply elem_of_concat_fmap in H as (role & Hr & H).
    apply elem_of_app in H as [H|H]; [|by apply list_elem_of_singleton in H].
    unfold policyLinesOfRole in H. destruct (GetRoleName role.2 =s= ""); [by apply not_elem_of_nil in H|].
    apply list_elem_of_fmap in H as (p & [= -> -> -> ->] & Hp). split; [right; by exists role|].
    exists p. split; [|done]. unfold all_policies. rewrite elem_of_app. right.
    apply elem_of_concat_fmap. by exists role.
Qed.

Lemma getPolicyLines_policy u p :
  username u <> ""%string -> p ∈ all_policies u ->
  exists s, subject_of u s /\ PLine s (Resource p) (Action p) (GetEffect p) ∈ getPolicyLines u.
Proof.
  intros Hu Hp. unfold getPolicyLines. rewrite (proj2 (String.eqb_neq _ _)) by done.
  apply elem_of_app in Hp as [Hp|Hp].
  - exists (username u). split; [by left|]. apply elem_of_app. left.
    apply list_elem_of_fmap. by exists p.
  - apply elem_of_concat_fmap in Hp as (role & Hr & Hp). exists (GetRoleName role.2).
    split; [right; by exists role|]. apply elem_of_app. right.
    apply elem_of_concat_fmap. exists role. split; [done|]. apply elem_of_app. left.
    unfold policyLinesOfRole. unfold role_GetPolicies in *.
    destruct (GetRoleName role.2 =s= ""); [by apply not_elem_of_nil in Hp|].
    apply list_elem_of_fmap. by exists p.
Qed.

Lemma getPolicyLines_G u user r :
  GLine user r ∈ getPolicyLines u -> user = username u.
Proof.
  unfold getPolicyLines. destruct (username u =s= ""); [by intros ?%not_elem_of_nil|].
  rewrite elem_of_app. intros [H|H]; [by apply list_elem_of_fmap in H as (? & ? & _)|].
  apply elem_of_concat_fmap in H as (role & Hr & H).
  apply elem_of_app in H as [H|H]; [|by apply list_elem_of_singleton in H as [= -> ->]].
  unfold policyLinesOfRole in H. destruct (_ =s= ""); [by apply not_elem_of_nil in H|].
  by apply list_elem_of_fmap in H as (? & ? & _).
Qed.

(** The lines grant each of these subjects to the user. *)
Lemma subject_granted u s :
  username u <> ""%string -> subject_of u s ->
  (username u =s= s) || existsb (fun g => match g with
                                          | GLine v r => (v =s= username u) && (r =s= s)
                                          | PLine _ _ _ _ => false
                                          end) (getPolicyLines u) = true.
Proof.
  intros Hu [->|(role & Hr & ->)]; [by rewrite String.eqb_refl|].
  apply orb_true_iff. right. apply existsb_exists. exists (GLine (username u) (GetRoleName role.2)).
  rewrite !String.eqb_refl. split; [|done]. unfold getPolicyLines.
  rewrite (proj2 (String.eqb_neq _ _)) by done. apply list_elem_of_In, elem_of_app. right.
  apply elem_of_concat_fmap. exists role. split; [done|]. apply elem_of_app. right. by left.
Qed.

Section Enforcement.
Context {other_keys : string -> string -> bool} {casbin : Casbin other_keys}.

(** A policy applies to a request. *)
Definition applies (p : Policy) (resource action : string) : bool :=
  keyMatch2 other_keys resource (Resource p) && ((action =s= Action p) || (Action p =s= "*")).

(** A user whose policies all allow may do what one of them applies to. *)
Lemma rbac_HasPermission_spec u resource action :
  username u <> ""%string -> (forall p, p ∈ all_policies u -> GetEffect p = EffectAllow) ->
  rbac_HasPermission u resource action = true
  <-> exists p, p ∈ all_policies u /\ applies p resource action = true.
Proof.
  intros Hu Heff. unfold rbac_HasPermission. rewrite Enforce_spec by apply getPolicyLines_G.
  rewrite andb_true_iff, negb_true_iff, existsb_exists. split.
  - intros [([s o a e|] & Hin & Hm) _]; [|done]. apply andb_true_iff in Hm as [Hm _].
    apply list_elem_of_In, getPolicyLines_P in Hin as (_ & p & Hp & -> & -> & ->).
    exists p. split; [done|]. simpl in Hm. rewrite !andb_true_iff in Hm.
    unfold applies. rewrite andb_true_iff. tauto.
  - intros (p & Hp & Ha). split.
    + destruct (getPolicyLines_policy u p Hu Hp) as (s & Hs & Hin).
      exists (PLine s (Resource p) (Action p) (GetEffect p)).
      rewrite <- list_elem_of_In. split; [done|]. simpl.
      rewrite subject_granted by done. unfold applies in Ha. simpl. by rewrite Ha, Heff.
    + apply not_true_iff_false. rewrite existsb_exists. intros ([s o a e|] & Hin & Hm); [|done].
      apply andb_true_iff in Hm as [_ He].
      apply list_elem_of_In, getPolicyLines_P in Hin as (_ & q & Hq & _ & _ & ->).
      simpl in He. by rewrite Heff in He.
Qed.

Lemma rbac_HasPermission_none u resource action :
  all_policies u = [] -> rbac_HasPermission u resource action = false.
Proof.
  intros Hn. unfold rbac_HasPermission. rewrite Enforce_spec by apply getPolicyLines_G.
  apply andb_false_iff. left. apply not_true_iff_false. rewrite existsb_exists.
  intros ([s o a e|] & Hin & Hm); [|done].
  apply list_elem_of_In, getPolicyLines_P in Hin as (_ & p & Hp & _).
  rewrite Hn in Hp. by apply not_elem_of_nil in Hp.
Qed.
End Enforcement.

(** *** Local users *)

(** What the roles of a user grant in a project: subresource and action. *)
Definition granted (p : Project) (roles : list Z) : list (string * string) :=
  (fun q => (Resource q, Action q)) <$>
    ((if IsPublic p then publicProjectPolicies else []) ++ concat (role_policies ∘ GetRoleName <$> roles)).

(** The order of the roles. *)
Definition role_rank (roleID : Z) : Z :=
  if roleID =? RoleProjectAdmin then 5
  else if roleID =? RoleMaintainer then 4
  else if roleID =? RoleDeveloper then 3
  else if roleID =? RoleGuest then 2
  else if roleID =? RoleLimitedGuest then 1
  else 0.

Definition simple_policy (p : Policy) : bool :=
  simple_sub (Resource p) && negb (Action p =s= "*") && (Effect p =s= "").

Lemma role_policies_simple name p : p ∈ role_policies name -> simple_policy p = true.
Proof.
  assert (H : forallb (fun e => forallb simple_policy e.2) rolePoliciesMap = true) by (vm_compute; done).
  unfold role_policies. destruct (List.find _ _) as [e|] eqn:E; [|by intros ?%not_elem_of_nil].
  apply find_some in E as [E _]. rewrite forallb_forall in H. specialize (H e E).
  rewrite forallb_forall in H. intros Hp. apply H. by apply list_elem_of_In.
Qed.

Lemma public_policies_simple p : p ∈ publicProjectPolicies -> simple_policy p = true.
Proof.
  assert (H : forallb simple_policy publicProjectPolicies = true) by (vm_compute; done).
  rewrite forallb_forall in H. intros Hp. apply H. by apply list_elem_of_In.
Qed.

Lemma role_GetPolicies_in pid r : role_GetPolicies pid r = in_project pid (role_policies (GetRoleName r)).
Proof.
  unfold role_GetPolicies. destruct (GetRoleName r =s= "") eqn:E; [|done].
  apply String.eqb_eq in E. by rewrite E.
Qed.

(** The policies of a member of a project are the granted ones in its namespace. *)
Lemma member_policies p name roles q :
  q ∈ all_policies (mkRbacUser (Some p) name roles []) <->
  exists q0, simple_policy q0 = true /\ (Resource q0, Action q0) ∈ granted p roles
    /\ q = mkPolicy (project_Resource (ProjectID p) [Resource q0]) (Action q0) (Effect q0).
Proof.
  unfold all_policies, user_GetPolicies, GetRoles, granted, getPoliciesForPublicProject. cbn [project policies projectRoles].
  rewrite app_nil_l, elem_of_app, elem_of_concat_fmap.
  setoid_rewrite list_elem_of_fmap. setoid_rewrite elem_of_app. setoid_rewrite elem_of_concat_fmap. split.
  - intros [H|(role & (r0 & -> & Hr) & Hq)].
    + destruct (IsPublic p); [|by apply not_elem_of_nil in H].
      apply list_elem_of_fmap in H as (q0 & -> & H0). exists q0.
      split; [by apply public_policies_simple|]. split; [|done]. exists q0. auto.
    + simpl in Hq. rewrite role_GetPolicies_in in Hq. apply list_elem_of_fmap in Hq as (q0 & -> & H0).
      exists q0. split; [by eapply role_policies_simple|]. split; [|done].
      exists q0. split; [done|]. right. by exists r0.
  - intros (q0 & Hs & (q1 & Heq1 & H) & ->). injection Heq1 as Hr Ha.
    assert (Heq : q0 = q1).
    { assert (H1 : simple_policy q1 = true).
      { destruct H as [H|(r & _ & H)]; [|by eapply role_policies_simple].
        destruct (IsPublic p); [by apply public_policies_simple|by apply not_elem_of_nil in H]. }
      unfold simple_policy in *. rewrite !andb_true_iff, !String.eqb_eq in *.
      destruct q0, q1; simpl in *; destruct_and!; by subst. }
    subst q1. destruct H as [H|(r & Hin & H)].
    + left. destruct (IsPublic p); [|by apply not_elem_of_nil in H]. apply list_elem_of_fmap. by exists q0.
    + right. exists (ProjectID p, r). split; [by exists r|]. simpl. rewrite role_GetPolicies_in.
      apply list_elem_of_fmap. by exists q0.
Qed.

Section Local.
Context {other_keys : string -> string -> bool} {casbin : Casbin other_keys}.

(** A member may do what its roles grant, and nothing else. *)
Lemma member_HasPermission p name roles resource action :
  name <> ""%string ->
  rbac_HasPermission (mkRbacUser (Some p) name roles []) resource action = true
  <-> exists sub, (sub, action) ∈ granted p roles /\ resource = project_Resource (ProjectID p) [sub].
Proof.
  intros Hn. rewrite rbac_HasPermission_spec; [|done|].
  2: { intros q (q0 & Hs & _ & ->)%member_policies. unfold simple_policy in Hs.
       rewrite !andb_true_iff, String.eqb_eq in Hs. destruct Hs as [_ He]. unfold GetEffect. simpl. by rewrite He. }
  setoid_rewrite member_policies. split.
  - intros (q & (q0 & Hs & Hg & ->) & Ha). unfold applies in Ha. cbn [Resource Action] in Ha.
    unfold simple_policy in Hs. rewrite !andb_true_iff, negb_true_iff in Hs. destruct Hs as [[Hp Hstar] _].
    rewrite keyMatch2_plain in Ha by (by apply project_Resource_plain).
    rewrite Hstar, orb_false_r, andb_true_iff, !String.eqb_eq in Ha. destruct Ha as [-> ->]. eauto.
  - intros (sub & Hg & ->). pose proof Hg as Hg'.
    apply list_elem_of_fmap in Hg' as (q0 & [= -> ->] & Hq).
    assert (Hs : simple_policy q0 = true).
    { apply elem_of_app in Hq as [Hq|(r & _ & Hq)%elem_of_concat_fmap]; [|by eapply role_policies_simple].
      destruct (IsPublic p); [by apply public_policies_simple|by apply not_elem_of_nil in Hq]. }
    eexists. split; [by exists q0|]. unfold applies. cbn [Resource Action].
    rewrite keyMatch2_plain, !String.eqb_refl; [done|]. apply project_Resource_plain.
    unfold simple_policy in Hs. rewrite !andb_true_iff in Hs. tauto.
Qed.

(** The cache holds what the factory gives. *)
Definition cache_ok (db : authdb) (b : builder) (st : projEval) : Prop :=
  forall ctx pid eva, cache st !! (ctx, pid) = Some eva -> eva = (project_factory db b (captured st) pid).1.

Lemma project_HasPermission_cached db user ctx resource action st :
  cache_ok db (ForUser user) st ->
  (project_HasPermission db (ForUser user) ctx resource action st).1
  = match NamespaceFromResource resource with
    | Some (NSProject pid) =>
        eva_HasPermission (project_factory db (ForUser user) (captured st) pid).1 resource action
    | _ => false
    end
  /\ cache_ok db (ForUser user) (project_HasPermission db (ForUser user) ctx resource action st).2.
Proof.
  intros Hok. unfold project_HasPermission.
  destruct (NamespaceFromResource resource) as [[pid|]|]; [|done|done].
  destruct (cache st !! (ctx, pid)) as [eva|] eqn:E; [by rewrite (Hok _ _ _ E)|].
  assert (Hcap : forall i, (project_factory db (ForUser user) (captured st) i).2 = captured st).
  { intros i. unfold project_factory, run_builder. destruct (get_project db i); [|done]. by destruct user. }
  specialize (Hcap pid) as Hc. destruct (project_factory db (ForUser user) (captured st) pid) as [eva cap] eqn:F.
  simpl in *. subst cap. split; [done|]. intros ctx' pid' eva'. cbn [cache captured].
  rewrite lookup_insert_Some. intros [[[= <- <-] <-]|[_ H]]; [by rewrite F|by eapply Hok].
Qed.
End Local.

Lemma granted_rank p roles roles' :
  (forall r, r ∈ roles -> exists r', r' ∈ roles' /\ role_rank r <= role_rank r') ->
  granted p roles ⊆ granted p roles'.
Proof.
  assert (Hle : forall r r', role_rank r <= role_rank r' ->
    role_policies (GetRoleName r) ⊆ role_policies (GetRoleName r')).
  { intros r r'. unfold role_rank, GetRoleName.
    repeat match goal with |- context [?a =? ?b] => destruct (a =? b) end; intros H; try lia.
    all: apply (bool_decide_unpack _); vm_compute; exact Logic.I. }
  intros H x (q & -> & Hq)%list_elem_of_fmap. apply list_elem_of_fmap. exists q. split; [done|].
  apply elem_of_app in Hq as [Hq|(r & Hr & Hq)%elem_of_concat_fmap]; apply elem_of_app; [by left|].
  right. apply elem_of_concat_fmap. destruct (H r Hr) as (r' & Hr' & Hrank). exists r'. split; [done|].
  by apply (Hle r r').
Qed.

(** *** Robot accounts *)

Section Robots.
Context {other_keys : string -> string -> bool} {casbin : Casbin other_keys}.

Lemma filter_other_project p policies n :
  n <> NSProject (ProjectID p) ->
  (forall q, q ∈ policies -> NamespaceFromResource (Resource q) = Some n) ->
  filterRobotPolicies p policies = [].
Proof.
  intros Hn Hq. unfold filterRobotPolicies. induction policies as [|q l IH]; [done|]. simpl.
  unfold ResourceAllowedInNamespace at 1. rewrite (Hq q) by left. rewrite bool_decide_eq_false_2 by done.
  simpl. apply IH. intros q' H'. apply Hq. by right.
Qed.

(** In its own project the policies are kept, with pulls for the pushes. *)
Lemma filter_own_project p policies q :
  q ∈ policies -> ResourceAllowedInNamespace (Resource q) (NSProject (ProjectID p)) = true ->
  q ∈ filterRobotPolicies p policies.
Proof.
  intros Hq Hn. apply elem_of_concat_fmap. exists q. split; [done|]. rewrite Hn. left.
Qed.

Lemma filter_allows p policies :
  (forall q, q ∈ policies -> GetEffect q = EffectAllow) ->
  forall q, q ∈ filterRobotPolicies p policies -> GetEffect q = EffectAllow.
Proof.
  intros H q (q0 & Hq0 & Hq)%elem_of_concat_fmap.
  destruct (ResourceAllowedInNamespace _ _); [|by apply not_elem_of_nil in Hq].
  apply elem_of_cons in Hq as [->|Hq]; [by apply H|].
  destruct (_ =s= _); [|by apply not_elem_of_nil in Hq]. by apply list_elem_of_singleton in Hq as ->.
Qed.

Lemma public_allows pid q : q ∈ getPoliciesForPublicProject pid -> GetEffect q = EffectAllow.
Proof.
  intros (q0 & -> & H)%list_elem_of_fmap. apply public_policies_simple in H. unfold simple_policy in H.
  rewrite !andb_true_iff, String.eqb_eq in H. destruct H as [_ He]. unfold GetEffect. simpl. by rewrite He.
Qed.

(** A question about a project that none of the policies is for leaves no
    policy behind. *)
Lemma state_after_other db name ctx res act policies b pb n :
  get_project db b = Ok pb -> n <> NSProject (ProjectID pb) -> NamespaceFromResource res = Some (NSProject b) ->
  (forall q, q ∈ policies -> NamespaceFromResource (Resource q) = Some n) ->
  (project_HasPermission db (ForPolicies name true) ctx res act (mkProjEval ∅ policies)).2
  = mkProjEval (<[(ctx, b) := Some (mkRbacUser (Some pb) name [] [])]> ∅) [].
Proof.
  intros Hb Hn Hres Hq. unfold project_HasPermission. rewrite Hres. cbn [cache captured]. rewrite lookup_empty.
  unfold project_factory. rewrite Hb. cbn [run_builder]. by rewrite (filter_other_project pb policies n).
Qed.

(** The first question, about one of the policies. *)
Lemma first_answer db name ctx policies a pa q :
  name <> ""%string -> get_project db a = Ok pa -> ProjectID pa = a ->
  (forall p, p ∈ policies ->
     NamespaceFromResource (Resource p) = Some (NSProject a) /\ GetEffect p = EffectAllow) ->
  q ∈ policies -> all_plain (Resource q) = true ->
  (project_HasPermission db (ForPolicies name true) ctx (Resource q) (Action q) (mkProjEval ∅ policies)).1 = true.
Proof.
  intros Hname Ha Ha' Hacc Hq Hplain. unfold project_HasPermission.
  rewrite (proj1 (Hacc q Hq)). cbn [cache captured]. rewrite lookup_empty.
  unfold project_factory. rewrite Ha. simpl. apply rbac_HasPermission_spec; [done| |].
  - intros p [Hp|Hp]%elem_of_app; [|by apply not_elem_of_nil in Hp].
    unfold user_GetPolicies in Hp. simpl in Hp. apply elem_of_app in Hp as [Hp|Hp].
    + eapply filter_allows; [|exact Hp]. intros p' Hp'. by apply Hacc.
    + destruct (IsPublic pa); [by apply public_allows in Hp|by apply not_elem_of_nil in Hp].
  - exists q. split.
    + apply elem_of_app. left. apply elem_of_app. left. apply filter_own_project; [done|].
      unfold ResourceAllowedInNamespace. rewrite (proj1 (Hacc q Hq)), Ha'. by apply bool_decide_eq_true_2.
    + unfold applies. by rewrite keyMatch2_plain, !String.eqb_refl.
Qed.

(** A project robot account may do in its project what one of its
    policies lists, when that is asked first; but [NewBuilderForPolicies]
    overwrites the policies it closes over, so after one question about
    another project of the same context all its policies are gone, and
    everything in its own private project is refused. *)
Theorem robot_forgets_policies db r ctx a b pa pb resB actB q :
  r_Level r <> "system"%string -> r_Name r <> ""%string -> a <> b ->
  get_project db a = Ok pa -> ProjectID pa = a -> IsPublic pa = false ->
  get_project db b = Ok pb -> ProjectID pb = b -> NamespaceFromResource resB = Some (NSProject b) ->
  (forall p, p ∈ robot_accesses r ->
     NamespaceFromResource (Resource p) = Some (NSProject a) /\ GetEffect p = EffectAllow) ->
  q ∈ robot_accesses r -> all_plain (Resource q) = true ->
  (robot_Can db (Some r) ctx (Action q) (Resource q) (robot_start r)).1 = true
  /\ forall act res, NamespaceFromResource res = Some (NSProject a) ->
       (robot_Can db (Some r) ctx act res (robot_Can db (Some r) ctx actB resB (robot_start r)).2).1 = false.
Proof.
  intros Hl Hname Hab Ha Ha' Hpub Hb Hb' HresB Hacc Hq Hplain.
  apply String.eqb_neq in Hl. unfold robot_Can, robot_start. rewrite Hl. split.
  - apply first_answer with a pa; auto.
  - intros act res Hres. rewrite (state_after_other db _ ctx resB actB _ b pb (NSProject a)); auto.
    + unfold project_HasPermission. rewrite Hres. cbn [cache captured].
      rewrite lookup_insert_ne by congruence. rewrite lookup_empty.
      unfold project_factory. rewrite Ha. cbn [run_builder fst eva_HasPermission].
      apply rbac_HasPermission_none. unfold all_policies, user_GetPolicies. simpl. by rewrite Hpub.
    + congruence.
    + intros p Hp. apply (Hacc p Hp).
Qed.
End Robots.

Section LocalUsers.
Context {other_keys : string -> string -> bool} {casbin : Casbin other_keys}.

(** C10: What a local user who is not an administrator may do: exactly the
    pairs of subresource and action that the public policies of the project
    and the policies of the user's and the user's groups' roles there list,
    and nothing outside project namespaces, whatever was asked before; and
    the roles are ordered (limited guest, guest, developer, maintainer,
    project admin): a higher role is granted all that a lower one is. *)
Theorem local_can_spec db u ctx action resource st :
  IsSysAdmin (Some u) = false -> Username u <> ""%string ->
  (forall pid p, get_project db pid = Ok p -> ProjectID p = pid) ->
  cache_ok db (ForUser (Some u)) st ->
  ((local_Can db (Some u) ctx action resource st).1 = true
   <-> exists pid p roles sub,
         NamespaceFromResource resource = Some (NSProject pid) /\ get_project db pid = Ok p
         /\ ListRoles db pid u = Ok roles /\ (sub, action) ∈ granted p roles
         /\ resource = project_Resource pid [sub])
  /\ cache_ok db (ForUser (Some u)) (local_Can db (Some u) ctx action resource st).2
  /\ forall p roles roles',
       (forall r, r ∈ roles -> exists r', r' ∈ roles' /\ role_rank r <= role_rank r') ->
       granted p roles ⊆ granted p roles'.
Proof.
  intros Hadm Hu Hdb Hok. unfold local_Can. rewrite Hadm. cbn [andb].
  destruct (project_HasPermission_cached db (Some u) ctx resource action st Hok) as [-> Hok'].
  split; [|split; [done|intros p roles roles'; apply granted_rank]].
  destruct (NamespaceFromResource resource) as [[pid|]|].
  2, 3: split; [done|]; by intros (pid & p & roles & sub & [=] & _).
  unfold project_factory, run_builder. destruct (get_project db pid) as [p|] eqn:Hp.
  2: { split; [done|]. intros (pid' & p & roles & sub & H1 & H2 & _). congruence. }
  rewrite (Hdb _ _ Hp). destruct (ListRoles db pid u) as [roles|] eqn:Hr.
  2: { split; [done|]. intros (pid' & p' & roles & sub & H1 & _ & H2 & _). congruence. }
  cbn [fst eva_HasPermission]. rewrite member_HasPermission by done. rewrite (Hdb _ _ Hp). split.
  - intros (sub & H1 & H2). by exists pid, p, roles, sub.
  - intros (pid' & p' & roles' & sub & H1 & H2 & H3 & H4 & H5).
    assert (pid' = pid) as -> by congruence. assert (p' = p) as -> by congruence.
    assert (roles' = roles) as -> by congruence. by exists sub.
Qed.
End LocalUsers.

(** ** Witnesses *)

(** An enforcer that evaluates the model text. *)
Definition no_other_keys (_ _ : string) : bool := false.

#[global] Instance sample_casbin : Casbin no_other_keys := {|
  Enforce lines sub obj act :=
    existsb (fun l => line_matches no_other_keys lines sub obj act l && has_effect EffectAllow l) lines
    && negb (existsb (fun l => line_matches no_other_keys lines sub obj act l && has_effect EffectDeny l) lines);
  Enforce_spec lines sub obj act _ := eq_refl;
|}.

(** Two private projects; alice is a developer of the first one through her
    group. *)
Definition sample_db : authdb :=
  mkAuthdb (fun id => if (id =? 1) || (id =? 2) then Ok (mkProject id ∅) else Err (NotFoundError None))
    [mkMember "g" 1 7 RoleDeveloper; mkMember "u" 2 3 RoleGuest] None.

Definition alice : User := mkUser 4 "alice" [7] false false.

Definition sample_robot : Robot :=
  mkRobot "robot$ci" "project" [mkPermission "/project/1" [mkPolicy "repository" "push" ""]].

Lemma robot_forgets_policies_witness :
  (robot_Can sample_db (Some sample_robot) 0 "push" "/project/1/repository" (robot_start sample_robot)).1 = true
  /\ (robot_Can sample_db (Some sample_robot) 0 "push" "/project/1/repository"
       (robot_Can sample_db (Some sample_robot) 0 "pull" "/project/2/repository"
          (robot_start sample_robot)).2).1 = false.
Proof.
  pose proof (robot_forgets_policies sample_db sample_robot 0 1 2 (mkProject 1 ∅) (mkProject 2 ∅)
    "/project/2/repository" "pull" (mkPolicy "/project/1/repository" "push" "")
    ltac:(done) ltac:(done) ltac:(done) eq_refl eq_refl eq_refl eq_refl eq_refl eq_refl
    ltac:(intros p ->%list_elem_of_singleton; done) ltac:(by left) eq_refl) as [H1 H2].
  split; [exact H1|]. apply H2. reflexivity.
Defined.

Lemma local_can_spec_witness :
  (local_Can sample_db (Some alice) 0 "push" "/project/1/repository" (mkProjEval ∅ [])).1 = true.
Proof.
  refine (proj2 (proj1 (local_can_spec sample_db alice 0 "push" "/project/1/repository" (mkProjEval ∅ [])
    eq_refl ltac:(done) _ _)) _).
  - intros pid p. simpl. destruct (_ || _); [|done]. intros H. injection H as <-. done.
  - intros ctx pid eva. simpl. by rewrite lookup_empty.
  - exists 1, (mkProject 1 ∅), [RoleDeveloper], ResourceRepository.
    split; [reflexivity|]. split; [reflexivity|]. split; [reflexivity|]. split; [|reflexivity].
    apply (bool_decide_unpack _). vm_compute. exact Logic.I.
Defined.
