(* ===== verification/Query.v ===== *)
(** * Queries of the API

    [src/lib/q]: the keywords, sorts and pages that a client gives in the
    query string of a list request; [src/lib/orm/query.go] and
    [metadata.go]: the filters, orders and limits they become for a model.

    The standard library's [url.QueryUnescape] and [time.Parse] are modelled
    for what the parser uses of them.  The query setter of the ORM is
    third-party: a query is the list of calls made on it. *)

From S2P Require Import Prelude Errors.
Import GoStrings.

(** ** Strings of the standard library *)

(** [s[i]] and [s[lo:hi]], which panic out of range. *)
Definition byte_at (s : string) (i : nat) : result ascii :=
  match String.get i s with
  | Some c => Ok c
  | None => Err (Panic "index out of range")
  end.

Definition slice (s : string) (lo hi : nat) : result string :=
  if ((lo <=? hi) && (hi <=? String.length s))%nat then Ok (String.substring lo (hi - lo) s)
  else Err (Panic "slice bounds out of range").

Definition then_ {A B} (r : result A) (k : A -> result B) : result B :=
  match r with Ok a => k a | Err e => Err e end.

Notation "x <-? r ; k" := (then_ r (fun x => k)) (at level 100, r at next level, right associativity) : go_scope.

(** [strings.Trim(s, cutset)], the cut set as a predicate. *)
Fixpoint trim_left_of (cut : ascii -> bool) (s : string) : string :=
  match s with
  | String c s' => if cut c then trim_left_of cut s' else s
  | EmptyString => EmptyString
  end.

Fixpoint trim_right_of (cut : ascii -> bool) (s : string) : string :=
  match s with
  | String c s' =>
      match trim_right_of cut s' with
      | EmptyString => if cut c then EmptyString else String c EmptyString
      | t => String c t
      end
  | EmptyString => EmptyString
  end.

Definition Trim (cut : ascii -> bool) (s : string) : string := trim_right_of cut (trim_left_of cut s).

Definition is_quote (c : ascii) : bool := Ascii.eqb c "034" || Ascii.eqb c "'".

(** [url.QueryUnescape]: [None] is the error for a malformed escape. *)
Definition unhex (c : ascii) : option N :=
  let n := Ascii.N_of_ascii c in
  if ((48 <=? n) && (n <=? 57))%N then Some (n - 48)%N
  else if ((97 <=? n) && (n <=? 102))%N then Some (n - 87)%N
  else if ((65 <=? n) && (n <=? 70))%N then Some (n - 55)%N
  else None.

Fixpoint QueryUnescape (s : string) : option string :=
  match s with
  | EmptyString => Some EmptyString
  | String c s' =>
      if Ascii.eqb c "%" then
        match s' with
        | String h (String l r) =>
            match unhex h, unhex l with
            | Some a, Some b => String (Ascii.ascii_of_N (16 * a + b)) <$> QueryUnescape r
            | _, _ => None
            end
        | _ => None
        end
      else String (if Ascii.eqb c "+" then " "%char else c) <$> QueryUnescape s'
  end.

(** [url.QueryEscape], which a client applies to the query. *)
Definition is_alnum (n : N) : bool :=
  (((48 <=? n) && (n <=? 57)) || ((65 <=? n) && (n <=? 90)) || ((97 <=? n) && (n <=? 122)))%N.

Definition upperhex (n : N) : ascii := Ascii.ascii_of_N (if (n <? 10)%N then 48 + n else 55 + n)%N.

Fixpoint QueryEscape (s : string) : string :=
  match s with
  | EmptyString => EmptyString
  | String c s' =>
      let n := Ascii.N_of_ascii c in
      if is_alnum n || Ascii.eqb c "-" || Ascii.eqb c "_" || Ascii.eqb c "." || Ascii.eqb c "~"
      then String c (QueryEscape s')
      else if Ascii.eqb c " " then String "+" (QueryEscape s')
      else String "%" (String (upperhex (n / 16)) (String (upperhex (n mod 16)) (QueryEscape s')))
  end.

(** ** Times

    [time.Parse("2006-01-02T15:04:05", s)]: the year has four digits, the hour
    one or two, the others two; a fraction of the seconds is accepted
    although the layout has none. *)

Record Time := mkTime {
  year : Z; month : Z; day : Z; hour : Z; minute : Z; second : Z; nanosecond : Z;
}.

Definition digit_at (s : string) : option (Z * string) :=
  match s with
  | String c s' => d ← Strconv.digit_value c; Some (d, s')
  | EmptyString => None
  end.

Definition getnum (s : string) (fixed : bool) : option (Z * string) :=
  match digit_at s with
  | None => None
  | Some (a, s1) =>
      match digit_at s1 with
      | None => if fixed then None else Some (a, s1)
      | Some (b, s2) => Some (a * 10 + b, s2)
      end
  end.

Definition getyear (s : string) : option (Z * string) :=
  '(a, s) ← digit_at s; '(b, s) ← digit_at s; '(c, s) ← digit_at s; '(d, s) ← digit_at s;
  Some (a * 1000 + b * 100 + c * 10 + d, s).

Definition skip (c : ascii) (s : string) : option string :=
  match s with
  | String d s' => if Ascii.eqb d c then Some s' else None
  | EmptyString => None
  end.

Fixpoint span_digits (s : string) : list Z * string :=
  match s with
  | String c s' =>
      match Strconv.digit_value c with
      | Some d => let '(ds, r) := span_digits s' in (d :: ds, r)
      | None => ([], s)
      end
  | EmptyString => ([], s)
  end.

(** [parseNanoseconds]: at most nine digits count. *)
Definition nanoseconds (ds : list Z) : Z :=
  let ds := take 9 ds in
  foldl (fun n d => n * 10 + d) 0 ds * 10 ^ (9 - Z.of_nat (length ds)).

Definition fraction (s : string) : Z * string :=
  match s with
  | String c s' =>
      if Ascii.eqb c "." || Ascii.eqb c "," then
        match span_digits s' with
        | ([], _) => (0, s)
        | (ds, r) => (nanoseconds ds, r)
        end
      else (0, s)
  | EmptyString => (0, s)
  end.

Definition is_leap (y : Z) : bool := (y mod 4 =? 0) && (negb (y mod 100 =? 0) || (y mod 400 =? 0)).

Definition days_in (m y : Z) : Z :=
  if m =? 2 then (if is_leap y then 29 else 28)
  else if (m =? 4) || (m =? 6) || (m =? 9) || (m =? 11) then 30
  else 31.

Definition valid_time (t : Time) : bool :=
  (1 <=? month t) && (month t <=? 12) && (1 <=? day t) && (day t <=? days_in (month t) (year t))
  && (hour t <? 24) && (minute t <? 60) && (second t <? 60).

Definition time_Parse (s : string) : option Time :=
  '(y, s) ← getyear s; s ← skip "-" s;
  '(m, s) ← getnum s true; s ← skip "-" s;
  '(d, s) ← getnum s true; s ← skip "T" s;
  '(h, s) ← getnum s false; s ← skip ":" s;
  '(mi, s) ← getnum s true; s ← skip ":" s;
  '(sec, s) ← getnum s true;
  let '(ns, s) := fraction s in
  let t := mkTime y m d h mi sec ns in
  if (s =s= "") && valid_time t then Some t else None.

(** ** The query model *)

Inductive value :=
| VString (s : string)
| VInt (i : Z)
| VTime (t : Time).

Inductive keyword :=
| Exact (v : value)
| FuzzyMatchValue (s : string)
| Range (min max : option value)
| OrList (values : list value)
| AndList (values : list value).

Record Sort := mkSort { Key : string; DESC : bool }.

Record Query := mkQuery {
  Keywords : gmap string keyword;
  Sorts : list Sort;
  PageNumber : Z;
  PageSize : Z;
}.

Definition q_New (kw : gmap string keyword) : Query := mkQuery kw [] 0 0.

Definition First (q : Query) (sorting : list Sort) : Query :=
  mkQuery (Keywords q) (Sorts q ++ sorting) 1 1.

(** The copy of the sorts is field by field and that of the keywords key by
    key; a missing query becomes an empty one. *)
Definition MustClone (q : option Query) : Query :=
  match q with
  | None => mkQuery ∅ [] 0 0
  | Some q => mkQuery (Keywords q ∪ ∅) ((fun s => mkSort (Key s) (DESC s)) <$> Sorts q) (PageNumber q) (PageSize q)
  end.

(** ** Parsing *)

Definition parseValue (v : string) : value :=
  let v := TrimSpace v in
  match time_Parse v with
  | Some t => VTime t
  | None =>
      match Strconv.parse_int v with
      | Some i => VInt i
      | None => VString (Trim is_quote v)
      end
  end.

Definition escapeValue (v : string) : string :=
  match v with
  | String c s => if Ascii.eqb c "\" then s else v
  | EmptyString => v
  end.

Definition parseFuzzyMatchValue (v : string) : result keyword :=
  if (String.length v <? 2)%nat
  then Err (Plain "fuzzy match value must start with ~ and contain at least 1 other characters")
  else
    c <-? byte_at v 0;
    if negb (Ascii.eqb c "~")
    then Err (Plain "fuzzy match value must start with ~ and contain at least 1 other characters")
    else s <-? slice v 1 (String.length v); Ok (FuzzyMatchValue s).

Definition nonempty_value (s : string) : option value :=
  if s =s= "" then None else Some (parseValue s).

(** Reading past the pieces of the split panics. *)
Definition parseRange (v : string) : result keyword :=
  let len := String.length v in
  c <-? byte_at v (len - 1);
  if negb (Ascii.eqb c "]") || negb (count "~" v =? 1)%nat
  then Err (Plain "range must start with [, end with ] and contains only one ~")
  else
    s <-? slice v 1 (len - 1);
    match SplitN2 s "~" with
    | a :: b :: _ =>
        let minVal := TrimSpace a in
        let maxVal := TrimSpace b in
        if (minVal =s= "") && (maxVal =s= "")
        then Err (Plain "min and max at least one should be set in range")
        else Ok (Range (nonempty_value minVal) (nonempty_value maxVal))
    | _ => Err (Panic "index out of range")
    end.

Definition kept_value (s : string) : option value :=
  match parseValue s with
  | VString EmptyString => None
  | v => Some v
  end.

Definition parseList (v : string) (close : ascii) : result (list value) :=
  let len := String.length v in
  c <-? byte_at v (len - 1);
  if negb (Ascii.eqb c close) then Err (Plain "list must end with its closing bracket")
  else s <-? slice v 1 (len - 1); Ok (omap kept_value (Split s " ")).

Definition parseOrList (v : string) : result keyword :=
  l <-? parseList v "}"; Ok (OrList l).

Definition parseAndList (v : string) : result keyword :=
  l <-? parseList v ")"; Ok (AndList l).

Definition parsePattern (v : string) : result keyword :=
  match v with
  | EmptyString => Ok (Exact (VString v))
  | String c _ =>
      if Ascii.eqb c "~" then parseFuzzyMatchValue v
      else if Ascii.eqb c "[" then parseRange v
      else if Ascii.eqb c "{" then parseOrList v
      else if Ascii.eqb c "(" then parseAndList v
      else Ok (Exact (VString (escapeValue v)))
  end.

(** A panic is not an error that the caller wraps. *)
Definition wrap_pattern_error (v : string) (e : error) : error :=
  match e with
  | Panic m => Panic m
  | _ => WithMessage (WithCode (NewFrom e) BadRequestCode) ("invalid query string value: " ++ v)%string
  end.

Fixpoint parse_params (params : list string) (keywords : gmap string keyword) : result (gmap string keyword) :=
  match params with
  | [] => Ok keywords
  | param :: params =>
      match SplitN2 param "=" with
      | [k; v] =>
          if (k =s= "") || (v =s= "")
          then Err (WithMessage (WithCode (New "") BadRequestCode)
                     "the query string must contain = and the key/value cannot be empty")
          else
            match parsePattern v with
            | Err e => Err (wrap_pattern_error v e)
            | Ok kw => parse_params params (<[k := kw]> keywords)
            end
      | _ => Err (WithMessage (WithCode (New "") BadRequestCode)
                   "the query string must contain = and the key/value cannot be empty")
      end
  end.

Definition parseKeywords (q : string) : result (gmap string keyword) :=
  if q =s= "" then Ok ∅
  else
    let q := match QueryUnescape q with Some u => u | None => q end in
    parse_params (Split q ",") ∅.

Definition parse_sort (sorting : string) : Sort :=
  if HasPrefix sorting "-" then mkSort (TrimPrefix sorting "-") true else mkSort sorting false.

Definition ParseSorting (sort : string) : list Sort :=
  if sort =s= "" then [] else parse_sort <$> Split sort ",".

Definition Build (q sort : string) (pageNumber pageSize : Z) : result Query :=
  match parseKeywords q with
  | Err e => Err e
  | Ok keywords => Ok (mkQuery keywords (ParseSorting sort) pageNumber pageSize)
  end.

(** [BaseAPI.BuildQuery]: absent parameters are zero values. *)
Definition BuildQuery (query sort : option string) (pageNumber pageSize : option Z) : result Query :=
  Build (default "" query) (default "" sort) (default 0 pageNumber) (default 0 pageSize).

(** ** Metadata of a model

    What reflection gives of a model's struct: its fields with their tags, its
    [FilterBy] methods of the right type and its [GetDefaultSorts]. *)

Record Field := mkField { f_Name : string; f_orm : string; f_filter : string; f_sort : string }.

Record Model := mkModel {
  fields : list Field;
  methods : list string;
  GetDefaultSorts : list Sort;
}.

Record key := mkKey { Name : string; Filterable : bool; FilterFunc : option string; Sortable : bool }.

Record metadata := mkMetadata { Keys : gmap string key; DefaultSorts : list Sort }.

Definition is_upper (c : ascii) : bool := let n := Ascii.N_of_ascii c in ((65 <=? n) && (n <=? 90))%N.
Definition is_lower (c : ascii) : bool := let n := Ascii.N_of_ascii c in ((97 <=? n) && (n <=? 122))%N.

Definition head_is (p : ascii -> bool) (s : string) : bool :=
  match s with String c _ => p c | EmptyString => false end.

(** [snakeCase] from its second character on; [prev] is the one before. *)
Fixpoint snake_rest (prev : ascii) (s : string) : string :=
  match s with
  | EmptyString => EmptyString
  | String c s' =>
      let rest := String (ToLower_char c) (snake_rest c s') in
      if is_upper c && (head_is is_lower s' || is_lower prev) then String "_" rest else rest
  end.

Definition snakeCase (s : string) : string :=
  match s with
  | EmptyString => EmptyString
  | String c s' => String (ToLower_char c) (snake_rest c s')
  end.

Definition parseFilterable (f : Field) : bool := negb (f_filter f =s= "false").

(** The items of the [sort] tag from left to right. *)
Fixpoint parse_sort_items (name : string) (items : list string) (def : option Sort) : option Sort * bool :=
  match items with
  | [] => (def, true)
  | item :: items =>
      if item =s= "false" then (None, false)
      else if negb (HasPrefix item "default") then parse_sort_items name items def
      else parse_sort_items name items (Some (mkSort name (TrimPrefix item "default" =s= ":desc")))
  end.

Definition parseSortable (f : Field) : option Sort * bool :=
  parse_sort_items (f_Name f) (Split (f_sort f) ";") None.

Definition TrimSuffix (s suffix : string) : string :=
  let n := (String.length s - String.length suffix)%nat in
  if (String.length suffix <=? String.length s)%nat && (drop n s =s= suffix)
  then String.substring 0 n s else s.

Fixpoint column_item (items : list string) : string :=
  match items with
  | [] => ""
  | item :: items =>
      if negb (HasPrefix item "column") then column_item items
      else TrimSuffix (TrimPrefix item "column(") ")"
  end.

Definition parseColumn (f : Field) : string :=
  match column_item (Split (f_orm f) ";") with
  | EmptyString => snakeCase (f_Name f)
  | c => c
  end.

Definition add_field (m : metadata) (f : Field) : metadata :=
  if f_orm f =s= "-" then m
  else
    let filterable := parseFilterable f in
    let '(defaultSort, sortable) := parseSortable f in
    let column := parseColumn f in
    mkMetadata
      (<[column := mkKey column filterable None sortable]>
        (<[f_Name f := mkKey (f_Name f) filterable None sortable]> (Keys m)))
      (match defaultSort with Some s => [s] | None => DefaultSorts m end).

Definition add_method (m : metadata) (name : string) : metadata :=
  if negb (HasPrefix name "FilterBy") then m
  else
    let field := TrimPrefix name "FilterBy" in
    let snake := snakeCase field in
    mkMetadata
      (<[snake := mkKey snake true (Some name) false]>
        (<[field := mkKey field true (Some name) false]> (Keys m)))
      (DefaultSorts m).

(** The cache of the parsed models is left out: it only saves time. *)
Definition parseModel (model : Model) : metadata :=
  let m := foldl add_field (mkMetadata ∅ []) (fields model) in
  let m := foldl add_method m (methods model) in
  match GetDefaultSorts model with
  | [] => m
  | sorts => mkMetadata (Keys m) sorts
  end.

Definition meta_Filterable (m : metadata) (k : string) : option key * bool :=
  match Keys m !! k with
  | None => (None, false)
  | Some k => (Some k, Filterable k)
  end.

Definition meta_Sortable (m : metadata) (k : string) : bool :=
  match Keys m !! k with None => false | Some k => Sortable k end.

(** ** The query setter *)

(** The calls on the ORM's query setter, in their order.  [Custom] is the call
    of a model's own [FilterBy] method. *)
Inductive call :=
| Filter (expr : string) (args : list value)
| FilterFuzzy (expr : string) (arg : string)
| Custom (method : string) (expr : string) (v : keyword)
| OrderBy (exprs : list string)
| Limit (n : Z)
| Offset (n : Z).

(** [strings.Split(s, "__")]. *)
Fixpoint split_sep (s : string) : list string :=
  match s with
  | EmptyString => [EmptyString]
  | String c s' =>
      let cont := match split_sep s' with
                  | w :: ws => String c w :: ws
                  | [] => [String c EmptyString]
                  end in
      match s' with
      | String d s'' => if Ascii.eqb c "_" && Ascii.eqb d "_" then EmptyString :: split_sep s'' else cont
      | EmptyString => cont
      end
  end.

Definition allowedOperators : list string := ["icontains"; "in"; "gte"; "lte"; "gt"; "lt"; "exact"].

(** [orm.Escape]: three replacements, the backslash first. *)
Fixpoint replace_char (c : ascii) (s : string) : string :=
  match s with
  | EmptyString => EmptyString
  | String d s' =>
      if Ascii.eqb d c then String "\" (String c (replace_char c s')) else String d (replace_char c s')
  end.

Definition Escape (s : string) : string :=
  replace_char "_" (replace_char "%" (replace_char "\" s)).

(** The key of the metadata that a keyword's field is filtered by. *)
Definition filter_key (m : metadata) (field : string) : option key :=
  match meta_Filterable m field with
  | (Some k, true) => Some k
  | _ =>
      match meta_Filterable m (snakeCase field) with
      | (Some k, true) => Some k
      | _ => None
      end
  end.

(** One turn of the loop of [setFilters]. *)
Definition filter_calls (m : metadata) (k : string) (v : keyword) : list call :=
  let pieces := split_sep k in
  if (2 <? length pieces)%nat then []
  else
    match filter_key m (default "" (head pieces)) with
    | None => []
    | Some mk =>
        let allowed := match pieces with
                       | [_; op] => existsb (String.eqb op) allowedOperators
                       | _ => true
                       end in
        if negb allowed then []
        else
          match FilterFunc mk with
          | Some f => [Custom f k v]
          | None =>
              match v with
              | FuzzyMatchValue s => [FilterFuzzy (k ++ "__icontains")%string (Escape s)]
              | Range min max =>
                  match min with Some x => [Filter (k ++ "__gte")%string [x]] | None => [] end
                  ++ match max with Some x => [Filter (k ++ "__lte")%string [x]] | None => [] end
              | OrList vs => [Filter (k ++ "__in")%string vs]
              | AndList _ => []
              | Exact x => [Filter k [x]]
              end
          end
    end.

(** The loop runs over the map of the keywords in any order, here that of a
    list with the map's pairs. *)
Definition setFilters (m : metadata) (keywords : list (string * keyword)) : list call :=
  foldl (fun qs kv => qs ++ filter_calls m kv.1 kv.2) [] keywords.

Definition sort_expr (s : Sort) : string := if DESC s then ("-" ++ Key s)%string else Key s.

Definition setSorts (m : metadata) (sorts : list Sort) : list call :=
  let sortings := sort_expr <$> List.filter (fun s => meta_Sortable m (Key s)) sorts in
  let sortings := if bool_decide (sortings = []) then sort_expr <$> DefaultSorts m else sortings in
  if bool_decide (sortings = []) then [] else [OrderBy sortings].

Definition pagination (q : Query) : list call :=
  if 0 <? PageSize q then
    Limit (PageSize q)
    :: (if 0 <? PageNumber q then [Offset (Int64.wrap (PageSize q * Int64.wrap (PageNumber q - 1)))] else [])
  else [].

(** [order] is the order in which the loop meets the keywords. *)
Definition QuerySetter (order : gmap string keyword -> list (string * keyword)) (model : Model)
    (query : option Query) (disableSort : bool) : list call :=
  match query with
  | None => []
  | Some q =>
      let m := parseModel model in
      setFilters m (order (Keywords q))
      ++ (if disableSort then [] else setSorts m (Sorts q))
      ++ pagination q
  end.

Definition QuerySetterForCount order (model : Model) (query : option Query) : list call :=
  QuerySetter order model (Some (mkQuery (Keywords (MustClone query)) [] 0 0)) true.

(** The SQL text grows by one place holder for each parameter. *)
Definition PaginationOnRawSQL (query : option Query) (sql : string) (params : list Z) : string * list Z :=
  match query with
  | Some q =>
      if 0 <? PageSize q then
        let sql := (sql ++ " limit ?")%string in
        let params := params ++ [PageSize q] in
        if 0 <? PageNumber q
        then ((sql ++ " offset ?")%string, params ++ [Int64.wrap (Int64.wrap (PageNumber q - 1) * PageSize q)])
        else (sql, params)
      else (sql, params)
  | None => (sql, params)
  end.

(** ** Lemmas on strings *)

Lemma substring_app_l s t : String.substring 0 (String.length s) (s ++ t)%string = s.
Proof. induction s as [|c s IH]; simpl; [by destruct t|]. by rewrite IH. Qed.

Lemma get_app s c t : String.get (String.length s) (s ++ String c t)%string = Some c.
Proof. induction s as [|d s IH]; [done|]. exact IH. Qed.

(** The inner part of a bracketed value. *)
Lemma bracketed_slice a s b :
  slice (String a (s ++ String b "")%string) 1 (String.length (String a (s ++ String b "")%string) - 1) = Ok s.
Proof.
  cbn [String.length]. rewrite string_length_app. cbn [String.length]. unfold slice.
  replace (S (String.length s + 1) - 1)%nat with (S (String.length s)) by lia.
  cbn [String.length]. rewrite string_length_app. cbn [String.length].
  replace ((1 <=? S (String.length s)) && (S (String.length s) <=? S (String.length s + 1)))%nat with true
    by (symmetry; apply andb_true_iff; split; apply Nat.leb_le; lia).
  replace (S (String.length s) - 1)%nat with (String.length s) by lia. cbn [String.substring].
  by rewrite substring_app_l.
Qed.

Lemma bracketed_last a s b :
  byte_at (String a (s ++ String b "")%string) (String.length (String a (s ++ String b "")%string) - 1) = Ok b.
Proof.
  unfold byte_at. cbn [String.length]. rewrite string_length_app. cbn [String.length].
  replace (S (String.length s + 1) - 1)%nat with (S (String.length s)) by lia.
  cbn [String.get]. by rewrite get_app.
Qed.

(** A string is empty or has a last character. *)
Lemma last_char s : s = "" \/ exists t c, s = (t ++ String c "")%string.
Proof.
  induction s as [|c s [->|(t & d & ->)]]; [by left| |]; right; [by exists "", c|].
  by exists (String c t), d.
Qed.

(** ** The parser rejects, it does not panic *)

Definition no_panic {A} (r : result A) : Prop :=
  match r with Err (Panic _) => False | _ => True end.

(** A value that opens with a bracket is closed by another character or has
    its inner part. *)
Lemma bracket_cases c v :
  (exists s b, String c v = String c (s ++ String b "")%string) \/ v = "".
Proof. destruct (last_char v) as [->|(t & d & ->)]; [by right|left]. by exists t, d. Qed.

Lemma parseRange_no_panic v : no_panic (parseRange (String "[" v)).
Proof.
  destruct (bracket_cases "[" v) as [(s & b & ->)| ->]; [|done].
  unfold parseRange, then_. rewrite bracketed_last, bracketed_slice.
  destruct (Ascii.eqb_spec b "]") as [->|]; [|done]. cbn [negb orb].
  destruct (Nat.eqb_spec (count "~" (String "[" (s ++ "]"))) 1) as [Hc|]; [|done]. cbn [negb].
  simpl in Hc. rewrite count_app in Hc. simpl in Hc.
  assert (Hs : exists a t, SplitN2 s "~" = [a; t]).
  { clear -Hc. assert (H : (0 < count "~" s)%nat) by lia. clear Hc.
    induction s as [|c s IH]; simpl in *; [lia|]. destruct (Ascii.eqb c "~"); [by eexists _, _|].
    destruct IH as (a & t & ->); [lia|]. by eexists _, _. }
  destruct Hs as (a & t & ->). by destruct ((TrimSpace a =s= "") && (TrimSpace t =s= "")).
Qed.

Lemma parseList_no_panic c v close : c <> close -> no_panic (parseList (String c v) close).
Proof.
  intros Hne. unfold parseList, then_.
  destruct (bracket_cases c v) as [(s & b & ->)| ->].
  - rewrite bracketed_last, bracketed_slice. by destruct (negb _).
  - simpl. by apply Ascii.eqb_neq in Hne as ->.
Qed.

Lemma parsePattern_no_panic v : no_panic (parsePattern v).
Proof.
  destruct v as [|c v]; [done|]. unfold parsePattern.
  destruct (Ascii.eqb_spec c "~") as [->|].
  { unfold parseFuzzyMatchValue. destruct v as [|d v]; [done|]. simpl.
    unfold slice. replace ((1 <=? String.length (String "~" (String d v))))%nat with true by done.
    by rewrite Nat.leb_refl. }
  destruct (Ascii.eqb_spec c "[") as [->|]; [apply parseRange_no_panic|].
  destruct (Ascii.eqb_spec c "{") as [->|].
  { pose proof (parseList_no_panic "{" v "}" ltac:(done)) as H. unfold parseOrList, then_.
    by destruct (parseList _ _). }
  destruct (Ascii.eqb_spec c "(") as [->|]; [|done].
  pose proof (parseList_no_panic "(" v ")" ltac:(done)) as H. unfold parseAndList, then_.
  by destruct (parseList _ _).
Qed.

Lemma parse_params_error params : forall m e,
  parse_params params m = Err e -> IsErr e BadRequestCode = true.
Proof.
  induction params as [|p params IH]; intros m e; [done|]. cbn [parse_params].
  destruct (SplitN2 p "=") as [|k [|v [|]]]; try (by intros [= <-]).
  destruct ((k =s= "") || (v =s= "")); [by intros [= <-]|].
  pose proof (parsePattern_no_panic v) as Hp.
  destruct (parsePattern v) as [kw|e']; [apply IH|]. intros [= <-]. by destruct e'.
Qed.

(** No query string makes the parser panic: it is parsed, or it is refused
    as a bad request. *)
Theorem build_total q sort pageNumber pageSize :
  match BuildQuery q sort pageNumber pageSize with
  | Ok query => PageNumber query = default 0 pageNumber /\ PageSize query = default 0 pageSize
  | Err e => IsErr e BadRequestCode = true
  end.
Proof.
  unfold BuildQuery, Build, parseKeywords. destruct (default "" q =s= ""); [done|].
  destruct (parse_params _ ∅) eqn:E; [done|]. by eapply parse_params_error.
Qed.

(** ** Printing queries

    The format of the query string, as a client writes it, with quotes of either
    kind; times are written as the parser reads them. *)

Section Printing.

Context (double : bool).

Definition quote : string := if double then String "034" "" else "'".

Fixpoint pad (k : nat) (n : Z) (acc : string) : string :=
  match k with
  | O => acc
  | S k => pad k (n / 10) (String (Strconv.digit (n mod 10)) acc)
  end.

Definition print_time (t : Time) : string :=
  pad 4 (year t) (String "-" (pad 2 (month t) (String "-" (pad 2 (day t) (String "T"
    (pad 2 (hour t) (String ":" (pad 2 (minute t) (String ":" (pad 2 (second t)
      (if nanosecond t =? 0 then "" else String "." (pad 9 (nanosecond t) "")))))))))))).

Definition print_value (v : value) : string :=
  match v with
  | VString s => quote ++ s ++ quote
  | VInt i => Strconv.format_int i
  | VTime t => print_time t
  end.

Definition print_option (v : option value) : string := default "" (print_value <$> v).

Definition print_exact (s : string) : string :=
  if head_is (fun c => existsb (Ascii.eqb c) ["~"; "["; "{"; "("; "\"]%char) s then String "\" s else s.

Definition print_keyword (kw : keyword) : string :=
  match kw with
  | Exact (VString s) => print_exact s
  | Exact v => print_value v
  | FuzzyMatchValue s => String "~" s
  | Range min max => String "[" ((print_option min ++ String "~" (print_option max)) ++ "]")
  | OrList vs => String "{" (Join (print_value <$> vs) " " ++ "}")
  | AndList vs => String "(" (Join (print_value <$> vs) " " ++ ")")
  end.

Definition print_query (kws : list (string * keyword)) : string :=
  Join ((fun kv : string * keyword => (kv.1 ++ String "=" (print_keyword kv.2))%string) <$> kws) ",".

(** What the format can express: words in ranges and lists, any text but a
    comma elsewhere. *)
Definition word_char (c : ascii) : bool := negb (is_space c || Ascii.eqb c "," || Ascii.eqb c "~").

Definition word (s : string) : bool :=
  negb (s =s= "") && all_chars (fun c => word_char c && negb (is_quote c)) s.

Definition text (s : string) : bool := negb (s =s= "") && (count "," s =? 0)%nat.

Definition ok_value (v : value) : bool :=
  match v with
  | VString s => word s
  | VInt i => (Int64.min <=? i) && (i <=? Int64.max)
  | VTime t =>
      (0 <=? year t) && (year t <=? 9999) && valid_time t && (0 <=? hour t) && (0 <=? minute t)
      && (0 <=? second t) && (0 <=? nanosecond t) && (nanosecond t <? 10 ^ 9)
  end.

Definition ok_keyword (kw : keyword) : bool :=
  match kw with
  | Exact (VString s) => text s
  | Exact _ => false
  | FuzzyMatchValue s => text s
  | Range min max => negb (bool_decide (min = None /\ max = None))
                     && forallb ok_value (option_list min ++ option_list max)
  | OrList vs | AndList vs => forallb ok_value vs
  end.

Definition ok_key (k : string) : bool := text k && (count "=" k =? 0)%nat.

(** *** Escaping *)

Lemma unescape_escape s : QueryUnescape (QueryEscape s) = Some s.
Proof.
  induction s as [|c s IH]; [done|]. cbn [QueryEscape].
  generalize dependent (QueryEscape s). intros r IH.
  destruct c as [[] [] [] [] [] [] [] []]; lazy - [QueryUnescape]; cbn [QueryUnescape]; rewrite IH; reflexivity.
Qed.

(** *** Times *)

Lemma digit_at_digit d s : 0 <= d < 10 -> digit_at (String (Strconv.digit d) s) = Some (d, s).
Proof. intros Hd. unfold digit_at. by rewrite Strconv.digit_value_digit. Qed.

Ltac digit_at_tac := rewrite digit_at_digit by (apply Z.mod_pos_bound; lia).

Lemma getnum_pad n s fixed : 0 <= n < 100 -> getnum (pad 2 n s) fixed = Some (n, s).
Proof.
  intros Hn. unfold getnum. cbn [pad]. do 2 digit_at_tac. do 2 f_equal.
  pose proof (Z.div_mod n 10). pose proof (Z.mod_small (n / 10) 10).
  assert (n / 10 < 10) by (apply Z.div_lt_upper_bound; lia).
  assert (0 <= n / 10) by (apply Z.div_pos; lia). lia.
Qed.

Lemma getyear_pad n s : 0 <= n < 10000 -> getyear (pad 4 n s) = Some (n, s).
Proof.
  intros Hn. unfold getyear. cbn [pad]. do 4 (digit_at_tac; cbn [mbind option_bind]). do 2 f_equal.
  Z.to_euclidean_division_equations. lia.
Qed.

Fixpoint digits (k : nat) (n : Z) : list Z :=
  match k with O => [] | S k => digits k (n / 10) ++ [n mod 10] end.

Lemma span_digits_pad k : forall n s,
  (span_digits (pad k n s)) = (digits k n ++ (span_digits s).1, (span_digits s).2).
Proof.
  induction k as [|k IH]; intros n s; cbn [pad digits]; [by destruct (span_digits s)|].
  rewrite IH. cbn [span_digits]. rewrite Strconv.digit_value_digit by (apply Z.mod_pos_bound; lia).
  destruct (span_digits s). cbn. by rewrite <- (assoc_L (++)).
Qed.

Lemma length_digits k : forall n, length (digits k n) = k.
Proof. induction k as [|k IH]; intros n; simpl; [done|]. rewrite length_app, IH. simpl. lia. Qed.

Lemma value_digits k : forall n, 0 <= n -> foldl (fun n d => n * 10 + d) 0 (digits k n) = n mod 10 ^ Z.of_nat k.
Proof.
  induction k as [|k IH]; intros n Hn; [by rewrite Z.mod_1_r|]. cbn [digits].
  rewrite foldl_app, IH by (apply Z.div_pos; lia). cbn [foldl].
  rewrite Nat2Z.inj_succ, Z.pow_succ_r by lia. rewrite Z.rem_mul_r by lia. lia.
Qed.

Lemma fraction_pad n : 0 < n < 10 ^ 9 -> fraction (String "." (pad 9 n "")) = (n, "").
Proof.
  intros Hn. cbn [fraction]. change (Ascii.eqb "." "." || Ascii.eqb "." ",") with true. cbn [orb].
  rewrite span_digits_pad. cbn [span_digits fst snd]. rewrite app_nil_r.
  pose proof (length_digits 9 n) as Hl. pose proof (value_digits 9 n ltac:(lia)) as Hv.
  destruct (digits 9 n) as [|d ds] eqn:E; [done|]. rewrite <- E in *. unfold nanoseconds.
  rewrite take_ge by lia. rewrite Hl, Hv, Z.mod_small by lia. f_equal. change (10 ^ (9 - Z.of_nat 9)) with 1. lia.
Qed.

Lemma skip_eq c s : skip c (String c s) = Some s.
Proof. unfold skip. by rewrite Ascii.eqb_refl. Qed.

Lemma parse_print_time t : ok_value (VTime t) = true -> time_Parse (print_time t) = Some t.
Proof.
  cbn [ok_value]. rewrite !andb_true_iff, !Z.leb_le, Z.ltb_lt.
  intros [[[[[[[Hy0 Hy] Hv] Hh] Hm] Hs] Hn0] Hn]. pose proof Hv as Hv'.
  unfold valid_time in Hv'. rewrite !andb_true_iff, !Z.leb_le, !Z.ltb_lt in Hv'.
  destruct Hv' as [[[[[[? ?] ?] Hday] ?] ?] ?].
  assert (days_in (month t) (year t) <= 31).
  { unfold days_in. repeat case_match; lia. }
  unfold time_Parse, print_time. rewrite getyear_pad by lia. cbn [mbind option_bind]. rewrite skip_eq.
  do 5 (cbn [mbind option_bind]; rewrite getnum_pad by lia; cbn [mbind option_bind]; rewrite ?skip_eq).
  cbn [mbind option_bind].
  assert (Hf : fraction (if nanosecond t =? 0 then "" else String "." (pad 9 (nanosecond t) ""))
               = (nanosecond t, "")).
  { destruct (Z.eqb_spec (nanosecond t) 0) as [->|]; [done|]. apply fraction_pad. lia. }
  rewrite Hf. replace (mkTime _ _ _ _ _ _ _) with t by (by destruct t). by rewrite Hv.
Qed.

(** *** Values *)

Lemma trim_space_chars s : all_chars (fun c => negb (is_space c)) s = true -> TrimSpace s = s.
Proof.
  intros H. unfold TrimSpace.
  assert (E : trim_left s = s).
  { destruct s as [|c s]; [done|]. simpl in H |- *. by destruct (is_space c). }
  rewrite E. clear E. induction s as [|c s IH]; [done|]. simpl in H |- *.
  apply andb_true_iff in H as [Hc Hs]. rewrite (IH Hs). destruct s; [|done]. by destruct (is_space c).
Qed.

Lemma digit_char p d :
  forallb (fun n => p (Strconv.digit n)) [0; 1; 2; 3; 4; 5; 6; 7; 8; 9] = true ->
  0 <= d < 10 -> p (Strconv.digit d) = true.
Proof.
  intros H Hd. rewrite forallb_forall in H. apply (H d).
  assert (d = 0 \/ d = 1 \/ d = 2 \/ d = 3 \/ d = 4 \/ d = 5 \/ d = 6 \/ d = 7 \/ d = 8 \/ d = 9) by lia.
  simpl. intuition.
Qed.

Lemma all_chars_pad p k : forall n s,
  (forall d, 0 <= d < 10 -> p (Strconv.digit d) = true) -> all_chars p (pad k n s) = all_chars p s.
Proof.
  induction k as [|k IH]; intros n s Hp; [done|]. cbn [pad]. rewrite IH by done. cbn [all_chars].
  by rewrite Hp by (apply Z.mod_pos_bound; lia).
Qed.

Lemma word_digit d : 0 <= d < 10 -> word_char (Strconv.digit d) = true.
Proof. by apply digit_char. Qed.

(** A printed value is one word. *)
Lemma print_value_word v : ok_value v = true -> all_chars word_char (print_value v) = true.
Proof.
  destruct v as [s|i|t]; cbn [ok_value print_value].
  - intros [_ H]%andb_true_iff. rewrite !all_chars_app.
    rewrite (all_chars_impl _ word_char s) with (2 := H); [unfold quote; by destruct double|]. by intros c [? _]%andb_true_iff.
  - intros _. by apply all_chars_format_int; [apply word_digit|].
  - intros _. unfold print_time.
    repeat (rewrite all_chars_pad by apply word_digit; cbn [all_chars]). destruct (_ =? 0); [done|].
    cbn [all_chars]. by rewrite all_chars_pad by apply word_digit.
Qed.

Lemma word_no_space s : all_chars word_char s = true -> TrimSpace s = s.
Proof.
  intros H. apply trim_space_chars. eapply all_chars_impl; [|exact H].
  intros c. unfold word_char. by destruct (is_space c).
Qed.

Definition is_digit (c : ascii) : bool := bool_decide (is_Some (Strconv.digit_value c)).

Lemma digit_at_digits s d s' :
  all_chars is_digit s = true -> digit_at s = Some (d, s') -> all_chars is_digit s' = true.
Proof.
  destruct s as [|c s]; [done|]. cbn. intros [_ H]%andb_true_iff.
  destruct (Strconv.digit_value c); [|done]. by intros [= _ <-].
Qed.

(** A number is not a time: its year is not followed by a dash. *)
Lemma digits_no_time s : all_chars is_digit s = true -> time_Parse s = None.
Proof.
  intros H. unfold time_Parse, getyear.
  repeat (match goal with |- context [digit_at ?s] => destruct (digit_at s) as [[? ?]|] eqn:? end;
    cbn [mbind option_bind]; [|done]; match goal with E : digit_at _ = _, A : all_chars _ _ = true |- _ =>
      apply (digit_at_digits _ _ _ A) in E; clear A end).
  unfold skip. match goal with |- context [match ?s with _ => _ end] => destruct s as [|c ?] end; [done|].
  by destruct (Ascii.eqb_spec c "-") as [->|].
Qed.

Lemma format_int_no_time i : time_Parse (Strconv.format_int i) = None.
Proof.
  unfold Strconv.format_int. destruct (Z.ltb_spec i 0); [done|]. apply digits_no_time.
  rewrite all_chars_write_digits; [done| |lia].
  intros d. by apply digit_char.
Qed.

Lemma trim_quotes s : word s = true -> Trim is_quote (quote ++ s ++ quote) = s.
Proof.
  unfold word. intros [Hne H]%andb_true_iff.
  assert (Hq : all_chars (fun c => negb (is_quote c)) s = true).
  { eapply all_chars_impl; [|exact H]. by intros c [_ ?]%andb_true_iff. }
  unfold Trim. assert (E0 : trim_left_of is_quote (quote ++ s ++ quote) = trim_left_of is_quote (s ++ quote)) by (unfold quote; by destruct double).
  assert (T0 : trim_right_of is_quote quote = "") by (unfold quote; by destruct double).
  assert (E : trim_left_of is_quote (s ++ quote) = (s ++ quote)%string).
  { destruct s as [|c s]; [done|]. simpl in Hq |- *. by destruct (is_quote c). }
  rewrite E0, E. clear E E0 Hne H. induction s as [|c s IH]; [done|]. simpl in Hq |- *.
  apply andb_true_iff in Hq as [Hc Hq]. rewrite (IH Hq). destruct s; [|done]. by destruct (is_quote c).
Qed.

Lemma parse_print_value v : ok_value v = true -> parseValue (print_value v) = v.
Proof.
  intros H. unfold parseValue. rewrite word_no_space by (by apply print_value_word).
  destruct v as [s|i|t]; cbn [print_value].
  - assert (N : time_Parse (quote ++ s ++ quote) = None /\ Strconv.parse_int (quote ++ s ++ quote) = None)
      by (unfold quote; by destruct double).
    destruct N as [-> ->]. by rewrite trim_quotes.
  - rewrite format_int_no_time, Strconv.parse_format_int; [done|].
    apply andb_true_iff in H as [?%Z.leb_le ?%Z.leb_le]. by split.
  - by rewrite parse_print_time.
Qed.

(** *** Lists and ranges *)

Lemma kept_print_value v : ok_value v = true -> kept_value (print_value v) = Some v.
Proof.
  intros H. unfold kept_value. rewrite parse_print_value by done.
  destruct v as [[|]| |]; [|done..]. done.
Qed.

Lemma omap_print vs : forallb ok_value vs = true -> omap kept_value (print_value <$> vs) = vs.
Proof.
  induction vs as [|v vs IH]; [done|]. intros [Hv Hvs]%andb_true_iff. cbn.
  rewrite kept_print_value by done. by rewrite IH.
Qed.

Lemma parse_print_list a b vs :
  forallb ok_value vs = true -> parseList (String a (Join (print_value <$> vs) " " ++ String b "")) b = Ok vs.
Proof.
  intros H. unfold parseList, then_. rewrite bracketed_last, bracketed_slice, Ascii.eqb_refl. cbn [negb]. f_equal.
  destruct vs as [|v vs]; [done|]. rewrite Split_Join.
  - by apply omap_print.
  - done.
  - apply Forall_fmap, Forall_forall. intros w Hw. rewrite forallb_forall in H. cbn.
    apply (all_chars_count word_char); [done|]. by apply print_value_word, H, list_elem_of_In.
Qed.

Lemma print_option_word o :
  forallb ok_value (option_list o) = true -> all_chars word_char (print_option o) = true.
Proof. destruct o as [v|]; [|done]. cbn. rewrite andb_true_r. apply print_value_word. Qed.

Lemma parse_print_option o :
  forallb ok_value (option_list o) = true -> nonempty_value (print_option o) = o.
Proof.
  destruct o as [v|]; [|done]. cbn. rewrite andb_true_r. intros H. unfold nonempty_value.
  pose proof (kept_print_value v H) as Hk. destruct (print_value v =s= "") eqn:E.
  - apply String.eqb_eq in E. rewrite E in Hk. discriminate Hk.
  - by rewrite parse_print_value.
Qed.

Lemma parse_print_range min max :
  ok_keyword (Range min max) = true -> parseRange (print_keyword (Range min max)) = Ok (Range min max).
Proof.
  cbn [ok_keyword print_keyword]. rewrite forallb_app, !andb_true_iff, negb_true_iff, bool_decide_eq_false.
  intros (Hne & Hmin & Hmax). unfold parseRange, then_.
  rewrite bracketed_last, bracketed_slice. cbn [negb orb Ascii.eqb].
  pose proof (print_option_word min Hmin) as Wa. pose proof (print_option_word max Hmax) as Wb.
  assert (Hc : count "~" (String "[" ((print_option min ++ String "~" (print_option max)) ++ "]")) = 1%nat).
  { cbn. rewrite !count_app. cbn. rewrite !(all_chars_count word_char "~") by done. done. }
  rewrite Hc. replace (negb (Ascii.eqb "]" "]") || negb (1 =? 1)%nat) with false by done.
  rewrite SplitN2_app by (by apply (all_chars_count word_char)).
  rewrite !word_no_space, !parse_print_option by done.
  destruct (print_option min =s= "") eqn:Ea, (print_option max =s= "") eqn:Eb; try done.
  exfalso. apply Hne. rewrite <- (parse_print_option min), <- (parse_print_option max) by done.
  unfold nonempty_value. by rewrite Ea, Eb.
Qed.

Lemma parse_print_exact s : text s = true -> parsePattern (print_exact s) = Ok (Exact (VString s)).
Proof.
  unfold text, print_exact. intros [Hne _]%andb_true_iff. destruct s as [|c s]; [done|]. cbn [head_is].
  destruct (existsb _ _) eqn:E; [done|]. cbn [existsb] in E. rewrite !orb_false_iff in E.
  destruct E as (E1 & E2 & E3 & E4 & E5 & _). unfold parsePattern. rewrite E1, E2, E3, E4.
  cbn [escapeValue]. by rewrite E5.
Qed.

Lemma parse_print_keyword kw : ok_keyword kw = true -> parsePattern (print_keyword kw) = Ok kw.
Proof.
  destruct kw as [[s| |]|s|min max|vs|vs]; cbn [ok_keyword]; intros H; try done.
  - by apply parse_print_exact.
  - apply andb_true_iff in H as [Hne _]. destruct s as [|c s]; [done|]. cbn [print_keyword].
    change (parsePattern (String "~" (String c s))) with
      (x <-? slice (String "~" (String c s)) 1 (String.length (String "~" (String c s))); Ok (FuzzyMatchValue x)).
    unfold slice. rewrite Nat.leb_refl. cbn. do 2 f_equal.
    rewrite <- (GoStrings.app_nil s) at 2. by rewrite substring_app_l.
  - by apply parse_print_range.
  - cbn. unfold parseOrList, then_. by rewrite parse_print_list.
  - cbn. unfold parseAndList, then_. by rewrite parse_print_list.
Qed.

(** *** Queries *)

Lemma count_Join c ws sep :
  count c sep = 0%nat -> Forall (fun w => count c w = 0%nat) ws -> count c (Join ws sep) = 0%nat.
Proof.
  intros Hs. induction ws as [|w [|w' ws] IH]; intros HF; inversion HF as [|? ? Hw Hws]; subst; [done|done|].
  cbn [Join]. rewrite !count_app, Hw, Hs. by apply IH.
Qed.

Lemma print_values_comma vs : forallb ok_value vs = true -> count "," (Join (print_value <$> vs) " ") = 0%nat.
Proof.
  intros H. apply count_Join; [done|]. apply Forall_fmap, Forall_forall. intros v Hv. cbn.
  rewrite forallb_forall in H. apply (all_chars_count word_char); [done|]. by apply print_value_word, H, list_elem_of_In.
Qed.

Lemma print_keyword_ok kw :
  ok_keyword kw = true -> count "," (print_keyword kw) = 0%nat /\ (print_keyword kw =s= "") = false.
Proof.
  destruct kw as [[s| |]|s|min max|vs|vs]; cbn [ok_keyword]; intros H; try done.
  - unfold text in H. apply andb_true_iff in H as [Hne Hc%Nat.eqb_eq]. cbn [print_keyword]. unfold print_exact.
    destruct (head_is _ s); [done|]. split; [done|]. by destruct (s =s= "").
  - apply andb_true_iff in H as [_ Hc%Nat.eqb_eq]. done.
  - rewrite forallb_app, !andb_true_iff in H. destruct H as (_ & Hmin & Hmax). split; [|done]. cbn.
    rewrite !count_app. cbn. by rewrite !(all_chars_count word_char ",") by (done || by apply print_option_word).
  - split; [|done]. cbn. by rewrite count_app, print_values_comma.
  - split; [|done]. cbn. by rewrite count_app, print_values_comma.
Qed.

Definition print_param (kv : string * keyword) : string := (kv.1 ++ String "=" (print_keyword kv.2))%string.

Definition ok_query (kws : list (string * keyword)) : bool :=
  forallb (fun kv => ok_key kv.1 && ok_keyword kv.2) kws.

Lemma parse_print_params kws : forall m,
  ok_query kws = true ->
  parse_params (print_param <$> kws) m = Ok (list_to_map (reverse kws) ∪ m).
Proof.
  induction kws as [|[k kw] kws IH]; intros m; [by cbn; rewrite (left_id_L ∅ (∪))|].
  intros [[[Hk Heq%Nat.eqb_eq]%andb_true_iff Hkw]%andb_true_iff Hs]%andb_true_iff. cbn [fmap list_fmap parse_params].
  unfold print_param at 1. cbn [fst snd]. rewrite SplitN2_app by done.
  destruct (print_keyword_ok kw Hkw) as [_ ->]. apply andb_true_iff in Hk as [Hne%negb_true_iff _]. cbn [fst] in Hne.
  rewrite Hne. cbn [orb].
  rewrite parse_print_keyword, IH by done. f_equal.
  rewrite reverse_cons, list_to_map_app, <- (assoc_L (∪)). f_equal.
  cbn. by rewrite insert_union_singleton_l, insert_empty.
Qed.

(** What the parser makes of a query as it is written, with its escapes undone. *)
Lemma parse_unescaped kws t :
  ok_query kws = true -> (t =s= "") = false -> QueryUnescape t = Some (Join (print_param <$> kws) ",") -> kws <> [] ->
  parseKeywords t = Ok (list_to_map (reverse kws)).
Proof.
  intros H Hne U N. unfold parseKeywords. rewrite Hne, U. destruct kws as [|kv kws]; [done|]. set (l := kv :: kws) in *.
  assert (HF : Forall (fun w => count "," w = 0%nat) (print_param <$> l)).
  { apply Forall_fmap, Forall_forall. intros [k kw] Hin. unfold ok_query in H. rewrite forallb_forall in H.
    apply list_elem_of_In, H in Hin. apply andb_true_iff in Hin as [Hk Hkw]. apply andb_true_iff in Hk as [Hk _].
    apply andb_true_iff in Hk as [_ Hk%Nat.eqb_eq]. cbn in Hk |- *. unfold print_param. rewrite count_app. cbn.
    by rewrite Hk, (proj1 (print_keyword_ok kw Hkw)). }
  rewrite Split_Join by done. by rewrite parse_print_params, (right_id_L ∅ (∪)) by done.
Qed.

Lemma print_query_nonempty kv kws : ok_query (kv :: kws) = true -> (print_query (kv :: kws) =s= "") = false.
Proof.
  intros [Hk _]%andb_true_iff. apply andb_true_iff in Hk as [Hk _]. unfold ok_key, text in Hk.
  rewrite !andb_true_iff, negb_true_iff in Hk. destruct Hk as [[Hk _] _]. destruct kv as [[|c k] kw]; [done|].
  unfold print_query. by destruct kws.
Qed.

Lemma escape_nonempty s : (s =s= "") = false -> (QueryEscape s =s= "") = false.
Proof. destruct s as [|c s]; [done|]. intros _. cbn [QueryEscape]. destruct (_ || _); [done|]. by destruct (Ascii.eqb c " "). Qed.

End Printing.

(** The parser unescapes what the server's framework has unescaped already: a
    client that escapes once loses its plus signs. *)
Fixpoint plus_to_space (s : string) : string :=
  match s with
  | EmptyString => EmptyString
  | String c s' => String (if Ascii.eqb c "+" then " "%char else c) (plus_to_space s')
  end.

Theorem unescape_twice s :
  count "%" s = 0%nat -> QueryUnescape s = Some (plus_to_space s).
Proof.
  induction s as [|c s IH]; [done|]. cbn. destruct (Ascii.eqb c "%"); [done|]. cbn. intros H. by rewrite IH.
Qed.

Lemma plus_to_space_none s : count "+" s = 0%nat -> plus_to_space s = s.
Proof. induction s as [|c s IH]; [done|]. cbn. destruct (Ascii.eqb c "+"); [done|]. intros H. by rewrite IH. Qed.


Definition sample_keywords : list (string * keyword) :=
  [("name", FuzzyMatchValue "c++"); ("size", Range (Some (VInt (-5))) None);
   ("kind", OrList [VString "a"; VTime (mkTime 2024 2 29 1 2 3 500)])].


(** The times of [swagger.yaml], with a space, are texts in ranges, and two words
    in lists. *)
Example documented_times :
  parsePattern "[2020-04-09 02:36:00~]" = Ok (Range (Some (VString "2020-04-09 02:36:00")) None)
  /\ parsePattern "{2020-04-09 02:36:00}" = Ok (OrList [VString "2020-04-09"; VString "02:36:00"]).
Proof. split; vm_compute; reflexivity. Qed.

(** ** Filters *)

Lemma setFilters_flat m kws : setFilters m kws = flat_map (fun kv => filter_calls m kv.1 kv.2) kws.
Proof.
  unfold setFilters.
  assert (H : forall acc, foldl (fun qs kv => qs ++ filter_calls m kv.1 kv.2) acc kws
                          = acc ++ flat_map (fun kv => filter_calls m kv.1 kv.2) kws).
  { induction kws as [|kv kws IH]; intros acc; simpl; [by rewrite app_nil_r|].
    by rewrite IH, <- (assoc_L (++)). }
  apply H.
Qed.

(** A name of the model by which its rows can be filtered. *)
Definition declared (model : Model) (name : string) : Prop :=
  (exists f, f ∈ fields model /\ f_orm f <> "-" /\ f_filter f <> "false"
             /\ (name = f_Name f \/ name = parseColumn f))
  \/ (exists meth, meth ∈ methods model /\ HasPrefix meth "FilterBy" = true
             /\ (name = TrimPrefix meth "FilterBy" \/ name = snakeCase (TrimPrefix meth "FilterBy"))).

(** Names that the loops over fields and methods have made filterable. *)
Definition keys_from (P : string -> Prop) (m : metadata) : Prop :=
  forall n k, Keys m !! n = Some k -> Filterable k = true -> P n.

Lemma add_field_keys P m f :
  keys_from P m -> (f_orm f <> "-" -> f_filter f <> "false" -> P (f_Name f) /\ P (parseColumn f)) ->
  keys_from P (add_field m f).
Proof.
  intros Hm Hf. unfold add_field. destruct (String.eqb_spec (f_orm f) "-") as [|Hne]; [done|].
  destruct (parseSortable f) as [d b]. intros n k. cbn [Keys].
  rewrite !lookup_insert_Some. intros [[<- <-]|(_ & [[<- <-]|(_ & Hk)])]; [| |by apply Hm];
    cbn [Filterable]; unfold parseFilterable; intros E%negb_true_iff%String.eqb_neq; by destruct Hf.
Qed.

Lemma add_method_keys P m name :
  keys_from P m ->
  (HasPrefix name "FilterBy" = true -> P (TrimPrefix name "FilterBy") /\ P (snakeCase (TrimPrefix name "FilterBy"))) ->
  keys_from P (add_method m name).
Proof.
  intros Hm Hf. unfold add_method. destruct (HasPrefix name "FilterBy"); [|done]. destruct (Hf eq_refl).
  intros n k. cbn [negb Keys]. rewrite !lookup_insert_Some. intros [[<- _]|(_ & [[<- _]|(_ & Hk)])]; [done|done|].
  by apply Hm.
Qed.

Lemma foldl_keys {A} (f : metadata -> A -> metadata) P l :
  (forall m a, a ∈ l -> keys_from P m -> keys_from P (f m a)) ->
  forall m, keys_from P m -> keys_from P (foldl f m l).
Proof.
  induction l as [|a l IH]; intros H m Hm; simpl; [done|]. apply IH; [|by apply H; [left|]].
  intros m' b Hb. apply H. by right.
Qed.

Lemma parseModel_keys model : keys_from (declared model) (parseModel model).
Proof.
  assert (H : keys_from (declared model) (foldl add_method (foldl add_field (mkMetadata ∅ []) (fields model)) (methods model))).
  { apply foldl_keys.
    - intros m a Ha Hm. apply add_method_keys; [done|]. intros Hp. split; right; exists a; eauto.
    - apply foldl_keys; [|by intros n k].
      intros m f Hf Hm. apply add_field_keys; [done|]. intros Ho Hfi. split; left; exists f; eauto. }
  unfold parseModel. by destruct (GetDefaultSorts model).
Qed.

Lemma filter_key_declared model field k :
  filter_key (parseModel model) field = Some k -> declared model field \/ declared model (snakeCase field).
Proof.
  unfold filter_key, meta_Filterable.
  destruct (Keys _ !! field) as [k1|] eqn:E1; [destruct (Filterable k1) eqn:F1|];
    [intros _; left; by eapply parseModel_keys| |];
    (destruct (Keys _ !! snakeCase field) as [k2|] eqn:E2; [|done]; destruct (Filterable k2) eqn:F2; [|done];
     intros _; right; by eapply parseModel_keys).
Qed.

(** The pieces of a key put together. *)
Lemma split_sep_join k : Join (split_sep k) "__" = k.
Proof.
  induction k as [k IH] using (induction_ltof1 _ String.length). unfold ltof in IH.
  destruct k as [|c k]; [done|].
  assert (Hcont : Join (match split_sep k with w :: ws => String c w :: ws | [] => [String c ""] end) "__" = String c k).
  { pose proof (IH k ltac:(simpl; lia)) as E. destruct (split_sep k) as [|w [|w' ws]]; simpl in E |- *; by rewrite <- E. }
  destruct k as [|d k]; [exact Hcont|].
  change (split_sep (String c (String d k))) with
    (if Ascii.eqb c "_" && Ascii.eqb d "_" then "" :: split_sep k
     else match split_sep (String d k) with w :: ws => String c w :: ws | [] => [String c ""] end).
  destruct (Ascii.eqb c "_" && Ascii.eqb d "_") eqn:E2; [|exact Hcont].
  apply andb_true_iff in E2 as [->%Ascii.eqb_eq ->%Ascii.eqb_eq].
  pose proof (IH k ltac:(simpl; lia)) as E.
  destruct (split_sep k) as [|w ws] eqn:Es; [by destruct k as [|? [|]]; simpl in Es; repeat case_match|].
  change (Join ("" :: w :: ws) "__") with ("__" ++ Join (w :: ws) "__")%string. by rewrite E.
Qed.

(** C37: a client filters only by the names that the model declares, with the
    operators that are allowed, so fields like the password, which the model
    excludes, are out of reach; and the order in which the loop meets the
    keywords does not matter. *)
Theorem filters_only_declared model kws :
  (forall c, c ∈ setFilters (parseModel model) kws ->
     exists k v field, (k, v) ∈ kws /\ c ∈ filter_calls (parseModel model) k v
       /\ (k = field \/ exists op, op ∈ allowedOperators /\ k = (field ++ "__" ++ op)%string)
       /\ (declared model field \/ declared model (snakeCase field)))
  /\ (forall kws', kws ≡ₚ kws' -> setFilters (parseModel model) kws ≡ₚ setFilters (parseModel model) kws').
Proof.
  split.
  - intros c. rewrite setFilters_flat. intros ([k v] & Hin & Hc)%list_elem_of_In%in_flat_map. cbn [fst snd] in Hc.
    exists k, v, (default "" (head (split_sep k))). apply list_elem_of_In in Hin. split; [done|].
    split; [by apply list_elem_of_In|]. unfold filter_calls in Hc. pose proof (split_sep_join k) as Hj.
    destruct (split_sep k) as [|f [|op [|]]]; cbn [length head default] in *; [| | |done].
    + destruct (filter_key _ _) eqn:E; [|done]. split; [by left|]. by eapply filter_key_declared.
    + destruct (filter_key _ _) eqn:E; [|done]. split; [by left|]. by eapply filter_key_declared.
    + destruct (filter_key _ _) eqn:E; [|done]. split; [|by eapply filter_key_declared].
      destruct (existsb _ _) eqn:Eo; [|done]. right. apply existsb_exists in Eo as (o & Ho & ->%String.eqb_eq).
      exists o. by rewrite list_elem_of_In.
  - intros kws' HP. rewrite !setFilters_flat. by rewrite HP.
Qed.

(** The columns of a user that matter here. *)
Definition user_model : Model := mkModel
  [mkField "UserID" "pk;auto;column(user_id)" "" ""; mkField "Username" "column(username)" "" "default";
   mkField "Password" "column(password)" "false" ""; mkField "PasswordVersion" "column(password_version)" "" ""] [] [].

Lemma filters_only_declared_witness :
  setFilters (parseModel user_model)
    [("PASSWORD", Exact (VString "x")); ("password__icontains", Exact (VString "x")); ("username", FuzzyMatchValue "50%")]
    = [FilterFuzzy "username__icontains" "50\%"]
  /\ setFilters (parseModel user_model)
    [("username", FuzzyMatchValue "50%"); ("password__icontains", Exact (VString "x")); ("PASSWORD", Exact (VString "x"))]
    ≡ₚ [FilterFuzzy "username__icontains" "50\%"].
Proof.
  assert (E : setFilters (parseModel user_model)
    [("PASSWORD", Exact (VString "x")); ("password__icontains", Exact (VString "x")); ("username", FuzzyMatchValue "50%")]
    = [FilterFuzzy "username__icontains" "50\%"]) by (vm_compute; reflexivity).
  split; [exact E|]. etransitivity; [|by rewrite <- E].
  apply (proj2 (filters_only_declared user_model _)). exact (Permutation_rev _).
Defined.

(** ** Fuzzy matches

    The ORM asks the database for [LIKE '%' + arg + '%'].  [like] is the
    database's operator with its default escape character, on texts that are
    folded to one case already. *)

Fixpoint any_suffix (p : string -> bool) (t : string) : bool :=
  p t || match t with String _ t' => any_suffix p t' | EmptyString => false end.

Definition next_char (p : ascii -> bool) (k : string -> bool) (t : string) : bool :=
  match t with String c t' => p c && k t' | EmptyString => false end.

Fixpoint like (pattern : string) : string -> bool :=
  match pattern with
  | EmptyString => fun t => t =s= ""
  | String c p =>
      if Ascii.eqb c "%" then any_suffix (like p)
      else if Ascii.eqb c "_" then next_char (fun _ => true) (like p)
      else if Ascii.eqb c "\" then
        match p with
        | String d p' => next_char (Ascii.eqb d) (like p')
        | EmptyString => fun _ => false
        end
      else next_char (Ascii.eqb c) (like p)
  end.

Lemma any_suffix_spec p t : any_suffix p t = true <-> exists a b, t = (a ++ b)%string /\ p b = true.
Proof.
  induction t as [|c t IH]; cbn [any_suffix].
  - rewrite orb_false_r. split; [by exists "", ""|]. intros ([|] & [|] & [=] & H). done.
  - rewrite orb_true_iff, IH. split.
    + intros [H|(a & b & -> & H)]; [by exists "", (String c t)|]. by exists (String c a), b.
    + intros ([|d a] & b & E & H); [left; by rewrite E|]. injection E as -> ->. right. eauto.
Qed.

Lemma any_suffix_end t : any_suffix (like "") t = true.
Proof. apply any_suffix_spec. exists t, "". by rewrite GoStrings.app_nil. Qed.

Definition escape_char (c : ascii) : string :=
  if Ascii.eqb c "\" || Ascii.eqb c "%" || Ascii.eqb c "_" then String "\" (String c "") else String c "".

Lemma Escape_cons c s : Escape (String c s) = (escape_char c ++ Escape s)%string.
Proof.
  unfold Escape, escape_char. cbn [replace_char].
  destruct (Ascii.eqb_spec c "\") as [->|]; [done|]. cbn [replace_char orb].
  destruct (Ascii.eqb_spec c "%") as [->|]; [done|]. cbn [replace_char orb].
  by destruct (Ascii.eqb_spec c "_") as [->|].
Qed.

(** An escaped text matches itself only. *)
Lemma like_escaped s rest t :
  like (Escape s ++ rest) t = true <-> exists u, t = (s ++ u)%string /\ like rest u = true.
Proof.
  revert t. induction s as [|c s IH]; intros t.
  { cbn. split; [by exists t|]. by intros (u & -> & H). }
  rewrite Escape_cons, GoStrings.app_assoc.
  assert (E : like (escape_char c ++ (Escape s ++ rest)) t = next_char (Ascii.eqb c) (like (Escape s ++ rest)) t).
  { unfold escape_char. destruct (Ascii.eqb c "\" || Ascii.eqb c "%" || Ascii.eqb c "_") eqn:E; [done|].
    rewrite !orb_false_iff in E. destruct E as [[E1 E2] E3]. change (String c "" ++ (Escape s ++ rest))%string with (String c (Escape s ++ rest)).
    cbn [like]. by rewrite E1, E2, E3. }
  rewrite E. destruct t as [|d t]; cbn [next_char].
  { split; [done|]. by intros (u & [=] & _). }
  rewrite andb_true_iff, IH, Ascii.eqb_eq. split.
  - intros (-> & u & -> & H). by exists u.
  - intros (u & [= -> ->] & H). split; [done|]. by exists u.
Qed.

(** A fuzzy match finds exactly the rows whose text contains the value:
    after [Escape] no character of it is a wild card. *)
Theorem fuzzy_match_contains s t :
  like ("%" ++ Escape s ++ "%") t = true <-> exists a b, t = (a ++ s ++ b)%string.
Proof.
  change (like ("%" ++ Escape s ++ "%") t) with (any_suffix (like (Escape s ++ "%")) t).
  rewrite any_suffix_spec. split.
  - intros (a & u & -> & (b & -> & _)%like_escaped). by exists a, b.
  - intros (a & b & ->). exists a, (s ++ b)%string. split; [done|]. apply like_escaped. exists b.
    split; [done|]. apply any_suffix_end.
Qed.
