(* ===== verification/Pages.v ===== *)
(** * Links between pages

    [BaseAPI.Links] of [src/server/v2.0/handler/base.go]: the links of a list
    request to its neighbouring pages, whose query is taken apart, written again
    and then unescaped as a whole; and what a client gets that follows them.  Of
    the URL only its raw query is modelled, with what [net/url] makes of it.  How
    the framework reads the two parameters of the page is a parameter. *)

From S2P Require Import Prelude Errors Query.
Import GoStrings.

(** ** Values of a query ([net/url]) *)

Abbreviation Values := (gmap string (list string)).

Definition add_value (v : Values) (kx : string * string) : Values := <[kx.1 := default [] (v !! kx.1) ++ [kx.2]]> v.

(** One part of the query; malformed ones are left out. *)
Definition part_value (part : string) : option (string * string) :=
  if negb (count ";" part =? 0)%nat || (part =s= "") then None
  else
    match SplitN2 part "=" with
    | k :: rest =>
        match QueryUnescape k, QueryUnescape (List.hd "" rest) with
        | Some key, Some value => Some (key, value)
        | _, _ => None
        end
    | [] => None
    end.

(** [url.ParseQuery], of which [URL.Query] drops the error. *)
Definition ParseQuery (raw : string) : Values := foldl add_value ∅ (omap part_value (Split raw "&")).

Definition Set_ (key value : string) (v : Values) : Values := <[key := [value]]> v.

Definition key_le (a b : string * list string) : Prop := String.leb a.1 b.1 = true.

#[global] Instance key_le_dec : RelDecision key_le.
Proof. intros a b. unfold key_le. apply _. Defined.

(** The pairs in the order of the keys. *)
Definition pairs_of (l : list (string * list string)) : list (string * string) :=
  flat_map (fun kv : string * list string => (fun x => (kv.1, x)) <$> kv.2) l.

Definition sorted_pairs (v : Values) : list (string * string) := pairs_of (merge_sort key_le (map_to_list v)).

Definition escaped (kx : string * string) : string := (QueryEscape kx.1 ++ "=" ++ QueryEscape kx.2)%string.

(** [Values.Encode]. *)
Definition Encode (v : Values) : string := Join (escaped <$> sorted_pairs v) "&".

(** ** Links *)

Record Link := mkLink { Rel : string; RawQuery : string }.

(** The raw query of a link; it cannot fail to be unescaped. *)
Definition link_query (raw : string) (page size : Z) : string :=
  let q := Set_ "page_size" (Strconv.format_int size) (Set_ "page" (Strconv.format_int page) (ParseQuery raw)) in
  let raw := Encode q in
  match QueryUnescape raw with Some escapedQuery => escapedQuery | None => raw end.

(** The link to the next page is made from the query of the link before, if there
    is one. *)
Definition Links (raw : string) (total pageNumber pageSize : Z) : list Link :=
  if pageSize =? 0 then []
  else
    let '(prev, raw) :=
      if (1 <? pageNumber) && (Int64.wrap (Int64.wrap (pageNumber - 1) * pageSize) <? total)
      then let r := link_query raw (Int64.wrap (pageNumber - 1)) pageSize in ([mkLink "prev" r], r)
      else ([], raw) in
    prev ++ (if Int64.wrap (pageSize * pageNumber) <? total
             then [mkLink "next" (link_query raw (Int64.wrap (pageNumber + 1)) pageSize)] else []).

(** ** Queries that survive *)

(** Characters that mean themselves in a query and in a URL. *)
Definition plain_char (c : ascii) : bool := negb (existsb (Ascii.eqb c) ["&"; ";"; "%"; "+"; "#"; " "]%char).

Definition plain_value (s : string) : bool := all_chars plain_char s.
Definition plain_key (s : string) : bool := all_chars (fun c => plain_char c && negb (Ascii.eqb c "=")) s.

Definition plain (v : Values) : Prop :=
  map_Forall (fun k xs => plain_key k = true /\ forallb plain_value xs = true) v.

Definition written (kx : string * string) : string := (kx.1 ++ "=" ++ kx.2)%string.

Lemma QueryEscape_cons c s : QueryEscape (String c s) = (QueryEscape (String c "") ++ QueryEscape s)%string.
Proof. cbn [QueryEscape]. destruct (_ || _); [done|]. by destruct (Ascii.eqb c " "). Qed.

Lemma QueryUnescape_char c u : QueryUnescape (QueryEscape (String c "") ++ u) = String c <$> QueryUnescape u.
Proof. destruct c as [[] [] [] [] [] [] [] []]; reflexivity. Qed.

Lemma QueryUnescape_app s t : QueryUnescape (QueryEscape s ++ t) = String.append s <$> QueryUnescape t.
Proof.
  induction s as [|c s IH]; [change (QueryUnescape t = String.append "" <$> QueryUnescape t); by destruct (QueryUnescape t)|].
  rewrite QueryEscape_cons, app_assoc, QueryUnescape_char, IH. by destruct (QueryUnescape t).
Qed.

Lemma QueryUnescape_pair kx r : QueryUnescape (escaped kx ++ r) = String.append (written kx) <$> QueryUnescape r.
Proof.
  destruct kx as [k x]. unfold escaped, written. cbn [fst snd]. rewrite app_assoc, QueryUnescape_app.
  change (("=" ++ QueryEscape x) ++ r)%string with (QueryEscape "" ++ String "=" (QueryEscape x ++ r))%string.
  change (QueryUnescape (QueryEscape "" ++ String "=" (QueryEscape x ++ r))) with (String "=" <$> QueryUnescape (QueryEscape x ++ r)).
  rewrite QueryUnescape_app. destruct (QueryUnescape r) as [u|]; [|done]. cbn [fmap option_fmap option_map]. f_equal.
  by rewrite app_assoc.
Qed.

(** Unescaping the whole gives the pairs as they are. *)
Lemma unescape_encoded l : QueryUnescape (Join (escaped <$> l) "&") = Some (Join (written <$> l) "&").
Proof.
  induction l as [|kx l IH]; [done|]. destruct l as [|kx' l].
  - cbn [fmap list_fmap Join]. rewrite <- (app_nil (escaped kx)), QueryUnescape_pair. cbn. by rewrite app_nil.
  - cbn [fmap list_fmap Join]. cbn [fmap list_fmap Join] in IH. rewrite QueryUnescape_pair.
    set (u := match _ with [] => _ | _ :: _ => _ end) in *.
    change (QueryUnescape ("&" ++ u)) with (String "&" <$> QueryUnescape u). by rewrite IH.
Qed.

Lemma QueryUnescape_plain s : plain_value s = true -> QueryUnescape s = Some s.
Proof.
  intros H. rewrite unescape_twice by (by apply (all_chars_count plain_char)).
  by rewrite plus_to_space_none by (by apply (all_chars_count plain_char)).
Qed.

Lemma plain_key_value k : plain_key k = true -> plain_value k = true.
Proof. apply all_chars_impl. by intros c [? _]%andb_true_iff. Qed.

Lemma written_chars kx p : p "="%char = true -> all_chars p kx.1 = true -> all_chars p kx.2 = true -> all_chars p (written kx) = true.
Proof. intros H1 H2 H3. unfold written. rewrite all_chars_app, H2. change (p "="%char && all_chars p kx.2 = true). by rewrite H1. Qed.

Lemma part_value_written kx : plain_key kx.1 = true -> plain_value kx.2 = true -> part_value (written kx) = Some kx.
Proof.
  intros K V. pose proof (plain_key_value _ K) as K'. unfold part_value.
  rewrite (all_chars_count plain_char ";" (written kx)) by (done || by apply written_chars).
  assert (N : (written kx =s= "") = false) by (unfold written; by destruct kx.1). rewrite N. cbn [negb orb Nat.eqb].
  unfold written. change ("=" ++ kx.2)%string with (String "=" kx.2). rewrite SplitN2_app.
  - cbn [List.hd]. rewrite !QueryUnescape_plain by done. by destruct kx.
  - apply (all_chars_count _ "=" kx.1) in K; [done|]. by rewrite andb_false_r.
Qed.

Definition plain_pair (kx : string * string) : Prop := plain_key kx.1 = true /\ plain_value kx.2 = true.

Lemma ParseQuery_pairs l : l <> [] -> Forall plain_pair l -> ParseQuery (Join (written <$> l) "&") = foldl add_value ∅ l.
Proof.
  intros N F. unfold ParseQuery. rewrite Split_Join.
  - f_equal. clear N. induction F as [|kx l [K V] _ IH]; [done|]. cbn. by rewrite part_value_written, IH.
  - by destruct l.
  - apply Forall_fmap. eapply Forall_impl; [exact F|]. intros kx [K V]. cbn.
    apply (all_chars_count plain_char); [done|]. apply written_chars; [done|by apply plain_key_value|done].
Qed.

(** ** What the pairs say of a key *)

Definition values_of (k : string) (l : list (string * string)) : list string :=
  omap (fun kx => if kx.1 =s= k then Some kx.2 else None) l.

Lemma foldl_add_value l : forall v k,
  foldl add_value v l !! k = match values_of k l with [] => v !! k | xs => Some (default [] (v !! k) ++ xs) end.
Proof.
  induction l as [|[j x] l IH]; intros v k; [done|]. cbn [foldl values_of omap list_omap fst snd].
  rewrite IH. unfold add_value. cbn [fst snd]. destruct (String.eqb_spec j k) as [->|N].
  - rewrite lookup_insert_eq. fold (values_of k l). destruct (values_of k l); cbn [default]; [done|]. f_equal.
    symmetry. exact (assoc_L (++) (default [] (v !! k)) [x] _).
  - by rewrite lookup_insert_ne.
Qed.

Lemma ParseQuery_nonempty raw k xs : ParseQuery raw !! k = Some xs -> xs <> [].
Proof. unfold ParseQuery. rewrite foldl_add_value, lookup_empty. destruct (values_of k _); [done|]. by intros [= <-]. Qed.

Lemma values_of_app k l l' : values_of k (l ++ l') = values_of k l ++ values_of k l'.
Proof. apply omap_app. Qed.

Lemma values_of_own j k xs : values_of k ((fun x => (j, x)) <$> xs) = if j =s= k then xs else [].
Proof. induction xs as [|x xs IH]; [by destruct (j =s= k)|]. cbn. unfold values_of in IH. rewrite IH. by destruct (j =s= k). Qed.

Lemma values_of_pairs k l : NoDup l.*1 -> values_of k (pairs_of l) = default [] ((list_to_map l : Values) !! k).
Proof.
  induction l as [|[j xs] l IH]; [done|]. cbn [fmap list_fmap fst]. intros [N D]%NoDup_cons.
  change (pairs_of ((j, xs) :: l)) with (((fun x => (j, x)) <$> xs) ++ pairs_of l).
  rewrite values_of_app, values_of_own, IH by done. cbn [list_to_map foldr fst snd].
  change (foldr _ ∅ l) with (list_to_map l : Values). destruct (String.eqb_spec j k) as [->|Nk].
  - rewrite lookup_insert_eq. apply not_elem_of_list_to_map_1 in N. rewrite N. apply app_nil_r.
  - by rewrite lookup_insert_ne.
Qed.

Lemma values_of_sorted k v : values_of k (sorted_pairs v) = default [] (v !! k).
Proof.
  assert (P : merge_sort key_le (map_to_list v) ≡ₚ map_to_list v) by apply merge_sort_Permutation.
  unfold sorted_pairs. rewrite values_of_pairs by (rewrite P; apply NoDup_fst_map_to_list).
  rewrite (list_to_map_proper _ (map_to_list v)); [by rewrite list_to_map_to_list|rewrite P; apply NoDup_fst_map_to_list|done].
Qed.

Lemma sorted_pairs_add v : (forall k xs, v !! k = Some xs -> xs <> []) -> foldl add_value ∅ (sorted_pairs v) = v.
Proof.
  intros N. apply map_eq. intros k. rewrite foldl_add_value, values_of_sorted, lookup_empty.
  destruct (v !! k) as [xs|] eqn:L; [|done]. cbn [default]. specialize (N k xs L). by destruct xs.
Qed.

Lemma sorted_pairs_plain v : plain v -> Forall plain_pair (sorted_pairs v).
Proof.
  intros P. apply Forall_forall. intros [k x] H. unfold sorted_pairs, pairs_of in H.
  apply list_elem_of_In, in_flat_map in H as ([j xs] & Hj & Hx). apply list_elem_of_In in Hj, Hx.
  rewrite merge_sort_Permutation in Hj. apply elem_of_map_to_list in Hj.
  apply list_elem_of_fmap in Hx as (y & [= -> ->] & Hy). destruct (P j xs Hj) as [K V]. split; [done|].
  cbn. rewrite forallb_forall in V. by apply V, list_elem_of_In.
Qed.

(** A plain query is written and read again unchanged. *)
Lemma encode_parse v : plain v -> (forall k xs, v !! k = Some xs -> xs <> []) -> v <> ∅ -> ParseQuery (match QueryUnescape (Encode v) with Some e => e | None => Encode v end) = v.
Proof.
  intros P X N. unfold Encode. rewrite unescape_encoded.
  assert (E : foldl add_value ∅ (sorted_pairs v) = v) by (by apply sorted_pairs_add).
  rewrite ParseQuery_pairs; [exact E| |by apply sorted_pairs_plain]. intros Z. by rewrite Z in E.
Qed.

Lemma format_int_plain n : plain_value (Strconv.format_int n) = true.
Proof.
  apply all_chars_format_int; [|done]. intros d H.
  assert (E : d = 0 \/ d = 1 \/ d = 2 \/ d = 3 \/ d = 4 \/ d = 5 \/ d = 6 \/ d = 7 \/ d = 8 \/ d = 9) by lia.
  by destruct E as [->|[->|[->|[->|[->|[->|[->|[->|[->| ->]]]]]]]]].
Qed.

Definition with_page (v : Values) (page size : Z) : Values :=
  Set_ "page_size" (Strconv.format_int size) (Set_ "page" (Strconv.format_int page) v).

Lemma plain_with_page v page size : plain v -> plain (with_page v page size).
Proof.
  intros P. unfold with_page, Set_.
  assert (N : forall n, forallb plain_value [Strconv.format_int n] = true) by (intros n; cbn; by rewrite format_int_plain).
  repeat apply map_Forall_insert_2; try exact P; by rewrite N.
Qed.

Lemma parse_link raw page size : plain (ParseQuery raw) ->
  ParseQuery (link_query raw page size) = with_page (ParseQuery raw) page size.
Proof.
  intros P. apply encode_parse; [by apply plain_with_page| |].
  { intros k xs. unfold with_page, Set_. intros [[_ <-]|[_ [[_ <-]|[_ L]]%lookup_insert_Some]]%lookup_insert_Some; [done..|].
    by apply ParseQuery_nonempty in L. }
  intros E.
  apply (f_equal (lookup "page_size")) in E. unfold with_page, Set_ in E. by rewrite lookup_insert_eq in E.
Qed.

Lemma with_page_twice v p0 p size : with_page (with_page v p0 size) p size = with_page v p size.
Proof.
  unfold with_page, Set_. apply map_eq. intros k. destruct (decide (k = "page_size"%string)) as [->|N]; [by rewrite !lookup_insert_eq|].
  rewrite (lookup_insert_ne _ "page_size" k), (lookup_insert_ne (<["page":=_]> v) "page_size" k) by done.
  destruct (decide (k = "page"%string)) as [->|M]; [by rewrite !lookup_insert_eq|]. by rewrite !lookup_insert_ne.
Qed.

(** ** Following the links *)

(** The parameters of a query but those of the page. *)
Definition others (v : Values) : Values := delete "page" (delete "page_size" v).

Lemma others_with_page v page size : others (with_page v page size) = others v.
Proof.
  unfold others, with_page, Set_. apply map_eq. intros k.
  destruct (decide (k = "page"%string)) as [->|N]; [by rewrite !lookup_delete_eq|].
  rewrite !(lookup_delete_ne _ "page" k) by done.
  destruct (decide (k = "page_size"%string)) as [->|M]; [by rewrite !lookup_delete_eq|].
  by rewrite !(lookup_delete_ne _ "page_size" k), !lookup_insert_ne by done.
Qed.

Definition next_link (raw : string) (total pageNumber pageSize : Z) : option string :=
  RawQuery <$> head (List.filter (fun l => Rel l =s= "next") (Links raw total pageNumber pageSize)).

Section Walk.

(** The rows that the parameters select, and what the framework reads as the page
    and its size. *)
Context {A : Type} (rows : Values -> list A) (page_of size_of : Values -> Z).

(** The rows that the calls for a page give; the database refuses a negative
    offset. *)
Definition fetch (q : Query) (rows : list A) : option (list A) :=
  match pagination q with
  | [Limit n] => Some (take (Z.to_nat n) rows)
  | [Limit n; Offset o] => if o <? 0 then None else Some (take (Z.to_nat n) (skipn (Z.to_nat o) rows))
  | _ => Some rows
  end.

(** The answer to a request, and its link to the next page. *)
Definition answer (raw : string) : option (list A) * option string :=
  let v := ParseQuery raw in
  let all := rows (others v) in
  (fetch (mkQuery ∅ [] (page_of v) (size_of v)) all, next_link raw (Z.of_nat (length all)) (page_of v) (size_of v)).

(** A client that follows the links to the next page. *)
Fixpoint walk (fuel : nat) (raw : string) : option (list A) :=
  match fuel with
  | O => None
  | S fuel =>
      match answer raw with
      | (None, _) => None
      | (Some l, None) => Some l
      | (Some l, Some next) => k ← walk fuel next; Some (l ++ k)
      end
  end.

Lemma fetch_page all n ps :
  0 < ps -> 0 < n -> ps * n <= Int64.max ->
  fetch (mkQuery ∅ [] n ps) all = Some (take (Z.to_nat ps) (skipn (Z.to_nat (ps * (n - 1))) all)).
Proof.
  intros Hps Hn Hm. unfold fetch, pagination. cbn [PageSize PageNumber].
  destruct (Z.ltb_spec 0 ps); [|lia]. destruct (Z.ltb_spec 0 n); [|lia].
  unfold Int64.max in Hm. rewrite (Int64.wrap_id (n - 1)) by (unfold Int64.in_range, Int64.min, Int64.max; nia).
  rewrite Int64.wrap_id by (unfold Int64.in_range, Int64.min, Int64.max; nia).
  destruct (Z.ltb_spec (ps * (n - 1)) 0); [nia|done].
Qed.

(** The link to the next page asks for that page of the same query. *)
Lemma next_link_spec raw total n ps :
  plain (ParseQuery raw) -> 0 < ps -> 0 < n -> 0 <= total <= Int64.max -> ps * n <= Int64.max ->
  if ps * n <? total
  then exists raw', next_link raw total n ps = Some raw' /\ ParseQuery raw' = with_page (ParseQuery raw) (n + 1) ps
  else next_link raw total n ps = None.
Proof.
  intros P Hps Hn Ht Hm. unfold next_link, Links. unfold Int64.max in Hm, Ht.
  destruct (Z.eqb_spec ps 0); [lia|]. rewrite (Int64.wrap_id (ps * n)) by (unfold Int64.in_range, Int64.min, Int64.max; nia).
  destruct (_ && _), (Z.ltb_spec (ps * n) total); cbn; try done; eexists; (split; [done|]);
    rewrite (Int64.wrap_id (n + 1)) by (unfold Int64.in_range, Int64.min, Int64.max; nia).
  - rewrite parse_link, parse_link by (try rewrite parse_link by done; try apply plain_with_page; done). apply with_page_twice.
  - by apply parse_link.
Qed.

Context (ps : Z) (reads_page : forall v n, 0 < n <= Int64.max -> v !! "page"%string = Some [Strconv.format_int n] -> page_of v = n).
Context (reads_size : forall v, v !! "page_size"%string = Some [Strconv.format_int ps] -> size_of v = ps).

Lemma walk_from fuel : forall raw n, let v := ParseQuery raw in let all := rows (others v) in
  plain v -> page_of v = n -> size_of v = ps ->
  0 < ps -> 0 < n -> Z.of_nat (length all) + ps <= Int64.max -> ps * n <= Z.of_nat (length all) + ps ->
  (length all - Z.to_nat (ps * (n - 1)) < fuel)%nat ->
  walk fuel raw = Some (skipn (Z.to_nat (ps * (n - 1))) all).
Proof.
  induction fuel as [|fuel IH]; intros raw n v all P Pg Sz Hps Hn Hm Hr Hf; [lia|]. cbn [walk]. unfold answer.
  fold v. fold all. rewrite Pg, Sz, fetch_page by lia.
  pose proof (next_link_spec raw (Z.of_nat (length all)) n ps P Hps Hn ltac:(lia) ltac:(lia)) as N.
  destruct (Z.ltb_spec (ps * n) (Z.of_nat (length all))) as [Hlt|Hge].
  - destruct N as (raw' & -> & E). fold v in E.
    assert (O : rows (others (ParseQuery raw')) = all) by (by rewrite E, others_with_page).
    rewrite (IH raw' (n + 1)); rewrite ?O.
    + cbn [mbind option_bind]. f_equal.
      replace (Z.to_nat (ps * (n + 1 - 1))) with (Z.to_nat (ps * (n - 1)) + Z.to_nat ps)%nat by nia.
      rewrite <- drop_drop. apply take_drop.
    + rewrite E. by apply plain_with_page.
    + apply reads_page; [nia|]. rewrite E. unfold with_page, Set_. by rewrite lookup_insert_ne, lookup_insert_eq.
    + apply reads_size. rewrite E. unfold with_page, Set_. by rewrite lookup_insert_eq.
    + done.
    + lia.
    + done.
    + nia.
    + nia.
  - rewrite N. f_equal. apply take_ge. rewrite length_drop. nia.
Qed.

End Walk.

(** C40: A client that starts at the first page and follows the links to the next
    page, as they are, gets every row of its query once and in order.  This needs a
    positive size of the pages, numbers within 64 bits, a framework that reads the
    two parameters of a link as they were written, and a query whose keys and values
    hold none of the characters that have a meaning there (&, ;, %, +, # and the
    space, and = in keys): others do not survive the rewriting of the links.  A
    negative size is accepted: every page holds all the rows, and links to a next
    one. *)
Theorem pages_complete {A} (rows : Values -> list A) page_of size_of raw ps :
  let all := rows (others (ParseQuery raw)) in
  (forall v n, 0 < n <= Int64.max -> v !! "page"%string = Some [Strconv.format_int n] -> page_of v = n) ->
  (forall v, v !! "page_size"%string = Some [Strconv.format_int ps] -> size_of v = ps) ->
  size_of (ParseQuery raw) = ps ->
  (plain (ParseQuery raw) -> page_of (ParseQuery raw) = 1 -> 0 < ps -> Z.of_nat (length all) + ps <= Int64.max ->
   walk rows page_of size_of (S (length all)) raw = Some all)
  /\ (forall n, page_of (ParseQuery raw) = n -> ps < 0 < n -> Int64.min <= ps * n ->
      exists next, answer rows page_of size_of raw = (Some all, Some next)).
Proof.
  intros all Rp Rs Sz. split.
  - intros P Pg Hps Hm. rewrite (walk_from rows page_of size_of ps Rp Rs _ raw 1) by (done || fold all; lia).
    replace (ps * (1 - 1)) with 0 by lia. done.
  - intros n Pg Hps Hm. unfold answer. fold all. rewrite Pg, Sz. unfold fetch, pagination. cbn [PageSize PageNumber].
    destruct (Z.ltb_spec 0 ps); [lia|]. unfold next_link, Links. destruct (Z.eqb_spec ps 0); [lia|].
    rewrite (Int64.wrap_id (ps * n)) by (unfold Int64.in_range, Int64.min, Int64.max in *; nia).
    destruct (Z.ltb_spec (ps * n) (Z.of_nat (length all))); [|nia]. destruct (_ && _); cbn; by eexists.
Qed.

(** A framework: the last value of a parameter, or its default. *)
Definition read_number (key : string) (default_ : Z) (v : Values) : Z :=
  match v !! key with
  | Some xs => match Strconv.parse_int (List.last xs "") with Some n => n | None => default_ end
  | None => default_
  end.

Lemma read_number_written key d n (v : Values) :
  Int64.in_range n -> v !! key = Some [Strconv.format_int n] -> read_number key d v = n.
Proof. intros R L. unfold read_number. rewrite L. cbn [List.last]. by rewrite Strconv.parse_format_int. Qed.

Definition sample_rows (v : Values) : list Z :=
  if decide (v !! "q"%string = Some ["k=~a"%string]) then [1; 2; 3; 4; 5] else [6].

Lemma pages_complete_witness :
  walk sample_rows (read_number "page" 1) (read_number "page_size" 10) 6 "q=k%3D~a&page_size=2" = Some [1; 2; 3; 4; 5].
Proof.
  refine (proj1 (pages_complete sample_rows (read_number "page" 1) (read_number "page_size" 10) "q=k%3D~a&page_size=2" 2 _ _ _) _ _ _ _).
  - intros v n H. apply read_number_written. unfold Int64.in_range, Int64.min. lia.
  - intros v. by apply read_number_written.
  - reflexivity.
  - apply (bool_decide_unpack _). vm_compute. exact I.
  - reflexivity.
  - lia.
  - vm_compute. discriminate.
Defined.

(** ** What the links do to other queries *)

(** An escaped & of the query ends it in the link, which then asks for other
    rows. *)
Example links_change_query :
  let raw := "q=k=~a%26b&page_size=2"%string in
  ParseQuery raw !! "q"%string = Some ["k=~a&b"%string]
  /\ next_link raw 5 1 2 = Some "page=2&page_size=2&q=k=~a&b"%string
  /\ (next_link raw 5 1 2 ≫= fun next => ParseQuery next !! "q"%string) = Some ["k=~a"%string].
Proof. split; [|split]; vm_compute; reflexivity. Qed.

(** The link to the next page is made from the one to the page before, so that a
    query that was escaped twice is unescaped twice. *)
Example next_link_unescaped_twice :
  let raw := "q=k=~a%2526b&page=2&page_size=2"%string in
  ParseQuery raw !! "q"%string = Some ["k=~a%26b"%string]
  /\ Links raw 5 2 2 = [mkLink "prev" "page=1&page_size=2&q=k=~a%26b"; mkLink "next" "page=3&page_size=2&q=k=~a&b"].
Proof. split; vm_compute; reflexivity. Qed.

(** The offset of a page wraps around. *)
Example offset_wraps {A} (rows : list A) : fetch (mkQuery ∅ [] (2 ^ 58 + 1) 64) rows = fetch (mkQuery ∅ [] 1 64) rows.
Proof. reflexivity. Qed.
