(* ===== verification/Token.v ===== *)
(** * Registry tokens

    How a client of the registry API is authorized: the middleware of
    [src/server/middleware/v2auth] refuses a request with a challenge that
    names the scope it needs; the token service of [src/core/service/token]
    gives a token for the scopes with the rights of the user; the security
    context that [src/server/middleware/security/v2_token.go] and
    [src/common/security/v2token] make of the token is what the middleware asks
    next time.

    Signing and checking of tokens is a third-party library, a parameter; so is
    the URL of the token service in the challenge.  The contexts of the users
    are behind the class [Consistent], of which [Rbac]'s local users are an
    instance. *)

From S2P Require Import Prelude Errors Rbac.
Import GoStrings.

(** ** Security contexts *)

(** [security.Context]; asking it for a permission can change its state, as the
    evaluators cache what they build. *)
Record Context_ (St : Type) := mkContext {
  GetUsername : string;
  IsAuthenticated : bool;
  c_IsSysAdmin : bool;
  Can : string -> string -> St -> bool * St;
}.
Arguments mkContext {St}.
Arguments GetUsername {St}.
Arguments IsAuthenticated {St}.
Arguments c_IsSysAdmin {St}.
Arguments Can {St}.

(** A context whose answers do not depend on the questions before: in the
    states of [inv] it allows what [allowed] says. *)
Class Consistent {St} (c : Context_ St) (inv : St -> Prop) (allowed : string -> string -> bool) := {
  Can_allowed : forall action resource s, inv s -> (Can c action resource s).1 = allowed action resource;
  Can_inv : forall action resource s, inv s -> inv (Can c action resource s).2;
}.

(** ** Projects *)

(** What the project controller gives: projects by name and by identifier. *)
Record ProjectRow := mkProjectRow { P_ID : Z; P_Name : string; P_CreationTime : Z }.

Record Projects := mkProjects {
  by_name : string -> result ProjectRow;
  by_id : Z -> result ProjectRow;
}.

Definition GetByName (ps : Projects) (name : string) : result ProjectRow :=
  if name =s= "" then Err (WithMessage (BadRequestError None) "project name required") else by_name ps name.

(** The rows are unique by name and by identifier, both ways of reading give
    the same rows, and no project has an empty name. *)
Class UniqueProjects (ps : Projects) := {
  no_empty_name : forall p, by_name ps "" <> Ok p;
  by_name_row : forall n p, by_name ps n = Ok p -> P_Name p = n /\ by_id ps (P_ID p) = Ok p;
  by_id_row : forall i p, by_id ps i = Ok p -> P_ID p = i /\ Int64.in_range i /\ by_name ps (P_Name p) = Ok p;
}.

(** ** Scopes *)

Record ResourceActions := mkResourceActions { Type_ : string; ra_Name : string; Actions : list string }.

(** [parseScopes]: the values of the [scope] parameters of the URL. *)
Definition parseScopes (values : list string) : list string := flat_map (fun v => Split v " ") values.

(** The items of one scope; [removelast] and [last] are the slice of all but
    the last item and the last item. *)
Definition scope_actions (s : string) : ResourceActions :=
  match Split s ":" with
  | [] => mkResourceActions "" "" []
  | [t] => mkResourceActions t "" []
  | [t; n] => mkResourceActions t n []
  | t :: items =>
      let actions := List.last items "" in
      mkResourceActions t (Join (removelast items) ":") (if actions =s= "" then [] else Split actions ",")
  end.

Definition GetResourceActions (scopes : list string) : list ResourceActions :=
  scope_actions <$> List.filter (fun s => negb (s =s= "")) scopes.

(** ** Filters of the token service *)

Definition actionScopeMap : list (string * string) :=
  [(ActionPull, "pull"); (ActionPush, "push"); (ActionDelete, "delete"); (ActionScannerPull, "scanner-pull")].

Record image := mkImage { namespace_ : string; repo : string; tag : string }.

Definition parseImg (s : string) : result image :=
  match SplitN2 s "/" with
  | ns :: r :: _ =>
      match SplitN2 r ":" with
      | n :: t :: _ => Ok (mkImage ns n t)
      | [n] => Ok (mkImage ns n "")
      | [] => Err (Panic "index out of range")
      end
  | _ => Err (Plain ("unable to parse image from string: " ++ s))
  end.

Section Service.
Context {St : Type} (ps : Projects) (c : Context_ St).

(** The loop over the map of actions, in the order of the list. *)
Fixpoint resourceScopes (order : list (string * string)) (resource : string) (s : St) : list string * St :=
  match order with
  | [] => ([], s)
  | (a, scope) :: order =>
      let (ok, s1) := Can c a resource s in
      let (rest, s2) := resourceScopes order resource s1 in
      ((if ok then [scope] else []) ++ rest, s2)
  end.

Definition with_actions (a : ResourceActions) (l : list string) : ResourceActions :=
  mkResourceActions (Type_ a) (ra_Name a) l.

Definition registryFilter (a : ResourceActions) : result ResourceActions :=
  if negb (ra_Name a =s= "catalog") then Err (Plain ("unable to handle, type: " ++ Type_ a ++ ", name: " ++ ra_Name a))
  else if negb (c_IsSysAdmin c) then Ok (with_actions a []) else Ok a.

Definition repositoryFilter (order : list (string * string)) (a : ResourceActions) (s : St)
    : result ResourceActions * St :=
  match parseImg (ra_Name a) with
  | Err e => (Err e, s)
  | Ok img =>
      match GetByName ps (namespace_ img) with
      | Err e => if IsNotFoundErr e then (Ok (with_actions a []), s) else (Err e, s)
      | Ok p =>
          let (l, s') := resourceScopes order (project_Resource (P_ID p) [ResourceRepository]) s in
          (Ok (with_actions a l), s')
      end
  end.

(** [filterAccess]: the filter of the scope's type; without one, or when it
    fails, the scope gives nothing. *)
Fixpoint filterAccess (order : list (string * string)) (access : list ResourceActions) (s : St)
    : list ResourceActions * St :=
  match access with
  | [] => ([], s)
  | a :: access =>
      let (r, s1) :=
        if Type_ a =s= "repository" then repositoryFilter order a s
        else if Type_ a =s= "registry" then (registryFilter a, s)
        else (Ok (with_actions a []), s) in
      let a' := match r with Ok a' => a' | Err _ => with_actions a [] end in
      let (rest, s2) := filterAccess order access s1 in
      (a' :: rest, s2)
  end.

End Service.

(** ** Tokens *)

Record Claims := mkClaims {
  Subject : string;
  Audience : list string;
  ExpiresAt : Z;
  NotBefore : Z;
  IssuedAt : option Z;
  c_Access : list ResourceActions;
}.

Definition Registry : string := "harbor-registry".

Definition MakeToken (now expiration : Z) (username service : string) (access : list ResourceActions) : Claims :=
  mkClaims username [service] (now + expiration * 60) now (Some now) access.

(** [generalCreator.Create]; [ctx] is the security context of the request, if
    there is one. *)
Definition Create {St} (ps : Projects) (ctx : option (Context_ St)) (order : list (string * string))
    (now expiration : Z) (values : list string) (s : St) : result Claims * St :=
  let scopes := parseScopes values in
  match ctx with
  | None => (Err (Plain "failed to  get security context from request"), s)
  | Some c =>
      if negb (IsAuthenticated c) && bool_decide (scopes = []) then (Err (Plain "Unauthorized"), s)
      else
        let (access, s') := filterAccess ps c order (GetResourceActions scopes) s in
        (Ok (MakeToken now expiration (GetUsername c) Registry access), s')
  end.

(** ** The context of a token *)

Definition token_action (a : string) : list string :=
  if a =s= "pull" then [ActionPull]
  else if a =s= "push" then [ActionPush]
  else if a =s= "delete" then [ActionDelete]
  else if a =s= "scanner-pull" then [ActionScannerPull]
  else if a =s= "*" then [ActionPull; ActionPush; ActionDelete]
  else [].

(** The access map of [v2token.New]: the last scope of a project counts. *)
Definition add_access (m : gmap string (list string)) (ac : ResourceActions) : gmap string (list string) :=
  if negb (Type_ ac =s= "repository") then m
  else
    match Split (ra_Name ac) "/" with
    | [] => m
    | project :: _ => <[project := flat_map token_action (Actions ac)]> m
    end.

Definition accessMap (access : list ResourceActions) : gmap string (list string) := foldl add_access ∅ access.

Definition HasSuffix (s suffix : string) : bool :=
  let n := (String.length s - String.length suffix)%nat in
  (String.length suffix <=? String.length s)%nat && (drop n s =s= suffix).

Definition token_Can (ps : Projects) (m : gmap string (list string)) (action resource : string) : bool :=
  if negb (HasSuffix resource ResourceRepository) then false
  else
    match project_NamespaceParse resource with
    | Some (NSProject pid) =>
        match by_id ps pid with
        | Ok p => match m !! P_Name p with
                  | Some actions => existsb (String.eqb action) actions
                  | None => false
                  end
        | Err _ => false
        end
    | _ => false
    end.

Definition v2token_New (ps : Projects) (name : string) (access : list ResourceActions) : Context_ unit :=
  mkContext name (negb (name =s= "")) false
    (fun action resource s => (token_Can ps (accessMap access) action resource, s)).

(** ** Requests *)

(** [lib.ArtifactInfo], the part that is read here. *)
Record ArtifactInfo := mkArtifactInfo {
  Repository : string;
  ProjectName : string;
  BlobMountRepository : string;
  BlobMountProjectName : string;
}.

(** A request: its method and path, the artifact that its URL names, and
    whether it has an [Authorization] header. *)
Record Request := mkRequest {
  Method : string;
  Path : string;
  info : option ArtifactInfo;
  hasAuth : bool;
}.

(** The artifact information that the middleware [artifactinfo] puts into the
    context, for the repository of the path and the one of the [from]
    parameter of a mount. *)
Definition projectNameFromRepo (repo : string) : result string :=
  match SplitN2 repo "/" with
  | a :: _ :: _ => Ok a
  | _ => Err (Plain ("invalid repository name: " ++ repo))
  end.

Definition artifact_info (repo : string) (from : option string) : result ArtifactInfo :=
  match projectNameFromRepo repo with
  | Err e => Err (BadRequestError (Some e))
  | Ok pn =>
      match from with
      | None => Ok (mkArtifactInfo repo pn "" "")
      | Some bmr =>
          match projectNameFromRepo bmr with
          | Err e => Err (BadRequestError (Some e))
          | Ok bmp => Ok (mkArtifactInfo repo pn bmr bmp)
          end
      end
  end.

Inductive target := login | catalog | repository.

#[global] Instance target_eq_dec : EqDecision target.
Proof. solve_decision. Defined.

Record access := mkAccess { a_target : target; a_name : string; a_action : string }.

Definition scopeStr (a : access) : string :=
  if negb (bool_decide (a_target a = repository)) then ""
  else
    let act := if a_action a =s= ActionPull then "pull"
               else if a_action a =s= ActionPush then "pull,push"
               else if a_action a =s= ActionDelete then "delete" else "" in
    if act =s= "" then "" else ("repository:" ++ a_name a ++ ":" ++ act)%string.

Definition getAction (method : string) : string :=
  if (method =s= "POST") || (method =s= "PATCH") || (method =s= "PUT") then ActionPush
  else if (method =s= "GET") || (method =s= "HEAD") then ActionPull
  else if method =s= "DELETE" then ActionDelete
  else "".

(** [V2CatalogURLRe]: the path of the catalog, alone or followed by a slash and
    any text without a newline. *)
Definition is_catalog (path : string) : bool :=
  (path =s= "/v2/_catalog")
  || (HasPrefix path "/v2/_catalog/" && (count newline path =? 0)%nat).

Definition accessList (req : Request) : list access :=
  if Path req =s= "/v2/" then [mkAccess login "" ""]
  else if is_catalog (Path req) then [mkAccess catalog "" ""]
  else
    match info req with
    | None => []
    | Some a =>
        let action := getAction (Method req) in
        if action =s= "" then []
        else
          mkAccess repository (Repository a) action
          :: (if (Method req =s= "POST") && negb (BlobMountRepository a =s= "")
              then [mkAccess repository (BlobMountRepository a) ActionPull] else [])
    end.

(** The scope of the challenge. *)
Definition challenge_scope (l : list access) : string :=
  foldl (fun scope a => ((if scope =s= "" then scope else scope ++ " ") ++ scopeStr a)%string) "" l.

(** A challenge: basic authentication, or a bearer token with a scope. *)
Inductive challenge := Basic | Bearer (scope : string) | NoChallenge.

Definition getChallenge (req : Request) (l : list access) : challenge :=
  if hasAuth req || is_catalog (Path req) then Basic else Bearer (challenge_scope l).

(** [reqChecker.check]: an error with its challenge, or nothing. *)
Inductive outcome := Pass | Refuse (ch : challenge) (e : error).

Section Check.
Context {St : Type} (ps : Projects) (c : Context_ St) (req : Request) (al : list access).

Definition check_repository (a : access) (s : St) : outcome * St :=
  if negb (hasAuth req) && ((Method req =s= "HEAD") || (Method req =s= "GET"))
  then (Refuse (getChallenge req al) (Plain "authorize header needed to send HEAD to repository"), s)
  else
    match by_name ps (default "" (head (Split (a_name a) "/"))) with
    | Err e => (Refuse NoChallenge e, s)
    | Ok p =>
        let (ok, s') := Can c (a_action a) (project_Resource (P_ID p) [ResourceRepository]) s in
        (if ok then Pass
         else Refuse (getChallenge req al)
                (Plain ("unauthorized to access repository: " ++ a_name a ++ ", action: " ++ a_action a)), s')
    end.

Definition check_access (a : access) (s : St) : outcome * St :=
  match a_target a with
  | login => (if negb (IsAuthenticated c) then Refuse (getChallenge req al) (Plain "unauthorized") else Pass, s)
  | catalog =>
      let (ok, s') := Can c ActionRead (system_Resource [ResourceCatalog]) s in
      (if ok then Pass else Refuse (getChallenge req al) (Plain "unauthorized to list catalog"), s')
  | repository => check_repository a s
  end.

Fixpoint check_all (l : list access) (s : St) : outcome * St :=
  match l with
  | [] => (Pass, s)
  | a :: l =>
      match check_access a s with
      | (Pass, s') => check_all l s'
      | r => r
      end
  end.
End Check.

Definition check {St} (ps : Projects) (ctx : option (Context_ St)) (req : Request) (s : St) : outcome * St :=
  match ctx with
  | None => (Refuse NoChallenge (Plain "the security context got from request is nil"), s)
  | Some c =>
      match accessList req with
      | [] => (Refuse NoChallenge (Plain "un-recognized request"), s)
      | al => check_all ps c req al al s
      end
  end.

(** ** Contexts from bearer tokens *)

Definition JwtLeeway : Z := 60.

(** The projects that a request is authorized against. *)
Definition checked_projects (i : ArtifactInfo) : list string :=
  List.filter (fun n => negb (n =s= ""))
    (ProjectName i :: (if negb (BlobMountProjectName i =s= "") && negb (BlobMountProjectName i =s= ProjectName i)
                       then [BlobMountProjectName i] else [])).

(** Without an artifact in the context its information is empty. *)
Definition tokenIssuedAfterProjectCreation (ps : Projects) (i : option ArtifactInfo) (claims : Claims) : bool :=
  match IssuedAt claims with
  | None => false
  | Some iat =>
      forallb (fun n => match GetByName ps n with
                        | Err _ => false
                        | Ok p => negb (iat + JwtLeeway <? P_CreationTime p)
                        end) (match i with Some i => checked_projects i | None => [] end)
  end.

(** [parse] verifies the signature and decodes the claims; [validate] is the
    library's validation of the times and the audience. *)
Definition Generate (parse : string -> option Claims) (validate : Claims -> bool) (ps : Projects)
    (req : Request) (bearer : string) : option (Context_ unit) :=
  if negb (HasPrefix (Path req) "/v2") then None
  else if bearer =s= "" then None
  else
    match parse bearer with
    | None => None
    | Some claims =>
        if negb (validate claims) then None
        else if negb (tokenIssuedAfterProjectCreation ps (info req) claims) then None
        else Some (v2token_New ps (Subject claims) (c_Access claims))
    end.

(** ** Resources *)

Lemma until_slash_none s t : count "/" s = 0%nat -> until_slash (s ++ String "/" t) = s.
Proof.
  induction s as [|d s IH]; [done|]. simpl. destruct (Ascii.eqb d "/"); simpl; [done|]. intros H. by rewrite IH.
Qed.

Lemma repository_resource pid :
  project_Resource pid [ResourceRepository] = ("/project/" ++ Strconv.format_int pid ++ "/repository")%string.
Proof. by rewrite project_Resource_simple by (by right). Qed.

Lemma repository_namespace pid :
  Int64.in_range pid ->
  project_NamespaceParse (project_Resource pid [ResourceRepository]) = Some (NSProject pid).
Proof.
  intros Hr. rewrite repository_resource. unfold project_NamespaceParse.
  rewrite HasPrefix_app, TrimPrefix_app. change "/repository"%string with (String "/" "repository").
  rewrite until_slash_none by apply count_slash_format_int. by rewrite Strconv.parse_format_int.
Qed.

Lemma HasSuffix_app s t : HasSuffix (s ++ t) t = true.
Proof.
  unfold HasSuffix. rewrite string_length_app. apply andb_true_iff. split; [apply Nat.leb_le; lia|].
  replace (String.length s + String.length t - String.length t)%nat with (String.length s) by lia.
  apply String.eqb_eq, drop_app.
Qed.

Lemma token_Can_repository ps m action p :
  UniqueProjects ps -> by_id ps (P_ID p) = Ok p ->
  token_Can ps m action (project_Resource (P_ID p) [ResourceRepository])
  = match m !! P_Name p with Some l => existsb (String.eqb action) l | None => false end.
Proof.
  intros HU Hp. unfold token_Can. rewrite repository_namespace by (by eapply by_id_row). rewrite Hp.
  assert (Hs : HasSuffix (project_Resource (P_ID p) [ResourceRepository]) ResourceRepository = true).
  { rewrite repository_resource, <- GoStrings.app_assoc.
    change "/repository"%string with ("/" ++ ResourceRepository)%string.
    rewrite <- GoStrings.app_assoc. apply HasSuffix_app. }
  by rewrite Hs.
Qed.

(** ** The rights in a token *)

Lemma SplitN2_head s sep : head (SplitN2 s sep) = head (Split s sep).
Proof.
  induction s as [|c s IH]; [done|]. simpl. destruct (Ascii.eqb c sep); [done|].
  by destruct (SplitN2 s sep), (Split s sep); simplify_eq/=.
Qed.

Definition project_of (name : string) : string := default "" (head (Split name "/")).

#[global] Instance v2token_consistent ps name access :
  Consistent (v2token_New ps name access) (fun _ => True) (token_Can ps (accessMap access)).
Proof. split; done. Qed.

(** ** Checking a request *)

Definition with_auth (req : Request) : Request := mkRequest (Method req) (Path req) (info req) true.

Definition grants (ps : Projects) (allowed : string -> string -> bool) (a : access) : Prop :=
  exists p, by_name ps (project_of (a_name a)) = Ok p
            /\ allowed (a_action a) (project_Resource (P_ID p) [ResourceRepository]) = true.

Lemma check_all_ok ps {St} (c : Context_ St) inv allowed {HC : Consistent c inv allowed} req al l s :
  hasAuth req = true -> Forall (fun a => a_target a = repository) l -> inv s ->
  (check_all ps c req al l s).1 = Pass <-> Forall (grants ps allowed) l.
Proof.
  intros Hauth. revert s. induction l as [|a l IH]; intros s HF Hs; [done|]. inversion HF as [|? ? Ht Hl]; subst.
  cbn [check_all check_access]. rewrite Forall_cons. unfold grants at 1, check_access. rewrite Ht. unfold check_repository.
  rewrite Hauth. cbn [negb andb]. fold (project_of (a_name a)).
  destruct (by_name ps (project_of (a_name a))) as [p|e]; [|split; [done|]; by intros [(p & [=] & _) _]].
  pose proof (Can_allowed (a_action a) (project_Resource (P_ID p) [ResourceRepository]) s Hs) as E.
  pose proof (Can_inv (a_action a) (project_Resource (P_ID p) [ResourceRepository]) s Hs) as Hi.
  destruct (Can c _ _ s) as [ok s1]. cbn in E, Hi. subst ok.
  destruct (allowed _ _) eqn:Ea.
  - rewrite IH by done. split; [|by intros [_ ?]]. intros H. split; [by exists p|done].
  - split; [done|]. intros [(p' & [= <-] & H) _]. congruence.
Qed.

Lemma accessList_action req a :
  a ∈ accessList req -> a_target a = repository ->
  a_action a = ActionPull \/ a_action a = ActionPush \/ a_action a = ActionDelete.
Proof.
  unfold accessList. destruct (Path req =s= "/v2/").
  { rewrite list_elem_of_singleton. by intros ->. }
  destruct (is_catalog (Path req)).
  { rewrite list_elem_of_singleton. by intros ->. }
  destruct (info req) as [i|]; [|by rewrite elem_of_nil]. unfold getAction.
  destruct ((Method req =s= "POST") || (Method req =s= "PATCH") || (Method req =s= "PUT")).
  { cbn [String.eqb Ascii.eqb]. intros [->|H]%elem_of_cons _; [by right; left|].
    destruct (_ && _); [|by apply elem_of_nil in H]. apply list_elem_of_singleton in H as ->. by left. }
  destruct ((Method req =s= "GET") || (Method req =s= "HEAD")).
  { intros [->|H]%elem_of_cons _; [by left|].
    destruct (_ && _); [|by apply elem_of_nil in H]. apply list_elem_of_singleton in H as ->. by left. }
  destruct (Method req =s= "DELETE"); [|by rewrite elem_of_nil].
  intros [->|H]%elem_of_cons _; [by right; right|].
  destruct (_ && _); [|by apply elem_of_nil in H]. apply list_elem_of_singleton in H as ->. by left.
Qed.

(** *** The scope of a challenge *)

(** A name of a repository: a project, a slash and more; no character that the
    scope has a use for. *)
Definition repo_name (n : string) : bool :=
  (count ":" n =? 0)%nat && (count " " n =? 0)%nat && negb (count "/" n =? 0)%nat && negb (project_of n =s= "").

Definition asked (a : access) : ResourceActions :=
  mkResourceActions "repository" (a_name a)
    (if a_action a =s= ActionPull then ["pull"] else if a_action a =s= ActionPush then ["pull"; "push"] else ["delete"]).

Definition scoped (a : access) : Prop :=
  a_target a = repository /\ repo_name (a_name a) = true
  /\ (a_action a = ActionPull \/ a_action a = ActionPush \/ a_action a = ActionDelete).

Lemma scope_of_access a :
  scoped a -> scopeStr a <> "" /\ count " " (scopeStr a) = 0%nat /\ scope_actions (scopeStr a) = asked a.
Proof.
  destruct a as [t n act]. unfold scoped, repo_name. cbn. rewrite !andb_true_iff. intros (-> & [[[Hc Hs] _] _] & Hact).
  apply Nat.eqb_eq in Hc, Hs.
  assert (H : forall x, (count ":" x = 0%nat -> count " " x = 0%nat -> x <> "" ->
    count " " ("repository:" ++ n ++ ":" ++ x) = 0%nat
    /\ scope_actions ("repository:" ++ n ++ ":" ++ x) = mkResourceActions "repository" n (Split x ","))%string).
  { intros x Hx Hx2 Hne. split; [by rewrite !count_app, Hs, Hx2|]. unfold scope_actions.
    change ("repository:" ++ n ++ ":" ++ x)%string with ("repository" ++ String ":" (n ++ String ":" x))%string.
    rewrite Split_sep by done. rewrite Split_sep by done. rewrite Split_none by done. cbn.
    by apply String.eqb_neq in Hne as ->. }
  unfold scopeStr, asked. cbn [a_target a_name a_action].
  destruct Hact as [->|[-> | ->]]; cbn; (split; [done|]); by apply H.
Qed.

Lemma challenge_scope_join l :
  Forall scoped l -> parseScopes [challenge_scope l] = if bool_decide (l = []) then [""] else scopeStr <$> l.
Proof.
  intros HF. unfold parseScopes. cbn [flat_map]. rewrite app_nil_r.
  destruct l as [|a l]; [done|]. cbn [bool_decide]. unfold challenge_scope. cbn [foldl].
  set (f := fun (scope : string) a => ((if scope =s= "" then scope else scope ++ " ") ++ scopeStr a)%string).
  assert (H : forall acc l, acc <> "" -> Forall scoped l -> foldl f acc l = Join (acc :: (scopeStr <$> l)) " ").
  { clear. intros acc l. revert acc. induction l as [|b l IH]; intros acc Hne HF; [done|].
    inversion HF as [|? ? Hb Hl]; subst. cbn [foldl]. unfold f at 2. apply String.eqb_neq in Hne. rewrite Hne.
    rewrite IH; [|destruct acc; [done|discriminate]|done].
    destruct l as [|b' l]; cbn [fmap list_fmap Join]; by rewrite ?GoStrings.app_assoc. }
  inversion HF as [|? ? Ha Hl]; subst. destruct (scope_of_access a Ha) as (Hne & _ & _).
  change (Split (foldl f (scopeStr a) l) " " = scopeStr <$> (a :: l)). rewrite H by done.
  change (Join (scopeStr a :: (scopeStr <$> l)) " ") with (Join (scopeStr <$> (a :: l)) " ").
  rewrite Split_Join; [done|done|]. apply Forall_fmap. eapply Forall_impl; [exact HF|].
  intros b Hb. cbn. by apply scope_of_access in Hb as (_ & ? & _).
Qed.

Lemma asked_scopes l :
  Forall scoped l -> GetResourceActions (parseScopes [challenge_scope l]) = asked <$> l.
Proof.
  intros HF. rewrite challenge_scope_join by done. destruct (bool_decide_reflect (l = [])) as [->|_]; [done|].
  unfold GetResourceActions. induction HF as [|a l Ha Hl IH]; [done|].
  destruct (scope_of_access a Ha) as (Hne & _ & Hs). cbn. apply String.eqb_neq in Hne. rewrite Hne. cbn.
  by rewrite Hs, IH.
Qed.

Section Rights.
Context (ps : Projects) {HU : UniqueProjects ps}.
Context {St : Type} (c : Context_ St) (inv : St -> Prop) (allowed : string -> string -> bool).
Context {HC : Consistent c inv allowed}.
Context (order : list (string * string)) (Horder : order ≡ₚ actionScopeMap).

(** The scopes of a project that the user has. *)
Definition rights_of (p : ProjectRow) : list string :=
  (List.filter (fun q => allowed q.1 (project_Resource (P_ID p) [ResourceRepository])) order).*2.

Lemma resourceScopes_ok l resource s :
  inv s -> (resourceScopes c l resource s).1 = (List.filter (fun q => allowed q.1 resource) l).*2
           /\ inv (resourceScopes c l resource s).2.
Proof.
  revert s. induction l as [|[a sc] l IH]; intros s Hs; [done|]. cbn [resourceScopes].
  pose proof (Can_allowed a resource s Hs) as E. pose proof (Can_inv a resource s Hs) as Hi.
  destruct (Can c a resource s) as [ok s1]. cbn in E, Hi. subst ok.
  destruct (IH s1 Hi) as [E2 Hi2]. destruct (resourceScopes c l resource s1) as [rest s2]. cbn in E2, Hi2 |- *.
  split; [|done]. subst rest. by destruct (allowed a resource).
Qed.

(** What a scope becomes for a consistent context. *)
Definition rights (a : ResourceActions) : list string :=
  if Type_ a =s= "repository" then
    match parseImg (ra_Name a) with
    | Ok img => match GetByName ps (namespace_ img) with Ok p => rights_of p | Err _ => [] end
    | Err _ => []
    end
  else if Type_ a =s= "registry" then (if (ra_Name a =s= "catalog") && c_IsSysAdmin c then Actions a else [])
  else [].

Lemma filterAccess_ok access s :
  inv s -> (filterAccess ps c order access s).1 = (fun a => with_actions a (rights a)) <$> access
           /\ inv (filterAccess ps c order access s).2.
Proof.
  revert s. induction access as [|a access IH]; intros s Hs; [done|]. cbn [filterAccess].
  set (step := if Type_ a =s= "repository" then repositoryFilter ps c order a s
               else if Type_ a =s= "registry" then (registryFilter c a, s) else (Ok (with_actions a []), s)).
  assert (H : match step.1 with Ok a' => a' | Err _ => with_actions a [] end = with_actions a (rights a) /\ inv step.2).
  { subst step. unfold rights. destruct (Type_ a =s= "repository").
    - unfold repositoryFilter. destruct (parseImg (ra_Name a)) as [img|]; [|done].
      destruct (GetByName ps (namespace_ img)) as [p|e].
      + destruct (resourceScopes_ok order (project_Resource (P_ID p) [ResourceRepository]) s Hs) as [E Hi].
        destruct (resourceScopes _ _ _ _) as [l s']. cbn in E, Hi |- *. by subst l.
      + by destruct (IsNotFoundErr e).
    - destruct (Type_ a =s= "registry"); [|done]. unfold registryFilter. destruct (ra_Name a =s= "catalog"); [|done].
      by destruct (c_IsSysAdmin c), a. }
  destruct step as [r s1]. cbn in H. destruct H as [E Hi].
  destruct (IH s1 Hi) as [E2 Hi2]. destruct (filterAccess ps c order access s1) as [rest s2]. cbn in E2, Hi2 |- *.
  split; [|done]. by rewrite E, E2.
Qed.

Lemma action_scope q : q ∈ order -> token_action q.2 = [q.1].
Proof. rewrite Horder. unfold actionScopeMap. rewrite !elem_of_cons, elem_of_nil. intros [->|[->|[->|[->|[]]]]]; done. Qed.

(** The actions of a token's scope are the user's. *)
Lemma rights_actions action p :
  existsb (String.eqb action) (flat_map token_action (rights_of p)) = true
  <-> (exists sc, (action, sc) ∈ actionScopeMap) /\ allowed action (project_Resource (P_ID p) [ResourceRepository]) = true.
Proof.
  rewrite existsb_exists. setoid_rewrite in_flat_map. setoid_rewrite String.eqb_eq. unfold rights_of.
  setoid_rewrite <- list_elem_of_In. setoid_rewrite list_elem_of_fmap. setoid_rewrite list_elem_of_In.
  setoid_rewrite filter_In. setoid_rewrite <- list_elem_of_In. split.
  - intros (x & (sc & (q & -> & Hq & Ha) & Hx) & <-). rewrite (action_scope q Hq), list_elem_of_singleton in Hx. subst action.
    split; [|done]. exists q.2. rewrite <- Horder. by destruct q.
  - intros ([sc Hq] & Ha). exists action. rewrite <- Horder in Hq. split; [|done]. exists sc. split; [by exists (action, sc)|].
    pose proof (action_scope _ Hq) as E. cbn in E. rewrite E. by left.
Qed.

Lemma accessMap_lookup access n l :
  accessMap access !! n = Some l ->
  exists ac, ac ∈ access /\ Type_ ac = "repository" /\ project_of (ra_Name ac) = n /\ l = flat_map token_action (Actions ac).
Proof.
  unfold accessMap. assert (H : forall m, foldl add_access m access !! n = Some l -> m !! n = Some l
    \/ exists ac, ac ∈ access /\ Type_ ac = "repository" /\ project_of (ra_Name ac) = n /\ l = flat_map token_action (Actions ac)).
  { induction access as [|a access IH]; intros m; cbn [foldl]; [by left|]. intros [E|(ac & Hac & ?)]%IH.
    2: { right. exists ac. split; [by right|done]. }
    unfold add_access in E. destruct (String.eqb_spec (Type_ a) "repository") as [Ht|]; [|by left].
    cbn [negb] in E. unfold project_of. destruct (Split (ra_Name a) "/") as [|pr rest] eqn:Es; [by left|].
    apply lookup_insert_Some in E as [[<- <-]|[_ E]]; [|by left]. right. exists a. rewrite Es. split; [by left|done]. }
  intros [E|?]%H; [|done]. by rewrite lookup_empty in E.
Qed.

Lemma parseImg_project name img : parseImg name = Ok img -> namespace_ img = project_of name.
Proof.
  unfold parseImg, project_of. rewrite <- SplitN2_head.
  destruct (SplitN2 name "/") as [|ns [|r ?]]; try done. destruct (SplitN2 r ":") as [|? [|]]; [done| |]; by intros [= <-].
Qed.

Lemma GetByName_row n p : GetByName ps n = Ok p -> by_name ps n = Ok p.
Proof. unfold GetByName. by destruct (n =s= ""). Qed.

(** A context made of a token of this user. *)
Definition token_context (claims : Claims) : Context_ unit := v2token_New ps (Subject claims) (c_Access claims).

Lemma Create_access values now expiration s claims s' :
  inv s -> Create ps (Some c) order now expiration values s = (Ok claims, s') ->
  claims = MakeToken now expiration (GetUsername c) Registry
             ((fun a => with_actions a (rights a)) <$> GetResourceActions (parseScopes values)).
Proof.
  intros Hs. unfold Create. destruct (negb (IsAuthenticated c) && _); [done|].
  destruct (filterAccess_ok (GetResourceActions (parseScopes values)) s Hs) as [E _].
  destruct (filterAccess _ _ _ _ _) as [access s1]. cbn in E. subst access. by intros [= <- _].
Qed.

(** C11: a token gives no right that its user does not have: whatever scopes are
    asked for, what the context of the token allows on the repositories of a
    project the user's context allowed. *)
Theorem token_no_escalation values now expiration s claims s' action p :
  inv s -> Create ps (Some c) order now expiration values s = (Ok claims, s') ->
  by_id ps (P_ID p) = Ok p ->
  (Can (token_context claims) action (project_Resource (P_ID p) [ResourceRepository]) tt).1 = true ->
  allowed action (project_Resource (P_ID p) [ResourceRepository]) = true.
Proof.
  intros Hs E Hp. cbn [Can token_context v2token_New fst]. rewrite token_Can_repository by done.
  destruct (accessMap _ !! P_Name p) as [l|] eqn:El; [|done]. intros Hex.
  apply accessMap_lookup in El as (ac & Hac & Ht & Hn & ->).
  rewrite (Create_access _ _ _ _ _ _ Hs E) in Hac. cbn [c_Access MakeToken] in Hac.
  apply list_elem_of_fmap in Hac as (a & -> & _). cbn in Ht, Hn, Hex. unfold rights in Hex. rewrite Ht in Hex. cbn in Hex.
  destruct (parseImg (ra_Name a)) as [img|] eqn:Ei; [|done]. apply parseImg_project in Ei as Hns.
  rewrite Hns, Hn in Hex. destruct (GetByName ps (P_Name p)) as [p'|] eqn:Eg; [|done].
  apply GetByName_row in Eg. apply by_id_row in Hp as (_ & _ & Hp'). assert (p' = p) as -> by congruence.
  by apply rights_actions in Hex as [_ ?].
Qed.

(** The access map when every scope is of a repository and its actions are
    given by its project. *)
Lemma accessMap_by_project (val : string -> list string) access n :
  Forall (fun ac => Type_ ac = "repository" /\ flat_map token_action (Actions ac) = val (project_of (ra_Name ac))) access ->
  n ∈ project_of <$> (ra_Name <$> access) -> accessMap access !! n = Some (val n).
Proof.
  intros HF Hn. unfold accessMap.
  assert (H : forall m, m !! n = Some (val n) \/ n ∈ project_of <$> (ra_Name <$> access) ->
                        foldl add_access m access !! n = Some (val n)).
  { clear Hn. induction HF as [|a l [Ht Ha] HF IH]; intros m [Hm|Hn]; cbn [foldl]; [done|by apply elem_of_nil in Hn| |];
      apply IH; unfold add_access, project_of in *; rewrite Ht; change (negb ("repository" =s= "repository")) with false; cbn iota;
      destruct (Split (ra_Name a) "/") as [|pr rest] eqn:Es.
    - by left.
    - left. destruct (decide (pr = n)) as [->|]; [by rewrite lookup_insert_eq, Ha|by rewrite lookup_insert_ne].
    - by destruct (ra_Name a) as [|d r]; cbn in Es; repeat case_match.
    - cbn [fmap list_fmap] in Hn. rewrite Es in Hn. apply elem_of_cons in Hn as [->|Hn]; [|by right].
      left. by rewrite lookup_insert_eq, Ha. }
  apply H. by right.
Qed.

Lemma parseImg_ok n : repo_name n = true -> exists img, parseImg n = Ok img.
Proof.
  unfold repo_name. rewrite !andb_true_iff. intros [[_ Hs%negb_true_iff%Nat.eqb_neq] _]. unfold parseImg.
  assert (H : exists a b, SplitN2 n "/" = [a; b]).
  { clear -Hs. induction n as [|d n IH]; [done|]. cbn in Hs |- *. destruct (Ascii.eqb d "/"); [by eexists _, _|].
    destruct IH as (a & b & ->); [done|]. by eexists _, _. }
  destruct H as (a & b & ->). destruct (SplitN2 b ":") as [|? [|]] eqn:E; [|by eexists..].
  by destruct b; cbn in E; repeat case_match.
Qed.

(** The actions of a project in the token of the challenge. *)
Lemma challenge_token_Can l now expiration s claims s' a p :
  Forall scoped l -> inv s -> Create ps (Some c) order now expiration [challenge_scope l] s = (Ok claims, s') ->
  a ∈ l -> by_name ps (project_of (a_name a)) = Ok p ->
  token_Can ps (accessMap (c_Access claims)) (a_action a) (project_Resource (P_ID p) [ResourceRepository])
  = allowed (a_action a) (project_Resource (P_ID p) [ResourceRepository]).
Proof.
  intros HF Hs E Ha Hp. destruct (by_name_row _ _ Hp) as [Hn Hid]. rewrite token_Can_repository by done.
  rewrite (Create_access _ _ _ _ _ _ Hs E). cbn [c_Access MakeToken]. rewrite asked_scopes by done.
  set (val n := flat_map token_action (match GetByName ps n with Ok p => rights_of p | Err _ => [] end)).
  rewrite (accessMap_by_project val).
  - rewrite Forall_forall in HF. destruct (HF a Ha) as (_ & Hr & Hact). subst val. cbn. rewrite Hn. unfold GetByName.
    unfold repo_name in Hr. rewrite !andb_true_iff, !negb_true_iff in Hr. destruct Hr as [_ ->]. rewrite Hp.
    apply Bool.eq_iff_eq_true. rewrite rights_actions. split; [by intros [_ ?]|]. intros Hall. split; [|done].
    destruct Hact as [-> |[-> | ->]]; eexists; by repeat (left || right).
  - apply Forall_fmap, Forall_fmap. eapply Forall_impl; [exact HF|]. intros b (_ & Hr & _). cbn. split; [done|].
    unfold rights. cbn. destruct (parseImg_ok _ Hr) as [img Ei]. rewrite Ei. by apply parseImg_project in Ei as ->.
  - rewrite Hn. apply list_elem_of_fmap. exists (a_name a). split; [done|]. rewrite <- !list_fmap_compose.
    apply list_elem_of_fmap. by exists a.
Qed.

(** C4: the token for the scope of a challenge is as good as the user's own
    credentials: the request that the challenge was for passes with the token
    exactly when it passes with the user's context, for pushes, pulls, deletions
    and mounts from another repository. *)
Theorem token_flow req now expiration s :
  Forall (fun a => a_target a = repository /\ repo_name (a_name a) = true) (accessList req) -> inv s ->
  exists claims s',
    Create ps (Some c) order now expiration [challenge_scope (accessList req)] s = (Ok claims, s')
    /\ ((check ps (Some (token_context claims)) (with_auth req) tt).1 = Pass
        <-> (check ps (Some c) (with_auth req) s).1 = Pass).
Proof.
  intros HF Hs. set (l := accessList req) in *.
  assert (HS : Forall scoped l).
  { apply Forall_forall. intros a Ha. rewrite Forall_forall in HF. destruct (HF a Ha). split_and!; [done|done|].
    by eapply accessList_action. }
  assert (Hc : exists claims s', Create ps (Some c) order now expiration [challenge_scope l] s = (Ok claims, s')).
  { unfold Create. rewrite challenge_scope_join by done. destruct (bool_decide_reflect (l = [])) as [->|Hne].
    - destruct (IsAuthenticated c); by eexists _, _.
    - assert (Hne2 : scopeStr <$> l <> []) by (by destruct l). rewrite (bool_decide_eq_false_2 _ Hne2), andb_false_r.
      destruct (filterAccess _ _ _ _ _) as [? ?]. by eexists _, _. }
  destruct Hc as (claims & s' & Hc). exists claims, s'. split; [done|]. unfold check.
  change (accessList (with_auth req)) with l. destruct l as [|a0 l0] eqn:El; [done|]. rewrite <- El in *.
  assert (HT : Forall (fun a => a_target a = repository) l) by (eapply Forall_impl; [exact HF|]; by intros ? [? _]).
  rewrite (check_all_ok ps (token_context claims) (fun _ => True) (token_Can ps (accessMap (c_Access claims)))) by done.
  rewrite (check_all_ok ps c inv allowed) by done.
  rewrite !Forall_forall. unfold grants.
  split; intros H a Ha; destruct (H a Ha) as (p & Hp & Hg); exists p; (split; [done|]).
  - by rewrite <- (challenge_token_Can l now expiration s claims s' a p).
  - by rewrite (challenge_token_Can l now expiration s claims s' a p).
Qed.

(** The actions that a scope asks for do not matter: the token has all the
    rights of the user in the project. *)
Theorem requested_actions_ignored a l s :
  repositoryFilter ps c order (with_actions a l) s = repositoryFilter ps c order a s.
Proof. done. Qed.

End Rights.

(** ** Recreated projects *)

Lemma projectNameFromRepo_ok repo pn : projectNameFromRepo repo = Ok pn -> pn = project_of repo.
Proof.
  unfold projectNameFromRepo, project_of. rewrite <- SplitN2_head.
  destruct (SplitN2 repo "/") as [|a [|b ?]]; [done..|]. by intros [= <-].
Qed.

Lemma accessList_project repo from i req a :
  artifact_info repo from = Ok i -> info req = Some i -> a ∈ accessList req -> a_target a = repository ->
  project_of (a_name a) = "" \/ project_of (a_name a) ∈ checked_projects i.
Proof.
  intros Hi Hr Ha Ht. destruct (decide (project_of (a_name a) = "")) as [|Hne]; [by left|right].
  assert (Hn : a_name a = Repository i \/ (a_name a = BlobMountRepository i /\ BlobMountRepository i <> "")).
  { unfold accessList in Ha. destruct (Path req =s= "/v2/"); [apply list_elem_of_singleton in Ha as ->; done|].
    destruct (is_catalog (Path req)); [apply list_elem_of_singleton in Ha as ->; done|]. rewrite Hr in Ha.
    destruct (getAction (Method req) =s= ""); [by apply elem_of_nil in Ha|].
    apply elem_of_cons in Ha as [->|Ha]; [by left|]. destruct (Method req =s= "POST"); [|by apply elem_of_nil in Ha].
    destruct (String.eqb_spec (BlobMountRepository i) "") as [E|]; [by apply elem_of_nil in Ha|].
    apply list_elem_of_singleton in Ha as ->. by right. }
  assert (Hp : project_of (a_name a) = ProjectName i \/ project_of (a_name a) = BlobMountProjectName i).
  { unfold artifact_info in Hi. destruct (projectNameFromRepo repo) as [pn|] eqn:E1; [|done].
    apply projectNameFromRepo_ok in E1. destruct from as [bmr|].
    - destruct (projectNameFromRepo bmr) as [bmp|] eqn:E2; [|done]. apply projectNameFromRepo_ok in E2.
      injection Hi as <-. cbn in *. destruct Hn as [-> |[-> _]]; subst; auto.
    - injection Hi as <-. cbn in *. destruct Hn as [-> |[_ ?]]; [left; by subst|done]. }
  unfold checked_projects. apply list_elem_of_In, filter_In. split; [|by apply negb_true_iff, String.eqb_neq].
  apply list_elem_of_In. destruct Hp as [Hp|Hp]; rewrite Hp in *; [by left|].
  destruct (decide (BlobMountProjectName i = ProjectName i)) as [->|Hd]; [by left|]. right.
  apply String.eqb_neq in Hne, Hd. rewrite Hne, Hd. by left.
Qed.

Lemma check_all_project ps {St} (c : Context_ St) req al l s a :
  (check_all ps c req al l s).1 = Pass -> a ∈ l -> a_target a = repository ->
  exists p, by_name ps (project_of (a_name a)) = Ok p.
Proof.
  intros Hc Ha Ht. revert s Hc. induction l as [|b l IH]; intros s Hc; [by apply elem_of_nil in Ha|]. cbn [check_all] in Hc.
  apply elem_of_cons in Ha as [<-|Ha]; [|by destruct (check_access ps c req al b s) as [[|] s']; [eapply IH|]].
  unfold check_access in Hc. rewrite Ht in Hc. unfold check_repository in Hc.
  destruct (negb (hasAuth req) && _); [done|]. fold (project_of (a_name a)) in Hc.
  destruct (by_name ps (project_of (a_name a))) as [p|]; [by exists p|done].
Qed.

(** A token gives access to a project only when it was issued after the
    project was created, up to the leeway of one minute: a token of a deleted
    project is of no use in a new one with the same name, nor for a mount from
    it. *)
Theorem token_after_creation parse validate ps req bearer ctx repo from i a :
  UniqueProjects ps -> artifact_info repo from = Ok i -> info req = Some i ->
  Generate parse validate ps req bearer = Some ctx -> (check ps (Some ctx) req tt).1 = Pass ->
  a ∈ accessList req -> a_target a = repository ->
  exists claims iat p, parse bearer = Some claims /\ IssuedAt claims = Some iat
    /\ by_name ps (project_of (a_name a)) = Ok p /\ P_CreationTime p <= iat + JwtLeeway.
Proof.
  intros HU Hi Hr Hg Hc Ha Ht. unfold Generate in Hg.
  destruct (negb (HasPrefix (Path req) "/v2")); [done|]. destruct (bearer =s= ""); [done|].
  destruct (parse bearer) as [claims|]; [|done]. destruct (negb (validate claims)); [done|].
  destruct (tokenIssuedAfterProjectCreation ps (info req) claims) eqn:Hi2; [|done].
  unfold tokenIssuedAfterProjectCreation in Hi2. destruct (IssuedAt claims) as [iat|] eqn:Eiat; [|done].
  rewrite Hr in Hi2. rewrite forallb_forall in Hi2.
  assert (Hp : project_of (a_name a) <> "").
  { intros E. unfold check in Hc. destruct (accessList req) as [|a0 l] eqn:El; [by apply elem_of_nil in Ha|].
    destruct (check_all_project _ _ _ _ _ _ _ Hc Ha Ht) as [p Hp]. rewrite E in Hp. by apply no_empty_name in Hp. }
  destruct (accessList_project repo from i req a) as [|Hin]; [done..|].
  exists claims, iat. apply list_elem_of_In, Hi2 in Hin. unfold GetByName in Hin.
  apply String.eqb_neq in Hp. rewrite Hp in Hin. destruct (by_name ps (project_of (a_name a))) as [p|]; [|done].
  exists p. split_and!; [done..|]. apply negb_true_iff, Z.ltb_ge in Hin. lia.
Qed.

(** ** Local users *)

Section LocalContext.
Context {other_keys : string -> string -> bool} {casbin : Casbin other_keys}.

(** The context of a local user of [Rbac]. *)
Definition local_context (db : authdb) (user : option User) (ctx : Z) : Context_ projEval :=
  mkContext (match user with Some u => Username u | None => "" end)
    (match user with Some _ => true | None => false end) (IsSysAdmin user)
    (fun action resource st => local_Can db user ctx action resource st).

Definition local_allowed (db : authdb) (user : option User) (action resource : string) : bool :=
  if IsSysAdmin user && admin_HasPermission action then true
  else match NamespaceFromResource resource with
       | Some (NSProject pid) => eva_HasPermission (project_factory db (ForUser user) [] pid).1 resource action
       | _ => false
       end.

#[global] Instance local_consistent db user ctx :
  Consistent (local_context db user ctx) (cache_ok db (ForUser user)) (local_allowed db user).
Proof.
  split; intros action resource st Hok; cbn [Can local_context]; unfold local_Can, local_allowed;
    (destruct (IsSysAdmin user && admin_HasPermission action); [done|]);
    destruct (project_HasPermission_cached db user ctx resource action st Hok) as [E Hi]; [|done].
  rewrite E. destruct (NamespaceFromResource resource) as [[pid|]|]; [|done|done].
  unfold project_factory. destruct (get_project db pid); [|done]. by destruct user.
Qed.

End LocalContext.

(** ** Witnesses *)

Definition sample_row (n : Z) : ProjectRow := if n =? 1 then mkProjectRow 1 "library" 100 else mkProjectRow 2 "tools" 500.

Definition sample_projects : Projects := mkProjects
  (fun n => if n =s= "library" then Ok (sample_row 1) else if n =s= "tools" then Ok (sample_row 2)
            else Err (NotFoundError None))
  (fun i => if (i =? 1) || (i =? 2) then Ok (sample_row i) else Err (NotFoundError None)).

#[global] Instance sample_unique : UniqueProjects sample_projects.
Proof.
  split; cbn.
  - done.
  - intros n p. destruct (String.eqb_spec n "library") as [->|]; [by intros [= <-]|].
    destruct (String.eqb_spec n "tools") as [->|]; [by intros [= <-]|done].
  - intros i p. destruct (Z.eqb_spec i 1) as [->|]; [intros [= <-]; by vm_compute|].
    destruct (Z.eqb_spec i 2) as [->|]; [intros [= <-]; by vm_compute|done].
Qed.

Definition fresh : projEval := mkProjEval ∅ [].

Lemma fresh_ok db b : cache_ok db b fresh.
Proof. intros ctx pid eva. cbn. by rewrite lookup_empty. Qed.

(** A push to a repository of alice's project with a mount from another one. *)
Definition sample_request : Request :=
  mkRequest "POST" "/v2/library/app/blobs/uploads/" (Some (mkArtifactInfo "library/app" "library" "tools/base" "tools")) false.

Definition sample_push : Request :=
  mkRequest "PUT" "/v2/library/app/manifests/v1" (Some (mkArtifactInfo "library/app" "library" "" "")) false.

Definition alice_context : Context_ projEval := local_context sample_db (Some alice) 0.

Lemma token_flow_witness :
  exists claims s',
    Create sample_projects (Some alice_context) actionScopeMap 1000 30
      ["repository:library/app:pull,push"] fresh = (Ok claims, s')
    /\ (check sample_projects (Some (token_context sample_projects claims)) (with_auth sample_push) tt).1 = Pass.
Proof.
  destruct (token_flow sample_projects alice_context (cache_ok sample_db (ForUser (Some alice)))
    (local_allowed sample_db (Some alice)) actionScopeMap (reflexivity _) sample_push 1000 30 fresh) as (claims & s' & H1 & H2).
  - repeat constructor.
  - apply fresh_ok.
  - exists claims, s'. split; [exact H1|]. apply H2. vm_compute. reflexivity.
Defined.

Lemma token_no_escalation_witness :
  exists claims s',
    Create sample_projects (Some alice_context) actionScopeMap 1000 30 ["repository:library/app:*"] fresh = (Ok claims, s')
    /\ (Can (token_context sample_projects claims) "push" (project_Resource 1 [ResourceRepository]) tt).1 = true
    /\ local_allowed sample_db (Some alice) "push" (project_Resource 1 [ResourceRepository]) = true.
Proof.
  eexists _, _. split; [vm_compute; reflexivity|]. split; [vm_compute; reflexivity|].
  refine (token_no_escalation sample_projects alice_context (cache_ok sample_db (ForUser (Some alice)))
    (local_allowed sample_db (Some alice)) actionScopeMap (reflexivity _) ["repository:library/app:*"] 1000 30 fresh
    _ _ "push" (mkProjectRow 1 "library" 100) (fresh_ok _ _) _ _ _); vm_compute; reflexivity.
Defined.

(** The token of the request, and its bearer string. *)
Definition sample_claims : Claims :=
  mkClaims "alice" [Registry] 5000 1000 (Some 1000)
    [mkResourceActions "repository" "library/app" ["pull"; "push"]; mkResourceActions "repository" "tools/base" ["pull"]].

Definition sample_parse (s : string) : option Claims := if s =s= "jwt" then Some sample_claims else None.

Lemma token_after_creation_witness :
  exists claims iat p, sample_parse "jwt" = Some claims /\ IssuedAt claims = Some iat
    /\ by_name sample_projects "tools" = Ok p /\ P_CreationTime p <= iat + JwtLeeway.
Proof.
  refine (token_after_creation sample_parse (fun _ => true) sample_projects (with_auth sample_request) "jwt"
    (v2token_New sample_projects "alice" (c_Access sample_claims)) "library/app"
    (Some "tools/base") (mkArtifactInfo "library/app" "library" "tools/base" "tools")
    (mkAccess repository "tools/base" ActionPull) _ eq_refl eq_refl _ _ _ eq_refl).
  - reflexivity.
  - vm_compute. reflexivity.
  - right. by left.
Defined.
