(* ===== verification/Robot.v ===== *)
(** * Robot accounts

    [src/controller/robot] and [src/pkg/robot]: robot accounts, their secrets
    and their permissions, which [src/pkg/rbac] stores as policies shared by
    all robots; the permissions a robot can have at all
    ([src/common/rbac/const.go]); the handlers of the API
    ([src/server/v2.0/handler/robot.go]) with their checks; and the
    authentication of a robot ([src/server/middleware/security/robot.go]).

    What a robot's permissions then allow is in [Rbac].  The key derivation
    [utils.Encrypt], the random strings and the name prefix of the
    configuration are parameters; days have 86400 seconds. *)

From S2P Require Import Prelude Errors.
From S2P Require Rbac.
Import GoStrings.

Abbreviation Policy := Rbac.Policy.
Abbreviation mkPolicy := Rbac.mkPolicy.

Definition LEVELSYSTEM : string := "system".
Definition LEVELPROJECT : string := "project".
Definition SCOPESYSTEM : string := "/system".
Definition SCOPEALLPROJECT : string := "/project/*".
Definition ROBOTTYPE : string := "robotaccount".

(** ** The permissions that robots can have *)

Definition PoliciesMap_System : list (string * list string) :=
  [("audit-log", ["list"]);
   ("preheat-instance", ["read"; "create"; "delete"; "list"; "update"]);
   ("project", ["list"; "create"]);
   ("replication-policy", ["read"; "create"; "delete"; "list"; "update"]);
   ("replication", ["read"; "create"; "list"]);
   ("replication-adapter", ["list"]);
   ("registry", ["read"; "create"; "delete"; "list"; "update"]);
   ("scan-all", ["read"; "update"; "stop"; "create"]);
   ("system-volumes", ["read"]);
   ("garbage-collection", ["read"; "create"; "list"; "update"; "stop"]);
   ("purge-audit", ["read"; "create"; "list"; "update"; "stop"]);
   ("jobservice-monitor", ["list"; "stop"]);
   ("scanner", ["read"; "create"; "delete"; "list"; "update"]);
   ("label", ["read"; "create"; "delete"; "update"]);
   ("security-hub", ["read"; "list"]);
   ("catalog", ["read"]);
   ("quota", ["read"; "list"])].

Definition PoliciesMap_Project : list (string * list string) :=
  [("log", ["list"]);
   ("project", ["read"; "delete"; "update"]);
   ("metadata", ["read"; "create"; "delete"; "list"; "update"]);
   ("repository", ["read"; "update"; "delete"; "list"; "pull"; "push"]);
   ("artifact", ["read"; "create"; "list"; "delete"]);
   ("scan", ["create"; "read"; "stop"]);
   ("sbom", ["create"; "stop"; "read"]);
   ("tag", ["create"; "list"; "delete"]);
   ("accessory", ["list"]);
   ("artifact-addition", ["read"]);
   ("artifact-label", ["create"; "delete"]);
   ("scanner", ["create"; "read"]);
   ("preheat-policy", ["read"; "create"; "delete"; "list"; "update"]);
   ("immutable-tag", ["create"; "delete"; "list"; "update"]);
   ("notification-policy", ["read"; "create"; "delete"; "list"; "update"]);
   ("tag-retention", ["read"; "create"; "delete"; "list"; "update"]);
   ("label", ["read"; "create"; "delete"; "list"; "update"]);
   ("quota", ["read"])].

Definition nolimit_System : list (string * list string) :=
  [("robot", ["create"; "read"; "list"; "delete"]);
   ("user", ["create"; "read"; "update"; "list"; "delete"]);
   ("ldap-user", ["create"; "list"]);
   ("quota", ["update"]);
   ("user-group", ["create"; "read"; "update"; "list"; "delete"])].

Definition nolimit_Project : list (string * list string) :=
  [("robot", ["create"; "read"; "list"; "delete"]);
   ("export-cve", ["create"; "read"]);
   ("member", ["create"; "read"; "update"; "list"; "delete"])].

Definition policies_of (l : list (string * list string)) : list Policy :=
  List.flat_map (fun ra => List.map (fun a => mkPolicy ra.1 a "") ra.2) l.

Inductive scope_kind := ScopeSystem | ScopeProject.

Definition GetPermissions (s : scope_kind) : list Policy :=
  match s with
  | ScopeSystem => policies_of PoliciesMap_System ++ policies_of nolimit_System
  | ScopeProject => policies_of PoliciesMap_Project ++ policies_of nolimit_Project
  end.

(** ** Data *)

(** A row of the table of robots. *)
Record RobotRow := mkRobotRow {
  ID : Z;
  Name : string;
  Description : string;
  Secret : string;
  Salt : string;
  Duration : Z;
  ProjectID : Z;
  ExpiresAt : Z;
  Disabled : bool;
  Visible : bool;
  CreatorRef : Z;
  CreatorType : string;
  CreationTime : Z;
}.

Record Permission := mkPermission {
  Kind : string;
  Namespace : string;
  Access : list Policy;
  Scope : string;
}.

(** The robot of the controller. *)
Record Robot := mkRobot {
  row : RobotRow;
  ProjectName : string;
  ProjectNameOrID : option string;
  Level : string;
  Editable : bool;
  Permissions : list Permission;
}.

Record PermissionPolicy := mkPP { pp_Scope : string; pp_Resource : string; pp_Action : string; pp_Effect : string }.
Record RolePermission := mkRP { rp_RoleType : string; rp_RoleID : Z; rp_PolicyID : Z }.

#[global] Instance PermissionPolicy_eq_dec : EqDecision PermissionPolicy.
Proof. solve_decision. Defined.
#[global] Instance RolePermission_eq_dec : EqDecision RolePermission.
Proof. solve_decision. Defined.

(** The tables; the names of the projects that are not deleted; one sequence of
    identifiers; how many random strings were drawn; the faults to come. *)
Record store := mkStore {
  robots : gmap Z RobotRow;
  policies : gmap Z PermissionPolicy;
  role_perms : gmap Z RolePermission;
  projects : gmap Z string;
  seq : Z;
  draws : nat;
  faults : list (option error);
}.

Definition with_robots (s : store) (x : gmap Z RobotRow) : store :=
  mkStore x (policies s) (role_perms s) (projects s) (seq s) (draws s) (faults s).
Definition with_policies (s : store) (x : gmap Z PermissionPolicy) : store :=
  mkStore (robots s) x (role_perms s) (projects s) (seq s) (draws s) (faults s).
Definition with_role_perms (s : store) (x : gmap Z RolePermission) : store :=
  mkStore (robots s) (policies s) x (projects s) (seq s) (draws s) (faults s).
Definition with_seq (s : store) (x : Z) : store :=
  mkStore (robots s) (policies s) (role_perms s) (projects s) x (draws s) (faults s).
Definition with_draws (s : store) (x : nat) : store :=
  mkStore (robots s) (policies s) (role_perms s) (projects s) (seq s) x (faults s).

#[global] Instance store_faulty : Faulty store := fun s =>
  match faults s with
  | [] => (None, s)
  | f :: fs => (f, mkStore (robots s) (policies s) (role_perms s) (projects s) (seq s) (draws s) fs)
  end.

Definition next_id : M store Z := fun s => (Ok (seq s), with_seq s (seq s + 1)).

Definition not_found (message : string) : error := WithMessage (NotFoundError None) message.
Definition bad_request (message : string) : error := WithCode (New message) BadRequestCode.
Definition conflict (message : string) : error := WithCode (New message) ConflictCode.
Definition ForbiddenError : error := WithCode (New "forbidden") "FORBIDDEN".
Definition UnauthorizedError : error := WithCode (New "unauthorized") "UNAUTHORIZED".

(** The key of a value in a table. *)
Definition find_key {A} (t : gmap Z A) (p : A -> bool) : option Z :=
  fst <$> List.find (fun kv => p kv.2) (map_to_list t).

(** ** Policies and permissions (pkg/rbac) *)

(** INSERT ... ON CONFLICT DO UPDATE, which gives the row's identifier. *)
Definition CreateRbacPolicy (pp : PermissionPolicy) : M store Z :=
  io (s <- get ;;
      match find_key (policies s) (fun x => bool_decide (x = pp)) with
      | Some i => ret i
      | None => i <- next_id ;; modify (fun s => with_policies s (<[i := pp]> (policies s))) ;;; ret i
      end).

Definition CreatePermission (rp : RolePermission) : M store Z :=
  io (s <- get ;;
      match find_key (role_perms s) (fun x => bool_decide (x = rp)) with
      | Some i => ret i
      | None => i <- next_id ;; modify (fun s => with_role_perms s (<[i := rp]> (role_perms s))) ;;; ret i
      end).

Definition of_role (roleType : string) (roleID : Z) (rp : RolePermission) : bool :=
  (rp_RoleType rp =s= roleType) && (rp_RoleID rp =? roleID).

Definition DeletePermissionsByRole (roleType : string) (roleID : Z) : M store unit :=
  io (s <- get ;;
      match find_key (role_perms s) (of_role roleType roleID) with
      | None => fail (not_found "role permission not found")
      | Some _ => modify (fun s => with_role_perms s
                            (filter (fun kv => of_role roleType roleID kv.2 = false) (role_perms s)))
      end).

(** The join with the policies; a missing one would give empty columns. *)
Definition GetPermissionsByRole (roleType : string) (roleID : Z) : M store (list PermissionPolicy) :=
  io (s <- get ;;
      ret ((fun kv => default (mkPP "" "" "" "") (policies s !! rp_PolicyID kv.2)) <$>
             List.filter (fun kv => of_role roleType roleID kv.2) (map_to_list (role_perms s)))).

(** ** The table of robots (pkg/robot) *)

Definition robot_dao_Create (r : RobotRow) (now : Z) : M store Z :=
  io (s <- get ;;
      match find_key (robots s) (fun x => (Name x =s= Name r) && (ProjectID x =? ProjectID r)) with
      | Some _ => fail (conflict "robot account already exists")
      | None =>
          i <- next_id ;;
          modify (fun s => with_robots s (<[i := mkRobotRow i (Name r) (Description r) (Secret r) (Salt r) (Duration r)
             (ProjectID r) (ExpiresAt r) (Disabled r) (Visible r) (CreatorRef r) (CreatorType r) now]> (robots s))) ;;;
          ret i
      end).

(** The columns that the controller names. *)
Definition set_columns (r x : RobotRow) : RobotRow :=
  mkRobotRow (ID x) (Name x) (Description r) (Secret r) (Salt x) (Duration r) (ProjectID x) (ExpiresAt r) (Disabled r)
    (Visible x) (CreatorRef x) (CreatorType x) (CreationTime x).

Definition robot_dao_Update (r : RobotRow) : M store unit :=
  io (s <- get ;;
      match robots s !! ID r with
      | Some x => modify (fun s => with_robots s (<[ID r := set_columns r x]> (robots s)))
      | None => fail (not_found "robot not found")
      end).

Definition robot_dao_Get (id : Z) : M store RobotRow :=
  io (s <- get ;; match robots s !! id with Some r => ret r | None => fail (not_found "robot not found") end).

Definition robot_dao_Delete (id : Z) : M store unit :=
  io (s <- get ;; match robots s !! id with
                  | Some _ => modify (fun s => with_robots s (base.delete id (robots s)))
                  | None => fail (not_found "robot account not found")
                  end).

(** The robots that a filter selects. *)
Definition robot_dao_List (p : RobotRow -> bool) : M store (list RobotRow) :=
  io (s <- get ;; ret (List.filter p (map_to_list (robots s)).*2)).

Definition robot_dao_DeleteByProjectID (projectID : Z) : M store unit :=
  io (modify (fun s => with_robots s (filter (fun kv => (ProjectID kv.2 =? projectID) = false) (robots s)))).

(** [project.Manager.Get] by identifier and by name. *)
Definition project_Get (id : Z) : M store (Z * string) :=
  io (s <- get ;; match projects s !! id with Some n => ret (id, n) | None => fail (not_found "project not found") end).

Definition project_GetByName (name : string) : M store (Z * string) :=
  if contains name " " then fail (bad_request "invalid project name")
  else io (s <- get ;; match find_key (projects s) (String.eqb name) with
                       | Some i => ret (i, name)
                       | None => fail (not_found "project not found")
                       end).

(** ** The controller *)

Section Controller.
Context (Encrypt : string -> string -> string) (rnd : nat -> string) (RobotPrefix : string) (attempts : nat).

Definition GenerateRandomString : M store string := fun s => (Ok (rnd (draws s)), with_draws s (S (draws s))).

Definition has_char (lo hi : N) (s : string) : bool :=
  existsb (fun c => (lo <=? Ascii.N_of_ascii c)%N && (Ascii.N_of_ascii c <=? hi)%N) (String.list_ascii_of_string s).

Definition IsValidSec (secret : string) : bool :=
  (8 <=? String.length secret)%nat && (String.length secret <=? 128)%nat
  && has_char 97 122 secret && has_char 65 90 secret && has_char 48 57 secret.

(** Draws until the string is valid; the last one drawn is the secret. *)
Fixpoint draw_secret (n : nat) : M store string :=
  match n with
  | O => fail (Wrap (New "retry timeout") "failed to generate an valid random secret for robot")
  | S n => pwd <- GenerateRandomString ;; if IsValidSec pwd then ret pwd else draw_secret n
  end.

Definition CreateSec (salt : option string) : M store (string * string * string) :=
  pwd <- draw_secret attempts ;;
  salt <- (match salt with Some s => ret s | None => GenerateRandomString end) ;;
  ret (Encrypt pwd salt, pwd, salt).

Definition toScope (p : Permission) : M store string :=
  if Kind p =s= LEVELSYSTEM then
    if negb (Namespace p =s= "/") then fail (bad_request "unknown namespace") else ret SCOPESYSTEM
  else if Kind p =s= LEVELPROJECT then
    if Namespace p =s= "*" then ret SCOPEALLPROJECT
    else pro <- project_GetByName (Namespace p) ;; ret ("/project/" ++ Strconv.format_int pro.1)%string
  else fail (bad_request "unknown robot kind").

Definition convertScope (scope : string) : M store (string * string) :=
  if scope =s= "" then ret ("", "")
  else if scope =s= SCOPESYSTEM then ret (LEVELSYSTEM, "/")
  else if scope =s= SCOPEALLPROJECT then ret (LEVELPROJECT, "*")
  else match Rbac.project_NamespaceParse scope with
       | Some (Rbac.NSProject id) => pro <- project_Get id ;; ret (LEVELPROJECT, pro.2)
       | _ => fail (New "got no namespace from the resource")
       end.

Definition create_access (robotID : Z) (scope : string) (a : Policy) : M store unit :=
  policyID <- CreateRbacPolicy (mkPP scope (Rbac.Resource a) (Rbac.Action a) (Rbac.Effect a)) ;;
  CreatePermission (mkRP ROBOTTYPE robotID policyID) ;;; ret tt.

Definition createPermission (robotID : Z) (ps : list Permission) : M store unit :=
  iterM (fun p => scope <- toScope p ;; iterM (create_access robotID scope) (Access p)) ps.

(** The accesses by scope, in the order of their first appearance. *)
Fixpoint add_access (scope : string) (a : Policy) (l : list (string * list Policy)) : list (string * list Policy) :=
  match l with
  | [] => [(scope, [a])]
  | (sc, as_) :: l => if sc =s= scope then (sc, as_ ++ [a]) :: l else (sc, as_) :: add_access scope a l
  end.

Definition accessMap (rps : list PermissionPolicy) : list (string * list Policy) :=
  foldl (fun m rp => add_access (pp_Scope rp) (mkPolicy (pp_Resource rp) (pp_Action rp) (pp_Effect rp)) m) [] rps.

(** A scope whose project is gone is left out. *)
Fixpoint convert_all (l : list (string * list Policy)) : M store (list Permission) :=
  match l with
  | [] => ret []
  | (scope, accesses) :: l =>
      r <- try (convertScope scope) ;;
      match r with
      | Ok (kind, namespace) => rest <- convert_all l ;; ret (mkPermission kind namespace accesses scope :: rest)
      | Err e => if IsNotFoundErr e then convert_all l else fail e
      end
  end.

Definition populatePermissions (r : Robot) : M store Robot :=
  rps <- GetPermissionsByRole ROBOTTYPE (ID (row r)) ;;
  match rps with
  | [] => ret r
  | _ => ps <- convert_all (accessMap rps) ;;
         ret (mkRobot (row r) (ProjectName r) (ProjectNameOrID r) (Level r) (Editable r) ps)
  end.

Definition setLevel (r : RobotRow) : string := if ProjectID r =? 0 then LEVELSYSTEM else LEVELPROJECT.
Definition setEditable (r : RobotRow) : bool := negb (Secret r =s= "").

Definition with_name (r : RobotRow) (name : string) : RobotRow :=
  mkRobotRow (ID r) name (Description r) (Secret r) (Salt r) (Duration r) (ProjectID r) (ExpiresAt r) (Disabled r)
    (Visible r) (CreatorRef r) (CreatorType r) (CreationTime r).

Definition populate (withPermission : bool) (r : RobotRow) : M store Robot :=
  let name := if setEditable r then (RobotPrefix ++ Name r)%string else Name r in
  let robot := mkRobot (with_name r name) "" None (setLevel r) (setEditable r) [] in
  if withPermission then populatePermissions robot else ret robot.

Definition Get (id : Z) (withPermission : bool) : M store Robot :=
  r <- robot_dao_Get id ;; populate withPermission r.

Fixpoint mapM_ {A B} (f : A -> M store B) (l : list A) : M store (list B) :=
  match l with
  | [] => ret []
  | x :: l => y <- f x ;; ys <- mapM_ f l ;; ret (y :: ys)
  end.

Definition List_ (p : RobotRow -> bool) (withPermission : bool) : M store (list Robot) :=
  rs <- robot_dao_List p ;; mapM_ (populate withPermission) rs.

Definition add_days (t days : Z) : Z := t + days * 86400.

Definition Create (r : Robot) (now : Z) : M store (Z * string) :=
  let x := row r in
  let expiresAt := if Duration x =? -1 then -1 else add_days now (Duration x) in
  sec <- CreateSec None ;;
  let name := if Level r =s= LEVELPROJECT then (ProjectName r ++ "+" ++ Name x)%string else Name x in
  robotID <- robot_dao_Create (mkRobotRow 0 name (Description x) sec.1.1 sec.2 (Duration x) (ProjectID x) expiresAt false
                                (Visible x) (CreatorRef x) (CreatorType x) now) now ;;
  createPermission robotID (Permissions r) ;;;
  ret (robotID, sec.1.2).

Definition Delete (id : Z) : M store unit :=
  robot_dao_Get id ;;; robot_dao_Delete id ;;; DeletePermissionsByRole ROBOTTYPE id.

Definition Update (r : Robot) (withPermission : bool) : M store unit :=
  robot_dao_Update (row r) ;;;
  if withPermission then
    d <- try (DeletePermissionsByRole ROBOTTYPE (ID (row r))) ;;
    match d with
    | Err e => if IsNotFoundErr e then createPermission (ID (row r)) (Permissions r) else fail e
    | Ok _ => createPermission (ID (row r)) (Permissions r)
    end
  else ret tt.

(** [SetProject]: the project of a project robot is that of its first permission;
    without a permission the index panics. *)
Definition SetProject (r : Robot) : M store Robot :=
  if Level r =s= LEVELPROJECT then
    match Permissions r with
    | [] => fail (Panic "index out of range")
    | p :: _ =>
        pro <- project_GetByName (Namespace p) ;;
        let x := row r in
        ret (mkRobot (mkRobotRow (ID x) (Name x) (Description x) (Secret x) (Salt x) (Duration x) pro.1 (ExpiresAt x)
                        (Disabled x) (Visible x) (CreatorRef x) (CreatorType x) (CreationTime x))
               pro.2 (ProjectNameOrID r) (Level r) (Editable r) (Permissions r))
    end
  else ret r.

(** ** Authentication *)

(** The robot that a name and a secret stand for. *)
Definition Generate (name secret : string) (now : Z) : M store (option Robot) :=
  if negb (HasPrefix name RobotPrefix) then ret None
  else
    rs <- try (List_ (fun x => Name x =s= TrimPrefix name RobotPrefix) true) ;;
    match rs with
    | Err _ | Ok [] => ret None
    | Ok (r :: _) =>
        if negb (Encrypt secret (Salt (row r)) =s= Secret (row r)) then ret None
        else if Disabled (row r) then ret None
        else if negb (ExpiresAt (row r) =? -1) && (ExpiresAt (row r) <=? now) then ret None
        else ret (Some r)
    end.
End Controller.

(** ** The handlers of the API *)

(** What a request gives; entries of lists can be null. *)
Record RobotPermission := mkRobotPermission {
  ap_Kind : string;
  ap_Namespace : string;
  ap_Access : list (option Policy);
}.

Record RobotCreate := mkRobotCreate {
  cr_Name : string;
  cr_Description : string;
  cr_Duration : Z;
  cr_Level : string;
  cr_Permissions : list (option RobotPermission);
}.

Record RobotUpdate := mkRobotUpdate {
  ur_Name : string;
  ur_Description : string;
  ur_Duration : option Z;
  ur_Level : string;
  ur_Disable : bool;
  ur_Permissions : list (option RobotPermission);
}.

(** Who makes a request: a local user, a robot, or another kind of context. *)
Inductive identity := LocalUser (userID : Z) | RobotUser (r : option Robot) | OtherContext.

Record secctx := mkSecctx {
  who : identity;
  sc_Name : string;
  IsAuthenticated : bool;
  Can : string -> string -> bool;
}.

Definition isValidLevel (l : string) : bool := (l =s= LEVELSYSTEM) || (l =s= LEVELPROJECT).
Definition MaxInt32 : Z := 2 ^ 31 - 1.
Definition isValidDuration (d : Z) : bool := (d =? -1) || ((0 <? d) && (d <? MaxInt32)).

Definition name_char (c : ascii) : bool :=
  let n := Ascii.N_of_ascii c in ((97 <=? n)%N && (n <=? 122)%N) || ((48 <=? n)%N && (n <=? 57)%N).
Definition name_sep (c : ascii) : bool := Ascii.eqb c "." || Ascii.eqb c "_" || Ascii.eqb c "-".

(** Lower case words, each of one character at least, with one separator between
    them; [word] says that a word has begun. *)
Fixpoint name_from (word : bool) (s : string) : bool :=
  match s with
  | EmptyString => word
  | String c s => if name_char c then name_from true s else if name_sep c && word then name_from false s else false
  end.

Definition validateName (name : string) : result unit :=
  if name_from false name then Ok tt else Err (BadRequestError None).

Definition containsAccess (policies : list Policy) (item : Policy) : bool :=
  existsb (fun po => (Rbac.Resource po =s= Rbac.Resource item) && (Rbac.Action po =s= Rbac.Action item)) policies.

Definition guard_ (b : bool) (message : string) : result unit := if b then Ok tt else Err (bad_request message).

Definition bindr {A B} (x : result A) (f : A -> result B) : result B :=
  match x with Ok a => f a | Err e => Err e end.

(** The first error of a list of checks. *)
Definition check_all {A} (f : A -> result unit) (l : list A) : result unit :=
  foldl (fun acc x => bindr acc (fun _ => f x)) (Ok tt) l.

Definition not_empty_permission (p : option RobotPermission) : result unit :=
  match p with
  | None => Err (bad_request "bad request empty permission")
  | Some p =>
      bindr (guard_ (negb (length (ap_Access p) =? 0)%nat) "bad request empty access") (fun _ =>
      check_all (fun a => guard_ (match a with Some _ => true | None => false end) "bad request empty access") (ap_Access p))
  end.

Definition allowed_permission (p : option RobotPermission) : result unit :=
  match p with
  | None => Ok tt
  | Some p =>
      let known s := check_all (fun a => guard_ (match a with Some a => containsAccess (GetPermissions s) a | None => true end)
                                           "bad request permission") (ap_Access p) in
      if ap_Kind p =s= LEVELSYSTEM then known ScopeSystem
      else if ap_Kind p =s= LEVELPROJECT then known ScopeProject
      else Err (bad_request "bad request permission level")
  end.

Definition validate (d : Z) (level : string) (permissions : list (option RobotPermission)) : result unit :=
  bindr (guard_ (isValidDuration d) "bad request error duration input") (fun _ =>
  bindr (guard_ (isValidLevel level) "bad request error level input") (fun _ =>
  bindr (guard_ (negb (length permissions =? 0)%nat) "bad request empty permission") (fun _ =>
  bindr (check_all not_empty_permission permissions) (fun _ =>
  bindr (guard_ (negb ((level =s= LEVELPROJECT) && (1 <? length permissions)%nat)) "bad request permission") (fun _ =>
  check_all allowed_permission permissions))))).

(** [JSONCopy] of the permissions of a request. *)
Definition copy_permissions (l : list (option RobotPermission)) : list Permission :=
  omap (fun p => p ← p; Some (mkPermission (ap_Kind p) (ap_Namespace p) (omap (fun a => a) (ap_Access p)) "")) l.

(** [JSONCopy] onto permissions that are there already: decoding fills the elements
    of the list that it finds, and keeps the fields that the text leaves out, which
    are the empty ones. *)
Definition over (old new : string) : string := if new =s= "" then old else new.

Fixpoint over_list {A} (f : A -> A -> A) (old new : list A) : list A :=
  match old, new with
  | o :: old, n :: new => f o n :: over_list f old new
  | _, _ => new
  end.

Definition over_access (o n : Policy) : Policy :=
  mkPolicy (over (Rbac.Resource o) (Rbac.Resource n)) (over (Rbac.Action o) (Rbac.Action n))
    (over (Rbac.Effect o) (Rbac.Effect n)).

Definition over_permission (o n : Permission) : Permission :=
  mkPermission (over (Kind o) (Kind n)) (over (Namespace o) (Namespace n))
    (over_list over_access (Access o) (Access n)) (Scope o).

(** The key of an access. *)
Definition access_key (a : Policy) : string := (Rbac.Resource a ++ ":" ++ Rbac.Action a ++ ":" ++ Rbac.Effect a)%string.

Definition hasLessThanOrEqualAccess (creating creator : list Policy) : bool :=
  let m : gmap string Policy := foldl (fun m p => <[access_key p := p]> m) ∅ creator in
  forallb (fun a => match m !! access_key a with Some _ => true | None => false end) creating.

(** The last permission of a key counts. *)
Definition creatorMap (creator : list Permission) : gmap string Permission :=
  foldl (fun m p => <[(Kind p ++ ":" ++ Namespace p)%string := p]> m) ∅ creator.

Definition isValidPermissionScope (creating creator : list Permission) : bool :=
  let m := creatorMap creator in
  forallb (fun p =>
    match (match m !! (Kind p ++ ":" ++ Namespace p)%string with
           | Some c => Some c
           | None => m !! (Kind p ++ ":*")%string
           end) with
    | Some c => hasLessThanOrEqualAccess (Access p) (Access c)
    | None => false
    end) creating.

Definition GetSecurityContext (sc : option secctx) : M store secctx :=
  match sc with Some sc => ret sc | None => fail UnauthorizedError end.

Definition RequireAuthenticated (sc : option secctx) : M store unit :=
  sc <- GetSecurityContext sc ;; if IsAuthenticated sc then ret tt else fail UnauthorizedError.

Definition RequireSystemAccess (sc : option secctx) (action subresource : string) : M store unit :=
  sc <- GetSecurityContext sc ;;
  if negb (IsAuthenticated sc) then fail UnauthorizedError
  else if negb (Can sc action (Rbac.system_Resource [subresource])) then fail ForbiddenError else ret tt.

Definition can_project (sc : option secctx) (projectID : Z) (action subresource : string) : M store unit :=
  sc <- GetSecurityContext sc ;;
  if Can sc action (Rbac.project_Resource projectID [subresource]) then ret tt
  else if negb (IsAuthenticated sc) then fail UnauthorizedError else fail ForbiddenError.

(** By name; a project that is not found counts as the project 0, and so does the
    empty name. *)
Definition RequireProjectAccess (sc : option secctx) (name action subresource : string) : M store unit :=
  if name =s= "" then can_project sc 0 action subresource
  else
    p <- try (project_GetByName name) ;;
    match p with
    | Ok p => can_project sc p.1 action subresource
    | Err e => if IsNotFoundErr e then can_project sc 0 action subresource else fail e
    end.

Definition requireAccess (sc : option secctx) (r : Robot) (action : string) : M store unit :=
  if Level r =s= LEVELSYSTEM then RequireSystemAccess sc action "robot"
  else if Level r =s= LEVELPROJECT then
    match ProjectNameOrID r with
    | Some ns => RequireProjectAccess sc ns action "robot"
    | None =>
        if 0 <? ProjectID (row r) then can_project sc (ProjectID (row r)) action "robot"
        else if negb (ProjectName r =s= "") then RequireProjectAccess sc (ProjectName r) action "robot"
        else fail (Plain "harborIDOrName is nil")
    end
  else fail ForbiddenError.

(** The namespace of the first permission of a checked request. *)
Definition first_namespace (l : list (option RobotPermission)) : M store string :=
  match l with
  | Some p :: _ => ret (ap_Namespace p)
  | _ => fail (Panic "index out of range")
  end.

Section Handlers.
Context (Encrypt : string -> string -> string) (rnd : nat -> string) (RobotPrefix : string) (attempts : nat).

(** The creator of a robot: a robot may give away only what it has. *)
Definition creator (sc : secctx) (permissions : list Permission) : M store Z :=
  match who sc with
  | LocalUser id => ret id
  | RobotUser None => fail (New "invalid security context: empty robot account")
  | RobotUser (Some u) =>
      if isValidPermissionScope permissions (Permissions u) then ret (ID (row u))
      else fail (WithCode (New "permission scope is invalid") DENIED)
  | OtherContext => fail (New "invalid security context")
  end.

Definition CreateRobot (sc : option secctx) (p : RobotCreate) (now : Z) : M store (Robot * string) :=
  of_result (validateName (cr_Name p)) ;;;
  of_result (validate (cr_Duration p) (cr_Level p) (cr_Permissions p)) ;;;
  c <- GetSecurityContext sc ;;
  ns <- first_namespace (cr_Permissions p) ;;
  let x ref := mkRobotRow 0 (cr_Name p) (cr_Description p) "" "" (cr_Duration p) 0 0 false true ref (sc_Name c) 0 in
  requireAccess sc (mkRobot (x 0) "" (Some ns) (cr_Level p) false []) "create" ;;;
  ref <- creator c (copy_permissions (cr_Permissions p)) ;;
  r <- SetProject (mkRobot (x ref) "" (Some ns) (cr_Level p) false (copy_permissions (cr_Permissions p))) ;;
  created <- Create Encrypt rnd attempts r now ;;
  g <- Get RobotPrefix created.1 false ;;
  ret (g, created.2).

(** For a legacy robot the missing permissions are no error. *)
Definition DeleteRobot (sc : option secctx) (id : Z) : M store unit :=
  RequireAuthenticated sc ;;;
  r <- Get RobotPrefix id false ;;
  requireAccess sc r "delete" ;;;
  d <- try (Delete id) ;;
  match d with
  | Ok _ => ret tt
  | Err e => if negb (Editable r) && IsNotFoundErr e then ret tt else fail e
  end.

Definition GetRobotByID (sc : option secctx) (id : Z) : M store Robot :=
  RequireAuthenticated sc ;;;
  r <- Get RobotPrefix id true ;;
  requireAccess sc r "read" ;;;
  ret r.

Definition updateV2Robot (sc : option secctx) (p : RobotUpdate) (r : Robot) : M store unit :=
  let duration := default (Duration (row r)) (ur_Duration p) in
  of_result (validate duration (ur_Level p) (ur_Permissions p)) ;;;
  ns <- first_namespace (ur_Permissions p) ;;
  (if negb (Level r =s= LEVELSYSTEM) then
     pro <- project_GetByName ns ;;
     if negb (ProjectID (row r) =? pro.1) then fail (BadRequestError None) else ret tt
   else ret tt) ;;;
  requireAccess sc (mkRobot (row r) (ProjectName r) (Some ns) (Level r) (Editable r) (Permissions r)) "update" ;;;
  (if negb (ur_Level p =s= Level r) || negb (ur_Name p =s= Name (row r)) then fail (BadRequestError None) else ret tt) ;;;
  let x := row r in
  let expiresAt := if Duration x =? duration then ExpiresAt x
                   else if duration =? -1 then -1 else add_days (CreationTime x) duration in
  Update (mkRobot (mkRobotRow (ID x) (Name x) (ur_Description p) (Secret x) (Salt x) duration (ProjectID x) expiresAt
                     (ur_Disable p) (Visible x) (CreatorRef x) (CreatorType x) (CreationTime x))
            (ProjectName r) (Some ns) (Level r) (Editable r)
            (over_list over_permission (Permissions r) (copy_permissions (ur_Permissions p)))) true.

Definition UpdateRobot (sc : option secctx) (id : Z) (p : RobotUpdate) : M store unit :=
  RequireAuthenticated sc ;;;
  r <- Get RobotPrefix id true ;;
  if negb (Editable r) then fail (DeniedError None) else updateV2Robot sc p r.

Definition with_secret (r : RobotRow) (secret : string) : RobotRow :=
  mkRobotRow (ID r) (Name r) (Description r) secret (Salt r) (Duration r) (ProjectID r) (ExpiresAt r) (Disabled r)
    (Visible r) (CreatorRef r) (CreatorType r) (CreationTime r).

(** The new secret, which is shown when it was drawn. *)
Definition RefreshSec (sc : option secctx) (id : Z) (given : string) : M store string :=
  RequireAuthenticated sc ;;;
  r <- Get RobotPrefix id false ;;
  requireAccess sc r "update" ;;;
  sec <- (if negb (given =s= "") then
            if negb (IsValidSec given) then fail (bad_request "the secret must be 8-128 characters long")
            else ret (Encrypt given (Salt (row r)), "")
          else c <- CreateSec Encrypt rnd attempts (Some (Salt (row r))) ;; ret (c.1.1, c.1.2)) ;;
  Update (mkRobot (with_secret (row r) sec.1) (ProjectName r) (ProjectNameOrID r) (Level r) (Editable r) (Permissions r)) false ;;;
  ret sec.2.
End Handlers.
