(* ===== verification/RobotRights.v ===== *)
(** * What robot accounts may do

    The robots of [Robot] with the evaluators of [Rbac]: what a robot that
    creates robots can hand on, and how far a permission on the projects
    themselves reaches. *)

From S2P Require Import Prelude Errors Rbac.
From S2P Require Robot.
Import GoStrings.

(** The robot in a security context. *)
Definition ctx_robot (r : Robot.Robot) : Robot :=
  mkRobot (Robot.Name (Robot.row r)) (Robot.Level r)
    ((fun p => mkPermission (Robot.Scope p) (Robot.Access p)) <$> Robot.Permissions r).

(** ** Keys with a wildcard *)

Lemma plain_not_newline c : plain c = true -> Ascii.eqb c newline = false.
Proof. intros H. apply Ascii.eqb_neq. intros ->. by vm_compute in H. Qed.

Lemma any_text_app f x t : all_plain x = true -> f t = true -> any_text f (x ++ t) = true.
Proof.
  intros Hx Ht. induction x as [|c x IH]; [change (any_text f t = true); destruct t; cbn [any_text]; by rewrite Ht|].
  cbn in Hx. apply andb_true_iff in Hx as [Hc Hx].
  change (f (String c (x ++ t)) || (negb (Ascii.eqb c newline) && any_text f (x ++ t)) = true).
  rewrite (plain_not_newline c Hc), (IH Hx). apply orb_true_r.
Qed.

(** The resources of all projects. *)
Lemma build_all_projects t : all_plain t = true ->
  keyMatch2Build ("/project/*" ++ t) = Some ((chars "/project/" ++ [AnyText]) ++ chars t).
Proof.
  intros Ht. assert (E : keyMatch2Build ("/project/*" ++ t)
    = foldr (fun c m => re ← m; Some (Char c :: re)) (re ← keyMatch2Build t; Some (Char "/" :: AnyText :: re))
        ["/"; "p"; "r"; "o"; "j"; "e"; "c"; "t"]%char) by reflexivity.
  rewrite E, (build_plain t Ht). reflexivity.
Qed.

Lemma keyMatch2_all_projects other x t u : all_plain t = true -> all_plain x = true -> u = t ->
  keyMatch2 other ("/project/" ++ x ++ u) ("/project/*" ++ t) = true.
Proof.
  intros Ht Hx ->. unfold keyMatch2. rewrite build_all_projects by done.
  transitivity (any_text (MatchString (chars t)) (x ++ t)); [reflexivity|].
  apply any_text_app; [done|]. rewrite match_chars. apply String.eqb_refl.
Qed.

(** ** The answers of a fresh context *)

Section Rights.
Context {other_keys : string -> string -> bool} {casbin : Casbin other_keys}.

Abbreviation allows l := (forall q, q ∈ l -> GetEffect q = EffectAllow).

Definition public_of (p : Project) : list Policy :=
  if IsPublic p then getPoliciesForPublicProject (ProjectID p) else [].

Lemma policies_user p name l q : q ∈ all_policies (mkRbacUser (Some p) name [] l) <-> q ∈ l \/ q ∈ public_of p.
Proof. unfold all_policies, user_GetPolicies, public_of. cbn. rewrite app_nil_r. apply elem_of_app. Qed.

Lemma allows_public p : allows (public_of p).
Proof. intros q Hq. unfold public_of in Hq. destruct (IsPublic p); [by apply public_allows in Hq|by apply not_elem_of_nil in Hq]. Qed.

(** A project evaluator that nobody has asked yet. *)
Lemma fresh_project db name filtered ctx res act l pid p :
  name <> "" -> allows l -> NamespaceFromResource res = Some (NSProject pid) -> get_project db pid = Ok p ->
  (project_HasPermission db (ForPolicies name filtered) ctx res act (mkProjEval ∅ l)).1 = true
  <-> exists q, (q ∈ (if filtered then filterRobotPolicies p l else l) \/ q ∈ public_of p)
                /\ applies (other_keys := other_keys) q res act = true.
Proof.
  intros Hn Hl Hr Hp. unfold project_HasPermission. rewrite Hr. cbn [cache captured]. rewrite lookup_empty.
  unfold project_factory. rewrite Hp. cbn [run_builder fst eva_HasPermission].
  rewrite rbac_HasPermission_spec; [|done|].
  - setoid_rewrite policies_user. done.
  - intros q [Hq|Hq]%policies_user; [|by apply allows_public in Hq].
    destruct filtered; [by apply (filter_allows p l Hl)|by apply Hl].
Qed.

(** The policies of one robot that stand for those of another. *)
Definition covered (l : list Policy) (q : Policy) : Prop :=
  exists q', q' ∈ l /\ Action q' = Action q /\ GetEffect q' = GetEffect q
    /\ HasPrefix (Resource q') "/system" = HasPrefix (Resource q) "/system"
    /\ HasPrefix (Resource q') "/project" = HasPrefix (Resource q) "/project"
    /\ forall res act, applies (other_keys := other_keys) q res act = true -> applies (other_keys := other_keys) q' res act = true.

Lemma project_part_false db r ctx res act :
  (match NamespaceFromResource res with Some (NSProject _) => False | _ => True end) ->
  (if (length (proPolicies r) =? 0)%nat then (false, mkProjEval ∅ (proPolicies r))
   else project_HasPermission db (ForPolicies (r_Name r) false) ctx res act (mkProjEval ∅ (proPolicies r))).1 = false.
Proof.
  intros Hr. destruct (length (proPolicies r) =? 0)%nat; [done|]. unfold project_HasPermission.
  by destruct (NamespaceFromResource res) as [[]|].
Qed.

Lemma system_answer db r ctx res act :
  r_Level r = "system" -> r_Name r <> "" -> allows (robot_accesses r) ->
  (robot_Can db (Some r) ctx act res (robot_start r)).1 = true
  <-> (NamespaceFromResource res = Some NSSystem /\ exists q, q ∈ sysPolicies r /\ applies (other_keys := other_keys) q res act = true)
      \/ exists pid p q, NamespaceFromResource res = Some (NSProject pid) /\ get_project db pid = Ok p
           /\ proPolicies r <> [] /\ (q ∈ proPolicies r \/ q ∈ public_of p)
           /\ applies (other_keys := other_keys) q res act = true.
Proof.
  intros Hl Hn Ha. unfold robot_Can, robot_start. rewrite Hl. cbn [String.eqb Ascii.eqb Bool.eqb].
  change ("system" =s= "system") with true. cbn match.
  assert (Hs : allows (sysPolicies r)).
  { intros q Hq. apply Ha. apply list_elem_of_In, List.filter_In in Hq as [Hq _]. by apply list_elem_of_In. }
  assert (Hp : allows (proPolicies r)).
  { intros q Hq. apply Ha. apply list_elem_of_In, List.filter_In in Hq as [Hq _]. by apply list_elem_of_In. }
  destruct (NamespaceFromResource res) as [[pid|]|] eqn:Hr.
  - unfold system_HasPermission. rewrite Hr, andb_false_r. cbn [fst].
    destruct (proPolicies r) as [|q0 l] eqn:Ep.
    + cbn. split; [done|]. intros [[? _]|(? & ? & ? & _ & _ & ? & _)]; done.
    + rewrite <- Ep in *. replace (length (proPolicies r) =? 0)%nat with false by (by rewrite Ep).
      destruct (get_project db pid) as [p|e] eqn:Eg.
      * rewrite (fresh_project db _ false ctx res act _ pid p Hn Hp Hr Eg). split.
        -- intros (q & Hq & Hq'). right. exists pid, p, q. repeat split; try done. by rewrite Ep.
        -- intros [[? _]|(pid' & p' & q & [= <-] & Eg' & _ & Hq & Hq')]; [done|].
           rewrite Eg in Eg'. injection Eg' as <-. by exists q.
      * unfold project_HasPermission. rewrite Hr. cbn [cache captured]. rewrite lookup_empty.
        unfold project_factory. rewrite Eg. cbn. split; [done|].
        intros [[? _]|(pid' & p' & q & [= <-] & Eg' & _)]; [done|]. by rewrite Eg in Eg'.
  - destruct (sysPolicies r) as [|q0 l] eqn:Es.
    + cbn. pose proof (project_part_false db r ctx res act) as E. rewrite Hr in E. specialize (E ltac:(done)).
      rewrite E. split; [done|]. intros [[_ (q & Hq & _)]|(? & ? & ? & ? & _)]; [by apply not_elem_of_nil in Hq|done].
    + rewrite <- Es in *. replace (length (sysPolicies r) =? 0)%nat with false by (by rewrite Es). cbn [negb andb].
      unfold system_HasPermission. rewrite Hr.
      assert (Hspec : rbac_HasPermission (mkRbacUser None (r_Name r) [] (sysPolicies r)) res act = true
        <-> exists q, q ∈ sysPolicies r /\ applies (other_keys := other_keys) q res act = true).
      { rewrite rbac_HasPermission_spec; [|done|]; unfold all_policies, user_GetPolicies; cbn; rewrite app_nil_r; done. }
      destruct (rbac_HasPermission _ res act).
      * split; [|done]. intros _. left. split; [done|]. by apply Hspec.
      * pose proof (project_part_false db r ctx res act) as E. rewrite Hr in E. specialize (E ltac:(done)).
        rewrite E. split; [done|]. intros [[_ H]|(? & ? & ? & ? & _)]; [|done]. by apply Hspec in H.
  - pose proof (project_part_false db r ctx res act) as E. rewrite Hr in E. specialize (E ltac:(done)).
    unfold system_HasPermission. rewrite Hr, andb_false_r, E. split; [done|].
    intros [[? _]|(? & ? & ? & ? & _)]; done.
Qed.
End Rights.

(** ** Delegation *)

(** A permission whose scope is that of its kind and namespace. *)
Definition scoped (projects : gmap Z string) (p : Robot.Permission) : Prop :=
  (Robot.Kind p = "system" /\ Robot.Namespace p = "/" /\ Robot.Scope p = "/system")
  \/ (Robot.Kind p = "project" /\ Robot.Namespace p = "*" /\ Robot.Scope p = "/project/*")
  \/ (Robot.Kind p = "project" /\ Robot.Namespace p <> "*"
      /\ exists id, projects !! id = Some (Robot.Namespace p) /\ Robot.Scope p = ("/project/" ++ Strconv.format_int id)%string).

Definition kind_scope (kind : string) : Robot.scope_kind :=
  if kind =s= "system" then Robot.ScopeSystem else Robot.ScopeProject.

(** Accesses from the lists of what robots can have. *)
Definition known (p : Robot.Permission) : Prop :=
  forall a, a ∈ Robot.Access p -> Robot.containsAccess (Robot.GetPermissions (kind_scope (Robot.Kind p))) a = true.

Definition plain_access (a : Policy) : bool := all_plain (Resource a) && all_plain (Action a) && negb (Action a =s= "*").

Lemma known_plain k a : Robot.containsAccess (Robot.GetPermissions k) a = true -> plain_access a = true.
Proof.
  intros H. apply existsb_exists in H as (po & Hpo & H). apply andb_true_iff in H as [H1 H2].
  apply String.eqb_eq in H1, H2. assert (Hall : forallb plain_access (Robot.GetPermissions k) = true)
    by (destruct k; vm_compute; reflexivity).
  rewrite forallb_forall in Hall. specialize (Hall po Hpo). unfold plain_access in *. by rewrite <- H1, <- H2.
Qed.

Lemma plain_no_colon s : all_plain s = true -> lacks ":" s = true.
Proof.
  induction s as [|c s IH]; [done|]. cbn. intros [Hc Hs]%andb_true_iff. rewrite (IH Hs), andb_true_r, negb_true_iff.
  apply Ascii.eqb_neq. intros ->. by vm_compute in Hc.
Qed.

Lemma access_key_inj a b : plain_access a = true -> plain_access b = true ->
  Robot.access_key a = Robot.access_key b -> a = b.
Proof.
  unfold plain_access, Robot.access_key. rewrite !andb_true_iff. intros [[Ha1 Ha2] _] [[Hb1 Hb2] _] E.
  apply (split_sep ":") in E as [E1 E]; [|by apply plain_no_colon..].
  apply (split_sep ":") in E as [E2 E3]; [|by apply plain_no_colon..]. destruct a, b. cbn in *. congruence.
Qed.

(** What is looked up in a map of the last occurrences is an element with the key. *)
Lemma last_of_key {A} (key : A -> string) l (m : gmap string A) k x :
  foldl (fun m p => <[key p := p]> m) m l !! k = Some x -> m !! k = Some x \/ (x ∈ l /\ key x = k).
Proof.
  revert m. induction l as [|y l IH]; intros m; cbn; [by left|]. intros H.
  destruct (IH _ H) as [H'|[H1 H2]]; [|right; split; [by right|done]].
  apply lookup_insert_Some in H' as [[<- <-]|[_ H']]; [right; split; [left|done]|by left].
Qed.

Lemma creatorMap_lookup l k c : Robot.creatorMap l !! k = Some c ->
  c ∈ l /\ (Robot.Kind c ++ ":" ++ Robot.Namespace c)%string = k.
Proof. intros H. apply last_of_key in H as [H|H]; [by rewrite lookup_empty in H|done]. Qed.

Lemma less_access xs ys a : Robot.hasLessThanOrEqualAccess xs ys = true -> a ∈ xs ->
  exists b, b ∈ ys /\ Robot.access_key b = Robot.access_key a.
Proof.
  unfold Robot.hasLessThanOrEqualAccess. rewrite forallb_forall. intros H Ha.
  specialize (H a (proj1 (list_elem_of_In _ _) Ha)).
  destruct (foldl _ _ _ !! _) as [b|] eqn:E; [|done]. apply last_of_key in E as [E|E]; [by rewrite lookup_empty in E|].
  by exists b.
Qed.

(** Each access that is handed on comes from a permission of the creator, for the
    same scope or for all projects. *)
Lemma delegated projects ps cs p a :
  (forall i j n, projects !! i = Some n -> projects !! j = Some n -> i = j) ->
  Robot.isValidPermissionScope ps cs = true ->
  (forall p, p ∈ ps -> scoped projects p /\ known p) -> (forall c, c ∈ cs -> scoped projects c /\ known c) ->
  p ∈ ps -> a ∈ Robot.Access p ->
  exists c, c ∈ cs /\ a ∈ Robot.Access c
    /\ (Robot.Scope c = Robot.Scope p
        \/ Robot.Scope c = "/project/*" /\ exists id, Robot.Scope p = ("/project/" ++ Strconv.format_int id)%string).
Proof.
  intros Hu Hv Hps Hcs Hp Ha. unfold Robot.isValidPermissionScope in Hv. rewrite forallb_forall in Hv.
  specialize (Hv p (proj1 (list_elem_of_In _ _) Hp)). destruct (Hps p Hp) as [Sp Kp].
  assert (Hc : exists c, c ∈ cs /\ Robot.hasLessThanOrEqualAccess (Robot.Access p) (Robot.Access c) = true
    /\ ((Robot.Kind c ++ ":" ++ Robot.Namespace c = Robot.Kind p ++ ":" ++ Robot.Namespace p)%string
        \/ (Robot.Kind c ++ ":" ++ Robot.Namespace c = Robot.Kind p ++ ":*")%string)).
  { destruct (Robot.creatorMap cs !! (Robot.Kind p ++ ":" ++ Robot.Namespace p)%string) as [c|] eqn:E.
    - apply creatorMap_lookup in E as [E1 E2]. exists c. auto.
    - destruct (Robot.creatorMap cs !! (Robot.Kind p ++ ":*")%string) as [c|] eqn:E'; [|done].
      apply creatorMap_lookup in E' as [E1 E2]. exists c. auto. }
  destruct Hc as (c & Hc & Hless & Hkey). exists c. split; [done|]. destruct (Hcs c Hc) as [Sc Kc]. split.
  - destruct (less_access _ _ a Hless Ha) as (b & Hb & E). assert (b = a) as <-; [|done].
    apply access_key_inj; [by eapply known_plain, Kc|by eapply known_plain, Kp|done].
  - unfold scoped in Sp, Sc.
    destruct Sp as [(K & N & S)|[(K & N & S)|(K & N & id & Hid & S)]];
    destruct Sc as [(K' & N' & S')|[(K' & N' & S')|(K' & N' & id' & Hid' & S')]];
      rewrite K, K' in Hkey; rewrite S, S'; try rewrite N in Hkey; try rewrite N' in Hkey;
      first [by left | by right; split; [done|exists id] | idtac].
    all: cbn in Hkey.
    all: try (by destruct Hkey as [[= E]|[= E]]).
    left. destruct Hkey as [E|E]; apply (inj (String.append "project:")) in E; [|done]. rewrite E in Hid'. by rewrite (Hu _ _ _ Hid Hid').
Qed.

Section Delegation.
Context {other_keys : string -> string -> bool} {casbin : Casbin other_keys}.

(** The policy of an access, as the security context writes it. *)
Definition policy_of (p : Robot.Permission) (a : Policy) : Policy :=
  mkPolicy (getPolicyResource (mkPermission (Robot.Scope p) (Robot.Access p)) a) (Action a) (Effect a).

Lemma elem_of_accesses r q : q ∈ robot_accesses (ctx_robot r)
  <-> exists p a, p ∈ Robot.Permissions r /\ a ∈ Robot.Access p /\ q = policy_of p a.
Proof.
  unfold robot_accesses, ctx_robot. cbn. rewrite elem_of_concat_fmap. split.
  - intros (x & Hx & Hq). apply list_elem_of_fmap in Hx as (p & -> & Hp). apply list_elem_of_fmap in Hq as (a & -> & Ha).
    by exists p, a.
  - intros (p & a & Hp & Ha & ->). exists (mkPermission (Robot.Scope p) (Robot.Access p)). split.
    + apply list_elem_of_fmap. by exists p.
    + apply list_elem_of_fmap. by exists a.
Qed.

(** The rest of a resource after its scope. *)
Definition rest_of (a : Policy) : string := if Resource a =s= "project" then "" else ("/" ++ Resource a)%string.

Lemma policy_resource_project p a x : Robot.Scope p = ("/project/" ++ x)%string ->
  Resource (policy_of p a) = ("/project/" ++ x ++ rest_of a)%string.
Proof.
  intros E. unfold policy_of, getPolicyResource, rest_of. cbn [Resource Scope]. rewrite E.
  replace (HasPrefix ("/project/" ++ x) "/project") with true
    by (symmetry; apply (HasPrefix_app "/project" ("/" ++ x))). cbn [andb].
  change ResourceProject with "project". destruct (Resource a =s= "project").
  - by rewrite app_nil.
  - by rewrite app_assoc.
Qed.

Lemma rest_plain a : plain_access a = true -> all_plain (rest_of a) = true.
Proof.
  unfold plain_access, rest_of. rewrite !andb_true_iff. intros [[H _] _]. destruct (Resource a =s= "project"); [done|].
  rewrite all_chars_app, H. done.
Qed.

(** A permission for all projects covers the same access of one project. *)
Lemma wildcard_applies p c a id res act : plain_access a = true ->
  Robot.Scope c = "/project/*" -> Robot.Scope p = ("/project/" ++ Strconv.format_int id)%string ->
  applies (other_keys := other_keys) (policy_of p a) res act = true ->
  applies (other_keys := other_keys) (policy_of c a) res act = true.
Proof.
  intros Ha Hc Hp. unfold applies. rewrite (policy_resource_project p a _ Hp).
  rewrite (policy_resource_project c a "*" Hc). cbn [Action policy_of].
  pose proof (rest_plain a Ha) as Hr. pose proof (plain_format_int id) as Hf.
  rewrite keyMatch2_plain by (by rewrite !all_chars_app, Hr, Hf). rewrite andb_true_iff, String.eqb_eq.
  intros [-> ->]. rewrite andb_true_r. by apply keyMatch2_all_projects.
Qed.

Context (projects : gmap Z string) (r u : Robot.Robot).
Hypothesis names_unique : forall i j n, projects !! i = Some n -> projects !! j = Some n -> i = j.
Hypothesis valid_scope : Robot.isValidPermissionScope (Robot.Permissions r) (Robot.Permissions u) = true.
Hypothesis r_ok : forall p, p ∈ Robot.Permissions r -> scoped projects p /\ known p.
Hypothesis u_ok : forall c, c ∈ Robot.Permissions u -> scoped projects c /\ known c.

(** A policy of the created robot, and one of its creator that applies where it
    does. *)
Lemma covered_policy q : q ∈ robot_accesses (ctx_robot r) -> covered (other_keys := other_keys) (robot_accesses (ctx_robot u)) q
  /\ ((forall c, c ∈ Robot.Permissions u -> Robot.Scope c <> "/project/*") -> q ∈ robot_accesses (ctx_robot u)).
Proof.
  intros (p & a & Hp & Ha & ->)%elem_of_accesses.
  destruct (delegated projects _ _ p a names_unique valid_scope r_ok u_ok Hp Ha) as (c & Hc & Hac & Hs).
  assert (Hin : policy_of c a ∈ robot_accesses (ctx_robot u)) by (apply elem_of_accesses; by exists c, a).
  assert (Hpl : plain_access a = true) by (eapply known_plain, (proj2 (r_ok p Hp)), Ha).
  destruct Hs as [Hs|[Hs [id Hid]]].
  - assert (policy_of p a = policy_of c a) as -> by (unfold policy_of, getPolicyResource; cbn; by rewrite Hs).
    split; [by exists (policy_of c a)|done].
  - split; [|intros H; by destruct (H c Hc)]. exists (policy_of c a). split; [done|]. split; [done|]. split; [done|].
    rewrite (policy_resource_project p a _ Hid), (policy_resource_project c a "*" Hs).
    split; [done|]. split; [done|]. intros res act. by apply (wildcard_applies p c a id).
Qed.

Lemma created_allows : (forall q, q ∈ robot_accesses (ctx_robot u) -> GetEffect q = EffectAllow) ->
  forall q, q ∈ robot_accesses (ctx_robot r) -> GetEffect q = EffectAllow.
Proof. intros Hu q Hq. destruct (covered_policy q Hq) as [(q' & Hq' & _ & <- & _) _]. by apply Hu. Qed.

Lemma covered_filter (keep : string -> bool) q :
  (forall s t, HasPrefix s "/system" = HasPrefix t "/system" -> HasPrefix s "/project" = HasPrefix t "/project" -> keep s = keep t) ->
  q ∈ List.filter (fun p => keep (Resource p)) (robot_accesses (ctx_robot r)) ->
  exists q', q' ∈ List.filter (fun p => keep (Resource p)) (robot_accesses (ctx_robot u))
    /\ forall res act, applies (other_keys := other_keys) q res act = true -> applies (other_keys := other_keys) q' res act = true.
Proof.
  intros Hk Hq. apply list_elem_of_In, List.filter_In in Hq as [Hq E]. apply list_elem_of_In in Hq.
  destruct (covered_policy q Hq) as [(q' & Hq' & _ & _ & E1 & E2 & Happ) _]. exists q'. split; [|done].
  apply list_elem_of_In, List.filter_In. split; [by apply list_elem_of_In|]. rewrite <- E. by apply Hk.
Qed.

Lemma system_delegation db ctx res act :
  Robot.Level r = "system" -> Robot.Level u = "system" ->
  Robot.Name (Robot.row r) <> "" -> Robot.Name (Robot.row u) <> "" ->
  (forall q, q ∈ robot_accesses (ctx_robot u) -> GetEffect q = EffectAllow) ->
  (robot_Can db (Some (ctx_robot r)) ctx act res (robot_start (ctx_robot r))).1 = true ->
  (robot_Can db (Some (ctx_robot u)) ctx act res (robot_start (ctx_robot u))).1 = true.
Proof.
  intros Lr Lu Nr Nu Hu H. apply system_answer in H; [|done|done|by apply created_allows].
  apply system_answer; [done|done|done|]. destruct H as [[Hns (q & Hq & Ha)]|(pid & p & q & Hns & Hg & Hne & Hq & Ha)].
  - left. split; [done|]. destruct (covered_filter (fun s => HasPrefix s "/system") q) as (q' & Hq' & Happ); [done|done|].
    exists q'. split; [done|]. by apply Happ.
  - right. exists pid, p.
    assert (Hcov : forall x, x ∈ proPolicies (ctx_robot r) -> exists x', x' ∈ proPolicies (ctx_robot u)
      /\ forall res act, applies (other_keys := other_keys) x res act = true -> applies (other_keys := other_keys) x' res act = true).
    { intros x Hx. apply (covered_filter (fun s => negb (HasPrefix s "/system") && HasPrefix s "/project") x); [|done].
      by intros s t -> ->. }
    assert (Hne' : proPolicies (ctx_robot u) <> []).
    { destruct (proPolicies (ctx_robot r)) as [|x l] eqn:E; [done|].
      destruct (Hcov x) as (x' & Hx' & _); [left|]. intros E'. rewrite E' in Hx'. by apply not_elem_of_nil in Hx'. }
    destruct Hq as [Hq|Hq]; [|exists q; repeat split; try done; by right]. destruct (Hcov q Hq) as (q' & Hq' & Happ).
    exists q'. repeat split; try done; [by left|by apply Happ].
Qed.

Lemma filter_mono p l l' : (forall q, q ∈ l -> q ∈ l') ->
  forall q, q ∈ filterRobotPolicies p l -> q ∈ filterRobotPolicies p l'.
Proof. intros H q (x & Hx & Hq)%elem_of_concat_fmap. apply elem_of_concat_fmap. exists x. split; [by apply H|done]. Qed.

Lemma project_delegation db ctx res act :
  Robot.Level r <> "system" -> Robot.Level u <> "system" ->
  Robot.Name (Robot.row r) <> "" -> Robot.Name (Robot.row u) <> "" ->
  (forall c, c ∈ Robot.Permissions u -> Robot.Scope c <> "/project/*") ->
  (forall q, q ∈ robot_accesses (ctx_robot u) -> GetEffect q = EffectAllow) ->
  (robot_Can db (Some (ctx_robot r)) ctx act res (robot_start (ctx_robot r))).1 = true ->
  (robot_Can db (Some (ctx_robot u)) ctx act res (robot_start (ctx_robot u))).1 = true.
Proof.
  intros Lr Lu Nr Nu Hw Hu. apply String.eqb_neq in Lr, Lu. unfold robot_Can, robot_start. cbn [r_Level ctx_robot].
  rewrite Lr, Lu. cbn [r_Name ctx_robot]. intros H.
  destruct (NamespaceFromResource res) as [[pid|]|] eqn:Hns; [|by unfold project_HasPermission in H; rewrite Hns in H..].
  destruct (get_project db pid) as [p|e] eqn:Hg.
  2:{ unfold project_HasPermission in H. rewrite Hns in H. cbn [cache captured] in H. rewrite lookup_empty in H.
      unfold project_factory in H. by rewrite Hg in H. }
  rewrite (fresh_project db _ true ctx res act _ pid p) in H; [|done|by apply created_allows|done|done].
  rewrite (fresh_project db _ true ctx res act _ pid p); [|done|done|done|done].
  destruct H as (q & Hq & Ha). exists q. split; [|done]. destruct Hq as [Hq|Hq]; [left|by right].
  revert Hq. apply filter_mono. intros x Hx. by apply (covered_policy x Hx).
Qed.
End Delegation.

(** ** Theorems *)

(** C27: a robot that creates a robot hands on no right that it has not: when the
    API accepts the permissions and the creator's ones all allow, whatever the new
    robot may do at the level of its creator, the creator may do too. *)
Theorem delegation_bounded {other_keys} {casbin : Casbin other_keys} projects r u db ctx res act :
  (forall i j n, projects !! i = Some n -> projects !! j = Some n -> i = j) ->
  Robot.isValidPermissionScope (Robot.Permissions r) (Robot.Permissions u) = true ->
  (forall p, p ∈ Robot.Permissions r -> scoped projects p /\ known p) ->
  (forall c, c ∈ Robot.Permissions u -> scoped projects c /\ known c) ->
  (forall c a, c ∈ Robot.Permissions u -> a ∈ Robot.Access c -> GetEffect a = EffectAllow) ->
  Robot.Level r = Robot.Level u ->
  (Robot.Level u <> "system" -> forall c, c ∈ Robot.Permissions u -> Robot.Scope c <> "/project/*") ->
  Robot.Name (Robot.row r) <> "" -> Robot.Name (Robot.row u) <> "" ->
  (robot_Can db (Some (ctx_robot r)) ctx act res (robot_start (ctx_robot r))).1 = true ->
  (robot_Can db (Some (ctx_robot u)) ctx act res (robot_start (ctx_robot u))).1 = true.
Proof.
  intros Hn Hv Hr Hu He Hl Hw Nr Nu. assert (Ha : forall q, q ∈ robot_accesses (ctx_robot u) -> GetEffect q = EffectAllow).
  { intros q (c & a & Hc & Hac & ->)%elem_of_accesses. apply (He c a Hc Hac). }
  destruct (decide (Robot.Level u = "system")) as [E|E].
  - apply (system_delegation projects); try done. by rewrite Hl.
  - apply (project_delegation projects); try done; [by rewrite Hl|by apply Hw].
Qed.

Definition sample_row (name : string) (projectID : Z) : Robot.RobotRow :=
  Robot.mkRobotRow 7 name "" "x" "" 30 projectID 0 false true 1 "local" 0.

(** A robot that may pull from every project and create robots, and one that it
    creates for the project library. *)
Definition sample_creator : Robot.Robot :=
  Robot.mkRobot (sample_row "robot$ops" 0) "" None "system" true
    [Robot.mkPermission "system" "/" [mkPolicy "robot" "create" ""] "/system";
     Robot.mkPermission "project" "*" [mkPolicy "repository" "pull" ""; mkPolicy "repository" "list" ""] "/project/*"].
Definition sample_created : Robot.Robot :=
  Robot.mkRobot (sample_row "robot$ci" 0) "" None "system" true
    [Robot.mkPermission "project" "library" [mkPolicy "repository" "pull" ""] "/project/1"].

Lemma delegation_bounded_witness :
  (robot_Can sample_db (Some (ctx_robot sample_created)) 0 "pull" "/project/1/repository" (robot_start (ctx_robot sample_created))).1 = true
  /\ (robot_Can sample_db (Some (ctx_robot sample_creator)) 0 "pull" "/project/1/repository" (robot_start (ctx_robot sample_creator))).1 = true.
Proof.
  split; [vm_compute; reflexivity|].
  apply (delegation_bounded {[1 := "library"]} sample_created sample_creator).
  - by intros i j n [<- _]%lookup_singleton_Some [<- _]%lookup_singleton_Some.
  - vm_compute. reflexivity.
  - intros p ->%list_elem_of_singleton. split.
    + right. right. split; [done|]. split; [done|]. by exists 1.
    + intros a ->%list_elem_of_singleton. vm_compute. reflexivity.
  - intros c [->|[->|Hc%not_elem_of_nil]%elem_of_cons]%elem_of_cons; [| |done]; (split; [unfold scoped; cbn; tauto|]).
    + intros a ->%list_elem_of_singleton. vm_compute. reflexivity.
    + intros a [->|[->|Ha%not_elem_of_nil]%elem_of_cons]%elem_of_cons; [| |done]; vm_compute; reflexivity.
  - intros c a [->|[->|Hc%not_elem_of_nil]%elem_of_cons]%elem_of_cons; [| |done]; cbn.
    + by intros ->%list_elem_of_singleton.
    + by intros [->|[->|Ha%not_elem_of_nil]%elem_of_cons]%elem_of_cons.
  - done.
  - done.
  - done.
  - done.
  - vm_compute. reflexivity.
Defined.

(** A permission on the resource project for all projects reaches every
    resource of every project: its object is [/project/*], which the matcher takes
    for anything below.  So a robot with project:update may update the robots of
    any project, a right that no robot can be given. *)
Theorem project_permission_covers_all {other_keys} {casbin : Casbin other_keys} r db ctx act pid p c a x :
  Robot.Level r = "system" -> Robot.Name (Robot.row r) <> "" ->
  (forall q, q ∈ robot_accesses (ctx_robot r) -> GetEffect q = EffectAllow) ->
  c ∈ Robot.Permissions r -> Robot.Scope c = "/project/*" -> a ∈ Robot.Access c -> Resource a = "project" -> Action a = act ->
  NamespaceFromResource ("/project/" ++ x) = Some (NSProject pid) -> get_project db pid = Ok p -> all_plain x = true ->
  (robot_Can db (Some (ctx_robot r)) ctx act ("/project/" ++ x) (robot_start (ctx_robot r))).1 = true.
Proof.
  intros Hl Hn Ha Hc Hs Hac Hra Hact Hns Hg Hx. apply system_answer; [done|done|done|]. right. exists pid, p, (policy_of c a).
  assert (Hres : Resource (policy_of c a) = ("/project/*" ++ "")%string).
  { rewrite (policy_resource_project c a "*" Hs). unfold rest_of. by rewrite Hra. }
  assert (Hin : policy_of c a ∈ proPolicies (ctx_robot r)).
  { apply list_elem_of_In, List.filter_In. rewrite Hres. split; [|done]. apply list_elem_of_In, elem_of_accesses. by exists c, a. }
  split; [done|]. split; [done|]. split; [intros E; rewrite E in Hin; by apply not_elem_of_nil in Hin|].
  split; [by left|]. unfold applies. rewrite Hres. cbn [Action policy_of]. rewrite Hact, String.eqb_refl, andb_true_r.
  rewrite <- (app_nil x). by apply keyMatch2_all_projects.
Qed.

Definition sample_updater : Robot.Robot :=
  Robot.mkRobot (sample_row "robot$meta" 0) "" None "system" true
    [Robot.mkPermission "project" "*" [mkPolicy "project" "update" ""] "/project/*"].

Lemma project_permission_covers_all_witness :
  Robot.containsAccess (Robot.GetPermissions Robot.ScopeProject) (mkPolicy "robot" "update" "") = false
  /\ (robot_Can sample_db (Some (ctx_robot sample_updater)) 0 "update" "/project/1/robot" (robot_start (ctx_robot sample_updater))).1 = true.
Proof.
  split; [vm_compute; reflexivity|].
  apply (project_permission_covers_all sample_updater sample_db 0 "update" 1 (mkProject 1 ∅)
    (Robot.mkPermission "project" "*" [mkPolicy "project" "update" ""] "/project/*") (mkPolicy "project" "update" "") "1/robot");
    try reflexivity; try done; [|left|left].
  by intros q ->%list_elem_of_singleton.
Defined.

(** A denial is not handed on: the new robot may do what is denied to its creator. *)
Definition denied_creator : Robot.Robot :=
  Robot.mkRobot (sample_row "robot$ops" 0) "" None "system" true
    [Robot.mkPermission "project" "*" [mkPolicy "repository" "pull" ""] "/project/*";
     Robot.mkPermission "project" "library" [mkPolicy "repository" "pull" "deny"] "/project/1"].
Definition undenied_robot : Robot.Robot :=
  Robot.mkRobot (sample_row "robot$ci" 0) "" None "system" true
    [Robot.mkPermission "project" "*" [mkPolicy "repository" "pull" ""] "/project/*"].

Lemma denial_not_handed_on :
  Robot.isValidPermissionScope (Robot.Permissions undenied_robot) (Robot.Permissions denied_creator) = true
  /\ (robot_Can sample_db (Some (ctx_robot denied_creator)) 0 "pull" "/project/1/repository" (robot_start (ctx_robot denied_creator))).1 = false
  /\ (robot_Can sample_db (Some (ctx_robot undenied_robot)) 0 "pull" "/project/1/repository" (robot_start (ctx_robot undenied_robot))).1 = true.
Proof. vm_compute. auto. Qed.

(** A robot of the system level that may push but not pull can create a robot of a
    project that may do both. *)
Definition push_creator : Robot.Robot :=
  Robot.mkRobot (sample_row "robot$ops" 0) "" None "system" true
    [Robot.mkPermission "project" "library" [mkPolicy "robot" "create" ""; mkPolicy "repository" "push" ""] "/project/1"].
Definition push_robot : Robot.Robot :=
  Robot.mkRobot (sample_row "robot$library+ci" 1) "library" None "project" true
    [Robot.mkPermission "project" "library" [mkPolicy "repository" "push" ""] "/project/1"].

Lemma project_robot_gains_pull :
  Robot.isValidPermissionScope (Robot.Permissions push_robot) (Robot.Permissions push_creator) = true
  /\ (robot_Can sample_db (Some (ctx_robot push_creator)) 0 "pull" "/project/1/repository" (robot_start (ctx_robot push_creator))).1 = false
  /\ (robot_Can sample_db (Some (ctx_robot push_robot)) 0 "pull" "/project/1/repository" (robot_start (ctx_robot push_robot))).1 = true.
Proof. vm_compute. auto. Qed.
