(* ===== verification/RobotFlow.v ===== *)
(** * Creating a robot and logging in with it

    The tables of [Robot] are well-formed, the operations keep them so, and the
    secret that the creation of a robot returns authenticates a robot with exactly
    the permissions that were asked for. *)

From S2P Require Import Prelude Errors Robot.
From S2P Require Rbac.
Import GoStrings.

(** ** Names *)

Abbreviation no_plus := (lacks "+").

Lemma no_plus_full pn n : no_plus (pn ++ "+" ++ n) = false.
Proof. apply (lacks_sep "+"). Qed.

Lemma valid_name_no_plus s word : name_from word s = true -> no_plus s = true.
Proof.
  revert word. induction s as [|c s IH]; intros word; [done|]. cbn [name_from lacks].
  destruct (Ascii.eqb_spec c "+") as [->|Hc]; [by destruct word|]. cbn.
  destruct (name_char c); [apply IH|]. destruct (name_sep c && word); [apply IH|done].
Qed.

(** ** Well-formed tables *)

(** A robot of the system has a plain name, one of a project the project's name
    and a plus sign before its own. *)
Definition named (s : store) (x : RobotRow) : Prop :=
  (ProjectID x = 0 /\ no_plus (Name x) = true)
  \/ exists pn n, projects s !! ProjectID x = Some pn /\ Name x = (pn ++ "+" ++ n)%string.

Record Inv (s : store) : Prop := {
  inv_robot i x : robots s !! i = Some x -> ID x = i /\ i < seq s /\ named s x;
  inv_robot_unique i j x y : robots s !! i = Some x -> robots s !! j = Some y ->
    Name x = Name y -> ProjectID x = ProjectID y -> i = j;
  inv_policy i pp : policies s !! i = Some pp -> i < seq s;
  inv_perm k rp : role_perms s !! k = Some rp ->
    k < seq s /\ rp_RoleID rp < seq s /\ is_Some (policies s !! rp_PolicyID rp);
  inv_project i n : projects s !! i = Some n -> i <> 0 /\ Int64.in_range i /\ no_plus n = true;
  inv_project_unique i j n : projects s !! i = Some n -> projects s !! j = Some n -> i = j;
  inv_faults : faults s = [];
}.

Lemma io_quiet {A} (m : M store A) s : faults s = [] -> io m s = m s.
Proof. intros E. unfold io, next_fault, store_faulty. by rewrite E. Qed.

Lemma find_key_Some {A} (t : gmap Z A) p i : find_key t p = Some i -> exists x, t !! i = Some x /\ p x = true.
Proof.
  unfold find_key. destruct (List.find _ _) as [[k x]|] eqn:E; [|done]. cbn. intros [= ->].
  apply List.find_some in E as [E1 E2]. exists x. split; [|done]. by apply elem_of_map_to_list, list_elem_of_In.
Qed.

Lemma find_key_None {A} (t : gmap Z A) p : find_key t p = None -> forall i x, t !! i = Some x -> p x = false.
Proof.
  unfold find_key. destruct (List.find _ _) as [[k x]|] eqn:E; [done|]. intros _ i x Hx.
  apply (List.find_none _ _ E (i, x)). by apply list_elem_of_In, elem_of_map_to_list.
Qed.

(** The identifiers of rows are below the sequence, so the next one is free. *)
Lemma fresh {A} (t : gmap Z A) n : (forall i x, t !! i = Some x -> i < n) -> t !! n = None.
Proof. intros H. destruct (t !! n) as [x|] eqn:E; [|done]. specialize (H n x E). lia. Qed.

(** ** Permissions *)

(** A robot holds a policy. *)
Definition holds (s : store) (id : Z) (pp : PermissionPolicy) : Prop :=
  exists k j, role_perms s !! k = Some (mkRP ROBOTTYPE id j) /\ policies s !! j = Some pp.

(** The parts of the store that granting does not change. *)
Definition same_rest (s s' : store) : Prop :=
  robots s' = robots s /\ projects s' = projects s /\ draws s' = draws s /\ seq s <= seq s'.

Lemma same_rest_refl s : same_rest s s.
Proof. repeat split. lia. Qed.

Lemma same_rest_trans s1 s2 s3 : same_rest s1 s2 -> same_rest s2 s3 -> same_rest s1 s3.
Proof. intros (A1 & A2 & A3 & A4) (B1 & B2 & B3 & B4). unfold same_rest. rewrite B1, B2, B3. repeat split; try done. lia. Qed.

Lemma CreateRbacPolicy_ok pp s : Inv s -> exists j s', CreateRbacPolicy pp s = (Ok j, s') /\ Inv s' /\ same_rest s s'
  /\ policies s' !! j = Some pp /\ forall id q, holds s' id q <-> holds s id q.
Proof.
  intros Hs. unfold CreateRbacPolicy. rewrite io_quiet by apply Hs. unfold bind, get.
  destruct (find_key (policies s) _) as [j|] eqn:E.
  - apply find_key_Some in E as (x & Hx & ->%bool_decide_eq_true). exists j, s. split; [done|]. split; [done|].
    split; [apply same_rest_refl|done].
  - pose proof (fresh (policies s) (seq s) (inv_policy _ Hs)) as Hf. eexists (seq s), _. split; [reflexivity|].
    assert (Hkeep : forall j, is_Some (policies s !! j) -> <[seq s := pp]> (policies s) !! j = policies s !! j).
    { intros j [x Hx]. rewrite lookup_insert_ne; [done|]. intros <-. congruence. }
    split; [|split; [|split]].
    + destruct Hs as [H1 H1' H2 H3 H4 H5 H6]. split; cbn; try done.
      * intros i x Hi. destruct (H1 i x Hi) as (E1 & E2 & E3). repeat split; [done|lia|done].
      * intros i x. rewrite lookup_insert_Some. intros [[<- _]|[_ Hi]]; [lia|]. specialize (H2 i x Hi). lia.
      * intros k rp Hk. destruct (H3 k rp Hk) as (E1 & E2 & E3). repeat split; [lia|lia|]. by rewrite Hkeep.
    + repeat split; cbn; try done. lia.
    + cbn. apply lookup_insert_eq.
    + intros id q. split; intros (k & j & Hk & Hj); exists k, j; (split; [done|]); cbn in *.
      * destruct (inv_perm _ Hs _ _ Hk) as (_ & _ & HS). cbn in HS. by rewrite Hkeep in Hj.
      * destruct (inv_perm _ Hs _ _ Hk) as (_ & _ & HS). cbn in HS. by rewrite Hkeep.
Qed.

Lemma CreatePermission_ok id j pp s : Inv s -> id < seq s -> policies s !! j = Some pp ->
  exists k s', CreatePermission (mkRP ROBOTTYPE id j) s = (Ok k, s') /\ Inv s' /\ same_rest s s'
  /\ forall id' q, holds s' id' q <-> holds s id' q \/ (id' = id /\ q = pp).
Proof.
  intros Hs Hid Hj. unfold CreatePermission. rewrite io_quiet by apply Hs. unfold bind, get.
  destruct (find_key (role_perms s) _) as [k|] eqn:E.
  - apply find_key_Some in E as (x & Hx & ->%bool_decide_eq_true). exists k, s. split; [done|]. split; [done|].
    split; [apply same_rest_refl|]. intros id' q. split; [by left|]. intros [H|[-> ->]]; [done|]. by exists k, j.
  - pose proof (fresh (role_perms s) (seq s) (fun k rp H => proj1 (inv_perm _ Hs k rp H))) as Hf.
    eexists (seq s), _. split; [reflexivity|]. split; [|split].
    + destruct Hs as [H1 H1' H2 H3 H4 H5 H6]. split; cbn; try done.
      * intros i x Hi. destruct (H1 i x Hi) as (E1 & E2 & E3). repeat split; [done|lia|done].
      * intros i x Hi. specialize (H2 i x Hi). lia.
      * intros k rp. rewrite lookup_insert_Some. intros [[<- <-]|[_ Hk]]; cbn.
        -- repeat split; [lia|lia|by exists pp].
        -- destruct (H3 k rp Hk) as (E1 & E2 & E3). repeat split; [lia|lia|done].
    + repeat split; cbn; try done. lia.
    + intros id' q. split.
      * intros (k & j' & Hk & Hq). cbn in *. apply lookup_insert_Some in Hk as [[<- [= <- <-]]|[_ Hk]].
        -- right. split; [done|congruence].
        -- left. by exists k, j'.
      * intros [(k & j' & Hk & Hq)|[-> ->]].
        -- exists k, j'. cbn. split; [|done]. rewrite lookup_insert_ne; [done|]. intros <-. congruence.
        -- exists (seq s), j. cbn. by rewrite lookup_insert_eq.
Qed.

Definition pp_of (scope : string) (a : Policy) : PermissionPolicy :=
  mkPP scope (Rbac.Resource a) (Rbac.Action a) (Rbac.Effect a).

Lemma create_accesses_ok id scope l s : Inv s -> id < seq s ->
  exists s', iterM (create_access id scope) l s = (Ok tt, s') /\ Inv s' /\ same_rest s s'
  /\ forall id' q, holds s' id' q <-> holds s id' q \/ (id' = id /\ exists a, a ∈ l /\ q = pp_of scope a).
Proof.
  revert s. induction l as [|a l IH]; intros s Hs Hid.
  - exists s. split; [done|]. split; [done|]. split; [apply same_rest_refl|]. intros id' q. split; [by left|].
    intros [H|(_ & a & Ha & _)]; [done|by apply not_elem_of_nil in Ha].
  - cbn [iterM]. destruct (CreateRbacPolicy_ok (pp_of scope a) s Hs) as (j & s1 & E1 & Hs1 & R1 & Hj & Hh1).
    destruct (CreatePermission_ok id j (pp_of scope a) s1 Hs1) as (k & s2 & E2 & Hs2 & R2 & Hh2); [destruct R1 as (_ & _ & _ & ?); lia|done|].
    destruct (IH s2 Hs2) as (s3 & E3 & Hs3 & R3 & Hh3); [destruct R1 as (_ & _ & _ & ?), R2 as (_ & _ & _ & ?); lia|].
    assert (E12 : create_access id scope a s = (Ok tt, s2)).
    { unfold pp_of in E1. unfold create_access, bind. by rewrite E1, E2. }
    exists s3. rewrite (bind_ok _ _ _ _ _ E12). split; [done|]. split; [done|].
    split; [eauto using same_rest_trans|]. intros id' q. rewrite Hh3, Hh2, Hh1. split.
    + intros [[H|[-> ->]]|[-> (b & Hb & ->)]]; [by left|right..]; (split; [done|]).
      * exists a. split; [left|done].
      * exists b. split; [by right|done].
    + intros [H|[-> (b & [->|Hb]%elem_of_cons & ->)]]; [by left; left|by left; right|right]. split; [done|]. by exists b.
Qed.

(** ** Scopes *)

(** The scope of a permission, read off the projects. *)
Definition scope_of (prs : gmap Z string) (p : Permission) (scope : string) : Prop :=
  (Kind p = LEVELSYSTEM /\ Namespace p = "/" /\ scope = SCOPESYSTEM)
  \/ (Kind p = LEVELPROJECT /\ Namespace p = "*" /\ scope = SCOPEALLPROJECT)
  \/ (Kind p = LEVELPROJECT /\ Namespace p <> "*"
      /\ exists id, prs !! id = Some (Namespace p) /\ scope = ("/project/" ++ Strconv.format_int id)%string).

Lemma project_GetByName_ok name s r s' : faults s = [] -> project_GetByName name s = (Ok r, s') ->
  s' = s /\ r.2 = name /\ projects s !! r.1 = Some name.
Proof.
  intros Hf. unfold project_GetByName. destruct (contains name " "); [done|]. rewrite io_quiet by done.
  unfold bind, get. destruct (find_key (projects s) _) as [i|] eqn:E; [|done]. intros [= <- <-].
  apply find_key_Some in E as (x & Hx & <-%String.eqb_eq). done.
Qed.

Lemma toScope_ok p s scope s' : faults s = [] -> toScope p s = (Ok scope, s') -> s' = s /\ scope_of (projects s) p scope.
Proof.
  intros Hf. unfold toScope. destruct (String.eqb_spec (Kind p) LEVELSYSTEM) as [K|K].
  - destruct (String.eqb_spec (Namespace p) "/"); [|done]. intros [= <- <-]. split; [done|]. by left.
  - destruct (String.eqb_spec (Kind p) LEVELPROJECT) as [K'|K']; [|done].
    destruct (String.eqb_spec (Namespace p) "*") as [N|N].
    + intros [= <- <-]. split; [done|]. right. by left.
    + intros (pro & s1 & E & H)%bind_inv. apply project_GetByName_ok in E as (-> & _ & E); [|done].
      injection H as <- <-. split; [done|]. right. right. split; [done|]. split; [done|]. by exists pro.1.
Qed.

(** The policies that permissions ask for. *)
Definition asked (prs : gmap Z string) (ps : list Permission) (pp : PermissionPolicy) : Prop :=
  exists p a scope, p ∈ ps /\ a ∈ Access p /\ scope_of prs p scope /\ pp = pp_of scope a.

Lemma scope_of_unique prs p a b : (forall i j n, prs !! i = Some n -> prs !! j = Some n -> i = j) ->
  scope_of prs p a -> scope_of prs p b -> a = b.
Proof.
  intros Hu [(K & N & ->)|[(K & N & ->)|(K & N & i & Hi & ->)]] [(K' & N' & ->)|[(K' & N' & ->)|(K' & N' & j & Hj & ->)]];
    try done; try (by rewrite K in K'). by rewrite (Hu i j _ Hi Hj).
Qed.

Lemma createPermission_ok id ps s s' : Inv s -> id < seq s -> createPermission id ps s = (Ok tt, s') ->
  Inv s' /\ same_rest s s' /\ forall id' q, holds s' id' q <-> holds s id' q \/ (id' = id /\ asked (projects s) ps q).
Proof.
  unfold createPermission. revert s. induction ps as [|p ps IH]; intros s Hs Hid.
  - intros [= <-]. split; [done|]. split; [apply same_rest_refl|]. intros id' q. split; [by left|].
    intros [H|(_ & p & a & sc & Hp & _)]; [done|by apply not_elem_of_nil in Hp].
  - cbn [iterM]. intros ([] & s1 & E1 & E2)%bind_inv. apply bind_inv in E1 as (scope & s0 & E0 & E1).
    apply toScope_ok in E0 as [-> Hsc]; [|apply Hs].
    destruct (create_accesses_ok id scope (Access p) s Hs Hid) as (s1' & E1' & Hs1 & R1 & Hh1).
    rewrite E1' in E1. injection E1 as <-.
    destruct (IH s1' Hs1) as (Hs2 & R2 & Hh2); [destruct R1 as (_ & _ & _ & ?); lia|done|].
    split; [done|]. split; [by eapply same_rest_trans|]. intros id' q. rewrite Hh2, Hh1.
    destruct R1 as (_ & -> & _). split.
    + intros [[H|[-> (a & Ha & ->)]]|[-> (p' & a & sc & Hp & Ha & Hs' & ->)]]; [by left|right..]; (split; [done|]).
      * exists p, a, scope. split; [left|done].
      * exists p', a, sc. split; [by right|done].
    + intros [H|[-> (p' & a & sc & [->|Hp]%elem_of_cons & Ha & Hs' & ->)]]; [by left; left|left; right|right]; (split; [done|]).
      * exists a. split; [done|]. f_equal. by apply (scope_of_unique (projects s) p sc scope (inv_project_unique _ Hs)).
      * by exists p', a, sc.
Qed.

(** ** Reading a robot *)

(** The accesses of a scope in a grouping. *)
Definition granted (l : list (string * list Policy)) (scope : string) (a : Policy) : Prop :=
  exists accesses, (scope, accesses) ∈ l /\ a ∈ accesses.

Lemma granted_cons sc as_ l scope a :
  granted ((sc, as_) :: l) scope a <-> (scope = sc /\ a ∈ as_) \/ granted l scope a.
Proof.
  split.
  - intros (x & [[= -> ->]|H]%elem_of_cons & Ha); [by left|]. right. by exists x.
  - intros [[-> Ha]|(x & H & Ha)]; [exists as_; split; [left|done]|exists x; split; [by right|done]].
Qed.

Lemma add_access_granted scope a l sc b :
  granted (add_access scope a l) sc b <-> granted l sc b \/ (sc = scope /\ b = a).
Proof.
  induction l as [|[sc0 as_] l IH]; cbn.
  - rewrite granted_cons, list_elem_of_singleton. split; [intros [H|H]; [by right|by left]|].
    intros [(x & H%not_elem_of_nil & _)|H]; [done|by left].
  - destruct (String.eqb_spec sc0 scope) as [->|Hne]; rewrite !granted_cons.
    + rewrite elem_of_app, list_elem_of_singleton. tauto.
    + rewrite IH. tauto.
Qed.

Lemma accessMap_granted l scope a : granted (accessMap l) scope a <-> pp_of scope a ∈ l.
Proof.
  unfold accessMap. assert (H : forall m, granted (foldl (fun m rp => add_access (pp_Scope rp)
    (mkPolicy (pp_Resource rp) (pp_Action rp) (pp_Effect rp)) m) m l) scope a <-> granted m scope a \/ pp_of scope a ∈ l).
  { induction l as [|pp l IH]; intros m; cbn.
    - split; [by left|]. intros [H|H%not_elem_of_nil]; done.
    - rewrite IH, add_access_granted, elem_of_cons. destruct a as [x y z], pp as [w x' y' z']. unfold pp_of. cbn.
      split; [intros [[H|[-> [= -> -> ->]]]|H]; tauto|]. intros [H|[[= -> -> -> ->]|H]]; tauto. }
  rewrite H. split; [|by right]. intros [(x & Hx%not_elem_of_nil & _)|Hx]; done.
Qed.

Lemma add_access_nonempty scope a l x :
  (forall y, y ∈ l -> y.2 <> []) -> x ∈ add_access scope a l -> x.2 <> [].
Proof.
  intros Hl. induction l as [|[sc as_] l IH]; cbn; [by intros ->%list_elem_of_singleton|].
  destruct (sc =s= scope); intros [->|Hx]%elem_of_cons.
  - cbn. by destruct as_.
  - apply Hl. by right.
  - apply Hl. by left.
  - apply IH; [intros y Hy; apply Hl; by right|done].
Qed.

Lemma accessMap_nonempty l x : x ∈ accessMap l -> x.2 <> [].
Proof.
  unfold accessMap. assert (H : forall m, (forall y, y ∈ m -> y.2 <> []) -> x ∈ foldl (fun m rp => add_access (pp_Scope rp)
    (mkPolicy (pp_Resource rp) (pp_Action rp) (pp_Effect rp)) m) m l -> x.2 <> []).
  { induction l as [|pp l IH]; intros m Hm; [apply Hm|]. cbn. apply IH. intros y. by apply add_access_nonempty. }
  apply H. by intros y Hy%not_elem_of_nil.
Qed.

Lemma until_slash_all s : count "/" s = 0%nat -> Rbac.until_slash s = s.
Proof.
  induction s as [|d s IH]; [done|]. simpl. destruct (Ascii.eqb d "/"); simpl; [done|]. intros H. by rewrite IH.
Qed.

Lemma parse_project_scope id : Int64.in_range id ->
  Rbac.project_NamespaceParse ("/project/" ++ Strconv.format_int id) = Some (Rbac.NSProject id).
Proof.
  intros Hid. unfold Rbac.project_NamespaceParse. rewrite HasPrefix_app, TrimPrefix_app.
  rewrite until_slash_all by apply Rbac.count_slash_format_int. by rewrite Strconv.parse_format_int.
Qed.

Lemma convertScope_ok p scope s : Inv s -> scope_of (projects s) p scope ->
  convertScope scope s = (Ok (Kind p, Namespace p), s).
Proof.
  intros Hs [(-> & -> & ->)|[(-> & -> & ->)|(-> & _ & id & Hid & ->)]]; [done|done|].
  destruct (inv_project _ Hs _ _ Hid) as (_ & Hr & _). unfold convertScope.
  rewrite parse_project_scope by done. set (sc := ("/project/" ++ Strconv.format_int id)%string).
  assert (E3 : (sc =s= SCOPEALLPROJECT) = false).
  { apply String.eqb_neq. intros E. apply (inj (String.append "/project/")) in E.
    apply (f_equal Strconv.parse_int) in E. by rewrite Strconv.parse_format_int in E. }
  rewrite E3. change (sc =s= "") with false. change (sc =s= SCOPESYSTEM) with false. cbn match.
  unfold project_Get, bind at 1. rewrite io_quiet by apply Hs. unfold bind, get. by rewrite Hid.
Qed.

(** Every scope of a grouping stands for a permission. *)
Lemma convert_all_ok l s : Inv s ->
  (forall sc as_, (sc, as_) ∈ l -> exists p, scope_of (projects s) p sc) ->
  exists ps, convert_all l s = (Ok ps, s)
    /\ (forall q, q ∈ ps -> scope_of (projects s) q (Scope q))
    /\ forall sc a, (exists q, q ∈ ps /\ Scope q = sc /\ a ∈ Access q) <-> granted l sc a.
Proof.
  intros Hs. induction l as [|[sc as_] l IH]; intros Hl.
  - exists []. split; [done|]. split; [by intros q Hq%not_elem_of_nil|]. intros sc a. split.
    + by intros (q & Hq%not_elem_of_nil & _).
    + by intros (x & Hx%not_elem_of_nil & _).
  - destruct IH as (ps & E & Hsc & Hg); [intros sc' as' H; by apply (Hl sc' as'); right|].
    destruct (Hl sc as_) as [p Hp]; [left|]. exists (mkPermission (Kind p) (Namespace p) as_ sc :: ps).
    cbn [convert_all]. unfold bind at 1, try. rewrite (convertScope_ok p sc s Hs Hp). unfold bind. rewrite E.
    split; [done|]. split.
    + intros q [->|Hq]%elem_of_cons; [exact Hp|by apply Hsc].
    + intros sc' a. rewrite granted_cons, <- Hg. split.
      * intros (q & [->|Hq]%elem_of_cons & <- & Ha); [by left|]. right. by exists q.
      * intros [[-> Ha]|(q & Hq & <- & Ha)]; [|exists q; split; [by right|done]].
        exists (mkPermission (Kind p) (Namespace p) as_ sc). split; [left|done].
Qed.

Lemma GetPermissionsByRole_ok id s : Inv s -> exists l, GetPermissionsByRole ROBOTTYPE id s = (Ok l, s)
  /\ forall pp, pp ∈ l <-> holds s id pp.
Proof.
  intros Hs. unfold GetPermissionsByRole. rewrite io_quiet by apply Hs. eexists. split; [reflexivity|]. intros pp.
  rewrite list_elem_of_fmap. split.
  - intros ([k rp] & -> & Hk). apply list_elem_of_In, List.filter_In in Hk as [Hk Hr]. cbn in *.
    apply list_elem_of_In, elem_of_map_to_list in Hk. destruct rp as [ty rid j]. unfold of_role in Hr. cbn in Hr.
    apply andb_true_iff in Hr as [->%String.eqb_eq ->%Z.eqb_eq]. exists k, j. split; [done|].
    destruct (inv_perm _ Hs _ _ Hk) as (_ & _ & [x Hx]). cbn in Hx |- *. by rewrite Hx.
  - intros (k & j & Hk & Hj). exists (k, mkRP ROBOTTYPE id j). cbn. rewrite Hj. split; [done|].
    apply list_elem_of_In, List.filter_In. split; [by apply list_elem_of_In, elem_of_map_to_list|].
    cbn. unfold of_role. cbn. by rewrite Z.eqb_refl.
Qed.

(** A robot whose policies are all for scopes that exist is read with them. *)
Lemma populatePermissions_ok r s : Inv s ->
  (forall pp, holds s (ID (row r)) pp -> exists p, scope_of (projects s) p (pp_Scope pp)) -> Permissions r = [] ->
  exists ps, populatePermissions r s = (Ok (mkRobot (row r) (ProjectName r) (ProjectNameOrID r) (Level r) (Editable r) ps), s)
    /\ (forall q, q ∈ ps -> scope_of (projects s) q (Scope q))
    /\ forall sc a, (exists q, q ∈ ps /\ Scope q = sc /\ a ∈ Access q) <-> holds s (ID (row r)) (pp_of sc a).
Proof.
  intros Hs Hh He. unfold populatePermissions.
  destruct (GetPermissionsByRole_ok (ID (row r)) s Hs) as (l & E & Hl). rewrite (bind_ok _ _ _ _ _ E).
  destruct (convert_all_ok (accessMap l) s Hs) as (ps & E' & Hsc & Hg).
  { intros sc as_ Hin. destruct as_ as [|a as_].
    - exfalso. by apply (accessMap_nonempty l (sc, []) Hin).
    - assert (Hgr : granted (accessMap l) sc a) by (exists (a :: as_); split; [done|left]).
      apply accessMap_granted in Hgr. apply Hl, Hh in Hgr. exact Hgr. }
  destruct l as [|pp l].
  - exists []. destruct r as [x1 x2 x3 x4 x5 x6]. cbn in *. subst x6. split; [done|]. split; [by intros q Hq%not_elem_of_nil|].
    intros sc a. rewrite <- Hl. split; [by intros (q & Hq%not_elem_of_nil & _)|by intros Hq%not_elem_of_nil].
  - exists ps. rewrite (bind_ok _ _ _ _ _ E'). split; [done|]. split; [done|]. intros sc a.
    by rewrite Hg, accessMap_granted, Hl.
Qed.

(** ** Creation *)

Section Flow.
Context (Encrypt : string -> string -> string) (rnd : nat -> string) (RobotPrefix : string) (attempts : nat).

Lemma Inv_draws s n : Inv s -> Inv (with_draws s n).
Proof. by intros []. Qed.

Lemma draw_secret_ok n s pwd s' : draw_secret rnd n s = (Ok pwd, s') -> exists k, s' = with_draws s k.
Proof.
  revert s. induction n as [|n IH]; intros s; [done|]. cbn [draw_secret]. intros (p & s1 & E & H)%bind_inv.
  unfold GenerateRandomString in E. injection E as <- <-. destruct (IsValidSec _).
  - injection H as <- <-. by eexists.
  - destruct (IH _ H) as [k ->]. by exists k.
Qed.

Lemma CreateSec_ok s sec s' : CreateSec Encrypt rnd attempts None s = (Ok sec, s') ->
  (exists k, s' = with_draws s k) /\ sec.1.1 = Encrypt sec.1.2 sec.2.
Proof.
  unfold CreateSec. intros (pwd & s1 & E1 & H)%bind_inv. apply draw_secret_ok in E1 as [k ->].
  apply bind_inv in H as (salt & s2 & E2 & H). unfold GenerateRandomString in E2. injection E2 as <- <-.
  injection H as <- <-. cbn. split; [by eexists|done].
Qed.

(** A new row that keeps the rules on names. *)
Lemma robot_dao_Create_ok x now s id s' : Inv s -> named s x ->
  robot_dao_Create x now s = (Ok id, s') ->
  Inv s' /\ id = seq s /\ id < seq s' /\ projects s' = projects s
  /\ (exists y, robots s' !! id = Some y /\ Name y = Name x /\ ProjectID y = ProjectID x /\ Secret y = Secret x /\ Salt y = Salt x
        /\ Disabled y = Disabled x /\ ExpiresAt y = ExpiresAt x /\ ID y = id)
  /\ forall i pp, holds s' i pp <-> holds s i pp.
Proof.
  intros Hs Hn. unfold robot_dao_Create. rewrite io_quiet by apply Hs. unfold bind at 1, get.
  destruct (find_key (robots s) _) as [i|] eqn:E; [done|]. pose proof (find_key_None _ _ E) as Hnew. intros H.
  unfold bind, next_id, modify, ret in H. injection H as <- <-. cbn.
  pose proof (fresh (robots s) (seq s) (fun i y H => proj1 (proj2 (inv_robot _ Hs i y H)))) as Hf.
  assert (Hno : forall j y, robots s !! j = Some y -> Name y = Name x -> ProjectID y = ProjectID x -> False).
  { intros j y Hj E1 E2. specialize (Hnew j y Hj). cbn in Hnew. by rewrite E1, E2, String.eqb_refl, Z.eqb_refl in Hnew. }
  destruct Hs as [H1 H1' H2 H3 H4 H5 H6]. split.
  { split; cbn; try done.
    - intros i y. rewrite lookup_insert_Some. intros [[<- <-]|[_ Hi]]; cbn; [split; [done|]; split; [lia|exact Hn]|].
      destruct (H1 i y Hi) as (E1 & E2 & E3). split; [done|]. split; [lia|done].
    - intros i j y z. rewrite !lookup_insert_Some. intros [[<- <-]|[_ Hi]] [[<- <-]|[_ Hj]] E1 E2; cbn in *; try done.
      + by destruct (Hno j z Hj).
      + by destruct (Hno i y Hi).
      + by apply (H1' i j y z).
    - intros i pp Hi. specialize (H2 i pp Hi). lia.
    - intros k rp Hk. destruct (H3 k rp Hk) as (E1 & E2 & E3). split; [lia|]. split; [lia|done]. }
  split; [done|]. split; [lia|]. split; [done|]. split; [|done].
  eexists. split; [apply lookup_insert_eq|]. done.
Qed.

(** The name of a robot identifies it. *)
Lemma name_unique i j x y s : Inv s -> robots s !! i = Some x -> robots s !! j = Some y -> Name x = Name y -> i = j.
Proof.
  intros Hs Hx Hy E. apply (inv_robot_unique _ Hs i j x y Hx Hy E).
  destruct (inv_robot _ Hs _ _ Hx) as (_ & _ & Nx), (inv_robot _ Hs _ _ Hy) as (_ & _ & Ny).
  destruct Nx as [[P1 L1]|(pn & n & P1 & L1)], Ny as [[P2 L2]|(pn' & n' & P2 & L2)]; rewrite E in L1.
  - congruence.
  - rewrite L2 in L1. by rewrite no_plus_full in L1.
  - rewrite L1 in L2. by rewrite no_plus_full in L2.
  - rewrite L1 in L2. apply (split_sep "+") in L2 as [-> _];
      [by apply (inv_project_unique _ Hs _ _ pn')|by apply (inv_project _ Hs _ _ P1)|by apply (inv_project _ Hs _ _ P2)].
Qed.

Lemma filter_one {A} (p : A -> bool) (l : list (Z * A)) i x : NoDup l -> (i, x) ∈ l -> p x = true ->
  (forall j y, (j, y) ∈ l -> p y = true -> (j, y) = (i, x)) -> List.filter p l.*2 = [x].
Proof.
  intros Hd Hx Hp Hu. induction l as [|[j y] l IH]; [by apply not_elem_of_nil in Hx|].
  apply NoDup_cons in Hd as [Hn Hd]. cbn. destruct (p y) eqn:Ey.
  - assert (E : (j, y) = (i, x)) by (apply Hu; [left|done]). injection E as -> ->. f_equal.
    assert (Hnone : forall z, z ∈ l.*2 -> p z = false).
    { intros z ([k w] & -> & Hk)%list_elem_of_fmap. cbn. destruct (p w) eqn:Ew; [|done].
      assert (E : (k, w) = (i, x)) by (apply Hu; [by right|done]). by rewrite E in Hk. }
    clear -Hnone. induction (l.*2) as [|z l' IH]; [done|]. cbn. rewrite Hnone by left. apply IH.
    intros w Hw. apply Hnone. by right.
  - apply IH; [done| |intros k w Hk; apply Hu; by right].
    apply elem_of_cons in Hx as [[= -> ->]|Hx]; [congruence|done].
Qed.

Definition full_name (r : Robot) : string :=
  if Level r =s= LEVELPROJECT then (ProjectName r ++ "+" ++ Name (row r))%string else Name (row r).

(** The robot of a request is that of its project, or has a plain name. *)
Definition placed (s : store) (r : Robot) : Prop :=
  if Level r =s= LEVELPROJECT then projects s !! ProjectID (row r) = Some (ProjectName r)
  else ProjectID (row r) = 0 /\ no_plus (Name (row r)) = true.

Lemma Create_ok r now s id pwd s' : Inv s -> placed s r ->
  Create Encrypt rnd attempts r now s = (Ok (id, pwd), s') ->
  Inv s' /\ projects s' = projects s
  /\ (exists y, robots s' !! id = Some y /\ Name y = full_name r /\ ProjectID y = ProjectID (row r) /\ Secret y = Encrypt pwd (Salt y)
        /\ Disabled y = false /\ ExpiresAt y = (if Duration (row r) =? -1 then -1 else add_days now (Duration (row r))) /\ ID y = id)
  /\ forall pp, holds s' id pp <-> asked (projects s) (Permissions r) pp.
Proof.
  intros Hs Hpl. unfold Create. intros (sec & s1 & E1 & H)%bind_inv. apply CreateSec_ok in E1 as [[k ->] Esec].
  apply bind_inv in H as (rid & s2 & E2 & H). apply bind_inv in H as ([] & s3 & E3 & H). injection H as <- <- <-.
  apply robot_dao_Create_ok in E2 as (Hs2 & -> & Hlt & Ep & (y & Hy & Y1 & Y2 & Y3 & Y4 & Y5 & Y6 & Y7) & Hh);
    [|by apply Inv_draws|].
  2:{ unfold placed in Hpl. destruct (Level r =s= LEVELPROJECT); cbn.
      - right. exists (ProjectName r), (Name (row r)). done.
      - by left. }
  apply createPermission_ok in E3 as (Hs3 & (R1 & R2 & _) & Hh3); [|done|done].
  split; [done|]. split; [by rewrite R2, Ep|]. split.
  - exists y. rewrite R1. cbn in *. rewrite Y3, Y4, Esec. repeat split; done.
  - intros pp. rewrite Hh3, Hh, Ep. cbn [projects with_draws]. split; [|by right].
    intros [(k' & j & Hk & _)|[_ H]]; [|done]. destruct (inv_perm _ Hs _ _ Hk) as (_ & Hlt' & _). cbn in Hlt'. lia.
Qed.

Lemma asked_scope prs ps pp : asked prs ps pp -> exists p, scope_of prs p (pp_Scope pp).
Proof. intros (p & a & sc & _ & _ & Hsc & ->). by exists p. Qed.

(** A robot in the table is found by its name. *)
Lemma Generate_finds id y secret t s : Inv s -> robots s !! id = Some y -> Secret y <> "" -> Disabled y = false ->
  (ExpiresAt y = -1 \/ t < ExpiresAt y) -> (forall pp, holds s id pp -> exists p, scope_of (projects s) p (pp_Scope pp)) ->
  exists r, Generate Encrypt RobotPrefix (RobotPrefix ++ Name y) secret t s
            = (Ok (if Encrypt secret (Salt y) =s= Secret y then Some r else None), s)
    /\ ID (row r) = id /\ Level r = setLevel y
    /\ (forall q, q ∈ Permissions r -> scope_of (projects s) q (Scope q))
    /\ forall sc a, (exists q, q ∈ Permissions r /\ Scope q = sc /\ a ∈ Access q) <-> holds s id (pp_of sc a).
Proof.
  intros Hs Hy Hsec Hdis Hexp Hh. unfold Generate. rewrite HasPrefix_app, TrimPrefix_app. cbn [negb].
  assert (Hlist : robot_dao_List (fun x => Name x =s= Name y) s = (Ok [y], s)).
  { unfold robot_dao_List. rewrite io_quiet by apply Hs. unfold bind, get, ret. do 2 f_equal.
    apply (filter_one _ _ id y); [apply NoDup_map_to_list|by apply elem_of_map_to_list|apply String.eqb_refl|].
    intros j z Hz%elem_of_map_to_list E%String.eqb_eq. pose proof (name_unique j id z y s Hs Hz Hy E) as ->. congruence. }
  destruct (inv_robot _ Hs _ _ Hy) as (Eid & _ & _).
  assert (Hed : setEditable y = true) by (unfold setEditable; apply negb_true_iff; by apply String.eqb_neq).
  destruct (populatePermissions_ok (mkRobot (with_name y (RobotPrefix ++ Name y)) "" None (setLevel y) true []) s Hs)
    as (ps & E & Hsc & Hg); [cbn; by rewrite Eid|done|]. cbn [row ProjectName ProjectNameOrID Level Editable] in E.
  exists (mkRobot (with_name y (RobotPrefix ++ Name y)) "" None (setLevel y) true ps).
  unfold List_, bind at 1, try. rewrite (bind_ok _ _ _ _ _ Hlist). cbn [mapM_]. unfold populate. rewrite Hed.
  unfold bind at 1. rewrite E. cbn [bind ret]. cbn [row with_name Salt Secret Disabled ExpiresAt].
  cbn in Hg. rewrite Eid in Hg. split; [|by cbn].
  destruct (Encrypt secret (Salt y) =s= Secret y); cbn [negb]; [|done]. rewrite Hdis.
  destruct (Z.eqb_spec (ExpiresAt y) (-1)); cbn [negb andb]; [done|]. by destruct (Z.leb_spec (ExpiresAt y) t); [lia|].
Qed.
End Flow.

(** ** Requests *)

(** Computations that only read, while the database answers. *)
Definition reads {A} (m : M store A) : Prop := forall s, faults s = [] -> (m s).2 = s.

Lemma reads_ret {A} (a : A) : reads (ret a).
Proof. by intros s. Qed.

Lemma reads_fail {A} e : reads (fail (A := A) e).
Proof. by intros s. Qed.

Lemma reads_bind {A B} (m : M store A) (k : A -> M store B) : reads m -> (forall a, reads (k a)) -> reads (bind m k).
Proof.
  intros Hm Hk s Hs. unfold bind. specialize (Hm s Hs). destruct (m s) as [[a|e] s']; cbn in Hm; subst; [by apply Hk|done].
Qed.

Lemma reads_try {A} (m : M store A) : reads m -> reads (try m).
Proof. intros Hm s Hs. unfold try. specialize (Hm s Hs). by destruct (m s). Qed.

Lemma reads_io {A} (m : M store A) : (forall s, (m s).2 = s) -> reads (io m).
Proof. intros Hm s Hs. rewrite io_quiet by done. apply Hm. Qed.

Lemma reads_ok {A} (m : M store A) s a s' : reads m -> faults s = [] -> m s = (Ok a, s') -> s' = s.
Proof. intros Hr Hs E. specialize (Hr s Hs). by rewrite E in Hr. Qed.

Create HintDb reads.
#[local] Hint Resolve reads_ret reads_fail reads_bind reads_try : reads.

Lemma reads_project_GetByName name : reads (project_GetByName name).
Proof.
  unfold project_GetByName. destruct (contains name " "); [apply reads_fail|]. apply reads_io. intros s.
  unfold bind, get. by destruct (find_key _ _).
Qed.

Lemma reads_sc sc : reads (GetSecurityContext sc).
Proof. destruct sc; cbn; auto with reads. Qed.

Lemma reads_can_project sc id act sub : reads (can_project sc id act sub).
Proof.
  unfold can_project. apply reads_bind; [apply reads_sc|]. intros c. destruct (Can c _ _); [apply reads_ret|].
  destruct (negb _); apply reads_fail.
Qed.

Lemma reads_project_access sc name act sub : reads (RequireProjectAccess sc name act sub).
Proof.
  unfold RequireProjectAccess. destruct (name =s= ""); [apply reads_can_project|].
  apply reads_bind; [apply reads_try, reads_project_GetByName|]. intros [p|e]; [apply reads_can_project|].
  destruct (IsNotFoundErr e); [apply reads_can_project|apply reads_fail].
Qed.

Lemma reads_requireAccess sc r act : reads (requireAccess sc r act).
Proof.
  pose proof reads_project_access. pose proof reads_can_project. unfold requireAccess.
  destruct (Level r =s= LEVELSYSTEM).
  - unfold RequireSystemAccess. apply reads_bind; [apply reads_sc|]. intros c. destruct (negb _); [apply reads_fail|].
    destruct (negb _); [apply reads_fail|apply reads_ret].
  - destruct (Level r =s= LEVELPROJECT); [|apply reads_fail]. destruct (ProjectNameOrID r); [done|].
    destruct (0 <? _); [done|]. destruct (negb _); [done|apply reads_fail].
Qed.

Lemma reads_creator sc ps : reads (creator sc ps).
Proof. unfold creator. destruct (who sc) as [i|[u|]|]; auto with reads. destruct (isValidPermissionScope _ _); auto with reads. Qed.

Section Requests.
Context (Encrypt : string -> string -> string) (rnd : nat -> string) (RobotPrefix : string) (attempts : nat).

(** What a request that was accepted has put into the tables. *)
Lemma CreateRobot_ok sc p now s g pwd s' : Inv s -> (forall a b, Encrypt a b <> "") ->
  CreateRobot Encrypt rnd RobotPrefix attempts sc p now s = (Ok (g, pwd), s') ->
  Inv s' /\ projects s' = projects s
  /\ (exists y, robots s' !! ID (row g) = Some y /\ Name (row g) = (RobotPrefix ++ Name y)%string /\ Secret y = Encrypt pwd (Salt y)
        /\ Disabled y = false /\ ExpiresAt y = ExpiresAt (row g) /\ setLevel y = cr_Level p)
  /\ forall pp, holds s' (ID (row g)) pp <-> asked (projects s) (copy_permissions (cr_Permissions p)) pp.
Proof.
  intros Hs Henc. pose proof (inv_faults _ Hs) as Hf. unfold CreateRobot.
  intros ([] & s1 & E1 & H)%bind_inv. unfold of_result in E1. injection E1 as Ename <-.
  apply bind_inv in H as ([] & s1 & E1 & H). unfold of_result in E1. injection E1 as Eval <-.
  apply bind_inv in H as (c & s1 & E1 & H). apply reads_ok in E1; [subst s1|apply reads_sc|done].
  apply bind_inv in H as (ns & s1 & E1 & H).
  assert (s1 = s) as -> by (unfold first_namespace in E1; by destruct (cr_Permissions p) as [|[q|] l]; [|injection E1|]).
  apply bind_inv in H as ([] & s1 & E2 & H). apply reads_ok in E2; [subst s1|apply reads_requireAccess|done].
  apply bind_inv in H as (ref & s1 & E2 & H). apply reads_ok in E2; [subst s1|apply reads_creator|done].
  apply bind_inv in H as (r & s1 & E3 & H). apply bind_inv in H as ([id pwd'] & s2 & E4 & H).
  apply bind_inv in H as (g' & s3 & E5 & H). cbn [fst snd] in *. injection H as <- <- <-.
  assert (Hname : name_from false (cr_Name p) = true) by (unfold validateName in Ename; by destruct (name_from false (cr_Name p))).
  assert (Hlev : isValidLevel (cr_Level p) = true).
  { unfold validate, guard_ in Eval. destruct (isValidDuration _); [|done]. cbn in Eval. by destruct (isValidLevel (cr_Level p)). }
  assert (Hr : s1 = s /\ placed s r /\ Level r = cr_Level p /\ Permissions r = copy_permissions (cr_Permissions p)
    /\ (Level r =s= LEVELPROJECT) = negb (ProjectID (row r) =? 0)).
  { unfold SetProject in E3. cbn [Level] in E3. destruct (String.eqb_spec (cr_Level p) LEVELPROJECT) as [L|L].
    - cbn [Permissions] in E3. destruct (copy_permissions (cr_Permissions p)) as [|q qs] eqn:Ecp; [done|].
      apply bind_inv in E3 as (pro & s4 & E3 & H). apply project_GetByName_ok in E3 as (-> & En & Ep); [|done].
      injection H as <- <-. unfold placed. cbn. rewrite L. cbn. rewrite En.
      destruct (inv_project _ Hs _ _ Ep) as (Hne & _). split; [done|]. split; [done|]. split; [done|]. split; [done|].
      by destruct (Z.eqb_spec pro.1 0).
    - injection E3 as <- <-. unfold placed. cbn. apply String.eqb_neq in L. rewrite L. cbn.
      split; [done|]. split; [split; [done|by eapply valid_name_no_plus]|]. done. }
  destruct Hr as (-> & Hpl & Hl & Hps & Hpid).
  destruct (Create_ok Encrypt rnd attempts r now s id pwd' s2 Hs Hpl E4) as (Hs2 & Ep & (y & Hy & Y1 & Y2 & Y3 & Y4 & Y5 & Y6) & Hh).
  unfold Get, robot_dao_Get, bind at 1 in E5. rewrite io_quiet in E5 by apply Hs2. unfold bind, get in E5. rewrite Hy in E5.
  unfold populate, ret in E5. injection E5 as <- <-.
  assert (Hed : setEditable y = true) by (unfold setEditable; rewrite Y3; apply negb_true_iff; by apply String.eqb_neq).
  cbn [row with_name ID Name ExpiresAt]. rewrite Hed, Y6. split; [done|]. split; [done|]. split.
  - exists y. repeat split; try done. unfold setLevel. rewrite Y2. rewrite Hl in Hpid.
    unfold isValidLevel in Hlev. destruct (String.eqb_spec (cr_Level p) LEVELPROJECT) as [L|L].
    + destruct (ProjectID (row r) =? 0); done.
    + destruct (ProjectID (row r) =? 0); [|done]. rewrite orb_false_r in Hlev. by apply String.eqb_eq in Hlev as ->.
  - intros pp. by rewrite Hh, Hps.
Qed.
End Requests.

(** C26: the robot that a request creates can log in with the secret of the answer,
    and with no secret of another hash, until it expires; its context has the level
    and, scope by scope, exactly the accesses that were asked for.  The tables stay
    well-formed. *)
Theorem created_robot_authenticates Encrypt rnd RobotPrefix attempts sc p now s g pwd s' t secret :
  Inv s -> (forall a b, Encrypt a b <> "") ->
  CreateRobot Encrypt rnd RobotPrefix attempts sc p now s = (Ok (g, pwd), s') ->
  (ExpiresAt (row g) = -1 \/ t < ExpiresAt (row g)) ->
  Inv s' /\ exists r y, robots s' !! ID (row g) = Some y
    /\ (Generate Encrypt RobotPrefix (Name (row g)) pwd t s').1 = Ok (Some r)
    /\ (Encrypt secret (Salt y) <> Secret y -> (Generate Encrypt RobotPrefix (Name (row g)) secret t s').1 = Ok None)
    /\ Level r = cr_Level p
    /\ (forall q, q ∈ Permissions r -> scope_of (projects s) q (Scope q))
    /\ forall sc a, (exists q, q ∈ Permissions r /\ Scope q = sc /\ a ∈ Access q)
                    <-> asked (projects s) (copy_permissions (cr_Permissions p)) (pp_of sc a).
Proof.
  intros Hs Henc H Ht. destruct (CreateRobot_ok _ _ _ _ _ _ _ _ _ _ _ Hs Henc H)
    as (Hs' & Ep & (y & Hy & Y1 & Y2 & Y3 & Y4 & Y5) & Hh).
  assert (Hsec : Secret y <> "") by (rewrite Y2; apply Henc). rewrite <- Y4 in Ht.
  assert (Hsco : forall pp, holds s' (ID (row g)) pp -> exists q, scope_of (projects s') q (pp_Scope pp)).
  { intros pp Hpp%Hh. rewrite Ep. by eapply asked_scope. }
  split; [done|].
  destruct (Generate_finds Encrypt RobotPrefix (ID (row g)) y pwd t s' Hs' Hy Hsec Y3 Ht Hsco) as (r & E & _ & L & Hsc & Hg).
  destruct (Generate_finds Encrypt RobotPrefix (ID (row g)) y secret t s' Hs' Hy Hsec Y3 Ht Hsco) as (r' & E' & _).
  exists r, y. rewrite Y1, E, E', <- Y2, String.eqb_refl, Ep in *. split; [done|]. split; [done|]. split.
  - intros Hne%String.eqb_neq. cbn. by rewrite Hne.
  - rewrite L, Y5. split; [done|]. split; [done|]. intros sc' a. by rewrite Hg, Hh.
Qed.

(** An administrator creates a robot that pushes to the project library. *)
Definition sample_store : store := mkStore ∅ ∅ ∅ {[1 := "library"]} 1 0 [].
Definition sample_admin : secctx := mkSecctx (LocalUser 1) "local" true (fun _ _ => true).
Definition sample_hash (pwd salt : string) : string := ("#" ++ pwd ++ salt)%string.
Definition sample_rnd (n : nat) : string := if (n =? 0)%nat then "short" else "Aa0Aa0Aa0Aa0".
Definition sample_request : RobotCreate :=
  mkRobotCreate "ci" "" 30 "project"
    [Some (mkRobotPermission "project" "library" [Some (mkPolicy "repository" "push" ""); Some (mkPolicy "tag" "list" "")])].

Lemma sample_inv : Inv sample_store.
Proof.
  split; cbn; try done.
  - intros i n [<- <-]%lookup_singleton_Some. done.
  - by intros i j n [<- _]%lookup_singleton_Some [<- _]%lookup_singleton_Some.
Qed.

Definition sample_created := CreateRobot sample_hash sample_rnd "robot$" 5 (Some sample_admin) sample_request 1000 sample_store.

Lemma created_robot_authenticates_witness :
  exists g pwd r, sample_created.1 = Ok (g, pwd) /\ Name (row g) = "robot$library+ci"
    /\ (Generate sample_hash "robot$" "robot$library+ci" pwd 2000 sample_created.2).1 = Ok (Some r)
    /\ Level r = "project".
Proof.
  destruct sample_created as [[[g pwd]|e] s'] eqn:E; [|by vm_compute in E].
  assert (Hg : Name (row g) = "robot$library+ci" /\ ExpiresAt (row g) = 2593000).
  { vm_compute in E. injection E as <- _ _. done. }
  destruct Hg as [Hn He].
  destruct (created_robot_authenticates sample_hash sample_rnd "robot$" 5 (Some sample_admin) sample_request 1000 sample_store
    g pwd s' 2000 "x" sample_inv ltac:(done) E) as (_ & r & y & _ & H1 & _ & H2 & _); [right; lia|].
  exists g, pwd, r. rewrite Hn in H1. split; [reflexivity|]. split; [exact Hn|]. split; [exact H1|exact H2].
Defined.

(** The update of a robot writes the new permissions over the old ones in place: an
    access without an effect takes that of the access that stood there before, even
    of another action, and a denial stays. *)
Lemma update_keeps_denial :
  over_list over_permission
    [mkPermission "project" "library" [mkPolicy "repository" "pull" "deny"] "/project/1"]
    [mkPermission "project" "library" [mkPolicy "repository" "push" ""] ""]
  = [mkPermission "project" "library" [mkPolicy "repository" "push" "deny"] "/project/1"].
Proof. reflexivity. Qed.
