(* ===== verification/Orm.v ===== *)
(** * Transactions

    [src/lib/orm/orm.go] ([WithTransaction]) and [src/lib/orm/tx.go] (the
    transaction with savepoints) over a PostgreSQL connection: a statement
    that fails inside a transaction aborts it, and every statement after it
    fails until the roll back to the last savepoint or of the whole
    transaction.  The components whose operations run in transactions write
    their statements with [call]. *)

From S2P Require Import Prelude Errors.

(** ** Connections *)

(** The tables [T] of a database, what a roll back does not undo [X] (the
    sequences, the request's context), and the connection: whether it is in a
    transaction, whether that has been aborted, and the faults of the coming
    statements. *)
Record conn (T X : Type) := mkConn {
  tb : T;
  ext : X;
  in_tx : bool;
  aborted : bool;
  c_faults : list (option error);
}.
Arguments mkConn {T X} _ _ _ _ _.
Arguments tb {T X} _.
Arguments ext {T X} _.
Arguments in_tx {T X} _.
Arguments aborted {T X} _.
Arguments c_faults {T X} _.

(** The error of a statement in an aborted transaction, and of a commit that
    rolls back. *)
Definition InFailedTransaction : error := PgError "25P02".
Definition ErrTxCommitRollback : error := Sentinel "commit unexpectedly resulted in rollback".

Section Connections.
Context {T X : Type}.

Definition with_tb (s : conn T X) (t : T) : conn T X := mkConn t (ext s) (in_tx s) (aborted s) (c_faults s).
Definition with_ext (s : conn T X) (x : X) : conn T X := mkConn (tb s) x (in_tx s) (aborted s) (c_faults s).

(** A statement that fails marks the transaction it is in. *)
Definition failed_stmt (s : conn T X) (fs : list (option error)) : conn T X :=
  mkConn (tb s) (ext s) (in_tx s) (in_tx s) fs.

(** One statement: a fault of the connection, or the effect of [f]; an error
    of [f] is an error of the statement, which has no effect on the tables. *)
Definition call {A} (f : T -> X -> result (A * T) * X) : M (conn T X) A := fun s =>
  if aborted s then (Err InFailedTransaction, s)
  else
    let run fs :=
      match f (tb s) (ext s) with
      | (Ok (a, t), x) => (Ok a, mkConn t x (in_tx s) false fs)
      | (Err e, x) => (Err e, mkConn (tb s) x (in_tx s) (in_tx s) fs)
      end in
    match c_faults s with
    | Some e :: fs => (Err e, failed_stmt s fs)
    | None :: fs => run fs
    | [] => run []
    end.

(** A statement without effect on the tables. *)
Definition select {A} (f : T -> A) : M (conn T X) A := call (fun t x => (Ok (f t, t), x)).

(** A statement without a fault of its own that succeeds. *)
Definition update {A} (f : T -> A * T) : M (conn T X) A := call (fun t x => (Ok (f t), x)).

(** ** [WithTransaction] *)

(** [Begin], [SAVEPOINT]: a statement. *)
Definition begin_ : M (conn T X) unit := fun s =>
  match call (fun t x => (Ok (tt, t), x)) s with
  | (Ok _, s1) => (Ok tt, mkConn (tb s1) (ext s1) true false (c_faults s1))
  | (Err e, s1) => (Err e, s1)
  end.

(** Back to the tables [t0] of the savepoint or of the start, in the enclosing
    mode [tx0]; the roll back itself may fail, which leaves an enclosing
    transaction aborted. *)
Definition rollback (t0 : T) (tx0 : bool) (s : conn T X) : option error * conn T X :=
  match c_faults s with
  | Some e :: fs => (Some e, mkConn t0 (ext s) tx0 tx0 fs)
  | None :: fs => (None, mkConn t0 (ext s) tx0 false fs)
  | [] => (None, mkConn t0 (ext s) tx0 false [])
  end.

(** [Commit], [RELEASE SAVEPOINT]: in an aborted transaction the commit rolls
    back, and the release of a savepoint fails. *)
Definition commit (t0 : T) (tx0 : bool) (s : conn T X) : option error * conn T X :=
  if aborted s
  then (Some (if tx0 then InFailedTransaction else ErrTxCommitRollback), mkConn t0 (ext s) tx0 tx0 (c_faults s))
  else match c_faults s with
       | Some e :: fs => (Some e, mkConn t0 (ext s) tx0 tx0 fs)
       | None :: fs => (None, mkConn (tb s) (ext s) tx0 false fs)
       | [] => (None, mkConn (tb s) (ext s) tx0 false [])
       end.

Definition WithTransaction {A} (f : M (conn T X) A) : M (conn T X) A := fun s =>
  match begin_ s with
  | (Err e, s1) => (Err e, s1)
  | (Ok _, s1) =>
      match f s1 with
      | (Err e, s2) =>
          match rollback (tb s) (in_tx s) s2 with
          | (Some e', s3) => (Err e', s3)
          | (None, s3) => (Err e, s3)
          end
      | (Ok a, s2) =>
          match commit (tb s) (in_tx s) s2 with
          | (Some e', s3) => (Err e', s3)
          | (None, s3) => (Ok a, s3)
          end
      end
  end.

(** ** Facts *)

(** A connection on which nothing will fail. *)
Definition quiet_conn (s : conn T X) : Prop := aborted s = false /\ c_faults s = [].

Lemma call_err {A} (f : T -> X -> result (A * T) * X) s e s' :
  call f s = (Err e, s') -> tb s' = tb s /\ in_tx s' = in_tx s /\ (in_tx s = true -> aborted s' = true).
Proof.
  unfold call. destruct (aborted s) eqn:Ha; [by intros [= <- <-]|].
  destruct (c_faults s) as [|[e0|] fs]; [|by intros [= <- <-]|].
  all: destruct (f (tb s) (ext s)) as [[[a t]|e1] x]; [done|by intros [= <- <-]].
Qed.

(** Where the error of a statement comes from. *)
Lemma call_err_cause {A} (f : T -> X -> result (A * T) * X) s e s' :
  call f s = (Err e, s') ->
  e = InFailedTransaction \/ Some e ∈ c_faults s \/ (f (tb s) (ext s)).1 = Err e.
Proof.
  unfold call. destruct (aborted s); [intros [= <- _]; by left|].
  destruct (c_faults s) as [|[e0|] fs]; [|intros [= <- _]; right; left; by constructor|].
  all: destruct (f (tb s) (ext s)) as [[[a t]|e1] x]; [done|]; intros [= <- _]; by do 2 right.
Qed.

Lemma tail_suffix {B} (l : list B) : tail l `suffix_of` l.
Proof. destruct l; [done|]. apply suffix_cons_r, reflexivity. Qed.

Lemma suffix_head {B} (x : B) l k : x :: l `suffix_of` k -> x ∈ k.
Proof. intros [j ->]. apply elem_of_app. right. by constructor. Qed.

Lemma call_faults {A} (f : T -> X -> result (A * T) * X) s : c_faults (call f s).2 `suffix_of` c_faults s.
Proof.
  unfold call. destruct (aborted s); [done|].
  destruct (c_faults s) as [|[e0|] fs]; simpl; [|apply suffix_cons_r, reflexivity|].
  - by destruct (f (tb s) (ext s)) as [[[a t]|e1] x].
  - destruct (f (tb s) (ext s)) as [[[a t]|e1] x]; apply suffix_cons_r, reflexivity.
Qed.

Lemma call_ok {A} (f : T -> X -> result (A * T) * X) s a s' :
  call f s = (Ok a, s') ->
  f (tb s) (ext s) = (Ok (a, tb s'), ext s') /\ in_tx s' = in_tx s /\ aborted s = false /\ aborted s' = false
  /\ c_faults s' = tail (c_faults s).
Proof.
  unfold call. destruct (aborted s) eqn:Ha; [done|].
  destruct (c_faults s) as [|[e0|] fs] eqn:Hf; [|done|].
  all: destruct (f (tb s) (ext s)) as [[[a' t]|e1] x]; [|done]; intros [= <- <-]; done.
Qed.

Lemma call_quiet {A} (f : T -> X -> result (A * T) * X) s a t x :
  quiet_conn s -> f (tb s) (ext s) = (Ok (a, t), x) ->
  call f s = (Ok a, mkConn t x (in_tx s) false []) /\ quiet_conn (mkConn t x (in_tx s) false []).
Proof. intros [Ha Hf] E. unfold call. rewrite Ha, Hf, E. done. Qed.

Lemma begin_mode s s1 u : begin_ s = (Ok u, s1) ->
  tb s1 = tb s /\ in_tx s1 = true /\ aborted s1 = false /\ aborted s = false /\ c_faults s1 = tail (c_faults s).
Proof.
  unfold begin_. destruct (call _ s) as [[[]|e] s0] eqn:E; [|done]. intros [= <- <-].
  apply call_ok in E as (E & _ & Ha & _ & Hf). injection E as Et _. simpl. by rewrite <- Et.
Qed.

Lemma begin_err s s1 e : begin_ s = (Err e, s1) ->
  tb s1 = tb s /\ in_tx s1 = in_tx s /\ (in_tx s = true -> aborted s1 = true).
Proof.
  unfold begin_. destruct (call _ s) as [[[]|e0] s0] eqn:E; [done|]. intros [= <- <-].
  by apply call_err in E.
Qed.

(** All or nothing: an error leaves the tables as they were. *)
Lemma WithTransaction_err {A} (f : M (conn T X) A) s e s' :
  WithTransaction f s = (Err e, s') -> tb s' = tb s.
Proof.
  unfold WithTransaction. destruct (begin_ s) as [[u|e0] s1] eqn:Eb.
  2: { intros [= <- <-]. by apply begin_err in Eb as [? _]. }
  destruct (f s1) as [[a|e1] s2]; unfold commit, rollback.
  - destruct (aborted s2); [by intros [= <- <-]|].
    destruct (c_faults s2) as [|[?|] ?]; [done|by intros [= <- <-]|done].
  - destruct (c_faults s2) as [|[?|] ?]; by intros [= <- <-].
Qed.

Lemma begin_faults s : c_faults (begin_ s).2 `suffix_of` c_faults s.
Proof.
  unfold begin_. pose proof (call_faults (fun t x => (Ok (tt, t), x)) s) as H.
  by destruct (call _ s) as [[[]|e] s1].
Qed.

Lemma rollback_faults t0 tx0 s : c_faults (rollback t0 tx0 s).2 `suffix_of` c_faults s.
Proof. unfold rollback. destruct (c_faults s) as [|[?|] ?]; [done|apply suffix_cons_r, reflexivity..]. Qed.

Lemma commit_faults t0 tx0 s : c_faults (commit t0 tx0 s).2 `suffix_of` c_faults s.
Proof.
  unfold commit. destruct (aborted s); [done|].
  destruct (c_faults s) as [|[?|] ?]; [done|apply suffix_cons_r, reflexivity..].
Qed.

Lemma WithTransaction_faults {A} (f : M (conn T X) A) s :
  (forall s, c_faults (f s).2 `suffix_of` c_faults s) -> c_faults (WithTransaction f s).2 `suffix_of` c_faults s.
Proof.
  intros Hf. unfold WithTransaction. pose proof (begin_faults s) as Hb.
  destruct (begin_ s) as [[u|e0] s1]; simpl in *; [|done]. specialize (Hf s1).
  destruct (f s1) as [[a|e] s2]; simpl in *.
  - pose proof (commit_faults (tb s) (in_tx s) s2) as Hc. destruct (commit _ _ s2) as [[e'|] s3]; simpl in *; by do 2 etrans.
  - pose proof (rollback_faults (tb s) (in_tx s) s2) as Hc. destruct (rollback _ _ s2) as [[e'|] s3]; simpl in *; by do 2 etrans.
Qed.

(** Where the error of a transaction comes from: its body, the connection, or
    its being aborted. *)
Lemma WithTransaction_err_cause {A} (f : M (conn T X) A) s e s' :
  (forall s, c_faults (f s).2 `suffix_of` c_faults s) -> WithTransaction f s = (Err e, s') ->
  e = InFailedTransaction \/ e = ErrTxCommitRollback \/ Some e ∈ c_faults s
  \/ exists s1, begin_ s = (Ok tt, s1) /\ (f s1).1 = Err e.
Proof.
  intros Hf. unfold WithTransaction. pose proof (begin_faults s) as Hb.
  destruct (begin_ s) as [[[]|e0] s1] eqn:Eb; simpl in Hb.
  2: { intros [= <- _]. unfold begin_ in Eb. destruct (call _ s) as [[?|e1] ?] eqn:E; [done|].
       injection Eb as -> _. apply call_err_cause in E as [?|[?|?]]; [by left|by do 2 right; left|done]. }
  specialize (Hf s1). destruct (f s1) as [[a|e1] s2] eqn:Ef; simpl in Hf.
  - unfold commit. destruct (aborted s2); [intros [= <- _]; destruct (in_tx s); auto|].
    destruct (c_faults s2) as [|[e'|] fs] eqn:Ec; [done| |done]. intros [= <- _]. do 2 right. left.
    by apply (suffix_head _ fs); etrans.
  - unfold rollback. destruct (c_faults s2) as [|[e'|] fs] eqn:Ec.
    + intros [= <- _]. do 3 right. exists s1. by rewrite Ef.
    + intros [= <- _]. do 2 right. left. by apply (suffix_head _ fs); etrans.
    + intros [= <- _]. do 3 right. exists s1. by rewrite Ef.
Qed.

(** A success commits what the body did, and the body has swallowed no failed
    statement. *)
Lemma WithTransaction_ok {A} (f : M (conn T X) A) s a s' :
  WithTransaction f s = (Ok a, s') ->
  exists s1 s2, begin_ s = (Ok tt, s1) /\ f s1 = (Ok a, s2) /\ aborted s2 = false
    /\ tb s' = tb s2 /\ ext s' = ext s2 /\ aborted s' = false /\ in_tx s' = in_tx s.
Proof.
  unfold WithTransaction. destruct (begin_ s) as [[[]|e0] s1] eqn:Eb; [|done].
  destruct (f s1) as [[a1|e1] s2] eqn:Ef; unfold commit, rollback.
  - destruct (aborted s2) eqn:Ha; [done|].
    destruct (c_faults s2) as [|[?|] ?]; [|done|]; intros [= <- <-]; exists s1, s2; done.
  - destruct (c_faults s2) as [|[?|] ?]; done.
Qed.

Lemma call_aborted {A} (f : T -> X -> result (A * T) * X) s :
  aborted s = true -> call f s = (Err InFailedTransaction, s).
Proof. intros H. unfold call. by rewrite H. Qed.

(** In a transaction that is not aborted afterwards a statement has
    succeeded. *)
Lemma call_in_tx {A} (f : T -> X -> result (A * T) * X) s r s' :
  call f s = (r, s') -> in_tx s = true -> aborted s' = false ->
  exists a, r = Ok a /\ f (tb s) (ext s) = (Ok (a, tb s'), ext s').
Proof.
  intros E Htx Ha. destruct r as [a|e].
  - apply call_ok in E as (E & _). eauto.
  - apply call_err in E as (_ & _ & H). rewrite (H Htx) in Ha. done.
Qed.

Lemma select_in_tx {A} (f : T -> A) s r s' :
  select f s = (r, s') -> in_tx s = true -> aborted s' = false -> r = Ok (f (tb s)) /\ tb s' = tb s.
Proof.
  intros E Htx Ha. destruct (call_in_tx _ _ _ _ E Htx Ha) as (a & -> & [= -> -> _]). done.
Qed.

Lemma update_in_tx {A} (f : T -> A * T) s r s' :
  update f s = (r, s') -> in_tx s = true -> aborted s' = false -> r = Ok (f (tb s)).1 /\ tb s' = (f (tb s)).2.
Proof.
  intros E Htx Ha. destruct (call_in_tx _ _ _ _ E Htx Ha) as (a & -> & H).
  injection H as H _. by rewrite H.
Qed.
End Connections.

(** ** Frames *)

(** What every operation does to its connection: it keeps the mode, an aborted
    transaction stays aborted, it consumes faults, and the tables change along
    [R]. *)
Definition frame {T X A} (R : T -> T -> Prop) (m : M (conn T X) A) : Prop :=
  forall s, in_tx (m s).2 = in_tx s /\ (aborted s = true -> aborted (m s).2 = true)
  /\ c_faults (m s).2 `suffix_of` c_faults s /\ R (tb s) (tb (m s).2).

Section Frames.
Context {T X : Type} (R : T -> T -> Prop) `{!PreOrder R}.

Lemma frame_ret {A} (a : A) : frame R (@ret (conn T X) A a).
Proof. by intros s. Qed.

Lemma frame_fail {A} e : frame R (@fail (conn T X) A e).
Proof. by intros s. Qed.

Lemma frame_of_result {A} (r : result A) : frame R (@of_result (conn T X) A r).
Proof. by intros s. Qed.

Lemma frame_bind {A B} (m : M (conn T X) A) (k : A -> M (conn T X) B) :
  frame R m -> (forall a, frame R (k a)) -> frame R (bind m k).
Proof.
  intros Hm Hk s. unfold bind. destruct (Hm s) as (H1 & H2 & H3 & H4).
  destruct (m s) as [[a|e] s1]; simpl in *; [|done].
  destruct (Hk a s1) as (H5 & H6 & H7 & H8). rewrite H5, H1. split; [done|]. split; [auto|].
  split; [by etrans|by transitivity (tb s1)].
Qed.

Lemma frame_bind_result {A B} (r : result A) (k : A -> M (conn T X) B) :
  (forall a, r = Ok a -> frame R (k a)) -> frame R (bind (of_result r) k).
Proof. intros Hk s. unfold bind, of_result. destruct r as [a|e]; [by apply Hk|done]. Qed.

Lemma frame_try {A} (m : M (conn T X) A) : frame R m -> frame R (try m).
Proof. intros Hm s. specialize (Hm s). unfold try. by destruct (m s). Qed.

Lemma frame_iterM {A} (f : A -> M (conn T X) unit) l : (forall x, frame R (f x)) -> frame R (iterM f l).
Proof.
  intros Hf. induction l as [|x l IH]; simpl; [apply frame_ret|]. by apply frame_bind.
Qed.

Lemma frame_call {A} (f : T -> X -> result (A * T) * X) :
  (forall t x a t' x', f t x = (Ok (a, t'), x') -> R t t') -> frame R (call f).
Proof.
  intros Hf s. pose proof (call_faults f s) as Hs. destruct (call f s) as [[a|e] s'] eqn:E; simpl in *.
  - apply call_ok in E as (E & H1 & H2 & _). split; [done|]. split; [by rewrite H2|]. split; [done|]. by eapply Hf.
  - destruct (call_err _ _ _ _ E) as (-> & -> & _). split; [done|]. split; [|done].
    intros Ha. rewrite call_aborted in E by done. by injection E as <- <-.
Qed.

Lemma frame_select {A} (f : T -> A) : frame R (@select T X A f).
Proof. apply frame_call. intros t x a t' x' [= _ -> _]. done. Qed.

Lemma frame_update {A} (f : T -> A * T) : (forall t, R t (f t).2) -> frame R (@update T X A f).
Proof. intros Hf. apply frame_call. intros t x a t' x' [= E _]. specialize (Hf t). by rewrite E in Hf. Qed.

Lemma frame_WithTransaction {A} (f : M (conn T X) A) : frame R f -> frame R (WithTransaction f).
Proof.
  intros Hf s. split; [|split; [|split]].
  - unfold WithTransaction. destruct (begin_ s) as [[u|e] s1] eqn:Eb.
    2: { by apply begin_err in Eb as (_ & ? & _). }
    destruct (f s1) as [[a|e] s2]; unfold commit, rollback; [destruct (aborted s2); [done|]|];
      by destruct (c_faults s2) as [|[?|] ?].
  - intros H. unfold WithTransaction, begin_. by rewrite call_aborted.
  - apply WithTransaction_faults. intros s1. by destruct (Hf s1) as (_ & _ & H & _).
  - destruct (WithTransaction f s) as [[a|e] s'] eqn:E; simpl.
    + apply WithTransaction_ok in E as (s1 & s2 & Eb & Ef & _ & -> & _).
      apply begin_mode in Eb as (<- & _). destruct (Hf s1) as (_ & _ & _ & H). by rewrite Ef in H.
    + by rewrite (WithTransaction_err _ _ _ _ E).
Qed.

(** A connection that is not aborted after an operation was not before. *)
Lemma frame_back {A} (m : M (conn T X) A) s r s' :
  frame R m -> m s = (r, s') -> aborted s' = false -> aborted s = false.
Proof.
  intros Hm E Ha. destruct (Hm s) as (_ & H & _ & _). rewrite E in H. simpl in H.
  destruct (aborted s); [|done]. by rewrite H in Ha.
Qed.

Lemma frame_mode {A} (m : M (conn T X) A) s r s' : frame R m -> m s = (r, s') -> in_tx s' = in_tx s.
Proof. intros Hm E. destruct (Hm s) as (H & _). by rewrite E in H. Qed.

Lemma frame_tb {A} (m : M (conn T X) A) s r s' : frame R m -> m s = (r, s') -> R (tb s) (tb s').
Proof. intros Hm E. destruct (Hm s) as (_ & _ & _ & H). by rewrite E in H. Qed.

Lemma frame_faults {A} (m : M (conn T X) A) s r s' :
  frame R m -> m s = (r, s') -> c_faults s' `suffix_of` c_faults s.
Proof. intros Hm E. destruct (Hm s) as (_ & _ & H & _). by rewrite E in H. Qed.

(** The parts of a sequence that succeeds in a transaction. *)
Lemma tx_bind_inv {A B} (m : M (conn T X) A) (k : A -> M (conn T X) B) s b s' :
  bind m k s = (Ok b, s') -> in_tx s = true -> aborted s' = false ->
  frame R m -> (forall a, frame R (k a)) ->
  exists a s1, m s = (Ok a, s1) /\ k a s1 = (Ok b, s') /\ in_tx s1 = true /\ aborted s1 = false
    /\ R (tb s) (tb s1) /\ c_faults s1 `suffix_of` c_faults s.
Proof.
  intros E Htx Ha Hm Hk. apply bind_inv in E as (a & s1 & E1 & E2). exists a, s1.
  split; [done|]. split; [done|]. split; [by rewrite (frame_mode m _ _ _ Hm E1)|].
  split; [exact (frame_back _ _ _ _ (Hk a) E2 Ha)|]. 
  split; [exact (frame_tb _ _ _ _ Hm E1)|exact (frame_faults _ _ _ _ Hm E1)].
Qed.
End Frames.

Lemma try_inv {St A} (m : M St A) s r s' : try m s = (Ok r, s') -> m s = (r, s').
Proof. unfold try. destruct (m s). by intros [= -> ->]. Qed.

Create HintDb orm.
#[export] Hint Resolve frame_ret frame_fail frame_of_result frame_bind frame_try frame_iterM frame_select
  frame_WithTransaction : orm.
