(* ===== verification/ArtifactDb.v ===== *)
(** * Artifacts: tables and data access

    The tables that describe what a registry holds and the operations on
    them: [src/pkg/artifact] (manager and dao), [src/pkg/tag],
    [src/pkg/accessory], [src/pkg/label], the trash of
    [src/pkg/artifactrash/dao], and the queries of [src/pkg/repository] and
    [src/pkg/project] that the artifact controller makes.  The unique and
    foreign key constraints are those of the schema in
    [make/migrations/postgresql]; a violated one fails its statement. *)

From S2P Require Import Prelude Errors Orm.
From S2P Require Blob.
From S2P Require Retention.

(** ** Rows *)

Record Reference := mkReference {
  r_ID : Z;
  r_ParentID : Z;
  r_ChildID : Z;
  r_ChildDigest : string;
}.

(** An accessory found while the manifest of an artifact is abstracted. *)
Record AccessoryCandidate := mkCandidate {
  ac_ArtifactID : Z;
  ac_SubArtifactID : Z;
  ac_SubArtifactRepo : string;
  ac_SubArtifactDigest : string;
  ac_Digest : string;
  ac_Size : Z;
  ac_Type : string;
}.

(** The row of an artifact, without its extra attributes and annotations. *)
Record ArtRow := mkArtRow {
  a_ID : Z;
  a_Type : string;
  a_MediaType : string;
  a_ManifestMediaType : string;
  a_ArtifactType : string;
  a_ProjectID : Z;
  a_RepositoryID : Z;
  a_RepositoryName : string;
  a_Digest : string;
  a_Size : Z;
  a_Icon : string;
  a_PushTime : Z;
  a_PullTime : Z;
}.

(** The artifact of the manager: a row with its references, and the accessory
    candidates of an artifact that is being created. *)
Record Artifact := mkArtifact {
  row : ArtRow;
  References : list Reference;
  AccessoryCandidates : list AccessoryCandidate;
}.

Record TagRow := mkTagRow {
  t_ID : Z;
  t_RepositoryID : Z;
  t_ArtifactID : Z;
  t_Name : string;
  t_PushTime : Z;
  t_PullTime : Z;
}.

Record Accessory := mkAccessory {
  c_ID : Z;
  c_ArtifactID : Z;
  c_SubArtifactID : Z;
  c_SubArtifactRepo : string;
  c_SubArtifactDigest : string;
  c_Size : Z;
  c_Digest : string;
  c_Type : string;
}.

Record RepoRecord := mkRepo {
  rp_RepositoryID : Z;
  rp_Name : string;
  rp_ProjectID : Z;
  rp_UpdateTime : Z;
}.

Record Project := mkProject {
  p_ProjectID : Z;
  p_RegistryID : Z;
}.

Definition IsProxy (p : Project) : bool := 0 <? p_RegistryID p.

(** The tables; the labels by identifier, the pairs of a label and an
    artifact, the immutable rules of each project, and the tables of the
    blobs, whose copy of the artifacts is not used: see [blob_view]. *)
Record tables := mkTables {
  arts : gmap Z ArtRow;
  refs : gmap Z Reference;
  tags : gmap Z TagRow;
  accs : gmap Z Accessory;
  labels : gmap Z string;
  label_refs : gset (Z * Z);
  repos : gmap Z RepoRecord;
  projects : gmap string Project;
  immutable_rules : gmap Z (list Retention.ImmutableRule);
  blobdb : Blob.store;
}.

Definition with_arts (t : tables) x := mkTables x (refs t) (tags t) (accs t) (labels t) (label_refs t)
  (repos t) (projects t) (immutable_rules t) (blobdb t).
Definition with_refs (t : tables) x := mkTables (arts t) x (tags t) (accs t) (labels t) (label_refs t)
  (repos t) (projects t) (immutable_rules t) (blobdb t).
Definition with_tags (t : tables) x := mkTables (arts t) (refs t) x (accs t) (labels t) (label_refs t)
  (repos t) (projects t) (immutable_rules t) (blobdb t).
Definition with_accs (t : tables) x := mkTables (arts t) (refs t) (tags t) x (labels t) (label_refs t)
  (repos t) (projects t) (immutable_rules t) (blobdb t).
Definition with_label_refs (t : tables) x := mkTables (arts t) (refs t) (tags t) (accs t) (labels t) x
  (repos t) (projects t) (immutable_rules t) (blobdb t).
Definition with_repos (t : tables) x := mkTables (arts t) (refs t) (tags t) (accs t) (labels t)
  (label_refs t) x (projects t) (immutable_rules t) (blobdb t).
Definition with_blobdb (t : tables) x := mkTables (arts t) (refs t) (tags t) (accs t) (labels t)
  (label_refs t) (repos t) (projects t) (immutable_rules t) x.

(** What a roll back keeps: the sequences of the identifiers, the clock, the
    events added to the request, and the variable [accessoryErr] that
    [ensureArtifact] shares with its transaction. *)
Inductive event :=
| PushArtifact (art : Artifact) (tag : string)
| DeleteArtifact (art : Artifact) (tagNames labelNames : list string)
| LabelArtifact (artifactID labelID : Z).

Record request := mkRequest {
  seq_artifact : Z;
  seq_reference : Z;
  seq_tag : Z;
  seq_accessory : Z;
  seq_trash : Z;
  clock : Z;
  events : list event;
  accessoryErr : option error;
}.

Definition bump_artifact (id : Z) (x : request) := mkRequest (id + 1) (seq_reference x) (seq_tag x)
  (seq_accessory x) (seq_trash x) (clock x) (events x) (accessoryErr x).
Definition bump_reference (id : Z) (x : request) := mkRequest (seq_artifact x) (id + 1) (seq_tag x)
  (seq_accessory x) (seq_trash x) (clock x) (events x) (accessoryErr x).
Definition bump_tag (id : Z) (x : request) := mkRequest (seq_artifact x) (seq_reference x) (id + 1)
  (seq_accessory x) (seq_trash x) (clock x) (events x) (accessoryErr x).
Definition bump_accessory (id : Z) (x : request) := mkRequest (seq_artifact x) (seq_reference x) (seq_tag x)
  (id + 1) (seq_trash x) (clock x) (events x) (accessoryErr x).
Definition bump_trash (id : Z) (x : request) := mkRequest (seq_artifact x) (seq_reference x) (seq_tag x)
  (seq_accessory x) (id + 1) (clock x) (events x) (accessoryErr x).

Definition db : Type := conn tables request.

(** [notification.AddEvent] and [time.Now]: no statements. *)
Definition AddEvent (e : event) : M db unit := fun s =>
  let x := ext s in
  (Ok tt, with_ext s (mkRequest (seq_artifact x) (seq_reference x) (seq_tag x) (seq_accessory x)
                        (seq_trash x) (clock x) (events x ++ [e]) (accessoryErr x))).

Definition set_accessoryErr (e : option error) : M db unit := fun s =>
  let x := ext s in
  (Ok tt, with_ext s (mkRequest (seq_artifact x) (seq_reference x) (seq_tag x) (seq_accessory x)
                        (seq_trash x) (clock x) (events x) e)).

Definition get_accessoryErr : M db (option error) := fun s => (Ok (accessoryErr (ext s)), s).

Definition Now : M db Z := fun s => (Ok (clock (ext s)), s).

(** ** Statements *)

Definition rows {A} (m : gmap Z A) : list A := (map_to_list m).*2.

Definition UniqueViolation : error := PgError "23505".
Definition ForeignKeyViolation : error := PgError "23503".

Definition map_err {St A} (f : error -> error) (m : M St A) : M St A := fun s =>
  match m s with
  | (Ok a, s') => (Ok a, s')
  | (Err e, s') => (Err (f e), s')
  end.

(** The next value of a sequence, which is not in use in its table. *)
Definition next_id {A} (seq : Z) (m : gmap Z A) : Z := map_fold (fun k _ acc => Z.max (k + 1) acc) seq m.

(** INSERT: the identifier comes from the sequence, which a violated
    constraint does not give back. *)
Definition insert_stmt {A} (seq : request -> Z) (bump : Z -> request -> request) (tab : tables -> gmap Z A)
    (unique fk : tables -> bool) (add : Z -> tables -> tables) : M db Z :=
  call (fun t x =>
    let id := next_id (seq x) (tab t) in
    if negb (unique t) then (Err UniqueViolation, bump id x)
    else if negb (fk t) then (Err ForeignKeyViolation, bump id x)
    else (Ok (id, add id t), bump id x)).

(** DELETE of the rows of a query: their number. *)
Definition delete_stmt {A} (p : A -> bool) (tab : tables -> gmap Z A) (set : tables -> gmap Z A -> tables)
    : M db Z :=
  update (fun t =>
    (Z.of_nat (size (filter (fun it => p it.2 = true) (tab t))),
     set t (filter (fun it => p it.2 = false) (tab t)))).

Definition num (z : Z) : string := Strconv.format_int z.

(** ** [pkg/artifact] *)

Definition MediaTypeImageIndex : string := "application/vnd.oci.image.index.v1+json".
Definition MediaTypeManifestList : string := "application/vnd.docker.distribution.manifest.list.v2+json".

Definition IsImageIndex (a : ArtRow) : bool :=
  (a_ManifestMediaType a =s= MediaTypeImageIndex) || (a_ManifestMediaType a =s= MediaTypeManifestList).

Definition ResolveArtifactType (a : ArtRow) : string :=
  if negb (a_ArtifactType a =s= "") then a_ArtifactType a else a_MediaType a.

Definition art_dao_Get (id : Z) : M db ArtRow :=
  r <- select (fun t => arts t !! id) ;;
  match r with
  | Some a => ret a
  | None => fail (WrapNotFoundError ErrNoRows ("artifact " ++ num id ++ " not found")%string)
  end.

Definition art_dao_GetByDigest (repository digest : string) : M db ArtRow :=
  r <- select (fun t => List.filter (fun a => (a_RepositoryName a =s= repository) && (a_Digest a =s= digest))
                          (rows (arts t))) ;;
  match r with
  | a :: _ => ret a
  | [] => fail (WithMessage (WithCode (New "") NotFoundCode)
                  ("artifact " ++ repository ++ "@" ++ digest ++ " not found")%string)
  end.

Definition set_a_ID (id : Z) (a : ArtRow) : ArtRow :=
  mkArtRow id (a_Type a) (a_MediaType a) (a_ManifestMediaType a) (a_ArtifactType a) (a_ProjectID a)
    (a_RepositoryID a) (a_RepositoryName a) (a_Digest a) (a_Size a) (a_Icon a) (a_PushTime a) (a_PullTime a).

(** UNIQUE (repository_id, digest). *)
Definition art_unique (a : ArtRow) (t : tables) : bool :=
  negb (existsb (fun b => (a_RepositoryID b =? a_RepositoryID a) && (a_Digest b =s= a_Digest a)) (rows (arts t))).

Definition art_dao_Create (a : ArtRow) : M db Z :=
  map_err (fun e => WrapConflictError e ("artifact " ++ a_Digest a ++ " already exists under the repository "
                                           ++ num (a_RepositoryID a))%string)
    (insert_stmt seq_artifact bump_artifact arts (art_unique a) (fun _ => true)
      (fun id t => with_arts t (<[id := set_a_ID id a]> (arts t)))).

(** The foreign keys to an artifact: the references with it as a parent or a
    child, its tags, its labels, the accessory rows it is the accessory of. *)
Definition art_in_use (id : Z) (t : tables) : bool :=
  existsb (fun r => (r_ParentID r =? id) || (r_ChildID r =? id)) (rows (refs t))
  || existsb (fun g => t_ArtifactID g =? id) (rows (tags t))
  || existsb (fun l => l.2 =? id) (elements (label_refs t))
  || existsb (fun c => c_ArtifactID c =? id) (rows (accs t)).

Definition art_dao_Delete (id : Z) : M db unit :=
  n <- map_err (fun e => default e (AsForeignKeyError e
                 ("the artifact " ++ num id ++ " is referenced by other resources")%string))
         (call (fun t x =>
           match arts t !! id with
           | None => (Ok (0, t), x)
           | Some _ => if art_in_use id t then (Err ForeignKeyViolation, x)
                       else (Ok (1, with_arts t (delete id (arts t))), x)
           end)) ;;
  if n =? 0 then fail (WithMessage (NotFoundError None) ("artifact " ++ num id ++ " not found")%string)
  else ret tt.

Definition set_PullTime (time : Z) (a : ArtRow) : ArtRow :=
  mkArtRow (a_ID a) (a_Type a) (a_MediaType a) (a_ManifestMediaType a) (a_ArtifactType a) (a_ProjectID a)
    (a_RepositoryID a) (a_RepositoryName a) (a_Digest a) (a_Size a) (a_Icon a) (a_PushTime a) time.

(** Only forward; an absent time is zero. *)
Definition art_UpdatePullTime (id time : Z) : M db unit :=
  update (fun t => (tt, match arts t !! id with
    | Some a => if a_PullTime a <? time then with_arts t (<[id := set_PullTime time a]> (arts t)) else t
    | None => t
    end)).

Definition set_r_IDs (id parent : Z) (r : Reference) : Reference :=
  mkReference id parent (r_ChildID r) (r_ChildDigest r).

(** UNIQUE (parent_id, child_id), and foreign keys to both artifacts. *)
Definition CreateReference (r : Reference) : M db Z :=
  map_err (fun e =>
      match AsConflictError e ("reference already exists, parent artifact ID: " ++ num (r_ParentID r)
                                 ++ ", child artifact ID: " ++ num (r_ChildID r))%string with
      | Some e' => e'
      | None => default e (AsForeignKeyError e
          ("the reference tries to reference a non existing artifact, parent artifact ID: " ++ num (r_ParentID r)
             ++ ", child artifact ID: " ++ num (r_ChildID r))%string)
      end)
    (insert_stmt seq_reference bump_reference refs
      (fun t => negb (existsb (fun q => (r_ParentID q =? r_ParentID r) && (r_ChildID q =? r_ChildID r)) (rows (refs t))))
      (fun t => bool_decide (is_Some (arts t !! r_ParentID r)) && bool_decide (is_Some (arts t !! r_ChildID r)))
      (fun id t => with_refs t (<[id := set_r_IDs id (r_ParentID r) r]> (refs t)))).

(** [ListReferences] by a column. *)
Definition ListReferences (p : Reference -> bool) : M db (list Reference) :=
  select (fun t => List.filter p (rows (refs t))).

Definition DeleteReference (id : Z) : M db unit :=
  n <- delete_stmt (fun r => r_ID r =? id) refs with_refs ;;
  if n =? 0 then fail (WithMessage (NotFoundError None) ("artifact reference " ++ num id ++ " not found")%string)
  else ret tt.

Definition DeleteReferences (parentID : Z) : M db unit :=
  art_dao_Get parentID ;;;
  delete_stmt (fun r => r_ParentID r =? parentID) refs with_refs ;;;
  ret tt.

Definition assemble (a : ArtRow) : M db Artifact :=
  if IsImageIndex a
  then l <- ListReferences (fun r => r_ParentID r =? a_ID a) ;; ret (mkArtifact a l [])
  else ret (mkArtifact a [] []).

Definition art_Get (id : Z) : M db Artifact := a <- art_dao_Get id ;; assemble a.

Definition art_GetByDigest (repository digest : string) : M db Artifact :=
  a <- art_dao_GetByDigest repository digest ;; assemble a.

Fixpoint mapM {A B} (f : A -> M db B) (l : list A) : M db (list B) :=
  match l with
  | [] => ret []
  | a :: l' => b <- f a ;; bs <- mapM f l' ;; ret (b :: bs)
  end.

(** [List] with the filter its caller gives. *)
Definition art_List (p : ArtRow -> bool) : M db (list Artifact) :=
  l <- select (fun t => List.filter p (rows (arts t))) ;; mapM assemble l.

Definition art_Create (a : Artifact) : M db Z :=
  id <- art_dao_Create (row a) ;;
  iterM (fun r => CreateReference (set_r_IDs (r_ID r) id r) ;;; ret tt) (References a) ;;;
  ret id.

Definition art_Delete (id : Z) : M db unit := DeleteReferences id ;;; art_dao_Delete id.

(** ** [pkg/tag] *)

Definition tag_dao_List (p : TagRow -> bool) : M db (list TagRow) :=
  select (fun t => List.filter p (rows (tags t))).

Definition tag_dao_Get (id : Z) : M db TagRow :=
  r <- select (fun t => tags t !! id) ;;
  match r with
  | Some g => ret g
  | None => fail (WrapNotFoundError ErrNoRows ("tag " ++ num id ++ " not found")%string)
  end.

(** UNIQUE (repository_id, name), and a foreign key to the artifact. *)
Definition tag_unique (g : TagRow) (t : tables) : bool :=
  negb (existsb (fun h => (t_RepositoryID h =? t_RepositoryID g) && (t_Name h =s= t_Name g)) (rows (tags t))).

Definition set_t_ID (id : Z) (g : TagRow) : TagRow :=
  mkTagRow id (t_RepositoryID g) (t_ArtifactID g) (t_Name g) (t_PushTime g) (t_PullTime g).

Definition tag_dao_Create (g : TagRow) : M db Z :=
  map_err (fun e =>
      match AsConflictError e ("tag " ++ t_Name g ++ " already exists under the repository "
                                 ++ num (t_RepositoryID g))%string with
      | Some e' => e'
      | None => default e (AsForeignKeyError e ("the tag " ++ t_Name g
                  ++ " tries to attach to a non existing artifact " ++ num (t_ArtifactID g))%string)
      end)
    (insert_stmt seq_tag bump_tag tags (tag_unique g)
      (fun t => bool_decide (is_Some (arts t !! t_ArtifactID g)))
      (fun id t => with_tags t (<[id := set_t_ID id g]> (tags t)))).

(** The columns the callers update. *)
Definition set_props (g h : TagRow) (props : list string) : TagRow :=
  let has p := existsb (String.eqb p) props in
  mkTagRow (t_ID h) (t_RepositoryID h)
    (if has "ArtifactID" then t_ArtifactID g else t_ArtifactID h)
    (t_Name h)
    (if has "PushTime" then t_PushTime g else t_PushTime h)
    (if has "PullTime" then t_PullTime g else t_PullTime h).

Definition tag_dao_Update (g : TagRow) (props : list string) : M db unit :=
  n <- map_err (fun e => default e (AsForeignKeyError e ("the tag " ++ num (t_ID g)
                 ++ " tries to attach to a non existing artifact " ++ num (t_ArtifactID g))%string))
         (call (fun t x =>
           match tags t !! t_ID g with
           | None => (Ok (0, t), x)
           | Some h =>
               let h' := set_props g h props in
               if bool_decide (is_Some (arts t !! t_ArtifactID h'))
               then (Ok (1, with_tags t (<[t_ID g := h']> (tags t))), x)
               else (Err ForeignKeyViolation, x)
           end)) ;;
  if n =? 0 then fail (WithMessage (NotFoundError None) ("tag " ++ num (t_ID g) ++ " not found")%string)
  else ret tt.

Definition tag_dao_Delete (id : Z) : M db unit :=
  n <- update (fun t => match tags t !! id with
                        | None => (0, t)
                        | Some _ => (1, with_tags t (delete id (tags t)))
                        end) ;;
  if n =? 0 then fail (WithMessage (NotFoundError None) ("tag " ++ num id ++ " not found")%string)
  else ret tt.

(** ** [pkg/accessory] *)

Definition TypeNone : string := "base".
Definition TypeCosignSignature : string := "signature.cosign".
Definition TypeNotationSignature : string := "signature.notation".
Definition TypeNydusAccelerator : string := "accelerator.nydus".
Definition TypeSubject : string := "subject.accessory".
Definition TypeHarborSBOM : string := "sbom.harbor".
Definition TypeInTotoAttestation : string := "attestation.intoto".

(** The registered factories. *)
Definition factories : list string :=
  [TypeNone; TypeCosignSignature; TypeNotationSignature; TypeNydusAccelerator; TypeSubject; TypeHarborSBOM;
   TypeInTotoAttestation].

(** Every accessory model is hard but the base one. *)
Definition IsHard (c : Accessory) : bool := negb (c_Type c =s= TypeNone).

(** [accessory.New] of a row. *)
Definition acc_New (c : Accessory) : result Accessory :=
  if existsb (String.eqb (c_Type c)) factories then Ok c
  else Err (Plain ("accessory type " ++ c_Type c ++ " not support")%string).

Definition acc_dao_List (p : Accessory -> bool) : M db (list Accessory) :=
  select (fun t => List.filter p (rows (accs t))).

Definition acc_dao_Get (id : Z) : M db Accessory :=
  r <- select (fun t => accs t !! id) ;;
  match r with
  | Some c => ret c
  | None => fail (WrapNotFoundError ErrNoRows ("accessory " ++ num id ++ " not found")%string)
  end.

Definition set_c_ID (id : Z) (c : Accessory) : Accessory :=
  mkAccessory id (c_ArtifactID c) (c_SubArtifactID c) (c_SubArtifactRepo c) (c_SubArtifactDigest c)
    (c_Size c) (c_Digest c) (c_Type c).

(** UNIQUE (artifact_id, subject_artifact_digest), and a foreign key to the
    artifact; the one to the subject was dropped. *)
Definition acc_dao_Create (c : Accessory) : M db Z :=
  map_err (fun e => WrapConflictError e ("accessory " ++ c_Digest c ++ " already exists under the artifact "
                                           ++ c_SubArtifactDigest c)%string)
    (insert_stmt seq_accessory bump_accessory accs
      (fun t => negb (existsb (fun d => (c_ArtifactID d =? c_ArtifactID c)
                                    && (c_SubArtifactDigest d =s= c_SubArtifactDigest c)) (rows (accs t))))
      (fun t => bool_decide (is_Some (arts t !! c_ArtifactID c)))
      (fun id t => with_accs t (<[id := set_c_ID id c]> (accs t)))).

Definition set_subject (sub : Z) (c : Accessory) : Accessory :=
  mkAccessory (c_ID c) (c_ArtifactID c) sub (c_SubArtifactRepo c) (c_SubArtifactDigest c)
    (c_Size c) (c_Digest c) (c_Type c).

(** [Update] of the subject; an update of no row is no error here. *)
Definition acc_Update (id sub : Z) : M db unit :=
  update (fun t => (tt, match accs t !! id with
    | Some c => with_accs t (<[id := set_subject sub c]> (accs t))
    | None => t
    end)).

Definition acc_Delete (id : Z) : M db unit :=
  n <- delete_stmt (fun c => c_ID c =? id) accs with_accs ;;
  if n =? 0 then fail (WithMessage (NotFoundError None) ("accessory " ++ num id ++ " not found")%string)
  else ret tt.

Definition DeleteAccessories (p : Accessory -> bool) : M db unit := delete_stmt p accs with_accs ;;; ret tt.

Fixpoint acc_models (l : list Accessory) : result (list Accessory) :=
  match l with
  | [] => Ok []
  | c :: l' =>
      match acc_New c, acc_models l' with
      | Err e, _ => Err (WithCode (NewFrom e) BadRequestCode)
      | _, Err e => Err e
      | Ok c', Ok cs => Ok (c' :: cs)
      end
  end.

Definition acc_List (p : Accessory -> bool) : M db (list Accessory) :=
  l <- acc_dao_List p ;; of_result (acc_models l).

Definition acc_Get (id : Z) : M db Accessory := c <- acc_dao_Get id ;; of_result (acc_New c).

Definition acc_Ensure (subArtDigest subArtRepo : string) (subArtID artifactID size : Z) (digest accType : string)
    : M db unit :=
  l <- acc_dao_List (fun c => (c_ArtifactID c =? artifactID) && (c_Digest c =s= digest)) ;;
  match l with
  | _ :: _ => ret tt
  | [] => acc_dao_Create (mkAccessory 0 artifactID subArtID subArtRepo subArtDigest size digest accType) ;;; ret tt
  end.

(** ** [pkg/label] *)

(** The names of the labels of an artifact. *)
Definition ListByArtifact (artifactID : Z) : M db (list string) :=
  select (fun t => omap (fun l => if l.2 =? artifactID then labels t !! l.1 else None) (elements (label_refs t))).

Definition AddTo (labelID artifactID : Z) : M db unit :=
  map_err (fun e =>
      match AsConflictError e ("label " ++ num labelID ++ " is already added to the artifact "
                                 ++ num artifactID)%string with
      | Some e' => e'
      | None =>
          match AsForeignKeyError e ("the reference tries to refer a non existing label " ++ num labelID
                                       ++ " or artifact " ++ num artifactID)%string with
          | Some e' => WithMessage (WithCode (NewFrom e') NotFoundCode) (Error_string e')
          | None => e
          end
      end)
    (call (fun t x =>
      if bool_decide ((labelID, artifactID) ∈ label_refs t) then (Err UniqueViolation, x)
      else if bool_decide (is_Some (labels t !! labelID)) && bool_decide (is_Some (arts t !! artifactID))
      then (Ok (tt, with_label_refs t ({[(labelID, artifactID)]} ∪ label_refs t)), x)
      else (Err ForeignKeyViolation, x))).

Definition RemoveFrom (labelID artifactID : Z) : M db unit :=
  n <- update (fun t =>
         (Z.of_nat (size (filter (fun l => l = (labelID, artifactID)) (label_refs t))),
          with_label_refs t (filter (fun l => l <> (labelID, artifactID)) (label_refs t)))) ;;
  if n =? 0
  then fail (WithMessage (NotFoundError None) ("reference with label " ++ num labelID ++ " and artifact "
                                                 ++ num artifactID ++ " not found")%string)
  else ret tt.

Definition RemoveAllFrom (artifactID : Z) : M db unit :=
  update (fun t => (tt, with_label_refs t (filter (fun l => l.2 <> artifactID) (label_refs t)))).

(** ** [pkg/repository] and [pkg/project] *)

Definition repo_GetByName (name : string) : M db RepoRecord :=
  l <- select (fun t => List.filter (fun r => rp_Name r =s= name) (rows (repos t))) ;;
  match l with
  | r :: _ => ret r
  | [] => fail (WithMessage (WithCode (New "") NotFoundCode) ("repository " ++ name ++ " not found")%string)
  end.

Definition Touch (id : Z) : M db unit :=
  now <- Now ;;
  n <- update (fun t => match repos t !! id with
         | Some r => (1, with_repos t (<[id := mkRepo (rp_RepositoryID r) (rp_Name r) (rp_ProjectID r) now]> (repos t)))
         | None => (0, t)
         end) ;;
  if n =? 0 then fail (WithMessage (NotFoundError None) ("repository " ++ num id ++ " not found")%string)
  else ret tt.

(** [touchRepo]: the error is logged only. *)
Definition touchRepo (id : Z) : M db unit := try (Touch id) ;;; ret tt.

(** The project with its metadata, a second query the artifact controller
    has no use for. *)
Definition project_GetByName (name : string) : M db Project :=
  if name =s= "" then fail (WithMessage (BadRequestError None) "project name required")
  else if (0 <? Z.of_nat (GoStrings.count " " name))
  then fail (WithMessage (BadRequestError None) ("invalid project name: '" ++ name ++ "'")%string)
  else
    r <- select (fun t => projects t !! name) ;;
    match r with
    | None => fail (WrapNotFoundError ErrNoRows ("project " ++ name ++ " not found")%string)
    | Some p => select (fun _ => tt) ;;; ret p
    end.

(** ** Blobs and the trash *)

(** The blob queries see the artifacts of this database. *)
Definition blob_view (t : tables) (fs : list (option error)) : Blob.store :=
  let b := blobdb t in
  Blob.mkStore (Blob.blobs b) (Blob.next_blob b) (Blob.artifact_blob b) (Blob.project_blob b)
    ((fun a => Blob.mkArtifact (a_ProjectID a) (a_RepositoryName a) (a_Digest a)) <$> rows (arts t))
    (Blob.trash b) (Blob.storage b) (Blob.revisions b) fs.

(** An operation of the blob manager that ends with its first failed
    statement; in an aborted transaction its first statement fails. *)
Definition lift_blob {A} (m : M Blob.store A) : M db A := fun s =>
  if aborted s then
    match m (blob_view (tb s) [Some InFailedTransaction]) with
    | (r, _) => (r, s)
    end
  else
    match m (blob_view (tb s) (c_faults s)) with
    | (Ok a, b) => (Ok a, mkConn (with_blobdb (tb s) b) (ext s) (in_tx s) false (Blob.faults b))
    | (Err e, b) => (Err e, mkConn (with_blobdb (tb s) b) (ext s) (in_tx s) (in_tx s) (Blob.faults b))
    end.

(** [blobMgr.List] by the digest of an artifact. *)
Definition blobs_of (digest : string) : M db (list Blob.Blob) :=
  lift_blob (Blob.ListBlobs (fun st b => bool_decide ((digest, Blob.Digest b) ∈ Blob.artifact_blob st))).

Definition CleanupAssociationsForProject (projectID : Z) (bs : list Blob.Blob) : M db unit :=
  lift_blob (Blob.CleanupAssociationsForProject projectID bs).

Definition in_trash (repository digest : string) (t : tables) : bool :=
  existsb (fun r => (Blob.tr_RepositoryName r =s= repository) && (Blob.tr_Digest r =s= digest))
    (rows (Blob.trash (blobdb t))).

(** UNIQUE (repository_name, digest). *)
Definition trash_Create (repository digest : string) : M db Z :=
  now <- Now ;;
  map_err (fun e => WrapConflictError e ("artifact trash " ++ digest ++ " already exists under the repository "
                                           ++ repository)%string)
    (insert_stmt seq_trash bump_trash (fun t => Blob.trash (blobdb t))
      (fun t => negb (in_trash repository digest t)) (fun _ => true)
      (fun id t => with_blobdb t (Blob.with_trash (blobdb t)
         (<[id := Blob.mkTrash id repository digest now]> (Blob.trash (blobdb t)))))).
