(* ===== verification/Manifest.v ===== *)
(** * Manifests of pushed artifacts

    [src/controller/artifact/abstractor.go] and
    [src/controller/artifact/manifest]: what an artifact takes from its
    manifest when it is created.  A manifest of an index gives the references
    to its children; its in-toto attestations become accessories of the images
    they attest ([attestation.go]). *)

From S2P Require Import Prelude Errors Orm ArtifactDb.
From S2P Require Blob.
Import GoStrings.

(** ** Decoded manifests *)

Record Platform := mkPlatform { OS : string; Architecture : string; Variant : string }.

Record Descriptor := mkDescriptor {
  d_MediaType : string;
  d_Digest : string;
  d_Size : Z;
  d_Annotations : gmap string string;
  d_Platform : option Platform;
}.

(** The parts of [schema1.Manifest], [v1.Manifest] and [v1.Index] that are
    read. *)
Record ManifestV2 := mkManifestV2 {
  m_Config : Descriptor;
  m_Layers : list Descriptor;
  m_ArtifactType : string;
  m_Annotations : gmap string string;
}.

Record Index := mkIndex {
  i_Manifests : list Descriptor;
  i_ArtifactType : string;
  i_Annotations : gmap string string;
}.

(** A subject of an in-toto statement; its digests by algorithm in the order
    in which the loop over the Go map meets them. *)
Record inTotoSubject := mkSubject {
  s_Name : string;
  s_Digest : list (string * string);
}.

(** ** Attestations *)

Definition referenceTypeAnnotation : string := "vnd.docker.reference.type".
Definition referenceDigestAnnotation : string := "vnd.docker.reference.digest".
Definition attestationManifestType : string := "attestation-manifest".
Definition inTotoLayerMediaType : string := "application/vnd.in-toto+json".
Definition maxStatementBytes : Z := 4 * 2 ^ 20.
Definition maxSubjectLookups : nat := 32.

Definition MediaTypeImageManifest : string := "application/vnd.oci.image.manifest.v1+json".
Definition MediaTypeManifest : string := "application/vnd.docker.distribution.manifest.v2+json".

(** A missing key of a Go map reads as the empty string. *)
Definition annotation (m : gmap string string) (k : string) : string := default "" (m !! k).

Definition isAttestationDescriptor (d : Descriptor) : bool :=
  if negb (d_MediaType d =s= MediaTypeImageManifest) && negb (d_MediaType d =s= MediaTypeManifest) then false
  else annotation (d_Annotations d) referenceTypeAnnotation =s= attestationManifestType.

Definition hasAttestation (manifests : list Descriptor) : bool := existsb isAttestationDescriptor manifests.

Definition platformChildren (siblings : list Descriptor) : list Descriptor :=
  List.filter (fun d => negb (isAttestationDescriptor d)) siblings.

Definition digestInIndex (siblings : list Descriptor) (digestRef : string) : bool :=
  if digestRef =s= "" then false else existsb (fun d => d_Digest d =s= digestRef) siblings.

(** The loop of [uniqueDigestInIndex], with the match so far. *)
Fixpoint unique_loop (siblings : list Descriptor) (digestRefs : list string) (match_ : string) : string :=
  match digestRefs with
  | [] => match_
  | r :: rs =>
      if negb (digestInIndex siblings r) then unique_loop siblings rs match_
      else if negb (match_ =s= "") && negb (match_ =s= r) then ""
      else unique_loop siblings rs r
  end.

Definition uniqueDigestInIndex (siblings : list Descriptor) (digestRefs : list string) : string :=
  unique_loop siblings digestRefs "".

Definition platformMatchesName (platform : option Platform) (name : string) : bool :=
  match platform with
  | None => false
  | Some p =>
      let os := negb (OS p =s= "") in
      let arch := negb (Architecture p =s= "") in
      let candidates := [Architecture p]
        ++ (if os && arch then [(OS p ++ "/" ++ Architecture p)%string] else [])
        ++ (if os && arch && negb (Variant p =s= "")
            then [(OS p ++ "/" ++ Architecture p ++ "/" ++ Variant p)%string] else []) in
      existsb (fun c => negb (c =s= "") && EqualFold c name) candidates
  end.

Fixpoint name_loop (siblings : list Descriptor) (name match_ : string) : string :=
  match siblings with
  | [] => match_
  | d :: ds =>
      if negb (platformMatchesName (d_Platform d) name) then name_loop ds name match_
      else if negb (match_ =s= "") then ""
      else name_loop ds name (d_Digest d)
  end.

Definition digestBySubjectName (siblings : list Descriptor) (name : string) : string :=
  let name := ToLower (TrimSpace name) in
  if name =s= "" then "" else name_loop siblings name "".

Section Abstract.
(** [Digest.Validate] of go-digest; the registry's client, which gives the
    media type and the content of a manifest and the statement of a blob with
    its length; and the decoders of encoding/json with the length of a
    content. *)
Context (digest_valid : string -> bool).
Context {Content : Type}.
Context (content_length : Content -> Z).
Context (decode_v1 : Content -> result (list string)).
Context (decode_v2 : Content -> result ManifestV2).
Context (decode_index : Content -> result Index).
Context (decode_statement : Content -> result (list inTotoSubject)).
Context (PullManifest : string -> string -> result (string * Content)).
Context (PullBlob : string -> string -> result Content).
(** [processor.Get] of a type and its [AbstractMetadata]. *)
Context (processor_AbstractMetadata : string -> Artifact -> Content -> M db Artifact).

Definition subjectDigests (s : inTotoSubject) : list string :=
  omap (fun p =>
    let d := (p.1 ++ ":" ++ p.2)%string in
    if p.2 =s= "" then None else if digest_valid d then Some d else None) (s_Digest s).

Definition resolveSubjectFromStatement (children : list Descriptor) (subjects : list inTotoSubject) : string :=
  let byDigest := flat_map subjectDigests subjects in
  let d := uniqueDigestInIndex children byDigest in
  if negb (d =s= "") then d
  else
    let byName := omap (fun s => let r := digestBySubjectName children (s_Name s) in
                                 if negb (r =s= "") then Some r else None) subjects in
    uniqueDigestInIndex children byName.

Definition readSubjects (repository digestRef : string) : result (list inTotoSubject) :=
  match PullBlob repository digestRef with
  | Err e => Err e
  | Ok payload =>
      if maxStatementBytes <? content_length payload
      then Err (Plain ("in-toto payload exceeds " ++ num maxStatementBytes ++ " bytes")%string)
      else decode_statement payload
  end.

Definition loadSubjects (repository digestRef : string) : result (list inTotoSubject) :=
  match PullManifest repository digestRef with
  | Err e => Err e
  | Ok (mediaType, content) =>
      if negb (mediaType =s= MediaTypeImageManifest) && negb (mediaType =s= MediaTypeManifest)
      then Err (Plain ("unexpected attestation media type " ++ mediaType)%string)
      else match decode_v2 content with
      | Err e => Err e
      | Ok m =>
          match List.find (fun l => d_MediaType l =s= inTotoLayerMediaType) (m_Layers m) with
          | Some layer =>
              if maxStatementBytes <? d_Size layer
              then Err (Plain ("in-toto payload too large: " ++ num (d_Size layer))%string)
              else readSubjects repository (d_Digest layer)
          | None => Err (Plain ("no in-toto payload found in " ++ digestRef)%string)
          end
      end
  end.

(** The subjects resolved so far, by digest. *)
Definition candidate (repository : string) (d : Descriptor) (targetDigest : string) (subjects : gmap string Artifact)
    : M db (AccessoryCandidate * gmap string Artifact) :=
  accessoryArt <- art_GetByDigest repository (d_Digest d) ;;
  r <- match subjects !! targetDigest with
       | Some t => ret (t, subjects)
       | None => t <- art_GetByDigest repository targetDigest ;; ret (t, <[targetDigest := t]> subjects)
       end ;;
  ret (mkCandidate (a_ID (row accessoryArt)) (a_ID (row r.1)) repository targetDigest
         (a_Digest (row accessoryArt)) (a_Size (row accessoryArt)) TypeInTotoAttestation, r.2).

(** Which child an attestation descriptor belongs to, and the lookups left. *)
Definition target (repository : string) (children : list Descriptor) (lookups : nat) (d : Descriptor)
    : string * nat :=
  let t := annotation (d_Annotations d) referenceDigestAnnotation in
  if digestInIndex children t then (t, lookups)
  else match lookups with
       | S l => (resolveSubjectFromStatement children
                   (match loadSubjects repository (d_Digest d) with Ok s => s | Err _ => [] end), l)
       | O => ("", O)
       end.

Fixpoint classify_loop (repository : string) (children : list Descriptor) (lookups : nat)
    (subjects : gmap string Artifact) (manifests : list Descriptor)
    : M db (list Descriptor * list AccessoryCandidate) :=
  match manifests with
  | [] => ret ([], [])
  | d :: ds =>
      if negb (isAttestationDescriptor d) then
        r <- classify_loop repository children lookups subjects ds ;; ret (d :: r.1, r.2)
      else
        let '(t, l) := target repository children lookups d in
        if t =s= "" then
          r <- classify_loop repository children l subjects ds ;; ret (d :: r.1, r.2)
        else
          c <- candidate repository d t subjects ;;
          r <- classify_loop repository children l c.2 ds ;; ret (r.1, c.1 :: r.2)
  end.

Definition Classify (repository : string) (manifests : list Descriptor)
    : M db (list Descriptor * list AccessoryCandidate) :=
  if negb (hasAttestation manifests) then ret (manifests, [])
  else match platformChildren manifests with
       | [] => ret (manifests, [])
       | children => classify_loop repository children maxSubjectLookups ∅ manifests
       end.

(** ** The abstractors *)

Definition set_abstract (a : ArtRow) (manifestMediaType mediaType artifactType : string) (size : Z) : ArtRow :=
  mkArtRow (a_ID a) (a_Type a) mediaType manifestMediaType artifactType (a_ProjectID a) (a_RepositoryID a)
    (a_RepositoryName a) (a_Digest a) size (a_Icon a) (a_PushTime a) (a_PullTime a).

Definition MediaTypeSignedManifest : string := "application/vnd.docker.distribution.manifest.v1+prettyjws".

Definition add_sizes (z : Z) (l : list Z) : Z := fold_left (fun acc n => Int64.wrap (acc + n)) l z.

(** The sizes of a v1 manifest's layers are those of the blobs of its digests. *)
Definition Abstract_v1 (art : Artifact) (content : Content) : M db Artifact :=
  digests <- of_result (decode_v1 content) ;;
  bs <- lift_blob (Blob.ListBlobs (fun _ b => existsb (String.eqb (Blob.Digest b)) digests)) ;;
  ret (mkArtifact (set_abstract (row art) MediaTypeSignedManifest MediaTypeSignedManifest
                     (a_ArtifactType (row art)) (add_sizes (content_length content) (Blob.Size <$> bs)))
         (References art) (AccessoryCandidates art)).

Definition wasm_MediaType : string := "application/vnd.wasm.config.v1+json".

Definition is_wasm (annotations : gmap string string) : bool :=
  (annotation annotations "module.wasm.image/variant" =s= "compat")
  || (annotation annotations "run.oci.handler" =s= "wasm").

Definition Abstract_v2 (art : Artifact) (content : Content) : M db Artifact :=
  mf <- of_result (decode_v2 content) ;;
  let config := d_MediaType (m_Config mf) in
  ret (mkArtifact (set_abstract (row art) (a_ManifestMediaType (row art))
                     (if is_wasm (m_Annotations mf) then wasm_MediaType else config)
                     (if negb (m_ArtifactType mf =s= "") then m_ArtifactType mf else config)
                     (add_sizes (Int64.wrap (content_length content + d_Size (m_Config mf)))
                        (d_Size <$> m_Layers mf)))
         (References art) (AccessoryCandidates art)).

(** The children of an index, which must exist, with their sizes. *)
Fixpoint child_refs (repository : string) (l : list Descriptor) : M db (list (Reference * Z)) :=
  match l with
  | [] => ret []
  | d :: ds =>
      ar <- art_GetByDigest repository (d_Digest d) ;;
      rs <- child_refs repository ds ;;
      ret ((mkReference 0 0 (a_ID (row ar)) (d_Digest d), a_Size (row ar)) :: rs)
  end.

Definition Abstract_index (art : Artifact) (content : Content) : M db Artifact :=
  let a := row art in
  index <- of_result (decode_index content) ;;
  r <- Classify (a_RepositoryName a) (i_Manifests index) ;;
  rs <- child_refs (a_RepositoryName a) r.1 ;;
  let size0 := Int64.wrap (a_Size a + content_length content) in
  let size := add_sizes (add_sizes size0 (ac_Size <$> r.2)) rs.*2 in
  let mediaType := annotation (i_Annotations index) "org.opencontainers.artifactType" in
  ret (mkArtifact (set_abstract a (a_ManifestMediaType a)
                     (if negb (mediaType =s= "") then mediaType else a_ManifestMediaType a)
                     (i_ArtifactType index) size)
         (References art ++ rs.*1) (AccessoryCandidates art ++ r.2)).

(** The registered abstractors. *)
Definition manifest_Get (mediaType : string) : result (Artifact -> Content -> M db Artifact) :=
  if existsb (String.eqb mediaType) [""; "application/json"; MediaTypeSignedManifest] then Ok Abstract_v1
  else if existsb (String.eqb mediaType) [MediaTypeImageManifest; MediaTypeManifest] then Ok Abstract_v2
  else if existsb (String.eqb mediaType) [MediaTypeImageIndex; MediaTypeManifestList] then Ok Abstract_index
  else Err (Coded "UNSUPPORTED" ("unsupported manifest media type: " ++ mediaType)%string None).

Definition AbstractMetadata (art : Artifact) : M db Artifact :=
  let a := row art in
  mc <- of_result (PullManifest (a_RepositoryName a) (a_Digest a)) ;;
  let art1 := mkArtifact (set_abstract a mc.1 (a_MediaType a) (a_ArtifactType a) (a_Size a))
                (References art) (AccessoryCandidates art) in
  abs <- of_result (manifest_Get mc.1) ;;
  art2 <- abs art1 mc.2 ;;
  processor_AbstractMetadata (ResolveArtifactType (row art2)) art2 mc.2.
End Abstract.

(** ** Facts *)

Lemma art_dao_GetByDigest_ok repository digest s a s' :
  art_dao_GetByDigest repository digest s = (Ok a, s') ->
  a_RepositoryName a = repository /\ a_Digest a = digest /\ a ∈ rows (arts (tb s)).
Proof.
  intros E. apply bind_inv in E as (l & s1 & E1 & E2).
  apply call_ok in E1 as ([= El _] & _). rewrite <- El in E2.
  destruct (List.filter _ _) as [|b bs] eqn:Ef; [done|]. injection E2 as -> _.
  assert (Hin : In a (a :: bs)) by by left.
  rewrite <- Ef in Hin. apply filter_In in Hin as [Hin Hb].
  apply andb_prop in Hb as [H1 H2]. apply String.eqb_eq in H1, H2.
  split; [done|]. split; [done|]. by apply list_elem_of_In.
Qed.

Lemma art_GetByDigest_ok repository digest s a s' :
  art_GetByDigest repository digest s = (Ok a, s') ->
  a_RepositoryName (row a) = repository /\ a_Digest (row a) = digest.
Proof.
  intros E. apply bind_inv in E as (r & s1 & E1 & E2).
  apply art_dao_GetByDigest_ok in E1 as (H1 & H2 & _).
  unfold assemble in E2. destruct (IsImageIndex r).
  - apply bind_inv in E2 as (l & s2 & _ & [= <- _]). done.
  - injection E2 as <- _. done.
Qed.

(** The digest a list of candidates singles out. *)
Lemma unique_loop_spec siblings l m r :
  r <> "" ->
  unique_loop siblings l m = r <->
    (m = r \/ (m = "" /\ Exists (fun x => digestInIndex siblings x = true) l))
    /\ Forall (fun x => digestInIndex siblings x = true -> x = r) l.
Proof.
  intros Hr. revert m. induction l as [|x l IH]; intros m; simpl.
  - rewrite Exists_nil, Forall_nil. intuition congruence.
  - rewrite Exists_cons, Forall_cons. destruct (digestInIndex siblings x) eqn:Ex; simpl.
    2: { rewrite IH. intuition congruence. }
    assert (Hx : x <> "") by (intros ->; done).
    destruct (String.eqb_spec m "") as [->|Hm]; simpl;
      [|destruct (String.eqb_spec m x) as [->|Hmx]; simpl].
    + rewrite IH. intuition congruence.
    + rewrite IH. intuition congruence.
    + intuition congruence.
Qed.

Lemma unique_spec siblings l r :
  r <> "" ->
  uniqueDigestInIndex siblings l = r <->
    r ∈ l /\ digestInIndex siblings r = true /\ (forall x, x ∈ l -> digestInIndex siblings x = true -> x = r).
Proof.
  intros Hr. unfold uniqueDigestInIndex. rewrite unique_loop_spec, Exists_exists, Forall_forall by done.
  split.
  - intros [[H|(_ & x & Hx & Hi)] Hall]; [done|]. pose proof (Hall x Hx Hi). by subst x.
  - intros (H1 & H2 & H3). split; [|done]. right. eauto.
Qed.

(** The result depends on the set of candidates only. *)
Lemma unique_ext siblings l k :
  (forall x, x ∈ l <-> x ∈ k) -> uniqueDigestInIndex siblings l = uniqueDigestInIndex siblings k.
Proof.
  intros E.
  assert (H : forall l k, (forall x : string, x ∈ l <-> x ∈ k) -> uniqueDigestInIndex siblings l <> "" ->
              uniqueDigestInIndex siblings l = uniqueDigestInIndex siblings k).
  { clear. intros l k E H. symmetry. apply unique_spec; [done|].
    assert (R : uniqueDigestInIndex siblings l = uniqueDigestInIndex siblings l) by done.
    apply unique_spec in R; [|done]. by setoid_rewrite <- E. }
  destruct (String.eqb_spec (uniqueDigestInIndex siblings l) "") as [H1|H1]; [|by apply H].
  destruct (String.eqb_spec (uniqueDigestInIndex siblings k) "") as [H2|H2]; [congruence|].
  symmetry. apply H; [|done]. intros x. by rewrite E.
Qed.

Section Attestations.
Context (digest_valid : string -> bool).

(** The child an in-toto statement is resolved to does not depend on the
    order in which the loops over the Go maps of its subjects' digests run, nor
    on the order of its subjects. *)
Theorem resolve_order_independent children subjects shuffled :
  subjects ≡ₚ shuffled.*1 -> Forall (fun p => s_Name p.1 = s_Name p.2 /\ s_Digest p.1 ≡ₚ s_Digest p.2) shuffled ->
  resolveSubjectFromStatement digest_valid children subjects
  = resolveSubjectFromStatement digest_valid children shuffled.*2.
Proof.
  intros HP HF. unfold resolveSubjectFromStatement.
  assert (E1 : uniqueDigestInIndex children (flat_map (subjectDigests digest_valid) subjects)
               = uniqueDigestInIndex children (flat_map (subjectDigests digest_valid) shuffled.*2)).
  { apply unique_ext. intros x. rewrite HP. clear HP. induction HF as [|[a b] l [_ Hd] _ IH]; simpl; [done|].
    rewrite !elem_of_app, IH. unfold subjectDigests. simpl in Hd. by rewrite Hd. }
  rewrite E1. destruct (negb _); [done|]. apply unique_ext. intros x. rewrite HP.
  clear HP E1. induction HF as [|[a b] l [Hn _] _ IH]; simpl; [done|]. simpl in Hn. rewrite Hn.
  destruct (negb (digestBySubjectName children (s_Name b) =s= "")); [|done].
  by rewrite !elem_of_cons, IH.
Qed.

Context {Content : Type}.
Context (content_length : Content -> Z).
Context (decode_v2 : Content -> result ManifestV2).
Context (decode_statement : Content -> result (list inTotoSubject)).
Context (PullManifest : string -> string -> result (string * Content)).
Context (PullBlob : string -> string -> result Content).

Abbreviation target := (target digest_valid content_length decode_v2 decode_statement PullManifest PullBlob).
Abbreviation classify_loop :=
  (classify_loop digest_valid content_length decode_v2 decode_statement PullManifest PullBlob).
Abbreviation Classify := (Classify digest_valid content_length decode_v2 decode_statement PullManifest PullBlob).

Lemma resolve_in_index children subjects :
  resolveSubjectFromStatement digest_valid children subjects <> "" ->
  digestInIndex children (resolveSubjectFromStatement digest_valid children subjects) = true.
Proof.
  unfold resolveSubjectFromStatement.
  set (l := flat_map _ _). set (k := omap _ _). clearbody l k.
  destruct (String.eqb_spec (uniqueDigestInIndex children l) "") as [_|H]; simpl; intros Hr;
    by eapply unique_spec; [exact Hr|].
Qed.

Lemma target_in_index repository children lookups d t l :
  target repository children lookups d = (t, l) -> t <> "" -> digestInIndex children t = true.
Proof.
  unfold Manifest.target. destruct (digestInIndex children _) eqn:E; [by intros [= <- <-]|].
  destruct lookups as [|n]; [by intros [= <- <-]|]. intros [= <- <-]. apply resolve_in_index.
Qed.

(** What an attached descriptor becomes. *)
Definition attaches (children : list Descriptor) (d : Descriptor) (c : AccessoryCandidate) : Prop :=
  isAttestationDescriptor d = true /\ ac_Digest c = d_Digest d
  /\ digestInIndex children (ac_SubArtifactDigest c) = true /\ ac_Type c = TypeInTotoAttestation.

Lemma candidate_ok repository d t subjects s c s' :
  candidate repository d t subjects s = (Ok c, s') ->
  ac_Digest c.1 = d_Digest d /\ ac_SubArtifactDigest c.1 = t /\ ac_Type c.1 = TypeInTotoAttestation.
Proof.
  intros E. apply bind_inv in E as (a & s1 & E1 & E2). apply art_GetByDigest_ok in E1 as [_ H1].
  apply bind_inv in E2 as (r & s2 & _ & [= <- _]). done.
Qed.

Lemma classify_loop_ok repository children lookups subjects manifests s r s' :
  classify_loop repository children lookups subjects manifests s = (Ok r, s') ->
  exists attached, manifests ≡ₚ r.1 ++ attached /\ r.1 `sublist_of` manifests
    /\ Forall2 (attaches children) attached r.2.
Proof.
  revert lookups subjects s r s'.
  induction manifests as [|d ds IH]; intros lookups subjects s r s'; cbn [Manifest.classify_loop].
  { intros [= <- _]. by exists []. }
  assert (Hkeep : forall l sub, bind (classify_loop repository children l sub ds) (fun r => ret (d :: r.1, r.2)) s
            = (Ok r, s') -> exists attached, d :: ds ≡ₚ r.1 ++ attached /\ r.1 `sublist_of` d :: ds
              /\ Forall2 (attaches children) attached r.2).
  { intros l sub E. apply bind_inv in E as (q & s1 & E1 & [= <- _]).
    apply IH in E1 as (att & H1 & H2 & H3). exists att. cbn. split; [by rewrite H1|]. by split; [constructor|]. }
  destruct (isAttestationDescriptor d) eqn:Ed; simpl; [|apply Hkeep].
  destruct (target repository children lookups d) as [t l] eqn:Et.
  destruct (String.eqb_spec t "") as [_|Hne]; [apply Hkeep|].
  intros E. apply bind_inv in E as (c & s1 & E1 & E2). apply bind_inv in E2 as (q & s2 & E2 & [= <- _]).
  apply candidate_ok in E1 as (C1 & C2 & C3). apply IH in E2 as (att & H1 & H2 & H3).
  exists (d :: att). cbn. split; [by rewrite H1, Permutation_middle|]. split; [by constructor|].
  constructor; [|done]. split; [done|]. split; [done|]. split; [|done].
  rewrite C2. by eapply target_in_index.
Qed.

Lemma in_index_elem siblings x : digestInIndex siblings x = true -> x ∈ d_Digest <$> siblings.
Proof.
  unfold digestInIndex. destruct (x =s= ""); [done|]. intros H.
  apply existsb_exists in H as (d & Hd & E). apply String.eqb_eq in E as <-.
  apply list_elem_of_fmap. exists d. by rewrite list_elem_of_In.
Qed.

(** No child of an index is lost when it is pushed: its descriptors are
    the references it keeps, in their order, and the attestations that become
    accessories, each of a descriptor that is kept as a reference. *)
Theorem classify_partition repository manifests s references candidates s' :
  Classify repository manifests s = (Ok (references, candidates), s') ->
  references `sublist_of` manifests
  /\ exists attached, manifests ≡ₚ references ++ attached
     /\ Forall2 (fun d c => isAttestationDescriptor d = true /\ ac_Digest c = d_Digest d
                            /\ ac_SubArtifactDigest c ∈ d_Digest <$> references) attached candidates.
Proof.
  assert (Hnone : (Ok (manifests, []), s) = (Ok (references, candidates), s') ->
    references `sublist_of` manifests /\ exists attached, manifests ≡ₚ references ++ attached
     /\ Forall2 (fun d c => isAttestationDescriptor d = true /\ ac_Digest c = d_Digest d
                            /\ ac_SubArtifactDigest c ∈ d_Digest <$> references) attached candidates).
  { intros [= <- <- _]. split; [done|]. exists []. by rewrite app_nil_r. }
  unfold Manifest.Classify. destruct (negb (hasAttestation manifests)); [exact Hnone|].
  destruct (platformChildren manifests) as [|c cs] eqn:Ec; [exact Hnone|]. rewrite <- Ec. clear Hnone.
  intros E. apply classify_loop_ok in E as (att & HP & HS & HF). split; [done|]. exists att.
  split; [done|]. eapply Forall2_impl; [exact HF|]. intros d x (H1 & H2 & H3 & _).
  split; [done|]. split; [done|]. apply in_index_elem, list_elem_of_fmap in H3 as (y & -> & Hy).
  apply list_elem_of_fmap. exists y. split; [done|].
  apply list_elem_of_In, filter_In in Hy as [Hy Hn]. apply list_elem_of_In in Hy.
  rewrite HP in Hy. apply elem_of_app in Hy as [Hy|Hy]; [done|]. exfalso.
  apply list_elem_of_lookup in Hy as [i Hi]. destruct (Forall2_lookup_l _ _ _ _ _ HF Hi) as (z & _ & Hz & _).
  by rewrite Hz in Hn.
Qed.
End Attestations.

(** ** Witnesses *)

Definition w_blobs : Blob.store := Blob.mkStore ∅ 1 ∅ ∅ [] ∅ ∅ ∅ [].
Definition w_row (id : Z) (digest : string) : ArtRow :=
  mkArtRow id "IMAGE" "" MediaTypeImageManifest "" 1 1 "library/app" digest 10 "" 0 0.
Definition w_tables : tables :=
  mkTables {[1 := w_row 1 "sha256:aa"; 2 := w_row 2 "sha256:bb"]} ∅ ∅ ∅ ∅ ∅ ∅ ∅ ∅ w_blobs.
Definition w_db : db := mkConn w_tables (mkRequest 3 1 1 1 1 0 [] None) false false [].

Definition w_image : Descriptor :=
  mkDescriptor MediaTypeImageManifest "sha256:aa" 10 ∅ (Some (mkPlatform "linux" "amd64" "")).
Definition w_attestation : Descriptor :=
  mkDescriptor MediaTypeImageManifest "sha256:bb" 10
    {[referenceTypeAnnotation := attestationManifestType; referenceDigestAnnotation := "sha256:aa"]} None.

Lemma classify_partition_witness :
  exists candidates s',
    Classify (fun _ => true) (fun _ : unit => 0) (fun _ => Err ErrNoRows) (fun _ => Err ErrNoRows)
      (fun _ _ => Err ErrNoRows) (fun _ _ => Err ErrNoRows) "library/app" [w_image; w_attestation] w_db
    = (Ok ([w_image], candidates), s')
    /\ [w_image] `sublist_of` [w_image; w_attestation]
    /\ exists attached, [w_image; w_attestation] ≡ₚ [w_image] ++ attached
       /\ Forall2 (fun d c => isAttestationDescriptor d = true /\ ac_Digest c = d_Digest d
                              /\ ac_SubArtifactDigest c ∈ d_Digest <$> [w_image]) attached candidates.
Proof.
  eexists _, _. split; [vm_compute; reflexivity|].
  eapply (classify_partition (fun _ => true) (fun _ : unit => 0) (fun _ => Err ErrNoRows) (fun _ => Err ErrNoRows)
      (fun _ _ => Err ErrNoRows) (fun _ _ => Err ErrNoRows) "library/app" [w_image; w_attestation] w_db).
  vm_compute. reflexivity.
Defined.

Lemma resolve_order_independent_witness :
  let a := mkSubject "amd64" [("sha256", "aa"); ("sha512", "cc")] in
  let b := mkSubject "amd64" [("sha512", "cc"); ("sha256", "aa")] in
  resolveSubjectFromStatement (fun _ => true) [w_image] [a]
  = resolveSubjectFromStatement (fun _ => true) [w_image] [b]
  /\ resolveSubjectFromStatement (fun _ => true) [w_image] [a] = "sha256:aa".
Proof.
  intros a b. split; [|reflexivity].
  apply (resolve_order_independent (fun _ => true) [w_image] [a] [(a, b)]); [reflexivity|].
  constructor; [|constructor]. split; [reflexivity|]. apply perm_swap.
Defined.
