(* ===== verification/Artifact.v ===== *)
(** * Tag and artifact controllers

    [src/controller/tag/controller.go] and
    [src/controller/artifact/controller.go] over the tables of ArtifactDb:
    ensuring that an artifact, its tags and accessories exist, reading an
    artifact with what hangs on it, deleting it with its children and
    accessories, copying it to another repository and walking its tree. *)

From S2P Require Import Prelude Errors Orm ArtifactDb.
From S2P Require Blob.
From S2P Require Retention.
Import GoStrings.

(** ** Strings *)

Definition slash : ascii := "/".

Fixpoint TrimLeft_slash (s : string) : string :=
  match s with
  | String c s' => if Ascii.eqb c slash then TrimLeft_slash s' else s
  | EmptyString => EmptyString
  end.

Fixpoint TrimRight_slash (s : string) : string :=
  match s with
  | String c s' =>
      match TrimRight_slash s' with
      | EmptyString => if Ascii.eqb c slash then EmptyString else String c EmptyString
      | t => String c t
      end
  | EmptyString => EmptyString
  end.

(** [utils.ParseRepository]: the project and the rest. *)
Definition ParseRepository (repository : string) : string * string :=
  match SplitN2 (TrimRight_slash (TrimLeft_slash repository)) slash with
  | [project; rest] => (project, rest)
  | [rest] => ("", rest)
  | _ => ("", "")
  end.

Definition is_word (c : ascii) : bool :=
  let n := Ascii.nat_of_ascii c in
  (((65 <=? n) && (n <=? 90)) || ((97 <=? n) && (n <=? 122)) || ((48 <=? n) && (n <=? 57)) || (n =? 95))%nat.

Definition is_tag_char (c : ascii) : bool :=
  is_word c || Ascii.eqb c "." || Ascii.eqb c "-".

Fixpoint string_forall (p : ascii -> bool) (s : string) : bool :=
  match s with
  | EmptyString => true
  | String c s' => p c && string_forall p s'
  end.

(** The pattern of tag names: a word character and at most 127 more. *)
Definition isValidTag (name : string) : bool :=
  match name with
  | EmptyString => false
  | String c s => is_word c && string_forall is_tag_char s && (String.length s <=? 127)%nat
  end.

Definition IsConflictErr (e : error) : bool := IsErr e ConflictCode.

(** ** The tag controller *)

Record Tag := mkTag { tag : TagRow; Immutable : bool }.

Section Controllers.
(** The parts of the immutable tag matcher that are not its own, as in
    Retention: doublestar, the decoder of a selector's extras, the sort of the
    rule evaluators, which read the clock. *)
Context (doublestar_Match : string -> string -> result bool).
Context (parse_untagged : string -> option bool).
Context (sort_by : (Retention.Candidate -> Z) -> list Retention.Candidate -> list Retention.Candidate).

(** The matcher reads the rules of the project and applies them. *)
Definition Match (projectID : Z) (c : Retention.Candidate) : M db bool :=
  rules <- select (fun t => default [] (immutable_rules t !! projectID)) ;;
  now <- Now ;;
  of_result (Retention.Match sort_by now doublestar_Match parse_untagged rules c).

Definition candidate_of (repoName tagName : string) (projectID : Z) : Retention.Candidate :=
  Retention.mkCandidate projectID "" repoName "" [tagName] "" 0 0 0 [].

(** [populateImmutableStatus]: an error leaves the tag mutable. *)
Definition populateImmutableStatus (g : TagRow) : M db Tag :=
  ra <- try (art_Get (t_ArtifactID g)) ;;
  match ra with
  | Err _ => ret (mkTag g false)
  | Ok a =>
      let repoName := (ParseRepository (a_RepositoryName (row a))).2 in
      rm <- try (Match (a_ProjectID (row a)) (candidate_of repoName (t_Name g) (a_ProjectID (row a)))) ;;
      match rm with
      | Err _ => ret (mkTag g false)
      | Ok matched => ret (mkTag g matched)
      end
  end.

(** An option is whether the immutable status is wanted. *)
Definition assembleTag (withImmutableStatus : bool) (g : TagRow) : M db Tag :=
  if withImmutableStatus then populateImmutableStatus g else ret (mkTag g false).

Definition tag_List (p : TagRow -> bool) (withImmutableStatus : bool) : M db (list Tag) :=
  l <- tag_dao_List p ;; mapM (assembleTag withImmutableStatus) l.

Definition tag_Get (id : Z) (withImmutableStatus : bool) : M db Tag :=
  g <- tag_dao_Get id ;; assembleTag withImmutableStatus g.

Definition tag_Create (g : TagRow) : M db Z :=
  if negb (isValidTag (t_Name g))
  then fail (BadRequestError (Some (New ("invalid tag name: " ++ t_Name g)%string)))
  else
    id <- tag_dao_Create g ;;
    touchRepo (t_RepositoryID g) ;;;
    ret id.

Definition tag_Delete (id : Z) : M db unit :=
  g <- tag_Get id true ;;
  if Immutable g
  then fail (WithMessage (WithCode (New "") PreconditionCode)
         ("the tag " ++ t_Name (tag g) ++ " configured as immutable, cannot be deleted")%string)
  else
    tag_dao_Delete id ;;;
    touchRepo (t_RepositoryID (tag g)).

Definition DeleteTags (ids : list Z) : M db unit := iterM tag_Delete ids.

Definition ensureExistingTag (repositoryID artifactID : Z) (g : Tag) : M db Z :=
  if t_ArtifactID (tag g) =? artifactID then ret (t_ID (tag g))
  else if Immutable g
  then fail (WithMessage (WithCode (New "") PreconditionCode)
         ("the tag " ++ t_Name (tag g) ++ " configured as immutable, cannot be updated")%string)
  else
    now <- Now ;;
    tag_dao_Update (mkTagRow (t_ID (tag g)) (t_RepositoryID (tag g)) artifactID (t_Name (tag g)) now
                      (t_PullTime (tag g))) ["ArtifactID"; "PushTime"]%string ;;;
    touchRepo repositoryID ;;;
    ret (t_ID (tag g)).

Definition tag_Ensure (repositoryID artifactID : Z) (name : string) : M db Z :=
  let query g := (t_RepositoryID g =? repositoryID) && (t_Name g =s= name) in
  l <- tag_List query true ;;
  match l with
  | g :: _ => ensureExistingTag repositoryID artifactID g
  | [] =>
      now <- Now ;;
      r <- try (WithTransaction (tag_Create (mkTagRow 0 repositoryID artifactID name now 0))) ;;
      match r with
      | Ok id => ret id
      | Err e =>
          if IsConflictErr e then
            l2 <- tag_List query true ;;
            match l2 with
            | [] => fail e
            | g :: _ => ensureExistingTag repositoryID artifactID g
            end
          else fail e
      end
  end.

(** ** Reading artifacts *)

(** The artifact of the controller; the addition links are for display. *)
Record ArtifactC := mkArtifactC {
  art : Artifact;
  Icon : string;
  Tags : list Tag;
  Labels : list string;
  Accessories : list Accessory;
  InheritedAccessories : list Accessory;
}.

Record Option_ := mkOption {
  WithTag : bool;
  TagOption : bool;
  WithLabel : bool;
  WithAccessory : bool;
}.

Definition DigestOfIconDefault : string :=
  "sha256:da834479c923584f4cbcdecc0dac61f32bef1d51e8aae598cf16bd154efab49f".

Definition defaultIcons (type : string) : option string :=
  if type =s= "IMAGE" then Some "sha256:0048162a053eef4d4ce3fe7518615bef084403614f8bca43b40ae2e762e11e06"
  else if type =s= "CHART" then Some "sha256:61cf3a178ff0f75bf08a25d96b75cf7355dc197749a9f128ed3ef34b0df05518"
  else if type =s= "CNAB" then Some "sha256:089bdda265c14d8686111402c8ad629e8177a1ceb7dcd0f7f39b6480f623b3bd"
  else if type =s= "WASM" then Some "sha256:badd7693bcaf115be202748241dd0ea6ee3b0524bfab9ac22d1e1c43721afec6"
  else if type =s= "SBOM" then Some "sha256:c19f80c357cd7e90d2a01b9ae3e2eb62ce447a2662bb590a19177d72d550bdae"
  else if type =s= "CNAI" then Some "sha256:1e1e5c5fdaf0931ec8655e835d1182f723a0c322a6760211622e1270f0193717"
  else None.

Definition populateIcon (a : ArtRow) : string :=
  if a_Icon a =s= "" then default DigestOfIconDefault (defaultIcons (a_Type a)) else a_Icon a.

Definition populateTags (id : Z) (option_ : bool) : M db (list Tag) :=
  r <- try (tag_List (fun g => t_ArtifactID g =? id) option_) ;;
  match r with Ok l => ret l | Err _ => ret [] end.

Definition populateLabels (id : Z) : M db (list string) :=
  r <- try (ListByArtifact id) ;;
  match r with Ok l => ret l | Err _ => ret [] end.

(** The first cosign signature of a parent that has one. *)
Fixpoint inherited (parents : list Reference) : M db (list Accessory) :=
  match parents with
  | [] => ret []
  | p :: ps =>
      r <- try (acc_List (fun c => c_SubArtifactID c =? r_ParentID p)) ;;
      match r with
      | Err _ => inherited ps
      | Ok l =>
          match List.find (fun c => c_Type c =s= TypeCosignSignature) l with
          | Some c => ret [c]
          | None => inherited ps
          end
      end
  end.

(** The accessories and the inherited ones. *)
Definition populateAccessories (id : Z) : M db (list Accessory * list Accessory) :=
  r <- try (acc_List (fun c => c_SubArtifactID c =? id)) ;;
  match r with
  | Err _ => ret ([], [])
  | Ok l =>
      if existsb (fun c => c_Type c =s= TypeCosignSignature) l then ret (l, [])
      else
        rp <- try (ListReferences (fun q => r_ChildID q =? id)) ;;
        match rp with
        | Err _ => ret (l, [])
        | Ok parents => i <- inherited parents ;; ret (l, i)
        end
  end.

Definition assembleArtifact (o : option Option_) (a : Artifact) : M db ArtifactC :=
  let id := a_ID (row a) in
  let icon := populateIcon (row a) in
  match o with
  | None => ret (mkArtifactC a icon [] [] [] [])
  | Some o =>
      tags <- (if WithTag o then populateTags id (TagOption o) else ret []) ;;
      labels <- (if WithLabel o then populateLabels id else ret []) ;;
      accs <- (if WithAccessory o then populateAccessories id else ret ([], [])) ;;
      ret (mkArtifactC a icon tags labels accs.1 accs.2)
  end.

Definition Get (id : Z) (o : option Option_) : M db ArtifactC := a <- art_Get id ;; assembleArtifact o a.

Definition List_ (p : ArtRow -> bool) (o : option Option_) : M db (list ArtifactC) :=
  l <- art_List p ;; mapM (assembleArtifact o) l.

Definition getByDigest (repository digest : string) (o : option Option_) : M db ArtifactC :=
  a <- art_GetByDigest repository digest ;; assembleArtifact o a.

Definition getByTag (repository tag_ : string) (o : option Option_) : M db ArtifactC :=
  repo <- repo_GetByName repository ;;
  l <- tag_List (fun g => (t_RepositoryID g =? rp_RepositoryID repo) && (t_Name g =s= tag_)) false ;;
  match l with
  | [] => fail (WithMessage (WithCode (New "") NotFoundCode)
                  ("artifact " ++ repository ++ ":" ++ tag_ ++ " not found")%string)
  | g :: _ => Get (t_ArtifactID (tag g)) o
  end.

(** Whether [digest.Parse] accepts a reference. *)
Context (is_digest : string -> bool).

Definition GetByReference (repository reference : string) (o : option Option_) : M db ArtifactC :=
  if is_digest reference then getByDigest repository reference o else getByTag repository reference o.

(** ** Deletion *)

(** The recursion runs out of its fuel: more than the stack of the code. *)
Definition OutOfFuel : error := Panic "stack overflow".

Definition ignoreNotFound (m : M db unit) : M db unit :=
  r <- try m ;;
  match r with
  | Ok _ => ret tt
  | Err e => if IsErr e NotFoundCode then ret tt else fail e
  end.

Definition has_child (id : Z) (r : Reference) : bool := r_ChildID r =? id.

(** The steps of [deleteDeeply] after the row of the artifact is gone. *)
Definition bury (a : ArtifactC) (isRoot : bool) : M db unit :=
  let d := row (art a) in
  (if isRoot then touchRepo (a_RepositoryID d) else ret tt) ;;;
  bs <- blobs_of (a_Digest d) ;;
  CleanupAssociationsForProject (a_ProjectID d) bs ;;;
  rt <- try (WithTransaction (trash_Create (a_RepositoryName d) (a_Digest d))) ;;
  match rt with
  | Err e => if negb (IsErr e ConflictCode) then fail e else ret tt
  | Ok _ => ret tt
  end ;;;
  if isRoot
  then AddEvent (DeleteArtifact (art a) ((fun g => t_Name (tag g)) <$> Tags a) (Labels a))
  else ret tt.

(** The steps of [deleteDeeply] after its recursive calls. *)
Definition delete_artifact (a : ArtifactC) (isRoot : bool) : M db unit :=
  let id := a_ID (row (art a)) in
  (if isRoot then DeleteTags ((fun g => t_ID (tag g)) <$> Tags a) else ret tt) ;;;
  RemoveAllFrom id ;;;
  r <- try (art_Delete id) ;;
  match r with
  | Err e => if negb isRoot && IsErr e NotFoundCode then ret tt else fail e
  | Ok _ => bury a isRoot
  end.

Definition delete_option : option Option_ := Some (mkOption true false true true).

Fixpoint deleteDeeply (fuel : nat) (id : Z) (isRoot isAccessory : bool) : M db unit :=
  match fuel with
  | O => fail OutOfFuel
  | S fuel =>
      ra <- try (Get id delete_option) ;;
      match ra with
      | Err e => if negb isRoot && IsErr e NotFoundCode then ret tt else fail e
      | Ok a =>
          if negb isRoot && negb (bool_decide (Tags a = [])) then ret tt
          else
            parents <- ListReferences (has_child id) ;;
            match parents with
            | _ :: _ =>
                if isRoot
                then fail (WithMessage (WithCode (New "") ViolateForeignKeyConstraintCode)
                             "the deleting artifact is referenced by others")
                else ret tt
            | [] =>
                let d := row (art a) in
                (if isAccessory
                 then ignoreNotFound (DeleteAccessories
                        (fun c => (c_ArtifactID c =? a_ID d) && (c_Digest c =s= a_Digest d)))
                 else ret tt) ;;;
                iterM (fun acc =>
                  if IsHard acc then
                    ps <- ListReferences (has_child (c_ArtifactID acc)) ;;
                    deleteDeeply fuel (c_ArtifactID acc) (bool_decide (ps = [])) true
                  else ret tt) (Accessories a) ;;;
                iterM (fun r =>
                  ignoreNotFound (DeleteReference (r_ID r)) ;;;
                  l <- acc_List (fun c => c_ArtifactID c =? r_ChildID r) ;;
                  deleteDeeply fuel (r_ChildID r) false (negb (bool_decide (l = [])))) (References (art a)) ;;;
                delete_artifact a isRoot
            end
      end
  end.

(** The guard of [Delete] against an attestation of a present subject. *)
Fixpoint attestation_guard (l : list Accessory) : M db unit :=
  match l with
  | [] => ret tt
  | c :: cs =>
      if negb (c_Type c =s= TypeInTotoAttestation) then attestation_guard cs
      else
        r <- try (art_Get (c_SubArtifactID c)) ;;
        match r with
        | Err e => if IsErr e NotFoundCode then attestation_guard cs else fail e
        | Ok _ => fail (WithMessage (WithCode (New "") ViolateForeignKeyConstraintCode)
            "the artifact is an in-toto attestation referenced by an OCI index, delete its subject image or the index instead")
        end
  end.

Definition Delete (fuel : nat) (id : Z) : M db unit :=
  l <- acc_List (fun c => c_ArtifactID c =? id) ;;
  attestation_guard l ;;;
  WithTransaction (deleteDeeply fuel id true (negb (bool_decide (l = [])))).

(** ** Creation *)

(** What the artifact's manifest and its processor give, as in Manifest. *)
Context (AbstractMetadata : Artifact -> M db Artifact).
Context (GetArtifactType : string -> Artifact -> string).

Definition set_type (type : string) (a : Artifact) : Artifact :=
  let d := row a in
  mkArtifact (mkArtRow (a_ID d) type (a_MediaType d) (a_ManifestMediaType d) (a_ArtifactType d) (a_ProjectID d)
                (a_RepositoryID d) (a_RepositoryName d) (a_Digest d) (a_Size d) (a_Icon d) (a_PushTime d)
                (a_PullTime d)) (References a) (AccessoryCandidates a).

Definition link_candidate (c : AccessoryCandidate) : M db unit :=
  r <- try (acc_Ensure (ac_SubArtifactDigest c) (ac_SubArtifactRepo c) (ac_SubArtifactID c) (ac_ArtifactID c)
              (ac_Size c) (ac_Digest c) (ac_Type c)) ;;
  match r with
  | Ok _ => ret tt
  | Err e => set_accessoryErr (Some e) ;;; fail e
  end.

Definition ensureArtifact (repository digest : string) : M db (bool * Artifact) :=
  r <- try (art_GetByDigest repository digest) ;;
  match r with
  | Ok a => ret (false, a)
  | Err e =>
      if negb (IsErr e NotFoundCode) then fail e
      else
        repo <- repo_GetByName repository ;;
        now <- Now ;;
        a <- AbstractMetadata (mkArtifact (mkArtRow 0 "" "" "" "" (rp_ProjectID repo) (rp_RepositoryID repo)
               repository digest 0 "" now 0) [] []) ;;
        let a := set_type (GetArtifactType (ResolveArtifactType (row a)) a) a in
        set_accessoryErr None ;;;
        rt <- try (WithTransaction (
                id <- art_Create a ;;
                iterM link_candidate (AccessoryCandidates a) ;;;
                ret id)) ;;
        match rt with
        | Ok id =>
            touchRepo (rp_RepositoryID repo) ;;;
            ret (true, mkArtifact (set_a_ID id (row a)) (References a) (AccessoryCandidates a))
        | Err e =>
            accErr <- get_accessoryErr ;;
            match accErr with
            | Some ae => fail ae
            | None =>
                if negb (IsConflictErr e) then fail e
                else a' <- art_GetByDigest repository digest ;; ret (false, a')
            end
        end
  end.

(** The accessory data of a copy, whose artifact identifier is set later. *)
Record AccessoryData := mkAccData {
  ad_ArtifactID : Z;
  ad_Digest : string;
  ad_Type : string;
  ad_Size : Z;
}.

Record ArtOption := mkArtOption { o_Tags : list string; o_Accs : list AccessoryData }.

Definition Ensure (repository digest : string) (option_ : option ArtOption) : M db (bool * Z) :=
  ca <- ensureArtifact repository digest ;;
  let '(created, a) := ca in
  let d := row a in
  match option_ with
  | None => ret tt
  | Some o =>
      iterM (fun name => tag_Ensure (a_RepositoryID d) (a_ID d) name ;;; ret tt) (o_Tags o) ;;;
      iterM (fun acc => acc_Ensure (a_Digest d) (a_RepositoryName d) (a_ID d) (ad_ArtifactID acc) (ad_Size acc)
                          (ad_Digest acc) (ad_Type acc)) (o_Accs o)
  end ;;;
  p <- project_GetByName (ParseRepository repository).1 ;;
  if IsProxy p && negb created then ret (created, a_ID d)
  else
    let name := match option_ with Some o => default "" (head (o_Tags o)) | None => "" end in
    AddEvent (PushArtifact a name) ;;;
    ret (created, a_ID d).

(** ** Copying *)

(** The registry's copy of a manifest with its blobs. *)
Context (regCli_Copy : string -> string -> string -> M db unit).

Definition set_ArtifactID (id : Z) (d : AccessoryData) : AccessoryData :=
  mkAccData id (ad_Digest d) (ad_Type d) (ad_Size d).

(** The list behind the pointer [dstAccs] is passed through; an element is
    completed in place.  The loops of [copyDeeply] take its recursive call:
    of a reference, whether it is the root and whether it is an accessory. *)
Definition copy_call : Type := string -> bool -> bool -> list AccessoryData -> M db (Z * list AccessoryData).

Fixpoint copy_children (copy : copy_call) (rs : list Reference) (dstAccs : list AccessoryData)
    : M db (list AccessoryData) :=
  match rs with
  | [] => ret dstAccs
  | r :: rs =>
      c <- copy (r_ChildDigest r) false false dstAccs ;;
      copy_children copy rs c.2
  end.

Fixpoint copy_accessories (copy : copy_call) (srcRepo : string) (l : list Accessory) (dstAccs : list AccessoryData)
    : M db (list AccessoryData) :=
  match l with
  | [] => ret dstAccs
  | acc :: l =>
      accs <- acc_List (fun c => (c_SubArtifactRepo c =s= srcRepo) && (c_SubArtifactDigest c =s= c_Digest acc)) ;;
      (if bool_decide (accs = []) then ret tt else copy (c_Digest acc) true false [] ;;; ret tt) ;;;
      let n := length dstAccs in
      c <- copy (c_Digest acc) false true
             (dstAccs ++ [mkAccData 0 (c_Digest acc) (c_Type acc) (c_Size acc)]) ;;
      copy_accessories copy srcRepo l (alter (set_ArtifactID c.1) n c.2)
  end.

(** The label [ensureArt]: the tags are those of the source at any depth. *)
Definition ensureArt (dstRepo : string) (srcArt : ArtifactC) (isAcc : bool) (dstAccs : list AccessoryData)
    : M db (Z * list AccessoryData) :=
  e <- Ensure dstRepo (a_Digest (row (art srcArt))) (Some (mkArtOption ((fun g => t_Name (tag g)) <$> Tags srcArt)
         (if isAcc then [] else dstAccs))) ;;
  ret (e.2, dstAccs).

Fixpoint copyDeeply (fuel : nat) (srcRepo dstRepo reference : string) (isRoot isAcc : bool)
    (dstAccs : list AccessoryData) : M db (Z * list AccessoryData) :=
  match fuel with
  | O => fail OutOfFuel
  | S fuel =>
      let o := Some (mkOption true false false (negb isAcc)) in
      srcArt <- GetByReference srcRepo reference o ;;
      let digest := a_Digest (row (art srcArt)) in
      rd <- try (GetByReference dstRepo digest o) ;;
      match rd with
      | Ok dstArt =>
          if negb isRoot then ret (a_ID (row (art dstArt)), dstAccs)
          else ensureArt dstRepo srcArt isAcc dstAccs
      | Err e =>
          if negb (IsErr e NotFoundCode) then fail e
          else
            dstAccs <- copy_children (copyDeeply fuel srcRepo dstRepo) (References (art srcArt)) dstAccs ;;
            dstAccs <- copy_accessories (copyDeeply fuel srcRepo dstRepo) srcRepo (Accessories srcArt) dstAccs ;;
            regCli_Copy srcRepo digest dstRepo ;;;
            ensureArt dstRepo srcArt isAcc dstAccs
      end
  end.

Definition Copy (fuel : nat) (srcRepo reference dstRepo : string) : M db Z :=
  r <- copyDeeply fuel srcRepo dstRepo reference true false [] ;; ret r.1.

(** ** Pull times and labels *)

Definition UpdatePullTime (artifactID tagID time : Z) : M db unit :=
  art_UpdatePullTime artifactID time ;;;
  if negb (tagID =? 0) then
    tg <- tag_Get tagID false ;;
    if negb (t_ArtifactID (tag tg) =? artifactID)
    then fail (Plain ("tag " ++ num tagID ++ " isn't attached to artifact " ++ num artifactID)%string)
    else tag_dao_Update (mkTagRow (t_ID (tag tg)) 0 0 "" 0 time) ["PullTime"]%string
  else ret tt.

Definition AddLabel (artifactID labelID : Z) : M db unit :=
  AddTo labelID artifactID ;;;
  AddEvent (LabelArtifact artifactID labelID).

Definition RemoveLabel (artifactID labelID : Z) : M db unit := RemoveFrom labelID artifactID.

(** ** Walking *)

Definition ErrBreak : string := "break".
Definition ErrSkip : string := "skip".

(** [err == ErrBreak]: the error itself. *)
Definition is_sentinel (e : error) (name : string) : bool :=
  match e with Sentinel n => n =s= name | _ => false end.

Definition digest_of (a : ArtifactC) : string := a_Digest (row (art a)).

(** The function that is called for each artifact is a closure: it gives its
    error, if any, and the values of the variables it has assigned. *)
Section Walk.
Context {X : Type} (walkFn : ArtifactC -> X -> M db (X * option error)).
Context (o : option Option_).

Definition enqueue (walked : gset string) (queue : list ArtifactC) (a : ArtifactC) : list ArtifactC :=
  if bool_decide (digest_of a ∈ walked) then queue else queue ++ [a].

Fixpoint enqueue_accessories (walked : gset string) (l : list Accessory) (queue : list ArtifactC)
    : M db (list ArtifactC) :=
  match l with
  | [] => ret queue
  | acc :: l =>
      a <- Get (c_ArtifactID acc) o ;;
      enqueue_accessories walked l (enqueue walked queue a)
  end.

Fixpoint enqueue_children (walked : gset string) (l : list ArtifactC) (queue : list ArtifactC)
    : M db (list ArtifactC) :=
  match l with
  | [] => ret queue
  | child :: l =>
      q <- enqueue_accessories walked (Accessories child) (enqueue walked queue child) ;;
      enqueue_children walked l q
  end.

Fixpoint walk_loop (fuel : nat) (walked : gset string) (queue : list ArtifactC) (x : X) : M db X :=
  match fuel, queue with
  | _, [] => ret x
  | O, _ => fail OutOfFuel
  | S fuel, a :: queue =>
      let walked := {[digest_of a]} ∪ walked in
      r <- walkFn a x ;;
      let '(x, err) := r in
      match err with
      | Some e =>
          if is_sentinel e ErrBreak then ret x
          else if is_sentinel e ErrSkip then walk_loop fuel walked queue x
          else fail e
      | None =>
          queue <- match References (art a) with
                   | [] => ret queue
                   | rs =>
                       children <- List_ (fun b => existsb (fun r => r_ChildID r =? a_ID b) rs) o ;;
                       enqueue_children walked children queue
                   end ;;
          queue <- enqueue_accessories walked (Accessories a) queue ;;
          walk_loop fuel walked queue x
      end
  end.

Definition Walk (fuel : nat) (root : ArtifactC) (x : X) : M db X := walk_loop fuel ∅ [root] x.
End Walk.

(** ** Scannable content *)

Definition scannableContentTypes : list string :=
  ["application/vnd.oci.image.manifest.v1+json";
   "application/vnd.docker.distribution.manifest.v2+json";
   "application/vnd.docker.distribution.manifest.v1+json";
   "application/vnd.docker.distribution.manifest.v1+prettyjws";
   "application/vnd.oci.image.index.v1+json";
   "application/vnd.docker.distribution.manifest.list.v2+json";
   "application/vnd.docker.image.rootfs.diff.tar.gzip";
   "application/vnd.docker.image.rootfs.diff.tar";
   "application/vnd.docker.image.rootfs.foreign.diff.tar.gzip";
   "application/vnd.oci.image.layer.v1.tar";
   "application/vnd.oci.image.layer.v1.tar+gzip";
   "application/vnd.oci.image.layer.v1.tar+zstd";
   "application/vnd.oci.image.layer.nondistributable.v1.tar";
   "application/vnd.oci.image.layer.nondistributable.v1.tar+gzip";
   "application/vnd.oci.image.layer.nondistributable.v1.tar+zstd";
   "application/vnd.oci.image.config.v1+json";
   "application/vnd.docker.container.image.v1+json";
   "application/vnd.cncf.helm.config.v1+json";
   "application/vnd.cncf.helm.chart.content.v1.tar+gzip";
   "application/vnd.cyclonedx+json"]%string.

Definition HasUnscannableLayer (dgst : string) : M db bool :=
  if dgst =s= "" then ret false
  else
    bs <- lift_blob (Blob.GetBlobsByArtDigest dgst) ;;
    ret (existsb (fun b => negb (existsb (String.eqb (Blob.ContentType b)) scannableContentTypes)) bs).
End Controllers.
