(* ===== verification/ArtifactDelete.v ===== *)
(** * Deleting artifacts

    What [Delete] of the artifact controller guarantees: which artifacts and
    tags it removes, that what it removes is left to the garbage collector in
    the trash, that it does nothing when it fails, and that its recursion
    ends. *)

From S2P Require Import Prelude Errors Orm ArtifactDb Artifact.
From S2P Require Blob.
From S2P Require Retention.

(** ** Shrinking tables *)

(** A deletion only removes rows, and only adds to the trash. *)
Record shrinks (t t' : tables) : Prop := mkShrinks {
  sh_arts : arts t' ⊆ arts t;
  sh_refs : refs t' ⊆ refs t;
  sh_tags : tags t' ⊆ tags t;
  sh_accs : accs t' ⊆ accs t;
  sh_labels : label_refs t' ⊆ label_refs t;
  sh_rules : immutable_rules t' = immutable_rules t;
  sh_trash : Blob.trash (blobdb t) ⊆ Blob.trash (blobdb t');
}.

#[global] Instance shrinks_preorder : PreOrder shrinks.
Proof.
  split; [by intros t|]. intros t1 t2 t3 [] []. split; (congruence || by etrans).
Qed.

Lemma filter_subseteq {A} (m : gmap Z A) (p : A -> bool) (b : bool) :
  filter (fun it : Z * A => p it.2 = b) m ⊆ m.
Proof. apply map_filter_subseteq. Qed.

(** A step that keeps the artifacts and the tags. *)
Definition quiet_step (t t' : tables) : Prop := shrinks t t' /\ arts t' = arts t /\ tags t' = tags t.

#[global] Instance quiet_step_preorder : PreOrder quiet_step.
Proof.
  split; [by intros t|]. intros t1 t2 t3 (H1 & H2 & H3) (H4 & H5 & H6).
  split; [by transitivity t2|]. split; congruence.
Qed.

Lemma frame_weaken {A} (R R' : tables -> tables -> Prop) (m : M db A) :
  frame R m -> (forall t t', R t t' -> R' t t') -> frame R' m.
Proof. intros Hm HR s. destruct (Hm s) as (H1 & H2 & H3 & H4). auto. Qed.

Lemma frame_quiet {A} (m : M db A) : frame quiet_step m -> frame shrinks m.
Proof. intros Hm. eapply frame_weaken; [exact Hm|]. by intros t t' [H _]. Qed.

Section Frames.
Context {R : tables -> tables -> Prop} `{!PreOrder R}.

Lemma frame_map_err {A} f (m : M db A) : frame R m -> frame R (map_err f m).
Proof. intros Hm s. specialize (Hm s). unfold map_err. by destruct (m s) as [[]]. Qed.

Lemma frame_mapM {A B} (f : A -> M db B) l : (forall a, frame R (f a)) -> frame R (mapM f l).
Proof.
  intros Hf. induction l as [|a l IH]; simpl; auto with orm typeclass_instances.
Qed.

Lemma frame_Now : frame R Now.
Proof. by intros s. Qed.

Lemma frame_AddEvent e : frame R (AddEvent e).
Proof. by intros s. Qed.

Lemma frame_lift_blob {A} (m : M Blob.store A) :
  (forall b, Blob.faults (m b).2 `suffix_of` Blob.faults b) ->
  (forall t fs, R t (with_blobdb t (m (blob_view t fs)).2)) -> frame R (lift_blob m).
Proof.
  intros Hf Hm s. unfold lift_blob. destruct (aborted s) eqn:Ha.
  - by destruct (m _) as [r b].
  - specialize (Hm (tb s) (c_faults s)). specialize (Hf (blob_view (tb s) (c_faults s))).
    by destruct (m _) as [[a|e] b].
Qed.
End Frames.

#[export] Hint Resolve frame_map_err frame_mapM frame_Now frame_AddEvent : orm.

(** The steps of an operation, down to its statements. *)
Ltac frame_step :=
  match goal with
  | |- frame _ (bind _ _) => apply frame_bind; [apply _| |intros ?]
  | |- frame _ (ret _) => apply frame_ret; apply _
  | |- frame _ (fail _) => apply frame_fail; apply _
  | |- frame _ (of_result _) => apply frame_of_result; apply _
  | |- frame _ (try _) => apply frame_try
  | |- frame _ (map_err _ _) => apply frame_map_err
  | |- frame _ (mapM _ _) => apply frame_mapM; intros ?
  | |- frame _ (iterM _ _) => apply frame_iterM; [apply _|intros ?]
  | |- frame _ (select _) => apply frame_select; apply _
  | |- frame _ (WithTransaction _) => apply frame_WithTransaction; [apply _|]
  | |- frame _ Now => apply frame_Now
  | |- frame _ (AddEvent _) => apply frame_AddEvent
  | |- frame _ (if ?b then _ else _) => destruct b
  | |- frame _ (match ?x with _ => _ end) => destruct x
  end.
Ltac frame_tac := repeat first [solve [auto with orm typeclass_instances] | frame_step].

Section Shrinks.
Context {R : tables -> tables -> Prop} `{!PreOrder R}.

(** Reading operations keep everything. *)
Lemma frame_art_dao_Get id : frame R (art_dao_Get id).
Proof. unfold art_dao_Get. frame_tac. Qed.

Lemma frame_ListReferences p : frame R (ListReferences p).
Proof. unfold ListReferences. frame_tac. Qed.

Lemma frame_acc_List p : frame R (acc_List p).
Proof. unfold acc_List, acc_dao_List. frame_tac. Qed.

Lemma frame_assemble a : frame R (assemble a).
Proof. unfold assemble, ListReferences. frame_tac. Qed.

Lemma frame_art_Get id : frame R (art_Get id).
Proof. unfold art_Get, art_dao_Get, assemble, ListReferences. frame_tac. Qed.
End Shrinks.
#[export] Hint Resolve frame_art_dao_Get frame_ListReferences frame_acc_List frame_assemble frame_art_Get : orm.

Section Operations.
Context (doublestar_Match : string -> string -> result bool).
Context (parse_untagged : string -> option bool).
Context (sort_by : (Retention.Candidate -> Z) -> list Retention.Candidate -> list Retention.Candidate).

Abbreviation populateImmutableStatus := (populateImmutableStatus doublestar_Match parse_untagged sort_by).
Abbreviation tag_List := (tag_List doublestar_Match parse_untagged sort_by).
Abbreviation tag_Delete := (tag_Delete doublestar_Match parse_untagged sort_by).
Abbreviation DeleteTags := (DeleteTags doublestar_Match parse_untagged sort_by).
Abbreviation Get := (Get doublestar_Match parse_untagged sort_by).
Abbreviation delete_artifact := (delete_artifact doublestar_Match parse_untagged sort_by).
Abbreviation deleteDeeply := (deleteDeeply doublestar_Match parse_untagged sort_by).
Abbreviation Delete := (Delete doublestar_Match parse_untagged sort_by).

Section Reading.
Context {R : tables -> tables -> Prop} `{!PreOrder R}.

Lemma frame_populateImmutableStatus g : frame R (populateImmutableStatus g).
Proof. unfold Artifact.populateImmutableStatus, Match. frame_tac. Qed.

Lemma frame_tag_dao_Get id : frame R (tag_dao_Get id).
Proof. unfold tag_dao_Get. frame_tac. Qed.

Lemma frame_tag_List p o : frame R (tag_List p o).
Proof.
  unfold Artifact.tag_List, tag_dao_List, assembleTag. frame_tac. apply frame_populateImmutableStatus.
Qed.

Lemma frame_tag_Get id o : frame R (tag_Get doublestar_Match parse_untagged sort_by id o).
Proof. unfold tag_Get, tag_dao_Get, assembleTag. frame_tac. apply frame_populateImmutableStatus. Qed.

Lemma frame_inherited ps : frame R (inherited ps).
Proof. induction ps as [|p ps IH]; simpl; frame_tac. Qed.

Lemma frame_populateAccessories id : frame R (populateAccessories id).
Proof. unfold populateAccessories. frame_tac. apply frame_inherited. Qed.

Lemma frame_Get id o : frame R (Get id o).
Proof.
  unfold Artifact.Get, assembleArtifact, populateTags, populateLabels, populateAccessories, ListByArtifact.
  frame_tac; first [apply frame_inherited | apply frame_tag_List].
Qed.
End Reading.

Lemma frame_ignoreNotFound {R} `{!PreOrder R} m : frame R m -> frame R (ignoreNotFound m).
Proof. intros H. unfold ignoreNotFound. frame_tac. Qed.

(** Deleting operations shrink. *)
Lemma frame_delete_refs p : frame quiet_step (delete_stmt p refs with_refs).
Proof.
  apply frame_update; [apply _|]. intros t. split; [|done]. split; try done. apply filter_subseteq.
Qed.

Lemma frame_delete_accs p : frame quiet_step (delete_stmt p accs with_accs).
Proof.
  apply frame_update; [apply _|]. intros t. split; [|done]. split; try done. apply filter_subseteq.
Qed.

Lemma frame_touchRepo {R} `{!PreOrder R} id :
  (forall t x, R t (with_repos t x)) -> frame R (touchRepo id).
Proof.
  intros H. unfold touchRepo, Touch. frame_tac. apply frame_update; [apply _|]. intros t. destruct (repos t !! id); [apply H|reflexivity].
Qed.

Lemma frame_tag_dao_Delete id : frame shrinks (tag_dao_Delete id).
Proof.
  unfold tag_dao_Delete. frame_tac. apply frame_update; [apply _|]. intros t.
  destruct (tags t !! id); [|done]. split; try done. apply delete_subseteq.
Qed.

Lemma frame_tag_Delete id : frame shrinks (tag_Delete id).
Proof.
  unfold Artifact.tag_Delete. frame_tac.
  - apply frame_tag_Get.
  - apply frame_tag_dao_Delete.
  - apply frame_touchRepo. by intros t x.
Qed.

Lemma frame_art_dao_Delete id : frame shrinks (art_dao_Delete id).
Proof.
  unfold art_dao_Delete. frame_tac. apply frame_call; [apply _|]. intros t x n t' x'.
  destruct (arts t !! id); [|by intros [= _ <- _]]. destruct (art_in_use id t); [done|].
  intros [= _ <- _]. split; try done. apply delete_subseteq.
Qed.

Lemma frame_art_Delete id : frame shrinks (art_Delete id).
Proof. unfold art_Delete, DeleteReferences. frame_tac; [apply frame_quiet, frame_delete_refs|apply frame_art_dao_Delete]. Qed.

Lemma frame_RemoveAllFrom id : frame quiet_step (RemoveAllFrom id).
Proof.
  apply frame_update; [apply _|]. intros t. split; [|done]. split; try done. simpl. set_solver.
Qed.

(** The blob operations of a deletion consume faults and do not touch the
    trash. *)
Definition blob_frame (tr : gmap Z Blob.ArtifactTrash) (fs : list (option error)) (b : Blob.store) : Prop :=
  Blob.trash b = tr /\ Blob.faults b `suffix_of` fs.

Lemma blob_frame_fault tr fs b : blob_frame tr fs b -> blob_frame tr fs (next_fault b).2.
Proof.
  intros [H1 H2]. unfold next_fault, Blob.store_faulty. destruct (Blob.faults b) as [|f l] eqn:E; simpl.
  - split; [done|]. by rewrite E.
  - split; [done|]. simpl. etrans; [|exact H2]. apply suffix_cons_r, reflexivity.
Qed.

Lemma blob_frame_query {A} (f : Blob.store -> A) tr fs : preserves (blob_frame tr fs) (Blob.query f).
Proof. apply preserves_io; [apply blob_frame_fault|by intros st]. Qed.

Lemma frame_blob {A} (m : M Blob.store A) :
  (forall tr fs, preserves (blob_frame tr fs) m) -> frame quiet_step (lift_blob m).
Proof.
  intros H. apply frame_lift_blob.
  - intros b. by apply (H (Blob.trash b) (Blob.faults b) b).
  - intros t fs. split; [|done]. split; try done. simpl.
    by destruct (H (Blob.trash (blobdb t)) fs (blob_view t fs)) as [-> _].
Qed.

Lemma frame_blobs_of d : frame quiet_step (blobs_of d).
Proof. apply frame_blob. intros tr fs. apply blob_frame_query. Qed.

Lemma frame_Cleanup p bs : frame quiet_step (CleanupAssociationsForProject p bs).
Proof.
  apply frame_blob. intros tr fs.
  unfold Blob.CleanupAssociationsForProject, Blob.FindBlobsShouldUnassociatedWithProject, Blob.DeleteProjectBlob.
  destruct bs as [|b bs]; [apply preserves_ret|]. apply preserves_bind; [apply preserves_bind|].
  - apply blob_frame_query.
  - intros ?. apply preserves_ret.
  - intros l. destruct (Blob.ID <$> l); [apply preserves_ret|].
    apply preserves_io; [apply blob_frame_fault|by apply preserves_modify].
Qed.

(** A new identifier. *)
Lemma next_id_fresh {A} seq (m : gmap Z A) : m !! next_id seq m = None.
Proof.
  assert (H : forall k, is_Some (m !! k) -> k < next_id seq m).
  { unfold next_id. apply (map_fold_weak_ind (fun acc m => forall k, is_Some (m !! k) -> k < acc)).
    - intros k. rewrite lookup_empty. by intros [].
    - intros i x m' acc _ IH k Hk. destruct (decide (i = k)) as [->|Hne]; [lia|].
      rewrite lookup_insert_ne in Hk by done. specialize (IH k Hk). lia. }
  destruct (m !! next_id seq m) eqn:E; [|done].
  specialize (H (next_id seq m) ltac:(rewrite E; eauto)). lia.
Qed.

Lemma frame_trash_Create r d : frame quiet_step (trash_Create r d).
Proof.
  unfold trash_Create. frame_tac. apply frame_call; [apply _|]. intros t x id t' x'.
  cbn zeta beta. destruct (in_trash r d t); [done|]. intros [= _ <- _]. split; [|done].
  split; try done. simpl. apply insert_subseteq, next_id_fresh.
Qed.

Lemma frame_touch_quiet id : frame quiet_step (touchRepo id).
Proof. apply frame_touchRepo. by intros t x. Qed.

#[local] Hint Resolve frame_Get frame_populateImmutableStatus frame_tag_dao_Get frame_tag_List frame_tag_Get frame_populateAccessories frame_ignoreNotFound frame_tag_dao_Delete frame_tag_Delete
  frame_art_Delete frame_RemoveAllFrom frame_blobs_of frame_Cleanup frame_trash_Create frame_touch_quiet
  frame_delete_refs frame_delete_accs : orm.
#[local] Hint Extern 5 (frame shrinks _) => apply frame_quiet : orm.

Lemma frame_bury a isRoot : frame quiet_step (bury a isRoot).
Proof. unfold bury. frame_tac. Qed.
#[local] Hint Resolve frame_bury : orm.

Lemma frame_DeleteTags_shrinks ids : frame shrinks (DeleteTags ids).
Proof. unfold Artifact.DeleteTags. frame_tac. Qed.
#[local] Hint Resolve frame_DeleteTags_shrinks : orm.

Lemma frame_delete_artifact a isRoot : frame shrinks (delete_artifact a isRoot).
Proof. unfold Artifact.delete_artifact. frame_tac. Qed.
#[local] Hint Resolve frame_delete_artifact : orm.

Lemma frame_DeleteAccessories p : frame quiet_step (DeleteAccessories p).
Proof. unfold DeleteAccessories. frame_tac. Qed.

Lemma frame_DeleteReference id : frame quiet_step (DeleteReference id).
Proof. unfold DeleteReference. frame_tac. Qed.
#[local] Hint Resolve frame_DeleteAccessories frame_DeleteReference : orm.

Lemma frame_deleteDeeply fuel id isRoot isAcc : frame shrinks (deleteDeeply fuel id isRoot isAcc).
Proof.
  revert id isRoot isAcc. induction fuel as [|fuel IH]; intros id isRoot isAcc; simpl; frame_tac.
Qed.
#[local] Hint Resolve frame_deleteDeeply : orm.

(** One step of a sequence in a transaction. *)
Tactic Notation "tx_step" constr(R) hyp(E) "as" simple_intropattern(p) :=
  apply (tx_bind_inv R) in E as p; [|assumption|assumption|solve [frame_tac]|solve [intros ?; frame_tac]].

(** ** What a deletion may remove *)

(** The rows are stored under their identifiers. *)
Record keyed (t : tables) : Prop := mkKeyed {
  k_arts : forall i a, arts t !! i = Some a -> a_ID a = i;
  k_refs : forall i r, refs t !! i = Some r -> r_ID r = i;
  k_tags : forall i g, tags t !! i = Some g -> t_ID g = i;
}.

Lemma keyed_shrinks t t' : keyed t -> shrinks t t' -> keyed t'.
Proof.
  intros [] []. split; intros i x Hx; eauto using lookup_weaken.
Qed.

(** From an artifact to its children and to its accessories. *)
Definition edge (t : tables) (a b : Z) : Prop :=
  (exists i r, refs t !! i = Some r /\ r_ParentID r = a /\ r_ChildID r = b)
  \/ (exists i c, accs t !! i = Some c /\ IsHard c = true /\ c_SubArtifactID c = a /\ c_ArtifactID c = b).

Definition untagged (t : tables) (a : Z) : Prop := forall i g, tags t !! i = Some g -> t_ArtifactID g <> a.

Definition is_accessory (t : tables) (a : Z) : Prop :=
  exists i c, accs t !! i = Some c /\ IsHard c = true /\ c_ArtifactID c = a.

(** From [t] to [t'] the artifacts removed are among [A] and in the trash, and
    a tag is removed with its artifact only. *)
Record deletes (A : Z -> Prop) (t t' : tables) : Prop := mkDeletes {
  dl_shrinks : shrinks t t';
  dl_arts : forall i a, arts t !! i = Some a -> arts t' !! i = None ->
    A i /\ in_trash (a_RepositoryName a) (a_Digest a) t' = true;
  dl_tags : forall i g, tags t !! i = Some g -> tags t' !! i = None -> arts t' !! t_ArtifactID g = None;
}.

Lemma elem_of_rows {B} (m : gmap Z B) x : x ∈ rows m <-> exists i, m !! i = Some x.
Proof. apply elem_of_map_values. Qed.

Lemma elem_of_rows_filter {B} (m : gmap Z B) p x :
  x ∈ List.filter p (rows m) <-> (exists i, m !! i = Some x) /\ p x = true.
Proof. rewrite list_elem_of_In, filter_In, <- list_elem_of_In, elem_of_rows. done. Qed.

Lemma in_trash_mono r d t t' : shrinks t t' -> in_trash r d t = true -> in_trash r d t' = true.
Proof.
  intros Hs H. apply existsb_exists in H as (x & Hx & E). apply existsb_exists. exists x. split; [|done].
  apply list_elem_of_In, elem_of_rows in Hx as [i Hi].
  apply list_elem_of_In, elem_of_rows. exists i. eapply lookup_weaken; [exact Hi|apply Hs].
Qed.

#[global] Instance deletes_preorder A : PreOrder (deletes A).
Proof.
  split.
  - intros t. split; [done|congruence..].
  - intros t1 t2 t3 [S1 A1 T1] [S2 A2 T2]. split; [by transitivity t2| |].
    + intros i a H1 H3. destruct (arts t2 !! i) as [b|] eqn:E2.
      * assert (b = a) as -> by (eapply lookup_weaken in E2; [|apply S1]; congruence). eauto.
      * destruct (A1 i a H1 E2) as [? ?]. split; [done|]. by eapply in_trash_mono.
    + intros i g H1 H3. destruct (tags t2 !! i) as [h|] eqn:E2.
      * assert (h = g) as -> by (eapply lookup_weaken in E2; [|apply S1]; congruence). eauto.
      * specialize (T1 i g H1 E2). destruct (arts t3 !! t_ArtifactID g) eqn:E; [|done].
        eapply lookup_weaken in E; [|apply S2]. congruence.
Qed.

Lemma quiet_deletes A t t' : quiet_step t t' -> deletes A t t'.
Proof. intros (H1 & H2 & H3). split; [done|congruence..]. Qed.

(** No fault of the connection looks like a duplicate key. *)
Definition no_conflict (fs : list (option error)) : Prop :=
  forall e, Some e ∈ fs -> IsErr e ConflictCode = false /\ IsDuplicateKeyError e = false.

Lemma no_conflict_suffix fs gs : no_conflict fs -> gs `suffix_of` fs -> no_conflict gs.
Proof. intros H [k ->] e He. apply H, elem_of_app. by right. Qed.

(** ** The steps in a transaction *)

Lemma mapM_ret {B C} (f : B -> C) l (s : db) : mapM (fun b => ret (f b)) l s = (Ok (f <$> l), s).
Proof. induction l as [|b l IH]; simpl; [done|]. unfold bind at 1. simpl. unfold bind at 1. by rewrite IH. Qed.

Lemma tag_List_tx p s r s' :
  tag_List p false s = (r, s') -> in_tx s = true -> aborted s' = false ->
  r = Ok ((fun g => mkTag g false) <$> List.filter p (rows (tags (tb s)))).
Proof.
  unfold Artifact.tag_List, bind. destruct (tag_dao_List p s) as [[l|e] s1] eqn:E; intros E2 Htx Ha.
  - change (assembleTag doublestar_Match parse_untagged sort_by false) with (fun g => @ret db Tag (mkTag g false)) in E2.
    rewrite mapM_ret in E2. injection E2 as <- <-.
    by destruct (select_in_tx _ _ _ _ E Htx Ha) as [[= ->] _].
  - injection E2 as <- <-. by destruct (select_in_tx _ _ _ _ E Htx Ha) as [? _].
Qed.

Lemma acc_models_ok l l' : acc_models l = Ok l' -> l' = l.
Proof.
  revert l'. induction l as [|c l IH]; intros l'; simpl; [by intros [= <-]|].
  unfold acc_New. destruct (existsb _ _); [|done]. destruct (acc_models l) as [cs|]; [|done].
  intros [= <-]. f_equal. by apply IH.
Qed.

Lemma acc_List_ok p s l s' :
  acc_List p s = (Ok l, s') -> l = List.filter p (rows (accs (tb s))).
Proof.
  intros E. apply bind_inv in E as (k & s1 & E1 & E2). apply call_ok in E1 as ([= <- _] & _).
  unfold of_result in E2. injection E2 as E2 _. by apply acc_models_ok.
Qed.

Lemma populateAccessories_ok id s l s' :
  populateAccessories id s = (Ok l, s') ->
  forall c, c ∈ l.1 -> (exists i, accs (tb s) !! i = Some c) /\ c_SubArtifactID c = id.
Proof.
  intros E. apply bind_inv in E as (r & s1 & E1 & E2). apply try_inv in E1.
  assert (H : l.1 = [] \/ exists k, r = Ok k /\ l.1 = k).
  { destruct r as [k|e]; [|injection E2 as <- _; by left]. right. exists k. split; [done|].
    destruct (existsb _ k); [by injection E2 as <- _|].
    apply bind_inv in E2 as (rp & s2 & _ & E2). destruct rp as [ps|e]; [|by injection E2 as <- _].
    apply bind_inv in E2 as (i & s3 & _ & [= <- _]). done. }
  destruct H as [->|(k & -> & ->)]; [by intros c Hc; apply elem_of_nil in Hc|].
  apply acc_List_ok in E1 as ->. intros c Hc. apply elem_of_rows_filter in Hc as [Hc Hi].
  split; [done|]. by apply Z.eqb_eq.
Qed.

Lemma art_Get_ok id s a s' :
  art_Get id s = (Ok a, s') ->
  arts (tb s) !! id = Some (row a)
  /\ forall q, q ∈ References a -> (exists i, refs (tb s) !! i = Some q) /\ r_ParentID q = a_ID (row a).
Proof.
  intros E. apply bind_inv in E as (d & s1 & E1 & E2).
  apply bind_inv in E1 as (o & s0 & E1 & E3). pose proof (call_ok _ _ _ _ E1) as ([= <- Et _] & _).
  destruct (arts (tb s) !! id) as [d'|]; [|done]. injection E3 as -> ->.
  unfold assemble in E2. destruct (IsImageIndex d).
  - apply bind_inv in E2 as (l & s2 & E2 & [= <- _]). apply call_ok in E2 as ([= <- _] & _).
    split; [done|]. intros q Hq. rewrite <- Et in Hq. apply elem_of_rows_filter in Hq as [Hq Hp].
    split; [done|]. by apply Z.eqb_eq.
  - injection E2 as <- _. split; [done|]. intros q Hq. by apply elem_of_nil in Hq.
Qed.

(** In a transaction that goes on, what [Get] gives is what the tables hold. *)
Lemma Get_tx id s a s' :
  Get id delete_option s = (Ok a, s') -> in_tx s = true -> aborted s' = false ->
  tb s' = tb s /\ arts (tb s) !! id = Some (row (art a))
  /\ (tag <$> Tags a = List.filter (fun g => t_ArtifactID g =? a_ID (row (art a))) (rows (tags (tb s))))
  /\ (forall c, c ∈ Accessories a -> (exists i, accs (tb s) !! i = Some c) /\ c_SubArtifactID c = a_ID (row (art a)))
  /\ (forall q, q ∈ References (art a) -> (exists i, refs (tb s) !! i = Some q) /\ r_ParentID q = a_ID (row (art a))).
Proof.
  intros E Htx Ha. split; [symmetry; exact (frame_tb eq _ _ _ _ (frame_Get _ _) E)|].
  unfold Artifact.Get, assembleArtifact, delete_option in E. cbn [WithTag WithLabel WithAccessory TagOption] in E.
  unfold populateTags, populateLabels, ListByArtifact in E.
  tx_step (@eq tables) E as (b & s1 & E1 & E & Htx1 & Ha1 & Et1 & _). apply art_Get_ok in E1 as [H1 H2].
  tx_step (@eq tables) E as (tg & s2 & E2 & E & Htx2 & Ha2 & Et2 & _).
  tx_step (@eq tables) E as (lb & s3 & E3 & E & Htx3 & Ha3 & Et3 & _).
  apply bind_inv in E as (ac & s4 & E4 & [= <- <-]). cbn [art Tags Accessories].
  split; [done|]. split.
  - tx_step (@eq tables) E2 as (r & s5 & E2 & E5 & _ & Ha5 & _).
    apply try_inv in E2. pose proof (tag_List_tx _ _ _ _ E2 Htx1 Ha5) as ->. injection E5 as <- _.
    rewrite <- list_fmap_compose, Et1. by rewrite list_fmap_id.
  - split; [|done]. intros c Hc. rewrite Et1, Et2, Et3. by eapply populateAccessories_ok.
Qed.

(** Removing tags keeps the artifacts and the other tags. *)
Definition only_tags (ids : list Z) (t t' : tables) : Prop :=
  arts t' = arts t /\ tags t' ⊆ tags t
  /\ forall i g, tags t !! i = Some g -> tags t' !! i = None -> i ∈ ids.

#[global] Instance only_tags_preorder ids : PreOrder (only_tags ids).
Proof.
  split; [intros t; split; [done|]; split; [done|congruence]|].
  intros t1 t2 t3 (A1 & S1 & T1) (A2 & S2 & T2). split; [congruence|]. split; [by etrans|].
  intros i g H1 H3. destruct (tags t2 !! i) eqn:E2; eauto.
Qed.

Lemma frame_tag_Delete_only id ids : id ∈ ids -> frame (only_tags ids) (tag_Delete id).
Proof.
  intros Hid. unfold Artifact.tag_Delete, tag_dao_Delete. frame_tac.
  - apply frame_update; [apply _|]. intros t. destruct (tags t !! id) as [g|] eqn:E; [|reflexivity].
    split; [done|]. split; [apply delete_subseteq|]. simpl. intros i h H1 H2.
    destruct (decide (i = id)) as [->|Hne]; [done|]. rewrite lookup_delete_ne in H2 by done. congruence.
  - apply frame_touchRepo. intros t x. split; [done|]. split; [done|]. simpl. congruence.
Qed.

Lemma frame_DeleteTags ids : frame (only_tags ids) (DeleteTags ids).
Proof.
  assert (H : forall k, k ⊆ ids -> frame (only_tags ids) (DeleteTags k)).
  { intros k. induction k as [|id k IH]; intros Hk; simpl; [apply frame_ret; apply _|].
    apply frame_bind; [apply _| |intros _; apply IH; set_solver]. apply frame_tag_Delete_only. set_solver. }
  by apply H.
Qed.

(** [art_Delete] removes the artifact, or nothing in a transaction that goes on. *)
Lemma art_Delete_tx id s r s' :
  art_Delete id s = (r, s') -> in_tx s = true -> aborted s' = false ->
  shrinks (tb s) (tb s') /\ tags (tb s') = tags (tb s)
  /\ match r with
     | Ok _ => arts (tb s') = delete id (arts (tb s)) /\ is_Some (arts (tb s) !! id)
     | Err _ => arts (tb s') = arts (tb s)
     end.
Proof.
  intros E Htx Ha. split; [exact (frame_tb _ _ _ _ _ (frame_art_Delete id) E)|]. revert E.
  assert (Hq : frame quiet_step (DeleteReferences id)).
  { unfold DeleteReferences. frame_tac. }
  unfold art_Delete, bind at 1. destruct (DeleteReferences id s) as [[u|e] s1] eqn:E1.
  2: { intros [= <- <-]. destruct (frame_tb _ _ _ _ _ Hq E1) as (_ & -> & ->). done. }
  destruct (frame_tb _ _ _ _ _ Hq E1) as (_ & <- & <-).
  pose proof (frame_mode _ _ _ _ _ Hq E1) as Htx1. rewrite Htx in Htx1. clear E1.
  intros E. assert (Ha2 : exists r2 s2, call (fun t x =>
           match arts t !! id with
           | None => (Ok (0, t), x)
           | Some _ => if art_in_use id t then (Err ForeignKeyViolation, x)
                       else (Ok (1, with_arts t (delete id (arts t))), x)
           end) s1 = (r2, s2) /\ s2 = s' /\ (match r2 with Ok n => r = (if n =? 0 then Err
               (WithMessage (NotFoundError None) ("artifact " ++ num id ++ " not found")%string) else Ok tt)
               | Err _ => exists e, r = Err e end)).
  { revert E. unfold art_dao_Delete, bind, map_err. destruct (call _ s1) as [[n|e] s2].
    - intros E. exists (Ok n), s2. split; [done|]. destruct (n =? 0); injection E as <- <-; done.
    - intros [= <- <-]. exists (Err e), s2. eauto. }
  destruct Ha2 as (r2 & s2 & E2 & -> & Hr). destruct (call_in_tx _ _ _ _ E2 Htx1 Ha) as (n & -> & Hf).
  destruct (arts (tb s1) !! id) as [a|] eqn:Ei.
  - destruct (art_in_use id (tb s1)); [done|]. injection Hf as <- <- _. rewrite Hr. split; [done|]. split; [done|by eexists].
  - injection Hf as <- <- _. rewrite Hr. done.
Qed.

(** After the insertion into the trash the record is there, whether it was new
    or a duplicate. *)
Lemma trash_tx rn d s r s' :
  no_conflict (c_faults s) -> try (WithTransaction (trash_Create rn d)) s = (Ok r, s') ->
  match r with Ok _ => True | Err e => IsErr e ConflictCode = true end ->
  in_trash rn d (tb s') = true.
Proof.
  intros Hnc E Hr. apply try_inv in E. destruct r as [id|e].
  - apply WithTransaction_ok in E as (s1 & s2 & _ & E & _ & -> & _).
    apply bind_inv in E as (now & s3 & _ & E). unfold map_err in E.
    destruct (insert_stmt _ _ _ _ _ _ s3) as [[i|] s4] eqn:Ei; [|done]. injection E as _ ->.
    apply call_ok in Ei as (Ei & _). cbn zeta in Ei.
    destruct (negb _); [done|]. simpl in Ei. injection Ei as _ <- _.
    apply existsb_exists. eexists. split; [apply list_elem_of_In, elem_of_rows; eexists; apply lookup_insert_eq|].
    simpl. by rewrite !String.eqb_refl.
  - rewrite (WithTransaction_err _ _ _ _ E).
    apply WithTransaction_err_cause in E.
    2: { intros s1. destruct (frame_trash_Create rn d s1) as (_ & _ & H & _). done. }
    destruct E as [->|[->|[He|(s1 & Eb & E)]]]; [done|done|by rewrite (proj1 (Hnc _ He)) in Hr|].
    pose proof (begin_faults s) as Hs. rewrite Eb in Hs. simpl in Hs.
    destruct (begin_mode _ _ _ Eb) as (<- & _).
    unfold trash_Create, bind, Now, map_err in E.
    destruct (insert_stmt _ _ _ _ _ _ s1) as [[i|e1] s4] eqn:Ei; [done|]. injection E as <-.
    apply call_err_cause in Ei as [->|[He|Ei]]; [done| |].
    + destruct (Hnc e1) as [H1 H2]; [by destruct Hs as [k ->]; apply elem_of_app; right|].
      unfold WrapConflictError, AsConflictError in Hr. rewrite H2 in Hr. congruence.
    + cbn zeta in Ei. by destruct (in_trash rn d (tb s1)).
Qed.

(** What is done after the row is gone keeps the artifacts and the tags, and
    leaves a record in the trash. *)
Lemma bury_tx a isRoot s s' :
  bury a isRoot s = (Ok tt, s') -> in_tx s = true -> aborted s' = false -> no_conflict (c_faults s) ->
  quiet_step (tb s) (tb s') /\ in_trash (a_RepositoryName (row (art a))) (a_Digest (row (art a))) (tb s') = true.
Proof.
  intros E Htx Ha Hnc. split; [exact (frame_tb _ _ _ _ _ (frame_bury a isRoot) E)|]. unfold bury in E.
  tx_step quiet_step E as (u1 & s1 & E1 & E & Htx1 & Ha1 & _ & F1).
  tx_step quiet_step E as (bs & s2 & E2 & E & Htx2 & Ha2 & _ & F2).
  tx_step quiet_step E as (u3 & s3 & E3 & E & Htx3 & Ha3 & _ & F3).
  tx_step quiet_step E as (rt & s4 & E4 & E & Htx4 & Ha4 & _).
  assert (Hnc3 : no_conflict (c_faults s3)).
  { eapply no_conflict_suffix; [exact Hnc|]. do 2 (etrans; [eassumption|]). done. }
  assert (Hend : tb s' = tb s4 /\ match rt with Ok _ => True | Err e => IsErr e ConflictCode = true end).
  { apply bind_inv in E as (u8 & s8 & E8 & E). destruct rt as [i|e].
    - injection E8 as <- <-. split; [|done]. by destruct isRoot; injection E as <-.
    - destruct (IsErr e ConflictCode); [|done]. injection E8 as <- <-. split; [|done].
      by destruct isRoot; injection E as <-. }
  destruct Hend as [-> Hrt]. exact (trash_tx _ _ _ _ _ Hnc3 E4 Hrt).
Qed.

(** The tags of a root are removed, and those alone. *)
Lemma root_tags_tx a (isRoot : bool) s s' :
  let id := a_ID (row (art a)) in
  (if isRoot then DeleteTags ((fun g => t_ID (tag g)) <$> Tags a) else ret tt) s = (Ok tt, s') ->
  (forall g i h, g ∈ Tags a -> i = t_ID (tag g) -> tags (tb s) !! i = Some h -> t_ArtifactID h = id) ->
  arts (tb s') = arts (tb s) /\ (isRoot = false -> tags (tb s') = tags (tb s))
  /\ forall i g, tags (tb s) !! i = Some g -> tags (tb s') !! i = None -> t_ArtifactID g = id.
Proof.
  intros id E Htags. destruct isRoot.
  - destruct (frame_tb _ _ _ _ _ (frame_DeleteTags _) E) as (H1 & _ & H2). split; [done|]. split; [done|].
    intros i g Hg Hn. specialize (H2 i g Hg Hn). apply list_elem_of_fmap in H2 as (x & -> & Hx). eauto.
  - injection E as <-. split; [done|]. split; [done|]. congruence.
Qed.

(** The last steps of a deletion: the tags of a root, the labels, the row, the
    associations of the blobs, the trash. *)
Lemma delete_artifact_tx A a isRoot s s' :
  let id := a_ID (row (art a)) in
  delete_artifact a isRoot s = (Ok tt, s') -> in_tx s = true -> aborted s' = false ->
  no_conflict (c_faults s) -> A id ->
  (forall r, arts (tb s) !! id = Some r -> r = row (art a)) ->
  (forall g i h, g ∈ Tags a -> i = t_ID (tag g) -> tags (tb s) !! i = Some h -> t_ArtifactID h = id) ->
  deletes A (tb s) (tb s') /\ (isRoot = true -> arts (tb s') !! id = None).
Proof.
  intros id E Htx Ha Hnc HA Hrow Htags. pose proof (frame_tb _ _ _ _ _ (frame_delete_artifact a isRoot) E) as Hsh.
  unfold Artifact.delete_artifact in E. fold id in E.
  tx_step shrinks E as ([] & s1 & E1 & E & Htx1 & Ha1 & _ & F1).
  destruct (root_tags_tx _ _ _ _ E1 Htags) as (Harts1 & Htg1 & Hdel1).
  tx_step shrinks E as (u2 & s2 & E2 & E & Htx2 & Ha2 & _ & F2).
  destruct (frame_tb _ _ _ _ _ (frame_RemoveAllFrom id) E2) as (_ & Harts2 & Htg2).
  tx_step shrinks E as (r & s3 & E3 & E & Htx3 & Ha3 & _ & F3).
  apply try_inv in E3. destruct (art_Delete_tx _ _ _ _ E3 Htx2 Ha3) as (_ & Htg3 & H3).
  destruct r as [u3|e].
  2: { destruct isRoot; [done|]. simpl in E. destruct (IsErr e NotFoundCode); [|done]. injection E as <-.
       split; [|done]. split; [done|congruence|].
       intros i g Hg. rewrite Htg3, Htg2, Htg1 by done. congruence. }
  destruct H3 as [Harts3 _].
  assert (Hnc3 : no_conflict (c_faults s3)).
  { eapply no_conflict_suffix; [exact Hnc|]. do 2 (etrans; [eassumption|]). done. }
  destruct (bury_tx _ _ _ _ E Htx3 Ha Hnc3) as ((_ & A4 & T4) & Htr).
  assert (HA' : arts (tb s') = delete id (arts (tb s))) by congruence.
  assert (HT' : tags (tb s') = tags (tb s1)) by congruence.
  split; [|intros _; by rewrite HA', lookup_delete_eq].
  split; [done|..].
  - intros i x Hx Hn. rewrite HA' in Hn. destruct (decide (i = id)) as [->|Hne].
    + split; [done|]. by rewrite (Hrow x Hx).
    + rewrite lookup_delete_ne in Hn by done. congruence.
  - intros i g Hg Hn. rewrite HT' in Hn. rewrite HA', (Hdel1 i g Hg Hn). apply lookup_delete_eq.
Qed.

(** ** The recursion *)

(** What the deletion of [root] may remove: what is reached from it by
    references and accessories, if it is the root, untagged or an accessory. *)
Definition removable (t : tables) (root a : Z) : Prop :=
  rtc (edge t) root a /\ (a = root \/ untagged t a \/ is_accessory t a).

(** A connection in the transaction of a deletion that began at [t0]. *)
Record ready (A : Z -> Prop) (t0 : tables) (s : db) : Prop := mkReady {
  rd_tx : in_tx s = true;
  rd_faults : no_conflict (c_faults s);
  rd_keyed : keyed t0;
  rd_deletes : deletes A t0 (tb s);
}.

Lemma ready_step A t0 s s1 :
  ready A t0 s -> deletes A (tb s) (tb s1) -> in_tx s1 = true -> c_faults s1 `suffix_of` c_faults s ->
  ready A t0 s1.
Proof.
  intros [] Hd Htx Hs. split; [done|by eapply no_conflict_suffix|done|by transitivity (tb s)].
Qed.

Lemma ready_keyed A t0 s : ready A t0 s -> keyed (tb s).
Proof. intros []. eapply keyed_shrinks; [done|]. by apply dl_shrinks with A. Qed.

Lemma iterM_deletes {B} A t0 (f : B -> M db unit) l s s' :
  (forall x, frame shrinks (f x)) ->
  (forall x s s', x ∈ l -> f x s = (Ok tt, s') -> ready A t0 s -> aborted s' = false -> deletes A (tb s) (tb s')) ->
  iterM f l s = (Ok tt, s') -> ready A t0 s -> aborted s' = false -> deletes A (tb s) (tb s').
Proof.
  intros Hf Hstep. revert s. induction l as [|x l IH]; intros s E Hr Ha; cbn [iterM] in E.
  - by injection E as <-.
  - pose proof (rd_tx _ _ _ Hr) as Htx.
    apply (tx_bind_inv shrinks) in E as ([] & s1 & E1 & E & Htx1 & Ha1 & _ & F1); [|done|done|done|].
    2: { intros _. apply frame_iterM; [apply _|done]. }
    assert (D1 : deletes A (tb s) (tb s1)) by (eapply Hstep; [by left|..]; eauto).
    transitivity (tb s1); [done|].
    apply IH; [|done|by eapply ready_step|done]. intros y s2 s3 Hy. apply Hstep. by right.
Qed.

(** A child that is found without tags had none at the start. *)
Lemma untagged_before A t0 t id :
  deletes A t0 t -> is_Some (arts t !! id) ->
  List.filter (fun g => t_ArtifactID g =? id) (rows (tags t)) = [] -> untagged t0 id.
Proof.
  intros D [a Hid] Hf i g Hg Hid'. destruct (tags t !! i) as [h|] eqn:E.
  - assert (h = g) as -> by (eapply lookup_weaken in E; [|apply D]; congruence).
    assert (Hin : g ∈ List.filter (fun g => t_ArtifactID g =? id) (rows (tags t))).
    { apply elem_of_rows_filter. split; [eauto|]. by apply Z.eqb_eq. }
    rewrite Hf in Hin. by apply elem_of_nil in Hin.
  - pose proof (dl_tags _ _ _ D i g Hg E). congruence.
Qed.

Lemma edge_shrinks t t' a b : shrinks t t' -> edge t' a b -> edge t a b.
Proof.
  intros [] [(i & r & H & ?)|(i & c & H & ?)]; [left; exists i, r|right; exists i, c];
    (split; [by eapply lookup_weaken|done]).
Qed.

(** What the tables hold for the tags that [Get] gave, later in the deletion. *)
Lemma tags_of_art t t' a g i h :
  keyed t -> shrinks t t' ->
  tag <$> Tags a = List.filter (fun g => t_ArtifactID g =? a_ID (row (art a))) (rows (tags t)) ->
  g ∈ Tags a -> i = t_ID (tag g) -> tags t' !! i = Some h -> t_ArtifactID h = a_ID (row (art a)).
Proof.
  intros Hk Hs Ht Hg -> Hh. assert (Hin : tag g ∈ tag <$> Tags a) by by apply list_elem_of_fmap_2.
  rewrite Ht in Hin. apply elem_of_rows_filter in Hin as [[j Hj] Hid].
  eapply lookup_weaken in Hh; [|apply Hs]. rewrite (k_tags _ Hk _ _ Hj) in Hh.
  rewrite Hj in Hh. injection Hh as <-. by apply Z.eqb_eq.
Qed.

Section Deeply.
Context (t0 : tables) (root : Z).
Abbreviation A := (removable t0 root).

(** What a call of [deleteDeeply] with some fuel does. *)
Definition deep_spec (fuel : nat) : Prop := forall id (isRoot isAcc : bool) s s',
  deleteDeeply fuel id isRoot isAcc s = (Ok tt, s') -> ready A t0 s -> aborted s' = false ->
  rtc (edge t0) root id -> (isRoot = true -> id = root \/ is_accessory t0 id) ->
  deletes A (tb s) (tb s') /\ (isRoot = true -> arts (tb s') !! id = None).

Lemma accessories_tx fuel id l s s' :
  deep_spec fuel -> rtc (edge t0) root id ->
  (forall c, c ∈ l -> (exists i, accs t0 !! i = Some c) /\ c_SubArtifactID c = id) ->
  iterM (fun acc =>
    if IsHard acc then
      ps <- ListReferences (has_child (c_ArtifactID acc)) ;;
      deleteDeeply fuel (c_ArtifactID acc) (bool_decide (ps = [])) true
    else ret tt) l s = (Ok tt, s') ->
  ready A t0 s -> aborted s' = false -> deletes A (tb s) (tb s').
Proof.
  intros IH Hid Hl. apply iterM_deletes; [intros c; frame_tac|].
  intros c s1 s2 Hc E Hr Ha. destruct (Hl c Hc) as [[i Hi] Hsub].
  destruct (IsHard c) eqn:Eh; [|by injection E as <-].
  pose proof (rd_tx _ _ _ Hr) as Htx.
  tx_step shrinks E as (ps & s3 & E1 & E & Htx3 & Ha3 & _ & F3).
  pose proof (frame_tb eq _ _ _ _ (frame_ListReferences _) E1) as Et.
  rewrite Et. eapply (IH _ _ _ _ _ E); [|done|..].
  - eapply ready_step; [exact Hr|by rewrite Et|done|done].
  - eapply rtc_r; [exact Hid|]. right. by exists i, c.
  - intros _. right. by exists i, c.
Qed.

Lemma children_tx fuel id l s s' :
  deep_spec fuel -> rtc (edge t0) root id ->
  (forall q, q ∈ l -> (exists i, refs t0 !! i = Some q) /\ r_ParentID q = id) ->
  iterM (fun r =>
    ignoreNotFound (DeleteReference (r_ID r)) ;;;
    l <- acc_List (fun c => c_ArtifactID c =? r_ChildID r) ;;
    deleteDeeply fuel (r_ChildID r) false (negb (bool_decide (l = [])))) l s = (Ok tt, s') ->
  ready A t0 s -> aborted s' = false -> deletes A (tb s) (tb s').
Proof.
  intros IH Hid Hl. apply iterM_deletes; [intros c; frame_tac|].
  intros q s1 s2 Hq E Hr Ha. destruct (Hl q Hq) as [[i Hi] Hp].
  pose proof (rd_tx _ _ _ Hr) as Htx.
  tx_step shrinks E as (u & s3 & E3 & E & Htx3 & Ha3 & _ & F3).
  assert (D3 : deletes A (tb s1) (tb s3)).
  { apply quiet_deletes. exact (frame_tb quiet_step _ _ _ _ (frame_ignoreNotFound _ (frame_DeleteReference _)) E3). }
  tx_step shrinks E as (k & s4 & E4 & E & Htx4 & Ha4 & _ & F4).
  pose proof (frame_tb eq _ _ _ _ (frame_acc_List _) E4) as Et.
  transitivity (tb s3); [done|]. rewrite Et. eapply (IH _ _ _ _ _ E); [|done|..].
  - apply (ready_step _ _ s3); [|by rewrite Et|done|done]. by apply (ready_step _ _ s1).
  - eapply rtc_r; [exact Hid|]. left. by exists i, q.
  - done.
Qed.

(** A deletion step keeps the connection ready. *)
Lemma ready_tx {B} (m : M db B) s r s1 :
  frame quiet_step m -> m s = (r, s1) -> ready A t0 s -> deletes A (tb s) (tb s1) /\ ready A t0 s1.
Proof.
  intros Hm E Hr. assert (D : deletes A (tb s) (tb s1)) by exact (quiet_deletes _ _ _ (frame_tb _ _ _ _ _ Hm E)).
  split; [done|]. eapply ready_step; [exact Hr|done| |exact (frame_faults _ _ _ _ _ Hm E)].
  rewrite (frame_mode _ _ _ _ _ Hm E). by apply Hr.
Qed.

(** A call that succeeds has left the artifact alone, or come to its removal. *)
Lemma deep_body fuel id (isRoot isAcc : bool) s s' :
  deep_spec fuel -> deleteDeeply (S fuel) id isRoot isAcc s = (Ok tt, s') -> ready A t0 s -> aborted s' = false ->
  rtc (edge t0) root id -> (isRoot = true -> id = root \/ is_accessory t0 id) ->
  (isRoot = false /\ deletes A (tb s) (tb s'))
  \/ exists a s1, A id /\ arts (tb s) !! id = Some (row (art a))
     /\ tag <$> Tags a = List.filter (fun g => t_ArtifactID g =? a_ID (row (art a))) (rows (tags (tb s)))
     /\ deletes A (tb s) (tb s1) /\ ready A t0 s1 /\ delete_artifact a isRoot s1 = (Ok tt, s').
Proof.
  intros IH E Hr Ha Hid Hroot.
  pose proof (rd_tx _ _ _ Hr) as Htx. pose proof (rd_deletes _ _ _ Hr) as D0. cbn [Artifact.deleteDeeply] in E.
  tx_step shrinks E as (ra & s1 & E1 & E & Htx1 & Ha1 & _ & F1). apply try_inv in E1.
  destruct (ready_tx _ _ _ _ (frame_Get _ _) E1 Hr) as [D1 Hr1].
  destruct ra as [a|e].
  2: { destruct isRoot; [done|]. simpl in E. destruct (IsErr e NotFoundCode); [|done]. injection E as <-. by left. }
  destruct (Get_tx _ _ _ _ E1 Htx Ha1) as (Et1 & Hart & Htags & Haccs & Hrefs).
  pose proof (k_arts _ (ready_keyed _ _ _ Hr) _ _ Hart) as Haid. rewrite Haid in Haccs, Hrefs.
  destruct (negb isRoot && negb (bool_decide (Tags a = []))) eqn:Eskip.
  { injection E as <-. left. split; [by destruct isRoot|done]. }
  assert (HA : A id).
  { split; [done|]. destruct isRoot; [destruct (Hroot eq_refl); auto|]. right. left.
    simpl in Eskip. case_bool_decide as HT; [|done]. pose proof Htags as Ht0. rewrite HT, Haid in Ht0.
    eapply untagged_before; [exact D0|by eexists|by symmetry]. }
  tx_step shrinks E as (ps & s2 & E2 & E & Htx2 & Ha2 & _ & F2).
  destruct (ready_tx _ _ _ _ (frame_ListReferences _) E2 Hr1) as [D2 Hr2].
  destruct ps as [|p ps].
  2: { destruct isRoot; [done|]. injection E as <-. left. split; [done|by transitivity (tb s1)]. }
  tx_step shrinks E as (u3 & s3 & E3 & E & Htx3 & Ha3 & _ & F3).
  assert (H3 : deletes A (tb s2) (tb s3) /\ ready A t0 s3) by (eapply ready_tx; [|exact E3|done]; frame_tac).
  destruct H3 as [D3 Hr3].
  tx_step shrinks E as ([] & s4 & E4 & E & Htx4 & Ha4 & _ & F4).
  assert (D4 : deletes A (tb s3) (tb s4)).
  { eapply (accessories_tx fuel id); [done|done| |exact E4|done|done].
    intros c Hc. destruct (Haccs c Hc) as [[i Hi] Hs]. split; [|done]. exists i.
    eapply lookup_weaken; [exact Hi|]. by apply D0. }
  pose proof (ready_step _ _ _ _ Hr3 D4 Htx4 F4) as Hr4.
  tx_step shrinks E as ([] & s5 & E5 & E & Htx5 & Ha5 & _ & F5).
  assert (D5 : deletes A (tb s4) (tb s5)).
  { eapply (children_tx fuel id); [done|done| |exact E5|done|done].
    intros q Hq. destruct (Hrefs q Hq) as [[i Hi] Hs]. split; [|done]. exists i.
    eapply lookup_weaken; [exact Hi|]. by apply D0. }
  right. exists a, s5. split; [done|]. split; [done|]. split; [done|]. split; [|split; [|done]].
  - transitivity (tb s1); [done|]. transitivity (tb s2); [done|]. transitivity (tb s3); [done|].
    by transitivity (tb s4).
  - by eapply ready_step.
Qed.

Lemma deleteDeeply_tx fuel : deep_spec fuel.
Proof.
  induction fuel as [|fuel IH]; intros id isRoot isAcc s s' E Hr Ha Hid Hroot; [done|].
  destruct (deep_body _ _ _ _ _ _ IH E Hr Ha Hid Hroot) as [[-> D]|(a & s5 & HA & Hart & Htags & D & Hr5 & E5)]; [done|].
  pose proof (k_arts _ (ready_keyed _ _ _ Hr) _ _ Hart) as Haid.
  destruct (delete_artifact_tx A a isRoot s5 s' E5 (rd_tx _ _ _ Hr5) Ha (rd_faults _ _ _ Hr5)) as [D6 Hgone].
  - by rewrite Haid.
  - rewrite Haid. intros r Hr'. eapply lookup_weaken in Hr'; [|apply D]. congruence.
  - intros g i h. eapply tags_of_art; [exact (ready_keyed _ _ _ Hr)|exact (dl_shrinks _ _ _ D)|exact Htags].
  - split; [by transitivity (tb s5)|]. by rewrite <- Haid.
Qed.
End Deeply.

(** ** Deletion of a root *)

Lemma frame_guard {R} `{!PreOrder R} l : frame R (attestation_guard l).
Proof. induction l as [|c l IH]; simpl; frame_tac. Qed.

(** A deletion that fails changes nothing. *)
Lemma Delete_err fuel id s e s' : Delete fuel id s = (Err e, s') -> tb s' = tb s.
Proof.
  unfold Artifact.Delete, bind. destruct (acc_List _ s) as [[l|e1] s1] eqn:E1.
  all: rewrite (frame_tb eq _ _ _ _ (frame_acc_List _) E1).
  2: { by intros [= _ <-]. }
  destruct (attestation_guard l s1) as [[u|e2] s2] eqn:E2.
  all: rewrite (frame_tb eq _ _ _ _ (frame_guard l) E2).
  2: { by intros [= _ <-]. }
  apply WithTransaction_err.
Qed.

(** The transaction of a deletion that succeeds. *)
Lemma Delete_ok fuel id s s' :
  Delete fuel id s = (Ok tt, s') -> keyed (tb s) -> no_conflict (c_faults s) ->
  exists isAcc s1 s2, tb s1 = tb s /\ ready (removable (tb s) id) (tb s) s1
    /\ deleteDeeply fuel id true isAcc s1 = (Ok tt, s2) /\ aborted s2 = false /\ tb s' = tb s2.
Proof.
  intros E Hk Hnc. apply bind_inv in E as (l & s1 & E1 & E). apply bind_inv in E as (u & s2 & E2 & E).
  apply WithTransaction_ok in E as (s3 & s4 & Eb & Ef & Ha & -> & _).
  pose proof (begin_faults s2) as F3. rewrite Eb in F3. simpl in F3.
  destruct (begin_mode _ _ _ Eb) as (T3 & X3 & _).
  pose proof (frame_tb eq _ _ _ _ (frame_acc_List _) E1) as T1. pose proof (frame_tb eq _ _ _ _ (frame_guard l) E2) as T2.
  eexists _, s3, s4. split; [congruence|]. split; [|done]. split; [done| |done|].
  - eapply no_conflict_suffix; [exact Hnc|]. etrans; [exact F3|].
    etrans; [exact (frame_faults eq _ _ _ _ (frame_guard l) E2)|exact (frame_faults eq _ _ _ _ (frame_acc_List _) E1)].
  - by rewrite T3, <- T2, <- T1.
Qed.

(** C3: a deletion that succeeds removes the artifact, and with it only
    artifacts that it reaches by references and accessories and that are
    untagged or accessories; every artifact removed is left to the garbage
    collector in the trash, and a tag disappears only with its artifact.  No
    failure of the database on the way changes this. *)
Theorem delete_protects fuel id s s' :
  Delete fuel id s = (Ok tt, s') -> keyed (tb s) -> no_conflict (c_faults s) ->
  arts (tb s') !! id = None
  /\ (forall i a, arts (tb s) !! i = Some a -> arts (tb s') !! i = None ->
        rtc (edge (tb s)) id i /\ (i = id \/ untagged (tb s) i \/ is_accessory (tb s) i)
        /\ in_trash (a_RepositoryName a) (a_Digest a) (tb s') = true)
  /\ (forall i g, tags (tb s) !! i = Some g -> tags (tb s') !! i = None -> arts (tb s') !! t_ArtifactID g = None).
Proof.
  intros E Hk Hnc. destruct (Delete_ok _ _ _ _ E Hk Hnc) as (isAcc & s1 & s2 & T1 & Hr & E1 & Ha & ->).
  destruct (deleteDeeply_tx _ _ fuel _ _ _ _ _ E1 Hr Ha) as [D Hgone]; [reflexivity|by left|].
  rewrite T1 in D. split; [by apply Hgone|]. split; [|by apply D].
  intros i a Hi Hn. destruct (dl_arts _ _ _ D i a Hi Hn) as [[H1 H2] H3]. done.
Qed.

(** ** Immutable tags *)

(** The rules of the project protect the tag, at any time. *)
Definition protected (t : tables) (a : ArtRow) (g : TagRow) : Prop := forall now,
  Retention.Match sort_by now doublestar_Match parse_untagged (default [] (immutable_rules t !! a_ProjectID a))
    (candidate_of (ParseRepository (a_RepositoryName a)).2 (t_Name g) (a_ProjectID a)) = Ok true.

Lemma art_Get_tx id s r s' a :
  art_Get id s = (r, s') -> in_tx s = true -> aborted s' = false -> arts (tb s) !! id = Some a ->
  exists b, r = Ok b /\ row b = a.
Proof.
  intros E Htx Ha Hid. unfold art_Get, art_dao_Get in E. unfold bind at 1 2 in E.
  destruct (select (fun t => arts t !! id) s) as [r1 s1] eqn:E1.
  assert (Hq : frame eq (assemble a)) by apply frame_assemble.
  pose proof (frame_mode eq _ _ _ _ (frame_select _ _) E1) as Htx1. rewrite Htx in Htx1.
  destruct r1 as [o|e].
  2: { injection E as <- <-. by destruct (select_in_tx _ _ _ _ E1 Htx Ha) as [? _]. }
  assert (Ha1 : aborted s1 = false).
  { destruct o as [d|]; [|by injection E as <- <-]. exact (frame_back eq _ _ _ _ (frame_assemble _) E Ha). }
  destruct (select_in_tx _ _ _ _ E1 Htx Ha1) as [[= ->] _]. rewrite Hid in E. cbn in E.
  unfold assemble in E. destruct (IsImageIndex a); [|injection E as <- _; eauto].
  unfold bind in E. destruct (ListReferences _ s1) as [[l|e] s2] eqn:E2; injection E as <- <-; [eauto|].
  by destruct (select_in_tx _ _ _ _ E2 Htx1 Ha) as [? _].
Qed.

(** In a transaction that goes on, a protected tag is seen as immutable. *)
Lemma populateImmutableStatus_tx g s h s' a :
  populateImmutableStatus g s = (Ok h, s') -> in_tx s = true -> aborted s' = false ->
  arts (tb s) !! t_ArtifactID g = Some a -> protected (tb s) a g -> Immutable h = true.
Proof.
  intros E Htx Ha Hart Hp. unfold Artifact.populateImmutableStatus, Match in E.
  tx_step (@eq tables) E as (ra & s1 & E1 & E & Htx1 & Ha1 & Et1 & _). apply try_inv in E1.
  destruct (art_Get_tx _ _ _ _ _ E1 Htx Ha1 Hart) as (b & -> & Hb). rewrite Hb in E.
  tx_step (@eq tables) E as (rm & s2 & E2 & E & Htx2 & Ha2 & Et2 & _). apply try_inv in E2.
  assert (rm = Ok true) as ->; [|by injection E as <- _].
  unfold bind in E2. destruct (select _ s1) as [r3 s3] eqn:E3.
  assert (Ha3 : aborted s3 = false) by (destruct r3; [|by injection E2 as <- <-]; by injection E2 as <- <-).
  destruct (select_in_tx _ _ _ _ E3 Htx1 Ha3) as [-> _]. injection E2 as <- _.
  rewrite <- Et1. apply Hp.
Qed.

(** Neither [Delete] of the tag controller nor [DeleteTags] gets past a
    protected tag. *)
Lemma tag_Delete_protected s s' i g a :
  tag_Delete i s = (Ok tt, s') -> in_tx s = true -> aborted s' = false ->
  tags (tb s) !! i = Some g -> arts (tb s) !! t_ArtifactID g = Some a -> protected (tb s) a g -> False.
Proof.
  intros E Htx Ha Hg Hart Hp. unfold Artifact.tag_Delete, tag_Get, assembleTag in E.
  tx_step shrinks E as (h & s1 & E1 & E & Htx1 & Ha1 & _ & _).
  tx_step (@eq tables) E1 as (g' & s2 & E2 & E1 & Htx2 & Ha2 & Et & _).
  apply bind_inv in E2 as (o & s3 & E2 & E3). pose proof (call_ok _ _ _ _ E2) as ([= <- _ _] & _).
  rewrite Hg in E3. injection E3 as <- <-.
  rewrite (populateImmutableStatus_tx _ _ _ _ a E1 Htx2 Ha1) in E; [done|..]; by rewrite <- Et.
Qed.

Lemma DeleteTags_protected ids s s' i g a :
  DeleteTags ids s = (Ok tt, s') -> in_tx s = true -> aborted s' = false -> i ∈ ids ->
  tags (tb s) !! i = Some g -> arts (tb s) !! t_ArtifactID g = Some a -> protected (tb s) a g -> False.
Proof.
  revert s. induction ids as [|j ids IH]; intros s E Htx Ha Hi Hg Hart Hp; [by apply elem_of_nil in Hi|].
  cbn [Artifact.DeleteTags iterM] in E. fold (DeleteTags ids) in E.
  tx_step shrinks E as ([] & s1 & E1 & E & Htx1 & Ha1 & R1 & _).
  destruct (decide (i = j)) as [->|Hne]; [by eapply tag_Delete_protected|].
  destruct (frame_tb _ _ _ _ _ (frame_tag_Delete_only j [j] ltac:(by left)) E1) as (H1 & H2 & H3).
  apply (IH s1); [done|done|done|set_solver| |by rewrite H1|].
  - destruct (tags (tb s1) !! i) as [h|] eqn:Eh; [eapply lookup_weaken in Eh; [|exact H2]; congruence|].
    specialize (H3 i g Hg Eh). set_solver.
  - intros now. rewrite (sh_rules _ _ R1). apply Hp.
Qed.

(** The removal of a root finds it present, and none of its tags protected. *)
Lemma delete_artifact_root b s s' :
  let id := a_ID (row (art b)) in
  delete_artifact b true s = (Ok tt, s') -> in_tx s = true -> aborted s' = false ->
  is_Some (arts (tb s) !! id)
  /\ forall i g a, i ∈ ((fun g => t_ID (tag g)) <$> Tags b) -> tags (tb s) !! i = Some g -> t_ArtifactID g = id ->
     arts (tb s) !! id = Some a -> protected (tb s) a g -> False.
Proof.
  intros id E Htx Ha. unfold Artifact.delete_artifact in E. fold id in E.
  tx_step shrinks E as ([] & s1 & E1 & E & Htx1 & Ha1 & R1 & _).
  tx_step shrinks E as (u2 & s2 & E2 & E & Htx2 & Ha2 & R2 & _).
  tx_step shrinks E as (r & s3 & E3 & E & Htx3 & Ha3 & _ & _).
  apply try_inv in E3. destruct (art_Delete_tx _ _ _ _ E3 Htx2 Ha3) as (_ & _ & H3).
  destruct r as [u3|e]; [|done]. destruct H3 as [_ [a Ha']]. split.
  - eapply lookup_weaken in Ha'; [|apply R2]. eapply lookup_weaken in Ha'; [|apply R1]. eauto.
  - intros i g b' Hi Hg Hid Hb Hp. eapply (DeleteTags_protected _ s s1 i g b' E1 Htx Ha1); [done|done|by rewrite Hid|done].
Qed.

(** C13: an artifact with a tag that a rule of its project makes immutable
    cannot be deleted, whatever fails on the way: [Delete] gives an error and
    leaves the tables as they were. *)
Theorem immutable_tag_blocks_delete fuel id s i g a :
  keyed (tb s) -> no_conflict (c_faults s) -> arts (tb s) !! id = Some a ->
  tags (tb s) !! i = Some g -> t_ArtifactID g = id -> protected (tb s) a g ->
  exists e s', Delete fuel id s = (Err e, s') /\ tb s' = tb s.
Proof.
  intros Hk Hnc Hart Hg Hid Hp. destruct (Delete fuel id s) as [[[]|e] s'] eqn:E.
  2: { exists e, s'. split; [done|by eapply Delete_err]. }
  exfalso. destruct (Delete_ok _ _ _ _ E Hk Hnc) as (isAcc & s1 & s2 & T1 & Hr & E1 & Ha & _).
  destruct fuel as [|fuel]; [done|].
  destruct (deep_body _ _ _ _ _ _ _ _ (deleteDeeply_tx _ _ fuel) E1 Hr Ha) as
    [[? _]|(b & s3 & _ & Hb & Htags & D & Hr3 & E3)]; [reflexivity|by left|done|].
  rewrite T1 in Hb, Htags, D. assert (Hrow : row (art b) = a) by congruence.
  destruct (delete_artifact_root _ _ _ E3 (rd_tx _ _ _ Hr3) Ha) as [[a' Hpres] Hnone].
  rewrite Hrow, (k_arts _ Hk _ _ Hart) in Hpres, Hnone, Htags.
  assert (a' = a) as -> by (eapply lookup_weaken in Hpres; [|apply D]; congruence).
  apply (Hnone i g a); [|  |done|done|].
  - assert (Hin : g ∈ tag <$> Tags b).
    { rewrite Htags. apply elem_of_rows_filter. split; [by exists i|]. by apply Z.eqb_eq. }
    apply list_elem_of_fmap in Hin as (x & -> & Hx). apply list_elem_of_fmap. exists x. split; [|done].
    symmetry. apply (k_tags _ Hk _ _ Hg).
  - destruct (tags (tb s3) !! i) as [h|] eqn:Eh; [eapply lookup_weaken in Eh; [|apply D]; congruence|].
    pose proof (dl_tags _ _ _ D i g Hg Eh). congruence.
  - intros now. rewrite (sh_rules _ _ (dl_shrinks _ _ _ D)). apply Hp.
Qed.
End Operations.

(** ** Witnesses *)

(** The tests of [keyed] on finite tables. *)
Definition keyed_b (t : tables) : bool :=
  bool_decide (map_Forall (fun i a => a_ID a = i) (arts t))
  && bool_decide (map_Forall (fun i r => r_ID r = i) (refs t))
  && bool_decide (map_Forall (fun i g => t_ID g = i) (tags t)).

Lemma keyed_b_ok t : keyed_b t = true -> keyed t.
Proof.
  unfold keyed_b. intros H. apply andb_prop in H as [H H3]. apply andb_prop in H as [H1 H2].
  apply bool_decide_eq_true in H1, H2, H3. done.
Qed.

(** An index with two images, the second one tagged, and a signature of the
    first. *)
Definition sample_art (id : Z) (media digest : string) : ArtRow :=
  mkArtRow id "IMAGE" media media "" 1 1 "library/app" digest 10 "" 0 0.
Definition image_type : string := "application/vnd.oci.image.manifest.v1+json".

Definition sample_tables (rules : list Retention.ImmutableRule) : tables :=
  mkTables
    {[1 := sample_art 1 MediaTypeImageIndex "sha256:i"; 2 := sample_art 2 image_type "sha256:a";
      3 := sample_art 3 image_type "sha256:b"; 4 := sample_art 4 image_type "sha256:s"]}
    {[1 := mkReference 1 1 2 "sha256:a"; 2 := mkReference 2 1 3 "sha256:b"]}
    {[1 := mkTagRow 1 1 1 "dev" 0 0; 2 := mkTagRow 2 1 3 "v3" 0 0]}
    {[1 := mkAccessory 1 4 2 "library/app" "sha256:a" 10 "sha256:s" TypeCosignSignature]}
    ∅ ∅ {[1 := mkRepo 1 "library/app" 1 0]} {["library" := mkProject 1 0]} {[1 := rules]}
    (Blob.mkStore ∅ 1 ∅ ∅ [] ∅ ∅ ∅ []).

Definition sample_db (rules : list Retention.ImmutableRule) (faults : list (option error)) : db :=
  mkConn (sample_tables rules) (mkRequest 5 3 3 2 1 100 [] None) false false faults.

Lemma no_conflict_nil : no_conflict [].
Proof. intros e He. by apply elem_of_nil in He. Qed.

(** The index goes with the first image and its signature; the tagged image
    stays. *)
Lemma delete_protects_witness :
  exists s', Delete Retention.sample_Match Retention.sample_parse Retention.sample_sort 8 1 (sample_db [] [])
             = (Ok tt, s')
  /\ (map_to_list (arts (tb s'))).*1 = [3] /\ arts (tb s') !! 1 = None
  /\ in_trash "library/app" "sha256:s" (tb s') = true.
Proof.
  eexists. split; [vm_compute; reflexivity|]. split; [vm_compute; reflexivity|].
  edestruct (delete_protects Retention.sample_Match Retention.sample_parse Retention.sample_sort 8 1 (sample_db [] []))
    as (H1 & H2 & _).
  - vm_compute. reflexivity.
  - apply keyed_b_ok. vm_compute. reflexivity.
  - apply no_conflict_nil.
  - split; [exact H1|]. apply (H2 4 (sample_art 4 image_type "sha256:s")); vm_compute; reflexivity.
Defined.

Lemma immutable_tag_blocks_delete_witness :
  exists e s', Delete Retention.sample_Match Retention.sample_parse Retention.sample_sort 8 1
                 (sample_db [Retention.sample_immutable] []) = (Err e, s')
               /\ tb s' = sample_tables [Retention.sample_immutable].
Proof.
  apply (immutable_tag_blocks_delete Retention.sample_Match Retention.sample_parse Retention.sample_sort 8 1
           (sample_db [Retention.sample_immutable] []) 1 (mkTagRow 1 1 1 "dev" 0 0)
           (sample_art 1 MediaTypeImageIndex "sha256:i")).
  - apply keyed_b_ok. vm_compute. reflexivity.
  - apply no_conflict_nil.
  - reflexivity.
  - reflexivity.
  - reflexivity.
  - intros now. vm_compute. reflexivity.
Defined.
