(* ===== verification/ArtifactFuel.v ===== *)
(** * The recursion of a deletion ends

    [deleteDeeply] follows references and accessories, and an artifact can be
    an accessory of an accessory of itself.  Its depth is bounded all the same:
    an accessory drops its own accessory rows, and a parent the reference row,
    before the recursion goes on. *)

From S2P Require Import Prelude Errors Orm ArtifactDb Artifact ArtifactDelete.
From S2P Require Blob.
From S2P Require Retention.

(** ** Errors other than exhausted fuel *)

Definition faults_ok (fs : list (option error)) : Prop := Some OutOfFuel ∉ fs.

Lemma faults_ok_suffix fs gs : faults_ok fs -> gs `suffix_of` fs -> faults_ok gs.
Proof. intros H [k ->] Hin. apply H, elem_of_app. by right. Qed.

(** The operation does not run out of fuel. *)
Definition safe {A} (m : M db A) : Prop := forall s,
  faults_ok (c_faults s) -> (m s).1 <> Err OutOfFuel /\ faults_ok (c_faults (m s).2).

Lemma safe_ret {A} (a : A) : safe (ret a).
Proof. by intros s. Qed.

Lemma safe_fail {A} e : e <> OutOfFuel -> safe (@fail db A e).
Proof. intros He s Hs. split; [|done]. simpl. congruence. Qed.

Lemma safe_of_result {A} (r : result A) : r <> Err OutOfFuel -> safe (of_result r).
Proof. by intros H s. Qed.

Lemma safe_bind {A B} (m : M db A) (k : A -> M db B) : safe m -> (forall a, safe (k a)) -> safe (bind m k).
Proof.
  intros Hm Hk s Hs. unfold bind. destruct (Hm s Hs) as [H1 H2]. destruct (m s) as [[a|e] s1]; simpl in *.
  - by apply Hk.
  - split; [congruence|done].
Qed.

(** An error kept as a value is not exhausted fuel. *)
Lemma safe_bind_try {A B} (m : M db A) (k : result A -> M db B) :
  safe m -> (forall r, r <> Err OutOfFuel -> safe (k r)) -> safe (bind (try m) k).
Proof.
  intros Hm Hk s Hs. unfold bind, try. destruct (Hm s Hs) as [H1 H2]. destruct (m s) as [r s1]; simpl in *.
  by apply Hk.
Qed.

Lemma safe_map_err {A} f (m : M db A) : (forall e, e <> OutOfFuel -> f e <> OutOfFuel) -> safe m -> safe (map_err f m).
Proof.
  intros Hf Hm s Hs. unfold map_err. destruct (Hm s Hs) as [H1 H2]. destruct (m s) as [[a|e] s1]; simpl in *; [done|].
  split; [|done]. intros [= E]. apply (Hf e); [congruence|done].
Qed.

Lemma safe_mapM {A B} (f : A -> M db B) l : (forall a, safe (f a)) -> safe (mapM f l).
Proof.
  intros Hf. induction l as [|a l IH]; simpl; [apply safe_ret|].
  apply safe_bind; [done|]. intros b. apply safe_bind; [done|]. intros bs. apply safe_ret.
Qed.

Lemma safe_iterM {A} (f : A -> M db unit) l : (forall a, safe (f a)) -> safe (iterM f l).
Proof. intros Hf. induction l as [|a l IH]; simpl; [apply safe_ret|]. by apply safe_bind. Qed.

Lemma safe_call {A} (f : tables -> request -> result (A * tables) * request) :
  (forall t x, (f t x).1 <> Err OutOfFuel) -> safe (call f).
Proof.
  intros Hf s Hs. split.
  - destruct (call f s) as [[a|e] s'] eqn:E; [done|]. simpl. intros [= ->].
    apply call_err_cause in E as [E|[E|E]]; [done|done|by apply Hf in E].
  - eapply faults_ok_suffix; [exact Hs|apply call_faults].
Qed.

Lemma safe_select {A} (f : tables -> A) : safe (select f).
Proof. apply safe_call. done. Qed.

Lemma safe_update {A} (f : tables -> A * tables) : safe (update f).
Proof. apply safe_call. done. Qed.

Lemma safe_WithTransaction {A} (m : M db A) :
  (forall s, c_faults (m s).2 `suffix_of` c_faults s) -> safe m -> safe (WithTransaction m).
Proof.
  intros Hm Hsafe s Hs. split.
  - destruct (WithTransaction m s) as [[a|e] s'] eqn:E; [done|]. simpl. intros [= ->].
    apply WithTransaction_err_cause in E as [E|[E|[E|(s1 & Eb & E)]]]; [done|done|done| |done].
    destruct (Hsafe s1) as [H _]; [|exact (H E)]. eapply faults_ok_suffix; [exact Hs|].
    pose proof (begin_faults s) as H. by rewrite Eb in H.
  - eapply faults_ok_suffix; [exact Hs|by apply WithTransaction_faults].
Qed.

Lemma safe_lift_blob {A} (m : M Blob.store A) :
  (forall b, faults_ok (Blob.faults b) -> (m b).1 <> Err OutOfFuel /\ faults_ok (Blob.faults (m b).2)) ->
  safe (lift_blob m).
Proof.
  intros Hm s Hs. unfold lift_blob. destruct (aborted s).
  - destruct (Hm (blob_view (tb s) [Some InFailedTransaction])) as [H _].
    { intros H. by apply list_elem_of_singleton in H. }
    by destruct (m _) as [[a|e] b].
  - destruct (Hm (blob_view (tb s) (c_faults s)) Hs) as [H1 H2]. destruct (m _) as [[a|e] b]; simpl in *; [done|].
    split; [congruence|done].
Qed.

Lemma conflict_ok e m : e <> OutOfFuel -> WrapConflictError e m <> OutOfFuel.
Proof. unfold WrapConflictError, AsConflictError. by destruct (IsDuplicateKeyError e). Qed.

Lemma foreign_ok e m : e <> OutOfFuel -> default e (AsForeignKeyError e m) <> OutOfFuel.
Proof. unfold AsForeignKeyError. by destruct (isViolatingForeignKeyConstraintError e). Qed.

#[export] Hint Resolve safe_ret safe_select safe_update conflict_ok foreign_ok : orm.

Ltac safe_step :=
  match goal with
  | |- safe (bind (try _) _) => apply safe_bind_try; [|intros ? ?]
  | |- safe (bind _ _) => apply safe_bind; [|intros ?]
  | |- safe (fail _) => apply safe_fail; first [done | congruence]
  | |- safe (of_result _) => apply safe_of_result
  | |- safe (map_err _ _) => apply safe_map_err; [by auto with orm|]
  | |- safe (mapM _ _) => apply safe_mapM; intros ?
  | |- safe (iterM _ _) => apply safe_iterM; intros ?
  | |- safe (select _) => apply safe_select
  | |- safe (update _) => apply safe_update
  | |- safe Now => by intros ? ?
  | |- safe (AddEvent _) => by intros ? ?
  | |- safe (if ?b then _ else _) => destruct b
  | |- safe (match ?x with _ => _ end) => destruct x
  end.
Ltac safe_tac := repeat first [solve [auto with orm] | safe_step].

Lemma acc_models_safe l : acc_models l <> Err OutOfFuel.
Proof.
  induction l as [|c l IH]; simpl; [done|]. unfold acc_New. destruct (existsb _ _); [|done].
  by destruct (acc_models l).
Qed.

Lemma safe_acc_List p : safe (acc_List p).
Proof. unfold acc_List, acc_dao_List. safe_tac. apply acc_models_safe. Qed.

Lemma safe_art_dao_Get id : safe (art_dao_Get id).
Proof. unfold art_dao_Get. safe_tac. Qed.

Lemma safe_art_Get id : safe (art_Get id).
Proof. unfold art_Get, art_dao_Get, assemble, ListReferences. safe_tac. Qed.

Lemma safe_inherited ps : safe (inherited ps).
Proof. induction ps as [|p ps IH]; simpl; safe_tac. apply safe_acc_List. Qed.

Lemma safe_touchRepo id : safe (touchRepo id).
Proof. unfold touchRepo, Touch. safe_tac. Qed.

Lemma safe_ignoreNotFound m : safe m -> safe (ignoreNotFound m).
Proof. intros H. unfold ignoreNotFound. safe_tac. Qed.

Lemma safe_art_Delete id : safe (art_Delete id).
Proof.
  unfold art_Delete, DeleteReferences, art_dao_Delete, delete_stmt. safe_tac; [apply safe_art_dao_Get|].
  apply safe_call. intros t x. destruct (arts t !! id); [|done]. by destruct (art_in_use id t).
Qed.

#[export] Hint Resolve safe_acc_List safe_art_dao_Get safe_art_Get safe_inherited safe_touchRepo safe_ignoreNotFound
  safe_art_Delete : orm.

(** The blob operations of a deletion. *)
Lemma safe_blob_io {A} (f : M Blob.store A) b :
  (forall st, (f st).1 <> Err OutOfFuel) -> (forall st, Blob.faults (f st).2 = Blob.faults st) ->
  faults_ok (Blob.faults b) -> (io f b).1 <> Err OutOfFuel /\ faults_ok (Blob.faults (io f b).2).
Proof.
  intros Hf Hfs Hb. unfold io, next_fault, Blob.store_faulty.
  destruct (Blob.faults b) as [|[e|] fs] eqn:E; simpl.
  - rewrite Hfs, E. done.
  - split; [intros [= ->]; apply Hb; by left|]. intros H. apply Hb. by right.
  - rewrite Hfs. simpl. split; [done|]. intros H. apply Hb. by right.
Qed.

Lemma safe_blobs_of d : safe (blobs_of d).
Proof. apply safe_lift_blob. intros b. by apply safe_blob_io. Qed.

Lemma safe_Cleanup p bs : safe (CleanupAssociationsForProject p bs).
Proof.
  apply safe_lift_blob. intros b Hb. unfold Blob.CleanupAssociationsForProject.
  destruct bs as [|c bs]; [done|]. unfold Blob.FindBlobsShouldUnassociatedWithProject, bind, Blob.query.
  match goal with |- context [io ?f b] =>
    destruct (safe_blob_io f b) as [H1 H2]; [done|done|done|]; destruct (io f b) as [[a|e] b1] end.
  - simpl in *. destruct (Blob.ID <$> _); [done|]. by apply safe_blob_io.
  - simpl in *. split; [congruence|done].
Qed.

Lemma safe_trash_Create r d : safe (trash_Create r d).
Proof.
  unfold trash_Create, insert_stmt. safe_tac. apply safe_call. intros t x. cbn zeta. by destruct (in_trash r d t).
Qed.

Lemma safe_bury a isRoot : safe (bury a isRoot).
Proof.
  unfold bury. safe_tac; try first [apply safe_blobs_of | apply safe_Cleanup].
  apply safe_WithTransaction; [|apply safe_trash_Create].
  intros s. by destruct (frame_trash_Create (a_RepositoryName (row (art a))) (a_Digest (row (art a))) s) as (_ & _ & H & _).
Qed.

Section Recursion.
Context (doublestar_Match : string -> string -> result bool).
Context (parse_untagged : string -> option bool).
Context (sort_by : (Retention.Candidate -> Z) -> list Retention.Candidate -> list Retention.Candidate).

Abbreviation deleteDeeply := (deleteDeeply doublestar_Match parse_untagged sort_by).
Abbreviation Delete := (Delete doublestar_Match parse_untagged sort_by).

Lemma safe_populateImmutableStatus g :
  safe (populateImmutableStatus doublestar_Match parse_untagged sort_by g).
Proof.
  unfold populateImmutableStatus. apply safe_bind_try; [apply safe_art_Get|]. intros [a|e] _; [|apply safe_ret].
  intros s Hs. unfold bind, try, Match, Artifact.Match. unfold bind.
  destruct (safe_select (fun t => default [] (immutable_rules t !! a_ProjectID (row a))) s Hs) as [H1 H2].
  destruct (select _ s) as [[l|e] s1]; simpl in *; [|done].
  by destruct (Retention.Match _ _ _ _ _ _).
Qed.

Lemma safe_Get id o : safe (Get doublestar_Match parse_untagged sort_by id o).
Proof.
  unfold Get, assembleArtifact, populateTags, populateLabels, populateAccessories, ListByArtifact, tag_List,
    tag_dao_List, ListReferences, assembleTag. safe_tac. apply safe_populateImmutableStatus.
Qed.

Lemma safe_delete_artifact a isRoot :
  safe (delete_artifact doublestar_Match parse_untagged sort_by a isRoot).
Proof.
  unfold delete_artifact, DeleteTags, tag_Delete, tag_Get, tag_dao_Get, tag_dao_Delete, assembleTag, RemoveAllFrom.
  safe_tac; first [apply safe_populateImmutableStatus | apply safe_bury].
Qed.

(** ** The measure *)

(** Every call either drops a row or is one of an accessory that still has its
    row and drops it. *)
Definition rows_left (t : tables) : nat := (size (refs t) + size (accs t))%nat.

Definition has_row (t : tables) (id : Z) : bool := existsb (fun c => c_ArtifactID c =? id) (rows (accs t)).

Definition bound (t : tables) (id : Z) (isAcc : bool) : nat :=
  (2 * rows_left t + if isAcc && has_row t id then 0 else 1)%nat.

(** An accessory row carries the digest of its artifact. *)
Definition acc_digests (t : tables) : Prop := forall i c a,
  accs t !! i = Some c -> arts t !! c_ArtifactID c = Some a -> c_Digest c = a_Digest a.

Lemma acc_digests_shrinks t t' : acc_digests t -> shrinks t t' -> acc_digests t'.
Proof. intros H [] i c a Hc Ha. eapply H; by eapply lookup_weaken. Qed.

Lemma rows_left_shrinks t t' : shrinks t t' -> (rows_left t' <= rows_left t)%nat.
Proof. intros []. unfold rows_left. apply map_subseteq_size in sh_refs, sh_accs. lia. Qed.

(** A row that is gone counts. *)
Lemma size_drop {B} (m m' : gmap Z B) i x : m' ⊆ m -> m !! i = Some x -> m' !! i = None -> (size m' < size m)%nat.
Proof.
  intros Hs Hi Hn. assert (H : m' ⊆ delete i m).
  { apply map_subseteq_spec. intros j y Hj. rewrite lookup_delete_ne; [by eapply lookup_weaken|]. intros ->. congruence. }
  apply map_subseteq_size in H. pose proof (map_size_delete_Some i m ltac:(by eexists)).
  assert (size m <> 0%nat); [|lia]. intros E. apply map_size_empty_iff in E as ->. by rewrite lookup_empty in Hi.
Qed.

(** What the calls with some fuel need. *)
Definition fuel_spec (f : nat) : Prop := forall id isRoot isAcc s,
  faults_ok (c_faults s) -> in_tx s = true -> keyed (tb s) -> acc_digests (tb s) ->
  (bound (tb s) id isAcc < f)%nat -> (deleteDeeply f id isRoot isAcc s).1 <> Err OutOfFuel.

Section Loops.
Context (f : nat) (IH : fuel_spec f) (ts : tables).
Context (Hkeyed : keyed ts) (Hdig : acc_digests ts).

(** In the loops of a call that read its lists from [ts]: the transaction is
    aborted, or there is fuel for the calls to come. *)
Definition room (s : db) : Prop :=
  faults_ok (c_faults s) /\ in_tx s = true
  /\ (aborted s = true
      \/ shrinks ts (tb s) /\ (2 * rows_left (tb s) + 1 < f \/ 2 * rows_left ts < f)%nat).

Lemma room_frame {A} (m : M db A) s r s' : frame shrinks m -> m s = (r, s') -> room s -> room s'.
Proof.
  intros Hm E (H1 & H2 & H3).
  split; [eapply faults_ok_suffix; [exact H1|exact (frame_faults _ _ _ _ _ Hm E)]|].
  split; [by rewrite (frame_mode _ _ _ _ _ Hm E)|]. destruct (aborted s') eqn:Ha'; [by left|right].
  destruct H3 as [H3|[H3 H4]]; [by rewrite (frame_back _ _ _ _ _ Hm E Ha') in H3|].
  pose proof (frame_tb _ _ _ _ _ Hm E) as R. split; [by transitivity (tb s)|].
  apply rows_left_shrinks in R. lia.
Qed.

Lemma room_iterM {B} (g : B -> M db unit) l s :
  (forall x, frame shrinks (g x)) -> (forall x s, x ∈ l -> room s -> (g x s).1 <> Err OutOfFuel) ->
  room s -> (iterM g l s).1 <> Err OutOfFuel.
Proof.
  intros Hf Hg. revert s. induction l as [|x l IHl]; intros s Hs; [done|]. cbn [iterM]. unfold bind.
  pose proof (Hg x s ltac:(by left) Hs) as H1.
  destruct (g x s) as [[u|e] s1] eqn:E; simpl in *; [|congruence].
  apply IHl; [|by eapply room_frame]. intros y s2 Hy. apply Hg. by right.
Qed.

(** A call after a query that succeeded. *)
Lemma room_call {B} (q : M db B) (k : B -> Z * bool * bool) s :
  safe q -> frame eq q -> (aborted s = true -> exists e, (q s).1 = Err e) ->
  (forall b, (q s).1 = Ok b -> shrinks ts (tb s) ->
     (2 * rows_left (tb s) + 1 < f \/ 2 * rows_left ts < f)%nat -> (bound (tb s) (k b).1.1 (k b).2 < f)%nat) ->
  room s -> (bind q (fun b => deleteDeeply f (k b).1.1 (k b).1.2 (k b).2) s).1 <> Err OutOfFuel.
Proof.
  intros Hsafe Hq Hab Hb (H1 & H2 & H3). unfold bind. destruct (Hsafe s H1) as [S1 S2].
  destruct (Hq s) as (Q1 & _ & _ & Q4). destruct (q s) as [[b|e] s1]; simpl in *; [|congruence].
  destruct H3 as [H3|[H3 H4]]; [by destruct (Hab H3)|]. rewrite Q4 in H3.
  apply IH; [done|congruence|by eapply keyed_shrinks|by eapply acc_digests_shrinks|].
  rewrite <- Q4. apply Hb; [done|by rewrite Q4|done].
Qed.

Lemma accessories_fuel l s :
  (forall c, c ∈ l -> exists i, accs ts !! i = Some c) -> room s ->
  (iterM (fun acc =>
    if IsHard acc then
      ps <- ListReferences (has_child (c_ArtifactID acc)) ;;
      deleteDeeply f (c_ArtifactID acc) (bool_decide (ps = [])) true
    else ret tt) l s).1 <> Err OutOfFuel.
Proof.
  intros Hl. apply room_iterM; [intros c; frame_tac; apply frame_deleteDeeply|].
  intros c s1 Hc Hs. destruct (IsHard c); [|done].
  apply (room_call (ListReferences (has_child (c_ArtifactID c)))
           (fun ps => (c_ArtifactID c, bool_decide (ps = []), true))); [unfold ListReferences; safe_tac|apply frame_ListReferences| | |done].
  - intros Ha. eexists. unfold ListReferences, select. by rewrite call_aborted.
  - intros ps _ Hsh Hroom. simpl. unfold bound. destruct (Hl c Hc) as [i Hi].
    destruct (accs (tb s1) !! i) as [c'|] eqn:Ei.
    + assert (c' = c) as -> by (eapply lookup_weaken in Ei; [|apply Hsh]; congruence).
      replace (has_row (tb s1) (c_ArtifactID c)) with true.
      2: { symmetry. apply existsb_exists. exists c. rewrite <- list_elem_of_In, elem_of_rows, Z.eqb_refl. eauto. }
      apply rows_left_shrinks in Hsh. simpl. lia.
    + pose proof (size_drop _ _ i c (sh_accs _ _ Hsh) Hi Ei).
      pose proof (map_subseteq_size _ _ (sh_refs _ _ Hsh)). unfold rows_left in *.
      destruct (true && _); lia.
Qed.

(** The reference is gone when the call on its child is made. *)
Lemma DeleteReference_gone q i s u s' :
  keyed (tb s) -> refs (tb s) !! i = Some q ->
  ignoreNotFound (DeleteReference (r_ID q)) s = (Ok u, s') -> in_tx s = true -> aborted s' = false ->
  refs (tb s') !! i = None.
Proof.
  intros Hk Hi E Htx Ha. unfold ignoreNotFound in E. apply bind_inv in E as (r & s1 & E1 & E2). apply try_inv in E1.
  assert (s1 = s') as ->.
  { destruct r as [?|e]; [by injection E2|]. destruct (IsErr e NotFoundCode); by injection E2. }
  unfold DeleteReference, bind in E1. destruct (delete_stmt _ _ _ s) as [r2 s2] eqn:E3.
  assert (s2 = s') as ->.
  { destruct r2 as [n|e]; [destruct (n =? 0)|]; by injection E1. }
  destruct (update_in_tx _ _ _ _ E3 Htx Ha) as [_ ->]. simpl.
  apply map_lookup_filter_None. right. intros x Hx. rewrite Hi in Hx. injection Hx as <-.
  simpl. by rewrite Z.eqb_refl.
Qed.

Lemma children_fuel l s :
  (forall q, q ∈ l -> exists i, refs ts !! i = Some q) -> room s ->
  (iterM (fun r =>
    ignoreNotFound (DeleteReference (r_ID r)) ;;;
    l <- acc_List (fun c => c_ArtifactID c =? r_ChildID r) ;;
    deleteDeeply f (r_ChildID r) false (negb (bool_decide (l = [])))) l s).1 <> Err OutOfFuel.
Proof.
  intros Hl. assert (Hd : forall q, frame quiet_step (ignoreNotFound (DeleteReference (r_ID q)))).
  { intros q. apply frame_ignoreNotFound, frame_DeleteReference. }
  apply room_iterM.
  { intros q. frame_tac; [apply frame_quiet, Hd|apply frame_deleteDeeply]. }
  intros q s1 Hq Hs. unfold bind at 1.
  assert (Hsf : safe (ignoreNotFound (DeleteReference (r_ID q)))).
  { apply safe_ignoreNotFound. unfold DeleteReference, delete_stmt. safe_tac. }
  destruct (Hsf s1 (proj1 Hs)) as [S1 _].
  destruct (ignoreNotFound (DeleteReference (r_ID q)) s1) as [[u|e] s2] eqn:E; simpl in *; [|congruence].
  pose proof (room_frame _ _ _ _ (frame_quiet _ (Hd q)) E Hs) as Hr2.
  apply (room_call (acc_List (fun c => c_ArtifactID c =? r_ChildID q))
           (fun l => (r_ChildID q, false, negb (bool_decide (l = []))))); [apply safe_acc_List|apply frame_acc_List| | |done].
  - intros Ha. eexists. unfold acc_List, acc_dao_List, select, bind. by rewrite call_aborted.
  - intros k Hk Hsh Hroom. simpl. destruct (Hl q Hq) as [i Hi].
    assert (Ha2 : aborted s2 = false).
    { destruct (aborted s2) eqn:Ha; [|done]. unfold acc_List, acc_dao_List, select, bind in Hk.
      by rewrite call_aborted in Hk. }
    destruct Hs as (_ & Htx & [Ha1|[Hsh1 _]]).
    { pose proof (frame_back _ _ _ _ _ (Hd q) E Ha2). congruence. }
    assert (Hgone : refs (tb s2) !! i = None).
    { destruct (refs (tb s1) !! i) as [q'|] eqn:Ei.
      - assert (q' = q) as -> by (eapply lookup_weaken in Ei; [|apply Hsh1]; congruence).
        apply (DeleteReference_gone q i s1 u s2); [by apply (keyed_shrinks ts)|done..].
      - destruct (refs (tb s2) !! i) eqn:E2; [|done].
        destruct (frame_tb _ _ _ _ _ (Hd q) E) as [Hs2 _]. eapply lookup_weaken in E2; [|apply Hs2]. congruence. }
    pose proof (size_drop _ _ i q (sh_refs _ _ Hsh) Hi Hgone).
    pose proof (map_subseteq_size _ _ (sh_accs _ _ Hsh)). unfold bound, rows_left in *.
    destruct (_ && _); lia.
Qed.
End Loops.

(** An accessory drops its own rows. *)
Lemma DeleteAccessories_drops a id s u s' :
  acc_digests (tb s) -> arts (tb s) !! id = Some a -> a_ID a = id -> has_row (tb s) id = true ->
  ignoreNotFound (DeleteAccessories (fun c => (c_ArtifactID c =? a_ID a) && (c_Digest c =s= a_Digest a))) s
    = (Ok u, s') ->
  in_tx s = true -> aborted s' = false -> (rows_left (tb s') < rows_left (tb s))%nat.
Proof.
  intros Hdig Hart Haid Hrow E Htx Ha. unfold ignoreNotFound in E.
  apply bind_inv in E as (r & s1 & E1 & E2). apply try_inv in E1.
  assert (s1 = s') as ->.
  { destruct r as [?|e]; [by injection E2|]. destruct (IsErr e NotFoundCode); by injection E2. }
  unfold DeleteAccessories, bind in E1. destruct (delete_stmt _ _ _ s) as [r2 s2] eqn:E3.
  assert (s2 = s') as -> by (destruct r2; by injection E1).
  destruct (update_in_tx _ _ _ _ E3 Htx Ha) as [_ Et].
  apply existsb_exists in Hrow as (c & Hc & Hid). apply list_elem_of_In, elem_of_rows in Hc as [i Hi].
  apply Z.eqb_eq in Hid. assert (Hd : c_Digest c = a_Digest a) by (eapply Hdig; [exact Hi|by rewrite Hid]).
  unfold rows_left. rewrite Et. simpl. apply Nat.add_lt_mono_l.
  apply (size_drop _ _ i c); [apply map_filter_subseteq|done|].
  apply map_lookup_filter_None. right. intros x Hx. rewrite Hi in Hx. injection Hx as <-.
  simpl. by rewrite Hid, Haid, Hd, Z.eqb_refl, String.eqb_refl.
Qed.

(** One step of a call. *)
Lemma bind_fuel {B C} (m : M db B) (k : B -> M db C) s :
  faults_ok (c_faults s) -> safe m ->
  (forall b s1, m s = (Ok b, s1) -> faults_ok (c_faults s1) -> (k b s1).1 <> Err OutOfFuel) ->
  (bind m k s).1 <> Err OutOfFuel.
Proof.
  intros Hs Hm Hk. unfold bind. destruct (Hm s Hs) as [H1 H2]. destruct (m s) as [[b|e] s1] eqn:E; simpl in *.
  - by apply Hk.
  - congruence.
Qed.

(** The loops and the rest of a call that found its artifact, from the state
    after the accessory rows are dropped. *)
Lemma rest_fuel f a isRoot ts s :
  fuel_spec f -> keyed ts -> acc_digests ts -> room f ts s ->
  (forall c, c ∈ Accessories a -> exists i, accs ts !! i = Some c) ->
  (forall q, q ∈ References (art a) -> exists i, refs ts !! i = Some q) ->
  ((iterM (fun acc =>
      if IsHard acc then
        ps <- ListReferences (has_child (c_ArtifactID acc)) ;;
        deleteDeeply f (c_ArtifactID acc) (bool_decide (ps = [])) true
      else ret tt) (Accessories a) ;;;
    iterM (fun r =>
      ignoreNotFound (DeleteReference (r_ID r)) ;;;
      l <- acc_List (fun c => c_ArtifactID c =? r_ChildID r) ;;
      deleteDeeply f (r_ChildID r) false (negb (bool_decide (l = [])))) (References (art a)) ;;;
    delete_artifact doublestar_Match parse_untagged sort_by a isRoot) s).1 <> Err OutOfFuel.
Proof.
  intros IH Hk Hdig Hroom Haccs Hrefs. unfold bind at 1.
  pose proof (accessories_fuel f IH ts Hk Hdig (Accessories a) s Haccs Hroom) as H1.
  destruct (iterM _ (Accessories a) s) as [[u1|e] s1] eqn:E1; [|simpl in *; congruence].
  assert (Hroom1 : room f ts s1).
  { eapply room_frame; [|exact E1|done]. frame_tac. apply frame_deleteDeeply. }
  unfold bind at 1. pose proof (children_fuel f IH ts Hk Hdig (References (art a)) s1 Hrefs Hroom1) as H2.
  destruct (iterM _ (References (art a)) s1) as [[u2|e] s2] eqn:E2; [|simpl in *; congruence].
  apply safe_delete_artifact. eapply (room_frame f ts _ s1); [|exact E2|done].
  frame_tac; [apply frame_quiet, frame_ignoreNotFound, frame_DeleteReference|apply frame_deleteDeeply].
Qed.

Lemma deleteDeeply_fuel f : fuel_spec f.
Proof.
  induction f as [|f IH]; intros id isRoot isAcc s Hfs Htx Hk Hdig Hb; [lia|]. cbn [Artifact.deleteDeeply].
  apply bind_fuel; [done| |].
  { intros s0 Hs0. unfold try. destruct (safe_Get id delete_option s0 Hs0) as [_ H].
    by destruct (Get _ _ _ id delete_option s0). }
  intros ra s1 E1 Hfs1. apply try_inv in E1.
  pose proof (frame_Get doublestar_Match parse_untagged sort_by (R := eq) id delete_option) as FG.
  pose proof (frame_tb _ _ _ _ _ FG E1) as Et1.
  destruct ra as [a|e].
  2: { destruct (safe_Get id delete_option s Hfs) as [H _]. rewrite E1 in H.
       destruct (negb isRoot && IsErr e NotFoundCode); [done|]. simpl in *. congruence. }
  destruct (negb isRoot && negb (bool_decide (Tags a = []))); [done|].
  apply bind_fuel; [done|unfold ListReferences; safe_tac|]. intros ps s2 E2 Hfs2.
  destruct (call_ok _ _ _ _ E2) as ([= _ Et2 _] & Htx2 & Ha1 & Ha2 & _).
  rewrite (frame_mode _ _ _ _ _ FG E1), Htx in Htx2.
  destruct ps as [|p ps]; [|by destruct isRoot].
  destruct (Get_tx _ _ _ _ _ _ _ E1 Htx Ha1) as (_ & Hart & _ & Haccs & Hrefs).
  pose proof (k_arts _ Hk _ _ Hart) as Haid. rewrite Et1, Et2 in *.
  assert (Hl1 : forall c, c ∈ Accessories a -> exists i, accs (tb s2) !! i = Some c) by (intros c Hc; by apply Haccs).
  assert (Hl2 : forall q, q ∈ References (art a) -> exists i, refs (tb s2) !! i = Some q) by (intros q Hq; by apply Hrefs).
  assert (Hsd : safe (ignoreNotFound (DeleteAccessories
            (fun c => (c_ArtifactID c =? a_ID (row (art a))) && (c_Digest c =s= a_Digest (row (art a))))))).
  { apply safe_ignoreNotFound. unfold DeleteAccessories, delete_stmt. safe_tac. }
  unfold bound in Hb. destruct isAcc; simpl in Hb.
  - apply bind_fuel; [done|done|]. intros u s3 E3 Hfs3. apply (rest_fuel f a isRoot (tb s2)); [done..| |done|done].
    assert (FD : frame quiet_step (ignoreNotFound (DeleteAccessories
            (fun c => (c_ArtifactID c =? a_ID (row (art a))) && (c_Digest c =s= a_Digest (row (art a))))))).
    { apply frame_ignoreNotFound, frame_DeleteAccessories. }
    split; [done|]. split; [by rewrite (frame_mode _ _ _ _ _ FD E3)|].
    destruct (aborted s3) eqn:Ha3; [by left|right].
    destruct (frame_tb _ _ _ _ _ FD E3) as [Hsh3 _]. split; [done|].
    destruct (has_row (tb s2) id) eqn:Er; [left|right; lia].
    pose proof (DeleteAccessories_drops _ id _ _ _ Hdig Hart Haid Er E3 Htx2 Ha3). lia.
  - unfold bind at 1, ret at 1. apply (rest_fuel f a isRoot (tb s2)); [done..| |done|done].
    split; [done|]. split; [done|]. right. split; [done|]. lia.
Qed.

Lemma safe_guard l : safe (attestation_guard l).
Proof. induction l as [|c l IH]; simpl; safe_tac. Qed.

(** C38: the recursion of a deletion ends, cyclic accessories included: twice
    the number of reference and accessory rows, and two more, bounds its depth
    whatever fails on the way. *)
Theorem delete_terminates fuel id s :
  faults_ok (c_faults s) -> keyed (tb s) -> acc_digests (tb s) ->
  (2 * rows_left (tb s) + 1 < fuel)%nat -> (Delete fuel id s).1 <> Err OutOfFuel.
Proof.
  intros Hfs Hk Hdig Hf. unfold Artifact.Delete.
  apply bind_fuel; [done|apply safe_acc_List|]. intros l s1 E1 Hfs1.
  rewrite (frame_tb eq _ _ _ _ (frame_acc_List _) E1) in Hk, Hdig, Hf.
  apply bind_fuel; [done|apply safe_guard|]. intros u s2 E2 Hfs2.
  rewrite (frame_tb eq _ _ _ _ (frame_guard l) E2) in Hk, Hdig, Hf.
  destruct (WithTransaction _ s2) as [[v|e] s'] eqn:E; [done|]. simpl. intros [= ->].
  apply WithTransaction_err_cause in E as [E|[E|[E|(s3 & Eb & E)]]]; [done|done|done| |].
  2: { intros s3. by destruct (frame_deleteDeeply doublestar_Match parse_untagged sort_by fuel id true
         (negb (bool_decide (l = []))) s3) as (_ & _ & H & _). }
  destruct (begin_mode _ _ _ Eb) as (T3 & X3 & _). rewrite <- T3 in Hk, Hdig, Hf.
  apply (deleteDeeply_fuel fuel) in E; [done| |done|done|done|].
  - eapply faults_ok_suffix; [exact Hfs2|]. pose proof (begin_faults s2) as H. by rewrite Eb in H.
  - unfold bound. destruct (_ && _); lia.
Qed.
End Recursion.

(** ** Witness *)

Lemma delete_terminates_witness :
  (Delete Retention.sample_Match Retention.sample_parse Retention.sample_sort 8 1 (sample_db [] [])).1 <> Err OutOfFuel.
Proof.
  apply delete_terminates.
  - intros H. by apply elem_of_nil in H.
  - apply keyed_b_ok. vm_compute. reflexivity.
  - intros i c a Hc Ha. simpl in Hc. apply lookup_singleton_Some in Hc as [<- <-]. vm_compute in Ha. by injection Ha as <-.
  - vm_compute. lia.
Defined.
