(* ===== verification/ArtifactOps.v ===== *)
(** * Creating, tagging and copying artifacts

    What the operations of the tag and artifact controllers other than
    [Delete] guarantee, on tables with the integrity that the constraints of
    the database enforce: the effect of [Ensure] on tags and artifacts, what
    [Copy] and [Walk] do, and when the immutability of a tag is not seen. *)

From S2P Require Import Prelude Errors Orm ArtifactDb Artifact ArtifactDelete ArtifactFuel.
From S2P Require Blob.
From S2P Require Manifest.
From S2P Require Retention.

(** ** Integrity of the tables *)

(** Rows under their identifiers; unique artifacts of a repository by digest
    and unique tags of a repository by name; no reference, tag, accessory or
    label of an artifact that is not there. *)
Record integrity (t : tables) : Prop := mkIntegrity {
  it_keyed : keyed t;
  it_art_unique : forall i j a b, arts t !! i = Some a -> arts t !! j = Some b ->
    a_RepositoryID a = a_RepositoryID b -> a_Digest a = a_Digest b -> i = j;
  it_tag_unique : forall i j g h, tags t !! i = Some g -> tags t !! j = Some h ->
    t_RepositoryID g = t_RepositoryID h -> t_Name g = t_Name h -> i = j;
  it_refs : forall i r, refs t !! i = Some r -> is_Some (arts t !! r_ParentID r) /\ is_Some (arts t !! r_ChildID r);
  it_tags : forall i g, tags t !! i = Some g -> is_Some (arts t !! t_ArtifactID g);
  it_accs : forall i c, accs t !! i = Some c -> is_Some (arts t !! c_ArtifactID c);
  it_labels : forall l, l ∈ label_refs t -> is_Some (arts t !! l.2);
}.

Definition keeps_integrity (t t' : tables) : Prop := integrity t -> integrity t'.

#[global] Instance keeps_integrity_preorder : PreOrder keeps_integrity.
Proof. split; [intros t H; exact H|]. intros t1 t2 t3 H1 H2 H. auto. Qed.

(** Tables in which the artifacts are the same and the others shrink. *)
Lemma integrity_shrinks t t' :
  shrinks t t' -> arts t' = arts t -> keeps_integrity t t'.
Proof.
  intros Hs Ha [K U1 U2 I1 I2 I3 I4]. split.
  - by eapply keyed_shrinks.
  - rewrite Ha. done.
  - intros i j g h Hg Hh. eapply lookup_weaken in Hg; [|apply Hs]. eapply lookup_weaken in Hh; [|apply Hs]. eauto.
  - intros i r Hr. rewrite Ha. eapply I1. eapply lookup_weaken; [exact Hr|apply Hs].
  - intros i r Hr. rewrite Ha. eapply I2. eapply lookup_weaken; [exact Hr|apply Hs].
  - intros i r Hr. rewrite Ha. eapply I3. eapply lookup_weaken; [exact Hr|apply Hs].
  - intros l Hl. rewrite Ha. apply I4. by apply Hs.
Qed.

Lemma quiet_integrity {A} (m : M db A) : frame quiet_step m -> frame keeps_integrity m.
Proof. intros Hm. eapply frame_weaken; [exact Hm|]. intros t t' (H1 & H2 & _). by apply integrity_shrinks. Qed.

Lemma in_use_false id t :
  art_in_use id t = false ->
  (forall i r, refs t !! i = Some r -> r_ParentID r <> id /\ r_ChildID r <> id)
  /\ (forall i g, tags t !! i = Some g -> t_ArtifactID g <> id)
  /\ (forall i c, accs t !! i = Some c -> c_ArtifactID c <> id)
  /\ (forall l, l ∈ label_refs t -> l.2 <> id).
Proof.
  assert (Hex : forall {B} (p : B -> bool) l, existsb p l = false -> forall x, x ∈ l -> p x = false).
  { intros B p l H x Hx. destruct (p x) eqn:E; [|done]. rewrite <- H. symmetry. apply existsb_exists.
    exists x. by rewrite <- list_elem_of_In. }
  unfold art_in_use. intros H. apply orb_false_elim in H as [H H4]. apply orb_false_elim in H as [H H3].
  apply orb_false_elim in H as [H1 H2].
  split; [|split; [|split]].
  - intros i r Hr. pose proof (Hex _ _ _ H1 r ltac:(apply elem_of_rows; eauto)) as E. simpl in E. lia.
  - intros i g Hg. pose proof (Hex _ _ _ H2 g ltac:(apply elem_of_rows; eauto)) as E. simpl in E. lia.
  - intros i c Hc. pose proof (Hex _ _ _ H4 c ltac:(apply elem_of_rows; eauto)) as E. simpl in E. lia.
  - intros l Hl. pose proof (Hex _ _ _ H3 l ltac:(by apply elem_of_elements)) as E. simpl in E. lia.
Qed.

(** The insertions. *)
Lemma integrity_insert_art a id t :
  art_unique a t = true -> arts t !! id = None -> keeps_integrity t (with_arts t (<[id := set_a_ID id a]> (arts t))).
Proof.
  intros Hu Hn [K U1 U2 I1 I2 I3 I4].
  assert (Hs : forall j, is_Some (arts t !! j) -> is_Some (<[id := set_a_ID id a]> (arts t) !! j)).
  { intros j Hj. destruct (decide (id = j)) as [->|Hne]; [rewrite lookup_insert_eq; eauto|by rewrite lookup_insert_ne]. }
  assert (Hnew : forall j b, arts t !! j = Some b -> a_RepositoryID b = a_RepositoryID a -> a_Digest b <> a_Digest a).
  { intros j b Hb Hr Hd. unfold art_unique in Hu. apply negb_true_iff in Hu. rewrite <- not_true_iff_false in Hu.
    apply Hu, existsb_exists. exists b. rewrite <- list_elem_of_In, elem_of_rows, Hr, Hd, Z.eqb_refl, String.eqb_refl. eauto. }
  split; simpl; eauto.
  - destruct K as [K1 K2 K3]. split; simpl; eauto. intros i b Hb.
    apply lookup_insert_Some in Hb as [[<- <-]|[_ Hb]]; [done|eauto].
  - intros i j b c Hb Hc. apply lookup_insert_Some in Hb as [[<- <-]|[Hi Hb]], Hc as [[<- <-]|[Hj Hc]]; simpl; eauto.
    + intros Hr Hd. by destruct (Hnew j c Hc).
    + intros Hr Hd. by destruct (Hnew i b Hb).
  - intros i r Hr. destruct (I1 i r Hr). eauto.
Qed.

Lemma frame_insert {A} (R : tables -> tables -> Prop) seq bump (tab : tables -> gmap Z A) unique fk add :
  PreOrder R ->
  (forall id t, unique t = true -> fk t = true -> tab t !! id = None -> R t (add id t)) ->
  frame R (insert_stmt seq bump tab unique fk add).
Proof.
  intros HR Hadd. apply frame_call; [apply _|]. intros t x a t' x'. cbn zeta.
  destruct (unique t) eqn:Eu; [|done]. destruct (fk t) eqn:Ef; [|done]. intros [= <- <- _].
  apply Hadd; [done|done|apply next_id_fresh].
Qed.

Lemma frame_art_dao_Create a : frame keeps_integrity (art_dao_Create a).
Proof. apply frame_map_err, frame_insert; [apply _|]. intros id t Hu _ Hn. by apply integrity_insert_art. Qed.

Lemma frame_CreateReference r : frame keeps_integrity (CreateReference r).
Proof.
  apply frame_map_err, frame_insert; [apply _|]. intros id t _ Hf Hn [K U1 U2 I1 I2 I3 I4].
  apply andb_prop in Hf as [H1 H2]. apply bool_decide_eq_true in H1, H2. split; simpl; eauto.
  - destruct K as [K1 K2 K3]. split; simpl; eauto. intros i b Hb.
    apply lookup_insert_Some in Hb as [[<- <-]|[_ Hb]]; [done|eauto].
  - intros i q Hq. apply lookup_insert_Some in Hq as [[<- <-]|[_ Hq]]; [done|eauto].
Qed.

Lemma frame_acc_dao_Create c : frame keeps_integrity (acc_dao_Create c).
Proof.
  apply frame_map_err, frame_insert; [apply _|]. intros id t _ Hf Hn [K U1 U2 I1 I2 I3 I4].
  apply bool_decide_eq_true in Hf. split; simpl; eauto; [by destruct K|].
  intros i q Hq. apply lookup_insert_Some in Hq as [[<- <-]|[_ Hq]]; [done|eauto].
Qed.

Lemma frame_tag_dao_Create g : frame keeps_integrity (tag_dao_Create g).
Proof.
  apply frame_map_err, frame_insert; [apply _|]. intros id t Hu Hf Hn [K U1 U2 I1 I2 I3 I4].
  apply bool_decide_eq_true in Hf.
  assert (Hnew : forall j b, tags t !! j = Some b -> t_RepositoryID b = t_RepositoryID g -> t_Name b <> t_Name g).
  { intros j b Hb Hr Hd. unfold tag_unique in Hu. apply negb_true_iff in Hu. rewrite <- not_true_iff_false in Hu.
    apply Hu, existsb_exists. exists b. rewrite <- list_elem_of_In, elem_of_rows, Hr, Hd, Z.eqb_refl, String.eqb_refl. eauto. }
  split; simpl; eauto.
  - destruct K as [K1 K2 K3]. split; simpl; eauto. intros i b Hb.
    apply lookup_insert_Some in Hb as [[<- <-]|[_ Hb]]; [done|eauto].
  - intros i j b c Hb Hc. apply lookup_insert_Some in Hb as [[<- <-]|[Hi Hb]], Hc as [[<- <-]|[Hj Hc]]; simpl; eauto.
    + intros Hr Hd. by destruct (Hnew j c Hc).
    + intros Hr Hd. by destruct (Hnew i b Hb).
  - intros i q Hq. apply lookup_insert_Some in Hq as [[<- <-]|[_ Hq]]; [done|eauto].
Qed.

Lemma frame_tag_dao_Update g props : frame keeps_integrity (tag_dao_Update g props).
Proof.
  unfold tag_dao_Update. frame_tac. apply frame_call; [apply _|]. intros t x n t' x'.
  destruct (tags t !! t_ID g) as [h|] eqn:Eh; [|by intros [= _ <- _]].
  case_bool_decide as Hf; [|done]. intros [= _ <- _] [K U1 U2 I1 I2 I3 I4].
  assert (Hsame : forall i b, <[t_ID g := set_props g h props]> (tags t) !! i = Some b ->
    exists b', tags t !! i = Some b' /\ t_ID b = t_ID b' /\ t_RepositoryID b = t_RepositoryID b' /\ t_Name b = t_Name b').
  { intros i b Hb. apply lookup_insert_Some in Hb as [[<- <-]|[_ Hb]]; [by exists h|by exists b]. }
  split; simpl; eauto.
  - destruct K as [K1 K2 K3]. split; simpl; eauto. intros i b Hb. destruct (Hsame i b Hb) as (b' & H1 & -> & _). eauto.
  - intros i j b c Hb Hc. destruct (Hsame i b Hb) as (b' & H1 & _ & -> & ->).
    destruct (Hsame j c Hc) as (c' & H2 & _ & -> & ->). eauto.
  - intros i q Hq. apply lookup_insert_Some in Hq as [[<- <-]|[_ Hq]]; [done|eauto].
Qed.

Lemma frame_touch_integrity id : frame keeps_integrity (touchRepo id).
Proof. apply quiet_integrity, frame_touch_quiet. Qed.

Lemma frame_acc_Ensure d r sub a size dg ty : frame keeps_integrity (acc_Ensure d r sub a size dg ty).
Proof. unfold acc_Ensure, acc_dao_List. frame_tac. apply frame_acc_dao_Create. Qed.

Lemma frame_set_accessoryErr {R} `{!PreOrder R} e : frame R (set_accessoryErr e).
Proof. by intros s. Qed.

Lemma frame_get_accessoryErr {R} `{!PreOrder R} : frame R get_accessoryErr.
Proof. by intros s. Qed.

Lemma frame_art_GetByDigest {R} `{!PreOrder R} r d : frame R (art_GetByDigest r d).
Proof. unfold art_GetByDigest, art_dao_GetByDigest. frame_tac. Qed.

Lemma frame_repo_GetByName {R} `{!PreOrder R} n : frame R (repo_GetByName n).
Proof. unfold repo_GetByName. frame_tac. Qed.

Lemma frame_project_GetByName {R} `{!PreOrder R} n : frame R (project_GetByName n).
Proof. unfold project_GetByName. frame_tac. Qed.

#[export] Hint Resolve frame_art_dao_Create frame_CreateReference frame_acc_dao_Create frame_tag_dao_Create
  frame_tag_dao_Update frame_touch_integrity frame_acc_Ensure frame_set_accessoryErr
  frame_get_accessoryErr frame_art_GetByDigest frame_repo_GetByName frame_project_GetByName : orm.

(** ** Interfaces *)

(** What the artifact controller relies on in the abstraction of a manifest: it
    keeps what identifies the artifact, and neither artifacts nor tags change. *)
Class Abstractor (AbstractMetadata : Artifact -> M db Artifact) : Prop := {
  abstract_quiet a : frame quiet_step (AbstractMetadata a);
  abstract_id a s b s' : AbstractMetadata a s = (Ok b, s') ->
    a_RepositoryName (row b) = a_RepositoryName (row a) /\ a_Digest (row b) = a_Digest (row a);
}.

(** The client that copies a manifest in the registry's storage. *)
Class RegistryClient (regCli_Copy : string -> string -> string -> M db unit) : Prop :=
  registry_quiet src digest dst : frame quiet_step (regCli_Copy src digest dst).

Section Controller.
Context (doublestar_Match : string -> string -> result bool).
Context (parse_untagged : string -> option bool).
Context (sort_by : (Retention.Candidate -> Z) -> list Retention.Candidate -> list Retention.Candidate).
Context (is_digest : string -> bool).
Context (AbstractMetadata : Artifact -> M db Artifact).
Context (GetArtifactType : string -> Artifact -> string).
Context (regCli_Copy : string -> string -> string -> M db unit).

Abbreviation tag_Ensure := (tag_Ensure doublestar_Match parse_untagged sort_by).
Abbreviation tag_Delete := (tag_Delete doublestar_Match parse_untagged sort_by).
Abbreviation Get := (Get doublestar_Match parse_untagged sort_by).
Abbreviation GetByReference := (GetByReference doublestar_Match parse_untagged sort_by is_digest).
Abbreviation Delete := (Delete doublestar_Match parse_untagged sort_by).
Abbreviation ensureArtifact := (ensureArtifact AbstractMetadata GetArtifactType).
Abbreviation Ensure := (Ensure doublestar_Match parse_untagged sort_by AbstractMetadata GetArtifactType).
Abbreviation copyDeeply :=
  (copyDeeply doublestar_Match parse_untagged sort_by is_digest AbstractMetadata GetArtifactType regCli_Copy).
Abbreviation Copy :=
  (Copy doublestar_Match parse_untagged sort_by is_digest AbstractMetadata GetArtifactType regCli_Copy).
Abbreviation UpdatePullTime := (UpdatePullTime doublestar_Match parse_untagged sort_by).

#[local] Hint Resolve frame_Get frame_populateImmutableStatus frame_tag_dao_Get frame_tag_List frame_tag_Get
  frame_populateAccessories frame_ignoreNotFound : orm.

Lemma frame_GetByReference {R} `{!PreOrder R} r f o : frame R (GetByReference r f o).
Proof.
  unfold Artifact.GetByReference, getByDigest, getByTag, assembleArtifact, populateTags, populateLabels, ListByArtifact.
  frame_tac.
Qed.
#[local] Hint Resolve frame_GetByReference : orm.

Context `{!Abstractor AbstractMetadata, !RegistryClient regCli_Copy}.

Lemma frame_abstract a : frame keeps_integrity (AbstractMetadata a).
Proof. apply quiet_integrity, abstract_quiet. Qed.

Lemma frame_registry a b c : frame keeps_integrity (regCli_Copy a b c).
Proof. apply quiet_integrity, registry_quiet. Qed.
#[local] Hint Resolve frame_abstract frame_registry : orm.

Lemma frame_tag_Ensure r a n : frame keeps_integrity (tag_Ensure r a n).
Proof. unfold Artifact.tag_Ensure, ensureExistingTag, tag_Create. frame_tac. Qed.
#[local] Hint Resolve frame_tag_Ensure : orm.

Lemma frame_Ensure r d o : frame keeps_integrity (Ensure r d o).
Proof.
  unfold Artifact.Ensure, Artifact.ensureArtifact, art_Create, link_candidate. frame_tac.
Qed.
#[local] Hint Resolve frame_Ensure : orm.

(** The frame of a recursive call is that of the loops that make it. *)
(** ** Ensuring a tag *)

Lemma mapM_ok {B C} (f : B -> M db C) (P : B -> C -> Prop) l s r s' :
  (forall b s c s', f b s = (Ok c, s') -> P b c) -> mapM f l s = (Ok r, s') -> Forall2 P l r.
Proof.
  intros Hf. revert s r s'. induction l as [|b l IH]; intros s r s' E; simpl in E; [by injection E as <- _|].
  apply bind_inv in E as (c & s1 & E1 & E). apply bind_inv in E as (cs & s2 & E2 & E). injection E as <- _. eauto.
Qed.

Lemma assembleTag_tag o g s h s' :
  assembleTag doublestar_Match parse_untagged sort_by o g s = (Ok h, s') -> tag h = g.
Proof.
  unfold assembleTag. destruct o; [|by intros [= <- _]]. intros E.
  apply bind_inv in E as (ra & s1 & _ & E). destruct ra as [a|e]; [|by injection E as <- _].
  apply bind_inv in E as (rm & s2 & _ & E). by destruct rm; injection E as <- _.
Qed.

Lemma tag_List_ok p o s l s' :
  tag_List doublestar_Match parse_untagged sort_by p o s = (Ok l, s') ->
  tb s' = tb s /\ tag <$> l = List.filter p (rows (tags (tb s))).
Proof.
  intros E. split; [symmetry; exact (frame_tb eq _ _ _ _ (frame_tag_List _ _ _ _ _) E)|].
  apply bind_inv in E as (k & s1 & E1 & E). apply call_ok in E1 as ([= <- _] & _).
  pose proof (mapM_ok _ (fun g h => tag h = g) _ _ _ _ ltac:(intros ? ? ? ?; apply assembleTag_tag) E) as HF.
  clear E. induction HF as [|g h k l Hh HF IH]; [done|]. rewrite fmap_cons. by rewrite Hh, IH.
Qed.

(** The tables in which the tag is attached and nothing else has changed. *)
Definition tag_attached (id r a : Z) (n : string) (t t' : tables) : Prop :=
  arts t' = arts t
  /\ (exists g, tags t' !! id = Some g /\ t_RepositoryID g = r /\ t_Name g = n /\ t_ArtifactID g = a)
  /\ (forall j, j <> id -> tags t' !! j = tags t !! j)
  /\ (forall h, tags t !! id = Some h -> t_RepositoryID h = r /\ t_Name h = n).

Lemma tag_attached_quiet id r a n t t1 t2 :
  tag_attached id r a n t t1 -> quiet_step t1 t2 -> tag_attached id r a n t t2.
Proof.
  intros (H1 & H2 & H3 & H4) (_ & Ha & Ht). split; [congruence|]. rewrite Ht. done.
Qed.

Lemma ensureExistingTag_ok r a n g s id s' :
  ensureExistingTag r a g s = (Ok id, s') -> keyed (tb s) ->
  (exists i, tags (tb s) !! i = Some (tag g)) -> t_RepositoryID (tag g) = r -> t_Name (tag g) = n ->
  tag_attached id r a n (tb s) (tb s').
Proof.
  intros E Hk [i Hi] Hr Hn. unfold ensureExistingTag in E. pose proof (k_tags _ Hk _ _ Hi) as Hid.
  destruct (Z.eqb_spec (t_ArtifactID (tag g)) a) as [Ha|Ha].
  { injection E as <- <-. split; [done|]. split; [exists (tag g); by rewrite Hid|].
    split; [done|]. rewrite Hid, Hi. intros h [= <-]. done. }
  destruct (Immutable g); [done|].
  apply bind_inv in E as (now & s0 & E0 & E). injection E0 as <- <-.
  apply bind_inv in E as (u & s1 & E1 & E). apply bind_inv in E as (u2 & s2 & E2 & E). injection E as <- <-.
  eapply tag_attached_quiet; [|exact (frame_tb _ _ _ _ _ (frame_touch_quiet r) E2)].
  apply bind_inv in E1 as (k & s3 & E3 & E1).
  assert (s3 = s1) as -> by (destruct (k =? 0); by injection E1). unfold map_err in E3.
  match type of E3 with context [call ?f s] => destruct (call f s) as [[k'|e] s4] eqn:E4; [|done] end.
  injection E3 as -> ->. apply call_ok in E4 as (E4 & _). simpl in E4. rewrite Hid, Hi in E4.
  case_bool_decide as Hf; [|done]. injection E4 as <- <- _. simpl. rewrite Hid.
  split; [done|]. split; [eexists; split; [apply lookup_insert_eq|done]|].
  split; [intros j Hj; by apply lookup_insert_ne|]. rewrite Hi. intros h [= <-]. done.
Qed.

Lemma tag_Create_ok r a n now s id s' :
  tag_Create (mkTagRow 0 r a n now 0) s = (Ok id, s') -> tag_attached id r a n (tb s) (tb s') /\ tags (tb s) !! id = None.
Proof.
  unfold tag_Create. destruct (isValidTag _); [|done]. cbn [negb]. intros E.
  apply bind_inv in E as (k & s1 & E1 & E). apply bind_inv in E as (u & s2 & E2 & E). injection E as -> <-.
  unfold tag_dao_Create, map_err in E1. destruct (insert_stmt _ _ _ _ _ _ s) as [[k'|e] s3] eqn:E3; [|done].
  injection E1 as -> ->. apply call_ok in E3 as (E3 & _). cbn zeta in E3.
  destruct (tag_unique _ _); [|done]. destruct (bool_decide _); [|done]. injection E3 as Hid Et _.
  assert (Hn : tags (tb s) !! id = None) by (rewrite <- Hid; apply next_id_fresh). split; [|done].
  eapply tag_attached_quiet; [|exact (frame_tb _ _ _ _ _ (frame_touch_quiet r) E2)].
  rewrite <- Et, Hid. split; [done|]. split; [eexists; split; [apply lookup_insert_eq|done]|].
  split; [intros j Hj; by apply lookup_insert_ne|]. rewrite Hn. done.
Qed.

(** [Ensure] of a tag that succeeds leaves the tag of that name in the
    repository attached to the artifact, created or moved, and no other tag or
    artifact changed. *)
Lemma tag_ensure_attaches r a n s id s' :
  tag_Ensure r a n s = (Ok id, s') -> keyed (tb s) -> tag_attached id r a n (tb s) (tb s').
Proof.
  intros E Hk. unfold Artifact.tag_Ensure in E. apply bind_inv in E as (l & s1 & E1 & E).
  apply tag_List_ok in E1 as [Et1 Hl].
  assert (Hex : forall g k, (tag <$> g :: k) = List.filter (fun g => (t_RepositoryID g =? r) && (t_Name g =s= n)) (rows (tags (tb s))) ->
    (exists i, tags (tb s) !! i = Some (tag g)) /\ t_RepositoryID (tag g) = r /\ t_Name (tag g) = n).
  { intros g k Hg. assert (Hin : tag g ∈ tag <$> g :: k) by by left. rewrite Hg in Hin.
    apply elem_of_rows_filter in Hin as [Hi Hp]. apply andb_prop in Hp as [H1 H2].
    apply Z.eqb_eq in H1. by apply String.eqb_eq in H2. }
  destruct l as [|g l].
  - apply bind_inv in E as (now & s2 & E2 & E). injection E2 as <- <-.
    apply bind_inv in E as (rt & s3 & E3 & E). apply try_inv in E3. destruct rt as [id'|e].
    + injection E as <- <-. apply WithTransaction_ok in E3 as (s4 & s5 & Eb & Ec & _ & -> & _).
      apply begin_mode in Eb as (Eb & _). rewrite <- Et1, <- Eb. by apply tag_Create_ok in Ec as [? _].
    + pose proof (WithTransaction_err _ _ _ _ E3) as Et3.
      destruct (IsConflictErr e); [|done]. apply bind_inv in E as (l2 & s4 & E4 & E).
      apply tag_List_ok in E4 as [_ Hl2]. rewrite Et3, Et1, <- Hl in Hl2. by destruct l2.
  - destruct (Hex g l Hl) as (H1 & H2 & H3). rewrite <- Et1.
    eapply ensureExistingTag_ok; [exact E|by rewrite Et1|by rewrite Et1|done|done].
Qed.

(** Assembling a tag never fails. *)
Lemma populateImmutableStatus_total g s :
  exists h s', populateImmutableStatus doublestar_Match parse_untagged sort_by g s = (Ok h, s').
Proof.
  unfold populateImmutableStatus, bind, try. destruct (art_Get _ s) as [[a0|e] s3]; [|eauto].
  destruct (Match _ _ _ _ _ s3) as [[m|e] s4]; eauto.
Qed.

Lemma mapM_total {B C} (f : B -> M db C) l s :
  (forall b s, exists c s', f b s = (Ok c, s')) -> exists r s', mapM f l s = (Ok r, s').
Proof.
  intros Hf. revert s. induction l as [|b l IH]; intros s; simpl; [eexists _, _; reflexivity|].
  destruct (Hf b s) as (c & s1 & E1). destruct (IH s1) as (cs & s2 & E2).
  unfold bind. rewrite E1, E2. eexists _, _. reflexivity.
Qed.

(** The tag of a name in a repository is listed alone. *)
Lemma tag_of_name t r n i g :
  integrity t -> tags t !! i = Some g -> t_RepositoryID g = r -> t_Name g = n ->
  exists gs, List.filter (fun g => (t_RepositoryID g =? r) && (t_Name g =s= n)) (rows (tags t)) = g :: gs.
Proof.
  intros Hin Hg Hr Hn.
  assert (Hmem : g ∈ List.filter (fun g => (t_RepositoryID g =? r) && (t_Name g =s= n)) (rows (tags t))).
  { apply elem_of_rows_filter. split; [eauto|]. by rewrite Hr, Hn, Z.eqb_refl, String.eqb_refl. }
  destruct (List.filter _ _) as [|g' gs] eqn:Ef; [by apply elem_of_nil in Hmem|].
  assert (Hg' : g' ∈ List.filter (fun g => (t_RepositoryID g =? r) && (t_Name g =s= n)) (rows (tags t)))
    by (rewrite Ef; by left).
  apply elem_of_rows_filter in Hg' as [[j Hj] Hq]. apply andb_prop in Hq as [Q1 Q2].
  apply Z.eqb_eq in Q1. apply String.eqb_eq in Q2. exists gs. f_equal.
  assert (j = i) as -> by (eapply (it_tag_unique _ Hin); [exact Hj|exact Hg|congruence|congruence]). congruence.
Qed.

(** In a transaction that goes on, a protected tag is listed as immutable. *)
Lemma tag_List_protected r n s l s' i g b :
  tag_List doublestar_Match parse_untagged sort_by
    (fun g => (t_RepositoryID g =? r) && (t_Name g =s= n)) true s = (l, s') ->
  in_tx s = true -> aborted s' = false -> integrity (tb s) ->
  tags (tb s) !! i = Some g -> t_RepositoryID g = r -> t_Name g = n ->
  arts (tb s) !! t_ArtifactID g = Some b -> protected doublestar_Match parse_untagged sort_by (tb s) b g ->
  exists h k, l = Ok (h :: k) /\ tag h = g /\ Immutable h = true.
Proof.
  intros E Htx Ha Hin Hg Hr Hn Hb Hp. unfold tag_List, bind at 1 in E.
  destruct (tag_dao_List _ s) as [r1 s1] eqn:E1.
  assert (Ha1 : aborted s1 = false).
  { destruct r1 as [l1|e]; [|by injection E as <- <-].
    eapply (frame_back eq); [|exact E|done]. unfold assembleTag. frame_tac. }
  destruct (select_in_tx _ _ _ _ E1 Htx Ha1) as [-> Et1].
  destruct (tag_of_name _ _ _ _ _ Hin Hg Hr Hn) as [gs Ef]. rewrite Ef in E.
  pose proof (frame_mode eq _ _ _ _ (frame_select _ _) E1) as Htx1. rewrite Htx in Htx1.
  cbn [mapM assembleTag] in E. unfold bind at 1 in E.
  destruct (populateImmutableStatus_total g s1) as (h & s2 & E2). rewrite E2 in E.
  destruct (mapM_total (assembleTag doublestar_Match parse_untagged sort_by true) gs s2) as (k & s3 & E3).
  { intros c s4. apply populateImmutableStatus_total. }
  unfold bind in E. rewrite E3 in E. injection E as <- <-.
  assert (Ha2 : aborted s2 = false).
  { eapply (frame_back eq); [|exact E3|done]. unfold assembleTag. frame_tac. }
  exists h, k. split; [done|]. split; [exact (assembleTag_tag true _ _ _ _ E2)|].
  eapply (populateImmutableStatus_tx _ _ _ _ _ _ _ b E2 Htx1 Ha2); by rewrite Et1.
Qed.

(** C20: a tag that a rule of its project makes immutable is not moved to
    another artifact: in a transaction that goes on, [Ensure] is refused and
    the tables do not change. *)
Theorem immutable_tag_not_moved a s res s' i g b :
  tag_Ensure (t_RepositoryID g) a (t_Name g) s = (res, s') -> in_tx s = true -> aborted s' = false ->
  integrity (tb s) -> tags (tb s) !! i = Some g -> t_ArtifactID g <> a ->
  arts (tb s) !! t_ArtifactID g = Some b -> protected doublestar_Match parse_untagged sort_by (tb s) b g ->
  (exists e, res = Err e /\ IsErr e PreconditionCode = true) /\ tb s' = tb s.
Proof.
  intros E Htx Ha Hin Hg Hne Hb Hp. unfold Artifact.tag_Ensure, bind at 1 in E.
  destruct (tag_List _ _ _ _ true s) as [l s1] eqn:E1.
  pose proof (frame_tb eq _ _ _ _ (frame_tag_List _ _ _ _ _) E1) as Et1.
  assert (Hab : aborted s1 = false \/ aborted s1 = true) by (destruct (aborted s1); auto).
  destruct Hab as [Ha1|Ha1].
  - destruct (tag_List_protected _ _ _ _ _ _ _ _ E1 Htx Ha1 Hin Hg eq_refl eq_refl Hb Hp) as (h & k & -> & Hh & Him).
    unfold ensureExistingTag in E. rewrite Hh, Him in E.
    destruct (Z.eqb_spec (t_ArtifactID g) a); [done|]. injection E as <- <-. split; [|done]. eexists. by split.
  - exfalso. assert (aborted s' = true); [|congruence].
    destruct l as [l|e]; [|by injection E as <- <-].
    destruct (aborted s') eqn:E'; [done|]. rewrite <- Ha1. symmetry.
    destruct l as [|h k]; eapply (frame_back keeps_integrity); [|exact E|done| |exact E|done];
      unfold ensureExistingTag, tag_Create; frame_tac.
Qed.

(** ** Ensuring an artifact *)

Definition keeps_arts_tags (t t' : tables) : Prop := arts t' = arts t /\ tags t' = tags t.

#[global] Instance keeps_arts_tags_preorder : PreOrder keeps_arts_tags.
Proof. split; [by intros t|]. intros t1 t2 t3 [] []. split; congruence. Qed.

Lemma quiet_keeps {A} (m : M db A) : frame quiet_step m -> frame keeps_arts_tags m.
Proof. intros Hm. eapply frame_weaken; [exact Hm|]. by intros t t' (_ & H). Qed.

Lemma keeps_CreateReference r : frame keeps_arts_tags (CreateReference r).
Proof. apply frame_map_err, frame_insert; [apply _|]. by intros. Qed.

Lemma keeps_acc_Ensure d r sub a size dg ty : frame keeps_arts_tags (acc_Ensure d r sub a size dg ty).
Proof.
  unfold acc_Ensure, acc_dao_List. frame_tac. apply frame_map_err, frame_insert; [apply _|]. by intros.
Qed.

Lemma keeps_touchRepo id : frame keeps_arts_tags (touchRepo id).
Proof. apply quiet_keeps, frame_touch_quiet. Qed.
#[local] Hint Resolve keeps_CreateReference keeps_acc_Ensure keeps_touchRepo : orm.

Lemma art_Create_ok a s id s' :
  art_Create a s = (Ok id, s') ->
  arts (tb s') = <[id := set_a_ID id (row a)]> (arts (tb s)) /\ arts (tb s) !! id = None /\ tags (tb s') = tags (tb s).
Proof.
  intros E. apply bind_inv in E as (k & s1 & E1 & E). apply bind_inv in E as (u & s2 & E2 & E). injection E as -> <-.
  assert (HF : frame keeps_arts_tags (iterM (fun r => CreateReference (set_r_IDs (r_ID r) id r) ;;; ret tt) (References a))).
  { frame_tac. }
  destruct (frame_tb _ _ _ _ _ HF E2) as [-> ->].
  unfold art_dao_Create, map_err in E1. destruct (insert_stmt _ _ _ _ _ _ s) as [[k'|e] s3] eqn:E3; [|done].
  injection E1 as -> ->. apply call_ok in E3 as (E3 & _). cbn zeta in E3.
  destruct (art_unique _ _); [|done]. injection E3 as Hid <- _. rewrite Hid. split; [done|].
  split; [|done]. rewrite <- Hid. apply next_id_fresh.
Qed.

Lemma art_GetByDigest_row r d s a s' :
  art_GetByDigest r d s = (Ok a, s') -> keyed (tb s) ->
  arts (tb s) !! a_ID (row a) = Some (row a) /\ a_RepositoryName (row a) = r /\ a_Digest (row a) = d.
Proof.
  intros E Hk. apply bind_inv in E as (x & s1 & E1 & E). apply bind_inv in E1 as (l & s0 & E1 & E2).
  apply call_ok in E1 as ([= El _] & _). rewrite <- El in E2.
  destruct (List.filter _ _) as [|b bs] eqn:Ef; [done|]. injection E2 as -> _.
  assert (Hin : x ∈ List.filter (fun a => (a_RepositoryName a =s= r) && (a_Digest a =s= d)) (rows (arts (tb s))))
    by (rewrite Ef; by left).
  apply elem_of_rows_filter in Hin as [[i Hi] Hb]. apply andb_prop in Hb as [H1 H2]. apply String.eqb_eq in H1, H2.
  assert (Hrow : row a = x).
  { unfold assemble in E. destruct (IsImageIndex x); [apply bind_inv in E as (? & ? & _ & E)|]; by injection E as <- _. }
  rewrite Hrow, (k_arts _ Hk _ _ Hi). done.
Qed.

(** The transaction that creates an artifact. *)
Lemma create_tx_ok a s id s' :
  WithTransaction (id <- art_Create a ;; iterM link_candidate (AccessoryCandidates a) ;;; ret id) s = (Ok id, s') ->
  arts (tb s') = <[id := set_a_ID id (row a)]> (arts (tb s)) /\ arts (tb s) !! id = None /\ tags (tb s') = tags (tb s).
Proof.
  intros E. apply WithTransaction_ok in E as (s1 & s2 & Eb & Ec & _ & -> & _). apply begin_mode in Eb as (<- & _).
  apply bind_inv in Ec as (id' & s3 & Ec & Ed). apply bind_inv in Ed as (u & s4 & Ed & Ee). injection Ee as <- <-.
  assert (HF : forall l, frame keeps_arts_tags (iterM link_candidate l)) by (intros l; unfold link_candidate; frame_tac).
  destruct (frame_tb _ _ _ _ _ (HF _) Ed) as [-> ->]. by apply art_Create_ok.
Qed.

Lemma ensureArtifact_ok r d s created a s' :
  ensureArtifact r d s = (Ok (created, a), s') -> keyed (tb s) ->
  arts (tb s') !! a_ID (row a) = Some (row a) /\ a_RepositoryName (row a) = r /\ a_Digest (row a) = d
  /\ arts (tb s') = (if created then <[a_ID (row a) := row a]> (arts (tb s)) else arts (tb s))
  /\ (created = true -> arts (tb s) !! a_ID (row a) = None).
Proof.
  intros E Hk. unfold Artifact.ensureArtifact in E. apply bind_inv in E as (r1 & s1 & E1 & E). apply try_inv in E1.
  pose proof (frame_tb eq _ _ _ _ (frame_art_GetByDigest _ _) E1) as Et1.
  destruct r1 as [a1|e].
  { injection E as <- <- <-. destruct (art_GetByDigest_row _ _ _ _ _ E1 Hk) as (H1 & H2 & H3). rewrite <- Et1. done. }
  destruct (IsErr e NotFoundCode); [|done]. cbn [negb] in E.
  apply bind_inv in E as (repo & s2 & E2 & E). pose proof (frame_tb eq _ _ _ _ (frame_repo_GetByName _) E2) as Et2.
  apply bind_inv in E as (now & s3 & E3 & E). injection E3 as <- <-.
  apply bind_inv in E as (b & s4 & E4 & E). destruct (abstract_id _ _ _ _ E4) as [Hb1 Hb2]. simpl in Hb1, Hb2.
  destruct (frame_tb _ _ _ _ _ (abstract_quiet _) E4) as (Hsh & Ha4 & _).
  apply bind_inv in E as (u & s5 & E5 & E). assert (Et5 : tb s5 = tb s4) by by injection E5 as _ <-.
  apply bind_inv in E as (rt & s6 & E6 & E). apply try_inv in E6.
  rewrite <- Et2, <- Et1 in Ha4, Hsh. rewrite <- Et5 in Ha4, Hsh. destruct rt as [id|e'].
  - apply bind_inv in E as (u2 & s7 & E7 & E). injection E as <- <- <-.
    destruct (frame_tb _ _ _ _ _ (keeps_touchRepo _) E7) as [-> _].
    destruct (create_tx_ok _ _ _ _ E6) as (H1 & H2 & _). rewrite H1, Ha4. rewrite Ha4 in H2. simpl.
    split; [apply lookup_insert_eq|]. done.
  - pose proof (WithTransaction_err _ _ _ _ E6) as Et6.
    apply bind_inv in E as (ae & s7 & E7 & E). injection E7 as <- <-. destruct (accessoryErr _); [done|].
    destruct (IsConflictErr e'); [|done]. cbn [negb] in E.
    apply bind_inv in E as (a' & s8 & E8 & E). injection E as <- <- <-.
    pose proof (frame_tb eq _ _ _ _ (frame_art_GetByDigest _ _) E8) as Et8. rewrite <- Et8, Et6, Ha4.
    destruct (art_GetByDigest_row _ _ _ _ _ E8) as (H1 & H2 & H3); [rewrite Et6; by eapply keyed_shrinks|].
    rewrite Et6, Ha4 in H1. done.
Qed.

(** The tags of a list of names, one after the other. *)
Definition attached (r a : Z) (n : string) (t : tables) : Prop :=
  exists i g, tags t !! i = Some g /\ t_RepositoryID g = r /\ t_Name g = n /\ t_ArtifactID g = a.

Lemma attached_step id r a n m t t' : attached r a n t -> tag_attached id r a m t t' -> attached r a n t'.
Proof.
  intros (i & g & Hg & H1 & H2 & H3) (_ & (g' & Hg' & G1 & G2 & G3) & Hoth & Hsame).
  destruct (decide (i = id)) as [->|Hne].
  - exists id, g'. destruct (Hsame g Hg) as [_ Hn]. rewrite <- H2, Hn. done.
  - exists i, g. by rewrite (Hoth i Hne).
Qed.

Lemma ensure_tags_ok r a names s s' :
  iterM (fun name => tag_Ensure r a name ;;; ret tt) names s = (Ok tt, s') -> integrity (tb s) ->
  arts (tb s') = arts (tb s) /\ integrity (tb s')
  /\ (forall n, attached r a n (tb s) -> attached r a n (tb s')) /\ (forall n, n ∈ names -> attached r a n (tb s')).
Proof.
  revert s. induction names as [|m names IH]; intros s E Hin; cbn [iterM] in E.
  - injection E as <-. split; [done|]. split; [done|]. split; [done|]. intros n Hn. by apply elem_of_nil in Hn.
  - apply bind_inv in E as (u & s1 & E1 & E). apply bind_inv in E1 as (id & s2 & E1 & E2). injection E2 as <- <-.
    pose proof (frame_tb _ _ _ _ _ (frame_tag_Ensure r a m) E1 Hin) as Hin2.
    pose proof (tag_ensure_attaches _ _ _ _ _ _ E1 (it_keyed _ Hin)) as Hatt.
    destruct (IH _ E Hin2) as (H1 & H2 & H3 & H4). split; [rewrite H1; apply Hatt|]. split; [done|]. split.
    + intros n Hn. apply H3. by eapply attached_step.
    + intros n Hn. apply elem_of_cons in Hn as [->|Hn]; [|by apply H4]. apply H3.
      destruct Hatt as (_ & (g & Hg) & _). by exists id, g.
Qed.

(** C19: [Ensure] of an artifact that succeeds gives the identifier of the one
    artifact with that digest in the repository, new exactly when it says it
    created it, with every tag asked for attached to it; no other artifact
    changes. *)
Theorem ensure_artifact_and_tags r d o s created id s' :
  Ensure r d o s = (Ok (created, id), s') -> integrity (tb s) ->
  exists a, arts (tb s') !! id = Some a /\ a_RepositoryName a = r /\ a_Digest a = d
    /\ arts (tb s') = (if created then <[id := a]> (arts (tb s)) else arts (tb s))
    /\ (created = true -> arts (tb s) !! id = None)
    /\ (forall opt n, o = Some opt -> n ∈ o_Tags opt -> attached (a_RepositoryID a) id n (tb s')).
Proof.
  intros E Hin. apply bind_inv in E as ([c a] & s1 & E1 & E).
  assert (Hin1 : integrity (tb s1)).
  { eapply (frame_tb keeps_integrity); [|exact E1|exact Hin].
    unfold Artifact.ensureArtifact, art_Create, link_candidate. frame_tac. }
  destruct (ensureArtifact_ok _ _ _ _ _ _ E1 (it_keyed _ Hin)) as (H1 & H2 & H3 & H4 & H5).
  apply bind_inv in E as (u & s2 & E2 & E).
  assert (Htb : tb s' = tb s2 /\ created = c /\ id = a_ID (row a)).
  { apply bind_inv in E as (p & s3 & E3 & E). pose proof (frame_tb eq _ _ _ _ (frame_project_GetByName _) E3) as Et.
    destruct (IsProxy p && negb c); [by injection E as <- <- <-|].
    apply bind_inv in E as (v & s4 & E4 & E). injection E as <- <- <-. injection E4 as _ <-. by rewrite Et. }
  destruct Htb as (-> & -> & ->). exists (row a).
  assert (Htags : arts (tb s2) = arts (tb s1)
     /\ forall opt n, o = Some opt -> n ∈ o_Tags opt -> attached (a_RepositoryID (row a)) (a_ID (row a)) n (tb s2)).
  { destruct o as [opt|]; [|injection E2 as _ <-; split; [done|by intros]].
    apply bind_inv in E2 as ([] & s3 & E3 & E4). destruct (ensure_tags_ok _ _ _ _ _ E3 Hin1) as (T1 & _ & _ & T4).
    assert (HF : frame keeps_arts_tags (iterM (fun acc => acc_Ensure (a_Digest (row a)) (a_RepositoryName (row a)) (a_ID (row a))
        (ad_ArtifactID acc) (ad_Size acc) (ad_Digest acc) (ad_Type acc)) (o_Accs opt))) by frame_tac.
    destruct (frame_tb _ _ _ _ _ HF E4) as [A4 G4]. split; [congruence|].
    intros opt' n [= <-] Hn. destruct (T4 n Hn) as (i & g & Hg). exists i, g. by rewrite G4. }
  destruct Htags as [Harts Htags]. rewrite Harts. done.
Qed.
End Controller.

(** ** The abstraction of manifests *)

Section Manifests.
Context (digest_valid : string -> bool) {Content : Type} (content_length : Content -> Z).
Context (decode_v1 : Content -> result (list string)) (decode_v2 : Content -> result Manifest.ManifestV2).
Context (decode_index : Content -> result Manifest.Index).
Context (decode_statement : Content -> result (list Manifest.inTotoSubject)).
Context (PullManifest : string -> string -> result (string * Content)) (PullBlob : string -> string -> result Content).
Context (processor : string -> Artifact -> Content -> M db Artifact).
(** A processor adds attributes. *)
Context (processor_quiet : forall t a c, frame quiet_step (processor t a c)).
Context (processor_id : forall t a c s b s', processor t a c s = (Ok b, s') ->
  a_RepositoryName (row b) = a_RepositoryName (row a) /\ a_Digest (row b) = a_Digest (row a)).

Abbreviation Abstract := (Manifest.AbstractMetadata digest_valid content_length decode_v1 decode_v2 decode_index
  decode_statement PullManifest PullBlob processor).

Lemma frame_candidate {R} `{!PreOrder R} r d t subjects : frame R (Manifest.candidate r d t subjects).
Proof. unfold Manifest.candidate. frame_tac. Qed.

Lemma frame_classify_loop {R} `{!PreOrder R} r children n subjects l :
  frame R (Manifest.classify_loop digest_valid content_length decode_v2 decode_statement PullManifest PullBlob
             r children n subjects l).
Proof.
  revert n subjects. induction l as [|d l IH]; intros n subjects; simpl; [frame_tac|].
  destruct (negb _); [frame_tac|]. destruct (Manifest.target _ _ _ _ _ _ _ _ _ d) as [t k].
  destruct (t =s= ""); [frame_tac|]. frame_tac. apply frame_candidate.
Qed.

Lemma frame_child_refs {R} `{!PreOrder R} r l : frame R (Manifest.child_refs r l).
Proof. induction l as [|d l IH]; simpl; frame_tac. Qed.

(** What the abstractors keep of an artifact. *)
Definition same_id (a b : Artifact) : Prop :=
  a_RepositoryName (row b) = a_RepositoryName (row a) /\ a_Digest (row b) = a_Digest (row a).

Lemma manifest_Get_ok mt abs :
  Manifest.manifest_Get digest_valid content_length decode_v1 decode_v2 decode_index decode_statement
    PullManifest PullBlob mt = Ok abs ->
  forall a c, frame quiet_step (abs a c) /\ forall s b s', abs a c s = (Ok b, s') -> same_id a b.
Proof.
  unfold Manifest.manifest_Get. destruct (existsb _ _); [|destruct (existsb _ _); [|destruct (existsb _ _); [|done]]].
  all: intros [= <-] a c; split.
  - unfold Manifest.Abstract_v1. frame_tac. apply frame_blob. intros tr fs. apply blob_frame_query.
  - intros s b s' E. apply bind_inv in E as (ds & s1 & _ & E). apply bind_inv in E as (bs & s2 & _ & E).
    by injection E as <- _.
  - unfold Manifest.Abstract_v2. frame_tac.
  - intros s b s' E. apply bind_inv in E as (mf & s1 & _ & E). by injection E as <- _.
  - unfold Manifest.Abstract_index, Manifest.Classify. frame_tac;
      first [apply frame_classify_loop | apply frame_child_refs].
  - intros s b s' E. apply bind_inv in E as (ix & s1 & _ & E). apply bind_inv in E as (r & s2 & _ & E).
    apply bind_inv in E as (rs & s3 & _ & E). by injection E as <- _.
Qed.

(** The abstractors of the manifests keep their promise to the controller. *)
#[global] Instance manifest_abstractor : Abstractor Abstract.
Proof.
  split.
  - intros a. unfold Manifest.AbstractMetadata. apply frame_bind_result; [apply _|]. intros mc _.
    apply frame_bind_result; [apply _|]. intros abs Eg.
    apply frame_bind; [apply _|by apply manifest_Get_ok with mc.1|]. intros a2. apply processor_quiet.
  - intros a s b s' E. apply bind_inv in E as (mc & s1 & _ & E). apply bind_inv in E as (abs & s2 & Eg & E).
    injection Eg as Eg <-. apply bind_inv in E as (a2 & s3 & E2 & E). apply processor_id in E as [-> ->].
    exact (proj2 (manifest_Get_ok _ _ Eg _ _) _ _ _ E2).
Qed.
End Manifests.

(** ** Samples *)

Definition sample_is_digest (s : string) : bool := GoStrings.HasPrefix s "sha256:".

(** A manifest is known from the artifact with its digest: its media types, and
    its children by their digests. *)
Definition sample_abstract (a : Artifact) : M db Artifact :=
  o <- select (fun t => List.find (fun b => a_Digest b =s= a_Digest (row a)) (rows (arts t))) ;;
  match o with
  | None => fail ErrNoRows
  | Some b =>
      ds <- select (fun t => r_ChildDigest <$> List.filter (fun r => r_ParentID r =? a_ID b) (rows (refs t))) ;;
      rs <- mapM (fun d => c <- art_GetByDigest (a_RepositoryName (row a)) d ;;
                           ret (mkReference 0 0 (a_ID (row c)) d)) ds ;;
      let d := row a in
      ret (mkArtifact (mkArtRow 0 "" (a_MediaType b) (a_ManifestMediaType b) (a_ArtifactType b) (a_ProjectID d)
             (a_RepositoryID d) (a_RepositoryName d) (a_Digest d) (a_Size b) "" (a_PushTime d) 0) rs [])
  end.

Definition sample_type (_ : string) (_ : Artifact) : string := "IMAGE".
Definition sample_regcopy (_ _ _ : string) : M db unit := ret tt.

Abbreviation sample_Copy := (Copy Retention.sample_Match Retention.sample_parse Retention.sample_sort sample_is_digest
  sample_abstract sample_type sample_regcopy).

Definition with_repo2 (t : tables) : tables := with_repos t (<[2 := mkRepo 2 "library/copy" 1 0]> (repos t)).

(** The sample index, and a second repository. *)
Definition copy_db : db :=
  mkConn (with_repo2 (sample_tables [])) (mkRequest 5 3 3 2 1 100 [] None) false false [].

(** An image whose accessory is an index with one image. *)
Definition nested_tables : tables :=
  mkTables
    {[1 := sample_art 1 image_type "sha256:a"; 2 := sample_art 2 MediaTypeImageIndex "sha256:i";
      3 := sample_art 3 image_type "sha256:c"]}
    {[1 := mkReference 1 2 3 "sha256:c"]} ∅
    {[1 := mkAccessory 1 2 1 "library/app" "sha256:a" 10 "sha256:i" TypeSubject]}
    ∅ ∅ {[1 := mkRepo 1 "library/app" 1 0]} {["library" := mkProject 1 0]} ∅
    (Blob.mkStore ∅ 1 ∅ ∅ [] ∅ ∅ ∅ []).

Definition nested_db : db :=
  mkConn (with_repo2 nested_tables) (mkRequest 5 3 3 2 1 100 [] None) false false [].

(** ** What copying does *)

(** An artifact with an accessory that is an index cannot be copied: when
    the children of that index are ensured, the accessory itself is already in
    the shared list without its identifier, and the row for it violates the
    foreign key.  The accessory alone can be copied. *)
Theorem copy_index_accessory_fails :
  (sample_Copy 8 "library/app" "sha256:a" "library/copy" nested_db).1 = Err ForeignKeyViolation
  /\ is_ok (sample_Copy 8 "library/app" "sha256:i" "library/copy" nested_db).1 = true.
Proof. vm_compute. done. Qed.

(** The tags of the children of an index are copied with it. *)
Theorem copy_takes_child_tags :
  exists id s', sample_Copy 8 "library/app" "sha256:i" "library/copy" copy_db = (Ok id, s')
    /\ exists i g, tags (tb s') !! i = Some g /\ t_RepositoryID g = 2 /\ t_Name g = "v3" /\ t_ArtifactID g <> id.
Proof.
  eexists _, _. split; [vm_compute; reflexivity|]. exists 3. eexists. split; [vm_compute; reflexivity|]. done.
Qed.

(** A second copy of an artifact does not bring the accessories it got since
    the first. *)
Definition recopy_db : db :=
  mkConn (with_repo2 (mkTables
    {[2 := sample_art 2 image_type "sha256:a"; 4 := sample_art 4 image_type "sha256:s";
      5 := mkArtRow 5 "IMAGE" image_type image_type "" 1 2 "library/copy" "sha256:a" 10 "" 0 0]}
    ∅ ∅ {[1 := mkAccessory 1 4 2 "library/app" "sha256:a" 10 "sha256:s" TypeCosignSignature]}
    ∅ ∅ {[1 := mkRepo 1 "library/app" 1 0]} {["library" := mkProject 1 0]} ∅
    (Blob.mkStore ∅ 1 ∅ ∅ [] ∅ ∅ ∅ []))) (mkRequest 6 1 1 2 1 100 [] None) false false [].

Theorem recopy_skips_accessories :
  exists s', sample_Copy 8 "library/app" "sha256:a" "library/copy" recopy_db = (Ok 5, s')
    /\ accs (tb s') = accs (tb recopy_db).
Proof. eexists. split; vm_compute; reflexivity. Qed.

(** ** What walking does *)

(** A function that records its visits. *)
Definition visit (a : ArtifactC) (visits : list Z) : M db (list Z * option error) :=
  ret (visits ++ [a_ID (row (art a))], None).

(** The accessory of a child is visited twice: it is queued with the child and
    again when the child is visited, before it has been walked itself. *)
Theorem walk_visits_accessory_twice :
  exists root, Get Retention.sample_Match Retention.sample_parse Retention.sample_sort 1
                    (Some (mkOption false false false true)) copy_db = (Ok root, copy_db)
    /\ (Walk Retention.sample_Match Retention.sample_parse Retention.sample_sort visit
         (Some (mkOption false false false true)) 8 root [] copy_db).1 = Ok [1; 3; 2; 4; 4].
Proof. eexists. split; [vm_compute; reflexivity|]. vm_compute. reflexivity. Qed.

(** ** When immutability is not seen *)

Section Unseen.
Context (doublestar_Match : string -> string -> result bool).
Context (parse_untagged : string -> option bool).
Context (sort_by : (Retention.Candidate -> Z) -> list Retention.Candidate -> list Retention.Candidate).

(** The tag controller fails open: where matching the rules of a project
    gives an error, as a single rule with a malformed pattern or an unknown
    decoration does, any tag of the project can be deleted, also one that
    another rule protects. *)
Theorem broken_rule_unprotects s i g b e :
  quiet_conn s -> tags (tb s) !! i = Some g -> arts (tb s) !! t_ArtifactID g = Some b ->
  Retention.Match sort_by (clock (ext s)) doublestar_Match parse_untagged
    (default [] (immutable_rules (tb s) !! a_ProjectID b))
    (candidate_of (ParseRepository (a_RepositoryName b)).2 (t_Name g) (a_ProjectID b)) = Err e ->
  exists s', tag_Delete doublestar_Match parse_untagged sort_by i s = (Ok tt, s')
    /\ tags (tb s') = delete i (tags (tb s)).
Proof.
  destruct s as [t x m ab fs]. intros [Ha Hf] Hg Hb He. simpl in Ha, Hf, Hg, Hb, He. subst ab fs.
  assert (Hget : art_Get (t_ArtifactID g) (mkConn t x m false [])
                 = (Ok (mkArtifact b (if IsImageIndex b then List.filter (fun r => r_ParentID r =? a_ID b) (rows (refs t)) else []) []),
                    mkConn t x m false [])).
  { unfold art_Get, art_dao_Get, bind, select, call. simpl. rewrite Hb. unfold ret, assemble.
    destruct (IsImageIndex b); reflexivity. }
  assert (Hpop : populateImmutableStatus doublestar_Match parse_untagged sort_by g (mkConn t x m false [])
                 = (Ok (mkTag g false), mkConn t x m false [])).
  { unfold populateImmutableStatus, bind, try. rewrite Hget. unfold Match, bind, select, call, Now, of_result. simpl.
    by rewrite He. }
  assert (Hdel : tag_Get doublestar_Match parse_untagged sort_by i true (mkConn t x m false [])
                 = (Ok (mkTag g false), mkConn t x m false [])).
  { unfold tag_Get, tag_dao_Get, bind, select, call. simpl. rewrite Hg. exact Hpop. }
  unfold tag_Delete, bind at 1. rewrite Hdel. simpl. unfold tag_dao_Delete, bind, update, call. simpl. rewrite Hg. simpl.
  destruct (touchRepo (t_RepositoryID g) (mkConn (with_tags t (delete i (tags t))) x m false [])) as [r s'] eqn:Et.
  assert (r = Ok tt) as -> by (revert Et; unfold touchRepo, bind, try; destruct (Touch _ _); by intros [= <- _]).
  exists s'. split; [done|]. by destruct (frame_tb _ _ _ _ _ (frame_touch_quiet _) Et) as (_ & _ & ->).
Qed.

(** *** The shared matcher

    The tag controller is one object for all requests, and so is its matcher,
    whose field [rules] each [Match] overwrites with the rules of its own
    project before it loops over them. *)

(** A request in the matcher: before it reads the rules, before it stores
    them, before its loop, and with its answer. *)
Inductive phase :=
| Asked
| Read (rules : list Retention.ImmutableRule)
| Stored
| Answered (r : result bool).

Record match_request := mkMatchRequest { q_project : Z; q_candidate : Retention.Candidate; q_phase : phase }.

Definition set_phase (p : phase) (q : match_request) : match_request :=
  mkMatchRequest (q_project q) (q_candidate q) p.

(** The field of the matcher and the requests in it. *)
Definition matcher : Type := list Retention.ImmutableRule * list match_request.

Context (db_rules : Z -> list Retention.ImmutableRule) (now : Z).

Inductive match_step : matcher -> matcher -> Prop :=
| step_read field qs k q :
    qs !! k = Some q -> q_phase q = Asked ->
    match_step (field, qs) (field, <[k := set_phase (Read (db_rules (q_project q))) q]> qs)
| step_store field qs k q rules :
    qs !! k = Some q -> q_phase q = Read rules ->
    match_step (field, qs) (rules, <[k := set_phase Stored q]> qs)
| step_loop field qs k q :
    qs !! k = Some q -> q_phase q = Stored ->
    match_step (field, qs)
      (field, <[k := set_phase (Answered (Retention.Match sort_by now doublestar_Match parse_untagged field
                                            (q_candidate q))) q]> qs).

Definition the_answer (p : Z) (c : Retention.Candidate) : result bool :=
  Retention.Match sort_by now doublestar_Match parse_untagged (db_rules p) c.

(** Requests of one project never disturb each other. *)
Definition one_project (p : Z) (m : matcher) : Prop :=
  (forall k q, m.2 !! k = Some q -> q_project q = p
     /\ match q_phase q with
        | Asked => True
        | Read rules => rules = db_rules p
        | Stored => m.1 = db_rules p
        | Answered r => r = the_answer p (q_candidate q)
        end).

Lemma one_project_step p m m' : one_project p m -> match_step m m' -> one_project p m'.
Proof.
  intros H Hs. destruct Hs as [field qs k q Hk Hp|field qs k q rules Hk Hp|field qs k q Hk Hp];
    destruct (H k q Hk) as [Hq Hph]; rewrite Hp in Hph; simpl in *; intros j r Hj; simpl in *.
  all: apply list_lookup_insert_Some in Hj as [(-> & <- & _)|[_ Hj]]; simpl.
  - by rewrite Hq.
  - apply (H j r Hj).
  - done.
  - destruct (H j r Hj) as [H1 H2]. split; [done|]. destruct (q_phase r); congruence.
  - split; [done|]. by rewrite Hph.
  - apply (H j r Hj).
Qed.

(** The matcher shared by all requests is safe among requests of one
    project, and only there: a request of another project that stores its rules
    between the store and the loop of a request makes an immutable tag count as
    mutable. *)
Theorem shared_matcher_race :
  (forall p field qs m', (forall q, q ∈ qs -> q_project q = p /\ q_phase q = Asked) ->
     rtc match_step (field, qs) m' ->
     forall k q r, m'.2 !! k = Some q -> q_phase q = Answered r -> r = the_answer p (q_candidate q))
  /\ (forall p1 p2 c1 c2, the_answer p1 c1 = Ok true -> db_rules p2 = [] ->
     exists m', rtc match_step ([], [mkMatchRequest p1 c1 Asked; mkMatchRequest p2 c2 Asked]) m'
       /\ m'.2 !! 0%nat = Some (mkMatchRequest p1 c1 (Answered (Ok false)))).
Proof.
  split.
  - intros p field qs m' Hqs Hr k q r Hk Hp.
    assert (H0 : one_project p (field, qs)).
    { intros j q' Hj. apply list_elem_of_lookup_2 in Hj. destruct (Hqs q' Hj) as [H1 H2]. by rewrite H2. }
    assert (H1 : one_project p m').
    { clear Hk. remember (field, qs) as m0. clear Heqm0 Hqs. induction Hr as [|m1 m2 m3 Hs _ IH]; [done|].
      apply IH. by eapply one_project_step. }
    destruct (H1 k q Hk) as [_ H2]. by rewrite Hp in H2.
  - intros p1 p2 c1 c2 _ H2. eexists. split.
    + eapply rtc_l; [by apply (step_read [] _ 0%nat)|]. simpl.
      eapply rtc_l; [by apply (step_read [] _ 1%nat)|]. simpl.
      eapply rtc_l; [by eapply (step_store [] _ 0%nat)|]. simpl.
      eapply rtc_l; [by eapply (step_store _ _ 1%nat)|]. simpl.
      eapply rtc_l; [by eapply (step_loop _ _ 0%nat)|]. simpl. reflexivity.
    + simpl. by rewrite H2.
Qed.
End Unseen.

(** ** Witnesses *)

(** The tests of [integrity] on finite tables. *)
Definition integrity_b (t : tables) : bool :=
  keyed_b t
  && bool_decide (map_Forall (fun i a => map_Forall (fun j b => a_RepositoryID a = a_RepositoryID b ->
       a_Digest a = a_Digest b -> i = j) (arts t)) (arts t))
  && bool_decide (map_Forall (fun i g => map_Forall (fun j h => t_RepositoryID g = t_RepositoryID h ->
       t_Name g = t_Name h -> i = j) (tags t)) (tags t))
  && bool_decide (map_Forall (fun _ r => is_Some (arts t !! r_ParentID r) /\ is_Some (arts t !! r_ChildID r)) (refs t))
  && bool_decide (map_Forall (fun _ g => is_Some (arts t !! t_ArtifactID g)) (tags t))
  && bool_decide (map_Forall (fun _ c => is_Some (arts t !! c_ArtifactID c)) (accs t))
  && bool_decide (set_Forall (fun l => is_Some (arts t !! l.2)) (label_refs t)).

Lemma integrity_b_ok t : integrity_b t = true -> integrity t.
Proof.
  unfold integrity_b. rewrite !andb_true_iff, !bool_decide_eq_true.
  intros ((((((H1 & H2) & H3) & H4) & H5) & H6) & H7). split; [by apply keyed_b_ok|..].
  - intros i j a b Ha Hb. by apply (H2 i a Ha j b Hb).
  - intros i j a b Ha Hb. by apply (H3 i a Ha j b Hb).
  - exact H4.
  - exact H5.
  - exact H6.
  - exact H7.
Qed.

#[global] Instance sample_abstractor : Abstractor sample_abstract.
Proof.
  split; [intros a; unfold sample_abstract; frame_tac|].
  intros a s b s' E. apply bind_inv in E as (o & s1 & _ & E). destruct o as [x|]; [|done].
  apply bind_inv in E as (ds & s2 & _ & E). apply bind_inv in E as (rs & s3 & _ & E). injection E as <- _. done.
Qed.

#[global] Instance sample_registry : RegistryClient sample_regcopy.
Proof. by intros a b c s. Qed.

Lemma ensure_artifact_and_tags_witness :
  exists created id s' a,
    Ensure Retention.sample_Match Retention.sample_parse Retention.sample_sort sample_abstract sample_type
      "library/copy" "sha256:a" (Some (mkArtOption ["v1"; "v2"]%string [])) copy_db = (Ok (created, id), s')
    /\ created = true /\ arts (tb s') !! id = Some a /\ attached (a_RepositoryID a) id "v2" (tb s').
Proof.
  eexists _, _, _. edestruct (ensure_artifact_and_tags Retention.sample_Match Retention.sample_parse Retention.sample_sort
    sample_abstract sample_type "library/copy" "sha256:a" (Some (mkArtOption ["v1"; "v2"]%string [])) copy_db)
    as (a & H1 & H2 & H3 & _ & _ & H6).
  - vm_compute. reflexivity.
  - apply integrity_b_ok. vm_compute. reflexivity.
  - exists a. split; [vm_compute; reflexivity|]. split; [reflexivity|]. split; [exact H1|].
    eapply H6; [reflexivity|]. right. left.
Defined.

(** The sample with a rule that protects the tag dev, in a transaction. *)
Definition protected_db : db :=
  mkConn (sample_tables [Retention.sample_immutable]) (mkRequest 5 3 3 2 1 100 [] None) true false [].

Lemma immutable_tag_not_moved_witness :
  exists res s', tag_Ensure Retention.sample_Match Retention.sample_parse Retention.sample_sort 1 2 "dev" protected_db
                 = (res, s')
    /\ (exists e, res = Err e /\ IsErr e PreconditionCode = true) /\ tb s' = tb protected_db.
Proof.
  eexists _, _. split; [vm_compute; reflexivity|].
  eapply (immutable_tag_not_moved Retention.sample_Match Retention.sample_parse Retention.sample_sort 2 protected_db
    _ _ 1 (mkTagRow 1 1 1 "dev" 0 0) (sample_art 1 MediaTypeImageIndex "sha256:i")).
  - vm_compute. reflexivity.
  - reflexivity.
  - reflexivity.
  - apply integrity_b_ok. vm_compute. reflexivity.
  - reflexivity.
  - discriminate.
  - reflexivity.
  - intros now. vm_compute. reflexivity.
Defined.

(** A rule with an unknown decoration before the one that protects the tag. *)
Definition broken_rule : Retention.ImmutableRule :=
  Retention.mkImmutableRule false "immutable_template" (fun _ => None)
    [Retention.mkSelectorMeta "doublestar" "matching" "dev" ""]
    [Retention.mkSelectorMeta "doublestar" Retention.RepoMatches "**" ""].

Lemma broken_rule_unprotects_witness :
  exists s', tag_Delete Retention.sample_Match Retention.sample_parse Retention.sample_sort 1
               (sample_db [broken_rule; Retention.sample_immutable] []) = (Ok tt, s')
    /\ tags (tb s') = delete 1 (tags (sample_tables [])).
Proof.
  eapply (broken_rule_unprotects Retention.sample_Match Retention.sample_parse Retention.sample_sort
    (sample_db [broken_rule; Retention.sample_immutable] []) 1 (mkTagRow 1 1 1 "dev" 0 0)
    (sample_art 1 MediaTypeImageIndex "sha256:i")).
  - split; reflexivity.
  - reflexivity.
  - reflexivity.
  - vm_compute. reflexivity.
Defined.

Lemma shared_matcher_race_witness :
  exists m', rtc (match_step Retention.sample_Match Retention.sample_parse Retention.sample_sort
                    (fun p => if p =? 1 then [Retention.sample_immutable] else []) 0)
               ([], [mkMatchRequest 1 (candidate_of "app" "dev" 1) Asked; mkMatchRequest 2 (candidate_of "x" "y" 2) Asked]) m'
    /\ m'.2 !! 0%nat = Some (mkMatchRequest 1 (candidate_of "app" "dev" 1) (Answered (Ok false))).
Proof.
  apply (shared_matcher_race Retention.sample_Match Retention.sample_parse Retention.sample_sort
           (fun p => if p =? 1 then [Retention.sample_immutable] else []) 0).
  - vm_compute. reflexivity.
  - reflexivity.
Defined.
