(* ===== verification/Vuln.v ===== *)
(** * Vulnerability reports and the CVE allowlist

    [src/pkg/scan/vuln]: severities, the items of a report and how the reports
    of the parts of an artifact are merged, their summaries and identifiers;
    [src/pkg/scan/report]: resolving the stored reports of an artifact;
    [src/pkg/allowlist]: the list of CVEs that are let through.

    The title casing of severities is a third-party library, a parameter; the
    decoder of the reports' JSON and the codec of the allowlist's items are
    parameters too.  Base 64 is modelled. *)

From S2P Require Import Prelude Errors JobStatus.
Import GoStrings.

(** ** Severities *)

Definition None_ : string := "None".
Definition Unknown : string := "Unknown".
Definition Negligible : string := "Negligible".
Definition Low : string := "Low".
Definition Medium : string := "Medium".
Definition High : string := "High".
Definition Critical : string := "Critical".

Definition Code (s : string) : Z :=
  if (s =s= "None") || (s =s= "Unknown") then 0
  else if s =s= "Negligible" then 1
  else if s =s= "Low" then 2
  else if s =s= "Medium" then 3
  else if s =s= "High" then 4
  else if s =s= "Critical" then 5
  else 99.

(** [title] is the title casing of the text library. *)
Definition ParseSeverityVersion3 (title : string -> string) (str : string) : string :=
  let severity := title str in
  if existsb (String.eqb severity) [None_; Low; Medium; High; Critical] then severity
  else if severity =s= Negligible then None_
  else Unknown.

Definition mergeSeverity (s1 s2 : string) : string :=
  let severityValue s := if s =s= "" then -1 else Code s in
  if severityValue s1 >? severityValue s2 then s1 else s2.

(** ** Items *)

(** The fields that are read here; the descriptions, links and scores are
    passed on as they are. *)
Record VulnerabilityItem := mkItem {
  v_ID : string;
  v_Package : string;
  v_Version : string;
  v_FixVersion : string;
  v_Severity : string;
  v_ArtifactDigests : list string;
}.

Definition Key (item : VulnerabilityItem) : string :=
  (v_ID item ++ "-" ++ v_Package item ++ "-" ++ v_Version item)%string.

Definition with_digests (item : VulnerabilityItem) (l : list string) : VulnerabilityItem :=
  mkItem (v_ID item) (v_Package item) (v_Version item) (v_FixVersion item) (v_Severity item) l.

(** A [VulnerabilityItemList] is its items; the index by key holds the items
    themselves. *)
Definition GetItem (l : list VulnerabilityItem) (key : string) : option VulnerabilityItem :=
  List.find (fun v => Key v =s= key) l.

(** An item whose key is indexed gives its digests to the item there. *)
Definition add_item (l : list VulnerabilityItem) (item : VulnerabilityItem) : list VulnerabilityItem :=
  match GetItem l (Key item) with
  | Some _ => (fun v => if Key v =s= Key item then with_digests v (v_ArtifactDigests v ++ v_ArtifactDigests item) else v) <$> l
  | None => l ++ [item]
  end.

Definition Add (l items : list VulnerabilityItem) : list VulnerabilityItem := foldl add_item l items.

(** [NewVulnerabilityItemList]; [None] is the nil list. *)
Definition NewVulnerabilityItemList (lists : list (option (list VulnerabilityItem))) : option (list VulnerabilityItem) :=
  match omap id lists with
  | [] => None
  | available => Some (foldl Add [] available)
  end.

Record VulnerabilitySummary := mkSummary { Total : Z; Fixable : Z; Summary : gmap string Z }.

Definition count_item (acc : string * VulnerabilitySummary) (v : VulnerabilityItem) : string * VulnerabilitySummary :=
  let '(severity, sum) := acc in
  (if Code (v_Severity v) >? Code severity then v_Severity v else severity,
   mkSummary (Total sum) (if v_FixVersion v =s= "" then Fixable sum else Fixable sum + 1)
     (<[v_Severity v := default 0 (Summary sum !! v_Severity v) + 1]> (Summary sum))).

Definition GetSeveritySummary (l : option (list VulnerabilityItem)) : string * option VulnerabilitySummary :=
  match l with
  | None => ("", None)
  | Some l =>
      let '(severity, sum) := foldl count_item (None_, mkSummary (Z.of_nat (length l)) 0 ∅) l in
      (severity, Some sum)
  end.

(** ** Reports *)

Record Report := mkReport {
  GeneratedAt : string;
  Scanner : string;
  r_Severity : string;
  Vulnerabilities : list VulnerabilityItem;
  vulnerabilityItemList : option (list VulnerabilityItem);
}.

Definition GetVulnerabilityItemList (r : Report) : list VulnerabilityItem :=
  match vulnerabilityItemList r with
  | Some l => l
  | None => Add [] (Vulnerabilities r)
  end.

(** Times of reports are compared as texts. *)
Definition text_after (s t : string) : bool :=
  match String.compare s t with Gt => true | _ => false end.

Definition Merge (report another : Report) : Report :=
  let newer := text_after (GeneratedAt another) (GeneratedAt report) in
  let l := Add (GetVulnerabilityItemList report) (Vulnerabilities another) in
  mkReport (if newer then GeneratedAt another else GeneratedAt report)
    (if newer then Scanner another else Scanner report)
    (mergeSeverity (r_Severity report) (r_Severity another)) l (Some l).

Definition WithArtifactDigest (r : Report) (digest : string) : Report :=
  mkReport (GeneratedAt r) (Scanner r) (r_Severity r)
    ((fun v => with_digests v [digest]) <$> Vulnerabilities r) (vulnerabilityItemList r).

(** ** Status of a scan *)

Definition MergeScanStatus (s1 s2 : string) : string :=
  if (s1 =s= Status.RunningStatus) || (s2 =s= Status.RunningStatus) then Status.RunningStatus
  else if (s1 =s= Status.StoppedStatus) || (s2 =s= Status.StoppedStatus) then Status.StoppedStatus
  else if (s1 =s= Status.SuccessStatus) || (s2 =s= Status.SuccessStatus) then Status.SuccessStatus
  else if Status.After s1 s2 then s1 else s2.

(** ** Base 64 *)

Definition b64_char (n : N) : ascii :=
  Ascii.ascii_of_N (if n <? 26 then 65 + n else if n <? 52 then 71 + n else if n <? 62 then n - 4
                    else if n =? 62 then 43 else 47)%N.

Definition b64_value (c : ascii) : option N :=
  let n := Ascii.N_of_ascii c in
  (if (65 <=? n) && (n <=? 90) then Some (n - 65)
   else if (97 <=? n) && (n <=? 122) then Some (n - 71)
   else if (48 <=? n) && (n <=? 57) then Some (n + 4)
   else if n =? 43 then Some 62
   else if n =? 47 then Some 63
   else None)%N.

Definition code (c : ascii) : N := Ascii.N_of_ascii c.

Fixpoint EncodeToString (s : string) : string :=
  match s with
  | EmptyString => EmptyString
  | String a EmptyString =>
      String (b64_char (code a / 4)) (String (b64_char (code a mod 4 * 16)) "==")
  | String a (String b EmptyString) =>
      String (b64_char (code a / 4))
        (String (b64_char (code a mod 4 * 16 + code b / 16)) (String (b64_char (code b mod 16 * 4)) "="))
  | String a (String b (String c s')) =>
      String (b64_char (code a / 4))
        (String (b64_char (code a mod 4 * 16 + code b / 16))
          (String (b64_char (code b mod 16 * 4 + code c / 64))
            (String (b64_char (code c mod 64)) (EncodeToString s'))))
  end.

(** The decoder skips line ends; the last group may be padded. *)
Fixpoint strip_newlines (s : string) : string :=
  match s with
  | EmptyString => EmptyString
  | String c s' =>
      if (Ascii.eqb c "010" || Ascii.eqb c "013")%bool then strip_newlines s' else String c (strip_newlines s')
  end.

Definition byte (n : N) : ascii := Ascii.ascii_of_N (n mod 256).

Fixpoint decode_groups (s : string) : option string :=
  match s with
  | EmptyString => Some EmptyString
  | String a (String b (String c (String d s'))) =>
      match b64_value a, b64_value b with
      | Some x, Some y =>
          let first := byte (x * 4 + y / 16) in
          if Ascii.eqb c "=" && Ascii.eqb d "=" && (s' =s= "") then Some (String first "")
          else
            match b64_value c with
            | None => None
            | Some z =>
                let second := byte (y mod 16 * 16 + z / 4) in
                if Ascii.eqb d "=" && (s' =s= "") then Some (String first (String second ""))
                else
                  match b64_value d with
                  | None => None
                  | Some w => (fun r => String first (String second (String (byte (z mod 4 * 64 + w)) r))) <$> decode_groups s'
                  end
            end
      | _, _ => None
      end
  | _ => None
  end.

Definition DecodeString (s : string) : option string := decode_groups (strip_newlines s).

(** ** Identifiers of merged reports *)

Definition mergeReportID (r1 r2 : string) : string :=
  let src := default r1 (DecodeString r1) in
  EncodeToString (src ++ "|" ++ r2).

Definition ParseReportIDs (s : string) : list string := Split (default s (DecodeString s)) "|".

(** ** Summaries *)

Record NativeReportSummary := mkNative {
  ReportID : string;
  ScanStatus : string;
  n_Severity : string;
  Duration : Z;
  n_Summary : option VulnerabilitySummary;
  StartTime : Z;
  EndTime : Z;
  n_Scanner : string;
  CompletePercent : Z;
  TotalCount : Z;
  CompleteCount : Z;
  n_List : option (list VulnerabilityItem);
}.

(** Times in seconds; the counts are of the parts of one artifact. *)
Definition Merge_summary (sum another : NativeReportSummary) : NativeReportSummary :=
  let start := if StartTime sum <? StartTime another then StartTime sum else StartTime another in
  let end_ := if EndTime sum <? EndTime another then EndTime another else EndTime sum in
  let total := TotalCount sum + TotalCount another in
  let complete := CompleteCount sum + CompleteCount another in
  let status := MergeScanStatus (ScanStatus sum) (ScanStatus another) in
  let l := NewVulnerabilityItemList [n_List sum; n_List another] in
  let '(severity, summary) := GetSeveritySummary l in
  let running := status =s= Status.RunningStatus in
  mkNative (mergeReportID (ReportID sum) (ReportID another)) status
    (if running then "" else severity) (end_ - start) (if running then None else summary) start end_
    (if StartTime another <? StartTime sum then n_Scanner sum else n_Scanner another)
    (if 0 <? total then Z.quot (complete * 100) total else 0) total complete (if running then None else l).

(** ** Stored reports *)

Record ReportRow := mkReportRow {
  rr_UUID : string;
  rr_Digest : string;
  rr_RegistrationUUID : string;
  rr_MimeType : string;
  rr_Report : string;
  rr_Status : string;
  rr_StartTime : Z;
  rr_EndTime : Z;
}.

Definition MimeTypeNativeReport : string := "application/vnd.scanner.adapter.vuln.report.harbor+json; version=1.0".
Definition MimeTypeGenericVulnerabilityReport : string := "application/vnd.security.vulnerability.report; version=1.1".

Definition supported_mime (mime : string) : bool :=
  (mime =s= MimeTypeNativeReport) || (mime =s= MimeTypeGenericVulnerabilityReport).

Section Stored.
Context (unmarshal : string -> result Report).

(** [ResolveData] of one report; [None] for a type that is not supported. *)
Definition resolve_one (mime jsonData artifactDigest : string) : result (option Report) :=
  if negb (supported_mime mime) then Ok None
  else if jsonData =s= "" then Err (New "empty JSON data")
  else
    match unmarshal jsonData with
    | Err e => Err e
    | Ok rp => Ok (Some (if artifactDigest =s= "" then rp else WithArtifactDigest rp artifactDigest))
    end.

(** [Reports.ResolveData]: the merged report of those that are ready. *)
Fixpoint ResolveData (l : list ReportRow) (mimeType : string) (acc : option Report) : result (option Report) :=
  match l with
  | [] => Ok acc
  | rp :: l =>
      if (rr_Report rp =s= "") || negb (rr_MimeType rp =s= mimeType) then ResolveData l mimeType acc
      else
        match resolve_one (rr_MimeType rp) (rr_Report rp) (rr_Digest rp) with
        | Err e => Err e
        | Ok vrp =>
            match acc with
            | None => ResolveData l mimeType vrp
            | Some result =>
                match vrp with
                | Some r2 => ResolveData l mimeType (Some (Merge result r2))
                | None => Err (New "native report required")
                end
            end
        end
  end.

(** [GenerateNativeSummary]. *)
Definition GenerateNativeSummary (r : ReportRow) : result NativeReportSummary :=
  let duration := Z.max (rr_EndTime r - rr_StartTime r) 0 in
  let status := if Status.Code (rr_Status r) =? -1 then Status.ErrorStatus else rr_Status r in
  if negb (rr_Status r =s= Status.SuccessStatus)
  then Ok (mkNative (rr_UUID r) status "" duration None (rr_StartTime r) (rr_EndTime r) "" 0 1 0 None)
  else if rr_Report r =s= "" then Err (New ("no report data for " ++ rr_UUID r ++ ", status is: " ++ status))
  else
    match resolve_one (rr_MimeType r) (rr_Report r) "" with
    | Err e => Err e
    | Ok None => Err (Panic "nil pointer dereference")
    | Ok (Some rp) =>
        let l := GetVulnerabilityItemList rp in
        let '(severity, summary) := GetSeveritySummary (Some l) in
        Ok (mkNative (rr_UUID r) status severity duration summary (rr_StartTime r) (rr_EndTime r) (Scanner rp) 100 1 1 (Some l))
    end.
End Stored.

(** ** The CVE allowlist *)

Record CVEAllowlist := mkAllowlist {
  al_ProjectID : Z;
  al_ExpiresAt : option Z;
  al_Items : list string;
}.

(** A row of the table; its items are a text. *)
Record AllowlistRow := mkAllowlistRow { ar_ExpiresAt : option Z; ar_ItemsText : string }.

(** The table by its unique project identifier, and the faults to come. *)
Record alstore := mkAlstore { al_rows : gmap Z AllowlistRow; al_faults : list (option error) }.

#[global] Instance alstore_faulty : Faulty alstore := fun s =>
  match al_faults s with
  | [] => (None, s)
  | f :: fs => (f, mkAlstore (al_rows s) fs)
  end.

Definition CVESet (c : CVEAllowlist) : gset string := list_to_set (al_Items c).

Definition IsExpired (now : Z) (c : CVEAllowlist) : bool :=
  match al_ExpiresAt c with None => false | Some t => t <=? now end.

Definition NewCVESet (sets : list (gset string)) : gset string := ⋃ sets.

Fixpoint validate_items (items : list string) (seen : gset string) : result unit :=
  match items with
  | [] => Ok tt
  | it :: items =>
      if TrimSpace it =s= "" then Err (Plain "empty or whitespace-only CVE ID in allowlist")
      else if bool_decide (it ∈ seen) then Err (Plain ("duplicate CVE ID in allowlist: " ++ it))
      else validate_items items ({[it]} ∪ seen)
  end.

Definition Validate (wl : CVEAllowlist) : result unit := validate_items (al_Items wl) ∅.

(** The JSON codec of the items. *)
Class ItemsCodec := {
  marshal_items : list string -> string;
  unmarshal_items : string -> result (list string);
  unmarshal_marshal : forall l, unmarshal_items (marshal_items l) = Ok l;
}.

Section Allowlist.
Context `{ItemsCodec}.

(** [InsertOrUpdate] on the project identifier. *)
Definition dao_Set (l : CVEAllowlist) : M alstore unit :=
  io (modify (fun s => mkAlstore
    (<[al_ProjectID l := mkAllowlistRow (al_ExpiresAt l) (marshal_items (al_Items l))]> (al_rows s)) (al_faults s))).

Definition QueryByProjectID (pid : Z) : M alstore (option CVEAllowlist) :=
  r <- try (io (fun s => (Ok (al_rows s !! pid), s))) ;;
  match r with
  | Err e => fail (Plain ("failed to get CVE allowlist for project, error: " ++ Error_string e))
  | Ok None => ret None
  | Ok (Some row) =>
      match unmarshal_items (ar_ItemsText row) with
      | Err e => fail e
      | Ok items => ret (Some (mkAllowlist pid (ar_ExpiresAt row) items))
      end
  end.

Definition al_CreateEmpty (projectID : Z) : M alstore unit := dao_Set (mkAllowlist projectID None []).

Definition al_Set (projectID : Z) (list : CVEAllowlist) : M alstore unit :=
  let list := mkAllowlist projectID (al_ExpiresAt list) (al_Items list) in
  match Validate list with
  | Err e => fail e
  | Ok _ => dao_Set list
  end.

Definition al_Get (projectID : Z) : M alstore CVEAllowlist :=
  wl <- QueryByProjectID projectID ;;
  ret (match wl with None => mkAllowlist projectID None [] | Some wl => wl end).

Definition SetSys (list : CVEAllowlist) : M alstore unit := al_Set 0 list.
Definition GetSys : M alstore CVEAllowlist := al_Get 0.

(** [loadEffectCVEAllowlists] for one project; [reuse] is its metadata. *)
Definition effective_allowlist (projectID : Z) (reuse : bool) : M alstore CVEAllowlist :=
  if reuse then
    wl <- GetSys ;; ret (mkAllowlist projectID (al_ExpiresAt wl) (al_Items wl))
  else al_Get projectID.
End Allowlist.

(** ** Items of merged reports *)

(** The items with a key. *)
Definition of_key (k : string) (l : list VulnerabilityItem) : list VulnerabilityItem :=
  List.filter (fun v => Key v =s= k) l.

(** The keys in the order of their first occurrence. *)
Definition first_keys (l : list VulnerabilityItem) : list string :=
  foldl (fun ks v => if bool_decide (Key v ∈ ks) then ks else ks ++ [Key v]) [] l.

(** The reference: of each key its first item, with the digests of all. *)
Definition pick (l : list VulnerabilityItem) (k : string) : option VulnerabilityItem :=
  match of_key k l with
  | [] => None
  | v :: _ => Some (with_digests v (flat_map v_ArtifactDigests (of_key k l)))
  end.

Definition united (l : list VulnerabilityItem) : list VulnerabilityItem := omap (pick l) (first_keys l).

Lemma Key_with_digests v l : Key (with_digests v l) = Key v.
Proof. done. Qed.

Lemma of_key_app k l m : of_key k (l ++ m) = of_key k l ++ of_key k m.
Proof. apply List.filter_app. Qed.

Lemma of_key_nil k l : of_key k l = [] <-> k ∉ Key <$> l.
Proof.
  unfold of_key. induction l as [|v l IH]; cbn; [split; [intros _; apply not_elem_of_nil|done]|].
  rewrite elem_of_cons. destruct (String.eqb_spec (Key v) k) as [->|Hne]; [split; [done|intros []; by left]|].
  rewrite IH. split; [|tauto]. intros H [->|]; tauto.
Qed.

Lemma first_keys_snoc l v :
  first_keys (l ++ [v]) = if bool_decide (Key v ∈ first_keys l) then first_keys l else first_keys l ++ [Key v].
Proof. unfold first_keys. by rewrite foldl_app. Qed.

Lemma elem_of_first_keys l k : k ∈ first_keys l <-> k ∈ Key <$> l.
Proof.
  induction l as [|v l IH] using rev_ind; [done|]. rewrite first_keys_snoc, fmap_app, elem_of_app. cbn.
  rewrite list_elem_of_singleton. case_bool_decide as Hd; [|by rewrite elem_of_app, list_elem_of_singleton, IH].
  rewrite IH. split; [tauto|]. intros [?| ->]; [done|]. by rewrite <- IH.
Qed.

Lemma NoDup_first_keys l : NoDup (first_keys l).
Proof.
  induction l as [|v l IH] using rev_ind; [constructor|]. rewrite first_keys_snoc. case_bool_decide as Hd; [done|].
  apply NoDup_app. split_and!; [done| |apply NoDup_singleton]. intros x Hx ->%list_elem_of_singleton. done.
Qed.

Lemma pick_key l k v : pick l k = Some v -> Key v = k.
Proof.
  unfold pick. destruct (of_key k l) as [|w r] eqn:E; [done|]. intros [= <-]. rewrite Key_with_digests.
  assert (Hin : w ∈ of_key k l) by (rewrite E; by left). apply list_elem_of_In, filter_In in Hin as [_ Hin].
  by apply String.eqb_eq.
Qed.

Lemma pick_Some l k : k ∈ Key <$> l -> is_Some (pick l k).
Proof. intros H. unfold pick. destruct (of_key k l) eqn:E; [by apply of_key_nil in E|done]. Qed.

Lemma pick_other l v k : k <> Key v -> pick (l ++ [v]) k = pick l k.
Proof.
  intros Hne. unfold pick. rewrite of_key_app. cbn. destruct (String.eqb_spec (Key v) k); [congruence|].
  by rewrite app_nil_r.
Qed.

Lemma pick_same l v w :
  pick l (Key v) = Some w ->
  pick (l ++ [v]) (Key v) = Some (with_digests w (v_ArtifactDigests w ++ v_ArtifactDigests v)).
Proof.
  unfold pick. rewrite of_key_app. cbn. rewrite String.eqb_refl.
  destruct (of_key (Key v) l) as [|x r]; [done|]. intros [= <-]. cbn. f_equal. unfold with_digests. cbn.
  rewrite flat_map_app. cbn. by rewrite app_nil_r, (assoc_L (++)).
Qed.

Lemma pick_new l v : Key v ∉ Key <$> l -> pick (l ++ [v]) (Key v) = Some v.
Proof.
  intros H%of_key_nil. unfold pick. rewrite of_key_app, H. cbn. rewrite String.eqb_refl. cbn. rewrite app_nil_r.
  by destruct v.
Qed.

(** An item of the reference for each key. *)
Lemma united_keys l : Key <$> united l = first_keys l.
Proof.
  unfold united. assert (H : forall ks : list string, (forall k, k ∈ ks -> k ∈ Key <$> l) -> Key <$> omap (pick l) ks = ks).
  { induction ks as [|k ks IH]; intros Hk; [done|]. cbn.
    destruct (pick_Some l k) as [v E]; [apply Hk; by left|]. rewrite E. cbn. rewrite (pick_key _ _ _ E), IH; [done|].
    intros k' Hk'. apply Hk. by right. }
  apply H. intros k. by rewrite elem_of_first_keys.
Qed.

Lemma GetItem_None l k : GetItem l k = None <-> k ∉ Key <$> l.
Proof.
  unfold GetItem. induction l as [|v l IH]; cbn; [split; [intros _; apply not_elem_of_nil|done]|]. rewrite elem_of_cons.
  destruct (String.eqb_spec (Key v) k) as [->|Hne]; [split; [done|intros []; by left]|]. rewrite IH. split; [|tauto]. intros H [->|]; tauto.
Qed.

Lemma united_snoc l v : united (l ++ [v]) = add_item (united l) v.
Proof.
  unfold add_item. destruct (GetItem (united l) (Key v)) as [w|] eqn:E.
  - assert (Hin : Key v ∈ first_keys l).
    { rewrite <- united_keys. destruct (decide (Key v ∈ Key <$> united l)) as [|Hn]; [done|].
      apply GetItem_None in Hn. congruence. }
    unfold united. rewrite first_keys_snoc, bool_decide_eq_true_2 by done. clear E w Hin.
    assert (Hk : forall k, k ∈ first_keys l -> k ∈ Key <$> l) by (intros k; by rewrite elem_of_first_keys).
    induction (first_keys l) as [|k ks IH]; [done|]. cbn.
    destruct (pick_Some l k) as [w E]; [apply Hk; by left|]. rewrite E. cbn. rewrite (pick_key _ _ _ E).
    destruct (String.eqb_spec k (Key v)) as [->|Hne].
    + rewrite (pick_same _ _ _ E). f_equal. apply IH. intros k Hk'. apply Hk. by right.
    + rewrite pick_other, E by done. f_equal. apply IH. intros k' Hk'. apply Hk. by right.
  - apply GetItem_None in E. rewrite united_keys in E. unfold united. rewrite first_keys_snoc, bool_decide_eq_false_2 by done.
    rewrite omap_app. cbn. rewrite pick_new by (by rewrite <- elem_of_first_keys). f_equal.
    apply list_omap_ext, Forall_Forall2_diag, Forall_forall. intros k Hk. apply pick_other. intros ->. by apply E.
Qed.

(** Merging reports loses no vulnerability and repeats none: of the items
    with one key the list keeps the first, with the digests of all the artifacts
    that have it, in the order of their first occurrence. *)
Theorem merged_items r1 r2 :
  vulnerabilityItemList r1 = None ->
  Vulnerabilities (Merge r1 r2) = united (Vulnerabilities r1 ++ Vulnerabilities r2)
  /\ NoDup (Key <$> Vulnerabilities (Merge r1 r2))
  /\ (forall v, v ∈ Vulnerabilities r1 ++ Vulnerabilities r2 -> Key v ∈ Key <$> Vulnerabilities (Merge r1 r2)).
Proof.
  intros H. assert (E : Vulnerabilities (Merge r1 r2) = united (Vulnerabilities r1 ++ Vulnerabilities r2)).
  { unfold Merge, GetVulnerabilityItemList. rewrite H. cbn. unfold Add. rewrite <- foldl_app.
    induction (Vulnerabilities r1 ++ Vulnerabilities r2) as [|v l IH] using rev_ind; [done|].
    by rewrite foldl_app, united_snoc, <- IH. }
  rewrite E, united_keys. split_and!; [done|apply NoDup_first_keys|].
  intros v Hv. apply elem_of_first_keys, list_elem_of_fmap. by exists v.
Qed.

Definition sample_item (pkg version severity : string) : VulnerabilityItem :=
  mkItem "CVE-2024-1" pkg version "" severity ["sha256:a"].

Lemma merged_items_witness :
  (Key <$> Vulnerabilities (Merge (mkReport "t1" "trivy" Low [sample_item "bash" "5" Low] None)
                              (mkReport "t2" "trivy" High [sample_item "bash" "5" Low; sample_item "zlib" "1" High] None)))
  = ["CVE-2024-1-bash-5"; "CVE-2024-1-zlib-1"].
Proof.
  rewrite (proj1 (merged_items (mkReport "t1" "trivy" Low [sample_item "bash" "5" Low] None) _ eq_refl)).
  vm_compute. reflexivity.
Defined.

(** The key joins its parts with a character that they may contain: an item of
    another package with a higher severity is taken for one that is there. *)
Theorem key_collision :
  Key (sample_item "lib-2" "0" Low) = Key (sample_item "lib" "2-0" Critical)
  /\ (v_Severity <$> Add [] [sample_item "lib-2" "0" Low; sample_item "lib" "2-0" Critical]) = [Low].
Proof. vm_compute. done. Qed.

(** ** The summary of a report *)

Definition severities (l : list VulnerabilityItem) (s : string) : Z :=
  Z.of_nat (length (List.filter (fun v => v_Severity v =s= s) l)).

Definition fixables (l : list VulnerabilityItem) : Z :=
  Z.of_nat (length (List.filter (fun v => negb (v_FixVersion v =s= "")) l)).

Definition max_code (l : list VulnerabilityItem) : Z := foldr (fun v m => Z.max (Code (v_Severity v)) m) 0 l.

Lemma Code_nonneg s : 0 <= Code s.
Proof. unfold Code. repeat case_match; lia. Qed.

Lemma count_items l : forall sev sum,
  let r := foldl count_item (sev, sum) l in
  Total r.2 = Total sum /\ Fixable r.2 = Fixable sum + fixables l
  /\ (forall s, default 0 (Summary r.2 !! s) = default 0 (Summary sum !! s) + severities l s)
  /\ Code r.1 = Z.max (Code sev) (max_code l)
  /\ (r.1 = sev \/ exists v, v ∈ l /\ r.1 = v_Severity v).
Proof.
  induction l as [|v l IH]; intros sev sum; cbn [foldl].
  { unfold fixables, severities, max_code. cbn. pose proof (Code_nonneg sev). split_and!; try (intros; lia). by left. }
  destruct (count_item (sev, sum) v) as [sev1 sum1] eqn:E. destruct (IH sev1 sum1) as (H1 & H2 & H3 & H4 & H5). clear IH.
  cbn [count_item] in E. injection E as Es Em. cbn zeta in *. set (r := foldl count_item (sev1, sum1) l) in *.
  assert (Hmax : Code sev1 = Z.max (Code sev) (Code (v_Severity v))).
  { subst sev1. destruct (Z.gtb_spec (Code (v_Severity v)) (Code sev)); lia. }
  split_and!.
  - by rewrite H1, <- Em.
  - rewrite H2, <- Em. unfold fixables. cbn. destruct (v_FixVersion v =s= ""); cbn [negb]; rewrite ?length_cons; lia.
  - intros s. rewrite H3, <- Em. unfold severities. cbn. destruct (String.eqb_spec (v_Severity v) s) as [->|Hne].
    + rewrite lookup_insert_eq. simpl. lia.
    + rewrite lookup_insert_ne by done. done.
  - rewrite H4, Hmax. cbn [max_code foldr]. fold (max_code l). lia.
  - destruct H5 as [H5|(w & Hw & H5)].
    + rewrite H5. subst sev1. destruct (_ >? _); [|by left]. right. exists v. split; [by left|done].
    + right. exists w. split; [by right|done].
Qed.

(** The summary of a report is exact: the total, the number of items of each
    severity and of those with a fix; and its overall severity is that of an
    item with the highest code, where a severity that is not recognized counts
    as the highest. *)
Theorem severity_summary l severity sum :
  GetSeveritySummary (Some l) = (severity, Some sum) ->
  Total sum = Z.of_nat (length l) /\ Fixable sum = fixables l
  /\ (forall s, default 0 (Summary sum !! s) = severities l s)
  /\ (forall v, v ∈ l -> Code (v_Severity v) <= Code severity)
  /\ (severity = None_ \/ exists v, v ∈ l /\ severity = v_Severity v).
Proof.
  unfold GetSeveritySummary. pose proof (count_items l None_ (mkSummary (Z.of_nat (length l)) 0 ∅)) as H.
  destruct (foldl count_item _ l) as [sev sm]. cbn in H. destruct H as (H1 & H2 & H3 & H4 & H5). intros [= <- <-].
  split_and!; [done|lia| |  |done].
  - intros s. rewrite H3, lookup_empty. cbn. lia.
  - intros v Hv. rewrite H4. assert (Hm : Code (v_Severity v) <= max_code l).
    { clear -Hv. induction l as [|w l IH]; [by apply elem_of_nil in Hv|]. cbn [max_code foldr]. fold (max_code l).
      apply elem_of_cons in Hv as [->|Hv]; [lia|]. specialize (IH Hv). lia. }
    lia.
Qed.

Lemma severity_summary_witness :
  exists sum, GetSeveritySummary (Some [sample_item "bash" "5" Low; sample_item "zlib" "1" High]) = (High, Some sum)
    /\ Total sum = 2.
Proof.
  eexists. assert (E : GetSeveritySummary (Some [sample_item "bash" "5" Low; sample_item "zlib" "1" High])
    = (High, Some (mkSummary 2 0 (<[High := 1]> (<[Low := 1]> ∅))))) by reflexivity.
  split; [exact E|]. exact (proj1 (severity_summary _ _ _ E)).
Defined.

(** ** The status of a scan *)

Definition statuses : list string :=
  [Status.PendingStatus; Status.ScheduledStatus; Status.RunningStatus; Status.StoppedStatus; Status.ErrorStatus; Status.SuccessStatus].

Lemma status_merge_laws :
  Forall (fun a => Forall (fun b => MergeScanStatus a b = MergeScanStatus b a /\ MergeScanStatus a b ∈ statuses
    /\ MergeScanStatus a a = a
    /\ Forall (fun c => MergeScanStatus (MergeScanStatus a b) c = MergeScanStatus a (MergeScanStatus b c)) statuses)
    statuses) statuses.
Proof. apply (bool_decide_unpack _). vm_compute. done. Qed.

Lemma status_merge_comm a b : a ∈ statuses -> b ∈ statuses -> MergeScanStatus a b = MergeScanStatus b a.
Proof. intros Ha Hb. pose proof status_merge_laws as H. rewrite Forall_forall in H. specialize (H a Ha).
  rewrite Forall_forall in H. by destruct (H b Hb). Qed.

Lemma status_merge_assoc a b c :
  a ∈ statuses -> b ∈ statuses -> c ∈ statuses ->
  MergeScanStatus (MergeScanStatus a b) c = MergeScanStatus a (MergeScanStatus b c).
Proof.
  intros Ha Hb Hc. pose proof status_merge_laws as H. rewrite Forall_forall in H. specialize (H a Ha).
  rewrite Forall_forall in H. destruct (H b Hb) as (_ & _ & _ & H'). rewrite Forall_forall in H'. by apply H'.
Qed.

Lemma status_merge_closed a b : a ∈ statuses -> b ∈ statuses -> MergeScanStatus a b ∈ statuses.
Proof. intros Ha Hb. pose proof status_merge_laws as H. rewrite Forall_forall in H. specialize (H a Ha).
  rewrite Forall_forall in H. by destruct (H b Hb) as (_ & ? & _). Qed.

(** The status of the merged parts does not depend on their order. *)
Theorem scan_status_order x l l' :
  x ∈ statuses -> Forall (fun s => s ∈ statuses) l -> l ≡ₚ l' ->
  foldl MergeScanStatus x l = foldl MergeScanStatus x l'.
Proof.
  intros Hx HF HP. revert x Hx. induction HP as [|a l l' HP IH|a b l|l1 l2 l3 HP1 IH1 HP2 IH2]; intros x Hx.
  - done.
  - inversion HF as [|? ? Ha Hl]; subst. cbn. apply IH; [done|]. by apply status_merge_closed.
  - inversion HF as [|? ? Hb Hl]; subst. inversion Hl as [|? ? Ha Hl']; subst. cbn. f_equal.
    rewrite !status_merge_assoc by done. f_equal. by apply status_merge_comm.
  - rewrite IH1 by done. apply IH2; [by rewrite <- HP1|done].
Qed.

(** ** Identifiers of merged reports *)

(** A property of the characters of the alphabet. *)
Lemma b64_forall (p : N -> bool) n :
  forallb p (N.of_nat <$> seq 0 64) = true -> (n < 64)%N -> p n = true.
Proof.
  intros H Hn. rewrite forallb_forall in H. apply H, list_elem_of_In, list_elem_of_fmap.
  exists (N.to_nat n). rewrite N2Nat.id. split; [done|]. apply elem_of_seq. lia.
Qed.

Lemma b64_value_char n : (n < 64)%N -> b64_value (b64_char n) = Some n.
Proof.
  intros Hn. pose proof (b64_forall (fun n => bool_decide (b64_value (b64_char n) = Some n)) n eq_refl Hn) as H.
  by apply bool_decide_eq_true in H.
Qed.

(** No character of the alphabet is the padding, a line end or a dash. *)
Definition b64_plain (c : ascii) : bool :=
  negb (Ascii.eqb c "=" || Ascii.eqb c "010" || Ascii.eqb c "013" || Ascii.eqb c "-").

Lemma b64_char_plain n : (n < 64)%N -> b64_plain (b64_char n) = true.
Proof. by apply (b64_forall (fun n => b64_plain (b64_char n))). Qed.

Lemma code_bound a : (code a < 256)%N.
Proof. apply Ascii.N_ascii_bounded. Qed.

Lemma byte_code a n : n = code a -> byte n = a.
Proof.
  intros ->. unfold byte. rewrite N.mod_small by apply code_bound. apply Ascii.ascii_N_embedding.
Qed.

Ltac sextet := pose proof code_bound as Hbound; repeat match goal with
  | |- context [code ?a] => match goal with
      | H : (code a < 256)%N |- _ => fail 1
      | _ => pose proof (Hbound a)
      end end; clear Hbound; zify; Z.to_euclidean_division_equations; lia.

Lemma string_ind3 (P : string -> Prop) :
  P "" -> (forall a, P (String a "")) -> (forall a b, P (String a (String b ""))) ->
  (forall a b c s, P s -> P (String a (String b (String c s)))) -> forall s, P s.
Proof.
  intros H0 H1 H2 H3. fix IH 1. intros [|a [|b [|c s]]]; [done|apply H1|apply H2|]. apply H3, IH.
Qed.

Lemma strip_encoded s : strip_newlines (EncodeToString s) = EncodeToString s.
Proof.
  assert (H : forall n r, (n < 64)%N -> strip_newlines (String (b64_char n) r) = String (b64_char n) (strip_newlines r)).
  { intros n r Hn. pose proof (b64_char_plain n Hn) as Hp. unfold b64_plain in Hp. cbn [strip_newlines].
    rewrite negb_true_iff, !orb_false_iff in Hp. destruct Hp as [[[_ ->] ->] _]. done. }
  induction s as [|a|a b|a b c s IH] using string_ind3; cbn [EncodeToString]; [done|..];
    rewrite !H by sextet; by rewrite ?IH.
Qed.

Lemma decode_encode s : DecodeString (EncodeToString s) = Some s.
Proof.
  unfold DecodeString. rewrite strip_encoded.
  assert (Hne : forall n, (n < 64)%N -> Ascii.eqb (b64_char n) "=" = false).
  { intros n Hn. pose proof (b64_char_plain n Hn) as Hp. unfold b64_plain in Hp.
    rewrite negb_true_iff, !orb_false_iff in Hp. by destruct Hp as [[[-> _] _] _]. }
  induction s as [|a|a b|a b c s IH] using string_ind3; cbn [EncodeToString decode_groups]; [done|..].
  - rewrite !b64_value_char by sextet. cbn. do 2 f_equal. apply byte_code. sextet.
  - rewrite !b64_value_char, Hne by sextet. cbn. do 2 f_equal; [apply byte_code; sextet|]. f_equal. apply byte_code. sextet.
  - rewrite !b64_value_char, !Hne by sextet. cbn [andb]. rewrite IH. cbn.
    do 2 f_equal; [apply byte_code; sextet|]. f_equal; [apply byte_code; sextet|]. f_equal. apply byte_code. sextet.
Qed.

(** What has a dash is no base 64. *)
Lemma decode_dash s : count "-" s <> 0%nat -> DecodeString s = None.
Proof.
  unfold DecodeString. assert (Hc : count "-" (strip_newlines s) = count "-" s).
  { induction s as [|c s IH]; [done|]. cbn. destruct (Ascii.eqb_spec c "010") as [->|]; [done|].
    destruct (Ascii.eqb_spec c "013") as [->|]; [done|]. cbn. by rewrite IH. }
  rewrite <- Hc. generalize (strip_newlines s). clear. intros s.
  induction s as [s IH] using (induction_ltof1 _ String.length). unfold ltof in IH. intros H.
  assert (Hv : forall c x, b64_value c = Some x -> Ascii.eqb c "-" = false).
  { intros c x E. destruct (Ascii.eqb_spec c "-") as [->|]; [discriminate E|done]. }
  destruct s as [|a [|b [|c [|d s]]]]; try done. cbn [decode_groups].
  destruct (b64_value a) eqn:Ea; [|done]. destruct (b64_value b) eqn:Eb; [|done].
  cbn [count] in H. rewrite (Hv _ _ Ea), (Hv _ _ Eb) in H.
  destruct (Ascii.eqb_spec c "=") as [->|Hc].
  - destruct (Ascii.eqb_spec d "=") as [->|Hd]; cbn [andb].
    + destruct (String.eqb_spec s "") as [->|]; [done|]. done.
    + done.
  - cbn [andb]. destruct (b64_value c) eqn:Ec; [|done]. rewrite (Hv _ _ Ec) in H.
    destruct (Ascii.eqb_spec d "=") as [->|Hd]; cbn [andb].
    + destruct (String.eqb_spec s "") as [->|]; [done|]. done.
    + destruct (b64_value d) eqn:Ed; [|done]. rewrite (Hv _ _ Ed) in H. rewrite IH; [done|cbn; lia|lia].
Qed.

(** An identifier of a report, as a UUID is: a dash and no separator. *)
Definition report_id (s : string) : bool := negb (count "-" s =? 0)%nat && (count "|" s =? 0)%nat.

Lemma merged_ids i id1 ids :
  report_id i = true -> foldl mergeReportID i (id1 :: ids) = EncodeToString (Join (i :: id1 :: ids) "|").
Proof.
  intros [Hd%negb_true_iff%Nat.eqb_neq _]%andb_true_iff. cbn [foldl].
  assert (E : mergeReportID i id1 = EncodeToString (Join [i; id1] "|")).
  { unfold mergeReportID. by rewrite decode_dash. }
  rewrite E. clear E Hd. revert id1. cbn [Join].
  assert (H : forall acc ids, foldl mergeReportID (EncodeToString acc) ids = EncodeToString (Join (acc :: ids) "|")).
  { intros acc ids'. revert acc. induction ids' as [|x ids' IH]; intros acc; [done|]. cbn [foldl].
    unfold mergeReportID at 2. rewrite decode_encode. cbn [default from_option id]. rewrite IH.
    destruct ids' as [|y ids']; cbn [Join]; by rewrite ?GoStrings.app_assoc. }
  intros id1. rewrite H. destruct ids as [|x ids]; cbn [Join]; by rewrite ?GoStrings.app_assoc.
Qed.

(** The identifiers of reports are got back from that of the merged report,
    in their order, however many parts an artifact has. *)
Theorem report_ids_roundtrip i ids :
  Forall (fun x => report_id x = true) (i :: ids) -> ParseReportIDs (foldl mergeReportID i ids) = i :: ids.
Proof.
  intros HF. assert (HS : Forall (fun w => count "|" w = 0%nat) (i :: ids)).
  { eapply Forall_impl; [exact HF|]. by intros w [_ ?%Nat.eqb_eq]%andb_true_iff. }
  inversion HF as [|? ? Hid _]; subst. destruct ids as [|id1 ids].
  - unfold ParseReportIDs. cbn [foldl]. apply andb_true_iff in Hid as [Hd%negb_true_iff%Nat.eqb_neq Hs%Nat.eqb_eq].
    rewrite decode_dash by done. by apply Split_none.
  - rewrite merged_ids by done. unfold ParseReportIDs. rewrite decode_encode. cbn [default from_option].
    by apply (Split_Join (i :: id1 :: ids)).
Qed.

Lemma report_ids_roundtrip_witness :
  ParseReportIDs (foldl mergeReportID "a-1" ["b-2"; "c-3"]) = ["a-1"; "b-2"; "c-3"].
Proof. apply (report_ids_roundtrip "a-1" ["b-2"; "c-3"]). repeat constructor. Defined.
