(* ===== verification/Scan.v ===== *)
(** * Scans and the vulnerability policy

    [src/controller/scan]: the artifacts that are scanned for one artifact, the
    reports of an artifact with the status of their tasks, and what is
    vulnerable in them ([base_controller.go]); the check whether an artifact can
    be scanned ([checker.go]); and the middleware of
    [src/server/middleware/vulnerable] that refuses the pull of an artifact
    whose vulnerabilities reach the severity of the project.

    On top of [Artifact] (walking and reading artifacts), [Vuln] (reports and
    the allowlist) and [Token] (contexts of tokens).  The table of reports, the
    tasks that wrote them, the converter of reports and the scanner of a project
    are an argument: what the reads of them give, with their errors. *)

From S2P Require Import Prelude Errors Orm ArtifactDb Artifact ArtifactDelete ArtifactOps.
From S2P Require Vuln Token Rbac JobStatus Retention.
Import GoStrings.
Import JobStatus.

(** ** Scanners and reports *)

Record ScannerCapability := mkCapability {
  cap_Type : string;
  ConsumesMimeTypes : list string;
  ProducesMimeTypes : list string;
}.

(** A registration, with the capabilities and the properties of its metadata;
    [None] when there are no metadata. *)
Record Registration := mkRegistration {
  reg_ID : Z;
  reg_UUID : string;
  reg_Name : string;
  reg_Disabled : bool;
  Health : string;
  UseInternalAddr : bool;
  Capabilities : option (list ScannerCapability);
  Properties : option (gmap string string);
}.

Definition StatusHealthy : string := "healthy".
Definition ArtifactTypeImage : string := "IMAGE".
Definition ArtifactTypeCNAB : string := "CNAB".

Definition reg_HasCapability (r : Registration) (mimeType : string) : bool :=
  match Capabilities r with
  | None => false
  | Some l => existsb (fun c => existsb (String.eqb mimeType) (ConsumesMimeTypes c)) l
  end.

Definition hasCapability (r : Registration) (a : ArtifactC) : bool :=
  if existsb (String.eqb (a_Type (row (art a)))) [ArtifactTypeImage]
  then reg_HasCapability r (a_ManifestMediaType (row (art a))) else false.

(** A task of a scan: the reports it writes, its status and times. *)
Record ScanTask := mkScanTask {
  st_reports : list string;
  st_Status : string;
  st_StartTime : Z;
  st_EndTime : Z;
}.

(** What the scan controller reads. *)
Record scanenv := mkScanenv {
  GetRegistrationByProject : Z -> result (option Registration);
  reports : list Vuln.ReportRow;
  reports_error : string -> option error;
  getScanTask : string -> result ScanTask;
  FromRelationalSchema : string -> string -> string -> result string;
  unmarshal : string -> result Vuln.Report;
}.

(** The task that wrote a report: the last one that names it. *)
Definition task_of (tasks : list ScanTask) (uuid : string) : option ScanTask :=
  List.find (fun t => existsb (String.eqb uuid) (st_reports t)) (rev tasks).

(** [conv] is the converter of reports. *)
Fixpoint assemble (conv : string -> string -> string -> result string) (tasks : list ScanTask)
    (l : list Vuln.ReportRow) : result (list Vuln.ReportRow) :=
  match l with
  | [] => Ok []
  | rp :: l =>
      let '(status, st, en) :=
        match task_of tasks (Vuln.rr_UUID rp) with
        | Some t => (st_Status t, st_StartTime t, st_EndTime t)
        | None => (Status.ErrorStatus, Vuln.rr_StartTime rp, Vuln.rr_EndTime rp)
        end in
      match conv (Vuln.rr_UUID rp) (Vuln.rr_Digest rp) (Vuln.rr_Report rp) with
      | Err e => Err e
      | Ok complete =>
          match assemble conv tasks l with
          | Err e => Err e
          | Ok l => Ok (Vuln.mkReportRow (Vuln.rr_UUID rp) (Vuln.rr_Digest rp) (Vuln.rr_RegistrationUUID rp)
                          (Vuln.rr_MimeType rp) complete status st en :: l)
          end
      end
  end.

Definition PROJECTPOLICYVIOLATION : string := "PROJECTPOLICYVIOLATION".

(** [strings.Contains]. *)
Fixpoint Contains (s sub : string) : bool :=
  HasPrefix s sub || match s with String _ s' => Contains s' sub | EmptyString => false end.

(** ** Vulnerabilities of a list of items *)

Record Vulnerable := mkVulnerable {
  VulnerabilitiesCount : Z;
  ScanStatus : string;
  Severity : option string;
  CVEBypassed : list string;
}.

Definition IsScanSuccess (v : Vulnerable) : bool := ScanStatus v =s= Status.SuccessStatus.

(** One item of the report; [severity] is empty while there is none. *)
Definition judge_item (allowlist : gset string) (expired : bool) (acc : Z * string * list string)
    (v : Vuln.VulnerabilityItem) : Z * string * list string :=
  let '(n, severity, bypassed) := acc in
  if negb expired && bool_decide (Vuln.v_ID v ∈ allowlist) then (n - 1, severity, bypassed ++ [Vuln.v_ID v])
  else (n, if (severity =s= "") || (Vuln.Code (Vuln.v_Severity v) >? Vuln.Code severity) then Vuln.v_Severity v else severity,
        bypassed).

Definition judge (allowlist : gset string) (expired : bool) (vuls : list Vuln.VulnerabilityItem) : Vulnerable :=
  let '(n, severity, bypassed) := foldl (judge_item allowlist expired) (Z.of_nat (length vuls), "", []) vuls in
  mkVulnerable n Status.SuccessStatus (if severity =s= "" then None else Some severity) bypassed.

(** ** What is counted as vulnerable *)

(** An item the allowlist lets through. *)
Definition exempt (allowlist : gset string) (expired : bool) (v : Vuln.VulnerabilityItem) : bool :=
  negb expired && bool_decide (Vuln.v_ID v ∈ allowlist).

Definition kept (allowlist : gset string) (expired : bool) : list Vuln.VulnerabilityItem -> list Vuln.VulnerabilityItem :=
  List.filter (fun v => negb (exempt allowlist expired v)).

(** The more severe one, the second when the first is empty. *)
Definition pick (s t : string) : string := if (s =s= "") || (Vuln.Code t >? Vuln.Code s) then t else s.

Lemma judge_fold al ex l n sev b :
  foldl (judge_item al ex) (n, sev, b) l
  = (n - Z.of_nat (length (List.filter (exempt al ex) l)), foldl pick sev (Vuln.v_Severity <$> kept al ex l),
     b ++ (Vuln.v_ID <$> List.filter (exempt al ex) l)).
Proof.
  revert n sev b. induction l as [|v l IH]; intros n sev b; simpl.
  - rewrite app_nil_r. repeat f_equal. lia.
  - fold (exempt al ex v). unfold kept in *. simpl. destruct (exempt al ex v); simpl; rewrite IH; simpl.
    + rewrite <- (assoc_L (++)). simpl. f_equal. f_equal. lia.
    + done.
Qed.

Lemma kept_length al ex l :
  length l = (length (List.filter (exempt al ex) l) + length (kept al ex l))%nat.
Proof. unfold kept. induction l as [|v l IH]; simpl; [done|]. destruct (exempt al ex v); simpl; lia. Qed.

Lemma pick_max l s :
  s <> "" -> Forall (fun t => t <> "") l ->
  foldl pick s l <> "" /\ (foldl pick s l ∈ s :: l) /\ Forall (fun t => Vuln.Code t <= Vuln.Code (foldl pick s l)) (s :: l).
Proof.
  revert s. induction l as [|t l IH]; intros s Hs Hl; simpl.
  - repeat split; [done|set_solver|]. constructor; [lia|constructor].
  - apply Forall_cons in Hl as [Ht Hl].
    assert (Hp : pick s t <> "" /\ (pick s t = s \/ pick s t = t) /\ Vuln.Code s <= Vuln.Code (pick s t)
                 /\ Vuln.Code t <= Vuln.Code (pick s t)).
    { unfold pick. destruct (String.eqb_spec s ""); [done|]. simpl.
      destruct (Z.gtb_spec (Vuln.Code t) (Vuln.Code s)); repeat split; auto; lia. }
    destruct Hp as (Hp1 & Hp2 & Hp3 & Hp4). destruct (IH _ Hp1 Hl) as (H1 & H2 & H3).
    apply Forall_cons in H3 as [H3 H4]. split; [done|]. split.
    + destruct Hp2 as [Hp2 | Hp2]; rewrite Hp2 in H2 |- *; set_solver.
    + repeat constructor; [lia|lia|done].
Qed.

(** The judgement of a list of vulnerabilities: the count is that of the items
    the allowlist does not let through, the bypassed ones are the others, and
    the severity is the highest one of the counted items. *)
Lemma judge_spec al ex vuls :
  Forall (fun v => Vuln.v_Severity v <> "") (kept al ex vuls) ->
  VulnerabilitiesCount (judge al ex vuls) = Z.of_nat (length (kept al ex vuls))
  /\ CVEBypassed (judge al ex vuls) = Vuln.v_ID <$> List.filter (exempt al ex) vuls
  /\ match Severity (judge al ex vuls) with
     | None => kept al ex vuls = []
     | Some s => (exists v, v ∈ kept al ex vuls /\ Vuln.v_Severity v = s)
                 /\ forall v, v ∈ kept al ex vuls -> Vuln.Code (Vuln.v_Severity v) <= Vuln.Code s
     end.
Proof.
  intros Hne. unfold judge. rewrite judge_fold. simpl. split.
  { pose proof (kept_length al ex vuls). lia. }
  split; [done|]. destruct (kept al ex vuls) as [|v l]; simpl; [done|].
  apply Forall_cons in Hne as [Hv Hl]. assert (Hl' : Forall (fun t => t <> "") (Vuln.v_Severity <$> l)) by (by apply Forall_fmap).
  destruct (pick_max _ _ Hv Hl') as (H1 & H2 & H3).
  assert (Hp : pick "" (Vuln.v_Severity v) = Vuln.v_Severity v) by done. rewrite Hp.
  change (list_fmap _ _ Vuln.v_Severity l) with (Vuln.v_Severity <$> l).
  destruct (String.eqb_spec (foldl pick (Vuln.v_Severity v) (Vuln.v_Severity <$> l)) ""); [done|].
  change (Vuln.v_Severity v :: (Vuln.v_Severity <$> l)) with (Vuln.v_Severity <$> v :: l) in H2, H3.
  simpl. split.
  - apply list_elem_of_fmap in H2 as (w & Hw & Hin). by exists w.
  - rewrite Forall_fmap in H3. intros w Hw. rewrite Forall_forall in H3. by apply H3.
Qed.

(** What comes after the last severity that is empty. *)
Fixpoint after_empty (l : list string) : list string :=
  match l with
  | [] => []
  | t :: l => if existsb (String.eqb "") (t :: l) then after_empty l else t :: l
  end.

Lemma after_empty_suffix l : exists pre, l = pre ++ after_empty l.
Proof.
  induction l as [|t l [pre IH]]; cbn [after_empty]; [by exists []|].
  destruct (existsb _ _); [|by exists []]. exists (t :: pre). simpl. by f_equal.
Qed.

Lemma after_empty_nonempty l : Forall (fun t => t <> "") (after_empty l).
Proof.
  induction l as [|t l IH]; cbn [after_empty]; [constructor|].
  destruct (existsb (String.eqb "") (t :: l)) eqn:E; [done|]. apply Forall_forall. intros x Hx ->.
  apply not_true_iff_false in E. apply E, existsb_exists. exists "". split; [by apply list_elem_of_In|done].
Qed.

(** With no empty severity nothing is left out. *)
Lemma after_empty_all l : Forall (fun t => t <> "") l -> after_empty l = l.
Proof.
  intros H. destruct l as [|t l]; cbn [after_empty]; [done|].
  destruct (existsb (String.eqb "") (t :: l)) eqn:E; [|done].
  apply existsb_exists in E as (x & Hx%list_elem_of_In & Ex%String.eqb_eq). subst x.
  rewrite Forall_forall in H. by destruct (H _ Hx).
Qed.

(** The severity that the loop ends with bounds those after the last empty
    one; it is empty only when there is none of them. *)
Lemma pick_after_empty l s :
  Forall (fun t => foldl pick s l <> "" /\ Vuln.Code t <= Vuln.Code (foldl pick s l)) (after_empty l).
Proof.
  destruct (after_empty_suffix l) as [pre E]. pose proof (after_empty_nonempty l) as N.
  remember (after_empty l) as r eqn:Er. clear Er. subst l. rewrite foldl_app.
  destruct r as [|t r]; [constructor|]. apply Forall_cons in N as [Ht N]. simpl.
  assert (Hp : pick (foldl pick s pre) t <> "" /\ Vuln.Code t <= Vuln.Code (pick (foldl pick s pre) t)).
  { generalize (foldl pick s pre) as u. intros u. unfold pick.
    destruct (String.eqb_spec u ""); simpl; [split; [done|lia]|].
    destruct (Z.gtb_spec (Vuln.Code t) (Vuln.Code u)); (split; [done|lia]). }
  destruct (pick_max r _ (proj1 Hp) N) as (H1 & _ & [H2 H3]%Forall_cons).
  constructor; [split; [done|]; lia|]. by eapply Forall_impl; [exact H3|].
Qed.

(** An item without a severity, whose code is the highest of all, hides every
    other one: when it comes last, the judgement has no severity at all, and the
    middleware has nothing to compare. *)
Theorem empty_severity_hides al ex vuls v :
  Vuln.v_Severity v = "" -> exempt al ex v = false ->
  (forall w, w ∈ vuls -> Vuln.Code (Vuln.v_Severity w) < Vuln.Code (Vuln.v_Severity v)) ->
  Severity (judge al ex (vuls ++ [v])) = None.
Proof.
  intros Hv Hex Hw. unfold judge. rewrite judge_fold. unfold kept. rewrite !List.filter_app. cbn [List.filter]. rewrite Hex. cbn [negb]. simpl.
  rewrite fmap_app, foldl_app. simpl. rewrite Hv in Hw |- *.
  assert (Hs : forall l s, (s = "" \/ Vuln.Code s < 99) -> (forall w, w ∈ l -> Vuln.Code w < 99) ->
               foldl pick s l = "" \/ Vuln.Code (foldl pick s l) < 99).
  { induction l as [|t l IH]; intros s Hs Hl; simpl; [done|]. apply IH; [|set_solver].
    unfold pick. case_match; [right; apply Hl; set_solver|done]. }
  destruct (Hs (Vuln.v_Severity <$> List.filter (fun w => negb (exempt al ex w)) vuls) "") as [-> | Hc]; [by left| |done|].
  - intros t Ht. apply list_elem_of_fmap in Ht as (w & -> & Hin). apply list_elem_of_In, List.filter_In in Hin as [Hin _].
    apply (Hw w). by apply list_elem_of_In.
  - unfold pick at 1. change (Vuln.Code "") with 99. destruct (Z.gtb_spec 99 (Vuln.Code (foldl pick ""
      (Vuln.v_Severity <$> List.filter (fun w => negb (exempt al ex w)) vuls)))); [|lia].
    rewrite orb_true_r. done.
Qed.
Section Scan.
Context (doublestar_Match : string -> string -> result bool) (parse_untagged : string -> option bool).
Context (sort_by : (Retention.Candidate -> Z) -> list Retention.Candidate -> list Retention.Candidate).
Context (is_digest : string -> bool).
Context (env : scanenv).

Abbreviation Walk := (Artifact.Walk doublestar_Match parse_untagged sort_by).

(** ** Scanning *)

Definition isAccessory (a : ArtifactC) : M db bool :=
  l <- acc_List (fun c => (c_ArtifactID c =? a_ID (row (art a))) && (c_Digest c =s= a_Digest (row (art a)))) ;;
  ret (negb (bool_decide (l = []))).

(** An error of a call inside the closure is the error of the closure. *)
Definition in_closure {X} (x : X) (m : M db (X * option error)) : M db (X * option error) :=
  r <- try m ;;
  match r with
  | Ok y => ret y
  | Err e => ret (x, Some e)
  end.

(** The artifacts to scan, and whether one of them is supported. *)
Definition collect_fn (r : Registration) (a : ArtifactC) (x : list ArtifactC * bool)
    : M db ((list ArtifactC * bool) * option error) :=
  in_closure x (
    ok <- isAccessory a ;;
    if ok : bool then ret (x, None)
    else
      unscannable <- HasUnscannableLayer (a_Digest (row (art a))) ;;
      if unscannable : bool then ret (x, None)
      else
        let supported := hasCapability r a in
        if negb supported && IsImageIndex (row (art a)) then ret (x, None)
        else if supported then ret ((x.1 ++ [a], true), Some (Sentinel ErrSkip))
        else ret ((x.1 ++ [a], x.2), None)).

Definition collectScanningArtifacts (fuel : nat) (r : Registration) (a : ArtifactC) : M db (list ArtifactC * bool) :=
  Walk (collect_fn r) None fuel a ([], false).

(** [checker.IsScannable]; its caches, which live as long as one request, only
    save queries. *)
Definition scannable_fn (r : Registration) (a : ArtifactC) (x : bool) : M db (bool * option error) :=
  in_closure x (
    ok <- isAccessory a ;;
    if ok : bool then ret (x, None)
    else if hasCapability r a then ret (true, Some (Sentinel ErrBreak))
    else
      HasUnscannableLayer (a_Digest (row (art a))) ;;; ret (x, None)).

Definition IsScannable (fuel : nat) (a : ArtifactC) : M db bool :=
  match GetRegistrationByProject env (a_ProjectID (row (art a))) with
  | Err e => fail e
  | Ok None => ret false
  | Ok (Some r) => Walk (scannable_fn r) None fuel a false
  end.

(** ** Reports *)

Definition GetBy (digest registrationUUID : string) (mimeTypes : list string) : result (list Vuln.ReportRow) :=
  if digest =s= "" then Err (New "empty digest to get report data")
  else
    match reports_error env digest with
    | Some e => Err e
    | None => Ok (List.filter (fun rp => (Vuln.rr_Digest rp =s= digest)
        && ((registrationUUID =s= "") || (Vuln.rr_RegistrationUUID rp =s= registrationUUID))
        && (bool_decide (mimeTypes = []) || existsb (String.eqb (Vuln.rr_MimeType rp)) mimeTypes)) (reports env))
    end.

(** The tasks of the reports, one read per report; a task that is not found is
    left out. *)
Fixpoint listScanTasks (uuids : list string) : result (list ScanTask) :=
  match uuids with
  | [] => Ok []
  | u :: uuids =>
      match getScanTask env u with
      | Ok t => match listScanTasks uuids with Ok l => Ok (t :: l) | Err e => Err e end
      | Err e =>
          if IsNotFoundErr e then listScanTasks uuids else Err e
      end
  end.

Definition assembleReports (l : list Vuln.ReportRow) : result (list Vuln.ReportRow) :=
  match listScanTasks (Vuln.rr_UUID <$> l) with
  | Err e => Err e
  | Ok tasks => assemble (FromRelationalSchema env) tasks l
  end.

(** The reports of all the artifacts that are scanned for this one, or nothing
    when one of them has none; a failing read counts as no report. *)
Definition GetReport (fuel : nat) (a : ArtifactC) (mimeTypes : list string) : M db (list Vuln.ReportRow) :=
  let mimes := match mimeTypes with
               | [] => [Vuln.MimeTypeNativeReport; Vuln.MimeTypeGenericVulnerabilityReport]
               | _ => mimeTypes
               end in
  match GetRegistrationByProject env (a_ProjectID (row (art a))) with
  | Err e => fail (Wrap e "scan controller: get report")
  | Ok None => fail (WithMessage (NotFoundError None) "no scanner registration configured for project")
  | Ok (Some r) =>
      ca <- collectScanningArtifacts fuel r a ;;
      let '(artifacts, scannable) := ca in
      if negb scannable && (Health r =s= StatusHealthy)
      then fail (WithMessage (NotFoundError None) "report not found")
      else
        let groups := (fun b => match GetBy (a_Digest (row (art b))) (reg_UUID r) mimes with
                                | Ok l => l | Err _ => [] end) <$> artifacts in
        if existsb (fun g => bool_decide (g = [])) groups then ret []
        else
          match concat groups with
          | [] => ret []
          | l => of_result (assembleReports l)
          end
  end.

(** ** Vulnerabilities *)

(** The vulnerable of assembled reports. *)
Definition vulnerable_of (mimeType : string) (l : list Vuln.ReportRow) (allowlist : gset string) (expired : bool)
    : result Vulnerable :=
  match l with
  | [] => Err (WithMessage (NotFoundError None) "report not found")
  | r0 :: _ =>
      let status := foldl (fun s r => Vuln.MergeScanStatus s (Vuln.rr_Status r)) (Vuln.rr_Status r0) l in
      if negb (status =s= Status.SuccessStatus) then Ok (mkVulnerable 0 status None [])
      else
        match Vuln.ResolveData (unmarshal env) l mimeType None with
        | Err e => Err e
        | Ok None => Ok (mkVulnerable 0 status None [])
        | Ok (Some rp) => Ok (judge allowlist expired (Vuln.GetVulnerabilityItemList rp))
        end
  end.

Definition GetVulnerable (fuel : nat) (a : ArtifactC) (allowlist : gset string) (expired : bool) : M db Vulnerable :=
  native <- GetReport fuel a [Vuln.MimeTypeNativeReport] ;;
  match native with
  | _ :: _ => of_result (vulnerable_of Vuln.MimeTypeNativeReport native allowlist expired)
  | [] =>
      generic <- GetReport fuel a [Vuln.MimeTypeGenericVulnerabilityReport] ;;
      of_result (vulnerable_of Vuln.MimeTypeGenericVulnerabilityReport generic allowlist expired)
  end.

(** ** The middleware *)

(** A project with its metadata and its effective allowlist. *)
Record ProjectV := mkProjectV { pv_ID : Z; pv_Metadata : gmap string string; pv_CVEAllowlist : Vuln.CVEAllowlist }.

Definition VulPrevented (p : ProjectV) : bool :=
  match pv_Metadata p !! "prevent_vul" with Some v => Rbac.isTrue v | None => false end.

Definition ReuseSysCVEAllowlist (meta : gmap string string) : bool :=
  match meta !! "reuse_sys_cve_allowlist" with Some v => Rbac.isTrue v | None => true end.

Definition pv_Severity (p : ProjectV) : string := default "" (pv_Metadata p !! "severity").

(** The artifact info of the request's context, as its repository and its
    reference, when the middleware that sets it ran; the security context when
    it is that of a token; and the agent of the client. *)
Record PullRequest := mkPull {
  pr_Info : option (string * string);
  pr_token : option (Token.Context_ unit);
  pr_UserAgent : string;
}.

Definition SkipPolicyChecking (r : PullRequest) (projectID artID : Z) : M db bool :=
  let can action := match pr_token r with
                    | Some c => (Token.Can c action (Rbac.project_Resource projectID [Rbac.ResourceRepository]) tt).1
                    | None => false
                    end in
  if can Rbac.ActionScannerPull
     || (can Rbac.ActionPush && Contains (pr_UserAgent r) "cosign")
     || (can Rbac.ActionPush && Contains (pr_UserAgent r) "notation")
  then ret true
  else
    accs <- acc_List (fun c => c_ArtifactID c =? artID) ;;
    ret (match accs with
         | c :: _ => (c_Type c =s= TypeCosignSignature) || (c_Type c =s= TypeNotationSignature)
         | [] => false
         end).

(** The texts of the messages are shortened: they also name the severity of the
    project and the number of vulnerabilities. *)
Definition violation (message : string) : error := WithMessage (WithCode (New "") PROJECTPOLICYVIOLATION) message.

(** What the middleware does after the artifact is found. *)
Definition check_artifact (fuel : nat) (title : string -> string) (now : Z) (p : ProjectV) (a : ArtifactC) : M db unit :=
  let allowlist := Vuln.CVESet (pv_CVEAllowlist p) in
  let projectSeverity := Vuln.ParseSeverityVersion3 title (pv_Severity p) in
  rv <- try (GetVulnerable fuel a allowlist (Vuln.IsExpired now (pv_CVEAllowlist p))) ;;
  match rv with
  | Err e =>
      if IsNotFoundErr e then
        scannable <- IsScannable fuel a ;;
        if negb scannable then ret tt
        else fail (violation "current image without vulnerability scanning cannot be pulled due to configured policy")
      else fail e
  | Ok v =>
      if IsImageIndex (row (art a)) && existsb (String.eqb (a_Type (row (art a)))) [ArtifactTypeImage; ArtifactTypeCNAB]
      then ret tt
      else if negb (IsScanSuccess v)
      then fail (violation "current image cannot be pulled due to the status of its vulnerability scanning")
      else
        match Severity v with
        | Some s =>
            if Vuln.Code projectSeverity <=? Vuln.Code s
            then fail (violation "current image with vulnerabilities cannot be pulled due to configured policy")
            else ret tt
        | None => ret tt
        end
  end.

Definition vulnerable_Middleware (fuel : nat) (title : string -> string) (now : Z) (project : result ProjectV) (r : PullRequest)
    : M db unit :=
  match pr_Info r with
  | None => fail (WithCode (New "artifactinfo middleware required before this middleware") NotFoundCode)
  | Some (repository, reference) =>
      match project with
      | Err e => fail e
      | Ok p =>
          if negb (VulPrevented p) then ret tt
          else
            a <- GetByReference doublestar_Match parse_untagged sort_by is_digest repository reference None ;;
            skip <- SkipPolicyChecking r (pv_ID p) (a_ID (row (art a))) ;;
            if skip : bool then ret tt else check_artifact fuel title now p a
      end
  end.

(** ** What the middleware lets through *)

(** A stored report that says nothing: it has no data, it is of another type,
    or its type has no data to read. *)
Definition says_nothing (mimeType : string) (rp : Vuln.ReportRow) : Prop :=
  Vuln.rr_Report rp = "" \/ Vuln.rr_MimeType rp <> mimeType
  \/ Vuln.resolve_one (unmarshal env) (Vuln.rr_MimeType rp) (Vuln.rr_Report rp) (Vuln.rr_Digest rp) = Ok None.

Lemma ResolveData_some mimeType l r : Vuln.ResolveData (unmarshal env) l mimeType (Some r) <> Ok None.
Proof.
  revert r. induction l as [|rp l IH]; intros r; cbn [Vuln.ResolveData]; [done|].
  destruct (_ || _); [apply IH|]. destruct (Vuln.resolve_one _ _ _ _) as [[r2|]|e]; [apply IH|done|done].
Qed.

Lemma ResolveData_none mimeType l :
  Vuln.ResolveData (unmarshal env) l mimeType None = Ok None -> Forall (says_nothing mimeType) l.
Proof.
  induction l as [|rp l IH]; cbn [Vuln.ResolveData]; [by constructor|].
  destruct (String.eqb_spec (Vuln.rr_Report rp) "") as [E|_]; cbn [orb].
  { intros H. constructor; [by left|by apply IH]. }
  destruct (String.eqb_spec (Vuln.rr_MimeType rp) mimeType) as [_|N]; cbn [negb].
  2:{ intros H. constructor; [by right; left|by apply IH]. }
  destruct (Vuln.resolve_one _ _ _ _) as [[r2|]|e] eqn:E; [|intros H|done].
  - intros H. by apply ResolveData_some in H.
  - constructor; [by right; right|by apply IH].
Qed.

(** The reports of a scan that succeeded, in which every vulnerability that the
    allowlist does not let through, and that no vulnerability without a
    severity follows, is below the severity [threshold]; or of which none says
    anything. *)
Definition clean_reports (allowlist : gset string) (expired : bool) (threshold : string) (mimeType : string)
    (l : list Vuln.ReportRow) : Prop :=
  match l with
  | [] => False
  | r0 :: _ => foldl (fun s r => Vuln.MergeScanStatus s (Vuln.rr_Status r)) (Vuln.rr_Status r0) l = Status.SuccessStatus
  end
  /\ match Vuln.ResolveData (unmarshal env) l mimeType None with
     | Ok (Some rp) =>
         Forall (fun sev => Vuln.Code sev < Vuln.Code threshold)
           (after_empty (Vuln.v_Severity <$> kept allowlist expired (Vuln.GetVulnerabilityItemList rp)))
     | Ok None => Forall (says_nothing mimeType) l
     | Err _ => False
     end.

Lemma judge_after_empty al ex vuls t :
  t ∈ after_empty (Vuln.v_Severity <$> kept al ex vuls) ->
  exists s, Severity (judge al ex vuls) = Some s /\ Vuln.Code t <= Vuln.Code s.
Proof.
  intros Ht. pose proof (pick_after_empty (Vuln.v_Severity <$> kept al ex vuls) "") as H.
  rewrite Forall_forall in H. destruct (H _ Ht) as [H1 H2]. unfold judge. rewrite judge_fold.
  destruct (String.eqb_spec (foldl pick "" (Vuln.v_Severity <$> kept al ex vuls)) ""); [done|]. by eexists.
Qed.

Lemma vulnerable_clean mimeType l allowlist expired threshold v :
  vulnerable_of mimeType l allowlist expired = Ok v -> IsScanSuccess v = true ->
  (forall s, Severity v = Some s -> Vuln.Code s < Vuln.Code threshold) ->
  clean_reports allowlist expired threshold mimeType l.
Proof.
  unfold vulnerable_of, clean_reports. destruct l as [|r0 l0]; [done|]. remember (r0 :: l0) as l eqn:El.
  remember (foldl _ _ l) as status eqn:Es.
  destruct (String.eqb_spec status Status.SuccessStatus) as [Hs | Hs]; simpl.
  - intros Hv _ Hsev. split; [done|].
    destruct (Vuln.ResolveData (unmarshal env) l mimeType None) as [[rp|]|e] eqn:Hrp; [|by apply ResolveData_none|done].
    injection Hv as <-. apply Forall_forall. intros t (s & Hj & Hle)%judge_after_empty.
    specialize (Hsev s Hj). lia.
  - intros [= <-]. unfold IsScanSuccess. simpl. by rewrite (proj2 (String.eqb_neq _ _) Hs).
Qed.

Lemma GetVulnerable_inv fuel a allowlist expired s v s' :
  GetVulnerable fuel a allowlist expired s = (Ok v, s') ->
  exists mimeType s1 l, mimeType ∈ [Vuln.MimeTypeNativeReport; Vuln.MimeTypeGenericVulnerabilityReport]
    /\ GetReport fuel a [mimeType] s1 = (Ok l, s') /\ vulnerable_of mimeType l allowlist expired = Ok v.
Proof.
  unfold GetVulnerable, bind. destruct (GetReport fuel a [Vuln.MimeTypeNativeReport] s) as [[native|e] s1] eqn:E1; [|done].
  destruct native as [|r0 native].
  - destruct (GetReport fuel a [Vuln.MimeTypeGenericVulnerabilityReport] s1) as [[l|e] s2] eqn:E2; [|done].
    unfold of_result. intros [= H1 <-]. exists Vuln.MimeTypeGenericVulnerabilityReport, s1, l. split; [set_solver|done].
  - unfold of_result. intros [= H1 <-]. exists Vuln.MimeTypeNativeReport, s, (r0 :: native). split; [set_solver|done].
Qed.

(** C5: what the policy lets through in a project that prevents vulnerable
    images: a pull of a scanner or of a signing client or of a signature; an
    artifact that has no report and cannot be scanned; an index; and an artifact
    whose scan succeeded and whose vulnerabilities, those of the unexpired
    allowlist apart, are all below the severity of the project, except for
    those listed before a vulnerability without a severity, which hides them
    ([empty_severity_hides]), or whose reports hold no data. *)
Theorem pull_policy fuel title now p r s s' :
  VulPrevented p = true ->
  vulnerable_Middleware fuel title now (Ok p) r s = (Ok tt, s') ->
  exists repository reference a s1 skip s2,
    pr_Info r = Some (repository, reference)
    /\ GetByReference doublestar_Match parse_untagged sort_by is_digest repository reference None s = (Ok a, s1)
    /\ SkipPolicyChecking r (pv_ID p) (a_ID (row (art a))) s1 = (Ok skip, s2)
    /\ let al := Vuln.CVESet (pv_CVEAllowlist p) in let ex := Vuln.IsExpired now (pv_CVEAllowlist p) in
       (skip = true
        \/ (exists e s3, GetVulnerable fuel a al ex s2 = (Err e, s3) /\ IsNotFoundErr e = true
             /\ IsScannable fuel a s3 = (Ok false, s'))
        \/ (IsImageIndex (row (art a)) = true /\ a_Type (row (art a)) ∈ [ArtifactTypeImage; ArtifactTypeCNAB])
        \/ (exists mimeType s3 l, GetReport fuel a [mimeType] s3 = (Ok l, s')
             /\ clean_reports al ex (Vuln.ParseSeverityVersion3 title (pv_Severity p)) mimeType l)).
Proof.
  intros Hp. unfold vulnerable_Middleware. rewrite Hp. simpl. destruct (pr_Info r) as [[repository reference]|]; [|done].
  unfold bind at 1. destruct (GetByReference _ _ _ _ _ _ _ s) as [[a|e] s1] eqn:Ea; [|done].
  unfold bind at 1. destruct (SkipPolicyChecking _ _ _ s1) as [[skip|e] s2] eqn:Ek; [|done]. intros H.
  exists repository, reference, a, s1, skip, s2. do 3 (split; [done|]). simpl.
  destruct skip; [by left|]. right. revert H. unfold check_artifact.
  destruct (IsImageIndex (row (art a)) && existsb (String.eqb (a_Type (row (art a)))) [ArtifactTypeImage; ArtifactTypeCNAB]) eqn:Ei;
    unfold bind at 1, try; destruct (GetVulnerable _ _ _ _ s2) as [[v|e] s3] eqn:Ev.
  all: try (destruct (IsNotFoundErr e) eqn:En; [|done]; unfold bind;
    destruct (IsScannable fuel a s3) as [[[]|e'] s4] eqn:Ec; simpl; [done| |done]; intros [= <-]; left; by exists e, s3).
  - intros _. right. left. apply andb_true_iff in Ei as [H1 H2]. split; [done|]. apply existsb_exists in H2 as (x & H2 & H3).
    apply list_elem_of_In in H2. by apply String.eqb_eq in H3 as ->.
  - destruct (IsScanSuccess v) eqn:Es; simpl; [|done]. intros H. right. right.
    apply GetVulnerable_inv in Ev as (mimeType & s4 & l & _ & Hl & Hv). exists mimeType, s4, l.
    destruct (Severity v) as [sv|] eqn:Esv.
    + destruct (Z.leb_spec (Vuln.Code (Vuln.ParseSeverityVersion3 title (pv_Severity p))) (Vuln.Code sv)); [done|].
      injection H as <-. split; [done|]. eapply vulnerable_clean; [done..|]. rewrite Esv. by intros ? [= <-].
    + injection H as <-. split; [done|]. eapply vulnerable_clean; [done..|]. by rewrite Esv.
Qed.
(** An image with a layer that cannot be scanned, as the documents of in-toto
    have, is never scanned, but counts as scannable: [IsScannable] asks for the
    capability of the scanner first and does nothing with the layers.  With the
    prevention on, its pull is always refused for want of a scan. *)
Theorem unscannable_image_refused fuel title now p a r s :
  GetRegistrationByProject env (a_ProjectID (row (art a))) = Ok (Some r) -> hasCapability r a = true ->
  IsImageIndex (row (art a)) = false -> References (art a) = [] -> Accessories a = [] ->
  isAccessory a s = (Ok false, s) -> HasUnscannableLayer (a_Digest (row (art a))) s = (Ok true, s) ->
  collectScanningArtifacts (S fuel) r a s = (Ok ([], false), s)
  /\ IsScannable (S fuel) a s = (Ok true, s)
  /\ exists m, check_artifact (S fuel) title now p a s = (Err (violation m), s).
Proof.
  intros Hr Hcap Hidx Href Hacc Hisacc Hlayer.
  assert (Hcol : collectScanningArtifacts (S fuel) r a s = (Ok ([], false), s)).
  { unfold collectScanningArtifacts, Artifact.Walk. simpl. unfold bind at 1, collect_fn, in_closure, bind at 1, try, bind at 1.
    rewrite Hisacc. simpl. unfold bind at 1. rewrite Hlayer. simpl. rewrite Href, Hacc. by destruct fuel. }
  assert (Hsc : IsScannable (S fuel) a s = (Ok true, s)).
  { unfold IsScannable. rewrite Hr. unfold Artifact.Walk. simpl.
    unfold bind at 1, scannable_fn, in_closure, bind at 1, try, bind at 1. rewrite Hisacc. simpl. by rewrite Hcap. }
  split; [done|]. split; [done|].
  assert (Hrep : forall m, GetReport (S fuel) a [m] s
            = (if Health r =s= StatusHealthy then Err (WithMessage (NotFoundError None) "report not found") else Ok [], s)).
  { intros m. unfold GetReport. rewrite Hr. unfold bind. rewrite Hcol. simpl. by destruct (Health r =s= StatusHealthy). }
  assert (Hv : GetVulnerable (S fuel) a (Vuln.CVESet (pv_CVEAllowlist p)) (Vuln.IsExpired now (pv_CVEAllowlist p)) s
               = (Err (WithMessage (NotFoundError None) "report not found"), s)).
  { unfold GetVulnerable, bind at 1. rewrite Hrep. destruct (Health r =s= StatusHealthy) eqn:Eh; [done|].
    unfold bind. by rewrite Hrep. }
  eexists. unfold check_artifact, bind at 1, try. rewrite Hv. simpl. unfold bind. rewrite Hsc. simpl. reflexivity.
Qed.
End Scan.

(** ** Witnesses *)

Definition item (id severity : string) : Vuln.VulnerabilityItem := Vuln.mkItem id "pkg" "1.0" "" severity [].

Definition sample_registration : Registration := mkRegistration 1 "scanner" "Trivy" false "healthy" false
  (Some [mkCapability "vulnerability" [image_type] [Vuln.MimeTypeGenericVulnerabilityReport]]) None.

Definition sample_report : Vuln.Report :=
  Vuln.mkReport "2024" "trivy" "Critical" [item "CVE-1" "Critical"; item "CVE-2" "Low"] None.

(** The image [sha256:b] has a report with two vulnerabilities. *)
Definition sample_env : scanenv :=
  mkScanenv (fun _ => Ok (Some sample_registration))
    [Vuln.mkReportRow "u1" "sha256:b" "scanner" Vuln.MimeTypeNativeReport "text" "" 1 2]
    (fun _ => None)
    (fun u => if u =s= "u1" then Ok (mkScanTask ["u1"] Status.SuccessStatus 1 2) else Err (NotFoundError None))
    (fun _ _ text => Ok text) (fun _ => Ok sample_report).

Definition sample_project (items : list string) : ProjectV :=
  mkProjectV 1 {["prevent_vul" := "true"; "severity" := "High"]} (Vuln.mkAllowlist 1 (Some 50) items).

Definition sample_pull : PullRequest := mkPull (Some ("library/app", "sha256:b")) None "docker".

Abbreviation sample_Middleware now items := (vulnerable_Middleware Retention.sample_Match Retention.sample_parse
  Retention.sample_sort sample_is_digest sample_env 8 id now (Ok (sample_project items)) sample_pull (sample_db [] [])).

(** With the critical CVE in the allowlist the image is pulled; without, and
    when the allowlist has expired, it is not. *)
Lemma pull_policy_witness :
  (exists a s1, GetByReference Retention.sample_Match Retention.sample_parse Retention.sample_sort sample_is_digest
     "library/app" "sha256:b" None (sample_db [] []) = (Ok a, s1))
  /\ is_ok (sample_Middleware 20 ["CVE-2"]).1 = false /\ is_ok (sample_Middleware 50 ["CVE-1"]).1 = false.
Proof.
  split; [|split; vm_compute; reflexivity].
  destruct (sample_Middleware 20 ["CVE-1"]) as [r s'] eqn:E.
  assert (Hr : r = Ok tt) by (change r with ((r, s').1); rewrite <- E; vm_compute; reflexivity). subst r.
  destruct (pull_policy Retention.sample_Match Retention.sample_parse Retention.sample_sort sample_is_digest sample_env
              8 id 20 (sample_project ["CVE-1"]) sample_pull (sample_db [] []) s' eq_refl E)
    as (repository & reference & a & s1 & skip & s2 & Hi & Hg & _). injection Hi as <- <-. by exists a, s1.
Defined.

Lemma empty_severity_hides_witness :
  Severity (judge ∅ false [item "CVE-1" "Critical"; item "CVE-2" ""]) = None.
Proof.
  apply (empty_severity_hides ∅ false [item "CVE-1" "Critical"] (item "CVE-2" "")); [done|done|].
  intros w Hw. apply list_elem_of_singleton in Hw as ->. done.
Defined.

(** The image has one blob, a document of in-toto. *)
Definition intoto_tables : tables :=
  mkTables (arts (sample_tables [])) ∅ ∅ ∅ ∅ ∅ (repos (sample_tables [])) (projects (sample_tables [])) ∅
    (Blob.mkStore {[1 := Blob.mkBlob 1 "sha256:l" "application/vnd.in-toto+json" 5 "none" 0 0 0]} 2
       {[("sha256:b", "sha256:l")]} ∅ [] ∅ ∅ ∅ []).

Definition intoto_db : db :=
  mkConn (with_blobdb intoto_tables (blob_view intoto_tables [])) (mkRequest 5 3 3 2 1 100 [] None) false false [].

Lemma unscannable_image_refused_witness :
  exists m, check_artifact Retention.sample_Match Retention.sample_parse Retention.sample_sort sample_env 1 id 20
    (sample_project []) (mkArtifactC (mkArtifact (sample_art 3 image_type "sha256:b") [] []) "" [] [] [] []) intoto_db
    = (Err (violation m), intoto_db).
Proof.
  apply (unscannable_image_refused Retention.sample_Match Retention.sample_parse Retention.sample_sort sample_env 0 id 20
           (sample_project []) (mkArtifactC (mkArtifact (sample_art 3 image_type "sha256:b") [] []) "" [] [] [] [])
           sample_registration intoto_db); vm_compute; reflexivity.
Defined.
