(* ===== verification/Cached.v ===== *)
(** * The cache layer

    [src/lib/cache]: the interface of caches, its implementations in memory
    ([memory/memory.go]) and in redis ([redis/redis.go]) and [FetchOrSave]
    ([helper.go]); [src/pkg/cached]: the keys of cached objects and the managers
    of artifacts, repositories, projects and project metadata that put a cache
    before the database.

    The class [Cache] states what the managers need of a cache; both
    implementations are instances.  The encoding of values is elided: decoding
    gives the value that was encoded.  A context is what the managers see of it:
    whether a transaction collects hooks, and whether the transaction middleware
    has marked the request. *)

From S2P Require Import Prelude Errors.
Import GoStrings.

(** ** Keys *)

(** The values of a key: the integers, strings and others of Go's [any]. *)
Inductive kv_value :=
| VInt (n : Z)
| VStr (s : string)
| VOther.

#[global] Instance kv_value_eq_dec : EqDecision kv_value.
Proof. solve_decision. Defined.

(** [ObjectKey.Format], [i] being the position in the arguments. *)
Fixpoint format_from (even : bool) (l : list kv_value) : result string :=
  match l with
  | [] => Ok ""
  | v :: l =>
      match (match v, even with
             | VStr s, _ => Ok s
             | VInt n, false => Ok (Strconv.format_int n)
             | VInt _, true | VOther, true => Err (New "key must be string, invalid key type")
             | VOther, false => Err (New "unsupported value type")
             end) with
      | Err e => Err e
      | Ok s => match format_from (negb even) l with
                | Ok rest => Ok (":" ++ s ++ rest)%string
                | Err e => Err e
                end
      end
  end.

Definition Format (namespace : string) (keysAndValues : list kv_value) : result string :=
  if negb (Nat.even (length keysAndValues)) then Err (New "invalid keysAndValues")
  else match format_from true keysAndValues with
       | Ok s => Ok (namespace ++ s)%string
       | Err e => Err e
       end.

Definition ErrNotFound : error := Sentinel "key not found".

(** ** The interface *)

(** A cache of values of type [V] with its state [C], at the time [now]. *)
Class CacheOps (V C : Type) := {
  Fetch : string -> Z -> M C V;
  Save : string -> V -> option Z -> Z -> M C unit;
  Delete : string -> M C unit;
  Scan : string -> Z -> M C (list string);
  (** The entries that have not expired at a time, for the laws. *)
  view : C -> Z -> string -> option V;
}.

(** Nothing but what was there. *)
Definition within {V} (f g : string -> option V) : Prop := forall k v, f k = Some v -> g k = Some v.

(** What the managers rely on.  Calls may fail, a deletion then leaves the entry,
    and entries may go at any time. *)
Class Cache (V C : Type) `{!CacheOps V C} : Prop := {
  fetch_view k now c r c' : Fetch k now c = (r, c') ->
    (forall t, within (view c' t) (view c t)) /\ forall v, r = Ok v -> view c now k = Some v;
  save_view k v ttl now c r c' : Save k v ttl now c = (r, c') ->
    forall t j w, view c' t j = Some w -> (j = k /\ w = v) \/ view c t j = Some w;
  delete_view k c r c' : Delete (V := V) k c = (r, c') ->
    (forall t, within (view c' t) (view c t)) /\ (r = Ok tt -> forall t, view c' t k = None);
  scan_view m now c r c' : Scan (V := V) m now c = (r, c') ->
    (forall t, within (view c' t) (view c t))
    /\ forall l, r = Ok l -> forall k v, view c now k = Some v -> contains k m = true -> k ∈ l;
}.

(** A state in which the calls succeed, and which they keep: a fetch finds what is
    there, a saved value stays for its time, and a deletion removes its key alone. *)
Class Reliable (V : Type) {C : Type} `{!CacheOps V C} (good : C -> Prop) : Prop := {
  good_fetch k now c : good c -> good (Fetch k now c).2;
  good_hit k now c v : good c -> view c now k = Some v -> Fetch k now c = (Ok v, c);
  good_save k v ttl now c : good c -> good (Save k v ttl now c).2;
  good_saved k v d now t c : good c -> now <= t < now + d -> view (Save k v (Some d) now c).2 t k = Some v;
  good_delete k c : good c -> exists c', Delete (V := V) k c = (Ok tt, c') /\ good c'
    /\ forall j t, j <> k -> view c' t j = view c t j;
}.

(** [FetchOrSave] of one caller, alone in its group of callers with the same key;
    the builder does not use the cache. *)
Definition FetchOrSave {V C} `{!CacheOps V C} (key : string) (builder : result V) (expiration : option Z) (now : Z) : M C V :=
  r <- try (Fetch key now) ;;
  match r with
  | Ok v => ret v
  | Err e =>
      if negb (Is e "key not found") then fail e
      else
        r <- try (Fetch key now) ;;
        match r with
        | Ok v => ret v
        | Err e =>
            if negb (Is e "key not found") then fail e
            else v <- of_result builder ;; try (Save key v expiration now) ;;; ret v
        end
  end.

(** What it gives is in the cache already or comes from the builder, and the cache
    then holds nothing else for that key. *)
Lemma FetchOrSave_value {V C} `{!CacheOps V C, !Cache V C} key builder expiration now (c c' : C) (v : V) :
  FetchOrSave key builder expiration now c = (Ok v, c') ->
  (view c now key = Some v \/ builder = Ok v)
  /\ forall t j w, view c' t j = Some w -> view c t j = Some w \/ (j = key /\ builder = Ok w).
Proof.
  unfold FetchOrSave, bind, try, ret, fail, of_result.
  destruct (Fetch key now c) as [r1 c1] eqn:E1. apply fetch_view in E1 as [W1 V1].
  destruct r1 as [v1|e1]; [intros [= <- <-]; split; [left; by apply V1|intros t j w H; left; by apply W1]|].
  destruct (negb (Is e1 _)); [done|].
  destruct (Fetch key now c1) as [r2 c2] eqn:E2. apply fetch_view in E2 as [W2 V2].
  destruct r2 as [v2|e2].
  { intros [= <- <-]. split; [left; apply W1; by apply V2|]. intros t j w H. left. by apply W1, W2. }
  destruct (negb (Is e2 _)); [done|]. destruct builder as [b|eb]; [|done].
  destruct (Save key b expiration now c2) as [r3 c3] eqn:E3. intros [= <- <-]. split; [by right|].
  intros t j w H. destruct (save_view _ _ _ _ _ _ _ E3 t j w H) as [[-> ->]|H']; [by right|].
  left. by apply W1, W2.
Qed.

(** ** In memory *)

Module Memory.
Section Memory.
Context {V : Type} (Prefix : string) (Expiration : Z).

(** The value and the time of its expiration. *)
Record entry := mkEntry { data : V; expiratedAt : Z }.

Definition isExpirated (e : entry) (now : Z) : bool := expiratedAt e <? now.

(** [Options.Key]. *)
Definition Key (key : string) : string := (Prefix ++ key)%string.

Abbreviation storage := (gmap string entry).

Definition mem_Delete (key : string) : M storage unit := modify (base.delete (Key key)).

(** An expired entry is deleted under a key that has the prefix twice. *)
Definition Contains (key : string) (now : Z) : M storage bool :=
  c <- get ;;
  match c !! Key key with
  | None => ret false
  | Some e => if isExpirated e now then mem_Delete (Key key) ;;; ret false else ret true
  end.

Definition mem_Fetch (key : string) (now : Z) : M storage V :=
  c <- get ;;
  match c !! Key key with
  | None => fail ErrNotFound
  | Some e => if isExpirated e now then mem_Delete (Key key) ;;; fail ErrNotFound else ret (data e)
  end.

(** The largest time. *)
Definition MaxInt64 : Z := 2 ^ 63 - 1.

Definition mem_Save (key : string) (value : V) (expiration : option Z) (now : Z) : M storage unit :=
  let expiratedAt := match expiration with
                     | Some d => now + d
                     | None => if Expiration >? 0 then now + Expiration else MaxInt64
                     end in
  modify (<[Key key := mkEntry value expiratedAt]>).

Definition scanned (match_ : string) (kv : string * entry) : bool :=
  if match_ =s= "" then true else contains kv.1 match_.

Definition mem_Scan (match_ : string) (now : Z) : M storage (list string) := fun c =>
  (Ok ((fun kv => TrimPrefix kv.1 Prefix) <$>
         List.filter (fun kv => scanned match_ kv && negb (isExpirated kv.2 now)) (map_to_list c)),
   filter (fun kv => negb (scanned match_ kv && isExpirated kv.2 now) = true) c).
Definition mem_view (c : storage) (t : Z) (key : string) : option V :=
  match c !! Key key with
  | Some e => if isExpirated e t then None else Some (data e)
  | None => None
  end.

#[global] Instance mem_ops : CacheOps V storage := {|
  Fetch := mem_Fetch; Save := mem_Save; Delete := mem_Delete; Scan := mem_Scan; view := mem_view |}.

Lemma view_delete c t key k : mem_view (base.delete (Key key) c) t k = if key =s= k then None else mem_view c t k.
Proof.
  unfold mem_view. destruct (String.eqb_spec key k) as [->|Hne]; [by rewrite lookup_delete_eq|].
  rewrite lookup_delete_ne; [done|]. intros E. by apply (inj (String.append Prefix)) in E.
Qed.

#[global] Instance mem_cache : Cache V storage.
Proof.
  assert (Hd : forall c t key, within (mem_view (base.delete (Key key) c) t) (mem_view c t)).
  { intros c t key k v. rewrite view_delete. by case_match. }
  split; cbn.
  - intros k now c r c'. unfold mem_Fetch, mem_Delete, mem_view, bind, get, modify, ret, fail.
    destruct (c !! Key k) as [e|] eqn:E; [destruct (isExpirated e now) eqn:X|]; intros [= <- <-];
      (split; [intros t; first [apply Hd|by intros ? ?]|]); intros v Hv; try done. by injection Hv as <-.
  - intros k v ttl now c r c' [= <- <-] t j w. unfold mem_view. destruct (decide (k = j)) as [->|Hne].
    + rewrite lookup_insert_eq. case_match; [done|]. intros [= <-]. by left.
    + rewrite lookup_insert_ne; [by right|]. intros E. by apply (inj (String.append Prefix)) in E.
  - intros k c r c' [= <- <-]. split; [intros t; apply Hd|]. intros _ t. rewrite view_delete. by rewrite String.eqb_refl.
  - intros m now c r c' [= <- <-]. split.
    + intros t k v. unfold mem_view. intros H. destruct (filter _ c !! Key k) as [e|] eqn:E; [|done].
      apply map_lookup_filter_Some in E as [-> _]. done.
    + intros l [= <-] k v Hk Hm. unfold mem_view in Hk. destruct (c !! Key k) as [e|] eqn:E; [|done].
      destruct (isExpirated e now) eqn:X; [done|]. apply list_elem_of_fmap. exists (Key k, e). split.
      * cbn. unfold Key. by rewrite TrimPrefix_app.
      * apply list_elem_of_In, List.filter_In. split; [apply list_elem_of_In; by apply elem_of_map_to_list|].
        cbn. rewrite X. rewrite andb_true_r. unfold scanned. case_match; [done|]. cbn. unfold Key.
        by apply contains_app_r.
Qed.
#[global] Instance mem_reliable : Reliable V (fun _ : storage => True).
Proof.
  split; [done| |done| |]; cbn.
  - intros k now c v _. unfold mem_view, mem_Fetch, bind, get, ret.
    destruct (c !! Key k) as [e|]; [|done]. destruct (isExpirated e now); [done|]. by intros [= <-].
  - intros k v d now t c _ Ht. unfold mem_view. rewrite lookup_insert_eq. unfold isExpirated. cbn.
    by destruct (Z.ltb_spec (now + d) t); [lia|].
  - intros k c _. eexists. split; [done|]. split; [done|]. intros j t Hne. rewrite view_delete.
    by destruct (String.eqb_spec k j).
Qed.
End Memory.
Arguments entry : clear implicits.
End Memory.

(** ** In redis *)

Module Redis.
Section Redis.
Context {V : Type} (Prefix : string) (Expiration : Z).

(** Redis keeps the time of expiration, if any; its calls can fail. *)
Record server := mkServer { keys : gmap string (V * option Z); faults : list (option error) }.

#[global] Instance server_faulty : Faulty server := fun s =>
  match faults s with
  | [] => (None, s)
  | f :: fs => (f, mkServer (keys s) fs)
  end.

Definition Key (key : string) : string := (Prefix ++ key)%string.

Definition live (e : V * option Z) (now : Z) : bool :=
  match e.2 with Some t => now <? t | None => true end.

Definition lookup_live (c : server) (key : string) (now : Z) : option V :=
  match keys c !! key with
  | Some e => if live e now then Some e.1 else None
  | None => None
  end.

Definition with_keys (c : server) x := mkServer x (faults c).

(** An error counts as absence. *)
Definition Contains (key : string) (now : Z) : M server bool :=
  r <- try (io (c <- get ;; ret (match lookup_live c (Key key) now with Some _ => true | None => false end))) ;;
  ret (match r with Ok b => b | Err _ => false end).

Definition red_Delete (key : string) : M server unit :=
  io (modify (fun c => with_keys c (base.delete (Key key) (keys c)))).

(** Any error of the server is wrapped as not found. *)
Definition red_Fetch (key : string) (now : Z) : M server V :=
  r <- try (io (c <- get ;; ret (lookup_live c (Key key) now))) ;;
  match r with
  | Ok (Some v) => ret v
  | Ok None => fail ErrNotFound
  | Err e => fail (Coded "" (Error_string e) (Some ErrNotFound))
  end.

Definition red_Save (key : string) (value : V) (expiration : option Z) (now : Z) : M server unit :=
  let exp := match expiration with Some d => d | None => if Expiration >? 0 then Expiration else 0 end in
  io (modify (fun c => with_keys c (<[Key key := (value, if exp =? 0 then None else Some (now + exp))]> (keys c)))).

(** SCAN with the pattern prefix, any text, [match_], any text.  An error while
    iterating ends the iteration. *)
Definition red_Scan (match_ : string) (now : Z) : M server (list string) :=
  io (c <- get ;;
      ret ((fun kv => TrimPrefix kv.1 Prefix) <$>
             List.filter (fun kv => HasPrefix kv.1 Prefix && contains (TrimPrefix kv.1 Prefix) match_ && live kv.2 now)
               (map_to_list (keys c)))).
Definition red_view (c : server) (t : Z) (key : string) : option V := lookup_live c (Key key) t.

#[global] Instance red_ops : CacheOps V server := {|
  Fetch := red_Fetch; Save := red_Save; Delete := red_Delete; Scan := red_Scan; view := red_view |}.

(** A call that fails changes nothing but the faults to come. *)
Lemma io_server {A} (f : M server A) c r c' :
  io f c = (r, c') -> (keys c' = keys c /\ exists e, r = Err e) \/ exists fs, f (mkServer (keys c) fs) = (r, c').
Proof.
  unfold io, next_fault, server_faulty. destruct c as [ks [|[e|] fs]]; cbn.
  - intros H. right. by exists [].
  - intros [= <- <-]. left. split; [done|]. by exists e.
  - intros H. right. by exists fs.
Qed.

Lemma red_view_keys c c' t : keys c' = keys c -> red_view c' t = red_view c t.
Proof. intros E. unfold red_view, lookup_live. by rewrite E. Qed.

Lemma within_same c c' t : keys c' = keys c -> within (red_view c' t) (red_view c t).
Proof. intros E k v. by rewrite (red_view_keys c c' t E). Qed.

Lemma fetch_red k now c r c' : red_Fetch k now c = (r, c') ->
  keys c' = keys c /\ forall v, r = Ok v -> red_view c now k = Some v.
Proof.
  unfold red_Fetch, bind, try, ret. destruct (io _ c) as [x c1] eqn:E. apply io_server in E as [[Hk [e ->]]|[fs E]].
  - intros [= <- <-]. done.
  - unfold get in E. injection E as <- <-. unfold red_view, lookup_live. cbn.
    destruct (keys c !! Key k) as [e|]; [destruct (live e now)|]; intros [= <- <-]; (split; [done|]); by intros v [= <-].
Qed.

#[global] Instance red_cache : Cache V server.
Proof.
  split; cbn.
  - intros k now c r c' H. apply fetch_red in H as [Hk Hv]. split; [intros t; by apply within_same|done].
  - intros k v ttl now c r c' H t j w. unfold red_Save in H.
    apply io_server in H as [[Hk _]|[fs [= <- <-]]]; [rewrite (red_view_keys _ _ _ Hk); by right|].
    unfold red_view, lookup_live. cbn. destruct (decide (k = j)) as [->|Hne].
    + rewrite lookup_insert_eq. case_match; [|done]. intros [= <-]. by left.
    + rewrite lookup_insert_ne; [by right|]. intros E. by apply (inj (String.append Prefix)) in E.
  - intros k c r c' H. unfold red_Delete in H. apply io_server in H as [[Hk [e ->]]|[fs [= <- <-]]].
    + split; [intros t; by apply within_same|done].
    + split; [intros t j w|intros _ t]; unfold red_view, lookup_live; cbn.
      * intros H. destruct (base.delete (Key k) (keys c) !! Key j) as [e|] eqn:E; [|done].
        apply lookup_delete_Some in E as [_ ->]. done.
      * by rewrite lookup_delete_eq.
  - intros m now c r c' H. unfold red_Scan in H. apply io_server in H as [[Hk [e ->]]|[fs H]].
    + split; [intros t; by apply within_same|done].
    + unfold bind, get, ret in H. injection H as <- <-. split; [intros t; by apply within_same|].
      intros l [= <-] k v Hk Hm. unfold red_view, lookup_live in Hk.
      destruct (keys c !! Key k) as [e|] eqn:E; [|done]. destruct (live e now) eqn:X; [|done].
      apply list_elem_of_fmap. exists (Key k, e). unfold Key in *. cbn. rewrite TrimPrefix_app. split; [done|].
      apply list_elem_of_In, List.filter_In. split; [apply list_elem_of_In; by apply elem_of_map_to_list|].
      change (HasPrefix (Prefix ++ k) Prefix && contains (TrimPrefix (Prefix ++ k) Prefix) m && live e now = true).
      by rewrite HasPrefix_app, TrimPrefix_app, Hm, X.
Qed.
#[global] Instance red_reliable : Reliable V (fun c : server => faults c = []).
Proof.
  split; cbn.
  - intros k now [ks fs]. cbn. intros ->. unfold red_Fetch, bind, try, io. cbn.
    by destruct (lookup_live _ _ _).
  - intros k now [ks fs] v. cbn. intros -> H. unfold red_view in H. unfold red_Fetch, bind, try, io. cbn.
    by rewrite H.
  - intros k v ttl now [ks fs]. cbn. by intros ->.
  - intros k v d now t [ks fs]. cbn. intros -> Ht. unfold red_view, lookup_live. cbn. rewrite lookup_insert_eq.
    unfold live. cbn. destruct (Z.eqb_spec d 0); [lia|]. by destruct (Z.ltb_spec t (now + d)); [|lia].
  - intros k [ks fs]. cbn. intros ->. eexists. split; [done|]. split; [done|]. intros j t Hne.
    unfold red_view, lookup_live. cbn. rewrite lookup_delete_ne; [done|].
    intros E. by apply (inj (String.append Prefix)) in E.
Qed.
End Redis.
Arguments server : clear implicits.
End Redis.

(** The memory cache does not remove an entry that it finds expired: the
    deletion adds the prefix to a key that has it already.  The entry is gone for
    readers, but its memory is not, unless the prefix is empty. *)
Theorem expired_entry_stays {V} prefix key now c (e : Memory.entry V) :
  prefix <> "" -> c !! Memory.Key prefix key = Some e -> Memory.isExpirated e now = true ->
  exists c', Memory.mem_Fetch prefix key now c = (Err ErrNotFound, c') /\ c' !! Memory.Key prefix key = Some e.
Proof.
  intros Hp Hc He. unfold Memory.mem_Fetch, bind, get. rewrite Hc, He. eexists. split; [reflexivity|]. cbn.
  rewrite lookup_delete_ne; [done|]. intros E. apply (f_equal String.length) in E. unfold Memory.Key in E.
  rewrite !string_length_app in E. destruct prefix; [done|]. cbn in E. lia.
Qed.

Lemma expired_entry_stays_witness :
  exists c', Memory.mem_Fetch "cache:" "k" 10 {["cache:k" := Memory.mkEntry 1%Z 5]} = (Err ErrNotFound, c')
    /\ c' !! "cache:k" = Some (Memory.mkEntry 1 5).
Proof.
  destruct (expired_entry_stays "cache:" "k" 10 {["cache:k" := Memory.mkEntry 1%Z 5]} (Memory.mkEntry 1 5))
    as (c' & H1 & H2); [done|reflexivity|done|]. by exists c'.
Defined.
