(* ===== verification/CachedManager.v ===== *)
(** * Managers with a cache

    The managers of [src/pkg/cached]: those of artifacts, repositories and
    projects, which have the same shape and are modelled once for a resource with
    an identifier and a second key ([artifact/redis], [repository/redis] and
    [project/redis], files [manager.go]), that of project metadata
    ([project_metadata/redis/manager.go]), and the base manager
    ([base_manager.go]).  Hooks that run after the commit are those of
    [src/lib/orm/orm.go]. *)

From S2P Require Import Prelude Errors Cached.
Import GoStrings.

(** ** Resources *)

(** What a manager caches: the namespace of its keys, the identifier and the
    values of its second key. *)
Record Resource (R : Type) := mkResource {
  res_ns : string;
  res_id : R -> Z;
  res_second : R -> list kv_value;
}.
Arguments mkResource {R}.
Arguments res_ns {R}.
Arguments res_id {R}.
Arguments res_second {R}.

Definition id_key {R} (rs : Resource R) (i : Z) : result string := Format (res_ns rs) [VStr "id"; VInt i].
Definition second_key {R} (rs : Resource R) (kv : list kv_value) : result string := Format (res_ns rs) kv.

(** The table, the cache, the hooks of the transaction (none outside one), the
    mark of the transaction middleware, and the faults of the database calls. *)
Record store (R C : Type) := mkStore {
  rows : gmap Z R;
  cache : C;
  hooks : option (list (Z * list kv_value));
  committedKey : bool;
  db_faults : list (option error);
}.
Arguments mkStore {R C}.
Arguments rows {R C}.
Arguments cache {R C}.
Arguments hooks {R C}.
Arguments committedKey {R C}.
Arguments db_faults {R C}.

Section Manager.
Context {R C : Type} `{!CacheOps R C} (rs : Resource R).
(** The life time of entries, and the calls of a deletion before its time-out. *)
Context (lifetime : Z) (attempts : nat).

Definition with_rows (s : store R C) (x : gmap Z R) : store R C :=
  mkStore x (cache s) (hooks s) (committedKey s) (db_faults s).
Definition with_cache (s : store R C) (x : C) : store R C :=
  mkStore (rows s) x (hooks s) (committedKey s) (db_faults s).
Definition with_hooks (s : store R C) (x : option (list (Z * list kv_value))) : store R C :=
  mkStore (rows s) (cache s) x (committedKey s) (db_faults s).

#[global] Instance store_faulty : Faulty (store R C) := fun s =>
  match db_faults s with
  | [] => (None, s)
  | f :: fs => (f, mkStore (rows s) (cache s) (hooks s) (committedKey s) fs)
  end.

Definition on_cache {A} (m : M C A) : M (store R C) A := fun s =>
  let p := m (cache s) in (p.1, with_cache s p.2).

(** ** The managers over the database *)

Definition not_found : error := NotFoundError None.

Definition raw_Get (i : Z) : M (store R C) R :=
  io (s <- get ;; match rows s !! i with Some r => ret r | None => fail not_found end).

(** The row with a second key. *)
Definition find_second (t : gmap Z R) (kv : list kv_value) : option R :=
  List.find (fun r => bool_decide (res_second rs r = kv)) (map_to_list t).*2.

Definition raw_GetBy (kv : list kv_value) : M (store R C) R :=
  io (s <- get ;; match find_second (rows s) kv with Some r => ret r | None => fail not_found end).

(** The identifier is the next of the sequence; the second key is unique. *)
Definition raw_Create (r : R) : M (store R C) Z :=
  io (s <- get ;;
      if bool_decide (rows s !! res_id rs r = None) then
        match find_second (rows s) (res_second rs r) with
        | Some _ => fail (WithCode (New "already exists") ConflictCode)
        | None => modify (fun s => with_rows s (<[res_id rs r := r]> (rows s))) ;;; ret (res_id rs r)
        end
      else fail (WithCode (New "already exists") ConflictCode)).

Definition raw_Delete (i : Z) : M (store R C) unit :=
  io (s <- get ;; match rows s !! i with
                  | Some _ => modify (fun s => with_rows s (base.delete i (rows s)))
                  | None => fail not_found
                  end).

(** An update of the columns that [f] sets; [missing] is the error of an absent
    row. *)
Definition raw_Update (missing : error) (i : Z) (f : R -> R) : M (store R C) unit :=
  io (s <- get ;; match rows s !! i with
                  | Some r => modify (fun s => with_rows s (<[i := f r]> (rows s)))
                  | None => fail missing
                  end).

(** A write that the cached manager passes on: of the row [i], to what [w] makes
    of it, when there is something to change. *)
Definition raw_Pass (i : Z) (w : R -> option R) : M (store R C) unit :=
  io (s <- get ;; match rows s !! i ≫= w with
                  | Some r => modify (fun s => with_rows s (<[i := r]> (rows s)))
                  | None => fail not_found
                  end).

Definition AddPullCount_missing : error := New "failed to increase repository pull count".

(** ** The cached managers *)

(** The client does not save while the transaction middleware's mark is set. *)
Definition client_Save (key : string) (v : R) (now : Z) : M (store R C) unit :=
  s <- get ;; if committedKey s then ret tt else on_cache (Save key v (Some lifetime) now).

(** Fetch, else read and save; the errors of the cache are only logged. *)
Definition fetch_or_read (key : string) (read : M (store R C) R) (now : Z) : M (store R C) R :=
  r <- try (on_cache (Fetch key now)) ;;
  match r with
  | Ok v => ret v
  | Err _ => v <- read ;; try (client_Save key v now) ;;; ret v
  end.

Definition Get (i now : Z) : M (store R C) R :=
  key <- of_result (id_key rs i) ;; fetch_or_read key (raw_Get i) now.

Definition GetBy (kv : list kv_value) (now : Z) : M (store R C) R :=
  key <- of_result (second_key rs kv) ;; fetch_or_read key (raw_GetBy kv) now.

Definition clean_key (key : result string) : M (store R C) unit :=
  match key with
  | Err _ => ret tt
  | Ok key => try (on_cache (Retry attempts None (Delete (V := R) key))) ;;; ret tt
  end.

Definition cleanUpKeys (i : Z) (kv : list kv_value) : M (store R C) unit :=
  clean_key (id_key rs i) ;;; clean_key (second_key rs kv).

(** [orm.AfterCommit] of the clean up. *)
Definition scheduleCleanUp (r : R) : M (store R C) unit :=
  s <- get ;;
  match hooks s with
  | Some l => modify (fun s => with_hooks s (Some (l ++ [(res_id rs r, res_second rs r)])))
  | None => cleanUpKeys (res_id rs r) (res_second rs r)
  end.

Definition refreshCache (r : R) (now : Z) : M (store R C) unit :=
  cleanUpKeys (res_id rs r) (res_second rs r) ;;;
  try (Get (res_id rs r) now) ;;;
  try (GetBy (res_second rs r) now) ;;;
  ret tt.

Definition Delete_ (i now : Z) : M (store R C) unit :=
  r <- Get i now ;; raw_Delete i ;;; scheduleCleanUp r.

(** [r] is the record the caller gives, [f] sets the columns it names. *)
Definition Update (r : R) (f : R -> R) : M (store R C) unit :=
  raw_Update not_found (res_id rs r) f ;;; scheduleCleanUp r.

(** [UpdatePullTime] of artifacts and [AddPullCount] of repositories. *)
Definition UpdateAndRefresh (missing : error) (i : Z) (f : R -> R) (now : Z) : M (store R C) unit :=
  r <- Get i now ;; raw_Update missing i f ;;; refreshCache r now.

(** [Touch] of repositories. *)
Definition Touch (i : Z) (f : R -> R) (now : Z) : M (store R C) unit :=
  r <- Get i now ;; raw_Update not_found i f ;;; scheduleCleanUp r.

(** ** Transactions *)

Fixpoint run_hooks (l : list (Z * list kv_value)) : M (store R C) unit :=
  match l with
  | [] => ret tt
  | (i, kv) :: l => cleanUpKeys i kv ;;; run_hooks l
  end.

(** [orm.WithTransaction]: the outermost one runs the hooks after its commit and
    drops them otherwise; a nested one leaves them to it. *)
Definition WithTransaction {A} (m : M (store R C) A) : M (store R C) A := fun s =>
  match hooks s with
  | Some _ =>
      match m s with
      | (Ok a, s') => (Ok a, s')
      | (Err e, s') => (Err e, with_rows s' (rows s))
      end
  | None =>
      match m (with_hooks s (Some [])) with
      | (Err e, s') => (Err e, with_hooks (with_rows s' (rows s)) None)
      | (Ok a, s') =>
          match io (ret tt) s' with
          | (Err e, s'') => (Err e, with_hooks (with_rows s'' (rows s)) None)
          | (Ok _, s'') => (run_hooks (default [] (hooks s'')) ;;; ret a) (with_hooks s'' None)
          end
      end
  end.

(** ** The manager as a whole *)

(** The calls a manager serves; [CPass] is [DeleteReference] of artifacts, which
    takes a reference from the row [i] and does nothing with the cache. *)
Inductive call :=
| CGet (i : Z)
| CGetBy (kv : list kv_value)
| CCreate (r : R)
| CDelete (i : Z)
| CUpdate (r : R) (f : R -> R)
| CRefresh (missing : error) (i : Z) (f : R -> R)
| CTouch (i : Z) (f : R -> R)
| CPass (i : Z) (w : R -> option R).

Definition found (m : M (store R C) R) : M (store R C) (option R) := r <- m ;; ret (Some r).
Definition unit_ {A} (m : M (store R C) A) : M (store R C) (option R) := m ;;; ret None.

Definition exec_cached (c : call) (now : Z) : M (store R C) (option R) :=
  match c with
  | CGet i => found (Get i now)
  | CGetBy kv => found (GetBy kv now)
  | CCreate r => unit_ (raw_Create r)
  | CDelete i => unit_ (Delete_ i now)
  | CUpdate r f => unit_ (Update r f)
  | CRefresh missing i f => unit_ (UpdateAndRefresh missing i f now)
  | CTouch i f => unit_ (Touch i f now)
  | CPass i w => unit_ (raw_Pass i w)
  end.

(** The same calls on the manager over the database alone. *)
Definition exec_raw (c : call) : M (store R C) (option R) :=
  match c with
  | CGet i => found (raw_Get i)
  | CGetBy kv => found (raw_GetBy kv)
  | CCreate r => unit_ (raw_Create r)
  | CDelete i => unit_ (raw_Delete i)
  | CUpdate r f => unit_ (raw_Update not_found (res_id rs r) f)
  | CRefresh missing i f => unit_ (raw_Update missing i f)
  | CTouch i f => unit_ (raw_Update not_found i f)
  | CPass i w => unit_ (raw_Pass i w)
  end.

(** A sequence of calls, each at its time: the results and the last state. *)
Fixpoint run (exec : call -> Z -> M (store R C) (option R)) (l : list (call * Z)) (s : store R C)
  : list (result (option R)) * store R C :=
  match l with
  | [] => ([], s)
  | (c, now) :: l => let p := exec c now s in let q := run exec l p.2 in (p.1 :: q.1, q.2)
  end.
End Manager.
Arguments call : clear implicits.

(** ** Keys of resources *)

(** What the managers need of the second key: on valid values it has a text,
    different for different values and for every identifier. *)
Class ResourceKeys {R} (rs : Resource R) (valid : list kv_value -> Prop) : Prop := {
  second_ok kv : valid kv -> exists k, second_key rs kv = Ok k;
  second_inj kv kv' k : valid kv -> valid kv' -> second_key rs kv = Ok k -> second_key rs kv' = Ok k -> kv = kv';
  second_id kv i k : valid kv -> second_key rs kv = Ok k -> id_key rs i <> Ok k;
}.

Lemma id_key_eq {R} (rs : Resource R) i :
  id_key rs i = Ok (res_ns rs ++ ":id:" ++ Strconv.format_int i ++ "")%string.
Proof. reflexivity. Qed.

Lemma id_inj {R} (rs : Resource R) i j k : Int64.in_range i -> Int64.in_range j ->
  id_key rs i = Ok k -> id_key rs j = Ok k -> i = j.
Proof.
  rewrite !id_key_eq. intros Hi Hj H H'. injection H as H. rewrite <- H in H'.
  injection H' as E'. apply (inj (String.append (res_ns rs))), (inj (String.append ":id:")) in E'.
  rewrite !app_nil in E'. apply (f_equal Strconv.parse_int) in E'.
  rewrite !Strconv.parse_format_int in E' by done. congruence.
Qed.

(** ** Refinement *)

Section Refinement.
Context {R C : Type} `{!CacheOps R C, !Cache R C} {good : C -> Prop} `{!Reliable R good}.
Context {rs : Resource R} {valid : list kv_value -> Prop} `{!ResourceKeys rs valid}.
Context (lifetime : Z) (n : nat).
Abbreviation attempts := (S n).

(** An entry of the cache that shows a row of the table. *)
Definition entry_ok (t : gmap Z R) (k : string) (r : R) : Prop :=
  t !! res_id rs r = Some r /\ (id_key rs (res_id rs r) = Ok k \/ second_key rs (res_second rs r) = Ok k).

Definition coherent_but (skip : list string) (t : gmap Z R) (c : C) : Prop :=
  forall tm k r, view c tm k = Some r -> k ∉ skip -> entry_ok t k r.

(** What a read may answer for a row: the row, or, if the row is stale, another
    one with the same keys. *)
Definition agrees (stale : gset Z) (row r : R) : Prop :=
  res_id rs r = res_id rs row /\ res_second rs r = res_second rs row /\ (res_id rs row ∉ stale -> r = row).

(** An entry that shows a row in this sense, and a cache with such entries but
    for some keys. *)
Definition shows (stale : gset Z) (t : gmap Z R) (k : string) (r : R) : Prop :=
  (exists row, t !! res_id rs r = Some row /\ agrees stale row r)
  /\ (id_key rs (res_id rs r) = Ok k \/ second_key rs (res_second rs r) = Ok k).

Definition coherent_stale (stale : gset Z) (skip : list string) (t : gmap Z R) (c : C) : Prop :=
  forall tm k r, view c tm k = Some r -> k ∉ skip -> shows stale t k r.

(** The rows are keyed by their identifiers, and their second keys are unique. *)
Record table_ok (t : gmap Z R) : Prop := {
  tab_row i r : t !! i = Some r -> res_id rs r = i /\ Int64.in_range i /\ valid (res_second rs r);
  tab_unique i j r r' : t !! i = Some r -> t !! j = Some r' -> res_second rs r = res_second rs r' -> i = j;
}.

(** The cache shows the table but for stale rows, outside a transaction, with the
    database and the cache answering. *)
Record Inv (stale : gset Z) (s : store R C) : Prop := {
  inv_table : table_ok (rows s);
  inv_good : good (cache s);
  inv_hooks : hooks s = None;
  inv_faults : db_faults s = [];
  inv_coherent : coherent_stale stale [] (rows s) (cache s);
}.

Lemma agrees_none row r : agrees ∅ row r <-> r = row.
Proof. unfold agrees. split; [intros (_ & _ & H); apply H; set_solver|by intros ->]. Qed.

(** With no row stale the cache shows the table. *)
Lemma coherent_none t c : coherent_stale ∅ [] t c <-> coherent_but [] t c.
Proof.
  split; intros H tm k r Hk Hs; destruct (H tm k r Hk Hs) as [H1 H2]; (split; [|done]).
  - by destruct H1 as (row & H1 & ->%agrees_none).
  - exists r. split; [done|]. by apply agrees_none.
Qed.

Lemma agrees_mono S S' row r : S ⊆ S' -> agrees S row r -> agrees S' row r.
Proof. intros H (H1 & H2 & H3). split_and!; [done|done|]. intros N. apply H3. set_solver. Qed.

Lemma Inv_mono S S' s : S ⊆ S' -> Inv S s -> Inv S' s.
Proof.
  intros H [Ht Hg Hh Hf Hc]. split; try done. intros tm k r Hk Hs. destruct (Hc tm k r Hk Hs) as [(row & H1 & H2) H3].
  split; [|done]. exists row. split; [done|]. by eapply agrees_mono.
Qed.

(** A row that is not there is not stale. *)
Lemma Inv_absent S i s : rows s !! i = None -> Inv S s -> Inv (S ∖ {[i]}) s.
Proof.
  intros N [Ht Hg Hh Hf Hc]. split; try done. intros tm k r Hk Hs. destruct (Hc tm k r Hk Hs) as [(row & H1 & E & E2 & H2) H3].
  split; [|done]. exists row. split; [done|]. split_and!; [done|done|]. intros Hn. apply H2.
  assert (res_id rs row <> i); [rewrite <- E; congruence|set_solver].
Qed.

Definition keeps_keys (f : R -> R) : Prop :=
  forall r, res_id rs (f r) = res_id rs r /\ res_second rs (f r) = res_second rs r.

(** The calls as the program makes them: identifiers of 64 bits, valid second
    keys, updates that change no key, and of records with the row's second key. *)
Definition call_ok (t : gmap Z R) (c : call R) : Prop :=
  match c with
  | CGet i | CDelete i => Int64.in_range i
  | CGetBy kv => valid kv
  | CCreate r => Int64.in_range (res_id rs r) /\ valid (res_second rs r)
  | CUpdate r f => Int64.in_range (res_id rs r) /\ keeps_keys f /\
      forall row, t !! res_id rs r = Some row -> res_second rs row = res_second rs r
  | CRefresh _ i f | CTouch i f => Int64.in_range i /\ keeps_keys f
  | CPass i w => forall r r', w r = Some r' -> res_id rs r' = res_id rs r /\ res_second rs r' = res_second rs r
  end.

(** The rows that may be stale in the cache after a call: those written past it,
    until the next call that cleans their entries. *)
Definition next_stale (stale : gset Z) (c : call R) : gset Z :=
  match c with
  | CPass i _ => {[i]} ∪ stale
  | CDelete i | CRefresh _ i _ | CTouch i _ => stale ∖ {[i]}
  | CUpdate r _ => stale ∖ {[res_id rs r]}
  | CGet _ | CGetBy _ | CCreate _ => stale
  end.

Definition or_not_found (o : option R) : result R :=
  match o with Some r => Ok r | None => Err not_found end.

Lemma raw_Get_eq (s : store R C) i : db_faults s = [] -> raw_Get i s = (or_not_found (rows s !! i), s).
Proof. intros E. unfold raw_Get, io, next_fault, store_faulty, bind, get. rewrite E. by destruct (rows s !! i). Qed.

Lemma raw_GetBy_eq (s : store R C) kv : db_faults s = [] ->
  raw_GetBy rs kv s = (or_not_found (find_second rs (rows s) kv), s).
Proof. intros E. unfold raw_GetBy, io, next_fault, store_faulty, bind, get. rewrite E. by destruct (find_second _ _ _). Qed.

Lemma raw_Update_eq (s : store R C) e i f : db_faults s = [] ->
  raw_Update e i f s = match rows s !! i with
                       | Some r => (Ok tt, with_rows s (<[i := f r]> (rows s)))
                       | None => (Err e, s)
                       end.
Proof. intros E. unfold raw_Update, io, next_fault, store_faulty, bind, get. rewrite E. by destruct (rows s !! i). Qed.

Lemma raw_Delete_eq (s : store R C) i : db_faults s = [] ->
  raw_Delete i s = match rows s !! i with
                   | Some r => (Ok tt, with_rows s (base.delete i (rows s)))
                   | None => (Err not_found, s)
                   end.
Proof. intros E. unfold raw_Delete, io, next_fault, store_faulty, bind, get. rewrite E. by destruct (rows s !! i). Qed.

Lemma find_second_Some t kv r : table_ok t ->
  find_second rs t kv = Some r <-> t !! res_id rs r = Some r /\ res_second rs r = kv.
Proof.
  intros Ht. unfold find_second. split.
  - intros H. apply List.find_some in H as [H1 H2]. apply list_elem_of_In, list_elem_of_fmap in H1 as ([i x] & -> & H1).
    apply elem_of_map_to_list in H1. apply bool_decide_eq_true in H2. cbn in *.
    destruct (tab_row _ Ht _ _ H1) as [-> _]. done.
  - intros [H1 H2]. destruct (List.find _ _) as [x|] eqn:E.
    + apply List.find_some in E as [E1 E2]. apply list_elem_of_In, list_elem_of_fmap in E1 as ([i y] & -> & E1).
      apply elem_of_map_to_list in E1. apply bool_decide_eq_true in E2. cbn in *.
      assert (i = res_id rs r) as -> by (apply (tab_unique _ Ht _ _ _ _ E1 H1); congruence). congruence.
    + eapply List.find_none in E; [apply bool_decide_eq_false in E; by destruct (E H2)|].
      apply list_elem_of_In, list_elem_of_fmap. exists (res_id rs r, r). split; [done|]. by apply elem_of_map_to_list.
Qed.

Lemma coherent_within skip t c c' :
  (forall tm, within (view c' tm) (view c tm)) -> coherent_but skip t c -> coherent_but skip t c'.
Proof. intros Hw Hc tm k r Hk. apply (Hc tm). by apply Hw. Qed.

Lemma coherent_stale_within S skip t c c' :
  (forall tm, within (view c' tm) (view c tm)) -> coherent_stale S skip t c -> coherent_stale S skip t c'.
Proof. intros Hw Hc tm k r Hk. apply (Hc tm). by apply Hw. Qed.

(** Reading through the cache is reading, or gives an entry that shows the row. *)
Lemma fetch_or_read_eq S k read now x (s : store R C) :
  Inv S s -> (forall c, read (with_cache s c) = (x, with_cache s c)) ->
  (forall r, x = Ok r -> shows S (rows s) k r) ->
  exists o c, fetch_or_read lifetime k read now s = (o, with_cache s c) /\ Inv S (with_cache s c)
    /\ (o = x \/ exists r, o = Ok r /\ shows S (rows s) k r).
Proof.
  intros [Ht Hg Hh Hf Hc] Hr Hx. unfold fetch_or_read, bind, try, on_cache.
  pose proof (good_fetch k now _ Hg) as Hg1. destruct (Fetch k now (cache s)) as [r1 c1] eqn:E1. cbn in Hg1 |- *.
  apply fetch_view in E1 as [W1 V1].
  pose proof (coherent_stale_within _ _ _ _ _ W1 Hc) as Hc1. destruct r1 as [v|e].
  - exists (Ok v), c1. split; [done|]. split; [by split|]. right. exists v. split; [done|].
    apply (Hc now); [by apply V1|apply not_elem_of_nil].
  - rewrite Hr. destruct x as [v|e']; [|exists (Err e'), c1; split; [done|]; split; [by split|by left]].
    unfold client_Save, bind, get, on_cache. cbn.
    destruct (committedKey s); [exists (Ok v), c1; split; [done|]; split; [by split|by left]|].
    pose proof (good_save k v (Some lifetime) now _ Hg1) as Hg2.
    destruct (Save k v (Some lifetime) now c1) as [r2 c2] eqn:E2. cbn in Hg2 |- *.
    exists (Ok v), c2. split; [by rewrite E2|]. split; [|by left]. split; cbn; try done. intros tm j w Hj _.
    destruct (save_view _ _ _ _ _ _ _ E2 tm j w Hj) as [[-> ->]|Hj']; [by apply Hx|].
    by apply (Hc1 tm); [|apply not_elem_of_nil].
Qed.

(** What a read answers when the table has this row, or none. *)
Definition reads (stale : gset Z) (o : option R) (x : result R) : Prop :=
  match o, x with
  | Some row, Ok r => agrees stale row r
  | None, Err e => e = not_found
  | _, _ => False
  end.

Lemma reads_refl S o : reads S o (or_not_found o).
Proof. by destruct o. Qed.

Lemma Get_eq S i now (s : store R C) : Inv S s -> Int64.in_range i ->
  exists o c, Get rs lifetime i now s = (o, with_cache s c) /\ Inv S (with_cache s c) /\ reads S (rows s !! i) o.
Proof.
  intros Hs Hi. unfold Get, of_result, bind. destruct (id_key rs i) as [k|] eqn:Ek; [|done].
  destruct (fetch_or_read_eq S k (raw_Get i) now (or_not_found (rows s !! i)) s) as (o & c & E & HI & Ho); [done| | |].
  - intros c. apply (raw_Get_eq (with_cache s c)). apply Hs.
  - intros r E. destruct (rows s !! i) as [x|] eqn:Ei; [|done]. injection E as ->.
    destruct (tab_row _ (inv_table _ _ Hs) _ _ Ei) as [Er _]. unfold shows. rewrite Er. split; [|by left]. by exists r.
  - exists o, c. split; [done|]. split; [done|]. destruct Ho as [->|(r & -> & (row & H1 & H2) & Hk)]; [apply reads_refl|].
    destruct (tab_row _ (inv_table _ _ Hs) _ _ H1) as (_ & Hr & Hv). pose proof H2 as (_ & E2 & _). rewrite <- E2 in Hv.
    assert (i = res_id rs r) as ->; [|by rewrite H1]. destruct Hk as [Hk|Hk].
    + by apply (id_inj rs i (res_id rs r) k).
    + by destruct (second_id _ i _ Hv Hk).
Qed.

Lemma GetBy_eq S kv now (s : store R C) : Inv S s -> valid kv ->
  exists o c, GetBy rs lifetime kv now s = (o, with_cache s c) /\ Inv S (with_cache s c)
    /\ reads S (find_second rs (rows s) kv) o.
Proof.
  intros Hs Hv. unfold GetBy, of_result, bind. destruct (second_ok _ Hv) as [k Ek]. rewrite Ek.
  pose proof (fun r => find_second_Some (rows s) kv r (inv_table _ _ Hs)) as Hf.
  destruct (fetch_or_read_eq S k (raw_GetBy rs kv) now (or_not_found (find_second rs (rows s) kv)) s)
    as (o & c & E & HI & Ho); [done| | |].
  - intros c. apply (raw_GetBy_eq (with_cache s c)). apply Hs.
  - intros r E. destruct (find_second rs (rows s) kv) as [x|] eqn:Ei; [|done]. injection E as ->.
    destruct (proj1 (Hf r) eq_refl) as [H1 H2]. split; [by exists r|]. right. by rewrite H2.
  - exists o, c. split; [done|]. split; [done|]. destruct Ho as [->|(r & -> & (row & H1 & H2) & Hk)]; [apply reads_refl|].
    destruct (tab_row _ (inv_table _ _ Hs) _ _ H1) as (E0 & Hr & Hv'). pose proof H2 as (_ & E2 & _).
    destruct Hk as [Hk|Hk]; [by destruct (second_id _ (res_id rs r) _ Hv Ek)|].
    rewrite E2 in Hk. assert (Hkv : res_second rs row = kv) by (by apply (second_inj _ _ k)).
    assert (find_second rs (rows s) kv = Some row) as ->; [|done]. apply Hf. split; [by rewrite E0|done].
Qed.

(** Cleaning a key ends the exception made for it. *)
Lemma clean_key_eq S k skip (s : store R C) : good (cache s) -> coherent_stale S (k :: skip) (rows s) (cache s) ->
  exists c, clean_key attempts (Ok k) s = (Ok tt, with_cache s c) /\ good c /\ coherent_stale S skip (rows s) c.
Proof.
  intros Hg Hc. destruct (good_delete k (cache s) Hg) as (c & E & Hg' & _).
  exists c. unfold clean_key, bind, try, on_cache.
  rewrite (Retry_ok_first _ _ _ _ _ _ E). split; [done|]. split; [done|].
  apply delete_view in E as [W D]. intros tm j r Hj Hs. apply (Hc tm); [by apply W|].
  apply not_elem_of_cons. split; [|done]. intros ->. by rewrite D in Hj.
Qed.

(** A change of one row leaves only its own entries behind. *)
Lemma coherent_change S t t' c i r k1 k2 :
  table_ok t -> coherent_stale S [] t c -> t !! i = Some r -> (forall j, j <> i -> t' !! j = t !! j) ->
  id_key rs i = Ok k1 -> second_key rs (res_second rs r) = Ok k2 -> coherent_stale (S ∖ {[i]}) [k1; k2] t' c.
Proof.
  intros Tt Hc Hi Ht E1 E2 tm k x Hk Hs. destruct (Hc tm k x Hk (not_elem_of_nil k)) as [(row & H1 & Ha) H2].
  pose proof Ha as (Ia & Sa & Fa). destruct (decide (res_id rs x = i)) as [E|Hne].
  - exfalso. apply Hs. rewrite E in H1, H2. assert (row = r) as -> by congruence. rewrite Sa in H2.
    destruct H2 as [H2|H2]; [assert (k = k1) as -> by congruence|assert (k = k2) as -> by congruence]; set_solver.
  - split; [|done]. exists row. split; [by rewrite Ht|]. split_and!; [done|done|]. intros N. apply Fa.
    rewrite <- Ia in N |- *. set_solver.
Qed.

Lemma cleanUpKeys_eq S i r t (s : store R C) :
  table_ok (rows s) -> good (cache s) -> hooks s = None -> db_faults s = [] ->
  table_ok t -> t !! i = Some r -> coherent_stale S [] t (cache s) -> (forall j, j <> i -> rows s !! j = t !! j) ->
  exists c, cleanUpKeys rs attempts (res_id rs r) (res_second rs r) s = (Ok tt, with_cache s c)
    /\ Inv (S ∖ {[i]}) (with_cache s c).
Proof.
  intros Ht Hg Hh Hf Ht0 Hi Hc Hj. destruct (tab_row _ Ht0 _ _ Hi) as (Hri & _ & Hv).
  destruct (second_ok _ Hv) as [k2 E2]. destruct (id_key rs i) as [k1|] eqn:E1; [|done].
  unfold cleanUpKeys. rewrite Hri, E1, E2.
  destruct (clean_key_eq (S ∖ {[i]}) k1 [k2] s Hg) as (c1 & H1 & Hg1 & Hc1).
  { by apply (coherent_change S t _ _ i r). }
  rewrite (bind_ok _ _ _ _ _ H1).
  destruct (clean_key_eq (S ∖ {[i]}) k2 [] (with_cache s c1) Hg1 Hc1) as (c2 & H2 & Hg2 & Hc2).
  exists c2. rewrite H2. split; [done|]. by split.
Qed.

Lemma scheduleCleanUp_eq r (s : store R C) : hooks s = None ->
  scheduleCleanUp rs attempts r s = cleanUpKeys rs attempts (res_id rs r) (res_second rs r) s.
Proof. intros E. unfold scheduleCleanUp, bind, get. by rewrite E. Qed.

Lemma table_change t i r r' : table_ok t -> t !! i = Some r ->
  res_id rs r' = res_id rs r -> res_second rs r' = res_second rs r -> table_ok (<[i := r']> t).
Proof.
  intros [T1 T2] Hi Hf1 Hf2.
  assert (H : forall j x, <[i := r']> t !! j = Some x -> exists y, t !! j = Some y /\ res_second rs y = res_second rs x
                                                      /\ res_id rs y = res_id rs x).
  { intros j x. rewrite lookup_insert_Some. intros [[<- <-]|[_ H]]; [by exists r|by exists x]. }
  split.
  - intros j x Hj. destruct (H _ _ Hj) as (y & Hy & <- & <-). by apply T1.
  - intros j j' x x' Hx Hx' E. destruct (H _ _ Hx) as (y & Hy & Es & _). destruct (H _ _ Hx') as (y' & Hy' & Es' & _).
    apply (T2 _ _ _ _ Hy Hy'). congruence.
Qed.

Lemma table_update t i r f : table_ok t -> t !! i = Some r -> keeps_keys f -> table_ok (<[i := f r]> t).
Proof. intros Ht Hi Hf. destruct (Hf r). by apply (table_change t i r). Qed.

Lemma table_delete t i : table_ok t -> table_ok (base.delete i t).
Proof.
  intros [T1 T2]. split.
  - intros j x. rewrite lookup_delete_Some. intros [_ H]. by apply T1.
  - intros j j' x x'. rewrite !lookup_delete_Some. intros [_ H] [_ H']. by apply T2.
Qed.

Lemma table_create t r : table_ok t -> t !! res_id rs r = None -> find_second rs t (res_second rs r) = None ->
  Int64.in_range (res_id rs r) -> valid (res_second rs r) -> table_ok (<[res_id rs r := r]> t).
Proof.
  intros Ht Hi Hs Hr Hv. pose proof Ht as [T1 T2].
  assert (Hnew : forall j x, t !! j = Some x -> res_second rs x <> res_second rs r).
  { intros j x Hj E. destruct (T1 _ _ Hj) as [Hx _]. rewrite <- Hx in Hj.
    assert (find_second rs t (res_second rs r) = Some x) by (by apply find_second_Some). congruence. }
  split.
  - intros j x. rewrite lookup_insert_Some. intros [[<- <-]|[_ H]]; [done|by apply T1].
  - intros j j' x x'. rewrite !lookup_insert_Some.
    intros [[<- <-]|[N H]] [[<- <-]|[N' H']] E; [done| | |by apply (T2 _ _ _ _ H H')].
    + by destruct (Hnew _ _ H').
    + by destruct (Hnew _ _ H).
Qed.

(** After the change of a row the clean up restores the invariant, with the row
    no longer stale. *)
Lemma write_clean S t' i r r' (s : store R C) :
  Inv S s -> rows s !! i = Some r -> (forall j, j <> i -> t' !! j = rows s !! j) -> table_ok t' ->
  res_id rs r' = i -> res_second rs r' = res_second rs r ->
  exists c, cleanUpKeys rs attempts (res_id rs r') (res_second rs r') (with_rows s t')
              = (Ok tt, with_cache (with_rows s t') c)
            /\ scheduleCleanUp rs attempts r' (with_rows s t') = (Ok tt, with_cache (with_rows s t') c)
            /\ Inv (S ∖ {[i]}) (with_cache (with_rows s t') c).
Proof.
  intros [Ht Hg Hh Hf Hc] Hi Hj Ht' E1 E2.
  destruct (cleanUpKeys_eq S i r (rows s) (with_rows s t')) as (c & E & HI); try done.
  destruct (tab_row _ Ht _ _ Hi) as [E0 _]. rewrite scheduleCleanUp_eq by done.
  assert (res_id rs r' = res_id rs r) as -> by congruence. rewrite E2. exists c. by rewrite E.
Qed.

(** The same answer but for stale rows, or an error on both sides. *)
Definition same_but (stale : gset Z) (x y : result (option R)) : Prop :=
  match x, y with
  | Ok (Some a), Ok (Some b) => agrees stale b a
  | Ok None, Ok None | Err _, Err _ => True
  | _, _ => False
  end.

(** What a step of the cached manager has to match. *)
Definition matches (S S' : gset Z) (p q : result (option R) * store R C) : Prop :=
  same_but S p.1 q.1 /\ rows p.2 = rows q.2 /\ db_faults q.2 = [] /\ Inv S' p.2.

(** A call that reads the row [i], writes it and cleans its entries. *)
Lemma sim_write S i now (write : M (store R C) unit) (clean : R -> M (store R C) unit) (t' : gmap Z R) e (s s0 : store R C) :
  Inv S s -> rows s0 = rows s -> db_faults s0 = [] -> Int64.in_range i ->
  (forall s, rows s = rows s0 -> db_faults s = [] ->
     write s = match rows s !! i with Some _ => (Ok tt, with_rows s t') | None => (Err e, s) end) ->
  table_ok t' -> (forall j, j <> i -> t' !! j = rows s !! j) ->
  (forall r c c', cleanUpKeys rs attempts (res_id rs r) (res_second rs r) (with_rows (with_cache s c) t')
                    = (Ok tt, with_cache (with_rows s t') c') ->
     scheduleCleanUp rs attempts r (with_rows (with_cache s c) t') = (Ok tt, with_cache (with_rows s t') c') ->
     Inv (S ∖ {[i]}) (with_cache (with_rows s t') c') -> res_id rs r = i -> valid (res_second rs r) ->
     exists c2, clean r (with_rows (with_cache s c) t') = (Ok tt, with_cache (with_rows s t') c2)
       /\ Inv (S ∖ {[i]}) (with_cache (with_rows s t') c2)) ->
  matches S (S ∖ {[i]}) (unit_ (r <- Get rs lifetime i now ;; write ;;; clean r) s) (unit_ write s0).
Proof.
  intros Hs Er Ef Hi Hw Ht' Hj Hcl. unfold unit_. destruct (Get_eq S i now s Hs Hi) as (o & c & E & Hc & Ho).
  unfold bind at 1 2 4. rewrite E, (Hw s0), Er by done.
  destruct (rows s !! i) as [row|] eqn:Ei, o as [r|e1]; try done; cycle 1.
  { split; [done|]. split; [done|]. split; [done|]. by apply Inv_absent. }
  destruct Ho as (H1 & H2 & _). destruct (tab_row _ (inv_table _ _ Hs) _ _ Ei) as (Eid & _ & Hv).
  unfold bind at 1. rewrite (Hw (with_cache s c)) by (done || apply Hs). cbn [rows with_cache]. rewrite Ei.
  destruct (write_clean S t' i row r (with_cache s c) Hc Ei) as (c' & E1 & E2 & HI); [done|done|congruence|done|].
  destruct (Hcl r c c') as (c2 & E3 & HI2); [done|done|done|congruence|by rewrite H2|].
  change (with_cache (with_rows (with_cache s c) t') c') with (with_cache (with_rows s t') c') in *.
  rewrite E3. by split.
Qed.

Lemma sim_delete S i now (s s0 : store R C) :
  Inv S s -> rows s0 = rows s -> db_faults s0 = [] -> Int64.in_range i ->
  matches S (S ∖ {[i]}) (unit_ (Delete_ rs lifetime attempts i now) s) (unit_ (raw_Delete i) s0).
Proof.
  intros Hs Er Ef Hi.
  apply (sim_write S i now (raw_Delete i) (scheduleCleanUp rs attempts) (base.delete i (rows s)) not_found); try done.
  - intros s1 E1 F1. rewrite raw_Delete_eq by done. rewrite E1, Er. done.
  - apply table_delete, Hs.
  - intros j Hj. by rewrite lookup_delete_ne.
  - intros r c c' _ E HI _ _. by exists c'.
Qed.

Lemma sim_update S r f (s s0 : store R C) :
  Inv S s -> rows s0 = rows s -> db_faults s0 = [] -> call_ok (rows s) (CUpdate r f) ->
  matches S (S ∖ {[res_id rs r]}) (unit_ (Update rs attempts r f) s) (unit_ (raw_Update not_found (res_id rs r) f) s0).
Proof.
  intros Hs Er Ef (Hi & Hf & Hrow). unfold Update, unit_, bind.
  rewrite !raw_Update_eq by (done || apply Hs). rewrite Er.
  destruct (rows s !! res_id rs r) as [x|] eqn:Ei;
    [|split; [done|]; split; [done|]; split; [done|]; by apply Inv_absent].
  destruct (write_clean S (<[res_id rs r := f x]> (rows s)) (res_id rs r) x r s Hs Ei) as (c & _ & E & HI);
    [intros j Hj; by rewrite lookup_insert_ne|by apply table_update; [apply Hs| |]|done|symmetry; by apply Hrow|].
  rewrite E. by split.
Qed.

(** The write of [Touch] and of the refreshing updates; nothing is written to a
    row that is not there. *)
Lemma update_at S e i f (s : store R C) : Inv S s -> keeps_keys f ->
  let t' := match rows s !! i with Some r => <[i := f r]> (rows s) | None => rows s end in
  (forall s1 : store R C, rows s1 = rows s -> db_faults s1 = [] ->
     raw_Update e i f s1 = match rows s1 !! i with Some _ => (Ok tt, with_rows s1 t') | None => (Err e, s1) end)
  /\ table_ok t' /\ forall j, j <> i -> t' !! j = rows s !! j.
Proof.
  intros Hs Hf t'. unfold t'. split_and!.
  - intros s1 E1 F1. rewrite raw_Update_eq by done. rewrite E1. by destruct (rows s !! i).
  - destruct (rows s !! i) eqn:Ei; [by apply table_update; [apply Hs| |]|apply Hs].
  - intros j Hj. destruct (rows s !! i); [by rewrite lookup_insert_ne|done].
Qed.

Lemma sim_touch S i f now (s s0 : store R C) :
  Inv S s -> rows s0 = rows s -> db_faults s0 = [] -> Int64.in_range i -> keeps_keys f ->
  matches S (S ∖ {[i]}) (unit_ (Touch rs lifetime attempts i f now) s) (unit_ (raw_Update not_found i f) s0).
Proof.
  intros Hs Er Ef Hi Hf. destruct (update_at S not_found i f s Hs Hf) as (Hw & Ht & Hj).
  eapply (sim_write S i now (raw_Update not_found i f) (scheduleCleanUp rs attempts)); try done.
  - intros s1 E1 F1. apply Hw; [by rewrite E1|done].
  - intros r c c' _ E HI _ _. by exists c'.
Qed.

Lemma sim_refresh S e i f now (s s0 : store R C) :
  Inv S s -> rows s0 = rows s -> db_faults s0 = [] -> Int64.in_range i -> keeps_keys f ->
  matches S (S ∖ {[i]}) (unit_ (UpdateAndRefresh rs lifetime attempts e i f now) s) (unit_ (raw_Update e i f) s0).
Proof.
  intros Hs Er Ef Hi Hf. destruct (update_at S e i f s Hs Hf) as (Hw & Ht & Hj).
  eapply (sim_write S i now (raw_Update e i f) (fun r => refreshCache rs lifetime attempts r now)); try done.
  - intros s1 E1 F1. apply Hw; [by rewrite E1|done].
  - intros r c c1 E1 _ HI1 Eid Hv. unfold refreshCache. rewrite (bind_ok _ _ _ _ _ E1).
    destruct (Get_eq _ (res_id rs r) now _ HI1) as (o2 & c2 & E2 & HI2 & _); [by rewrite Eid|].
    unfold bind at 1, try at 1. rewrite E2.
    destruct (GetBy_eq _ (res_second rs r) now _ HI2 Hv) as (o3 & c3 & E3 & HI3 & _).
    unfold bind at 1, try at 1. rewrite E3. by exists c3.
Qed.

Lemma sim_create S r (s s0 : store R C) :
  Inv S s -> rows s0 = rows s -> db_faults s0 = [] -> call_ok (rows s) (CCreate r) ->
  matches S S (unit_ (raw_Create rs r) s) (unit_ (raw_Create rs r) s0).
Proof.
  intros Hs Er Ef [Hi Hv]. unfold unit_, raw_Create, bind, io, next_fault, store_faulty, get.
  rewrite (inv_faults _ _ Hs), Ef, Er. case_bool_decide as En; [|by split].
  destruct (find_second rs (rows s) (res_second rs r)) eqn:Es; [by split|]. cbn. rewrite Er.
  split; [done|]. split; [done|]. split; [done|]. destruct Hs as [Ht Hg Hh Hf Hc].
  split; cbn; try done; [by apply table_create|]. intros tm k x Hk _.
  destruct (Hc tm k x Hk (not_elem_of_nil k)) as [(row & H1 & H2) H3]. split; [|done]. exists row. split; [|done].
  rewrite lookup_insert_ne; [done|]. congruence.
Qed.

(** A write past the cache: the entries of the row may be stale from then on. *)
Lemma sim_pass S i w (s s0 : store R C) :
  Inv S s -> rows s0 = rows s -> db_faults s0 = [] -> call_ok (rows s) (CPass i w) ->
  matches S ({[i]} ∪ S) (unit_ (raw_Pass i w) s) (unit_ (raw_Pass i w) s0).
Proof.
  intros Hs Er Ef Hw. unfold unit_, raw_Pass, bind, io, next_fault, store_faulty, get.
  rewrite (inv_faults _ _ Hs), Ef, Er. destruct (rows s !! i) as [r|] eqn:Ei; cbn.
  2:{ split; [done|]. split; [done|]. split; [done|]. apply (Inv_mono S); [set_solver|done]. }
  destruct (w r) as [r'|] eqn:E; cbn.
  2:{ split; [done|]. split; [done|]. split; [done|]. apply (Inv_mono S); [set_solver|done]. }
  destruct (Hw r r' E) as [W1 W2]. rewrite Er. split; [done|]. split; [done|]. split; [done|].
  destruct Hs as [Ht Hg Hh Hf Hc]. split; cbn; try done; [by apply (table_change _ i r)|].
  intros tm k x Hk Hn. destruct (Hc tm k x Hk Hn) as [(row & H1 & H2 & H3 & H4) H5]. split; [|done].
  destruct (decide (i = res_id rs x)) as [->|Hne].
  - exists r'. rewrite lookup_insert_eq. split; [done|]. assert (row = r) as -> by congruence.
    split_and!; [congruence|congruence|]. intros N. destruct N. rewrite W1, <- H2. set_solver.
  - exists row. rewrite lookup_insert_ne by done. split; [done|]. split_and!; [done|done|]. intros N. apply H4. set_solver.
Qed.

Lemma sim_call S cl now (s s0 : store R C) :
  Inv S s -> rows s0 = rows s -> db_faults s0 = [] -> call_ok (rows s) cl ->
  matches S (next_stale S cl) (exec_cached rs lifetime attempts cl now s) (exec_raw rs cl s0).
Proof.
  intros Hs Er Ef Hc. destruct cl as [i|kv|r|i|r f|e i f|i f|i w]; cbn [exec_cached exec_raw next_stale].
  - unfold found, bind. destruct (Get_eq S i now s Hs Hc) as (o & c & E & Hi & Ho). rewrite E, raw_Get_eq, Er by done.
    by destruct (rows s !! i), o.
  - unfold found, bind. destruct (GetBy_eq S kv now s Hs Hc) as (o & c & E & Hi & Ho). rewrite E, raw_GetBy_eq, Er by done.
    by destruct (find_second rs (rows s) kv), o.
  - by apply sim_create.
  - by apply sim_delete.
  - by apply sim_update.
  - destruct Hc. by apply sim_refresh.
  - destruct Hc. by apply sim_touch.
  - by apply sim_pass.
Qed.

(** Every call of a sequence is as the program makes it, on the table it meets. *)
Fixpoint calls_ok (l : list (call R * Z)) (s : store R C) : Prop :=
  match l with
  | [] => True
  | (c, _) :: l => call_ok (rows s) c /\ calls_ok l (exec_raw rs c s).2
  end.

(** The answers of two runs, call by call, with the rows that are stale then. *)
Fixpoint same_answers (stale : gset Z) (l : list (call R * Z)) (xs ys : list (result (option R))) : Prop :=
  match l, xs, ys with
  | [], [], [] => True
  | (c, _) :: l, x :: xs, y :: ys => same_but stale x y /\ same_answers (next_stale stale c) l xs ys
  | _, _, _ => False
  end.

Definition last_stale (stale : gset Z) (l : list (call R * Z)) : gset Z :=
  foldl (fun stale c => next_stale stale c.1) stale l.

Definition raw_at (c : call R) (_ : Z) : M (store R C) (option R) := exec_raw rs c.

Lemma sim_run l S (s s0 : store R C) :
  Inv S s -> rows s0 = rows s -> db_faults s0 = [] -> calls_ok l s0 ->
  same_answers S l (run (exec_cached rs lifetime attempts) l s).1 (run raw_at l s0).1
  /\ rows (run (exec_cached rs lifetime attempts) l s).2 = rows (run raw_at l s0).2
  /\ Inv (last_stale S l) (run (exec_cached rs lifetime attempts) l s).2.
Proof.
  revert S s s0. induction l as [|[c now] l IH]; intros S s s0 Hs Er Ef Hl; [done|].
  destruct Hl as [Hc Hl]. rewrite Er in Hc. destruct (sim_call S c now s s0 Hs Er Ef Hc) as (H1 & H2 & H3 & H4).
  cbn [run fst snd same_answers]. destruct (IH _ _ _ H4 (eq_sym H2) H3 Hl) as (I1 & I2 & I3). done.
Qed.
End Refinement.
