(* ===== verification/CachedResources.v ===== *)
(** * The cached resources

    The managers of artifacts, repositories and projects as instances of the
    generic manager ([src/pkg/cached], directories [artifact/redis],
    [repository/redis] and [project/redis]), the base manager
    ([base_manager.go]), the managers of project metadata
    ([project_metadata/redis]) and of manifests ([manifest/redis]), and the
    theorems about them. *)

From S2P Require Import Prelude Errors Cached CachedManager.
From S2P Require ArtifactDb.
Import GoStrings.

(** ** Artifacts *)

Definition digest_kv (repository digest : string) : list kv_value :=
  [VStr "repository"; VStr repository; VStr "digest"; VStr digest].

Definition artifact_resource : Resource ArtifactDb.Artifact := {|
  res_ns := "artifact";
  res_id a := ArtifactDb.a_ID (ArtifactDb.row a);
  res_second a := digest_kv (ArtifactDb.a_RepositoryName (ArtifactDb.row a)) (ArtifactDb.a_Digest (ArtifactDb.row a));
|}.

Section Managers.
Context {C : Type} (lifetime : Z) (attempts : nat).

Section Artifacts.
Context `{!CacheOps ArtifactDb.Artifact C}.

Definition artifact_Get (id now : Z) := Get artifact_resource lifetime id now (C := C).
Definition artifact_GetByDigest (repository digest : string) (now : Z) :=
  GetBy artifact_resource lifetime (digest_kv repository digest) now (C := C).
Definition artifact_Delete (id now : Z) := Delete_ artifact_resource lifetime attempts id now (C := C).
Definition artifact_Update (a : ArtifactDb.Artifact) (f : ArtifactDb.Artifact -> ArtifactDb.Artifact) :=
  Update artifact_resource attempts a f (C := C).

Definition set_pull_time (t : Z) (a : ArtifactDb.Artifact) : ArtifactDb.Artifact :=
  let r := ArtifactDb.row a in
  ArtifactDb.mkArtifact
    (ArtifactDb.mkArtRow (ArtifactDb.a_ID r) (ArtifactDb.a_Type r) (ArtifactDb.a_MediaType r)
       (ArtifactDb.a_ManifestMediaType r) (ArtifactDb.a_ArtifactType r) (ArtifactDb.a_ProjectID r)
       (ArtifactDb.a_RepositoryID r) (ArtifactDb.a_RepositoryName r) (ArtifactDb.a_Digest r) (ArtifactDb.a_Size r)
       (ArtifactDb.a_Icon r) (ArtifactDb.a_PushTime r) t)
    (ArtifactDb.References a) (ArtifactDb.AccessoryCandidates a).

Definition artifact_UpdatePullTime (id pullTime now : Z) :=
  UpdateAndRefresh artifact_resource lifetime attempts not_found id (set_pull_time pullTime) now (C := C).

(** The artifact that holds a reference, and what is left without it. *)
Definition holds_ref (id : Z) (a : ArtifactDb.Artifact) : bool :=
  existsb (fun r => ArtifactDb.r_ID r =? id) (ArtifactDb.References a).

Definition owner (id : Z) (t : gmap Z ArtifactDb.Artifact) : Z :=
  match List.find (holds_ref id) (map_to_list t).*2 with Some a => ArtifactDb.a_ID (ArtifactDb.row a) | None => 0 end.

Definition drop_ref (id : Z) (a : ArtifactDb.Artifact) : option ArtifactDb.Artifact :=
  if holds_ref id a
  then Some (ArtifactDb.mkArtifact (ArtifactDb.row a)
               (List.filter (fun r => negb (ArtifactDb.r_ID r =? id)) (ArtifactDb.References a))
               (ArtifactDb.AccessoryCandidates a))
  else None.

Definition artifact_DeleteReference (id : Z) : M (store ArtifactDb.Artifact C) unit :=
  s <- get ;; raw_Pass (owner id (rows s)) (drop_ref id).
End Artifacts.

(** ** Repositories *)

Record RepoRecord := mkRepo {
  RepositoryID : Z;
  Name : string;
  ProjectID : Z;
  Description : string;
  PullCount : Z;
  StarCount : Z;
  CreationTime : Z;
  UpdateTime : Z;
}.

Definition name_kv (name : string) : list kv_value := [VStr "name"; VStr name].

Definition repository_resource : Resource RepoRecord := {|
  res_ns := "repository"; res_id := RepositoryID; res_second r := name_kv (Name r) |}.

Section Repositories.
Context `{!CacheOps RepoRecord C}.

Definition repository_Get (id now : Z) := Get repository_resource lifetime id now (C := C).
Definition repository_GetByName (name : string) (now : Z) :=
  GetBy repository_resource lifetime (name_kv name) now (C := C).
Definition repository_Delete (id now : Z) := Delete_ repository_resource lifetime attempts id now (C := C).
Definition repository_Update (r : RepoRecord) (f : RepoRecord -> RepoRecord) :=
  Update repository_resource attempts r f (C := C).

Definition add_pull_count (count now : Z) (r : RepoRecord) : RepoRecord :=
  mkRepo (RepositoryID r) (Name r) (ProjectID r) (Description r) (PullCount r + count) (StarCount r) (CreationTime r) now.
Definition touched (now : Z) (r : RepoRecord) : RepoRecord :=
  mkRepo (RepositoryID r) (Name r) (ProjectID r) (Description r) (PullCount r) (StarCount r) (CreationTime r) now.

Definition repository_AddPullCount (id count now : Z) :=
  UpdateAndRefresh repository_resource lifetime attempts AddPullCount_missing id (add_pull_count count now) now (C := C).
Definition repository_Touch (id now : Z) :=
  Touch repository_resource lifetime attempts id (touched now) now (C := C).
End Repositories.

(** ** Projects *)

Record Project := mkProject {
  p_ProjectID : Z;
  p_OwnerID : Z;
  p_Name : string;
  p_RegistryID : Z;
}.

Definition project_resource : Resource Project := {|
  res_ns := "project"; res_id := p_ProjectID; res_second p := name_kv (p_Name p) |}.

(** [ParseProjectIDOrName]: an integer is an [int64] here, [VOther] any other type
    or [nil]. *)
Definition ParseProjectIDOrName (value : kv_value) : result (Z * string) :=
  match value with
  | VInt id => Ok (id, "")
  | VStr name => Ok (0, name)
  | VOther => Err (Plain "unsupported type")
  end.

Section Projects.
Context `{!CacheOps Project C}.

(** The delegator tells the types apart itself, and refuses names with a space. *)
Definition raw_project_Get (value : kv_value) : M (store Project C) Project :=
  match value with
  | VInt id => raw_Get id
  | VStr name => if contains name " " then fail (BadRequestError None) else raw_GetBy project_resource (name_kv name)
  | VOther => fail (New "invalid parameter")
  end.

(** The key is empty for the identifier 0 and for the empty name. *)
Definition project_Get (idOrName : kv_value) (now : Z) : M (store Project C) Project :=
  p <- of_result (ParseProjectIDOrName idOrName) ;;
  key <- (if negb (p.1 =? 0) then of_result (id_key project_resource p.1) else ret "") ;;
  key <- (if negb (p.2 =s= "") then of_result (second_key project_resource (name_kv p.2)) else ret key) ;;
  fetch_or_read lifetime key (raw_project_Get idOrName) now.

Definition project_Delete (id now : Z) : M (store Project C) unit :=
  p <- project_Get (VInt id) now ;; raw_Delete id ;;; scheduleCleanUp project_resource attempts p.
End Projects.

(** ** The base manager *)

Section Base.
Context {V : Type} `{!CacheOps V C}.

Definition CountCache (resourceType : string) (now : Z) : M C Z :=
  l <- Scan (V := V) resourceType now ;; ret (Z.of_nat (length l)).

Definition DeleteCache (key : string) : M C unit := Delete (V := V) key.

(** Every key is tried; the errors are collected. *)
Fixpoint flush (keys : list string) (errs : list error) : M C unit :=
  match keys with
  | [] => match errs with [] => ret tt | e :: _ => fail e end
  | k :: keys =>
      r <- try (Delete (V := V) k) ;;
      flush keys (match r with Ok _ => errs | Err e => errs ++ [e] end)
  end.

Definition FlushAll (resourceType : string) (now : Z) : M C unit :=
  l <- Scan (V := V) resourceType now ;; flush l [].
End Base.
End Managers.

(** ** Project metadata *)

Module ProjectMetadata.
Section ProjectMetadata.
Context {C : Type} `{!CacheOps (gmap string string) C} (lifetime : Z) (attempts : nat).

(** A hook removes the entry of one list of names, or all those of a project. *)
Inductive hook :=
| CleanNames (projectID : Z) (meta : list string)
| CleanAll (prefix : string).

Record mstore := mkMStore {
  mrows : gmap (Z * string) string;
  mcache : C;
  mhooks : option (list hook);
  mmarked : bool;
  mfaults : list (option error);
}.

Definition with_mrows (s : mstore) (x : gmap (Z * string) string) : mstore :=
  mkMStore x (mcache s) (mhooks s) (mmarked s) (mfaults s).
Definition with_mcache (s : mstore) (x : C) : mstore := mkMStore (mrows s) x (mhooks s) (mmarked s) (mfaults s).
Definition with_mhooks (s : mstore) (x : option (list hook)) : mstore :=
  mkMStore (mrows s) (mcache s) x (mmarked s) (mfaults s).

#[global] Instance mstore_faulty : Faulty mstore := fun s =>
  match mfaults s with
  | [] => (None, s)
  | f :: fs => (f, mkMStore (mrows s) (mcache s) (mhooks s) (mmarked s) fs)
  end.

Definition on_mcache {A} (m : M C A) : M mstore A := fun s =>
  let p := m (mcache s) in (p.1, with_mcache s p.2).

(** *** The delegator *)

(** The transaction of an addition or an update, which registers no hook: the
    beginning and the commit can fail. *)
Definition in_transaction {A} (m : M mstore A) : M mstore A :=
  io (ret tt) ;;; fun s =>
  match (a <- m ;; io (ret tt) ;;; ret a) s with
  | (Ok a, s') => (Ok a, s')
  | (Err e, s') => (Err e, with_mrows s' (mrows s))
  end.

Definition dao_Create (projectID : Z) (nv : string * string) : M mstore unit :=
  io (s <- get ;; match mrows s !! (projectID, nv.1) with
                  | Some _ => fail (WithCode (New "metadata already exists") ConflictCode)
                  | None => modify (fun s => with_mrows s (<[(projectID, nv.1) := nv.2]> (mrows s)))
                  end).

(** An update of an absent name changes no row. *)
Definition dao_Update (projectID : Z) (nv : string * string) : M mstore unit :=
  io (modify (fun s => with_mrows s (alter (fun _ => nv.2) (projectID, nv.1) (mrows s)))).

(** [makeQuery]: the names asked for, all of them for an empty list. *)
Definition asked (projectID : Z) (meta : list string) (k : Z * string) : bool :=
  (k.1 =? projectID) && (match meta with [] => true | _ => bool_decide (k.2 ∈ meta) end).

Definition raw_Add (projectID : Z) (meta : list (string * string)) : M mstore unit :=
  in_transaction (iterM (dao_Create projectID) meta).

Definition raw_Delete (projectID : Z) (meta : list string) : M mstore unit :=
  io (modify (fun s => with_mrows s (filter (fun kv => asked projectID meta kv.1 = false) (mrows s)))).

Definition raw_Update (projectID : Z) (meta : list (string * string)) : M mstore unit :=
  match meta with
  | [] => ret tt
  | _ => in_transaction (iterM (dao_Update projectID) meta)
  end.

Definition shown (t : gmap (Z * string) string) (projectID : Z) (meta : list string) : gmap string string :=
  list_to_map ((fun kv => (kv.1.2, kv.2)) <$> List.filter (fun kv => asked projectID meta kv.1) (map_to_list t)).

Definition raw_Get (projectID : Z) (meta : list string) : M mstore (gmap string string) :=
  io (s <- get ;; ret (shown (mrows s) projectID meta)).

(** *** The cached manager *)

Definition meta_key (projectID : Z) (meta : list string) : result string :=
  Format "project_metadata" [VStr "projectID"; VInt projectID; VStr "meta"; VStr (Join meta ",")].
Definition prefix_key (projectID : Z) : result string :=
  Format "project_metadata" [VStr "projectID"; VInt projectID].

Definition clean (key : string) : M mstore unit :=
  try (on_mcache (Retry attempts None (Delete (V := gmap string string) key))) ;;; ret tt.

Definition cleanUpKeys (projectID : Z) (meta : list string) : M mstore unit :=
  match meta_key projectID meta with Err _ => ret tt | Ok key => clean key end.

(** All keys with the prefix. *)
Definition cleanUpAll (prefix : string) (now : Z) : M mstore unit :=
  r <- try (on_mcache (Scan (V := gmap string string) prefix now)) ;;
  match r with Err _ => ret tt | Ok keys => iterM clean keys end.

Definition run_hook (h : hook) (now : Z) : M mstore unit :=
  match h with
  | CleanNames projectID meta => cleanUpKeys projectID meta
  | CleanAll prefix => cleanUpAll prefix now
  end.

Definition AfterCommit (h : hook) (now : Z) : M mstore unit :=
  s <- get ;;
  match mhooks s with
  | Some l => modify (fun s => with_mhooks s (Some (l ++ [h])))
  | None => run_hook h now
  end.

Definition scheduleCleanUp (projectID : Z) (meta : list string) (now : Z) : M mstore unit :=
  AfterCommit (CleanNames projectID meta) now.

Definition Add (projectID : Z) (meta : list (string * string)) (now : Z) : M mstore unit :=
  raw_Add projectID meta ;;; scheduleCleanUp projectID [] now.

(** Only a result with attributes is saved. *)
Definition Get (projectID : Z) (meta : list string) (now : Z) : M mstore (gmap string string) :=
  key <- of_result (meta_key projectID meta) ;;
  r <- try (on_mcache (Fetch key now)) ;;
  match r with
  | Ok v => ret v
  | Err _ =>
      v <- raw_Get projectID meta ;;
      (if (0 <? Z.of_nat (size v)) then
         s <- get ;;
         if mmarked s then ret tt else try (on_mcache (Save key v (Some lifetime) now)) ;;; ret tt
       else ret tt) ;;;
      ret v
  end.

Definition Delete_ (projectID : Z) (meta : list string) (now : Z) : M mstore unit :=
  raw_Delete projectID meta ;;; scheduleCleanUp projectID meta now.

Definition Update (projectID : Z) (meta : list (string * string)) (now : Z) : M mstore unit :=
  raw_Update projectID meta ;;;
  prefix <- of_result (prefix_key projectID) ;;
  AfterCommit (CleanAll prefix) now.
End ProjectMetadata.
Arguments mstore : clear implicits.
End ProjectMetadata.

(** ** Manifests *)

Section Manifests.
Context {C : Type} `{!CacheOps (list Byte.byte) C} (lifetime : Z) (attempts : nat).

Definition manifest_key (digest : string) : result string := Format "manifest" [VStr "digest"; VStr digest].

(** The client's save, [marked] being the mark of the transaction middleware. *)
Definition manifest_Save (marked : bool) (digest : string) (manifest : list Byte.byte) (now : Z) : M C unit :=
  key <- of_result (manifest_key digest) ;;
  if marked then ret tt else Save key manifest (Some lifetime) now.

Definition manifest_Get (digest : string) (now : Z) : M C (list Byte.byte) :=
  key <- of_result (manifest_key digest) ;; Fetch key now.

Definition manifest_Delete (digest : string) : M C unit :=
  key <- of_result (manifest_key digest) ;; Retry attempts None (Delete (V := list Byte.byte) key).
End Manifests.

(** ** Keys *)

(** Repository names have no colon. *)
Definition artifact_valid (kv : list kv_value) : Prop :=
  exists repository digest, kv = digest_kv repository digest /\ lacks ":" repository = true.
Definition name_valid (kv : list kv_value) : Prop := exists name, kv = name_kv name.

Lemma digest_key_eq repository digest :
  second_key artifact_resource (digest_kv repository digest)
  = Ok ("artifact:repository:" ++ repository ++ ":" ++ "digest:" ++ digest ++ "")%string.
Proof. reflexivity. Qed.

#[global] Instance artifact_keys : ResourceKeys artifact_resource artifact_valid.
Proof.
  split.
  - intros kv (r & d & -> & _). eexists. apply digest_key_eq.
  - intros kv kv' k (r & d & -> & Hr) (r' & d' & -> & Hr'). rewrite !digest_key_eq. intros H H'.
    injection H as H. rewrite <- H in H'. injection H' as E.
    apply (split_sep ":") in E as [-> E]; [|done..]. apply (inj (String.append "digest:")) in E.
    rewrite !app_nil in E. by subst.
  - intros kv i k (r & d & -> & _). rewrite digest_key_eq, id_key_eq. by intros [= <-] [=].
Qed.

Lemma name_key_eq {R} (rs : Resource R) name : second_key rs (name_kv name) = Ok (res_ns rs ++ ":name:" ++ name ++ "")%string.
Proof. reflexivity. Qed.

#[global] Instance name_keys {R} (rs : Resource R) : ResourceKeys rs name_valid.
Proof.
  split.
  - intros kv [m ->]. eexists. apply name_key_eq.
  - intros kv kv' k [m ->] [m' ->]. rewrite !name_key_eq. intros H H'.
    injection H as H. rewrite <- H in H'. injection H' as E.
    apply (inj (String.append _)), (inj (String.append ":name:")) in E. rewrite !app_nil in E. by subst.
  - intros kv i k [m ->]. rewrite name_key_eq, id_key_eq. intros H H'. injection H as H. rewrite <- H in H'.
    injection H' as E. by apply (inj (String.append _)) in E.
Qed.

(** ** Transactions and the cache *)

(** A list of calls of a manager, up to the first error. *)
Definition calls {R C} `{!CacheOps R C} (rs : Resource R) (lifetime : Z) (attempts : nat) (l : list (call R * Z))
  : M (store R C) unit :=
  iterM (fun p => exec_cached rs lifetime attempts p.1 p.2 ;;; ret tt) l.

Section Transactions.
Context {R C : Type} `{!CacheOps R C, !Cache R C} {good : C -> Prop} `{!Reliable R good}.
Context (rs : Resource R) (lifetime : Z) (n : nat).
Abbreviation attempts := (S n).

(** In a marked transaction the cache only loses entries. *)
Definition only_loses (c0 : C) (s : store R C) : Prop :=
  committedKey s = true /\ hooks s <> None /\ good (cache s) /\ forall t, within (view (cache s) t) (view c0 t).

Lemma loses_io {A} c0 (m : M (store R C) A) : preserves (only_loses c0) m -> preserves (only_loses c0) (io m).
Proof.
  intros H. apply preserves_io; [|done]. intros s Hs. unfold next_fault, store_faulty.
  by destruct (db_faults s) as [|f fs].
Qed.

Lemma loses_fetch_or_read c0 k read now :
  preserves (only_loses c0) read -> preserves (only_loses c0) (fetch_or_read lifetime k read now).
Proof.
  intros Hr. unfold fetch_or_read. apply preserves_bind.
  - apply preserves_try. intros s (H1 & H2 & H3 & H4). unfold on_cache. pose proof (good_fetch k now _ H3) as H5.
    destruct (Fetch k now (cache s)) as [r c] eqn:E. apply fetch_view in E as [W _].
    split; [done|]. split; [done|]. split; [done|]. intros t j v Hj. by apply H4, W.
  - intros [v|e]; [apply preserves_ret|]. apply preserves_bind; [done|]. intros v.
    apply preserves_bind; [|intros; apply preserves_ret]. apply preserves_try.
    intros s Hs. unfold client_Save, bind, get. destruct Hs as [E Hs]. rewrite E. by split.
Qed.

Lemma loses_clean c0 k : preserves (only_loses c0) (clean_key attempts k).
Proof.
  destruct k as [k|e]; [|apply preserves_ret]. unfold clean_key.
  apply preserves_bind; [|intros; apply preserves_ret]. apply preserves_try.
  intros s (H1 & H2 & H3 & H4). unfold on_cache. destruct (good_delete k _ H3) as (c & E & Hg & _).
  rewrite (Retry_ok_first _ _ _ _ _ _ E). apply delete_view in E as [W _].
  split; [done|]. split; [done|]. split; [done|]. intros t j v Hj. by apply H4, W.
Qed.

Lemma loses_cleanUp c0 i kv : preserves (only_loses c0) (cleanUpKeys rs attempts i kv).
Proof. unfold cleanUpKeys. apply preserves_bind; [|intros _]; apply loses_clean. Qed.

Lemma loses_schedule c0 r : preserves (only_loses c0) (scheduleCleanUp rs attempts r).
Proof.
  intros s Hs. unfold scheduleCleanUp, bind, get. destruct (hooks s) as [l|] eqn:E; [|by apply loses_cleanUp].
  destruct Hs as (H1 & _ & H3). by split.
Qed.

Lemma loses_raw_Get c0 i : preserves (only_loses c0) (raw_Get i).
Proof. apply loses_io. intros s Hs. unfold bind, get. by destruct (rows s !! i). Qed.

Lemma loses_raw_GetBy c0 kv : preserves (only_loses c0) (raw_GetBy rs kv).
Proof. apply loses_io. intros s Hs. unfold bind, get. by destruct (find_second rs (rows s) kv). Qed.

Lemma loses_raw_Update c0 e i f : preserves (only_loses c0) (raw_Update e i f).
Proof. apply loses_io. intros s Hs. unfold bind, get. by destruct (rows s !! i). Qed.

Lemma loses_raw_Pass c0 i w : preserves (only_loses c0) (raw_Pass i w).
Proof. apply loses_io. intros s Hs. unfold bind, get. by destruct (rows s !! i ≫= w). Qed.

Lemma loses_raw_Delete c0 i : preserves (only_loses c0) (raw_Delete i).
Proof. apply loses_io. intros s Hs. unfold bind, get. by destruct (rows s !! i). Qed.

Lemma loses_raw_Create c0 r : preserves (only_loses c0) (raw_Create rs r).
Proof.
  apply loses_io. intros s Hs. unfold bind, get. case_bool_decide; [|done].
  by destruct (find_second rs (rows s) (res_second rs r)).
Qed.

Lemma loses_Get c0 i now : preserves (only_loses c0) (Get rs lifetime i now).
Proof. unfold Get. apply preserves_bind; [apply preserves_of_result|]. intros k. apply loses_fetch_or_read, loses_raw_Get. Qed.

Lemma loses_GetBy c0 kv now : preserves (only_loses c0) (GetBy rs lifetime kv now).
Proof. unfold GetBy. apply preserves_bind; [apply preserves_of_result|]. intros k. apply loses_fetch_or_read, loses_raw_GetBy. Qed.

Create HintDb loses.
#[local] Hint Resolve loses_Get loses_GetBy loses_raw_Update loses_raw_Pass loses_raw_Delete loses_raw_Create loses_schedule
  loses_cleanUp : loses.

Lemma loses_refresh c0 r now : preserves (only_loses c0) (refreshCache rs lifetime attempts r now).
Proof. unfold refreshCache. eauto 10 with go loses. Qed.

Lemma loses_call c0 c now : preserves (only_loses c0) (exec_cached rs lifetime attempts c now ;;; ret tt).
Proof.
  pose proof loses_refresh. apply preserves_bind; [|intros _; apply preserves_ret].
  destruct c; cbn [exec_cached]; unfold found, unit_, Delete_, Update, UpdateAndRefresh, Touch;
    eauto 12 with go loses.
Qed.

Lemma rollback_loses l (s s' : store R C) e :
  hooks s = None -> committedKey s = true -> good (cache s) ->
  WithTransaction rs attempts (calls rs lifetime attempts l) s = (Err e, s') ->
  rows s' = rows s /\ hooks s' = None /\ good (cache s') /\ forall t, within (view (cache s') t) (view (cache s) t).
Proof.
  intros Hh Hm Hg. unfold WithTransaction. rewrite Hh.
  assert (H : only_loses (cache s) (calls rs lifetime attempts l (with_hooks s (Some []))).2).
  { apply (preserves_iterM _ _ l (fun x => loses_call (cache s) x.1 x.2)). split; [done|]. split; [done|].
    split; [done|]. by intros t j v. }
  destruct (calls rs lifetime attempts l _) as [[u|e1] s1]; cbn in H.
  - pose proof (loses_io (cache s) (ret tt) (preserves_ret _ _) s1 H) as H2.
    destruct (io (ret tt) s1) as [[[]|e2] s2]; cbn in H2.
    + assert (Hrun : forall hs st r st', run_hooks rs attempts hs st = (r, st') -> r = Ok tt).
      { intros hs. induction hs as [|[i kv] hs IH]; intros st r st'; cbn; [by intros [= <- _]|].
        unfold cleanUpKeys, clean_key, bind, try, on_cache, ret.
        destruct (id_key rs i), (second_key rs kv); apply IH. }
      unfold bind, ret. destruct (run_hooks _ _ _ _) as [r st'] eqn:Er. apply Hrun in Er as ->. done.
    + intros [= <- <-]. by destruct H2 as (_ & _ & H3 & H4).
  - intros [= <- <-]. by destruct H as (_ & _ & H3 & H4).
Qed.
End Transactions.

(** ** Theorems *)


(** A repository is created, read, counted, read by name and deleted. *)
Definition sample_repo : RepoRecord := mkRepo 1 "library/app" 1 "" 0 0 10 10.
Definition sample_calls : list (call RepoRecord * Z) :=
  [(CCreate sample_repo, 20); (CGet 1, 21); (CRefresh AddPullCount_missing 1 (add_pull_count 3 22), 22);
   (CGetBy (name_kv "library/app"), 23); (CDelete 1, 24); (CGet 1, 25)].
Definition sample_store : store RepoRecord (Redis.server RepoRecord) :=
  mkStore ∅ (Redis.mkServer ∅ []) None false [].


(** Without deletions of references no row is ever stale, and the answers are
    the same. *)
Lemma no_pass_no_stale {R} (rs : Resource R) l :
  Forall (fun c => match c.1 with CPass _ _ => False | _ => True end) l -> last_stale (rs := rs) ∅ l = ∅.
Proof.
  unfold last_stale. induction 1 as [|[c t] l Hc _ IH]; [done|]. cbn [foldl fst].
  assert (next_stale (rs := rs) ∅ c = ∅) as -> by (destruct c; cbn in *; try done; set_solver). exact IH.
Qed.

(** The deletion of a reference is one of the calls. *)
Lemma DeleteReference_is_pass {C} id (s : store ArtifactDb.Artifact C) :
  artifact_DeleteReference id s = raw_Pass (owner id (rows s)) (drop_ref id) s.
Proof. done. Qed.

(** An artifact that is in the cache keeps its references there after they are
    deleted. *)
Theorem deleted_reference_still_shown {C} `{!CacheOps ArtifactDb.Artifact C, !Cache ArtifactDb.Artifact C}
  (good : C -> Prop) `{!Reliable ArtifactDb.Artifact good} lifetime id i a b k t (s : store ArtifactDb.Artifact C) :
  good (cache s) -> db_faults s = [] -> owner id (rows s) = i -> rows s !! i = Some a -> drop_ref id a = Some b ->
  id_key artifact_resource i = Ok k -> view (cache s) t k = Some a ->
  exists s', artifact_DeleteReference id s = (Ok tt, s') /\ rows s' !! i = Some b
    /\ (artifact_Get lifetime i t s').1 = Ok a.
Proof.
  intros Hg Hf Ho Ha Hb Hk Hv. exists (with_rows s (<[i := b]> (rows s))). split_and!.
  - rewrite DeleteReference_is_pass. unfold raw_Pass, io, next_fault, store_faulty, bind, get.
    rewrite Hf, Ho, Ha. cbn. by rewrite Hb.
  - cbn. apply lookup_insert_eq.
  - unfold artifact_Get, Get, of_result, bind. rewrite Hk. unfold fetch_or_read, bind, try, on_cache.
    cbn [cache with_rows]. by rewrite (good_hit k t _ a Hg Hv).
Qed.

Definition sample_index : ArtifactDb.Artifact :=
  ArtifactDb.mkArtifact (ArtifactDb.mkArtRow 1 "IMAGE" "" "" "" 1 1 "library/app" "sha256:i" 10 "" 0 0)
    [ArtifactDb.mkReference 9 1 2 "sha256:c"] [].

Lemma deleted_reference_still_shown_witness :
  let ops := Redis.red_ops "cache:" 0 in
  let s := (artifact_Get 86400 1 10 (mkStore {[1 := sample_index]} (Redis.mkServer ∅ []) None false [])).2 in
  exists s' b, artifact_DeleteReference 9 s = (Ok tt, s') /\ rows s' !! 1 = Some b /\ ArtifactDb.References b = []
    /\ (artifact_Get 86400 1 20 s').1 = Ok sample_index.
Proof.
  intros ops s.
  destruct (deleted_reference_still_shown (fun c : Redis.server ArtifactDb.Artifact => Redis.faults c = [])
           (CacheOps0 := ops) (Cache0 := Redis.red_cache "cache:" 0) (Reliable0 := Redis.red_reliable "cache:" 0)
           86400 9 1 sample_index (ArtifactDb.mkArtifact (ArtifactDb.row sample_index) [] []) "artifact:id:1" 20 s)
    as (s' & H1 & H2 & H3); [vm_compute; reflexivity..|]. by exists s', (ArtifactDb.mkArtifact (ArtifactDb.row sample_index) [] []).
Defined.

(** C25: a transaction that the middleware has marked and that is rolled back leaves
    the cache showing only what the table holds, whatever calls it made. *)
Theorem marked_rollback_coherent {R C} `{!CacheOps R C, !Cache R C} (good : C -> Prop) `{!Reliable R good}
  (rs : Resource R) lifetime n l (s s' : store R C) e :
  hooks s = None -> committedKey s = true -> good (cache s) -> coherent_but (rs := rs) [] (rows s) (cache s) ->
  WithTransaction rs (S n) (calls rs lifetime (S n) l) s = (Err e, s') ->
  rows s' = rows s /\ coherent_but (rs := rs) [] (rows s') (cache s').
Proof.
  intros Hh Hm Hg Hc H. destruct (rollback_loses (good := good) rs lifetime n l s s' e Hh Hm Hg H) as (Er & _ & _ & W).
  split; [done|]. rewrite Er. by apply (coherent_within _ _ (cache s)).
Qed.

Definition marked_store : store RepoRecord (Redis.server RepoRecord) :=
  mkStore {[1 := sample_repo]} (Redis.mkServer ∅ []) None true [].

Lemma marked_rollback_coherent_witness :
  let ops := Redis.red_ops "cache:" 0 in
  let s' := (WithTransaction repository_resource 3
               (calls repository_resource 86400 3 [(CDelete 1, 20); (CGet 7, 21)]) marked_store).2 in
  rows s' = {[1 := sample_repo]} /\ coherent_but (rs := repository_resource) [] (rows s') (cache s').
Proof.
  intros ops s'.
  apply (marked_rollback_coherent (fun c : Redis.server RepoRecord => Redis.faults c = [])
           (CacheOps0 := ops) (Cache0 := Redis.red_cache "cache:" 0) (Reliable0 := Redis.red_reliable "cache:" 0)
           repository_resource 86400 2 [(CDelete 1, 20); (CGet 7, 21)] marked_store s' not_found);
    [done|done|done|by intros tm k r|vm_compute; reflexivity].
Defined.

(** A transaction without the middleware's mark, such as one that a background
    task opens, does save what it reads: an update, a read and a roll back leave
    the row that was never committed in the cache, and readers get it until it
    expires. *)
Theorem unmarked_rollback_dirty {R C} `{!CacheOps R C, !Cache R C} (good : C -> Prop) `{!Reliable R good}
  (rs : Resource R) lifetime n (s : store R C) r f now e k :
  hooks s = None -> committedKey s = false -> db_faults s = [] -> good (cache s) ->
  rows s !! res_id rs r = Some r -> id_key rs (res_id rs r) = Ok k -> view (cache s) now k = None ->
  exists s',
    WithTransaction rs (S n) (Update rs (S n) r f ;;; Get rs lifetime (res_id rs r) now ;;; fail (A := unit) e) s = (Err e, s')
    /\ rows s' !! res_id rs r = Some r
    /\ forall t, now <= t < now + lifetime -> (Get rs lifetime (res_id rs r) t s').1 = Ok (f r).
Proof.
  intros Hh Hm Hf Hg Hr Hk Hv. unfold WithTransaction. rewrite Hh. unfold Update, bind at 1 2.
  rewrite raw_Update_eq by done. cbn [rows with_hooks]. rewrite Hr.
  unfold scheduleCleanUp, bind at 1, get. cbn [hooks with_rows with_hooks modify].
  unfold bind at 1, Get at 1, of_result, bind at 1. rewrite Hk. unfold fetch_or_read at 1, bind at 1, try at 1, on_cache at 1.
  cbn [cache with_hooks with_rows]. pose proof (good_fetch k now _ Hg) as Hg1.
  destruct (Fetch k now (cache s)) as [x c1] eqn:E1. cbn [fst snd] in *.
  destruct x as [v|e1]; [apply fetch_view in E1 as [_ V]; by rewrite (V v eq_refl) in Hv|].
  unfold bind at 1. rewrite raw_Get_eq by done. cbn [rows with_cache with_hooks with_rows]. rewrite lookup_insert_eq.
  cbn [or_not_found]. unfold bind at 1, try at 1, client_Save, bind at 1, get. cbn [committedKey with_cache with_hooks with_rows].
  rewrite Hm. unfold on_cache at 1. cbn [cache with_cache].
  pose proof (good_save k (f r) (Some lifetime) now _ Hg1) as Hg2.
  pose proof (fun t => good_saved k (f r) lifetime now t _ Hg1) as Hs2.
  destruct (Save k (f r) (Some lifetime) now c1) as [y c2]. cbn [fst snd] in *. unfold ret, bind at 1, fail.
  eexists. split; [reflexivity|]. split; [done|]. intros t Ht.
  unfold Get, of_result, bind. rewrite Hk. unfold fetch_or_read, bind, try, on_cache. cbn [cache with_cache with_hooks with_rows].
  by rewrite (good_hit k t c2 (f r) Hg2 (Hs2 t Ht)).
Qed.

Lemma unmarked_rollback_dirty_witness :
  let ops := Redis.red_ops "cache:" 0 in
  exists s',
    rows s' !! 1 = Some sample_repo
    /\ (repository_Get 86400 1 60 s').1 = Ok (add_pull_count 3 22 sample_repo).
Proof.
  intros ops.
  destruct (unmarked_rollback_dirty (fun c : Redis.server RepoRecord => Redis.faults c = [])
           (CacheOps0 := ops) (Cache0 := Redis.red_cache "cache:" 0) (Reliable0 := Redis.red_reliable "cache:" 0)
           repository_resource 86400 2 (mkStore {[1 := sample_repo]} (Redis.mkServer ∅ []) None false [])
           sample_repo (add_pull_count 3 22) 22 not_found "repository:id:1") as (s' & _ & H1 & H2); try done.
  exists s'. split; [done|]. apply (H2 60). lia.
Defined.

(** A reader that missed the cache before an update and saves after it puts the
    old row back. *)
Lemma racing_reader_revives {R C} `{!CacheOps R C, !Cache R C} (good : C -> Prop) `{!Reliable R good}
  (rs : Resource R) (valid : list kv_value -> Prop) `{!ResourceKeys rs valid} lifetime n (s : store R C) r f now k :
  Inv (good := good) (rs := rs) (valid := valid) ∅ s -> committedKey s = false ->
  rows s !! res_id rs r = Some r -> keeps_keys (rs := rs) f -> id_key rs (res_id rs r) = Ok k ->
  exists s1 s2,
    raw_Get (res_id rs r) s = (Ok r, s) /\ Update rs (S n) r f s = (Ok tt, s1)
    /\ (client_Save lifetime k r now s1).2 = s2 /\ rows s2 !! res_id rs r = Some (f r)
    /\ forall t, now <= t < now + lifetime -> (Get rs lifetime (res_id rs r) t s2).1 = Ok r.
Proof.
  intros Hs Hm Hr Hf Hk. pose proof (inv_faults _ _ Hs) as Hd. unfold Update, bind at 1.
  rewrite raw_Update_eq by done. rewrite Hr.
  destruct (write_clean (good := good) (valid := valid) n ∅ (<[res_id rs r := f r]> (rows s)) (res_id rs r) r r s Hs Hr)
    as (c & _ & E & HI);
    [intros j Hj; by rewrite lookup_insert_ne|by apply table_update; [apply Hs| |]|done|done|].
  rewrite E. exists (with_cache (with_rows s (<[res_id rs r := f r]> (rows s))) c). eexists.
  split; [rewrite raw_Get_eq by done; by rewrite Hr|]. split; [done|]. split; [done|].
  unfold client_Save, bind at 1 2, get. cbn [committedKey with_cache with_rows]. rewrite Hm. unfold on_cache at 1 2.
  cbn [cache with_cache with_rows]. split; [cbn; by rewrite lookup_insert_eq|]. intros t Ht.
  pose proof (inv_good _ _ HI) as Hg. pose proof (good_save k r (Some lifetime) now _ Hg) as Hg2.
  pose proof (good_saved k r lifetime now t _ Hg Ht) as Hv. cbn [cache with_cache with_rows] in *.
  unfold Get, of_result, bind. rewrite Hk. unfold fetch_or_read, bind, try, on_cache. cbn [cache with_cache snd fst].
  by rewrite (good_hit k t _ r Hg2 Hv).
Qed.

Section MetadataStale.
Context {C : Type} `{!CacheOps (gmap string string) C, !Cache (gmap string string) C}.
Context (good : C -> Prop) `{!Reliable (gmap string string) good}.
Import ProjectMetadata.

Lemma meta_key_eq p meta : meta_key p meta
  = Ok ("project_metadata:projectID:" ++ Strconv.format_int p ++ ":meta:" ++ Join meta "," ++ "")%string.
Proof. reflexivity. Qed.

(** Cleaning the entry of one list of names leaves the others. *)
Lemma clean_names_eq n p meta (s : mstore C) : good (mcache s) ->
  exists c, ProjectMetadata.cleanUpKeys (S n) p meta s = (Ok tt, with_mcache s c) /\ good c
    /\ forall j t, meta_key p meta <> Ok j -> view c t j = view (mcache s) t j.
Proof.
  intros Hg. unfold ProjectMetadata.cleanUpKeys. rewrite meta_key_eq. unfold clean, bind, try, on_mcache.
  destruct (good_delete ("project_metadata:projectID:" ++ Strconv.format_int p ++ ":meta:" ++ Join meta "," ++ "")%string
              (mcache s) Hg) as (c & E & Hg' & Hj).
  exists c. rewrite (Retry_ok_first _ _ _ _ _ _ E). split; [done|]. split; [done|]. intros j t Hne. apply Hj. congruence.
Qed.

(** A list of names whose entry is in the cache is read from there. *)
Lemma meta_Get_hit lifetime p meta now k v (s : mstore C) :
  good (mcache s) -> meta_key p meta = Ok k -> view (mcache s) now k = Some v ->
  (ProjectMetadata.Get lifetime p meta now s).1 = Ok v.
Proof.
  intros Hg Hk Hv. unfold ProjectMetadata.Get, of_result, bind. rewrite Hk. unfold try, on_mcache.
  by rewrite (good_hit _ _ _ _ Hg Hv).
Qed.
End MetadataStale.

(** The deletion of one metadata of a project cleans the entry of that name
    only: the metadata of the whole project, as the cache has them, still show it,
    though the row is gone. *)
Theorem deleted_metadata_still_shown {C} `{!CacheOps (gmap string string) C, !Cache (gmap string string) C}
  (good : C -> Prop) `{!Reliable (gmap string string) good}
  lifetime n p m now t k v (s : ProjectMetadata.mstore C) :
  good (ProjectMetadata.mcache s) -> ProjectMetadata.mhooks s = None -> ProjectMetadata.mfaults s = [] ->
  m <> "" -> ProjectMetadata.meta_key p [] = Ok k -> view (ProjectMetadata.mcache s) t k = Some v ->
  exists s', ProjectMetadata.Delete_ (S n) p [m] now s = (Ok tt, s')
    /\ ProjectMetadata.mrows s' !! (p, m) = None
    /\ (ProjectMetadata.Get lifetime p [] t s').1 = Ok v.
Proof.
  intros Hg Hh Hf Hm Hk Hv. unfold ProjectMetadata.Delete_, ProjectMetadata.raw_Delete, ProjectMetadata.scheduleCleanUp,
    ProjectMetadata.AfterCommit, bind, io, next_fault, ProjectMetadata.mstore_faulty, modify, get.
  rewrite Hf. cbn [ProjectMetadata.mhooks ProjectMetadata.with_mrows]. rewrite Hh. unfold ProjectMetadata.run_hook.
  set (s1 := ProjectMetadata.with_mrows s _).
  destruct (clean_names_eq good n p [m] s1 Hg) as (c & E & Hg' & Hj). exists (ProjectMetadata.with_mcache s1 c).
  rewrite E. split; [done|]. split.
  - cbn. apply map_lookup_filter_None. right. intros x _. cbn. unfold ProjectMetadata.asked. cbn.
    rewrite Z.eqb_refl. rewrite bool_decide_true by set_solver. done.
  - apply (meta_Get_hit good lifetime p [] t k v); [done|done|]. cbn. rewrite Hj; [done|]. rewrite <- Hk, !meta_key_eq.
    intros E1. injection E1 as E1. apply (inj (String.append (Strconv.format_int p))) in E1.
    apply (inj (String.append ":meta:")) in E1. cbn in E1. by rewrite app_nil in E1.
Qed.

Lemma deleted_metadata_still_shown_witness :
  let ops := Memory.mem_ops "" 0 in
  let v : gmap string string := {["public" := "true"; "auto_scan" := "true"]} in
  let s := (ProjectMetadata.Get 86400 1 [] 10
             (ProjectMetadata.mkMStore {[(1, "public") := "true"; (1, "auto_scan") := "true"]} ∅ None false [])).2 in
  exists s', ProjectMetadata.Delete_ 3 1 ["auto_scan"] 20 s = (Ok tt, s')
    /\ ProjectMetadata.mrows s' !! (1, "auto_scan") = None
    /\ (ProjectMetadata.Get 86400 1 [] 30 s').1 = Ok v.
Proof.
  intros ops v s.
  apply (deleted_metadata_still_shown (fun _ => True) (CacheOps0 := ops) (Cache0 := Memory.mem_cache "" 0)
           (Reliable0 := Memory.mem_reliable "" 0) 86400 2 1 "auto_scan" 20 30
           "project_metadata:projectID:1:meta:" v s); [done|done|done|done|done|vm_compute; reflexivity].
Defined.
