(* ===== verification/RegClient.v ===== *)
(** * The registry client

    [src/pkg/registry/client.go], [src/lib/link.go] and the read-only
    interceptor of [src/pkg/registry/interceptor/readonly]: every operation of
    the client that core, the replication jobs and the adapters use to talk to
    a registry over HTTP.

    The registry at the other end is not part of the repository.  It is the
    function [send], which takes a request and may change the world; what the
    distribution specification says of it is the relation [oci_step] between
    the registry's content before a request, the request, its outcome and the
    content after it.  A request may be lost before or after it takes effect,
    be refused, or (for an upload) take effect in part.  URLs are kept as the
    parts they are formatted from; a body that breaks off while it is read is
    an exchange that failed.  The parsers of manifests and digests
    ([docker/distribution], [go-digest]) are the class [Distribution]. *)

From S2P Require Import Prelude Errors.

(** ** Links between pages *)

Module Links.

Record Link := mkLink { URL : string; Rel : string; Attrs : gmap string string }.

Definition quote : ascii := Ascii.ascii_of_nat 34.

(** [strings.Trim(s, cutset)] for a cutset of one character. *)
Fixpoint trim_left_char (c : ascii) (s : string) : string :=
  match s with
  | String d s' => if Ascii.eqb d c then trim_left_char c s' else s
  | EmptyString => EmptyString
  end.

Fixpoint trim_right_char (c : ascii) (s : string) : string :=
  match s with
  | String d s' =>
      match trim_right_char c s' with
      | EmptyString => if Ascii.eqb d c then EmptyString else String d EmptyString
      | t => String d t
      end
  | EmptyString => EmptyString
  end.

Definition Trim_char (s : string) (c : ascii) : string := trim_right_char c (trim_left_char c s).

(** The text between a first [<] and a last [>]. *)
Fixpoint strip_last (d : ascii) (s : string) : option string :=
  match s with
  | EmptyString => None
  | String c EmptyString => if Ascii.eqb c d then Some EmptyString else None
  | String c s' => String c <$> strip_last d s'
  end.

(** [attr[1 : len(attr)-1]] of an attribute that starts with [<] and ends
    with [>]. *)
Definition angle (attr : string) : option string :=
  match attr with
  | String c s => if Ascii.eqb c "<" then strip_last ">" s else None
  | EmptyString => None
  end.

Definition add_attr (l : Link) (attr : string) : Link :=
  let attr := GoStrings.TrimSpace attr in
  if attr =s= "" then l
  else match angle attr with
       | Some u => mkLink u (Rel l) (Attrs l)
       | None =>
           let '(key, value) :=
             match GoStrings.SplitN2 attr "=" with
             | [k; v] => (k, Trim_char v quote)
             | k :: _ => (k, "")
             | [] => ("", "")
             end in
           if key =s= "rel" then mkLink (URL l) value (Attrs l)
           else mkLink (URL l) (Rel l) (<[key := value]> (Attrs l))
       end.

Definition parse_link (lk : string) : Link :=
  foldl add_attr (mkLink "" "" ∅) (GoStrings.Split lk ";").

Definition ParseLinks (str : string) : list Link :=
  List.filter (fun l => negb (URL l =s= "")) (map parse_link (GoStrings.Split str ",")).

(** [Link.String]; the attributes in the order in which the map yields them. *)
Definition quoted (s : string) : string := String quote (s ++ String quote "").

Definition Link_String (l : Link) : string :=
  foldl (fun s kv => (s ++ "; " ++ kv.1 ++ "=" ++ quoted kv.2)%string)
    (("<" ++ URL l ++ ">")%string ++
     (if Rel l =s= "" then "" else ("; rel=" ++ quoted (Rel l))%string))%string
    (map_to_list (Attrs l)).

Definition Links_String (ls : list Link) : string := GoStrings.Join (map Link_String ls) " , ".

(** [next] of the client: the URL of the first link to a next page. *)
Definition next (link : string) : string :=
  match List.find (fun l => Rel l =s= "next") (ParseLinks link) with
  | Some l => URL l
  | None => ""
  end.

End Links.

(** ** HTTP *)

Inductive method := GET | HEAD | POST | PUT | PATCH | DELETE.

(** What the [build...URL] functions format, kept as the parts.  [TPage] is
    the link to a next page, [TUpload] the location of an upload with the
    digest its last request names. *)
Inductive target :=
| TPing
| TCatalog
| TTagList (repository : string)
| TPage (url : string)
| TManifest (repository reference : string)
| TBlob (repository digest : string)
| TMount (repository digest from : string)
| TInitiate (repository : string)
| TReferrers (repository digest rawQuery : string)
| TUpload (location : string) (digest : option string).

Record request := mkReq {
  r_method : method;
  r_target : target;
  r_header : list (string * string);
  r_body : string;
  r_auth : option string }.

Record response := mkResp {
  status : Z;
  header : list (string * string);
  body : string }.

(** [Header.Get]: the first value of a key, empty when there is none. *)
Definition Get (h : list (string * string)) (key : string) : string :=
  match List.find (fun kv => kv.1 =s= key) h with Some kv => kv.2 | None => "" end.

Definition NewRequest (m : method) (t : target) (h : list (string * string)) (b : string) : request :=
  mkReq m t h b None.

(** ** Third-party manifests and digests *)

Record Descriptor := mkDesc { d_MediaType : string; d_Digest : string; d_Size : Z }.

(** [distribution.UnmarshalManifest] with the methods of a manifest, and the
    digests of [go-digest]: [is_digest] is whether [digest.Parse] accepts a
    string, [FromBytes] the digest of some bytes. *)
Class Distribution := {
  manifest : Type;
  UnmarshalManifest : string -> string -> result manifest;
  References : manifest -> list Descriptor;
  Payload : manifest -> result (string * string);
  is_digest : string -> bool;
  FromBytes : string -> string }.

(** What [url.Parse] accepts as the location of an upload, and the JSON
    bodies of the lists. *)
Class Decoders := {
  location_ok : string -> bool;
  decode_list : string -> result (list string);
  decode_index : string -> result (list Descriptor) }.

Definition accepts : list string :=
  ["application/vnd.oci.image.index.v1+json";
   "application/vnd.docker.distribution.manifest.list.v2+json";
   "application/vnd.oci.image.manifest.v1+json";
   "application/vnd.docker.distribution.manifest.v2+json";
   "application/vnd.docker.distribution.manifest.v1+prettyjws";
   "application/vnd.docker.distribution.manifest.v1+json"].

Definition MediaTypeForeignLayer : string := "application/vnd.docker.image.rootfs.foreign.diff.tar.gzip".

(** The media types of manifests and indexes, the same six. *)
Definition is_manifest_type (mt : string) : bool := existsb (String.eqb mt) accepts.

(** ** The client *)

Section Client.

Context {St : Type} `{DI : Distribution} `{DE : Decoders}.

(** [http.Client.Do] towards the registry. *)
Context (send : request -> M St response).

(** The fields of [client] that its requests go through: the interceptors,
    and the authorizer, which sets the [Authorization] header. *)
Record client := mkClient {
  interceptors : list (request -> M St unit);
  authorizer : option (request -> M St (option string)) }.

Definition with_auth (req : request) (a : option string) : request :=
  mkReq (r_method req) (r_target req) (r_header req) (r_body req) a.

Definition status_code (z : Z) : string :=
  if z =? 401 then UnAuthorizedCode
  else if z =? 403 then ForbiddenCode
  else if z =? 404 then NotFoundCode
  else if z =? 429 then RateLimitCode
  else GeneralCode.

Definition status_error (resp : response) : error :=
  Coded (status_code (status resp))
    ("http status code: " ++ Strconv.format_int (status resp) ++ ", body: " ++ body resp)%string None.

Definition success (resp : response) : bool := (200 <=? status resp) && (status resp <=? 299).

Definition authorize (c : client) (req : request) : M St request :=
  match authorizer c with
  | Some modify => a <- modify req ;; ret (with_auth req a)
  | None => ret req
  end.

Definition do_ (c : client) (req : request) : M St response :=
  iterM (fun i => i req) (interceptors c) ;;;
  req <- authorize c req ;;
  resp <- send req ;;
  if (status resp <? 200) || (299 <? status resp) then fail (status_error resp) else ret resp.

Definition Ping (c : client) : M St unit := do_ c (NewRequest GET TPing [] "") ;;; ret tt.

(** The loop of [Catalog] and of [ListTags] over the pages; the list of a
    page is decoded before its link is read. *)
Definition fetch_page (c : client) (t : target) : M St (list string * string) :=
  resp <- do_ c (NewRequest GET t [] "") ;;
  l <- of_result (decode_list (body resp)) ;;
  ret (l, Links.next (Get (header resp) "Link")).

Definition OutOfPages : error := Panic "pages without end".

(** [url = next], made absolute when it is a relative URL. *)
Definition absolute (base url : string) : string :=
  if GoStrings.contains url "://" then url else (base ++ url)%string.

Fixpoint pages (fuel : nat) (c : client) (base : string) (t : target) (acc : list string) : M St (list string) :=
  match fuel with
  | O => fail OutOfPages
  | S fuel =>
      r <- fetch_page c t ;;
      let '(l, url) := r in
      if url =s= "" then ret (acc ++ l)
      else pages fuel c base (TPage (absolute base url)) (acc ++ l)
  end.

Definition Catalog (fuel : nat) (c : client) (base : string) : M St (list string) := pages fuel c base TCatalog [].
Definition ListTags (fuel : nat) (c : client) (base repository : string) : M St (list string) :=
  pages fuel c base (TTagList repository) [].

(** [length, _ := strconv.Atoi(s)]: zero for what is no number, the nearest
    bound for a number out of range. *)
Definition Atoi_value (s : string) : Z :=
  let clamp z := Z.max Int64.min (Z.min z Int64.max) in
  match s with
  | EmptyString => 0
  | String c s' =>
      let '(neg, ds) := if Ascii.eqb c "-" then (true, s') else if Ascii.eqb c "+" then (false, s') else (false, s) in
      if ds =s= "" then 0
      else match Strconv.read_digits ds 0 with
           | Some n => clamp (if neg : bool then - n else n)
           | None => 0
           end
  end.

Definition ManifestExist (c : client) (repository reference : string) : M St (bool * option Descriptor) :=
  r <- try (do_ c (NewRequest HEAD (TManifest repository reference) (map (pair "Accept") accepts) "")) ;;
  match r with
  | Err e => if IsErr e NotFoundCode then ret (false, None) else fail e
  | Ok resp =>
      ret (true, Some (mkDesc (Get (header resp) "Content-Type") (Get (header resp) "Docker-Content-Digest")
                         (Atoi_value (Get (header resp) "Content-Length"))))
  end.

Definition PullManifest (c : client) (repository reference : string) (acceptedMediaTypes : list string)
  : M St (manifest * string) :=
  let mts := match acceptedMediaTypes with [] => accepts | l => l end in
  resp <- do_ c (NewRequest GET (TManifest repository reference) (map (pair "Accept") mts) "") ;;
  m <- of_result (UnmarshalManifest (Get (header resp) "Content-Type") (body resp)) ;;
  ret (m, Get (header resp) "Docker-Content-Digest").

Definition PushManifest (c : client) (repository reference mediaType payload : string) : M St string :=
  resp <- do_ c (NewRequest PUT (TManifest repository reference) [("Content-Type", mediaType)] payload) ;;
  ret (Get (header resp) "Docker-Content-Digest").

Definition DeleteManifest (c : client) (repository reference : string) : M St unit :=
  reference <-
    (if is_digest reference then ret reference
     else
       r <- ManifestExist c repository reference ;;
       match r with
       | (true, Some desc) => ret (d_Digest desc)
       | (true, None) => fail (Panic "nil descriptor")
       | (false, _) => fail (Coded NotFoundCode (repository ++ ":" ++ reference ++ " not found")%string None)
       end) ;;
  do_ c (NewRequest DELETE (TManifest repository reference) [] "") ;;; ret tt.

Definition BlobExist (c : client) (repository digest : string) : M St bool :=
  r <- try (do_ c (NewRequest HEAD (TBlob repository digest) [] "")) ;;
  match r with
  | Err e => if IsErr e NotFoundCode then ret false else fail e
  | Ok _ => ret true
  end.

Definition InvalidSyntax : error := Plain "strconv.ParseInt: invalid value".

(** The size a response declares; none is zero. *)
Definition content_length (resp : response) : result Z :=
  let n := Get (header resp) "Content-Length" in
  if n =s= "" then Ok 0
  else match Strconv.parse_int n with Some z => Ok z | None => Err InvalidSyntax end.

Definition PullBlob (c : client) (repository digest : string) : M St (Z * string) :=
  resp <- do_ c (NewRequest GET (TBlob repository digest) [("Accept-Encoding", "identity")] "") ;;
  size <- of_result (content_length resp) ;;
  ret (size, body resp).

Definition range_header (start end_ : Z) : string :=
  ("bytes=" ++ Strconv.format_int start ++ "-" ++ Strconv.format_int end_)%string.

Definition PullBlobChunk (c : client) (repository digest : string) (blobSize start end_ : Z) : M St (Z * string) :=
  resp <- do_ c (NewRequest GET (TBlob repository digest)
                   [("Accept-Encoding", "identity"); ("Range", range_header start end_)] "") ;;
  size <- of_result (content_length resp) ;;
  ret (size, body resp).

Definition initiateBlobUpload (c : client) (repository : string) : M St (string * string) :=
  resp <- do_ c (NewRequest POST (TInitiate repository) [("Content-Length", "0")] "") ;;
  ret (Get (header resp) "Location", Get (header resp) "Docker-Upload-UUID").

Definition BadLocation : error := Plain "parse: invalid URL".

Definition buildChunkBlobUploadURL (location digest : string) (lastChunk : bool) : result target :=
  if location_ok location then Ok (TUpload location (if lastChunk then Some digest else None)) else Err BadLocation.

Definition buildMonolithicBlobUploadURL (location digest : string) : result target :=
  if location_ok location then Ok (TUpload location (Some digest)) else Err BadLocation.

Definition monolithicBlobUpload (c : client) (location digest : string) (size : Z) (data : string) : M St unit :=
  url <- of_result (buildMonolithicBlobUploadURL location digest) ;;
  do_ c (NewRequest PUT url [("Content-Length", Strconv.format_int size)] data) ;;; ret tt.

Definition PushBlob (c : client) (repository digest : string) (size : Z) (blob : string) : M St unit :=
  r <- initiateBlobUpload c repository ;;
  monolithicBlobUpload c r.1 digest size blob.

Definition parseContentRange (cr : string) : result (Z * Z) :=
  match GoStrings.Split cr "-" with
  | [a; b] =>
      match Strconv.parse_int a with
      | None => Err InvalidSyntax
      | Some start =>
          match Strconv.parse_int b with
          | None => Err InvalidSyntax
          | Some end_ => Ok (start, end_)
          end
      end
  | _ => Err (Plain ("invalid content range format, " ++ cr)%string)
  end.

Definition getUploadStatus (c : client) (url : target) : M St (string * Z) :=
  resp <- do_ c (NewRequest GET url [] "") ;;
  r <- of_result (parseContentRange (Get (header resp) "Range")) ;;
  ret (Get (header resp) "Location", r.2).

Definition content_range (start end_ : Z) : string :=
  (Strconv.format_int start ++ "-" ++ Strconv.format_int end_)%string.

(** [PushBlobChunk] once the upload has a location.  The location and the
    end come back with the error too: they say where the next attempt goes on. *)
Definition push_chunk_to (c : client) (digest : string) (blobSize : Z) (chunk : string) (start end_ : Z)
    (location : string) : M St (string * Z * option error) :=
  let lastChunk := end_ =? Int64.wrap (blobSize - 1) in
  match buildChunkBlobUploadURL location digest lastChunk with
  | Err e => ret (location, end_, Some e)
  | Ok url =>
      let h := [("Content-Length", Strconv.format_int (Int64.wrap (end_ - start + 1)));
                ("Content-Range", content_range start end_)] in
      r <- try (do_ c (NewRequest (if lastChunk then PUT else PATCH) url h chunk)) ;;
      match r with
      | Ok resp => ret (Get (header resp) "Location", end_, None)
      | Err e =>
          st <- try (getUploadStatus c url) ;;
          match st with
          | Ok (newLocation, newEnd) => ret (newLocation, newEnd, Some e)
          | Err e1 => ret (location, Int64.wrap (start - 1), Some (Wrap e1 "failed to get upload status"))
          end
      end
  end.

(** The first chunk initiates the upload. *)
Definition PushBlobChunk (c : client) (repository digest : string) (blobSize : Z) (chunk : string)
    (start end_ : Z) (location : string) : M St (string * Z * option error) :=
  r <- try (if start =? 0 then r <- initiateBlobUpload c repository ;; ret r.1 else ret location) ;;
  match r with
  | Err e => ret ("", end_, Some e)
  | Ok location => push_chunk_to c digest blobSize chunk start end_ location
  end.

Definition MountBlob (c : client) (srcRepository digest dstRepository : string) : M St unit :=
  do_ c (NewRequest POST (TMount dstRepository digest srcRepository) [("Content-Length", "0")] "") ;;; ret tt.

Definition DeleteBlob (c : client) (repository digest : string) : M St unit :=
  do_ c (NewRequest DELETE (TBlob repository digest) [] "") ;;; ret tt.

Definition ListReferrers (c : client) (repository digest rawQuery : string)
  : M St (list Descriptor * list (string * string)) :=
  r <- try (do_ c (NewRequest GET (TReferrers repository digest rawQuery) [] "")) ;;
  match r with
  | Err e =>
      if IsErr e NotFoundCode
      then fail (Coded NotFoundCode ("referrers for " ++ repository ++ ":" ++ digest ++ " not found")%string None)
      else fail e
  | Ok resp =>
      l <- of_result (decode_index (body resp)) ;;
      ret (l, header resp)
  end.

(** ** Copying inside a registry *)

Definition NoOverride : error :=
  Coded PreconditionCode "the same name but different digest artifact exists, but the override is set to false" None.

(** [Client.Copy]: [fuel] bounds the depth of the indexes. *)
Fixpoint Copy (fuel : nat) (c : client) (srcRepo srcRef dstRepo dstRef : string) (override : bool) : M St unit :=
  match fuel with
  | O => fail (Panic "stack overflow")
  | S fuel =>
      r <- PullManifest c srcRepo srcRef [] ;;
      let '(m, srcDgt) := r in
      x <- ManifestExist c dstRepo dstRef ;;
      let '(found, desc) := x in
      if found && match desc with Some d => srcDgt =s= d_Digest d | None => false end then ret tt
      else if found && negb override then fail NoOverride
      else
        iterM (fun d =>
          if d_MediaType d =s= MediaTypeForeignLayer then ret tt
          else if is_manifest_type (d_MediaType d)
          then Copy fuel c srcRepo (d_Digest d) dstRepo (d_Digest d) false
          else
            found <- BlobExist c dstRepo (d_Digest d) ;;
            if found : bool then ret tt else MountBlob c srcRepo (d_Digest d) dstRepo) (References m) ;;;
        p <- of_result (Payload m) ;;
        PushManifest c dstRepo dstRef p.1 p.2 ;;; ret tt
  end.

End Client.
Arguments client St : clear implicits.

(** ** The read-only interceptor *)

Definition ReadOnlyErr : error := Plain "the system is in read only mode, cancel the request".

(** [isReadOnly]: the mode comes from a cache of five seconds or, when it is
    not there, from the configuration. *)
Definition isReadOnly {St} (Fetch : M St bool) (Load : M St unit) (ReadOnly : M St bool) (Save : bool -> M St unit)
  : M St bool :=
  r <- try Fetch ;;
  match r with
  | Ok ro => ret ro
  | Err e =>
      if match e with Sentinel n => n =s= "key not found" | _ => false end
      then Load ;;; ro <- ReadOnly ;; Save ro ;;; ret ro
      else fail e
  end.

Definition Intercept {St} (isReadOnly : M St bool) (req : request) : M St unit :=
  match r_method req with
  | GET | HEAD => ret tt
  | _ =>
      ro <- isReadOnly ;;
      if ro : bool then fail ReadOnlyErr else ret tt
  end.

(** ** Pages *)

Section Pages.

Context {St : Type} `{DE : Decoders} (send : request -> M St response) (c : client St) (base : string).

(** A run of pages, each linked to the next, with the lists they hold. *)
Inductive paged : target -> St -> list (list string) -> St -> Prop :=
| paged_last t s l s' : fetch_page send c t s = (Ok (l, ""), s') -> paged t s [l] s'
| paged_next t s l url s1 ls s' :
    fetch_page send c t s = (Ok (l, url), s1) -> url <> "" ->
    paged (TPage (absolute base url)) s1 ls s' -> paged t s (l :: ls) s'.

(** The loop over the pages collects all of them, in their order, when it
    may turn as often as there are pages. *)
Theorem pages_collected t s ls s' fuel acc :
  paged t s ls s' -> (length ls <= fuel)%nat -> pages send fuel c base t acc s = (Ok (acc ++ concat ls), s').
Proof.
  intros H. revert fuel acc. induction H as [t s l s' E|t s l url s1 ls s' E Hu Hp IH]; intros [|fuel] acc Hf; cbn in Hf; [lia| |lia|].
  - cbn. unfold bind. rewrite E. by rewrite List.app_nil_r.
  - cbn. unfold bind. rewrite E, (proj2 (String.eqb_neq _ _) Hu), IH by lia. cbn. by rewrite app_assoc.
Qed.

End Pages.

(** The link a registry sends with a page is found again. *)
Lemma trim_right_last s c : GoStrings.is_space c = false -> GoStrings.trim_right (s ++ String c "") = (s ++ String c "")%string.
Proof.
  intros Hc. induction s as [|x s IH].
  - change ((if GoStrings.is_space c then "" else String c "") = String c ""). by rewrite Hc.
  - change (match GoStrings.trim_right (s ++ String c "") with
            | EmptyString => if GoStrings.is_space x then EmptyString else String x EmptyString
            | t => String x t end = String x (s ++ String c "")). rewrite IH. by destruct s.
Qed.

Lemma strip_last_app s d : Links.strip_last d (s ++ String d "") = Some s.
Proof.
  induction s as [|x s IH].
  - change ((if Ascii.eqb d d then Some "" else None) = Some ""). by rewrite Ascii.eqb_refl.
  - change (match (s ++ String d "")%string with
            | EmptyString => if Ascii.eqb x d then Some "" else None
            | _ => String x <$> Links.strip_last d (s ++ String d "") end = Some (String x s)).
    rewrite IH. by destruct s.
Qed.

Theorem next_of_link u : GoStrings.count ";" u = 0%nat -> GoStrings.count "," u = 0%nat -> u <> "" ->
  Links.next (Links.Link_String (Links.mkLink u "next" ∅)) = u.
Proof.
  intros Hs Hc Hu.
  set (rel := (" rel=" ++ Links.quoted "next")%string).
  assert (Links.Link_String (Links.mkLink u "next" ∅) = (String "<" (u ++ ">") ++ String ";" rel)%string) as ->.
  { unfold Links.Link_String. change (map_to_list _) with (@nil (string * string)). cbn [foldl Links.Rel Links.URL].
    change (String "<" (u ++ ">") ++ ?y)%string with (String "<" ((u ++ ">") ++ y))%string.
    by rewrite !GoStrings.app_assoc. }
  assert (GoStrings.count "," (String "<" (u ++ ">") ++ String ";" rel)%string = 0%nat) as Hn.
  { rewrite GoStrings.count_app. change (GoStrings.count "," (u ++ ">") + 0 = 0)%nat.
    rewrite GoStrings.count_app, Hc. done. }
  unfold Links.next, Links.ParseLinks. rewrite GoStrings.Split_none by done. cbn [map List.filter].
  assert (Links.parse_link (String "<" (u ++ ">") ++ String ";" rel) = Links.mkLink u "next" ∅) as ->.
  { unfold Links.parse_link. rewrite GoStrings.Split_sep.
    2: { change (GoStrings.count ";" (u ++ ">") = 0)%nat. rewrite GoStrings.count_app, Hs. done. }
    rewrite (GoStrings.Split_none rel) by done. cbn [foldl].
    assert (Links.add_attr (Links.mkLink "" "" ∅) (String "<" (u ++ ">")) = Links.mkLink u "" ∅) as ->; [|done].
    unfold Links.add_attr, GoStrings.TrimSpace. cbn [GoStrings.trim_left].
    replace (GoStrings.is_space "<") with false by done.
    change (String "<" (u ++ ">")) with (String "<" u ++ ">")%string. rewrite trim_right_last by done.
    change (String "<" u ++ ">")%string with (String "<" (u ++ ">"))%string. cbn. by rewrite strip_last_app. }
  cbn. by rewrite (proj2 (String.eqb_neq _ _) Hu).
Qed.
