(* ===== verification/OciRegistry.v ===== *)
(** * The registry at the other end

    What the client of [src/pkg/registry/client.go] relies on: the content of
    a registry, the effect of each request on it as the distribution
    specification describes it ([handled]), the ways an exchange can fail
    ([oci_step]), and what each operation of the client then returns and
    leaves behind.  [MemRegistry] is a registry in memory that satisfies the
    specification, with a list of the faults to come. *)

From stdpp Require Import stringmap.
From S2P Require Import Prelude Errors RegClient.

(** ** The content of a registry *)

(** Blobs and manifests of a repository by digest, tags by name, and the
    uploads that are under way by location. *)
Record content := mkContent {
  blobs : gmap (string * string) string;
  manifests : gmap (string * string) (string * string);
  tags : gmap (string * string) string;
  uploads : gmap string (string * string) }.

Definition with_blobs (v : content) bs : content := mkContent bs (manifests v) (tags v) (uploads v).
Definition with_uploads (v : content) us : content := mkContent (blobs v) (manifests v) (tags v) us.

Definition len (s : string) : Z := Z.of_nat (String.length s).

(** Bytes [x] to [y] of a blob, both included. *)
Definition slice (s : string) (x y : Z) : string := String.substring (Z.to_nat x) (Z.to_nat (y - x + 1)) s.

Lemma substring_drop n s : (String.substring 0 n s ++ GoStrings.drop n s)%string = s.
Proof.
  revert n. induction s as [|x s IH]; intros [|n]; [done..|].
  change (String x (String.substring 0 n s ++ GoStrings.drop n s) = String x s). by rewrite IH.
Qed.

Section Spec.

Context `{DI : Distribution} `{DE : Decoders}.

(** A reference is a digest or a tag. *)
Definition resolve (v : content) (r ref : string) : option (string * (string * string)) :=
  d ← (if is_digest ref then Some ref else tags v !! (r, ref));
  m ← manifests v !! (r, d);
  Some (d, m).

Definition put_manifest (v : content) (r ref mt p : string) : content :=
  let d := FromBytes p in
  mkContent (blobs v) (<[(r, d) := (mt, p)]> (manifests v))
    (if is_digest ref then tags v else <[(r, ref) := d]> (tags v)) (uploads v).

Definition delete_manifest (v : content) (r d : string) : content :=
  mkContent (blobs v) (base.delete (r, d) (manifests v))
    (filter (fun kv => ~ (kv.1.1 = r /\ kv.2 = d)) (tags v)) (uploads v).

Definition move_upload (v : content) (l l' : string) (u : string * string) : content :=
  with_uploads v (<[l' := u]> (base.delete l (uploads v))).

Definition fresh_location (v : content) (l : string) : Prop := uploads v !! l = None /\ location_ok l = true /\ l <> "".

(** The location a response names for an upload: the same or a new one. *)
Definition next_location (v : content) (l l' : string) : Prop := l' = l \/ fresh_location v l'.

Definition says_length (hd : list (string * string)) (n : Z) : Prop :=
  Get hd "Content-Length" = "" \/ Get hd "Content-Length" = Strconv.format_int n.

(** Where the body of an upload request goes: at the end of the upload when
    there is no range, else where the range starts. *)
Definition in_place (h : list (string * string)) (bs : string) : Prop :=
  Get h "Content-Range" = "" \/ exists y, Get h "Content-Range" = content_range (len bs) y.

Definition out_of_place (h : list (string * string)) (bs : string) : Prop :=
  exists x y, Get h "Content-Range" = content_range x y /\ 0 <= x <= Int64.max /\ 0 <= y <= Int64.max /\ x <> len bs.

Definition client_error (z : Z) : Prop := 400 <= z <= 499 /\ z <> 404.

Inductive handled (v : content) : method -> target -> list (string * string) -> string -> response -> content -> Prop :=
| h_blob r d c h b hd : blobs v !! (r, d) = Some c -> handled v HEAD (TBlob r d) h b (mkResp 200 hd "") v
| h_no_blob m r d h b hd bd : blobs v !! (r, d) = None -> handled v m (TBlob r d) h b (mkResp 404 hd bd) v
| h_get_blob r d c h b hd :
    blobs v !! (r, d) = Some c -> Get h "Range" = "" -> says_length hd (len c) ->
    handled v GET (TBlob r d) h b (mkResp 200 hd c) v
| h_get_range r d c h b hd x y :
    blobs v !! (r, d) = Some c -> Get h "Range" = range_header x y -> 0 <= x <= y -> y < len c ->
    says_length hd (y - x + 1) -> handled v GET (TBlob r d) h b (mkResp 206 hd (slice c x y)) v
| h_bad_range r d c h b hd bd x y :
    blobs v !! (r, d) = Some c -> Get h "Range" = range_header x y -> len c <= x ->
    handled v GET (TBlob r d) h b (mkResp 416 hd bd) v
| h_delete_blob r d c h b hd :
    blobs v !! (r, d) = Some c ->
    handled v DELETE (TBlob r d) h b (mkResp 202 hd "") (with_blobs v (base.delete (r, d) (blobs v)))
| h_manifest r ref d mt p h b hd :
    resolve v r ref = Some (d, (mt, p)) -> Get hd "Docker-Content-Digest" = d -> Get hd "Content-Type" = mt ->
    handled v HEAD (TManifest r ref) h b (mkResp 200 hd "") v
| h_get_manifest r ref d mt p h b hd :
    resolve v r ref = Some (d, (mt, p)) -> Get hd "Docker-Content-Digest" = d -> Get hd "Content-Type" = mt ->
    handled v GET (TManifest r ref) h b (mkResp 200 hd p) v
| h_no_manifest m r ref h b hd bd :
    resolve v r ref = None -> m = GET \/ m = HEAD \/ m = DELETE ->
    handled v m (TManifest r ref) h b (mkResp 404 hd bd) v
| h_put_manifest r ref mt p h hd :
    Get h "Content-Type" = mt -> (is_digest ref = true -> ref = FromBytes p) ->
    Get hd "Docker-Content-Digest" = FromBytes p ->
    handled v PUT (TManifest r ref) h p (mkResp 201 hd "") (put_manifest v r ref mt p)
| h_put_wrong r ref p h hd bd :
    is_digest ref = true -> ref <> FromBytes p -> handled v PUT (TManifest r ref) h p (mkResp 400 hd bd) v
| h_delete_manifest r d m h b hd :
    is_digest d = true -> manifests v !! (r, d) = Some m ->
    handled v DELETE (TManifest r d) h b (mkResp 202 hd "") (delete_manifest v r d)
| h_mount r d from c h b hd :
    blobs v !! (from, d) = Some c ->
    handled v POST (TMount r d from) h b (mkResp 201 hd "") (with_blobs v (<[(r, d) := c]> (blobs v)))
| h_mount_upload r d from h b hd l :
    blobs v !! (from, d) = None -> fresh_location v l -> Get hd "Location" = l ->
    handled v POST (TMount r d from) h b (mkResp 202 hd "") (with_uploads v (<[l := (r, "")]> (uploads v)))
| h_initiate r h b hd l :
    fresh_location v l -> Get hd "Location" = l ->
    handled v POST (TInitiate r) h b (mkResp 202 hd "") (with_uploads v (<[l := (r, "")]> (uploads v)))
| h_patch l r bs h b hd l' :
    uploads v !! l = Some (r, bs) -> in_place h bs -> next_location v l l' -> Get hd "Location" = l' ->
    handled v PATCH (TUpload l None) h b (mkResp 202 hd "") (move_upload v l l' (r, (bs ++ b)%string))
| h_finish l d r bs h b hd :
    uploads v !! l = Some (r, bs) -> in_place h bs -> FromBytes (bs ++ b)%string = d ->
    handled v PUT (TUpload l (Some d)) h b (mkResp 201 hd "")
      (with_uploads (with_blobs v (<[(r, d) := (bs ++ b)%string]> (blobs v))) (base.delete l (uploads v)))
| h_upload_wrong m l o r bs h b z hd bd :
    uploads v !! l = Some (r, bs) ->
    out_of_place h bs \/ (exists d, o = Some d /\ FromBytes (bs ++ b)%string <> d) -> client_error z ->
    m = PATCH \/ m = PUT ->
    handled v m (TUpload l o) h b (mkResp z hd bd) v
| h_status l o r bs h b hd l' :
    uploads v !! l = Some (r, bs) -> next_location v l l' -> Get hd "Location" = l' ->
    Get hd "Range" = content_range 0 (Z.max 0 (len bs - 1)) ->
    handled v GET (TUpload l o) h b (mkResp 204 hd "") (move_upload v l l' (r, bs))
| h_no_upload m l o h b hd bd : uploads v !! l = None -> handled v m (TUpload l o) h b (mkResp 404 hd bd) v
| h_ping h b hd bd : handled v GET TPing h b (mkResp 200 hd bd) v
| h_catalog h b hd bd : handled v GET TCatalog h b (mkResp 200 hd bd) v
| h_tag_list r h b z hd bd : z = 200 \/ z = 404 -> handled v GET (TTagList r) h b (mkResp z hd bd) v
| h_page u h b z hd bd : z = 200 \/ z = 404 -> handled v GET (TPage u) h b (mkResp z hd bd) v
| h_referrers r d q h b z hd bd : z = 200 \/ z = 404 -> handled v GET (TReferrers r d q) h b (mkResp z hd bd) v.

(** An upload request whose body breaks off: a part of it may be kept. *)
Inductive kept_part (v : content) : method -> target -> list (string * string) -> string -> content -> Prop :=
| k_part m l o r bs h b pre suf :
    uploads v !! l = Some (r, bs) -> in_place h bs -> m = PATCH \/ m = PUT -> b = (pre ++ suf)%string ->
    kept_part v m (TUpload l o) h b (with_uploads v (<[l := (r, (bs ++ pre)%string)]> (uploads v))).

(** What a failed exchange leaves behind. *)
Definition left_behind (v : content) (req : request) (v' : content) : Prop :=
  v' = v \/ (exists resp, handled v (r_method req) (r_target req) (r_header req) (r_body req) resp v')
  \/ kept_part v (r_method req) (r_target req) (r_header req) (r_body req) v'.

Definition refusal (resp : response) : Prop := success resp = false /\ status resp <> 404.

(** One exchange: answered, failed on the way there or back, or refused (by
    the registry or by a proxy before it). *)
Inductive oci_step (v : content) (req : request) : result response -> content -> Prop :=
| s_answered resp v' :
    handled v (r_method req) (r_target req) (r_header req) (r_body req) resp v' -> oci_step v req (Ok resp) v'
| s_failed e v' : IsErr e NotFoundCode = false -> left_behind v req v' -> oci_step v req (Err e) v'
| s_refused resp v' : refusal resp -> left_behind v req v' -> oci_step v req (Ok resp) v'.

(** A world with such a registry in it, reached through [send], and a client
    whose interceptors and authorizer leave it alone. *)
Class OciRegistry (St : Type) (send : request -> M St response) (see : St -> content) :=
  oci : forall req s out s', send req s = (out, s') -> oci_step (see s) req out (see s').

Definition quiet {St A} (see : St -> content) (m : M St A) : Prop :=
  forall s r s', m s = (r, s') -> see s' = see s /\ match r with Err e => IsErr e NotFoundCode = false | Ok _ => True end.

Record discreet {St} (see : St -> content) (c : client St) : Prop := mkDiscreet {
  quiet_interceptors : Forall (fun i => forall req, quiet see (i req)) (interceptors c);
  quiet_authorizer : match authorizer c with Some f => forall req, quiet see (f req) | None => True end }.

(** What a call of [do_] leaves: the specification with failures folded in. *)
Inductive done_ (v : content) (m : method) (t : target) (h : list (string * string)) (b : string)
  : result response -> content -> Prop :=
| d_ok resp v' : handled v m t h b resp v' -> success resp = true -> done_ v m t h b (Ok resp) v'
| d_missing resp v' : handled v m t h b resp v' -> status resp = 404 -> done_ v m t h b (Err (status_error resp)) v'
| d_err e v' : IsErr e NotFoundCode = false -> left_behind v (mkReq m t h b None) v' -> done_ v m t h b (Err e) v'.

(** ** How requests change the content *)

Definition same_meta (v v' : content) : Prop := manifests v' = manifests v /\ tags v' = tags v.

(** Only uploads have changed. *)
Definition uploads_only (v v' : content) : Prop := same_meta v v' /\ blobs v' = blobs v.

(** At most one blob has come, with the content its digest names or that of
    the same digest in another repository. *)
Definition may_add_blob (r d : string) (v v' : content) : Prop :=
  same_meta v v' /\
  (blobs v' = blobs v \/
   exists c, (FromBytes c = d \/ exists from, blobs v !! (from, d) = Some c) /\ blobs v' = <[(r, d) := c]> (blobs v)).

End Spec.

(** ** What each operation of the client returns and leaves *)

Section Ops.

Context `{DI : Distribution} `{DE : Decoders}.
Context {St : Type} {send : request -> M St response} {see : St -> content} `{OR : !OciRegistry St send see}.
Context (c : client St) (Hc : discreet see c).

Lemma quiet_iterM {A} (f : A -> M St unit) l : Forall (fun x => quiet see (f x)) l -> quiet see (iterM f l).
Proof.
  induction 1 as [|x l Hx Hl IH]; intros s r s' E; [by inversion E|].
  cbn in E. unfold bind in E. destruct (f x s) as [[u|e] s1] eqn:E1.
  - destruct (Hx _ _ _ E1) as [<- _]. by apply IH.
  - inversion E; subst. by apply (Hx _ _ _ E1).
Qed.

Lemma IsErr_status resp : IsErr (status_error resp) NotFoundCode = (status resp =? 404).
Proof.
  unfold status_error, status_code. cbn.
  destruct (Z.eqb_spec (status resp) 401) as [->|_]; [done|].
  destruct (Z.eqb_spec (status resp) 403) as [->|_]; [done|].
  destruct (Z.eqb_spec (status resp) 404); [done|].
  by destruct (status resp =? 429).
Qed.

Lemma success_bounds resp : (status resp <? 200) || (299 <? status resp) = negb (success resp).
Proof. unfold success. destruct (Z.ltb_spec (status resp) 200), (Z.ltb_spec 299 (status resp)),
  (Z.leb_spec 200 (status resp)), (Z.leb_spec (status resp) 299); done || lia. Qed.

Lemma authorize_spec m t h b s r s' : authorize c (NewRequest m t h b) s = (r, s') ->
  see s' = see s /\ match r with Ok req => exists a, req = mkReq m t h b a | Err e => IsErr e NotFoundCode = false end.
Proof.
  destruct Hc as [_ Ha]. unfold authorize. destruct (authorizer c) as [f|].
  - unfold bind. destruct (f _ s) as [[a|e] s1] eqn:E; intros [= <- <-];
      destruct (Ha _ _ _ _ E) as [-> He]; [|done]. split; [done|by exists a].
  - intros [= <- <-]. split; [done|by eexists].
Qed.

Lemma do_spec m t h b s r s' : do_ send c (NewRequest m t h b) s = (r, s') -> done_ (see s) m t h b r (see s').
Proof.
  unfold do_, bind. destruct (iterM _ _ s) as [[u|e] s1] eqn:E1;
    (destruct (quiet_iterM (fun i => i (NewRequest m t h b)) (interceptors c)
       (Forall_impl _ _ _ (quiet_interceptors _ _ Hc) (fun i H => H _)) _ _ _ E1) as [<- He]);
    [|intros [= <- <-]; apply d_err; [done|by left]].
  destruct (authorize c _ s1) as [[req|e] s2] eqn:E2; destruct (authorize_spec _ _ _ _ _ _ _ E2) as [<- Hr];
    [destruct Hr as [a ->]|intros [= <- <-]; apply d_err; [done|by left]].
  destruct (send _ s2) as [[resp|e] s3] eqn:E3; pose proof (oci _ _ _ _ E3) as Hs.
  - rewrite success_bounds. destruct (success resp) eqn:Es; intros [= <- <-].
    + inversion Hs as [? ? Hh|?|? ? [Hr _]]; subst; [by apply d_ok|]. by rewrite Hr in Es.
    + inversion Hs as [? ? Hh|?|? ? [_ Hr] Hl]; subst; cbn in *.
      * destruct (Z.eq_dec (status resp) 404); [by apply d_missing|].
        apply d_err; [rewrite IsErr_status; by apply Z.eqb_neq|]. right; left. by exists resp.
      * apply d_err; [rewrite IsErr_status; by apply Z.eqb_neq|done].
  - intros [= <- <-]. inversion Hs; subst. by apply d_err.
Qed.

End Ops.


(** Runs an operation of the client down to its exchanges. *)
Ltac exchange :=
  match goal with
  | H : context [do_ ?send ?c (NewRequest ?m ?t ?h ?b) ?s] |- _ =>
      let D := fresh "D" in let r := fresh "r" in let s' := fresh "s" in
      destruct (do_ send c (NewRequest m t h b) s) as [r s'] eqn:D;
      apply do_spec in D; [|done..]
  end.

Section Specs.

Context `{DI : Distribution} `{DE : Decoders}.
Context {St : Type} {send : request -> M St response} {see : St -> content} `{OR : !OciRegistry St send see}.
Context (c : client St) (Hc : discreet see c).

Lemma same_meta_refl v : same_meta v v.
Proof. done. Qed.

Lemma uploads_only_refl v : uploads_only v v.
Proof. done. Qed.

Lemma uploads_only_trans v1 v2 v3 : uploads_only v1 v2 -> uploads_only v2 v3 -> uploads_only v1 v3.
Proof. intros [[? ?] ?] [[? ?] ?]. repeat split; congruence. Qed.

Lemma may_add_refl r d v : may_add_blob r d v v.
Proof. split; [done|by left]. Qed.

Lemma may_add_uploads r d v1 v2 v3 : uploads_only v1 v2 -> may_add_blob r d v2 v3 -> may_add_blob r d v1 v3.
Proof.
  intros [[H1 H2] H3] [[H4 H5] H6]. split; [split; congruence|].
  destruct H6 as [H6|(x & Hx & H6)]; [left; congruence|right; exists x; rewrite <- H3; done].
Qed.

Lemma may_add_then_uploads r d v1 v2 v3 : may_add_blob r d v1 v2 -> uploads_only v2 v3 -> may_add_blob r d v1 v3.
Proof. intros [[H1 H2] H6] [[H3 H4] H5]. split; [split; congruence|]. by rewrite H5. Qed.

Lemma uploads_may_add r d v v' : uploads_only v v' -> may_add_blob r d v v'.
Proof. intros [? ?]. split; [done|by left]. Qed.

(** Reading leaves everything as it is. *)
Definition reads (m : method) (t : target) : bool :=
  match m, t with
  | GET, TUpload _ _ => false
  | GET, _ | HEAD, _ => true
  | _, _ => false
  end.

Lemma handled_reads v m t h b resp v' : reads m t = true -> handled v m t h b resp v' -> v' = v.
Proof. intros Hr H. inversion H; subst; try done; by destruct m. Qed.

Lemma done_reads v m t h b r v' : done_ v m t h b r v' -> reads m t = true -> v' = v.
Proof.
  intros H Hr. inversion H as [? ? Hh|? ? Hh|? ? _ Hl]; subst; [by eapply handled_reads..|].
  destruct Hl as [->|[[resp Hh]|Hk]]; [done|by eapply handled_reads|]. cbn in Hk.
  inversion Hk as [m' ? ? ? ? ? ? ? ? ? ? Hm]; subst. by destruct Hm as [-> | ->].
Qed.

(** An upload request changes uploads, and may finish the blob it names. *)
Lemma handled_upload v m l o h b resp v' :
  handled v m (TUpload l o) h b resp v' ->
  uploads_only v v' \/ exists r bs d, uploads v !! l = Some (r, bs) /\ o = Some d /\ may_add_blob r d v v'
     /\ is_Some (blobs v' !! (r, d)).
Proof.
  intros H. inversion H; subst; try (left; done). right. do 3 eexists. split; [done|]. split; [done|]. split.
  - split; [done|]. right. eexists. split; [by left|done].
  - cbn. rewrite lookup_insert_eq. by eexists.
Qed.

(** No upload is at the empty location, and the upload at a location, if
    there is one, is in a repository. *)
Definition named (v : content) : Prop := uploads v !! "" = None.
Definition upload_in (v : content) (r l : string) : Prop := forall r' bs, uploads v !! l = Some (r', bs) -> r' = r.

Lemma handled_initiate v r h b resp v' :
  handled v POST (TInitiate r) h b resp v' ->
  uploads_only v v' /\ exists l, fresh_location v l /\ Get (header resp) "Location" = l /\
    v' = with_uploads v (<[l := (r, "")]> (uploads v)).
Proof. intros H. inversion H; subst. split; [done|]. by eexists. Qed.

Lemma initiate_named v l x : fresh_location v l -> named v -> named (with_uploads v (<[l := x]> (uploads v))).
Proof. intros (_ & _ & Hl) Hn. unfold named. cbn. by rewrite lookup_insert_ne. Qed.

Lemma new_upload_in v l r l' :
  upload_in v r l' -> upload_in (with_uploads v (<[l := (r, "")]> (uploads v))) r l'.
Proof. intros Hu r' bs. cbn. intros [[_ [= <- <-]]|[_ Hx]]%lookup_insert_Some; [done|by eapply Hu]. Qed.

Lemma left_initiate v r h b v' : left_behind v (mkReq POST (TInitiate r) h b None) v' ->
  uploads_only v v' /\ (named v -> named v') /\ (forall l, upload_in v r l -> upload_in v' r l).
Proof.
  intros [->|[[resp Hh]|Hk]]; [done| |]; cbn in *; [|inversion Hk].
  apply handled_initiate in Hh as (? & l & Hl & _ & ->).
  split_and!; [done|by apply initiate_named|intros l2; apply new_upload_in].
Qed.

Lemma initiate_spec r s out s' : initiateBlobUpload send c r s = (out, s') ->
  uploads_only (see s) (see s') /\ (named (see s) -> named (see s')) /\
  (forall l, upload_in (see s) r l -> upload_in (see s') r l) /\
  match out with
  | Ok (l, _) => fresh_location (see s) l /\ see s' = with_uploads (see s) (<[l := (r, "")]> (uploads (see s)))
  | Err e => IsErr e NotFoundCode = false
  end.
Proof.
  unfold initiateBlobUpload, bind. intros E. exchange.
  inversion D as [resp v' Hh Hs|resp v' Hh Hs|e v' He Hl]; subst.
  - injection E as <- <-. apply handled_initiate in Hh as (Hu & l & Hf & <- & Hv).
    split_and!; [done| | |done..]; rewrite Hv; [by apply initiate_named|intros l2; apply new_upload_in].
  - injection E as <- <-. exfalso. inversion Hh; subst. cbn in Hs. lia.
  - injection E as <- <-. by apply left_initiate in Hl as (? & ? & ?).
Qed.

Lemma BlobExist_spec r d s out s' : BlobExist send c r d s = (out, s') ->
  see s' = see s /\
  match out with
  | Ok true => is_Some (blobs (see s) !! (r, d))
  | Ok false => blobs (see s) !! (r, d) = None
  | Err e => IsErr e NotFoundCode = false
  end.
Proof.
  unfold BlobExist, bind, try. intros E. exchange.
  assert (see s0 = see s) as Hv by exact (done_reads _ _ _ _ _ _ _ D eq_refl).
  inversion D as [resp v' Hh Hs|resp v' Hh Hs|e v' He Hl]; subst.
  - injection E as <- <-. split; [done|]. inversion Hh; subst; [by eexists|done].
  - rewrite IsErr_status, Hs in E. injection E as <- <-. split; [done|]. by inversion Hh; subst.
  - rewrite He in E. injection E as <- <-. done.
Qed.

Lemma ManifestExist_spec r ref s out s' : ManifestExist send c r ref s = (out, s') ->
  see s' = see s /\
  match out with
  | Ok (true, Some d) => exists mt p, resolve (see s) r ref = Some (d_Digest d, (mt, p))
  | Ok (true, None) => False
  | Ok (false, _) => resolve (see s) r ref = None
  | Err e => IsErr e NotFoundCode = false
  end.
Proof.
  unfold ManifestExist, bind, try. intros E. exchange.
  assert (see s0 = see s) as Hv by exact (done_reads _ _ _ _ _ _ _ D eq_refl).
  inversion D as [resp v' Hh Hs|resp v' Hh Hs|e v' He Hl]; subst.
  - injection E as <- <-. split; [done|]. inversion Hh; subst; [|done]. cbn. eauto.
  - rewrite IsErr_status, Hs in E. injection E as <- <-. split; [done|]. by inversion Hh; subst.
  - rewrite He in E. injection E as <- <-. done.
Qed.

Lemma PullManifest_spec r ref mts s out s' : PullManifest send c r ref mts s = (out, s') ->
  see s' = see s /\
  match out with
  | Ok (m, d) => exists mt p, resolve (see s) r ref = Some (d, (mt, p)) /\ UnmarshalManifest mt p = Ok m
  | Err _ => True
  end.
Proof.
  unfold PullManifest, bind, of_result. intros E. exchange.
  assert (see s0 = see s) as Hv by exact (done_reads _ _ _ _ _ _ _ D eq_refl).
  inversion D as [resp v' Hh Hs|resp v' Hh Hs|e v' He Hl]; subst; [|by injection E as <- <-..].
  destruct (UnmarshalManifest _ _) as [m|e] eqn:Eu; injection E as <- <-; [|done].
  split; [done|]. inversion Hh; subst; [|done]. cbn in *. eauto.
Qed.

Lemma handled_put_manifest v r ref mt p resp v' :
  handled v PUT (TManifest r ref) [("Content-Type", mt)] p resp v' ->
  (status resp = 201 /\ (is_digest ref = true -> ref = FromBytes p) /\ v' = put_manifest v r ref mt p)
  \/ (status resp = 400 /\ v' = v).
Proof.
  intros H. inversion H as [| | | | | | | |? ? ? ? ? ? ? ? Hm| | | | | | | | | | | | | | | |]; subst; [|by left|by right].
  by destruct Hm as [|[|]].
Qed.

Lemma PushManifest_spec r ref mt p s out s' : PushManifest send c r ref mt p s = (out, s') ->
  match out with
  | Ok d => (is_digest ref = true -> ref = FromBytes p) /\ see s' = put_manifest (see s) r ref mt p
  | Err _ => see s' = see s \/ see s' = put_manifest (see s) r ref mt p
  end.
Proof.
  unfold PushManifest, bind. intros E. exchange.
  inversion D as [resp v' Hh Hs|resp v' Hh Hs|e v' He Hl]; subst; injection E as <- <-.
  - apply handled_put_manifest in Hh as [(_ & ? & ?)|[Hb _]]; [done|]. unfold success in Hs. by rewrite Hb in Hs.
  - apply handled_put_manifest in Hh as [(Hb & _)|[Hb _]]; lia.
  - destruct Hl as [->|[[resp Hh]|Hk]]; [by left| |inversion Hk].
    apply handled_put_manifest in Hh as [(_ & _ & ->)|[_ ->]]; [by right|by left].
Qed.

Lemma MountBlob_spec from d r s out s' : MountBlob send c from d r s = (out, s') ->
  may_add_blob r d (see s) (see s') /\ (named (see s) -> named (see s')) /\
  (forall l, upload_in (see s) r l -> upload_in (see s') r l) /\
  (is_Some (blobs (see s) !! (from, d)) -> is_ok out = true -> is_Some (blobs (see s') !! (r, d))).
Proof.
  unfold MountBlob, bind. intros E. exchange.
  assert (forall resp v', handled (see s) POST (TMount r d from) [("Content-Length", "0")] "" resp v' ->
    may_add_blob r d (see s) v' /\ (named (see s) -> named v') /\
    (forall l, upload_in (see s) r l -> upload_in v' r l) /\
    (is_Some (blobs (see s) !! (from, d)) -> is_Some (blobs v' !! (r, d)))) as Hb.
  { intros resp v' Hh. inversion Hh; subst.
    - split_and!; [split; [done|]; right; eexists; split; [right; by eexists|done]|done|done|].
      cbn. rewrite lookup_insert_eq. by eexists.
    - split_and!; [by apply uploads_may_add|by apply initiate_named|intros l; apply new_upload_in|].
      intros [x Hx]. congruence. }
  inversion D as [resp v' Hh Hs|resp v' Hh Hs|e v' He Hl]; subst; injection E as <- <-.
  - apply Hb in Hh as (? & ? & ? & Hi). split_and!; [done..|]. intros Hf _. by apply Hi.
  - by apply Hb in Hh as (? & ? & ? & _).
  - destruct Hl as [->|[[resp Hh]|Hk]];
      [split; [apply may_add_refl|done]|by apply Hb in Hh as (? & ? & ? & _)|inversion Hk].
Qed.

Lemma PullBlob_spec r d s out s' : PullBlob send c r d s = (out, s') ->
  see s' = see s /\
  match out with Ok (_, x) => blobs (see s) !! (r, d) = Some x | Err _ => True end.
Proof.
  unfold PullBlob, bind, of_result. intros E. exchange.
  assert (see s0 = see s) as Hv by exact (done_reads _ _ _ _ _ _ _ D eq_refl).
  inversion D as [resp v' Hh Hs|resp v' Hh Hs|e v' He Hl]; subst; [|by injection E as <- <-..].
  destruct (content_length resp); injection E as <- <-; [|done]. split; [done|].
  by inversion Hh; subst.
Qed.

(** *** Chunks *)

Lemma move_named v l l' u x : uploads v !! l = Some u -> next_location v l l' -> named v -> named (move_upload v l l' x).
Proof.
  unfold named. intros Hl Hx Hn.
  assert (l' <> "") by (destruct Hx as [-> | (_ & _ & ?)]; congruence).
  cbn. rewrite lookup_insert_ne by done. apply lookup_delete_None. by right.
Qed.

Lemma move_upload_in v l l' r bs x r' l2 :
  uploads v !! l = Some (r, bs) -> upload_in v r' l -> upload_in v r' l2 -> upload_in (move_upload v l l' (r, x)) r' l2.
Proof.
  intros Hl Hu Hu2 r1 b1. cbn.
  intros [[_ [= <- <-]]|[_ [_ Hx]%lookup_delete_Some]]%lookup_insert_Some; [by eapply Hu|by eapply Hu2].
Qed.

(** Where an upload request can leave the upload it is for. *)
Lemma handled_upload_named v m l o h b resp v' :
  handled v m (TUpload l o) h b resp v' -> named v -> named v'.
Proof.
  intros H Hn. inversion H; subst; try done; try by eapply move_named. apply lookup_delete_None. by right.
Qed.

Lemma handled_upload_in v m l o h b resp v' r l2 :
  handled v m (TUpload l o) h b resp v' -> upload_in v r l -> upload_in v r l2 -> upload_in v' r l2.
Proof.
  intros H Hu Hu2. inversion H; subst; try done; try by eapply move_upload_in.
  intros r' bs'. cbn. intros [_ Hx]%lookup_delete_Some. by eapply Hu2.
Qed.

Lemma upload_step v m l o h b r d out v' :
  done_ v m (TUpload l o) h b out v' -> (forall d', o = Some d' -> d' = d) -> named v -> upload_in v r l ->
  may_add_blob r d v v' /\ named v' /\ (forall l2, upload_in v r l2 -> upload_in v' r l2).
Proof.
  intros H Ho Hn Hu.
  assert (forall resp v', handled v m (TUpload l o) h b resp v' ->
    may_add_blob r d v v' /\ named v' /\ (forall l2, upload_in v r l2 -> upload_in v' r l2)) as Hb.
  { intros resp w Hh. split_and!; [|by eapply handled_upload_named|by intros; eapply handled_upload_in].
    apply handled_upload in Hh as [?|(r' & bs & d' & Hl & -> & Hm & _)]; [by apply uploads_may_add|].
    rewrite <- (Ho d' eq_refl). by rewrite <- (Hu r' bs Hl). }
  inversion H as [resp w Hh _|resp w Hh _|e w _ Hl]; subst; [by eapply Hb..|].
  destruct Hl as [->|[[resp Hh]|Hk]]; [split; [apply may_add_refl|done]|by eapply Hb|].
  cbn in Hk. inversion Hk; subst. split_and!; [by apply uploads_may_add| |].
  - unfold named. cbn. rewrite lookup_insert_ne; [done|]. intros ->. unfold named in Hn. congruence.
  - intros l2 Hu2 r' bs'. cbn. intros [[_ [= <- <-]]|[_ Hx]]%lookup_insert_Some; eauto.
Qed.

Lemma finished v l r d h b out v' :
  done_ v PUT (TUpload l (Some d)) h b out v' -> upload_in v r l -> is_ok out = true -> is_Some (blobs v' !! (r, d)).
Proof.
  intros H Hu Ho. inversion H as [resp w Hh Hs| |]; subst; [|done..].
  inversion Hh; subst; try done.
  - cbn. match goal with Hl : uploads _ !! _ = Some _ |- _ => rewrite (Hu _ _ Hl) end. rewrite lookup_insert_eq. by eexists.
  - unfold success, client_error in *. cbn in Hs. lia.
Qed.

Lemma PushBlob_spec r d size data s out s' : PushBlob send c r d size data s = (out, s') -> named (see s) ->
  may_add_blob r d (see s) (see s') /\ named (see s') /\
  (forall l, upload_in (see s) r l -> upload_in (see s') r l) /\
  (is_ok out = true -> is_Some (blobs (see s') !! (r, d))).
Proof.
  unfold PushBlob, monolithicBlobUpload, bind, of_result. intros E Hn.
  destruct (initiateBlobUpload send c r s) as [[[l u]|e] s1] eqn:Ei; apply initiate_spec in Ei as (Hu & Hn1 & Hk1 & Hi).
  2: { injection E as <- <-. split_and!; [by apply uploads_may_add|by apply Hn1|done|done]. }
  cbn in E. unfold buildMonolithicBlobUploadURL in E. destruct Hi as ((_ & Hok & _) & Hv). rewrite Hok in E.
  assert (upload_in (see s1) r l) as Hin.
  { rewrite Hv. intros r' bs. cbn. rewrite lookup_insert_eq. by intros [= <- <-]. }
  destruct (do_ _ _ _ s1) as [o s2] eqn:D. apply do_spec in D; [|done..].
  destruct (upload_step _ _ _ _ _ _ r d _ _ D) as (Hm & Hn2 & Hk2); [congruence|by apply Hn1|done|].
  pose proof (finished _ _ _ _ _ _ _ _ D Hin) as Hf.
  destruct o; injection E as <- <-; (split_and!; [by eapply may_add_uploads|done|auto|done]).
Qed.

(** The upload moved by a [PATCH] or by a query of its progress is where the
    answer says. *)
Lemma moved_upload_in v m l o h b resp v' r :
  handled v m (TUpload l o) h b resp v' -> m = PATCH \/ m = GET -> success resp = true -> upload_in v r l ->
  upload_in v' r (Get (header resp) "Location").
Proof.
  intros H Hm Hs Hu. inversion H; subst; try (destruct Hm; done).
  - intros r' bs'. cbn. rewrite lookup_insert_eq. intros [= <- <-]. eauto.
  - exfalso. unfold success, client_error in *. cbn in Hs. lia.
  - intros r' bs'. cbn. rewrite lookup_insert_eq. intros [= <- <-]. eauto.
Qed.

Lemma handled_status v l o h b resp v' : handled v GET (TUpload l o) h b resp v' ->
  uploads_only v v' /\
  (success resp = true -> exists r bs, uploads v !! l = Some (r, bs) /\
     next_location v l (Get (header resp) "Location") /\
     v' = move_upload v l (Get (header resp) "Location") (r, bs) /\
     Get (header resp) "Range" = content_range 0 (Z.max 0 (len bs - 1))).
Proof.
  intros H. inversion H as [| | | | | | | | | | | | | | | | |? ? ? ? ? ? ? ? ? ? ? ? ? Hm| | | | | | |]; subst;
    [by destruct Hm| |done]. split; [done|]. intros _. by do 2 eexists.
Qed.

Lemma left_status v l o h b v' : left_behind v (mkReq GET (TUpload l o) h b None) v' -> uploads_only v v'.
Proof.
  intros [->|[[resp Hh]|Hk]]; [done|by apply handled_status in Hh as [? _]|].
  inversion Hk as [? ? ? ? ? ? ? ? ? ? ? Hm]; subst. by destruct Hm.
Qed.

Lemma getUploadStatus_spec l o r s out s' :
  getUploadStatus send c (TUpload l o) s = (out, s') -> named (see s) -> upload_in (see s) r l ->
  uploads_only (see s) (see s') /\ named (see s') /\ upload_in (see s') r l /\
  match out with Ok (l', e) => upload_in (see s') r l' | Err _ => True end.
Proof.
  intros E Hn Hu. unfold getUploadStatus, bind, of_result in E. exchange.
  assert (forall resp v', handled (see s) GET (TUpload l o) [] "" resp v' ->
    uploads_only (see s) v' /\ named v' /\ upload_in v' r l) as Hb.
  { intros resp v' Hh. split_and!; [by apply handled_status in Hh as [? _]|by eapply handled_upload_named|
      by eapply handled_upload_in]. }
  inversion D as [resp w Hh Hs|resp w Hh _|e w _ Hl]; subst.
  - apply Hb in Hh as Hx. destruct Hx as (? & ? & ?).
    destruct (parseContentRange _) as [x|]; injection E as <- <-; [|done]. split_and!; [done..|].
    eapply moved_upload_in; [exact Hh|by right|done|done].
  - apply Hb in Hh as (? & ? & ?). by injection E as <- <-.
  - injection E as <- <-. destruct Hl as [->|[[resp Hh]|Hk]]; [done|by apply Hb in Hh as (? & ? & ?)|].
    inversion Hk as [? ? ? ? ? ? ? ? ? ? ? Hm]; subst. by destruct Hm.
Qed.

(** A request for an upload that is not there changes nothing and fails. *)
Lemma no_upload_step v m l o h b out v' :
  uploads v !! l = None -> done_ v m (TUpload l o) h b out v' -> v' = v /\ is_ok out = false.
Proof.
  intros Hl H. assert (forall resp w, handled v m (TUpload l o) h b resp w -> w = v /\ success resp = false) as Hb.
  { intros resp w Hh. inversion Hh; subst; congruence || done. }
  inversion H as [resp w Hh Hs|resp w Hh _|e w _ Hlb]; subst.
  - apply Hb in Hh as [_ Hf]. congruence.
  - by apply Hb in Hh as [-> _].
  - split; [|done]. destruct Hlb as [->|[[resp Hh]|Hk]]; [done|by apply Hb in Hh as [-> _]|].
    inversion Hk; subst. congruence.
Qed.

Lemma push_chunk_nowhere d size chunk start end_ l s out s' :
  uploads (see s) !! l = None ->
  push_chunk_to send c d size chunk start end_ l s = (out, s') ->
  see s' = see s /\ exists e err, out = Ok (l, e, Some err) /\ (e = end_ \/ e = Int64.wrap (start - 1)).
Proof.
  intros Hl E. unfold push_chunk_to, buildChunkBlobUploadURL in E.
  destruct (location_ok l); [|injection E as <- <-; split; [done|]; do 2 eexists; split; [done|by left]].
  unfold bind, try, getUploadStatus in E. exchange. apply no_upload_step in D as [Hv Hf]; [|done].
  destruct r as [|e]; [done|]. unfold bind in E. exchange.
  apply no_upload_step in D as [Hv' Hf']; [|by rewrite Hv]. destruct r as [|e1]; [done|].
  injection E as <- <-. split; [congruence|]. do 2 eexists. split; [done|by right].
Qed.

Lemma push_chunk_coarse r d size chunk start end_ l s out s' :
  push_chunk_to send c d size chunk start end_ l s = (out, s') ->
  named (see s) -> upload_in (see s) r l ->
  may_add_blob r d (see s) (see s') /\ named (see s') /\
  exists l' e oe, out = Ok (l', e, oe) /\
    (upload_in (see s') r l' \/ (oe = None /\ end_ = Int64.wrap (size - 1))) /\
    (oe = None -> end_ = Int64.wrap (size - 1) -> is_Some (blobs (see s') !! (r, d))).
Proof.
  intros E Hn Hu. unfold push_chunk_to, buildChunkBlobUploadURL in E.
  destruct (location_ok l).
  2: { injection E as <- <-. split_and!; [apply may_add_refl|done|]. do 3 eexists. split_and!; [done|by left|done]. }
  unfold bind, try in E. exchange.
  destruct (upload_step _ _ _ _ _ _ r d _ _ D) as (Hm & Hn' & Hu'); [|exact Hn|exact Hu|].
  { intros d' Hd. destruct (end_ =? _); congruence. }
  destruct r0 as [resp|e].
  - injection E as <- <-. split_and!; [exact Hm|done|]. do 3 eexists. split; [done|].
    inversion D as [resp' w Hh Hs| |]; subst.
    destruct (end_ =? Int64.wrap (size - 1)) eqn:He; [apply Z.eqb_eq in He|apply Z.eqb_neq in He].
    + split; [by right|]. intros _ _. by eapply finished.
    + split; [|done]. left. eapply moved_upload_in; [exact Hh|by left|done|done].
  - destruct (getUploadStatus _ _ _ s0) as [st s1] eqn:Eg.
    apply (getUploadStatus_spec _ _ r) in Eg as (Ho & Hn1 & Hu1 & Hst); [|done|by apply Hu'].
    split; [|split]; [|by destruct st as [[? ?]|]; injection E as <- <-|].
    + eapply may_add_then_uploads; [exact Hm|]. by destruct st as [[? ?]|]; injection E as <- <-.
    + destruct st as [[? ?]|]; injection E as <- <-; do 3 eexists; (split; [done|]); (split; [by left|done]).
Qed.

Lemma PushBlobChunk_coarse r d size chunk start end_ l s out s' :
  PushBlobChunk send c r d size chunk start end_ l s = (out, s') ->
  named (see s) -> start = 0 \/ upload_in (see s) r l ->
  may_add_blob r d (see s) (see s') /\ named (see s') /\
  exists l' e oe, out = Ok (l', e, oe) /\
    (upload_in (see s') r l' \/ (oe = None /\ end_ = Int64.wrap (size - 1))) /\
    (oe = None -> end_ = Int64.wrap (size - 1) -> is_Some (blobs (see s') !! (r, d))).
Proof.
  intros E Hn Hu. unfold PushBlobChunk, bind, try in E.
  destruct (Z.eqb_spec start 0) as [Hs|Hs].
  - destruct (initiateBlobUpload send c r s) as [[[l1 u]|e] s1] eqn:Ei; apply initiate_spec in Ei as (Ho & Hn1 & _ & Hi).
    + cbn in E. destruct Hi as (_ & Hv). eapply push_chunk_coarse in E as (Hm & ? & Hx); [|by apply Hn1|].
      * split; [by eapply may_add_uploads|done].
      * rewrite Hv. intros r' bs. cbn. rewrite lookup_insert_eq. by intros [= <- <-].
    + cbn in E. injection E as <- <-. split_and!; [by apply uploads_may_add|by apply Hn1|].
      do 3 eexists. split_and!; [done| |done]. left. intros r' bs Hx. apply Hn1 in Hn. unfold named in Hn. congruence.
  - destruct Hu as [?|Hu]; [done|]. by eapply push_chunk_coarse in E.
Qed.

(** *** Deleting *)

(** The digest a reference stands for. *)
Definition digest_of (v : content) (r ref d : string) : Prop :=
  if is_digest ref then d = ref else exists m, resolve v r ref = Some (d, m).

Lemma delete_step r d s out s' :
  do_ send c (NewRequest DELETE (TManifest r d) [] "") s = (out, s') ->
  (is_ok out = true -> see s' = delete_manifest (see s) r d) /\ (see s' = see s \/ see s' = delete_manifest (see s) r d).
Proof.
  intros D. apply do_spec in D; [|done..].
  assert (forall resp v', handled (see s) DELETE (TManifest r d) [] "" resp v' ->
    (status resp = 404 /\ v' = see s) \/ v' = delete_manifest (see s) r d) as Hb.
  { intros resp v' Hh. inversion Hh; subst; [by left|by right]. }
  inversion D as [resp w Hh Hs|resp w Hh Hs|e w _ Hl]; subst.
  - apply Hb in Hh as [[Hf _]| ->]; [|split; [done|by right]]. unfold success in Hs. by rewrite Hf in Hs.
  - apply Hb in Hh as [[_ ->]| ->]; (split; [done|auto]).
  - split; [done|]. destruct Hl as [->|[[resp Hh]|Hk]]; [by left|apply Hb in Hh as [[_ ->]| ->]; auto|inversion Hk].
Qed.

Lemma DeleteManifest_spec r ref s out s' : DeleteManifest send c r ref s = (out, s') ->
  (is_ok out = true -> exists d, digest_of (see s) r ref d /\ see s' = delete_manifest (see s) r d) /\
  (see s' = see s \/ exists d, digest_of (see s) r ref d /\ see s' = delete_manifest (see s) r d).
Proof.
  unfold DeleteManifest, digest_of. intros E. unfold bind in E. destruct (is_digest ref) eqn:Hd.
  - cbn in E. destruct (do_ _ _ _ s) as [o s1] eqn:D. apply delete_step in D as [H1 H2].
    destruct o; injection E as <- <-; (split; [intros Ho; first [done | eauto]|destruct H2 as [H2|H2]; eauto]).
  - destruct (ManifestExist send c r ref s) as [o s1] eqn:Em. apply ManifestExist_spec in Em as [Hv Hm].
    destruct o as [[[] [desc|]]|e]; try (injection E as <- <-; split; [done|by left]).
    cbn in E. destruct (do_ _ _ _ s1) as [o s2] eqn:D. apply delete_step in D as [H1 H2]. rewrite Hv in H1, H2.
    destruct Hm as (mt & p & Hm).
    destruct o; injection E as <- <-; (split; [intros Ho; first [done | eauto]|destruct H2 as [H2|H2]; eauto]).
Qed.

(** *** Surprises *)

(** A registry that has no blob to mount starts an upload instead and answers
    202; the client takes that for a mount that succeeded. *)
Theorem unmounted_is_reported_mounted from d r s s' :
  blobs (see s) !! (from, d) = None -> MountBlob send c from d r s = (Ok tt, s') -> blobs (see s') = blobs (see s).
Proof.
  intros Hb. unfold MountBlob, bind. intros E. exchange. destruct r0 as [resp|]; [|done]. injection E as <-.
  inversion D as [resp' v' Hh Hs| |]; subst. inversion Hh; subst; [congruence|done].
Qed.

(** In read-only mode a request that writes fails before it is sent. *)
Theorem read_only_blocks_writes ro rest a m t h b s :
  interceptors c = Intercept ro :: rest -> authorizer c = a -> m <> GET -> m <> HEAD ->
  (ro s).1 = Ok true ->
  do_ send c (NewRequest m t h b) s = (Err ReadOnlyErr, (ro s).2).
Proof.
  intros Hi _ H1 H2 Hr. unfold do_, bind. rewrite Hi. cbn. unfold bind, Intercept. cbn.
  destruct m; try done; unfold bind; destruct (ro s) as [o s1]; cbn in Hr; subst o; done.
Qed.

End Specs.

(** ** A registry in memory *)

Module MemRegistry.

(** How an exchange goes: through, unanswered, answered without the answer
    coming back, refused, or broken off after some bytes. *)
Inductive fault := Pass | Down | Lost | Refused | Broken (n : nat).

Record mem := mkMem { seen : content; faults : list fault }.

Section Answer.

Context `{DI : Distribution} `{DE : Decoders}.

(** The bytes a [Range] names. *)
Definition range_of (s : string) : option (Z * Z) :=
  match parseContentRange (GoStrings.TrimPrefix s "bytes=") with Ok p => Some p | Err _ => None end.

Definition new_location (v : content) : string := fresh_string "upload" (<["" := ("", "")]> (uploads v)).

Definition misplaced (h : list (string * string)) (bs : string) : bool :=
  let cr := Get h "Content-Range" in
  negb (cr =s= "") &&
  match parseContentRange cr with Ok (x, y) => negb ((x =? len bs) && (cr =s= content_range x y)) | Err _ => true end.

Definition answer (v : content) (req : request) : response * content :=
  let missing := (mkResp 404 [] "", v) in
  match r_method req, r_target req with
  | HEAD, TBlob r d => match blobs v !! (r, d) with Some _ => (mkResp 200 [] "", v) | None => missing end
  | GET, TBlob r d =>
      match blobs v !! (r, d) with
      | None => missing
      | Some x =>
          if Get (r_header req) "Range" =s= "" then (mkResp 200 [] x, v)
          else match range_of (Get (r_header req) "Range") with
               | Some (i, j) => if (0 <=? i) && (i <=? j) && (j <? len x) && (Get (r_header req) "Range" =s= range_header i j)
                                then (mkResp 206 [] (slice x i j), v)
                                else (mkResp 416 [] "", v)
               | None => (mkResp 416 [] "", v)
               end
      end
  | DELETE, TBlob r d =>
      match blobs v !! (r, d) with
      | Some _ => (mkResp 202 [] "", with_blobs v (base.delete (r, d) (blobs v)))
      | None => missing
      end
  | HEAD, TManifest r ref =>
      match resolve v r ref with
      | Some (d, (mt, _)) => (mkResp 200 [("Docker-Content-Digest", d); ("Content-Type", mt)] "", v)
      | None => missing
      end
  | GET, TManifest r ref =>
      match resolve v r ref with
      | Some (d, (mt, p)) => (mkResp 200 [("Docker-Content-Digest", d); ("Content-Type", mt)] p, v)
      | None => missing
      end
  | PUT, TManifest r ref =>
      let p := r_body req in
      if is_digest ref && negb (ref =s= FromBytes p) then (mkResp 400 [] "", v)
      else (mkResp 201 [("Docker-Content-Digest", FromBytes p)] "",
            put_manifest v r ref (Get (r_header req) "Content-Type") p)
  | DELETE, TManifest r d =>
      match resolve v r d with
      | Some _ => if is_digest d then (mkResp 202 [] "", delete_manifest v r d) else (mkResp 405 [] "", v)
      | None => missing
      end
  | POST, TMount r d from =>
      match blobs v !! (from, d) with
      | Some x => (mkResp 201 [] "", with_blobs v (<[(r, d) := x]> (blobs v)))
      | None => (mkResp 202 [("Location", new_location v)] "",
                 with_uploads v (<[new_location v := (r, "")]> (uploads v)))
      end
  | POST, TInitiate r =>
      (mkResp 202 [("Location", new_location v)] "", with_uploads v (<[new_location v := (r, "")]> (uploads v)))
  | PATCH, TUpload l None =>
      match uploads v !! l with
      | None => missing
      | Some (r, bs) =>
          if misplaced (r_header req) bs then (mkResp 416 [] "", v)
          else (mkResp 202 [("Location", l)] "", move_upload v l l (r, (bs ++ r_body req)%string))
      end
  | PUT, TUpload l (Some d) =>
      match uploads v !! l with
      | None => missing
      | Some (r, bs) =>
          let x := (bs ++ r_body req)%string in
          if misplaced (r_header req) bs then (mkResp 416 [] "", v)
          else if FromBytes x =s= d
          then (mkResp 201 [] "", with_uploads (with_blobs v (<[(r, d) := x]> (blobs v))) (base.delete l (uploads v)))
          else (mkResp 400 [] "", v)
      end
  | GET, TUpload l o =>
      match uploads v !! l with
      | None => missing
      | Some (r, bs) =>
          (mkResp 204 [("Location", l); ("Range", content_range 0 (Z.max 0 (len bs - 1)))] "", move_upload v l l (r, bs))
      end
  | GET, TPing | GET, TCatalog | GET, TTagList _ | GET, TPage _ | GET, TReferrers _ _ _ => (mkResp 200 [] "", v)
  | _, _ => (mkResp 405 [] "", v)
  end.

(** The part of a broken upload request that is kept. *)
Definition keep (v : content) (req : request) (n : nat) : content :=
  match r_method req, r_target req with
  | PATCH, TUpload l _ | PUT, TUpload l _ =>
      match uploads v !! l with
      | Some (r, bs) =>
          if misplaced (r_header req) bs then v
          else with_uploads v (<[l := (r, (bs ++ String.substring 0 n (r_body req))%string)]> (uploads v))
      | None => v
      end
  | _, _ => v
  end.

Definition Timeout : error := Plain "i/o timeout".

Definition mem_send (req : request) : M mem response := fun s =>
  let fs := tail (faults s) in
  match default Pass (head (faults s)) with
  | Pass => let '(resp, v) := answer (seen s) req in (Ok resp, mkMem v fs)
  | Down => (Err Timeout, mkMem (seen s) fs)
  | Lost => (Err Timeout, mkMem (answer (seen s) req).2 fs)
  | Refused => (Ok (mkResp 503 [] ""), mkMem (seen s) fs)
  | Broken n => (Err Timeout, mkMem (keep (seen s) req n) fs)
  end.

Lemma not_misplaced h bs : misplaced h bs = false -> in_place h bs.
Proof.
  unfold misplaced, in_place. destruct (String.eqb_spec (Get h "Content-Range") "") as [->|_]; [by left|].
  cbn. destruct (parseContentRange _) as [[x y]|]; [|done]. intros H. apply negb_false_iff, andb_true_iff in H as [H1 H2].
  apply Z.eqb_eq in H1. apply String.eqb_eq in H2. right. exists y. congruence.
Qed.

Lemma new_location_fresh v : (forall l, location_ok l = true) -> fresh_location v (new_location v).
Proof.
  intros Hok. pose proof (fresh_string_fresh (<["" := ("", "")]> (uploads v)) "upload") as Hf.
  apply lookup_insert_None in Hf as [Hf Hne]. split_and!; [exact Hf|done|]. intros E. by apply Hne.
Qed.

(** Every answer is one the specification allows, or a refusal. *)
Definition allowed (v : content) (req : request) (a : response * content) : Prop :=
  handled v (r_method req) (r_target req) (r_header req) (r_body req) a.1 a.2 \/ (refusal a.1 /\ a.2 = v).

Lemma answer_blob v m r d h b a : allowed v (mkReq m (TBlob r d) h b a) (answer v (mkReq m (TBlob r d) h b a)).
Proof.
  unfold answer; cbn. destruct m; try (right; done).
  all: destruct (blobs v !! (r, d)) as [x|] eqn:Hb; [|left; by constructor].
  - destruct (String.eqb_spec (Get h "Range") "") as [Hr|Hr].
    { left. apply (h_get_blob _ _ _ x); [done..|by left]. }
    destruct (range_of _) as [[i j]|] eqn:Er; [|right; done].
    destruct (_ && _) eqn:Ec; [|right; done]. left.
    rewrite !andb_true_iff, !Z.leb_le, Z.ltb_lt, String.eqb_eq in Ec. destruct Ec as [[[? ?] ?] ?].
    apply (h_get_range _ _ _ x); [done..|by left].
  - left. by apply (h_blob _ _ _ x).
  - left. by apply (h_delete_blob _ _ _ x).
Qed.

Lemma answer_manifest v m r ref h b a :
  allowed v (mkReq m (TManifest r ref) h b a) (answer v (mkReq m (TManifest r ref) h b a)).
Proof.
  unfold answer; cbn. destruct m; try (right; done).
  - destruct (resolve v r ref) as [[d [mt p]]|] eqn:Er; left; [by eapply h_get_manifest|apply h_no_manifest; auto].
  - destruct (resolve v r ref) as [[d [mt p]]|] eqn:Er; left; [by eapply h_manifest|apply h_no_manifest; auto].
  - destruct (is_digest ref) eqn:Hd; cbn.
    + destruct (String.eqb_spec ref (FromBytes b)); cbn; [left; by apply h_put_manifest|right; done].
    + left. apply h_put_manifest; [done| |done]. by rewrite Hd.
  - destruct (resolve v r ref) as [x|] eqn:Er; [|left; apply h_no_manifest; auto].
    destruct (is_digest ref) eqn:Hd; [|right; done]. left.
    unfold resolve in Er. rewrite Hd in Er. cbn in Er.
    destruct (manifests v !! (r, ref)) as [y|] eqn:Hm; [|done]. by apply (h_delete_manifest _ _ _ y).
Qed.

Lemma answer_upload v m l o h b a :
  allowed v (mkReq m (TUpload l o) h b a) (answer v (mkReq m (TUpload l o) h b a)).
Proof.
  unfold answer; cbn. destruct m; try (right; done).
  - destruct (uploads v !! l) as [[r bs]|] eqn:Hu; left; [|by constructor].
    apply (h_status _ _ _ _ _ _ _ _ l); [done|by left|done..].
  - destruct o as [d|]; [|right; done]. destruct (uploads v !! l) as [[r bs]|] eqn:Hu; [|left; by constructor].
    destruct (misplaced h bs) eqn:Hp; [right; done|apply not_misplaced in Hp].
    destruct (String.eqb_spec (FromBytes (bs ++ b)) d); [left; by eapply h_finish|right; done].
  - destruct o as [d|]; [right; done|]. destruct (uploads v !! l) as [[r bs]|] eqn:Hu; [|left; by constructor].
    destruct (misplaced h bs) eqn:Hp; [right; done|apply not_misplaced in Hp].
    left. eapply (h_patch _ _ _ _ _ _ _ l); [done..|by left|done].
Qed.

Context (Hok : forall l, location_ok l = true).

Lemma answer_allowed v req : allowed v req (answer v req).
Proof.
  destruct req as [m [] h b a]; [..|apply answer_upload];
    try apply answer_blob; try apply answer_manifest; unfold answer; cbn; destruct m; try (right; done);
    try (left; constructor; auto; fail).
  - destruct (blobs v !! _) as [x|] eqn:Hb; left; [by apply (h_mount _ _ _ _ x)|].
    apply (h_mount_upload _ _ _ _ _ _ _ (new_location v)); [done|by apply new_location_fresh|done].
  - left. apply (h_initiate _ _ _ _ _ (new_location v)); [by apply new_location_fresh|done].
Qed.

Lemma keep_left v req n : left_behind v req (keep v req n).
Proof.
  destruct req as [m t h b a]. unfold keep; cbn.
  destruct m; try (by left); destruct t as [| | | | | | | | |l o]; try (by left);
    (destruct (uploads v !! l) as [[r bs]|] eqn:Hu; [|by left]);
    (destruct (misplaced h bs) eqn:Hp; [by left|apply not_misplaced in Hp]); right; right; cbn;
    apply (k_part _ _ _ _ _ _ _ _ _ (GoStrings.drop n b)); auto; by rewrite substring_drop.
Qed.

#[export] Instance mem_oci : OciRegistry mem mem_send seen.
Proof.
  intros req s out s'. unfold mem_send. pose proof (answer_allowed (seen s) req) as Ha.
  destruct (answer (seen s) req) as [resp v]. unfold allowed in Ha. cbn in Ha.
  destruct (default Pass _); intros [= <- <-]; cbn.
  - destruct Ha as [Ha|[Hr ->]]; [by apply s_answered|apply s_refused; [done|by left]].
  - apply s_failed; [done|by left].
  - apply s_failed; [done|]. destruct Ha as [Ha|[_ ->]]; [right; left; by eexists|by left].
  - apply s_refused; [done|by left].
  - apply s_failed; [done|apply keep_left].
Qed.

End Answer.

End MemRegistry.
