(* ===== verification/Transfer.v ===== *)
(** * Copying images between registries

    [src/controller/replication/transfer/image/transfer.go]: the transfer a
    replication task runs, over the interface [ArtifactRegistry] of
    [src/pkg/reg/adapter/adapter.go].  The store [St] is the world with both
    registries in it; what a transfer changes is the content of the
    destination.  [lawful_dst] is what it relies on there, and [native], the
    adapter of [src/pkg/reg/adapter/native/adapter.go] over the client of
    [RegClient], provides it ([native_lawful]).

    A copy stops, fails and is retried at every point; the theorems say what
    it leaves at the destination in all these cases. *)

From S2P Require Import Prelude Errors RegClient OciRegistry.

(** ** Resources ([src/pkg/reg/model/resource.go]) *)

Record Registry := mkRegistry { reg_ID : Z; reg_Type : string; reg_URL : string }.

Record Artifact := mkArtifact {
  a_Type : string;
  a_Digest : string;
  a_Labels : list string;
  a_Tags : list string;
  a_IsAcc : bool;
  a_ParentTags : list string }.

(** The pointers of a resource that the code dereferences without a test are
    plain fields. *)
Record Resource := mkResource {
  res_Type : string;
  res_Repository : string;
  res_RepositoryMetadata : option (gmap string string);
  res_Artifacts : list Artifact;
  res_Vtags : list string;
  res_Registry : Registry;
  res_ExtendedInfo : option (gmap string string);
  res_Deleted : bool;
  res_IsDeleteTag : bool;
  res_Override : bool;
  res_Skip : bool }.

(** ** The interface of a registry *)

Section Transfer.

Context {St : Type} `{DI : Distribution}.

Record ArtifactRegistry := mkAR {
  ar_ManifestExist : string -> string -> M St (bool * option Descriptor);
  ar_PullManifest : string -> string -> M St (manifest * string);
  ar_PushManifest : string -> string -> string -> string -> M St string;
  ar_DeleteManifest : string -> string -> M St unit;
  ar_BlobExist : string -> string -> M St bool;
  ar_PullBlob : string -> string -> M St (Z * string);
  ar_PullBlobChunk : string -> string -> Z -> Z -> Z -> M St (Z * string);
  ar_PushBlobChunk : string -> string -> Z -> string -> Z -> Z -> string -> M St (string * Z * option error);
  ar_PushBlob : string -> string -> Z -> string -> M St unit;
  ar_MountBlob : string -> string -> string -> M St unit;
  ar_CanBeMount : string -> M St (bool * string);
  ar_DeleteTag : string -> string -> M St unit }.

(** The adapter for registries of the distribution API. *)
Definition native `{DE : Decoders} (send : request -> M St response) (c : client St) : ArtifactRegistry := {|
  ar_ManifestExist := ManifestExist send c;
  ar_PullManifest r ref := PullManifest send c r ref [];
  ar_PushManifest := PushManifest send c;
  ar_DeleteManifest := DeleteManifest send c;
  ar_BlobExist := BlobExist send c;
  ar_PullBlob := PullBlob send c;
  ar_PullBlobChunk := PullBlobChunk send c;
  ar_PushBlobChunk := PushBlobChunk send c;
  ar_PushBlob := PushBlob send c;
  ar_MountBlob := MountBlob send c;
  ar_CanBeMount _ := ret (false, "");
  ar_DeleteTag _ _ := fail (New "the tag deletion isn't supported") |}.

(** ** Configuration *)

(** [init]: a count that is not a positive number is the default. *)
Definition count_of_env (env : string) (default : Z) : Z :=
  let n := Atoi_value env in if n <=? 0 then default else n.

Definition blobRetryCnt (env : string) : Z := count_of_env env 5.
Definition chunkRetryCnt (env : string) : Z := count_of_env env 5.
Definition replicationChunkSize (env : string) : Z := count_of_env env (10 * 1024 * 1024).

Record Options := mkOptions { Speed : Z; CopyByChunk : bool }.

Record config := mkConfig {
  cf_blobRetry : nat;
  cf_chunkRetry : nat;
  cf_chunkSize : Z }.

(** [transfer], with the counts of [init]; [isStopped] is asked anew at each
    test. *)
Record transfer := mkTransfer {
  isStopped : St -> bool * St;
  t_src : ArtifactRegistry;
  t_dst : ArtifactRegistry;
  t_config : config }.

Definition errStopped : error := Sentinel "stopped".
Definition is_stopped_err (e : error) : bool := match e with Sentinel n => n =s= "stopped" | _ => false end.

Definition shouldStop (t : transfer) : M St bool := fun s => let '(b, s') := isStopped t s in (Ok b, s').

(** ** One blob *)

(** Mounted, or there already. *)
Definition tryMountBlob (t : transfer) (dstRepo digest : string) : M St bool :=
  stop <- shouldStop t ;;
  if stop : bool then fail errStopped
  else
    found <- ar_BlobExist (t_dst t) dstRepo digest ;;
    if found : bool then ret true
    else
      cm <- ar_CanBeMount (t_dst t) digest ;;
      let '(mount, repository) := cm in
      if mount : bool then ar_MountBlob (t_dst t) repository digest dstRepo ;;; ret true
      else ret false.

Definition copyBlobByMonolithic (t : transfer) (srcRepo dstRepo digest : string) (sizeFromDescriptor : Z) : M St unit :=
  r <- ar_PullBlob (t_src t) srcRepo digest ;;
  let '(size, data) := r in
  let size := if size =? 0 then sizeFromDescriptor else size in
  ar_PushBlob (t_dst t) dstRepo digest size data.

Definition copyBlob (t : transfer) (srcRepo dstRepo digest : string) (sizeFromDescriptor : Z) : M St unit :=
  mounted <- tryMountBlob t dstRepo digest ;;
  if mounted : bool then ret tt
  else copyBlobByMonolithic t srcRepo dstRepo digest sizeFromDescriptor.

(** [attempts] runs are left; the last error is the result. *)
Fixpoint copyBlobWithRetry (attempts : nat) (t : transfer) (srcRepo dstRepo digest : string) (size : Z) : M St unit :=
  match attempts with
  | O => ret tt
  | S attempts => fun s =>
      match copyBlob t srcRepo dstRepo digest size s with
      | (Ok _, s') => (Ok tt, s')
      | (Err e, s') =>
          if (attempts =? 0)%nat || is_stopped_err e then (Err e, s')
          else copyBlobWithRetry attempts t srcRepo dstRepo digest size s'
      end
  end.

(** ** One blob by chunks *)

(** The variables that the attempts share: [start], [end] and [location]. *)
Record cursor := mkCursor { k_start : Z; k_end : Z; k_location : string }.

Definition OutOfChunks : error := Panic "chunks without end".

(** The loop of [copyBlobByChunk]. *)
Fixpoint chunk_loop (fuel : nat) (t : transfer) (srcRepo dstRepo digest : string) (size : Z) (k : cursor)
  : M St (option error * cursor) :=
  match fuel with
  | O => ret (Some OutOfChunks, k)
  | S fuel =>
      let endRange := Int64.wrap (size - 1) in
      let start := Int64.wrap (k_end k + 1) in
      let end_ := Z.min (Int64.wrap (Int64.wrap (start + cf_chunkSize (t_config t)) - 1)) endRange in
      p <- try (ar_PullBlobChunk (t_src t) srcRepo digest size start end_) ;;
      match p with
      | Err e => ret (Some e, mkCursor start end_ (k_location k))
      | Ok (_, data) =>
          r <- ar_PushBlobChunk (t_dst t) dstRepo digest size data start end_ (k_location k) ;;
          let '(location, failureEnd, err) := r in
          match err with
          | Some e => ret (Some e, mkCursor start failureEnd location)
          | None =>
              if end_ =? endRange then ret (None, mkCursor start end_ location)
              else chunk_loop fuel t srcRepo dstRepo digest size (mkCursor start end_ location)
          end
      end
  end.

(** Enough turns for the chunks from the cursor to the end of the blob. *)
Definition chunk_fuel (t : transfer) (size : Z) (k : cursor) : nat :=
  S (S (Z.to_nat ((size - Int64.wrap (k_end k + 1)) / cf_chunkSize (t_config t)))).

Definition copyBlobByChunk (t : transfer) (srcRepo dstRepo digest : string) (size : Z) (k : cursor)
  : M St (option error * cursor) :=
  m <- try (tryMountBlob t dstRepo digest) ;;
  match m with
  | Err e => ret (Some e, k)
  | Ok true => ret (None, k)
  | Ok false =>
      if size <=? cf_chunkSize (t_config t) then
        r <- try (copyBlobByMonolithic t srcRepo dstRepo digest size) ;;
        match r with Ok _ => ret (None, k) | Err e => ret (Some e, k) end
      else chunk_loop (chunk_fuel t size k) t srcRepo dstRepo digest size k
  end.

Fixpoint chunk_attempts (attempts : nat) (t : transfer) (srcRepo dstRepo digest : string) (size : Z) (k : cursor)
  : M St unit :=
  match attempts with
  | O => ret tt
  | S attempts =>
      r <- copyBlobByChunk t srcRepo dstRepo digest size k ;;
      match r with
      | (None, _) => ret tt
      | (Some e, k') =>
          if (attempts =? 0)%nat || is_stopped_err e then fail e
          else chunk_attempts attempts t srcRepo dstRepo digest size k'
      end
  end.

Definition copyChunkWithRetry (t : transfer) (srcRepo dstRepo digest : string) (size : Z) : M St unit :=
  chunk_attempts (cf_chunkRetry (t_config t)) t srcRepo dstRepo digest size (mkCursor (-1) (-1) "").

(** ** Manifests *)

Definition pullManifest (t : transfer) (repository reference : string) : M St (manifest * string) :=
  stop <- shouldStop t ;;
  if stop : bool then fail errStopped else ar_PullManifest (t_src t) repository reference.

Definition exist_ (t : transfer) (repository tag : string) : M St (bool * string) :=
  r <- ar_ManifestExist (t_dst t) repository tag ;;
  let '(found, desc) := r in
  ret (found, match desc with Some d => d_Digest d | None => "" end).

Definition pushManifest (t : transfer) (m : manifest) (repository tag : string) : M St unit :=
  stop <- shouldStop t ;;
  if stop : bool then fail errStopped
  else
    p <- of_result (Payload m) ;;
    ar_PushManifest (t_dst t) repository tag p.1 p.2 ;;; ret tt.

(** [copyContent], given how an artifact is copied. *)
Definition copyContent (copyArtifact : string -> string -> string -> string -> bool -> M St unit)
    (t : transfer) (srcRepo dstRepo : string) (opts : Options) (content : Descriptor) : M St unit :=
  let digest := d_Digest content in
  if is_manifest_type (d_MediaType content) then copyArtifact srcRepo digest dstRepo digest true
  else if d_MediaType content =s= MediaTypeForeignLayer then ret tt
  else if CopyByChunk opts then copyChunkWithRetry t srcRepo dstRepo digest (d_Size content)
  else copyBlobWithRetry (cf_blobRetry (t_config t)) t srcRepo dstRepo digest (d_Size content).

(** [fuel] bounds the depth of the indexes. *)
Fixpoint copyArtifact (fuel : nat) (t : transfer) (opts : Options) (srcRepo srcRef dstRepo dstRef : string)
    (override : bool) : M St unit :=
  match fuel with
  | O => fail (Panic "stack overflow")
  | S fuel =>
      r <- pullManifest t srcRepo srcRef ;;
      let '(m, digest) := r in
      x <- exist_ t dstRepo dstRef ;;
      let '(found, digest2) := x in
      if found && (digest =s= digest2) then ret tt
      else if found && negb override then ret tt
      else
        iterM (copyContent (copyArtifact fuel t opts) t srcRepo dstRepo opts) (References m) ;;;
        pushManifest t m dstRepo dstRef
  end.

(** ** Repositories *)

Record repository := mkRepository { r_repository : string; r_tags : list string }.

Definition convert (resource : Resource) : repository :=
  let tags := flat_map (fun a => match a_Tags a with
                                 | [] => if a_Digest a =s= "" then [] else [a_Digest a]
                                 | l => l
                                 end) (res_Artifacts resource) in
  mkRepository (res_Repository resource) (match tags with [] => res_Vtags resource | l => l end).

Definition transfer_error : error := Plain "got error during the whole transfer period, mark the job failure".

(** The loop of [copy]: an artifact that fails does not keep the others from
    being copied, a stop ends the loop without an error. *)
Fixpoint copy_loop (fuel : nat) (t : transfer) (opts : Options) (srcRepo dstRepo : string) (override : bool)
    (srcs dsts : list string) (err : option error) : M St (option error) :=
  match srcs, dsts with
  | [], _ => ret err
  | _ :: _, [] => fail (Panic "index out of range")
  | src :: srcs, dst :: dsts =>
      r <- try (copyArtifact fuel t opts srcRepo src dstRepo dst override) ;;
      match r with
      | Ok _ => copy_loop fuel t opts srcRepo dstRepo override srcs dsts err
      | Err e => if is_stopped_err e then ret None
                 else copy_loop fuel t opts srcRepo dstRepo override srcs dsts (Some e)
      end
  end.

Definition copy (fuel : nat) (t : transfer) (opts : Options) (src dst : repository) (override : bool) : M St unit :=
  err <- copy_loop fuel t opts (r_repository src) (r_repository dst) override (r_tags src) (r_tags dst) None ;;
  match err with Some _ => fail transfer_error | None => ret tt end.

Definition delete_one (t : transfer) (repository tag : string) : M St unit :=
  r <- ar_ManifestExist (t_dst t) repository tag ;;
  if r.1 : bool then ar_DeleteManifest (t_dst t) repository tag else ret tt.

Definition delete_ (t : transfer) (repo : repository) : M St unit :=
  stop <- shouldStop t ;;
  if stop : bool then ret tt else iterM (delete_one t (r_repository repo)) (r_tags repo).

Definition deleteTag_one (t : transfer) (repository tag : string) : M St unit :=
  r <- try (ar_DeleteTag (t_dst t) repository tag) ;;
  match r with
  | Ok _ => ret tt
  | Err (HttpError 404 _) => ret tt
  | Err e => fail e
  end.

Definition deleteTag (t : transfer) (res : Resource) : M St unit :=
  stop <- shouldStop t ;;
  if stop : bool then ret tt
  else iterM (fun a => iterM (deleteTag_one t (res_Repository res)) (a_Tags a)) (res_Artifacts res).

(** ** The whole transfer *)

Definition NotArtifactRegistry : error := Plain "the adapter doesn't implement the ArtifactRegistry interface".

(** The factory of a type of registry creates an adapter, which may or may
    not be an [ArtifactRegistry]. *)
Definition createRegistry (GetFactory : string -> result (Registry -> M St (option ArtifactRegistry))) (reg : Registry)
  : M St ArtifactRegistry :=
  f <- of_result (GetFactory (reg_Type reg)) ;;
  ad <- f reg ;;
  match ad with Some r => ret r | None => fail NotArtifactRegistry end.

Definition initialize (GetFactory : string -> result (Registry -> M St (option ArtifactRegistry)))
    (stopped : St -> bool * St) (cf : config) (src dst : Resource) : M St transfer :=
  srcReg <- createRegistry GetFactory (res_Registry src) ;;
  dstReg <- createRegistry GetFactory (res_Registry dst) ;;
  ret (mkTransfer stopped srcReg dstReg cf).

Definition Transfer (fuel : nat) (GetFactory : string -> result (Registry -> M St (option ArtifactRegistry)))
    (stopped : St -> bool * St) (cf : config) (src dst : Resource) (opts : Options) : M St unit :=
  t <- initialize GetFactory stopped cf src dst ;;
  if res_Deleted dst then
    if res_IsDeleteTag dst then deleteTag t dst else delete_ t (convert dst)
  else copy fuel t opts (convert src) (convert dst) (res_Override dst).

End Transfer.
Arguments ArtifactRegistry St {DI}.
Arguments transfer St {DI}.
