(* ===== verification/TransferSafe.v ===== *)
(** * What a transfer leaves at the destination

    The laws of the two registries a transfer works with ([lawful_dst],
    [lawful_src]), the invariants of the destination's content, and the
    theorems on [Transfer]: whatever fails, the destination holds complete
    images only, tags other than those asked for are not touched, and a copy
    that succeeds has put every reference where it was asked to. *)

From S2P Require Import Prelude Errors RegClient OciRegistry Transfer.

(** ** Invariants of a registry's content *)

Section Invariants.

Context `{DI : Distribution}.

(** A manifest's reference that is in the repository, or need not be. *)
Definition present (v : content) (r : string) (x : Descriptor) : Prop :=
  if is_manifest_type (d_MediaType x) then is_Some (manifests v !! (r, d_Digest x))
  else if d_MediaType x =s= MediaTypeForeignLayer then True
  else is_Some (blobs v !! (r, d_Digest x)).

(** Every manifest of a repository has what it refers to there. *)
Definition closed (v : content) : Prop := forall r d mt p m,
  manifests v !! (r, d) = Some (mt, p) -> UnmarshalManifest mt p = Ok m -> Forall (present v r) (References m).

(** Every blob is what its digest says. *)
Definition intact (v : content) : Prop := forall r d x, blobs v !! (r, d) = Some x -> FromBytes x = d.

(** Every manifest is under the digest of its payload. *)
Definition addressed (v : content) : Prop := forall r d mp, manifests v !! (r, d) = Some mp -> FromBytes mp.2 = d.

(** What a copy may do: content comes, none goes, the invariants stay. *)
Record advance (v v' : content) : Prop := mkAdvance {
  adv_blobs : forall k, is_Some (blobs v !! k) -> is_Some (blobs v' !! k);
  adv_manifests : forall k, is_Some (manifests v !! k) -> is_Some (manifests v' !! k);
  adv_named : named v -> named v';
  adv_intact : intact v -> intact v';
  adv_addressed : addressed v -> addressed v';
  adv_closed : closed v -> closed v' }.

#[global] Instance advance_preorder : PreOrder advance.
Proof.
  split; [by intros v; constructor; auto|].
  intros u v w [] []. constructor; auto.
Qed.

Lemma present_advance v v' r x : advance v v' -> present v r x -> present v' r x.
Proof.
  intros [Hb Hm _ _ _ _]. unfold present. destruct (is_manifest_type _); [apply Hm|].
  destruct (_ =s= _); [done|apply Hb].
Qed.

Lemma present_grows v v' r x :
  (forall k, is_Some (blobs v !! k) -> is_Some (blobs v' !! k)) ->
  (forall k, is_Some (manifests v !! k) -> is_Some (manifests v' !! k)) -> present v r x -> present v' r x.
Proof.
  intros Hb Hm. unfold present. destruct (is_manifest_type _); [apply Hm|]. destruct (_ =s= _); [done|apply Hb].
Qed.

Lemma advance_blob r d v v' : may_add_blob r d v v' -> (named v -> named v') -> advance v v'.
Proof.
  intros [[Hm Ht] Hb] Hn.
  assert (forall k, is_Some (blobs v !! k) -> is_Some (blobs v' !! k)) as Hg.
  { destruct Hb as [->|(x & _ & ->)]; [done|]. intros k Hk. rewrite lookup_insert_is_Some'. by right. }
  constructor; [done|by rewrite Hm|done| |unfold addressed; by rewrite Hm|].
  - intros Hi r' d' x. destruct Hb as [->|(y & Hy & ->)]; [apply Hi|].
    intros [[[= <- <-] <-]|[_ Hx]]%lookup_insert_Some; [|by eapply Hi].
    destruct Hy as [?|[from Hy]]; [done|by eapply Hi].
  - intros Hc r' d' mt p m Hl Hu. rewrite Hm in Hl. eapply Forall_impl; [by eapply Hc|].
    intros x. apply present_grows; [done|by rewrite Hm].
Qed.

Lemma advance_put v r ref mt p :
  (forall m, UnmarshalManifest mt p = Ok m -> Forall (present v r) (References m)) ->
  advance v (put_manifest v r ref mt p).
Proof.
  intros Hp.
  assert (forall k, is_Some (manifests v !! k) -> is_Some (manifests (put_manifest v r ref mt p) !! k)) as Hg.
  { intros k Hk. cbn. rewrite lookup_insert_is_Some'. by right. }
  constructor; [done|done|done|done| |].
  { intros Had r' d' mp. cbn. intros [[[= <- <-] <-]|[_ Hx]]%lookup_insert_Some; [done|by eapply Had]. }
  intros Hc r' d' mt' p' m Hl Hu.
  assert (Forall (present v r') (References m)) as Hf.
  { cbn in Hl. apply lookup_insert_Some in Hl as [[[= <- <-] [= <- <-]]|[_ Hl]]; [by apply Hp|by eapply Hc]. }
  eapply Forall_impl; [exact Hf|]. intros x. by apply present_grows.
Qed.

Lemma resolve_manifest v r ref d mp : resolve v r ref = Some (d, mp) -> manifests v !! (r, d) = Some mp.
Proof.
  unfold resolve. destruct (if is_digest ref then _ else _) as [d'|]; [|done]. cbn.
  destruct (manifests v !! (r, d')) eqn:Hm; [|done]. by intros [= -> ->].
Qed.

(** What putting a manifest changes. *)
Lemma put_tags v r ref mt p :
  (forall k, k <> (r, ref) -> tags (put_manifest v r ref mt p) !! k = tags v !! k) /\
  (is_digest ref = true -> tags (put_manifest v r ref mt p) = tags v).
Proof.
  split; [|cbn; by intros ->]. intros k Hne. cbn. destruct (is_digest ref); [done|]. by rewrite lookup_insert_ne.
Qed.

Lemma put_resolves v r ref mt p : (is_digest ref = true -> ref = FromBytes p) ->
  resolve (put_manifest v r ref mt p) r ref = Some (FromBytes p, (mt, p)).
Proof.
  intros Hd. unfold resolve. cbn. destruct (is_digest ref).
  - rewrite Hd by done. cbn. by rewrite lookup_insert_eq.
  - rewrite lookup_insert_eq. cbn. by rewrite lookup_insert_eq.
Qed.

(** What the parsers of manifests promise: the payload of a manifest parses
    to the same references, and references are digests. *)
Class LawfulManifests : Prop := {
  payload_references : forall m mt p m', Payload m = Ok (mt, p) -> UnmarshalManifest mt p = Ok m' -> References m' = References m;
  references_digests : forall m, Forall (fun x => is_digest (d_Digest x) = true) (References m) }.

(** ** The laws of the registries *)

Context {St : Type} (see : St -> content).

Record lawful_dst (dst : ArtifactRegistry St) : Prop := mkLawfulDst {
  l_BlobExist : forall r d s out s', ar_BlobExist dst r d s = (out, s') ->
    see s' = see s /\ (out = Ok true -> is_Some (blobs (see s) !! (r, d)));
  l_ManifestExist : forall r ref s out s', ar_ManifestExist dst r ref s = (out, s') ->
    see s' = see s /\
    match out with
    | Ok (true, Some d) => exists mp, resolve (see s) r ref = Some (d_Digest d, mp)
    | Ok (true, None) => False
    | Ok (false, _) => resolve (see s) r ref = None
    | Err _ => True
    end;
  l_PushManifest : forall r ref mt p s out s', ar_PushManifest dst r ref mt p s = (out, s') ->
    match out with
    | Ok _ => (is_digest ref = true -> ref = FromBytes p) /\ see s' = put_manifest (see s) r ref mt p
    | Err _ => see s' = see s \/ see s' = put_manifest (see s) r ref mt p
    end;
  l_PushBlob : forall r d size data s out s', ar_PushBlob dst r d size data s = (out, s') -> named (see s) ->
    may_add_blob r d (see s) (see s') /\ named (see s') /\
    (forall l, upload_in (see s) r l -> upload_in (see s') r l) /\
    (is_ok out = true -> is_Some (blobs (see s') !! (r, d)));
  l_PushBlobChunk : forall r d size chunk start end_ l s out s',
    ar_PushBlobChunk dst r d size chunk start end_ l s = (out, s') ->
    named (see s) -> start = 0 \/ upload_in (see s) r l ->
    may_add_blob r d (see s) (see s') /\ named (see s') /\
    exists l' e oe, out = Ok (l', e, oe) /\
      (upload_in (see s') r l' \/ (oe = None /\ end_ = Int64.wrap (size - 1))) /\
      (oe = None -> end_ = Int64.wrap (size - 1) -> is_Some (blobs (see s') !! (r, d)));
  l_MountBlob : forall from d r s out s', ar_MountBlob dst from d r s = (out, s') ->
    may_add_blob r d (see s) (see s') /\ (named (see s) -> named (see s')) /\
    (forall l, upload_in (see s) r l -> upload_in (see s') r l) /\
    (is_Some (blobs (see s) !! (from, d)) -> is_ok out = true -> is_Some (blobs (see s') !! (r, d)));
  l_DeleteManifest : forall r ref s out s', ar_DeleteManifest dst r ref s = (out, s') ->
    (is_ok out = true -> exists d, digest_of (see s) r ref d /\ see s' = delete_manifest (see s) r d) /\
    (see s' = see s \/ exists d, digest_of (see s) r ref d /\ see s' = delete_manifest (see s) r d);
  l_CanBeMount : forall d s out s', ar_CanBeMount dst d s = (out, s') ->
    see s' = see s /\ (forall from, out = Ok (true, from) -> is_Some (blobs (see s) !! (from, d))) }.

(** Reading from the source leaves the destination alone. *)
Record lawful_src (src : ArtifactRegistry St) : Prop := mkLawfulSrc {
  l_PullManifest : forall r ref s out s', ar_PullManifest src r ref s = (out, s') -> see s' = see s;
  l_PullBlob : forall r d s out s', ar_PullBlob src r d s = (out, s') -> see s' = see s;
  l_PullBlobChunk : forall r d size a b s out s', ar_PullBlobChunk src r d size a b s = (out, s') -> see s' = see s }.

Definition lawful (t : transfer St) : Prop :=
  lawful_dst (t_dst t) /\ lawful_src (t_src t) /\ (forall s, see (isStopped t s).2 = see s).

End Invariants.
Arguments LawfulManifests : clear implicits.
Arguments LawfulManifests {DI}.

(** The adapter over the client is lawful towards a registry of the
    distribution API. *)
Lemma native_lawful `{DI : Distribution} `{DE : Decoders} {St} (send : request -> M St response) (see : St -> content)
    `{OR : !OciRegistry St send see} (c : client St) :
  discreet see c -> lawful_dst see (native send c).
Proof.
  intros Hc. constructor; cbn.
  - intros r d s out s' E. eapply BlobExist_spec in E as [? Ho]; [|done..]. split; [done|]. by intros ->.
  - intros r ref s out s' E. eapply ManifestExist_spec in E as [? Ho]; [|done..]. split; [done|].
    destruct out as [[[] [d|]]|]; [|done..]. destruct Ho as (mt & p & Ho). eauto.
  - intros r ref mt p s out s' E. by eapply PushManifest_spec in E.
  - intros r d size data s out s' E Hn. by eapply PushBlob_spec in E.
  - intros r d size chunk start end_ l s out s' E Hn Hu. by eapply PushBlobChunk_coarse in E.
  - intros from d r s out s' E. by eapply MountBlob_spec in E.
  - intros r ref s out s' E. by eapply DeleteManifest_spec in E.
  - intros d s out s' [= <- <-]. done.
Qed.

(** ** Blobs *)

Section Copy.

Context `{DI : Distribution} {LM : LawfulManifests} {St : Type} (see : St -> content).
Context (t : transfer St) (Ht : lawful see t).

(** What an operation on one blob leaves. *)
Definition blob_step (r d : string) (s s' : St) : Prop :=
  advance (see s) (see s') /\ same_meta (see s) (see s') /\ named (see s').

Lemma blob_step_refl r d s s' : see s' = see s -> named (see s) -> blob_step r d s s'.
Proof. unfold blob_step. intros -> Hn. done. Qed.

Lemma blob_step_trans r d s1 s2 s3 : blob_step r d s1 s2 -> blob_step r d s2 s3 -> blob_step r d s1 s3.
Proof.
  intros (? & [? ?] & ?) (? & [? ?] & ?). split_and!; [by etrans| |done]. split; congruence.
Qed.

Lemma blob_step_add r d s s' : may_add_blob r d (see s) (see s') -> named (see s') -> blob_step r d s s'.
Proof. intros Hm Hn. split_and!; [by eapply advance_blob|by destruct Hm|done]. Qed.

Lemma shouldStop_spec s out s' : shouldStop t s = (out, s') -> see s' = see s /\ exists b, out = Ok b.
Proof.
  destruct Ht as (_ & _ & Hs). unfold shouldStop. destruct (isStopped t s) as [b s1] eqn:E. intros [= <- <-].
  specialize (Hs s). rewrite E in Hs. split; [done|by exists b].
Qed.

Lemma tryMountBlob_spec r d s out s' : tryMountBlob t r d s = (out, s') -> named (see s) ->
  blob_step r d s s' /\ (forall l, upload_in (see s) r l -> upload_in (see s') r l) /\
  (out = Ok true -> is_Some (blobs (see s') !! (r, d))).
Proof.
  destruct Ht as (Hd & _ & _). unfold tryMountBlob. intros E Hn. unfold bind in E.
  destruct (shouldStop t s) as [o1 s1] eqn:E1; apply shouldStop_spec in E1 as [Hv1 [stop ->]].
  destruct stop; [injection E as <- <-; split_and!; [by apply blob_step_refl|by rewrite Hv1|done]|].
  destruct (ar_BlobExist _ _ _ s1) as [o2 s2] eqn:E2; apply (l_BlobExist _ _ Hd) in E2 as [Hv2 Hf].
  rewrite Hv1 in Hv2, Hf.
  destruct o2 as [[]|e]; [| |injection E as <- <-; split_and!; [by apply blob_step_refl|by rewrite Hv2|done]].
  { injection E as <- <-. split_and!; [by apply blob_step_refl|by rewrite Hv2|]. rewrite Hv2. auto. }
  destruct (ar_CanBeMount _ _ s2) as [o3 s3] eqn:E3; apply (l_CanBeMount _ _ Hd) in E3 as [Hv3 Hc].
  rewrite Hv2 in Hv3, Hc.
  destruct o3 as [[[] from]|e]; [|injection E as <- <-; split_and!; [by apply blob_step_refl|by rewrite Hv3|done]..].
  destruct (ar_MountBlob _ _ _ _ s3) as [o4 s4] eqn:E4; apply (l_MountBlob _ _ Hd) in E4 as (Hm & Hn4 & Hu & Hi).
  rewrite Hv3 in Hm, Hn4, Hu, Hi.
  assert (blob_step r d s s4) by (apply blob_step_add; auto).
  destruct o4; injection E as <- <-; split_and!; [done|done| |done..]. intros _. apply Hi; [|done]. by apply Hc.
Qed.

Lemma copyBlobByMonolithic_spec sr r d size s out s' :
  copyBlobByMonolithic t sr r d size s = (out, s') -> named (see s) ->
  blob_step r d s s' /\ (forall l, upload_in (see s) r l -> upload_in (see s') r l) /\
  (is_ok out = true -> is_Some (blobs (see s') !! (r, d))).
Proof.
  destruct Ht as (Hd & Hs & _). unfold copyBlobByMonolithic, bind. intros E Hn.
  destruct (ar_PullBlob _ _ _ s) as [o1 s1] eqn:E1; apply (l_PullBlob _ _ Hs) in E1.
  destruct o1 as [[z x]|e]; [|injection E as <- <-; split_and!; [by apply blob_step_refl|by rewrite E1|done]].
  apply (l_PushBlob _ _ Hd) in E as (Hm & Hn' & Hu & Hi); [|congruence]. rewrite E1 in Hm, Hu.
  split_and!; [by apply blob_step_add|done..].
Qed.

Lemma copyBlob_spec sr r d size s out s' : copyBlob t sr r d size s = (out, s') -> named (see s) ->
  blob_step r d s s' /\ (is_ok out = true -> is_Some (blobs (see s') !! (r, d))).
Proof.
  unfold copyBlob, bind. intros E Hn.
  destruct (tryMountBlob t r d s) as [o1 s1] eqn:E1; apply tryMountBlob_spec in E1 as (Hb & _ & Hp); [|done].
  destruct o1 as [[]|e]; [injection E as <- <-; auto| |by injection E as <- <-].
  apply copyBlobByMonolithic_spec in E as (Hb' & _ & Hp'); [|by destruct Hb as (_ & _ & ?)].
  split; [by eapply blob_step_trans|done].
Qed.

Lemma copyBlobWithRetry_spec n sr r d size s out s' :
  copyBlobWithRetry n t sr r d size s = (out, s') -> named (see s) ->
  blob_step r d s s' /\ (n <> 0%nat -> is_ok out = true -> is_Some (blobs (see s') !! (r, d))).
Proof.
  revert s. induction n as [|n IH]; intros s E Hn; cbn in E; [injection E as <- <-; split; [by apply blob_step_refl|done]|].
  destruct (copyBlob t sr r d size s) as [o1 s1] eqn:E1; apply copyBlob_spec in E1 as [Hb Hp]; [|done].
  destruct o1 as [u|e]; [injection E as <- <-; auto|].
  destruct (Nat.eqb_spec n 0); [by injection E as <- <-|]. cbn in E. destruct (is_stopped_err e); [by injection E as <- <-|].
  apply IH in E as [Hb' Hp']; [|by destruct Hb as (_ & _ & ?)]. split; [by eapply blob_step_trans|auto].
Qed.

Lemma chunk_loop_spec fuel sr r d size k s out s' :
  chunk_loop fuel t sr r d size k s = (out, s') -> named (see s) -> upload_in (see s) r (k_location k) ->
  blob_step r d s s' /\ exists oe k', out = Ok (oe, k') /\
    (oe <> None -> upload_in (see s') r (k_location k')) /\ (oe = None -> is_Some (blobs (see s') !! (r, d))).
Proof.
  destruct Ht as (Hd & Hs & _). revert k s. induction fuel as [|fuel IH]; intros k s E Hn Hu; cbn in E.
  { injection E as <- <-. split; [by apply blob_step_refl|]. do 2 eexists. split_and!; [done| |done]. done. }
  unfold bind, try in E. set (start := Int64.wrap _) in E. set (end_ := Z.min _ _) in E.
  destruct (ar_PullBlobChunk _ _ _ _ _ _ s) as [o1 s1] eqn:E1; apply (l_PullBlobChunk _ _ Hs) in E1.
  destruct o1 as [[z x]|e].
  2: { injection E as <- <-. split; [by apply blob_step_refl|]. do 2 eexists. split_and!; [done| |done]. by rewrite E1. }
  destruct (ar_PushBlobChunk _ _ _ _ _ _ _ _ s1) as [o2 s2] eqn:E2.
  apply (l_PushBlobChunk _ _ Hd) in E2 as (Hm & Hn2 & l' & e & oe & -> & Hl & Hp); [|congruence|right; by rewrite E1].
  rewrite E1 in Hm. assert (blob_step r d s s2) as Hb by (by apply blob_step_add).
  destruct oe as [err|].
  { injection E as <- <-. split; [done|]. do 2 eexists. split_and!; [done| |done]. intros _. by destruct Hl as [|[? _]]. }
  destruct (Z.eqb_spec end_ (Int64.wrap (size - 1))) as [He|He].
  { injection E as <- <-. split; [done|]. do 2 eexists. split_and!; [done|done|]. intros _. by apply Hp. }
  destruct Hl as [Hl|[_ ?]]; [|done].
  apply IH in E as [Hb' Hx]; [|done..]. split; [by eapply blob_step_trans|done].
Qed.

Lemma copyBlobByChunk_spec sr r d size k s out s' :
  copyBlobByChunk t sr r d size k s = (out, s') -> named (see s) -> upload_in (see s) r (k_location k) ->
  blob_step r d s s' /\ exists oe k', out = Ok (oe, k') /\
    (oe <> None -> upload_in (see s') r (k_location k')) /\ (oe = None -> is_Some (blobs (see s') !! (r, d))).
Proof.
  unfold copyBlobByChunk, bind, try. intros E Hn Hu.
  destruct (tryMountBlob t r d s) as [o1 s1] eqn:E1; apply tryMountBlob_spec in E1 as (Hb & Hk & Hp); [|done].
  pose proof Hb as (_ & _ & Hn1).
  destruct o1 as [[]|e]; [injection E as <- <-; split; [done|]; do 2 eexists; split_and!; auto| |
    injection E as <- <-; split; [done|]; do 2 eexists; split_and!; auto; done].
  destruct (Z.leb_spec size (cf_chunkSize (t_config t))).
  - destruct (copyBlobByMonolithic t sr r d size s1) as [o2 s2] eqn:E2.
    apply copyBlobByMonolithic_spec in E2 as (Hb2 & Hk2 & Hp2); [|done].
    destruct o2; injection E as <- <-; (split; [by eapply blob_step_trans|]); do 2 eexists; split_and!; auto; done.
  - apply chunk_loop_spec in E as (Hb' & oe & k' & -> & Hu' & Hp'); [|done|by apply Hk].
    split; [by eapply blob_step_trans|]. do 2 eexists. split_and!; auto.
Qed.

Lemma chunk_attempts_spec n sr r d size k s out s' :
  chunk_attempts n t sr r d size k s = (out, s') -> named (see s) -> upload_in (see s) r (k_location k) ->
  blob_step r d s s' /\ (n <> 0%nat -> is_ok out = true -> is_Some (blobs (see s') !! (r, d))).
Proof.
  revert k s. induction n as [|n IH]; intros k s E Hn Hu; cbn in E;
    [injection E as <- <-; split; [by apply blob_step_refl|done]|].
  unfold bind in E. destruct (copyBlobByChunk t sr r d size k s) as [o1 s1] eqn:E1.
  apply copyBlobByChunk_spec in E1 as (Hb & oe & k' & -> & Hu' & Hp); [|done..].
  destruct oe as [e|]; [|injection E as <- <-; auto].
  destruct (Nat.eqb_spec n 0); [by injection E as <- <-|]. cbn in E. destruct (is_stopped_err e); [by injection E as <- <-|].
  apply IH in E as [Hb' Hp']; [|by destruct Hb as (_ & _ & ?)|by apply Hu']. split; [by eapply blob_step_trans|auto].
Qed.

Lemma copyChunkWithRetry_spec sr r d size s out s' :
  copyChunkWithRetry t sr r d size s = (out, s') -> named (see s) ->
  blob_step r d s s' /\ (cf_chunkRetry (t_config t) <> 0%nat -> is_ok out = true -> is_Some (blobs (see s') !! (r, d))).
Proof.
  intros E Hn. apply chunk_attempts_spec in E; [done|done|]. cbn. intros r' bs Hx. unfold named in Hn. congruence.
Qed.

(** ** Artifacts *)

Context (Hb : cf_blobRetry (t_config t) <> 0%nat) (Hk : cf_chunkRetry (t_config t) <> 0%nat).

Definition pulled (sr sf : string) (m : manifest) (dg : string) : Prop :=
  exists s s', ar_PullManifest (t_src t) sr sf s = (Ok (m, dg), s').

(** What copying an artifact leaves, and what it has reached when it
    succeeds: the reference resolves to what was pulled, or to what it
    resolved to before when overriding was not allowed. *)
Record art_step (dr df : string) (override : bool) (v v' : content) : Prop := mkArtStep {
  as_advance : advance v v';
  as_named : named v';
  as_tags : forall k, k <> (dr, df) -> tags v' !! k = tags v !! k;
  as_digest : is_digest df = true -> tags v' = tags v;
  as_kept : override = false -> is_Some (resolve v dr df) -> v' = v }.

Definition reached (sr sf dr df : string) (override : bool) (v v' : content) : Prop :=
  exists m dg d mp, pulled sr sf m dg /\ resolve v' dr df = Some (d, mp) /\
    (d = dg \/ (Payload m = Ok mp /\ d = FromBytes mp.2) \/ (override = false /\ resolve v dr df = Some (d, mp))).

Definition copies (f : string -> string -> string -> string -> bool -> M St unit) : Prop :=
  forall sr sf dr df ov s out s', f sr sf dr df ov s = (out, s') -> named (see s) ->
    art_step dr df ov (see s) (see s') /\ (is_ok out = true -> reached sr sf dr df ov (see s) (see s')).

Lemma resolve_digest v r d : is_digest d = true -> is_Some (resolve v r d) -> is_Some (manifests v !! (r, d)).
Proof.
  unfold resolve. intros ->. cbn. destruct (manifests v !! (r, d)); [by eexists|by intros []].
Qed.

Lemma copyContent_spec f sr dr opts x s out s' :
  copies f -> is_digest (d_Digest x) = true -> copyContent f t sr dr opts x s = (out, s') -> named (see s) ->
  advance (see s) (see s') /\ tags (see s') = tags (see s) /\ named (see s') /\
  (is_ok out = true -> present (see s') dr x).
Proof.
  intros Hf Hd. unfold copyContent, present. destruct (is_manifest_type _).
  { intros E Hn. destruct (Hf _ _ _ _ _ _ _ _ E Hn) as [[] Hr]. split_and!; auto. intros Ho.
    destruct (Hr Ho) as (m & dg & d & mp & _ & Hres & _). apply resolve_digest; [done|by eexists]. }
  destruct (_ =s= _); [intros [= <- <-] ?; by split_and!|].
  destruct (CopyByChunk opts); intros E Hn.
  - apply copyChunkWithRetry_spec in E as [(? & [? ?] & ?) Hp]; [|done]. split_and!; auto.
  - apply copyBlobWithRetry_spec in E as [(? & [? ?] & ?) Hp]; [|done]. split_and!; auto.
Qed.

Lemma contents_spec f sr dr opts l s out s' :
  copies f -> Forall (fun x => is_digest (d_Digest x) = true) l ->
  iterM (copyContent f t sr dr opts) l s = (out, s') -> named (see s) ->
  advance (see s) (see s') /\ tags (see s') = tags (see s) /\ named (see s') /\
  (is_ok out = true -> Forall (present (see s') dr) l).
Proof.
  intros Hf Hl. revert s. induction Hl as [|x l Hx Hl IH]; intros s E Hn; [injection E as <- <-; by split_and!|].
  cbn in E. unfold bind in E. destruct (copyContent f t sr dr opts x s) as [o1 s1] eqn:E1.
  apply copyContent_spec in E1 as (Ha & Htg & Hn1 & Hp); [|done..].
  destruct o1 as [[]|e]; [|injection E as <- <-; by split_and!].
  apply IH in E as (Ha' & Htg' & Hn' & Hp'); [|done]. split_and!; [by etrans|congruence|done|].
  intros Ho. constructor; [|by apply Hp']. eapply present_advance; [done|by apply Hp].
Qed.

Lemma pushManifest_spec m dr df s out s' :
  pushManifest t m dr df s = (out, s') -> named (see s) -> Forall (present (see s) dr) (References m) ->
  advance (see s) (see s') /\ named (see s') /\ (forall k, k <> (dr, df) -> tags (see s') !! k = tags (see s) !! k) /\
  (is_digest df = true -> tags (see s') = tags (see s)) /\
  (is_ok out = true -> exists mp, Payload m = Ok mp /\ resolve (see s') dr df = Some (FromBytes mp.2, mp)).
Proof.
  destruct Ht as (Hd & _ & _). unfold pushManifest, bind, of_result. intros E Hn Hp.
  destruct (shouldStop t s) as [o1 s1] eqn:E1; apply shouldStop_spec in E1 as [Hv1 [stop ->]].
  rewrite <- Hv1 in Hn, Hp |- *. destruct stop; [injection E as <- <-; by split_and!|].
  destruct (Payload m) as [[mt p]|e] eqn:Ep; [|injection E as <- <-; by split_and!].
  destruct (ar_PushManifest _ _ _ _ _ s1) as [o2 s2] eqn:E2. apply (l_PushManifest _ _ Hd) in E2. cbn in E2.
  assert (advance (see s1) (put_manifest (see s1) dr df mt p)) as Ha.
  { apply advance_put. intros m' Hm. by rewrite (payload_references m mt p m'). }
  destruct (put_tags (see s1) dr df mt p) as [Htg Hdg].
  destruct o2 as [dg|e]; injection E as <- <-.
  - destruct E2 as [Hdf ->]. split_and!; [done|done|done|done|]. intros _. exists (mt, p). split; [done|]. by apply put_resolves.
  - destruct E2 as [->| ->]; by split_and!.
Qed.

Lemma copyArtifact_spec fuel opts : copies (copyArtifact fuel t opts).
Proof.
  pose proof Ht as (Hd & Hs & _).
  induction fuel as [|fuel IH]; intros sr sf dr df ov s out s' E Hn; [injection E as <- <-; by split|].
  cbn in E. unfold bind in E.
  destruct (pullManifest t sr sf s) as [o1 s1] eqn:E1. unfold pullManifest, bind in E1.
  destruct (shouldStop t s) as [o0 s0] eqn:E0; apply shouldStop_spec in E0 as [Hv0 [stop ->]].
  assert (see s1 = see s /\ (forall m dg, o1 = Ok (m, dg) -> pulled sr sf m dg)) as [Hv1 Hp].
  { destruct stop; [injection E1 as <- <-; done|]. split; [|intros m dg ->; by do 2 eexists].
    apply (l_PullManifest _ _ Hs) in E1. congruence. }
  destruct o1 as [[m dg]|e]; [|injection E as <- <-; split; [|done]; rewrite Hv1; by split].
  unfold exist_, bind in E. destruct (ar_ManifestExist _ _ _ s1) as [o2 s2] eqn:E2.
  apply (l_ManifestExist _ _ Hd) in E2 as [Hv2 Hm]. rewrite Hv1 in Hv2, Hm.
  destruct o2 as [[found desc]|e]; [|injection E as <- <-; split; [|done]; rewrite Hv2; by split].
  assert (found = true -> exists d mp, desc = Some d /\ resolve (see s) dr df = Some (d_Digest d, mp)) as Hfd.
  { intros ->. destruct desc as [d|]; [|done]. destruct Hm as [mp Hm]. eauto. }
  specialize (Hp m dg eq_refl).
  cbn in E. set (digest2 := match desc with Some d => d_Digest d | None => "" end) in E.
  destruct (found && (dg =s= digest2)) eqn:Ef.
  { injection E as <- <-. rewrite Hv2. split; [by split|]. intros _.
    apply andb_true_iff in Ef as [-> Ed]. destruct (Hfd eq_refl) as (d & mp & -> & Hr). apply String.eqb_eq in Ed. subst digest2.
    exists m, dg, (d_Digest d), mp. rewrite Hr. auto. }
  destruct (found && negb ov) eqn:Eo.
  { injection E as <- <-. rewrite Hv2. split; [by split|]. intros _.
    apply andb_true_iff in Eo as [-> Eo]. apply negb_true_iff in Eo.
    destruct (Hfd eq_refl) as (d & mp & -> & Hr). exists m, dg, (d_Digest d), mp. rewrite Hr. auto 6. }
  assert (ov = false -> is_Some (resolve (see s) dr df) -> False) as Hno.
  { intros -> [x Hx]. destruct found; [done|]. destruct desc; congruence. }
  destruct (iterM _ _ s2) as [o3 s3] eqn:E3.
  apply contents_spec in E3 as (Ha & Htg & Hn3 & Hpr); [|done|apply references_digests|by rewrite Hv2].
  rewrite Hv2 in Ha, Htg.
  destruct o3 as [[]|e]; [|injection E as <- <-; split; [|done]; split; auto; [by rewrite Htg|intros; exfalso; auto]].
  apply pushManifest_spec in E as (Ha' & Hn' & Htg' & Hdg' & Hr); [|done|by apply Hpr].
  split.
  - split; [by etrans|done| | |intros; exfalso; auto].
    + intros k Hne. rewrite Htg' by done. by rewrite Htg.
    + intros Hdf. rewrite Hdg' by done. done.
  - intros Ho. destruct (Hr Ho) as (mp & Hpl & Hres). exists m, dg, (FromBytes mp.2), mp.
    split_and!; [done|done|]. right. by left.
Qed.

(** ** Repositories *)

(** The tags a copy may change. *)
Record copy_step (dr : string) (dsts : list string) (v v' : content) : Prop := mkCopyStep {
  cs_advance : advance v v';
  cs_named : named v';
  cs_tags : forall r tag, (r = dr -> tag ∉ dsts) -> tags v' !! (r, tag) = tags v !! (r, tag) }.

Lemma copy_loop_step fuel opts sr dr ov srcs dsts err s out s' :
  copy_loop fuel t opts sr dr ov srcs dsts err s = (out, s') -> named (see s) -> copy_step dr dsts (see s) (see s').
Proof.
  revert dsts err s. induction srcs as [|src srcs IH]; intros dsts err s E Hn; [injection E as <- <-; by split|].
  destruct dsts as [|dst dsts]; [injection E as <- <-; by split|]. cbn in E. unfold bind, try in E.
  destruct (copyArtifact _ _ _ _ _ _ _ _ s) as [o1 s1] eqn:E1.
  destruct (copyArtifact_spec _ _ _ _ _ _ _ _ _ _ E1 Hn) as [[Ha Hn1 Htg _ _] _].
  assert (copy_step dr (dst :: dsts) (see s) (see s1)) as Hs1.
  { split; [done..|]. intros r tag Hne. apply Htg. intros [= Hr ->]. apply (Hne Hr). apply elem_of_cons. by left. }
  assert (forall err, copy_loop fuel t opts sr dr ov srcs dsts err s1 = (out, s') ->
    copy_step dr (dst :: dsts) (see s) (see s')) as Hrest.
  { intros err' E'. apply IH in E' as [Ha' Hn' Htg']; [|done]. split; [by etrans|done|]. intros r tag Hne.
    rewrite Htg' by (intros Hr Hin; apply (Hne Hr), elem_of_cons; by right). by apply Hs1. }
  destruct o1 as [u|e]; [by eapply Hrest|]. destruct (is_stopped_err e); [by injection E as <- <-|by eapply Hrest].
Qed.

(** A reference that resolves keeps resolving to the same digest. *)
Lemma resolve_advance v v' r ref d mp :
  advance v v' -> tags v' !! (r, ref) = tags v !! (r, ref) -> resolve v r ref = Some (d, mp) ->
  exists mp', resolve v' r ref = Some (d, mp').
Proof.
  intros Ha Ht'. unfold resolve. rewrite Ht'. destruct (if is_digest ref then _ else _) as [d'|]; [|done]. cbn.
  destruct (manifests v !! (r, d')) as [x|] eqn:Hm; [|done]. intros [= -> ->].
  destruct (adv_manifests _ _ Ha (r, d)) as [y ->]; [by eexists|]. by eexists.
Qed.

(** What the destination reference stood for before. *)
Definition stood_for (v : content) (r ref d : string) : Prop :=
  if is_digest ref then d = ref else tags v !! (r, ref) = Some d.

Lemma resolve_stood_for v r ref d mp : resolve v r ref = Some (d, mp) -> stood_for v r ref d.
Proof.
  unfold resolve, stood_for. destruct (is_digest ref); cbn; [|destruct (tags v !! _) as [d'|]; [|done]]; cbn;
    (destruct (manifests v !! _); [|done]); by intros [= -> ->].
Qed.

(** The source while the job runs: a reference stands for one digest, and a
    manifest that is pulled has the digest it comes with. *)
Context (at_src : string -> string -> option string).
Context (Hsrc : forall sr sf m dg, pulled sr sf m dg ->
  at_src sr sf = Some dg /\ forall mp, Payload m = Ok mp -> FromBytes mp.2 = dg).

Definition replicated (sr dr : string) (ov : bool) (v0 v' : content) (sf df : string) : Prop :=
  exists d mp, resolve v' dr df = Some (d, mp) /\
    (at_src sr sf = Some d \/ (ov = false /\ stood_for v0 dr df d)).

Lemma reached_replicated sr sf dr df ov v v' : reached sr sf dr df ov v v' -> replicated sr dr ov v v' sf df.
Proof.
  intros (m & dg & d & mp & Hp & Hr & Hor). exists d, mp. split; [done|].
  destruct (Hsrc _ _ _ _ Hp) as [Hat Hpl]. destruct Hor as [->|[[Hm ->]|[-> Hv]]].
  - by left.
  - left. by rewrite (Hpl _ Hm).
  - right. split; [done|by eapply resolve_stood_for].
Qed.

Lemma replicated_mono sr dr ov v0 v v' sf df :
  advance v v' -> tags v' !! (dr, df) = tags v !! (dr, df) ->
  replicated sr dr ov v0 v sf df -> replicated sr dr ov v0 v' sf df.
Proof.
  intros Ha Ht' (d & mp & Hr & Hor). destruct (resolve_advance v v' dr df d mp) as [mp' Hr']; [done..|].
  exists d, mp'. auto.
Qed.

Lemma replicated_before sr dr ov v0 v1 v' sf df :
  tags v1 !! (dr, df) = tags v0 !! (dr, df) -> replicated sr dr ov v1 v' sf df -> replicated sr dr ov v0 v' sf df.
Proof.
  intros Ht' (d & mp & Hr & Hor). exists d, mp. split; [done|]. unfold stood_for in *. by rewrite <- Ht'.
Qed.

(** The artifacts of a list of references copied one after another, with their
    outcomes. *)
Fixpoint artifact_copies fuel opts sr dr ov (l : list (string * string)) (s : St) : list (result unit) * St :=
  match l with
  | [] => ([], s)
  | p :: l =>
      let q := copyArtifact fuel t opts sr p.1 dr p.2 ov s in
      let z := artifact_copies fuel opts sr dr ov l q.2 in
      (q.1 :: z.1, z.2)
  end.

(** An outcome after which the job goes on. *)
Definition goes_on (o : result unit) : Prop := match o with Ok _ => True | Err e => is_stopped_err e = false end.

(** A loop that ends without an error has copied the artifacts up to its end,
    all with success, or up to one whose copy ended with the job's stop. *)
Lemma copy_loop_runs fuel opts sr dr ov srcs dsts err s s' :
  length srcs = length dsts -> copy_loop fuel t opts sr dr ov srcs dsts err s = (Ok None, s') ->
  exists n outs sn, artifact_copies fuel opts sr dr ov (take n (zip srcs dsts)) s = (outs, sn) /\
    ((n = length srcs /\ sn = s' /\ err = None /\ Forall (fun o => o = Ok tt) outs) \/
     (exists p e, zip srcs dsts !! n = Some p /\ copyArtifact fuel t opts sr p.1 dr p.2 ov sn = (Err e, s') /\
        is_stopped_err e = true /\ Forall goes_on outs)).
Proof.
  revert dsts err s. induction srcs as [|src srcs IH]; intros dsts err s Hlen E.
  { injection E as <- <-. exists 0%nat, [], s. split; [done|]. by left. }
  destruct dsts as [|dst dsts]; [done|]. injection Hlen as Hlen. cbn in E. unfold bind, try in E.
  destruct (copyArtifact fuel t opts sr src dr dst ov s) as [o1 s1] eqn:E1.
  assert (Hstep : forall err', copy_loop fuel t opts sr dr ov srcs dsts err' s1 = (Ok None, s') -> goes_on o1 ->
    (err' = None -> err = None /\ o1 = Ok tt) ->
    exists n outs sn, artifact_copies fuel opts sr dr ov (take n (zip (src :: srcs) (dst :: dsts))) s = (outs, sn) /\
    ((n = length (src :: srcs) /\ sn = s' /\ err = None /\ Forall (fun o => o = Ok tt) outs) \/
     (exists p e, zip (src :: srcs) (dst :: dsts) !! n = Some p /\ copyArtifact fuel t opts sr p.1 dr p.2 ov sn = (Err e, s') /\
        is_stopped_err e = true /\ Forall goes_on outs))).
  { intros err' E' Hg He. destruct (IH _ _ _ Hlen E') as (n & outs & sn & Er & Hor).
    exists (S n), (o1 :: outs), sn. split; [cbn; by rewrite E1; cbn; rewrite Er|]. destruct Hor as [(-> & -> & Hn & F)|(p & e & Hp & Hc & Hs & F)].
    - left. destruct (He Hn) as [-> ->]. split_and!; [done..|by constructor].
    - right. exists p, e. split_and!; [done..|by constructor]. }
  destruct o1 as [[]|e]; [by apply (Hstep err)|].
  destruct (is_stopped_err e) eqn:Es; [|by apply (Hstep (Some e))].
  injection E as <-. exists 0%nat, [], s. split; [done|]. right. exists (src, dst), e. by split_and!.
Qed.

(** Every copy with success is there when all of them are done. *)
Lemma copies_replicated fuel opts sr dr ov v0 l s outs sn :
  artifact_copies fuel opts sr dr ov l s = (outs, sn) -> named (see s) -> NoDup l.*2 ->
  (forall df, df ∈ l.*2 -> tags (see s) !! (dr, df) = tags v0 !! (dr, df)) ->
  copy_step dr l.*2 (see s) (see sn) /\ length outs = length l /\
  forall i p, l !! i = Some p -> outs !! i = Some (Ok tt) -> replicated sr dr ov v0 (see sn) p.1 p.2.
Proof.
  revert s outs. induction l as [|[sf df] l IH]; intros s outs E Hn Hnd H0.
  { injection E as <- <-. split_and!; [by split|done|intros i p H; by destruct i]. }
  cbn in E. destruct (copyArtifact fuel t opts sr sf dr df ov s) as [o1 s1] eqn:E1. cbn in E.
  destruct (artifact_copies fuel opts sr dr ov l s1) as [outs1 s2] eqn:E2. injection E as <- <-.
  cbn [fmap list_fmap snd] in *. apply NoDup_cons in Hnd as [Hni Hnd].
  destruct (copyArtifact_spec _ _ _ _ _ _ _ _ _ _ E1 Hn) as [[Ha Hn1 Htg _ _] Hr].
  destruct (IH s1 outs1 E2 Hn1 Hnd) as ([Ha' Hn' Htg'] & Hlen & Hok).
  { intros d Hin. rewrite Htg; [by apply H0; right|]. by intros [= ->]. }
  split_and!.
  - split; [by etrans|done|]. intros r tag Hne. rewrite Htg', Htg; [done| |].
    + intros [= -> ->]. apply (Hne eq_refl). by left.
    + intros Hr' Hin. apply (Hne Hr'). by right.
  - cbn. by rewrite Hlen.
  - intros [|i] p; cbn; [|apply Hok]. intros [= <-] [= ->]. cbn.
    eapply replicated_mono; [exact Ha'|by apply Htg'|].
    eapply replicated_before; [by apply H0; left|]. by apply reached_replicated, Hr.
Qed.

End Copy.

(** ** Deleting *)

Section Delete.

Context `{DI : Distribution} {St : Type} (see : St -> content) (t : transfer St) (Ht : lawful see t).

Lemma resolve_deleted v r r' d ref x : resolve (delete_manifest v r' d) r ref = Some x -> resolve v r ref = Some x.
Proof.
  unfold resolve. destruct (is_digest ref); cbn.
  - destruct (base.delete (r', d) (manifests v) !! (r, ref)) as [m|] eqn:Hm; [|done].
    apply lookup_delete_Some in Hm as [_ ->]. done.
  - destruct (filter _ (tags v) !! (r, ref)) as [d'|] eqn:Hf; [|done].
    apply map_lookup_filter_Some in Hf as [-> _]. cbn.
    destruct (base.delete (r', d) (manifests v) !! (r, d')) as [m|] eqn:Hm; [|done].
    apply lookup_delete_Some in Hm as [_ ->]. done.
Qed.

Lemma digest_deleted v r ref d : digest_of v r ref d -> resolve (delete_manifest v r d) r ref = None.
Proof.
  intros Hd. destruct (resolve (delete_manifest v r d) r ref) as [x|] eqn:E; [|done]. exfalso.
  unfold digest_of in Hd. unfold resolve in E. destruct (is_digest ref) eqn:Hr; cbn in E.
  - subst. by rewrite lookup_delete_eq in E.
  - destruct (filter _ (tags v) !! (r, ref)) as [d'|] eqn:Hf; [|done].
    apply map_lookup_filter_Some in Hf as [Ht' Hne]. destruct Hd as [m Hd]. unfold resolve in Hd.
    rewrite Hr, Ht' in Hd. cbn in Hd. destruct (manifests v !! (r, d')); [|done]. injection Hd as -> _. by apply Hne.
Qed.

Lemma delete_one_spec r ref s out s' : delete_one t r ref s = (out, s') ->
  (forall r' x, resolve (see s) r' x = None -> resolve (see s') r' x = None) /\
  (out = Ok tt -> resolve (see s') r ref = None).
Proof.
  destruct Ht as (Hd & _ & _). unfold delete_one, bind. intros E.
  destruct (ar_ManifestExist _ _ _ s) as [o1 s1] eqn:E1; apply (l_ManifestExist _ _ Hd) in E1 as [Hv Hm].
  destruct o1 as [[[] desc]|e]; cbn in E.
  - apply (l_DeleteManifest _ _ Hd) in E as [H1 H2]. rewrite Hv in H1, H2. split.
    + intros r' x Hx. destruct H2 as [->|(d & _ & ->)]; [done|].
      destruct (resolve (delete_manifest _ _ _) r' x) eqn:Er; [|done]. apply resolve_deleted in Er. congruence.
    + intros ->. destruct (H1 eq_refl) as (d & Hdg & ->). by apply digest_deleted.
  - injection E as <- <-. rewrite Hv. split; [done|]. by destruct desc.
  - injection E as <- <-. rewrite Hv. done.
Qed.

Lemma delete_all_spec r l s s' : iterM (delete_one t r) l s = (Ok tt, s') ->
  (forall r' x, resolve (see s) r' x = None -> resolve (see s') r' x = None) /\
  Forall (fun ref => resolve (see s') r ref = None) l.
Proof.
  revert s. induction l as [|ref l IH]; intros s E; [injection E as <-; done|]. cbn in E. unfold bind in E.
  destruct (delete_one t r ref s) as [[[]|e] s1] eqn:E1; [|done]. apply delete_one_spec in E1 as [H1 H2].
  apply IH in E as [H3 H4]. split; [auto|]. constructor; [auto|done].
Qed.

End Delete.

(** ** Depth of the recursion *)

Section Depth.

Context `{DI : Distribution} {St : Type} (t : transfer St) (opts : Options) (sr : string).

(** The manifests of the source by depth: what a manifest refers to lies
    deeper than the manifest. *)
Context (rank : string -> nat).
Context (Hrank : forall ref m dg x, pulled t sr ref m dg -> x ∈ References m ->
  is_manifest_type (d_MediaType x) = true -> (rank (d_Digest x) < rank ref)%nat).

Lemma copyContent_ext f g dr x s :
  (is_manifest_type (d_MediaType x) = true -> f sr (d_Digest x) dr (d_Digest x) true s = g sr (d_Digest x) dr (d_Digest x) true s) ->
  copyContent f t sr dr opts x s = copyContent g t sr dr opts x s.
Proof. unfold copyContent. destruct (is_manifest_type _); [|done]. intros H. by apply H. Qed.

Lemma copyArtifact_fuel_mono n n' ref dr df ov s :
  (rank ref < n)%nat -> (rank ref < n')%nat ->
  copyArtifact n t opts sr ref dr df ov s = copyArtifact n' t opts sr ref dr df ov s.
Proof.
  revert n' ref df ov s. induction n as [|n IH]; intros [|n'] ref df ov s Hn Hn'; [lia..|].
  cbn. unfold bind. destruct (pullManifest t sr ref s) as [[[m dg]|e] s1] eqn:Ep; [|done].
  assert (pulled t sr ref m dg) as Hp.
  { unfold pullManifest, bind in Ep. destruct (shouldStop t s) as [[[]|e] s0]; [done| |done]. by do 2 eexists. }
  destruct (exist_ t dr df s1) as [[[found d2]|e] s2]; [|done].
  destruct (found && _); [done|]. destruct (found && _); [done|].
  assert (forall l s, (forall x, x ∈ l -> x ∈ References m) ->
    iterM (copyContent (copyArtifact n t opts) t sr dr opts) l s =
    iterM (copyContent (copyArtifact n' t opts) t sr dr opts) l s) as Hi.
  { clear s2. induction l as [|x l IHl]; intros s2 Hl; [done|]. cbn. unfold bind.
    rewrite (copyContent_ext _ (copyArtifact n' t opts)).
    - destruct (copyContent _ _ _ _ _ _ s2) as [[u|e] s3]; [|done]. apply IHl. intros y Hy. apply Hl. by right.
    - intros Hm. assert (rank (d_Digest x) < rank ref)%nat by (eapply Hrank; [exact Hp|apply Hl; by left|done]).
      apply IH; lia. }
  by rewrite Hi.
Qed.

End Depth.

(** ** Copying inside a registry *)

Section ClientCopy.

Context `{DI : Distribution} `{DE : Decoders} {LM : LawfulManifests}.
Context {St : Type} (send : request -> M St response) (see : St -> content) {OR : OciRegistry St send see}.
Context (c : client St) (Hc : discreet see c).

(** The payload of a parsed manifest is what was parsed. *)
Context (Hpay : forall mt p m mp, UnmarshalManifest mt p = Ok m -> Payload m = Ok mp -> mp.2 = p).

(** What [Client.Copy] leaves and reaches. *)
Definition client_copies (f : string -> string -> string -> string -> bool -> M St unit) : Prop :=
  forall sr sf dr df ov s out s', f sr sf dr df ov s = (out, s') -> closed (see s) -> addressed (see s) ->
    advance (see s) (see s') /\ (forall k, k <> (dr, df) -> tags (see s') !! k = tags (see s) !! k) /\
    (is_digest df = true -> tags (see s') = tags (see s)) /\
    (is_ok out = true -> exists d mp mp', resolve (see s) sr sf = Some (d, mp) /\ resolve (see s') dr df = Some (d, mp')).

Definition copy_reference f (sr dr : string) (x : Descriptor) : M St unit :=
  if d_MediaType x =s= MediaTypeForeignLayer then ret tt
  else if is_manifest_type (d_MediaType x) then f sr (d_Digest x) dr (d_Digest x) false
  else
    found <- BlobExist send c dr (d_Digest x) ;;
    if found : bool then ret tt else MountBlob send c sr (d_Digest x) dr.

Lemma copy_reference_spec f sr dr x s out s' :
  client_copies f -> is_digest (d_Digest x) = true -> copy_reference f sr dr x s = (out, s') ->
  closed (see s) -> addressed (see s) -> present (see s) sr x ->
  advance (see s) (see s') /\ tags (see s') = tags (see s) /\ (is_ok out = true -> present (see s') dr x).
Proof.
  intros Hf Hd. unfold copy_reference, present. destruct (String.eqb_spec (d_MediaType x) MediaTypeForeignLayer) as [->|_].
  { intros [= <- <-] _ _ _. done. }
  destruct (is_manifest_type _).
  { intros E Hcl Had _. destruct (Hf _ _ _ _ _ _ _ _ E Hcl Had) as (Ha & _ & Ht & Hr). split_and!; [done|by apply Ht|].
    intros Ho. destruct (Hr Ho) as (d & mp & mp' & _ & Hres). apply resolve_digest; [done|by eexists]. }
  unfold bind. intros E _ _ Hp. destruct (BlobExist send c dr (d_Digest x) s) as [o1 s1] eqn:E1.
  eapply BlobExist_spec in E1 as [Hv Hb]; [|done..].
  destruct o1 as [[]|e]; [injection E as <- <-; by rewrite Hv| |injection E as <- <-; by rewrite Hv].
  eapply MountBlob_spec in E as (Hm & Hn & _ & Hi); [|done..]. rewrite Hv in Hm, Hn, Hi.
  split_and!; [by eapply advance_blob|by destruct Hm as [[_ ?] _]|auto].
Qed.

Lemma copy_references_spec f sr dr l s out s' :
  client_copies f -> Forall (fun x => is_digest (d_Digest x) = true) l ->
  iterM (copy_reference f sr dr) l s = (out, s') -> closed (see s) -> addressed (see s) -> Forall (present (see s) sr) l ->
  advance (see s) (see s') /\ tags (see s') = tags (see s) /\ (is_ok out = true -> Forall (present (see s') dr) l).
Proof.
  intros Hf Hl. revert s. induction Hl as [|x l Hx Hl IH]; intros s E Hcl Had Hp; [injection E as <- <-; done|].
  cbn in E. unfold bind in E. apply Forall_cons in Hp as [Hpx Hpl].
  destruct (copy_reference f sr dr x s) as [o1 s1] eqn:E1.
  apply copy_reference_spec in E1 as (Ha & Ht & Hp1); [|done..].
  destruct o1 as [[]|e]; [|injection E as <- <-; done].
  apply IH in E as (Ha' & Ht' & Hp'); [|by apply Ha|by apply Ha|].
  - split_and!; [by etrans|congruence|]. intros Ho. constructor; [|auto]. eapply present_advance; [done|auto].
  - eapply Forall_impl; [exact Hpl|]. intros y. by apply present_advance.
Qed.

Lemma client_copy_spec fuel : client_copies (Copy send fuel c).
Proof.
  induction fuel as [|fuel IH]; intros sr sf dr df ov s out s' E Hcl Had; [injection E as <- <-; done|].
  cbn in E. unfold bind in E. destruct (PullManifest send c sr sf [] s) as [o1 s1] eqn:E1.
  eapply PullManifest_spec in E1 as [Hv1 Hm]; [|done..]. destruct o1 as [[m dg]|e]; [|injection E as <- <-; by rewrite Hv1].
  destruct Hm as (mt & p & Hr & Hu). destruct (ManifestExist send c dr df s1) as [o2 s2] eqn:E2.
  eapply ManifestExist_spec in E2 as [Hv2 Hx]; [|done..]. rewrite Hv1 in Hv2, Hx.
  destruct o2 as [[found desc]|e]; [|injection E as <- <-; by rewrite Hv2].
  destruct (found && _) eqn:Ef.
  { injection E as <- <-. rewrite Hv2. split_and!; [done..|]. intros _. apply andb_true_iff in Ef as [-> Ed].
    destruct desc as [desc|]; [|done]. destruct Hx as (mt2 & p2 & Hx). apply String.eqb_eq in Ed. subst dg. eauto. }
  destruct (found && negb ov); [injection E as <- <-; by rewrite Hv2|].
  destruct (iterM _ _ s2) as [o3 s3] eqn:E3.
  assert (Forall (present (see s) sr) (References m)) as Hpr.
  { apply resolve_manifest in Hr. by eapply Hcl. }
  change (iterM (copy_reference (Copy send fuel c) sr dr) (References m) s2 = (o3, s3)) in E3.
  apply copy_references_spec in E3 as (Ha & Ht & Hp); [|done|apply references_digests|by rewrite Hv2..].
  rewrite Hv2 in Ha, Ht. destruct o3 as [[]|e]; [|injection E as <- <-; split_and!; [done|by rewrite Ht|done|done]].
  unfold of_result in E. destruct (Payload m) as [[mt' p']|e] eqn:Ep; [|injection E as <- <-; split_and!; [done|by rewrite Ht|done|done]].
  destruct (PushManifest send c dr df _ _ s3) as [o4 s4] eqn:E4. eapply PushManifest_spec in E4; [|done..]. cbn in E4.
  pose proof (Hpay _ _ _ _ Hu Ep) as Hpp. cbn in Hpp. subst p'.
  assert (FromBytes p = dg) as Hdg by exact (Had _ _ _ (resolve_manifest _ _ _ _ _ Hr)).
  assert (advance (see s3) (put_manifest (see s3) dr df mt' p)) as Ha'.
  { apply advance_put. intros m' Hm'. rewrite (payload_references m mt' p m') by done. by apply Hp. }
  destruct (put_tags (see s3) dr df mt' p) as [Htg Hdt].
  assert (see s4 = see s3 \/ see s4 = put_manifest (see s3) dr df mt' p) as Hor
    by (destruct o4; [right; by destruct E4|done]).
  split_and!.
  - destruct o4; injection E as <- <-; (etrans; [exact Ha|]); destruct Hor as [->| ->]; done.
  - intros k Hne. destruct o4; injection E as <- <-; rewrite <- Ht; destruct Hor as [->| ->]; auto.
  - intros Hdf. destruct o4; injection E as <- <-; rewrite <- Ht; destruct Hor as [->| ->]; auto.
  - destruct o4; injection E as <- <-; [|done]. intros _. destruct E4 as [Hdf ->].
    exists dg, (mt, p), (mt', p). split; [done|]. rewrite <- Hdg. by apply put_resolves.
Qed.

End ClientCopy.

(** ** Two registries in memory *)

Module Concrete.

Import MemRegistry.

(** Manifests whose payload lists [type;digest;size] for each reference. *)
Definition hash (s : string) : Z :=
  let fix go (s : string) (h : Z) : Z :=
    match s with
    | EmptyString => h
    | String c s' => go s' ((h * 131 + Z.of_N (Ascii.N_of_ascii c)) mod (2 ^ 61 - 1))
    end in go s 7.

Definition sha (s : string) : string := ("sha256:" ++ Strconv.format_int (hash s))%string.
Definition sha_like (s : string) : bool := GoStrings.HasPrefix s "sha256:".

Definition parse_refs (p : string) : list Descriptor :=
  flat_map (fun item =>
    match GoStrings.Split item ";" with
    | [mt; d; z] => if sha_like d then [mkDesc mt d (Atoi_value z)] else []
    | _ => []
    end) (GoStrings.Split p ",").

#[export] Instance toy_distribution : Distribution := {|
  manifest := string * string;
  UnmarshalManifest mt p := Ok (mt, p);
  References m := parse_refs m.2;
  Payload m := Ok m;
  is_digest := sha_like;
  FromBytes := sha |}.

#[export] Instance toy_lawful : LawfulManifests.
Proof.
  constructor.
  - intros [? ?] mt p m' [= -> ->] [= <-]. done.
  - intros [mt p]. cbn. unfold parse_refs. induction (GoStrings.Split p ",") as [|x l IH]; cbn; [done|].
    apply Forall_app. split; [|done]. repeat case_match; try done. by constructor.
Qed.

#[export] Instance toy_decoders : Decoders := {|
  location_ok _ := true;
  decode_list _ := Ok [];
  decode_index _ := Ok [] |}.

(** An image of two blobs, and an index that refers to it. *)
Definition layer : string := "a layer of twenty bytes".
Definition image_config : string := "{}".
Definition image : string :=
  ("application/vnd.docker.image.rootfs.diff.tar.gzip;" ++ sha layer ++ ";23,application/json;" ++ sha image_config ++ ";2")%string.
Definition mt_image : string := "application/vnd.oci.image.manifest.v1+json".
Definition mt_index : string := "application/vnd.oci.image.index.v1+json".
Definition index : string := (mt_image ++ ";" ++ sha image ++ ";10")%string.

Definition source_content : content := mkContent
  {[ ("library/app", sha layer) := layer; ("library/app", sha image_config) := image_config ]}
  {[ ("library/app", sha image) := (mt_image, image); ("library/app", sha index) := (mt_index, index) ]}
  {[ ("library/app", "v1") := sha image; ("library/app", "v2") := sha index ]} ∅.

Definition empty : content := mkContent ∅ ∅ ∅ ∅.

(** The source, whose content stays the same, is a read-only registry; what
    changes is the list of its faults, the destination, and how many more
    times the job may be asked whether it is stopped before it is. *)
Record world := mkWorld { w_src : list fault; w_dst : mem; w_stop : option nat }.

Definition send_src (req : request) : M world response := fun w =>
  if reads (r_method req) (r_target req)
  then let '(r, x) := mem_send req (mkMem source_content (w_src w)) in (r, mkWorld (faults x) (w_dst w) (w_stop w))
  else (Ok (mkResp 405 [] ""), w).

Definition send_dst (req : request) : M world response := fun w =>
  let '(r, x) := mem_send req (w_dst w) in (r, mkWorld (w_src w) x (w_stop w)).

Definition see_src (w : world) : content := source_content.
Definition see_dst (w : world) : content := seen (w_dst w).

Definition plain : client world := mkClient [] None.

Lemma plain_discreet see : discreet see plain.
Proof. by constructor. Qed.

(** A step of a request that reads leaves the content as it is. *)
Lemma oci_step_reads v req out v' : reads (r_method req) (r_target req) = true -> oci_step v req out v' -> v' = v.
Proof.
  destruct req as [m t h b a]; cbn. intros Hr H. assert (left_behind v (mkReq m t h b a) v' -> v' = v) as Hl.
  { intros [->|[[resp Hh]|Hk]]; [done|by eapply handled_reads|]. cbn in Hk.
    inversion Hk as [m' ? ? ? ? ? ? ? ? ? ? Hm]; subst. by destruct Hm as [-> | ->]. }
  inversion H; subst; [by eapply handled_reads|auto..].
Qed.

#[export] Instance src_oci : OciRegistry world send_src see_src.
Proof.
  intros req w out w'. unfold send_src. destruct (reads _ _) eqn:Hr.
  - destruct (mem_send req _) as [r x] eqn:E. intros [= <- <-]. eapply mem_oci in E; [|done]. cbn in E.
    by rewrite (oci_step_reads _ _ _ _ Hr E) in E.
  - intros [= <- <-]. apply s_refused; [done|by left].
Qed.

#[export] Instance dst_oci : OciRegistry world send_dst see_dst.
Proof.
  intros req w out w'. unfold send_dst. destruct (mem_send req (w_dst w)) as [r x] eqn:E.
  intros [= <- <-]. by eapply mem_oci in E.
Qed.

Definition stop_now (w : world) : bool * world :=
  match w_stop w with
  | None => (false, w)
  | Some O => (true, w)
  | Some (S n) => (false, mkWorld (w_src w) (w_dst w) (Some n))
  end.

Definition job : transfer world :=
  mkTransfer stop_now (native send_src plain) (native send_dst plain) (mkConfig 5 5 4).

(** A request to the source leaves the destination alone. *)
Lemma do_src req w out w' : do_ send_src plain req w = (out, w') -> see_dst w' = see_dst w.
Proof.
  unfold do_, authorize, bind, send_src. cbn. destruct (reads _ _); [|by intros [= <- <-]].
  destruct (mem_send _ _) as [[resp|e] x]; [|by intros [= <- <-]]. cbn. destruct (_ || _); by intros [= <- <-].
Qed.

Lemma source_lawful : lawful_src see_dst (native send_src plain).
Proof.
  constructor; cbn.
  - intros r ref w out w'. unfold PullManifest, bind, of_result.
    destruct (do_ _ _ _ w) as [[resp|e] w1] eqn:E; apply do_src in E; [|by intros [= <- <-]].
    intros H. destruct (UnmarshalManifest _ _); by injection H as <- <-.
  - intros r d w out w'. unfold PullBlob, bind, of_result.
    destruct (do_ _ _ _ w) as [[resp|e] w1] eqn:E; apply do_src in E; [|by intros [= <- <-]].
    intros H. destruct (content_length _); by injection H as <- <-.
  - intros r d z a b w out w'. unfold PullBlobChunk, bind, of_result.
    destruct (do_ _ _ _ w) as [[resp|e] w1] eqn:E; apply do_src in E; [|by intros [= <- <-]].
    intros H. destruct (content_length _); by injection H as <- <-.
Qed.

Lemma job_lawful : lawful see_dst job.
Proof.
  split_and!; [apply native_lawful, plain_discreet; apply _|apply source_lawful|].
  intros w. cbn. unfold stop_now. by destruct (w_stop w) as [[]|].
Qed.

Definition start_world (fs_src fs_dst : list fault) (stop : option nat) : world :=
  mkWorld fs_src (mkMem empty fs_dst) stop.

Definition app : repository := mkRepository "library/app" ["v1"; "v2"].
Definition mirror : repository := mkRepository "mirror/app" ["v1"; "v2"].

End Concrete.

(** ** Properties *)

Import Concrete.

(** C28: Whatever fails, and wherever the job is stopped, copying a repository
    to a destination where every manifest has what it refers to and every
    blob is what its digest says leaves such a destination; tags other than
    those asked for stay what they were. *)
Theorem copy_keeps_complete `{DI : Distribution} `{LM : !LawfulManifests} {St} (see : St -> content) (t : transfer St)
    fuel opts src dst override s out s' :
  lawful see t -> cf_blobRetry (t_config t) <> 0%nat -> cf_chunkRetry (t_config t) <> 0%nat ->
  named (see s) -> closed (see s) -> intact (see s) ->
  copy fuel t opts src dst override s = (out, s') ->
  closed (see s') /\ intact (see s') /\
  forall r tag, (r = r_repository dst -> tag ∉ r_tags dst) -> tags (see s') !! (r, tag) = tags (see s) !! (r, tag).
Proof.
  intros Ht Hb Hk Hn Hc Hi E. unfold copy, bind in E.
  destruct (copy_loop _ _ _ _ _ _ _ _ _ s) as [o1 s1] eqn:E1.
  eapply copy_loop_step in E1 as [Ha _ Htg]; [|done..].
  assert (s' = s1) as -> by (destruct o1 as [[]|]; by injection E as <- <-).
  split_and!; [by apply Ha|by apply Ha|done].
Qed.

Lemma copy_keeps_complete_witness :
  let r := copy 5 job (mkOptions 0 true) app mirror true
             (start_world [MemRegistry.Pass; MemRegistry.Down] [MemRegistry.Pass; MemRegistry.Lost; MemRegistry.Broken 2] (Some 9%nat)) in
  is_ok r.1 = true /\ closed (see_dst r.2).
Proof.
  split; [vm_compute; reflexivity|].
  eapply (copy_keeps_complete see_dst job); [apply job_lawful|done|done|..].
  4: apply surjective_pairing.
  - done.
  - by intros ? ? ? ? ?.
  - by intros ? ? ?.
Defined.

(** C29: A copy that reports success either went through to its end, with every
    artifact copied, or ended with the job's stop in the copy of one artifact.
    In both cases, every reference whose copy had succeeded by then stands at
    the destination for what the source's reference stands for, or, where
    overriding was not allowed, for what it stood for before.  In the first case
    these are all the references; in the second one, the copies before the stop
    are those of this run, in its order, and references whose copy failed before
    the stop, or that come after it, are left out although the copy reports
    success. *)
Theorem copy_replicates `{DI : Distribution} `{LM : !LawfulManifests} {St} (see : St -> content) (t : transfer St)
    (at_src : string -> string -> option string) fuel opts src dst override s s' :
  lawful see t -> cf_blobRetry (t_config t) <> 0%nat -> cf_chunkRetry (t_config t) <> 0%nat ->
  (forall sr sf m dg, pulled t sr sf m dg ->
     at_src sr sf = Some dg /\ forall mp, Payload m = Ok mp -> FromBytes mp.2 = dg) ->
  named (see s) -> length (r_tags src) = length (r_tags dst) -> NoDup (r_tags dst) ->
  copy fuel t opts src dst override s = (Ok tt, s') ->
  let refs := zip (r_tags src) (r_tags dst) in
  exists n outs sn,
    artifact_copies t fuel opts (r_repository src) (r_repository dst) override (take n refs) s = (outs, sn) /\
    length outs = n /\
    (forall i p, refs !! i = Some p -> outs !! i = Some (Ok tt) ->
       replicated at_src (r_repository src) (r_repository dst) override (see s) (see s') p.1 p.2) /\
    ((n = length refs /\ sn = s' /\ Forall (fun o => o = Ok tt) outs) \/
     (exists p e, refs !! n = Some p /\ is_stopped_err e = true /\ Forall goes_on outs /\
        copyArtifact fuel t opts (r_repository src) p.1 (r_repository dst) p.2 override sn = (Err e, s'))).
Proof.
  intros Ht Hb Hk Hsrc Hn Hlen Hnd E refs. unfold copy, bind in E.
  destruct (copy_loop _ _ _ _ _ _ _ _ _ s) as [[[e|]|e] s1] eqn:E1; [done| |done]. injection E as ->.
  destruct (copy_loop_runs _ _ _ _ _ _ _ _ _ _ _ Hlen E1) as (n & outs & sn & Er & Hor). fold refs in Er, Hor.
  assert (E2 : refs.*2 = r_tags dst) by (apply snd_zip; lia).
  assert (Hsub : forall df, df ∈ (take n refs).*2 -> df ∈ refs.*2).
  { intros df. rewrite fmap_take. by apply subseteq_take. }
  assert (Hnt : NoDup (take n refs).*2).
  { rewrite fmap_take, E2. eapply sublist_NoDup; [done|apply sublist_take]. }
  destruct (copies_replicated see t Ht Hb Hk at_src Hsrc _ _ _ _ _ (see s) _ _ _ _ Er Hn Hnt) as (Hst & Hl & Hok); [done|].
  assert (Hlook : forall i p, refs !! i = Some p -> outs !! i = Some (Ok tt) -> take n refs !! i = Some p).
  { intros i p Hi Ho%lookup_lt_Some. rewrite Hl, length_take in Ho. rewrite lookup_take_lt by lia. done. }
  exists n, outs, sn. split; [done|]. destruct Hor as [(-> & -> & _ & F)|(p & e & Hp & Hc & Hs & F)].
  - assert (Hr : length refs = length (r_tags src)) by (unfold refs; rewrite length_zip_with_l_eq; done).
    split; [rewrite Hl, length_take, Hr; lia|]. split; [by eauto|]. left. by rewrite Hr.
  - pose proof (lookup_lt_Some _ _ _ Hp) as Hlt. split; [rewrite Hl, length_take; lia|]. split; [|by right; exists p, e].
    intros i q Hi Ho. destruct (copyArtifact_spec see t Ht Hb Hk _ _ _ _ _ _ _ _ _ _ Hc (cs_named _ _ _ _ Hst)) as [[Ha _ Htg _ _] _].
    eapply replicated_mono; [exact Ha| |by eapply Hok; [apply Hlook|]].
    apply Htg. intros [= E3]. assert (Hin : i <> n).
    { intros ->. apply lookup_lt_Some in Ho. rewrite Hl, length_take in Ho. lia. }
    apply Hin. rewrite <- E2 in Hnd. apply (NoDup_lookup _ _ _ p.2 Hnd); rewrite list_lookup_fmap.
    + rewrite Hi. cbn. congruence.
    + by rewrite Hp.
Qed.

(** Where what a manifest refers to lies deeper than the manifest, as it
    does when references are digests, copying an artifact ends: more fuel
    than its depth changes nothing. *)
Theorem copy_artifact_ends `{DI : Distribution} {St} (t : transfer St) opts sr (rank : string -> nat) n ref dr df ov s :
  (forall ref m dg x, pulled t sr ref m dg -> x ∈ References m ->
     is_manifest_type (d_MediaType x) = true -> (rank (d_Digest x) < rank ref)%nat) ->
  (rank ref < n)%nat -> copyArtifact n t opts sr ref dr df ov s = copyArtifact (S (rank ref)) t opts sr ref dr df ov s.
Proof. intros Hr Hn. eapply copyArtifact_fuel_mono; [exact Hr|lia..]. Qed.

Lemma job_pulls sr sf m dg : pulled job sr sf m dg ->
  (fst <$> resolve source_content sr sf) = Some dg /\ exists mt p, resolve source_content sr sf = Some (dg, (mt, p)) /\ m = (mt, p).
Proof.
  intros (w & w' & E). cbn in E. destruct (PullManifest_spec (DI := toy_distribution) (send := send_src) plain (plain_discreet see_src) _ _ _ _ _ _ E) as [_ (mt & p & Hr & Hu)].
  unfold see_src in Hr. rewrite Hr. split; [done|]. exists mt, p. split; [done|]. by injection Hu as <-.
Qed.

Lemma source_addressed : map_Forall (fun k mp => sha mp.2 = k.2) (manifests source_content).
Proof. apply (bool_decide_eq_true_1 (map_Forall _ _)). vm_compute. reflexivity. Qed.

Lemma source_digests sr sf dg mt p : resolve source_content sr sf = Some (dg, (mt, p)) -> sha p = dg.
Proof. intros H%resolve_manifest. exact (source_addressed _ _ H). Qed.

(** The job is stopped after the first reference is copied: it is there, the
    second one is not, and the copy reports success. *)
Lemma copy_replicates_witness :
  let s := start_world [] [] (Some 5%nat) in
  let r := copy 5 job (mkOptions 0 false) app mirror false s in
  r.1 = Ok tt /\ resolve (see_dst r.2) "mirror/app" "v2" = None /\
  exists n outs sn,
    artifact_copies job 5 (mkOptions 0 false) "library/app" "mirror/app" false (take n [("v1", "v1"); ("v2", "v2")]%string) s = (outs, sn) /\
    forall i p, [("v1", "v1"); ("v2", "v2")]%string !! i = Some p -> outs !! i = Some (Ok tt) ->
      replicated (fun sr sf => fst <$> resolve source_content sr sf) "library/app" "mirror/app" false
        (see_dst s) (see_dst r.2) p.1 p.2.
Proof.
  split; [vm_compute; reflexivity|]. split; [vm_compute; reflexivity|].
  destruct (copy_replicates see_dst job (fun sr sf => fst <$> resolve source_content sr sf) 5 (mkOptions 0 false) app mirror false
              (start_world [] [] (Some 5%nat)) (copy 5 job (mkOptions 0 false) app mirror false (start_world [] [] (Some 5%nat))).2)
    as (n & outs & sn & H1 & _ & H2 & _);
    [apply job_lawful|done|done| |done|done| | |by exists n, outs, sn].
  - intros sr sf m dg Hp. destruct (job_pulls _ _ _ _ Hp) as (Hf & mt & p & Hr & ->). split; [done|].
    intros mp [= <-]. by eapply source_digests.
  - apply (bool_decide_eq_true_1 (NoDup _)). vm_compute. reflexivity.
  - vm_compute. reflexivity.
Defined.

(** When a deletion is replicated without an error and the job was not
    stopped, none of the references named resolves at the destination any
    more, and none has come back elsewhere. *)
Theorem deletion_removes_references `{DI : Distribution} {St} (see : St -> content) (t : transfer St) repo s s' :
  lawful see t -> (isStopped t s).1 = false -> delete_ t repo s = (Ok tt, s') ->
  Forall (fun ref => resolve (see s') (r_repository repo) ref = None) (r_tags repo) /\
  forall r x, resolve (see s) r x = None -> resolve (see s') r x = None.
Proof.
  intros Ht Hs E. unfold delete_, bind in E.
  destruct (shouldStop t s) as [o1 s1] eqn:E1. pose proof E1 as E1'. unfold shouldStop in E1'.
  destruct (isStopped t s) as [b s0] eqn:Eb. injection E1' as <- <-. cbn in Hs. subst b.
  eapply shouldStop_spec in E1 as [Hv _]; [|done]. eapply delete_all_spec in E as [H1 H2]; [|done].
  rewrite Hv in H1. done.
Qed.

Definition full_world : world := mkWorld [] (MemRegistry.mkMem source_content []) None.

Lemma deletion_removes_references_witness :
  let r := delete_ job (mkRepository "library/app" ["v1"; "v3"]) full_world in
  r.1 = Ok tt /\ Forall (fun ref => resolve (see_dst r.2) "library/app" ref = None) ["v1"; "v3"].
Proof.
  split; [vm_compute; reflexivity|].
  eapply (deletion_removes_references see_dst job (mkRepository "library/app" ["v1"; "v3"]) full_world);
    [apply job_lawful|reflexivity|].
  vm_compute. reflexivity.
Defined.

Definition app_rank (ref : string) : nat :=
  match resolve source_content "library/app" ref with
  | Some (d, _) => if d =s= sha index then 1 else 0
  | None => 0
  end.

Lemma index_is_deeper : map_Forall (fun k mp => Forall (fun x =>
  is_manifest_type (d_MediaType x) = true -> (app_rank (d_Digest x) < if k.2 =s= sha index then 1 else 0)%nat)
  (parse_refs mp.2)) (manifests source_content).
Proof. apply (bool_decide_eq_true_1 (map_Forall _ _)). vm_compute. reflexivity. Qed.

Lemma copy_artifact_ends_witness :
  copyArtifact 9 job (mkOptions 0 false) "library/app" "v2" "mirror/app" "v2" false (start_world [] [] None)
  = copyArtifact 2 job (mkOptions 0 false) "library/app" "v2" "mirror/app" "v2" false (start_world [] [] None).
Proof.
  eapply (copy_artifact_ends job (mkOptions 0 false) "library/app" app_rank 9 "v2").
  - intros ref m dg x Hp Hx Hm. destruct (job_pulls _ _ _ _ Hp) as (_ & mt & p & Hr & ->).
    pose proof (index_is_deeper _ _ (resolve_manifest _ _ _ _ _ Hr)) as Hd.
    rewrite Forall_forall in Hd. specialize (Hd x Hx Hm).
    unfold app_rank at 2. by rewrite Hr.
  - apply (bool_decide_eq_true_1 (_ < _)%nat). vm_compute. reflexivity.
Defined.

(** [Client.Copy] inside a registry where everything is complete leaves it
    so, touches no tag but the one asked for, and when it succeeds has made
    it stand for the source's digest. *)
Theorem client_copy_complete `{DI : Distribution} `{DE : Decoders} `{LM : !LawfulManifests} {St}
    (send : request -> M St response) (see : St -> content) `{OR : !OciRegistry St send see} (c : client St)
    fuel sr sf dr df override s out s' :
  discreet see c -> (forall mt p m mp, UnmarshalManifest mt p = Ok m -> Payload m = Ok mp -> mp.2 = p) ->
  closed (see s) -> addressed (see s) -> Copy send fuel c sr sf dr df override s = (out, s') ->
  closed (see s') /\ (forall k, k <> (dr, df) -> tags (see s') !! k = tags (see s) !! k) /\
  (out = Ok tt -> exists d mp mp', resolve (see s) sr sf = Some (d, mp) /\ resolve (see s') dr df = Some (d, mp')).
Proof.
  intros Hc Hp Hcl Had E. destruct (client_copy_spec send see c Hc Hp _ _ _ _ _ _ _ _ _ E Hcl Had) as (Ha & Ht & _ & Hr).
  split_and!; [by apply Ha|done|]. intros ->. by apply Hr.
Qed.
