(* ===== verification/TransferChunk.v ===== *)
(** * Copying a blob by chunks

    The chunked copy of [Transfer] ([copyBlobByChunk] and its retries in
    [transfer.go]) over the client of [RegClient]: when the cursor that the
    attempts share is right, an attempt resumes where the registry stands and
    finishes the blob; and the three failures after which the cursor is wrong
    and no retry can succeed. *)

From S2P Require Import Prelude Errors RegClient OciRegistry Transfer TransferSafe.

(** ** Strings and ranges *)

Lemma count_dash_format z : 0 <= z -> GoStrings.count "-" (Strconv.format_int z) = 0%nat.
Proof.
  intros Hz. unfold Strconv.format_int. destruct (Z.ltb_spec z 0); [lia|].
  rewrite GoStrings.count_write_digits; [done|lia|].
  intros d Hd E. by destruct (Strconv.digit_not_sign d Hd).
Qed.

Lemma content_range_split x y : 0 <= x -> 0 <= y ->
  GoStrings.Split (content_range x y) "-" = [Strconv.format_int x; Strconv.format_int y].
Proof.
  intros Hx Hy. unfold content_range. change ("-" ++ ?s)%string with (String "-" s).
  rewrite GoStrings.Split_sep by (by apply count_dash_format).
  by rewrite GoStrings.Split_none by (by apply count_dash_format).
Qed.

Lemma parse_content_range x y : 0 <= x <= Int64.max -> 0 <= y <= Int64.max ->
  parseContentRange (content_range x y) = Ok (x, y).
Proof.
  intros Hx Hy. unfold parseContentRange. rewrite content_range_split by lia.
  rewrite !Strconv.parse_format_int; [done|..]; unfold Int64.in_range, Int64.min; lia.
Qed.

Lemma content_range_inj x y x' y' : 0 <= x <= Int64.max -> 0 <= y <= Int64.max ->
  0 <= x' <= Int64.max -> 0 <= y' <= Int64.max -> content_range x y = content_range x' y' -> x = x' /\ y = y'.
Proof.
  intros Hx Hy Hx' Hy' E. apply (f_equal parseContentRange) in E.
  rewrite !parse_content_range in E by done. by injection E as -> ->.
Qed.

Lemma substring_app n m s : (String.substring 0 n s ++ String.substring n m s)%string = String.substring 0 (n + m) s.
Proof.
  revert n. induction s as [|x s IH]; intros [|n]; [done..|].
  change (String x (String.substring 0 n s ++ String.substring n m s) = String x (String.substring 0 (n + m) s)).
  by rewrite IH.
Qed.

Lemma substring_all n s : (String.length s <= n)%nat -> String.substring 0 n s = s.
Proof.
  revert n. induction s as [|x s IH]; intros [|n] H; cbn in *; [done|done|lia|]. by rewrite IH by lia.
Qed.

Lemma length_substring n s : (n <= String.length s)%nat -> String.length (String.substring 0 n s) = n.
Proof.
  revert n. induction s as [|x s IH]; intros [|n] H; cbn in *; [done|lia|done|]. by rewrite IH by lia.
Qed.

(** The first bytes of a blob. *)
Definition prefix (x : string) (n : Z) : string := String.substring 0 (Z.to_nat n) x.

Lemma prefix_slice x a b : 0 <= a <= b -> (prefix x a ++ slice x a b)%string = prefix x (b + 1).
Proof.
  intros H. unfold prefix, slice. rewrite substring_app. f_equal. lia.
Qed.

Lemma prefix_0 x : prefix x 0 = "".
Proof. by destruct x. Qed.

Lemma prefix_all x : prefix x (len x) = x.
Proof. unfold prefix, len. apply substring_all. lia. Qed.

Lemma len_prefix x n : 0 <= n <= len x -> len (prefix x n) = n.
Proof. unfold len, prefix. intros H. rewrite length_substring; lia. Qed.

(** ** Attempts *)

Section Chunks.

Context `{DI : Distribution} `{DE : Decoders}.
Context {St : Type} (send : request -> M St response) (see : St -> content) {OR : OciRegistry St send see}.
Context (c : client St) (Hc : discreet see c).
Context (stopped : St -> bool * St) (src : ArtifactRegistry St) (cf : config).
Context (Hsrc : lawful_src see src) (Hstop : forall s, see (stopped s).2 = see s).
Context (sr r d : string) (size : Z).

Abbreviation t := (mkTransfer stopped src (native send c) cf).
Abbreviation chunk := (cf_chunkSize cf).

(** A blob of more than one chunk, of a size that 64 bits leave room for. *)
Context (Hchunk : 0 < chunk < size) (Hsize : size + chunk <= Int64.max).

Lemma t_lawful : lawful see t.
Proof. split_and!; [by apply native_lawful|done|done]. Qed.

Ltac nowrap := repeat (rewrite Int64.wrap_id by (unfold Int64.in_range, Int64.min, Int64.max in *; lia)).

Lemma next_range k : -1 <= k_end k <= size - 1 ->
  Int64.wrap (k_end k + 1) = k_end k + 1 /\
  Z.min (Int64.wrap (Int64.wrap (Int64.wrap (k_end k + 1) + chunk) - 1)) (Int64.wrap (size - 1))
    = Z.min (k_end k + chunk) (size - 1).
Proof.
  intros Hk. assert (forall z, -1 <= z <= Int64.max -> Int64.wrap z = z) as Hw.
  { intros z Hz. nowrap. done. }
  rewrite (Hw (k_end k + 1)), (Hw (k_end k + 1 + chunk)), (Hw (k_end k + 1 + chunk - 1)), (Hw (size - 1)) by lia.
  split; lia.
Qed.

(** Nothing can be mounted, and a blob that is not there is not found. *)
Lemma not_mounted s out s' : blobs (see s) !! (r, d) = None -> tryMountBlob t r d s = (out, s') ->
  see s' = see s /\ (out = Ok false \/ exists e, out = Err e).
Proof.
  intros Hb. unfold tryMountBlob, bind. intros E.
  destruct (shouldStop t s) as [o1 s1] eqn:E1; apply (shouldStop_spec see t t_lawful) in E1 as [Hv1 [b ->]].
  destruct b; [injection E as <- <-; eauto|]. cbn in E.
  destruct (BlobExist send c r d s1) as [o2 s2] eqn:E2. eapply BlobExist_spec in E2 as [Hv2 Ho]; [|done..].
  rewrite Hv1 in Hv2, Ho. destruct o2 as [[]|e]; [by destruct Ho as [x Hx]; congruence|..];
    injection E as <- <-; eauto.
Qed.

(** Attempts that cannot succeed: an invariant that keeps the blob away and
    under which the first turn of the loop fails. *)
Lemma attempts_fail (I : St -> cursor -> Prop) :
  (forall s k, I s k -> blobs (see s) !! (r, d) = None) ->
  (forall s k out s', I s k -> tryMountBlob t r d s = (out, s') -> I s' k) ->
  (forall fuel k s out s', I s k -> chunk_loop (S fuel) t sr r d size k s = (out, s') ->
     exists e k', out = Ok (Some e, k') /\ I s' k') ->
  forall n k s, I s k ->
    is_ok (chunk_attempts (S n) t sr r d size k s).1 = false /\
    blobs (see (chunk_attempts (S n) t sr r d size k s).2) !! (r, d) = None.
Proof.
  intros Hno Hmount Hloop n.
  assert (forall k s, I s k -> exists e k' s', copyBlobByChunk t sr r d size k s = (Ok (Some e, k'), s') /\ I s' k') as Hone.
  { intros k s Hi. unfold copyBlobByChunk, bind, try.
    destruct (tryMountBlob t r d s) as [o1 s1] eqn:E1. pose proof (Hmount _ _ _ _ Hi E1) as Hi1.
    apply not_mounted in E1 as [_ [->|[e ->]]]; [|eauto 6|by eapply Hno].
    destruct (Z.leb_spec size (cf_chunkSize (t_config t))) as [Hl|_]; [cbn in Hl; lia|].
    unfold chunk_fuel. destruct (chunk_loop _ _ _ _ _ _ _ s1) as [o2 s2] eqn:E2.
    eapply Hloop in E2 as (e & k' & -> & Hi'); [eauto 6|done]. }
  induction n as [|n IH]; intros k s Hi; destruct (Hone k s Hi) as (e & k' & s' & E & Hi');
    cbn [chunk_attempts]; unfold bind; rewrite E.
  - split; [done|]. by eapply Hno.
  - destruct (_ || _); [split; [done|]; by eapply Hno|]. by apply IH.
Qed.

(** Invariants of the content are kept by the look for the blob. *)
Lemma mount_keeps (J : content -> cursor -> Prop) s k out s' :
  (forall v k, J v k -> blobs v !! (r, d) = None) -> J (see s) k -> tryMountBlob t r d s = (out, s') -> J (see s') k.
Proof. intros Hno Hj E. apply not_mounted in E as [-> _]; [done|by eapply Hno]. Qed.

(** ** An upload that was never initiated *)

(** The cursor after a failed initiation: it has moved past the first chunk,
    so no attempt initiates the upload again. *)
Definition astray (v : content) (k : cursor) : Prop :=
  named v /\ blobs v !! (r, d) = None /\ k_location k = "" /\ 0 <= k_end k <= size - 1.

Lemma astray_loop fuel k s out s' : astray (see s) k -> chunk_loop (S fuel) t sr r d size k s = (out, s') ->
  exists e k', out = Ok (Some e, k') /\ astray (see s') k'.
Proof.
  intros (Hn & Hb & Hl & Hk) E. cbn in E. destruct (next_range k) as [Hs He]; [lia|]. rewrite He, Hs, Hl in E.
  unfold bind, try in E.
  destruct (ar_PullBlobChunk _ _ _ _ _ _ s) as [o1 s1] eqn:E1; apply (l_PullBlobChunk _ _ Hsrc) in E1.
  destruct o1 as [[z data]|e].
  2: { injection E as <- <-. do 2 eexists. split; [done|]. split_and!; cbn; [by rewrite E1..|done|lia|lia]. }
  unfold PushBlobChunk in E. rewrite (proj2 (Z.eqb_neq _ _)) in E by lia. unfold bind at 1, try, ret at 1 in E. cbn in E.
  destruct (push_chunk_to _ _ _ _ _ _ _ _ s1) as [o2 s2] eqn:E2.
  eapply push_chunk_nowhere in E2 as (Hv & e & err & -> & He2); [|done..|by rewrite E1].
  injection E as <- <-. do 2 eexists. split; [done|]. rewrite E1 in Hv.
  split_and!; cbn; [by rewrite Hv..|done| |]; destruct He2 as [-> | ->]; nowrap; lia.
Qed.

(** The first attempt, up to a failed initiation. *)
Lemma failed_initiation s s1 s2 s3 e z data :
  tryMountBlob t r d s = (Ok false, s1) ->
  ar_PullBlobChunk src sr d size 0 (chunk - 1) s1 = (Ok (z, data), s2) ->
  initiateBlobUpload send c r s2 = (Err e, s3) ->
  copyBlobByChunk t sr r d size (mkCursor (-1) (-1) "") s = (Ok (Some e, mkCursor 0 (chunk - 1) ""), s3).
Proof.
  intros E1 E2 E3. unfold copyBlobByChunk, bind at 1, try at 1. rewrite E1. cbn [t_config].
  destruct (Z.leb_spec size chunk); [lia|]. unfold chunk_fuel. cbn [chunk_loop].
  destruct (next_range (mkCursor (-1) (-1) "")) as [Hs He]; [cbn; lia|].
  cbn [t_config] in He |- *. rewrite He, Hs. cbn [k_end k_location t_src t_dst native ar_PushBlobChunk].
  replace (Z.min (-1 + chunk) (size - 1)) with (chunk - 1) by lia. change (-1 + 1) with 0.
  unfold bind at 1, try at 1. rewrite E2. unfold PushBlobChunk, bind, try. cbn. by rewrite E3.
Qed.

(** ** A last chunk that could not be pulled *)

(** The cursor after the last chunk failed to be pulled: it is at the end of
    the blob, and every attempt asks the source for what lies behind it. *)
Definition past_end (v : content) (k : cursor) : Prop := blobs v !! (r, d) = None /\ k_end k = size - 1.

Lemma past_end_loop fuel k s out s' :
  (forall s, is_ok (ar_PullBlobChunk src sr d size size (size - 1) s).1 = false) ->
  past_end (see s) k -> chunk_loop (S fuel) t sr r d size k s = (out, s') ->
  exists e k', out = Ok (Some e, k') /\ past_end (see s') k'.
Proof.
  intros Hp [Hb Hk] E. cbn in E. destruct (next_range k) as [Hs He]; [lia|]. rewrite He, Hs, Hk in E.
  replace (Z.min (size - 1 + chunk) (size - 1)) with (size - 1) in E by lia.
  replace (size - 1 + 1) with size in E by lia. unfold bind, try in E. specialize (Hp s).
  destruct (ar_PullBlobChunk _ _ _ _ _ _ s) as [o1 s1] eqn:E1; apply (l_PullBlobChunk _ _ Hsrc) in E1.
  destruct o1 as [|e]; [done|]. injection E as <- <-. do 2 eexists. split; [done|]. split; [by rewrite E1|done].
Qed.

(** What the registry says of an upload. *)
Lemma status_result l o s s1 l' e bs :
  uploads (see s) !! l = Some (r, bs) -> len bs <= Int64.max ->
  getUploadStatus send c (TUpload l o) s = (Ok (l', e), s1) ->
  next_location (see s) l l' /\ see s1 = move_upload (see s) l l' (r, bs) /\ e = Z.max 0 (len bs - 1).
Proof.
  intros Hu Hlen E. unfold getUploadStatus, bind, of_result in E.
  destruct (do_ send c _ s) as [o1 s2] eqn:D. eapply do_spec in D; [|done..].
  destruct o1 as [resp|]; [|done]. inversion D as [resp' v' Hh Hs| |]; subst resp' v'.
  apply handled_status in Hh as [_ Hst]. destruct (Hst Hs) as (r' & bs' & Hu' & Hnl & Hv & Hrg).
  rewrite Hu in Hu'. injection Hu' as <- <-. rewrite Hrg, parse_content_range in E by (unfold Int64.max in *; lia).
  injection E as <- <- <-. done.
Qed.

(** ** A registry that answers *)

(** The requests of a chunked copy. *)
Definition asked (m : method) (tg : target) (h : list (string * string)) : Prop :=
  match m, tg with
  | HEAD, TBlob _ _ | POST, TInitiate _ | GET, TUpload _ _ => True
  | PATCH, TUpload _ None | PUT, TUpload _ (Some _) =>
      exists a b, 0 <= a <= Int64.max /\ 0 <= b <= Int64.max /\ Get h "Content-Range" = content_range a b
  | _, _ => False
  end.

(** While it holds, no exchange is lost or refused, the job is not stopped
    and the source sends the bytes of the blob [x]. *)
Context (x : string) (Hx : len x = size) (Hd : FromBytes x = d).
Context (healthy : St -> Prop).
Context (Hdo : forall m tg h b s, asked m tg h -> healthy s -> exists resp s',
  do_ send c (NewRequest m tg h b) s = ((if success resp then Ok resp else Err (status_error resp)), s') /\
  handled (see s) m tg h b resp (see s') /\ healthy s').
Context (Hpull : forall a b s, healthy s -> 0 <= a <= b -> b < size -> exists z s',
  ar_PullBlobChunk src sr d size a b s = (Ok (z, slice x a b), s') /\ see s' = see s /\ healthy s').
Context (Hrun : forall s, healthy s -> (stopped s).1 = false /\ healthy (stopped s).2).

Lemma healthy_not_mounted s : healthy s -> blobs (see s) !! (r, d) = None ->
  exists s', tryMountBlob t r d s = (Ok false, s') /\ see s' = see s /\ healthy s'.
Proof.
  intros Hh Hb. unfold tryMountBlob, shouldStop, bind. cbn.
  destruct (Hrun s Hh) as [Hs Hh1]. pose proof (Hstop s) as Hv. destruct (stopped s) as [b s1]. cbn in Hs, Hh1, Hv. subst b.
  unfold BlobExist, bind, try. destruct (Hdo HEAD (TBlob r d) [] "" s1 I Hh1) as (resp & s2 & -> & Hn & Hh2).
  assert (see s2 = see s1) as Hv2 by (by eapply handled_reads in Hn).
  inversion Hn; subst; [congruence|]. cbn. exists s2. split; [done|]. split; [congruence|done].
Qed.

(** The cursor at the bytes that the registry has. *)
Definition resumable (v : content) (k : cursor) : Prop :=
  k_end k = -1 \/
  (0 <= k_end k < size - 1 /\ location_ok (k_location k) = true /\
   uploads v !! k_location k = Some (r, prefix x (k_end k + 1))).

Lemma in_place_not_out h bs y : Get h "Content-Range" = content_range (len bs) y -> 0 <= len bs <= Int64.max ->
  0 <= y <= Int64.max -> ~ out_of_place h bs.
Proof.
  intros Hg Hl Hy (a & b & Hab & Ha & Hb & Hne). rewrite Hg in Hab. by apply content_range_inj in Hab as [<- _].
Qed.

Lemma handled_finish v l bs h b resp v' :
  handled v PUT (TUpload l (Some d)) h b resp v' -> uploads v !! l = Some (r, bs) -> ~ out_of_place h bs ->
  FromBytes (bs ++ b)%string = d -> success resp = true /\ blobs v' !! (r, d) = Some (bs ++ b)%string.
Proof.
  intros H Hl Ho Hf. inversion H; subst; simplify_eq; cbn.
  - split; [done|]. by rewrite lookup_insert_eq.
  - exfalso. match goal with Hw : out_of_place _ _ \/ _ |- _ => destruct Hw as [?|(d' & ? & ?)] end; congruence.
Qed.

Lemma handled_patch v l bs h b resp v' :
  handled v PATCH (TUpload l None) h b resp v' -> uploads v !! l = Some (r, bs) -> ~ out_of_place h bs ->
  success resp = true /\ next_location v l (Get (header resp) "Location") /\
  v' = move_upload v l (Get (header resp) "Location") (r, (bs ++ b)%string).
Proof.
  intros H Hl Ho. inversion H; subst; simplify_eq; cbn.
  - done.
  - exfalso. match goal with Hw : out_of_place _ _ \/ _ |- _ => destruct Hw as [?|(d' & ? & ?)] end; congruence.
Qed.

Lemma next_location_ok v l l' : location_ok l = true -> next_location v l l' -> location_ok l' = true.
Proof. intros Hl [-> | (_ & ? & _)]; done. Qed.

(** A chunk at its place is taken. *)
Lemma healthy_push l start end_ s :
  healthy s -> 0 <= start <= end_ -> end_ < size -> location_ok l = true ->
  uploads (see s) !! l = Some (r, prefix x start) ->
  exists l' s', push_chunk_to send c d size (slice x start end_) start end_ l s = (Ok (l', end_, None), s') /\ healthy s' /\
    if end_ =? size - 1 then blobs (see s') !! (r, d) = Some x
    else location_ok l' = true /\ uploads (see s') !! l' = Some (r, prefix x (end_ + 1)).
Proof.
  intros Hh Hse He Hok Hu. unfold push_chunk_to, buildChunkBlobUploadURL. rewrite Hok.
  rewrite (Int64.wrap_id (size - 1)) by (unfold Int64.in_range, Int64.min, Int64.max in *; lia).
  unfold bind, try. set (h := [_; _]).
  assert (Get h "Content-Range" = content_range (len (prefix x start)) end_) as Hg by (cbn; by rewrite len_prefix by lia).
  assert (~ out_of_place h (prefix x start)) as Hno.
  { eapply in_place_not_out; [exact Hg|rewrite len_prefix; lia|lia]. }
  assert (asked PUT (TUpload l (Some d)) h /\ asked PATCH (TUpload l None) h) as [Ha1 Ha2].
  { split; exists start, end_; (split_and!; [lia..|done]). }
  destruct (Z.eqb_spec end_ (size - 1)) as [Hl|Hl].
  - destruct (Hdo PUT (TUpload l (Some d)) h (slice x start end_) s Ha1 Hh) as (resp & s' & E & Hn & Hh'). rewrite E.
    assert ((prefix x start ++ slice x start end_)%string = x) as Hwhole.
    { rewrite prefix_slice by lia. replace (end_ + 1) with (len x) by lia. apply prefix_all. }
    eapply handled_finish in Hn as [-> Hb]; [|done|done|by rewrite Hwhole]. rewrite Hwhole in Hb. eauto.
  - destruct (Hdo PATCH (TUpload l None) h (slice x start end_) s Ha2 Hh) as (resp & s' & E & Hn & Hh'). rewrite E.
    eapply handled_patch in Hn as (-> & Hnl & Hv); [|done|done]. do 2 eexists. split; [done|]. split; [done|].
    split; [by eapply next_location_ok|]. rewrite Hv. cbn. by rewrite lookup_insert_eq, prefix_slice by lia.
Qed.

Lemma healthy_initiate s : healthy s -> exists l u s', initiateBlobUpload send c r s = (Ok (l, u), s') /\ healthy s' /\
  location_ok l = true /\ uploads (see s') !! l = Some (r, "").
Proof.
  intros Hh. unfold initiateBlobUpload, bind.
  destruct (Hdo POST (TInitiate r) [("Content-Length", "0")] "" s I Hh) as (resp & s' & E & Hn & Hh'). rewrite E.
  apply handled_initiate in Hn as Hi. destruct Hi as (_ & l & (_ & Hok & _) & Hl & Hv).
  assert (success resp = true) as -> by (by inversion Hn). do 3 eexists. split; [done|].
  rewrite Hl, Hv. cbn. by rewrite lookup_insert_eq.
Qed.

(** From a resumable cursor the loop reaches the end of the blob. *)
Lemma healthy_loop fuel k s :
  healthy s -> resumable (see s) k -> (Z.to_nat ((size - (k_end k + 1)) / chunk) < fuel)%nat ->
  exists k' s', chunk_loop fuel t sr r d size k s = (Ok (None, k'), s') /\ blobs (see s') !! (r, d) = Some x.
Proof.
  revert k s. induction fuel as [|fuel IH]; intros k s Hh Hk Hf; [lia|].
  assert (-1 <= k_end k < size - 1) as Hr by (destruct Hk as [->|[? _]]; lia).
  cbn [chunk_loop]. destruct (next_range k) as [Hs He]; [lia|]. cbn [t_config] in He |- *. rewrite He, Hs.
  set (end_ := Z.min (k_end k + chunk) (size - 1)).
  destruct (Hpull (k_end k + 1) end_ s) as (z & s1 & E1 & Hv1 & Hh1); [done|lia|lia|].
  unfold bind at 1, try at 1. cbn [t_src t_dst]. rewrite E1. cbn [native ar_PushBlobChunk].
  assert (exists l' s2, PushBlobChunk send c r d size (slice x (k_end k + 1) end_) (k_end k + 1) end_ (k_location k) s1
    = (Ok (l', end_, None), s2) /\ healthy s2 /\
    if end_ =? size - 1 then blobs (see s2) !! (r, d) = Some x
    else location_ok l' = true /\ uploads (see s2) !! l' = Some (r, prefix x (end_ + 1))) as (l' & s2 & E2 & Hh2 & Hres).
  { unfold PushBlobChunk, bind, try. destruct Hk as [Hk|(Hk & Hok & Hu)].
    - destruct (Z.eqb_spec (k_end k + 1) 0); [|lia].
      destruct (healthy_initiate s1 Hh1) as (l & u & s1' & Ei & Hh1' & Hok & Hu). rewrite Ei. cbn [ret fst].
      apply healthy_push; [done|lia|lia|done|]. rewrite Hu. replace (k_end k + 1) with 0 by lia. by rewrite prefix_0.
    - rewrite (proj2 (Z.eqb_neq _ _)) by lia. cbn [ret]. apply healthy_push; [done|lia|lia|done|by rewrite Hv1]. }
  unfold bind at 1. rewrite E2. rewrite (Int64.wrap_id (size - 1)) by (unfold Int64.in_range, Int64.min, Int64.max in *; lia).
  destruct (Z.eqb_spec end_ (size - 1)) as [Hl|Hl]; [eauto|]. destruct Hres as [Hok Hu].
  apply IH; [done|right; cbn; split_and!; [lia|lia|done|done]|]. cbn.
  replace (size - (end_ + 1)) with ((size - (k_end k + 1)) + (-1) * chunk) by lia. rewrite Z.div_add by lia.
  assert (1 <= (size - (k_end k + 1)) / chunk) by (apply Z.div_le_lower_bound; lia). lia.
Qed.

Lemma healthy_attempt k s :
  healthy s -> blobs (see s) !! (r, d) = None -> resumable (see s) k ->
  exists k' s', copyBlobByChunk t sr r d size k s = (Ok (None, k'), s') /\ blobs (see s') !! (r, d) = Some x.
Proof.
  intros Hh Hb Hk. unfold copyBlobByChunk, bind at 1, try at 1.
  destruct (healthy_not_mounted s Hh Hb) as (s1 & E1 & Hv & Hh1). rewrite E1. cbn [t_config].
  destruct (Z.leb_spec size chunk); [lia|]. apply healthy_loop; [done|by rewrite Hv|].
  assert (-1 <= k_end k < size - 1) as Hr by (destruct Hk as [->|[? _]]; lia).
  unfold chunk_fuel. cbn [t_config]. destruct (next_range k) as [-> _]; [lia|]. lia.
Qed.

(** ** Progress that a failed push leaves *)

(** The cursor after a push of a chunk that failed, when the registry says
    where it stands and has kept some bytes of the blob. *)
Lemma failed_push_resumable l bs o s s1 l' e :
  location_ok l = true -> uploads (see s) !! l = Some (r, bs) -> (exists n, 0 < n < size /\ bs = prefix x n) ->
  getUploadStatus send c (TUpload l o) s = (Ok (l', e), s1) ->
  resumable (see s1) (mkCursor 0 e l') /\ e + 1 = len bs.
Proof.
  intros Hok Hu (n & Hnn & ->) E. eapply status_result in E as (Hnl & Hv & ->); [|exact Hu|rewrite len_prefix; lia].
  rewrite len_prefix by lia. split; [|lia]. right. cbn. split_and!; [lia|lia|by eapply next_location_ok|].
  rewrite Hv. cbn. rewrite lookup_insert_eq. do 3 f_equal. lia.
Qed.

(** ** Progress that is nothing *)

(** The cursor after a push of which the registry kept nothing: an upload
    without bytes is reported as [0-0], and the next attempt starts at byte
    one. *)
Definition one_ahead (s : St) (k : cursor) : Prop :=
  healthy s /\ blobs (see s) !! (r, d) = None /\ k_end k = 0 /\ location_ok (k_location k) = true /\
  uploads (see s) !! k_location k = Some (r, "").

Lemma misplaced_refused v m l o h b y resp v' :
  handled v m (TUpload l o) h b resp v' -> m = PATCH \/ m = PUT -> uploads v !! l = Some (r, "") ->
  Get h "Content-Range" = content_range 1 y -> 0 <= y <= Int64.max -> success resp = false /\ v' = v.
Proof.
  intros H Hm Hu Hg Hy.
  assert (~ in_place h "") as Hno.
  { intros [Hi|[y' Hi]]; rewrite Hg in Hi; [by apply (f_equal String.length) in Hi; destruct y|].
    apply (f_equal (fun s => GoStrings.Split s "-")) in Hi. unfold content_range in Hi. cbn in Hi. done. }
  inversion H; subst; simplify_eq; try done; try (by destruct Hm).
  split; [|done]. unfold success, client_error in *. cbn. lia.
Qed.

Lemma status_answered v l o h b resp v' bs : handled v GET (TUpload l o) h b resp v' -> uploads v !! l = Some (r, bs) ->
  success resp = true.
Proof.
  intros H Hu. inversion H; subst; simplify_eq; try done.
  match goal with Hm : GET = PATCH \/ _ |- _ => by destruct Hm end.
Qed.

Lemma one_ahead_loop fuel k s out s' : one_ahead s k -> chunk_loop (S fuel) t sr r d size k s = (out, s') ->
  exists e k', out = Ok (Some e, k') /\ one_ahead s' k'.
Proof.
  intros (Hh & Hb & Hk & Hok & Hu) E. cbn [chunk_loop] in E. destruct (next_range k) as [Hs He]; [lia|].
  cbn [t_config] in He, E. rewrite He, Hs, Hk in E. change (0 + 1) with 1 in E. change (0 + chunk) with chunk in E.
  set (end_ := Z.min chunk (size - 1)) in E.
  destruct (Hpull 1 end_ s) as (z & s1 & E1 & Hv1 & Hh1); [done|lia|lia|].
  unfold bind at 1, try at 1 in E. cbn [t_src t_dst] in E. rewrite E1 in E. cbn [native ar_PushBlobChunk] in E.
  unfold PushBlobChunk in E. change (1 =? 0) with false in E. unfold bind at 1 2, try at 1, ret at 1 in E. cbn iota in E.
  unfold push_chunk_to, buildChunkBlobUploadURL in E. rewrite Hok in E. unfold bind, try in E.
  set (last := end_ =? Int64.wrap (size - 1)) in E.
  match type of E with context [do_ _ _ (NewRequest ?m ?u ?h ?b) _] =>
    assert (asked m u h) as Ha by (destruct last; exists 1, end_; (split_and!; [lia..|done]));
    destruct (Hdo m u h b s1 Ha Hh1) as (resp & s2 & E2 & Hn2 & Hh2) end.
  rewrite E2 in E. eapply misplaced_refused in Hn2 as [Hf Hv2];
    [|by destruct last; auto|by rewrite Hv1|reflexivity|lia].
  rewrite Hf in E. unfold getUploadStatus, bind, of_result in E.
  match type of E with context [do_ _ _ (NewRequest ?m ?u ?h ?b) _] =>
    destruct (Hdo m u h b s2 I Hh2) as (resp' & s3 & E3 & Hn3 & Hh3) end.
  rewrite E3 in E. rewrite Hv2, Hv1 in Hn3.
  rewrite (status_answered _ _ _ _ _ _ _ _ Hn3 Hu) in E. apply handled_status in Hn3 as Hst. destruct Hst as [Hst Hsu].
  destruct Hsu as (r' & bs & Hu' & Hnl & Hv3 & Hrg); [by eapply status_answered|].
  rewrite Hu in Hu'. injection Hu' as <- <-. change (Z.max 0 (len "" - 1)) with 0 in Hrg. rewrite Hrg, parse_content_range in E by (unfold Int64.max; lia).
  injection E as <- <-. do 2 eexists. split; [done|]. split_and!; cbn; [done|by rewrite (proj2 Hst)|done| |].
  - by eapply next_location_ok.
  - rewrite Hv3. cbn. by rewrite lookup_insert_eq.
Qed.

Lemma one_ahead_mount s k out s' : one_ahead s k -> tryMountBlob t r d s = (out, s') -> one_ahead s' k.
Proof.
  intros (Hh & Hb & Hk & Hok & Hu) E. destruct (healthy_not_mounted s Hh Hb) as (s1 & E1 & Hv & Hh1).
  rewrite E1 in E. injection E as <- <-. unfold one_ahead. by rewrite Hv.
Qed.

(** ** Properties *)

(** An upload that a registry refuses to start, once, is never copied:
    the cursor has moved past the first chunk and the location is empty, so
    none of the retries starts the upload again, and all of them fail
    whatever the registries do. *)
Theorem failed_initiation_is_final s s1 s2 s3 e z data :
  cf_chunkRetry cf <> 0%nat -> named (see s) -> blobs (see s) !! (r, d) = None ->
  tryMountBlob t r d s = (Ok false, s1) ->
  ar_PullBlobChunk src sr d size 0 (chunk - 1) s1 = (Ok (z, data), s2) ->
  initiateBlobUpload send c r s2 = (Err e, s3) ->
  is_ok (copyChunkWithRetry t sr r d size s).1 = false /\
  blobs (see (copyChunkWithRetry t sr r d size s).2) !! (r, d) = None.
Proof.
  intros Hn Hnm Hb E1 E2 E3. pose proof (failed_initiation _ _ _ _ _ _ _ E1 E2 E3) as Ef.
  apply not_mounted in E1 as [Hv1 _]; [|done]. apply (l_PullBlobChunk _ _ Hsrc) in E2.
  eapply initiate_spec in E3 as ([_ Hb3] & Hn3 & _); [|done..].
  assert (astray (see s3) (mkCursor 0 (chunk - 1) "")) as Ha.
  { split_and!; cbn; [apply Hn3; congruence|congruence|done|lia|lia]. }
  unfold copyChunkWithRetry. cbn [t_config]. destruct (cf_chunkRetry cf) as [|n]; [done|].
  cbn [chunk_attempts]. unfold bind. rewrite Ef.
  destruct n as [|n]; [cbn; split; [done|apply Ha]|].
  destruct (_ || _); [cbn; split; [done|apply Ha]|].
  apply (attempts_fail (fun s k => astray (see s) k)); [by intros ? ? (_ & ? & _)| |intros; by eapply astray_loop|done].
  intros s0 k0 out s0' Hi E. eapply mount_keeps; [by intros ? ? (_ & ? & _)|exact Hi|exact E].
Qed.

(** When the last chunk of a blob cannot be pulled, once, the cursor is at
    the end of the blob, and every retry asks the source for bytes behind it. *)
Theorem failed_last_pull_is_final fuel n k s s1 e :
  (forall s, is_ok (ar_PullBlobChunk src sr d size size (size - 1) s).1 = false) ->
  -1 <= k_end k < size - 1 -> size - 1 <= k_end k + chunk -> blobs (see s) !! (r, d) = None ->
  ar_PullBlobChunk src sr d size (k_end k + 1) (size - 1) s = (Err e, s1) ->
  exists k', chunk_loop (S fuel) t sr r d size k s = (Ok (Some e, k'), s1) /\
    is_ok (chunk_attempts (S n) t sr r d size k' s1).1 = false.
Proof.
  intros Hp Hk Hl Hb E. exists (mkCursor (k_end k + 1) (size - 1) (k_location k)). split.
  - cbn [chunk_loop]. destruct (next_range k) as [Hs He]; [lia|]. cbn [t_config] in He |- *. rewrite He, Hs.
    replace (Z.min (k_end k + chunk) (size - 1)) with (size - 1) by lia. unfold bind, try. cbn [t_src]. by rewrite E.
  - apply (l_PullBlobChunk _ _ Hsrc) in E.
    apply (attempts_fail (fun s k => past_end (see s) k)); [by intros ? ? [? _]| |intros; by eapply past_end_loop|].
    + intros s0 k0 out s0' Hi E0. eapply mount_keeps; [by intros ? ? [? _]|exact Hi|exact E0].
    + split; [by rewrite E|done].
Qed.

(** When a registry has kept nothing of a chunk whose push failed, it reports
    the range [0-0]; the cursor is then one byte ahead of the upload, and no
    retry succeeds although nothing fails any more. *)
Theorem empty_progress_is_final l o n s s1 l' e :
  location_ok l = true -> uploads (see s) !! l = Some (r, "") -> blobs (see s) !! (r, d) = None ->
  getUploadStatus send c (TUpload l o) s = (Ok (l', e), s1) -> healthy s1 ->
  is_ok (chunk_attempts (S n) t sr r d size (mkCursor 0 e l') s1).1 = false.
Proof.
  intros Hok Hu Hb E Hh. eapply status_result in E as (Hnl & Hv & ->); [|exact Hu|done].
  apply (attempts_fail one_ahead); [by intros ? ? (_ & ? & _)|apply one_ahead_mount|apply one_ahead_loop|].
  split_and!; cbn; [done|by rewrite Hv|done|by eapply next_location_ok|].
  rewrite Hv. cbn. by rewrite lookup_insert_eq.
Qed.

(** C30: From a cursor that is at the bytes the registry has, as it is at the
    start and after a failed push of which the registry kept a part, one
    attempt of which nothing fails completes the blob. *)
Theorem chunk_copy_resumes n k s :
  healthy s -> blobs (see s) !! (r, d) = None -> resumable (see s) k ->
  exists s', chunk_attempts (S n) t sr r d size k s = (Ok tt, s') /\ blobs (see s') !! (r, d) = Some x.
Proof.
  intros Hh Hb Hk. destruct (healthy_attempt k s Hh Hb Hk) as (k' & s' & E & Hb').
  exists s'. split; [|done]. cbn [chunk_attempts]. unfold bind. by rewrite E.
Qed.

End Chunks.

(** ** Runs in memory *)

Import Concrete MemRegistry.

Definition job_config : config := mkConfig 5 5 4.
Abbreviation job_t := (mkTransfer stop_now (native send_src plain) (native send_dst plain) job_config).

Lemma stop_now_sees w : see_dst (stop_now w).2 = see_dst w.
Proof. unfold stop_now. by destruct (w_stop w) as [[]|]. Qed.

Lemma failed_initiation_is_final_witness :
  let w := start_world [] [Pass; Down] None in
  let r := copyChunkWithRetry job_t "library/app" "mirror/app" (sha layer) 23 w in
  is_ok r.1 = false /\ blobs (see_dst r.2) !! ("mirror/app", sha layer) = None.
Proof.
  eapply (failed_initiation_is_final send_dst see_dst plain (plain_discreet see_dst) stop_now (native send_src plain)
    job_config source_lawful stop_now_sees "library/app" "mirror/app" (sha layer) 23).
  - done.
  - done.
  - done.
  - done.
  - done.
  - vm_compute. reflexivity.
  - vm_compute. reflexivity.
  - vm_compute. reflexivity.
Defined.

(** A world without faults. *)
Definition well (w : world) : Prop := w_src w = [] /\ faults (w_dst w) = [] /\ w_stop w = None.

Lemma misplaced_out h bs a b : 0 <= a <= Int64.max -> 0 <= b <= Int64.max ->
  Get h "Content-Range" = content_range a b -> misplaced h bs = true -> out_of_place h bs.
Proof.
  intros Ha Hb Hg. unfold misplaced. rewrite Hg, parse_content_range, String.eqb_refl, andb_true_r by done. intros H.
  apply andb_true_iff in H as [_ H]. apply negb_true_iff, Z.eqb_neq in H. by exists a, b.
Qed.

Lemma answer_asked m tg h b v : asked m tg h ->
  handled v m tg h b (answer v (NewRequest m tg h b)).1 (answer v (NewRequest m tg h b)).2.
Proof.
  intros Ha. destruct (answer_allowed (DI := toy_distribution) (DE := toy_decoders) (fun _ => eq_refl) v (NewRequest m tg h b)) as [?|[[Hs H4] Hv]]; [done|].
  destruct m, tg as [| | | | | | | | |l o]; try done; unfold answer, NewRequest in *; cbn in *.
  - by destruct (uploads v !! l) as [[r bs]|].
  - by destruct (blobs v !! _).
  - destruct o as [d|]; [|done]. destruct Ha as (x & y & Hx & Hy & Hg).
    destruct (uploads v !! l) as [[r bs]|] eqn:Hu; [|done].
    destruct (misplaced h bs) eqn:Hm.
    { eapply (h_upload_wrong _ _ _ _ r bs); [done|left; exact (misplaced_out _ _ _ _ Hx Hy Hg Hm)|unfold client_error; lia|by right]. }
    destruct (String.eqb_spec (sha (bs ++ b)) d); [done|].
    eapply (h_upload_wrong _ _ _ _ r bs); [done|right; by exists d|unfold client_error; lia|by right].
  - destruct o as [d|]; [done|]. destruct Ha as (x & y & Hx & Hy & Hg).
    destruct (uploads v !! l) as [[r bs]|] eqn:Hu; [|done].
    destruct (misplaced h bs) eqn:Hm; [|done].
    eapply (h_upload_wrong _ _ _ _ r bs); [done|left; exact (misplaced_out _ _ _ _ Hx Hy Hg Hm)|unfold client_error; lia|by left].
Qed.

Lemma well_do m tg h b w : asked m tg h -> well w -> exists resp w',
  do_ send_dst plain (NewRequest m tg h b) w = ((if success resp then Ok resp else Err (status_error resp)), w') /\
  handled (see_dst w) m tg h b resp (see_dst w') /\ well w'.
Proof.
  intros Ha (Hs & Hf & Ht). pose proof (answer_asked m tg h b (see_dst w) Ha) as Hh.
  unfold do_, authorize, bind, send_dst, mem_send. cbn [interceptors plain iterM ret authorizer]. rewrite Hf.
  cbn [default head tail]. fold (see_dst w). destruct (answer (see_dst w) (NewRequest m tg h b)) as [resp v].
  cbn in Hh. exists resp, (mkWorld (w_src w) (mkMem v []) (w_stop w)). split; [|done].
  rewrite success_bounds. by destruct (success resp).
Qed.

Lemma well_pull a b w : well w -> 0 <= a <= b -> b < 23 -> exists z w',
  PullBlobChunk send_src plain "library/app" (sha layer) 23 a b w = (Ok (z, slice layer a b), w') /\
  see_dst w' = see_dst w /\ well w'.
Proof.
  intros (Hs & Hf & Ht) Hab Hb. unfold PullBlobChunk, do_, authorize, bind, send_src, mem_send.
  cbn [interceptors plain iterM ret authorizer reads r_method r_target NewRequest]. rewrite Hs. cbn [default head tail faults].
  unfold answer. cbn [r_method r_target NewRequest seen r_header].
  replace (blobs source_content !! ("library/app", sha layer)) with (Some layer) by (vm_compute; reflexivity).
  set (h := [_; _]). assert (Get h "Range" = range_header a b) as -> by done. cbn [String.eqb].
  replace (range_header a b =s= "") with false by done. unfold range_of.
  change (range_header a b) with ("bytes=" ++ content_range a b)%string at 1. rewrite GoStrings.TrimPrefix_app.
  rewrite parse_content_range by (unfold Int64.max; lia). rewrite String.eqb_refl.
  assert ((0 <=? a) && (a <=? b) && (b <? len layer) && true = true) as ->.
  { rewrite !andb_true_iff, !Z.leb_le, Z.ltb_lt. change (len layer) with 23. lia. }
  cbn. do 2 eexists. done.
Qed.

(** The second chunk breaks off after two of its bytes; the next attempt
    goes on at the sixth byte. *)
Definition half_way : world :=
  (chunk_loop 2 job_t "library/app" "mirror/app" (sha layer) 23 (mkCursor (-1) (-1) "")
     (start_world [] [Pass; Pass; Broken 2] None)).2.

Lemma chunk_copy_resumes_witness :
  exists w', chunk_attempts 1 job_t "library/app" "mirror/app" (sha layer) 23 (mkCursor 4 5 "upload") half_way = (Ok tt, w')
    /\ blobs (see_dst w') !! ("mirror/app", sha layer) = Some layer.
Proof.
  apply (chunk_copy_resumes send_dst see_dst plain stop_now (native send_src plain)
    job_config stop_now_sees "library/app" "mirror/app" (sha layer) 23) with (healthy := well).
  - done.
  - done.
  - done.
  - done.
  - apply well_do.
  - apply well_pull.
  - intros w (Hs & Hf & Ht). unfold stop_now. rewrite Ht. done.
  - vm_compute. done.
  - vm_compute. done.
  - right. vm_compute. done.
Defined.
