(* ===== verification/RegFilter.v ===== *)
(** * Replication: filters, patterns and names

    [src/pkg/reg/filter], [src/pkg/reg/util/pattern.go] and the pure part of
    [src/controller/replication/flow/stage.go]: which artifacts of a registry a
    policy selects, when the pattern of a policy stands for a finite list of
    repositories, and under which name a repository arrives.  [doublestar.Match]
    is a parameter. *)

From S2P Require Import Prelude Errors RegClient OciRegistry Transfer.

(** ** JSON values

    A value that [encoding/json] decodes into an [any]; a number that is no
    integer is kept as its text. *)

Inductive json :=
| JNull
| JBool (b : bool)
| JNum (n : Z)
| JFloat (literal : string)
| JStr (s : string)
| JArr (l : list json)
| JObj (l : list (string * json)).

(** The [any] of a filter: decoded JSON, or the [[]string] of a label filter
    that was read from the database. *)
Inductive value := VJson (j : json) | VStrings (ss : list string).

Abbreviation VString s := (VJson (JStr s)).

(** ** Filters of a policy ([src/pkg/reg/model/policy.go]) *)

Definition FilterTypeResource : string := "resource".
Definition FilterTypeName : string := "name".
Definition FilterTypeTag : string := "tag".
Definition FilterTypeLabel : string := "label".
Definition Matches : string := "matches".
Definition Excludes : string := "excludes".

Record Filter := mkFilter { f_Type : string; f_Value : value; f_Decoration : string }.

Definition bad_request (message : string) : error := WithCode (New message) BadRequestCode.

Definition is_jstr (j : json) : bool := match j with JStr _ => true | _ => false end.

Definition Filter_Validate (f : Filter) : result unit :=
  let typed :=
    if existsb (String.eqb (f_Type f)) [FilterTypeResource; FilterTypeName; FilterTypeTag] then
      match f_Value f with
      | VString value =>
          if (f_Type f =s= FilterTypeResource) && negb ((value =s= "artifact") || (value =s= "image"))
          then Err (bad_request ("invalid resource filter: " ++ value))
          else if ((f_Type f =s= FilterTypeName) || (f_Type f =s= FilterTypeResource)) && negb (f_Decoration f =s= "")
          then Err (bad_request "only tag and label filter support decoration")
          else Ok tt
      | _ => Err (bad_request "the type of filter value isn't string")
      end
    else if f_Type f =s= FilterTypeLabel then
      match f_Value f with
      | VJson (JArr labels) =>
          if forallb is_jstr labels then Ok tt
          else Err (bad_request "the type of label filter value isn't string slice")
      | _ => Err (bad_request "the type of label filter value isn't string slice")
      end
    else Err (bad_request "invalid filter type") in
  match typed with
  | Ok _ =>
      if negb (f_Decoration f =s= "") && negb (f_Decoration f =s= Matches) && negb (f_Decoration f =s= Excludes)
      then Err (bad_request ("invalid filter decoration, :" ++ f_Decoration f)) else Ok tt
  | Err e => Err e
  end.

(** ** Filtering ([src/pkg/reg/filter]) *)

(** A loop that collects what a step makes of each element. *)
Fixpoint collect {A B} (f : A -> result (option B)) (l : list A) : result (list B) :=
  match l with
  | [] => Ok []
  | x :: l' =>
      match f x with
      | Err e => Err e
      | Ok o =>
          match collect f l' with
          | Err e => Err e
          | Ok ys => Ok (match o with Some y => y :: ys | None => ys end)
          end
      end
  end.

Section Filters.

Context (doublestar_Match : string -> string -> result bool).

Definition Match (pattern str : string) : result bool :=
  if pattern =s= "" then Ok true else doublestar_Match pattern str.

Inductive ArtifactFilter :=
| artifactLabelFilter (labels : list string) (decoration : string)
| artifactTagFilter (pattern decoration : string).

(** What a match counts for under a decoration. *)
Definition keeps (decoration : string) (matched : bool) : bool :=
  if decoration =s= Excludes then negb matched else matched.

Definition has_labels (labels : list string) (a : Artifact) : bool :=
  forallb (fun l => existsb (String.eqb l) (a_Labels a)) labels.

Definition label_Filter (labels : list string) (decoration : string) (artifacts : list Artifact) : list Artifact :=
  match labels with
  | [] => artifacts
  | _ => List.filter (fun a => keeps decoration (has_labels labels a)) artifacts
  end.

Fixpoint matched_tags (pattern decoration : string) (tags : list string) : result (list string) :=
  match tags with
  | [] => Ok []
  | tag :: tags' =>
      match Match pattern tag with
      | Err e => Err e
      | Ok m =>
          match matched_tags pattern decoration tags' with
          | Err e => Err e
          | Ok ts => Ok (if keeps decoration m then tag :: ts else ts)
          end
      end
  end.

(** The copy of an artifact that is kept. *)
Definition with_tags (a : Artifact) (tags : list string) : Artifact :=
  mkArtifact (a_Type a) (a_Digest a) (a_Labels a) tags false [].

Definition tag_Filter_one (pattern decoration : string) (a : Artifact) : result (option Artifact) :=
  let tagsForMatching := if a_IsAcc a then a_ParentTags a else a_Tags a in
  match tagsForMatching with
  | [] =>
      match Match pattern "" with
      | Err e => Err e
      | Ok m => Ok (if keeps decoration m then Some a else None)
      end
  | _ =>
      match matched_tags pattern decoration tagsForMatching with
      | Err e => Err e
      | Ok [] => Ok None
      | Ok tags => Ok (Some (with_tags a (if a_IsAcc a then a_Tags a else tags)))
      end
  end.

Definition tag_Filter (pattern decoration : string) (artifacts : list Artifact) : result (list Artifact) :=
  if pattern =s= "" then Ok artifacts else collect (tag_Filter_one pattern decoration) artifacts.

Definition ArtifactFilter_Filter (f : ArtifactFilter) (artifacts : list Artifact) : result (list Artifact) :=
  match f with
  | artifactLabelFilter labels decoration => Ok (label_Filter labels decoration artifacts)
  | artifactTagFilter pattern decoration => tag_Filter pattern decoration artifacts
  end.

Fixpoint ArtifactFilters_Filter (fs : list ArtifactFilter) (artifacts : list Artifact) : result (list Artifact) :=
  match fs with
  | [] => Ok artifacts
  | f :: fs' =>
      match ArtifactFilter_Filter f artifacts with
      | Err e => Err e
      | Ok l => ArtifactFilters_Filter fs' l
      end
  end.

Definition build_artifact_filter (f : Filter) : result (option ArtifactFilter) :=
  if f_Type f =s= FilterTypeLabel then
    match f_Value f with
    | VStrings labels => Ok (Some (artifactLabelFilter labels (f_Decoration f)))
    | _ => Err (Plain "invalid filter value type for label filter, expecting []string")
    end
  else if f_Type f =s= FilterTypeTag then
    match f_Value f with
    | VString pattern => Ok (Some (artifactTagFilter pattern (f_Decoration f)))
    | _ => Err (Plain "invalid filter value type for tag filter, expecting string")
    end
  else Ok None.

Definition BuildArtifactFilters (filters : list Filter) : result (list ArtifactFilter) :=
  collect build_artifact_filter filters.

Definition DoFilterArtifacts (artifacts : list Artifact) (filters : list Filter) : result (list Artifact) :=
  match BuildArtifactFilters filters with
  | Err e => Err e
  | Ok fl => ArtifactFilters_Filter fl artifacts
  end.

(** A name filter is its pattern. *)
Definition build_repository_filter (f : Filter) : result (option string) :=
  if f_Type f =s= FilterTypeName then
    match f_Value f with
    | VString pattern => Ok (Some pattern)
    | _ => Err (Plain "invalid filter value type for repository name filter, expecting string")
    end
  else Ok None.

Definition BuildRepositoryFilters (filters : list Filter) : result (list string) :=
  collect build_repository_filter filters.

Definition name_Filter (pattern : string) (repositories : list string) : result (list string) :=
  if pattern =s= "" then Ok repositories
  else collect (fun r => match Match pattern r with
                         | Err e => Err e
                         | Ok m => Ok (if m then Some r else None)
                         end) repositories.

Fixpoint RepositoryFilters_Filter (fs : list string) (repositories : list string) : result (list string) :=
  match fs with
  | [] => Ok repositories
  | f :: fs' =>
      match name_Filter f repositories with
      | Err e => Err e
      | Ok l => RepositoryFilters_Filter fs' l
      end
  end.

Definition DoFilterRepositories (repositories : list string) (filters : list Filter) : result (list string) :=
  match BuildRepositoryFilters filters with
  | Err e => Err e
  | Ok fl => RepositoryFilters_Filter fl repositories
  end.

Definition filter_resource (repoFilters : list string) (artFilters : list ArtifactFilter) (resource : Resource)
  : result (option Resource) :=
  match RepositoryFilters_Filter repoFilters [res_Repository resource] with
  | Err e => Err e
  | Ok [] => Ok None
  | Ok (repository :: _) =>
      match ArtifactFilters_Filter artFilters (res_Artifacts resource) with
      | Err e => Err e
      | Ok [] => Ok None
      | Ok artifacts =>
          Ok (Some (mkResource (res_Type resource) repository (res_RepositoryMetadata resource) artifacts [] (res_Registry resource)
                      (res_ExtendedInfo resource) (res_Deleted resource) (res_IsDeleteTag resource)
                      (res_Override resource) false))
      end
  end.

Definition DoFilterResources (resources : list Resource) (filters : list Filter) : result (list Resource) :=
  match BuildRepositoryFilters filters with
  | Err e => Err e
  | Ok repoFilters =>
      match BuildArtifactFilters filters with
      | Err e => Err e
      | Ok artFilters => collect (filter_resource repoFilters artFilters) resources
      end
  end.

End Filters.

(** ** Patterns that name repositories ([src/pkg/reg/util/pattern.go]) *)

(** [strings.Index] and [strings.LastIndex] of a character. *)
Fixpoint index_char (c : ascii) (s : string) : option nat :=
  match s with
  | EmptyString => None
  | String d s' => if Ascii.eqb c d then Some O else option_map S (index_char c s')
  end.

Fixpoint last_index_char (c : ascii) (s : string) : option nat :=
  match s with
  | EmptyString => None
  | String d s' =>
      match last_index_char c s' with
      | Some n => Some (S n)
      | None => if Ascii.eqb c d then Some O else None
      end
  end.

(** [strings.ContainsAny]. *)
Definition ContainsAny (s chars : string) : bool :=
  existsb (fun c => negb (GoStrings.lacks c s)) (String.list_ascii_of_string chars).

Definition IsSpecificPathComponent (component : string) : option (list string) :=
  if component =s= "" then None
  else if ContainsAny component "*?[\]^/" then None
  else if negb (ContainsAny component "{},") then Some [component]
  else if (1 <? GoStrings.count "{" component)%nat then None
  else
    match index_char "{" component with
    | None => None
    | Some i =>
        match last_index_char "}" component with
        | None => None
        | Some j =>
            if (j <? i)%nat then None
            else
              let prefix := String.substring 0 i component in
              let suffix := if (j + 1 <? String.length component)%nat
                            then GoStrings.drop (j + 1) component else "" in
              Some ((fun str => prefix ++ str ++ suffix)%string
                      <$> GoStrings.Split (String.substring (i + 1) (j - (i + 1)) component) ",")
        end
    end.

Definition combinationPathComponents (components1 components2 : list string) : list string :=
  match components1, components2 with
  | [], _ => components2
  | _, [] => components1
  | _, _ => flat_map (fun c1 => (fun c2 => c1 ++ "/" ++ c2)%string <$> components2) components1
  end.

Definition IsSpecificPath (path : string) : option (list string) :=
  if path =s= "" then None
  else
    match mapM IsSpecificPathComponent (GoStrings.Split path "/") with
    | None => None
    | Some components => Some (foldl combinationPathComponents [] components)
    end.

(** ** Destination names ([src/controller/replication/flow/stage.go]) *)

(** [path.Clean], on the components of a path: [rooted] tells a leading slash,
    [acc] holds the components kept so far, the last one first. *)
Fixpoint clean_components (rooted : bool) (acc : list string) (cs : list string) : list string :=
  match cs with
  | [] => rev acc
  | c :: cs' =>
      if (c =s= "") || (c =s= ".") then clean_components rooted acc cs'
      else if c =s= ".." then
        match acc with
        | d :: acc' => if d =s= ".." then clean_components rooted (c :: acc) cs' else clean_components rooted acc' cs'
        | [] => clean_components rooted (if rooted then [] else [c]) cs'
        end
      else clean_components rooted (c :: acc) cs'
  end.

Definition path_Clean (p : string) : string :=
  let rooted := GoStrings.HasPrefix p "/" in
  let body := GoStrings.Join (clean_components rooted [] (GoStrings.Split p "/")) "/" in
  if rooted then ("/" ++ body)%string else if body =s= "" then "." else body.

(** [path.Join] of two elements. *)
Definition path_Join (a b : string) : string :=
  match List.filter (fun e => negb (e =s= "")) [a; b] with
  | [] => ""
  | l => path_Clean (GoStrings.Join l "/")
  end.

Definition RepositoryPathComponentTypeOnlyTwo : string := "ONLY_TWO".
Definition RepositoryPathComponentTypeAtLeastTwo : string := "AT_LEAST_TWO".

Definition replaceNamespace (repository namespace : string) (replaceCount : Z) (dstRepoComponentPathType : string)
  : result string :=
  if namespace =s= "" then Ok repository
  else
    let src := GoStrings.Split repository "/" in
    let srcLength := length src in
    let prefix :=
      if replaceCount <? 0 then Ok namespace
      else if Z.of_nat srcLength - 1 <? replaceCount then
        Err (bad_request "the source repository has fewer path components than the flattening level")
      else Ok (namespace ++ "/" ++ GoStrings.Join (drop (Z.to_nat replaceCount) (take (srcLength - 1) src)) "/")%string in
    match prefix with
    | Err e => Err e
    | Ok dstRepoPrefix =>
        let name := List.last src "" in
        let dstRepo := path_Join dstRepoPrefix name in
        let dstLength := length (GoStrings.Split dstRepo "/") in
        if (dstRepoComponentPathType =s= RepositoryPathComponentTypeOnlyTwo) && negb (dstLength =? 2)%nat
        then Err (bad_request "the destination registry only supports 2 path components")
        else if (dstRepoComponentPathType =s= RepositoryPathComponentTypeAtLeastTwo) && (dstLength <? 2)%nat
        then Err (bad_request "the destination registry requires at least 2 path components")
        else Ok dstRepo
    end.

(** [getResourceName] and [getResourceReferences] of a resource that is there. *)
Definition item_count (a : Artifact) : nat :=
  match a_Tags a with
  | [] => if a_Digest a =s= "" then 0 else 1
  | ts => length ts
  end.

Definition getResourceName (res : Resource) : string :=
  let n := match res_Artifacts res with
           | [] => length (res_Vtags res)
           | l => foldr (fun a n => item_count a + n)%nat 0%nat l
           end in
  (res_Repository res ++ " [" ++ Strconv.format_int (Z.of_nat n) ++ " item(s) in total]")%string.

Definition item_references (a : Artifact) : list string :=
  match a_Tags a with
  | [] => if a_Digest a =s= "" then [] else [a_Digest a]
  | ts => ts
  end.

Definition references (res : Resource) : list string :=
  match res_Artifacts res with
  | [] => res_Vtags res
  | l => flat_map item_references l
  end.

Definition getResourceReferences (res : Resource) : string := GoStrings.Join (references res) ",".

Example replace_table :
  (fun n => replaceNamespace "a/b/c/image" "n" n "") <$> [-1; 0; 1; 2; 3]
  = [Ok "n/image"; Ok "n/a/b/c/image"; Ok "n/b/c/image"; Ok "n/c/image"; Ok "n/image"].
Proof. vm_compute. reflexivity. Qed.

(** ** What a list of filters selects

    The reference: an artifact passes when its labels pass every label filter,
    and keeps the tags that pass every tag filter; an artifact without tags is
    tried as the empty tag.  An accessory of a tagged artifact passes the first tag
    filter when one of the tags of that artifact does, and is then like any other
    artifact for the filters that follow. *)

Section Selection.

Context (doublestar_Match : string -> string -> result bool) (tm : string -> string -> bool).

Definition label_ok (fs : list ArtifactFilter) (a : Artifact) : bool :=
  forallb (fun f => match f with
                    | artifactLabelFilter labels d => bool_decide (labels = []) || keeps d (has_labels labels a)
                    | artifactTagFilter _ _ => true
                    end) fs.

(** The tag filters that filter: their patterns and decorations. *)
Definition tag_filter (f : ArtifactFilter) : option (string * string) :=
  match f with
  | artifactTagFilter p d => if p =s= "" then None else Some (p, d)
  | artifactLabelFilter _ _ => None
  end.

Definition tag_filters (fs : list ArtifactFilter) : list (string * string) := omap tag_filter fs.

Definition passes (tfs : list (string * string)) (t : string) : bool := forallb (fun f => keeps f.2 (tm f.1 t)) tfs.

Definition ordinary (tfs : list (string * string)) (a : Artifact) : option Artifact :=
  match a_Tags a with
  | [] => if passes tfs "" then Some a else None
  | _ => match List.filter (passes tfs) (a_Tags a) with [] => None | ts => Some (with_tags a ts) end
  end.

Definition by_tags (tfs : list (string * string)) (a : Artifact) : option Artifact :=
  match tfs with
  | [] => Some a
  | f :: rest =>
      if a_IsAcc a then
        match a_ParentTags a with
        | [] => if passes tfs "" then Some a else None
        | parents => if existsb (passes [f]) parents then ordinary rest (with_tags a (a_Tags a)) else None
        end
      else ordinary tfs a
  end.

Definition selected (fs : list ArtifactFilter) (a : Artifact) : option Artifact :=
  if label_ok fs a then by_tags (tag_filters fs) a else None.

Definition name_ok (fs : list string) (name : string) : bool := forallb (fun p => (p =s= "") || tm p name) fs.

Definition resource_selected (names : list string) (fs : list ArtifactFilter) (r : Resource) : option Resource :=
  if name_ok names (res_Repository r) then
    match omap (selected fs) (res_Artifacts r) with
    | [] => None
    | artifacts =>
        Some (mkResource (res_Type r) (res_Repository r) (res_RepositoryMetadata r) artifacts [] (res_Registry r) (res_ExtendedInfo r)
                (res_Deleted r) (res_IsDeleteTag r) (res_Override r) false)
    end
  else None.

(** The values of a filter that its type asks for; what is left when they are
    right. *)
Definition well_typed (f : Filter) : bool :=
  if f_Type f =s= FilterTypeLabel then match f_Value f with VStrings _ => true | _ => false end
  else if (f_Type f =s= FilterTypeTag) || (f_Type f =s= FilterTypeName)
  then match f_Value f with VString _ => true | _ => false end
  else true.

Definition filter_of (f : Filter) : option ArtifactFilter :=
  match f_Value f with
  | VStrings labels => if f_Type f =s= FilterTypeLabel then Some (artifactLabelFilter labels (f_Decoration f)) else None
  | VString pattern => if f_Type f =s= FilterTypeTag then Some (artifactTagFilter pattern (f_Decoration f)) else None
  | _ => None
  end.

Definition name_of (f : Filter) : option string :=
  match f_Value f with
  | VString pattern => if f_Type f =s= FilterTypeName then Some pattern else None
  | _ => None
  end.

Lemma collect_omap {A B} (f : A -> result (option B)) (g : A -> option B) l :
  Forall (fun x => f x = Ok (g x)) l -> collect f l = Ok (omap g l).
Proof. induction 1 as [|x l E _ IH]; [done|]. cbn. by rewrite E, IH; destruct (g x). Qed.

Lemma filter_andb {A} (p q : A -> bool) l :
  List.filter q (List.filter p l) = List.filter (fun x => p x && q x) l.
Proof. induction l as [|x l IH]; [done|]. cbn. destruct (p x); cbn; [|done]. by rewrite IH. Qed.

Lemma passes_cons f tfs t : passes (f :: tfs) t = passes [f] t && passes tfs t.
Proof. cbn. by rewrite andb_true_r. Qed.

(** Filtering the tags by one filter, then by the others. *)
Lemma ordinary_cons f tfs a :
  ordinary (f :: tfs) a = match ordinary [f] a with Some b => ordinary tfs b | None => None end.
Proof.
  unfold ordinary at 1 2. destruct (a_Tags a) as [|t ts] eqn:E.
  - rewrite passes_cons. destruct (passes [f] ""); [|done]. unfold ordinary. by rewrite E.
  - rewrite (List.filter_ext _ _ (passes_cons f tfs)), <- filter_andb.
    by destruct (List.filter (passes [f]) (t :: ts)) as [|u us].
Qed.

(** What has passed a tag filter is no accessory of a tagged artifact. *)
Lemma ordinary_by_tags tfs a :
  a_IsAcc a = false -> a_Tags a = [] \/ (exists b ts, a = with_tags b ts) -> by_tags tfs a = ordinary tfs a.
Proof.
  intros I T. destruct tfs as [|f tfs]; cbn [by_tags]; [|by rewrite I]. unfold ordinary.
  destruct (a_Tags a) as [|t ts] eqn:E; [done|]. destruct T as [?|(b & us & ->)]; [done|].
  rewrite (forallb_filter_id _ (t :: ts)) by (by apply forallb_forall). cbn in E. by subst us.
Qed.

Lemma by_tags_cons f tfs a :
  by_tags (f :: tfs) a = match by_tags [f] a with Some b => by_tags tfs b | None => None end.
Proof.
  cbn [by_tags]. destruct (a_IsAcc a) eqn:I.
  - destruct (a_ParentTags a) as [|t ts] eqn:Pt.
    + rewrite passes_cons. destruct (passes [f] ""); [cbn [andb]|done].
      destruct tfs as [|g tfs]; [done|]. cbn [by_tags]. by rewrite I, Pt.
    + destruct (existsb (passes [f]) (t :: ts)); [|done]. rewrite <- (ordinary_by_tags [] (with_tags a (a_Tags a))) by eauto.
      symmetry. apply ordinary_by_tags; eauto.
  - rewrite ordinary_cons. destruct (ordinary [f] a) as [b|] eqn:E; [|done]. symmetry. apply ordinary_by_tags.
    + unfold ordinary in E. destruct (a_Tags a); [destruct (passes _ _); [|done]; by injection E as <-|].
      destruct (List.filter _ _); [done|]. by injection E as <-.
    + unfold ordinary in E. destruct (a_Tags a) eqn:T; [destruct (passes _ _); [|done]; injection E as <-; by left|].
      destruct (List.filter _ _); [done|]. injection E as <-. right. eauto.
Qed.

Lemma label_ok_cons f fs a : label_ok (f :: fs) a = label_ok [f] a && label_ok fs a.
Proof. cbn. by rewrite andb_true_r. Qed.

Lemma by_tags_labels tfs a b : by_tags tfs a = Some b -> a_Labels b = a_Labels a.
Proof.
  assert (O : forall tfs' c, ordinary tfs' c = Some b -> a_Labels b = a_Labels c).
  { intros tfs' c. unfold ordinary. destruct (a_Tags c); [destruct (passes _ _); [by intros [= <-]|done]|].
    destruct (List.filter _ _); [done|]. by intros [= <-]. }
  destruct tfs as [|f tfs]; cbn [by_tags]; [by intros [= ->]|]. destruct (a_IsAcc a); [|apply O].
  destruct (a_ParentTags a); [destruct (passes _ _); [by intros [= <-]|done]|]. destruct (existsb _ _); [|done]. exact (O tfs (with_tags a (a_Tags a))).
Qed.

Lemma label_ok_ext fs a b : a_Labels b = a_Labels a -> label_ok fs b = label_ok fs a.
Proof. intros E. unfold label_ok, has_labels. by rewrite E. Qed.

Lemma selected_cons f fs a :
  selected (f :: fs) a = match selected [f] a with Some b => selected fs b | None => None end.
Proof.
  unfold selected. rewrite label_ok_cons. destruct (label_ok [f] a); [cbn [andb]|done].
  assert (S : by_tags (tag_filters (f :: fs)) a = match by_tags (tag_filters [f]) a with Some b => by_tags (tag_filters fs) b | None => None end).
  { unfold tag_filters. cbn [omap list_omap]. destruct (tag_filter f) as [g|]; [apply by_tags_cons|done]. }
  rewrite S. destruct (by_tags (tag_filters [f]) a) as [b|] eqn:E; [|by destruct (label_ok fs a)].
  by rewrite (label_ok_ext fs a b) by (by eapply by_tags_labels).
Qed.

Lemma matched_tags_ok p d ts :
  p <> "" -> (forall s, doublestar_Match p s = Ok (tm p s)) ->
  matched_tags doublestar_Match p d ts = Ok (List.filter (passes [(p, d)]) ts).
Proof.
  intros N H. induction ts as [|t ts IH]; [done|]. cbn [matched_tags]. unfold Match at 1.
  rewrite (proj2 (String.eqb_neq _ _) N), H, IH. cbn. rewrite andb_true_r. by destruct (keeps d (tm p t)).
Qed.

Lemma filter_existsb {A} (p : A -> bool) l : existsb p l = match List.filter p l with [] => false | _ => true end.
Proof. induction l as [|x l IH]; [done|]. cbn. by destruct (p x). Qed.

Lemma tag_Filter_one_ok p d a :
  p <> "" -> (forall s, doublestar_Match p s = Ok (tm p s)) ->
  tag_Filter_one doublestar_Match p d a = Ok (by_tags [(p, d)] a).
Proof.
  intros N H. unfold tag_Filter_one. cbn [by_tags].
  assert (M : forall ts, matched_tags doublestar_Match p d ts = Ok (List.filter (passes [(p, d)]) ts)) by (intros; by apply matched_tags_ok).
  assert (E : Match doublestar_Match p "" = Ok (tm p "")) by (unfold Match; by rewrite (proj2 (String.eqb_neq _ _) N), H).
  assert (K : passes [(p, d)] "" = keeps d (tm p "")) by (cbn; by rewrite andb_true_r).
  destruct (a_IsAcc a) eqn:I; [destruct (a_ParentTags a) as [|t ts]|unfold ordinary; destruct (a_Tags a) as [|t ts]];
    rewrite ?E, ?K, ?M; [done| |done|by destruct (List.filter _ _)].
  rewrite filter_existsb. destruct (List.filter _ _); [done|].
  rewrite <- (ordinary_by_tags [] (with_tags a (a_Tags a))) by eauto. done.
Qed.

Definition total_on (fs : list ArtifactFilter) : Prop :=
  forall p d s, In (artifactTagFilter p d) fs -> doublestar_Match p s = Ok (tm p s).

Lemma omap_some {A} (f : A -> option A) (l : list A) : (forall x, f x = Some x) -> omap f l = l.
Proof. intros H. induction l as [|x l IH]; [done|]. cbn. by rewrite H, IH. Qed.

Lemma one_filter_ok f l : total_on [f] -> ArtifactFilter_Filter doublestar_Match f l = Ok (omap (selected [f]) l).
Proof.
  intros H. destruct f as [labels d|p d]; cbn [ArtifactFilter_Filter].
  - unfold label_Filter. destruct labels as [|b bs]; [by rewrite omap_some|].
    f_equal. induction l as [|a l IH]; [done|]. cbn [List.filter omap list_omap]. rewrite IH. unfold selected.
    replace (label_ok _ a) with (keeps d (has_labels (b :: bs) a)) by (cbn; by rewrite andb_true_r).
    by destruct (keeps d _).
  - unfold tag_Filter. destruct (String.eqb_spec p "") as [->|N]; [by rewrite omap_some|].
    apply collect_omap, Forall_true. intros a.
    rewrite (tag_Filter_one_ok p d a N) by (intros s; apply (H p d s); by left).
    unfold selected, tag_filters. cbn [label_ok forallb andb omap list_omap tag_filter]. by rewrite (proj2 (String.eqb_neq _ _) N).
Qed.

Lemma artifact_filters_ok fs l : total_on fs -> ArtifactFilters_Filter doublestar_Match fs l = Ok (omap (selected fs) l).
Proof.
  revert l. induction fs as [|f fs IH]; intros l H; [by rewrite omap_some|].
  cbn [ArtifactFilters_Filter]. rewrite one_filter_ok; [|intros p d s [->|[]]; apply (H p d s); by left].
  rewrite IH by (intros p d s Hin; apply (H p d s); by right).
  f_equal. clear H. induction l as [|a l IHl]; [done|]. cbn [omap list_omap]. rewrite (selected_cons f fs a).
  destruct (selected [f] a) as [b|]; cbn [omap list_omap]; [|exact IHl]. rewrite IHl. by destruct (selected fs b).
Qed.

Lemma name_filters_ok fs name :
  (forall p s, In p fs -> doublestar_Match p s = Ok (tm p s)) ->
  RepositoryFilters_Filter doublestar_Match fs [name] = Ok (if name_ok fs name then [name] else []).
Proof.
  assert (E : forall fs', (forall p s, In p fs' -> doublestar_Match p s = Ok (tm p s)) ->
    RepositoryFilters_Filter doublestar_Match fs' [] = Ok []).
  { induction fs' as [|p fs' IH]; [done|]. intros H. cbn [RepositoryFilters_Filter].
    unfold name_Filter. destruct (p =s= ""); cbn; apply IH; intros q s Hq; apply H; by right. }
  induction fs as [|p fs IH]; intros H; [done|]. cbn [RepositoryFilters_Filter].
  assert (H' : forall q s, In q fs -> doublestar_Match q s = Ok (tm q s)) by (intros; apply H; by right).
  change (name_ok (p :: fs) name) with (((p =s= "") || tm p name) && name_ok fs name).
  unfold name_Filter, Match. destruct (p =s= ""); [by apply IH|].
  cbn [collect]. rewrite H by (by left). destruct (tm p name); [by apply IH|by apply E].
Qed.

Lemma build_artifact_filters_ok filters :
  forallb well_typed filters = true -> BuildArtifactFilters filters = Ok (omap filter_of filters).
Proof.
  intros H. apply collect_omap, Forall_forall. intros f Hf%list_elem_of_In.
  pose proof (proj1 (forallb_forall _ _) H f Hf) as W. unfold well_typed in W.
  unfold build_artifact_filter, filter_of. destruct (f_Type f =s= FilterTypeLabel) eqn:E.
  - by destruct (f_Value f) as [[]|].
  - destruct (f_Type f =s= FilterTypeTag); cbn in W; destruct (f_Value f) as [[]|]; done.
Qed.

Lemma build_repository_filters_ok filters :
  forallb well_typed filters = true -> BuildRepositoryFilters filters = Ok (omap name_of filters).
Proof.
  intros H. apply collect_omap, Forall_forall. intros f Hf%list_elem_of_In.
  pose proof (proj1 (forallb_forall _ _) H f Hf) as W. unfold well_typed in W.
  unfold build_repository_filter, name_of. destruct (f_Type f =s= FilterTypeName) eqn:E.
  - apply String.eqb_eq in E. rewrite E in W. cbn in W. by destruct (f_Value f) as [[]|].
  - by destruct (f_Value f) as [[]|].
Qed.

(** The patterns of a policy's filters are ones the matcher accepts. *)
Definition patterns_total (filters : list Filter) : Prop :=
  forall f p s, In f filters -> f_Value f = VString p -> doublestar_Match p s = Ok (tm p s).

Lemma total_of_patterns filters : patterns_total filters -> total_on (omap filter_of filters).
Proof.
  intros H p d s Hin. apply list_elem_of_In, list_elem_of_omap in Hin as (f & Hf & E).
  apply (H f p s); [by apply list_elem_of_In|]. unfold filter_of in E.
  destruct (f_Value f) as [[]|]; try done; destruct (f_Type f =s= _); congruence.
Qed.

Lemma names_of_patterns filters p s :
  patterns_total filters -> In p (omap name_of filters) -> doublestar_Match p s = Ok (tm p s).
Proof.
  intros H Hin. apply list_elem_of_In, list_elem_of_omap in Hin as (f & Hf & E).
  apply (H f p s); [by apply list_elem_of_In|]. unfold name_of in E.
  destruct (f_Value f) as [[]|]; try done; destruct (f_Type f =s= _); congruence.
Qed.

Lemma do_filter_resources_ok filters rs :
  forallb well_typed filters = true -> patterns_total filters ->
  DoFilterResources doublestar_Match rs filters
  = Ok (omap (resource_selected (omap name_of filters) (omap filter_of filters)) rs).
Proof.
  intros W T. unfold DoFilterResources.
  rewrite build_repository_filters_ok, build_artifact_filters_ok by done.
  apply collect_omap, Forall_true. intros r.
  unfold filter_resource, resource_selected.
  rewrite name_filters_ok by (intros; by eapply names_of_patterns).
  destruct (name_ok _ _); [|done]. rewrite artifact_filters_ok by auto using total_of_patterns.
  by destruct (omap (selected _) _).
Qed.

Lemma forallb_Permutation {A} (p : A -> bool) (l l' : list A) : l ≡ₚ l' -> forallb p l = forallb p l'.
Proof. induction 1; cbn; try congruence. by destruct (p x), (p y). Qed.

(** Whether the order of the tag filters cannot matter to an artifact. *)
Definition unordered (fs : list ArtifactFilter) (a : Artifact) : bool :=
  negb (a_IsAcc a) || bool_decide (a_ParentTags a = []) || (length (tag_filters fs) <=? 1)%nat.

Lemma by_tags_Permutation tfs tfs' a :
  tfs ≡ₚ tfs' -> negb (a_IsAcc a) || bool_decide (a_ParentTags a = []) || (length tfs <=? 1)%nat = true -> by_tags tfs a = by_tags tfs' a.
Proof.
  intros P U. assert (T : forall t, passes tfs t = passes tfs' t) by (intros; by apply forallb_Permutation).
  destruct (Nat.leb_spec (length tfs) 1) as [L|L].
  { destruct tfs as [|f [|g tfs]]; [by apply Permutation_nil_l in P as ->| |cbn in L; lia]. by apply Permutation_singleton_l in P as ->. }
  rewrite orb_false_r in U. destruct tfs as [|f tfs]; [cbn in L; lia|]. destruct tfs' as [|g tfs']; [by apply Permutation_nil_r in P|].
  assert (O : ordinary (f :: tfs) a = ordinary (g :: tfs') a) by (unfold ordinary; by rewrite T, (List.filter_ext _ _ T)).
  cbn [by_tags]. rewrite T. destruct (a_IsAcc a); [|done]. cbn in U. apply bool_decide_eq_true in U. by rewrite U.
Qed.

Lemma selected_Permutation fs fs' a : fs ≡ₚ fs' -> unordered fs a = true -> selected fs a = selected fs' a.
Proof.
  intros P U. unfold selected. rewrite (forallb_Permutation _ _ _ P : label_ok fs a = label_ok fs' a).
  destruct (label_ok fs' a); [|done]. apply by_tags_Permutation; [|exact U]. unfold tag_filters. by rewrite P.
Qed.

Lemma resource_selected_Permutation names names' fs fs' r :
  names ≡ₚ names' -> fs ≡ₚ fs' -> forallb (unordered fs) (res_Artifacts r) = true ->
  resource_selected names fs r = resource_selected names' fs' r.
Proof.
  intros P Q U. unfold resource_selected. rewrite (forallb_Permutation _ _ _ P : name_ok names _ = name_ok names' _).
  replace (omap (selected fs) (res_Artifacts r)) with (omap (selected fs') (res_Artifacts r)); [done|].
  induction (res_Artifacts r) as [|a l IH]; [done|]. cbn [forallb] in U. apply andb_true_iff in U as [Ua U].
  cbn [omap list_omap]. by rewrite (selected_Permutation fs fs' a Q Ua), IH.
Qed.

(** A value that is not of the filter's type is refused. *)
Lemma collect_err {A B} (f : A -> result (option B)) l x : In x l -> is_ok (f x) = false -> is_ok (collect f l) = false.
Proof.
  induction l as [|y l IH]; [done|]. intros [->|H] E; cbn [collect]; [by destruct (f x)|].
  destruct (f y); [|done]. specialize (IH H E). by destruct (collect f l).
Qed.

Lemma ill_typed_refused filters rs : forallb well_typed filters = false -> is_ok (DoFilterResources doublestar_Match rs filters) = false.
Proof.
  intros W0. assert (exists f, In f filters /\ well_typed f = false) as (f & Hf & W).
  { clear -W0. induction filters as [|g fs IH]; [done|]. cbn in W0. destruct (well_typed g) eqn:E; [|exists g; by split; [left|]].
    destruct (IH W0) as (f & Hf & W). exists f. by split; [right|]. }
  unfold DoFilterResources, BuildRepositoryFilters, BuildArtifactFilters.
  unfold well_typed in W. destruct (f_Type f =s= FilterTypeLabel) eqn:L; [|destruct (f_Type f =s= FilterTypeTag) eqn:T].
  1,2: assert (E : is_ok (collect build_artifact_filter filters) = false);
    [apply (collect_err _ _ f Hf); unfold build_artifact_filter; rewrite L, ?T; destruct (f_Value f) as [[]|]; done|];
    destruct (collect build_repository_filter filters); [|done]; by destruct (collect build_artifact_filter filters).
  destruct (f_Type f =s= FilterTypeName) eqn:N; [|done].
  assert (E : is_ok (collect build_repository_filter filters) = false);
    [apply (collect_err _ _ f Hf); unfold build_repository_filter; rewrite N; destruct (f_Value f) as [[]|]; done|].
  by destruct (collect build_repository_filter filters).
Qed.

End Selection.

(** ** Patterns: what a specific path stands for *)

Definition free_of (chars : string) (s : string) : bool :=
  GoStrings.all_chars (fun c => negb (existsb (Ascii.eqb c) (String.list_ascii_of_string chars))) s.

Lemma free_of_app chars s t : free_of chars (s ++ t)%string = free_of chars s && free_of chars t.
Proof. apply GoStrings.all_chars_app. Qed.

Lemma lacks_all_chars c s : GoStrings.lacks c s = GoStrings.all_chars (fun d => negb (Ascii.eqb d c)) s.
Proof. induction s as [|d s IH]; [done|]. cbn. by rewrite IH. Qed.

Lemma free_of_lacks chars c s :
  In c (String.list_ascii_of_string chars) -> free_of chars s = true -> GoStrings.lacks c s = true.
Proof.
  intros Hc H. rewrite lacks_all_chars. eapply GoStrings.all_chars_impl; [|exact H].
  intros d Hd. destruct (Ascii.eqb_spec d c) as [->|]; [|done].
  apply negb_true_iff, not_true_iff_false in Hd. exfalso. apply Hd, existsb_exists. exists c. split; [done|].
  apply Ascii.eqb_refl.
Qed.

Lemma ContainsAny_free s chars : ContainsAny s chars = negb (free_of chars s).
Proof.
  unfold ContainsAny. destruct (free_of chars s) eqn:F.
  - apply not_true_iff_false. intros (c & Hc & L)%existsb_exists. by rewrite (free_of_lacks _ _ _ Hc F) in L.
  - apply existsb_exists. revert F. unfold free_of. induction s as [|d s IH]; [done|]. cbn [GoStrings.all_chars].
    intros [E|E]%andb_false_iff.
    + apply negb_false_iff, existsb_exists in E as (c & Hc & E). apply Ascii.eqb_eq in E as ->.
      exists c. split; [done|]. cbn. by rewrite Ascii.eqb_refl.
    + destruct (IH E) as (c & Hc & L). exists c. split; [done|]. cbn.
      apply negb_true_iff in L. by rewrite L, andb_false_r.
Qed.

Lemma index_char_app c s t :
  GoStrings.lacks c s = true -> index_char c (s ++ String c t) = Some (String.length s).
Proof.
  induction s as [|d s IH].
  - intros _. change (index_char c (String c t) = Some 0%nat). cbn. by rewrite Ascii.eqb_refl.
  - cbn [GoStrings.lacks]. intros [N L]%andb_true_iff.
    change (index_char c (String d (s ++ String c t)) = Some (S (String.length s))). cbn [index_char].
    rewrite Ascii.eqb_sym. by rewrite (proj1 (negb_true_iff _) N), IH.
Qed.

Lemma last_index_lacks c t : GoStrings.lacks c t = true -> last_index_char c t = None.
Proof.
  induction t as [|d t IH]; [done|]. cbn. intros [N L]%andb_true_iff. rewrite IH by done.
  rewrite Ascii.eqb_sym. by rewrite (proj1 (negb_true_iff _) N).
Qed.

Lemma last_index_char_app c s t :
  GoStrings.lacks c t = true -> last_index_char c (s ++ String c t) = Some (String.length s).
Proof.
  intros L. induction s as [|d s IH].
  - change (last_index_char c (String c t) = Some 0%nat). cbn. by rewrite last_index_lacks, Ascii.eqb_refl.
  - change (last_index_char c (String d (s ++ String c t)) = Some (S (String.length s))). cbn [last_index_char].
    by rewrite IH.
Qed.

Lemma substring_prefix s t : String.substring 0 (String.length s) (s ++ t) = s.
Proof.
  induction s as [|d s IH]; [by destruct t|].
  change (String d (String.substring 0 (String.length s) (s ++ t)) = String d s). by rewrite IH.
Qed.

Lemma substring_skip p n s : String.substring (String.length p) n (p ++ s) = String.substring 0 n s.
Proof. induction p as [|d p IH]; [done|]. exact IH. Qed.

(** The end of a slice that may start at the end of the string. *)
Lemma rest_after n s : (if (n <? String.length s)%nat then GoStrings.drop n s else "") = GoStrings.drop n s.
Proof.
  destruct (Nat.ltb_spec n (String.length s)) as [|H]; [done|]. symmetry. revert n H.
  induction s as [|c s IH]; intros [|n] H; cbn in *; try done; [lia|]. apply IH. lia.
Qed.

(** A component of a pattern: a literal, or one pair of braces. *)
Inductive component := Lit (s : string) | Alt (p : string) (alts : list string) (s : string).

Definition render (c : component) : string :=
  match c with
  | Lit s => s
  | Alt p alts s => (p ++ "{" ++ GoStrings.Join alts "," ++ "}" ++ s)%string
  end.

Definition choices (c : component) : list string :=
  match c with
  | Lit s => [s]
  | Alt p alts s => (fun a => p ++ a ++ s)%string <$> alts
  end.

Definition special : string := "*?[\]^/{},".
Definition plain (s : string) : bool := free_of special s.

Definition component_ok (c : component) : bool :=
  match c with
  | Lit s => negb (s =s= "") && plain s
  | Alt p alts s => plain p && plain s && negb (bool_decide (alts = [])) && forallb plain alts
  end.

(** Every path that takes one choice for each component. *)
Definition all_paths (l : list (list string)) : list (list string) :=
  foldr (fun c acc => flat_map (fun x => cons x <$> acc) c) [[]] l.

Lemma plain_free chars s :
  (forall c, In c (String.list_ascii_of_string chars) -> In c (String.list_ascii_of_string special)) ->
  plain s = true -> free_of chars s = true.
Proof.
  intros Hsub. unfold plain, free_of. apply GoStrings.all_chars_impl. intros c H.
  apply negb_true_iff, not_true_iff_false. intros (d & Hd & E)%existsb_exists.
  apply negb_true_iff, not_true_iff_false in H. apply H, existsb_exists. eauto.
Qed.

Lemma free_of_Join chars sep ws :
  free_of chars sep = true -> forallb (free_of chars) ws = true -> free_of chars (GoStrings.Join ws sep) = true.
Proof.
  intros Hs. induction ws as [|w ws IH]; [done|]. cbn [forallb]. intros [Hw H]%andb_true_iff.
  destruct ws as [|v ws]; [done|]. change (GoStrings.Join (w :: v :: ws) sep) with (w ++ sep ++ GoStrings.Join (v :: ws) sep)%string.
  by rewrite !free_of_app, Hw, Hs, IH.
Qed.

Lemma lacks_count c s : GoStrings.lacks c s = true -> GoStrings.count c s = 0%nat.
Proof. rewrite lacks_all_chars. apply GoStrings.all_chars_count. by rewrite Ascii.eqb_refl. Qed.

Lemma component_ok_choices c : component_ok c = true -> IsSpecificPathComponent (render c) = Some (choices c).
Proof.
  intros W. unfold IsSpecificPathComponent. rewrite !ContainsAny_free, negb_involutive.
  destruct c as [s|p alts s]; cbn [component_ok render choices] in *.
  - apply andb_true_iff in W as [N P]. rewrite (proj1 (negb_true_iff _) N).
    rewrite !(plain_free _ s) by (done || cbn; tauto). done.
  - apply andb_true_iff in W as [[[Pp Ps]%andb_true_iff N]%andb_true_iff A].
    apply negb_true_iff, bool_decide_eq_false in N. set (J := GoStrings.Join alts ",").
    assert (FA : forall chars, (forall c, In c (String.list_ascii_of_string chars) -> In c (String.list_ascii_of_string special)) ->
                   free_of chars "," = true -> free_of chars J = true).
    { intros chars H1 H2. apply free_of_Join; [done|]. apply forallb_forall. intros a Ha.
      apply plain_free; [done|]. by apply (proj1 (forallb_forall _ _) A). }
    assert (L : forall d t, In d (String.list_ascii_of_string special) -> plain t = true -> GoStrings.lacks d t = true)
      by (intros d t Hd; by apply free_of_lacks).
    assert (LJ : forall d, In d ["{"%char; "}"%char] -> GoStrings.lacks d J = true).
    { intros d Hd. apply (free_of_lacks "{}"); [exact Hd|]. by apply FA; [cbn; tauto|]. }
    replace (_ =s= "") with false by (symmetry; apply String.eqb_neq; destruct p; discriminate).
    rewrite !free_of_app, !(plain_free _ p), !(plain_free _ s), FA by (done || cbn; tauto). cbn [andb negb].
    change (free_of "{},"  "{") with false. change (free_of "*?[\]^/" "{" && (true && (free_of "*?[\]^/" "}" && true))) with true.
    cbn [andb negb]. rewrite !GoStrings.count_app.
    rewrite (lacks_count "{" p), (lacks_count "{" s), (lacks_count "{" J)
      by (apply LJ || apply L; done || cbn; tauto).
    change (1 <? _)%nat with false. cbn iota.
    change ("{" ++ J ++ "}" ++ s)%string with (String "{" (J ++ String "}" s)).
    rewrite index_char_app by (apply L; [cbn; tauto|done]).
    change (p ++ String "{" (J ++ String "}" s))%string with (p ++ ("{" ++ J) ++ String "}" s)%string.
    rewrite <- GoStrings.app_assoc, last_index_char_app by (apply L; [cbn; tauto|done]).
    rewrite GoStrings.string_length_app. change (String.length ("{" ++ J)) with (S (String.length J)).
    rewrite (proj2 (Nat.ltb_ge _ _)) by lia.
    f_equal. rewrite GoStrings.app_assoc, substring_prefix, rest_after.
    assert (D : GoStrings.drop (String.length p + S (String.length J) + 1) (p ++ ("{" ++ J) ++ String "}" s) = s).
    { replace (p ++ ("{" ++ J) ++ String "}" s)%string with ((p ++ "{" ++ J ++ "}") ++ s)%string
        by (by rewrite !GoStrings.app_assoc).
      replace (String.length p + S (String.length J) + 1)%nat with (String.length (p ++ "{" ++ J ++ "}"))
        by (rewrite !GoStrings.string_length_app; cbn; lia).
      apply GoStrings.drop_app. }
    rewrite D.
    replace (String.length p + S (String.length J) - (String.length p + 1))%nat with (String.length J) by lia.
    replace (String.length p + 1)%nat with (String.length (p ++ "{")) by (rewrite GoStrings.string_length_app; cbn; lia).
    replace (p ++ ("{" ++ J) ++ String "}" s)%string with ((p ++ "{") ++ J ++ String "}" s)%string
      by (by rewrite !GoStrings.app_assoc).
    rewrite substring_skip, substring_prefix. unfold J. rewrite GoStrings.Split_Join; [done|done|].
    apply Forall_forall. intros a Ha%list_elem_of_In. apply lacks_count, L; [cbn; tauto|].
    by apply (proj1 (forallb_forall _ _) A).
Qed.

Lemma combination_step acc c ccs :
  acc <> [] -> c <> [] ->
  flat_map (fun a => (fun q => GoStrings.Join (a :: q) "/") <$> all_paths ccs) (combinationPathComponents acc c)
  = flat_map (fun a => (fun q => GoStrings.Join (a :: q) "/") <$> all_paths (c :: ccs)) acc.
Proof.
  intros Na Nc.
  replace (combinationPathComponents acc c) with (flat_map (fun c1 => (fun c2 => c1 ++ "/" ++ c2)%string <$> c) acc)
    by (by destruct acc, c).
  clear Na Nc. induction acc as [|a acc IH]; [done|]. cbn [flat_map]. rewrite flat_map_app, IH. f_equal.
  clear IH. cbn [all_paths foldr]. induction c as [|x c IH]; [done|]. cbn [flat_map fmap list_fmap].
  rewrite IH, fmap_app, <- list_fmap_compose. f_equal. apply list_fmap_ext. intros _ q _. cbn [compose].
  destruct q; cbn [GoStrings.Join]; [done|]. by rewrite !GoStrings.app_assoc.
Qed.

Lemma combinations acc ccs :
  acc <> [] -> Forall (fun c => c <> []) ccs ->
  foldl combinationPathComponents acc ccs
  = flat_map (fun a => (fun q => GoStrings.Join (a :: q) "/") <$> all_paths ccs) acc.
Proof.
  revert acc. induction ccs as [|c ccs IH]; intros acc Na H.
  - cbn. induction acc as [|a acc IHa]; [done|]. cbn. f_equal. destruct acc; [done|]. by apply IHa.
  - inversion H as [|? ? Nc H']; subst. cbn [foldl]. rewrite IH; [by apply combination_step| |done].
    destruct acc, c; done.
Qed.

Lemma combinations_all ccs :
  ccs <> [] -> Forall (fun c => c <> []) ccs ->
  foldl combinationPathComponents [] ccs = (fun q => GoStrings.Join q "/") <$> all_paths ccs.
Proof.
  destruct ccs as [|c ccs]; [done|]. intros _ H. inversion H as [|? ? Nc H']; subst. cbn [foldl].
  change (combinationPathComponents [] c) with c. rewrite combinations by done.
  cbn [all_paths foldr]. clear Nc H. induction c as [|x c IH]; [done|]. cbn [flat_map].
  by rewrite IH, fmap_app, <- list_fmap_compose.
Qed.

Lemma Split_app s t sep :
  GoStrings.Split (s ++ String sep t) sep = GoStrings.Split s sep ++ GoStrings.Split t sep.
Proof.
  induction s as [|c s IH].
  - change (GoStrings.Split (String sep t) sep = [""] ++ GoStrings.Split t sep). cbn. by rewrite Ascii.eqb_refl.
  - change (GoStrings.Split (String c (s ++ String sep t)) sep = GoStrings.Split (String c s) sep ++ GoStrings.Split t sep).
    cbn [GoStrings.Split]. rewrite IH. destruct (Ascii.eqb c sep); [done|].
    assert (N : GoStrings.Split s sep <> []).
    { intros E. apply (f_equal length) in E. by rewrite GoStrings.Split_length in E. }
    by destruct (GoStrings.Split s sep).
Qed.

Lemma choices_nonempty c : component_ok c = true -> choices c <> [].
Proof.
  destruct c as [s|p alts s]; [done|]. cbn. rewrite !andb_true_iff. intros [[_ N] _].
  apply negb_true_iff, bool_decide_eq_false in N. by destruct alts.
Qed.

Lemma render_lacks_slash c : component_ok c = true -> GoStrings.count "/" (render c) = 0%nat /\ render c <> "".
Proof.
  intros W. pose proof (component_ok_choices c W) as E. unfold IsSpecificPathComponent in E.
  destruct (String.eqb_spec (render c) "") as [|N]; [done|]. split; [|done].
  rewrite ContainsAny_free in E. destruct (free_of _ (render c)) eqn:F; [|done].
  apply lacks_count. eapply free_of_lacks; [|exact F]. cbn. tauto.
Qed.

Lemma specific_path_expands cs :
  cs <> [] -> forallb component_ok cs = true ->
  IsSpecificPath (GoStrings.Join (render <$> cs) "/")
  = Some ((fun q => GoStrings.Join q "/") <$> all_paths (choices <$> cs)).
Proof.
  intros N W. assert (W' : forall c, In c cs -> component_ok c = true) by (by apply forallb_forall).
  unfold IsSpecificPath.
  replace (_ =s= "") with false.
  2: { symmetry. apply String.eqb_neq. destruct cs as [|c cs]; [done|].
       destruct (render_lacks_slash c (W' c (or_introl eq_refl))) as [_ Nc].
       destruct cs; cbn; [done|]. by destruct (render c). }
  rewrite GoStrings.Split_Join.
  2: { by destruct cs. }
  2: { apply Forall_fmap, Forall_forall. intros c Hc%list_elem_of_In. apply render_lacks_slash, W', Hc. }
  rewrite (proj2 (mapM_Some _ _ (choices <$> cs))).
  2: { apply Forall2_fmap_l, Forall2_fmap_r, Forall_Forall2_diag, Forall_forall.
       intros c Hc%list_elem_of_In. by apply component_ok_choices, W'. }
  f_equal. apply combinations_all; [by destruct cs|].
  apply Forall_fmap, Forall_forall. intros c Hc%list_elem_of_In. by apply choices_nonempty, W'.
Qed.

Lemma length_flat_map_const {A B} (f : A -> list B) n l :
  (forall x, length (f x) = n) -> length (flat_map f l) = (length l * n)%nat.
Proof. intros H. induction l as [|x l IH]; [done|]. cbn. by rewrite length_app, H, IH. Qed.

Lemma all_paths_length ccs :
  length (all_paths ccs) = foldr (fun c n => length c * n)%nat 1%nat ccs.
Proof.
  induction ccs as [|c ccs IH]; [done|]. cbn [foldr]. rewrite <- IH.
  change (all_paths (c :: ccs)) with (flat_map (fun x => cons x <$> all_paths ccs) c).
  apply length_flat_map_const. intros x. apply length_fmap.
Qed.

(** ** Destination names *)

Definition proper (c : string) : bool :=
  negb (c =s= "") && negb (c =s= ".") && negb (c =s= "..") && GoStrings.lacks "/" c.

Lemma clean_proper rooted acc cs :
  forallb (fun c => (c =s= "") || proper c) cs = true ->
  clean_components rooted acc cs = rev acc ++ List.filter (fun c => negb (c =s= "")) cs.
Proof.
  revert acc. induction cs as [|c cs IH]; intros acc; cbn [forallb clean_components List.filter]; [by rewrite app_nil_r|].
  intros [Hc H]%andb_true_iff. destruct (c =s= ""); cbn [orb negb] in *; [by apply IH|].
  unfold proper in Hc. destruct (c =s= "."), (c =s= ".."); cbn in Hc; try (rewrite andb_false_r in Hc; done).
  cbn [orb]. rewrite IH by done. cbn [rev]. by rewrite <- app_assoc.
Qed.

Lemma proper_filter cs : forallb proper cs = true -> List.filter (fun c => negb (c =s= "")) cs = cs.
Proof.
  intros H. apply forallb_filter_id, forallb_forall. intros c Hc.
  pose proof (proj1 (forallb_forall _ _) H c Hc) as P. unfold proper in P. by destruct (c =s= "").
Qed.

Lemma proper_or_empty cs : forallb proper cs = true -> forallb (fun c => (c =s= "") || proper c) cs = true.
Proof. intros H. apply forallb_forall. intros c Hc. rewrite (proj1 (forallb_forall _ _) H c Hc). apply orb_true_r. Qed.

Lemma Split_Join_proper cs : cs <> [] -> forallb proper cs = true -> GoStrings.Split (GoStrings.Join cs "/") "/" = cs.
Proof.
  intros N H. apply GoStrings.Split_Join; [done|]. apply Forall_forall. intros c Hc%list_elem_of_In.
  pose proof (proj1 (forallb_forall _ _) H c Hc) as P. unfold proper in P. apply andb_true_iff in P as [_ P].
  by apply lacks_count.
Qed.

Lemma Join_proper_start c cs t :
  proper c = true -> GoStrings.HasPrefix (GoStrings.Join (c :: cs) "/" ++ t) "/" = false /\ GoStrings.Join (c :: cs) "/" <> "".
Proof.
  unfold proper. intros H. destruct c as [|d c]; [done|].
  apply andb_true_iff in H as [_ L]. cbn in L. apply andb_true_iff in L as [L _]. apply negb_true_iff in L.
  assert (E : exists u, GoStrings.Join (String d c :: cs) "/" = String d u) by (destruct cs; cbn; eauto).
  destruct E as [u ->]. split; [|done]. change (String.prefix "/" (String d (u ++ t)) = false).
  cbn [String.prefix]. destruct (ascii_dec "/" d) as [<-|]; [done|done].
Qed.

(** Joining onto a prefix, possibly with an empty component in between. *)
Lemma path_Join_proper cs gap name :
  cs <> [] -> forallb proper cs = true -> proper name = true ->
  path_Join (GoStrings.Join cs "/" ++ (if gap : bool then "/" else "")) name = GoStrings.Join (cs ++ [name]) "/".
Proof.
  intros N H P. destruct cs as [|c cs]; [done|]. set (J := GoStrings.Join (c :: cs) "/").
  assert (Hc : proper c = true) by (by apply andb_true_iff in H as [? _]).
  set (g := if gap then "/" else "").
  assert (S : forall t, GoStrings.HasPrefix (J ++ t) "/" = false /\ J <> "") by (intros; by apply Join_proper_start).
  unfold path_Join. cbn [List.filter].
  rewrite (proj2 (String.eqb_neq (J ++ g) "")) by (destruct (S "") as [_ NJ]; by destruct J).
  rewrite (proj2 (String.eqb_neq name "")) by (by intros ->). cbn [negb GoStrings.Join].
  unfold path_Clean. rewrite GoStrings.app_assoc. rewrite (proj1 (S _)).
  assert (Sn : GoStrings.Split name "/" = [name]) by (apply (Split_Join_proper [name]); [done|by cbn; rewrite P]).
  set (cl := clean_components _ _ _).
  assert (E : cl = (c :: cs) ++ [name]).
  { unfold cl. change ("/" ++ name)%string with (String "/" name). unfold g; destruct gap.
    - change ("/" ++ String "/" name)%string with (String "/" (String "/" name)).
      rewrite Split_app. unfold J. rewrite Split_Join_proper by done.
      change (GoStrings.Split (String "/" name) "/") with ("" :: GoStrings.Split name "/").
      rewrite Sn.
      rewrite clean_proper; [|rewrite forallb_app, (proper_or_empty _ H); cbn; by rewrite P, orb_true_r].
      rewrite List.filter_app, proper_filter by done. cbn [List.filter]. 
      by rewrite (proj2 (String.eqb_neq name "")) by (by intros ->).
    - change ("" ++ String "/" name)%string with (String "/" name). rewrite Split_app. unfold J.
      rewrite Split_Join_proper by done. rewrite Sn.
      assert (A : forallb proper ((c :: cs) ++ [name]) = true) by (rewrite forallb_app, H; cbn; by rewrite P).
      rewrite clean_proper by (by apply proper_or_empty). by rewrite proper_filter. }
  rewrite E. rewrite (proj2 (String.eqb_neq _ "")); [done|].
  destruct (Join_proper_start c (cs ++ [name]) "" Hc) as [_ NE]. exact NE.
Qed.

Definition path_type_ok (ty : string) (n : nat) : bool :=
  if ty =s= RepositoryPathComponentTypeOnlyTwo then (n =? 2)%nat
  else if ty =s= RepositoryPathComponentTypeAtLeastTwo then (2 <=? n)%nat else true.

Lemma Join_app_sep cs ds :
  cs <> [] -> ds <> [] -> GoStrings.Join (cs ++ ds) "/" = (GoStrings.Join cs "/" ++ "/" ++ GoStrings.Join ds "/")%string.
Proof.
  intros N M. induction cs as [|c cs IH]; [done|]. destruct cs as [|c' cs].
  - by destruct ds.
  - change ((c :: c' :: cs) ++ ds) with (c :: c' :: (cs ++ ds)).
    change (GoStrings.Join (c :: c' :: (cs ++ ds)) "/") with (c ++ "/" ++ GoStrings.Join ((c' :: cs) ++ ds) "/")%string.
    rewrite IH by done. change (GoStrings.Join (c :: c' :: cs) "/") with (c ++ "/" ++ GoStrings.Join (c' :: cs) "/")%string.
    by rewrite !GoStrings.app_assoc.
Qed.

Definition path_type_error (ty : string) : error :=
  bad_request (if ty =s= RepositoryPathComponentTypeOnlyTwo
               then "the destination registry only supports 2 path components"
               else "the destination registry requires at least 2 path components").

Lemma checked_path dst ty :
  dst <> [] -> forallb proper dst = true ->
  (if (ty =s= RepositoryPathComponentTypeOnlyTwo) && negb (length (GoStrings.Split (GoStrings.Join dst "/") "/") =? 2)%nat
   then Err (bad_request "the destination registry only supports 2 path components")
   else if (ty =s= RepositoryPathComponentTypeAtLeastTwo) && (length (GoStrings.Split (GoStrings.Join dst "/") "/") <? 2)%nat
   then Err (bad_request "the destination registry requires at least 2 path components")
   else Ok (GoStrings.Join dst "/"))
  = if path_type_ok ty (length dst) then Ok (GoStrings.Join dst "/") else Err (path_type_error ty).
Proof.
  intros N H. rewrite Split_Join_proper by done. unfold path_type_ok, path_type_error.
  destruct (String.eqb_spec ty RepositoryPathComponentTypeOnlyTwo) as [->|].
  - cbn [andb]. by destruct (length dst =? 2)%nat.
  - cbn [andb]. destruct (ty =s= RepositoryPathComponentTypeAtLeastTwo); [|done]. cbn [andb].
    rewrite Nat.ltb_antisym. by destruct (2 <=? length dst)%nat.
Qed.

Lemma replaceNamespace_components ns rs name n ty :
  ns <> [] -> forallb proper ns = true -> forallb proper rs = true -> proper name = true ->
  n <= Z.of_nat (length rs) ->
  let dst := ns ++ (if n <? 0 then [] else drop (Z.to_nat n) rs) ++ [name] in
  replaceNamespace (GoStrings.Join (rs ++ [name]) "/") (GoStrings.Join ns "/") n ty
  = if path_type_ok ty (length dst) then Ok (GoStrings.Join dst "/")
    else Err (path_type_error ty).
Proof.
  intros N Hn Hr P Hle dst. unfold replaceNamespace.
  assert (Hrn : forallb proper (rs ++ [name]) = true) by (rewrite forallb_app, Hr; cbn; by rewrite P).
  assert (Hmid : forallb proper (drop (Z.to_nat n) rs) = true)
    by (rewrite <- (take_drop (Z.to_nat n) rs), forallb_app in Hr; by apply andb_true_iff in Hr as [_ ?]).
  destruct ns as [|c ns']; [done|].
  assert (Hc : proper c = true) by (by apply andb_true_iff in Hn as [? _]).
  rewrite (proj2 (String.eqb_neq _ "")) by apply (Join_proper_start c ns' "" Hc).
  rewrite Split_Join_proper by (done || by destruct rs). rewrite length_app. cbn [length].
  replace (length rs + 1 - 1)%nat with (length rs) by lia. rewrite take_app_length.
  rewrite (proj2 (Z.ltb_ge (Z.of_nat (length rs + 1) - 1) n)) by lia.
  rewrite last_last.
  assert (Hd : forallb proper dst = true).
  { unfold dst. rewrite !forallb_app, Hn. cbn. rewrite P. destruct (n <? 0); [done|]. by rewrite Hmid. }
  destruct (Z.ltb_spec n 0) as [Hneg|Hpos].
  - rewrite <- (GoStrings.app_nil (GoStrings.Join (c :: ns') "/")).
    rewrite (path_Join_proper (c :: ns') false name) by done. by apply checked_path.
  - destruct (drop (Z.to_nat n) rs) as [|m ms] eqn:E.
    + change (GoStrings.Join [] "/") with "". rewrite GoStrings.app_nil.
      rewrite (path_Join_proper (c :: ns') true name) by done. by apply checked_path.
    + rewrite <- Join_app_sep by done.
      rewrite <- (GoStrings.app_nil (GoStrings.Join _ "/")).
      rewrite (path_Join_proper ((c :: ns') ++ m :: ms) false name); [|done| |done].
      * replace ((_ ++ _) ++ [name]) with dst by (unfold dst; by rewrite <- app_assoc). by apply checked_path.
      * rewrite forallb_app, Hn. exact Hmid.
Qed.

(** ** Theorems *)

(** C34: Filtering resources by a policy is exactly its reference meaning, when the
    filters have values of their types (otherwise it fails) and the matcher accepts
    their patterns: a resource is kept when its repository passes every name filter
    and one of its artifacts passes; an artifact passes when its labels pass every
    label filter, and it keeps exactly the tags that pass every tag filter; an
    accessory of a tagged artifact passes the first tag filter by a tag of that
    artifact, and the others by its own tags.  The order of the filters makes no
    difference, but for such accessories under two tag filters. *)
Theorem filters_exact (doublestar_Match : string -> string -> result bool) (tm : string -> string -> bool) filters rs :
  patterns_total doublestar_Match tm filters ->
  (if forallb well_typed filters
   then DoFilterResources doublestar_Match rs filters
        = Ok (omap (resource_selected tm (omap name_of filters) (omap filter_of filters)) rs)
   else is_ok (DoFilterResources doublestar_Match rs filters) = false)
  /\ (forall filters', filters' ≡ₚ filters -> forallb well_typed filters = true ->
        forallb (fun r => forallb (unordered (omap filter_of filters)) (res_Artifacts r)) rs = true ->
        DoFilterResources doublestar_Match rs filters' = DoFilterResources doublestar_Match rs filters).
Proof.
  intros T. split.
  { destruct (forallb well_typed filters) eqn:W; [by apply do_filter_resources_ok|by apply ill_typed_refused]. }
  intros filters' P W U. rewrite (do_filter_resources_ok _ tm filters) by done.
  rewrite (do_filter_resources_ok _ tm filters').
  - f_equal. induction rs as [|r rs IH]; [done|]. cbn [forallb] in U. apply andb_true_iff in U as [Ur U].
    cbn [omap list_omap]. rewrite IH by done.
    rewrite <- (resource_selected_Permutation tm (omap name_of filters) (omap name_of filters') (omap filter_of filters) (omap filter_of filters'));
      [done|by rewrite P..|exact Ur].
  - by rewrite (forallb_Permutation _ _ _ P).
  - intros f p s Hf. apply T. by eapply Permutation_in.
Qed.

Definition sample_glob (p s : string) : bool := (p =s= s) || ((p =s= "v*") && GoStrings.HasPrefix s "v") || (p =s= "**").
Definition sample_match (p s : string) : result bool := Ok (sample_glob p s).

Definition sample_resource (arts : list Artifact) : Resource :=
  mkResource "artifact" "library/app" None arts [] (mkRegistry 0 "harbor" "http://core") None false false false false.

Definition sample_filters : list Filter :=
  [ mkFilter FilterTypeName (VString "**") ""; mkFilter FilterTypeTag (VString "v*") Matches;
    mkFilter FilterTypeTag (VString "v2") Excludes; mkFilter FilterTypeLabel (VStrings ["prod"]) "" ].

Definition sample_resources : list Resource :=
  [sample_resource [mkArtifact "IMAGE" "d1" ["prod"] ["v1"; "v2"; "dev"] false []; mkArtifact "IMAGE" "d2" [] ["v1"] false []]].

(** A signature without tags, of an artifact with two. *)
Definition sample_signature : Resource := sample_resource [mkArtifact "SIGNATURE" "d3" ["prod"] [] true ["v1"; "v2"]].

Lemma filters_exact_witness :
  DoFilterResources sample_match (sample_signature :: sample_resources) sample_filters
  = Ok [sample_resource [mkArtifact "SIGNATURE" "d3" ["prod"] [] false []];
        sample_resource [mkArtifact "IMAGE" "d1" ["prod"] ["v1"] false []]]
  /\ DoFilterResources sample_match sample_resources (rev sample_filters)
     = DoFilterResources sample_match sample_resources sample_filters.
Proof.
  split.
  - destruct (filters_exact sample_match sample_glob sample_filters (sample_signature :: sample_resources)
      ltac:(intros f p s _ _; reflexivity)) as [E _]. cbn [forallb well_typed andb] in E. refine (eq_trans E _). reflexivity.
  - destruct (filters_exact sample_match sample_glob sample_filters sample_resources ltac:(intros f p s _ _; reflexivity)) as [_ O].
    apply O; [symmetry; apply Permutation_rev|reflexivity|reflexivity].
Defined.

(** An accessory is matched by the tags of its subject, but the copy that a tag
    filter returns no longer says so: a second tag filter tries it as an artifact
    without tags and drops it, though the subject's tag passes both. *)
Theorem second_tag_filter_drops_accessories :
  let sig := mkArtifact "SIGNATURE" "d2" [] [] true ["v1"] in
  let once p d := [mkFilter FilterTypeTag (VString p) d] in
  DoFilterArtifacts sample_match [sig] (once "v*" Matches) <> Ok []
  /\ DoFilterArtifacts sample_match [sig] (once "v1" Matches) <> Ok []
  /\ DoFilterArtifacts sample_match [sig] (once "v*" Matches ++ once "v1" Matches) = Ok [].
Proof. by repeat split. Qed.

(** A pattern of literals and single pairs of braces stands for all its choices,
    as many as the product of the alternatives. *)
Theorem specific_paths cs :
  cs <> [] -> forallb component_ok cs = true ->
  exists paths, IsSpecificPath (GoStrings.Join (render <$> cs) "/") = Some paths
    /\ paths = (fun q => GoStrings.Join q "/") <$> all_paths (choices <$> cs)
    /\ length paths = foldr (fun c n => length (choices c) * n)%nat 1%nat cs.
Proof.
  intros N W. exists ((fun q => GoStrings.Join q "/") <$> all_paths (choices <$> cs)).
  split; [by apply specific_path_expands|]. split; [done|].
  rewrite length_fmap, all_paths_length. clear. induction cs as [|c cs IH]; [done|]. cbn. by rewrite IH.
Qed.

(** The name at the destination: the namespace, what the flattening leaves of the
    source's path, and the last component; a level beyond the path is refused. *)
Theorem destination_names ns rs name n ty :
  ns <> [] -> forallb proper ns = true -> forallb proper rs = true -> proper name = true ->
  replaceNamespace (GoStrings.Join (rs ++ [name]) "/") (GoStrings.Join ns "/") n ty
  = if Z.of_nat (length rs) <? n
    then Err (bad_request "the source repository has fewer path components than the flattening level")
    else let dst := ns ++ (if n <? 0 then [] else drop (Z.to_nat n) rs) ++ [name] in
         if path_type_ok ty (length dst) then Ok (GoStrings.Join dst "/") else Err (path_type_error ty).
Proof.
  intros N Hn Hr P. destruct (Z.ltb_spec (Z.of_nat (length rs)) n) as [H|H]; [|by apply replaceNamespace_components].
  unfold replaceNamespace. destruct ns as [|c ns]; [done|].
  rewrite (proj2 (String.eqb_neq _ "")) by (apply (Join_proper_start c ns ""); by apply andb_true_iff in Hn as [? _]).
  rewrite Split_Join_proper, length_app; [|by destruct rs|rewrite forallb_app, Hr; cbn; by rewrite P].
  rewrite (proj2 (Z.ltb_ge n 0)) by lia. rewrite (proj2 (Z.ltb_lt _ n)); [done|]. cbn [length]. lia.
Qed.
