(* ===== verification/RepPolicy.v ===== *)
(** * Replication policies

    [src/controller/replication/model/model.go]: the policies of the replication
    controller, their validation, and their conversion from and to the rows of
    the table, [src/pkg/replication/model/model.go], where filters and trigger are
    JSON text, possibly written by an old release.

    The mapping between structs and JSON values is written out field by field, as
    [encoding/json] does it for the tags of the structs; the text of a JSON value
    is the class [Json], the regular expression of repository names and the cron
    parser are parameters. *)

From S2P Require Import Prelude Errors RegClient OciRegistry Transfer RegFilter.

(** ** Data *)

Definition TriggerTypeManual : string := "manual".
Definition TriggerTypeScheduled : string := "scheduled".
Definition TriggerTypeEventBased : string := "event_based".

(** [Trigger]; its settings are the cron. *)
Record Trigger := mkTrigger { tr_Type : string; tr_Settings : option string }.

Record Policy := mkPolicy {
  p_ID : Z;
  p_Name : string;
  p_Description : string;
  p_Creator : string;
  p_SrcRegistry : option Registry;
  p_DestRegistry : option Registry;
  p_DestNamespace : string;
  p_DestNamespaceReplaceCount : Z;
  p_Filters : list Filter;
  p_Trigger : option Trigger;
  p_ReplicateDeletion : bool;
  p_Override : bool;
  p_Enabled : bool;
  p_CreationTime : Z;
  p_UpdateTime : Z;
  p_Speed : Z;
  p_CopyByChunk : bool;
  p_SingleActiveReplication : bool }.

(** A row of [replication_policy]. *)
Record row := mkRow {
  r_ID : Z;
  r_Name : string;
  r_Description : string;
  r_Creator : string;
  r_SrcRegistryID : Z;
  r_DestRegistryID : Z;
  r_DestNamespace : string;
  r_DestNamespaceReplaceCount : Z;
  r_Override : bool;
  r_Enabled : bool;
  r_Trigger : string;
  r_Filters : string;
  r_ReplicateDeletion : bool;
  r_CreationTime : Z;
  r_UpdateTime : Z;
  r_Speed : Z;
  r_CopyByChunk : bool;
  r_SingleActiveReplication : bool }.

Definition IsScheduledTrigger (p : Policy) : bool :=
  p_Enabled p && match p_Trigger p with Some t => tr_Type t =s= TriggerTypeScheduled | None => false end.

(** ** JSON *)

(** The text of JSON values.  [printable] excludes what the encoder changes:
    strings that are not UTF-8 and numbers a float does not hold. *)
Class Json := {
  json_print : json -> string;
  json_parse : string -> result json;
  printable : json -> Prop;
  parse_print : forall j, printable j -> json_parse (json_print j) = Ok j;
  print_nonempty : forall j, json_print j <> "" }.

Definition type_error : error := Plain "json: cannot unmarshal".

(** Decoding an object into a struct: each key in turn sets its field. *)
Fixpoint decode_fields {A} (set : string -> json -> A -> result A) (l : list (string * json)) (a : A) : result A :=
  match l with
  | [] => Ok a
  | (k, v) :: l' => match set k v a with Ok a' => decode_fields set l' a' | Err e => Err e end
  end.

(** Keys match fields without regard to case; null leaves a field alone. *)
Definition key (k name : string) : bool := GoStrings.EqualFold k name.

Definition set_string {A} (v : json) (f : string -> A) (a : A) : result A :=
  match v with JNull => Ok a | JStr s => Ok (f s) | _ => Err type_error end.

Definition set_int {A} (bits : Z) (v : json) (f : Z -> A) (a : A) : result A :=
  match v with
  | JNull => Ok a
  | JNum n => if (- 2 ^ (bits - 1) <=? n) && (n <? 2 ^ (bits - 1)) then Ok (f n) else Err type_error
  | _ => Err type_error
  end.

(** [filter] *)
Record item := mkItem {
  i_Type : string;
  i_Value : value;
  i_Decoration : string;
  i_Kind : string;
  i_Pattern : string }.

Definition empty_item : item := mkItem "" (VJson JNull) "" "" "".

Definition set_item (k : string) (v : json) (i : item) : result item :=
  let 'mkItem ty va de ki pa := i in
  if key k "type" then set_string v (fun s => mkItem s va de ki pa) i
  else if key k "value" then Ok (mkItem ty (VJson v) de ki pa)
  else if key k "decoration" then set_string v (fun s => mkItem ty va s ki pa) i
  else if key k "kind" then set_string v (fun s => mkItem ty va de s pa) i
  else if key k "pattern" then set_string v (fun s => mkItem ty va de ki s) i
  else Ok i.

(** An element of type [*filter]: null is the nil pointer. *)
Definition decode_item (v : json) : result (option item) :=
  match v with
  | JNull => Ok None
  | JObj l => match decode_fields set_item l empty_item with Ok i => Ok (Some i) | Err e => Err e end
  | _ => Err type_error
  end.

Fixpoint decode_list {A} (f : json -> result A) (l : list json) : result (list A) :=
  match l with
  | [] => Ok []
  | v :: l' =>
      match f v with
      | Err e => Err e
      | Ok a => match decode_list f l' with Ok r => Ok (a :: r) | Err e => Err e end
      end
  end.

Definition decode_items (v : json) : result (list (option item)) :=
  match v with
  | JNull => Ok []
  | JArr l => decode_list decode_item l
  | _ => Err type_error
  end.

(** [scheduleParam] and [trigger] *)
Record scheduleParam := mkScheduleParam { sp_Type : string; sp_Weekday : Z; sp_Offtime : Z }.

Record titem := mkTitem {
  t_Type : string;
  t_Settings : option string;
  t_Kind : string;
  t_ScheduleParam : option scheduleParam }.

Definition set_settings (k : string) (v : json) (cron : string) : result string :=
  if key k "cron" then set_string v (fun s => s) cron else Ok cron.

Definition set_param (k : string) (v : json) (p : scheduleParam) : result scheduleParam :=
  let 'mkScheduleParam ty wd off := p in
  if key k "type" then set_string v (fun s => mkScheduleParam s wd off) p
  else if key k "weekday" then set_int 8 v (fun n => mkScheduleParam ty n off) p
  else if key k "offtime" then set_int 64 v (fun n => mkScheduleParam ty wd n) p
  else Ok p.

(** A field that is a pointer to a struct: null clears it, an object fills the
    struct that is there or a new one. *)
Definition set_pointer {A B} (set : string -> json -> B -> result B) (zero : B) (v : json) (old : option B)
    (f : option B -> A) : result A :=
  match v with
  | JNull => Ok (f None)
  | JObj l => match decode_fields set l (default zero old) with Ok b => Ok (f (Some b)) | Err e => Err e end
  | _ => Err type_error
  end.

Definition set_titem (k : string) (v : json) (t : titem) : result titem :=
  let 'mkTitem ty se ki sp := t in
  if key k "type" then set_string v (fun s => mkTitem s se ki sp) t
  else if key k "trigger_settings" then set_pointer set_settings "" v se (fun x => mkTitem ty x ki sp)
  else if key k "kind" then set_string v (fun s => mkTitem ty se s sp) t
  else if key k "schedule_param" then set_pointer set_param (mkScheduleParam "" 0 0) v sp (fun x => mkTitem ty se ki x)
  else Ok t.

Definition decode_trigger (v : json) : result titem :=
  let zero := mkTitem "" None "" None in
  match v with
  | JNull => Ok zero
  | JObj l => decode_fields set_titem l zero
  | _ => Err type_error
  end.

Definition value_json (v : value) : json :=
  match v with VJson j => j | VStrings ss => JArr (JStr <$> ss) end.

Definition filter_json (f : Filter) : json :=
  JObj ([("type", JStr (f_Type f)); ("value", value_json (f_Value f))]
        ++ if f_Decoration f =s= "" then [] else [("decoration", JStr (f_Decoration f))]).

Definition trigger_json (t : Trigger) : json :=
  JObj [("type", JStr (tr_Type t));
        ("trigger_settings", match tr_Settings t with None => JNull | Some cron => JObj [("cron", JStr cron)] end)].

(** ** Parsing *)

Definition nil_pointer : error := Panic "nil pointer dereference".
Definition bad_assertion : error := Panic "interface conversion".

(** [strings.Replace(s, old, new, 1)] for a non-empty [old]. *)
Fixpoint replace_first (s old new : string) : string :=
  if GoStrings.HasPrefix s old then (new ++ GoStrings.drop (String.length old) s)%string
  else match s with
       | EmptyString => EmptyString
       | String c s' => String c (replace_first s' old new)
       end.

(** The inner loop: the first name filter takes the repository pattern in. *)
Fixpoint merge_repository (repository : string) (items : list (option item)) : result (list (option item)) :=
  match items with
  | [] => Ok []
  | None :: _ => Err nil_pointer
  | Some i :: items' =>
      if i_Type i =s= FilterTypeName then
        match i_Value i with
        | VString name =>
            if name =s= "" then Ok items
            else Ok (Some (mkItem (i_Type i) (VString (replace_first name "**" repository)) (i_Decoration i)
                             (i_Kind i) (i_Pattern i)) :: items')
        | _ => Ok items
        end
      else match merge_repository repository items' with
           | Ok l => Ok (Some i :: l)
           | Err e => Err e
           end
  end.

Definition json_strings (l : list json) : result (list string) :=
  decode_list (fun j => match j with JStr s => Ok s | _ => Err bad_assertion end) l.

(** The conversion of the value of a filter, after the type is known. *)
Definition convert_value (ty : string) (v : value) : result value :=
  if ty =s= FilterTypeResource then
    match v with VString s => Ok (VString s) | _ => Err bad_assertion end
  else if ty =s= FilterTypeLabel then
    match v with
    | VJson (JArr l) => match json_strings l with Ok ss => Ok (VStrings ss) | Err e => Err e end
    | _ => Err bad_assertion
    end
  else Ok v.

(** What one item becomes, and what it makes of the items. *)
Definition parse_item (i : item) (items : list (option item)) : result (option Filter * list (option item)) :=
  let finish ty v :=
    match convert_value ty v with
    | Ok v' => Ok (Some (mkFilter ty v' (i_Decoration i)), items)
    | Err e => Err e
    end in
  if i_Type i =s= "" then
    let v := match i_Value i with VJson JNull => VString (i_Pattern i) | v => v end in
    if i_Kind i =s= "repository" then
      match v with
      | VString repository =>
          if repository =s= "" then Ok (None, items)
          else match merge_repository repository items with Ok items' => Ok (None, items') | Err e => Err e end
      | _ => Ok (None, items)
      end
    else if i_Kind i =s= "tag" then finish FilterTypeTag v
    else Ok (None, items)
  else finish (i_Type i) (i_Value i).

Fixpoint parse_items (k n : nat) (items : list (option item)) : result (list Filter) :=
  match k with
  | O => Ok []
  | S k' =>
      match items !! n with
      | None => Ok []
      | Some None => Err nil_pointer
      | Some (Some i) =>
          match parse_item i items with
          | Err e => Err e
          | Ok (o, items') =>
              match parse_items k' (S n) items' with
              | Err e => Err e
              | Ok fs => Ok (match o with Some f => f :: fs | None => fs end)
              end
          end
      end
  end.

Definition parseScheduleParamToCron (param : option scheduleParam) : string :=
  match param with
  | None => ""
  | Some p =>
      let offtime := Z.rem (sp_Offtime p) (3600 * 24) in
      let hour := Z.quot offtime 3600 in
      let offtime := Z.rem offtime 3600 in
      let minute := Z.quot offtime 60 in
      let second := Z.rem offtime 60 in
      let n := Strconv.format_int in
      if sp_Type p =s= "Weekly"
      then (n second ++ " " ++ n minute ++ " " ++ n hour ++ " * * " ++ n (Z.rem (sp_Weekday p) 7))%string
      else (n second ++ " " ++ n minute ++ " " ++ n hour ++ " * * *")%string
  end.

(** A slice [[]*Filter] is its list: nil and empty are not told apart. *)
Section Parsing.

Context `{J : Json} (name_regexp : string -> bool) (cron_parse : string -> bool).

Definition parseFilters (str : string) : result (list Filter) :=
  if str =s= "" then Ok []
  else
    match json_parse str with
    | Err e => Err e
    | Ok v =>
        match decode_items v with
        | Err e => Err e
        | Ok items => parse_items (length items) 0 items
        end
    end.

Definition parseTrigger (str : string) : result (option Trigger) :=
  if str =s= "" then Ok None
  else
    match json_parse str with
    | Err e => Err e
    | Ok v =>
        match decode_trigger v with
        | Err e => Err e
        | Ok t =>
            if t_Type t =s= "" then
              if t_Kind t =s= "Manual" then Ok (Some (mkTrigger TriggerTypeManual (t_Settings t)))
              else if t_Kind t =s= "Immediate" then Ok (Some (mkTrigger TriggerTypeEventBased (t_Settings t)))
              else if t_Kind t =s= "Scheduled" then
                Ok (Some (mkTrigger TriggerTypeScheduled (Some (parseScheduleParamToCron (t_ScheduleParam t)))))
              else Ok None
            else Ok (Some (mkTrigger (t_Type t) (t_Settings t)))
        end
    end.

Definition registry_of_id (id : Z) : option Registry :=
  if 0 <? id then Some (mkRegistry id "" "") else None.

(** [From] a row, into a new policy. *)
Definition From_ (r : row) : result Policy :=
  match parseFilters (r_Filters r) with
  | Err e => Err e
  | Ok filters =>
      match parseTrigger (r_Trigger r) with
      | Err e => Err e
      | Ok trigger =>
          Ok (mkPolicy (r_ID r) (r_Name r) (r_Description r) (r_Creator r)
                (registry_of_id (r_SrcRegistryID r)) (registry_of_id (r_DestRegistryID r))
                (r_DestNamespace r) (r_DestNamespaceReplaceCount r) filters trigger
                (r_ReplicateDeletion r) (r_Override r) (r_Enabled r) (r_CreationTime r) (r_UpdateTime r)
                (r_Speed r) (r_CopyByChunk r) (r_SingleActiveReplication r))
      end
  end.

Definition id_of (r : option Registry) : Z := match r with Some g => reg_ID g | None => 0 end.

Definition To (p : Policy) : row :=
  mkRow (p_ID p) (p_Name p) (p_Description p) (p_Creator p)
    (id_of (p_SrcRegistry p)) (id_of (p_DestRegistry p)) (p_DestNamespace p) (p_DestNamespaceReplaceCount p)
    (p_Override p) (p_Enabled p)
    (match p_Trigger p with None => "" | Some t => json_print (trigger_json t) end)
    (match p_Filters p with [] => "" | l => json_print (JArr (filter_json <$> l)) end)
    (p_ReplicateDeletion p) (p_CreationTime p) (p_UpdateTime p) (p_Speed p) (p_CopyByChunk p)
    (p_SingleActiveReplication p).

(** ** Validation *)

Fixpoint validate_filters (l : list Filter) : result unit :=
  match l with
  | [] => Ok tt
  | f :: l' => match Filter_Validate f with Err e => Err e | Ok _ => validate_filters l' end
  end.

Definition validate_trigger (t : Trigger) : result unit :=
  if (tr_Type t =s= TriggerTypeManual) || (tr_Type t =s= TriggerTypeEventBased) then Ok tt
  else if tr_Type t =s= TriggerTypeScheduled then
    match tr_Settings t with
    | None | Some EmptyString =>
        Err (bad_request "the cron string cannot be empty when the trigger type is scheduled")
    | Some cron =>
        if negb (cron_parse cron) then Err (bad_request ("invalid cron string for scheduled trigger: " ++ cron))
        else
          let cronParts := GoStrings.Split cron " " in
          if negb (List.hd "" cronParts =s= "0")
          then Err (bad_request "the 1st field (indicating Seconds of time) of the cron setting must be 0")
          else match cronParts !! 1%nat with
               | None => Err (Panic "index out of range")
               | Some minutes =>
                   if minutes =s= "*"
                   then Err (bad_request "* is not allowed for the Minutes field of the cron setting of replication policy")
                   else Ok tt
               end
    end
  else Err (bad_request "invalid trigger type").

Definition Validate (p : Policy) : result unit :=
  let srcRegistryID := id_of (p_SrcRegistry p) in
  let dstRegistryID := id_of (p_DestRegistry p) in
  if p_Name p =s= "" then Err (bad_request "empty name")
  else if Bool.eqb (srcRegistryID =? 0) (dstRegistryID =? 0)
  then Err (bad_request "either src_registry or dest_registry should be empty and the other one shouldn't be empty")
  else
    match validate_filters (p_Filters p) with
    | Err e => Err e
    | Ok _ =>
        if negb (p_DestNamespace p =s= "") && negb (name_regexp (p_DestNamespace p))
        then Err (bad_request ("invalid destination namespace: " ++ p_DestNamespace p))
        else match p_Trigger p with None => Ok tt | Some t => validate_trigger t end
    end.

End Parsing.

(** ** What is read back *)

Section RoundTrip.

Context `{J : Json} (name_regexp : string -> bool) (cron_parse : string -> bool).

(** A label filter's value is read back as a slice of strings, a registry as its
    identifier. *)
Definition stored_value (f : Filter) : value :=
  match f_Value f with
  | VJson (JArr l) =>
      if f_Type f =s= FilterTypeLabel then VStrings (omap (fun j => match j with JStr s => Some s | _ => None end) l)
      else f_Value f
  | v => v
  end.

Definition stored_filter (f : Filter) : Filter := mkFilter (f_Type f) (stored_value f) (f_Decoration f).

Definition stored (p : Policy) : Policy :=
  mkPolicy (p_ID p) (p_Name p) (p_Description p) (p_Creator p)
    (registry_of_id (id_of (p_SrcRegistry p))) (registry_of_id (id_of (p_DestRegistry p)))
    (p_DestNamespace p) (p_DestNamespaceReplaceCount p) (stored_filter <$> p_Filters p) (p_Trigger p)
    (p_ReplicateDeletion p) (p_Override p) (p_Enabled p) (p_CreationTime p) (p_UpdateTime p)
    (p_Speed p) (p_CopyByChunk p) (p_SingleActiveReplication p).

Lemma validate_filters_all l : validate_filters l = Ok tt -> Forall (fun f => Filter_Validate f = Ok tt) l.
Proof.
  induction l as [|f l IH]; [constructor|]. cbn. destruct (Filter_Validate f) as [[]|] eqn:E; [|done].
  intros H. constructor; auto.
Qed.

(** The three shapes of a filter that is accepted. *)
Lemma valid_filter f :
  Filter_Validate f = Ok tt ->
  f_Type f <> ""
  /\ ((exists s, f_Value f = VString s /\ f_Type f <> FilterTypeLabel)
      \/ (exists ss, f_Value f = VJson (JArr (JStr <$> ss)) /\ f_Type f = FilterTypeLabel)).
Proof.
  unfold Filter_Validate. destruct f as [ty v d]; cbn [f_Type f_Value f_Decoration existsb].
  destruct (_ || _) eqn:E; [|destruct (String.eqb_spec ty FilterTypeLabel) as [->|]; [|done]].
  - intros H. assert (N : ty <> "" /\ ty <> FilterTypeLabel) by (split; intros ->; discriminate E).
    destruct N as [N1 N2]. split; [done|]. left. destruct v as [[]|]; try done. eauto.
  - intros H. split; [done|]. right. destruct v as [[]|]; try done.
    destruct (forallb is_jstr l) eqn:A; [|done].
    assert (S : exists ss, l = JStr <$> ss) by (clear - A; induction l as [|j l IH];
      [by exists []|]; cbn in A; apply andb_true_iff in A as [A1 A2]; destruct (IH A2) as [ss ->];
      destruct j; try done; by exists (s :: ss)).
    destruct S as [ss ->]. eauto.
Qed.

Lemma decode_list_ok {A B} (f : json -> result A) (g : B -> json) (h : B -> A) l :
  Forall (fun x => f (g x) = Ok (h x)) l -> decode_list f (g <$> l) = Ok (h <$> l).
Proof. induction 1 as [|x l E _ IH]; [done|]. cbn. by rewrite E, IH. Qed.

Definition item_of (f : Filter) : item := mkItem (f_Type f) (VJson (value_json (f_Value f))) (f_Decoration f) "" "".

Lemma decode_filter f : decode_item (filter_json f) = Ok (Some (item_of f)).
Proof.
  unfold filter_json, item_of. destruct (String.eqb_spec (f_Decoration f) "") as [->|]; done.
Qed.

Lemma omap_strings (ss : list string) : omap (fun j => match j with JStr s => Some s | _ => None end) (JStr <$> ss) = ss.
Proof. induction ss as [|s ss IH]; [done|]. cbn. by rewrite IH. Qed.

Lemma parse_valid_item f items :
  Filter_Validate f = Ok tt -> parse_item (item_of f) items = Ok (Some (stored_filter f), items).
Proof.
  intros V. destruct (valid_filter f V) as [N [(s & E & NL)|(ss & E & L)]]; unfold parse_item, item_of;
    cbn [i_Type i_Value i_Decoration]; rewrite (proj2 (String.eqb_neq _ _) N), E; cbn [value_json];
    unfold convert_value, stored_filter, stored_value; rewrite E.
  - rewrite (proj2 (String.eqb_neq _ _) NL). by destruct (f_Type f =s= FilterTypeResource).
  - rewrite L. cbn -[omap]. unfold json_strings.
    rewrite (decode_list_ok _ JStr (fun s => s)) by (by apply Forall_true). by rewrite list_fmap_id, omap_strings.
Qed.

Lemma parse_valid_items l pre :
  Forall (fun f => Filter_Validate f = Ok tt) l ->
  parse_items (length l) (length pre) (pre ++ ((fun f => Some (item_of f)) <$> l)) = Ok (stored_filter <$> l).
Proof.
  intros V. revert pre. induction V as [|f l Vf _ IH]; intros pre; [done|].
  cbn [length parse_items fmap list_fmap]. rewrite list_lookup_middle by done. rewrite parse_valid_item by done.
  specialize (IH (pre ++ [Some (item_of f)])). rewrite length_app, <- app_assoc in IH.
  cbn [length app] in IH. rewrite Nat.add_1_r in IH. by rewrite IH.
Qed.

Lemma parse_stored_filters l :
  Forall (fun f => Filter_Validate f = Ok tt) l -> printable (JArr (filter_json <$> l)) ->
  parseFilters (match l with [] => "" | _ => json_print (JArr (filter_json <$> l)) end) = Ok (stored_filter <$> l).
Proof.
  intros V P. destruct l as [|f l]; [done|]. unfold parseFilters.
  rewrite (proj2 (String.eqb_neq _ _) (print_nonempty _)), parse_print by done.
  cbn [decode_items]. rewrite (decode_list_ok _ filter_json (fun f => Some (item_of f))).
  - rewrite length_fmap. exact (parse_valid_items (f :: l) [] V).
  - apply Forall_true. intros x. apply decode_filter.
Qed.

Lemma parse_stored_trigger o :
  (forall t, o = Some t -> validate_trigger cron_parse t = Ok tt /\ printable (trigger_json t)) ->
  parseTrigger (match o with None => "" | Some t => json_print (trigger_json t) end) = Ok o.
Proof.
  intros H. destruct o as [t|]; [|done]. destruct (H t eq_refl) as [V P]. unfold parseTrigger.
  rewrite (proj2 (String.eqb_neq _ _) (print_nonempty _)), parse_print by done.
  assert (D : decode_trigger (trigger_json t) = Ok (mkTitem (tr_Type t) (tr_Settings t) "" None))
    by (by destruct t as [ty [cron|]]).
  rewrite D. cbn [t_Type t_Settings].
  destruct (String.eqb_spec (tr_Type t) "") as [E|]; [|by destruct t].
  unfold validate_trigger in V. rewrite E in V. discriminate V.
Qed.

Lemma stored_value_json f : Filter_Validate f = Ok tt -> filter_json (stored_filter f) = filter_json f.
Proof.
  intros V. unfold filter_json, stored_filter. cbn [f_Type f_Value f_Decoration]. do 3 f_equal.
  unfold stored_value. destruct (valid_filter f V) as [_ [(s & E & _)|(ss & E & L)]]; rewrite E; [done|].
  rewrite L. cbn -[omap]. by rewrite omap_strings.
Qed.

Lemma stored_well_typed f : Filter_Validate f = Ok tt -> well_typed (stored_filter f) = true.
Proof.
  intros V. unfold well_typed, stored_filter, stored_value. cbn [f_Type f_Value].
  destruct (valid_filter f V) as [_ [(s & E & N)|(ss & E & L)]]; rewrite E.
  - rewrite (proj2 (String.eqb_neq _ _) N). by destruct (_ || _).
  - by rewrite L.
Qed.

Lemma id_of_registry id : 0 <= id -> id_of (registry_of_id id) = id.
Proof. unfold registry_of_id. intros H. destruct (Z.ltb_spec 0 id); cbn; lia. Qed.

Lemma Validate_inv p :
  Validate name_regexp cron_parse p = Ok tt ->
  p_Name p <> "" /\ (id_of (p_SrcRegistry p) = 0 <-> id_of (p_DestRegistry p) <> 0)
  /\ Forall (fun f => Filter_Validate f = Ok tt) (p_Filters p)
  /\ (p_DestNamespace p <> "" -> name_regexp (p_DestNamespace p) = true)
  /\ (forall t, p_Trigger p = Some t -> validate_trigger cron_parse t = Ok tt).
Proof.
  unfold Validate. destruct (String.eqb_spec (p_Name p) "") as [|N]; [done|].
  destruct (Bool.eqb _ _) eqn:B; [done|]. destruct (validate_filters _) as [[]|] eqn:F; [|done].
  destruct (_ && _) eqn:R; [done|]. intros T. split; [done|]. split.
  { apply eqb_false_iff in B.
    destruct (Z.eqb_spec (id_of (p_SrcRegistry p)) 0), (Z.eqb_spec (id_of (p_DestRegistry p)) 0); tauto || done. }
  split; [by apply validate_filters_all|]. split.
  - intros Nd. rewrite (proj2 (String.eqb_neq _ _) Nd) in R. cbn in R. by apply negb_false_iff in R.
  - intros t E. by rewrite E in T.
Qed.

Lemma round_trip p :
  Validate name_regexp cron_parse p = Ok tt -> printable (JArr (filter_json <$> p_Filters p)) ->
  (forall t, p_Trigger p = Some t -> printable (trigger_json t)) -> From_ (To p) = Ok (stored p).
Proof.
  intros V PF PT. apply Validate_inv in V as (_ & _ & F & _ & T). unfold From_.
  assert (EF : parseFilters (r_Filters (To p)) = Ok (stored_filter <$> p_Filters p))
    by (rewrite <- parse_stored_filters by done; cbn; by destruct (p_Filters p)).
  assert (ET : parseTrigger (r_Trigger (To p)) = Ok (p_Trigger p))
    by (apply parse_stored_trigger; intros t E; split; auto).
  by rewrite EF, ET.
Qed.

Lemma To_stored p :
  Validate name_regexp cron_parse p = Ok tt -> 0 <= id_of (p_SrcRegistry p) -> 0 <= id_of (p_DestRegistry p) ->
  To (stored p) = To p.
Proof.
  intros V S D. apply Validate_inv in V as (_ & _ & F & _ & _). unfold To, stored.
  cbn -[filter_json stored_filter id_of registry_of_id]. rewrite !id_of_registry by done. f_equal.
  assert (E : filter_json <$> (stored_filter <$> p_Filters p) = filter_json <$> p_Filters p).
  { induction F as [|f l Vf _ IH]; [done|]. cbn -[filter_json stored_filter]. by rewrite stored_value_json, IH. }
  destruct (p_Filters p) as [|f l]; [done|]. do 2 f_equal. exact E.
Qed.

End RoundTrip.

(** ** An encoding of JSON values

    Not the text of JSON, but an injective one, which shows that [Json] has
    instances. *)
Module CodedJson.

Section Induction.

Context (P : json -> Prop)
  (Hnull : P JNull) (Hbool : forall b, P (JBool b)) (Hnum : forall n, P (JNum n))
  (Hfloat : forall s, P (JFloat s)) (Hstr : forall s, P (JStr s))
  (Harr : forall l, Forall P l -> P (JArr l)) (Hobj : forall l, Forall (fun kv => P kv.2) l -> P (JObj l)).

Fixpoint json_rec (j : json) : P j :=
  match j with
  | JNull => Hnull
  | JBool b => Hbool b
  | JNum n => Hnum n
  | JFloat s => Hfloat s
  | JStr s => Hstr s
  | JArr l => Harr l ((fix go l := match l return Forall P l with
                                   | [] => Forall_nil_2 P
                                   | x :: l' => Forall_cons_2 P x l' (json_rec x) (go l')
                                   end) l)
  | JObj l => Hobj l ((fix go l := match l return Forall (fun kv => P kv.2) l with
                                   | [] => Forall_nil_2 _
                                   | x :: l' => Forall_cons_2 _ x l' (json_rec x.2) (go l')
                                   end) l)
  end.

End Induction.

Definition tree := gen_tree (Z + string).

Fixpoint encode_json (j : json) : tree :=
  match j with
  | JNull => GenNode 0 []
  | JBool b => GenNode (if b then 1 else 2) []
  | JNum n => GenLeaf (inl n)
  | JFloat s => GenNode 3 [GenLeaf (inr s)]
  | JStr s => GenLeaf (inr s)
  | JArr l => GenNode 4 (map encode_json l)
  | JObj l => GenNode 5 (map (fun kv => GenNode 6 [GenLeaf (inr kv.1); encode_json kv.2]) l)
  end.

Fixpoint decode_json (t : tree) : json :=
  match t with
  | GenNode 1 _ => JBool true
  | GenNode 2 _ => JBool false
  | GenLeaf (inl n) => JNum n
  | GenLeaf (inr s) => JStr s
  | GenNode 3 (GenLeaf (inr s) :: _) => JFloat s
  | GenNode 4 l => JArr (map decode_json l)
  | GenNode 5 l => JObj (map (fun x => match x with
                                       | GenNode _ [GenLeaf (inr k); v] => (k, decode_json v)
                                       | _ => (EmptyString, JNull)
                                       end) l)
  | _ => JNull
  end.

Lemma decode_encode_json j : decode_json (encode_json j) = j.
Proof.
  induction j as [|[]| | | |l IH|l IH] using json_rec; try done; cbn; f_equal; rewrite map_map; cbn;
    induction IH as [|x l E _ IHl]; cbn; try done; rewrite IHl.
  - by rewrite E.
  - by rewrite E; destruct x.
Qed.

Fixpoint bits (p : positive) : string :=
  match p with
  | xH => "."
  | xO p => String "0" (bits p)
  | xI p => String "1" (bits p)
  end.

Fixpoint unbits (s : string) : positive :=
  match s with
  | String "0" s' => xO (unbits s')
  | String "1" s' => xI (unbits s')
  | _ => xH
  end.

Lemma unbits_bits p : unbits (bits p) = p.
Proof. induction p as [p IH|p IH|]; cbn; by rewrite ?IH. Qed.

Definition parse (s : string) : result json :=
  match decode (unbits s) with Some t => Ok (decode_json t) | None => Err type_error end.

#[export, refine] Instance coded_json : Json := {|
  json_print j := bits (encode (encode_json j));
  json_parse := parse;
  printable _ := True |}.
Proof.
  - intros j _. unfold parse. by rewrite unbits_bits, decode_encode, decode_encode_json.
  - intros j. by destruct (encode (encode_json j)).
Defined.

End CodedJson.

(** ** Theorems *)

(** C35: A policy that validation accepts is read back from the table as it was
    written: its filters and trigger are the same, with the label filters in the
    form that filtering takes, and reading and writing it once more changes nothing
    in the row. *)
Theorem policy_round_trip `{J : Json} name_regexp cron_parse p :
  Validate name_regexp cron_parse p = Ok tt ->
  0 <= id_of (p_SrcRegistry p) -> 0 <= id_of (p_DestRegistry p) ->
  printable (JArr (filter_json <$> p_Filters p)) ->
  (forall t, p_Trigger p = Some t -> printable (trigger_json t)) ->
  From_ (To p) = Ok (stored p)
  /\ To (stored p) = To p
  /\ forallb well_typed (p_Filters (stored p)) = true
  /\ IsScheduledTrigger (stored p) = IsScheduledTrigger p.
Proof.
  intros V S D PF PT. split; [by eapply round_trip|]. split; [by eapply To_stored|]. split; [|done].
  apply Validate_inv in V as (_ & _ & F & _). cbn. apply forallb_forall. intros f' Hf.
  apply list_elem_of_In, list_elem_of_fmap in Hf as (f & -> & Hf). apply stored_well_typed.
  by apply (proj1 (Forall_forall _ _) F).
Qed.

Definition sample_policy (cron : string) : Policy :=
  mkPolicy 7 "mirror" "" "admin" None (Some (mkRegistry 3 "harbor" "https://remote")) "mirror" (-1)
    [mkFilter FilterTypeName (VString "library/**") ""; mkFilter FilterTypeLabel (VJson (JArr [JStr "prod"])) Matches]
    (Some (mkTrigger TriggerTypeScheduled (Some cron))) true false true 0 0 0 false false.

Lemma policy_round_trip_witness :
  From_ (J := CodedJson.coded_json) (To (J := CodedJson.coded_json) (sample_policy "0 30 2 * * *"))
  = Ok (mkPolicy 7 "mirror" "" "admin" None (Some (mkRegistry 3 "" "")) "mirror" (-1)
          [mkFilter FilterTypeName (VString "library/**") ""; mkFilter FilterTypeLabel (VStrings ["prod"]) Matches]
          (Some (mkTrigger TriggerTypeScheduled (Some "0 30 2 * * *"))) true false true 0 0 0 false false).
Proof.
  apply (proj1 (policy_round_trip (J := CodedJson.coded_json) (fun _ => true) (fun _ => true) (sample_policy "0 30 2 * * *")
    ltac:(reflexivity) ltac:(cbn; lia) ltac:(cbn; lia) I ltac:(intros; exact I))).
Defined.

(** A repository filter of an old release goes into the name filter that the
    upgrade put behind it; its place matters. *)
Lemma replace_first_app s old new t :
  old <> "" -> (forall u v, s = (u ++ v)%string -> GoStrings.HasPrefix (v ++ old ++ t) old = true -> v = "") ->
  replace_first (s ++ old ++ t) old new = (s ++ new ++ t)%string.
Proof.
  intros N H. induction s as [|c s IH].
  - change (replace_first (old ++ t) old new = (new ++ t)%string).
    destruct old as [|d old]; [done|]. change (String d old ++ t)%string with (String d (old ++ t)).
    cbn [replace_first]. change (String d (old ++ t)) with (String d old ++ t)%string.
    by rewrite GoStrings.HasPrefix_app, GoStrings.drop_app.
  - change (String c s ++ old ++ t)%string with (String c (s ++ old ++ t)). cbn [replace_first].
    destruct (GoStrings.HasPrefix _ _) eqn:E.
    { change (String c (s ++ old ++ t)) with (String c s ++ old ++ t)%string in E. by specialize (H "" (String c s) eq_refl E). }
    change (String c s ++ new ++ t)%string with (String c (s ++ new ++ t)). f_equal. apply IH.
    intros u v -> E'. by apply (H (String c u) v).
Qed.

Definition legacy_filter (kind pattern : string) : json := JObj [("kind", JStr kind); ("pattern", JStr pattern)].
Definition name_filter (v : string) : json := JObj [("type", JStr "name"); ("value", JStr v)].

Theorem legacy_repository_filter `{J : Json} project repository :
  let l := [legacy_filter "repository" repository; name_filter (project ++ "/**")] in
  GoStrings.lacks "*" project = true -> repository <> "" -> printable (JArr l) ->
  parseFilters (json_print (JArr l)) = Ok [mkFilter FilterTypeName (VString (project ++ "/" ++ repository)) ""].
Proof.
  intros l L N P. unfold parseFilters.
  rewrite (proj2 (String.eqb_neq _ _) (print_nonempty _)), parse_print by done.
  assert (E : replace_first (project ++ "/**") "**" repository = (project ++ "/" ++ repository)%string).
  { replace (project ++ "/**")%string with ((project ++ "/") ++ "**" ++ "")%string by (by rewrite GoStrings.app_assoc).
    rewrite replace_first_app; [by rewrite GoStrings.app_assoc, GoStrings.app_nil|done|].
    intros u v E Hp. destruct v as [|c v]; [done|]. exfalso.
    assert (Lc : GoStrings.lacks "*" (u ++ String c v) = true).
    { rewrite <- E. rewrite lacks_all_chars, GoStrings.all_chars_app, <- lacks_all_chars, L. done. }
    change (String.prefix "**" (String c (v ++ "**" ++ "")) = true) in Hp. cbn [String.prefix] in Hp.
    destruct (ascii_dec "*" c) as [<-|]; [|done]. by rewrite GoStrings.lacks_sep in Lc. }
  assert (D : decode_items (JArr l) = Ok [Some (mkItem "" (VJson JNull) "" "repository" repository);
                Some (mkItem "name" (VString (project ++ "/**")) "" "" "")]) by reflexivity.
  rewrite D. cbn [length parse_items lookup list_lookup]. unfold parse_item at 1. cbn [i_Type i_Value i_Kind i_Pattern].
  rewrite (proj2 (String.eqb_neq repository "") N). cbn [merge_repository i_Type i_Value i_Decoration i_Kind i_Pattern].
  rewrite (proj2 (String.eqb_neq (project ++ "/**") "")) by (by destruct project). rewrite E. reflexivity.
Qed.

(** The check that the minutes are not every minute looks at the second piece of
    the cron split at single spaces: with two spaces that piece is empty. *)
Theorem every_minute_accepted name_regexp :
  name_regexp "mirror" = true ->
  Validate name_regexp (fun _ => true) (sample_policy "0 * * * * *") <> Ok tt
  /\ Validate name_regexp (fun _ => true) (sample_policy "0  * * * * *") = Ok tt.
Proof. intros H. unfold Validate, sample_policy. cbn. by rewrite H. Qed.
