(* ===== verification/Replication.v ===== *)
(** * Replication: flows, executions, policies and events

    [src/controller/replication] over the managers of [TaskManager] and the
    schedules of [Scheduler]: the copy and deletion flows ([flow]), starting and
    stopping executions ([execution.go]), the policies with their schedules
    ([policy.go]), the table of policies ([src/pkg/replication]), and the handler
    of artifact events ([src/controller/event/handler/replication]).

    A start leaves its background process in [spawned]; [background] is what the
    process does when it gets a worker, with whatever else happened in between.
    Adapters of registries are parameters.  Resources are values: that the flows
    of several policies started by one event fill the same resource is not
    modelled. *)

From S2P Require Import Prelude Errors JobStatus TaskDao TaskManager Scheduler.
From S2P Require Import RegClient OciRegistry Transfer RegFilter RepPolicy.

Definition ReplicationVendorType : string := "REPLICATION".
Definition callbackFuncName : string := "REPLICATION_CALLBACK".
Definition JobserviceUser : string := "harbor-jobservice".
Definition attrs : Type := list (string * string).

(** What the flows ask of an adapter.  [FetchArtifacts] is there when the adapter
    is an [ArtifactRegistry]; [PrepareForPush] gives the resources as it leaves
    them. *)
Record Adapter := mkAdapter {
  ad_FetchArtifacts : option (list Filter -> result (list Resource));
  ad_Info : result string;
  ad_PrepareForPush : list Resource -> result (list Resource) }.

(** The store: schedules, executions and tasks, the policies with their sequence,
    the registries, and the processes that were started. *)
Record rst := mkRst {
  sched : sst;
  policies : gmap Z row;
  next_policy : Z;
  registries : gmap Z Registry;
  spawned : list (Z * Policy * option Resource) }.

Definition on_sched {A} (m : M sst A) : M rst A := fun s =>
  let p := m (sched s) in (p.1, mkRst p.2 (policies s) (next_policy s) (registries s) (spawned s)).

Definition on_tasks {A} (m : M mgr A) : M rst A := on_sched (on_mgr m).

(** A statement on the tables of policies and registries, of the same database. *)
Definition rdb {A} (f : rst -> result A * rst) : M rst A := fun s =>
  match on_tasks (lift (dbio get)) s with
  | (Err e, s') => (Err e, s')
  | (Ok _, s') => f s'
  end.

(** ** The table of policies ([src/pkg/replication]) *)

Definition with_policies (s : rst) t := mkRst (sched s) t (next_policy s) (registries s) (spawned s).

Definition newer (a b : row) : Prop := r_CreationTime b <= r_CreationTime a.

#[global] Instance newer_dec : RelDecision newer.
Proof. intros a b. unfold newer. apply _. Defined.

Definition policy_rows (t : gmap Z row) : list row := merge_sort newer (map_to_list t).*2.

Definition pd_List : M rst (list row) := rdb (fun s => (Ok (policy_rows (policies s)), s)).

Definition pd_Count : M rst Z := rdb (fun s => (Ok (Z.of_nat (size (policies s))), s)).

Definition pd_Get (id : Z) : M rst row :=
  rdb (fun s => (match policies s !! id with
                 | Some r => Ok r
                 | None => Err (WrapNotFoundError ErrNoRows (id_message "replication policy" id))
                 end, s)).

(** Names are unique. *)
Definition name_taken (t : gmap Z row) (id : Z) (name : string) : bool :=
  existsb (fun x => negb (x.1 =? id) && (r_Name x.2 =s= name)) (map_to_list t).

Definition stamp (id created updated : Z) (r : row) : row :=
  mkRow id (r_Name r) (r_Description r) (r_Creator r) (r_SrcRegistryID r) (r_DestRegistryID r) (r_DestNamespace r)
    (r_DestNamespaceReplaceCount r) (r_Override r) (r_Enabled r) (r_Trigger r) (r_Filters r) (r_ReplicateDeletion r)
    created updated (r_Speed r) (r_CopyByChunk r) (r_SingleActiveReplication r).

Definition duplicate : error := WrapConflictError (PgError "23505") "replication policy already exists".

Definition pd_Create (r : row) (now : Z) : M rst Z :=
  rdb (fun s =>
    let id := next_policy s in
    let s' := mkRst (sched s) (policies s) (id + 1) (registries s) (spawned s) in
    if name_taken (policies s) id (r_Name r) then (Err duplicate, s')
    else (Ok id, with_policies s' (<[id := stamp id now now r]> (policies s)))).

(** [Update] of all columns. *)
Definition pd_Update (r : row) (now : Z) : M rst unit :=
  rdb (fun s =>
    match policies s !! r_ID r with
    | None => (Err (WithMessage (NotFoundError None) (id_message "replication policy" (r_ID r))), s)
    | Some _ =>
        if name_taken (policies s) (r_ID r) (r_Name r) then (Err duplicate, s)
        else (Ok tt, with_policies s (<[r_ID r := stamp (r_ID r) (r_CreationTime r) now r]> (policies s)))
    end).

Definition pd_Delete (id : Z) : M rst unit :=
  rdb (fun s =>
    match policies s !! id with
    | None => (Err (WithMessage (NotFoundError None) (id_message "replication policy" id)), s)
    | Some _ => (Ok tt, with_policies s (delete id (policies s)))
    end).

Section Replication.

(** The job service, the codecs, the cron parser and the callbacks, as in
    [TaskManager] and [Scheduler]; the adapters; the JSON of a resource; the local
    registry; a string attribute of a stored JSON object. *)
Context (SubmitJob : JobData -> result string) (PostAction : string -> string -> result unit).
Context (Marshal : attrs -> result string) (coreURL : string).
Context (cron_ok : string -> bool) (json_params : string -> attrs) (callbacks : registry).
Context `{J : Json} (name_regexp : string -> bool).
Context (doublestar_Match : string -> string -> result bool).
Context (GetFactory : string -> result (Registry -> result Adapter)).
Context (marshal_resource : Resource -> result string).
Context (localRegistry : Registry).
Context (attr_string : string -> string -> option string).
(** Whether the project of an artifact is public, from the project controller. *)
Context (project_IsPublic : Z -> result bool).

Abbreviation task_Create_ := (TaskManager.Create SubmitJob Marshal []).

(** ** Flows ([flow]) *)

Definition adapter_of (r : Registry) : result Adapter :=
  match GetFactory (reg_Type r) with
  | Err e => Err (Plain ("failed to get adapter factory for registry type " ++ reg_Type r ++ ": " ++ Error_string e))
  | Ok create =>
      match create r with
      | Err e => Err (Plain ("failed to create adapter for registry " ++ reg_URL r ++ ": " ++ Error_string e))
      | Ok a => Ok a
      end
  end.

(** The registries of a policy are there once [populateRegistry] has run. *)
Definition registry_or_panic (o : option Registry) : result Registry :=
  match o with Some r => Ok r | None => Err nil_pointer end.

Definition initialize_flow (policy : Policy) : result (Registry * Adapter * (Registry * Adapter)) :=
  match registry_or_panic (p_SrcRegistry policy) with
  | Err e => Err e
  | Ok src =>
      match adapter_of src with
      | Err e => Err e
      | Ok srcAdapter =>
          match registry_or_panic (p_DestRegistry policy) with
          | Err e => Err e
          | Ok dst =>
              match adapter_of dst with
              | Err e => Err e
              | Ok dstAdapter => Ok (src, srcAdapter, (dst, dstAdapter))
              end
          end
      end
  end.

Definition fetchResources (adapter : Adapter) (policy : Policy) : result (list Resource) :=
  match ad_FetchArtifacts adapter with
  | None => Err NotArtifactRegistry
  | Some fetch =>
      match fetch (p_Filters policy) with
      | Err e => Err (Plain ("failed to fetch artifacts: " ++ Error_string e))
      | Ok res => Ok res
      end
  end.

Definition with_registry (g : Registry) (r : Resource) : Resource :=
  mkResource (res_Type r) (res_Repository r) (res_RepositoryMetadata r) (res_Artifacts r) (res_Vtags r) g (res_ExtendedInfo r)
    (res_Deleted r) (res_IsDeleteTag r) (res_Override r) (res_Skip r).

Definition assembleSourceResources (src : Registry) (resources : list Resource) : list Resource :=
  with_registry src <$> resources.

Definition is_satellite (g : Registry) : bool := reg_Type g =s= "harbor-satellite".

(** What the assembly leaves in the source resource: for a satellite the shared
    map of extended information is filled. *)
Definition extend (policy : Policy) (dst : Registry) (r : Resource) : Resource :=
  if is_satellite dst then
    mkResource (res_Type r) (res_Repository r) (res_RepositoryMetadata r) (res_Artifacts r) (res_Vtags r) (res_Registry r)
      (Some (<["groupName" := p_DestNamespace policy]> (<["destinationURL" := reg_URL dst]>
               (default ∅ (res_ExtendedInfo r)))))
      (res_Deleted r) (res_IsDeleteTag r) (res_Override r) (res_Skip r)
  else r.

Definition assemble_one (policy : Policy) (src dst : Registry) (ty : string) (r : Resource) : result Resource :=
  let target :=
    if is_satellite dst then Ok (src, res_Repository r)
    else match replaceNamespace (res_Repository r) (p_DestNamespace policy) (p_DestNamespaceReplaceCount policy) ty with
         | Err e => Err e
         | Ok name => Ok (dst, name)
         end in
  match target with
  | Err e => Err e
  | Ok (registry, name) =>
      Ok (mkResource (res_Type r) name (res_RepositoryMetadata r) (res_Artifacts r) (res_Vtags r) registry
            (res_ExtendedInfo (extend policy dst r)) (res_Deleted r) (res_IsDeleteTag r) (p_Override policy) (res_Skip r))
  end.

Definition assembleDestinationResources (policy : Policy) (src dst : Registry) (ty : string) (resources : list Resource)
  : result (list Resource) :=
  collect (fun r => match assemble_one policy src dst ty r with Ok d => Ok (Some d) | Err e => Err e end) resources.

Definition prepareForPush (adapter : Adapter) (resources : list Resource) : result (list Resource) :=
  match ad_PrepareForPush adapter resources with
  | Err e => Err (Plain ("failed to do the prepare work for pushing/uploading resources: " ++ Error_string e))
  | Ok l => Ok l
  end.

Definition format_bool (b : bool) : string := if b then "true" else "false".

Definition task_attrs (operation : string) (src dst : Resource) : attrs :=
  [("operation", operation); ("resource_type", res_Type src); ("source_resource", getResourceName src);
   ("destination_resource", getResourceName dst); ("references", getResourceReferences dst)].

Definition replication_job (parameters : list (string * string)) : Job :=
  mkJob ReplicationVendorType (Some parameters) (Some (mkJobMetadata "Generic" 0 "" false)).

(** One iteration of [createTasks]: whether a task was created. *)
Definition create_copy_task (executionID : Z) (policy : Policy) (now : Z) (src dst : Resource) : M mgr bool :=
  if res_Skip dst then ret false
  else
    s <- of_result (marshal_resource src) ;;
    d <- of_result (marshal_resource dst) ;;
    task_Create_ coreURL executionID
      (replication_job [("src_resource", s); ("dst_resource", d); ("speed", Strconv.format_int (p_Speed policy));
                        ("copy_by_chunk", format_bool (p_CopyByChunk policy))])
      (Some (task_attrs "copy" src dst)) now ;;;
    ret true.

(** The loop of [copyFlow.createTasks]: the number of tasks and the error. *)
Fixpoint create_copy_tasks (executionID : Z) (policy : Policy) (now : Z) (l : list (Resource * Resource)) (taskCnt : nat)
  : M mgr (nat * result unit) :=
  match l with
  | [] => ret (taskCnt, Ok tt)
  | (src, dst) :: l' =>
      r <- try (create_copy_task executionID policy now src dst) ;;
      match r with
      | Err e => ret (taskCnt, Err e)
      | Ok created => create_copy_tasks executionID policy now l' (if created then S taskCnt else taskCnt)
      end
  end.

Definition nothing_to_do : string := "no resources need to be replicated".

Definition copy_createTasks (executionID : Z) (policy : Policy) (now : Z) (srcs dsts : list Resource) : M mgr unit :=
  p <- create_copy_tasks executionID policy now (combine srcs dsts) 0 ;;
  (if (p.1 =? 0)%nat then try (MarkDone executionID nothing_to_do now) ;;; ret tt else ret tt) ;;;
  of_result p.2.

Definition isExecutionStopped (executionID : Z) : M mgr bool :=
  execution <- lift (exec_Get executionID) ;;
  ret (e_Status execution =s= Status.StoppedStatus).

Definition copyFlow_Run (executionID : Z) (policy : Policy) (resources : list Resource) (now : Z) : M mgr unit :=
  i <- of_result (initialize_flow policy) ;;
  let '(src, srcAdapter, (dst, dstAdapter)) := i in
  srcResources <- of_result (match resources with [] => fetchResources srcAdapter policy | _ => Ok resources end) ;;
  stopped <- isExecutionStopped executionID ;;
  if stopped : bool then ret tt
  else
    match srcResources with
    | [] => try (MarkDone executionID nothing_to_do now) ;;; ret tt
    | _ =>
        let srcs := assembleSourceResources src srcResources in
        ty <- of_result (ad_Info dstAdapter) ;;
        dsts <- of_result (assembleDestinationResources policy src dst ty srcs) ;;
        dsts' <- of_result (prepareForPush dstAdapter dsts) ;;
        copy_createTasks executionID policy now (extend policy dst <$> srcs) dsts'
    end.

Definition create_deletion_task (executionID now : Z) (p : Resource * Resource) : M mgr unit :=
  let '(src, dst) := p in
  s <- of_result (marshal_resource src) ;;
  d <- of_result (marshal_resource dst) ;;
  task_Create_ coreURL executionID (replication_job [("src_resource", s); ("dst_resource", d)])
    (Some (task_attrs (if res_IsDeleteTag dst then "tag deletion" else "deletion") src dst)) now ;;;
  ret tt.

Definition deletionFlow_Run (executionID : Z) (policy : Policy) (resources : list Resource) (now : Z) : M mgr unit :=
  i <- of_result (initialize_flow policy) ;;
  let '(src, _, (dst, dstAdapter)) := i in
  let srcs := assembleSourceResources src resources in
  ty <- of_result (ad_Info dstAdapter) ;;
  dsts <- of_result (assembleDestinationResources policy src dst ty srcs) ;;
  iterM (create_deletion_task executionID now) (combine (extend policy dst <$> srcs) dsts).

(** [flow.controller.Start] *)
Definition flow_Start (executionID : Z) (policy : Policy) (resource : option Resource) (now : Z) : M mgr unit :=
  match resource with
  | Some r => if res_Deleted r then deletionFlow_Run executionID policy [r] now
              else copyFlow_Run executionID policy [r] now
  | None => copyFlow_Run executionID policy [] now
  end.

(** ** Executions ([execution.go]) *)

Definition markError (executionID now : Z) (world : list (mgr -> mgr)) (err : error) : M mgr unit :=
  try (StopAndWaitWithError PostAction executionID now world (Some err)) ;;; ret tt.

(** The process that a start leaves in the background: [attempts] is how often it
    looks for the execution before the time-out; a panic is recovered. *)
Definition background (attempts : nat) (executionID : Z) (policy : Policy) (resource : option Resource) (now : Z)
    (world : list (mgr -> mgr)) : M mgr unit :=
  r <- try (Retry attempts None (lift (exec_Get executionID) ;;; ret tt)) ;;
  match r with
  | Err e =>
      markError executionID now world (Plain ("failed to wait the execution record to be inserted: " ++ Error_string e))
  | Ok _ =>
      r <- try (flow_Start executionID policy resource now) ;;
      match r with
      | Ok _ => ret tt
      | Err (Panic _) => markError executionID now world (Plain "panic during the process")
      | Err e => markError executionID now world e
      end
  end.

Definition is_running (policyID : Z) (x : Execution) : bool :=
  (e_VendorType x =s= ReplicationVendorType) && (e_VendorID x =? policyID) && (e_Status x =s= Status.RunningStatus).

(** The count of running executions, asked for a policy with the flag only. *)
Definition count_running (policy : Policy) : M rst Z :=
  if p_SingleActiveReplication policy then
    r <- try (on_tasks (lift (dbio (fun d =>
                (Ok (Z.of_nat (length (List.filter (fun x => is_running (p_ID policy) x.2) (map_to_list (execs d))))), d))))) ;;
    match r with
    | Err e => fail (Plain ("failed to count running executions for policy ID: " ++ Strconv.format_int (p_ID policy)
                            ++ ": " ++ Error_string e))
    | Ok n => ret n
    end
  else ret 0.

Definition skipped : string := "Execution skipped: active replication still in progress.".

Definition spawn (id : Z) (policy : Policy) (resource : option Resource) : M rst unit :=
  modify (fun s => mkRst (sched s) (policies s) (next_policy s) (registries s) (spawned s ++ [(id, policy, resource)])).

(** The rest of [Start], with the count. *)
Definition start_with (count : Z) (policy : Policy) (resource : option Resource) (trigger operator : string) (now : Z)
  : M rst Z :=
  let extra := if operator =s= "" then [] else [("operator", operator)] in
  id <- on_tasks (CreateExecution Marshal [] ReplicationVendorType (p_ID policy) trigger (Some extra) now) ;;
  if p_SingleActiveReplication policy && (0 <? count)
  then on_tasks (MarkError id skipped now) ;;; ret id
  else spawn id policy resource ;;; ret id.

Definition Start (policy : Policy) (resource : option Resource) (trigger operator : string) (now : Z) : M rst Z :=
  if negb (p_Enabled policy)
  then fail (WithMessage (WithCode (New "") PreconditionCode)
               ("the policy " ++ Strconv.format_int (p_ID policy) ++ " is disabled"))
  else
    count <- count_running policy ;;
    start_with count policy resource trigger operator now.

Record RepExecution := mkRepExecution {
  x_ID : Z;
  x_PolicyID : Z;
  x_Status : string;
  x_StatusMessage : string;
  x_Trigger : string;
  x_StartTime : Z;
  x_EndTime : option Z;
  x_Operator : string }.

Definition convertExecution (id : Z) (x : Execution) : RepExecution :=
  mkRepExecution id (e_VendorID x) (e_Status x) (e_StatusMessage x) (e_Trigger x) (e_StartTime x) (e_EndTime x)
    (default "" (attr_string (e_ExtraAttrs x) "operator")).

Definition GetExecution (id : Z) : M rst RepExecution :=
  o <- on_tasks (lift (dbio (fun d => (Ok (match execs d !! id with
                                           | Some x => if e_VendorType x =s= ReplicationVendorType then Some x else None
                                           | None => None
                                           end), d)))) ;;
  match o with
  | Some x => ret (convertExecution id x)
  | None => fail (WithMessage (WithCode (New "") NotFoundCode)
                    ("replication execution " ++ Strconv.format_int id ++ " not found"))
  end.

Definition Stop_ (id now : Z) : M rst unit :=
  GetExecution id ;;; on_tasks (TaskManager.Stop PostAction id now).

Record RepTask := mkRepTask {
  k_ID : Z;
  k_ExecutionID : Z;
  k_Status : string;
  k_StatusMessage : string;
  k_RunCount : Z;
  k_ResourceType : string;
  k_SourceResource : string;
  k_DestinationResource : string;
  k_References : string;
  k_Operation : string;
  k_JobID : string;
  k_CreationTime : Z;
  k_StartTime : Z;
  k_UpdateTime : Z;
  k_EndTime : Z }.

Definition convertTask (t : Task) : RepTask :=
  let a name := default "" (attr_string (t_ExtraAttrs t) name) in
  mkRepTask (t_ID t) (t_ExecutionID t) (t_Status t) (t_StatusMessage t) (t_RunCount t) (a "resource_type")
    (a "source_resource") (a "destination_resource") (a "references") (a "operation") (t_JobID t)
    (t_CreationTime t) (t_StartTime t) (t_UpdateTime t) (t_EndTime t).

Definition GetTask (id : Z) : M rst RepTask :=
  o <- on_tasks (lift (dbio (fun d => (Ok (match tasks d !! id with
                                           | Some t => if t_VendorType t =s= ReplicationVendorType then Some t else None
                                           | None => None
                                           end), d)))) ;;
  match o with
  | Some t => ret (convertTask t)
  | None => fail (WithMessage (WithCode (New "") NotFoundCode)
                    ("replication task " ++ Strconv.format_int id ++ " not found"))
  end.

(** The keywords of a query on executions. *)
Definition rename_key {V} (from to : string) (m : gmap string V) : gmap string V :=
  match m !! from with
  | Some v => delete from (<[to := v]> m)
  | None => m
  end.

Definition buildExecutionQuery {V} (vendor : V) (keywords : gmap string V) : gmap string V :=
  rename_key "policy_id" "VendorID" (rename_key "PolicyID" "VendorID" (<["VendorType" := vendor]> keywords)).

(** ** Policies ([policy.go]) *)

(** [reg.Mgr.Get] *)
Definition registry_Get (id : Z) : M rst Registry :=
  if id =? 0 then ret localRegistry
  else rdb (fun s => (match registries s !! id with
                      | Some r => Ok r
                      | None => Err (WrapNotFoundError ErrNoRows (id_message "registry" id))
                      end, s)).

Definition with_registries (p : Policy) (src dst : Registry) : Policy :=
  mkPolicy (p_ID p) (p_Name p) (p_Description p) (p_Creator p) (Some src) (Some dst) (p_DestNamespace p)
    (p_DestNamespaceReplaceCount p) (p_Filters p) (p_Trigger p) (p_ReplicateDeletion p) (p_Override p) (p_Enabled p)
    (p_CreationTime p) (p_UpdateTime p) (p_Speed p) (p_CopyByChunk p) (p_SingleActiveReplication p).

Definition populateRegistry (r : row) : M rst Policy :=
  policy <- of_result (From_ r) ;;
  ids <- of_result (match p_SrcRegistry policy with
                    | Some g => if reg_ID g =? 0
                                then match p_DestRegistry policy with Some d => Ok (0, reg_ID d) | None => Err nil_pointer end
                                else Ok (reg_ID g, 0)
                    | None => match p_DestRegistry policy with Some d => Ok (0, reg_ID d) | None => Err nil_pointer end
                    end) ;;
  srcRegistry <- registry_Get ids.1 ;;
  destRegistry <- registry_Get ids.2 ;;
  ret (with_registries policy srcRegistry destRegistry).

Definition GetPolicy (id : Z) : M rst Policy := r <- pd_Get id ;; populateRegistry r.

Fixpoint populate_all (l : list row) : M rst (list Policy) :=
  match l with
  | [] => ret []
  | r :: l' => p <- populateRegistry r ;; ps <- populate_all l' ;; ret (p :: ps)
  end.

Definition ListPolicies : M rst (list Policy) := l <- pd_List ;; populate_all l.

Definition validatePolicy (policy : Policy) : M rst unit :=
  of_result (Validate name_regexp cron_ok policy) ;;;
  (match p_SrcRegistry policy with Some g => registry_Get (reg_ID g) ;;; ret tt | None => ret tt end) ;;;
  (match p_DestRegistry policy with Some g => registry_Get (reg_ID g) ;;; ret tt | None => ret tt end).

(** The parameters of the callback, as JSON. *)
Definition callback_params (id : Z) : json := JObj [("operator", JStr JobserviceUser); ("policy_id", JNum id)].

Definition schedule_policy (id : Z) (policy : Policy) (rand now : Z) : M rst unit :=
  if IsScheduledTrigger policy then
    match p_Trigger policy with
    | Some (mkTrigger _ (Some cron)) =>
        on_sched (Schedule SubmitJob PostAction Marshal [] coreURL cron_ok json_params callbacks
          ReplicationVendorType id "" cron callbackFuncName (Ok (json_print (callback_params id)))
          (Ok (json_print (JObj []))) rand now) ;;; ret tt
    | _ => fail nil_pointer
    end
  else ret tt.

Definition CreatePolicy (policy : Policy) (rand now : Z) : M rst Z :=
  validatePolicy policy ;;;
  id <- pd_Create (To policy) now ;;
  schedule_policy id policy rand now ;;;
  ret id.

Definition UpdatePolicy (policy : Policy) (rand now : Z) (world : list (mgr -> mgr)) : M rst unit :=
  validatePolicy policy ;;;
  on_sched (UnScheduleByVendor PostAction ReplicationVendorType (p_ID policy) now world) ;;;
  pd_Update (To policy) now ;;;
  schedule_policy (p_ID policy) policy rand now.

Definition DeletePolicy (id now : Z) (world : list (mgr -> mgr)) : M rst unit :=
  on_tasks (DeleteByVendor ReplicationVendorType id) ;;;
  on_sched (UnScheduleByVendor PostAction ReplicationVendorType id now world) ;;;
  pd_Delete id.

(** The callback of the schedules: the parameters are decoded into a map. *)
Definition field (name : string) (l : list (string * json)) : option json :=
  foldl (fun o kv => if kv.1 =s= name then Some kv.2 else o) None l.

Definition callback (param : string) (now : Z) : M rst unit :=
  v <- of_result (json_parse param) ;;
  l <- of_result (match v with JObj l => Ok l | JNull => Ok [] | _ => Err type_error end) ;;
  let policyID := match field "policy_id" l with Some (JNum n) => n | _ => 0 end in
  let operator := match field "operator" l with Some (JStr s) => s | _ => "" end in
  policy <- GetPolicy policyID ;;
  Start policy None "SCHEDULE" operator now ;;;
  ret tt.

(** ** The API ([src/server/v2.0/handler/replication.go])

    [access] is the answer of the permission check; the trigger of a request is
    its type with the cron. *)

Record ApiPolicy := mkApiPolicy {
  ap_Name : string;
  ap_Description : string;
  ap_DestNamespace : string;
  ap_DestNamespaceReplaceCount : option Z;
  ap_SrcRegistry : option Z;
  ap_DestRegistry : option Z;
  ap_Filters : list Filter;
  ap_Trigger : option Trigger;
  ap_Deletion : bool;
  ap_Override : bool;
  ap_Enabled : bool;
  ap_Speed : option Z;
  ap_CopyByChunk : option bool;
  ap_SingleActiveReplication : option bool }.

Definition api_policy (id : Z) (creator : string) (a : ApiPolicy) : result Policy :=
  let single := default false (ap_SingleActiveReplication a) in
  if single && match ap_Trigger a with Some t => tr_Type t =s= TriggerTypeEventBased | None => false end
  then Err (Plain "single active replication is not allowed for event_based triggers")
  else
    Ok (mkPolicy id (ap_Name a) (ap_Description a) creator
          ((fun i => mkRegistry i "" "") <$> ap_SrcRegistry a) ((fun i => mkRegistry i "" "") <$> ap_DestRegistry a)
          (ap_DestNamespace a) (default (-1) (ap_DestNamespaceReplaceCount a)) (ap_Filters a) (ap_Trigger a)
          (ap_Deletion a) (ap_Override a) (ap_Enabled a) 0 0
          (match ap_Speed a with Some v => if v <? 0 then 0 else v | None => 0 end)
          (default false (ap_CopyByChunk a)) single).

Definition CreateReplicationPolicy (access : result unit) (username : string) (a : ApiPolicy) (rand now : Z) : M rst Z :=
  of_result access ;;;
  policy <- of_result (api_policy 0 username a) ;;
  CreatePolicy policy rand now.

Definition UpdateReplicationPolicy (access : result unit) (id : Z) (a : ApiPolicy) (rand now : Z)
    (world : list (mgr -> mgr)) : M rst unit :=
  of_result access ;;;
  policy <- of_result (api_policy id "" a) ;;
  UpdatePolicy policy rand now world.

Definition DeleteReplicationPolicy (access : result unit) (id now : Z) (world : list (mgr -> mgr)) : M rst unit :=
  of_result access ;;; DeletePolicy id now world.

(** The query "trigger" of the request is passed. *)
Definition StartReplication (access : result unit) (policyID : Z) (trigger operator : string) (now : Z) : M rst Z :=
  of_result access ;;;
  policy <- GetPolicy policyID ;;
  Start policy None (if trigger =s= "scheduled" then "SCHEDULE" else "MANUAL") operator now.

Definition StopReplication (access : result unit) (id now : Z) : M rst unit :=
  of_result access ;;; Stop_ id now.

(** ** Events ([src/controller/event/handler/replication]) *)

Definition EventTypeArtifactPush : string := "artifact_push".
Definition EventTypeArtifactDelete : string := "artifact_delete".
Definition EventTypeTagDelete : string := "tag_delete".

Record Event := mkEvent { ev_Type : string; ev_Resource : Resource; ev_Operator : string }.

Definition related (resource : Resource) (policy : Policy) : result (option Policy) :=
  if negb (p_Enabled policy)
     || match p_Trigger policy with None => true | Some t => negb (tr_Type t =s= TriggerTypeEventBased) end
  then Ok None
  else if match p_SrcRegistry policy with None => false | Some g => negb (reg_ID g =? 0) end then Ok None
  else if res_Deleted resource && negb (p_ReplicateDeletion policy) then Ok None
  else
    match DoFilterResources doublestar_Match [resource] (p_Filters policy) with
    | Err e => Err e
    | Ok [] => Ok None
    | Ok _ => Ok (Some policy)
    end.

Definition getRelatedPolicies (resource : Resource) : M rst (list Policy) :=
  l <- ListPolicies ;;
  of_result (collect (related resource) l).

Definition Handle (event : Event) (now : Z) : M rst unit :=
  match res_Artifacts (ev_Resource event) with
  | [] => fail (Plain "invalid event")
  | _ =>
      if existsb (String.eqb (ev_Type event)) [EventTypeArtifactPush; EventTypeTagDelete; EventTypeArtifactDelete] then
        l <- getRelatedPolicies (ev_Resource event) ;;
        iterM (fun policy => Start policy (Some (ev_Resource event)) "EVENT" (ev_Operator event) now ;;; ret tt) l
      else fail (Plain ("unsupported event type " ++ ev_Type event))
  end.

(** The resources of the artifact events; a pushed one says whether its project
    is public. *)
Definition event_resource (repository : string) (public : option bool) (ty digest : string) (tags labels : list string)
    (deleted deleteTag : bool) : Resource :=
  mkResource "artifact" repository ((fun b => {["public" := format_bool b]}) <$> public)
    [mkArtifact ty digest labels tags false []] [] (mkRegistry 0 "" "") None deleted deleteTag false false.

Definition handlePushArtifact (projectID : Z) (repository ty digest : string) (tags labels : list string)
    (operator : string) (now : Z) : M rst unit :=
  public <- of_result (project_IsPublic projectID) ;;
  Handle (mkEvent EventTypeArtifactPush (event_resource repository (Some public) ty digest tags labels false false) operator) now.

Definition handleDeleteArtifact (repository ty digest : string) (tags labels : list string) (operator : string) (now : Z) : M rst unit :=
  Handle (mkEvent EventTypeArtifactDelete (event_resource repository None ty digest tags labels true false) operator) now.

Definition handleCreateTag (projectID : Z) (repository ty digest tag : string) (labels : list string)
    (operator : string) (now : Z) : M rst unit :=
  public <- of_result (project_IsPublic projectID) ;;
  Handle (mkEvent EventTypeArtifactPush (event_resource repository (Some public) ty digest [tag] labels false false) operator) now.

Definition handleDeleteTag (repository ty digest tag : string) (labels : list string) (operator : string) (now : Z) : M rst unit :=
  Handle (mkEvent EventTypeTagDelete (event_resource repository None ty digest [tag] labels true true) operator) now.

End Replication.
