(* ===== verification/ReplicationSpec.v ===== *)
(** * Replication: what holds of flows, executions and policies

    The schedules stay in step with the policies; a copy flow creates one task for
    each resource that is not skipped; a start that fails is recorded; and what the
    code does otherwise than it means to. *)

From S2P Require Import Prelude Errors JobStatus TaskDao TaskManager Scheduler SchedulerSpec.
From S2P Require Import RegClient OciRegistry Transfer RegFilter RepPolicy Replication.

(** ** Policies and schedules *)

Abbreviation of_policy := (of_vendor ReplicationVendorType).

Section Sync.

Context (SubmitJob : JobData -> result string) (PostAction : string -> string -> result unit).
Context (Marshal : attrs -> result string) (coreURL : string).
Context (cron_ok : string -> bool) (json_params : string -> attrs) (callbacks : registry).
Context `{J : Json} (name_regexp : string -> bool) (localRegistry : Registry).

Abbreviation schedules_of s := (schedules (sched s)).

(** The tables this section is about are the same. *)
Record same_tables (s s' : rst) : Prop := mkSame {
  same_schedules : schedules_of s' = schedules_of s;
  same_next : next_schedule (sched s') = next_schedule (sched s);
  same_policies : policies s' = policies s;
  same_next_policy : next_policy s' = next_policy s }.

Definition keeps_tables {A} (m : M rst A) : Prop := forall s, same_tables s (m s).2.

#[local] Instance same_tables_preorder : PreOrder same_tables.
Proof. split; [by intros s|]. intros s1 s2 s3 [] []. split; congruence. Qed.

Lemma keeps_ret {A} (a : A) : keeps_tables (ret a).
Proof. done. Qed.

Lemma keeps_of_result {A} (r : result A) : keeps_tables (of_result r).
Proof. done. Qed.

Lemma keeps_bind {A B} (m : M rst A) (k : A -> M rst B) :
  keeps_tables m -> (forall a, keeps_tables (k a)) -> keeps_tables (bind m k).
Proof.
  intros Hm Hk s. unfold bind. pose proof (Hm s) as H. destruct (m s) as [[a|e] s1]; [|exact H].
  etrans; [exact H|]. apply Hk.
Qed.

Lemma keeps_on_tasks {A} (m : M mgr A) : keeps_tables (on_tasks m).
Proof. done. Qed.

Lemma keeps_rdb {A} (f : rst -> result A * rst) : (forall s, same_tables s (f s).2) -> keeps_tables (rdb f).
Proof.
  intros H s. unfold rdb. pose proof (keeps_on_tasks (lift (dbio get)) s) as K.
  destruct (on_tasks _ s) as [[d|e] s1]; [|exact K]. etrans; [exact K|apply H].
Qed.

Lemma keeps_registry_Get id : keeps_tables (registry_Get localRegistry id).
Proof. unfold registry_Get. destruct (id =? 0); [done|]. by apply keeps_rdb. Qed.

Lemma keeps_validatePolicy p : keeps_tables (validatePolicy cron_ok name_regexp localRegistry p).
Proof.
  unfold validatePolicy. apply keeps_bind; [apply keeps_of_result|]. intros _. apply keeps_bind.
  - destruct (p_SrcRegistry p); [|done]. apply keeps_bind; [apply keeps_registry_Get|done].
  - intros _. destruct (p_DestRegistry p); [|done]. apply keeps_bind; [apply keeps_registry_Get|done].
Qed.

Lemma validatePolicy_ok p s s' :
  validatePolicy cron_ok name_regexp localRegistry p s = (Ok tt, s') -> Validate name_regexp cron_ok p = Ok tt.
Proof.
  unfold validatePolicy, bind, of_result. by destruct (Validate name_regexp cron_ok p) as [[]|].
Qed.

(** *** The invariant *)

(** The times of a policy: those of its trigger, when it is on. *)
Definition cron_of (p : Policy) : option string :=
  if IsScheduledTrigger p then match p_Trigger p with Some t => tr_Settings t | None => None end else None.

Definition plan_of (r : row) : option string := match From_ r with Ok p => cron_of p | Err _ => None end.

(** The schedule of a policy runs at the policy's times and calls it back. *)
Definition runs_policy (id : Z) (p : Policy) (x : schedule) : Prop :=
  of_policy id x = true /\ sd_CallbackFuncName x = callbackFuncName
  /\ sd_CallbackFuncParam x = json_print (callback_params id)
  /\ exists ty cron rand, p_Trigger p = Some (mkTrigger ty (Some cron)) /\ sd_CRON x = randomize rand cron.

Abbreviation in_step := (in_step ReplicationVendorType callbackFuncName (fun id => json_print (callback_params id))).

Record sync (s : rst) : Prop := mkSync {
  sy_ids : forall id r, policies s !! id = Some r -> 0 < id < next_policy s;
  sy_next : 0 < next_policy s;
  sy_read : forall id r, policies s !! id = Some r -> exists p, From_ r = Ok p
    /\ (IsScheduledTrigger p = true -> is_Some (cron_of p));
  sy_step : in_step (plan_of <$> policies s) (sched s) }.

Lemma sync_same s s' : same_tables s s' -> sync s -> sync s'.
Proof.
  intros [A B C D] [H1 H2 H3 H4]. split; rewrite ?C, ?D; try assumption. eapply in_step_ext; [exact A|lia|exact H4].
Qed.

Lemma runs_policy_of id p cron x : cron_of p = Some cron ->
  carries_out ReplicationVendorType callbackFuncName (fun id => json_print (callback_params id)) id cron x -> runs_policy id p x.
Proof.
  unfold cron_of. destruct (IsScheduledTrigger p); [|done]. destruct (p_Trigger p) as [[ty c]|] eqn:T; [|done].
  cbn. intros -> (A & B & C & rand & E). split_and!; [done..|]. by exists ty, cron, rand.
Qed.

Definition next_of (s : rst) : Z := next_schedule (sched s).

Lemma advances_on_sched {A} (m : M sst A) : advances next_schedule m -> advances next_of (on_sched m).
Proof. intros H s. apply (H (sched s)). Qed.

Lemma advances_rdb {A} n (f : rst -> result A * rst) :
  (n = next_of \/ n = next_policy) -> (forall s, n s <= n (f s).2) -> advances n (rdb f).
Proof.
  intros Hn H s. unfold rdb.
  assert (E : n (on_tasks (lift (dbio get)) s).2 = n s) by (by destruct Hn as [-> | ->]).
  destruct (on_tasks _ s) as [[d|e] s1]; cbn in *; [|lia]. pose proof (H s1). lia.
Qed.

(** *** Storing a policy *)

Lemma rdb_ok {A} (f : rst -> result A * rst) s a s' :
  rdb f s = (Ok a, s') -> exists s1, same_tables s s1 /\ f s1 = (Ok a, s').
Proof.
  unfold rdb. pose proof (keeps_on_tasks (lift (dbio get)) s) as K.
  destruct (on_tasks _ s) as [[d|e] s1]; [|done]. intros E. by exists s1.
Qed.

Lemma From_stamp i c u r q :
  From_ r = Ok q -> exists q', From_ (stamp i c u r) = Ok q' /\ p_Trigger q' = p_Trigger q /\ p_Enabled q' = p_Enabled q.
Proof.
  unfold From_. cbn [r_Filters r_Trigger stamp]. destruct (parseFilters _); [|done].
  destruct (parseTrigger _); [|done]. intros [= <-]. eexists. split; [reflexivity|done].
Qed.

(** A policy whose JSON is read back as it is. *)
Definition writable (p : Policy) : Prop :=
  printable (JArr (filter_json <$> p_Filters p)) /\ forall t, p_Trigger p = Some t -> printable (trigger_json t).

Lemma stored_row p i c u :
  Validate name_regexp cron_ok p = Ok tt -> writable p ->
  exists q, From_ (stamp i c u (To p)) = Ok q /\ p_Trigger q = p_Trigger p /\ p_Enabled q = p_Enabled p.
Proof.
  intros V [W1 W2]. destruct (From_stamp i c u (To p) (stored p)) as (q & E & T & N); [by eapply round_trip|].
  by exists q.
Qed.

Lemma same_trigger_scheduled p q :
  p_Trigger q = p_Trigger p -> p_Enabled q = p_Enabled p -> IsScheduledTrigger q = IsScheduledTrigger p.
Proof. unfold IsScheduledTrigger. by intros -> ->. Qed.

Lemma plan_of_row r q p : From_ r = Ok q -> p_Trigger q = p_Trigger p -> p_Enabled q = p_Enabled p -> plan_of r = cron_of p.
Proof. unfold plan_of, cron_of. intros -> T N. by rewrite T, (same_trigger_scheduled p q T N). Qed.

(** In step but for one policy, which has no schedule. *)
Record ready (id : Z) (p : Policy) (s : rst) : Prop := mkReady {
  rd_ids : forall i r, policies s !! i = Some r -> 0 < i < next_policy s;
  rd_next : 0 < next_policy s;
  rd_read : forall i r, i <> id -> policies s !! i = Some r -> exists q, From_ r = Ok q
    /\ (IsScheduledTrigger q = true -> is_Some (cron_of q));
  rd_row : exists r q, policies s !! id = Some r /\ From_ r = Ok q /\ p_Trigger q = p_Trigger p /\ p_Enabled q = p_Enabled p;
  rd_step : in_step (<[id := None]> (plan_of <$> policies s)) (sched s) }.

Abbreviation schedule_policy := (schedule_policy SubmitJob PostAction Marshal coreURL cron_ok json_params callbacks).

Lemma schedule_policy_sync id p s s' rand now : ready id p s -> schedule_policy id p rand now s = (Ok tt, s') -> sync s'.
Proof.
  intros [H1 H2 H3 (r & q & L & Eq & T & N) H5] E.
  pose proof (plan_of_row r q p Eq T N) as Pl. pose proof (same_trigger_scheduled p q T N) as S.
  assert (Lp : (plan_of <$> policies s) !! id = Some (cron_of p)) by (by rewrite lookup_fmap, L, <- Pl).
  assert (R : (IsScheduledTrigger p = true -> is_Some (cron_of p)) -> forall i r, policies s !! i = Some r ->
     exists q, From_ r = Ok q /\ (IsScheduledTrigger q = true -> is_Some (cron_of q))).
  { intros C i r' Li. destruct (decide (i = id)) as [->|Ni]; [|by apply (H3 i)]. assert (r' = r) as -> by congruence.
    exists q. split; [done|]. unfold cron_of in *. by rewrite S, T. }
  unfold Replication.schedule_policy in E. destruct (IsScheduledTrigger p) eqn:U.
  - destruct (p_Trigger p) as [[ty [cron|]]|] eqn:Tp; try done. apply bind_inv in E as (k & s1 & E & [= <-]).
    assert (C : cron_of p = Some cron) by (unfold cron_of; by rewrite U, Tp).
    unfold on_sched in E. destruct (Schedule _ _ _ _ _ _ _ _ _ _ _ _ _ _ _ _ _ (sched s)) as [[k'|e] s2] eqn:F; [|done].
    cbn in E. injection E as <- <-.
    split; cbn [policies next_policy sched]; [done|done|apply R; by rewrite C|].
    pose proof (in_step_scheduled _ _ _ H5 (lookup_insert_eq _ _ _) F) as I.
    by rewrite insert_insert_eq, insert_id in I by (by rewrite Lp, C).
  - injection E as <-. split; [done|done|by apply R|].
    rewrite insert_id in H5; [done|]. rewrite Lp. unfold cron_of. by rewrite U.
Qed.

Abbreviation validatePolicy := (validatePolicy cron_ok name_regexp localRegistry).
Abbreviation CreatePolicy := (CreatePolicy SubmitJob PostAction Marshal coreURL cron_ok json_params callbacks name_regexp localRegistry).
Abbreviation UpdatePolicy := (UpdatePolicy SubmitJob PostAction Marshal coreURL cron_ok json_params callbacks name_regexp localRegistry).
Abbreviation DeletePolicy := (DeletePolicy PostAction).

Lemma CreatePolicy_sync p rand now s id s' :
  sync s -> writable p -> CreatePolicy p rand now s = (Ok id, s') -> sync s'.
Proof.
  intros Y W E. apply bind_inv in E as ([] & s1 & E1 & E). pose proof (keeps_validatePolicy p s) as K.
  rewrite E1 in K. apply validatePolicy_ok in E1. apply (sync_same _ _ K) in Y. clear K s.
  apply bind_inv in E as (i & s2 & E2 & E). apply bind_inv in E as ([] & s3 & E3 & [= <- <-]).
  apply rdb_ok in E2 as (s4 & K & E2). apply (sync_same _ _ K) in Y. clear K s1.
  cbv zeta in E2. destruct (name_taken (policies s4) _ _); [done|]. injection E2 as <- <-.
  destruct (stored_row p (next_policy s4) now now E1 W) as (q & Eq & T & N).
  eapply schedule_policy_sync; [|exact E3]. destruct Y as [H1 H2 H3 H4].
  assert (F : policies s4 !! next_policy s4 = None).
  { destruct (policies s4 !! next_policy s4) eqn:F; [apply H1 in F; lia|done]. }
  split; cbn [policies next_policy sched with_policies]; try done.
  - intros j r [[<- _]|[_ L]]%lookup_insert_Some; [lia|]. apply H1 in L. lia.
  - lia.
  - intros j r Nj L. rewrite lookup_insert_ne in L by done. by apply (H3 j).
  - eexists _, q. split; [apply lookup_insert_eq|done].
  - rewrite fmap_insert, insert_insert_eq. apply in_step_new; [done| |done]. by rewrite lookup_fmap, F.
Qed.

Lemma unscheduled_step id now world s s' :
  sync s -> is_Some (policies s !! id) ->
  on_sched (UnScheduleByVendor PostAction ReplicationVendorType id now world) s = (Ok tt, s') ->
  in_step (<[id := None]> (plan_of <$> policies s)) (sched s') /\ policies s' = policies s /\ next_policy s' = next_policy s.
Proof.
  intros Y [r L] E. unfold on_sched in E.
  destruct (UnScheduleByVendor _ _ _ _ _ (sched s)) as [[[]|e] t] eqn:F; [|done]. cbn in E. injection E as <-.
  split; [|done]. eapply in_step_unscheduled; [apply (sy_step _ Y)| |exact F]. by rewrite lookup_fmap, L.
Qed.

Lemma UpdatePolicy_sync p rand now world s s' :
  sync s -> writable p -> UpdatePolicy p rand now world s = (Ok tt, s') -> sync s'.
Proof.
  intros Y W E. apply bind_inv in E as ([] & s1 & E1 & E). pose proof (keeps_validatePolicy p s) as K.
  rewrite E1 in K. apply validatePolicy_ok in E1. apply (sync_same _ _ K) in Y. clear K s.
  apply bind_inv in E as ([] & s2 & E2 & E). apply bind_inv in E as ([] & s3 & E3 & E).
  apply rdb_ok in E3 as (s4 & [K1 K2 K3 K4] & E3).
  assert (P : policies s2 = policies s1) by (unfold on_sched in E2; by injection E2 as _ <-).
  destruct (policies s4 !! r_ID (To p)) as [r|] eqn:L; [|done]. destruct (name_taken _ _ _); [done|].
  injection E3 as <-. change (r_ID (To p)) with (p_ID p) in *. rewrite K3, P in L.
  destruct (unscheduled_step _ _ _ _ _ Y (mk_is_Some _ _ L) E2) as (S & _ & N2).
  destruct (stored_row p (p_ID p) (r_CreationTime (To p)) now E1 W) as (q & Eq & T & N).
  eapply schedule_policy_sync; [|exact E]. destruct Y as [H1 H2 H3 H4].
  split; cbn [policies next_policy sched with_policies]; rewrite ?K3, ?K4, ?P, ?N2; try done.
  - intros j r' [[<- _]|[_ Lj]]%lookup_insert_Some; [by apply H1 in L|by apply H1 in Lj].
  - intros j r' Nj Lj. rewrite lookup_insert_ne in Lj by done. by apply (H3 j).
  - eexists _, q. split; [apply lookup_insert_eq|done].
  - rewrite fmap_insert, insert_insert_eq. eapply in_step_ext; [exact K1|lia|exact S].
Qed.

Lemma DeletePolicy_sync id now world s s' : sync s -> DeletePolicy id now world s = (Ok tt, s') -> sync s'.
Proof.
  intros Y E. apply bind_inv in E as ([] & s1 & E1 & E). pose proof (keeps_on_tasks (DeleteByVendor ReplicationVendorType id) s) as K.
  rewrite E1 in K. apply (sync_same _ _ K) in Y. clear K E1 s.
  apply bind_inv in E as ([] & s2 & E2 & E). apply rdb_ok in E as (s4 & [K1 K2 K3 K4] & E).
  destruct (policies s4 !! id) as [r|] eqn:L; [|done]. injection E as <-.
  assert (P : policies s2 = policies s1) by (unfold on_sched in E2; by injection E2 as _ <-). rewrite K3, P in L.
  destruct (unscheduled_step _ _ _ _ _ Y (mk_is_Some _ _ L) E2) as (S & _ & N2). destruct Y as [H1 H2 H3 H4].
  split; cbn [policies next_policy sched with_policies]; rewrite ?K3, ?K4, ?P, ?N2; try done.
  - intros j r' [_ Lj]%lookup_delete_Some. by eapply H1.
  - intros j r' [_ Lj]%lookup_delete_Some. by apply (H3 j).
  - rewrite fmap_delete. apply (in_step_removed _ _ _ _ _ id) in S; [|apply lookup_insert_eq]. rewrite delete_insert_eq in S.
    eapply in_step_ext; [exact K1|lia|exact S].
Qed.

(** *** Requests *)

Definition rolled_back (s s' : rst) : rst :=
  mkRst (roll_back (sched s) (sched s')) (policies s) (next_policy s') (registries s) (spawned s').

Abbreviation in_request := (in_request sched rolled_back).

Inductive request :=
| ReqCreate (p : Policy) (rand now : Z)
| ReqUpdate (p : Policy) (rand now : Z) (world : list (mgr -> mgr))
| ReqDelete (id now : Z) (world : list (mgr -> mgr)).

Definition serve (q : request) : M rst unit :=
  match q with
  | ReqCreate p rand now => in_request (CreatePolicy p rand now) ;;; ret tt
  | ReqUpdate p rand now world => in_request (UpdatePolicy p rand now world)
  | ReqDelete id now world => in_request (DeletePolicy id now world)
  end.

Definition request_writable (q : request) : Prop :=
  match q with ReqCreate p _ _ | ReqUpdate p _ _ _ => writable p | ReqDelete _ _ _ => True end.

Fixpoint serve_all (l : list request) (s : rst) : rst :=
  match l with
  | [] => s
  | q :: l' => serve_all l' (serve q s).2
  end.

Lemma rolled_back_sync s s' :
  sync s -> next_of s <= next_of s' -> next_policy s <= next_policy s' -> sync (rolled_back s s').
Proof.
  intros [H1 H2 H3 H4] A B. unfold next_of in A. split; cbn; try done; try lia.
  - intros id r L. apply H1 in L. lia.
  - by eapply in_step_ext; [| |exact H4].
Qed.

Lemma in_request_sync {A} (m : M rst A) s :
  sync s -> advances next_of m -> advances next_policy m -> (forall a s', m s = (Ok a, s') -> sync s') ->
  sync (in_request m s).2.
Proof. intros Y N P H. apply in_request_inv; [|exact H]. apply rolled_back_sync; [done|apply N|apply P]. Qed.

Lemma advances_keeps {A} n (m : M rst A) : (n = next_of \/ n = next_policy) -> keeps_tables m -> advances n m.
Proof. intros [-> | ->] K s; destruct (K s) as [_ E1 _ E2]; unfold next_of; lia. Qed.

Lemma advances_sched_policy {A} (m : M sst A) : advances next_policy (on_sched m).
Proof. by intros s. Qed.

Lemma advances_schedule_policy n id p rand now :
  (n = next_of \/ n = next_policy) -> advances n (schedule_policy id p rand now).
Proof.
  intros Hn. unfold Replication.schedule_policy. destruct (IsScheduledTrigger p); [|by intros s].
  destruct (p_Trigger p) as [[ty [cron|]]|]; try (by intros s). apply advances_bind; [|by intros ? s].
  destruct Hn as [-> | ->]; [apply advances_on_sched, advances_Schedule|apply advances_sched_policy].
Qed.

Lemma advances_requests n :
  (n = next_of \/ n = next_policy) ->
  (forall p rand now, advances n (CreatePolicy p rand now))
  /\ (forall p rand now world, advances n (UpdatePolicy p rand now world))
  /\ (forall id now world, advances n (DeletePolicy id now world)).
Proof.
  intros Hn.
  assert (V : forall p, advances n (validatePolicy p)) by (intros; by apply advances_keeps, keeps_validatePolicy).
  assert (U : forall v id now world, advances n (on_sched (UnScheduleByVendor PostAction v id now world))).
  { intros. destruct Hn as [-> | ->]; [apply advances_on_sched, advances_UnScheduleByVendor|apply advances_sched_policy]. }
  split; [|split].
  - intros p rand now. apply advances_bind; [done|]. intros _. apply advances_bind.
    + apply advances_rdb; [done|]. intros s. cbv zeta. destruct (name_taken _ _ _); destruct Hn as [-> | ->]; unfold next_of; cbn; lia.
    + intros id. apply advances_bind; [by apply advances_schedule_policy|by intros _ s].
  - intros p rand now world. apply advances_bind; [done|]. intros _. apply advances_bind; [done|]. intros _.
    apply advances_bind; [|intros _; by apply advances_schedule_policy]. apply advances_rdb; [done|]. intros s.
    destruct (policies s !! _); [|done]. destruct (name_taken _ _ _); destruct Hn as [-> | ->]; done.
  - intros id now world. apply advances_bind; [by apply advances_keeps, keeps_on_tasks|]. intros _.
    apply advances_bind; [done|]. intros _. apply advances_rdb; [done|]. intros s.
    destruct (policies s !! id); destruct Hn as [-> | ->]; done.
Qed.

Lemma serve_sync q s : request_writable q -> sync s -> sync (serve q s).2.
Proof.
  intros W Y. destruct (advances_requests next_of ltac:(by left)) as (N1 & N2 & N3).
  destruct (advances_requests next_policy ltac:(by right)) as (P1 & P2 & P3).
  destruct q as [p rand now|p rand now world|id now world]; cbn [serve].
  - pose proof (in_request_sync (CreatePolicy p rand now) s Y (N1 _ _ _) (P1 _ _ _)) as H. unfold bind.
    destruct (in_request (CreatePolicy p rand now) s) as [[id|e] s1]; cbn in *; apply H; intros; by eapply CreatePolicy_sync.
  - apply in_request_sync; auto. intros [] s' E. by eapply UpdatePolicy_sync.
  - apply in_request_sync; auto. intros [] s' E. by eapply DeletePolicy_sync.
Qed.

Lemma serve_all_sync l s : Forall request_writable l -> sync s -> sync (serve_all l s).
Proof. intros H. revert s. induction H as [|q l Hq _ IH]; intros s Y; [done|]. by apply IH, serve_sync. Qed.

Lemma UpdatePolicy_row p rand now world s s' :
  UpdatePolicy p rand now world s = (Ok tt, s') ->
  policies s' !! p_ID p = Some (stamp (p_ID p) (p_CreationTime p) now (To p)).
Proof.
  intros E. apply bind_inv in E as ([] & s1 & _ & E). apply bind_inv in E as ([] & s2 & _ & E).
  apply bind_inv in E as ([] & s3 & E3 & E). apply rdb_ok in E3 as (s4 & _ & E3).
  destruct (policies s4 !! r_ID (To p)) as [r|]; [|done]. destruct (name_taken _ _ _); [done|]. injection E3 as <-.
  replace (policies s') with (policies (with_policies s4 (<[r_ID (To p) := stamp (r_ID (To p)) (r_CreationTime (To p)) now (To p)]> (policies s4)))).
  - apply lookup_insert_eq.
  - revert E. unfold Replication.schedule_policy. destruct (IsScheduledTrigger p); [|by intros [= <-]].
    destruct (p_Trigger p) as [[ty [cron|]]|]; try done. intros E. apply bind_inv in E as (k & s5 & E & [= <-]).
    unfold on_sched in E. by injection E as _ <-.
Qed.

End Sync.

(** C31: Whatever requests create, update and delete policies, and whichever of
    their statements and calls fail, the schedules stay in step with the policies:
    an enabled policy with a scheduled trigger has exactly one schedule, which runs
    at the policy's times and calls it back; any other policy has none, and no
    replication schedule is left without its policy. *)
Theorem policies_stay_scheduled SubmitJob PostAction Marshal coreURL cron_ok json_params callbacks `{J : Json}
    name_regexp localRegistry l s :
  Forall request_writable l -> sync s ->
  let s' := serve_all SubmitJob PostAction Marshal coreURL cron_ok json_params callbacks name_regexp localRegistry l s in
  (forall id r, policies s' !! id = Some r -> exists p, From_ r = Ok p
     /\ (IsScheduledTrigger p = true -> exists k x, schedules (sched s') !! k = Some x /\ runs_policy id p x
           /\ forall k' x', schedules (sched s') !! k' = Some x' -> of_policy id x' = true -> k' = k)
     /\ (IsScheduledTrigger p = false -> forall k x, schedules (sched s') !! k = Some x -> of_policy id x = false))
  /\ (forall k x, schedules (sched s') !! k = Some x -> sd_VendorType x = ReplicationVendorType ->
        is_Some (policies s' !! sd_VendorID x)).
Proof.
  intros W Y s'. assert (Y' : sync s') by (by apply serve_all_sync). destruct Y' as [H1 H2 H3 H4].
  assert (Pl : forall id r p, policies s' !! id = Some r -> From_ r = Ok p -> (plan_of <$> policies s') !! id = Some (cron_of p)).
  { intros id r p L E. rewrite lookup_fmap, L. cbn. unfold plan_of. by rewrite E. }
  split.
  - intros id r L. destruct (H3 id r L) as (p & E & A). exists p. split; [done|]. split.
    + intros T. destruct (A T) as [cron C]. specialize (Pl id r p L E). rewrite C in Pl.
      destruct (in_step_unique _ _ _ _ _ _ _ H4 Pl) as (k & x & Lx & X & U). exists k, x. split; [done|].
      split; [by eapply runs_policy_of|exact U].
    + intros T. apply (st_idle _ _ _ _ _ H4). rewrite (Pl id r p L E). unfold cron_of. by rewrite T.
  - intros k x Lx V. pose proof (st_owned _ _ _ _ _ H4 k x Lx V) as [c O].
    rewrite lookup_fmap in O. by apply fmap_Some in O as (r & -> & _).
Qed.

Definition empty_rst : rst :=
  mkRst (mkSst (mkMgr (mkDb ∅ ∅ 1 1 [] [] None) [] []) ∅ 1 []) ∅ 1 {[3 := mkRegistry 3 "harbor" "https://remote"]} [].

Lemma empty_sync `{J : Json} : sync empty_rst.
Proof.
  split; [done|done|done|]. change (policies empty_rst) with (∅ : gmap Z row). rewrite fmap_empty. split; cbn; intros *; rewrite ?lookup_empty; try done.
Qed.

Definition sample_callback : registry := {[callbackFuncName := fun _ => Ok tt]}.
Definition local : Registry := mkRegistry 0 "harbor" "http://core".

Definition sample_requests : list request :=
  [ReqCreate (sample_policy "0 30 2 * * *") 5 100; ReqDelete 9 110 []].

Definition sample_served : rst :=
  serve_all (J := CodedJson.coded_json) (fun _ => Ok "job"%string) (fun _ _ => Ok tt) (fun _ => Ok "{}"%string) "http://core"
    (fun _ => true) (fun _ => []) sample_callback (fun _ => true) local sample_requests empty_rst.

Lemma policies_stay_scheduled_witness :
  sd_CRON <$> (map_to_list (schedules (sched sample_served))).*2 = ["5 30 2 * * *"]
  /\ forall k x, schedules (sched sample_served) !! k = Some x -> sd_VendorType x = ReplicationVendorType ->
       is_Some (policies sample_served !! sd_VendorID x).
Proof.
  split; [vm_compute; reflexivity|].
  apply (policies_stay_scheduled (J := CodedJson.coded_json) (fun _ => Ok "job"%string) (fun _ _ => Ok tt)
    (fun _ => Ok "{}"%string) "http://core" (fun _ => true) (fun _ => []) sample_callback (fun _ => true) local
    sample_requests empty_rst).
  - repeat constructor.
  - apply (empty_sync (J := CodedJson.coded_json)).
Defined.

(** ** What the API does otherwise than it means to *)

(** An update through the API writes every column, and the request has no creator:
    the creator of the policy is lost. *)
Theorem update_erases_creator SubmitJob PostAction Marshal coreURL cron_ok json_params callbacks `{J : Json}
    name_regexp localRegistry access id a rand now world s s' :
  UpdateReplicationPolicy SubmitJob PostAction Marshal coreURL cron_ok json_params callbacks name_regexp localRegistry
    access id a rand now world s = (Ok tt, s') ->
  exists r, policies s' !! id = Some r /\ r_Creator r = "".
Proof.
  intros E. apply bind_inv in E as ([] & s1 & [= _ <-] & E). apply bind_inv in E as (p & s2 & [= Hp <-] & E).
  assert (P : p_ID p = id /\ p_Creator p = "").
  { unfold api_policy in Hp. cbv zeta in Hp. destruct (_ && _); [done|]. by injection Hp as <-. }
  destruct P as [<- P]. eexists. split; [by eapply UpdatePolicy_row|]. exact P.
Qed.

(** Deleting policy zero, which never exists: unscheduling takes zero for every
    vendor identifier, so the jobs of all schedules are stopped before the request
    fails; the roll back keeps the schedules, whose jobs are gone. *)
Theorem policy_zero_stops_every_schedule :
  let r := in_request sched rolled_back (DeletePolicy (fun _ _ => Ok tt) 0 120 []) sample_served in
  policies sample_served !! 0 = None
  /\ is_ok r.1 = false
  /\ actions (sm (sched r.2)) = actions (sm (sched sample_served)) ++ [("job", "stop")]
  /\ schedules (sched r.2) = schedules (sched sample_served).
Proof. split; [|split; [|split]]; vm_compute; reflexivity. Qed.
