(* ===== verification/ReplicationFlow.v ===== *)
(** * Replication: what the flows and their executions do

    A copy flow submits one job for each resource that the destination takes; a
    start that fails before its first task leaves its execution marked with the
    error; how executions of a policy exclude each other; and where events,
    requests and their effects differ. *)

From S2P Require Import Prelude Errors JobStatus TaskDao TaskManager Scheduler.
From S2P Require Import RegClient OciRegistry Transfer RegFilter RepPolicy Replication.

Section Flow.

Context (SubmitJob : JobData -> result string) (PostAction : string -> string -> result unit).
Context (Marshal : attrs -> result string) (coreURL : string).
Context (GetFactory : string -> result (Registry -> result Adapter)).
Context (marshal_resource : Resource -> result string).

Abbreviation create_copy_task := (create_copy_task SubmitJob Marshal coreURL marshal_resource).
Abbreviation create_copy_tasks := (create_copy_tasks SubmitJob Marshal coreURL marshal_resource).
Abbreviation copy_createTasks := (copy_createTasks SubmitJob Marshal coreURL marshal_resource).
Abbreviation copyFlow_Run := (copyFlow_Run SubmitJob Marshal coreURL GetFactory marshal_resource).
Abbreviation deletionFlow_Run := (deletionFlow_Run SubmitJob Marshal coreURL GetFactory marshal_resource).
Abbreviation flow_Start := (flow_Start SubmitJob Marshal coreURL GetFactory marshal_resource).
Abbreviation background := (background SubmitJob PostAction Marshal coreURL GetFactory marshal_resource).

(** ** The tasks of a copy flow *)

Definition todo (l : list (Resource * Resource)) : list (Resource * Resource) :=
  List.filter (fun p => negb (res_Skip p.2)) l.

(** The job of a pair, with the JSON of its resources. *)
Definition copy_job (mj : Resource -> string) (policy : Policy) (p : Resource * Resource) : Job :=
  replication_job [("src_resource", mj p.1); ("dst_resource", mj p.2); ("speed", Strconv.format_int (p_Speed policy));
                   ("copy_by_chunk", format_bool (p_CopyByChunk policy))].

Section Calm.

(** Encoding and submitting always succeed; the database answers. *)
Context (mj : Resource -> string) (md : attrs -> string) (jid : JobData -> string).
Context (Hmj : forall r, marshal_resource r = Ok (mj r)) (Hmd : forall a, Marshal a = Ok (md a)).
Context (Hjid : forall jd, SubmitJob jd = Ok (jid jd)).

(** The state with the task of one more pair. *)
Definition add_task (executionID : Z) (policy : Policy) (x : Execution) (now : Z) (g : mgr) (p : Resource * Resource) : mgr :=
  let d := mdb g in
  let n := next_task d in
  let jd := job_data coreURL n (copy_job mj policy p) in
  mkMgr (mkDb (execs d) (<[n := new_task n executionID x (jid jd) (md (task_attrs "copy" p.1 p.2)) now]> (tasks d))
           (next_exec d) (n + 1) (outdate d) (faults d) (db_down d)) (submitted g ++ [jd]) (actions g).

Definition fresh_tasks (d : db) : Prop := forall i, next_task d <= i -> tasks d !! i = None.

Lemma create_copy_task_calm executionID policy now x src dst g :
  TaskDao.quiet (mdb g) -> fresh_tasks (mdb g) -> execs (mdb g) !! executionID = Some x -> res_Skip dst = false ->
  create_copy_task executionID policy now src dst g = (Ok true, add_task executionID policy x now g (src, dst)).
Proof.
  intros Q F E Sk. unfold Replication.create_copy_task, bind, of_result. rewrite Sk, !Hmj.
  change (replication_job _) with (copy_job mj policy (src, dst)).
  rewrite (create_quiet SubmitJob Marshal [] coreURL executionID
             (copy_job mj policy (src, dst)) (Some (task_attrs "copy" src dst))
             (md (task_attrs "copy" src dst)) now g x) by (done || by apply F; lia).
  by rewrite Hjid.
Qed.

Lemma create_copy_tasks_calm executionID policy now x l cnt g :
  TaskDao.quiet (mdb g) -> fresh_tasks (mdb g) -> execs (mdb g) !! executionID = Some x ->
  create_copy_tasks executionID policy now l cnt g
  = (Ok ((cnt + length (todo l))%nat, Ok tt), foldl (add_task executionID policy x now) g (todo l)).
Proof.
  revert cnt g. induction l as [|[src dst] l IH]; intros cnt g Q F E.
  { cbn. by rewrite Nat.add_0_r. }
  cbn [Replication.create_copy_tasks]. unfold todo. cbn [List.filter snd]. fold (todo l). unfold bind at 1, try at 1.
  destruct (res_Skip dst) eqn:Sk; cbn [negb].
  { replace (create_copy_task executionID policy now src dst g) with (Ok false, g)
      by (unfold Replication.create_copy_task; by rewrite Sk). by apply IH. }
  rewrite create_copy_task_calm with (x := x) by done. cbn [foldl length].
  rewrite (IH (S cnt) (add_task executionID policy x now g (src, dst))).
  - f_equal. f_equal. f_equal. lia.
  - exact Q.
  - intros i Hi. cbn in Hi |- *. rewrite lookup_insert_ne by lia. apply F. lia.
  - exact E.
Qed.

(** What the tasks of a list of pairs are. *)
Lemma add_tasks executionID policy x now ps g :
  let g' := foldl (add_task executionID policy x now) g ps in
  let n := next_task (mdb g) in
  let jd i p := job_data coreURL (n + Z.of_nat i) (copy_job mj policy p) in
  execs (mdb g') = execs (mdb g) /\ actions g' = actions g
  /\ faults (mdb g') = faults (mdb g) /\ db_down (mdb g') = db_down (mdb g)
  /\ submitted g' = submitted g ++ imap jd ps
  /\ (forall i p, ps !! i = Some p -> tasks (mdb g') !! (n + Z.of_nat i)
        = Some (new_task (n + Z.of_nat i) executionID x (jid (jd i p)) (md (task_attrs "copy" p.1 p.2)) now))
  /\ (forall k, k < n \/ n + Z.of_nat (length ps) <= k -> tasks (mdb g') !! k = tasks (mdb g) !! k).
Proof.
  revert g. induction ps as [|p ps IH]; intros g; cbn zeta.
  { cbn. rewrite app_nil_r. repeat split; done. }
  cbn [foldl]. destruct (IH (add_task executionID policy x now g p)) as (A & B & C & D & S & T & K). cbn zeta in *.
  set (g' := foldl _ _ ps) in *. clearbody g'. cbn [add_task mdb execs actions faults db_down next_task submitted tasks] in *.
  set (n := next_task (mdb g)) in *.
  assert (N : forall i, n + 1 + Z.of_nat i = n + Z.of_nat (Datatypes.S i)) by lia.
  split; [done|]. split; [done|]. split; [done|]. split; [done|]. split; [|split].
  - rewrite S. rewrite <- app_assoc. f_equal. cbn [imap app]. f_equal; [by rewrite Z.add_0_r|].
    apply imap_ext. intros i y _. cbn [compose]. by rewrite N.
  - intros [|i] q L; cbn in L.
    + injection L as <-. rewrite Z.add_0_r. rewrite K by lia. by rewrite lookup_insert_eq.
    + rewrite <- N. by apply T.
  - intros k Hk. cbn [length] in Hk. rewrite K by lia. by rewrite lookup_insert_ne by lia.
Qed.

(** An execution without tasks is done. *)
Definition mark_done (executionID now : Z) (x : Execution) (g : mgr) : mgr :=
  with_mdb g (with_execs (mdb g) (<[executionID := mark Status.SuccessStatus nothing_to_do now x]> (execs (mdb g)))).

Lemma MarkDone_calm executionID now x g :
  TaskDao.quiet (mdb g) -> execs (mdb g) !! executionID = Some x ->
  MarkDone executionID nothing_to_do now g = (Ok tt, mark_done executionID now x g).
Proof. intros Q E. unfold MarkDone, lift, exec_Update. rewrite quiet_dbio by done. by rewrite E. Qed.

Lemma copy_createTasks_calm executionID policy now x srcs dsts g :
  TaskDao.quiet (mdb g) -> fresh_tasks (mdb g) -> execs (mdb g) !! executionID = Some x ->
  copy_createTasks executionID policy now srcs dsts g
  = (Ok tt, match todo (combine srcs dsts) with
            | [] => mark_done executionID now x g
            | ps => foldl (add_task executionID policy x now) g ps
            end).
Proof.
  intros Q F E. unfold Replication.copy_createTasks, bind at 1. rewrite create_copy_tasks_calm with (x := x) by done.
  cbn [fst snd]. destruct (todo (combine srcs dsts)) as [|p ps]; [|done].
  cbn. unfold bind, try. by rewrite MarkDone_calm with (x := x).
Qed.

Lemma copyFlow_Run_calm executionID policy src srcA dst dstA resources srcs ty dsts dsts' now x g :
  initialize_flow GetFactory policy = Ok (src, srcA, (dst, dstA)) ->
  (match resources with [] => fetchResources srcA policy | _ => Ok resources end) = Ok srcs ->
  TaskDao.quiet (mdb g) -> fresh_tasks (mdb g) -> execs (mdb g) !! executionID = Some x ->
  e_Status x <> Status.StoppedStatus ->
  ad_Info dstA = Ok ty ->
  assembleDestinationResources policy src dst ty (assembleSourceResources src srcs) = Ok dsts ->
  prepareForPush dstA dsts = Ok dsts' ->
  copyFlow_Run executionID policy resources now g
  = (Ok tt, match todo (combine (extend policy dst <$> assembleSourceResources src srcs) dsts') with
            | [] => mark_done executionID now x g
            | ps => foldl (add_task executionID policy x now) g ps
            end).
Proof.
  intros I R Q F E N Hi Ha Hp. unfold Replication.copyFlow_Run, bind at 1, of_result at 1. rewrite I. cbv iota beta.
  unfold bind at 1, of_result at 1. rewrite R.
  unfold bind at 1, isExecutionStopped, bind at 1, lift, exec_Get. rewrite quiet_dbio by done. rewrite E. cbn [ret fst].
  rewrite with_mdb_id. unfold ret at 1. rewrite (proj2 (String.eqb_neq _ _) N).
  destruct srcs as [|r srcs].
  { cbn. unfold bind, try. by rewrite MarkDone_calm with (x := x). }
  unfold bind, of_result. rewrite Hi, Ha, Hp. by apply copy_createTasks_calm.
Qed.

End Calm.

(** ** Starts that fail *)

(** The database answers and the execution is there. *)
Definition there (executionID : Z) (g : mgr) : Prop :=
  TaskDao.quiet (mdb g) /\ is_Some (execs (mdb g) !! executionID).

Section There.

Context (executionID : Z).

Lemma there_lift {A} (m : M db A) :
  (forall d, TaskDao.quiet d -> is_Some (execs d !! executionID) ->
     TaskDao.quiet (m d).2 /\ is_Some (execs (m d).2 !! executionID)) ->
  preserves (there executionID) (lift m).
Proof. intros H g [Q E]. unfold lift. specialize (H (mdb g) Q E). by destruct (m (mdb g)). Qed.

Lemma preserves_dbio {A} (f : M db A) :
  (forall d, (f d).2 = d \/ (exists t n, (f d).2 = mkDb (execs d) t (next_exec d) n (outdate d) (faults d) (db_down d))
             \/ (exists i y, (f d).2 = with_execs d (<[i := y]> (execs d)))) ->
  preserves (there executionID) (lift (dbio f)).
Proof.
  intros H. apply there_lift. intros d Q E. rewrite quiet_dbio by done.
  destruct (H d) as [-> | [(t & n & ->)|(i & y & ->)]]; [done|done|]. split; [done|]. cbn.
  destruct (decide (i = executionID)) as [->|N]; [by rewrite lookup_insert_eq|by rewrite lookup_insert_ne].
Qed.

Lemma there_exec_Get i : preserves (there executionID) (lift (exec_Get i)).
Proof. apply preserves_dbio. intros d. left. by destruct (execs d !! i). Qed.

Lemma there_exec_Update i f : preserves (there executionID) (lift (exec_Update i f)).
Proof. apply preserves_dbio. intros d. destruct (execs d !! i); [right; right; eauto|by left]. Qed.

Lemma there_task_Update i f : preserves (there executionID) (lift (task_Update i f)).
Proof. apply preserves_dbio. intros d. destruct (tasks d !! i); [right; left; by eexists _, _|by left]. Qed.

Lemma there_task_Delete i : preserves (there executionID) (lift (task_Delete i)).
Proof. apply preserves_dbio. intros d. destruct (tasks d !! i); [right; left; by eexists _, _|by left]. Qed.

Lemma lift_bind {A B} (m : M db A) (k : A -> M db B) g : lift (bind m k) g = bind (lift m) (fun a => lift (k a)) g.
Proof. unfold lift, bind. by destruct (m (mdb g)) as [[a|e] d]. Qed.

Lemma there_createTaskRecord i at_ now : preserves (there executionID) (lift (createTaskRecord Marshal ([] : attrs) i at_ now)).
Proof.
  intros g H. unfold createTaskRecord. rewrite lift_bind. revert g H. apply preserves_bind; [apply there_exec_Get|].
  intros x g H. rewrite lift_bind. revert g H. apply preserves_bind; [|intros data].
  - apply there_lift. intros d Q E. by split.
  - apply preserves_dbio. intros d. cbn [t_ExecutionID]. destruct (execs d !! i); [right; left; by eexists _, _|by left].
Qed.

Lemma there_Create i jb at_ now : preserves (there executionID) (TaskManager.Create SubmitJob Marshal [] coreURL i jb at_ now).
Proof.
  apply preserves_bind; [apply there_createTaskRecord|]. intros id. apply preserves_bind.
  - apply preserves_try. intros g H. exact H.
  - intros [jobID|e]; (apply preserves_bind; [apply preserves_try; apply there_task_Update || apply there_task_Delete|intros _ g H; exact H]).
Qed.

Lemma there_MarkDone now : preserves (there executionID) (try (MarkDone executionID nothing_to_do now) ;;; ret tt).
Proof. apply preserves_bind; [apply preserves_try, there_exec_Update|intros _ g H; exact H]. Qed.

Hint Resolve there_exec_Get there_exec_Update there_Create there_MarkDone preserves_bind preserves_try preserves_of_result
  preserves_ret preserves_fail preserves_iterM : core.

Lemma there_copyFlow_Run policy resources now : preserves (there executionID) (copyFlow_Run executionID policy resources now).
Proof.
  assert (T : forall l n, preserves (there executionID) (create_copy_tasks executionID policy now l n)).
  { induction l as [|[s d] l IH]; intros n; [by intros ?|]. cbn [Replication.create_copy_tasks].
    apply preserves_bind; [|intros [[]|e]; auto]. apply preserves_try. unfold Replication.create_copy_task.
    destruct (res_Skip d); auto 8. }
  unfold Replication.copyFlow_Run. apply preserves_bind; [auto|]. intros [[src srcA] [dst dstA]].
  apply preserves_bind; [auto|]. intros srcs. apply preserves_bind; [unfold isExecutionStopped; auto|]. intros [|]; [auto|].
  destruct srcs as [|r srcs]; [auto|]. cbv zeta. apply preserves_bind; [auto|]. intros ty. apply preserves_bind; [auto|]. intros dsts.
  apply preserves_bind; [auto|]. intros dsts'. unfold Replication.copy_createTasks. apply preserves_bind; [auto|]. intros [n r0].
  apply preserves_bind; [|auto]. destruct (_ =? _)%nat; auto.
Qed.

Lemma there_flow_Start policy resource now : preserves (there executionID) (flow_Start executionID policy resource now).
Proof.
  unfold Replication.flow_Start. destruct resource as [r|]; [destruct (res_Deleted r)|]; try apply there_copyFlow_Run.
  unfold Replication.deletionFlow_Run. apply preserves_bind; [auto|]. intros [[src srcA] [dst dstA]]. cbv zeta.
  apply preserves_bind; [auto|]. intros ty. apply preserves_bind; [auto|]. intros dsts. apply preserves_iterM.
  intros [s d]. unfold create_deletion_task. auto 8.
Qed.

End There.

(** Marking an execution that has no tasks. *)
Lemma markError_calm executionID now w ws err g x :
  TaskDao.quiet (mdb g) -> execs (mdb g) !! executionID = Some x ->
  task_rows (fun t => t_ExecutionID t =? executionID) (mdb g) = [] ->
  exists x', execs (mdb (markError PostAction executionID now (w :: ws) err g).2) !! executionID = Some x'
    /\ e_Status x' = Status.ErrorStatus /\ e_StatusMessage x' = Error_string err
    /\ tasks (mdb (markError PostAction executionID now (w :: ws) err g).2) = tasks (mdb g).
Proof.
  intros Q E T.
  set (x1 := if Status.Final (e_Status x) then x else stop_exec (e_Revision x + 1) now x).
  set (g1 := if Status.Final (e_Status x) then g else with_mdb g (with_execs (mdb g) (<[executionID := x1]> (execs (mdb g))))).
  assert (S : TaskManager.Stop PostAction executionID now g = (Ok tt, g1)).
  { unfold TaskManager.Stop, bind, lift, exec_Get, task_List. rewrite quiet_dbio by done. rewrite E. rewrite with_mdb_id.
    rewrite quiet_dbio by done. rewrite T, with_mdb_id. unfold g1, x1. destruct (Status.Final (e_Status x)); [done|].
    unfold exec_Update. rewrite quiet_dbio by done. by rewrite E. }
  assert (Q1 : TaskDao.quiet (mdb g1)) by (unfold g1; by destruct (Status.Final _)).
  assert (E1 : execs (mdb g1) !! executionID = Some x1 /\ Status.Final (e_Status x1) = true /\ tasks (mdb g1) = tasks (mdb g)).
  { unfold g1, x1. destruct (Status.Final (e_Status x)) eqn:Fi; [done|]. cbn. by rewrite lookup_insert_eq. }
  destruct E1 as (E1 & F1 & T1).
  assert (H : StopAndWaitWithError PostAction executionID now (w :: ws) (Some err) g
              = (Ok tt, with_mdb g1 (with_execs (mdb g1) (<[executionID := mark Status.ErrorStatus (Error_string err) now x1]> (execs (mdb g1)))))).
  { unfold StopAndWaitWithError, StopAndWait, bind at 1. unfold bind at 1. rewrite S. cbn [wait_final].
    unfold bind at 1, lift at 1, exec_Get. rewrite quiet_dbio by done. rewrite E1, with_mdb_id, F1. unfold ret.
    unfold MarkError, lift, exec_Update. rewrite quiet_dbio by done. by rewrite E1. }
  unfold markError, bind, try. rewrite H. cbn. rewrite lookup_insert_eq. by eexists.
Qed.

End Flow.

(** C33: A copy flow creates exactly one task for each resource that the destination
    does not ask to skip, in order: the job it submits carries the resource at the
    source and the resource that the destination prepared, with the policy's speed
    and way of copying, and reports to its own task, which is stored as pending with
    the job's identifier.  When nothing is left to do the execution is done. *)
Theorem copy_flow_creates_tasks SubmitJob Marshal coreURL GetFactory marshal_resource mj md jid
    executionID policy src srcA dst dstA resources srcs ty dsts dsts' now x g :
  (forall r, marshal_resource r = Ok (mj r)) -> (forall a, Marshal a = Ok (md a)) -> (forall jd, SubmitJob jd = Ok (jid jd)) ->
  initialize_flow GetFactory policy = Ok (src, srcA, (dst, dstA)) ->
  (match resources with [] => fetchResources srcA policy | _ => Ok resources end) = Ok srcs ->
  TaskDao.quiet (mdb g) -> fresh_tasks (mdb g) -> execs (mdb g) !! executionID = Some x ->
  e_Status x <> Status.StoppedStatus ->
  ad_Info dstA = Ok ty ->
  assembleDestinationResources policy src dst ty (assembleSourceResources src srcs) = Ok dsts ->
  prepareForPush dstA dsts = Ok dsts' ->
  let r := copyFlow_Run SubmitJob Marshal coreURL GetFactory marshal_resource executionID policy resources now g in
  let ps := todo (combine (extend policy dst <$> assembleSourceResources src srcs) dsts') in
  let n := next_task (mdb g) in
  let jd i p := job_data coreURL (n + Z.of_nat i) (copy_job mj policy p) in
  r.1 = Ok tt
  /\ submitted r.2 = submitted g ++ imap jd ps
  /\ (forall i p, ps !! i = Some p -> tasks (mdb r.2) !! (n + Z.of_nat i)
        = Some (new_task (n + Z.of_nat i) executionID x (jid (jd i p)) (md (task_attrs "copy" p.1 p.2)) now))
  /\ (forall k, k < n \/ n + Z.of_nat (length ps) <= k -> tasks (mdb r.2) !! k = tasks (mdb g) !! k)
  /\ execs (mdb r.2) = match ps with
                       | [] => <[executionID := mark Status.SuccessStatus nothing_to_do now x]> (execs (mdb g))
                       | _ => execs (mdb g)
                       end.
Proof.
  intros Hmj Hmd Hjid I R Q F E N Hi Ha Hp r ps n jd. unfold r.
  rewrite (copyFlow_Run_calm SubmitJob Marshal coreURL GetFactory marshal_resource mj md jid Hmj Hmd Hjid
             _ _ _ _ _ _ _ _ _ _ _ _ x g I R Q F E N Hi Ha Hp).
  fold ps. destruct ps as [|p ps'].
  - cbn. rewrite app_nil_r. split; [done|]. split; [done|]. split; done.
  - cbn [fst snd]. destruct (add_tasks coreURL mj md jid executionID policy x now (p :: ps') g) as (A & _ & _ & _ & S & T & K).
    split; [done|]. split; [exact S|]. split; [exact T|]. split; [exact K|exact A].
Qed.

(** A start that fails, or panics, before it has created a task is not lost:
    whatever the flow did before, the execution ends in the status Error with the
    error as its message, and the tables of tasks are as the flow left them. *)
Theorem failed_start_is_recorded SubmitJob PostAction Marshal coreURL GetFactory marshal_resource
    n executionID policy resource now w ws g g1 x e :
  TaskDao.quiet (mdb g) -> execs (mdb g) !! executionID = Some x ->
  flow_Start SubmitJob Marshal coreURL GetFactory marshal_resource executionID policy resource now g = (Err e, g1) ->
  task_rows (fun t => t_ExecutionID t =? executionID) (mdb g1) = [] ->
  let g' := (background SubmitJob PostAction Marshal coreURL GetFactory marshal_resource
               (S n) executionID policy resource now (w :: ws) g).2 in
  exists x', execs (mdb g') !! executionID = Some x' /\ e_Status x' = Status.ErrorStatus
    /\ e_StatusMessage x' = match e with Panic _ => "panic during the process" | _ => Error_string e end
    /\ tasks (mdb g') = tasks (mdb g1).
Proof.
  intros Q E F T g'.
  destruct (there_flow_Start SubmitJob Marshal coreURL GetFactory marshal_resource executionID policy resource now g
              (conj Q (mk_is_Some _ _ E))) as [Q1 [x1 E1]]. rewrite F in Q1, E1. cbn [snd] in Q1, E1.
  assert (R : Retry (S n) None (lift (exec_Get executionID) ;;; ret tt) g = (Ok tt, g)).
  { apply Retry_ok_first with tt. unfold bind, lift, exec_Get. rewrite quiet_dbio by done. by rewrite E, with_mdb_id. }
  assert (B : forall err, markError PostAction executionID now (w :: ws) err g1
                = (Ok tt, (markError PostAction executionID now (w :: ws) err g1).2)).
  { intros err. unfold markError, bind, try. by destruct (StopAndWaitWithError _ _ _ _ _ _). }
  assert (G : g' = (markError PostAction executionID now (w :: ws)
                      match e with Panic _ => Plain "panic during the process" | _ => e end g1).2).
  { unfold g', background, bind at 1, try at 1. rewrite R. unfold bind at 1, try at 1. rewrite F. by destruct e. }
  rewrite G. destruct (markError_calm PostAction executionID now w ws
    match e with Panic _ => Plain "panic during the process" | _ => e end g1 x1 Q1 E1 T) as (x' & L & S1 & M & K).
  exists x'. split; [done|]. split; [done|]. split; [by destruct e|done].
Qed.

(** ** Starting *)

Section Starting.

Context (Marshal : attrs -> result string) (md : attrs -> string) (Hmd : forall a, Marshal a = Ok (md a)).

Abbreviation Start := (Start Marshal).
Abbreviation start_with := (start_with Marshal).

Definition running (policyID : Z) (d : db) : Z :=
  Z.of_nat (length (List.filter (fun x => is_running policyID x.2) (map_to_list (execs d)))).

Lemma count_running_calm policy s :
  TaskDao.quiet (mdb (sm (sched s))) ->
  count_running policy s = (Ok (if p_SingleActiveReplication policy then running (p_ID policy) (mdb (sm (sched s))) else 0), s).
Proof.
  intros Q. unfold count_running. destruct (p_SingleActiveReplication policy); [|done].
  unfold bind, try, on_tasks, on_sched, on_mgr, lift. rewrite quiet_dbio by done. cbn.
  destruct s as [[[d su ac] sc n r] po np re sp]. done.
Qed.

(** The execution that a start stores. *)
Definition new_execution (policy : Policy) (trigger operator : string) (now : Z) : Execution :=
  mkExecution ReplicationVendorType (p_ID policy) Status.RunningStatus "" trigger
    (md (if operator =s= "" then [] else [("operator", operator)])) now now (Some zero_time) 0.

Definition with_execution (x : Execution) (spawned_ : list (Z * Policy * option Resource)) (s : rst) : rst :=
  let d := mdb (sm (sched s)) in
  mkRst (with_sm (sched s) (with_mdb (sm (sched s))
           (mkDb (<[next_exec d := x]> (execs d)) (tasks d) (next_exec d + 1) (next_task d) (outdate d) (faults d) (db_down d))))
    (policies s) (next_policy s) (registries s) spawned_.

Lemma start_with_calm count policy resource trigger operator now s :
  TaskDao.quiet (mdb (sm (sched s))) ->
  let id := next_exec (mdb (sm (sched s))) in
  let x := new_execution policy trigger operator now in
  start_with count policy resource trigger operator now s
  = (Ok id, if p_SingleActiveReplication policy && (0 <? count)
            then with_execution (mark Status.ErrorStatus skipped now x) (spawned s) s
            else with_execution x (spawned s ++ [(id, policy, resource)]) s).
Proof.
  intros Q id x. unfold Replication.start_with.
  assert (C : on_tasks (CreateExecution Marshal [] ReplicationVendorType (p_ID policy) trigger
                (Some (if operator =s= "" then [] else [("operator", operator)])) now) s
              = (Ok id, with_execution x (spawned s) s)).
  { unfold on_tasks, on_sched, on_mgr, CreateExecution, bind, of_result, extras. cbn [default]. rewrite Hmd.
    unfold lift, exec_Create. rewrite quiet_dbio by done. done. }
  cbv zeta. unfold bind at 1. rewrite C. destruct (_ && _); [|done].
  unfold bind, on_tasks, on_sched, on_mgr, MarkError, lift, exec_Update. rewrite quiet_dbio by done.
  cbn. rewrite lookup_insert_eq. cbn. by rewrite insert_insert_eq.
Qed.

End Starting.

(** What a start does, with nothing in between: a disabled policy is refused; with
    the flag and a running execution the new one is an error and no flow is
    started; otherwise it is running and its flow is. *)
Theorem start_spec Marshal md policy resource trigger operator now s :
  (forall a, Marshal a = Ok (md a)) -> TaskDao.quiet (mdb (sm (sched s))) ->
  let id := next_exec (mdb (sm (sched s))) in
  let x := new_execution md policy trigger operator now in
  Start Marshal policy resource trigger operator now s
  = if p_Enabled policy then
      (Ok id, if p_SingleActiveReplication policy && (0 <? running (p_ID policy) (mdb (sm (sched s))))
              then with_execution (mark Status.ErrorStatus skipped now x) (spawned s) s
              else with_execution x (spawned s ++ [(id, policy, resource)]) s)
    else (Err (WithMessage (WithCode (New "") PreconditionCode)
                 ("the policy " ++ Strconv.format_int (p_ID policy) ++ " is disabled")), s).
Proof.
  intros Hmd Q id x. unfold Start. destruct (p_Enabled policy); [|done]. cbn [negb].
  unfold bind. rewrite count_running_calm by done. rewrite (start_with_calm Marshal md Hmd) by done.
  fold id x. by destruct (p_SingleActiveReplication policy).
Qed.

(** The count and the creation are two statements: when a second start counts
    before the first has created its execution, both flows are started. *)
Theorem single_active_race Marshal md policy now s :
  (forall a, Marshal a = Ok (md a)) -> TaskDao.quiet (mdb (sm (sched s))) ->
  p_SingleActiveReplication policy = true -> running (p_ID policy) (mdb (sm (sched s))) = 0 ->
  let n := next_exec (mdb (sm (sched s))) in
  exists s1 s2 s3 s4,
    count_running policy s = (Ok 0, s1) /\ count_running policy s1 = (Ok 0, s2)
    /\ start_with Marshal 0 policy None "MANUAL" "" now s2 = (Ok n, s3)
    /\ start_with Marshal 0 policy None "MANUAL" "" now s3 = (Ok (n + 1), s4)
    /\ spawned s4 = spawned s ++ [(n, policy, None); (n + 1, policy, None)].
Proof.
  intros Hmd Q S R n. exists s, s.
  assert (C : count_running policy s = (Ok 0, s)) by (rewrite count_running_calm, S, R; done).
  eexists _, _. split; [exact C|]. split; [exact C|]. split; [by rewrite (start_with_calm Marshal md Hmd), S|].
  split; [by rewrite (start_with_calm Marshal md Hmd), S|]. cbn. by rewrite <- app_assoc.
Qed.

(** ** On concrete inputs *)

Definition submit_ok (_ : JobData) : result string := Ok "job".
Definition marshal_ok (_ : attrs) : result string := Ok "{}".
Definition references_json (r : Resource) : result string := Ok (getResourceReferences r).

(** Adapters that fetch two repositories, and whose destination skips the second. *)
Definition at_registry (g : Registry) (override : bool) (name tag : string) : Resource :=
  mkResource "artifact" name None [mkArtifact "IMAGE" "sha256:1" [] [tag] false []] [] g None false false override false.

Definition fetched : string -> string -> Resource := at_registry (mkRegistry 0 "" "") false.

Definition skip_b (r : Resource) : Resource :=
  mkResource (res_Type r) (res_Repository r) (res_RepositoryMetadata r) (res_Artifacts r) (res_Vtags r) (res_Registry r)
    (res_ExtendedInfo r) (res_Deleted r) (res_IsDeleteTag r) (res_Override r) (res_Repository r =s= "mirror/b").

Definition sample_adapter : Adapter :=
  mkAdapter (Some (fun _ => Ok [fetched "library/a" "v1"; fetched "library/b" "v2"])) (Ok "") (fun l => Ok (skip_b <$> l)).

Definition sample_factory (_ : string) : result (Registry -> result Adapter) := Ok (fun _ => Ok sample_adapter).

Definition local_registry : Registry := mkRegistry 0 "harbor" "http://core".
Definition remote : Registry := mkRegistry 3 "harbor" "https://remote".

Definition flow_policy (namespace : string) : Policy :=
  mkPolicy 7 "mirror" "" "admin" (Some local_registry) (Some remote) namespace (-1) [] None true true true 0 0 20 true false.

Definition sample_execution : Execution :=
  mkExecution ReplicationVendorType 7 Status.RunningStatus "" "MANUAL" "{}" 1 1 None 0.

Definition sample_mgr : mgr := mkMgr (mkDb {[5 := sample_execution]} ∅ 6 1 [] [] None) [] [].

Lemma copy_flow_creates_tasks_witness :
  let r := copyFlow_Run submit_ok marshal_ok "http://core" sample_factory references_json 5 (flow_policy "mirror") [] 9 sample_mgr in
  jd_Parameters <$> submitted r.2
  = [Some [("src_resource", "v1"); ("dst_resource", "v1"); ("speed", "20"); ("copy_by_chunk", "true")]].
Proof.
  intros r.
  destruct (copy_flow_creates_tasks submit_ok marshal_ok "http://core" sample_factory references_json
    getResourceReferences (fun _ => "{}") (fun _ => "job") 5 (flow_policy "mirror") local_registry sample_adapter remote sample_adapter
    [] [fetched "library/a" "v1"; fetched "library/b" "v2"] ""
    [at_registry remote true "mirror/a" "v1"; at_registry remote true "mirror/b" "v2"]
    (skip_b <$> [at_registry remote true "mirror/a" "v1"; at_registry remote true "mirror/b" "v2"]) 9 sample_execution sample_mgr
    ltac:(done) ltac:(done) ltac:(done) ltac:(reflexivity) ltac:(reflexivity) ltac:(done) ltac:(intros i Hi; apply lookup_empty)
    ltac:(reflexivity) ltac:(done) ltac:(reflexivity) ltac:(reflexivity) ltac:(reflexivity)) as (_ & E & _).
  unfold r. rewrite E. reflexivity.
Defined.

Lemma failed_start_is_recorded_witness :
  let g := (background submit_ok (fun _ _ => Ok tt) marshal_ok "http://core" (fun _ => Err (Plain "no factory")) references_json
              1 5 (flow_policy "mirror") None 9 [fun g => g] sample_mgr).2 in
  exists x', execs (mdb g) !! 5 = Some x' /\ e_Status x' = Status.ErrorStatus
    /\ e_StatusMessage x' = "failed to get adapter factory for registry type harbor: no factory".
Proof.
  intros g.
  destruct (failed_start_is_recorded submit_ok (fun _ _ => Ok tt) marshal_ok "http://core" (fun _ => Err (Plain "no factory"))
    references_json 0 5 (flow_policy "mirror") None 9 (fun g => g) [] sample_mgr sample_mgr sample_execution
    (Plain "failed to get adapter factory for registry type harbor: no factory")
    ltac:(done) ltac:(reflexivity) ltac:(vm_compute; reflexivity) ltac:(vm_compute; reflexivity)) as (x' & E & S & M & _).
  exists x'. split; [exact E|]. split; [exact S|exact M].
Defined.

(** The handler of events looks for the policies whose filters select something of
    the event's resource, and starts them with the resource as it is: an artifact
    that is deleted here with the tags "v1" and "dev" is deleted there with both,
    by a policy for "v*" only. *)
Definition event_policy : Policy :=
  mkPolicy 1 "releases" "" "admin" None (Some remote) "" (-1) [mkFilter FilterTypeTag (VString "v*") Matches]
    (Some (mkTrigger TriggerTypeEventBased None)) true true true 0 0 0 false false.

Definition event_store : rst :=
  mkRst (mkSst (mkMgr (mkDb ∅ ∅ 1 1 [] [] None) [] []) ∅ 1 []) {[1 := To (J := CodedJson.coded_json) event_policy]} 2
    {[3 := remote]} [].

Definition unfiltered_resource : Resource := event_resource "library/app" None "IMAGE" "sha256:1" ["v1"; "dev"] [] true false.

Definition after_delete : rst :=
  (handleDeleteArtifact (J := CodedJson.coded_json) marshal_ok sample_match local_registry "library/app" "IMAGE" "sha256:1"
     ["v1"; "dev"] [] "admin" 9 event_store).2.

Definition event_background (p : Z * Policy * option Resource) (g : mgr) : mgr :=
  (background submit_ok (fun _ _ => Ok tt) marshal_ok "http://core" sample_factory references_json 1 p.1.1 p.1.2 p.2 9 [] g).2.

Theorem events_replicate_unfiltered :
  DoFilterResources sample_match [unfiltered_resource] (p_Filters event_policy)
    = Ok [event_resource "library/app" None "IMAGE" "sha256:1" ["v1"] [] true false]
  /\ jd_Parameters <$> submitted (foldl (fun g p => event_background p g) (sm (sched after_delete)) (spawned after_delete))
     = [Some [("src_resource", "v1,dev"); ("dst_resource", "v1,dev")]].
Proof. split; vm_compute; reflexivity. Qed.
