(* ===== verification/QuotaPush.v ===== *)
(** * Quotas of pushes

    [src/server/middleware/quota]: what a push, a mount and a copy ask for before
    the registry and the middlewares of [Blob] run, around the requests of the
    quota controller of [Quota].  The theorems are in [QuotaPushSpec].

    A request is the reservation, then what follows in the chain, an error of
    which stands for a response that is no success.  Warning and exceeding events
    are left out. *)

From S2P Require Import Prelude Errors.
From S2P Require Blob.
From S2P Require Import Quota.

Definition errNonSuccess : error := Sentinel "non success status code".

(** ** The middlewares ([quota.go]) *)

Section Middleware.

Context `{drv : Driver} (attempts : nat) (prov : provider).

(** [RequestMiddleware]: the reference of the request, whether quotas are
    enabled, the resources (nothing, for none), and the rest of the chain. *)
Definition RequestMiddleware (reference : result ref) (enabled : result bool)
    (Resources : ref -> M store (option ResourceList)) (next : M store unit) : M store unit :=
  r <- of_result reference ;;
  on <- of_result enabled ;;
  if negb on then next
  else
    o <- Resources r ;;
    match o with
    | None => next
    | Some resources =>
        if (size resources =? 0)%nat then next
        else
          Request attempts prov r resources
            (res <- try next ;; match res with Ok _ => ret tt | Err _ => fail errNonSuccess end)
    end.

(** [RefreshMiddleware], after the response with the status; [retention] when the
    request comes from a retention job. *)
Definition isSuccess (statusCode : Z) : bool := (200 <=? statusCode) && (statusCode <? 400).

Definition RefreshMiddleware (statusCode : Z) (reference : result ref) (enabled : result bool) (retention ignore : bool)
  : M store unit :=
  if negb (isSuccess statusCode) then ret tt
  else
    r <- of_result reference ;;
    on <- of_result enabled ;;
    if negb on || retention then ret tt
    else Refresh attempts prov r ignore.

End Middleware.

(** The identifier of the project, as the reference has it. *)
Definition project_of (r : ref) : Z := default 0 (Strconv.parse_int r.2).

(** ** What requests ask for *)

(** [putBlobUploadResources]: the size is the length of the last request, and
    that of the upload so far only when there is none. *)
Definition put_size (contentLength : string) (accepted : result Z) : result Z :=
  match Strconv.parse_int contentLength with
  | Some n => if n =? 0 then accepted else Ok n
  | None => accepted
  end.

Definition putBlobUploadResources (contentLength : string) (accepted : result Z) (digest : string) (r : ref)
  : M store (option ResourceList) :=
  size <- of_result (put_size contentLength accepted) ;;
  if size =? 0 then ret None
  else
    exist <- lift_blob (Blob.Exist digest (project_of r) "") ;;
    ret (if exist : bool then None else Some {[ResourceStorage := size]}).

Definition postInitiateBlobUploadResources (mount : string) (r : ref) : M store (option ResourceList) :=
  if mount =s= "" then ret (Some {[ResourceStorage := 0]})
  else
    b <- try (lift_blob (Blob.ctl_Get mount 0 "")) ;;
    match b with
    | Err e => if IsNotFoundErr e then ret None else fail e
    | Ok blb =>
        exist <- lift_blob (Blob.Exist (Blob.Digest blb) (project_of r) "") ;;
        ret (if exist : bool then None else Some {[ResourceStorage := Blob.Size blb]})
    end.

Definition add_sizes (start : Z) (bs : list Blob.Blob) : Z :=
  foldl (fun acc b => if Blob.IsForeignLayer b then acc else Int64.wrap (acc + Blob.Size b)) start bs.

Definition reference_blob (d : Blob.descriptor) : Blob.Blob :=
  Blob.mkBlob 0 d.1.1 d.1.2 d.2 "" 0 0 0.

(** [putManifestResources] of a manifest that was decoded. *)
Definition putManifestResources (digest : string) (size : Z) (references : list Blob.descriptor) (r : ref)
  : M store (option ResourceList) :=
  exist <- lift_blob (Blob.Exist digest (project_of r) "") ;;
  if exist : bool then ret None
  else
    missing <- lift_blob (Blob.FindMissingAssociationsForProject (project_of r) (reference_blob <$> references)) ;;
    ret (Some {[ResourceStorage := add_sizes size missing]}).

(** The artifact that a copy is made from, with the digests of its walk. *)
Record source := mkSource {
  src_ProjectID : Z;
  src_RepositoryName : string;
  src_walk : result (list string);
}.

(** [copyArtifactResources]: no source when the parameter is missing or bad. *)
Definition copyArtifactResources (from : option (result source)) (repositoryName : string) (r : ref)
  : M store (option ResourceList) :=
  match from with
  | None => ret None
  | Some (Err e) =>
      if IsNotFoundErr e then fail (WithMessage (BadRequestError None) "artifact not found") else fail e
  | Some (Ok art) =>
      if (src_ProjectID art =? project_of r) && (src_RepositoryName art =s= repositoryName) then ret None
      else
        artifactDigests <- of_result (src_walk art) ;;
        allBlobs <- lift_blob (Blob.ListBlobs (fun s b =>
                      existsb (fun a => bool_decide ((a, Blob.Digest b) ∈ Blob.artifact_blob s)) artifactDigests)) ;;
        blobs <- lift_blob (Blob.FindMissingAssociationsForProject (project_of r) allBlobs) ;;
        ret (Some {[ResourceStorage := add_sizes 0 blobs]})
  end.

(** [parseAcceptedBlobSize] of the range "0-n" that the registry answers. *)
Definition parseAcceptedBlobSize (rangeHeader : string) : result Z :=
  if rangeHeader =s= "" then Err (Plain "range header required")
  else
    match GoStrings.SplitN2 rangeHeader "-" with
    | [_; n] =>
        match Strconv.parse_int n with
        | Some size => Ok (if 0 <? size then size + 1 else size)
        | None => Err (Plain "strconv.ParseInt: parsing")
        end
    | _ => Err (Plain ("range header bad value: " ++ rangeHeader))
    end.

(** ** The chains of [src/server/registry/route.go] *)

Section Chains.

Context `{drv : Driver} (attempts : nat) (prov : provider) (gc_window : Z) (fuel : nat).

(** The end of an upload: both middlewares take the size in the same way.  The
    registry may refuse the upload, as when the digest does not match. *)
Definition push_blob (r : ref) (enabled : result bool) (contentLength : string) (accepted : result Z)
    (digest : string) (registry : bool) (now : Z) : M store unit :=
  RequestMiddleware attempts prov (Ok r) enabled (putBlobUploadResources contentLength accepted digest)
    (if registry then
       size <- of_result (put_size contentLength accepted) ;;
       lift_blob (Blob.put_blob_upload gc_window fuel digest size (project_of r) now)
     else lift_blob (Blob.probeBlob gc_window fuel digest now) ;;; fail (Plain "DIGEST_INVALID")).

(** The start of an upload; [mounted] when the registry mounts the blob, and does
    not start an upload instead, which is a success as well. *)
Definition start_upload (r : ref) (enabled : result bool) (mount : string) (mounted : bool) : M store unit :=
  RequestMiddleware attempts prov (Ok r) enabled (postInitiateBlobUploadResources mount)
    (if mounted then lift_blob (Blob.mount_blob mount (project_of r)) else ret tt).

Definition push_manifest (r : ref) (enabled : result bool) (repository digest contentType : string) (size : Z)
    (references : list Blob.descriptor) (registry : bool) (now : Z) : M store unit :=
  RequestMiddleware attempts prov (Ok r) enabled (putManifestResources digest size references)
    (if registry then lift_blob (Blob.put_manifest gc_window fuel repository digest contentType size references (project_of r) now)
     else lift_blob (Blob.probeBlob gc_window fuel digest now) ;;; fail (Plain "MANIFEST_INVALID")).

End Chains.

(** The requests of a project. *)
Inductive request :=
| PushBlob (contentLength : string) (accepted : result Z) (digest : string) (registry : bool) (now : Z)
| StartUpload (mount : string) (mounted : bool)
| PushManifest (repository digest contentType : string) (size : Z) (references : list Blob.descriptor)
    (registry : bool) (now : Z).

Definition serve `{drv : Driver} (attempts : nat) (gc_window : Z) (fuel : nat) (r : ref) (q : request) : M store unit :=
  match q with
  | PushBlob cl acc d ok now => push_blob attempts ByDB gc_window fuel r (Ok true) cl acc d ok now
  | StartUpload mount mounted => start_upload attempts ByDB r (Ok true) mount mounted
  | PushManifest repo d ct size refs ok now =>
      push_manifest attempts ByDB gc_window fuel r (Ok true) repo d ct size refs ok now
  end.
