(* ===== verification/QuotaPushSpec.v ===== *)
(** * Quotas of pushes: what is accounted

    That the requests of [QuotaPush] keep the usage of a project the size of its
    blobs, by the effects of the middlewares of [Blob] on the tables and the
    requests of [Quota]; and the requests that are charged for other bytes than
    they store. *)

From S2P Require Import Prelude Errors.
From S2P Require Blob.
From S2P Require Import Quota QuotaPush.

(** ** The size of a project *)

#[global] Instance sum_Z_perm : Proper (Permutation ==> eq) sum_Z.
Proof. intros l k. induction 1; simpl; try lia. Qed.

Definition weight (pb : gset (Z * Z)) (p : Z) (x : Blob.Blob) : Z :=
  if bool_decide ((p, Blob.ID x) ∈ pb) && negb (Blob.IsForeignLayer x) then Blob.Size x else 0.

Definition total (w : Blob.Blob -> Z) (m : gmap Z Blob.Blob) : Z := sum_Z (w <$> (map_to_list m).*2).

Lemma project_size_total b p : project_size b p = total (weight (Blob.project_blob b) p) (Blob.blobs b).
Proof.
  unfold project_size, total, Blob.rows. induction (map_to_list (Blob.blobs b)).*2 as [|x l IH]; [done|].
  cbn [fmap list_fmap List.filter sum_Z foldr]. unfold weight at 1.
  destruct (_ && _); cbn [fmap list_fmap sum_Z foldr]; unfold sum_Z in IH; by rewrite IH.
Qed.

Lemma total_insert w m i x : m !! i = None -> total w (<[i := x]> m) = w x + total w m.
Proof. intros H. unfold total. by rewrite map_to_list_insert. Qed.

Lemma total_split w m i x : m !! i = Some x -> total w m = w x + total w (delete i m).
Proof. intros H. rewrite <- (total_insert w (delete i m) i x) by apply lookup_delete_eq. by rewrite insert_delete_id. Qed.

Lemma total_ext w w' m : (forall i x, m !! i = Some x -> w x = w' x) -> total w m = total w' m.
Proof.
  intros H. unfold total. f_equal. apply list_fmap_ext. intros k x Hx%list_elem_of_lookup_2.
  apply elem_of_map_values in Hx as [i Hx]. by apply (H i).
Qed.

Lemma total_nonneg w m : (forall i x, m !! i = Some x -> 0 <= w x) -> 0 <= total w m.
Proof.
  induction m as [|i x m Hi IH] using map_ind; intros H; [done|]. rewrite total_insert by done.
  assert (0 <= w x) by (apply (H i); by rewrite lookup_insert_eq).
  assert (0 <= total w m); [|lia]. apply IH. intros j y Hj. apply (H j).
  rewrite lookup_insert_ne; [done|]. intros ->. by rewrite Hi in Hj.
Qed.

(** What a status update leaves of a row. *)
Definition key (x : Blob.Blob) : Blob.Blob := Blob.mkBlob (Blob.ID x) (Blob.Digest x) (Blob.ContentType x) (Blob.Size x) "" 0 0 0.

Lemma total_key w m : (forall x, w (key x) = w x) -> total w (key <$> m) = total w m.
Proof.
  intros H. unfold total. rewrite map_to_list_fmap, <- !list_fmap_compose. apply sum_Z_perm.
  apply reflexive_eq, list_fmap_ext. intros _ [i x] _. apply H.
Qed.

(** Stores that differ in the statuses of the blobs and in the registry's storage. *)
Record same (b b' : Blob.store) : Prop := mkSame {
  same_key : key <$> Blob.blobs b' = key <$> Blob.blobs b;
  same_pb : Blob.project_blob b' = Blob.project_blob b;
  same_next : Blob.next_blob b' = Blob.next_blob b;
  same_faults : Blob.faults b = [] -> Blob.faults b' = [];
}.

#[global] Instance same_preorder : PreOrder same.
Proof.
  split; [by intros b|]. intros a b c [H1 H2 H3 H4] [I1 I2 I3 I4].
  split; [congruence..|]. intros F. by apply I4, H4.
Qed.

Lemma same_size b b' p : same b b' -> project_size b' p = project_size b p.
Proof.
  intros [K P _ _]. rewrite !project_size_total, P.
  by rewrite <- (total_key _ (Blob.blobs b')), K, total_key.
Qed.

(** ** Stores whose rows have the sizes of the contents *)

Section Sizes.
(** The size of each content, and those that are foreign layers. *)
Context (content : string -> Z) (foreign : string -> bool).

Record honest (b : Blob.store) : Prop := mkHonest {
  ho_id : forall i x, Blob.blobs b !! i = Some x -> Blob.ID x = i /\ i < Blob.next_blob b;
  ho_digest : forall i j x y, Blob.blobs b !! i = Some x -> Blob.blobs b !! j = Some y ->
    Blob.Digest x = Blob.Digest y -> i = j;
  ho_size : forall i x, Blob.blobs b !! i = Some x ->
    Blob.Size x = content (Blob.Digest x) /\ Blob.IsForeignLayer x = foreign (Blob.Digest x);
  ho_pb : forall p i, (p, i) ∈ Blob.project_blob b -> i < Blob.next_blob b;
  ho_calm : Blob.faults b = [];
}.

Definition associated (b : Blob.store) (p : Z) (d : string) : bool :=
  existsb (fun x => (Blob.Digest x =s= d) && bool_decide ((p, Blob.ID x) ∈ Blob.project_blob b)) (Blob.rows b).

(** What a content adds to a project; foreign layers count for nothing. *)
Definition cost (b : Blob.store) (p : Z) (d : string) : Z := if associated b p d || foreign d then 0 else content d.

Definition stored (b : Blob.store) (d : string) : Prop :=
  exists i x, Blob.blobs b !! i = Some x /\ Blob.Digest x = d.

(** The same sizes and associations, and no content lost. *)
Record kept (b b' : Blob.store) : Prop := mkKept {
  ke_honest : honest b';
  ke_stored : forall d, stored b d -> stored b' d;
  ke_size : forall p, project_size b' p = project_size b p;
  ke_assoc : forall p d, associated b' p d = associated b p d;
}.

Lemma kept_refl b : honest b -> kept b b.
Proof. by constructor. Qed.

Lemma kept_trans a b c : kept a b -> kept b c -> kept a c.
Proof. intros [H1 H4 H2 H3] [I1 I4 I2 I3]. constructor; intros; rewrite ?I2, ?I3; auto. Qed.

Lemma associated_spec b p d :
  associated b p d = true <->
  exists i x, Blob.blobs b !! i = Some x /\ Blob.Digest x = d /\ (p, Blob.ID x) ∈ Blob.project_blob b.
Proof.
  unfold associated. rewrite existsb_exists. split.
  - intros (x & I & [H1%String.eqb_eq H2%bool_decide_eq_true]%andb_true_iff).
    apply list_elem_of_In, elem_of_map_values in I as [i I]. by exists i, x.
  - intros (i & x & I & <- & H). exists x. split; [by apply list_elem_of_In, elem_of_map_values; exists i|].
    by rewrite String.eqb_refl, bool_decide_eq_true_2.
Qed.

(** A row that is the only one with its digest. *)
Lemma associated_row b p i x :
  honest b -> Blob.blobs b !! i = Some x ->
  associated b p (Blob.Digest x) = bool_decide ((p, i) ∈ Blob.project_blob b).
Proof.
  intros H I. apply eq_true_iff_eq. rewrite associated_spec, bool_decide_eq_true. split.
  - intros (j & y & J & D & P). assert (j = i) as -> by (by eapply ho_digest). rewrite I in J. injection J as <-.
    by rewrite (proj1 (ho_id b H _ _ I)) in P.
  - intros P. exists i, x. by rewrite (proj1 (ho_id b H _ _ I)).
Qed.

Lemma find_digest_spec b d x :
  honest b -> Blob.find_digest b d = Some x <-> Blob.blobs b !! Blob.ID x = Some x /\ Blob.Digest x = d.
Proof.
  intros H. unfold Blob.find_digest. split.
  - intros [I D%String.eqb_eq]%find_some. apply list_elem_of_In, elem_of_map_values in I as [i I].
    by rewrite (proj1 (ho_id b H _ _ I)).
  - intros [I D]. destruct (List.find _ _) as [y|] eqn:F.
    + apply find_some in F as [J E%String.eqb_eq]. apply list_elem_of_In, elem_of_map_values in J as [j J].
      assert (j = Blob.ID x) as -> by (eapply ho_digest; [done..|congruence]). congruence.
    + exfalso. eapply find_none in F; [|apply list_elem_of_In, elem_of_map_values; by eexists].
      by apply String.eqb_neq in F.
Qed.

Lemma find_digest_none b d :
  Blob.find_digest b d = None -> forall i x, Blob.blobs b !! i = Some x -> Blob.Digest x <> d.
Proof.
  intros F i x I. eapply find_none in F; [|apply list_elem_of_In, elem_of_map_values; by eexists].
  by apply String.eqb_neq in F.
Qed.

(** *** Status updates *)

Lemma same_lookup b b' i x :
  same b b' -> Blob.blobs b' !! i = Some x -> exists y, Blob.blobs b !! i = Some y /\ key x = key y.
Proof.
  intros S L. assert (K : (key <$> Blob.blobs b) !! i = Some (key x)) by (rewrite <- (same_key _ _ S), lookup_fmap, L; done).
  rewrite lookup_fmap in K. destruct (Blob.blobs b !! i) as [y|]; [|done]. exists y. split; [done|]. cbn [fmap option_fmap option_map] in K. by apply (inj Some) in K.
Qed.

Lemma same_sym b b' : Blob.faults b = [] -> same b b' -> same b' b.
Proof. intros F []. by constructor. Qed.

Lemma key_fields x y : key x = key y ->
  Blob.ID x = Blob.ID y /\ Blob.Digest x = Blob.Digest y /\ Blob.ContentType x = Blob.ContentType y /\ Blob.Size x = Blob.Size y.
Proof. unfold key. by intros [=]. Qed.

Lemma same_kept b b' : honest b -> same b b' -> kept b b'.
Proof.
  intros H S. constructor.
  - pose proof (same_pb _ _ S) as P. pose proof (same_next _ _ S) as N. constructor.
    + intros i x (y & L & (-> & _)%key_fields)%(same_lookup b). { rewrite N. by apply ho_id. } done.
    + intros i j x y (x' & Lx & (_ & -> & _)%key_fields)%(same_lookup b)
        (y' & Ly & (_ & -> & _)%key_fields)%(same_lookup b); [|done..]. by apply (ho_digest b H _ _ x' y').
    + intros i x (y & L & (_ & -> & C & ->)%key_fields)%(same_lookup b); [|done].
      unfold Blob.IsForeignLayer. rewrite C. by apply (ho_size b H i).
    + intros p i. rewrite P, N. apply (ho_pb b H).
    + apply (same_faults _ _ S), H.
  - intros d (i & x & L & <-). destruct (same_lookup b' b i x) as (y & Ly & (_ & -> & _)%key_fields).
    { apply same_sym; [apply H|done]. } { done. } by exists i, y.
  - intros p. by apply same_size.
  - assert (A : forall a c p d, same a c -> associated c p d = true -> associated a p d = true).
    { intros a c p d Sa. rewrite !associated_spec. intros (i & x & L & D & P).
      destruct (same_lookup a c i x Sa L) as (y & Ly & (I & Dy & _)%key_fields).
      exists i, y. rewrite <- I, <- Dy. by rewrite (same_pb _ _ Sa) in P. }
    intros p d. apply eq_true_iff_eq. split; [by apply A|].
    apply A, same_sym; [apply H|done].
Qed.

Lemma same_fault b b' : same b b' -> same b (next_fault b').2.
Proof.
  intros [K P N F]. unfold next_fault, Blob.store_faulty. destruct (Blob.faults b') as [|f fs] eqn:E; [by constructor|].
  constructor; try done. intros Fb. specialize (F Fb). congruence.
Qed.

Lemma io_same {A} b (f : M Blob.store A) : preserves (same b) f -> preserves (same b) (io f).
Proof. apply preserves_io. apply same_fault. Qed.

Lemma query_same {A} b (f : Blob.store -> A) : preserves (same b) (Blob.query f).
Proof. apply io_same. by intros s. Qed.

Lemma ctl_Get_same b d p a : preserves (same b) (Blob.ctl_Get d p a).
Proof.
  unfold Blob.ctl_Get. destruct (d =s= ""); [auto with go|]. apply preserves_bind; [apply query_same|].
  intros []; auto with go.
Qed.

Lemma UpdateBlobStatus_same b x now : preserves (same b) (Blob.UpdateBlobStatus x now).
Proof.
  unfold Blob.UpdateBlobStatus. destruct (Blob.StatusMap _) as [l|] eqn:E; [|auto with go]. apply io_same.
  intros s Hs. rewrite E. destruct (Blob.blobs s !! Blob.ID x) as [row|] eqn:L; [|done].
  destruct (Blob.may_update x row); [|done]. destruct Hs as [K P N F]. constructor; try done.
  cbn. rewrite <- K, fmap_insert. apply insert_id. by rewrite lookup_fmap, L.
Qed.

Lemma wrap_request_same {A} b (m : M Blob.store A) : preserves (same b) m -> preserves (same b) (Blob.wrap_request m).
Proof. intros H s Hs. specialize (H s Hs). unfold Blob.wrap_request. by destruct (m s) as [[]]. Qed.

Lemma Touch_same b x now : preserves (same b) (Blob.Touch x now).
Proof. apply preserves_bind; [apply UpdateBlobStatus_same|]. intros r. destruct (r.1 =? 0); auto with go. Qed.

Lemma Fail_same b x now : preserves (same b) (Blob.Fail x now).
Proof. apply preserves_bind; [apply UpdateBlobStatus_same|]. intros r. destruct (r.1 =? 0); auto with go. Qed.

Hint Resolve ctl_Get_same wrap_request_same Touch_same Fail_same : go.

Lemma probeBlob_same w fuel d now b : preserves (same b) (Blob.probeBlob w fuel d now).
Proof.
  induction fuel as [|fuel IH]; [apply preserves_fail|]. cbn [Blob.probeBlob].
  apply preserves_bind; [auto with go|]. intros [x|e]; [|destruct (IsNotFoundErr e); auto with go].
  destruct (_ || _); [auto with go|]. destruct (_ =s= _); [|auto with go].
  destruct (_ >? _); auto with go.
Qed.

(** *** Rows and associations *)

Lemma associate_row b p i x :
  honest b -> Blob.blobs b !! i = Some x ->
  let b' := Blob.with_project_blob b ({[(p, i)]} ∪ Blob.project_blob b) in
  honest b' /\ project_size b' p = project_size b p + cost b p (Blob.Digest x)
  /\ forall q d, associated b' q d = associated b q d || ((q =? p) && (Blob.Digest x =s= d)).
Proof.
  intros H L b'. split_and!.
  - destruct H as [H1 H2 H3 H4 H5]. constructor; try done. cbn. intros q j [[= -> ->]%elem_of_singleton|]%elem_of_union.
    + by apply (H1 _ x).
    + by eapply H4.
  - destruct (ho_size b H i x L) as [Sz Fx]. destruct (ho_id b H i x L) as [Ix _].
    rewrite !project_size_total. cbn [Blob.blobs Blob.project_blob b' Blob.with_project_blob].
    rewrite (total_split _ (Blob.blobs b) i x L), (total_split (weight (Blob.project_blob b) p) (Blob.blobs b) i x L).
    rewrite (total_ext (weight ({[(p, i)]} ∪ Blob.project_blob b) p) (weight (Blob.project_blob b) p)).
    + unfold cost, weight at 1 3. rewrite (associated_row b p i x), Ix, Fx, Sz by done.
      rewrite bool_decide_eq_true_2 by set_solver. cbn [andb].
      destruct (bool_decide _), (foreign _); cbn [negb andb orb]; lia.
    + intros j y [Nj Lj]%lookup_delete_Some. unfold weight. rewrite (proj1 (ho_id b H _ _ Lj)).
      by rewrite (bool_decide_ext ((p, j) ∈ {[(p, i)]} ∪ Blob.project_blob b) ((p, j) ∈ Blob.project_blob b)) by set_solver.
  - intros q d. apply eq_true_iff_eq. rewrite orb_true_iff, andb_true_iff, !associated_spec, Z.eqb_eq, String.eqb_eq. split.
    + intros (j & y & Lj & <- & [[= -> E]%elem_of_singleton|P]%elem_of_union).
      * right. rewrite (proj1 (ho_id b H _ _ Lj)) in E. subst j. cbn in Lj. rewrite L in Lj. by injection Lj as <-.
      * left. by exists j, y.
    + intros [(j & y & Lj & D & P)|[-> <-]].
      * exists j, y. split_and!; [done..|]. cbn. set_solver.
      * exists i, x. split_and!; [done..|]. cbn. rewrite (proj1 (ho_id b H _ _ L)). set_solver.
Qed.

Lemma calm_blob {A} (f : M Blob.store A) b : Blob.faults b = [] -> io f b = f b.
Proof. intros H. unfold io, next_fault, Blob.store_faulty. by rewrite H. Qed.

(** A new row for a content without one, in no project. *)
Lemma create_row b d ct now i :
  honest b -> Blob.find_digest b d = None -> (ct =s= Blob.MediaTypeForeignLayer) = foreign d ->
  Blob.next_blob b = i ->
  exists b', Blob.CreateBlob d ct (content d) now b = (Ok i, b') /\ kept b b'
  /\ exists x, Blob.blobs b' !! i = Some x /\ Blob.Digest x = d.
Proof.
  intros H N C <-. unfold Blob.CreateBlob. rewrite calm_blob by apply H. rewrite N. eexists. split; [done|].
  set (x := Blob.mkBlob (Blob.next_blob b) d ct (content d) Blob.StatusNone now 0 now).
  assert (Fr : Blob.blobs b !! Blob.next_blob b = None).
  { destruct (Blob.blobs b !! Blob.next_blob b) as [y|] eqn:L; [|done]. apply ho_id in L as [_ L]; [lia|done]. }
  assert (Pb : forall p, (p, Blob.next_blob b) ∉ Blob.project_blob b).
  { intros p P. apply ho_pb in P; [lia|done]. }
  pose proof (find_digest_none b d N) as Nd.
  split; [|exists x; cbn; by rewrite lookup_insert_eq]. constructor.
  - constructor; cbn.
    + intros i y [[<- <-]|[_ L]]%lookup_insert_Some; [cbn; lia|]. apply (ho_id b H) in L. lia.
    + intros i j y z [[<- <-]|[Ni Li]]%lookup_insert_Some [[<- <-]|[Nj Lj]]%lookup_insert_Some E; try done.
      * by destruct (Nd _ _ Lj).
      * by destruct (Nd _ _ Li).
      * by eapply (ho_digest b H).
    + intros i y [[<- <-]|[_ L]]%lookup_insert_Some; [by split|]. by apply (ho_size b H i).
    + intros p i P%(ho_pb b H). lia.
    + apply H.
  - intros d' (i & y & L & <-). exists i, y. cbn. rewrite lookup_insert_ne; [done|]. intros <-. by rewrite Fr in L.
  - intros p. rewrite !project_size_total. cbn [Blob.blobs Blob.project_blob].
    rewrite (total_insert _ (Blob.blobs b) (Blob.next_blob b) x) by done. unfold weight at 1. cbn.
    by rewrite bool_decide_eq_false_2.
  - intros p d'. apply eq_true_iff_eq. rewrite !associated_spec. cbn. split.
    + intros (i & y & [[<- <-]|[_ L]]%lookup_insert_Some & D & P); [by apply Pb in P|]. by exists i, y.
    + intros (i & y & L & D & P). exists i, y. split; [|done]. rewrite lookup_insert_ne; [done|].
      intros <-. by rewrite Fr in L.
Qed.

Lemma GetBlobByDigest_found b d x :
  honest b -> Blob.find_digest b d = Some x -> Blob.GetBlobByDigest d b = (Ok x, b).
Proof. intros H F. unfold Blob.GetBlobByDigest. rewrite calm_blob by apply H. by rewrite F. Qed.

Lemma Ensure_kept b d ct now :
  honest b -> (ct =s= Blob.MediaTypeForeignLayer) = foreign d ->
  exists i b', Blob.Ensure d ct (content d) now b = (Ok i, b') /\ kept b b'
  /\ exists x, Blob.blobs b' !! i = Some x /\ Blob.Digest x = d.
Proof.
  intros H C. unfold Blob.Ensure, bind, try. destruct (Blob.find_digest b d) as [x|] eqn:F.
  - rewrite (GetBlobByDigest_found b d x) by done. exists (Blob.ID x), b. split; [done|].
    split; [by apply kept_refl|]. exists x. by apply find_digest_spec.
  - unfold Blob.GetBlobByDigest. rewrite calm_blob by apply H. rewrite F. cbn.
    destruct (create_row b d ct now _ H F C eq_refl) as (b' & E & K & X). exists (Blob.next_blob b), b'. done.
Qed.

(** An operation that adds a content to a project, and to no other. *)
Record added (p : Z) (d : string) (b b' : Blob.store) : Prop := mkAdded {
  ad_honest : honest b';
  ad_stored : forall d', stored b d' -> stored b' d';
  ad_size : project_size b' p = project_size b p + cost b p d;
  ad_assoc : forall d', associated b' p d' = associated b p d' || (d =s= d');
}.

Lemma kept_cost b b' p d : kept b b' -> cost b' p d = cost b p d.
Proof. intros K. unfold cost. by rewrite (ke_assoc _ _ K). Qed.

Lemma kept_added p d a b c : kept a b -> added p d b c -> added p d a c.
Proof.
  intros K [H St S A]. constructor; [done| | |].
  - intros d' Sd. by apply St, (ke_stored _ _ K).
  - by rewrite S, (ke_size _ _ K), (kept_cost a b).
  - intros d'. by rewrite A, (ke_assoc _ _ K).
Qed.

Lemma CreateProjectBlob_added b p i x :
  honest b -> Blob.blobs b !! i = Some x ->
  exists b', Blob.CreateProjectBlob p i b = (Ok tt, b') /\ added p (Blob.Digest x) b b'.
Proof.
  intros H L. unfold Blob.CreateProjectBlob. rewrite calm_blob by apply H. eexists. split; [done|].
  destruct (associate_row b p i x H L) as (H' & S & A). constructor; [done|done|done|].
  intros d'. by rewrite A, Z.eqb_refl.
Qed.

Lemma ensure_in_project b d ct p now :
  honest b -> (ct =s= Blob.MediaTypeForeignLayer) = foreign d ->
  exists b', (blobID <- Blob.Ensure d ct (content d) now ;; Blob.AssociateWithProjectByID blobID p) b = (Ok tt, b')
  /\ added p d b b'.
Proof.
  intros H C. destruct (Ensure_kept b d ct now H C) as (i & b1 & E & K & x & L & <-).
  rewrite (bind_ok _ _ _ _ _ E). destruct (CreateProjectBlob_added b1 p i x) as (b2 & E2 & A); [apply K|done|].
  exists b2. split; [exact E2|]. by apply (kept_added _ _ _ b1).
Qed.

Lemma associate_digest b d p x :
  honest b -> Blob.find_digest b d = Some x ->
  exists b', Blob.AssociateWithProjectByDigest d p b = (Ok tt, b') /\ added p d b b'.
Proof.
  intros H F. unfold Blob.AssociateWithProjectByDigest.
  rewrite (bind_ok _ _ _ _ _ (GetBlobByDigest_found b d x H F)).
  apply find_digest_spec in F as [L <-]; [|done]. by apply CreateProjectBlob_added.
Qed.

(** *** Reading *)

Lemma ctl_Get_calm b d p a :
  honest b -> (d =s= "") = false ->
  Blob.ctl_Get d p a b =
  (match List.find (fun x => (Blob.Digest x =s= d)
       && ((p =? 0) || bool_decide ((p, Blob.ID x) ∈ Blob.project_blob b))
       && ((a =s= "") || bool_decide ((a, Blob.Digest x) ∈ Blob.artifact_blob b))) (Blob.rows b) with
   | Some x => Ok x
   | None => Err (WithMessage (NotFoundError None) ("blob " ++ d ++ " not found"))
   end, b).
Proof.
  intros H D. unfold Blob.ctl_Get. rewrite D. unfold bind, Blob.ListBlobs, Blob.query.
  rewrite calm_blob by apply H. induction (Blob.rows b) as [|x l IH]; [done|].
  cbn [List.filter List.find]. destruct (_ && _); [done|exact IH].
Qed.

Lemma find_true {A} (f : A -> bool) l : existsb f l = match List.find f l with Some _ => true | None => false end.
Proof. induction l as [|x l IH]; [done|]. cbn. by destruct (f x). Qed.

Lemma find_ext {A} (f g : A -> bool) l : (forall x, f x = g x) -> List.find f l = List.find g l.
Proof. intros E. induction l as [|x l IH]; [done|]. cbn. rewrite E, IH. done. Qed.

Lemma Exist_associated b d p :
  honest b -> p <> 0 -> (d =s= "") = false -> Blob.Exist d p "" b = (Ok (associated b p d), b).
Proof.
  intros H P D. unfold Blob.Exist. rewrite D. unfold bind, try. rewrite (ctl_Get_calm b d p "" H D).
  unfold associated. rewrite find_true.
  rewrite (find_ext _ (fun x => (Blob.Digest x =s= d) && bool_decide ((p, Blob.ID x) ∈ Blob.project_blob b))).
  - by destruct (List.find _ _).
  - intros x. apply Z.eqb_neq in P. rewrite P. cbn [orb String.eqb]. by rewrite andb_true_r.
Qed.

Lemma ctl_Get_any b d :
  honest b -> (d =s= "") = false ->
  Blob.ctl_Get d 0 "" b = (match Blob.find_digest b d with
                          | Some x => Ok x
                          | None => Err (WithMessage (NotFoundError None) ("blob " ++ d ++ " not found"))
                          end, b).
Proof.
  intros H D. rewrite (ctl_Get_calm b d 0 "" H D). unfold Blob.find_digest.
  rewrite (find_ext _ (fun x => Blob.Digest x =s= d)); [done|].
  intros x. cbn [Z.eqb orb String.eqb]. by rewrite !andb_true_r.
Qed.

(** *** The middlewares of the blobs *)

(** What a request leaves in the tables: what it was to add, or nothing. *)
Definition outcome (p : Z) (b : Blob.store) (n : Z) (res : result unit * Blob.store) : Prop :=
  honest res.2 /\ project_size res.2 p = project_size b p + (if is_ok res.1 then n else 0).

Lemma added_outcome p d b b' a : added p d b b' -> outcome p b (cost b p d) (Ok a, b').
Proof. intros [H _ S _]. by split. Qed.

Lemma kept_outcome p n b b' e : kept b b' -> outcome p b n (Err e, b').
Proof. intros [H _ S _]. split; [done|]. rewrite S. cbn. lia. Qed.

Lemma kept_outcome_trans p d b b' res : kept b b' -> outcome p b' (cost b' p d) res -> outcome p b (cost b p d) res.
Proof. intros K [H S]. split; [done|]. by rewrite S, (ke_size _ _ K), (kept_cost b b'). Qed.

Lemma probe_kept w fuel d now b : honest b -> kept b (Blob.probeBlob w fuel d now b).2.
Proof. intros H. apply same_kept; [done|]. by apply probeBlob_same. Qed.

Lemma put_blob_upload_outcome w fuel b d p now :
  honest b -> foreign d = false -> outcome p b (cost b p d) (Blob.put_blob_upload w fuel d (content d) p now b).
Proof.
  intros H Nf. unfold Blob.put_blob_upload, bind at 1. pose proof (probe_kept w fuel d now b H) as K.
  destruct (Blob.probeBlob w fuel d now b) as [[[]|e] b1]; cbn in K; [|by apply kept_outcome].
  eapply kept_outcome_trans; [exact K|]. destruct K as [H1 _ _ _].
  set (b2 := Blob.with_storage b1 ({[d]} ∪ Blob.storage b1)).
  assert (K2 : kept b1 b2) by (apply same_kept; [done|by split]).
  rewrite (bind_ok _ _ _ tt b2) by (by rewrite calm_blob by apply H1).
  eapply kept_outcome_trans; [exact K2|]. unfold Blob.transaction.
  destruct (ensure_in_project b2 d "application/octet-stream" p now) as (b3 & E & A); [apply K2|by rewrite Nf|].
  rewrite E. by apply added_outcome.
Qed.

Lemma mount_missing n b d p :
  honest b -> (d =s= "") = false -> Blob.find_digest b d = None -> outcome p b n (Blob.mount_blob d p b).
Proof.
  intros H D F. unfold Blob.mount_blob. rewrite D. unfold Blob.AssociateWithProjectByDigest, bind, Blob.GetBlobByDigest.
  rewrite calm_blob by apply H. rewrite F. apply kept_outcome. by apply kept_refl.
Qed.

Lemma mount_blob_outcome b d p :
  honest b -> (d =s= "") = false -> outcome p b (cost b p d) (Blob.mount_blob d p b).
Proof.
  intros H D. destruct (Blob.find_digest b d) as [x|] eqn:F; [|by apply mount_missing].
  unfold Blob.mount_blob. rewrite D. destruct (associate_digest b d p x H F) as (b' & -> & A). by apply added_outcome.
Qed.

(** *** Manifests *)

Lemma update_row_kept b i x y :
  honest b -> Blob.blobs b !! i = Some x -> Blob.ID y = i -> Blob.Digest y = Blob.Digest x ->
  Blob.Size y = Blob.Size x -> Blob.IsForeignLayer y = Blob.IsForeignLayer x ->
  kept b (Blob.with_blobs b (<[i := y]> (Blob.blobs b))).
Proof.
  intros H L Iy Dy Sy Fy. destruct (ho_id b H i x L) as [Ix Ni]. destruct (ho_size b H i x L) as [Sx Fx]. constructor.
  - constructor; cbn; try apply H.
    + intros j z [[<- <-]|[_ Lj]]%lookup_insert_Some; [done|]. by apply (ho_id b H).
    + intros j k z t [[<- <-]|[Nj Lj]]%lookup_insert_Some [[<- <-]|[Nk Lk]]%lookup_insert_Some E; try done.
      * by apply (ho_digest b H _ _ x t); [..|congruence].
      * by apply (ho_digest b H _ _ z x); [..|congruence].
      * by eapply (ho_digest b H).
    + intros j z [[<- <-]|[_ Lj]]%lookup_insert_Some; [split; congruence|]. by apply (ho_size b H j).
  - intros d (j & z & Lj & <-). destruct (decide (j = i)) as [->|Nj].
    + rewrite L in Lj. injection Lj as <-. exists i, y. cbn. by rewrite lookup_insert_eq.
    + exists j, z. cbn. by rewrite lookup_insert_ne.
  - intros p. rewrite !project_size_total. cbn [Blob.blobs Blob.project_blob Blob.with_blobs].
    rewrite <- insert_delete_eq, (total_split _ (Blob.blobs b) i x L).
    rewrite (total_insert _ (delete i (Blob.blobs b)) i y) by apply lookup_delete_eq.
    f_equal. unfold weight. by rewrite Iy, Ix, Sy, Fy.
  - intros p d. apply eq_true_iff_eq. rewrite !associated_spec. cbn. split.
    + intros (j & z & [[<- <-]|[_ Lj]]%lookup_insert_Some & D & P); [|by exists j, z].
      exists i, x. split_and!; [done|congruence|]. by rewrite Ix, <- Iy.
    + intros (j & z & Lj & D & P). destruct (decide (j = i)) as [->|Nj].
      * rewrite L in Lj. injection Lj as <-. exists i, y. rewrite lookup_insert_eq. split_and!; [done|congruence|]. by rewrite Iy, <- Ix.
      * exists j, z. by rewrite lookup_insert_ne.
Qed.

Lemma CreateBlob_kept b d ct now :
  honest b -> (ct =s= Blob.MediaTypeForeignLayer) = foreign d ->
  exists i b', Blob.CreateBlob d ct (content d) now b = (Ok i, b') /\ kept b b' /\ stored b' d.
Proof.
  intros H C. destruct (Blob.find_digest b d) as [x|] eqn:F.
  - unfold Blob.CreateBlob. rewrite calm_blob by apply H. rewrite F. eexists _, _. split; [done|].
    apply find_digest_spec in F as [L D]; [|done]. destruct (ho_size b H _ _ L) as [Sx Fx]. rewrite D in Fx. split.
    + apply (update_row_kept b _ x); cbn; congruence || done.
    + eexists _, _. cbn. by rewrite lookup_insert_eq.
  - destruct (create_row b d ct now _ H F C eq_refl) as (b' & E & K & x & L & D).
    exists (Blob.next_blob b), b'. split_and!; [done..|]. by exists (Blob.next_blob b), x.
Qed.

(** A blob whose content type may be written to its row. *)
Definition writable (b : Blob.store) (y : Blob.Blob) : Prop :=
  Blob.IsForeignLayer y = foreign (Blob.Digest y)
  /\ forall x, Blob.blobs b !! Blob.ID y = Some x -> Blob.Size x = Blob.Size y /\ Blob.Digest x = Blob.Digest y.

Lemma UpdateBlob_kept b y now :
  honest b -> writable b y ->
  exists b', Blob.UpdateBlob y now b = (Ok tt, b') /\ kept b b' /\ forall z, writable b z -> writable b' z.
Proof.
  intros H [Fy Wy]. unfold Blob.UpdateBlob. rewrite calm_blob by apply H. eexists. split; [done|].
  destruct (Blob.blobs b !! Blob.ID y) as [x|] eqn:L; [|split; [by apply kept_refl|done]].
  destruct (Wy x eq_refl) as [Sy Dy]. split.
  - apply (update_row_kept b _ x); cbn; try done; [by apply (ho_id b H)|].
    rewrite (proj2 (ho_size b H _ _ L)), Dy. exact Fy.
  - intros z [Fz Wz]. split; [done|]. intros t Lt. cbn in Lt. revert Lt. intros [[E <-]|[_ Lt]]%lookup_insert_Some; [|by apply Wz].
    cbn. rewrite <- Sy. apply Wz. by rewrite <- E.
Qed.

Lemma update_all_kept now l b :
  honest b -> Forall (writable b) l ->
  exists b', iterM (fun y => Blob.UpdateBlob y now) l b = (Ok tt, b') /\ kept b b'.
Proof.
  revert b. induction l as [|y l IH]; intros b H W; [exists b; split; [done|by apply kept_refl]|].
  apply Forall_cons in W as [Wy W]. destruct (UpdateBlob_kept b y now H Wy) as (b1 & E1 & K1 & W1).
  destruct (IH b1) as (b2 & E2 & K2); [apply K1|by eapply Forall_impl|]. exists b2.
  cbn [iterM]. rewrite (bind_ok _ _ _ _ _ E1). split; [done|]. by eapply kept_trans.
Qed.

(** A descriptor with the size and the kind of its content. *)
Definition faithful (r : Blob.descriptor) : Prop :=
  r.2 = content r.1.1 /\ (r.1.2 =s= Blob.MediaTypeForeignLayer) = foreign r.1.1.

Lemma create_all_kept now l b :
  honest b -> Forall faithful l ->
  exists b', iterM (fun r : Blob.descriptor => let '(d, mt, sz) := r in Blob.CreateBlob d mt sz now ;;; ret tt) l b = (Ok tt, b')
  /\ kept b b' /\ forall r, r ∈ l -> stored b' r.1.1.
Proof.
  revert b. induction l as [|[[d mt] sz] l IH]; intros b H W.
  { exists b. split_and!; [done|by apply kept_refl|]. intros r Hr. by apply elem_of_nil in Hr. }
  apply Forall_cons in W as [[E C] W]. cbn in E, C. subst sz.
  destruct (CreateBlob_kept b d mt now H C) as (i & b1 & E1 & K1 & S1).
  destruct (IH b1) as (b2 & E2 & K2 & S2); [apply K1|done|]. exists b2. split_and!.
  - cbn [iterM]. unfold bind at 1. unfold bind at 1. by rewrite E1.
  - by eapply kept_trans.
  - intros r [->|Hr]%elem_of_cons; [by apply (ke_stored _ _ K2)|by apply S2].
Qed.

Lemma sync_split_spec (G : Blob.Blob -> Prop) refs mp :
  (forall x r, G x -> r ∈ refs -> Blob.Digest x = r.1.1 ->
     G (Blob.mkBlob (Blob.ID x) (Blob.Digest x) r.1.2 (Blob.Size x) (Blob.Status x) (Blob.UpdateTime x)
          (Blob.Version x) (Blob.CreationTime x))) ->
  Forall G mp ->
  let res := Blob.sync_split mp refs in
  Forall G res.1 /\ res.2 ⊆ refs
  /\ forall r, r ∈ refs -> (exists x, x ∈ mp /\ Blob.Digest x = r.1.1) \/ r ∈ res.2.
Proof.
  revert mp. induction refs as [|[[d mt] sz] refs IH]; intros mp HG F; [by split_and!; [| |intros r Hr%elem_of_nil]|].
  assert (HG' : forall x r, G x -> r ∈ refs -> Blob.Digest x = r.1.1 -> G (Blob.mkBlob (Blob.ID x) (Blob.Digest x) r.1.2 (Blob.Size x)
    (Blob.Status x) (Blob.UpdateTime x) (Blob.Version x) (Blob.CreationTime x))) by (intros; apply HG; [done|by right|done]).
  cbn [Blob.sync_split]. destruct (List.find _ mp) as [x|] eqn:Fd.
  - apply find_some in Fd as [Ix Dx%String.eqb_eq]. apply list_elem_of_In in Ix.
    assert (Gx : G x) by (by eapply Forall_forall in F).
    destruct (Blob.ContentType x =s= mt) eqn:C.
    + destruct (IH mp HG' F) as (A & B & D). split_and!; [done|set_solver|].
      intros r [->|Hr]%elem_of_cons; [left; by exists x|by apply D].
    + set (x' := Blob.mkBlob _ _ _ _ _ _ _ _). set (mp' := _ <$> mp).
      assert (Gx' : G x') by (apply (HG x (d, mt, sz)); [done|left|done]).
      destruct (IH mp' HG') as (A & B & D).
      { apply Forall_fmap, (Forall_impl _ _ _ F). intros y Gy. unfold compose. by destruct (Blob.Digest y =s= d). }
      destruct (Blob.sync_split mp' refs) as [up mi]. cbn [fst snd] in *. split_and!; [by constructor|set_solver|].
      intros r [->|Hr]%elem_of_cons; [left; by exists x|]. destruct (D r Hr) as [(y & Iy & Dy)|]; [|by right].
      left. apply list_elem_of_fmap in Iy as (z & -> & Iz). exists z. split; [done|].
      revert Dy. destruct (Blob.Digest z =s= d) eqn:E; [|done]. apply String.eqb_eq in E. cbn. congruence.
  - destruct (IH mp HG' F) as (A & B & D). destruct (Blob.sync_split mp refs) as [up mi]. cbn [fst snd] in *.
    split_and!; [done|set_solver|]. intros r [->|Hr]%elem_of_cons; [right; by left|].
    destruct (D r Hr); [by left|right; by right].
Qed.

Lemma Sync_kept now refs b :
  honest b -> Forall faithful refs ->
  exists b', Blob.Sync refs now b = (Ok tt, b') /\ kept b b' /\ forall r, r ∈ refs -> stored b' r.1.1.
Proof.
  intros H W. destruct refs as [|r0 refs']; [exists b; split_and!; [done|by apply kept_refl|by intros r Hr%elem_of_nil]|].
  unfold Blob.Sync. set (refs := r0 :: refs') in *.
  set (found := List.filter (fun x => existsb (fun r : Blob.descriptor => Blob.Digest x =s= r.1.1) refs) (Blob.rows b)).
  rewrite (bind_ok _ _ _ found b) by (unfold Blob.ListBlobs, Blob.query; by rewrite calm_blob by apply H).
  assert (Ff : forall x, x ∈ found -> exists i, Blob.blobs b !! i = Some x).
  { intros x Ix. apply list_elem_of_In, filter_In in Ix as [Ix _]. by apply list_elem_of_In, elem_of_map_values in Ix. }
  destruct (sync_split_spec (writable b) refs found) as (A & B & D).
  - intros x r [Fx Wx] Hr Dx. split; [|exact Wx]. rewrite Forall_forall in W. cbn. rewrite Dx. apply (W r Hr).
  - apply Forall_forall. intros x Ix. destruct (Ff x Ix) as [i L]. split; [by apply (ho_size b H i)|].
    intros y Ly. destruct (ho_id b H i x L) as [E _]. rewrite E, L in Ly. by injection Ly as <-.
  - destruct (Blob.sync_split found refs) as [up mi]. cbn [fst snd] in *.
    destruct (update_all_kept now up b H A) as (b1 & E1 & K1).
    destruct (create_all_kept now mi b1) as (b2 & E2 & K2 & S2); [apply K1| |].
    { apply Forall_forall. intros r Hr%B. by apply (proj1 (Forall_forall _ _) W). }
    exists b2. rewrite (bind_ok _ _ _ tt b1) by (unfold Blob.transaction; by rewrite E1).
    split_and!; [done|by eapply kept_trans|]. intros r Hr. destruct (D r Hr) as [(x & Ix & <-)|]; [|by apply S2].
    destruct (Ff x Ix) as [i L]. apply (ke_stored _ _ K2), (ke_stored _ _ K1). by exists i, x.
Qed.

(** What contents that are new to a project add to it, each counted once. *)
Definition costs (b : Blob.store) (p : Z) (ds : list string) : Z := sum_Z (cost b p <$> ds).

Lemma costs_ext b b' p ds :
  (forall d, d ∈ ds -> associated b' p d = associated b p d) -> costs b' p ds = costs b p ds.
Proof.
  intros E. unfold costs. f_equal. apply list_fmap_ext. intros k d L%list_elem_of_lookup_2.
  unfold cost. by rewrite E.
Qed.

Lemma kept_costs b b' p ds : kept b b' -> costs b' p ds = costs b p ds.
Proof. intros K. apply costs_ext. intros d _. apply (ke_assoc _ _ K). Qed.

Lemma associate_all refs p b :
  honest b -> NoDup ((fun r : Blob.descriptor => r.1.1) <$> refs) -> (forall r, r ∈ refs -> stored b r.1.1) ->
  exists b', iterM (fun r : Blob.descriptor => Blob.AssociateWithProjectByDigest r.1.1 p) refs b = (Ok tt, b')
  /\ honest b' /\ project_size b' p = project_size b p + costs b p ((fun r => r.1.1) <$> refs)
  /\ forall d, d ∉ (fun r : Blob.descriptor => r.1.1) <$> refs -> associated b' p d = associated b p d.
Proof.
  revert b. induction refs as [|r refs IH]; intros b H N S.
  { exists b. split_and!; [done..| |done]. unfold costs. cbn. lia. }
  cbn [fmap list_fmap] in N. apply NoDup_cons in N as [Nr N].
  destruct (S r) as (i & x & L & D); [by left|].
  assert (F : Blob.find_digest b r.1.1 = Some x) by (apply find_digest_spec; [done|]; by rewrite (proj1 (ho_id b H _ _ L))).
  destruct (associate_digest b r.1.1 p x H F) as (b1 & E1 & [H1 S1 Z1 A1]).
  destruct (IH b1) as (b2 & E2 & H2 & Z2 & A2); [done..| |].
  { intros r' Hr. by apply S1, S; right. }
  exists b2. cbn [iterM]. rewrite (bind_ok _ _ _ _ _ E1). split_and!; [done..| |].
  - rewrite Z2, Z1. rewrite (costs_ext b b1).
    + unfold costs. cbn [fmap list_fmap sum_Z foldr]. unfold sum_Z. lia.
    + intros d Id. rewrite A1. assert ((r.1.1 =s= d) = false) as ->; [|by rewrite orb_false_r].
      apply String.eqb_neq. intros E. by rewrite E in Nr.
  - intros d Nd. cbn [fmap list_fmap] in Nd. apply not_elem_of_cons in Nd as [Nd1 Nd2]. rewrite (A2 d Nd2), A1.
    assert ((r.1.1 =s= d) = false) as ->; [|by rewrite orb_false_r]. apply String.eqb_neq. congruence.
Qed.

Lemma CreateArtifactAndBlob_same b a d : preserves (same b) (Blob.CreateArtifactAndBlob a d).
Proof. apply io_same. intros s [K P N F]. by split. Qed.

Lemma AssociateWithArtifact_kept ds d b :
  honest b -> (d =s= "") = false -> exists b', Blob.AssociateWithArtifact ds d b = (Ok tt, b') /\ kept b b'.
Proof.
  intros H D. unfold Blob.AssociateWithArtifact, Blob.Exist. rewrite D. unfold bind at 1 2, try.
  rewrite (ctl_Get_calm b d 0 d H D). destruct (List.find _ _); [exists b; split; [done|by apply kept_refl]|].
  cbn [IsNotFoundErr]. change (ret false b) with (Ok false, b). cbn [negb].
  set (l := ds ++ [d]). clearbody l.
  enough (exists b', iterM (fun d0 => Blob.CreateArtifactAndBlob d d0) l b = (Ok tt, b') /\ same b b') as (b' & E & S).
  { exists b'. split; [exact E|]. by apply same_kept. }
  assert (Sb : same b b) by done. revert Sb. generalize b at 2 3. pose proof (ho_calm b H) as Fb.
  induction l as [|x l IH]; intros c Sc; [by exists c|]. cbn [iterM].
  pose proof (CreateArtifactAndBlob_same b d x c Sc) as S1. unfold bind.
  unfold Blob.CreateArtifactAndBlob in S1 |- * at 1. rewrite calm_blob in S1 |- * by (by apply (same_faults _ _ Sc)).
  cbn in S1 |- *. by apply IH.
Qed.

Lemma put_manifest_outcome w fuel b repository d ct refs p now :
  honest b -> (d =s= "") = false -> (ct =s= Blob.MediaTypeForeignLayer) = foreign d -> Forall faithful refs ->
  NoDup (d :: ((fun r : Blob.descriptor => r.1.1) <$> refs)) ->
  outcome p b (cost b p d + costs b p ((fun r => r.1.1) <$> refs))
    (Blob.put_manifest w fuel repository d ct (content d) refs p now b).
Proof.
  intros H D C W [Nd N]%NoDup_cons. unfold Blob.put_manifest, bind at 1.
  pose proof (probe_kept w fuel d now b H) as K1.
  destruct (Blob.probeBlob w fuel d now b) as [[[]|e] b1]; cbn in K1; [|by apply kept_outcome].
  set (b2 := Blob.with_revisions (Blob.with_storage b1 ({[d]} ∪ Blob.storage b1)) ({[(repository, d)]} ∪ Blob.revisions b1)).
  assert (K2 : kept b b2) by (eapply kept_trans; [exact K1|]; apply same_kept; [apply K1|by split]).
  rewrite (bind_ok _ _ _ tt b2) by (by rewrite calm_blob by apply K1).
  destruct (Sync_kept now refs b2) as (b3 & E3 & K3 & S3); [apply K2|done|].
  rewrite (bind_ok _ _ _ _ _ E3). pose proof (kept_trans _ _ _ K2 K3) as K.
  destruct (associate_all refs p b3) as (b4 & E4 & H4 & Z4 & A4); [apply K|done..|].
  rewrite (bind_ok _ _ _ _ _ E4).
  destruct (Ensure_kept b4 d ct now H4 C) as (i & b5 & E5 & K5 & x & L5 & D5). rewrite (bind_ok _ _ _ _ _ E5).
  destruct (CreateProjectBlob_added b5 p i x) as (b6 & E6 & A6); [apply K5|done|]. unfold Blob.AssociateWithProjectByID.
  rewrite (bind_ok _ _ _ _ _ E6). rewrite D5 in A6.
  destruct (AssociateWithArtifact_kept ((fun r => r.1.1) <$> refs) d b6) as (b7 & E7 & K7); [apply A6|done|].
  rewrite E7. split; [apply K7|]. cbn.
  rewrite (ke_size _ _ K7), (ad_size _ _ _ _ A6), (ke_size _ _ K5), Z4, (ke_size _ _ K).
  rewrite (kept_cost b4 b5), (kept_costs b b3) by done.
  enough (cost b4 p d = cost b p d) as -> by lia. unfold cost. by rewrite (A4 d Nd), (ke_assoc _ _ K).
Qed.

(** *** What requests ask for *)

Lemma rows_digest_NoDup b : honest b -> NoDup (Blob.Digest <$> Blob.rows b).
Proof.
  intros H. unfold Blob.rows. rewrite <- list_fmap_compose. apply NoDup_fmap_2_strong; [|apply NoDup_map_to_list].
  intros [i x] [j y] Lx%elem_of_map_to_list Ly%elem_of_map_to_list E. unfold compose in E. cbn in E.
  assert (i = j) as -> by (by eapply (ho_digest b H)). by rewrite Lx in Ly; injection Ly as ->.
Qed.

Lemma filter_none {A} (f : A -> bool) l : (forall x, x ∈ l -> f x = false) -> List.filter f l = [].
Proof.
  induction l as [|x l IH]; intros E; [done|]. cbn. rewrite E by left. apply IH. intros y Hy. apply E. by right.
Qed.

Lemma filter_all {A} (f : A -> bool) l : (forall x, x ∈ l -> f x = true) -> List.filter f l = l.
Proof.
  induction l as [|x l IH]; intros E; [done|]. cbn. rewrite E by left. f_equal. apply IH. intros y Hy. apply E. by right.
Qed.

Lemma filter_fmap_NoDup {A B} (g : A -> B) (f : A -> bool) l : NoDup (g <$> l) -> NoDup (g <$> List.filter f l).
Proof.
  induction l as [|x l IH]; [done|]. cbn. intros [N1 N2]%NoDup_cons. destruct (f x); [|by apply IH].
  cbn. apply NoDup_cons. split; [|by apply IH]. intros (y & E & Hy)%list_elem_of_fmap. apply N1. rewrite E.
  apply list_elem_of_fmap. exists y. split; [done|]. apply list_elem_of_In, filter_In in Hy as [Hy _]. by apply list_elem_of_In.
Qed.

Lemma FindMissing_spec b p bs :
  honest b -> NoDup (Blob.Digest <$> bs) ->
  Blob.FindMissingAssociationsForProject p bs b
  = (Ok (List.filter (fun x => negb (associated b p (Blob.Digest x))) bs), b).
Proof.
  intros H N. destruct bs as [|x0 bs']; [done|]. unfold Blob.FindMissingAssociationsForProject. set (bs := x0 :: bs') in *.
  set (L := List.filter (fun x => existsb (String.eqb (Blob.Digest x)) (Blob.Digest <$> bs)
              && bool_decide ((p, Blob.ID x) ∈ Blob.project_blob b)) (Blob.rows b)).
  rewrite (bind_ok _ _ _ L b) by (unfold Blob.ListBlobs, Blob.query; by rewrite calm_blob by apply H).
  assert (EL : forall d, d ∈ Blob.Digest <$> bs -> d ∈ Blob.Digest <$> L <-> associated b p d = true).
  { intros d Hd. rewrite associated_spec, list_elem_of_fmap. split.
    - intros (x & -> & Ix). apply list_elem_of_In, filter_In in Ix as [Ix [_ P%bool_decide_eq_true]%andb_true_iff].
      apply list_elem_of_In, elem_of_map_values in Ix as [i L0]. by exists i, x.
    - intros (i & x & L0 & <- & P). exists x. split; [done|]. apply list_elem_of_In, filter_In.
      split; [apply list_elem_of_In, elem_of_map_values; by exists i|]. rewrite bool_decide_eq_true_2 by done.
      rewrite andb_true_r. apply existsb_exists. exists (Blob.Digest x). split; [by apply list_elem_of_In|apply String.eqb_refl]. }
  assert (In_bs : forall x, x ∈ bs -> Blob.Digest x ∈ Blob.Digest <$> bs) by (intros x Hx; by apply list_elem_of_fmap_2).
  destruct (Nat.eqb_spec (length L) 0) as [Z|_].
  { apply nil_length_inv in Z. rewrite Z in EL. rewrite filter_all; [done|]. intros x Hx. apply negb_true_iff.
    destruct (associated b p (Blob.Digest x)) eqn:A; [|done]. by apply EL, elem_of_nil in A; [|apply In_bs]. }
  destruct (Nat.eqb_spec (length L) (length bs)) as [Z|_].
  { rewrite filter_none; [done|]. intros x Hx. apply negb_false_iff. apply EL; [by apply In_bs|].
    apply list_elem_of_In. apply (NoDup_length_incl (l := Blob.Digest <$> L) (l' := Blob.Digest <$> bs)).
    - apply NoDup_ListNoDup, filter_fmap_NoDup. by apply rows_digest_NoDup.
    - rewrite !length_fmap. lia.
    - intros d Hd. apply list_elem_of_In in Hd. apply list_elem_of_fmap in Hd as (y & -> & Hy).
      apply list_elem_of_In, filter_In in Hy as [_ [E _]%andb_true_iff].
      apply existsb_exists in E as (d & Hd & E%String.eqb_eq). by rewrite E.
    - by apply list_elem_of_In, In_bs. }
  unfold ret. do 2 f_equal. apply filter_ext_in. intros x Hx%list_elem_of_In. f_equal.
  apply eq_true_iff_eq. rewrite <- (EL (Blob.Digest x)) by (by apply In_bs).
  rewrite existsb_exists. split.
  - intros (d & Hd & ->%String.eqb_eq). by apply list_elem_of_In.
  - intros Hd. exists (Blob.Digest x). split; [by apply list_elem_of_In|apply String.eqb_refl].
Qed.

Lemma costs_cons b p d ds : costs b p (d :: ds) = cost b p d + costs b p ds.
Proof. done. Qed.

Context (content_nonneg : forall d, 0 <= content d).

Lemma cost_nonneg b p d : 0 <= cost b p d.
Proof. unfold cost. destruct (associated b p d || foreign d); [lia|apply content_nonneg]. Qed.

Lemma costs_nonneg b p ds : 0 <= costs b p ds.
Proof. induction ds as [|d ds IH]; [done|]. rewrite costs_cons. pose proof (cost_nonneg b p d). lia. Qed.

Lemma project_size_nonneg b p : honest b -> 0 <= project_size b p.
Proof.
  intros H. rewrite project_size_total. apply total_nonneg. intros i x L. unfold weight.
  destruct (_ && _); [|lia]. rewrite (proj1 (ho_size b H i x L)). apply content_nonneg.
Qed.

(** The sizes of what is missing, without overflow. *)
Lemma add_missing b p refs start :
  Forall faithful refs -> 0 <= start -> start + costs b p ((fun r => r.1.1) <$> refs) <= Int64.max ->
  add_sizes start (List.filter (fun x => negb (associated b p (Blob.Digest x))) (reference_blob <$> refs))
  = start + costs b p ((fun r => r.1.1) <$> refs).
Proof.
  unfold add_sizes. revert start. induction refs as [|[[d mt] sz] refs IH]; intros start W P B.
  { unfold costs. cbn. lia. }
  apply Forall_cons in W as [[E C] W]. cbn [fmap list_fmap fst snd] in *. subst sz. rewrite costs_cons in *.
  pose proof (cost_nonneg b p d) as Cd. pose proof (costs_nonneg b p ((fun r => r.1.1) <$> refs)) as Cs.
  cbn [List.filter reference_blob Blob.Digest fst snd]. unfold cost in *. destruct (associated b p d); cbn [negb orb] in *.
  - rewrite IH by (done || lia). lia.
  - cbn [foldl]. unfold Blob.IsForeignLayer at 2. cbn [Blob.ContentType Blob.Size reference_blob fst snd]. rewrite C.
    destruct (foreign d); [rewrite IH by (done || lia); lia|].
    rewrite Int64.wrap_id by (unfold Int64.in_range, Int64.min; lia). rewrite IH by (done || lia). lia.
Qed.

(** ** Requests keep the usage of a project the size of its blobs *)

Section Requests.
Context `{drv : Driver} (attempts : nat) (gc_window : Z) (fuel : nat) (r : ref) (i h hv : Z).

Abbreviation p := (project_of r).

Record accounted (s : store) : Prop := mkAccounted {
  ac_honest : honest (blob_store s);
  ac_calm : faults s = [];
  ac_usage : exists uv, has_quota s r i {[ResourceStorage := h]}
               {[ResourceStorage := project_size (blob_store s) p]} hv uv;
  ac_limit : h = UNLIMITED \/ project_size (blob_store s) p <= h;
}.

Lemma fits_storage n : fits {[ResourceStorage := h]} {[ResourceStorage := n]} <-> h = UNLIMITED \/ n <= h.
Proof.
  unfold fits. rewrite map_Forall_singleton, lookup_singleton_eq. split; [by intros (x & [= <-] & E)|by exists h].
Qed.

Lemma Add_storage u n : Int64.in_range (u + n) ->
  Add {[ResourceStorage := u]} {[ResourceStorage := n]} = {[ResourceStorage := u + n]}.
Proof.
  intros R. apply map_eq. intros k. rewrite lookup_Add. destruct (decide (k = ResourceStorage)) as [->|N].
  - rewrite !lookup_singleton_eq. by rewrite Int64.wrap_id.
  - by rewrite !lookup_singleton_ne.
Qed.

(** The rest of a chain touches no quota, and adds [n] bytes to the project if
    it succeeds. *)
Definition adds (b : Blob.store) (n : Z) (next : M store unit) : Prop :=
  (forall s, frame s (next s).2)
  /\ forall s, blob_store s = b ->
     honest (blob_store (next s).2)
     /\ project_size (blob_store (next s).2) p = project_size b p + (if is_ok (next s).1 then n else 0).

Lemma adds_wrapped b n next : adds b n next ->
  adds b n (res <- try next ;; match res with Ok _ => ret tt | Err _ => fail errNonSuccess end).
Proof.
  intros [F A]. split; intros s; [specialize (F s)|intros E; specialize (A s E)]; unfold bind, try;
    by destruct (next s) as [[]].
Qed.

Lemma set_usage_blob s used new uv : blob_store (set_usage s r i used new uv) = blob_store s.
Proof. unfold set_usage. by destruct (Equals used new). Qed.

Lemma accounted_frame s next n :
  accounted s -> adds (blob_store s) n next -> n = 0 -> accounted (next s).2.
Proof.
  intros [H F [uv Q] L] [Fr A] ->. destruct (A s eq_refl) as [H' S]. specialize (Fr s).
  assert (S' : project_size (blob_store (next s).2) p = project_size (blob_store s) p) by (rewrite S; destruct (is_ok _); lia).
  constructor; rewrite ?S'; [done|by apply (fr_faults _ _ Fr)| |done]. exists uv. by apply (frame_has s).
Qed.

Lemma Request_accounted s n next :
  accounted s -> 0 <= n -> project_size (blob_store s) p + n <= Int64.max -> adds (blob_store s) n next ->
  accounted (Request (S attempts) ByDB r {[ResourceStorage := n]} next s).2.
Proof.
  intros [H F [uv Q] L] P B [Fr A]. pose proof (project_size_nonneg (blob_store s) p H) as Pu.
  set (u := project_size (blob_store s) p) in *.
  assert (R : Int64.in_range u) by (unfold Int64.in_range, Int64.min; lia).
  assert (Eq : Add {[ResourceStorage := u]} {[ResourceStorage := n]} = {[ResourceStorage := u + n]}).
  { apply Add_storage. unfold Int64.in_range, Int64.min. lia. }
  assert (Ne : ({[ResourceStorage := n]} : ResourceList) <> ∅) by apply map_non_empty_singleton.
  destruct (decide (h = UNLIMITED \/ u + n <= h)) as [Fit|Fit].
  - destruct (request_granted attempts r i {[ResourceStorage := h]} {[ResourceStorage := u]} hv uv
      {[ResourceStorage := n]} next s F Q Ne (Fr _)) as [(uv1 & Q1) G].
    + by apply map_Forall_singleton.
    + by apply map_Forall_singleton.
    + by rewrite !dom_singleton_L.
    + rewrite Eq. by apply fits_storage.
    + cbv zeta in G. set (s1 := set_usage s r i _ _ uv) in *.
      destruct (A s1) as [H1 S1]; [apply set_usage_blob|]. fold u in S1.
      assert (F1 : faults (next s1).2 = []) by (apply (fr_faults _ _ (Fr s1)); unfold s1; by rewrite set_usage_faults).
      destruct (next s1).1 as [[]|e] eqn:E; cbn [is_ok] in S1.
      * destruct G as [G Q2]. rewrite G in *. cbn [snd] in *. rewrite Eq in Q2. by constructor; rewrite ?S1.
      * destruct G as (_ & (uv2 & G) & Q2). rewrite G in *. replace (u + 0) with u in S1 by lia.
        constructor; rewrite ?set_usage_blob, ?set_usage_faults, ?S1; [done..|]. destruct L; [by left|by right].
  - destruct (request_refused attempts r i {[ResourceStorage := h]} {[ResourceStorage := u]} hv uv
      {[ResourceStorage := n]} next s F Q Ne) as (e & E & _).
    + rewrite Eq. by rewrite fits_storage.
    + rewrite E. constructor; [done|done|by exists uv|done].
Qed.

(** What a request asks for: nothing for no bytes, or the bytes. *)
Definition asks (o : option ResourceList) (n : Z) : Prop := (o = None /\ n = 0) \/ o = Some {[ResourceStorage := n]}.

Lemma RequestMiddleware_accounted s (Resources : ref -> M store (option ResourceList)) next o n :
  accounted s -> Resources r s = (o, s) ->
  match o with
  | Err _ => True
  | Ok o => asks o n /\ 0 <= n /\ project_size (blob_store s) p + n <= Int64.max /\ adds (blob_store s) n next
  end ->
  accounted (RequestMiddleware (S attempts) ByDB (Ok r) (Ok true) Resources next s).2.
Proof.
  intros Ac E O. unfold RequestMiddleware. change (bind (of_result (Ok r)) ?k s) with (k r s).
  cbv beta. change (bind (of_result (Ok true)) ?k s) with (k true s). cbn [negb].
  unfold bind at 1. rewrite E. destruct o as [o|e]; [|done].
  destruct O as ([[-> N]| ->] & P & B & A); [by apply (accounted_frame s next n)|].
  assert ((size ({[ResourceStorage := n]} : ResourceList) =? 0)%nat = false) as -> by (by rewrite map_size_singleton).
  apply Request_accounted; [done..|]. by apply adds_wrapped.
Qed.

Lemma lift_frame {A} (m : M Blob.store A) s : frame s (lift_blob m s).2.
Proof. unfold lift_blob. by destruct (m (blob_store s)). Qed.

Lemma lift_adds b n (m : M Blob.store unit) : outcome p b n (m b) -> adds b n (lift_blob m).
Proof.
  intros [H S]. split; [intros s; apply lift_frame|]. intros s <-. unfold lift_blob.
  destruct (m (blob_store s)) as [res b']. by split.
Qed.

Lemma refused_adds b n d now e : honest b ->
  adds b n (lift_blob (Blob.probeBlob gc_window fuel d now) ;;; fail e).
Proof.
  intros H. pose proof (probe_kept gc_window fuel d now b H) as K. split.
  - intros s. pose proof (lift_frame (Blob.probeBlob gc_window fuel d now) s) as F. unfold bind.
    by destruct (lift_blob _ s) as [[]].
  - intros s <-. unfold bind, lift_blob.
    destruct (Blob.probeBlob gc_window fuel d now (blob_store s)) as [[[]|e1] b'] eqn:E; cbn in K |- *;
      (split; [apply K|]); rewrite (ke_size _ _ K); lia.
Qed.

(** A request that states the sizes of the contents and which of its layers are
    foreign, and uploads and mounts no foreign ones; a mount is granted by the
    registry; and a manifest lists its blobs once, and is in the project only
    with its blobs.  The sizes stay in 64 bits. *)
Definition truthful (s : store) (q : request) : Prop :=
  let b := blob_store s in
  match q with
  | PushBlob cl acc d _ _ =>
      (forall n, put_size cl acc = Ok n -> n = content d) /\ foreign d = false
      /\ project_size b p + content d <= Int64.max
  | StartUpload mount mounted =>
      (mount = "" \/ mounted = true) /\ foreign mount = false /\ project_size b p + content mount <= Int64.max
  | PushManifest _ d ct size refs _ _ =>
      let ds := (fun x : Blob.descriptor => x.1.1) <$> refs in
      size = content d /\ (ct =s= Blob.MediaTypeForeignLayer) = false /\ foreign d = false /\ Forall faithful refs /\ NoDup (d :: ds)
      /\ project_size b p + content d + costs b p ds <= Int64.max
      /\ (associated b p d = true -> costs b p ds = 0)
  end.

Context (p_nonzero : p <> 0).

Lemma lift_Exist s d : honest (blob_store s) -> (d =s= "") = false ->
  lift_blob (Blob.Exist d p "") s = (Ok (associated (blob_store s) p d), s).
Proof. intros H D. unfold lift_blob. rewrite Exist_associated by done. by destruct s. Qed.

Lemma push_accounted s cl acc d ok now :
  accounted s -> truthful s (PushBlob cl acc d ok now) ->
  accounted (serve (S attempts) gc_window fuel r (PushBlob cl acc d ok now) s).2.
Proof.
  intros Ac (T & Nf & B). pose proof (ac_honest s Ac) as H. cbn [serve]. unfold push_blob.
  assert (A : forall n, put_size cl acc = Ok n -> adds (blob_store s) (cost (blob_store s) p d)
    (if ok then size <- of_result (put_size cl acc) ;; lift_blob (Blob.put_blob_upload gc_window fuel d size p now)
     else lift_blob (Blob.probeBlob gc_window fuel d now) ;;; fail (Plain "DIGEST_INVALID"))).
  { intros n Pn. destruct ok; [|by apply refused_adds]. rewrite Pn, (T n Pn).
    apply (lift_adds _ _ (Blob.put_blob_upload gc_window fuel d (content d) p now)).
    by apply put_blob_upload_outcome. }
  pose proof (content_nonneg d) as Pd.
  destruct (put_size cl acc) as [n|e] eqn:Pn; cycle 1.
  { apply (RequestMiddleware_accounted s _ _ (Err e) 0); [done| |done]. unfold putBlobUploadResources. by rewrite Pn. }
  specialize (T n eq_refl). specialize (A n eq_refl). subst n.
  destruct (Z.eqb_spec (content d) 0) as [Z|Z].
  { apply (RequestMiddleware_accounted s _ _ (Ok None) 0); [done| |].
    - unfold putBlobUploadResources. rewrite Pn. cbn. apply Z.eqb_eq in Z. by rewrite Z.
    - split_and!; [by left|done|lia|]. replace 0 with (cost (blob_store s) p d); [exact A|].
      unfold cost. rewrite Z. by destruct (_ || _). }
  apply Z.eqb_neq in Z. destruct (d =s= "") eqn:D.
  { eapply (RequestMiddleware_accounted s _ _ (Err _) 0); [done| |done].
    unfold putBlobUploadResources. rewrite Pn. cbn. rewrite Z. unfold bind, lift_blob, Blob.Exist. rewrite D. by destruct s. }
  eapply (RequestMiddleware_accounted s _ _ (Ok _) (cost (blob_store s) p d)); [done| |].
  - unfold putBlobUploadResources. rewrite Pn. cbn [of_result]. change (bind (of_result (Ok ?n)) ?k s) with (k n s).
    cbv beta. rewrite Z. rewrite (bind_ok _ _ _ _ _ (lift_Exist s d H D)). done.
  - unfold cost, asks in *. rewrite Nf, orb_false_r in *. destruct (associated _ _ _); split_and!; try done; try lia; [by left|by right].
Qed.
Lemma upload_accounted s mount mounted :
  accounted s -> truthful s (StartUpload mount mounted) ->
  accounted (serve (S attempts) gc_window fuel r (StartUpload mount mounted) s).2.
Proof.
  intros Ac (T & Nf & B). pose proof (ac_honest s Ac) as H. cbn [serve]. unfold start_upload.
  pose proof (content_nonneg mount) as Pm. destruct (mount =s= "") eqn:M.
  { apply (RequestMiddleware_accounted s _ _ (Ok (Some {[ResourceStorage := 0]})) 0); [done| |].
    - unfold postInitiateBlobUploadResources. by rewrite M.
    - split_and!; [by right|done|lia|]. destruct mounted.
      + apply lift_adds. unfold Blob.mount_blob. rewrite M. split; [done|]. cbn. lia.
      + split; [intros s0; by split|]. intros s0 E. cbn. rewrite E. split; [done|lia]. }
  destruct T as [->| ->]; [done|].
  assert (A : adds (blob_store s) (cost (blob_store s) p mount) (lift_blob (Blob.mount_blob mount p))).
  { by apply lift_adds, mount_blob_outcome. }
  assert (G : lift_blob (Blob.ctl_Get mount 0 "") s = (match Blob.find_digest (blob_store s) mount with
    | Some x => Ok x | None => Err (WithMessage (NotFoundError None) ("blob " ++ mount ++ " not found")) end, s)).
  { unfold lift_blob. rewrite ctl_Get_any by done. by destruct s. }
  destruct (Blob.find_digest (blob_store s) mount) as [x|] eqn:F.
  - apply find_digest_spec in F as [L D]; [|done]. destruct (ho_size _ H _ _ L) as [Sx _].
    eapply (RequestMiddleware_accounted s _ _ (Ok _) (cost (blob_store s) p mount)); [done| |].
    + unfold postInitiateBlobUploadResources. rewrite M. unfold bind at 1, try. rewrite G. cbv beta iota.
      rewrite D. rewrite (bind_ok _ _ _ _ _ (lift_Exist s mount H M)). done.
    + unfold cost, asks in *. rewrite Nf, orb_false_r in *. rewrite Sx, D. destruct (associated _ _ _); split_and!; try done; try lia; [by left|by right].
  - apply (RequestMiddleware_accounted s _ _ (Ok None) 0); [done| |].
    + unfold postInitiateBlobUploadResources. rewrite M. unfold bind at 1, try. by rewrite G.
    + split_and!; [by left|done|lia|]. by apply lift_adds, mount_missing.
Qed.
Lemma manifest_accounted s repo d ct size refs ok now :
  accounted s -> truthful s (PushManifest repo d ct size refs ok now) ->
  accounted (serve (S attempts) gc_window fuel r (PushManifest repo d ct size refs ok now) s).2.
Proof.
  intros Ac (-> & C & Nf & W & N & B & T). pose proof (ac_honest s Ac) as H. cbn [serve]. unfold push_manifest.
  set (b := blob_store s) in *. set (ds := (fun x : Blob.descriptor => x.1.1) <$> refs) in *.
  pose proof (costs_nonneg b p ds) as Ps. pose proof (content_nonneg d) as Pd.
  destruct (d =s= "") eqn:D.
  { eapply (RequestMiddleware_accounted s _ _ (Err _) 0); [done| |done].
    unfold putManifestResources, bind, lift_blob, Blob.Exist. rewrite D. by destruct s. }
  assert (A : adds b (cost b p d + costs b p ds)
    (if ok then lift_blob (Blob.put_manifest gc_window fuel repo d ct (content d) refs p now)
     else lift_blob (Blob.probeBlob gc_window fuel d now) ;;; fail (Plain "MANIFEST_INVALID"))).
  { destruct ok; [|by apply refused_adds]. apply lift_adds, put_manifest_outcome; try done. by rewrite Nf. }
  destruct (associated b p d) eqn:X.
  - apply (RequestMiddleware_accounted s _ _ (Ok None) (cost b p d + costs b p ds)); [done| |].
    + unfold putManifestResources. rewrite (bind_ok _ _ _ _ _ (lift_Exist s d H D)). fold b. by rewrite X.
    + assert (cost b p d = 0) as E by (unfold cost; by rewrite X). rewrite (T eq_refl), E in *.
      split_and!; [by left|done|fold b; lia|exact A].
  - apply NoDup_cons in N as [_ N].
    assert (Ed : Blob.Digest <$> (reference_blob <$> refs) = ds) by (unfold ds; by rewrite <- list_fmap_compose).
    apply (RequestMiddleware_accounted s _ _ (Ok (Some {[ResourceStorage := content d + costs b p ds]}))
      (cost b p d + costs b p ds)); [done| |].
    + unfold putManifestResources. rewrite (bind_ok _ _ _ _ _ (lift_Exist s d H D)). fold b. rewrite X.
      rewrite (bind_ok _ _ _ (List.filter (fun x => negb (associated b p (Blob.Digest x))) (reference_blob <$> refs)) s).
      { unfold ret. do 4 f_equal. apply add_missing; [done..|].
        change (content d + costs b p ds <= Int64.max). pose proof (project_size_nonneg b p H). lia. }
      unfold lift_blob. fold b. rewrite FindMissing_spec by (done || by rewrite Ed). by destruct s.
    + assert (cost b p d = content d) as E by (unfold cost; by rewrite X, Nf). rewrite E in *.
      split_and!; [by right|lia|fold b; lia|exact A].
Qed.

(** One truthful request after another. *)
Definition served (s s' : store) : Prop :=
  exists q, truthful s q /\ s' = (serve (S attempts) gc_window fuel r q s).2.

Lemma served_accounted s s' : served s s' -> accounted s -> accounted s'.
Proof.
  intros ([] & T & ->) Ac; [by apply push_accounted|by apply upload_accounted|by apply manifest_accounted].
Qed.
End Requests.
End Sizes.

(** C17: the usage of a project stays the size of its blobs, and within its
    limit, under any sequence of pushes of blobs, starts of uploads, mounts and
    pushes of manifests, each of which may succeed, be denied by the quota, be
    refused by the registry or find a blob in garbage collection: what was
    reserved for a failed request is given back, and a successful one adds just
    what it reserved, foreign layers for nothing.  The conditions: no statement
    of the database fails; requests come one at a time; the sizes the clients
    state are those of the contents; foreign layers are neither uploaded nor
    mounted; a mount is one the registry grants; a manifest lists no blob
    twice; and a manifest whose blob is in the project brings nothing new with
    it.  [ungranted_mount_is_charged], [last_chunk_counts],
    [repeated_layer_is_charged_twice] and [manifest_pushed_as_blob] show what
    happens without the last four. *)
Theorem usage_is_project_size `{drv : Driver} content foreign attempts gc_window fuel r i h hv s s' :
  (forall d, 0 <= content d) -> project_of r <> 0 ->
  accounted content foreign r i h hv s ->
  rtc (served content foreign attempts gc_window fuel r) s s' ->
  (exists uv, has_quota s' r i {[ResourceStorage := h]}
     {[ResourceStorage := project_size (blob_store s') (project_of r)]} hv uv)
  /\ (h = UNLIMITED \/ project_size (blob_store s') (project_of r) <= h).
Proof.
  intros P N Ac R. assert (accounted content foreign r i h hv s') as [_ _ U L]; [|done].
  revert Ac. induction R as [|s s1 s' R1 _ IH]; [done|]. intros Ac. apply IH.
  by apply (served_accounted content foreign P attempts gc_window fuel r i h hv N s).
Qed.

(** Contents of 30, 5 and 200 bytes, and a foreign layer of 1000. *)
Definition sample_content (d : string) : Z :=
  if d =s= "sha256:a" then 30 else if d =s= "sha256:m" then 5 else if d =s= "sha256:b" then 200
  else if d =s= "sha256:w" then 1000 else 0.

Definition sample_foreign (d : string) : bool := d =s= "sha256:w".

Lemma sample_content_nonneg d : 0 <= sample_content d.
Proof. unfold sample_content. repeat destruct (_ =s= _); lia. Qed.

Lemma sample_accounted : accounted sample_content sample_foreign ("project", "1")%string 1 100 0 (sample_quota 100 0).
Proof.
  constructor; [|done|exists 0; apply sample_quota_has|right; by vm_compute].
  constructor; cbn; try done.
Qed.

Definition sample_manifest : request :=
  PushManifest "library/x" "sha256:m" "application/vnd.oci.image.manifest.v1+json" 5
    [("sha256:a", "application/vnd.oci.image.layer.v1.tar+gzip", 30); ("sha256:w", Blob.MediaTypeForeignLayer, 1000)]%string
    true 11.

(** A blob, a manifest of it and of a foreign layer, and a blob that does not
    fit: 35 bytes are used. *)
Lemma usage_is_project_size_witness :
  let r : ref := ("project", "1")%string in
  let run q s := (serve (drv := project_driver) 1 2 3 r q s).2 in
  let s1 := run (PushBlob "30" (Ok 0) "sha256:a" true 10) (sample_quota 100 0) in
  let s2 := run sample_manifest s1 in
  let s3 := run (PushBlob "" (Ok 200) "sha256:b" true 12) s2 in
  project_size (blob_store s3) 1 = 35 /\ associated (blob_store s3) 1 "sha256:w" = true
  /\ ((exists uv, has_quota s3 r 1 {[ResourceStorage := 100]} {[ResourceStorage := project_size (blob_store s3) (project_of r)]} 0 uv)
      /\ (100 = UNLIMITED \/ project_size (blob_store s3) (project_of r) <= 100)).
Proof.
  intros r run s1 s2 s3. split; [by vm_compute|]. split; [by vm_compute|].
  apply (usage_is_project_size (drv := project_driver) sample_content sample_foreign 0 2 3 r 1 100 0 (sample_quota 100 0) s3);
    [apply sample_content_nonneg|done|apply sample_accounted|].
  eapply rtc_l; [|eapply rtc_l; [|apply rtc_once]]; eexists; (split; [|reflexivity]).
  - split_and!; [intros n E; by injection E as <-|done|by vm_compute].
  - split_and!; [done|done|done|by repeat constructor| |by vm_compute|by vm_compute].
    apply (bool_decide_unpack _). by vm_compute.
  - split_and!; [intros n E; by injection E as <-|done|by vm_compute].
Defined.

(** ** Requests that are charged for other bytes than they store *)

(** A mount that the registry does not grant, for which it starts an upload and
    answers 202, is a success: the size of the blob stays reserved although the
    project does not get the blob. *)
Theorem ungranted_mount_is_charged `{drv : Driver} content foreign attempts r i h hv s mount x :
  (forall d, 0 <= content d) -> project_of r <> 0 ->
  accounted content foreign r i h hv s -> mount <> "" ->
  Blob.find_digest (blob_store s) mount = Some x -> associated (blob_store s) (project_of r) mount = false ->
  let size := project_size (blob_store s) (project_of r) in
  size + content mount <= Int64.max -> h = UNLIMITED \/ size + content mount <= h ->
  exists s' uv, start_upload (S attempts) ByDB r (Ok true) mount false s = (Ok tt, s')
  /\ blob_store s' = blob_store s
  /\ has_quota s' r i {[ResourceStorage := h]} {[ResourceStorage := size + content mount]} hv uv.
Proof.
  intros P N [H F [uv Q] L] M%String.eqb_neq Fd A size B Fit.
  pose proof (project_size_nonneg content foreign P (blob_store s) (project_of r) H) as Pu. fold size in Pu, Q.
  pose proof (P mount) as Pm. apply (find_digest_spec content foreign) in Fd as [Lx D]; [|done].
  destruct (ho_size content foreign _ H _ _ Lx) as [Sx _]. rewrite D in Sx.
  assert (Ne : ({[ResourceStorage := content mount]} : ResourceList) <> ∅) by apply map_non_empty_singleton.
  assert (Eq : Add {[ResourceStorage := size]} {[ResourceStorage := content mount]} = {[ResourceStorage := size + content mount]}).
  { apply Add_storage. unfold Int64.in_range, Int64.min. lia. }
  unfold start_upload, RequestMiddleware. change (bind (of_result (Ok ?a)) ?k s) with (k a s). cbv beta.
  change (bind (of_result (Ok true)) ?k s) with (k true s). cbn [negb].
  rewrite (bind_ok _ _ s (Some {[ResourceStorage := content mount]}) s).
  2:{ unfold postInitiateBlobUploadResources. rewrite M. unfold bind at 1, try, lift_blob at 1.
      rewrite (ctl_Get_any content foreign) by done.
      rewrite (proj2 (find_digest_spec content foreign (blob_store s) mount x H)) by done.
      change (with_blob_store s (blob_store s)) with (with_blob_store s (blob_store s)).
      replace (with_blob_store s (blob_store s)) with s by (by destruct s). cbv beta iota.
      rewrite D. rewrite (bind_ok _ _ _ _ _ (lift_Exist content foreign r N s mount H M)). by rewrite A, Sx. }
  assert ((base.size ({[ResourceStorage := content mount]} : ResourceList) =? 0)%nat = false) as -> by (by rewrite map_size_singleton).
  set (f := (res <- try (ret tt) ;; _)).
  destruct (request_granted attempts r i {[ResourceStorage := h]} {[ResourceStorage := size]} hv uv
    {[ResourceStorage := content mount]} f s F Q Ne) as [_ G].
  - by split.
  - apply map_Forall_singleton. unfold Int64.in_range, Int64.min. lia.
  - by apply map_Forall_singleton.
  - by rewrite !dom_singleton_L.
  - rewrite Eq. by apply fits_storage.
  - cbv zeta in G. set (s1 := set_usage _ _ _ _ _ _) in G. change (f s1) with (@Ok unit tt, s1) in G.
    cbn [fst snd] in G. destruct G as [E1 [uv' G]]. rewrite E1 in G |- *. cbn [snd] in G. rewrite Eq in G.
    exists s1, uv'. split; [done|].
    split; [apply set_usage_blob|exact G].
Qed.

(** The end of an upload in chunks, of 1000 bytes so far and 1 byte in the last
    request, is charged for 1 byte, and the blob is recorded with that size. *)
Lemma last_chunk_counts :
  let r : ref := ("project", "1")%string in
  let res := serve (drv := project_driver) 1 2 3 r (PushBlob "1" (Ok 1000) "sha256:c" true 10) (sample_quota 100 0) in
  res.1 = Ok tt /\ project_size (blob_store res.2) 1 = 1
  /\ (usages res.2 !! r) = Some (mkRow 1 {[ResourceStorage := 1]} 1).
Proof. split_and!; by vm_compute. Qed.

(** A manifest that lists a layer twice is charged for it twice, and stores it
    once. *)
Lemma repeated_layer_is_charged_twice :
  let r : ref := ("project", "1")%string in
  let layer := ("sha256:a", "application/vnd.oci.image.layer.v1.tar+gzip", 30)%string in
  let res := serve (drv := project_driver) 1 2 3 r
    (PushManifest "library/x" "sha256:m" "application/vnd.oci.image.manifest.v1+json" 5 [layer; layer] true 11)
    (sample_quota 100 0) in
  res.1 = Ok tt /\ project_size (blob_store res.2) 1 = 35
  /\ (r_list <$> usages res.2 !! r) = Some {[ResourceStorage := 65]}.
Proof. split_and!; by vm_compute. Qed.

(** A manifest that is in the project is taken to be there with its blobs.  After
    an artifact is deleted, and its blobs are taken from the project, its
    manifest can be pushed as a blob for 5 bytes, and then as a manifest, which
    brings the blob of 30 bytes back for nothing. *)
Lemma manifest_pushed_as_blob :
  let r : ref := ("project", "1")%string in
  let run q s := (serve (drv := project_driver) 1 2 3 r q s).2 in
  let manifest := PushManifest "library/x" "sha256:m" "application/vnd.oci.image.manifest.v1+json" 5
                    [("sha256:a", "application/vnd.oci.image.layer.v1.tar+gzip", 30)]%string true 11 in
  let s1 := run manifest (run (PushBlob "30" (Ok 0) "sha256:a" true 10) (sample_quota 100 0)) in
  let s2 := ((lift_blob (Blob.DeleteProjectBlob 1 [1; 2]) ;;; Refresh (drv := project_driver) 1 ByDB r true) s1).2 in
  let s3 := run manifest (run (PushBlob "5" (Ok 0) "sha256:m" true 12) s2) in
  (r_list <$> usages s2 !! r) = Some {[ResourceStorage := 0]}
  /\ project_size (blob_store s3) 1 = 35
  /\ (r_list <$> usages s3 !! r) = Some {[ResourceStorage := 5]}.
Proof. split_and!; by vm_compute. Qed.

(** An upload of one byte is reported by the registry as one of none, and both
    are recorded as having none. *)
Lemma one_byte_is_none :
  parseAcceptedBlobSize "0-0" = Ok 0 /\ parseAcceptedBlobSize "0-1" = Ok 2
  /\ put_size "0" (parseAcceptedBlobSize "0-0") = Ok 0.
Proof. done. Qed.
