(* ===== verification/RetentionRun.v ===== *)
(** * Tag retention: launching runs and running jobs

    [src/pkg/retention/launcher.go] (a run of a policy becomes one task for each
    repository), the runs of [src/controller/retention], the job of
    [src/pkg/retention/job.go] around the processor of [Retention], the
    candidates that its client lists, and the processing of its check-in.

    Projects, repositories and artifacts are read through parameters.  A Go map
    is a list without repeated keys, which is walked in any order. *)

From S2P Require Import Prelude Errors JobStatus TaskDao TaskManager.
From S2P Require Retention Artifact Blob Quota.

Abbreviation SelectorMeta := Retention.SelectorMeta.
Abbreviation Candidate := Retention.Candidate.

Definition RetentionVendorType : string := "RETENTION".

(** ** Data *)

(** [selector.Repository] *)
Record Repo := mkRepo {
  rp_NamespaceID : Z;
  rp_Namespace : string;
  rp_Name : string;
  rp_Kind : string;
}.

#[global] Instance Repo_eq_dec : EqDecision Repo.
Proof. solve_decision. Defined.

(** [rule.Metadata]; what [Retention.Build] reads of it is a field. *)
Record Rule := mkRule {
  rl_ID : Z;
  rl_Priority : Z;
  rl_Disabled : bool;
  rl_Meta : Retention.RuleMeta;
  rl_ScopeSelectors : gmap string (list SelectorMeta);
}.

Record Scope := mkScope { sc_Level : string; sc_Reference : Z }.

(** [policy.Metadata], without its trigger. *)
Record PolicyMeta := mkPolicyMeta {
  pm_ID : Z;
  pm_Algorithm : string;
  pm_Rules : list Rule;
  pm_Scope : option Scope;
}.

(** [lwp.Metadata], what a job gets of the policy. *)
Record LiteMeta := mkLiteMeta { lm_Algorithm : string; lm_Rules : list Rule }.

Definition launcherError (e : error) : error := Wrap e "launcher".

Section Launcher.

Context (doublestar_Match : string -> string -> result bool) (parse_untagged : string -> option bool).
(** The projects, and the names of the repositories of a project. *)
Context (projects : result (list (Z * string))) (repositories : Z -> result (list string)).

Definition project_candidate (id : Z) (name : string) : Candidate :=
  Retention.mkCandidate id name "" "" [] "" 0 0 0 [].

Definition getProjects : result (list Candidate) :=
  match projects with
  | Err e => Err e
  | Ok l => Ok ((fun p => project_candidate p.1 p.2) <$> l)
  end.

Definition repository_candidate (projectID : Z) (name : string) : Candidate :=
  let p := Artifact.ParseRepository name in
  Retention.mkCandidate projectID p.1 p.2 "image" [] "" 0 0 0 [].

Definition getRepositories (projectID : Z) : result (list Candidate) :=
  match repositories projectID with
  | Err e => Err e
  | Ok l => Ok (repository_candidate projectID <$> l)
  end.

(** The loops over the selectors of a scope; [extras] is what each is given. *)
Fixpoint select_all (extras : SelectorMeta -> string) (ms : list SelectorMeta) (cands : list Candidate)
  : result (list Candidate) :=
  match ms with
  | [] => Ok cands
  | m :: ms' =>
      match Retention.run_selector doublestar_Match parse_untagged m (extras m) cands with
      | Err e => Err e
      | Ok l => select_all extras ms' l
      end
  end.

Definition scope_selectors (rule : Rule) (key : string) : list SelectorMeta := default [] (rl_ScopeSelectors rule !! key).

Definition project_candidates (scope : Scope) (allProjects : list Candidate) (rule : Rule) : result (list Candidate) :=
  if sc_Level scope =s= "system" then select_all (fun _ => "") (scope_selectors rule "project") allProjects
  else if sc_Level scope =s= "project" then Ok (allProjects ++ [project_candidate (sc_Reference scope) ""])
  else Ok allProjects.

Fixpoint all_repositories (ps : list Candidate) : result (list Candidate) :=
  match ps with
  | [] => Ok []
  | c :: ps' =>
      match getRepositories (Retention.NamespaceID c) with
      | Err e => Err e
      | Ok l => match all_repositories ps' with Err e => Err e | Ok l' => Ok (l ++ l') end
      end
  end.

(** The repositories that a rule is for. *)
Definition rule_candidates (scope : Scope) (allProjects : list Candidate) (rule : Rule) : result (list Candidate) :=
  match project_candidates scope allProjects rule with
  | Err e => Err e
  | Ok ps =>
      match all_repositories ps with
      | Err e => Err e
      | Ok l => select_all Retention.s_Extras (scope_selectors rule "repository") l
      end
  end.

Definition to_repo (c : Candidate) : Repo :=
  mkRepo (Retention.NamespaceID c) (Retention.Namespace c) (Retention.Repository c) (Retention.Kind c).

(** [repositoryRules] *)
Definition rules_map : Type := list (Repo * list Rule).

Fixpoint add_rule (rule : Rule) (m : rules_map) (k : Repo) : rules_map :=
  match m with
  | [] => [(k, [rule])]
  | (k', rs) :: m' => if decide (k' = k) then (k', rs ++ [rule]) :: m' else (k', rs) :: add_rule rule m' k
  end.

Fixpoint launch_rules (scope : Scope) (allProjects : list Candidate) (rules : list Rule) (m : rules_map)
  : result rules_map :=
  match rules with
  | [] => Ok m
  | rule :: rules' =>
      if rl_Disabled rule then launch_rules scope allProjects rules' m
      else
        match rule_candidates scope allProjects rule with
        | Err e => Err e
        | Ok l => launch_rules scope allProjects rules' (foldl (add_rule rule) m (to_repo <$> l))
        end
  end.

(** *** Jobs *)

(** The JSON of a repository and of the policy of a job; the order in which a map
    is walked. *)
Context (repo_json : Repo -> result string) (lite_json : LiteMeta -> result string).
Context (shuffle : rules_map -> rules_map).

Definition params : Type := list (string * string).

Definition ParamRepo : string := "repository".
Definition ParamMeta : string := "liteMeta".
Definition ParamDryRun : string := "dryRun".

Definition format_bool (b : bool) : string := if b then "true" else "false".

Definition job_params (isDryRun : bool) (algorithm : string) (x : Repo * list Rule) : result (Repo * params) :=
  match repo_json x.1 with
  | Err e => Err e
  | Ok r =>
      match lite_json (mkLiteMeta algorithm x.2) with
      | Err e => Err e
      | Ok m => Ok (x.1, [(ParamDryRun, format_bool isDryRun); (ParamRepo, r); (ParamMeta, m)])
      end
  end.

Fixpoint all_params (isDryRun : bool) (algorithm : string) (l : rules_map) : result (list (Repo * params)) :=
  match l with
  | [] => Ok []
  | x :: l' =>
      match job_params isDryRun algorithm x with
      | Err e => Err e
      | Ok j => match all_params isDryRun algorithm l' with Err e => Err e | Ok js => Ok (j :: js) end
      end
  end.

Definition createJobs (repositoryRules : rules_map) (isDryRun : bool) (algorithm : string) : result (list (Repo * params)) :=
  all_params isDryRun algorithm (shuffle repositoryRules).

Context (SubmitJob : JobData -> result string) (PostAction : string -> string -> result unit).
Context (Marshal : list (string * string) -> result string) (coreURL : string).

Definition retention_job (ps : params) : Job :=
  mkJob RetentionVendorType (Some ps) (Some (mkJobMetadata "Generic" 0 "" false)).

Definition retention_attrs (isDryRun : bool) (repository : string) : list (string * string) :=
  [("repository", repository); ("dry_run", format_bool isDryRun)].

Definition submitTasks (executionID : Z) (isDryRun : bool) (now : Z) (jobDatas : list (Repo * params)) : M mgr unit :=
  iterM (fun j => Create SubmitJob Marshal [] coreURL executionID (retention_job j.2)
                    (Some (retention_attrs isDryRun (rp_Name j.1))) now ;;; ret tt) jobDatas.

Definition wrap_launcher {A} (m : M mgr A) : M mgr A := fun s =>
  match m s with (Err e, s') => (Err (launcherError e), s') | x => x end.

Definition Launch (ply : option PolicyMeta) (executionID : Z) (isDryRun : bool) (now : Z) : M mgr Z :=
  match ply with
  | None => fail (launcherError (Plain "the policy is nil"))
  | Some ply =>
      if (length (pm_Rules ply) =? 0)%nat then ret 0
      else
        match pm_Scope ply with
        | None => fail (launcherError (Plain "the scope of policy is nil"))
        | Some scope =>
            wrap_launcher (
              allProjects <- of_result (if sc_Level scope =s= "system" then getProjects else Ok []) ;;
              repositoryRules <- of_result (launch_rules scope allProjects (pm_Rules ply) []) ;;
              jobDatas <- of_result (createJobs repositoryRules isDryRun (pm_Algorithm ply)) ;;
              if (length jobDatas =? 0)%nat then ret 0
              else submitTasks executionID isDryRun now jobDatas ;;; ret (Z.of_nat (length jobDatas)))
        end
  end.

Definition Launcher_Stop (executionID now : Z) : M mgr unit :=
  if executionID <=? 0 then fail (launcherError (Plain ("invalid execution ID: " ++ Strconv.format_int executionID)))
  else Stop PostAction executionID now.

(** ** Runs ([src/controller/retention/controller.go]) *)

(** [TriggerRetentionExec], which leaves the rest to a process in the background. *)
Definition TriggerRetentionExec (policy : result PolicyMeta) (policyID : Z) (trigger operator : string) (dryRun : bool) (now : Z)
  : M mgr Z :=
  p <- of_result policy ;;
  CreateExecution Marshal [] RetentionVendorType policyID trigger
    (Some [("dry_run", format_bool dryRun); ("operator", operator)]) now.

Definition no_resources : string := "no resources for retention".

(** The process: [attempts] is how often it looks for the execution before the
    time-out, [world] what happens between the checks of stopping. *)
Definition background (attempts : nat) (p : PolicyMeta) (id : Z) (dryRun : bool) (now : Z) (world : list (mgr -> mgr))
  : M mgr unit :=
  r <- try (Retry attempts None (lift (exec_Get id) ;;; ret tt)) ;;
  match r with
  | Err e =>
      try (MarkError id ("failed to wait the execution record to be inserted: " ++ Error_string e) now) ;;; ret tt
  | Ok _ =>
      r <- try (Launch (Some p) id dryRun now) ;;
      match r with
      | Err e => try (StopAndWaitWithError PostAction id now world (Some e)) ;;; ret tt
      | Ok num => if num =? 0 then try (MarkDone id no_resources now) ;;; ret tt else ret tt
      end
  end.

Definition OperateRetentionExec (eid : Z) (action : string) (now : Z) : M mgr unit :=
  lift (exec_Get eid) ;;;
  if action =s= "stop" then Launcher_Stop eid now else fail (Plain ("not support action " ++ action)).

(** [retentionCallback] of a schedule, with the parameter decoded. *)
Definition retentionCallback (param : result (Z * string * string)) (policy : Z -> result PolicyMeta) (now : Z) : M mgr unit :=
  match param with
  | Err e => fail (Plain ("failed to unmarshal the param: " ++ Error_string e))
  | Ok (policyID, trigger, operator) =>
      TriggerRetentionExec (policy policyID) policyID trigger operator false now ;;; ret tt
  end.

End Launcher.

(** ** The job ([job.go]) *)

Section Job.

(** Decoding of the parameters. *)
Context (repo_of : string -> result Repo) (lite_of : string -> result LiteMeta).

Fixpoint param (name : string) (ps : params) : option string :=
  match ps with
  | [] => None
  | (k, v) :: ps' => if k =s= name then Some v else param name ps'
  end.

Definition missing_parameter (name : string) : error := New ("missing parameter: " ++ name).

Definition getParamDryRun (ps : params) : result bool :=
  match param ParamDryRun ps with
  | None => Err (missing_parameter ParamDryRun)
  | Some v => if v =s= "true" then Ok true else if v =s= "false" then Ok false
              else Err (New ("invalid parameter: " ++ ParamDryRun))
  end.

Definition getParamRepo (ps : params) : result Repo :=
  match param ParamRepo ps with
  | None => Err (missing_parameter ParamRepo)
  | Some v => match repo_of v with Err e => Err (Wrap e "parse repository from JSON") | Ok r => Ok r end
  end.

Definition getParamMeta (ps : params) : result LiteMeta :=
  match param ParamMeta ps with
  | None => Err (missing_parameter ParamMeta)
  | Some v => match lite_of v with Err e => Err (Wrap e "parse retention policy from JSON") | Ok r => Ok r end
  end.

Definition Validate (ps : params) : result unit :=
  match getParamRepo ps with
  | Err e => Err e
  | Ok _ => match getParamMeta ps with
            | Err e => Err e
            | Ok _ => match getParamDryRun ps with Err e => Err e | Ok _ => Ok tt end
            end
  end.

(** An artifact as the API lists it: its tags with their pull and push times. *)
Record ApiArtifact := mkApiArtifact {
  aa_Digest : string;
  aa_Labels : list string;
  aa_Tags : list (string * Z * Z);
  aa_PushTime : Z;
  aa_PullTime : Z;
}.

Context (ListAllArtifacts : string -> string -> result (list ApiArtifact)).

(** [t.After(latest)] for each tag in turn. *)
Definition latest (start : Z) (times : list Z) : Z := foldl (fun l t => if t >? l then t else l) start times.

Definition to_candidate (r : Repo) (art : ApiArtifact) : Candidate :=
  Retention.mkCandidate (rp_NamespaceID r) (rp_Namespace r) (rp_Name r) "image" ((fun t => t.1.1) <$> aa_Tags art)
    (aa_Digest art) (latest (aa_PushTime art) (snd <$> aa_Tags art))
    (latest (aa_PullTime art) ((fun t => t.1.2) <$> aa_Tags art)) (aa_PushTime art) (aa_Labels art).

Fixpoint to_candidates (r : Repo) (arts : list ApiArtifact) : result (list Candidate) :=
  match arts with
  | [] => Ok []
  | art :: arts' =>
      if aa_Digest art =s= "" then Err (Plain ("lack digest of candidate for " ++ rp_Namespace r ++ "/" ++ rp_Name r))
      else match to_candidates r arts' with Err e => Err e | Ok l => Ok (to_candidate r art :: l) end
  end.

Definition GetCandidates (r : Repo) : result (list Candidate) :=
  if rp_Kind r =s= "image" then
    match ListAllArtifacts (rp_Namespace r) (rp_Name r) with
    | Err e => Err e
    | Ok arts => to_candidates r arts
    end
  else Err (Plain ("unsupported repository kind: " ++ rp_Kind r)).

Context (sort_by : (Candidate -> Z) -> list Candidate -> list Candidate) (now : Z).
Context (doublestar_Match : string -> string -> result bool) (parse_untagged : string -> option bool).
Context (immutable_rules : Z -> result (list Retention.ImmutableRule)) (Delete_ : Candidate -> option error).

Definition results : Type := list (Candidate * Retention.outcome).

Definition logError (e : error) : error := Wrap e "retention job".

(** [Run] of a job whose parameters were validated: what a run can end with, the
    error or the candidates with the results, none when it was stopped at one of
    its two checks. *)
Definition Run (ps : params) (stopped1 stopped2 : bool) (out : result (option (list Candidate * results))) : Prop :=
  exists repo liteMeta isDryRun,
    getParamRepo ps = Ok repo /\ getParamMeta ps = Ok liteMeta /\ getParamDryRun ps = Ok isDryRun
    /\ if stopped1 then out = Ok None
       else match GetCandidates repo with
            | Err e => out = Err (logError e)
            | Ok all =>
                match Retention.Build parse_untagged (lm_Algorithm liteMeta) (rl_Meta <$> lm_Rules liteMeta) with
                | Err e => out = Err (logError e)
                | Ok rules =>
                    if stopped2 then out = Ok None
                    else exists res,
                      Retention.Process_run (Retention.run_rule sort_by now doublestar_Match all)
                        (Retention.Perform sort_by now doublestar_Match parse_untagged immutable_rules Delete_ all isDryRun)
                        all rules res
                      /\ out = match res with Err e => Err (logError e) | Ok l => Ok (Some (all, l)) end
                end
            end.

End Job.

(** The object that the job checks in: total, retained, dry run, deleted. *)
Definition no_error (o : Retention.outcome) : bool :=
  match o with Retention.Deleted | Retention.DryRun => true | _ => false end.

Definition saveRetainNum (all : list Candidate) (res : results) (isDryRun : bool) : Z * Z * bool * list Candidate :=
  let realDelete := fst <$> List.filter (fun r => no_error r.2) res in
  (Z.of_nat (length all), Z.of_nat (length all) - Z.of_nat (length realDelete), isDryRun, realDelete).

(** [refreshQuota], over the projects in some order. *)
Definition result_projects (res : results) : gset Z := list_to_set ((fun r => Retention.NamespaceID r.1) <$> res).

Definition refreshQuota `{Quota.Driver} (attempts : nat) (prov : Quota.provider) (walk : gset Z -> list Z) (res : results)
  : M Quota.store unit :=
  iterM (fun pid => Quota.Refresh attempts prov ("project"%string, Strconv.format_int pid) false) (walk (result_projects res)).

(** ** The check-in ([callback.go]) *)

(** [parse]: total and retained of the check-in; [with_counts]: the attributes
    with both. *)
Definition retentionTaskCheckInProcessor (parse : string -> result (Z * Z)) (with_counts : string -> Z -> Z -> result string)
    (t : Task) (sc : event) : M db unit :=
  if ev_CheckIn sc =s= "" then ret tt
  else
    c <- of_result (parse (ev_CheckIn sc)) ;;
    t <- task_Get (t_ID t) ;;
    data <- of_result (with_counts (t_ExtraAttrs t) c.1 c.2) ;;
    task_Update (t_ID t) (fun x => mkTask (t_ID x) (t_VendorType x) (t_ExecutionID x) (t_JobID x) (t_Status x)
      (t_StatusCode x) (t_StatusRevision x) (t_StatusMessage x) (t_RunCount x) data (t_CreationTime x)
      (t_StartTime x) (t_UpdateTime x) (t_EndTime x)).
