(* ===== verification/RetentionRunSpec.v ===== *)
(** * Tag retention: what a run does

    A launch submits one job for each repository that an enabled rule selects,
    with the rules that select it; a job deletes only what no rule it was given
    retains and no immutable rule protects; and what runs do otherwise than they
    mean to. *)

From S2P Require Import Prelude Errors JobStatus TaskDao TaskManager RetentionRun.
From S2P Require Retention Artifact.

(** ** The map of the rules of each repository *)

Fixpoint rules_at (m : rules_map) (k : Repo) : list Rule :=
  match m with
  | [] => []
  | (k', rs) :: m' => if decide (k' = k) then rs else rules_at m' k
  end.

Record wf_map (m : rules_map) : Prop := mkWf {
  wf_keys : NoDup m.*1;
  wf_rules : Forall (fun x => x.2 <> []) m;
}.

Lemma rules_at_add rule m k0 k :
  rules_at (add_rule rule m k0) k = rules_at m k ++ (if decide (k0 = k) then [rule] else []).
Proof.
  induction m as [|[k' rs] m IH]; cbn; [by destruct (decide (k0 = k))|].
  destruct (decide (k' = k0)) as [->|N]; cbn.
  - destruct (decide (k0 = k)); [done|by rewrite app_nil_r].
  - destruct (decide (k' = k)) as [->|]; [|exact IH]. rewrite decide_False by congruence. by rewrite app_nil_r.
Qed.

Lemma add_rule_keys rule m k0 k : k ∈ (add_rule rule m k0).*1 <-> k ∈ m.*1 \/ k = k0.
Proof.
  induction m as [|[k' rs] m IH]; cbn; [set_solver|].
  destruct (decide (k' = k0)) as [->|]; cbn; [set_solver|]. rewrite !elem_of_cons, IH. tauto.
Qed.

Lemma add_rule_wf rule m k : wf_map m -> wf_map (add_rule rule m k).
Proof.
  intros [N R]. induction m as [|[k' rs] m IH]; cbn.
  { split; [apply NoDup_singleton|by repeat constructor]. }
  apply NoDup_cons in N as [N1 N2]. apply Forall_cons in R as [R1 R2].
  destruct (decide (k' = k)) as [->|Nk]; cbn.
  - split; [by apply NoDup_cons|]. constructor; [|done]. cbn. by destruct rs.
  - destruct (IH N2 R2) as [I1 I2]. split; [|by constructor]. cbn. apply NoDup_cons. split; [|done].
    rewrite add_rule_keys. intros [|]; [done|congruence].
Qed.

Lemma rules_at_elem m k rs : wf_map m -> (k, rs) ∈ m <-> rules_at m k = rs /\ rs <> [].
Proof.
  intros [N R]. induction m as [|[k' rs'] m IH]; cbn.
  { split; [by intros ?%elem_of_nil|by intros [<- ?]]. }
  apply NoDup_cons in N as [N1 N2]. apply Forall_cons in R as [R1 R2]. rewrite elem_of_cons, (IH N2 R2).
  destruct (decide (k' = k)) as [->|Nk].
  - split; [intros [[= ->]|[E ?]]|intros [-> ?]; by left]; [by split|]. exfalso. apply N1. apply list_elem_of_fmap.
    exists (k, rs). split; [done|]. by apply IH.
  - split; [intros [[= -> ->]|?]; [done|done]|by right].
Qed.

Section Launch.

Context (doublestar_Match : string -> string -> result bool) (parse_untagged : string -> option bool).
Context (projects : result (list (Z * string))) (repositories : Z -> result (list string)).
Context (scope : Scope) (allProjects : list Candidate).

Abbreviation rule_candidates := (rule_candidates doublestar_Match parse_untagged repositories scope allProjects).

(** A rule that is on and is for the repository. *)
Definition selects (k : Repo) (rule : Rule) : bool :=
  negb (rl_Disabled rule)
  && match rule_candidates rule with Ok l => bool_decide (k ∈ to_repo <$> l) | Err _ => false end.

(** The selection by each rule that is on succeeds, and names no repository twice. *)
Definition selectable (rules : list Rule) : Prop :=
  forall rule, rule ∈ rules -> rl_Disabled rule = false ->
    exists l, rule_candidates rule = Ok l /\ NoDup (to_repo <$> l).

Lemma rules_at_fold rule ks m k :
  NoDup ks -> rules_at (foldl (add_rule rule) m ks) k = rules_at m k ++ (if decide (k ∈ ks) then [rule] else []).
Proof.
  revert m. induction ks as [|k0 ks IH]; intros m N; cbn; [by rewrite app_nil_r|].
  apply NoDup_cons in N as [N1 N2]. rewrite (IH _ N2), rules_at_add, <- app_assoc. f_equal.
  destruct (decide (k0 = k)) as [->|Nk].
  - rewrite decide_False by done. rewrite decide_True by left. done.
  - cbn. destruct (decide (k ∈ ks)); [by rewrite decide_True by (by right)|].
    rewrite decide_False; [done|]. by intros [|]%elem_of_cons.
Qed.

Lemma fold_wf rule ks m : wf_map m -> wf_map (foldl (add_rule rule) m ks).
Proof. revert m. induction ks as [|k ks IH]; intros m W; [done|]. by apply IH, add_rule_wf. Qed.

Lemma launch_rules_ok rules m :
  selectable rules -> wf_map m ->
  exists m', launch_rules doublestar_Match parse_untagged repositories scope allProjects rules m = Ok m'
  /\ wf_map m' /\ forall k, rules_at m' k = rules_at m k ++ List.filter (selects k) rules.
Proof.
  revert m. induction rules as [|rule rules IH]; intros m S W.
  { exists m. split_and!; [done..|]. intros k. by rewrite app_nil_r. }
  assert (S' : selectable rules) by (intros r Hr; apply S; by right). cbn [launch_rules List.filter].
  destruct (rl_Disabled rule) eqn:D.
  { destruct (IH m S' W) as (m' & E & W' & R). exists m'. split_and!; [done..|]. intros k. unfold selects at 1. by rewrite D. }
  destruct (S rule) as (l & El & Nl); [left|done|]. rewrite El.
  destruct (IH (foldl (add_rule rule) m (to_repo <$> l)) S' (fold_wf _ _ _ W)) as (m' & E & W' & R).
  exists m'. split_and!; [done..|]. intros k. rewrite R, rules_at_fold by done. rewrite <- app_assoc. f_equal.
  unfold selects at 2. rewrite D, El. cbn [negb andb]. destruct (decide (k ∈ to_repo <$> l)) as [H|H].
  - by rewrite bool_decide_eq_true_2.
  - by rewrite bool_decide_eq_false_2.
Qed.

(** *** Submitting *)

Context (repo_json : Repo -> result string) (lite_json : LiteMeta -> result string) (shuffle : rules_map -> rules_map).
Context (SubmitJob : JobData -> result string) (Marshal : list (string * string) -> result string) (coreURL : string).
Context (rj : Repo -> string) (lj : LiteMeta -> string) (md : list (string * string) -> string) (jid : JobData -> string).
Context (Hrj : forall r, repo_json r = Ok (rj r)) (Hlj : forall l, lite_json l = Ok (lj l)).
Context (Hmd : forall a, Marshal a = Ok (md a)) (Hjid : forall jd, SubmitJob jd = Ok (jid jd)).
Context (shuffle_perm : forall m, shuffle m ≡ₚ m).

Definition params_of (dry : bool) (algorithm : string) (x : Repo * list Rule) : params :=
  [(ParamDryRun, format_bool dry); (ParamRepo, rj x.1); (ParamMeta, lj (mkLiteMeta algorithm x.2))].

Lemma all_params_ok dry algorithm l :
  all_params repo_json lite_json dry algorithm l = Ok ((fun x => (x.1, params_of dry algorithm x)) <$> l).
Proof.
  induction l as [|x l IH]; [done|]. cbn [all_params]. unfold job_params. rewrite Hrj, Hlj, IH. done.
Qed.

Definition fresh_tasks (d : db) : Prop := forall i, next_task d <= i -> tasks d !! i = None.

(** The jobs as they reach the job service, numbered from the next task. *)
Definition job_datas (n : Z) (l : list (Repo * params)) : list JobData :=
  imap (fun i j => job_data coreURL (n + Z.of_nat i) (retention_job j.2)) l.

Lemma job_datas_cons n j l : job_datas n (j :: l) = job_data coreURL n (retention_job j.2) :: job_datas (n + 1) l.
Proof.
  unfold job_datas. cbn [imap]. f_equal; [by rewrite Z.add_0_r|]. apply imap_ext. intros i x _. unfold compose.
  by replace (n + Z.of_nat (S i)) with (n + 1 + Z.of_nat i) by lia.
Qed.

Lemma submitTasks_calm executionID dry now x l g :
  TaskDao.quiet (mdb g) -> fresh_tasks (mdb g) -> execs (mdb g) !! executionID = Some x ->
  exists g', submitTasks SubmitJob Marshal coreURL executionID dry now l g = (Ok tt, g')
  /\ submitted g' = submitted g ++ job_datas (next_task (mdb g)) l
  /\ execs (mdb g') = execs (mdb g) /\ actions g' = actions g
  /\ (forall i j, l !! i = Some j -> exists t, tasks (mdb g') !! (next_task (mdb g) + Z.of_nat i) = Some t
        /\ t_ExecutionID t = executionID /\ t_Status t = Status.PendingStatus
        /\ t_ExtraAttrs t = md (retention_attrs dry (rp_Name j.1)))
  /\ (forall i, i < next_task (mdb g) -> tasks (mdb g') !! i = tasks (mdb g) !! i).
Proof.
  revert g. induction l as [|j l IH]; intros g Q F E.
  { exists g. split_and!; try done. unfold job_datas. cbn. by rewrite app_nil_r. }
  unfold submitTasks. cbn [iterM].
  set (n := next_task (mdb g)). set (jd := job_data coreURL n (retention_job j.2)).
  set (data := md (retention_attrs dry (rp_Name j.1))).
  set (g1 := mkMgr (mkDb (execs (mdb g)) (<[n := new_task n executionID x (jid jd) data now]> (tasks (mdb g)))
    (next_exec (mdb g)) (n + 1) (outdate (mdb g)) (faults (mdb g)) (db_down (mdb g))) (submitted g ++ [jd]) (actions g)).
  assert (C : (Create SubmitJob Marshal [] coreURL executionID (retention_job j.2)
      (Some (retention_attrs dry (rp_Name j.1))) now ;;; ret tt) g = (Ok tt, g1)).
  { unfold bind. rewrite (create_quiet SubmitJob Marshal [] coreURL executionID (retention_job j.2)
      (Some (retention_attrs dry (rp_Name j.1))) data now g x) by (done || by apply F; lia || apply Hmd).
    fold n jd. rewrite Hjid. done. }
  rewrite (bind_ok _ _ _ _ _ C). destruct (IH g1) as (g' & E' & S & X & A & T & K).
  { exact Q. } { intros i Hi. cbn in Hi |- *. rewrite lookup_insert_ne by lia. apply F. fold n. lia. } { exact E. }
  exists g'. cbn [g1 mdb submitted execs actions next_task tasks] in *. split_and!; [exact E'| |done|done| |].
  - rewrite S, job_datas_cons, <- app_assoc. done.
  - intros [|i] j' L; cbn in L.
    + injection L as <-. rewrite Z.add_0_r, K by lia. rewrite lookup_insert_eq. eexists. split; [done|]. done.
    + destruct (T i j' L) as (t & Lt & Pt). exists t. split; [|done]. rewrite <- Lt. f_equal. lia.
  - intros i Hi. rewrite K by lia. by rewrite lookup_insert_ne by lia.
Qed.

(** What a launch does, for the repositories in some order [ks]. *)
Lemma launch_calm ply executionID dry now x g :
  pm_Scope ply = Some scope -> Ok allProjects = (if sc_Level scope =s= "system" then getProjects projects else Ok []) ->
  selectable (pm_Rules ply) ->
  TaskDao.quiet (mdb g) -> fresh_tasks (mdb g) -> execs (mdb g) !! executionID = Some x ->
  let rules_for k := List.filter (selects k) (pm_Rules ply) in
  exists ks g', NoDup ks /\ (forall k, k ∈ ks <-> rules_for k <> [])
  /\ Launch doublestar_Match parse_untagged projects repositories repo_json lite_json shuffle SubmitJob Marshal coreURL
       (Some ply) executionID dry now g = (Ok (Z.of_nat (length ks)), g')
  /\ submitted g' = submitted g ++ job_datas (next_task (mdb g))
       ((fun k => (k, params_of dry (pm_Algorithm ply) (k, rules_for k))) <$> ks)
  /\ execs (mdb g') = execs (mdb g) /\ actions g' = actions g
  /\ (forall i k, ks !! i = Some k -> exists t, tasks (mdb g') !! (next_task (mdb g) + Z.of_nat i) = Some t
        /\ t_ExecutionID t = executionID /\ t_Status t = Status.PendingStatus
        /\ t_ExtraAttrs t = md (retention_attrs dry (rp_Name k))).
Proof.
  intros Sc Ap S Q F E rules_for. unfold Launch. rewrite Sc.
  destruct (launch_rules_ok (pm_Rules ply) [] S) as (m & Em & Wm & Rm); [by repeat constructor|].
  cbn [rules_at app] in Rm. pose proof (shuffle_perm m) as P.
  assert (Nk : NoDup (shuffle m).*1) by (rewrite P; apply Wm).
  assert (Mk : forall k rs, (k, rs) ∈ shuffle m <-> rules_for k = rs /\ rs <> []).
  { intros k rs. rewrite P, (rules_at_elem m k rs Wm), Rm. done. }
  assert (El : (fun y => (y.1, params_of dry (pm_Algorithm ply) y)) <$> shuffle m
             = (fun k => (k, params_of dry (pm_Algorithm ply) (k, rules_for k))) <$> (shuffle m).*1).
  { rewrite <- list_fmap_compose. apply list_fmap_ext. intros i [k rs] L%list_elem_of_lookup_2. cbn.
    apply Mk in L as [-> _]. done. }
  destruct (submitTasks_calm executionID dry now x ((fun k => (k, params_of dry (pm_Algorithm ply) (k, rules_for k))) <$> (shuffle m).*1) g Q F E)
    as (g' & Es & Sub & Ex & Ac & T & _).
  exists (shuffle m).*1. destruct (Nat.eqb_spec (length (pm_Rules ply)) 0) as [Z0|Nz].
  { apply nil_length_inv in Z0. unfold rules_for in *. rewrite Z0 in *. cbn [List.filter] in *.
    assert ((shuffle m).*1 = []) as Ks.
    { destruct (shuffle m) as [|[k rs] l]; [done|]. destruct (proj1 (Mk k rs)) as [<- ?]; [by left|done]. }
    rewrite Ks in *. exists g. split; [constructor|].
    split; [intros k; split; [by intros ?%elem_of_nil|intros N; by destruct N]|].
    split; [reflexivity|]. split; [unfold job_datas; cbn; by rewrite app_nil_r|].
    split; [reflexivity|]. split; [reflexivity|]. intros i k L. by rewrite lookup_nil in L. }
  exists g'. split; [exact Nk|]. split; [|split; [|split; [exact Sub|split; [exact Ex|split; [exact Ac|]]]]].
  - intros k. rewrite list_elem_of_fmap. split.
    + intros ([k' rs] & -> & L). cbn. apply Mk in L as [<- ?]. done.
    + intros N. exists (k, rules_for k). split; [done|]. by apply Mk.
  - unfold wrap_launcher. rewrite <- Ap. unfold bind, of_result. rewrite Em. unfold createJobs. rewrite all_params_ok, El.
    rewrite !length_fmap. destruct (Nat.eqb_spec (length (shuffle m)) 0) as [Z0|_].
    + apply nil_length_inv in Z0. rewrite Z0 in *. cbn in Es |- *. by injection Es as <-.
    + rewrite Es. done.
  - intros i k L. destruct (T i (k, params_of dry (pm_Algorithm ply) (k, rules_for k))) as (t & Lt & Pt).
    { by rewrite list_lookup_fmap, L. } by exists t.
Qed.

End Launch.

(** ** Selectors as filters *)

Section Selecting.

Context (doublestar_Match : string -> string -> result bool) (parse_untagged : string -> option bool).

(** The candidate passes every selector. *)
Definition passes (extras : SelectorMeta -> string) (ms : list SelectorMeta) (c : Candidate) : bool :=
  forallb (fun m =>
    match Retention.Get_selector parse_untagged (Retention.s_Kind m) (Retention.s_Decoration m) (Retention.s_Pattern m) (extras m) with
    | Ok s => match Retention.select_one doublestar_Match s c with Ok b => b | Err _ => false end
    | Err _ => false
    end) ms.

Lemma Select_filter s l l' :
  Retention.Select doublestar_Match s l = Ok l' ->
  l' = List.filter (fun c => match Retention.select_one doublestar_Match s c with Ok b => b | Err _ => false end) l.
Proof.
  revert l'. induction l as [|c l IH]; intros l'; cbn; [by intros [= <-]|].
  destruct (Retention.select_one doublestar_Match s c) as [b|e]; [|done].
  destruct (Retention.Select doublestar_Match s l) as [l1|e]; [|done]. intros [= <-]. rewrite (IH l1 eq_refl). by destruct b.
Qed.

Lemma filter_filter {A} (f g : A -> bool) l : List.filter f (List.filter g l) = List.filter (fun x => g x && f x) l.
Proof. induction l as [|x l IH]; [done|]. cbn. destruct (g x); cbn; [destruct (f x)|]; by rewrite IH. Qed.

Lemma select_all_filter extras ms l l' :
  select_all doublestar_Match parse_untagged extras ms l = Ok l' -> l' = List.filter (passes extras ms) l.
Proof.
  revert l. induction ms as [|m ms IH]; intros l; cbn [select_all].
  { intros [= <-]. induction l as [|c l IH]; [done|]. cbn. by rewrite <- IH. }
  unfold Retention.run_selector. unfold passes. cbn [forallb].
  destruct (Retention.Get_selector _ _ _ _ _) as [s|e]; [|done].
  destruct (Retention.Select _ s l) as [l1|e] eqn:E; [|done]. intros H%IH. apply Select_filter in E as ->.
  rewrite H, filter_filter. apply filter_ext. intros c. done.
Qed.

End Selecting.

(** ** A policy of a project *)

Section Project.

Context (doublestar_Match : string -> string -> result bool) (parse_untagged : string -> option bool).
Context (projects : result (list (Z * string))) (repositories : Z -> result (list string)) (P : Z) (names : list string).
Context (Hnames : repositories P = Ok names) (Nnames : NoDup (Artifact.ParseRepository <$> names)).

Definition repo_of_name (name : string) : Repo := to_repo (repository_candidate P name).

(** The rule is on, and its repository selectors pass the repository. *)
Definition for_repo (name : string) (rule : Rule) : bool :=
  negb (rl_Disabled rule)
  && passes doublestar_Match parse_untagged Retention.s_Extras (scope_selectors rule "repository") (repository_candidate P name).

(** The repository selectors of the rules that are on can be evaluated. *)
Definition evaluable (rules : list Rule) : Prop :=
  forall rule, rule ∈ rules -> rl_Disabled rule = false ->
    is_ok (select_all doublestar_Match parse_untagged Retention.s_Extras (scope_selectors rule "repository")
             (repository_candidate P <$> names)) = true.

Abbreviation scope := (mkScope "project" P).

Lemma rule_candidates_project rule :
  rule_candidates doublestar_Match parse_untagged repositories scope [] rule
  = select_all doublestar_Match parse_untagged Retention.s_Extras (scope_selectors rule "repository")
      (repository_candidate P <$> names).
Proof.
  unfold rule_candidates, project_candidates. cbn [sc_Level sc_Reference]. change ("project" =s= "system") with false.
  change ("project" =s= "project") with true. cbn [app all_repositories].
  change (Retention.NamespaceID _) with P. unfold getRepositories. rewrite Hnames. by rewrite app_nil_r.
Qed.

Lemma repo_of_name_inj n1 n2 :
  repo_of_name n1 = repo_of_name n2 -> Artifact.ParseRepository n1 = Artifact.ParseRepository n2.
Proof.
  unfold repo_of_name, to_repo, repository_candidate. cbn. destruct (Artifact.ParseRepository n1), (Artifact.ParseRepository n2).
  cbn. congruence.
Qed.

Lemma NoDup_repos l : sublist l names -> NoDup (repo_of_name <$> l).
Proof.
  intros S. assert (N : NoDup (Artifact.ParseRepository <$> l)).
  { eapply sublist_NoDup; [exact Nnames|]. by apply fmap_sublist. }
  clear S. induction l as [|n l IH]; [constructor|]. cbn in *. apply NoDup_cons in N as [N1 N2]. apply NoDup_cons.
  split; [|by apply IH]. intros (n' & E%repo_of_name_inj & Hn)%list_elem_of_fmap. apply N1. rewrite E.
  by apply list_elem_of_fmap_2.
Qed.

Lemma filter_sublist {A} (f : A -> bool) l : sublist (List.filter f l) l.
Proof. induction l as [|x l IH]; cbn; [constructor|]. destruct (f x); by constructor. Qed.

Lemma filter_fmap {A B} (g : A -> B) (f : B -> bool) l :
  List.filter f (g <$> l) = g <$> List.filter (fun x => f (g x)) l.
Proof. induction l as [|x l IH]; [done|]. cbn. destruct (f (g x)); cbn; by rewrite IH. Qed.

Lemma selectable_project rules : evaluable rules ->
  selectable doublestar_Match parse_untagged repositories scope [] rules.
Proof.
  intros Ev rule Hr D. specialize (Ev rule Hr D). rewrite rule_candidates_project.
  destruct (select_all _ _ _ _ _) as [l|e] eqn:E; [|done]. exists l. split; [done|].
  apply select_all_filter in E as ->. rewrite filter_fmap, <- list_fmap_compose. apply NoDup_repos, filter_sublist.
Qed.

Lemma selects_project rules name rule : evaluable rules -> rule ∈ rules -> name ∈ names ->
  selects doublestar_Match parse_untagged repositories scope [] (repo_of_name name) rule = for_repo name rule.
Proof.
  intros Ev Hr Hn. unfold selects, for_repo. destruct (rl_Disabled rule) eqn:D; [done|]. cbn [negb andb].
  specialize (Ev rule Hr D). rewrite rule_candidates_project. destruct (select_all _ _ _ _ _) as [l|e] eqn:E; [|done].
  apply select_all_filter in E as ->. apply eq_true_iff_eq. rewrite bool_decide_eq_true, filter_fmap, <- list_fmap_compose.
  rewrite list_elem_of_fmap. split.
  - intros (n & En & H%list_elem_of_In%filter_In). destruct H as [Hn' H].
    assert (n = name) as ->; [|done]. symmetry in En. apply repo_of_name_inj in En.
    apply list_elem_of_In in Hn'. apply list_elem_of_lookup in Hn as [i Li], Hn' as [j Lj].
    assert (i = j) as ->; [|congruence]. eapply NoDup_lookup; [exact Nnames| |]; rewrite list_lookup_fmap.
    + by rewrite Li. + rewrite Lj. cbn. by rewrite En.
  - intros H. exists name. split; [done|]. apply list_elem_of_In, filter_In. split; [by apply list_elem_of_In|by rewrite H].
Qed.

(** The rules of the job of a repository. *)
Definition rules_for (rules : list Rule) (name : string) : list Rule := List.filter (for_repo name) rules.

(** The repositories that some rule is for. *)
Definition selected (rules : list Rule) : list string :=
  List.filter (fun name => existsb (for_repo name) rules) names.

Lemma rules_for_nil rules name : rules_for rules name <> [] <-> existsb (for_repo name) rules = true.
Proof.
  unfold rules_for. induction rules as [|rule rules IH]; [done|]. cbn. by destruct (for_repo name rule).
Qed.

Lemma selects_rules_for rules name : evaluable rules -> name ∈ names ->
  List.filter (selects doublestar_Match parse_untagged repositories scope [] (repo_of_name name)) rules = rules_for rules name.
Proof.
  intros Ev Hn. apply filter_ext_in. intros rule Hr. apply selects_project with rules; [done| |done].
  by apply list_elem_of_In.
Qed.

Lemma selects_elsewhere rules k : evaluable rules ->
  List.filter (selects doublestar_Match parse_untagged repositories scope [] k) rules <> [] ->
  exists name, name ∈ names /\ k = repo_of_name name.
Proof.
  intros Ev N. destruct (List.filter _ rules) as [|rule l] eqn:E; [done|].
  assert (H : In rule (List.filter (selects doublestar_Match parse_untagged repositories scope [] k) rules)) by (rewrite E; by left).
  apply filter_In in H as [_ H]. unfold selects in H. apply andb_true_iff in H as [_ H]. rewrite rule_candidates_project in H.
  destruct (select_all _ _ _ _ _) as [c|e] eqn:Es; [|done]. apply bool_decide_eq_true in H.
  apply select_all_filter in Es as ->. rewrite filter_fmap, <- list_fmap_compose in H.
  apply list_elem_of_fmap in H as (name & -> & H%list_elem_of_In%filter_In). exists name. split; [|done].
  destruct H as [H _]. by apply list_elem_of_In.
Qed.

Section Calm.

Context (repo_json : Repo -> result string) (lite_json : LiteMeta -> result string) (shuffle : rules_map -> rules_map).
Context (SubmitJob : JobData -> result string) (Marshal : list (string * string) -> result string) (coreURL : string).
Context (rj : Repo -> string) (lj : LiteMeta -> string) (md : list (string * string) -> string) (jid : JobData -> string).
Context (Hrj : forall r, repo_json r = Ok (rj r)) (Hlj : forall l, lite_json l = Ok (lj l)).
Context (Hmd : forall a, Marshal a = Ok (md a)) (Hjid : forall jd, SubmitJob jd = Ok (jid jd)).
Context (shuffle_perm : forall m, shuffle m ≡ₚ m).

(** What a repository's job is given. *)
Definition repo_params (ply : PolicyMeta) (dry : bool) (name : string) : params :=
  params_of rj lj dry (pm_Algorithm ply) (repo_of_name name, rules_for (pm_Rules ply) name).

Lemma launch_project ply executionID dry now x g :
  pm_Scope ply = Some scope -> evaluable (pm_Rules ply) ->
  TaskDao.quiet (mdb g) -> fresh_tasks (mdb g) -> execs (mdb g) !! executionID = Some x ->
  exists l g', l ≡ₚ selected (pm_Rules ply)
  /\ Launch doublestar_Match parse_untagged projects repositories repo_json lite_json shuffle SubmitJob Marshal coreURL
       (Some ply) executionID dry now g = (Ok (Z.of_nat (length l)), g')
  /\ submitted g' = submitted g ++
       imap (fun i name => job_data coreURL (next_task (mdb g) + Z.of_nat i) (retention_job (repo_params ply dry name))) l
  /\ execs (mdb g') = execs (mdb g) /\ actions g' = actions g
  /\ (forall i name, l !! i = Some name -> exists t, tasks (mdb g') !! (next_task (mdb g) + Z.of_nat i) = Some t
        /\ t_ExecutionID t = executionID /\ t_Status t = Status.PendingStatus
        /\ t_ExtraAttrs t = md (retention_attrs dry (Artifact.ParseRepository name).2)).
Proof.
  intros Sc Ev Q F E.
  destruct (launch_calm doublestar_Match parse_untagged projects repositories scope [] repo_json lite_json shuffle
    SubmitJob Marshal coreURL rj lj md jid Hrj Hlj Hmd Hjid shuffle_perm ply executionID dry now x g Sc eq_refl
    (selectable_project _ Ev) Q F E) as (ks & g' & Nk & Mk & L & Sub & Ex & Ac & T).
  assert (Pk : ks ≡ₚ repo_of_name <$> selected (pm_Rules ply)).
  { apply NoDup_Permutation; [done|apply NoDup_repos, filter_sublist|]. intros k. rewrite Mk, list_elem_of_fmap. split.
    - intros N. destruct (selects_elsewhere _ _ Ev N) as (name & Hn & ->). exists name. split; [done|].
      rewrite selects_rules_for in N by done. apply list_elem_of_In, filter_In.
      split; [by apply list_elem_of_In|by apply rules_for_nil].
    - intros (name & -> & H%list_elem_of_In%filter_In). destruct H as [Hn%list_elem_of_In H].
      rewrite selects_rules_for by done. by apply rules_for_nil. }
  apply Permutation_map_inv in Pk as (l & -> & Pl). exists l, g'.
  assert (Hl : forall name, name ∈ l -> name ∈ names).
  { intros name. rewrite <- Pl. intros H%list_elem_of_In%filter_In. destruct H as [H _]. by apply list_elem_of_In. }
  split; [done|]. rewrite L, length_map. split; [done|]. split; [|split; [done|split; [done|]]].
  - rewrite Sub. f_equal. unfold job_datas. change (map repo_of_name l) with (repo_of_name <$> l).
    rewrite <- list_fmap_compose. unfold compose. clear -Ev Hl Nnames Hnames.
    generalize (next_task (mdb g)). induction l as [|name l IH]; intros n; [done|]. cbn [fmap list_fmap imap snd].
    rewrite selects_rules_for by (done || apply Hl; by left). f_equal.
    etrans; [apply imap_ext|etrans; [apply (IH ltac:(intros; apply Hl; by right) (n + 1))|apply imap_ext]].
    + intros i j _. unfold compose. by replace (n + 1 + Z.of_nat i) with (n + Z.of_nat (S i)) by lia.
    + intros i j _. unfold compose. by replace (n + 1 + Z.of_nat i) with (n + Z.of_nat (S i)) by lia.
  - intros i name Li. destruct (T i (repo_of_name name)) as (t & Lt & Pt).
    { change (map repo_of_name l) with (repo_of_name <$> l). by rewrite list_lookup_fmap, Li. }
    by exists t.
Qed.
End Calm.
End Project.

(** C8: A run of a project's policy submits exactly one job for each repository
    that the repository selectors of some enabled rule let through, with the
    repository, whether it is a dry run, and just the enabled rules that let it
    through, in the policy's order; each job has a pending task of the execution;
    and the number of jobs is reported.  The order of the jobs is that of a Go
    map. *)
Theorem launch_exact doublestar_Match parse_untagged projects repositories P names repo_json lite_json shuffle
    SubmitJob Marshal coreURL rj lj md jid ply executionID dry now x g :
  repositories P = Ok names -> NoDup (Artifact.ParseRepository <$> names) ->
  (forall r, repo_json r = Ok (rj r)) -> (forall l, lite_json l = Ok (lj l)) ->
  (forall a, Marshal a = Ok (md a)) -> (forall jd, SubmitJob jd = Ok (jid jd)) -> (forall m, shuffle m ≡ₚ m) ->
  pm_Scope ply = Some (mkScope "project" P) -> evaluable doublestar_Match parse_untagged P names (pm_Rules ply) ->
  TaskDao.quiet (mdb g) -> fresh_tasks (mdb g) -> execs (mdb g) !! executionID = Some x ->
  exists l g', l ≡ₚ selected doublestar_Match parse_untagged P names (pm_Rules ply)
  /\ Launch doublestar_Match parse_untagged projects repositories repo_json lite_json shuffle SubmitJob Marshal coreURL
       (Some ply) executionID dry now g = (Ok (Z.of_nat (length l)), g')
  /\ submitted g' = submitted g ++
       imap (fun i name => job_data coreURL (next_task (mdb g) + Z.of_nat i)
                             (retention_job (repo_params doublestar_Match parse_untagged P rj lj ply dry name))) l
  /\ (forall i name, l !! i = Some name -> exists t, tasks (mdb g') !! (next_task (mdb g) + Z.of_nat i) = Some t
        /\ t_ExecutionID t = executionID /\ t_Status t = Status.PendingStatus
        /\ t_ExtraAttrs t = md (retention_attrs dry (Artifact.ParseRepository name).2)).
Proof.
  intros Hn Nn Hrj Hlj Hmd Hjid Sp Sc Ev Q F E.
  destruct (launch_project doublestar_Match parse_untagged projects repositories P names Hn Nn repo_json lite_json shuffle
    SubmitJob Marshal coreURL rj lj md jid Hrj Hlj Hmd Hjid Sp ply executionID dry now x g Sc Ev Q F E)
    as (l & g' & H1 & H2 & H3 & _ & _ & H6). by exists l, g'.
Qed.

(** ** What a job deletes *)

Section Job.

Context (sort_by : (Candidate -> Z) -> list Candidate -> list Candidate) (now : Z).
Context (doublestar_Match : string -> string -> result bool) (parse_untagged : string -> option bool).
Context (immutable_rules : Z -> result (list Retention.ImmutableRule)) (Delete_ : Candidate -> option error).

Abbreviation isImmutable := (Retention.isImmutable sort_by now doublestar_Match parse_untagged immutable_rules).
Abbreviation Perform := (Retention.Perform sort_by now doublestar_Match parse_untagged immutable_rules Delete_).

(** A deleted candidate is one that no rule retains and that is not immutable. *)
Lemma deleted_candidate run all rules dry res c :
  Retention.Process_run run (Perform all dry) all rules (Ok res) -> (c, Retention.Deleted) ∈ res ->
  dry = false /\ c ∈ all /\ isImmutable c = false
  /\ forall p l, p ∈ rules -> run p = Ok l -> Retention.Hash c ∉ Retention.Hash <$> l.
Proof.
  intros Pr D. destruct (decide (all = [])) as [->|Ne].
  { destruct Pr as [[_ [= ->]]|[? _]]; [by apply elem_of_nil in D|done]. }
  destruct (Retention.process_ok _ _ _ _ _ _ _ _ _ _ _ _ Ne Pr) as [_ ->].
  destruct (existsb _ _); [|by apply elem_of_nil in D]. unfold Retention.retain_spec in D.
  apply list_elem_of_fmap in D as (c' & [= <- E] & H%list_elem_of_In%filter_In). destruct H as [H R].
  destruct (existsb _ all) eqn:I; [done|]. destruct dry; [done|]. split; [done|]. split; [by apply list_elem_of_In|]. split.
  - apply not_true_is_false. intros T. assert (existsb (fun d => (Retention.Hash d =s= Retention.Hash c) && isImmutable d) all = true); [|congruence].
    apply existsb_exists. exists c. by rewrite String.eqb_refl, T.
  - intros p l Hp Rp M. apply negb_true_iff in R. assert (Retention.retained_by run rules c = true); [|congruence].
    apply existsb_exists. exists p. rewrite Rp. split; [by apply list_elem_of_In|by apply Retention.mem_hash_spec].
Qed.

Lemma build_params_in l ps rm : Retention.build_params parse_untagged l = Ok ps -> rm ∈ l ->
  exists ev ss, Retention.Get_rule (Retention.ru_Template rm) (Retention.ru_Parameters rm) = Ok ev
  /\ Retention.build_selectors parse_untagged (Retention.ru_TagSelectors rm) = Ok ss /\ Retention.mkParam ev ss ∈ ps.
Proof.
  revert ps. induction l as [|r l IH]; intros ps; [by intros _ ?%elem_of_nil|]. cbn [Retention.build_params].
  destruct (Retention.Get_rule (Retention.ru_Template r) (Retention.ru_Parameters r)) as [ev|e] eqn:G; [|done].
  destruct (negb _); [done|].
  destruct (Retention.build_selectors _ (Retention.ru_TagSelectors r)) as [ss|e] eqn:B; [|done].
  destruct (Retention.build_params _ l) as [ps'|e] eqn:E; [|done]. intros [= <-] [->|H]%elem_of_cons.
  - exists ev, ss. split; [done|]. split; [done|by left].
  - destruct (IH ps' eq_refl H) as (ev' & ss' & A1 & A2 & A3). exists ev', ss'. split; [done|]. split; [done|by right].
Qed.

Lemma build_selectors_length l ss : Retention.build_selectors parse_untagged l = Ok ss -> length ss = length l.
Proof.
  revert ss. induction l as [|m l IH]; intros ss; cbn; [by intros [= <-]|].
  destruct (Retention.Get_selector _ _ _ _ _); [|done]. destruct (Retention.build_selectors _ l); [|done].
  intros [= <-]. cbn. f_equal. by apply IH.
Qed.

Lemma Build_in algorithm l rules rm :
  Retention.Build parse_untagged algorithm l = Ok rules -> rm ∈ l -> Retention.ru_TagSelectors rm <> [] ->
  exists ev ss, Retention.Get_rule (Retention.ru_Template rm) (Retention.ru_Parameters rm) = Ok ev
  /\ Retention.build_selectors parse_untagged (Retention.ru_TagSelectors rm) = Ok ss /\ Retention.mkParam ev ss ∈ rules.
Proof.
  unfold Retention.Build. destruct (Retention.build_params _ l) as [ps|e] eqn:E; [|done].
  destruct (algorithm =s= "or"); [|done]. intros [= <-] H N.
  destruct (build_params_in l ps rm E H) as (ev & ss & G & B & I). exists ev, ss. split; [done|]. split; [done|].
  apply list_elem_of_In, filter_In. split; [by apply list_elem_of_In|]. cbn [Retention.p_selectors].
  rewrite (build_selectors_length _ _ B). by destruct (Retention.ru_TagSelectors rm).
Qed.

Context (repo_of : string -> result Repo) (lite_of : string -> result LiteMeta).
Context (ListAllArtifacts : string -> string -> result (list ApiArtifact)).

Lemma to_candidates_of r arts l c : to_candidates r arts = Ok l -> c ∈ l ->
  Retention.NamespaceID c = rp_NamespaceID r /\ Retention.Namespace c = rp_Namespace r
  /\ Retention.Repository c = rp_Name r /\ exists art, art ∈ arts /\ Retention.Digest c = aa_Digest art.
Proof.
  revert l. induction arts as [|art arts IH]; intros l; cbn; [by intros [= <-] ?%elem_of_nil|].
  destruct (_ =s= _); [done|]. destruct (to_candidates r arts) as [l'|e]; [|done].
  intros [= <-] [->|H]%elem_of_cons.
  - split_and!; try done. exists art. split; [by left|done].
  - destruct (IH l' eq_refl H) as (A & B & C & a & Ia & Da). split_and!; try done. exists a. split; [by right|done].
Qed.

Lemma GetCandidates_of r l c : GetCandidates ListAllArtifacts r = Ok l -> c ∈ l ->
  Retention.NamespaceID c = rp_NamespaceID r /\ Retention.Namespace c = rp_Namespace r /\ Retention.Repository c = rp_Name r.
Proof.
  unfold GetCandidates. destruct (_ =s= _); [|done]. destruct (ListAllArtifacts _ _) as [arts|e]; [|done].
  intros E H. destruct (to_candidates_of r arts l c E H) as (A & B & C & _). done.
Qed.

Context (rj : Repo -> string) (lj : LiteMeta -> string).

(** The parameters of a job are read back as they were written. *)
Lemma params_read dry algorithm x :
  repo_of (rj x.1) = Ok x.1 -> lite_of (lj (mkLiteMeta algorithm x.2)) = Ok (mkLiteMeta algorithm x.2) ->
  getParamRepo repo_of (params_of rj lj dry algorithm x) = Ok x.1
  /\ getParamMeta lite_of (params_of rj lj dry algorithm x) = Ok (mkLiteMeta algorithm x.2)
  /\ getParamDryRun (params_of rj lj dry algorithm x) = Ok dry.
Proof.
  intros Hrepo Hlite. unfold getParamRepo, getParamMeta, getParamDryRun, params_of. cbn. rewrite Hrepo, Hlite. by destruct dry.
Qed.

Lemma job_deletes dry algorithm r rules stopped1 stopped2 all res c :
  repo_of (rj r) = Ok r -> lite_of (lj (mkLiteMeta algorithm rules)) = Ok (mkLiteMeta algorithm rules) ->
  Run repo_of lite_of ListAllArtifacts sort_by now doublestar_Match parse_untagged immutable_rules Delete_
    (params_of rj lj dry algorithm (r, rules)) stopped1 stopped2 (Ok (Some (all, res))) ->
  (c, Retention.Deleted) ∈ res ->
  dry = false /\ isImmutable c = false
  /\ (Retention.NamespaceID c = rp_NamespaceID r /\ Retention.Namespace c = rp_Namespace r /\ Retention.Repository c = rp_Name r)
  /\ forall rule, rule ∈ rules -> Retention.ru_TagSelectors (rl_Meta rule) <> [] ->
       exists ev ss, Retention.Get_rule (Retention.ru_Template (rl_Meta rule)) (Retention.ru_Parameters (rl_Meta rule)) = Ok ev
       /\ Retention.build_selectors parse_untagged (Retention.ru_TagSelectors (rl_Meta rule)) = Ok ss
       /\ forall l, Retention.run_rule sort_by now doublestar_Match all (Retention.mkParam ev ss) = Ok l ->
            Retention.Hash c ∉ Retention.Hash <$> l.
Proof.
  intros Hr Hl (repo & lite & dry' & E1 & E2 & E3 & H) D.
  destruct (params_read dry algorithm (r, rules) Hr Hl) as (R1 & R2 & R3).
  rewrite R1 in E1. rewrite R2 in E2. rewrite R3 in E3. injection E1 as <-. injection E2 as <-. injection E3 as <-.
  destruct stopped1; [done|]. cbn [fst snd lm_Algorithm lm_Rules] in H.
  destruct (GetCandidates ListAllArtifacts r) as [all'|e] eqn:G; [|done].
  destruct (Retention.Build _ _ _) as [ps|e] eqn:B; [|done]. destruct stopped2; [done|].
  destruct H as ([l|e] & Pr & [= -> ->]). destruct (deleted_candidate _ _ _ _ _ _ Pr D) as (-> & Hc & I & N).
  split; [done|]. split; [done|]. split; [by apply (GetCandidates_of r all')|]. intros rule Hin T.
  destruct (Build_in algorithm _ ps (rl_Meta rule) B) as (ev & ss & A1 & A2 & A3).
  { by apply list_elem_of_fmap_2. } { done. }
  exists ev, ss. split; [done|]. split; [done|]. intros l'. by apply N.
Qed.

End Job.

(** C7: From the policy to the deletion: whatever any of the jobs that a run of a
    project's policy submitted deletes lies in a repository of the project that
    some enabled rule lets through, is protected by no immutable rule, and is
    retained by none of the enabled rules that let the repository through and
    have tag selectors, as far as the job could evaluate them; and nothing is
    deleted in a dry run.  The job runs at any later time, on whatever artifacts
    the repository then has, with its goroutines in any order. *)
Theorem run_deletes_unretained doublestar_Match parse_untagged projects repositories P names repo_json lite_json shuffle
    SubmitJob Marshal coreURL rj lj md jid ply executionID dry now x g n g'
    repo_of lite_of ListAllArtifacts sort_by later immutable_rules Delete_ jd ps stopped1 stopped2 all res c :
  repositories P = Ok names -> NoDup (Artifact.ParseRepository <$> names) ->
  (forall r, repo_json r = Ok (rj r)) -> (forall l, lite_json l = Ok (lj l)) ->
  (forall a, Marshal a = Ok (md a)) -> (forall j, SubmitJob j = Ok (jid j)) -> (forall m, shuffle m ≡ₚ m) ->
  pm_Scope ply = Some (mkScope "project" P) -> evaluable doublestar_Match parse_untagged P names (pm_Rules ply) ->
  TaskDao.quiet (mdb g) -> fresh_tasks (mdb g) -> execs (mdb g) !! executionID = Some x ->
  let rules name := rules_for doublestar_Match parse_untagged P (pm_Rules ply) name in
  (forall name, name ∈ names -> rules name <> [] ->
     repo_of (rj (repo_of_name P name)) = Ok (repo_of_name P name)
     /\ lite_of (lj (mkLiteMeta (pm_Algorithm ply) (rules name))) = Ok (mkLiteMeta (pm_Algorithm ply) (rules name))) ->
  Launch doublestar_Match parse_untagged projects repositories repo_json lite_json shuffle SubmitJob Marshal coreURL
    (Some ply) executionID dry now g = (n, g') ->
  jd ∈ drop (length (submitted g)) (submitted g') -> jd_Parameters jd = Some ps ->
  Run repo_of lite_of ListAllArtifacts sort_by later doublestar_Match parse_untagged immutable_rules Delete_
    ps stopped1 stopped2 (Ok (Some (all, res))) ->
  (c, Retention.Deleted) ∈ res ->
  dry = false
  /\ Retention.isImmutable sort_by later doublestar_Match parse_untagged immutable_rules c = false
  /\ exists name, name ∈ names /\ rules name <> []
     /\ (Retention.NamespaceID c, Retention.Namespace c, Retention.Repository c)
        = (P, (Artifact.ParseRepository name).1, (Artifact.ParseRepository name).2)
     /\ forall rule, rule ∈ pm_Rules ply -> for_repo doublestar_Match parse_untagged P name rule = true ->
          Retention.ru_TagSelectors (rl_Meta rule) <> [] ->
          exists ev ss, Retention.Get_rule (Retention.ru_Template (rl_Meta rule)) (Retention.ru_Parameters (rl_Meta rule)) = Ok ev
          /\ Retention.build_selectors parse_untagged (Retention.ru_TagSelectors (rl_Meta rule)) = Ok ss
          /\ forall l, Retention.run_rule sort_by later doublestar_Match all (Retention.mkParam ev ss) = Ok l ->
               Retention.Hash c ∉ Retention.Hash <$> l.
Proof.
  intros Hn Nn Hrj Hlj Hmd Hjid Sp Sc Ev Q F E rules Codec L Hjd Hps R D.
  destruct (launch_project doublestar_Match parse_untagged projects repositories P names Hn Nn repo_json lite_json shuffle
    SubmitJob Marshal coreURL rj lj md jid Hrj Hlj Hmd Hjid Sp ply executionID dry now x g Sc Ev Q F E)
    as (l & g1 & Pl & L1 & Sub & _). rewrite L in L1. injection L1 as -> ->.
  rewrite Sub, drop_app_length in Hjd. apply elem_of_lookup_imap in Hjd as (i & name & -> & Li).
  assert (Hs : name ∈ selected doublestar_Match parse_untagged P names (pm_Rules ply)).
  { rewrite <- Pl. by eapply list_elem_of_lookup_2. }
  apply list_elem_of_In, filter_In in Hs as [Hname%list_elem_of_In Hs%rules_for_nil].
  destruct (Codec name Hname Hs) as [C1 C2]. injection Hps as <-.
  destruct (job_deletes sort_by later doublestar_Match parse_untagged immutable_rules Delete_ repo_of lite_of ListAllArtifacts
    rj lj dry (pm_Algorithm ply) (repo_of_name P name) (rules name) stopped1 stopped2 all res c C1 C2 R D)
    as (-> & I & (F1 & F2 & F3) & K).
  split; [done|]. split; [done|]. exists name. split; [done|]. split; [done|]. split; [by rewrite F1, F2, F3|].
  intros rule Hr Hf T. apply K; [|done]. apply list_elem_of_In, filter_In. split; [by apply list_elem_of_In|done].
Qed.

(** ** A project with two repositories *)

Definition sample_names : list string := ["library/app"; "library/db"].
Definition sample_repositories (id : Z) : result (list string) := if id =? 1 then Ok sample_names else Ok [].

Definition select_by (decoration pattern : string) : SelectorMeta :=
  Retention.mkSelectorMeta "doublestar" decoration pattern "".

(** Of the repository app the artifact pushed last is kept; a rule for db is off. *)
Definition sample_rule (disabled : bool) (repository : string) : Rule :=
  mkRule 0 0 disabled
    (Retention.mkRuleMeta "latestPushedK" (Retention.one_param "latestPushedK" 1) "retain" [select_by "matches" "**"])
    {["repository" := [select_by "repoMatches" repository]]}.

Definition sample_ply : PolicyMeta :=
  mkPolicyMeta 5 "or" [sample_rule false "app"; sample_rule true "db"] (Some (mkScope "project" 1)).

Definition sample_execution (status : string) : Execution :=
  mkExecution RetentionVendorType 5 status "" "Schedule" "{}" 90 90 None 0.

Definition sample_g (status : string) : mgr :=
  mkMgr (mkDb {[3 := sample_execution status]} ∅ 4 10 [] [] None) [] [].

(** The only policy that is encoded here. *)
Definition sample_lite : LiteMeta := mkLiteMeta "or" [sample_rule false "app"].
Definition sample_repo_of (s : string) : result Repo := Ok (mkRepo 1 "library" s "image").
Definition sample_lite_of (_ : string) : result LiteMeta := Ok sample_lite.

Definition sample_launch (status : string) : result Z * mgr :=
  Launch Retention.sample_Match Retention.sample_parse (Ok []) sample_repositories (fun r => Ok (rp_Name r))
    (fun _ => Ok "{}"%string) (fun m => m) (fun _ => Ok "job"%string) (fun _ => Ok "{}"%string) "http://core"
    (Some sample_ply) 3 false 100 (sample_g status).

Lemma sample_evaluable :
  evaluable Retention.sample_Match Retention.sample_parse 1 sample_names (pm_Rules sample_ply).
Proof. intros rule [->|[->|H%elem_of_nil]%elem_of_cons]%elem_of_cons D; by vm_compute. Qed.

Lemma sample_fresh status : fresh_tasks (mdb (sample_g status)).
Proof. intros i _. apply lookup_empty. Qed.

Lemma launch_exact_witness :
  (sample_launch "Running").1 = Ok 1
  /\ exists l g', l ≡ₚ ["library/app"%string]
     /\ sample_launch "Running" = (Ok (Z.of_nat (length l)), g')
     /\ submitted g' = imap (fun i name => job_data "http://core" (10 + Z.of_nat i)
          (retention_job (repo_params Retention.sample_Match Retention.sample_parse 1 rp_Name (fun _ => "{}"%string)
             sample_ply false name))) l.
Proof.
  split; [by vm_compute|].
  destruct (launch_exact Retention.sample_Match Retention.sample_parse (Ok []) sample_repositories 1 sample_names
    (fun r => Ok (rp_Name r)) (fun _ => Ok "{}"%string) (fun m => m) (fun _ => Ok "job"%string) (fun _ => Ok "{}"%string)
    "http://core" rp_Name (fun _ => "{}"%string) (fun _ => "{}"%string) (fun _ => "job"%string) sample_ply 3 false 100
    (sample_execution "Running") (sample_g "Running") eq_refl ltac:(by apply (bool_decide_unpack _); vm_compute)
    (fun _ => eq_refl) (fun _ => eq_refl) (fun _ => eq_refl) (fun _ => eq_refl) (fun _ => Permutation_refl _)
    eq_refl sample_evaluable (conj eq_refl eq_refl) (sample_fresh _) (lookup_singleton_eq _ _))
    as (l & g' & P & L & Sub & _).
  exists l, g'. split; [exact P|]. split; [exact L|exact Sub].
Defined.

Definition sample_artifact (digest tag : string) (pushed : Z) : ApiArtifact :=
  mkApiArtifact digest [] [(tag, 0, pushed)] pushed 0.

Definition sample_list (project repository : string) : result (list ApiArtifact) :=
  Ok (if repository =s= "app" then [sample_artifact "sha256:a" "v1" 100; sample_artifact "sha256:b" "v2" 200] else []).

Definition sample_all : list Candidate :=
  [Retention.sample_candidate "app" "sha256:a" ["v1"%string] 100 0;
   Retention.sample_candidate "app" "sha256:b" ["v2"%string] 200 0].

Definition sample_job_params : params :=
  params_of rp_Name (fun _ => "{}"%string) false "or" (mkRepo 1 "library" "app" "image", [sample_rule false "app"]).

Lemma sample_run :
  Run sample_repo_of sample_lite_of sample_list Retention.sample_sort 0 Retention.sample_Match Retention.sample_parse
    (fun _ => Ok []) (fun _ => None) sample_job_params false false
    (Ok (Some (sample_all, [(Retention.sample_candidate "app" "sha256:a" ["v1"%string] 100 0, Retention.Deleted)]))).
Proof.
  exists (mkRepo 1 "library" "app" "image"), sample_lite, false. split_and!; [done..|].
  change (GetCandidates _ _) with (Ok sample_all).
  change (Retention.Build _ _ _) with (Ok [Retention.mkParam (Retention.LatestPushedK 1) [Retention.mkSelector "matches" "**" true]]).
  cbv iota. eexists (Ok _). split; [|done]. right. split; [done|].
  change (_ <$> [_]) with (Retention.oks [[Retention.sample_candidate "app" "sha256:b" ["v2"%string] 200 0]] ++ []).
  eexists. split; [|split].
  - etrans; [apply Retention.drain_results|]. eapply rtc_l; [apply Retention.p_close|]. apply rtc_once, Retention.p_exit.
  - done.
  - by vm_compute.
Qed.

Lemma run_deletes_unretained_witness :
  let c := Retention.sample_candidate "app" "sha256:a" ["v1"%string] 100 0 in
  Retention.isImmutable Retention.sample_sort 0 Retention.sample_Match Retention.sample_parse (fun _ => Ok []) c = false
  /\ exists name, name ∈ sample_names /\ (Artifact.ParseRepository name).2 = "app".
Proof.
  intros c.
  destruct (run_deletes_unretained Retention.sample_Match Retention.sample_parse (Ok []) sample_repositories 1 sample_names
    (fun r => Ok (rp_Name r)) (fun _ => Ok "{}"%string) (fun m => m) (fun _ => Ok "job"%string) (fun _ => Ok "{}"%string)
    "http://core" rp_Name (fun _ => "{}"%string) (fun _ => "{}"%string) (fun _ => "job"%string) sample_ply 3 false 100
    (sample_execution "Running") (sample_g "Running") (sample_launch "Running").1 (sample_launch "Running").2
    sample_repo_of sample_lite_of sample_list Retention.sample_sort 0 (fun _ => Ok []) (fun _ => None)
    (job_data "http://core" 10 (retention_job sample_job_params)) sample_job_params false false sample_all
    [(c, Retention.Deleted)] c eq_refl ltac:(by apply (bool_decide_unpack _); vm_compute)
    (fun _ => eq_refl) (fun _ => eq_refl) (fun _ => eq_refl) (fun _ => eq_refl) (fun _ => Permutation_refl _)
    eq_refl sample_evaluable (conj eq_refl eq_refl) (sample_fresh _) (lookup_singleton_eq _ _))
    as (_ & I & name & Hn & _ & F & _).
  - intros name [->|[->|H%elem_of_nil]%elem_of_cons]%elem_of_cons N; [done| |done].
    destruct N. by vm_compute.
  - apply surjective_pairing.
  - assert (E : drop (length (submitted (sample_g "Running"))) (submitted (sample_launch "Running").2)
                = [job_data "http://core" 10 (retention_job sample_job_params)]) by (by vm_compute).
    rewrite E. by left.
  - done.
  - apply sample_run.
  - by left.
  - split; [exact I|]. exists name. split; [exact Hn|]. by injection F as _ <-.
Defined.

(** ** A run that is stopped early *)

(** Stopping an execution before its process has launched it has no effect: the
    process does not look at the status, and submits the jobs, which delete. *)
Theorem stopped_run_is_launched doublestar_Match parse_untagged projects repositories P names repo_json lite_json shuffle
    SubmitJob PostAction Marshal coreURL rj lj md jid ply executionID dry now x g attempts world :
  repositories P = Ok names -> NoDup (Artifact.ParseRepository <$> names) ->
  (forall r, repo_json r = Ok (rj r)) -> (forall l, lite_json l = Ok (lj l)) ->
  (forall a, Marshal a = Ok (md a)) -> (forall jd, SubmitJob jd = Ok (jid jd)) -> (forall m, shuffle m ≡ₚ m) ->
  pm_Scope ply = Some (mkScope "project" P) -> evaluable doublestar_Match parse_untagged P names (pm_Rules ply) ->
  selected doublestar_Match parse_untagged P names (pm_Rules ply) <> [] ->
  TaskDao.quiet (mdb g) -> fresh_tasks (mdb g) -> execs (mdb g) !! executionID = Some x ->
  e_Status x = Status.StoppedStatus ->
  exists l g', l ≡ₚ selected doublestar_Match parse_untagged P names (pm_Rules ply)
  /\ background doublestar_Match parse_untagged projects repositories repo_json lite_json shuffle SubmitJob PostAction
       Marshal coreURL (S attempts) ply executionID dry now world g = (Ok tt, g')
  /\ submitted g' = submitted g ++
       imap (fun i name => job_data coreURL (next_task (mdb g) + Z.of_nat i)
                             (retention_job (repo_params doublestar_Match parse_untagged P rj lj ply dry name))) l.
Proof.
  intros Hn Nn Hrj Hlj Hmd Hjid Sp Sc Ev Ne Q F E _.
  destruct (launch_project doublestar_Match parse_untagged projects repositories P names Hn Nn repo_json lite_json shuffle
    SubmitJob Marshal coreURL rj lj md jid Hrj Hlj Hmd Hjid Sp ply executionID dry now x g Sc Ev Q F E)
    as (l & g' & Pl & L & Sub & _). exists l, g'. split; [exact Pl|]. split; [|exact Sub].
  assert (G : Retry (S attempts) None (lift (exec_Get executionID) ;;; ret tt) g = (Ok tt, g)).
  { cbn [Retry]. unfold bind, lift, exec_Get. rewrite quiet_dbio by done. rewrite E. cbn. by rewrite with_mdb_id. }
  unfold background, bind at 1, try at 1. rewrite G. unfold bind, try. rewrite L.
  destruct (Z.eqb_spec (Z.of_nat (length l)) 0) as [Z0|_]; [|done]. exfalso. apply Ne.
  destruct l; [by apply Permutation_nil in Pl|done].
Qed.
