(* ===== verification/RetentionPolicy.v ===== *)
(** * Tag retention: policies

    The policies of [src/pkg/retention/policy], their table
    ([src/pkg/retention/manager.go] and [dao]), their schedules
    ([src/controller/retention]) and the handlers of
    [src/server/v2.0/handler/retention.go].  A project names its policy in its
    metadata, under [retention_id]; the handlers are all that writes it, but for
    the creation of proxy cache projects and the deletion of metadata by name. *)

From S2P Require Import Prelude Errors JobStatus TaskDao TaskManager Scheduler RegFilter RepPolicy RetentionRun.
From S2P Require Retention.

(** ** Data *)

Definition TriggerKindSchedule : string := "Schedule".
Definition TriggerSettingsCron : string := "cron".
Definition TriggerSettingNextScheduledTime : string := "next_scheduled_time".
Definition ScopeLevelProject : string := "project".
Definition SchedulerCallback : string := "RETENTION".
Definition ExecutionTriggerSchedule : string := "Schedule".
Definition ExecutionTriggerManual : string := "MANUAL".
Definition JobserviceUser : string := "harbor-jobservice".

(** The values of settings: texts and others. *)
Inductive setting := SText (s : string) | SOther.

#[global] Instance setting_eq_dec : EqDecision setting.
Proof. solve_decision. Defined.

Record PTrigger := mkPTrigger { tg_Kind : string; tg_Settings : gmap string setting }.

(** [policy.Metadata]: [PolicyMeta] with the trigger. *)
Record Plan := mkPlan { pl_Meta : PolicyMeta; pl_Trigger : option PTrigger }.

Definition with_id (id : Z) (p : Plan) : Plan :=
  mkPlan (mkPolicyMeta id (pm_Algorithm (pl_Meta p)) (pm_Rules (pl_Meta p)) (pm_Scope (pl_Meta p))) (pl_Trigger p).

(** A row of [retention_policy], whose identifier is a [serial]. *)
Record prow := mkProw {
  pr_ScopeLevel : string;
  pr_ScopeReference : Z;
  pr_TriggerKind : string;
  pr_Data : string;
  pr_CreateTime : Z;
  pr_UpdateTime : Z;
}.

Definition serial_max : Z := 2 ^ 31 - 1.

(** The tables: of [project_metadata] only the values of [retention_id]. *)
Record pst := mkPst {
  psched : sst;
  rpolicies : gmap Z prow;
  next_rpolicy : Z;
  retention_ids : gmap Z string;
}.

Definition on_psched {A} (m : M sst A) : M pst A := fun s =>
  let r := m (psched s) in (r.1, mkPst r.2 (rpolicies s) (next_rpolicy s) (retention_ids s)).

Definition on_ptasks {A} (m : M mgr A) : M pst A := on_psched (on_mgr m).

(** A statement on the tables, of the same database. *)
Definition pdb {A} (f : pst -> result A * pst) : M pst A := fun s =>
  match on_ptasks (lift (dbio get)) s with
  | (Err e, s') => (Err e, s')
  | (Ok _, s') => f s'
  end.

Definition with_rpolicies (s : pst) t := mkPst (psched s) t (next_rpolicy s) (retention_ids s).
Definition with_retention_ids (s : pst) t := mkPst (psched s) (rpolicies s) (next_rpolicy s) t.

(** ** The metadata of projects ([src/pkg/project/metadata]) *)

Definition meta_Get (projectID : Z) : M pst (option string) := pdb (fun s => (Ok (retention_ids s !! projectID), s)).

Definition meta_Add (projectID : Z) (value : string) : M pst unit :=
  pdb (fun s =>
    match retention_ids s !! projectID with
    | Some _ => (Err (WrapConflictError (PgError "23505") ("metadata retention_id already exists for project "
                  ++ Strconv.format_int projectID)%string), s)
    | None => (Ok tt, with_retention_ids s (<[projectID := value]> (retention_ids s)))
    end).

Definition meta_Delete (projectID : Z) : M pst unit :=
  pdb (fun s => (Ok tt, with_retention_ids s (delete projectID (retention_ids s)))).

(** ** The table of policies ([dao/retention.go]) *)

Definition rd_CreatePolicy (r : prow) : M pst Z :=
  pdb (fun s =>
    let id := next_rpolicy s in
    if id >? serial_max then (Err (PgError "2200H"), s)
    else (Ok id, mkPst (psched s) (<[id := r]> (rpolicies s)) (id + 1) (retention_ids s))).

(** The columns [scope_level], [trigger_kind], [data] and [update_time]; that no
    row is there is no error. *)
Definition rd_UpdatePolicy (id : Z) (r : prow) : M pst unit :=
  pdb (fun s => (Ok tt, with_rpolicies s (alter (fun x =>
    mkProw (pr_ScopeLevel r) (pr_ScopeReference x) (pr_TriggerKind r) (pr_Data r) (pr_CreateTime x) (pr_UpdateTime r))
    id (rpolicies s)))).

Definition rd_DeletePolicy (id : Z) : M pst unit :=
  pdb (fun s => (Ok tt, with_rpolicies s (delete id (rpolicies s)))).

Definition rd_GetPolicy (id : Z) : M pst (option prow) := pdb (fun s => (Ok (rpolicies s !! id), s)).

Definition rd_ListPolicies (p : prow -> bool) : M pst (list Z) :=
  pdb (fun s => (Ok (List.filter (fun r => p r.2) (map_to_list (rpolicies s))).*1, s)).

Section Policies.

Context (SubmitJob : JobData -> result string) (PostAction : string -> string -> result unit).
Context (Marshal : list (string * string) -> result string) (coreURL : string).
Context (cron_ok : string -> bool) (json_params : string -> list (string * string)) (callbacks : registry).
(** The JSON of policies and of rules. *)
Context `{J : Json} (encode : Plan -> result string) (decode : string -> result Plan) (rule_json : Rule -> result string).

(** [json.Marshal] whose error is dropped. *)
Definition text_of (r : result string) : string := match r with Ok d => d | Err _ => "" end.

(** ** The manager ([manager.go]) *)

Definition of_pointer {A} (o : option A) : M pst A :=
  match o with Some a => ret a | None => fail nil_pointer end.

Definition mgr_CreatePolicy (p : Plan) (now : Z) : M pst Z :=
  scope <- of_pointer (pm_Scope (pl_Meta p)) ;;
  trigger <- of_pointer (pl_Trigger p) ;;
  rd_CreatePolicy (mkProw (sc_Level scope) (sc_Reference scope) (tg_Kind trigger) (text_of (encode p)) now now).

Definition mgr_UpdatePolicy (p : Plan) (now : Z) : M pst unit :=
  scope <- of_pointer (pm_Scope (pl_Meta p)) ;;
  trigger <- of_pointer (pl_Trigger p) ;;
  rd_UpdatePolicy (pm_ID (pl_Meta p))
    (mkProw (sc_Level scope) (sc_Reference scope) (tg_Kind trigger) (text_of (encode (with_id 0 p))) 0 now).

Definition cron_setting (t : PTrigger) : option setting := tg_Settings t !! TriggerSettingsCron.

(** What reading adds to a trigger: the next time is not a text. *)
Definition next_scheduled (t : PTrigger) : PTrigger :=
  if tg_Kind t =s= TriggerKindSchedule then
    match cron_setting t with
    | Some (SText cron) =>
        if cron =s= "" then t else mkPTrigger (tg_Kind t) (<[TriggerSettingNextScheduledTime := SOther]> (tg_Settings t))
    | _ => t
    end
  else t.

Definition mgr_GetPolicy (id : Z) : M pst Plan :=
  r <- rd_GetPolicy id ;;
  match r with
  | None => fail (Plain ("no such Retention policy with id " ++ Strconv.format_int id)%string)
  | Some p1 =>
      p <- of_result (decode (pr_Data p1)) ;;
      trigger <- of_pointer (pl_Trigger p) ;;
      ret (mkPlan (pl_Meta (with_id id p)) (Some (next_scheduled trigger)))
  end.

Definition ListPolicyIDs (p : prow -> bool) : M pst (list Z) := rd_ListPolicies p.

(** ** The policies ([policy/models.go]) *)

(** [utils.ValidateCronString] *)
Definition ValidateCronString (cron : string) : result unit :=
  if cron =s= "" then Err (Plain "empty cron string is invalid")
  else if negb (cron_ok cron) then Err (Plain "invalid cron")
  else
    let cronParts := GoStrings.Split cron " " in
    if (length cronParts =? 6)%nat && negb (List.hd "" cronParts =s= "0")
    then Err (Plain "the 1st field (indicating Seconds of time) of the cron setting must be 0")
    else Ok tt.

Definition bad_cron (m : string) : error := WithMessage (WithCode (New "") BadRequestCode) m.

Definition ValidateRetentionPolicy (p : Plan) : result unit :=
  match pl_Trigger p with
  | None => Ok tt
  | Some t =>
      if tg_Kind t =s= TriggerKindSchedule then
        match cron_setting t with
        | None => Ok tt
        | Some SOther => Err (bad_cron "invalid cron type for scheduled tag retention: must be a string")
        | Some (SText cron) =>
            if cron =s= "" then Ok tt
            else match ValidateCronString cron with
                 | Err e => Err (bad_cron ("invalid cron string for scheduled tag retention: " ++ cron ++ ", error: " ++ Error_string e)%string)
                 | Ok _ => Ok tt
                 end
        end
      else Ok tt
  end.

Definition WithNDaysSinceLastPull (projID n : Z) : Plan :=
  mkPlan (mkPolicyMeta 0 "or"
    [mkRule 1 1 false
       (Retention.mkRuleMeta "nDaysSinceLastPull" (Retention.one_param "nDaysSinceLastPull" n) "retain"
          [Retention.mkSelectorMeta "doublestar" "matches" "**" ""])
       {["repository" := [Retention.mkSelectorMeta "doublestar" "repoMatches" "**" ""]]}]
    (Some (mkScope "project" projID)))
    (Some (mkPTrigger "Schedule" {["cron" := SText "0 0 0 * * *"]})).

(** ** The controller ([controller.go]) *)

Definition trigger_param (id : Z) : string :=
  json_print (JObj [("PolicyID", JNum id); ("Trigger", JStr ExecutionTriggerSchedule); ("Operator", JStr JobserviceUser)]).

(** The type assertion on the cron. *)
Definition cron_text (t : PTrigger) : result string :=
  match cron_setting t with Some (SText cron) => Ok cron | _ => Err bad_assertion end.

Definition schedule_plan (id : Z) (cron : string) (rand now : Z) : M pst unit :=
  on_psched (Schedule SubmitJob PostAction Marshal [] coreURL cron_ok json_params callbacks
    RetentionVendorType id "" cron SchedulerCallback (Ok (trigger_param id)) (Ok (json_print (JObj []))) rand now) ;;; ret tt.

Definition ctl_CreateRetention (p : Plan) (rand now : Z) : M pst Z :=
  of_result (ValidateRetentionPolicy p) ;;;
  id <- mgr_CreatePolicy p now ;;
  t <- of_pointer (pl_Trigger p) ;;
  (if tg_Kind t =s= TriggerKindSchedule then
     match cron_setting t with
     | None => ret tt
     | Some _ =>
         cron <- of_result (cron_text t) ;;
         if cron =s= "" then ret tt else schedule_plan id cron rand now
     end
   else ret tt) ;;;
  ret id.

(** Whether an update takes the old schedule away, and makes a new one. *)
Definition update_needs (t0 t : PTrigger) : result (bool * bool) :=
  if negb (tg_Kind t0 =s= tg_Kind t)
  then Ok (tg_Kind t0 =s= TriggerKindSchedule, tg_Kind t =s= TriggerKindSchedule)
  else if tg_Kind t =s= TriggerKindSchedule then
    if decide (cron_setting t0 = cron_setting t) then Ok (false, false)
    else
      match cron_text t0 with
      | Err e => Err e
      | Ok cron0 =>
          match cron_text t with
          | Err e => Err e
          | Ok cron => Ok (negb (cron0 =s= ""), negb (cron =s= ""))
          end
      end
  else if tg_Kind t =s= "" then Ok (false, false)
  else Err (Plain ("not support Trigger " ++ tg_Kind t)%string).

Definition ctl_UpdateRetention (p : Plan) (rand now : Z) (world : list (mgr -> mgr)) : M pst unit :=
  of_result (ValidateRetentionPolicy p) ;;;
  p0 <- mgr_GetPolicy (pm_ID (pl_Meta p)) ;;
  t0 <- of_pointer (pl_Trigger p0) ;;
  t <- of_pointer (pl_Trigger p) ;;
  needs <- of_result (update_needs t0 t) ;;
  let '(needUn, needSch) := needs in
  mgr_UpdatePolicy p now ;;;
  (if needUn : bool then on_psched (UnScheduleByVendor PostAction RetentionVendorType (pm_ID (pl_Meta p)) now world) else ret tt) ;;;
  (if needSch : bool then
     cron <- of_result (cron_text t) ;;
     schedule_plan (pm_ID (pl_Meta p)) cron rand now
   else ret tt).

Definition deleteExecs (vendorID : Z) : M pst unit :=
  on_ptasks (
    executions <- lift (exec_List (fun x => (e_VendorType x =s= RetentionVendorType) && (e_VendorID x =? vendorID))) ;;
    iterM (fun r => Delete r.1) executions).

Definition ctl_DeleteRetention (id now : Z) (world : list (mgr -> mgr)) : M pst unit :=
  p <- mgr_GetPolicy id ;;
  t <- of_pointer (pl_Trigger p) ;;
  (if tg_Kind t =s= TriggerKindSchedule then
     cron <- of_result (cron_text t) ;;
     if cron =s= "" then ret tt else on_psched (UnScheduleByVendor PostAction RetentionVendorType id now world)
   else ret tt) ;;;
  deleteExecs id ;;;
  rd_DeletePolicy id.

(** [DeleteRetentionByProject], which runs outside a request. *)
Definition DeleteRetentionByProject (projectID now : Z) (world : list (mgr -> mgr)) : M pst unit :=
  policyIDs <- ListPolicyIDs (fun r => (pr_ScopeLevel r =s= "project") && (pr_ScopeReference r =? projectID)) ;;
  iterM (fun policyID => ctl_DeleteRetention policyID now world) policyIDs.

(** The flag of a run is asserted to be there. *)
Context (dry_run_of : string -> option bool).

Record RetentionExec := mkRetentionExec {
  re_ID : Z; re_PolicyID : Z; re_StartTime : Z; re_EndTime : option Z; re_Status : string; re_Trigger : string;
  re_DryRun : bool; re_Type : string }.

Definition convertExecution (id : Z) (x : Execution) : result RetentionExec :=
  match dry_run_of (e_ExtraAttrs x) with
  | None => Err bad_assertion
  | Some dry => Ok (mkRetentionExec id (e_VendorID x) (e_StartTime x) (e_EndTime x) (e_Status x) (e_Trigger x) dry (e_VendorType x))
  end.

Definition GetRetentionExec (executionID : Z) : M pst RetentionExec :=
  e <- on_ptasks (lift (exec_Get executionID)) ;;
  of_result (convertExecution executionID e).

(** ** The handlers ([handler/retention.go]) *)

(** What the caller may do, in projects and in the system. *)
Record auth := mkAuth { project_access : Z -> string -> result unit; system_access : string -> result unit }.

(** Whether a project exists. *)
Context (project_Get : Z -> result unit).

Definition requireAccess (a : auth) (p : Plan) (action : string) : result unit :=
  match pm_Scope (pl_Meta p) with
  | None => Err nil_pointer
  | Some scope =>
      if sc_Level scope =s= "project" then project_access a (sc_Reference scope) action else system_access a action
  end.

Definition requirePolicyAccess (p : Plan) : M pst unit :=
  scope <- of_pointer (pm_Scope (pl_Meta p)) ;;
  meta <- meta_Get (sc_Reference scope) ;;
  if match meta with
     | Some v => negb (v =s= "") && (v =s= Strconv.format_int (pm_ID (pl_Meta p)))
     | None => false
     end
  then ret tt
  else fail (NotFoundError (Some (New ("the retention policy id " ++ Strconv.format_int (pm_ID (pl_Meta p)) ++ " does not match")%string))).

Definition requireExecutionInProject (p : Plan) (executionID : Z) : M pst unit :=
  exec <- GetRetentionExec executionID ;;
  if (re_PolicyID exec =? pm_ID (pl_Meta p)) && (re_Type exec =s= RetentionVendorType) then ret tt
  else fail (WithMessage (WithCode (New "") NotFoundCode) ("execution id " ++ Strconv.format_int executionID ++ " not found")%string).

(** Rules are in conflict when they have the same JSON without identifier. *)
Fixpoint rule_conflict (n : Z) (temp : list (string * Z)) (rules : list Rule) : result unit :=
  match rules with
  | [] => Ok tt
  | r :: rules' =>
      let bs := text_of (rule_json (mkRule 0 (rl_Priority r) (rl_Disabled r) (rl_Meta r) (rl_ScopeSelectors r))) in
      match List.find (fun x => x.1 =s= bs) temp with
      | Some (_, old) =>
          Err (Plain ("rule " ++ Strconv.format_int n ++ " is conflict with rule " ++ Strconv.format_int old)%string)
      | None => rule_conflict (n + 1) ((bs, n) :: temp) rules'
      end
  end.

Definition checkRuleConflict (p : Plan) : result unit := rule_conflict 0 [] (pm_Rules (pl_Meta p)).

Definition ConflictError (e : error) : error := WithCause (WithCode (New "resource conflict") ConflictCode) (Some e).

Definition check_rules (p : Plan) : result unit :=
  if (15 <? length (pm_Rules (pl_Meta p)))%nat
  then Err (BadRequestError (Some (Plain "only 15 rules are allowed at most")))
  else match checkRuleConflict p with Err e => Err (ConflictError e) | Ok _ => Ok tt end.

Definition invalid_project (id : Z) : error :=
  BadRequestError (Some (Plain ("invalid Project id " ++ Strconv.format_int id)%string)).

Definition check_scope (scope : Scope) : result unit :=
  if sc_Level scope =s= ScopeLevelProject then
    if sc_Reference scope <=? 0 then Err (invalid_project (sc_Reference scope))
    else match project_Get (sc_Reference scope) with
         | Ok _ => Ok tt
         | Err e => if IsNotFoundErr e then Err (invalid_project (sc_Reference scope)) else Err (BadRequestError (Some e))
         end
  else Err (BadRequestError (Some (Plain ("scope " ++ sc_Level scope ++ " is not support")%string))).

Definition CreateRetention (a : auth) (p : Plan) (rand now : Z) : M pst Z :=
  of_result (check_rules p) ;;;
  of_result (requireAccess a p "create") ;;;
  scope <- of_pointer (pm_Scope (pl_Meta p)) ;;
  of_result (check_scope scope) ;;;
  old <- meta_Get (sc_Reference scope) ;;
  match old with
  | Some v => fail (BadRequestError (Some (Plain ("project " ++ Strconv.format_int (sc_Reference scope)
                ++ " already has retention policy " ++ v)%string)))
  | None =>
      id <- ctl_CreateRetention p rand now ;;
      meta_Add (sc_Reference scope) (Strconv.format_int id) ;;;
      ret id
  end.

(** The policy of the request gets the identifier of the path. *)
Definition UpdateRetention (a : auth) (id : Z) (body : Plan) (rand now : Z) (world : list (mgr -> mgr)) : M pst unit :=
  let p := with_id id body in
  of_result (check_rules p) ;;;
  of_result (requireAccess a p "update") ;;;
  requirePolicyAccess p ;;;
  ctl_UpdateRetention p rand now world.

Definition GetRetention (id : Z) : M pst Plan := mgr_GetPolicy id.

Definition bad_request_of {A} (m : M pst A) : M pst A := fun s =>
  match m s with (Err e, s') => (Err (BadRequestError (Some e)), s') | x => x end.

Definition DeleteRetention (a : auth) (id now : Z) (world : list (mgr -> mgr)) : M pst unit :=
  p <- bad_request_of (GetRetention id) ;;
  of_result (requireAccess a p "delete") ;;;
  ctl_DeleteRetention id now world ;;;
  scope <- of_pointer (pm_Scope (pl_Meta p)) ;;
  meta_Delete (sc_Reference scope).

Definition TriggerRetentionExecution (a : auth) (id : Z) (dryRun : bool) (operator : string) (now : Z) : M pst Z :=
  p <- bad_request_of (GetRetention id) ;;
  of_result (requireAccess a p "update") ;;;
  p' <- mgr_GetPolicy id ;;
  on_ptasks (TriggerRetentionExec Marshal (Ok (pl_Meta p')) id ExecutionTriggerManual operator dryRun now).

Definition OperateRetentionExecution (a : auth) (id eid : Z) (action : string) (now : Z) : M pst unit :=
  if negb (action =s= "stop") then fail (BadRequestError (Some (Plain "action should be 'stop'")))
  else
    p <- bad_request_of (GetRetention id) ;;
    of_result (requireAccess a p "update") ;;;
    requirePolicyAccess p ;;;
    requireExecutionInProject p eid ;;;
    on_ptasks (OperateRetentionExec PostAction eid action now).

(** The policy of a new proxy cache project ([handler/project.go]). *)
Definition default_retention (projectID rand now : Z) : M pst unit :=
  retentionID <- ctl_CreateRetention (WithNDaysSinceLastPull projectID 7) rand now ;;
  meta_Add projectID (Strconv.format_int retentionID).

(** Deleting metadata by name ([handler/project_metadata.go]), here [retention_id];
    [access] is whether the caller may delete metadata of the project. *)
Definition DeleteProjectMetadata (access : result unit) (projectID : Z) : M pst unit :=
  of_result access ;;;
  of_result (project_Get projectID) ;;;
  meta_Delete projectID.

End Policies.
