(* ===== verification/RetentionPolicySpec.v ===== *)
(** * Tag retention: policies, schedules and projects stay in step

    Whatever requests are served and whichever of their statements fail, a policy
    with times has its one schedule, which calls it back; and a project names its
    one policy, unless the name is deleted from its metadata.  The deletion of a
    project removes its policies outside of a request, and may stop half-way: of
    the policies of such projects less is kept ([half_deleted_policy]). *)

From S2P Require Import Prelude Errors JobStatus TaskDao TaskManager Scheduler SchedulerSpec RegFilter RepPolicy.
From S2P Require Import RetentionRun RetentionPolicy.
From S2P Require Retention.

Section Sync.

Context (SubmitJob : JobData -> result string) (PostAction : string -> string -> result unit).
Context (Marshal : list (string * string) -> result string) (coreURL : string).
Context (cron_ok : string -> bool) (json_params : string -> list (string * string)) (callbacks : registry).
Context `{J : Json} (encode : Plan -> result string) (decode : string -> result Plan) (rule_json : Rule -> result string).
Context (dry_run_of : string -> option bool) (project_Get : Z -> result unit).

(** ** The invariants *)

(** The times of a policy. *)
Definition trigger_cron (t : PTrigger) : option string :=
  if tg_Kind t =s= TriggerKindSchedule then
    match cron_setting t with Some (SText cron) => if cron =s= "" then None else Some cron | _ => None end
  else None.

Definition cron_of (p : Plan) : option string := pl_Trigger p ≫= trigger_cron.

Definition plan_of (r : prow) : option string := match decode (pr_Data r) with Ok p => cron_of p | Err _ => None end.

(** The project of a policy. *)
Definition project_of (r : prow) : option Z :=
  match decode (pr_Data r) with Ok p => sc_Reference <$> pm_Scope (pl_Meta p) | Err _ => None end.

Definition complete (p : Plan) : Prop := is_Some (pl_Trigger p) /\ is_Some (pm_Scope (pl_Meta p)).

Abbreviation in_step := (in_step RetentionVendorType SchedulerCallback trigger_param).

(** Each policy has its plan, but for those of projects whose deletion may have
    failed half-way, which may have lost it. *)
Definition planned (gone : gset Z) (t : gmap Z prow) (ps : gmap Z (option string)) : Prop :=
  forall id, match t !! id, ps !! id with
             | Some r, Some c => c = plan_of r \/ (c = None /\ pr_ScopeReference r ∈ gone)
             | None, None => True
             | _, _ => False
             end.

Record sound (gone : gset Z) (s : pst) : Prop := mkSound {
  so_ids : forall id r, rpolicies s !! id = Some r -> 0 < id < next_rpolicy s;
  so_next : 0 < next_rpolicy s <= serial_max + 1;
  so_read : forall id r, rpolicies s !! id = Some r -> exists p, decode (pr_Data r) = Ok p /\ complete p;
  so_step : exists ps, in_step ps (psched s) /\ planned gone (rpolicies s) ps }.

(** Each policy is named by its project, and what a project names is its policy,
    which is gone only with the project. *)
Record named (gone : gset Z) (s : pst) : Prop := mkNamed {
  na_row : forall id r, rpolicies s !! id = Some r ->
    project_of r = Some (pr_ScopeReference r) /\ retention_ids s !! pr_ScopeReference r = Some (Strconv.format_int id);
  na_meta : forall P v, retention_ids s !! P = Some v ->
    exists id, v = Strconv.format_int id /\ 0 < id < next_rpolicy s
    /\ match rpolicies s !! id with Some r => pr_ScopeReference r = P | None => P ∈ gone end }.

Lemma planned_insert gone t ps id r c : planned gone t ps ->
  c = plan_of r \/ (c = None /\ pr_ScopeReference r ∈ gone) -> planned gone (<[id := r]> t) (<[id := c]> ps).
Proof.
  intros H Hc j. destruct (decide (id = j)) as [<-|N]; [by rewrite !lookup_insert_eq|]. rewrite !lookup_insert_ne by done. apply H.
Qed.

Lemma planned_delete gone t ps id : planned gone t ps -> planned gone (delete id t) (delete id ps).
Proof.
  intros H j. destruct (decide (id = j)) as [<-|N]; [by rewrite !lookup_delete_eq|]. rewrite !lookup_delete_ne by done. apply H.
Qed.

Lemma planned_lookup gone t ps id r : planned gone t ps -> t !! id = Some r ->
  exists c, ps !! id = Some c /\ (c = plan_of r \/ (c = None /\ pr_ScopeReference r ∈ gone)).
Proof. intros H L. specialize (H id). rewrite L in H. destruct (ps !! id) as [c|]; [by exists c|done]. Qed.

Lemma planned_none gone t ps id : planned gone t ps -> t !! id = None -> ps !! id = None.
Proof. intros H L. specialize (H id). rewrite L in H. by destruct (ps !! id). Qed.

Lemma planned_mono gone gone' t ps : gone ⊆ gone' -> planned gone t ps -> planned gone' t ps.
Proof.
  intros Hg H id. specialize (H id). destruct (t !! id), (ps !! id); try done.
  destruct H as [H|[H1 H2]]; [by left|right]. split; [done|set_solver].
Qed.

Lemma sound_mono gone gone' s : gone ⊆ gone' -> sound gone s -> sound gone' s.
Proof. intros Hg [H1 H2 H3 (ps & H4 & H5)]. split; try done. exists ps. split; [done|by eapply planned_mono]. Qed.

Lemma named_mono gone gone' s : gone ⊆ gone' -> named gone s -> named gone' s.
Proof.
  intros Hg [H1 H2]. split; [done|]. intros P v L. destruct (H2 P v L) as (id & E & R & M). exists id. split; [done|]. split; [done|].
  destruct (rpolicies s !! id); [done|set_solver].
Qed.

(** ** Operations that leave the tables alone *)

Record same_tables (s s' : pst) : Prop := mkSame {
  sm_schedules : schedules (psched s') = schedules (psched s);
  sm_next : next_schedule (psched s') = next_schedule (psched s);
  sm_policies : rpolicies s' = rpolicies s;
  sm_serial : next_rpolicy s' = next_rpolicy s;
  sm_ids : retention_ids s' = retention_ids s }.

#[local] Instance same_tables_preorder : PreOrder same_tables.
Proof. split; [by intros s|]. intros s1 s2 s3 [] []. split; congruence. Qed.

Lemma same_on_ptasks {A} (m : M mgr A) : along same_tables (on_ptasks m).
Proof. by intros s. Qed.

Lemma same_pdb {A} (f : pst -> result A * pst) : (forall s, same_tables s (f s).2) -> along same_tables (pdb f).
Proof.
  intros H s. unfold pdb. pose proof (same_on_ptasks (lift (dbio get)) s) as K.
  destruct (on_ptasks _ s) as [[d|e] s1]; [|exact K]. etrans; [exact K|apply H].
Qed.

Lemma pdb_ok {A} (f : pst -> result A * pst) s a s' :
  pdb f s = (Ok a, s') -> exists s1, same_tables s s1 /\ f s1 = (Ok a, s').
Proof.
  unfold pdb. pose proof (same_on_ptasks (lift (dbio get)) s) as K.
  destruct (on_ptasks _ s) as [[d|e] s1]; [|done]. intros E. by exists s1.
Qed.

Lemma same_of_pointer {A} (o : option A) : along same_tables (of_pointer o).
Proof. by destruct o; intros s. Qed.

#[local] Hint Resolve along_bind along_of_result along_iterM same_of_pointer same_on_ptasks : core.

Lemma same_mgr_GetPolicy id : along same_tables (mgr_GetPolicy decode id).
Proof.
  apply along_bind; [apply _|by apply same_pdb|]. intros [r|]; [|by intros s].
  apply along_bind; [apply _|by intros s|]. intros p. apply along_bind; [apply _|done|]. by intros t s.
Qed.

Lemma same_meta_Get P : along same_tables (meta_Get P).
Proof. by apply same_pdb. Qed.

Lemma same_requirePolicyAccess p : along same_tables (requirePolicyAccess p).
Proof.
  apply along_bind; [apply _|done|]. intros sc. apply along_bind; [apply _|apply same_meta_Get|].
  intros [v|]; [|by intros s]. by destruct (_ && _); intros s.
Qed.

Lemma sound_same gone s s' : same_tables s s' -> sound gone s -> sound gone s'.
Proof.
  intros [A B C D _] [H1 H2 H3 (ps & H4 & H5)]. split; rewrite ?C, ?D; try assumption. exists ps. split; [|done].
  eapply in_step_ext; [exact A|lia|exact H4].
Qed.

Lemma named_same gone s s' : same_tables s s' -> named gone s -> named gone s'.
Proof. intros [_ _ C D E] [H1 H2]. split; rewrite C, E, ?D; assumption. Qed.

Lemma next_scheduled_cron t : trigger_cron (next_scheduled t) = trigger_cron t.
Proof.
  unfold trigger_cron, next_scheduled. destruct (tg_Kind t =s= _) eqn:Kd; [|by rewrite Kd]. unfold cron_setting.
  destruct (tg_Settings t !! _) as [[c|]|] eqn:C; [|by rewrite Kd, C..].
  destruct (c =s= "") eqn:Ce; [by rewrite Kd, C, Ce|]. cbn. rewrite Kd.
  rewrite lookup_insert_ne by done. by rewrite C, Ce.
Qed.

(** What is read is the policy of the row, with its identifier. *)
Lemma mgr_GetPolicy_ok id s p s' : mgr_GetPolicy decode id s = (Ok p, s') ->
  exists r q, rpolicies s !! id = Some r /\ decode (pr_Data r) = Ok q /\ pl_Meta p = pl_Meta (with_id id q)
  /\ pl_Trigger p = next_scheduled <$> pl_Trigger q /\ cron_of p = cron_of q.
Proof.
  intros E. apply bind_inv in E as (o & s1 & E1 & E). apply pdb_ok in E1 as (s2 & K & [= <- <-]).
  rewrite (sm_policies _ _ K) in E. destruct (rpolicies s !! id) as [r|] eqn:L; [|done].
  apply bind_inv in E as (q & s3 & E3 & E). apply bind_inv in E as (t & s4 & E4 & [= <- _]).
  unfold of_result in E3. injection E3 as D _. unfold of_pointer in E4.
  destruct (pl_Trigger q) as [t'|] eqn:T; [|done]. injection E4 as <- _.
  exists r, q. rewrite D, T. split_and!; [done..|]. unfold cron_of. rewrite T. apply next_scheduled_cron.
Qed.

(** ** The operations of the controller *)

(** The same rows, and the schedules in step with given plans. *)
Record moved (ps : gmap Z (option string)) (s s' : pst) : Prop := mkMoved {
  mv_step : in_step ps (psched s');
  mv_policies : rpolicies s' = rpolicies s;
  mv_serial : next_rpolicy s' = next_rpolicy s;
  mv_ids : retention_ids s' = retention_ids s }.

Lemma moved_refl ps s : in_step ps (psched s) -> moved ps s s.
Proof. by split. Qed.

Lemma moved_trans ps1 ps2 s1 s2 s3 : moved ps1 s1 s2 -> moved ps2 s2 s3 -> moved ps2 s1 s3.
Proof. intros [_ A B C] [D E F G]. split; congruence. Qed.

Abbreviation schedule_plan := (schedule_plan SubmitJob PostAction Marshal coreURL cron_ok json_params callbacks).

Lemma schedule_plan_ok ps id cron rand now s s' :
  in_step ps (psched s) -> ps !! id = Some None -> schedule_plan id cron rand now s = (Ok tt, s') ->
  moved (<[id := Some cron]> ps) s s' /\ cron_ok (randomize rand cron) = true.
Proof.
  intros I L E. apply bind_inv in E as (k & s1 & E & [= <-]). unfold on_psched in E.
  destruct (Schedule _ _ _ _ _ _ _ _ _ _ _ _ _ _ _ _ _ (psched s)) as [[k'|e] s2] eqn:F; [|done].
  cbn in E. injection E as <- <-. pose proof (in_step_scheduled _ _ _ I L F) as I'.
  apply Schedule_ok in F as [C _]. split; [by split|exact C].
Qed.

Lemma unschedule_plan_ok ps id now world s s' :
  in_step ps (psched s) -> is_Some (ps !! id) ->
  on_psched (UnScheduleByVendor PostAction RetentionVendorType id now world) s = (Ok tt, s') ->
  moved (<[id := None]> ps) s s'.
Proof.
  intros I L E. unfold on_psched in E. destruct (UnScheduleByVendor _ _ _ _ _ (psched s)) as [[[]|e] t] eqn:F; [|done].
  cbn in E. injection E as <-. split; [|done..]. by eapply in_step_unscheduled.
Qed.

(** An empty text is no cron. *)
Context (no_times : forall rand, cron_ok (randomize rand "") = false).

Definition storable (p : Plan) : Prop := decode (text_of (encode p)) = Ok p.

Abbreviation ctl_CreateRetention := (ctl_CreateRetention SubmitJob PostAction Marshal coreURL cron_ok json_params callbacks encode).
Abbreviation ctl_UpdateRetention := (ctl_UpdateRetention SubmitJob PostAction Marshal coreURL cron_ok json_params callbacks encode decode).
Abbreviation ctl_DeleteRetention := (ctl_DeleteRetention PostAction decode).

Lemma of_pointer_ok {A} (o : option A) s a s' : of_pointer o s = (Ok a, s') -> o = Some a /\ s' = s.
Proof. destruct o; [|done]. by intros [= <- <-]. Qed.

Lemma of_result_ok {St A} (r : result A) (s : St) a s' : of_result r s = (Ok a, s') -> r = Ok a /\ s' = s.
Proof. unfold of_result. by intros [= -> <-]. Qed.

Lemma plan_of_decode r p : decode (pr_Data r) = Ok p -> plan_of r = cron_of p.
Proof. unfold plan_of. by intros ->. Qed.

Lemma ctl_CreateRetention_ok gone p rand now s id s' :
  sound gone s -> storable p -> ctl_CreateRetention p rand now s = (Ok id, s') ->
  sound gone s' /\ rpolicies s !! id = None /\ next_rpolicy s <= id /\ retention_ids s' = retention_ids s
  /\ exists r, decode (pr_Data r) = Ok p /\ rpolicies s' = <[id := r]> (rpolicies s)
     /\ sc_Reference <$> pm_Scope (pl_Meta p) = Some (pr_ScopeReference r).
Proof.
  intros Y W E. apply bind_inv in E as ([] & s1 & E1 & E). apply of_result_ok in E1 as [_ ->].
  apply bind_inv in E as (i & s1 & E1 & E).
  apply bind_inv in E1 as (sc & s2 & E2 & E1). apply of_pointer_ok in E2 as [Sc ->].
  apply bind_inv in E1 as (t & s2 & E2 & E1). apply of_pointer_ok in E2 as [T ->].
  apply pdb_ok in E1 as (s2 & K & E1). pose proof (sound_same _ _ _ K Y) as Y2.
  cbv zeta in E1. destruct (next_rpolicy s2 >? serial_max) eqn:Mx; [done|]. injection E1 as <- <-.
  rewrite Z.gtb_ltb in Mx. apply Z.ltb_ge in Mx.
  set (r := mkProw _ _ _ (text_of (encode p)) now now) in *. set (n := next_rpolicy s2) in *.
  destruct Y2 as [H1 H2 H3 (ps & H4 & H5)]. fold n in H1, H2.
  assert (F : rpolicies s2 !! n = None) by (destruct (rpolicies s2 !! n) eqn:F; [apply H1 in F; lia|done]).
  assert (D : decode (pr_Data r) = Ok p) by exact W.
  apply bind_inv in E as (t' & s3 & E3 & E). apply of_pointer_ok in E3 as [T' ->]. rewrite T in T'. injection T' as <-.
  apply bind_inv in E as ([] & s3 & E & [= <- <-]).
  set (s0 := mkPst (psched s2) (<[n := r]> (rpolicies s2)) (n + 1) (retention_ids s2)) in *.
  assert (I : in_step (<[n := None]> ps) (psched s0)).
  { apply in_step_new; [done| |lia]. by eapply planned_none. }
  assert (Mv : moved (<[n := cron_of p]> ps) s0 s3).
  { unfold cron_of. rewrite T. cbn. unfold trigger_cron. destruct (tg_Kind t =s= TriggerKindSchedule); [|injection E as <-; by apply moved_refl].
    unfold cron_text in E. destruct (cron_setting t) as [[c|]|]; [|done|injection E as <-; by apply moved_refl].
    apply bind_inv in E as (c' & s4 & E4 & E). apply of_result_ok in E4 as [[= <-] ->].
    destruct (c =s= ""); [injection E as <-; by apply moved_refl|].
    eapply schedule_plan_ok in E as [E _]; [|exact I|apply lookup_insert_eq]. by rewrite insert_insert_eq in E. }
  destruct Mv as [M1 M2 M3 M4]. cbn [s0 rpolicies next_rpolicy retention_ids psched] in *.
  pose proof (sm_policies _ _ K) as Kp. pose proof (sm_ids _ _ K) as Ki.
  pose proof (sm_serial _ _ K) as Kn. fold n in Kn.
  split; [|split; [by rewrite <- Kp|split; [lia|split; [by rewrite M4, Ki|]]]]; [|exists r; by rewrite M2, Kp, Sc].
  split; rewrite ?M2, ?M3.
  - intros j r' [[<- _]|[_ L]]%lookup_insert_Some; [lia|]. apply H1 in L. lia.
  - lia.
  - intros j r' [[<- <-]|[_ L]]%lookup_insert_Some; [|by apply (H3 j)].
    exists p. split; [done|]. split; [by exists t|by exists sc].
  - eexists. split; [exact M1|]. apply planned_insert; [done|]. left. by rewrite (plan_of_decode r p D).
Qed.

Lemma trigger_cron_text t c : (tg_Kind t =s= TriggerKindSchedule) = true -> cron_text t = Ok c ->
  trigger_cron t = if c =s= "" then None else Some c.
Proof. unfold cron_text, trigger_cron. intros ->. by destruct (cron_setting t) as [[d|]|]; intros [= ->]. Qed.

(** The decisions of an update are those that its two triggers call for. *)
Lemma update_needs_spec t0 t un sch : update_needs t0 t = Ok (un, sch) ->
  (un = false -> trigger_cron t0 = None \/ (sch = false /\ trigger_cron t0 = trigger_cron t))
  /\ (sch = false -> trigger_cron t = None \/ (un = false /\ trigger_cron t0 = trigger_cron t))
  /\ (sch = true -> (tg_Kind t =s= TriggerKindSchedule) = true).
Proof.
  unfold update_needs. destruct (tg_Kind t0 =s= tg_Kind t) eqn:Kd; cbn [negb].
  - apply String.eqb_eq in Kd. destruct (tg_Kind t =s= TriggerKindSchedule) eqn:Ks.
    + destruct (decide _) as [Ec|_].
      { intros [= <- <-]. assert (trigger_cron t0 = trigger_cron t) by (unfold trigger_cron; by rewrite Kd, Ec).
        split; [|split; [|done]]; by right. }
      destruct (cron_text t0) as [c0|] eqn:C0; [|done]. destruct (cron_text t) as [c|] eqn:C; [|done].
      intros [= <- <-]. rewrite (trigger_cron_text t c) by done. rewrite (trigger_cron_text t0 c0) by (by rewrite ?Kd).
      split; [|split; [|done]]; intros H%negb_false_iff; rewrite H; by left.
    + destruct (tg_Kind t =s= ""); [|done]. intros [= <- <-]. unfold trigger_cron. rewrite Kd, Ks.
      split; [|split; [|done]]; by left.
  - intros [= <- <-]. unfold trigger_cron. split; [|split; [|done]]; intros ->; by left.
Qed.

(** What an update does to the schedules; [G] says why the plan may be lost. *)
Lemma reschedule_ok (G : Prop) ps id c0 t0 t un sch rand now world s s' :
  in_step ps (psched s) -> ps !! id = Some c0 -> c0 = trigger_cron t0 \/ (c0 = None /\ G) -> update_needs t0 t = Ok (un, sch) ->
  ((if un then on_psched (UnScheduleByVendor PostAction RetentionVendorType id now world) else ret tt) ;;;
   (if sch then cron <- of_result (cron_text t) ;; schedule_plan id cron rand now else ret tt)) s = (Ok tt, s') ->
  exists c, moved (<[id := c]> ps) s s' /\ (c = trigger_cron t \/ (c = None /\ G)).
Proof.
  intros I L C0 Nd E. destruct (update_needs_spec _ _ _ _ Nd) as (U1 & U2 & U3).
  apply bind_inv in E as ([] & s1 & E1 & E).
  assert (M : moved (<[id := if un then None else c0]> ps) s s1).
  { destruct un; [by eapply unschedule_plan_ok|]. injection E1 as <-. apply moved_refl. by rewrite insert_id. }
  destruct sch.
  - apply bind_inv in E as (c & s2 & E2 & E). apply of_result_ok in E2 as [Ct ->].
    assert (Z : (if un then None else c0) = None).
    { destruct un; [done|]. destruct C0 as [->|[-> _]]; [|done]. by destruct (U1 eq_refl) as [|[? _]]. }
    rewrite Z in M. eapply schedule_plan_ok in E as [E Ok']; [|apply M|apply lookup_insert_eq].
    rewrite insert_insert_eq in E. exists (trigger_cron t). split; [|by left]. rewrite (trigger_cron_text t c) by auto.
    destruct (c =s= "") eqn:Ce; [apply String.eqb_eq in Ce as ->; by rewrite no_times in Ok'|]. by eapply moved_trans.
  - injection E as <-. eexists. split; [exact M|]. destruct C0 as [->|[-> Hg]].
    + left. destruct (U2 eq_refl) as [Z|[-> <-]]; [|done]. rewrite Z. destruct un; [done|].
      destruct (U1 eq_refl) as [|[_ Z0]]; congruence.
    + right. split; [by destruct un|done].
Qed.

Lemma alter_row (f : prow -> prow) (m : gmap Z prow) id r : m !! id = Some r -> alter f id m = <[id := f r]> m.
Proof.
  intros L. apply map_eq. intros j. destruct (decide (j = id)) as [->|N].
  - by rewrite lookup_alter_eq, lookup_insert_eq, L.
  - by rewrite lookup_alter_ne, lookup_insert_ne by done.
Qed.

Lemma mgr_UpdatePolicy_ok p now s s' r : rpolicies s !! pm_ID (pl_Meta p) = Some r -> mgr_UpdatePolicy encode p now s = (Ok tt, s') ->
  complete p /\ exists r', pr_Data r' = text_of (encode (with_id 0 p)) /\ pr_ScopeReference r' = pr_ScopeReference r
  /\ same_tables (with_rpolicies s (<[pm_ID (pl_Meta p) := r']> (rpolicies s))) s'.
Proof.
  intros L E. apply bind_inv in E as (sc & s1 & E1 & E). apply of_pointer_ok in E1 as [Sc ->].
  apply bind_inv in E as (t & s1 & E1 & E). apply of_pointer_ok in E1 as [T ->].
  apply pdb_ok in E as (s1 & [A B P N I] & [= <-]). split; [split; [by exists t|by exists sc]|].
  exists (mkProw (sc_Level sc) (pr_ScopeReference r) (tg_Kind t) (text_of (encode (with_id 0 p))) (pr_CreateTime r) now).
  split; [done|]. split; [done|]. split; cbn; try done. rewrite P. exact (alter_row _ _ _ _ L).
Qed.

Lemma ctl_UpdateRetention_ok gone p rand now world s s' :
  sound gone s -> storable (with_id 0 p) -> ctl_UpdateRetention p rand now world s = (Ok tt, s') ->
  let id := pm_ID (pl_Meta p) in
  sound gone s' /\ retention_ids s' = retention_ids s /\ next_rpolicy s' = next_rpolicy s
  /\ exists r0 r, rpolicies s !! id = Some r0 /\ decode (pr_Data r) = Ok (with_id 0 p)
     /\ pr_ScopeReference r = pr_ScopeReference r0 /\ rpolicies s' = <[id := r]> (rpolicies s).
Proof.
  intros Y W E id. apply bind_inv in E as ([] & s1 & E1 & E). apply of_result_ok in E1 as [_ ->].
  apply bind_inv in E as (p0 & s1 & E1 & E). pose proof (same_mgr_GetPolicy id s) as K. unfold id in K at 1.
  rewrite E1 in K. cbn [snd] in K. apply mgr_GetPolicy_ok in E1 as (r & q & L & D & _ & T & C). fold id in L.
  apply bind_inv in E as (t0 & s2 & E2 & E). apply of_pointer_ok in E2 as [T0 ->].
  apply bind_inv in E as (t & s2 & E2 & E). apply of_pointer_ok in E2 as [Tp ->].
  apply bind_inv in E as ([un sch] & s2 & E2 & E). apply of_result_ok in E2 as [Nd ->].
  apply bind_inv in E as ([] & s2 & E2 & E). rewrite <- (sm_policies _ _ K) in L.
  apply (mgr_UpdatePolicy_ok _ _ _ _ r L) in E2 as (Cp & r' & D' & Sr & [A B P N I]). fold id in P, E, L.
  cbn [psched next_rpolicy rpolicies retention_ids with_rpolicies] in *.
  destruct (sound_same _ _ _ K Y) as [H1 H2 H3 (ps & H4 & H5)]. destruct K as [_ _ Kp Kn Ki].
  assert (Dr : decode (pr_Data r') = Ok (with_id 0 p)) by (rewrite D'; exact W).
  assert (C0 : cron_of q = trigger_cron t0) by (rewrite <- C; unfold cron_of; by rewrite T0).
  assert (C1 : cron_of (with_id 0 p) = trigger_cron t) by (unfold cron_of; cbn; by rewrite Tp).
  destruct (planned_lookup _ _ _ _ _ H5 L) as (c0 & L0 & Hc0). rewrite (plan_of_decode r q D), C0 in Hc0.
  eapply (reschedule_ok (pr_ScopeReference r ∈ gone) ps) in E as (c & [M1 M2 M3 M5] & Hc);
    [|by eapply in_step_ext; [exact A|lia|]|exact L0|exact Hc0|exact Nd].
  rewrite P in M2. rewrite N in M3. rewrite I, Ki in M5. rewrite <- Kp.
  split; [|split; [done|split; [congruence|by exists r, r']]]. split; rewrite ?M2, ?M3; [|done| |].
  - intros j x [[<- _]|[_ Lj]]%lookup_insert_Some; [by eapply H1|by apply H1 in Lj].
  - intros j x [[<- <-]|[_ Lj]]%lookup_insert_Some; [by exists (with_id 0 p)|by apply (H3 j)].
  - eexists. split; [exact M1|]. apply planned_insert; [done|]. by rewrite (plan_of_decode r' _ Dr), C1, Sr.
Qed.

Lemma ctl_DeleteRetention_ok gone id now world s s' :
  sound gone s -> ctl_DeleteRetention id now world s = (Ok tt, s') ->
  sound gone s' /\ retention_ids s' = retention_ids s /\ next_rpolicy s' = next_rpolicy s
  /\ is_Some (rpolicies s !! id) /\ rpolicies s' = delete id (rpolicies s).
Proof.
  intros Y E. apply bind_inv in E as (p & s1 & E1 & E). pose proof (same_mgr_GetPolicy id s) as K.
  rewrite E1 in K. cbn [snd] in K. apply mgr_GetPolicy_ok in E1 as (r & q & L & D & _ & T & C).
  apply bind_inv in E as (t & s2 & E2 & E). apply of_pointer_ok in E2 as [T0 ->].
  apply bind_inv in E as ([] & s2 & E2 & E). apply bind_inv in E as ([] & s3 & E3 & E).
  apply pdb_ok in E as (s4 & K4 & [= <-]).
  pose proof (same_on_ptasks (executions <- lift (exec_List (fun x => (e_VendorType x =s= RetentionVendorType) && (e_VendorID x =? id))) ;;
    iterM (fun r => Delete r.1) executions) s2) as K3. unfold deleteExecs in E3. rewrite E3 in K3. cbn [snd] in K3.
  pose proof (transitivity (R := same_tables) K3 K4) as [A B P N I]. clear K3 K4 s3 E3.
  pose proof (sound_same _ _ _ K Y) as [H1 H2 H3 (P0 & H4 & H5)]. pose proof (sm_policies _ _ K) as Kp. pose proof (sm_ids _ _ K) as Ki.
  rewrite <- Kp in L. destruct (planned_lookup _ _ _ _ _ H5 L) as (c0 & L0 & Hc0).
  assert (C0 : plan_of r = trigger_cron t) by (rewrite (plan_of_decode r q D), <- C; unfold cron_of; by rewrite T0).
  rewrite C0 in Hc0.
  assert (M : moved (<[id := None]> P0) s1 s2).
  { unfold trigger_cron in Hc0. destruct (tg_Kind t =s= TriggerKindSchedule).
    - apply bind_inv in E2 as (c & s5 & E5 & E2). apply of_result_ok in E5 as [Ct ->]. unfold cron_text in Ct.
      destruct (cron_setting t) as [[c'|]|]; [|done..]. injection Ct as ->.
      destruct (c =s= ""); [|eapply unschedule_plan_ok; [exact H4|by rewrite L0|exact E2]].
      injection E2 as <-. apply moved_refl. rewrite insert_id; [done|]. by destruct Hc0 as [->|[-> _]].
    - injection E2 as <-. apply moved_refl. rewrite insert_id; [done|]. by destruct Hc0 as [->|[-> _]]. }
  destruct M as [M1 M2 M3 M5]. cbn [rpolicies next_rpolicy retention_ids psched with_rpolicies].
  pose proof (sm_serial _ _ K) as Kn.
  split; [|split; [by rewrite I, M5|split; [congruence|split; [by rewrite <- Kp, L|by rewrite P, M2, Kp]]]].
  split; cbn [rpolicies next_rpolicy psched with_rpolicies]; rewrite ?P, ?M2, ?N, ?M3.
  - intros j x [_ Lj]%lookup_delete_Some. by eapply H1.
  - done.
  - intros j x [_ Lj]%lookup_delete_Some. by apply (H3 j).
  - apply (in_step_removed _ _ _ _ _ id) in M1; [|apply lookup_insert_eq]. rewrite delete_insert_eq in M1.
    eexists. split; [eapply in_step_ext; [exact A|lia|exact M1]|by apply planned_delete].
Qed.

(** *** Deletions outside of requests, which may stop anywhere *)

(** Some schedules of a policy are gone, and nothing else. *)
Record loses_schedules (id : Z) (s s' : pst) : Prop := mkLoses {
  ls_policies : rpolicies s' = rpolicies s;
  ls_serial : next_rpolicy s' = next_rpolicy s;
  ls_ids : retention_ids s' = retention_ids s;
  ls_next : next_schedule (psched s) <= next_schedule (psched s');
  ls_schedules : forall k, schedules (psched s') !! k = schedules (psched s) !! k
    \/ (schedules (psched s') !! k = None
        /\ exists x, schedules (psched s) !! k = Some x /\ of_vendor RetentionVendorType id x = true) }.

#[local] Instance loses_schedules_preorder id : PreOrder (loses_schedules id).
Proof.
  split; [intros s; split; try done; by left|]. intros s1 s2 s3 [A1 A2 A3 A4 A5] [B1 B2 B3 B4 B5].
  split; [congruence..|lia|]. intros k. destruct (B5 k) as [E|(E & x & L & V)].
  - rewrite E. apply A5.
  - destruct (A5 k) as [E'|[E' _]]; [|congruence]. right. split; [done|]. exists x. by rewrite <- E'.
Qed.

Lemma loses_same id {A} (m : M pst A) : along same_tables m -> along (loses_schedules id) m.
Proof. intros H s. destruct (H s) as [A1 A2 A3 A4 A5]. split; try done; [lia|]. intros k. left. by rewrite A1. Qed.

Lemma loses_unschedule id now world : 0 < id ->
  along (loses_schedules id) (on_psched (UnScheduleByVendor PostAction RetentionVendorType id now world)).
Proof.
  intros P s. split; try done; [apply (advances_UnScheduleByVendor PostAction)|]. by apply UnScheduleByVendor_any.
Qed.

Lemma sound_loses gone id s s' : sound gone s -> loses_schedules id s s' ->
  (forall r, rpolicies s !! id = Some r -> pr_ScopeReference r ∈ gone) -> sound gone s'.
Proof.
  intros [H1 H2 H3 (ps & H4 & H5)] [A B C D E] Hg. split; rewrite ?A, ?B; try done.
  destruct (in_step_some_removed _ _ _ _ _ _ id H4 D E) as [I|[S I]]; [by exists ps|]. eexists. split; [exact I|].
  destruct (rpolicies s !! id) as [r|] eqn:L; [|destruct S as [c S]; by rewrite (planned_none _ _ _ _ H5 L) in S].
  rewrite <- (insert_id _ _ _ L) at 1. apply planned_insert; [done|]. right. split; [done|]. by apply Hg.
Qed.

(** What an operation does when it fails. *)
Definition on_failure {A} (R : pst -> pst -> Prop) (m : M pst A) : Prop := forall s e s', m s = (Err e, s') -> R s s'.

Lemma on_failure_bind {A B} (R : pst -> pst -> Prop) `{!PreOrder R} (m : M pst A) (k : A -> M pst B) :
  along R m -> (forall a, on_failure R (k a)) -> on_failure R (bind m k).
Proof.
  intros Hm Hk s e s'. unfold bind. specialize (Hm s). destruct (m s) as [[a|e1] s1]; cbn in Hm.
  - intros E. etrans; [exact Hm|by eapply Hk].
  - by intros [= _ <-].
Qed.

(** However it ends, the deletion of a policy of a deleted project leaves the
    tables sound. *)
Lemma ctl_DeleteRetention_any gone id now world s : sound gone s ->
  (forall r, rpolicies s !! id = Some r -> pr_ScopeReference r ∈ gone) ->
  let s' := (ctl_DeleteRetention id now world s).2 in
  sound gone s' /\ retention_ids s' = retention_ids s /\ next_rpolicy s' = next_rpolicy s
  /\ (rpolicies s' = rpolicies s \/ rpolicies s' = delete id (rpolicies s)).
Proof.
  intros Y Hg s'. destruct (ctl_DeleteRetention id now world s) as [[[]|e] s1] eqn:E; cbn in s'; subst s'.
  { apply (ctl_DeleteRetention_ok gone) in E as (H1 & H2 & H3 & _ & H4); [|done]. auto. }
  assert (Ls : loses_schedules id s s1).
  { unfold RetentionPolicy.ctl_DeleteRetention, bind at 1 in E. pose proof (loses_same id _ (same_mgr_GetPolicy id) s) as L1.
    destruct (mgr_GetPolicy decode id s) as [[p|e1] s2] eqn:E1; cbn in L1; [|by injection E as _ <-].
    apply mgr_GetPolicy_ok in E1 as (r & q & Lr & _). pose proof (so_ids _ _ Y id r Lr) as [P _].
    etrans; [exact L1|]. clear L1 Lr. revert E. generalize s1. clear s1. intros s1. revert s2 e s1.
    apply on_failure_bind; [apply _|apply loses_same, same_of_pointer|]. intros t. apply on_failure_bind; [apply _| |].
    - destruct (tg_Kind t =s= _); [|by intros ?]. apply along_bind; [apply _|apply along_of_result, _|]. intros cron.
      destruct (cron =s= ""); [by intros ?|by apply loses_unschedule].
    - intros _. apply on_failure_bind; [apply _|by apply loses_same|]. intros _ s2 e s1 E.
      unfold rd_DeletePolicy, pdb in E. pose proof (loses_same id _ (same_on_ptasks (lift (dbio get))) s2) as K.
      destruct (on_ptasks _ s2) as [[d|e'] s3]; [done|]. by injection E as _ <-. }
  split; [by eapply sound_loses|]. destruct Ls as [B1 B2 B3 _ _]. auto.
Qed.

(** ** Naming *)

Lemma format_id_inj a b : 0 < a <= serial_max -> 0 < b <= serial_max -> Strconv.format_int a = Strconv.format_int b -> a = b.
Proof.
  intros A B E. assert (R : forall z, 0 < z <= serial_max -> Int64.in_range z).
  { intros z Hz. unfold Int64.in_range, Int64.min, Int64.max, serial_max in *. lia. }
  apply (f_equal Strconv.parse_int) in E. rewrite !Strconv.parse_format_int in E by auto. by injection E.
Qed.

Lemma sound_range gone s id r : sound gone s -> rpolicies s !! id = Some r -> 0 < id <= serial_max.
Proof. intros [H1 H2 _ _] L. apply H1 in L. lia. Qed.

(** At most one policy of each project. *)
Lemma named_unique gone s P i j r r' : sound gone s -> named gone s -> rpolicies s !! i = Some r -> rpolicies s !! j = Some r' ->
  project_of r = Some P -> project_of r' = Some P -> i = j.
Proof.
  intros Y [H _] Li Lj Pi Pj. destruct (H i r Li) as [E1 M1], (H j r' Lj) as [E2 M2].
  assert (Sr : pr_ScopeReference r = pr_ScopeReference r') by congruence. rewrite Sr, M2 in M1. injection M1 as M1.
  symmetry. apply format_id_inj; [by eapply sound_range..|done].
Qed.

(** What a project names, by its identifier. *)
Lemma named_row gone s P id : sound gone s -> named gone s -> 0 < id <= serial_max ->
  retention_ids s !! P = Some (Strconv.format_int id) ->
  match rpolicies s !! id with Some r => pr_ScopeReference r = P | None => P ∈ gone end.
Proof.
  intros Y [_ H] R M. destruct (H P _ M) as (j & E & Rj & Hj). pose proof (so_next _ _ Y).
  by apply format_id_inj in E as ->; [| |lia].
Qed.

Lemma named_insert gone s s' id r : named gone s -> sound gone s' -> next_rpolicy s <= id -> retention_ids s !! pr_ScopeReference r = None ->
  project_of r = Some (pr_ScopeReference r) -> rpolicies s' = <[id := r]> (rpolicies s) ->
  retention_ids s' = <[pr_ScopeReference r := Strconv.format_int id]> (retention_ids s) -> named gone s'.
Proof.
  intros [H1 H2] Y F G Pr R I. assert (Rid : 0 < id < next_rpolicy s') by (apply (so_ids _ _ Y id r); by rewrite R, lookup_insert_eq).
  split; rewrite R, I.
  - intros j x [[<- <-]|[N L]]%lookup_insert_Some; [by rewrite lookup_insert_eq|].
    destruct (H1 j x L) as [E M]. split; [done|]. rewrite lookup_insert_ne; [done|]. congruence.
  - intros P' v [[<- <-]|[N L]]%lookup_insert_Some; [exists id; by rewrite lookup_insert_eq|].
    destruct (H2 P' v L) as (j & -> & Rj & E). exists j. rewrite lookup_insert_ne by lia. split_and!; [done|lia|lia|done].
Qed.

Lemma named_update gone s s' P id r r0 : sound gone s -> named gone s -> rpolicies s !! id = Some r0 ->
  project_of r = Some P -> pr_ScopeReference r = pr_ScopeReference r0 -> retention_ids s !! P = Some (Strconv.format_int id) ->
  rpolicies s' = <[id := r]> (rpolicies s) -> retention_ids s' = retention_ids s -> next_rpolicy s' = next_rpolicy s ->
  named gone s'.
Proof.
  intros Y N L Pr Sr M R I Nx. pose proof (named_row gone s P id Y N (sound_range _ _ _ _ Y L) M) as E. rewrite L in E.
  destruct N as [H1 H2]. split; rewrite R, I, ?Nx.
  - intros j x [[<- <-]|[Nj Lj]]%lookup_insert_Some; [|by apply H1]. by rewrite Sr, E.
  - intros P' v Lv. destruct (H2 P' v Lv) as (j & -> & Rj & Ej). exists j. split; [done|]. split; [done|].
    destruct (decide (j = id)) as [->|Nj]; [|by rewrite lookup_insert_ne].
    rewrite lookup_insert_eq. rewrite L in Ej. congruence.
Qed.

Lemma named_delete gone s s' id r : sound gone s -> named gone s -> rpolicies s !! id = Some r ->
  rpolicies s' = delete id (rpolicies s) -> retention_ids s' = delete (pr_ScopeReference r) (retention_ids s) ->
  next_rpolicy s' = next_rpolicy s -> named gone s'.
Proof.
  intros Y N L R I Nx. pose proof N as [H1 H2]. destruct (H1 id r L) as [Pr _]. split; rewrite R, I, ?Nx.
  - intros j x [Nj Lj]%lookup_delete_Some. destruct (H1 j x Lj) as [E M]. split; [done|].
    rewrite lookup_delete_ne; [done|]. intros E'. apply Nj. eapply (named_unique gone s _ id j r x); [done..|congruence].
  - intros P' v [NP Lv]%lookup_delete_Some. destruct (H2 P' v Lv) as (j & -> & Rj & E). exists j. split; [done|]. split; [done|].
    destruct (decide (id = j)) as [<-|Nj]; [|by rewrite lookup_delete_ne]. rewrite L in E. congruence.
Qed.

(** ** The handlers *)

Abbreviation CreateRetention := (CreateRetention SubmitJob PostAction Marshal coreURL cron_ok json_params callbacks encode rule_json project_Get).
Abbreviation UpdateRetention := (UpdateRetention SubmitJob PostAction Marshal coreURL cron_ok json_params callbacks encode decode rule_json).
Abbreviation DeleteRetention := (DeleteRetention PostAction decode).
Abbreviation default_retention := (default_retention SubmitJob PostAction Marshal coreURL cron_ok json_params callbacks encode).
Abbreviation TriggerRetentionExecution := (TriggerRetentionExecution Marshal decode).
Abbreviation OperateRetentionExecution := (OperateRetentionExecution PostAction decode dry_run_of).

Lemma meta_Add_ok P v s s' : meta_Add P v s = (Ok tt, s') ->
  retention_ids s !! P = None /\ same_tables (with_retention_ids s (<[P := v]> (retention_ids s))) s'.
Proof.
  intros E. apply pdb_ok in E as (s1 & [A B C D I] & E). rewrite I in E. destruct (retention_ids s !! P); [done|].
  injection E as <-. done.
Qed.

Lemma meta_Get_ok P s o s' : meta_Get P s = (Ok o, s') -> o = retention_ids s !! P /\ same_tables s s'.
Proof. intros E. apply pdb_ok in E as (s1 & K & [= <- <-]). by rewrite (sm_ids _ _ K). Qed.

Lemma meta_Delete_ok P s s' : meta_Delete P s = (Ok tt, s') ->
  same_tables (with_retention_ids s (delete P (retention_ids s))) s'.
Proof. intros E. apply pdb_ok in E as (s1 & [A B C D I] & [= <-]). split; cbn; try done. by rewrite I. Qed.

Lemma project_of_decode r p sc : decode (pr_Data r) = Ok p -> pm_Scope (pl_Meta p) = Some sc -> project_of r = Some (sc_Reference sc).
Proof. unfold project_of. intros -> E. by rewrite E. Qed.

Lemma created_and_named gone p rand now s id s1 s2 sc :
  sound gone s -> storable p -> pm_Scope (pl_Meta p) = Some sc ->
  ctl_CreateRetention p rand now s = (Ok id, s1) -> meta_Add (sc_Reference sc) (Strconv.format_int id) s1 = (Ok tt, s2) ->
  sound gone s2 /\ (named gone s -> named gone s2).
Proof.
  intros Y W Sc E1 E2. apply (ctl_CreateRetention_ok gone) in E1 as (Y1 & _ & Nx & I & r & D & R & Sr); [|done..].
  rewrite Sc in Sr. injection Sr as Sr. rewrite Sr in E2.
  apply meta_Add_ok in E2 as [G K]. assert (Y2 : sound gone s2) by (apply (sound_same gone _ _ K); by destruct Y1).
  split; [done|]. intros N. destruct K as [_ _ K3 _ K5]. cbn in K3, K5. rewrite I in G, K5.
  eapply named_insert; [exact N|exact Y2|exact Nx|exact G| |by rewrite K3, R|exact K5]. rewrite <- Sr. by eapply project_of_decode.
Qed.

Lemma CreateRetention_ok gone a p rand now s id s' : sound gone s -> storable p -> CreateRetention a p rand now s = (Ok id, s') ->
  sound gone s' /\ (named gone s -> named gone s').
Proof.
  intros Y W E. apply bind_inv in E as ([] & s1 & E1 & E). apply of_result_ok in E1 as [_ ->].
  apply bind_inv in E as ([] & s1 & E1 & E). apply of_result_ok in E1 as [_ ->].
  apply bind_inv in E as (sc & s1 & E1 & E). apply of_pointer_ok in E1 as [Sc ->].
  apply bind_inv in E as ([] & s1 & E1 & E). apply of_result_ok in E1 as [_ ->].
  apply bind_inv in E as (o & s1 & E1 & E). apply meta_Get_ok in E1 as [-> K].
  destruct (retention_ids s !! sc_Reference sc); [done|].
  apply bind_inv in E as (i & s2 & E2 & E). apply bind_inv in E as ([] & s3 & E3 & [= <- <-]).
  destruct (created_and_named gone p rand now s1 i s2 s3 sc (sound_same _ _ _ K Y) W Sc E2 E3) as [A B].
  split; [done|]. intros N. by apply B, (named_same _ s).
Qed.

Lemma default_retention_ok gone P rand now s s' : sound gone s -> storable (WithNDaysSinceLastPull P 7) ->
  default_retention P rand now s = (Ok tt, s') -> sound gone s' /\ (named gone s -> named gone s').
Proof.
  intros Y W E. apply bind_inv in E as (i & s1 & E1 & E2).
  by eapply (created_and_named gone _ _ _ _ _ _ _ (mkScope "project" P)).
Qed.

Lemma UpdateRetention_ok gone a id p rand now world s s' : sound gone s -> storable (with_id 0 p) ->
  UpdateRetention a id p rand now world s = (Ok tt, s') -> sound gone s' /\ (named gone s -> named gone s').
Proof.
  intros Y W E. apply bind_inv in E as ([] & s1 & E1 & E). apply of_result_ok in E1 as [_ ->].
  apply bind_inv in E as ([] & s1 & E1 & E). apply of_result_ok in E1 as [_ ->].
  apply bind_inv in E as ([] & s1 & E1 & E).
  apply bind_inv in E1 as (sc & s2 & E2 & E1). apply of_pointer_ok in E2 as [Sc ->].
  apply bind_inv in E1 as (o & s2 & E2 & E1). apply meta_Get_ok in E2 as [-> K].
  destruct (retention_ids s !! sc_Reference sc) as [v|] eqn:Mt; [|done].
  destruct (negb (v =s= "") && _) eqn:V; [|done]. injection E1 as <-. apply andb_true_iff in V as [_ V%String.eqb_eq].
  pose proof (sound_same _ _ _ K Y) as Y2.
  apply (ctl_UpdateRetention_ok gone) in E as (Y' & I & Nx & r0 & r & L & D & Sr & R); [|exact Y2|exact W].
  split; [done|]. intros N. cbn in L, R, V. subst v.
  eapply (named_update gone s2); [exact Y2|by eapply named_same|exact L| |exact Sr| |exact R|exact I|exact Nx].
  - eapply project_of_decode; [exact D|exact Sc].
  - by rewrite (sm_ids _ _ K).
Qed.

Lemma bad_request_of_ok {A} (m : M pst A) s a s' : bad_request_of m s = (Ok a, s') -> m s = (Ok a, s').
Proof. unfold bad_request_of. by destruct (m s) as [[]]. Qed.

Lemma DeleteRetention_ok gone a id now world s s' : sound gone s -> DeleteRetention a id now world s = (Ok tt, s') ->
  sound gone s' /\ (named gone s -> named gone s').
Proof.
  intros Y E. apply bind_inv in E as (p & s1 & E1 & E). apply bad_request_of_ok in E1.
  pose proof (same_mgr_GetPolicy id s) as K. unfold GetRetention in E1. rewrite E1 in K. cbn [snd] in K.
  apply mgr_GetPolicy_ok in E1 as (r & q & L & D & Mq & _).
  apply bind_inv in E as ([] & s2 & E2 & E). apply of_result_ok in E2 as [_ ->].
  apply bind_inv in E as ([] & s2 & E2 & E). apply bind_inv in E as (sc & s3 & E3 & E).
  apply of_pointer_ok in E3 as [Sc ->]. apply meta_Delete_ok in E.
  pose proof (sound_same _ _ _ K Y) as Y1. apply (ctl_DeleteRetention_ok gone) in E2 as (Y2 & I & Nx & _ & R); [|done].
  split; [apply (sound_same _ _ _ E); by destruct Y2|]. intros N. apply (named_same _ _ _ K) in N.
  rewrite <- (sm_policies _ _ K) in L. destruct (na_row _ _ N id r L) as [Pr _].
  rewrite (project_of_decode r q sc D) in Pr by (by rewrite <- Sc, Mq). injection Pr as Pr.
  destruct E as [_ _ K3 K4 K5]. cbn in K3, K4, K5. rewrite Pr in K5.
  apply (named_delete gone s1 s' id r); [done|done|done|by rewrite K3|by rewrite K5, I|congruence].
Qed.

(** ** Deleting a project *)

Lemma iter_delete_ok gone now world l s s' : sound gone s -> iterM (fun i => ctl_DeleteRetention i now world) l s = (Ok tt, s') ->
  sound gone s' /\ forall j, rpolicies s' !! j = if bool_decide (j ∈ l) then None else rpolicies s !! j.
Proof.
  revert s. induction l as [|i l IH]; intros s Y; cbn [iterM].
  - intros [= <-]. split; [done|]. intros j. by rewrite bool_decide_eq_false_2 by set_solver.
  - intros E. apply bind_inv in E as ([] & s1 & E1 & E). apply (ctl_DeleteRetention_ok gone) in E1 as (Y1 & _ & _ & _ & R); [|done].
    destruct (IH s1 Y1 E) as [Y' H]. split; [done|]. intros j. rewrite H, R. destruct (decide (j = i)) as [->|N].
    + rewrite lookup_delete_eq, (bool_decide_eq_true_2 (i ∈ i :: l)) by set_solver. by destruct (bool_decide _).
    + rewrite lookup_delete_ne by done. by rewrite (bool_decide_ext (j ∈ i :: l) (j ∈ l)) by set_solver.
Qed.

(** However the deletions end. *)
Lemma iter_delete_any gone now world l s : sound gone s ->
  (forall id r, id ∈ l -> rpolicies s !! id = Some r -> pr_ScopeReference r ∈ gone) ->
  let s' := (iterM (fun i => ctl_DeleteRetention i now world) l s).2 in
  sound gone s' /\ retention_ids s' = retention_ids s /\ next_rpolicy s' = next_rpolicy s
  /\ forall id, rpolicies s' !! id = rpolicies s !! id
     \/ (rpolicies s' !! id = None /\ forall r, rpolicies s !! id = Some r -> pr_ScopeReference r ∈ gone).
Proof.
  revert s. induction l as [|i l IH]; intros s Y Hg; cbn [iterM]; [by split_and!; [..|by left]|]. unfold bind.
  destruct (ctl_DeleteRetention_any gone i now world s Y) as (Y1 & I1 & N1 & R1); [intros r; by apply Hg; left|].
  assert (Q1 : forall id, rpolicies (ctl_DeleteRetention i now world s).2 !! id = rpolicies s !! id
     \/ (rpolicies (ctl_DeleteRetention i now world s).2 !! id = None /\ forall r, rpolicies s !! id = Some r -> pr_ScopeReference r ∈ gone)).
  { intros id. destruct R1 as [->| ->]; [by left|]. destruct (decide (i = id)) as [<-|N].
    - right. rewrite lookup_delete_eq. split; [done|]. intros r. apply Hg. by left.
    - left. by rewrite lookup_delete_ne. }
  destruct (ctl_DeleteRetention i now world s) as [[[]|e] s1]; cbn [fst snd] in *; [|by split_and!].
  destruct (IH s1 Y1) as (Y2 & I2 & N2 & Q2).
  { intros id r Hid L. destruct (Q1 id) as [E|[E _]]; [|congruence]. rewrite E in L. by apply (Hg id); [right|]. }
  split_and!; [done|congruence|congruence|]. intros id. destruct (Q2 id) as [->|[E H]]; [apply Q1|].
  destruct (Q1 id) as [E1|[E1 H1]]; right; (split; [done|]); [by rewrite <- E1|done].
Qed.

Lemma policies_of_project P s id r :
  id ∈ (List.filter (fun r : Z * prow => (pr_ScopeLevel r.2 =s= "project") && (pr_ScopeReference r.2 =? P)) (map_to_list (rpolicies s))).*1 ->
  rpolicies s !! id = Some r -> pr_ScopeLevel r = "project" /\ pr_ScopeReference r = P.
Proof.
  intros ([i x] & -> & [I B]%list_elem_of_In%filter_In)%list_elem_of_fmap L. apply list_elem_of_In, elem_of_map_to_list in I.
  cbn in *. assert (x = r) as -> by congruence. by apply andb_true_iff in B as [->%String.eqb_eq ->%Z.eqb_eq].
Qed.

Abbreviation DeleteRetentionByProject := (DeleteRetentionByProject PostAction decode).

(** However the deletion of the policies of a project ends, only they are
    affected. *)
Lemma DeleteRetentionByProject_any gone P now world s : sound gone s ->
  let s' := (DeleteRetentionByProject P now world s).2 in
  sound ({[P]} ∪ gone) s' /\ (named gone s -> named ({[P]} ∪ gone) s').
Proof.
  intros Y. unfold RetentionPolicy.DeleteRetentionByProject, ListPolicyIDs, rd_ListPolicies, bind, pdb.
  pose proof (same_on_ptasks (lift (dbio get)) s) as K. apply (sound_mono _ ({[P]} ∪ gone)) in Y; [|set_solver].
  assert (Nm : named gone s -> named ({[P]} ∪ gone) s) by (apply named_mono; set_solver).
  destruct (on_ptasks _ s) as [[d|e] s1]; cbn [fst snd] in *;
    [|split; [by eapply sound_same|intros N; eapply named_same; [exact K|by apply Nm]]].
  pose proof (sound_same _ _ _ K Y) as Y1. set (l := _.*1).
  destruct (iter_delete_any _ now world l s1 Y1) as (Y2 & I & N & R).
  { intros id r Hid L. destruct (policies_of_project _ _ _ _ Hid L) as [_ ->]. set_solver. }
  split; [done|]. intros [H1 H2]%Nm%(named_same _ _ _ K). split; rewrite ?I, ?N.
  - intros id r L. destruct (R id) as [E|[E _]]; [|congruence]. rewrite E in L. by apply H1.
  - intros Q v L. destruct (H2 Q v L) as (id & -> & Rid & E). exists id. split; [done|]. split; [done|].
    destruct (R id) as [->|[-> Hg]]; [done|]. destruct (rpolicies s1 !! id) as [r|]; [|done]. rewrite <- E. by apply Hg.
Qed.

(** The policies of the project go with their schedules, those of others stay. *)
Theorem project_deletion_deletes_policies gone P now world s s' :
  sound gone s -> DeleteRetentionByProject P now world s = (Ok tt, s') ->
  sound gone s' /\ forall id r, rpolicies s' !! id = Some r <->
    rpolicies s !! id = Some r /\ ~ (pr_ScopeLevel r = "project" /\ pr_ScopeReference r = P).
Proof.
  intros Y E. apply bind_inv in E as (l & s1 & E1 & E). apply pdb_ok in E1 as (s2 & K & [= <- <-]).
  apply (iter_delete_ok gone) in E as [Y' H]; [|by eapply sound_same]. split; [done|]. intros id r. rewrite H, (sm_policies _ _ K).
  assert (M : forall r, rpolicies s !! id = Some r ->
    id ∈ (List.filter (fun r : Z * prow => (pr_ScopeLevel r.2 =s= "project") && (pr_ScopeReference r.2 =? P)) (map_to_list (rpolicies s))).*1
    <-> pr_ScopeLevel r = "project" /\ pr_ScopeReference r = P).
  { intros r0 L. rewrite list_elem_of_fmap. split.
    - intros Hid. apply (policies_of_project P s id r0); [by apply list_elem_of_fmap|done].
    - intros [A B]. exists (id, r0). split; [done|]. apply list_elem_of_In, filter_In. split; [by apply list_elem_of_In, elem_of_map_to_list|].
      cbn. by rewrite A, B, String.eqb_refl, Z.eqb_refl. }
  case_bool_decide as B.
  - split; [done|]. intros [L N]. by apply (M r L) in B.
  - split; [|tauto]. intros L. split; [done|]. by rewrite <- (M r L).
Qed.

(** ** Requests *)

(** Roll backs keep what sequences gave. *)
Definition rolled_back (s s' : pst) : pst :=
  mkPst (roll_back (psched s) (psched s')) (rpolicies s) (next_rpolicy s') (retention_ids s).

Record grows (s s' : pst) : Prop := mkGrows {
  gr_next : next_schedule (psched s) <= next_schedule (psched s');
  gr_serial : next_rpolicy s <= next_rpolicy s';
  gr_max : next_rpolicy s <= serial_max + 1 -> next_rpolicy s' <= serial_max + 1 }.

#[local] Instance grows_preorder : PreOrder grows.
Proof. split; [by intros s; split|]. intros s1 s2 s3 [] []. split; [lia|lia|auto]. Qed.

Lemma grows_same {A} (m : M pst A) : along same_tables m -> along grows m.
Proof. intros H s. destruct (H s) as [_ A1 _ A2 _]. split; lia. Qed.

Lemma grows_pdb {A} (f : pst -> result A * pst) : along grows f -> along grows (pdb f).
Proof.
  intros H s. unfold pdb. pose proof (grows_same _ (same_on_ptasks (lift (dbio get))) s) as K.
  destruct (on_ptasks _ s) as [[d|e] s1]; [|exact K]. etrans; [exact K|apply H].
Qed.

Lemma grows_psched {A} (m : M sst A) : advances next_schedule m -> along grows (on_psched m).
Proof. intros H s. split; [apply H|done|done]. Qed.

Lemma grows_schedule_plan id cron rand now : along grows (schedule_plan id cron rand now).
Proof. apply along_bind; [apply _|apply grows_psched, advances_Schedule|by intros ? s]. Qed.

Lemma grows_unschedule v id now world : along grows (on_psched (UnScheduleByVendor PostAction v id now world)).
Proof. apply grows_psched, (advances_UnScheduleByVendor PostAction). Qed.

Lemma grows_bad_request_of {A} (m : M pst A) : along grows m -> along grows (bad_request_of m).
Proof. intros H s. unfold bad_request_of. pose proof (H s). by destruct (m s) as [[]]. Qed.

#[local] Ltac grow := repeat
  lazymatch goal with
  | |- along grows (bind _ _) => apply (along_bind grows); [|intros ?]
  | |- along grows (pdb _) => apply grows_pdb; try (by intros ?; split; cbn; lia)
  | |- along grows (of_result _) => apply along_of_result, _
  | |- along grows (of_pointer _) => apply grows_same, same_of_pointer
  | |- along grows (on_ptasks _) => apply grows_same, same_on_ptasks
  | |- along grows (mgr_GetPolicy _ _) => apply grows_same, same_mgr_GetPolicy
  | |- along grows (meta_Get _) => apply grows_same, same_meta_Get
  | |- along grows (requirePolicyAccess _) => apply grows_same, same_requirePolicyAccess
  | |- along grows (on_psched (UnScheduleByVendor _ _ _ _ _)) => apply grows_unschedule
  | |- along grows (schedule_plan _ _ _ _) => apply grows_schedule_plan
  | |- along grows (bad_request_of _) => apply grows_bad_request_of
  | |- along grows (ret _) => by intros ?
  end.

Lemma grows_ctl_CreateRetention p rand now : along grows (ctl_CreateRetention p rand now).
Proof.
  unfold RetentionPolicy.ctl_CreateRetention, mgr_CreatePolicy, rd_CreatePolicy. grow.
  - intros s. cbv zeta. destruct (Z.gtb_spec (next_rpolicy s) serial_max); split; cbn; lia.
  - destruct (_ =s= _); [|by intros s]. destruct (cron_setting _); [|by intros s]. grow.
    destruct (_ =s= _); [by intros ?|grow].
Qed.

Lemma grows_meta_Add P v : along grows (meta_Add P v).
Proof. apply grows_pdb. intros s. by destruct (retention_ids s !! P); split. Qed.

Lemma grows_requests a :
  (forall p rand now, along grows (CreateRetention a p rand now))
  /\ (forall id p rand now world, along grows (UpdateRetention a id p rand now world))
  /\ (forall id now world, along grows (DeleteRetention a id now world))
  /\ (forall P rand now, along grows (default_retention P rand now)).
Proof.
  split_and!; intros.
  - unfold RetentionPolicy.CreateRetention. grow. destruct (_ : option string); [by intros ?|]. grow;
    [apply grows_ctl_CreateRetention|apply grows_meta_Add].
  - unfold RetentionPolicy.UpdateRetention, RetentionPolicy.ctl_UpdateRetention, mgr_UpdatePolicy, rd_UpdatePolicy. grow.
    destruct (_ : bool * bool) as [un sch]. grow; [by destruct un; [grow|intros ?]|by destruct sch; [grow|intros ?]].
  - unfold RetentionPolicy.DeleteRetention, RetentionPolicy.ctl_DeleteRetention, GetRetention, meta_Delete, rd_DeletePolicy, deleteExecs. grow.
    destruct (_ =s= _); [|by intros s]. grow. destruct (_ =s= _); [by intros ?|grow].
  - unfold RetentionPolicy.default_retention. grow; [apply grows_ctl_CreateRetention|apply grows_meta_Add].
Qed.

(** What can happen: the requests of the API, the creation of a proxy cache
    project with its default policy, the deletion of [retention_id] from the
    metadata, the deletion of the policies of a project that is gone, which the
    handler of the event does outside of a transaction, and anything that happens
    to executions and tasks. *)
Inductive request :=
| RqCreate (a : auth) (p : Plan) (rand now : Z)
| RqUpdate (a : auth) (id : Z) (p : Plan) (rand now : Z) (world : list (mgr -> mgr))
| RqDelete (a : auth) (id now : Z) (world : list (mgr -> mgr))
| RqProxyProject (P rand now : Z)
| RqDeleteMetadata (access : result unit) (P : Z)
| RqDeleteProject (P now : Z) (world : list (mgr -> mgr))
| RqTrigger (a : auth) (id : Z) (dryRun : bool) (operator : string) (now : Z)
| RqOperate (a : auth) (id eid : Z) (action : string) (now : Z)
| Elsewhere (f : mgr -> mgr).

Abbreviation in_request := (in_request psched rolled_back).

Definition serve (q : request) : M pst unit :=
  match q with
  | RqCreate a p rand now => in_request (CreateRetention a p rand now) ;;; ret tt
  | RqUpdate a id p rand now world => in_request (UpdateRetention a id p rand now world)
  | RqDelete a id now world => in_request (DeleteRetention a id now world)
  | RqProxyProject P rand now => in_request (default_retention P rand now)
  | RqDeleteMetadata a P => in_request (DeleteProjectMetadata project_Get a P)
  | RqDeleteProject P now world => DeleteRetentionByProject P now world
  | RqTrigger a id dryRun operator now => in_request (TriggerRetentionExecution a id dryRun operator now) ;;; ret tt
  | RqOperate a id eid action now => in_request (OperateRetentionExecution a id eid action now)
  | Elsewhere f => on_ptasks (modify f)
  end.

Definition request_storable (q : request) : Prop :=
  match q with
  | RqCreate _ p _ _ => storable p
  | RqUpdate _ _ p _ _ _ => storable (with_id 0 p)
  | RqProxyProject P _ _ => storable (WithNDaysSinceLastPull P 7)
  | _ => True
  end.

Definition deletes_metadata (q : request) : bool := match q with RqDeleteMetadata _ _ => true | _ => false end.

Definition deleted_project (q : request) : gset Z := match q with RqDeleteProject P _ _ => {[P]} | _ => ∅ end.

Fixpoint deleted_projects (l : list request) : gset Z :=
  match l with
  | [] => ∅
  | q :: l' => deleted_project q ∪ deleted_projects l'
  end.

Fixpoint serve_all (l : list request) (s : pst) : pst :=
  match l with
  | [] => s
  | q :: l' => serve_all l' (serve q s).2
  end.

Lemma rolled_back_sound gone s s' : sound gone s -> grows s s' -> sound gone (rolled_back s s').
Proof.
  intros [H1 H2 H3 (ps & H4 & H5)] [A B C]. split; cbn; try done; try lia.
  - intros id r L. apply H1 in L. lia.
  - exists ps. split; [|done]. by eapply in_step_ext; [| |exact H4].
Qed.

Lemma rolled_back_named gone s s' : named gone s -> grows s s' -> named gone (rolled_back s s').
Proof.
  intros [H1 H2] [_ B _]. split; cbn; [done|]. intros P v L. destruct (H2 P v L) as (id & -> & R & E). exists id. split_and!; try done; lia.
Qed.

Lemma in_request_ok {A} gone (m : M pst A) (keep : Prop) s : sound gone s -> along grows m ->
  (forall a s', m s = (Ok a, s') -> sound gone s' /\ (keep -> named gone s -> named gone s')) ->
  sound gone (in_request m s).2 /\ (keep -> named gone s -> named gone (in_request m s).2).
Proof.
  intros Y G H. split.
  - apply in_request_inv; [by apply rolled_back_sound|]. intros a s' E. by apply (H a).
  - intros Kp N. apply in_request_inv; [by apply rolled_back_named|]. intros a s' E. by apply (H a).
Qed.

Lemma same_ok {A} gone (m : M pst A) keep s : along same_tables m -> sound gone s ->
  forall (a : A) s', m s = (Ok a, s') -> sound gone s' /\ (keep -> named gone s -> named gone s').
Proof.
  intros H Y a s' E. specialize (H s). rewrite E in H. split; [by eapply sound_same|]. intros _. by apply named_same.
Qed.

Lemma after_request {A} (m : M pst A) s : (bind m (fun _ => ret tt) s).2 = (m s).2.
Proof. unfold bind. by destruct (m s) as [[]]. Qed.

#[local] Hint Resolve same_mgr_GetPolicy same_requirePolicyAccess : core.

Lemma same_TriggerRetentionExecution a id dryRun operator now : along same_tables (TriggerRetentionExecution a id dryRun operator now).
Proof.
  unfold RetentionPolicy.TriggerRetentionExecution, GetRetention. apply along_bind; [apply _| |].
  - intros s. unfold bad_request_of. pose proof (same_mgr_GetPolicy id s). by destruct (mgr_GetPolicy decode id s) as [[]].
  - intros p. apply along_bind; [apply _|apply along_of_result, _|]. intros _. apply along_bind; [apply _|done|]. intros p'. done.
Qed.

Lemma same_OperateRetentionExecution a id eid action now : along same_tables (OperateRetentionExecution a id eid action now).
Proof.
  unfold RetentionPolicy.OperateRetentionExecution, GetRetention, requireExecutionInProject, GetRetentionExec.
  destruct (negb _); [by intros s|]. apply along_bind; [apply _| |].
  - intros s. unfold bad_request_of. pose proof (same_mgr_GetPolicy id s). by destruct (mgr_GetPolicy decode id s) as [[]].
  - intros p. apply along_bind; [apply _|apply along_of_result, _|]. intros _. apply along_bind; [apply _|done|]. intros _.
    apply along_bind; [apply _| |done]. apply along_bind; [apply _| |by intros x; destruct (_ && _); intros s].
    apply along_bind; [apply _|done|]. intros x. apply along_of_result, _.
Qed.

Lemma DeleteProjectMetadata_sound gone a P s s' : sound gone s -> DeleteProjectMetadata project_Get a P s = (Ok tt, s') -> sound gone s'.
Proof.
  intros Y E. apply bind_inv in E as ([] & s1 & E1 & E). apply of_result_ok in E1 as [_ ->].
  apply bind_inv in E as ([] & s1 & E1 & E). apply of_result_ok in E1 as [_ ->].
  apply meta_Delete_ok in E. apply (sound_same _ _ _ E). by destruct Y.
Qed.

Lemma serve_ok gone q s : request_storable q -> sound gone s ->
  sound (deleted_project q ∪ gone) (serve q s).2
  /\ (deletes_metadata q = false -> named gone s -> named (deleted_project q ∪ gone) (serve q s).2).
Proof.
  intros W Y.
  destruct q as [a p rand now|a id p rand now world|a id now world|P rand now|a P|P now world|a id dryRun operator now|a id eid action now|f];
    cbn [serve deletes_metadata request_storable deleted_project] in *; rewrite ?after_request, ?(left_id_L ∅ (∪) gone).
  - apply in_request_ok; [done|apply grows_requests|]. intros id s' E. destruct (CreateRetention_ok gone a p rand now s id s' Y W E). auto.
  - apply in_request_ok; [done|apply grows_requests|]. intros [] s' E. destruct (UpdateRetention_ok gone a id p rand now world s s' Y W E). auto.
  - apply in_request_ok; [done|apply grows_requests|]. intros [] s' E. destruct (DeleteRetention_ok gone a id now world s s' Y E). auto.
  - apply in_request_ok; [done|apply grows_requests; exact (mkAuth (fun _ _ => Ok tt) (fun _ => Ok tt))|]. intros [] s' E.
    destruct (default_retention_ok gone P rand now s s' Y W E). auto.
  - apply in_request_ok; [done|unfold DeleteProjectMetadata, meta_Delete; grow|]. intros [] s' E.
    split; [by eapply DeleteProjectMetadata_sound|done].
  - destruct (DeleteRetentionByProject_any gone P now world s Y). auto.
  - apply in_request_ok; [done|apply grows_same, same_TriggerRetentionExecution|]. by apply same_ok, Y; apply same_TriggerRetentionExecution.
  - apply in_request_ok; [done|apply grows_same, same_OperateRetentionExecution|]. by apply same_ok, Y; apply same_OperateRetentionExecution.
  - split; [apply (sound_same _ s); [apply same_on_ptasks|done]|]. intros _. apply named_same, same_on_ptasks.
Qed.

Lemma serve_all_ok gone l s : Forall request_storable l -> sound gone s ->
  sound (deleted_projects l ∪ gone) (serve_all l s)
  /\ (forallb (fun q => negb (deletes_metadata q)) l = true -> named gone s -> named (deleted_projects l ∪ gone) (serve_all l s)).
Proof.
  intros W. revert gone s. induction W as [|q l Hq _ IH]; intros gone s Y; cbn [serve_all forallb deleted_projects].
  { by rewrite (left_id_L ∅ (∪) gone). }
  destruct (serve_ok gone q s Hq Y) as [Y1 N1]. destruct (IH _ _ Y1) as [Y2 N2].
  rewrite (comm_L (∪) (deleted_project q)), <- (assoc_L (∪)). split; [done|].
  intros [H1%negb_true_iff H2]%andb_true_iff N. apply N2; [done|]. by apply N1.
Qed.

End Sync.

(** C32: For the requests on retention policies, the creation of proxy cache
    projects, the deletion of the policies of deleted projects and the deletion of
    [retention_id] from metadata, in any order and with any of their statements and
    calls failing, and whatever happens to executions and tasks in between:  a
    retention policy with times has exactly one schedule, which runs at its times
    and calls it back, unless its project was deleted, when it may have none; a
    policy without times has none; and no retention schedule is left without its
    policy.  As long as the name is not deleted from a project's metadata, a
    project has at most one policy, and what a project that was not deleted names
    as its retention policy is that policy.  This needs that an empty text is no
    cron, and that the JSON of the policies sent can be read back. *)
Theorem retention_in_step SubmitJob PostAction Marshal coreURL cron_ok json_params callbacks `{J : Json} encode decode
    rule_json dry_run_of project_Get l s :
  (forall rand, cron_ok (randomize rand "") = false) -> Forall (request_storable encode decode) l -> sound decode ∅ s ->
  let s' := serve_all SubmitJob PostAction Marshal coreURL cron_ok json_params callbacks encode decode rule_json dry_run_of
              project_Get l s in
  (forall id r, rpolicies s' !! id = Some r -> exists p, decode (pr_Data r) = Ok p
     /\ match cron_of p with
        | Some cron =>
            (exists k x, schedules (psched s') !! k = Some x
               /\ carries_out RetentionVendorType SchedulerCallback trigger_param id cron x
               /\ forall k' x', schedules (psched s') !! k' = Some x' -> of_vendor RetentionVendorType id x' = true -> k' = k)
            \/ (pr_ScopeReference r ∈ deleted_projects l
               /\ forall k x, schedules (psched s') !! k = Some x -> of_vendor RetentionVendorType id x = false)
        | None => forall k x, schedules (psched s') !! k = Some x -> of_vendor RetentionVendorType id x = false
        end)
  /\ (forall k x, schedules (psched s') !! k = Some x -> sd_VendorType x = RetentionVendorType ->
        is_Some (rpolicies s' !! sd_VendorID x))
  /\ (named decode ∅ s -> forallb (fun q => negb (deletes_metadata q)) l = true ->
        (forall P v, P ∉ deleted_projects l -> retention_ids s' !! P = Some v ->
           exists id r, v = Strconv.format_int id /\ rpolicies s' !! id = Some r /\ project_of decode r = Some P)
        /\ forall P i j r r', rpolicies s' !! i = Some r -> rpolicies s' !! j = Some r' ->
             project_of decode r = Some P -> project_of decode r' = Some P -> i = j).
Proof.
  intros Nt W Y s'. destruct (serve_all_ok SubmitJob PostAction Marshal coreURL cron_ok json_params callbacks encode decode
    rule_json dry_run_of project_Get Nt ∅ l s W Y) as [Y' N']. fold s' in Y', N'. rewrite (right_id_L ∅ (∪)) in Y', N'.
  destruct (so_step _ _ _ Y') as (ps & I & Pl). split; [|split].
  - intros id r L. destruct (so_read _ _ _ Y' id r L) as (p & D & _). exists p. split; [done|].
    destruct (planned_lookup _ _ _ _ _ _ Pl L) as (c & Lc & Hc). rewrite (plan_of_decode decode r p D) in Hc.
    destruct (cron_of p) as [cron|]; [|apply (st_idle _ _ _ _ _ I); by destruct Hc as [->|[-> _]]].
    destruct Hc as [->|[-> G]]; [left; exact (in_step_unique _ _ _ _ _ _ _ I Lc)|right].
    split; [done|]. by apply (st_idle _ _ _ _ _ I).
  - intros k x Lx V. pose proof (st_owned _ _ _ _ _ I k x Lx V) as [c O].
    destruct (rpolicies s' !! sd_VendorID x) eqn:E; [done|]. by rewrite (planned_none _ _ _ _ _ Pl E) in O.
  - intros N F. specialize (N' F N). split; [|intros P i j r r'; by apply (named_unique decode _ _ _ _ _ _ _ Y' N')].
    intros P v G Lv. destruct (na_meta _ _ _ N' P v Lv) as (id & -> & _ & E). destruct (rpolicies s' !! id) as [r|] eqn:L; [|done].
    exists id, r. split_and!; [done..|]. by rewrite (proj1 (na_row _ _ _ N' id r L)), E.
Qed.

(** ** A project with a policy *)

Definition sample_plan (level cron : string) : Plan :=
  mkPlan (mkPolicyMeta 0 "or" [] (Some (mkScope level 7))) (Some (mkPTrigger "Schedule" {["cron" := SText cron]})).

(** A policy without times that a client made by leaving out the cron. *)
Definition cronless_plan : Plan := mkPlan (mkPolicyMeta 0 "or" [] (Some (mkScope "project" 7))) (Some (mkPTrigger "Schedule" ∅)).

(** The policies that are encoded here: by their level and times. *)
Definition sample_encode (p : Plan) : result string :=
  match pl_Trigger p with
  | Some t => match cron_setting t with
              | Some (SText c) => Ok ((if decide (sc_Level <$> pm_Scope (pl_Meta p) = Some "system"%string) then "s" else "p") ++ c)%string
              | _ => Ok "?"%string
              end
  | None => Ok ""%string
  end.

Definition sample_decode (d : string) : result Plan :=
  match d with
  | String "s" c => Ok (sample_plan "system" c)
  | String "p" c => Ok (sample_plan "project" c)
  | String "?" _ => Ok cronless_plan
  | _ => Err (Plain "json")
  end.

Definition everything : auth := mkAuth (fun _ _ => Ok tt) (fun _ => Ok tt).
Definition sample_callback : registry := {[SchedulerCallback := fun _ => Ok tt]}.

(** A parser that only refuses crons that end in a blank. *)
Fixpoint ends_blank (c : string) : bool :=
  match c with
  | EmptyString => false
  | String a c' => match c' with EmptyString => Ascii.eqb a " "%char | _ => ends_blank c' end
  end.

Definition sample_cron_ok (c : string) : bool := negb (ends_blank c).

Lemma empty_cron rand : sample_cron_ok (randomize rand "") = false.
Proof.
  unfold sample_cron_ok, randomize. apply negb_false_iff. generalize (Strconv.format_int rand). intros t.
  change (GoStrings.Join _ _) with "". induction t as [|a t IH]; [done|].
  change (String a t ++ (" " ++ ""))%string with (String a (t ++ (" " ++ ""))). cbn [ends_blank].
  by destruct (t ++ (" " ++ ""))%string.
Qed.

Definition empty_pst : pst := mkPst (mkSst (mkMgr (mkDb ∅ ∅ 1 1 [] [] None) [] []) ∅ 1 []) ∅ 1 ∅.

Definition sample_serve (l : list request) (s : pst) : pst :=
  serve_all (J := CodedJson.coded_json) (fun _ => Ok "job"%string) (fun _ _ => Ok tt) (fun _ => Ok "{}"%string) "http://core"
    sample_cron_ok (fun _ => []) sample_callback sample_encode sample_decode (fun _ => Ok "rule"%string)
    (fun _ => Some false) (fun _ => Ok tt) l s.

Lemma empty_sound decode : sound (J := CodedJson.coded_json) decode ∅ empty_pst.
Proof.
  split; [done|done|done|]. exists ∅. split; [|done]. split; cbn; intros *; rewrite ?lookup_empty; try done.
Qed.

Lemma empty_named decode : named decode ∅ empty_pst.
Proof. split; cbn; intros *; by rewrite lookup_empty. Qed.

(** The second policy for the project is refused. *)
Definition sample_requests : list request :=
  [RqCreate everything (sample_plan "project" "0 0 3 * * *") 5 100; RqCreate everything (sample_plan "project" "0 0 4 * * *") 6 110].

Lemma retention_in_step_witness :
  sd_CRON <$> (map_to_list (schedules (psched (sample_serve sample_requests empty_pst)))).*2 = ["5 0 3 * * *"]
  /\ forall P i j r r', rpolicies (sample_serve sample_requests empty_pst) !! i = Some r ->
       rpolicies (sample_serve sample_requests empty_pst) !! j = Some r' ->
       project_of sample_decode r = Some P -> project_of sample_decode r' = Some P -> i = j.
Proof.
  split; [vm_compute; reflexivity|].
  refine (proj2 (proj2 (proj2 (retention_in_step (J := CodedJson.coded_json) (fun _ => Ok "job"%string) (fun _ _ => Ok tt)
    (fun _ => Ok "{}"%string) "http://core" sample_cron_ok (fun _ => []) sample_callback
    sample_encode sample_decode (fun _ => Ok "rule"%string) (fun _ => Some false) (fun _ => Ok tt) sample_requests empty_pst
    _ _ (empty_sound _))) (empty_named _) eq_refl)).
  - intros rand. apply empty_cron.
  - repeat constructor.
Defined.

(** ** What the handlers do otherwise than they mean to *)

(** Deleting [retention_id] from the metadata leaves the policy with its schedule;
    the project gets a second policy, and both run. *)
Theorem metadata_deletion_orphans_policy :
  let s := sample_serve (sample_requests ++ [RqDeleteMetadata (Ok tt) 7;
             RqCreate everything (sample_plan "project" "0 0 4 * * *") 6 120]) empty_pst in
  sd_CRON <$> (map_to_list (schedules (psched s))).*2 = ["6 0 4 * * *"; "5 0 3 * * *"]
  /\ project_of sample_decode <$> (map_to_list (rpolicies s)).*2 = [Some 7; Some 7]
  /\ retention_ids s !! 7 = Some "2"%string.
Proof. split; [|split]; vm_compute; reflexivity. Qed.

(** The level of the scope is checked when a policy is created, not when it is
    updated: the policy of a project becomes one for all projects. *)
Theorem update_widens_scope :
  let s := sample_serve (sample_requests ++ [RqUpdate everything 1 (sample_plan "system" "0 0 3 * * *") 6 120 []]) empty_pst in
  (fun r => (pr_ScopeLevel r, pr_Data r)) <$> rpolicies s !! 1 = Some ("system"%string, "s0 0 3 * * *"%string)
  /\ rpolicies (sample_serve [RqCreate everything (sample_plan "system" "0 0 3 * * *") 6 120] empty_pst) = ∅.
Proof. split; vm_compute; reflexivity. Qed.

(** A policy of the kind schedule without a cron can be created; deleting it
    panics, also when its project is deleted, and leaves everything as it is. *)
Theorem cronless_policy_panics PostAction `{J : Json} decode id now world s r p t :
  rpolicies s !! id = Some r -> decode (pr_Data r) = Ok p -> pl_Trigger p = Some t ->
  tg_Kind t = TriggerKindSchedule -> cron_setting t = None ->
  is_ok (ctl_DeleteRetention PostAction decode id now world s).1 = false
  /\ same_tables s (ctl_DeleteRetention PostAction decode id now world s).2
  /\ (TaskDao.quiet (mdb (sm (psched s))) -> (ctl_DeleteRetention PostAction decode id now world s).1 = Err bad_assertion).
Proof.
  intros L D T Kd C. unfold ctl_DeleteRetention, mgr_GetPolicy, rd_GetPolicy, pdb, on_ptasks, on_psched, on_mgr, lift.
  unfold bind. destruct (dbio get (mdb (sm (psched s)))) as [[d|e] d'] eqn:E; cbn; [|by split_and!; [..|intros Q; rewrite quiet_dbio in E]].
  rewrite L. unfold of_result. rewrite D. cbn. rewrite T. cbn. unfold next_scheduled. rewrite C.
  assert (N : (if tg_Kind t =s= TriggerKindSchedule then t else t) = t) by (by destruct (_ =s= _)). rewrite N, Kd.
  unfold cron_text. by rewrite C.
Qed.

Example cronless_policy_created :
  rpolicies (sample_serve [RqCreate everything cronless_plan 5 100] empty_pst) !! 1
  = Some (mkProw "project" 7 "Schedule" "?" 100 100).
Proof. vm_compute. reflexivity. Qed.

(** The policies of a deleted project are deleted outside of a transaction, and an
    error is only logged: when the last statement fails the policy stays, without
    its schedule, and nothing deletes it later. *)
Definition job_stopped (g : mgr) : mgr := (lift (UpdateStatus 1 Status.StoppedStatus 1 125 ;;; RefreshStatus 1 125) g).2.

Definition failing_after (n : nat) (g : mgr) : mgr := with_mdb g (with_faults (mdb g) (repeat None n ++ [Some (PgError "57P01")])).

Example half_deleted_policy :
  let s n := sample_serve (sample_requests ++ [Elsewhere job_stopped; Elsewhere (failing_after n); RqDeleteProject 7 130 [id]]) empty_pst in
  rpolicies (s 13%nat) !! 1 = Some (mkProw "project" 7 "Schedule" "p0 0 3 * * *" 100 100)
  /\ schedules (psched (s 13%nat)) = ∅
  /\ rpolicies (s 14%nat) = ∅.
Proof. split; [|split]; vm_compute; reflexivity. Qed.
