(* ===== verification/ScanLaunch.v ===== *)
(** * Launching scans

    [src/controller/scan/base_controller.go]: how the scan of an artifact
    becomes tasks of the job service ([Scan], [launchScanJob]), how one is
    stopped ([Stop]), the scan of all artifacts ([ScanAll], [startScanAll],
    [StopScanAll]), the account that a scan pulls with ([makeRobotAccount]) and
    what happens when its task ends ([callback.go]); with the handler of
    vulnerability scans ([src/pkg/scan/vulnerability/vul.go]) and the table of
    reports ([src/pkg/scan/report/manager.go]).

    On top of [Scan] (what is scanned), [TaskManager] (executions and tasks) and
    [Robot] (accounts).  A scan runs in a transaction, but looks for earlier
    reports and their tasks through a connection of its own, which does not see
    what the transaction has done: the state holds both views.  A job that is
    submitted stays submitted when the transaction is rolled back.  Generating
    SBOMs, the other kind of scan, is not modelled. *)

From S2P Require Import Prelude Errors JobStatus TaskDao TaskManager.
From S2P Require Vuln Rbac Robot Retention Orm ArtifactDb Artifact ArtifactOps Scan.
Import GoStrings.

(** ** Data *)

Definition ScanTypeVulnerability : string := "vulnerability".
Definition ImageScanJobVendorType : string := "IMAGE_SCAN".
Definition ScanAllVendorType : string := "SCAN_ALL".
Definition authorizationType : string := "harbor.scanner-adapter/registry-authorization-type".

Definition ConflictError (cause : option error) : error :=
  WithCause (WithCode (New "resource conflict") ConflictCode) cause.
Definition PreconditionFailedError (cause : option error) : error :=
  WithCause (WithCode (New "precondition failed") PreconditionCode) cause.
Definition IsConflictErr (e : error) : bool := IsErr e ConflictCode.
Definition errScanAllStopped : error := New "scanAll stopped".

(** The options of a scan. *)
Record Options := mkOptions {
  o_ExecutionID : Z;
  o_Tag : string;
  o_ScanType : string;
  o_FromEvent : bool;
}.

Definition Option_ : Type := Options -> result Options.

Definition WithExecutionID (id : Z) : Option_ := fun o => Ok (mkOptions id (o_Tag o) (o_ScanType o) (o_FromEvent o)).
Definition WithTag (tag : string) : Option_ := fun o => Ok (mkOptions (o_ExecutionID o) tag (o_ScanType o) (o_FromEvent o)).
Definition WithFromEvent (b : bool) : Option_ := fun o => Ok (mkOptions (o_ExecutionID o) (o_Tag o) (o_ScanType o) b).

Fixpoint apply_options (l : list Option_) (o : Options) : result Options :=
  match l with
  | [] => Ok o
  | f :: l => match f o with Ok o => apply_options l o | Err e => Err e end
  end.

Definition parseOptions (l : list Option_) : result Options := apply_options l (mkOptions 0 "" "" false).

Definition GetScanType (o : Options) : string :=
  if o_ScanType o =s= "" then ScanTypeVulnerability else o_ScanType o.

(** The extra attributes of executions and tasks: the keys that scans use. *)
Record ScanSummary := mkScanSummary {
  TotalCount : Z;
  SubmitCount : Z;
  ConflictCount : Z;
  PreconditionCount : Z;
  UnsupportCount : Z;
  UnknowCount : Z;
}.

Record Attrs := mkAttrs {
  (** identifier, project, repository and digest *)
  at_artifact : option (Z * Z * string * string);
  at_registration : option (Z * string);
  at_type : option string;
  at_operator : option string;
  at_summary : option ScanSummary;
  at_artifact_id : option Z;
  at_artifact_tag : option string;
  at_robot_id : option Z;
  at_report_uuids : option (list string);
}.

Definition no_attrs : Attrs := mkAttrs None None None None None None None None None.

Definition with_summary (a : Attrs) (s : ScanSummary) : Attrs :=
  mkAttrs (at_artifact a) (at_registration a) (at_type a) (at_operator a) (Some s) (at_artifact_id a)
    (at_artifact_tag a) (at_robot_id a) (at_report_uuids a).

Definition GetReportUUIDs (a : Attrs) : list string := default [] (at_report_uuids a).
Definition getArtifactID (a : Attrs) : Z := default 0 (at_artifact_id a).
Definition getArtifactTag (a : Attrs) : string := default "" (at_artifact_tag a).
Definition getRobotID (a : Attrs) : Z := default 0 (at_robot_id a).

(** A request to the scanner. *)
Record ScanRequest := mkScanRequest {
  sr_URL : string;
  sr_NamespaceID : Z;
  sr_Repository : string;
  sr_Digest : string;
  sr_Tag : string;
  sr_MimeType : string;
  sr_Size : Z;
  sr_Type : string;
}.

Record launchScanJobParam := mkParam {
  lp_Registration : Scan.Registration;
  lp_Artifact : Artifact.ArtifactC;
  lp_Tag : string;
  lp_Reports : list Vuln.ReportRow;
  lp_Type : string;
}.

(** The event of a scan's end. *)
Record ScanImage := mkScanImage {
  si_Digest : string;
  si_Tag : string;
  si_Status : string;
  si_Operator : option string;
  si_ScanType : option string;
}.

(** ** State *)

(** The tables of artifacts, the executions and tasks with what was submitted
    to the job service, the table of reports, the accounts, how many
    identifiers were drawn, when the marks of stopped scans of all artifacts
    expire, the events; and, in a transaction, the reports and tasks that other
    connections see. *)
Record st := mkSt {
  registry : ArtifactDb.db;
  smgr : mgr;
  scan_report : list Vuln.ReportRow;
  accounts : Robot.store;
  drawn : nat;
  marks : gmap string Z;
  fired : list ScanImage;
  committed : option (list Vuln.ReportRow * db);
}.

Definition with_registry (s : st) x := mkSt x (smgr s) (scan_report s) (accounts s) (drawn s) (marks s) (fired s) (committed s).
Definition with_smgr (s : st) x := mkSt (registry s) x (scan_report s) (accounts s) (drawn s) (marks s) (fired s) (committed s).
Definition with_report (s : st) x := mkSt (registry s) (smgr s) x (accounts s) (drawn s) (marks s) (fired s) (committed s).
Definition with_accounts (s : st) x := mkSt (registry s) (smgr s) (scan_report s) x (drawn s) (marks s) (fired s) (committed s).
Definition with_drawn (s : st) x := mkSt (registry s) (smgr s) (scan_report s) (accounts s) x (marks s) (fired s) (committed s).
Definition with_marks (s : st) x := mkSt (registry s) (smgr s) (scan_report s) (accounts s) (drawn s) x (fired s) (committed s).
Definition with_fired (s : st) x := mkSt (registry s) (smgr s) (scan_report s) (accounts s) (drawn s) (marks s) x (committed s).
Definition with_committed (s : st) x := mkSt (registry s) (smgr s) (scan_report s) (accounts s) (drawn s) (marks s) (fired s) x.

Definition on_registry {A} (m : M ArtifactDb.db A) : M st A := fun s =>
  match m (registry s) with (r, d) => (r, with_registry s d) end.
Definition on_mgr {A} (m : M mgr A) : M st A := fun s =>
  match m (smgr s) with (r, g) => (r, with_smgr s g) end.
Definition on_accounts {A} (m : M Robot.store A) : M st A := fun s =>
  match m (accounts s) with (r, x) => (r, with_accounts s x) end.

(** [errors.Wrap] of the error of a call. *)
Definition wrapped {A} (message : string) (m : M st A) : M st A := fun s =>
  match m s with (Err e, s') => (Err (Wrap e message), s') | x => x end.

(** A call to the database, which can fail. *)
Definition dbcall {A} (f : M st A) : M st A :=
  on_mgr (lift (dbio (fun d => (Ok tt, d)))) ;;; f.

(** What a connection outside of the transaction sees. *)
Definition seen_reports (s : st) : list Vuln.ReportRow :=
  match committed s with Some (l, _) => l | None => scan_report s end.
Definition seen_db (s : st) : db :=
  match committed s with Some (_, d) => d | None => mdb (smgr s) end.

(** ** [WithTransaction] *)

(** The tables that scans write are those of [s] again; the sequences, the
    requests to the job service, redis, the faults that were met, and the events
    are not. *)
Definition undo (s s' : st) : st :=
  let d := mdb (smgr s) in
  let d' := mdb (smgr s') in
  mkSt (registry s')
    (with_mdb (smgr s') (mkDb (execs d) (tasks d) (next_exec d') (next_task d') (outdate d') (faults d') (db_down d')))
    (scan_report s)
    (Robot.mkStore (Robot.robots (accounts s)) (Robot.policies (accounts s)) (Robot.role_perms (accounts s))
       (Robot.projects (accounts s)) (Robot.seq (accounts s')) (Robot.draws (accounts s')) (Robot.faults (accounts s')))
    (drawn s') (marks s') (fired s') (committed s).

Definition WithTransaction {A} (f : M st A) : M st A := fun s =>
  match dbcall (ret tt) s with
  | (Err e, s1) => (Err e, s1)
  | (Ok _, s1) =>
      match f (with_committed s1 (Some (default (scan_report s1, mdb (smgr s1)) (committed s1)))) with
      | (Err e, s2) =>
          match dbcall (ret tt) (undo s1 s2) with
          | (Err e', s3) => (Err e', s3)
          | (Ok _, s3) => (Err e, s3)
          end
      | (Ok a, s2) =>
          match dbcall (ret tt) s2 with
          | (Err e', s3) => (Err e', undo s1 s3)
          | (Ok _, s3) => (Ok a, with_committed s3 (committed s1))
          end
      end
  end.

Section ScanLaunch.

(** Matching of immutable tags and sorting, of the artifact controller. *)
Context (doublestar_Match : string -> string -> result bool) (parse_untagged : string -> option bool).
Context (sort_by : (Retention.Candidate -> Z) -> list Retention.Candidate -> list Retention.Candidate).
(** The job service, and the encoding of the extra attributes. *)
Context (SubmitJob : JobData -> result string) (PostAction : string -> string -> result unit).
Context (Marshal : Attrs -> result string) (Unmarshal : string -> Attrs) (coreURL : string).
(** The scanner of a project, and the converter of stored reports. *)
Context (GetRegistrationByProject : Z -> result (option Scan.Registration)).
Context (FromRelationalSchema : string -> string -> string -> result string).
(** Identifiers: the ones that are drawn, and which texts are some. *)
Context (uuid : nat -> string) (uuid_Parse : string -> bool).
(** Accounts: encryption, random texts, the prefixes and how often to draw. *)
Context (Encrypt : string -> string -> string) (rnd : nat -> string) (RobotPrefix ScannerRobotPrefix : string).
Context (attempts : nat).
(** How often a scan of all artifacts looks for its execution. *)
Context (tries : nat).
(** The address of the registry, and the JSON of what a job gets. *)
Context (registry_address : bool -> result string).
Context (json_registration : Scan.Registration -> result string) (json_request : ScanRequest -> result string).
Context (json_robot : Robot.Robot -> result string) (json_strings : list string -> string).

Abbreviation collectScanningArtifacts := (Scan.collectScanningArtifacts doublestar_Match parse_untagged sort_by).

Definition new_uuid : M st string := fun s => (Ok (uuid (drawn s)), with_drawn s (S (drawn s))).

(** ** Reports *)

(** The unique keys of the table. *)
Definition same_report (r x : Vuln.ReportRow) : bool :=
  (Vuln.rr_UUID r =s= Vuln.rr_UUID x)
  || ((Vuln.rr_Digest r =s= Vuln.rr_Digest x) && (Vuln.rr_RegistrationUUID r =s= Vuln.rr_RegistrationUUID x)
      && (Vuln.rr_MimeType r =s= Vuln.rr_MimeType x)).

Definition report_dao_Create (r : Vuln.ReportRow) : M st unit :=
  dbcall (fun s => if existsb (same_report r) (scan_report s) then (Err (PgError "23505"), s)
                   else (Ok tt, with_report s (scan_report s ++ [r]))).

Definition report_Create (digest registrationUUID mimeType : string) : M st string :=
  if (digest =s= "") || (registrationUUID =s= "") || (mimeType =s= "") then fail (New "malformed scan report object")
  else
    u <- new_uuid ;;
    report_dao_Create (Vuln.mkReportRow u digest registrationUUID mimeType "" "" zero_time zero_time) ;;;
    ret u.

(** Through a connection of its own. *)
Definition report_GetBy (digest registrationUUID : string) (mimeTypes : list string) : M st (list Vuln.ReportRow) :=
  if digest =s= "" then fail (New "empty digest to get report data")
  else dbcall (fun s => (Ok (List.filter (fun rp => (Vuln.rr_Digest rp =s= digest)
        && ((registrationUUID =s= "") || (Vuln.rr_RegistrationUUID rp =s= registrationUUID))
        && (bool_decide (mimeTypes = []) || existsb (String.eqb (Vuln.rr_MimeType rp)) mimeTypes)) (seen_reports s)), s)).

(** ** The tasks of reports *)

Definition isValidUUID (id : string) : bool := negb (id =s= "") && uuid_Parse id.

Definition names (u : string) (t : Task) : bool := existsb (String.eqb u) (GetReportUUIDs (Unmarshal (t_ExtraAttrs t))).

(** [ORDER BY id DESC]. *)
Definition id_desc (a b : Task) : Prop := t_ID b <= t_ID a.

#[local] Instance id_desc_dec : RelDecision id_desc.
Proof. intros a b. unfold id_desc. apply _. Defined.

Definition naming_tasks (u : string) (d : db) : list Task :=
  merge_sort id_desc (List.filter (names u) (map_to_list (tasks d)).*2).

Definition ListScanTasksByReportUUID (u : string) : M st (list Task) :=
  if negb (isValidUUID u) then fail (BadRequestError (Some (Plain ("invalid UUID " ++ u)%string)))
  else dbcall (fun s => (Ok (take 1 (naming_tasks u (seen_db s))), s)).

Definition getScanTask (u : string) : M st Task :=
  ts <- ListScanTasksByReportUUID u ;;
  match ts with
  | [] => fail (WithMessage (NotFoundError None) ("task for report " ++ u ++ " not found")%string)
  | t :: _ => ret t
  end.

(** All the reads are made; the first error is the result. *)
Fixpoint listScanTasks (uuids : list string) : M st (list Task) :=
  match uuids with
  | [] => ret []
  | u :: uuids =>
      r <- try (getScanTask u) ;;
      rest <- try (listScanTasks uuids) ;;
      match r with
      | Ok t => l <- of_result rest ;; ret (t :: l)
      | Err e => if negb (IsNotFoundErr e) then fail e else of_result rest
      end
  end.

Definition scan_task (t : Task) : Scan.ScanTask :=
  Scan.mkScanTask (GetReportUUIDs (Unmarshal (t_ExtraAttrs t))) (t_Status t) (t_StartTime t) (t_EndTime t).

Definition assembleReports (l : list Vuln.ReportRow) : M st (list Vuln.ReportRow) :=
  ts <- listScanTasks (Vuln.rr_UUID <$> l) ;;
  of_result (Scan.assemble FromRelationalSchema (scan_task <$> ts) l).

(** ** The handler of vulnerability scans *)

Definition cap_scan_type (c : Scan.ScannerCapability) : string :=
  if Scan.cap_Type c =s= "" then ScanTypeVulnerability else Scan.cap_Type c.

Definition GetProducesMimeTypes (r : Scan.Registration) (mimeType scanType : string) : list string :=
  match Scan.Capabilities r with
  | None => []
  | Some l =>
      match List.find (fun c => (scanType =s= cap_scan_type c) && existsb (String.eqb mimeType) (Scan.ConsumesMimeTypes c)) l with
      | Some c => Scan.ProducesMimeTypes c
      | None => []
      end
  end.

(** The report of a media type among the old ones: the last one. *)
Definition existing (oldReports : list Vuln.ReportRow) (pm : string) : option Vuln.ReportRow :=
  List.find (fun rp => Vuln.rr_MimeType rp =s= pm) (rev oldReports).

(** A placeholder for each media type: the old report, or a new row. *)
Fixpoint placeholders (digest registrationUUID : string) (oldReports : list Vuln.ReportRow) (mimeTypes : list string)
    : M st (list Vuln.ReportRow) :=
  match mimeTypes with
  | [] => ret []
  | pm :: mimeTypes =>
      u <- match existing oldReports pm with
           | Some old => ret (Vuln.rr_UUID old)
           | None => WithTransaction (report_Create digest registrationUUID pm)
           end ;;
      rest <- placeholders digest registrationUUID oldReports mimeTypes ;;
      ret (Vuln.mkReportRow u digest registrationUUID pm "" "" zero_time zero_time :: rest)
  end.

Definition unfinished (rp : Vuln.ReportRow) : bool := negb (Status.Final (Vuln.rr_Status rp)).

Definition MakePlaceHolder (art : Artifact.ArtifactC) (r : Scan.Registration) : M st (list Vuln.ReportRow) :=
  let a := ArtifactDb.row (Artifact.art art) in
  let mimeTypes := GetProducesMimeTypes r (ArtifactDb.a_ManifestMediaType a) ScanTypeVulnerability in
  rows <- report_GetBy (ArtifactDb.a_Digest a) (Scan.reg_UUID r) mimeTypes ;;
  oldReports <- assembleReports rows ;;
  match List.find unfinished oldReports with
  | Some oldReport => fail (WithMessage (ConflictError None) ("a previous scan process is " ++ Vuln.rr_Status oldReport)%string)
  | None => placeholders (ArtifactDb.a_Digest a) (Scan.reg_UUID r) oldReports mimeTypes
  end.

Definition RequiredPermissions : list Rbac.Policy :=
  [Rbac.mkPolicy "repository" "pull" ""; Rbac.mkPolicy "repository" "scanner-pull" ""].

(** ** Launching the job of one artifact *)

Definition repository_project (repository : string) : string := default "" (head (Split repository "/")).

Definition makeRobotAccount (projectID : Z) (repository : string) (r : Scan.Registration) (permission : list Rbac.Policy)
    (now : Z) : M st Robot.Robot :=
  u <- new_uuid ;;
  let projectName := repository_project repository in
  let name := (ScannerRobotPrefix ++ "-" ++ Scan.reg_Name r ++ "-" ++ u)%string in
  let req := Robot.mkRobot (Robot.mkRobotRow 0 name "for scan" "" "" (-1) projectID 0 false false 0 "local" 0)
               projectName None Robot.LEVELPROJECT false [Robot.mkPermission "project" projectName permission ""] in
  created <- wrapped "scan controller: make robot account" (on_accounts (Robot.Create Encrypt rnd attempts req now)) ;;
  r <- wrapped "scan controller: make robot account" (on_accounts (Robot.Get RobotPrefix created.1 false)) ;;
  ret (Robot.mkRobot (Robot.with_secret (Robot.row r) created.2) (Robot.ProjectName r) (Robot.ProjectNameOrID r)
         (Robot.Level r) (Robot.Editable r) (Robot.Permissions r)).

Definition GetRegistryAuthorizationType (r : Scan.Registration) : string :=
  let auth := match Scan.Properties r with Some p => default "" (p !! authorizationType) | None => "" end in
  if negb (auth =s= "Basic") && negb (auth =s= "Bearer") then "Basic" else auth.

(** The job of a scan: what the job service gets. *)
Definition scan_job (r : Scan.Registration) (rJSON sJSON robotJSON : string) (mimes : list string) : Job :=
  mkJob ImageScanJobVendorType
    (Some [("registration", rJSON); ("authType", GetRegistryAuthorizationType r); ("scanRequest", sJSON);
           ("mimeTypes", json_strings mimes); ("robotAccount", robotJSON)])
    (Some (mkJobMetadata "Generic" 0 "" false)).

Definition scan_request (a : ArtifactDb.ArtRow) (tag url scanType : string) : ScanRequest :=
  mkScanRequest url (ArtifactDb.a_ProjectID a) (ArtifactDb.a_RepositoryName a) (ArtifactDb.a_Digest a) tag
    (ArtifactDb.a_ManifestMediaType a) (ArtifactDb.a_Size a) scanType.

Definition task_extra (artifactID : Z) (tag : string) (robotID : Z) (reportUUIDs : list string) : Attrs :=
  mkAttrs None None None None None (Some artifactID) (Some tag) (Some robotID) (Some reportUUIDs).

Definition launchScanJob (executionID : Z) (p : launchScanJobParam) (opts : Options) (now : Z) : M st unit :=
  let r := lp_Registration p in
  let a := ArtifactDb.row (Artifact.art (lp_Artifact p)) in
  if negb (Scan.hasCapability r (lp_Artifact p)) then ret tt
  else
    registryAddr <- wrapped "scan controller: launch scan job" (of_result (registry_address (Scan.UseInternalAddr r))) ;;
    robot <- wrapped "scan controller: launch scan job"
               (makeRobotAccount (ArtifactDb.a_ProjectID a) (ArtifactDb.a_RepositoryName a) r RequiredPermissions now) ;;
    rJSON <- wrapped "scan controller: launch scan job" (of_result (json_registration r)) ;;
    sJSON <- wrapped "launch scan job" (of_result (json_request (scan_request a (lp_Tag p) registryAddr (GetScanType opts)))) ;;
    robotJSON <- wrapped "launch scan job" (of_result (json_robot robot)) ;;
    on_mgr (Create SubmitJob Marshal no_attrs coreURL executionID
      (scan_job r rJSON sJSON robotJSON (Vuln.rr_MimeType <$> lp_Reports p))
      (Some (task_extra (ArtifactDb.a_ID a) (lp_Tag p) (Robot.ID (Robot.row robot)) (Vuln.rr_UUID <$> lp_Reports p))) now) ;;;
    ret tt.

(** ** Scanning an artifact *)

(** The tag that was pushed last. *)
Definition pushed_later (g h : Artifact.Tag) : Prop :=
  ArtifactDb.t_PushTime (Artifact.tag h) <= ArtifactDb.t_PushTime (Artifact.tag g).

#[local] Instance pushed_later_dec : RelDecision pushed_later.
Proof. intros g h. unfold pushed_later. apply _. Defined.

Definition getLatestTagOfArtifact (artifactID : Z) : M st string :=
  l <- on_registry (Artifact.tag_List doublestar_Match parse_untagged sort_by
                      (fun g => ArtifactDb.t_ArtifactID g =? artifactID) false) ;;
  match merge_sort pushed_later l with
  | [] => ret ""
  | g :: _ => ret (ArtifactDb.t_Name (Artifact.tag g))
  end.

(** The tag of the options is that of the artifact the scan was asked for. *)
Definition scan_tag (digest : string) (opts : Options) (b : Artifact.ArtifactC) : M st string :=
  let tag := if Artifact.digest_of b =s= digest then o_Tag opts else "" in
  if tag =s= "" then getLatestTagOfArtifact (ArtifactDb.a_ID (ArtifactDb.row (Artifact.art b))) else ret tag.

(** The loop over the artifacts: the conflicts, and what is to be launched. *)
Fixpoint place (r : Scan.Registration) (digest : string) (opts : Options) (l : list Artifact.ArtifactC)
    (errs : list error) (params : list launchScanJobParam) : M st (list error * list launchScanJobParam) :=
  match l with
  | [] => ret (errs, params)
  | b :: l =>
      made <- try (MakePlaceHolder b r) ;;
      x <- match made with
           | Ok reports => ret (errs, reports)
           | Err e => if IsConflictErr e then ret (errs ++ [e], []) else fail e
           end ;;
      tag <- scan_tag digest opts b ;;
      place r digest opts l x.1
        (match x.2 with [] => params | _ => params ++ [mkParam r b tag x.2 (GetScanType opts)] end)
  end.

(** The loop over what is to be launched: the errors, which are logged. *)
Fixpoint launch (executionID : Z) (opts : Options) (now : Z) (l : list launchScanJobParam) (errs : list error)
    : M st (list error) :=
  match l with
  | [] => ret errs
  | p :: l =>
      r <- try (launchScanJob executionID p opts now) ;;
      launch executionID opts now l (match r with Ok _ => errs | Err e => errs ++ [e] end)
  end.

Definition scan_attrs (a : ArtifactDb.ArtRow) (r : Scan.Registration) (scanType operator : string) : Attrs :=
  mkAttrs (Some (ArtifactDb.a_ID a, ArtifactDb.a_ProjectID a, ArtifactDb.a_RepositoryName a, ArtifactDb.a_Digest a))
    (Some (Scan.reg_ID r, Scan.reg_Name r)) (Some scanType) (if operator =s= "" then None else Some operator)
    None None None None None.

Definition scan_failed (a : ArtifactDb.ArtRow) : error :=
  Plain ("scan artifact " ++ ArtifactDb.a_RepositoryName a ++ "@" ++ ArtifactDb.a_Digest a ++ " failed")%string.

(** [operator] is the one of the context; [fuel] bounds the walk over the
    artifact. *)
Definition Scan (fuel : nat) (operator : string) (artifact : option Artifact.ArtifactC) (options : list Option_) (now : Z)
    : M st unit :=
  match artifact with
  | None => fail (New "nil artifact to scan")
  | Some c =>
      let a := ArtifactDb.row (Artifact.art c) in
      registration <- wrapped "scan controller: scan" (of_result (GetRegistrationByProject (ArtifactDb.a_ProjectID a))) ;;
      match registration with
      | None => fail (WithMessage (PreconditionFailedError None)
                        ("no available scanner for project: " ++ Strconv.format_int (ArtifactDb.a_ProjectID a))%string)
      | Some r =>
          if Scan.reg_Disabled r
          then fail (WithMessage (PreconditionFailedError None) ("scanner " ++ Scan.reg_Name r ++ " is deactivated")%string)
          else
            collected <- on_registry (collectScanningArtifacts fuel r c) ;;
            let '(artifacts, scannable) := collected in
            opts <- wrapped "scan controller: scan" (of_result (parseOptions options)) ;;
            if negb scannable then
              if o_FromEvent opts then ret tt
              else fail (WithMessage (BadRequestError None)
                     ("the configured scanner " ++ Scan.reg_Name r ++ " does not support scanning artifact with mime type "
                      ++ ArtifactDb.a_ManifestMediaType a)%string)
            else
              placed <- place r (ArtifactDb.a_Digest a) opts artifacts [] [] ;;
              let '(errs, params) := placed in
              if (length errs =? length artifacts)%nat
              then fail (default (Panic "index out of range [0] with length 0") (head errs))
              else
                executionID <- (if o_ExecutionID opts =? 0
                                then on_mgr (CreateExecution Marshal no_attrs ImageScanJobVendorType (ArtifactDb.a_ID a)
                                               "MANUAL" (Some (scan_attrs a r (GetScanType opts) operator)) now)
                                else ret (o_ExecutionID opts)) ;;
                errs <- launch executionID opts now params [] ;;
                if (length errs =? length params)%nat then fail (scan_failed a) else ret tt
      end
  end.

(** ** Stopping a scan *)

(** The executions of a scan of this digest, the newest first. *)
Definition scan_executions (digest : string) (x : Execution) : bool :=
  let at_ := Unmarshal (e_ExtraAttrs x) in
  (e_VendorType x =s= ImageScanJobVendorType)
  && match at_artifact at_ with Some (_, _, _, d) => d =s= digest | None => false end
  && match at_type at_ with Some t => t =s= ScanTypeVulnerability | None => false end.

Definition Stop (artifact : option Artifact.ArtifactC) (now : Z) : M st unit :=
  match artifact with
  | None => fail (New "nil artifact to stop scan")
  | Some c =>
      executions <- on_mgr (lift (exec_List (scan_executions (Artifact.digest_of c)))) ;;
      match executions with
      | [] => fail (WithMessage (BadRequestError None) ("no scan job for artifact digest=" ++ Artifact.digest_of c)%string)
      | x :: _ => on_mgr (TaskManager.Stop PostAction x.1 now)
      end
  end.

(** ** Scanning all artifacts *)

(** [artifact.Iterator]: [pages] are what listing the artifacts page by page
    gives; an error ends the iteration, and so does a page that is not full. *)
Fixpoint Iterator {A} (chunkSize : nat) (pages : list (result (list A))) : list A :=
  match pages with
  | Ok l :: pages => l ++ (if (length l <? chunkSize)%nat then [] else Iterator chunkSize pages)
  | _ => []
  end.

Definition scanAllStoppedKey (execID : Z) : string :=
  ("scan_all:execution_id:" ++ Strconv.format_int execID ++ ":stopped")%string.

(** Marks live for two hours; [saved] is the answer of the cache. *)
Definition markScanAllStopped (execID now : Z) (saved : result unit) : M st unit :=
  of_result saved ;;;
  modify (fun s => with_marks s (<[scanAllStoppedKey execID := now + 7200]> (marks s))).

Definition isScanAllStopped (execID now : Z) (s : st) : bool :=
  match marks s !! scanAllStoppedKey execID with Some expiry => now <? expiry | None => false end.

Definition count_scan (sum : ScanSummary) (r : result unit) : ScanSummary :=
  match sum with mkScanSummary t s c p b u =>
    match r with
    | Ok _ => mkScanSummary (t + 1) (s + 1) c p b u
    | Err e =>
        let code := ErrCode e in
        if code =s= ConflictCode then mkScanSummary (t + 1) s (c + 1) p b u
        else if code =s= PreconditionCode then mkScanSummary (t + 1) s c (p + 1) b u
        else if code =s= BadRequestCode then mkScanSummary (t + 1) s c p (b + 1) u
        else mkScanSummary (t + 1) s c p b (u + 1)
    end
  end.

(** One artifact of the iteration: when it is taken, and what the rest of the
    system has done since the one before. *)
Record turn := mkTurn {
  tn_artifact : Artifact.ArtifactC;
  tn_now : Z;
  tn_world : st -> st;
}.

Fixpoint scan_turns (fuel : nat) (executionID : Z) (l : list turn) (sum : ScanSummary) : M st ScanSummary :=
  match l with
  | [] => ret sum
  | t :: l =>
      modify (tn_world t) ;;;
      s <- get ;;
      if isScanAllStopped executionID (tn_now t) s then fail errScanAllStopped
      else
        r <- try (WithTransaction (Scan fuel "" (Some (tn_artifact t)) [WithExecutionID executionID] (tn_now t))) ;;
        scan_turns fuel executionID l (count_scan sum r)
  end.

Definition count_text (n : Z) : string := Strconv.format_int n.

(** What the execution says when no scan was submitted. *)
Definition all_message (sum : ScanSummary) : string :=
  if PreconditionCount sum + UnknowCount sum =? 0 then
    (count_text (TotalCount sum) ++ " artifact(s) found"
     ++ (if (0 <? UnsupportCount sum)%Z then ", " ++ count_text (UnsupportCount sum) ++ " artifact(s) not scannable" else "")
     ++ (if (0 <? ConflictCount sum)%Z
         then ", " ++ count_text (ConflictCount sum) ++ " artifact(s) have a previous ongoing scan process" else "")
     ++ ", but no scan job submitted to the job service")%string
  else
    (count_text (TotalCount sum) ++ " artifact(s) found"
     ++ (if (0 <? PreconditionCount sum)%Z
         then ", scanner not found or deactivated for " ++ count_text (PreconditionCount sum) ++ " of them" else "")
     ++ (if (0 <? UnknowCount sum)%Z then ", internal error happened for " ++ count_text (UnknowCount sum) ++ " of them" else "")
     ++ ", but no scan job submitted to the job service")%string.

Definition no_summary : ScanSummary := mkScanSummary 0 0 0 0 0 0.

Definition startScanAll (fuel : nat) (executionID : Z) (l : list turn) (now : Z) : M st unit :=
  sum <- scan_turns fuel executionID l no_summary ;;
  exec <- on_mgr (lift (exec_Get executionID)) ;;
  on_mgr (UpdateExtraAttrs Marshal executionID (with_summary (Unmarshal (e_ExtraAttrs exec)) sum) now) ;;;
  if 0 <? SubmitCount sum then ret tt
  else if TotalCount sum =? 0 then on_mgr (MarkDone executionID "no artifact found" now)
  else if PreconditionCount sum + UnknowCount sum =? 0 then on_mgr (MarkDone executionID (all_message sum) now)
  else on_mgr (MarkError executionID (all_message sum) now).

(** The error of the goroutine of an asynchronous scan is logged; [ready] is
    what happens until it runs. *)
Definition ScanAll (fuel : nat) (operator trigger : string) (async : bool) (ready : st -> st) (l : list turn) (now : Z)
    : M st Z :=
  executionID <- on_mgr (CreateExecution Marshal no_attrs ScanAllVendorType 0 trigger
     (Some (mkAttrs None None None (if operator =s= "" then None else Some operator) None None None None None)) now) ;;
  if async then
    modify ready ;;;
    found <- try (Retry tries None (on_mgr (lift (exec_Get executionID)) ;;; ret tt)) ;;
    match found with
    | Err _ => ret executionID
    | Ok _ => try (startScanAll fuel executionID l now) ;;; ret executionID
    end
  else startScanAll fuel executionID l now ;;; ret executionID.

(** The error of the goroutine is logged. *)
Definition StopScanAll (executionID : Z) (async : bool) (now : Z) (saved : result unit) : M st unit :=
  let stopScanAll := markScanAllStopped executionID now saved ;;; on_mgr (TaskManager.Stop PostAction executionID now) in
  if async then try stopScanAll ;;; ret tt else stopScanAll.

(** ** The end of a scan's task *)

(** When the task of a scan has ended, its account is deleted and an event tells
    of the scan's end. *)
Definition scanTaskStatusChange (taskID : Z) (status : string) : M st unit :=
  if negb (Status.Final status) then ret tt
  else
    t <- on_mgr (lift (task_Get taskID)) ;;
    exec <- on_mgr (lift (exec_Get (t_ExecutionID t))) ;;
    let at_ := Unmarshal (t_ExtraAttrs t) in
    (if 0 <? getRobotID at_
     then try (on_accounts (Robot.Delete (getRobotID at_))) ;;; ret tt else ret tt) ;;;
    if 0 <? getArtifactID at_ then
      r <- try (on_registry (Artifact.Get doublestar_Match parse_untagged sort_by (getArtifactID at_) None)) ;;
      match r with
      | Err _ => ret tt
      | Ok a =>
          let ex := Unmarshal (e_ExtraAttrs exec) in
          modify (fun s => with_fired s (fired s ++
            [mkScanImage (Artifact.digest_of a) (getArtifactTag at_) status (at_operator ex) (at_type ex)]))
      end
    else ret tt.

End ScanLaunch.
