(* ===== verification/ScanLaunchSpec.v ===== *)
(** * Launching scans: what is guaranteed

    At most one unfinished scan per report, whatever scans are made and however
    they fail; that the scan of all artifacts is a sequence of such scans, which
    counts every artifact once; and where its iteration ends too early. *)

From S2P Require Import Prelude Errors JobStatus TaskDao TaskManager.
From S2P Require Vuln Rbac Robot RobotFlow Retention Orm ArtifactDb Artifact ArtifactDelete ArtifactOps Scan.
From S2P Require Import ScanLaunch.
Import GoStrings.

(** ** Operations that leave reports and tasks alone *)

(** Faults of the database that do not look like a missing row. *)
Definition plain_fault (f : option error) : Prop := match f with Some e => IsNotFoundErr e = false | None => True end.

Definition honest (d : db) : Prop := Forall plain_fault (faults d) /\ plain_fault (db_down d).

Record dneutral (d d' : db) : Prop := mkDneutral {
  dn_tasks : tasks d' = tasks d;
  dn_next : next_task d <= next_task d';
  dn_honest : honest d -> honest d';
}.

#[export] Instance dneutral_preorder : PreOrder dneutral.
Proof.
  split; [intros d; split; [done|lia|done]|]. intros d1 d2 d3 [A B C] [A' B' C']. split; [congruence|lia|auto].
Qed.

Lemma dneutral_faults d f fs : faults d = f :: fs -> dneutral d (with_faults d fs).
Proof. intros E. split; [done|cbn; lia|]. intros [H1 H2]. rewrite E in H1. by inversion H1. Qed.

(** A call to the database fails at once, for a reason that is not a missing
    row, or has its effect. *)
Lemma dbio_run {A} (f : M db A) d r d' :
  dbio f d = (r, d') ->
  exists d1, dneutral d d1 /\ execs d1 = execs d
    /\ ((exists e, r = Err e /\ d' = d1 /\ (honest d -> IsNotFoundErr e = false)) \/ f d1 = (r, d')).
Proof.
  unfold dbio, io, next_fault, db_faulty. destruct (db_down d) as [e|] eqn:Ed.
  { intros [= <- <-]. exists d. split; [reflexivity|]. split; [done|]. left. exists e. split; [done|]. split; [done|].
    intros [_ H]. by rewrite Ed in H. }
  cbn. destruct (faults d) as [|[e|] fs] eqn:Ef; cbn.
  - intros E. exists d. split; [reflexivity|]. split; [done|]. by right.
  - intros [= <- <-]. exists (with_faults d fs). split; [by eapply dneutral_faults|]. split; [done|]. left. exists e.
    split; [done|]. split; [done|]. intros [H _]. rewrite Ef in H. by inversion H.
  - intros E. exists (with_faults d fs). split; [by eapply dneutral_faults|]. split; [done|]. by right.
Qed.

Lemma dneutral_dbio {A} (f : M db A) : (forall d, dneutral d (f d).2) -> forall d, dneutral d (dbio f d).2.
Proof.
  intros H d. destruct (dbio f d) as [r d'] eqn:E. destruct (dbio_run _ _ _ _ E) as (d1 & N & _ & [(e & _ & -> & _)|F]); [done|].
  cbn. etrans; [done|]. specialize (H d1). by rewrite F in H.
Qed.

Record neutral (s s' : st) : Prop := mkNeutral {
  nt_report : scan_report s' = scan_report s;
  nt_db : dneutral (mdb (smgr s)) (mdb (smgr s'));
  nt_drawn : (drawn s <= drawn s')%nat;
  nt_committed : committed s' = committed s;
}.

#[export] Instance neutral_preorder : PreOrder neutral.
Proof.
  split; [intros s; split; [done|done|lia|done]|]. intros s1 s2 s3 [A B C D] [A' B' C' D']. split; [congruence|by etrans|lia|congruence].
Qed.

Definition idle {A} (m : M st A) : Prop := forall s, neutral s (m s).2.

Create HintDb idle.

Lemma idle_ret {A} (a : A) : idle (ret a).
Proof. intros s. reflexivity. Qed.

Lemma idle_fail {A} e : idle (@fail st A e).
Proof. intros s. reflexivity. Qed.

Lemma idle_of_result {A} (r : result A) : idle (of_result r).
Proof. intros s. reflexivity. Qed.

Lemma idle_bind {A B} (m : M st A) (k : A -> M st B) : idle m -> (forall a, idle (k a)) -> idle (bind m k).
Proof.
  intros Hm Hk s. specialize (Hm s). unfold bind. destruct (m s) as [[a|e] s1]; cbn in *; [|done]. etrans; [exact Hm|]. apply Hk.
Qed.

Lemma idle_try {A} (m : M st A) : idle m -> idle (try m).
Proof. intros H s. specialize (H s). unfold try. by destruct (m s). Qed.

Lemma idle_wrapped {A} message (m : M st A) : idle m -> idle (wrapped message m).
Proof. intros H s. specialize (H s). unfold wrapped. by destruct (m s) as [[a|e] s1]. Qed.

Lemma idle_on_registry {A} (m : M ArtifactDb.db A) : idle (on_registry m).
Proof. intros s. unfold on_registry. destruct (m (registry s)) as [r x]. by split. Qed.

Lemma idle_on_accounts {A} (m : M Robot.store A) : idle (on_accounts m).
Proof. intros s. unfold on_accounts. destruct (m (accounts s)) as [r x]. by split. Qed.

Lemma idle_lift {A} (m : M db A) : (forall d, dneutral d (m d).2) -> idle (on_mgr (lift m)).
Proof.
  intros H s. unfold on_mgr, lift. specialize (H (mdb (smgr s))). destruct (m (mdb (smgr s))) as [r d]. split; [done|exact H|done|done].
Qed.

Lemma idle_dbcall {A} (f : M st A) : idle f -> idle (dbcall f).
Proof. intros H. apply idle_bind; [|done]. apply idle_lift, dneutral_dbio. reflexivity. Qed.

#[export] Hint Resolve idle_ret idle_fail idle_of_result idle_bind idle_try idle_wrapped idle_on_registry
  idle_on_accounts idle_dbcall : idle.

(** A call that succeeds, and one that fails. *)
Lemma dbcall_inv {A} (f : M st A) s r s' :
  dbcall f s = (r, s') ->
  exists s1, neutral s s1 /\ ((exists e, r = Err e /\ s' = s1 /\ (honest (mdb (smgr s)) -> IsNotFoundErr e = false))
                              \/ f s1 = (r, s')).
Proof.
  unfold dbcall, bind, on_mgr, lift. destruct (dbio (fun d => (Ok tt, d)) (mdb (smgr s))) as [[u|e] d] eqn:E.
  - intros F. exists (with_smgr s (with_mdb (smgr s) d)). split; [|by right].
    pose proof (idle_lift _ (dneutral_dbio (fun d => (Ok tt, d)) (fun d => reflexivity d)) s) as N.
    unfold on_mgr, lift in N. by rewrite E in N.
  - intros [= <- <-]. exists (with_smgr s (with_mdb (smgr s) d)). split.
    { pose proof (idle_lift _ (dneutral_dbio (fun d => (Ok tt, d)) (fun d => reflexivity d)) s) as N.
      unfold on_mgr, lift in N. by rewrite E in N. }
    left. exists e. split; [done|]. split; [done|].
    destruct (dbio_run _ _ _ _ E) as (d1 & _ & _ & [(e' & [= <-] & _ & H)|[=]]). done.
Qed.

(** What creating a task does to the table: nothing, or one more row that
    carries the extra attributes. *)
Definition fresh_ids (d : db) : Prop := forall i, next_task d <= i -> tasks d !! i = None.

Definition keyed_tasks (d : db) : Prop := forall i t, tasks d !! i = Some t -> t_ID t = i.

Record one_more (data : string) (n : Z) (t : Task) (d d' : db) : Prop := mkOneMore {
  om_fresh : next_task d <= n;
  om_tasks : tasks d' = <[n := t]> (tasks d);
  om_id : t_ID t = n;
  om_attrs : t_ExtraAttrs t = data;
  om_next : n < next_task d';
  om_honest : honest d -> honest d';
}.

Lemma neutral_one_more data n t d d1 d' : dneutral d d1 -> one_more data n t d1 d' -> one_more data n t d d'.
Proof. intros [A B C] [D E F G H I]. split; [lia|congruence|done|done|done|auto]. Qed.

Lemma one_more_neutral data n t d d1 d' : one_more data n t d d1 -> dneutral d1 d' -> one_more data n t d d'.
Proof. intros [D E F G H I] [A B C]. split; [done|congruence|done|done|lia|auto]. Qed.

Section Create.
Context (SubmitJob : JobData -> result string) (Marshal : Attrs -> result string) (coreURL : string).

Lemma exec_Get_neutral i d : dneutral d (exec_Get i d).2.
Proof. apply dneutral_dbio. intros d1. destruct (execs d1 !! i); reflexivity. Qed.

Lemma record_effect executionID a now d r d' :
  createTaskRecord Marshal no_attrs executionID (Some a) now d = (r, d') ->
  match r with
  | Ok id => exists data t, Marshal a = Ok data /\ one_more data id t d d'
  | Err _ => dneutral d d'
  end.
Proof.
  unfold createTaskRecord, bind, of_result, extras. change (default no_attrs (Some a)) with a. pose proof (exec_Get_neutral executionID d) as N1.
  destruct (exec_Get executionID d) as [[x|e] d1]; cbn [snd] in *; [|by intros [= <- <-]].
  destruct (Marshal a) as [data|e]; cbv beta iota; [|by intros [= <- <-]].
  unfold task_Create. intros E2. destruct (dbio_run _ _ _ _ E2) as (d2 & N2 & _ & [(e & -> & -> & _)|F]); [by etrans|].
  cbn [t_ExecutionID] in F. destruct (execs d2 !! executionID); injection F as <- <-; [|by etrans].
  eexists data, _. split; [done|]. apply (neutral_one_more _ _ _ _ d2); [by etrans|].
  split; [lia|reflexivity|done|done|cbn; lia|done].
Qed.

(** Updating or deleting the row again. *)
Lemma row_again data n t d d1 (f : Task -> Task) :
  one_more data n t d d1 -> (forall u, t_ID (f u) = t_ID u /\ t_ExtraAttrs (f u) = t_ExtraAttrs u) ->
  exists t', one_more data n t' d (task_Update n f d1).2.
Proof.
  intros O Hf. unfold task_Update. destruct (dbio _ d1) as [r d2] eqn:E.
  destruct (dbio_run _ _ _ _ E) as (d3 & N & _ & [(e & _ & -> & _)|F]); [exists t; by eapply one_more_neutral|].
  pose proof (one_more_neutral _ _ _ _ _ _ O N) as O3. rewrite (om_tasks _ _ _ _ _ O3), lookup_insert_eq in F.
  injection F as <- <-. destruct (Hf t) as [H1 H2]. destruct O3 as [A B C D G H]. exists (f t).
  split; [done| |congruence|congruence|done|done]. cbn. by rewrite ?B, insert_insert_eq.
Qed.

Lemma row_deleted data n t d d1 :
  one_more data n t d d1 -> tasks d !! n = None ->
  dneutral d (task_Delete n d1).2 \/ one_more data n t d (task_Delete n d1).2.
Proof.
  intros O Hn. unfold task_Delete. destruct (dbio _ d1) as [r d2] eqn:E.
  destruct (dbio_run _ _ _ _ E) as (d3 & N & _ & [(e & _ & -> & _)|F]); [right; by eapply one_more_neutral|].
  pose proof (one_more_neutral _ _ _ _ _ _ O N) as O3. rewrite (om_tasks _ _ _ _ _ O3), lookup_insert_eq in F.
  injection F as <- <-. left. destruct O3 as [A B C D G H]. split; [|cbn; lia|done]. cbn. rewrite ?B. by rewrite delete_insert_id.
Qed.

Lemma Create_effect executionID jb a now g :
  fresh_ids (mdb g) ->
  let g' := (Create SubmitJob Marshal no_attrs coreURL executionID jb (Some a) now g).2 in
  dneutral (mdb g) (mdb g') \/ exists data n t, Marshal a = Ok data /\ one_more data n t (mdb g) (mdb g').
Proof.
  intros F g'. remember (Create _ _ _ _ _ _ _ _ g) as x eqn:E in g'. subst g'. revert E. unfold Create, bind at 1, lift at 1.
  destruct (createTaskRecord _ _ _ _ _ _) as [[id|e] d1] eqn:E1; pose proof (record_effect _ _ _ _ _ _ E1) as R;
    [|intros ->; by left].
  destruct R as (data & t & Hm & O). unfold bind at 1, try at 1, submitJob, with_mdb. cbn [mdb submitted actions].
  assert (Hn : tasks (mdb g) !! id = None) by (apply F, (om_fresh _ _ _ _ _ O)).
  destruct (SubmitJob _) as [jobID|e]; unfold bind, try, lift, with_mdb; cbn [mdb].
  - destruct (row_again _ _ _ _ _ (set_job_id jobID) O) as [t' O']; [done|].
    destruct (task_Update id (set_job_id jobID) d1) as [r d2]. intros ->. right. exists data, id, t'. split; [done|exact O'].
  - destruct (row_deleted _ _ _ _ _ O Hn) as [N|O']; destruct (task_Delete id d1) as [r d2]; intros ->; [by left|].
    right. exists data, id, t. split; [done|exact O'].
Qed.
End Create.

(** ** Reports and the tasks that name them *)

Section Good.
Context (Unmarshal : string -> Attrs) (uuid : nat -> string).
(** The media types that are produced for a digest by a scanner. *)
Context (mimes : string -> string -> list string).

Definition uuids_of (t : Task) : list string := GetReportUUIDs (Unmarshal (t_ExtraAttrs t)).

Definition stored (d : db) (t : Task) : Prop := exists i, tasks d !! i = Some t.

Definition is_row (rows : list Vuln.ReportRow) (digest reg m u : string) : Prop :=
  exists w, w ∈ rows /\ Vuln.rr_UUID w = u /\ Vuln.rr_Digest w = digest /\ Vuln.rr_RegistrationUUID w = reg
            /\ Vuln.rr_MimeType w = m.

(** The identifiers of the reports of a digest and a scanner. *)
Definition group (rows : list Vuln.ReportRow) (digest reg : string) (us : list string) : Prop :=
  Forall2 (is_row rows digest reg) (mimes digest reg) us.

Definition key (w : Vuln.ReportRow) : string * string * string :=
  (Vuln.rr_Digest w, Vuln.rr_RegistrationUUID w, Vuln.rr_MimeType w).

(** The rows have unique keys; identifiers are drawn; a task that names a report
    names all the reports of its digest and scanner; and only the newest of the
    tasks of a report can be unfinished. *)
Record good (rows : list Vuln.ReportRow) (n : nat) (d : db) : Prop := mkGood {
  g_keyed : keyed_tasks d;
  g_fresh : fresh_ids d;
  g_uuid : forall w w', w ∈ rows -> w' ∈ rows -> Vuln.rr_UUID w = Vuln.rr_UUID w' -> w = w';
  g_key : forall w w', w ∈ rows -> w' ∈ rows -> key w = key w' -> w = w';
  g_rows : forall w, w ∈ rows -> exists k, (k < n)%nat /\ Vuln.rr_UUID w = uuid k;
  g_mimes : forall w, w ∈ rows -> Vuln.rr_MimeType w ∈ mimes (Vuln.rr_Digest w) (Vuln.rr_RegistrationUUID w);
  g_drawn : forall t u, stored d t -> u ∈ uuids_of t -> exists k, (k < n)%nat /\ u = uuid k;
  g_group : forall w t, w ∈ rows -> stored d t -> Vuln.rr_UUID w ∈ uuids_of t ->
    group rows (Vuln.rr_Digest w) (Vuln.rr_RegistrationUUID w) (uuids_of t);
  g_same : forall t t' u, stored d t -> stored d t' -> u ∈ uuids_of t -> u ∈ uuids_of t' -> uuids_of t = uuids_of t';
  g_last : forall t t' u, stored d t -> stored d t' -> u ∈ uuids_of t -> u ∈ uuids_of t' ->
    t_ID t < t_ID t' -> Status.Final (t_Status t) = true;
}.

Lemma good_more rows n n' d d' :
  good rows n d -> tasks d' = tasks d -> next_task d <= next_task d' -> (n <= n')%nat -> good rows n' d'.
Proof.
  intros [K F U Y R M D G S L] Ht Hn Hk.
  assert (St : forall t, stored d' t <-> stored d t) by (intros t; unfold stored; by rewrite Ht).
  split; try done.
  - unfold keyed_tasks. by rewrite Ht.
  - intros i Hi. rewrite Ht. apply F. lia.
  - intros w Hw. destruct (R w Hw) as (k & H1 & H2). exists k. split; [lia|done].
  - intros t u H1 H2. destruct (D t u) as (k & H3 & H4); [by apply St|done|]. exists k. split; [lia|done].
  - intros w t H1 H2. apply G; [done|by apply St].
  - intros t t' u H1 H2. apply S; by apply St.
  - intros t t' u H1 H2. apply L; by apply St.
Qed.

Lemma is_row_mono rows rows' digest reg m u :
  (forall w, w ∈ rows -> Vuln.rr_Digest w = digest -> w ∈ rows') -> is_row rows digest reg m u -> is_row rows' digest reg m u.
Proof. intros H (w & A & B & C & D & E). exists w. repeat split; auto. Qed.

Lemma group_mono rows rows' digest reg us :
  (forall w, w ∈ rows -> Vuln.rr_Digest w = digest -> w ∈ rows') -> group rows digest reg us -> group rows' digest reg us.
Proof. intros H G. eapply Forall2_impl; [exact G|]. intros m u. by apply is_row_mono. Qed.

Lemma group_in rows digest reg us u :
  group rows digest reg us -> u ∈ us ->
  exists w, w ∈ rows /\ Vuln.rr_UUID w = u /\ Vuln.rr_Digest w = digest /\ Vuln.rr_RegistrationUUID w = reg.
Proof.
  intros G Hu. apply list_elem_of_lookup in Hu as [i Hi].
  destruct (Forall2_lookup_r _ _ _ _ _ G Hi) as (m & _ & (w & A & B & C & D & _)). by exists w.
Qed.

Lemma group_unique rows n d digest reg us us' :
  good rows n d -> group rows digest reg us -> group rows digest reg us' -> us = us'.
Proof.
  intros Gd G G'. unfold group in *. revert us us' G G'. generalize (mimes digest reg) as ms. induction ms as [|m ms IH].
  - intros us us' G G'. inversion G. by inversion G'.
  - intros us us' G G'. inversion G as [|? u ? us1 (w & A & B & C & D & E) G1]; subst.
    inversion G' as [|? u' ? us2 (w' & A' & B' & C' & D' & E') G2]; subst. f_equal; [|by apply IH].
    f_equal. eapply g_key; [done..|]. unfold key. congruence.
Qed.

(** A new report, with an identifier that was not drawn before. *)
Lemma good_row rows n n' d k w :
  good rows n d -> (forall i j, uuid i = uuid j -> i = j) -> (n <= k < n')%nat -> Vuln.rr_UUID w = uuid k ->
  Vuln.rr_MimeType w ∈ mimes (Vuln.rr_Digest w) (Vuln.rr_RegistrationUUID w) ->
  (forall x, x ∈ rows -> key x <> key w) -> good (rows ++ [w]) n' d.
Proof.
  intros [K F U Y R M D G S L] Hinj Hk Hu Hm Hf.
  assert (Hne : forall x, x ∈ rows -> Vuln.rr_UUID x <> Vuln.rr_UUID w).
  { intros x Hx E. destruct (R x Hx) as (j & H1 & H2). rewrite H2, Hu in E. apply Hinj in E. lia. }
  assert (In : forall x, x ∈ rows ++ [w] <-> x ∈ rows \/ x = w).
  { intros x. rewrite elem_of_app, list_elem_of_singleton. done. }
  split; try done.
  - intros x x' [Hx| ->]%In [Hx'| ->]%In E; [by apply U|by apply Hne in E|by symmetry in E; apply Hne in E|done].
  - intros x x' [Hx| ->]%In [Hx'| ->]%In E; [by apply Y|by apply Hf in E|by symmetry in E; apply Hf in E|done].
  - intros x [Hx| ->]%In; [|by exists k; split; [lia|]]. destruct (R x Hx) as (j & H1 & H2). exists j. split; [lia|done].
  - intros x [Hx| ->]%In; [by apply M|done].
  - intros t u H1 H2. destruct (D t u H1 H2) as (j & H3 & H4). exists j. split; [lia|done].
  - intros x t [Hx| ->]%In H1 H2.
    + eapply group_mono; [|by apply G]. intros y Hy _. apply In. by left.
    + destruct (D _ _ H1 H2) as (j & H3 & H4). rewrite Hu in H4. apply Hinj in H4. lia.
Qed.

(** A new task, for reports whose tasks have all ended. *)
Lemma good_task rows n d d' data i t digest reg us :
  good rows n d -> one_more data i t d d' -> group rows digest reg us -> GetReportUUIDs (Unmarshal data) = us ->
  (forall t' u, stored d t' -> u ∈ uuids_of t' -> u ∈ us -> Status.Final (t_Status t') = true) ->
  good rows n d'.
Proof.
  intros Gd [O1 O2 O3 O4 O5 _] Gr Hus Hfin. pose proof Gd as [K F U Y R M D G S L].
  assert (Hs : forall x, stored d' x -> x = t \/ (stored d x /\ t_ID x < i)).
  { intros x [j Hj]. rewrite O2 in Hj. destruct (decide (j = i)) as [->|Hn].
    - rewrite lookup_insert_eq in Hj. injection Hj as <-. by left.
    - rewrite lookup_insert_ne in Hj by done. right. split; [by exists j|]. rewrite (K _ _ Hj).
      destruct (decide (j < next_task d)); [lia|]. by rewrite F in Hj by lia. }
  assert (Ht : uuids_of t = us) by (unfold uuids_of; by rewrite O4).
  assert (Hsame : forall x u, stored d x -> u ∈ uuids_of x -> u ∈ us -> uuids_of x = us).
  { intros x u Hx Hu Hin. destruct (group_in _ _ _ _ _ Gr Hin) as (w & A & B & C & E). subst u digest reg.
    eapply group_unique; [exact Gd|by apply G|done]. }
  split; try done.
  - intros j x Hj. rewrite O2 in Hj. destruct (decide (j = i)) as [->|Hn].
    + rewrite lookup_insert_eq in Hj. by injection Hj as <-.
    + rewrite lookup_insert_ne in Hj by done. by apply K.
  - intros j Hj. rewrite O2, lookup_insert_ne by lia. apply F. lia.
  - intros x u [-> | [Hx _]]%Hs Hu; [|by apply (D x)]. rewrite Ht in Hu.
    destruct (group_in _ _ _ _ _ Gr Hu) as (w & A & B & _). destruct (R w A) as (k & H1 & H2). exists k. split; [done|congruence].
  - intros w x Hw [-> | [Hx _]]%Hs Hu; [|by apply G]. rewrite Ht in Hu |- *.
    destruct (group_in _ _ _ _ _ Gr Hu) as (w' & A & B & C & E). rewrite (U w w') by done. by rewrite C, E.
  - intros x x' u [-> | [Hx _]]%Hs [-> | [Hx' _]]%Hs Hu Hu'; [done| | |by eapply S].
    + rewrite Ht in Hu. rewrite Ht. symmetry. by apply (Hsame x' u).
    + rewrite Ht in Hu'. rewrite Ht. by apply (Hsame x u).
  - intros x x' u [-> | [Hx Hi]]%Hs [-> | [Hx' Hi']]%Hs Hu Hu' Hlt; [lia|lia| |by eapply L].
    rewrite Ht in Hu'. by apply (Hfin x u).
Qed.

End Good.

(** ** Reading the tasks of reports *)

Section Reading.
Context (Unmarshal : string -> Attrs) (uuid_Parse : string -> bool).
Context (FromRelationalSchema : string -> string -> string -> result string).

Abbreviation uuids_of := (uuids_of Unmarshal).
Abbreviation naming_tasks := (naming_tasks Unmarshal).

Definition newest (d : db) (u : string) (t : Task) : Prop :=
  stored d t /\ u ∈ uuids_of t /\ forall t', stored d t' -> u ∈ uuids_of t' -> t_ID t' <= t_ID t.

Lemma names_spec u t : names Unmarshal u t = true <-> u ∈ uuids_of t.
Proof.
  unfold names, ScanLaunchSpec.uuids_of. rewrite existsb_exists. setoid_rewrite <- list_elem_of_In. split.
  - intros (x & H1 & H2). apply String.eqb_eq in H2 as ->. done.
  - intros H. exists u. by rewrite String.eqb_refl.
Qed.

Lemma naming_elem u d t : t ∈ naming_tasks u d <-> stored d t /\ u ∈ uuids_of t.
Proof.
  unfold ScanLaunch.naming_tasks. rewrite merge_sort_Permutation, list_elem_of_In, filter_In, <- list_elem_of_In.
  rewrite names_spec, list_elem_of_fmap. unfold stored. setoid_rewrite (elem_of_map_to_list' (tasks d)).
  split; intros [H1 H2]; (split; [|done]).
  - destruct H1 as [[i x] [-> H]]. by exists i.
  - destruct H1 as [i H]. by exists (i, t).
Qed.

Lemma naming_head u d :
  match take 1 (naming_tasks u d) with
  | [] => forall t, stored d t -> u ∈ uuids_of t -> False
  | t :: _ => newest d u t
  end.
Proof.
  pose proof (naming_elem u d) as E. assert (S : StronglySorted id_desc (naming_tasks u d)).
  { unfold ScanLaunch.naming_tasks. apply StronglySorted_merge_sort.
    - intros a b c. unfold id_desc. lia.
    - intros a b. unfold id_desc. lia. }
  destruct (naming_tasks u d) as [|t l]; cbn.
  - intros t H1 H2. pose proof (proj2 (E t) (conj H1 H2)) as H. by apply elem_of_nil in H.
  - inversion S as [|? ? _ Hall]; subst. destruct (proj1 (E t)) as [H1 H2]; [by left|]. split; [done|]. split; [done|].
    intros t' H3 H4. pose proof (proj2 (E t') (conj H3 H4)) as H. apply elem_of_cons in H as [-> | H]; [lia|].
    rewrite Forall_forall in Hall. by apply (Hall t').
Qed.

Abbreviation getScanTask := (getScanTask Unmarshal uuid_Parse).
Abbreviation listScanTasks := (listScanTasks Unmarshal uuid_Parse).

Lemma getScanTask_run u s r s' :
  getScanTask u s = (r, s') -> honest (mdb (smgr s)) ->
  neutral s s' /\ match r with
                  | Ok t => newest (seen_db s) u t
                  | Err e => IsNotFoundErr e = true -> forall t, stored (seen_db s) t -> u ∈ uuids_of t -> False
                  end.
Proof.
  unfold ScanLaunch.getScanTask, ListScanTasksByReportUUID, bind. intros E Hh.
  destruct (negb (isValidUUID uuid_Parse u)).
  { injection E as <- <-. split; [reflexivity|]. done. }
  destruct (dbcall _ s) as [x s1] eqn:E1. destruct (dbcall_inv _ _ _ _ E1) as (s2 & N & [(e & -> & -> & He)|F]).
  { injection E as <- <-. split; [done|]. rewrite (He Hh). done. }
  injection F as <- <-. assert (Hseen : seen_db s2 = seen_db s \/ committed s = None).
  { unfold seen_db. rewrite (nt_committed _ _ N). destruct (committed s) as [[l d]|]; [by left|by right]. }
  assert (Hh2 : forall v t, newest (seen_db s2) v t -> newest (seen_db s) v t).
  { destruct Hseen as [-> | Hc]; [done|]. unfold seen_db. rewrite (nt_committed _ _ N), Hc. unfold newest, stored.
    by rewrite (dn_tasks _ _ (nt_db _ _ N)). }
  assert (Hh3 : forall t, stored (seen_db s) t -> stored (seen_db s2) t).
  { destruct Hseen as [-> | Hc]; [done|]. unfold seen_db. rewrite (nt_committed _ _ N), Hc. unfold stored.
    by rewrite (dn_tasks _ _ (nt_db _ _ N)). }
  pose proof (naming_head u (seen_db s2)) as H. destruct (take 1 _) as [|t l]; injection E as <- <-; (split; [done|]).
  - intros _ t Ht. apply H. by apply Hh3.
  - by apply Hh2.
Qed.

Lemma seen_neutral s s' t : neutral s s' -> stored (seen_db s') t <-> stored (seen_db s) t.
Proof.
  intros N. unfold seen_db. rewrite (nt_committed _ _ N). destruct (committed s) as [[l d]|]; [done|].
  unfold stored. by rewrite (dn_tasks _ _ (nt_db _ _ N)).
Qed.

Lemma newest_neutral s s' u t : neutral s s' -> newest (seen_db s') u t -> newest (seen_db s) u t.
Proof.
  intros N (H1 & H2 & H3). split; [by apply (seen_neutral s s')|]. split; [done|]. intros t' Ht. apply H3.
  by apply (seen_neutral s s').
Qed.

Lemma listScanTasks_run us s r s' :
  listScanTasks us s = (r, s') -> honest (mdb (smgr s)) ->
  neutral s s' /\ match r with
                  | Ok ts => (forall t, t ∈ ts -> exists u, u ∈ us /\ newest (seen_db s) u t)
                             /\ forall u t, u ∈ us -> stored (seen_db s) t -> u ∈ uuids_of t ->
                                  exists t', t' ∈ ts /\ newest (seen_db s) u t'
                  | Err _ => True
                  end.
Proof.
  revert s r s'. induction us as [|u us IH]; intros s r s' E Hh; cbn [ScanLaunch.listScanTasks] in E.
  { injection E as <- <-. split; [reflexivity|]. split; [intros t H; by apply elem_of_nil in H|].
    intros u t H. by apply elem_of_nil in H. }
  unfold bind, try in E. destruct (getScanTask u s) as [x s1] eqn:E1. destruct (getScanTask_run _ _ _ _ E1 Hh) as [N1 H1].
  destruct (listScanTasks us s1) as [y s2] eqn:E2.
  destruct (IH _ _ _ E2 (dn_honest _ _ (nt_db _ _ N1) Hh)) as [N2 H2].
  assert (N : neutral s s2) by by etrans.
  destruct x as [t|e].
  - destruct y as [ts|e]; [|injection E as <- <-; by split]. injection E as <- <-. split; [done|]. destruct H2 as [A B]. split.
    + intros t' [-> | Ht]%elem_of_cons; [by exists u; split; [left|]|]. destruct (A t' Ht) as (v & Hv & Hn).
      exists v. split; [by right|by apply (newest_neutral _ _ _ _ N1)].
    + intros v t' [-> | Hv]%elem_of_cons Hs Hin; [by exists t; split; [left|]|].
      destruct (B v t' Hv) as (t2 & H3 & H4); [by apply (seen_neutral s s1)|done|].
      exists t2. split; [by right|by apply (newest_neutral _ _ _ _ N1)].
  - destruct (IsNotFoundErr e) eqn:He; cbn in E; [|injection E as <- <-; by split].
    unfold of_result in E. injection E as <- <-. split; [done|]. destruct y as [ts|e']; [|done]. destruct H2 as [A B]. split.
    + intros t' Ht. destruct (A t' Ht) as (v & Hv & Hn). exists v. split; [by right|by apply (newest_neutral _ _ _ _ N1)].
    + intros v t' [-> | Hv]%elem_of_cons Hs Hin; [by destruct (H1 eq_refl t')|].
      destruct (B v t' Hv) as (t2 & H3 & H4); [by apply (seen_neutral s s1)|done|].
      exists t2. split; [done|by apply (newest_neutral _ _ _ _ N1)].
Qed.

(** Assembling keeps the rows and gives them the status of the task found. *)
Definition assembled (ts : list Scan.ScanTask) (w w' : Vuln.ReportRow) : Prop :=
  Vuln.rr_UUID w' = Vuln.rr_UUID w /\ Vuln.rr_MimeType w' = Vuln.rr_MimeType w
  /\ Vuln.rr_Status w' = match Scan.task_of ts (Vuln.rr_UUID w) with
                         | Some t => Scan.st_Status t
                         | None => Status.ErrorStatus
                         end.

Lemma assemble_spec ts l l' :
  Scan.assemble FromRelationalSchema ts l = Ok l' -> Forall2 (assembled ts) l l'.
Proof.
  revert l'. induction l as [|w l IH]; intros l' E; cbn in E; [injection E as <-; constructor|].
  destruct (Scan.task_of ts (Vuln.rr_UUID w)) as [t|] eqn:Et.
  all: destruct (FromRelationalSchema _ _ _) as [c|e]; [|done].
  all: destruct (Scan.assemble _ ts l) as [l1|e]; [|done].
  all: injection E as <-; constructor; [|by apply IH].
  all: split; [done|]; split; [done|]; by rewrite Et.
Qed.
End Reading.

(** ** Placeholders *)

Section Placing.
Context (doublestar_Match : string -> string -> result bool) (parse_untagged : string -> option bool).
Context (sort_by : (Retention.Candidate -> Z) -> list Retention.Candidate -> list Retention.Candidate).
Context (Unmarshal : string -> Attrs) (FromRelationalSchema : string -> string -> string -> result string).
Context (uuid : nat -> string) (uuid_Parse : string -> bool) (mimes : string -> string -> list string).
Context (uuid_inj : forall i j, uuid i = uuid j -> i = j).

Abbreviation uuids_of := (uuids_of Unmarshal).
Abbreviation good := (good Unmarshal uuid mimes).
Abbreviation group := (group mimes).
Abbreviation placeholders := (placeholders uuid).
Abbreviation MakePlaceHolder := (MakePlaceHolder Unmarshal FromRelationalSchema uuid uuid_Parse).
Abbreviation place := (place doublestar_Match parse_untagged sort_by Unmarshal FromRelationalSchema uuid uuid_Parse).

Definition well (s : st) : Prop := good (scan_report s) (drawn s) (mdb (smgr s)) /\ honest (mdb (smgr s)).

(** Reports are only added; tasks stay as they are. *)
Record grown (s s' : st) : Prop := mkGrown {
  gr_rows : forall w, w ∈ scan_report s -> w ∈ scan_report s';
  gr_db : dneutral (mdb (smgr s)) (mdb (smgr s'));
  gr_drawn : (drawn s <= drawn s')%nat;
  gr_committed : committed s' = committed s;
}.

#[local] Instance grown_preorder : PreOrder grown.
Proof.
  split; [intros s; split; [done|reflexivity|lia|done]|].
  intros s1 s2 s3 [A B C D] [A' B' C' D']. split; [auto|by etrans|lia|congruence].
Qed.

Lemma neutral_grown s s' : neutral s s' -> grown s s'.
Proof. intros [A B C D]. split; [by rewrite A|done|done|done]. Qed.

Lemma well_neutral s s' : well s -> neutral s s' -> well s'.
Proof.
  intros [G H] [A [B C D] E F]. split; [|auto]. rewrite A. by eapply good_more.
Qed.

(** A row that is inserted has a fresh key. *)
Lemma same_key r x : key x = key r -> same_report r x = true.
Proof. unfold key, same_report. intros [= -> -> ->]. by rewrite !String.eqb_refl, orb_true_r. Qed.

Lemma report_Create_run digest reg m s r s' :
  report_Create uuid digest reg m s = (r, s') -> well s -> m ∈ mimes digest reg ->
  well s' /\ grown s s' /\ match r with
                           | Ok u => is_row (scan_report s') digest reg m u /\ exists k, (drawn s <= k)%nat /\ u = uuid k
                           | Err _ => neutral s s'
                           end.
Proof.
  unfold report_Create. intros E W Hm. destruct (_ || _).
  { injection E as <- <-. split; [done|]. by split. }
  unfold bind, new_uuid in E. set (s1 := with_drawn s (S (drawn s))) in E.
  assert (N1 : neutral s s1) by (split; [done|reflexivity|cbn; lia|done]).
  unfold report_dao_Create in E. destruct (dbcall _ s1) as [x s2] eqn:E2.
  set (w := Vuln.mkReportRow _ _ _ _ _ _ _ _) in E2. destruct (dbcall_inv _ _ _ _ E2) as (s3 & N2 & [(e & -> & -> & _)|F]).
  { injection E as <- <-. assert (N : neutral s s3) by by etrans. split; [by eapply well_neutral|]. split; [by apply neutral_grown|done]. }
  assert (N : neutral s s3) by by etrans.
  destruct (existsb (same_report w) (scan_report s3)) eqn:Ex; injection F as <- <-.
  { injection E as <- <-. split; [by eapply well_neutral|]. split; [by apply neutral_grown|done]. }
  injection E as <- <-. destruct W as [G H]. pose proof N as [A B C D]. pose proof (nt_drawn _ _ N2) as L. cbn in L.
  assert (G' : good (scan_report s ++ [w]) (drawn s3) (mdb (smgr s))).
  { apply (good_row _ _ _ _ (drawn s) _ _ (drawn s)); [done|done|lia|done|done|]. intros x Hx E.
    enough (existsb (same_report w) (scan_report s3) = true) by congruence.
    apply existsb_exists. exists x. split; [|by apply same_key]. rewrite A. by apply list_elem_of_In. }
  split; [|split; [|split]].
  - split; [|by apply B]. cbn. rewrite A. destruct B as [B1 B2 B3]. by eapply good_more.
  - split; [|exact B|exact C|exact D]. intros x Hx. cbn. rewrite A. apply elem_of_app. by left.
  - exists w. cbn. split; [|done]. apply elem_of_app. right. by left.
  - by exists (drawn s).
Qed.

(** A transaction inside of another one. *)
Lemma nested_run {A} (f : M st A) s r s' c :
  WithTransaction f s = (r, s') -> committed s = Some c -> well s ->
  (forall s1 r1 s2, f s1 = (r1, s2) -> well s1 -> well s2 /\ grown s1 s2) ->
  match r with
  | Ok a => exists s1 s2, neutral s s1 /\ f s1 = (Ok a, s2) /\ neutral s2 s'
  | Err _ => neutral s s'
  end.
Proof.
  intros E Hc W Hf. unfold WithTransaction in E.
  assert (Ht : forall s1 x s2, dbcall (ret tt) s1 = (x, s2) -> neutral s1 s2).
  { intros s1 x s2 E1. pose proof (idle_dbcall _ (idle_ret tt) s1) as N. by rewrite E1 in N. }
  destruct (dbcall (ret tt) s) as [[u|e] s1] eqn:E1; apply Ht in E1; [|injection E as <- <-; done].
  assert (Hc1 : committed s1 = Some c) by (rewrite (nt_committed _ _ E1); done).
  assert (Hs1 : with_committed s1 (Some (default (scan_report s1, mdb (smgr s1)) (committed s1))) = s1).
  { rewrite Hc1. cbn. rewrite <- Hc1. by destruct s1. }
  rewrite Hs1 in E. destruct (f s1) as [x s2] eqn:E2. destruct (Hf _ _ _ E2) as [W2 G2]; [by eapply well_neutral|].
  assert (Hu : forall s3, neutral s2 s3 -> neutral s1 (undo s1 s3)).
  { intros s3 N. pose proof (nt_db _ _ N) as [D1 D2 D3]. pose proof (gr_db _ _ G2) as [D4 D5 D6].
    pose proof (nt_drawn _ _ N). pose proof (gr_drawn _ _ G2). split; [done| |cbn; lia|done].
    split; [done|cbn; lia|]. intros Hh. apply D6, D3 in Hh. exact Hh. }
  destruct x as [a|e].
  - destruct (dbcall (ret tt) s2) as [[u'|e] s3] eqn:E3; apply Ht in E3; injection E as <- <-; [|by etrans; [|by apply Hu]].
    exists s1, s2. split; [done|]. split; [done|]. rewrite <- (gr_committed _ _ G2), <- (nt_committed _ _ E3). by destruct s3.
  - destruct (dbcall (ret tt) (undo s1 s2)) as [[u'|e'] s3] eqn:E3; apply Ht in E3; injection E as <- <-.
    all: etrans; [done|]; etrans; [by apply Hu|done].
Qed.

Lemma is_row_grown s s' digest reg m u :
  grown s s' -> is_row (scan_report s) digest reg m u -> is_row (scan_report s') digest reg m u.
Proof. intros G. apply is_row_mono. intros w Hw _. by apply (gr_rows _ _ G). Qed.

(** Where the identifiers of placeholders come from. *)
Definition old_or_new (oldReports : list Vuln.ReportRow) (n : nat) (u : string) : Prop :=
  (exists pm old, existing oldReports pm = Some old /\ u = Vuln.rr_UUID old) \/ exists k, (n <= k)%nat /\ u = uuid k.

Lemma placeholders_run digest reg oldReports ms s r s' c :
  placeholders digest reg oldReports ms s = (r, s') -> committed s = Some c -> well s ->
  (forall m, m ∈ ms -> m ∈ mimes digest reg) ->
  (forall m old, existing oldReports m = Some old -> is_row (scan_report s) digest reg m (Vuln.rr_UUID old)) ->
  well s' /\ grown s s' /\ match r with
                          | Ok l => Forall2 (is_row (scan_report s') digest reg) ms (Vuln.rr_UUID <$> l)
                                    /\ Forall (old_or_new oldReports (drawn s)) (Vuln.rr_UUID <$> l)
                          | Err _ => True
                          end.
Proof.
  revert s r s'. induction ms as [|m ms IH]; intros s r s' E Hc W Hm Hold; cbn [ScanLaunch.placeholders] in E.
  { injection E as <- <-. split; [done|]. split; [reflexivity|]. split; constructor. }
  unfold bind in E.
  set (m1 := match existing oldReports m with Some old => _ | None => _ end) in E.
  assert (H1 : match m1 s with
               | (Ok u, s1) => well s1 /\ grown s s1 /\ is_row (scan_report s1) digest reg m u /\ old_or_new oldReports (drawn s) u
               | (Err _, s1) => neutral s s1
               end).
  { subst m1. destruct (existing oldReports m) as [old|] eqn:Eo; cbn.
    - split; [done|]. split; [reflexivity|]. split; [by apply Hold|]. left. by exists m, old.
    - destruct (WithTransaction _ s) as [x s1] eqn:E1.
      assert (Hr : forall s2 r2 s3, report_Create uuid digest reg m s2 = (r2, s3) -> well s2 -> well s3 /\ grown s2 s3).
      { intros s2 r2 s3 E2 W2. destruct (report_Create_run _ _ _ _ _ _ E2 W2) as (A & B & _); [apply Hm; by left|done]. }
      pose proof (nested_run _ _ _ _ _ E1 Hc W Hr) as H. destruct x as [u|e]; [|done].
      destruct H as (s2 & s3 & N1 & E2 & N2). assert (W2 : well s2) by by eapply well_neutral.
      destruct (report_Create_run _ _ _ _ _ _ E2 W2) as (A & B & C & k & Hk & Hu); [apply Hm; by left|].
      assert (G : grown s s1) by (etrans; [by apply neutral_grown|]; etrans; [done|]; by apply neutral_grown).
      split; [by eapply well_neutral|]. split; [done|]. split; [by rewrite (nt_report _ _ N2)|].
      right. exists k. split; [|done]. pose proof (nt_drawn _ _ N1). lia. }
  clearbody m1. destruct (m1 s) as [[u|e] s1].
  2: { injection E as <- <-. split; [by eapply well_neutral|]. split; [by apply neutral_grown|done]. }
  destruct H1 as (W1 & G1 & R1 & O1). destruct (placeholders digest reg oldReports ms s1) as [x s2] eqn:E2.
  destruct (IH _ _ _ E2) as (W2 & G2 & H2); [by rewrite (gr_committed _ _ G1)|done|intros; apply Hm; by right| |].
  { intros m2 old Ho. eapply is_row_grown; [done|by apply Hold]. }
  destruct x as [l|e]; injection E as <- <-; (split; [done|]); (split; [by etrans|]); [|done].
  destruct H2 as [H3 H4]. cbn. split; constructor; [by eapply is_row_grown|done|done|].
  eapply Forall_impl; [exact H4|]. intros v [H | (k & Hk & ->)]; [by left|]. right. exists k. split; [|done].
  pose proof (gr_drawn _ _ G1). lia.
Qed.

Definition ended (d : db) (us : list string) : Prop :=
  forall t u, stored d t -> u ∈ uuids_of t -> u ∈ us -> Status.Final (t_Status t) = true.

(** What a scanner produces for an artifact. *)
Definition produced (b : Artifact.ArtifactC) (r : Scan.Registration) : Prop :=
  Scan.reg_UUID r <> "" /\
  GetProducesMimeTypes r (ArtifactDb.a_ManifestMediaType (ArtifactDb.row (Artifact.art b))) ScanTypeVulnerability
  = mimes (Artifact.digest_of b) (Scan.reg_UUID r).

Lemma existing_in oldReports m old : existing oldReports m = Some old -> old ∈ oldReports /\ Vuln.rr_MimeType old = m.
Proof.
  unfold existing. intros H. apply List.find_some in H as [H1 H2]. apply String.eqb_eq in H2.
  apply in_rev, list_elem_of_In in H1. done.
Qed.

Lemma stored_tasks d d' : tasks d = tasks d' -> forall t, stored d t <-> stored d' t.
Proof. intros E t. unfold stored. by rewrite E. Qed.

Lemma newest_tasks d d' u t : tasks d = tasks d' -> newest Unmarshal d u t -> newest Unmarshal d' u t.
Proof. intros E. unfold newest, stored. by rewrite E. Qed.

Lemma stored_id rows n d t t' : good rows n d -> stored d t -> stored d t' -> t_ID t = t_ID t' -> t = t'.
Proof.
  intros G [i Hi] [j Hj] E. pose proof (g_keyed _ _ _ _ _ _ G _ _ Hi). pose proof (g_keyed _ _ _ _ _ _ G _ _ Hj).
  assert (i = j) as -> by lia. congruence.
Qed.

(** The task that a report's status is taken from is the newest that names it,
    whichever report it was read for. *)
Lemma task_of_newest rows n d (us : list string) ts u t :
  good rows n d ->
  (forall t, t ∈ ts -> exists v, v ∈ us /\ newest Unmarshal d v t) ->
  (forall v t, v ∈ us -> stored d t -> v ∈ uuids_of t -> exists t', t' ∈ ts /\ newest Unmarshal d v t') ->
  u ∈ us -> stored d t -> u ∈ uuids_of t ->
  exists t', Scan.task_of (scan_task Unmarshal <$> ts) u = Some (scan_task Unmarshal t') /\ newest Unmarshal d u t'.
Proof.
  intros G A B Hu Ht Hin. destruct (B u t Hu Ht Hin) as (t1 & Ht1 & N1). unfold Scan.task_of.
  destruct (List.find _ (rev _)) as [x|] eqn:E; cycle 1.
  { exfalso. pose proof (List.find_none _ _ E (scan_task Unmarshal t1)) as H. cbn in H.
    assert (F : existsb (String.eqb u) (GetReportUUIDs (Unmarshal (t_ExtraAttrs t1))) = true).
    { apply (names_spec Unmarshal u t1). apply N1. }
    rewrite F in H. enough (true = false) by done. apply H. apply in_rev. rewrite rev_involutive.
    apply list_elem_of_In, list_elem_of_fmap. by exists t1. }
  apply List.find_some in E as [H1 H2]. apply in_rev, list_elem_of_In, list_elem_of_fmap in H1 as (t2 & -> & Ht2).
  exists t2. split; [done|]. assert (Hu2 : u ∈ uuids_of t2) by by apply (names_spec Unmarshal u t2).
  destruct (A _ Ht2) as (v & Hv & (S2 & V2 & L2)). destruct N1 as (S1 & U1 & L1).
  assert (E12 : uuids_of t1 = uuids_of t2) by by eapply (g_same _ _ _ _ _ _ G).
  assert (t1 = t2) as <-; [|done]. eapply stored_id; [done..|].
  assert (t_ID t1 <= t_ID t2) by (apply L2; [done|by rewrite E12]). assert (t_ID t2 <= t_ID t1) by by apply L1. lia.
Qed.

Lemma newest_final rows n d u t : 
  good rows n d -> newest Unmarshal d u t -> Status.Final (t_Status t) = true ->
  forall t', stored d t' -> u ∈ uuids_of t' -> Status.Final (t_Status t') = true.
Proof.
  intros G (S & U & L) Hf t' S' U'. specialize (L t' S' U'). destruct (decide (t_ID t' = t_ID t)) as [E|E].
  - by rewrite (stored_id _ _ _ _ _ G S' S E).
  - apply (g_last _ _ _ _ _ _ G t' t u); [done..|lia].
Qed.

Lemma MakePlaceHolder_run b r s x s' rows0 d0 :
  MakePlaceHolder b r s = (x, s') -> committed s = Some (rows0, d0) -> well s ->
  (forall w, w ∈ rows0 -> w ∈ scan_report s) -> tasks d0 = tasks (mdb (smgr s)) -> produced b r ->
  well s' /\ grown s s' /\ match x with
                          | Ok l => group (scan_report s') (Artifact.digest_of b) (Scan.reg_UUID r) (Vuln.rr_UUID <$> l)
                                    /\ ended d0 (Vuln.rr_UUID <$> l)
                          | Err _ => True
                          end.
Proof.
  unfold ScanLaunch.MakePlaceHolder. intros E Hc W Hin Ht [Hr Hp]. fold (Artifact.digest_of b) in E. rewrite Hp in E.
  set (dg := Artifact.digest_of b) in *. set (rg := Scan.reg_UUID r) in *. unfold bind at 1 in E.
  destruct (report_GetBy dg rg (mimes dg rg) s) as [rows s1] eqn:E1.
  assert (H1 : neutral s s1 /\ match rows with
      | Ok l => forall w, w ∈ l -> w ∈ scan_report s /\ Vuln.rr_Digest w = dg /\ Vuln.rr_RegistrationUUID w = rg
      | Err _ => True end).
  { unfold report_GetBy in E1. destruct (dg =s= ""); [injection E1 as <- <-; split; [reflexivity|done]|].
    destruct (dbcall_inv _ _ _ _ E1) as (s2 & N & [(e & -> & -> & _)|F]); [by split|]. injection F as <- <-.
    split; [done|]. intros w Hw. apply list_elem_of_In, filter_In in Hw as [Hw H]. apply list_elem_of_In in Hw.
    unfold seen_reports in Hw. rewrite (nt_committed _ _ N), Hc in Hw. split; [by apply Hin|].
    apply andb_prop in H as [H _]. apply andb_prop in H as [H3 H4]. apply String.eqb_eq in H3.
    destruct (String.eqb_spec rg ""); [done|]. by apply String.eqb_eq in H4. }
  destruct H1 as [N1 Hrows].
  destruct rows as [rows|e]; [|injection E as <- <-; split; [by eapply well_neutral|]; split; [by apply neutral_grown|done]].
  unfold assembleReports, bind in E.
  destruct (listScanTasks Unmarshal uuid_Parse (Vuln.rr_UUID <$> rows) s1) as [ts s2] eqn:E2.
  assert (Hh : honest (mdb (smgr s1))) by (apply (dn_honest _ _ (nt_db _ _ N1)), W).
  destruct (listScanTasks_run _ _ _ _ _ _ E2 Hh) as [N2 H2].
  assert (N : neutral s s2) by by etrans. assert (W2 : well s2) by by eapply well_neutral.
  destruct ts as [ts|e]; [|injection E as <- <-; split; [done|]; split; [by apply neutral_grown|done]].
  unfold of_result in E. destruct (Scan.assemble _ _ rows) as [old|e] eqn:Ea;
    [|injection E as <- <-; split; [done|]; split; [by apply neutral_grown|done]].
  apply assemble_spec in Ea. destruct (List.find unfinished old) as [o|] eqn:Ef;
    [injection E as <- <-; split; [done|]; split; [by apply neutral_grown|done]|].
  assert (Hc2 : committed s2 = Some (rows0, d0)) by (by rewrite (nt_committed _ _ N)).
  assert (Hold : forall o, o ∈ old -> exists w, w ∈ rows /\ assembled (scan_task Unmarshal <$> ts) w o).
  { intros o [i Ho]%list_elem_of_lookup. destruct (Forall2_lookup_r _ _ _ _ _ Ea Ho) as (w & Hw & H). exists w.
    split; [by eapply list_elem_of_lookup_2|done]. }
  destruct (placeholders_run _ _ _ _ _ _ _ _ E Hc2 W2) as (W3 & G3 & H3); [done| |].
  { intros m o Ho. apply existing_in in Ho as [Ho Hm]. destruct (Hold _ Ho) as (w & Hw & (A & B & _)).
    destruct (Hrows _ Hw) as (C & D & F). exists w. rewrite (nt_report _ _ N). split; [done|]. split; [by rewrite A|].
    split; [done|]. split; [done|congruence]. }
  split; [done|]. split; [by etrans; [apply neutral_grown|]|]. destruct x as [l|e]; [|done]. destruct H3 as [H3 H4].
  split; [exact H3|]. intros t u Hs Hu Hul. rewrite Forall_forall in H4.
  destruct W as [G0 _]. set (d := mdb (smgr s)) in *. pose proof (stored_tasks _ _ Ht) as Es.
  assert (Hseen : seen_db s1 = d0) by (unfold seen_db; by rewrite (nt_committed _ _ N1), Hc). rewrite Hseen in H2.
  destruct (H4 _ Hul) as [(m & o & Ho & ->) | (k & Hk & ->)]; cycle 1.
  { destruct (g_drawn _ _ _ _ _ _ G0 t (uuid k)) as (j & Hj & E2'); [by apply Es|done|]. apply uuid_inj in E2'.
    pose proof (nt_drawn _ _ N). lia. }
  apply existing_in in Ho as [Ho _]. destruct (Hold _ Ho) as (w & Hw & (A & _ & C)). rewrite A in Hu.
  destruct H2 as [H5 H6]. destruct (task_of_newest _ _ d (Vuln.rr_UUID <$> rows) ts (Vuln.rr_UUID w) t G0) as (t2 & Et & Hn).
  - intros t1 Ht1. destruct (H5 _ Ht1) as (v & Hv & Hn). exists v. split; [done|by apply (newest_tasks d0)].
  - intros v t1 Hv Ht1 Hin1. destruct (H6 v t1 Hv) as (t2 & H7 & H8); [by apply Es|done|]. exists t2.
    split; [done|by apply (newest_tasks d0)].
  - apply list_elem_of_fmap. by exists w.
  - by apply Es.
  - done.
  - rewrite Et in C. cbn in C. apply (newest_final _ _ _ _ _ G0 Hn); [|by apply Es|done].
    pose proof (List.find_none _ _ Ef o) as Hf. unfold unfinished in Hf. rewrite <- C.
    destruct (Status.Final (Vuln.rr_Status o)); [done|]. cbn in Hf. symmetry. apply Hf. by apply list_elem_of_In.
Qed.

(** What is to be launched: for each artifact its group of reports, whose tasks
    have ended. *)
Definition to_launch (rows : list Vuln.ReportRow) (d : db) (r : Scan.Registration) (p : launchScanJobParam) : Prop :=
  lp_Registration p = r /\ group rows (Artifact.digest_of (lp_Artifact p)) (Scan.reg_UUID r) (Vuln.rr_UUID <$> lp_Reports p)
  /\ ended d (Vuln.rr_UUID <$> lp_Reports p).

Lemma to_launch_grown s s' d r p : grown s s' -> to_launch (scan_report s) d r p -> to_launch (scan_report s') d r p.
Proof.
  intros G (A & B & C). split; [done|]. split; [|done]. eapply group_mono; [|exact B]. intros w Hw _. by apply (gr_rows _ _ G).
Qed.

Lemma idle_scan_tag digest opts b : idle (scan_tag doublestar_Match parse_untagged sort_by digest opts b).
Proof.
  unfold scan_tag. cbv zeta. destruct (_ =s= ""); [|apply idle_ret]. unfold getLatestTagOfArtifact. apply idle_bind; [apply idle_on_registry|]. intros l. destruct (merge_sort _ l); apply idle_ret.
Qed.

Lemma place_run r digest opts l errs params s x s' rows0 d0 :
  place r digest opts l errs params s = (x, s') -> committed s = Some (rows0, d0) -> well s ->
  (forall w, w ∈ rows0 -> w ∈ scan_report s) -> tasks d0 = tasks (mdb (smgr s)) -> Forall (fun b => produced b r) l ->
  Forall (to_launch (scan_report s) d0 r) params ->
  well s' /\ grown s s' /\ match x with
                          | Ok (_, ps) => Forall (to_launch (scan_report s') d0 r) ps
                                          /\ (lp_Artifact <$> ps) `sublist_of` (lp_Artifact <$> params) ++ l
                          | Err _ => True
                          end.
Proof.
  revert errs params s. induction l as [|b l IH]; intros errs params s E Hc W Hin Ht Hl Hp; cbn [ScanLaunch.place] in E.
  { injection E as <- <-. split; [done|]. split; [reflexivity|]. split; [done|]. by rewrite app_nil_r. }
  apply Forall_cons in Hl as [Hb Hl]. unfold bind at 1, try in E. destruct (MakePlaceHolder b r s) as [made s1] eqn:E1.
  destruct (MakePlaceHolder_run _ _ _ _ _ _ _ E1 Hc W Hin Ht Hb) as (W1 & G1 & H1).
  set (found := match made with Ok reports => ret (errs, reports) | Err e => _ end) in E.
  assert (Hf : (exists e, found s1 = (Err e, s1)) \/ exists errs' reports, found s1 = (Ok (errs', reports), s1)
             /\ (reports <> [] -> to_launch (scan_report s1) d0 r (mkParam r b "" reports (GetScanType opts)))).
  { subst found. destruct made as [reports|e].
    - right. exists errs, reports. split; [done|]. intros _. split; [done|]. done.
    - destruct (IsConflictErr e); [right; exists (errs ++ [e]), []; by split|left; by exists e]. }
  clearbody found. unfold bind at 1 in E. destruct Hf as [[e Hf] | (errs' & reports & Hf & Hr)]; rewrite Hf in E.
  { injection E as <- <-. by split. }
  unfold bind at 1 in E. pose proof (idle_scan_tag digest opts b s1) as Hidle.
  destruct (scan_tag _ _ _ _ _ _ s1) as [[tag|e] s2]; cbn [snd] in Hidle.
  2: { injection E as <- <-. split; [by eapply well_neutral|]. split; [|done]. etrans; [done|by apply neutral_grown]. }
  assert (G2 : grown s s2) by (etrans; [done|by apply neutral_grown]). cbn [fst snd] in E.
  destruct (IH _ _ _ E) as (W3 & G3 & H3).
  - by rewrite (gr_committed _ _ G2).
  - by eapply well_neutral.
  - intros w Hw. by apply (gr_rows _ _ G2), Hin.
  - rewrite Ht. symmetry. apply (dn_tasks _ _ (gr_db _ _ G2)).
  - done.
  - assert (Hp2 : Forall (to_launch (scan_report s2) d0 r) params).
    { eapply Forall_impl; [exact Hp|]. intros p. by apply to_launch_grown. }
    destruct reports as [|w ws]; [done|]. apply Forall_app. split; [done|]. constructor; [|constructor].
    apply (to_launch_grown s1 s2); [by apply neutral_grown|]. by apply Hr.
  - split; [done|]. split; [by etrans|]. destruct x as [[errs2 ps]|e]; [|done]. destruct H3 as [H4 H5]. split; [done|].
    etrans; [exact H5|]. destruct reports as [|w ws].
    + apply sublist_app; [done|]. by apply sublist_cons.
    + by rewrite fmap_app, <- (assoc_L (++)).
Qed.
End Placing.

(** ** Launching *)

Section Launching.
Context (doublestar_Match : string -> string -> result bool) (parse_untagged : string -> option bool).
Context (sort_by : (Retention.Candidate -> Z) -> list Retention.Candidate -> list Retention.Candidate).
Context (SubmitJob : JobData -> result string) (Marshal : Attrs -> result string) (Unmarshal : string -> Attrs) (coreURL : string).
Context (GetRegistrationByProject : Z -> result (option Scan.Registration)).
Context (FromRelationalSchema : string -> string -> string -> result string).
Context (uuid : nat -> string) (uuid_Parse : string -> bool).
Context (Encrypt : string -> string -> string) (rnd : nat -> string) (RobotPrefix ScannerRobotPrefix : string).
Context (attempts : nat) (registry_address : bool -> result string).
Context (json_registration : Scan.Registration -> result string) (json_request : ScanRequest -> result string).
Context (json_robot : Robot.Robot -> result string) (json_strings : list string -> string).
Context (mimes : string -> string -> list string).
(** Identifiers are drawn once, and attributes are read as they were stored. *)
Context (uuid_inj : forall i j, uuid i = uuid j -> i = j).
Context (Unmarshal_Marshal : forall a data, Marshal a = Ok data -> Unmarshal data = a).

Abbreviation uuids_of := (uuids_of Unmarshal).
Abbreviation well := (well Unmarshal uuid mimes).
Abbreviation group := (group mimes).
Abbreviation ended := (ended Unmarshal).
Abbreviation produced := (produced mimes).
Abbreviation to_launch := (to_launch Unmarshal mimes).
Abbreviation launchScanJob := (launchScanJob SubmitJob Marshal coreURL uuid Encrypt rnd RobotPrefix ScannerRobotPrefix attempts
  registry_address json_registration json_request json_robot json_strings).
Abbreviation launch := (launch SubmitJob Marshal coreURL uuid Encrypt rnd RobotPrefix ScannerRobotPrefix attempts
  registry_address json_registration json_request json_robot json_strings).
Abbreviation Scan := (Scan doublestar_Match parse_untagged sort_by SubmitJob Marshal Unmarshal coreURL GetRegistrationByProject
  FromRelationalSchema uuid uuid_Parse Encrypt rnd RobotPrefix ScannerRobotPrefix attempts registry_address json_registration
  json_request json_robot json_strings).
Abbreviation collectScanningArtifacts := (Scan.collectScanningArtifacts doublestar_Match parse_untagged sort_by).

Lemma idle_makeRobotAccount projectID repository r permission now :
  idle (makeRobotAccount uuid Encrypt rnd RobotPrefix ScannerRobotPrefix attempts projectID repository r permission now).
Proof.
  unfold makeRobotAccount. apply idle_bind; [|eauto with idle]. intros s. split; [done|reflexivity|cbn; lia|done].
Qed.

Lemma idle_CreateExecution vendorType vendorID trigger a now :
  idle (on_mgr (CreateExecution Marshal no_attrs vendorType vendorID trigger a now)).
Proof.
  intros s. unfold CreateExecution, on_mgr, bind, of_result, extras. destruct (Marshal _) as [data|e]; [|by destruct s as [? [] ? ? ? ? ? ?]].
  apply (idle_lift (exec_Create _)). apply dneutral_dbio. intros d. split; [done|cbn; lia|done].
Qed.

(** Launching changes the tasks: the new ones name the reports [us]. *)
Record launched (us : list string) (s s' : st) : Prop := mkLaunched {
  ln_report : scan_report s' = scan_report s;
  ln_committed : committed s' = committed s;
  ln_drawn : (drawn s <= drawn s')%nat;
  ln_next : next_task (mdb (smgr s)) <= next_task (mdb (smgr s'));
  ln_tasks : forall t, stored (mdb (smgr s')) t -> stored (mdb (smgr s)) t \/ uuids_of t = us;
}.

Lemma neutral_launched us s s' : neutral s s' -> launched us s s'.
Proof. intros [A [B C _] D E]. split; [done|done|done|done|]. intros t. rewrite (stored_tasks _ _ B t). by left. Qed.

(** An operation that launches the scan of a group of reports whose tasks have
    ended. *)
Definition launches (digest reg : string) (us : list string) {A} (m : M st A) : Prop := forall s,
  well s -> group (scan_report s) digest reg us -> ended (mdb (smgr s)) us -> well (m s).2 /\ launched us s (m s).2.

Lemma launches_idle digest reg us {A} (m : M st A) : idle m -> launches digest reg us m.
Proof. intros H s W _ _. split; [by eapply well_neutral|by apply neutral_launched]. Qed.

Lemma launches_after digest reg us {A B} (m : M st A) (k : A -> M st B) :
  idle m -> (forall a, launches digest reg us (k a)) -> launches digest reg us (bind m k).
Proof.
  intros Hm Hk s W Hg He. specialize (Hm s). unfold bind. destruct (m s) as [[a|e] s1]; cbn [snd] in Hm.
  - destruct (Hk a s1) as [W2 [A1 B1 C1 D1 E1]].
    + by eapply well_neutral.
    + by rewrite (nt_report _ _ Hm).
    + intros t u. rewrite (stored_tasks _ _ (dn_tasks _ _ (nt_db _ _ Hm)) t). apply He.
    + split; [done|]. destruct Hm as [A2 [B2 C2 _] D2 E2]. split; [congruence|congruence|lia|lia|].
      intros t Ht. destruct (E1 t Ht) as [H|H]; [|by right]. left. by apply (stored_tasks _ _ B2).
  - split; [by eapply well_neutral|by apply neutral_launched].
Qed.

Lemma launches_try digest reg us {A} (m : M st A) : launches digest reg us m -> launches digest reg us (try m).
Proof. intros H s W Hg He. specialize (H s W Hg He). unfold try. by destruct (m s). Qed.

(** The task that is created names the group. *)
Lemma launches_Create digest reg us executionID jb i tag robot now :
  launches digest reg us
    (on_mgr (Create SubmitJob Marshal no_attrs coreURL executionID jb (Some (task_extra i tag robot us)) now) ;;; ret tt).
Proof.
  intros s [G Hh] Hg He. pose proof (Create_effect SubmitJob Marshal coreURL executionID jb (task_extra i tag robot us) now
    (smgr s) (g_fresh _ _ _ _ _ _ G)) as H. cbn zeta in H. unfold bind, on_mgr.
  destruct (Create _ _ _ _ _ _ _ _ (smgr s)) as [x g]. cbn [snd] in H.
  assert (Hw : well (with_smgr s g) /\ launched us s (with_smgr s g)).
  { destruct H as [N | (data & n & t & Hm & O)].
    - assert (N' : neutral s (with_smgr s g)) by by split. split; [by eapply well_neutral|by apply neutral_launched].
    - apply Unmarshal_Marshal in Hm. split.
      + split; [|by apply (om_honest _ _ _ _ _ O)]. cbn. eapply good_task; [exact G|exact O|exact Hg|by rewrite Hm|].
        intros t' u H1 H2 H3. by apply (He t' u).
      + split; [done|done|done|cbn; pose proof (om_fresh _ _ _ _ _ O); pose proof (om_next _ _ _ _ _ O); lia|].
        intros t' [j Hj]. cbn in Hj. rewrite (om_tasks _ _ _ _ _ O) in Hj. destruct (decide (j = n)) as [->|Hn].
        * rewrite lookup_insert_eq in Hj. injection Hj as <-. right. unfold ScanLaunchSpec.uuids_of.
          by rewrite (om_attrs _ _ _ _ _ O), Hm.
        * rewrite lookup_insert_ne in Hj by done. left. by exists j. }
  by destruct x.
Qed.

Lemma launches_launchScanJob digest reg executionID p opts now :
  launches digest reg (Vuln.rr_UUID <$> lp_Reports p) (launchScanJob executionID p opts now).
Proof.
  unfold ScanLaunch.launchScanJob. destruct (negb _); [apply launches_idle, idle_ret|].
  repeat (apply launches_after; [solve [eauto using idle_makeRobotAccount with idle]|intros ?]). apply launches_Create.
Qed.

(** The loop: the groups are of different digests. *)
Lemma launch_run r executionID opts now ps errs s :
  well s -> Forall (to_launch (scan_report s) (mdb (smgr s)) r) ps -> NoDup (Artifact.digest_of <$> (lp_Artifact <$> ps)) ->
  let s' := (launch executionID opts now ps errs s).2 in
  well s' /\ scan_report s' = scan_report s /\ committed s' = committed s /\ (drawn s <= drawn s')%nat
  /\ next_task (mdb (smgr s)) <= next_task (mdb (smgr s')).
Proof.
  revert errs s. induction ps as [|p ps IH]; intros errs s W Hp Hd; cbn [ScanLaunch.launch]; cbn zeta.
  { split; [done|]. split; [done|]. split; [done|]. split; [done|cbn; lia]. }
  apply Forall_cons in Hp as [(_ & Hg & He) Hp]. apply NoDup_cons in Hd as [Hnd Hd].
  pose proof (launches_try _ _ _ _ (launches_launchScanJob _ _ executionID p opts now) s W Hg He) as [W1 L1].
  unfold bind. destruct (try _ s) as [[x|e] s1] eqn:E1; cbn [snd] in W1, L1; destruct L1 as [A B C D F].
  2: { unfold try in E1. by destruct (launchScanJob _ _ _ _ s). }
  destruct (IH (match x with Ok _ => errs | Err e => errs ++ [e] end) s1 W1) as (W2 & R2 & C2 & D2 & N2); [| |].
  - rewrite A. apply Forall_forall. intros q Hq. rewrite Forall_forall in Hp. destruct (Hp q Hq) as (H1 & H2 & H3).
    split; [done|]. split; [done|]. intros t u Ht Hu Hin. destruct (F t Ht) as [H|H]; [by apply (H3 t u)|]. exfalso.
    rewrite H in Hu. destruct (group_in _ _ _ _ _ _ Hg Hu) as (w & I1 & I2 & I3 & _).
    destruct (group_in _ _ _ _ _ _ H2 Hin) as (w' & J1 & J2 & J3 & _).
    assert (w = w') as <- by (destruct W as [G _]; eapply (g_uuid _ _ _ _ _ _ G); congruence).
    apply Hnd. rewrite <- I3, J3. apply list_elem_of_fmap. exists (lp_Artifact q). split; [done|].
    apply list_elem_of_fmap. by exists q.
  - done.
  - split; [done|]. split; [congruence|]. split; [congruence|]. split; [lia|lia].
Qed.

(** ** A scan, and what happens between scans *)

Section Steps.
Context (fuel : nat).

(** What the scans of an artifact rely on: the media types that its scanner
    produces are the known ones, and no two artifacts that are collected for it
    share their digest. *)
Definition apart (c : Artifact.ArtifactC) (d : ArtifactDb.db) : Prop := forall r l b d',
  GetRegistrationByProject (ArtifactDb.a_ProjectID (ArtifactDb.row (Artifact.art c))) = Ok (Some r) ->
  collectScanningArtifacts fuel r c d = (Ok (l, b), d') ->
  Forall (fun a => produced a r) l /\ NoDup (Artifact.digest_of <$> l).

(** Later than [s], as far as a roll back is concerned. *)
Definition later (s s' : st) : Prop :=
  (drawn s <= drawn s')%nat /\ next_task (mdb (smgr s)) <= next_task (mdb (smgr s')) /\ committed s' = committed s.

Lemma neutral_later s s' : neutral s s' -> later s s'.
Proof. intros [A [B C _] D E]. by repeat split. Qed.

Lemma grown_later s s' : grown s s' -> later s s'.
Proof. intros [A [B C _] D E]. by repeat split. Qed.

Lemma later_trans s1 s2 s3 : later s1 s2 -> later s2 s3 -> later s1 s3.
Proof. intros (A & B & C) (A' & B' & C'). split; [lia|]. split; [lia|congruence]. Qed.

Lemma idle_step {A B} (m : M st A) (k : A -> M st B) s x s' :
  bind m k s = (x, s') -> idle m ->
  (exists a s1, neutral s s1 /\ m s = (Ok a, s1) /\ k a s1 = (x, s')) \/ neutral s s'.
Proof.
  intros E H. specialize (H s). unfold bind in E. destruct (m s) as [[a|e] s1]; cbn in H; [by left; exists a, s1|].
  injection E as <- <-. by right.
Qed.

Lemma Scan_run operator c options now s x s' :
  Scan fuel operator (Some c) options now s = (x, s') -> committed s = Some (scan_report s, mdb (smgr s)) -> well s ->
  apart c (registry s) -> well s' /\ later s s'.
Proof.
  intros E Hc W Ha. assert (Hn : forall s2, neutral s s2 -> well s2 /\ later s s2).
  { intros s2 N. split; [by eapply well_neutral|by apply neutral_later]. }
  unfold ScanLaunch.Scan in E. cbv zeta in E. unfold bind at 1, wrapped at 1, of_result at 1 in E.
  destruct (GetRegistrationByProject _) as [[r|]|e] eqn:Er; try (injection E as <- <-; by apply Hn).
  destruct (Scan.reg_Disabled r); [injection E as <- <-; by apply Hn|].
  unfold bind at 1, on_registry at 1 in E. destruct (Scan.collectScanningArtifacts _ _ _ _ _ _ (registry s)) as [[[l b]|e] d] eqn:Ec;
    [|injection E as <- <-; apply Hn; by split].
  destruct (Ha _ _ _ _ Er Ec) as [Hp Hd]. set (s0 := with_registry s d) in E.
  assert (N0 : neutral s s0) by by split. unfold bind at 1, wrapped at 1, of_result at 1 in E.
  destruct (parseOptions options) as [opts|e]; [|injection E as <- <-; by apply Hn].
  destruct (negb b); [destruct (o_FromEvent opts); injection E as <- <-; by apply Hn|].
  unfold bind at 1 in E. destruct (ScanLaunch.place _ _ _ _ _ _ _ _ _ _ _ _ _ s0) as [y s1] eqn:Ep.
  destruct (place_run _ _ _ _ _ _ _ mimes uuid_inj _ _ _ _ _ _ _ _ _ _ _ Ep Hc W) as (W1 & G1 & H1); [done|done|done|constructor|].
  apply grown_later in G1 as L1. destruct y as [[errs ps]|e]; [|injection E as <- <-; split; [done|exact L1]].
  destruct (_ =? _)%nat; [injection E as <- <-; split; [done|exact L1]|].
  destruct H1 as [H1 H2]. cbn [fmap list_fmap app] in H2.
  set (mk := if o_ExecutionID opts =? 0 then _ else _) in E.
  assert (Hidle : idle mk) by (unfold mk; destruct (o_ExecutionID opts =? 0); [apply idle_CreateExecution|apply idle_ret]).
  clearbody mk. destruct (idle_step _ _ _ _ _ E Hidle) as [(id & s2 & N2 & _ & E2) | N2]; cycle 1.
  { split; [by eapply well_neutral|]. eapply later_trans; [exact L1|by apply neutral_later]. }
  assert (W2 : well s2) by by eapply well_neutral.
  assert (L2 : later s s2) by (eapply later_trans; [exact L1|by apply neutral_later]).
  destruct (launch_run r id opts now ps [] s2 W2) as (W3 & _ & C3 & D3 & T3).
  - rewrite (nt_report _ _ N2). eapply Forall_impl; [exact H1|]. intros p (A & B & C). split; [done|]. split; [done|].
    intros t u Ht. apply C. apply (stored_tasks _ (mdb (smgr s2))); [|done]. symmetry.
    by rewrite (dn_tasks _ _ (nt_db _ _ N2)), (dn_tasks _ _ (gr_db _ _ G1)).
  - eapply sublist_NoDup; [exact Hd|]. by apply fmap_sublist.
  - unfold bind in E2. destruct (launch id opts now ps [] s2) as [[errs3|e] s3] eqn:E3;
      cbn [snd] in *.
    all: assert (s3 = s') as -> by (try destruct (_ =? _)%nat; by injection E2).
    all: split; [done|]; eapply later_trans; [exact L2|]; by repeat split.
Qed.

(** In its own transaction. *)
Lemma scan_transaction operator c options now s :
  well s -> committed s = None -> apart c (registry s) ->
  let s' := (WithTransaction (Scan fuel operator (Some c) options now) s).2 in well s' /\ committed s' = None.
Proof.
  intros W Hc Ha. cbn zeta. unfold WithTransaction.
  assert (Ht : forall s1 x s2, dbcall (ret tt) s1 = (x, s2) -> neutral s1 s2).
  { intros s1 x s2 E1. pose proof (idle_dbcall _ (idle_ret tt) s1) as N. by rewrite E1 in N. }
  destruct (dbcall (ret tt) s) as [[u|e] s1] eqn:E1; pose proof (Ht _ _ _ E1) as N1; cycle 1.
  { split; [by eapply well_neutral|]. cbn. by rewrite (nt_committed _ _ N1). }
  assert (R1 : registry s1 = registry s).
  { unfold dbcall, bind, on_mgr, lift in E1. destruct (dbio _ _) as [[v|e] d]; by injection E1 as _ <-. }
  assert (C1 : committed s1 = None) by by rewrite (nt_committed _ _ N1). rewrite C1. cbn [default].
  set (s2 := with_committed s1 _). assert (W1 : well s1) by by eapply well_neutral.
  destruct (Scan fuel operator (Some c) options now s2) as [x s3] eqn:E2.
  destruct (Scan_run _ _ _ _ _ _ _ E2) as [W3 (L1 & L2 & L3)]; [done|exact W1|cbn; by rewrite R1|]. cbn in L1, L2.
  assert (Hu : forall s4, neutral s3 s4 -> well (undo s1 s4) /\ committed (undo s1 s4) = None).
  { intros s4 N. pose proof (nt_db _ _ N) as [A B C]. pose proof (nt_drawn _ _ N). split; [|done]. split.
    - destruct W1 as [G _]. cbn. eapply good_more; [exact G|done|cbn; lia|lia].
    - destruct W3 as [_ H3]. apply C in H3. exact H3. }
  destruct x as [a|e].
  - destruct (dbcall (ret tt) s3) as [[v|e] s4] eqn:E4; pose proof (Ht _ _ _ E4) as N4; [|by apply Hu].
    split; [|done]. exact (well_neutral _ _ _ _ _ W3 N4).
  - destruct (dbcall (ret tt) (undo s1 s3)) as [[v|e'] s4] eqn:E4; pose proof (Ht _ _ _ E4) as N4.
    all: destruct (Hu s3) as [W5 C5]; [reflexivity|]; split; [by eapply well_neutral|]; cbn [snd];
         by rewrite (nt_committed _ _ N4).
Qed.

(** What the rest of the system does to executions and tasks between scans:
    tasks of scans keep their reports and, once ended, stay so; new tasks are not
    tasks of scans. *)
Record others (d d' : db) : Prop := mkOthers {
  ot_next : next_task d <= next_task d';
  ot_fresh : fresh_ids d';
  ot_honest : honest d';
  ot_tasks : forall i t', tasks d' !! i = Some t' -> t_ID t' = i /\
    ((exists t, tasks d !! i = Some t /\ t_ExtraAttrs t' = t_ExtraAttrs t
                /\ (Status.Final (t_Status t) = true -> Status.Final (t_Status t') = true))
     \/ (next_task d <= i /\ uuids_of t' = []));
}.

(** And to reports: those of whole digests are deleted, the others get their
    results. *)
Definition revised (rows rows' : list Vuln.ReportRow) : Prop := exists gone f,
  (forall w, Vuln.rr_UUID (f w) = Vuln.rr_UUID w /\ key (f w) = key w)
  /\ rows' = f <$> List.filter (fun w => negb (existsb (String.eqb (Vuln.rr_Digest w)) gone)) rows.

Record meanwhile (s s' : st) : Prop := mkMeanwhile {
  el_db : others (mdb (smgr s)) (mdb (smgr s'));
  el_report : revised (scan_report s) (scan_report s');
  el_drawn : (drawn s <= drawn s')%nat;
  el_committed : committed s' = None;
}.

Lemma good_others rows n d d' : good Unmarshal uuid mimes rows n d -> others d d' -> good Unmarshal uuid mimes rows n d'.
Proof.
  intros Gd [O1 O2 _ O3]. pose proof Gd as [K F U Y R M D G S L].
  assert (Hs : forall t' u, stored d' t' -> u ∈ uuids_of t' -> exists t, stored d t /\ t_ID t = t_ID t'
             /\ uuids_of t = uuids_of t' /\ (Status.Final (t_Status t) = true -> Status.Final (t_Status t') = true)).
  { intros t' u [i Hi] Hu. destruct (O3 _ _ Hi) as [Hid [(t & Ht & He & Hf)|[_ He]]].
    - exists t. split; [by exists i|]. split; [by rewrite Hid, (K _ _ Ht)|]. split; [|done].
      unfold ScanLaunchSpec.uuids_of. by rewrite He.
    - rewrite He in Hu. by apply elem_of_nil in Hu. }
  split; try done.
  - intros i t Hi. by apply O3.
  - intros t' u H1 H2. destruct (Hs t' u H1 H2) as (t & A & _ & B & _). rewrite <- B in H2. by apply (D t).
  - intros w t' Hw H1 H2. destruct (Hs _ _ H1 H2) as (t & A & _ & B & _). rewrite <- B in H2 |- *. by apply G.
  - intros t1 t2 u H1 H2 H3 H4. destruct (Hs _ _ H1 H3) as (t & A & _ & B & _), (Hs _ _ H2 H4) as (t' & A' & _ & B' & _).
    rewrite <- B in H3 |- *. rewrite <- B' in H4 |- *. by eapply S.
  - intros t1 t2 u H1 H2 H3 H4 Hlt. destruct (Hs _ _ H1 H3) as (t & A & I & B & C), (Hs _ _ H2 H4) as (t' & A' & I' & B' & _).
    rewrite <- B in H3. rewrite <- B' in H4. apply C, (L t t' u); [done..|lia].
Qed.

Lemma good_revised rows rows' n d : good Unmarshal uuid mimes rows n d -> revised rows rows' -> good Unmarshal uuid mimes rows' n d.
Proof.
  intros [K F U Y R M D G S L] (gone & f & Hf & ->).
  assert (Hin : forall w', w' ∈ f <$> List.filter (fun w => negb (existsb (String.eqb (Vuln.rr_Digest w)) gone)) rows ->
            exists w, w ∈ rows /\ w' = f w /\ existsb (String.eqb (Vuln.rr_Digest w)) gone = false).
  { intros w' Hw. apply list_elem_of_fmap in Hw as (w & -> & Hw). apply list_elem_of_In, filter_In in Hw as [Hw Hg].
    exists w. split; [by apply list_elem_of_In|]. split; [done|]. by apply negb_true_iff. }
  assert (Hk : forall w, Vuln.rr_Digest (f w) = Vuln.rr_Digest w /\ Vuln.rr_RegistrationUUID (f w) = Vuln.rr_RegistrationUUID w
                         /\ Vuln.rr_MimeType (f w) = Vuln.rr_MimeType w).
  { intros w. destruct (Hf w) as [_ H]. unfold key in H. by injection H. }
  split; try done.
  - intros w1 w2 (v1 & H1 & -> & _)%Hin (v2 & H2 & -> & _)%Hin E. f_equal. apply U; [done..|].
    by rewrite !(proj1 (Hf _)) in E.
  - intros w1 w2 (v1 & H1 & -> & _)%Hin (v2 & H2 & -> & _)%Hin E. f_equal. apply Y; [done..|].
    by rewrite !(proj2 (Hf _)) in E.
  - intros w1 (v1 & H1 & -> & _)%Hin. rewrite (proj1 (Hf _)). by apply R.
  - intros w1 (v1 & H1 & -> & _)%Hin. destruct (Hk v1) as (-> & -> & ->). by apply M.
  - intros w1 t (v1 & H1 & -> & Hg)%Hin Ht Hu. rewrite (proj1 (Hf _)) in Hu. destruct (Hk v1) as (-> & -> & _).
    eapply Forall2_impl; [by apply (G v1)|]. intros m u (w & A & B & C & E & I). exists (f w).
    destruct (Hk w) as (-> & -> & ->). rewrite (proj1 (Hf w)). split; [|by repeat split].
    apply list_elem_of_fmap. exists w. split; [done|]. apply list_elem_of_In, filter_In. split; [by apply list_elem_of_In|].
    by rewrite C, Hg.
Qed.

Lemma well_meanwhile s s' : well s -> meanwhile s s' -> well s'.
Proof.
  intros [G _] [A B C _]. split; [|by apply A]. eapply good_more; [|done|lia|exact C]. eapply good_revised; [|exact B].
  by eapply good_others.
Qed.

(** Without reports and tasks. *)
Definition empty_state (s : st) : Prop :=
  scan_report s = [] /\ tasks (mdb (smgr s)) = ∅ /\ committed s = None /\ honest (mdb (smgr s)).

Inductive reachable : st -> Prop :=
| reach_empty s : empty_state s -> reachable s
| reach_scan s operator c options now :
    reachable s -> apart c (registry s) ->
    reachable (WithTransaction (Scan fuel operator (Some c) options now) s).2
| reach_meanwhile s s' : reachable s -> meanwhile s s' -> reachable s'.

Lemma reachable_well s : reachable s -> well s /\ committed s = None.
Proof.
  induction 1 as [s (A & B & C & H)|s operator c options now _ [W Hc] Ha|s s' _ [W _] He].
  - split; [|done]. split; [|done]. rewrite A.
    assert (Hs : forall t, ~ stored (mdb (smgr s)) t) by (intros t [i Hi]; by rewrite B in Hi).
    assert (Hr : forall w : Vuln.ReportRow, w ∉ []) by (intros w; by apply not_elem_of_nil).
    split; try (intros; exfalso; first [by eapply Hs|by eapply Hr]).
    + intros i t Hi. by rewrite B in Hi.
    + intros i _. by rewrite B.
  - by apply scan_transaction.
  - split; [by eapply well_meanwhile|by apply He].
Qed.

(** The scan of all artifacts is a sequence of such steps. *)
Lemma scan_turns_reachable executionID l sum s :
  reachable s ->
  (forall t s1, t ∈ l -> reachable s1 -> meanwhile s1 (tn_world t s1) /\ apart (tn_artifact t) (registry (tn_world t s1))) ->
  reachable (scan_turns doublestar_Match parse_untagged sort_by SubmitJob Marshal Unmarshal coreURL GetRegistrationByProject
    FromRelationalSchema uuid uuid_Parse Encrypt rnd RobotPrefix ScannerRobotPrefix attempts registry_address
    json_registration json_request json_robot json_strings fuel executionID l sum s).2.
Proof.
  revert sum s. induction l as [|t l IH]; intros sum s Hs Hl; cbn [scan_turns]; [done|].
  destruct (Hl t s) as [He Ha]; [by left|done|]. assert (H1 : reachable (tn_world t s)) by by eapply reach_meanwhile.
  unfold bind at 1, modify at 1, bind at 1, get at 1. destruct (isScanAllStopped _ _ _); [done|].
  unfold bind, try. pose proof (reach_scan _ "" (tn_artifact t) [WithExecutionID executionID] (tn_now t) H1 Ha) as H2.
  destruct (WithTransaction _ _) as [x s2]. apply IH; [exact H2|]. intros t' s1 Ht. apply Hl. by right.
Qed.

(** C12: Under any sequence of scans, one at a time, each with any outcome and any
    failures of the database, the job service and the accounts, at most one scan of
    a report is unfinished: a task that has not ended is the newest task that names
    the report, so every other one has ended.  No two artifacts that one scan
    collects share their digest, what a scanner produces for a digest does not
    change, drawn identifiers are not drawn again, attributes can be read back, and
    no failure of the database looks like a missing row.  Between the scans the rest
    of the system makes no tasks of scans, keeps the attributes of theirs, reopens
    none that has ended, and deletes only all the reports of a digest. *)
Theorem one_unfinished_scan s t u :
  reachable s -> stored (mdb (smgr s)) t -> u ∈ uuids_of t -> Status.Final (t_Status t) = false ->
  newest Unmarshal (mdb (smgr s)) u t
  /\ forall t', stored (mdb (smgr s)) t' -> u ∈ uuids_of t' -> t' <> t -> Status.Final (t_Status t') = true.
Proof.
  intros H Ht Hu Hf. destruct (reachable_well s H) as [[G _] _].
  assert (N : newest Unmarshal (mdb (smgr s)) u t).
  { split; [done|]. split; [done|]. intros t' Ht' Hu'. destruct (decide (t_ID t < t_ID t')) as [Hlt|]; [|lia].
    pose proof (g_last _ _ _ _ _ _ G t t' u Ht Ht' Hu Hu' Hlt). congruence. }
  split; [exact N|]. intros t' Ht' Hu' Hn. destruct N as (_ & _ & L). specialize (L t' Ht' Hu').
  apply (g_last _ _ _ _ _ _ G t' t u Ht' Ht Hu' Hu). destruct (decide (t_ID t' = t_ID t)) as [E|]; [|lia].
  destruct Hn. by eapply stored_id.
Qed.
End Steps.
End Launching.

(** ** The scan of all artifacts *)

Section All.
Context (doublestar_Match : string -> string -> result bool) (parse_untagged : string -> option bool).
Context (sort_by : (Retention.Candidate -> Z) -> list Retention.Candidate -> list Retention.Candidate).
Context (SubmitJob : JobData -> result string) (Marshal : Attrs -> result string) (Unmarshal : string -> Attrs) (coreURL : string).
Context (GetRegistrationByProject : Z -> result (option Scan.Registration)).
Context (FromRelationalSchema : string -> string -> string -> result string).
Context (uuid : nat -> string) (uuid_Parse : string -> bool).
Context (Encrypt : string -> string -> string) (rnd : nat -> string) (RobotPrefix ScannerRobotPrefix : string).
Context (attempts : nat) (registry_address : bool -> result string).
Context (json_registration : Scan.Registration -> result string) (json_request : ScanRequest -> result string).
Context (json_robot : Robot.Robot -> result string) (json_strings : list string -> string).

Abbreviation scan_turns := (scan_turns doublestar_Match parse_untagged sort_by SubmitJob Marshal Unmarshal coreURL
  GetRegistrationByProject FromRelationalSchema uuid uuid_Parse Encrypt rnd RobotPrefix ScannerRobotPrefix attempts
  registry_address json_registration json_request json_robot json_strings).

(** Every artifact counts once. *)
Definition balanced (s : ScanSummary) : Prop :=
  TotalCount s = SubmitCount s + ConflictCount s + PreconditionCount s + UnsupportCount s + UnknowCount s
  /\ 0 <= SubmitCount s /\ 0 <= ConflictCount s /\ 0 <= PreconditionCount s /\ 0 <= UnsupportCount s /\ 0 <= UnknowCount s.

Lemma count_scan_balanced sum r :
  balanced sum -> balanced (count_scan sum r) /\ TotalCount (count_scan sum r) = TotalCount sum + 1.
Proof.
  destruct sum as [t s c p b u]. unfold balanced. cbn. intros H. destruct r as [a|e]; [cbn; lia|].
  destruct (ErrCode e =s= ConflictCode); [cbn; lia|]. destruct (ErrCode e =s= PreconditionCode); [cbn; lia|].
  destruct (ErrCode e =s= BadRequestCode); cbn; lia.
Qed.

Lemma scan_turns_counts fuel executionID l sum s :
  match scan_turns fuel executionID l sum s with
  | (Ok sum', _) => balanced sum -> balanced sum' /\ TotalCount sum' = TotalCount sum + Z.of_nat (length l)
  | (Err e, _) => e = errScanAllStopped
  end.
Proof.
  revert sum s. induction l as [|t l IH]; intros sum s; cbn [ScanLaunch.scan_turns].
  { cbn. intros H. split; [done|lia]. }
  unfold bind at 1, modify at 1, bind at 1, get at 1. destruct (isScanAllStopped _ _ _); [done|].
  unfold bind, try. destruct (WithTransaction _ _) as [r s2]. specialize (IH (count_scan sum r) s2).
  destruct (scan_turns fuel executionID l _ s2) as [[sum'|e] s3]; [|done]. intros H.
  destruct (count_scan_balanced sum r H) as [A B]. destruct (IH A) as [C D]. split; [done|]. rewrite D, B. cbn [length]. lia.
Qed.
End All.

(** ** A scan *)

#[export] Instance ScanSummary_eq_dec : EqDecision ScanSummary.
Proof. solve_decision. Defined.
#[export] Instance Attrs_eq_dec : EqDecision Attrs.
Proof. solve_decision. Defined.

(** Identifiers that are as long as their number. *)
Fixpoint sample_uuid (n : nat) : string := match n with O => "" | S n => String "u" (sample_uuid n) end.

Lemma sample_uuid_inj i j : sample_uuid i = sample_uuid j -> i = j.
Proof. revert j. induction i as [|i IH]; intros [|j]; try done. cbn. intros [= E]. f_equal. by apply IH. Qed.

Definition sample_image : Artifact.ArtifactC :=
  Artifact.mkArtifactC (ArtifactDb.mkArtifact (ArtifactDelete.sample_art 3 ArtifactDelete.image_type "sha256:b") [] []) "" [] [] [] [].

(** An encoding of what the sample needs: the attributes of the execution, and
    those of its task. *)
Definition execution_attrs : Attrs := scan_attrs (ArtifactDb.row (Artifact.art sample_image)) Scan.sample_registration ScanTypeVulnerability "".

Definition sample_text (a : Attrs) : string :=
  match at_report_uuids a with Some us => String "t" (Join us ",") | None => "e" end.

Definition sample_Unmarshal (text : string) : Attrs :=
  match text with
  | String "t" us => task_extra 3 "v3" 1 (Split us ",")
  | _ => execution_attrs
  end.

(** Other attributes are refused. *)
Definition sample_Marshal (a : Attrs) : result string :=
  if decide (sample_Unmarshal (sample_text a) = a) then Ok (sample_text a) else Err (Plain "json").

Lemma sample_Unmarshal_Marshal a data : sample_Marshal a = Ok data -> sample_Unmarshal data = a.
Proof. unfold sample_Marshal. destruct (decide _) as [E|]; [|done]. by intros [= <-]. Qed.

Abbreviation sample_Scan options now := (WithTransaction (ScanLaunch.Scan Retention.sample_Match Retention.sample_parse
  Retention.sample_sort (fun _ => Ok "job"%string) sample_Marshal sample_Unmarshal "http://core"
  (fun _ => Ok (Some Scan.sample_registration)) (fun _ _ text => Ok text) sample_uuid (fun _ => true) RobotFlow.sample_hash
  RobotFlow.sample_rnd "robot$" "scanner" 5 (fun _ => Ok "http://registry"%string) (fun _ => Ok "{}"%string)
  (fun _ => Ok "{}"%string) (fun _ => Ok "{}"%string) (fun _ => "[]"%string) 8 "" (Some sample_image) options now)).

Definition sample_st : st :=
  mkSt (ArtifactDelete.sample_db [] []) (mkMgr (mkDb ∅ ∅ 1 1 [] [] None) [] []) [] RobotFlow.sample_store 1 ∅ [] None.

Definition scanned : result unit * st := sample_Scan [] 100 sample_st.

(** The second scan meets the first one, which has not ended. *)
Definition scanned_again : result unit * st := sample_Scan [] 110 scanned.2.

Definition sample_mimes (digest reg : string) : list string := [Vuln.MimeTypeGenericVulnerabilityReport].

Lemma sample_apart d : d = registry sample_st \/ d = registry scanned.2 ->
  apart Retention.sample_Match Retention.sample_parse Retention.sample_sort (fun _ => Ok (Some Scan.sample_registration))
    sample_mimes 8 sample_image d.
Proof.
  intros D r l b d' [= <-] E. assert (El : l = [sample_image]) by (destruct D as [->| ->]; vm_compute in E; by injection E as <- _ _).
  subst l. split.
  - constructor; [|constructor]. split; [done|reflexivity].
  - apply NoDup_singleton.
Qed.

Lemma one_unfinished_scan_witness :
  scanned_again.1 = Err (Coded ConflictCode "a previous scan process is Pending" None)
  /\ exists t, tasks (mdb (smgr scanned_again.2)) !! 1 = Some t /\ t_Status t = Status.PendingStatus
     /\ forall t', stored (mdb (smgr scanned_again.2)) t' -> "u" ∈ uuids_of sample_Unmarshal t' -> t' <> t ->
          Status.Final (t_Status t') = true.
Proof.
  split; [vm_compute; reflexivity|].
  destruct (tasks (mdb (smgr scanned_again.2)) !! 1) as [t|] eqn:L; [|vm_compute in L; discriminate L].
  assert (S : t_Status t = Status.PendingStatus /\ uuids_of sample_Unmarshal t = ["u"]).
  { vm_compute in L. injection L as <-. split; vm_compute; reflexivity. }
  destruct S as [S U]. exists t. split; [reflexivity|]. split; [exact S|].
  refine (proj2 (one_unfinished_scan Retention.sample_Match Retention.sample_parse Retention.sample_sort
    (fun _ => Ok "job"%string) sample_Marshal sample_Unmarshal "http://core" (fun _ => Ok (Some Scan.sample_registration))
    (fun _ _ text => Ok text) sample_uuid (fun _ => true) RobotFlow.sample_hash RobotFlow.sample_rnd "robot$" "scanner" 5
    (fun _ => Ok "http://registry"%string) (fun _ => Ok "{}"%string) (fun _ => Ok "{}"%string) (fun _ => Ok "{}"%string)
    (fun _ => "[]"%string) sample_mimes sample_uuid_inj sample_Unmarshal_Marshal 8 scanned_again.2 t "u" _ _ _ _)).
  - apply reach_scan; [apply reach_scan; [apply reach_empty|apply sample_apart; by left]|apply sample_apart; by right].
    repeat split; constructor.
  - by exists 1.
  - rewrite U. by apply list_elem_of_singleton.
  - by rewrite S.
Defined.

(** An error of a page ends the iteration over the artifacts: the scan of all of
    them is then one of the first pages only. *)
Example iterator_error_ends : Iterator 2 [Ok [1; 2]; Err (PgError "57P01"); Ok [3]] = [1; 2].
Proof. reflexivity. Qed.
